(* ===== verification/_CoqProject ===== *)
-Q . S2P
Prelude.v
NetSm.v
WifiSm.v
WifiProps.v
TokenSm.v
TokenProps.v
TimePolicy.v
TimeProps.v
AuthPolicy.v
AuthProps.v
HealthTable.v
HealthProps.v
HealthPolicy.v
HealthPolicyProps.v
SkSelect.v
SkSelectProps.v
Sha256.v
B64.v
BleProto.v
BleProps.v
PowerPolicy.v
WifiAux.v
ConfigDesc.v
ConfigStore.v
ConfigLaws.v
ConfigMem.v
ConfigSpec.v
ConfigInv.v
ConfigLife.v
ConfigOps.v
ConfigPlan.v
ConfigLock.v
ConfigProps.v
ConfigNvs.v
CardFs.v
SdlogSession.v
SdlogRules.v
SdlogPaths.v
SdlogInv.v
SdlogOps.v
SdlogCard.v
SdlogRecover.v
SdlogOpen.v
SdlogInfo.v
SdlogProps.v
SdlogPrune.v
SdlogRuns.v
SkNvs.v
SkTlsPolicy.v
SkTls.v
SkTlsProps.v
SkTlsRuns.v
SkStore.v
Sched.v
SchedProps.v
SchedTime.v
Flow.v
FlowProps.v
FlowRuns.v
OtaManifest.v
OtaPick.v
OtaEngine.v
OtaProps.v
OtaRuns.v
Nmea.v
NmeaProps.v
NmeaReader.v
Double.v
DoubleProps.v
NmeaDecode.v
NmeaAngle.v
NmeaSk.v
SkDelta.v
SkDeltaText.v
SkDeltaRing.v
SkDeltaWindow.v
SkDeltaEngine.v
SkDeltaProps.v
Log.v
LogProps.v
