(* ===== verification/Prelude.v ===== *)
(** espOS in Rocq: the decision logic of the firmware components of espOS (an
    operating layer for ESP32 devices on a boat's Signal K network), modelled from
    the C sources under src/components/ and proved correct.

    * The program

    espOS keeps what decides in plain C files without drivers: state machines
    driven by events through a port (a struct of function pointers), policies
    over a clock, tables, codecs, and a few subsystems that keep data on flash or
    on a card. Tasks, drivers, HTTP handlers and sockets around them move events
    in and effects out. This development models the former, file by file; the
    port, the driver, the allocator, the random numbers and the storage library
    are parameters, with what the code relies on as laws.

    * Conventions

    A [uintN_t] is a [Z] with its wrap-around written out ([u8] .. [u64]), a C
    string the list of its bytes ([cstr]), a table of slots a list, a struct a
    record with functional update. Stateful code is a computation of the machine
    [act] of this file: state, world behind the port, and the trace of what was
    done to the world; [query] asks the world, [emit] enters the trace. Fallible
    functions return an [esp_err_t] as in the source. A recursion that is not
    structural runs on fuel and a theorem shows that the fuel is enough
    (start_attempt of the WiFi machine: one attempt per network); loops over data
    are structural.

    * The files

    Prelude             integers, strings, printf, the machine, shared lemmas and tactics
    NetSm               espos_net/net_sm.c: which interface carries the default route; the
                        machine refines a function of the reports alone; the retry curve
    WifiSm, WifiProps   espos_wifi/wifi_sm.c: station, networks, backoff, setup portal; the
                        invariant of every reachable configuration: a waiting machine has its
                        timer armed, the portal never opens inside an association and only
                        when allowed, transitions are those of the documented diagram
    WifiAux             wifi_fresh.c, wifi_last_ap.c, wifi_stall.c
    TokenSm, TokenProps espos_sk/token_sm.c: the access-token machine over asynchronous HTTP;
                        the token changes only on proof, the store follows, it never stalls
    SkSelect, SkSelectProps    sk_select.c: the device's own server among the discovered
    SkNvs               the flash namespace of espos_sk
    SkTlsPolicy, SkTls, SkTlsProps, SkTlsRuns  sk_tls_policy.c, sk_tls.c: trust on first use,
                        the set of host names, the anchor and its storage
    SkStore             sk_store.c: token, client id and vessel id across power cuts
    TimePolicy, TimeProps      espos_time/time_policy.c: clock sources, calendar, ISO 8601
    AuthPolicy, AuthProps      espos_httpd/auth_policy.c: sessions, throttle, decision
    HealthTable, HealthProps   espos_health/espos_health.c: conditions, sinks, drills
    HealthPolicy, HealthPolicyProps   health_policy.c: memory, stalled tasks, restart
    PowerPolicy         espos_power/power_policy.c: when the device sleeps
    Sha256              espos_sdlog/sdlog_sha256.c against FIPS 180-4, and the CRC-32
    B64                 espos_config/b64.c
    BleProto, BleProps  espos_ble/ble_proto.c: queues, UUIDs, the POST schedule
    ConfigDesc .. ConfigNvs    espos_config/espos_config.c, backend_mem.c, backend_nvs.c
    CardFs .. SdlogRuns        espos_sdlog/sdlog_session.c
    Sched, SchedProps, SchedTime      espos_flow/espos_sched.c: the timer wheel
    Flow, FlowProps, FlowRuns  espos_flow/espos_flow.c: the loop and its mailbox
    OtaManifest, OtaPick       espos_ota/manifest.c: versions, addresses, the choice of a build
    OtaEngine, OtaProps, OtaRuns      espos_ota/espos_ota.c: the update task
    Nmea, NmeaProps, NmeaReader       espos_nmea0183/nmea0183_parse.c: sentences and the stream
    Double, DoubleProps        IEEE doubles: decimals, and bounds on rounded results
    NmeaDecode, NmeaAngle, NmeaSk     the decoders of nmea0183_parse.c, nmea0183_sk_map.c
                        and nmea0183_sk_publish.c: Signal K values and the clock
    SkDelta .. SkDeltaProps    espos_sk/sk_delta.c: batching, the offline ring, timestamps
    Log, LogProps       espos_log/espos_log.c: the ring of recent log lines

    * The configuration store

    [ConfigDesc] has the descriptors and the validation of values, [ConfigStore] the
    whole of espos_config.c over the backend interface, [ConfigLaws] that interface
    as a class over an abstract view of the storage. [ConfigSpec], [ConfigInv],
    [ConfigLife], [ConfigOps] and [ConfigPlan] give each operation its effect on the
    view and show that it keeps the invariant; [ConfigLock] runs arbitrary
    sequences of calls and shows the discipline of the mutex; [ConfigProps] has the
    properties. [ConfigMem] and [ConfigNvs] discharge the class for the two
    backends, the second over any flash library that behaves as documented.

    * The SD logger

    [CardFs] is a file system of files with a synced length whose calls may fail,
    and the power cut on it; every change enters the trace, so the trace is the
    list of the moments at which the power may go. [SdlogSession] is the whole of
    sdlog_session.c. [SdlogRules] is a crash logic (a weakest precondition with a
    condition for every moment), [SdlogPaths] .. [SdlogInfo] the specification of
    each operation in it, [SdlogProps] and [SdlogPrune] the properties,
    [SdlogRuns] concrete runs and the two cases in which the code does not keep
    what its manual promises.

    * The flow loop

    [Sched] is the timer wheel on the wrapping clock, written over a host (a class:
    a state that has a wheel and runs callbacks, which may not return). [SchedProps]
    shows what a sweep does for every host whose callbacks touch the wheel through
    its calls, and gives callbacks as programs; [SchedTime] is about the clock and
    the handles. [Flow] is the loop, a host of the wheel whose computations are
    partial, because its mutex cannot be taken twice; [FlowProps] instantiates the
    class for it and has the mailbox as a queue, [FlowRuns] concrete runs. A sweep
    has one round per slot and one more, which is enough; flow_task and
    run_until_idle are given by their number of passes.

    * Updates

    [OtaManifest] reads the manifest through a class of the cJSON accessors it uses;
    [OtaPick] shows that the chosen build is the newest that suits, when the
    versions of those that suit start with numbers. [OtaEngine] is
    the task and its calls: while it waits, other tasks send commands, change the
    configuration and announce servers, as the world decides; a call may be caught
    between its look at the state and its place in the queue. [OtaProps] follows
    every run with an automaton of the update protocol, states the policy that
    confirms or rolls back a new image, and shows that no status document is ever
    cut. Runs are given by their number of rounds.

    * NMEA 0183

    [Nmea] has the parser, the reader of the byte stream and the integer fields;
    [NmeaProps] gives the grammar the parser accepts and the round trip between two
    devices, [NmeaReader] the fate of every segment of a stream and the dates
    against the calendar of [TimeProps]. [Double] is floating point over the
    standard library's specification; [DoubleProps] bounds rounded results between
    integers, which is what [NmeaAngle] needs to show that the loops over angles end
    (four rounds each are enough) and that places are in range. [NmeaSk] has the table
    of what each sentence says, what is published of it, and the clock, composed with the clock policy.

    * Deltas

    [SkDelta] is the whole engine over a port (allocator and wall clock).
    [SkDeltaText] has messages as data and how they print: what is written is that
    text, inside a buffer that is always large enough; and a reader that gets the
    values back from the text. [SkDeltaRing] shows that the
    ring refines a bounded queue, [SkDeltaWindow] has the invariant of the open
    window and the values it holds for a path. [SkDeltaEngine] puts them together
    with the buffers of the heap and gives each call its effect; [SkDeltaProps] runs
    the engine with its sender and reads what was sent.
    The loop that makes room runs once per queued message, which is enough.

    * The log ring

    [Log] is the byte ring and the hook that fills it; [LogProps] reads the bytes
    around the ring as records, shows that the operations are those of a bounded
    queue of numbered lines, and gives the lines a stream of calls leaves there. The
    loop that makes room runs on the number of bytes in use, more than its records.

    * What the theorems show

    Safety and liveness of the machines over all sequences of events; refinement of
    abstract queues, routes, clocks and storage; equivalence of routines with a
    reference definition (decision tables, hashes, choices); round trips of text
    forms; bounds (wrong keys per time, rows lost to a power cut); termination; and
    where the code does not do what its documentation says, the counterexample.

    * Not modelled

    The ports to ESP-IDF and FreeRTOS, drivers, tasks, sockets and HTTP handlers
    (they have no decision to state beyond the files above); code on cJSON (the
    configuration's JSON import and export, inbound messages); the C++
    components (NMEA 2000, voice, USB storage, flow blocks), the web UI, the
    vendored libraries, tests and examples. Calls that only write
    a log line are left out throughout. *)
From Stdlib Require Import ZArith Lia String Ascii.
From stdpp Require Import base list numbers sets.
Open Scope Z_scope.

(** [lia] with the quotients and remainders by constants described. *)
Ltac div_lia := Z.to_euclidean_division_equations; lia.

(** * Machine integers

    A [uintN_t] is a [Z] kept in [0 .. 2^N); the wrap-around of the C
    conversions is written out by [u8] .. [u64], the reinterpretation as a
    signed integer by [i32] and [i64]. *)

Definition u8 (x : Z) : Z := x mod 2 ^ 8.
Definition u16 (x : Z) : Z := x mod 2 ^ 16.
Definition u32 (x : Z) : Z := x mod 2 ^ 32.
Definition u64 (x : Z) : Z := x mod 2 ^ 64.
Definition i32 (x : Z) : Z := (x + 2 ^ 31) mod 2 ^ 32 - 2 ^ 31.
Definition i64 (x : Z) : Z := (x + 2 ^ 63) mod 2 ^ 64 - 2 ^ 63.

Definition UINT32_MAX : Z := 2 ^ 32 - 1.

(** Bits side by side. *)
Lemma lor_split a b n : 0 <= n -> 0 <= b < 2 ^ n -> Z.lor (Z.shiftl a n) b = a * 2 ^ n + b.
Proof.
  intros Hn Hb. rewrite Z.shiftl_mul_pow2 by lia. rewrite <- Z.lxor_lor, <- Z.add_nocarry_lxor; try done.
  all: rewrite <- Z.shiftl_mul_pow2 by lia; apply Z.bits_inj'; intros k Hk; rewrite Z.land_spec, Z.bits_0, Z.shiftl_spec by lia.
  all: destruct (Z.lt_ge_cases k n); [by rewrite Z.testbit_neg_r by lia|].
  all: rewrite andb_comm; destruct (Z.eq_dec b 0) as [->|]; [by rewrite Z.bits_0|].
  all: rewrite (Z.bits_above_log2 b); [done|lia|]; apply Z.lt_le_trans with n; [|done]; apply Z.log2_lt_pow2; lia.
Qed.

(** * C strings: the bytes before the terminating NUL, as [0..255]. *)

Abbreviation cstr := (list Z).

(** A string literal of the source. *)
Definition lit (s : string) : cstr :=
  List.map (fun c => Z.of_N (N_of_ascii c)) (list_ascii_of_string s).

(** Text of the source with its quotation marks written as apostrophes. *)
Definition js (s : string) : cstr := List.map (fun c => if c =? 39 then 34 else c) (lit s).

(** [snprintf(dst, cap, "%s", src)]: what fits before the terminator. *)
Definition snprintf_s (cap : nat) (s : cstr) : cstr := take (pred cap) s.

(** [s[0]]: the first byte, NUL for the empty string. *)
Definition byte0 (s : cstr) : Z := match s with [] => 0 | c :: _ => c end.

(** [strcmp(a, b) == 0] *)
Definition streq (a b : cstr) : bool := bool_decide (a = b).

Lemma streq_true a b : streq a b = true <-> a = b.
Proof. unfold streq. apply bool_decide_eq_true. Qed.
Lemma streq_false a b : streq a b = false <-> a <> b.
Proof. unfold streq. apply bool_decide_eq_false. Qed.
Lemma streq_refl a : streq a a = true.
Proof. by apply streq_true. Qed.

(** [strncmp(a, b, n) == 0] for strings given up to their terminator *)
Definition strneq (n : nat) (a b : cstr) : bool := bool_decide (take n a = take n b).

Fixpoint is_prefix (p s : cstr) : bool :=
  match p, s with
  | [], _ => true
  | x :: p', y :: s' => (x =? y) && is_prefix p' s'
  | _ :: _, [] => false
  end.

(** [strstr(s, p) != NULL] *)
Fixpoint strstr (s p : cstr) : bool :=
  is_prefix p s || match s with [] => false | _ :: s' => strstr s' p end.

(** [printf] of an integer with [%d]: at most twenty digits, the width of a
    64-bit integer. *)
Fixpoint dec_digits (fuel : nat) (n : Z) (acc : cstr) : cstr :=
  match fuel with
  | O => acc
  | S k => if n <? 10 then 48 + n :: acc else dec_digits k (n / 10) (48 + n mod 10 :: acc)
  end.
Definition fmt_d (n : Z) : cstr := if n <? 0 then 45 :: dec_digits 20 (- n) [] else dec_digits 20 n [].

(** [%0<w>d] of a non-negative integer *)
Definition fmt_0d (w : nat) (n : Z) : cstr :=
  let s := fmt_d n in replicate (w - length s) 48 ++ s.

(** Exactly [w] decimal digits. *)
Fixpoint dec_fixed (w : nat) (n : Z) : cstr :=
  match w with O => [] | S k => dec_fixed k (n / 10) ++ [48 + n mod 10] end.

Lemma length_dec_fixed w n : length (dec_fixed w n) = w.
Proof. revert n. induction w as [|w IH]; intros n; [done|]. cbn [dec_fixed]. rewrite length_app, IH. cbn. lia. Qed.

Lemma dec_fixed_0 w : dec_fixed w 0 = replicate w 48.
Proof.
  induction w as [|w IH]; [done|]. cbn [dec_fixed]. change (0 / 10) with 0. rewrite IH.
  change [48 + 0 mod 10] with (replicate 1 48). rewrite <- replicate_add. f_equal. lia.
Qed.

Lemma dec_digits_fixed w fuel n acc :
  0 <= n < 10 ^ Z.of_nat (S w) -> (S w <= fuel)%nat ->
  replicate (S w + length acc - length (dec_digits fuel n acc)) 48 ++ dec_digits fuel n acc = dec_fixed (S w) n ++ acc.
Proof.
  revert fuel n acc. induction w as [|w IH]; intros [|fuel] n acc Hn Hf; try lia; cbn [dec_digits].
  - change (10 ^ Z.of_nat 1) with 10 in Hn. destruct (Z.ltb_spec n 10); [|lia]. cbn [length].
    replace (1 + length acc - S (length acc))%nat with 0%nat by lia. cbn. by rewrite Z.mod_small by lia.
  - destruct (Z.ltb_spec n 10).
    + cbn [length]. replace (S (S w) + length acc - S (length acc))%nat with (S w) by lia.
      change (dec_fixed (S (S w)) n) with (dec_fixed (S w) (n / 10) ++ [48 + n mod 10]).
      rewrite Z.div_small, Z.mod_small, dec_fixed_0, <- app_assoc by lia. done.
    + change (dec_fixed (S (S w)) n) with (dec_fixed (S w) (n / 10) ++ [48 + n mod 10]).
      rewrite <- app_assoc. cbn [app]. rewrite <- (IH fuel (n / 10) (48 + n mod 10 :: acc)).
      * cbn [length]. f_equal. f_equal. lia.
      * rewrite (Nat2Z.inj_succ (S w)), Z.pow_succ_r in Hn by lia. revert Hn. generalize (10 ^ Z.of_nat (S w)). intros. div_lia.
      * lia.
Qed.

Lemma dec_digits_length k fuel n acc : 0 <= n < 10 ^ Z.of_nat (S k) -> (length (dec_digits fuel n acc) <= S k + length acc)%nat.
Proof.
  revert fuel n acc. induction k as [|k IH]; intros [|fuel] n acc Hn; cbn [dec_digits]; try lia.
  - change (10 ^ Z.of_nat 1) with 10 in Hn. destruct (Z.ltb_spec n 10); cbn; lia.
  - destruct (Z.ltb_spec n 10); [cbn; lia|]. eapply Nat.le_trans; [apply IH|cbn; lia]. rewrite (Nat2Z.inj_succ (S k)), Z.pow_succ_r in Hn by lia. generalize dependent (10 ^ Z.of_nat (S k)). intros. div_lia.
Qed.

Lemma fmt_d_length k n : 0 <= n < 10 ^ Z.of_nat (S k) -> (length (fmt_d n) <= S k)%nat.
Proof. intros Hn. unfold fmt_d. destruct (Z.ltb_spec n 0); [lia|]. eapply Nat.le_trans; [by apply (dec_digits_length k)|cbn; lia]. Qed.

Lemma fmt_0d_fixed w n : (1 <= w <= 20)%nat -> 0 <= n < 10 ^ Z.of_nat w -> fmt_0d w n = dec_fixed w n.
Proof.
  intros Hw Hn. unfold fmt_0d, fmt_d. destruct (Z.ltb_spec n 0); [lia|]. destruct w as [|w]; [lia|].
  pose proof (dec_digits_fixed w 20 n [] Hn ltac:(lia)) as H1. cbn [length] in H1. rewrite Nat.add_0_r, app_nil_r in H1. done.
Qed.

(** * Record update

    [r <| f := v |>] is the record [r] with field [f] replaced, as a C
    assignment to a struct member; [r <| f ; g := v |>] assigns a member of a
    nested struct. A record type is made updatable by an [Eta] instance that
    rebuilds it from its projections. *)

Class Eta (R : Type) := eta : R -> R.
Class Updater {R F : Type} (proj : R -> F) := update : (F -> F) -> R -> R.
Arguments update {R F} proj {Updater} _ _ / : assert.

Ltac solve_updater R proj :=
  let inst := constr:(_ : Eta R) in
  let body := eval hnf in inst in
  let body := eval cbv beta in body in
  match eval pattern proj in body with
  | ?abs _ =>
      let u := constr:(fun (g : _ -> _) => abs (fun r => g (proj r))) in
      let u := eval cbv beta in u in
      exact u
  end.
#[export] Hint Extern 1 (@Updater ?R _ ?proj) => solve_updater R proj : typeclass_instances.

Declare Scope espos_scope.
Delimit Scope espos_scope with espos.
Notation "r <| f := v |>" := (update f (fun _ => v) r)
  (at level 1, f at level 1, left associativity) : espos_scope.
Notation "r <| f ::= g |>" := (update f g r)
  (at level 1, f at level 1, left associativity) : espos_scope.
Notation "r <| f ; g := v |>" := (update f (update g (fun _ => v)) r)
  (at level 1, f at level 1, g at level 1, left associativity) : espos_scope.
Notation "r <| f ; g ::= h |>" := (update f (update g h) r)
  (at level 1, f at level 1, g at level 1, left associativity) : espos_scope.
Open Scope espos_scope.

(** * A C state machine behind a port

    The state machines of the code are C structs driven through a table of
    function pointers (the port) and an opaque context. A machine
    configuration is the struct, the world behind the context, and the trace of
    the port calls and inputs so far, the most recent first. *)

Record mach (SM W O : Type) := Mach { m_sm : SM; m_world : W; m_trace : list O }.
Arguments Mach {SM W O} _ _ _.
Arguments m_sm {SM W O} _.
Arguments m_world {SM W O} _.
Arguments m_trace {SM W O} _.

(** A computation of a machine: a C statement list with a result. *)
Definition act (SM W O A : Type) : Type := mach SM W O -> A * mach SM W O.

Section Machine.
Context {SM W O : Type}.

#[global] Instance act_ret : MRet (act SM W O) := fun A a s => (a, s).
#[global] Instance act_bind : MBind (act SM W O) :=
  fun A B k m s => let '(a, s') := m s in k a s'.

(** Read the struct. *)
Definition gets {A} (f : SM -> A) : act SM W O A := fun s => (f (m_sm s), s).

(** Assign to the struct. *)
Definition mods (f : SM -> SM) : act SM W O unit :=
  fun s => (tt, Mach (f (m_sm s)) (m_world s) (m_trace s)).

(** A port call that only queries the world (a clock, a random number). *)
Definition query {A} (f : W -> A * W) : act SM W O A :=
  fun s => let '(a, w) := f (m_world s) in (a, Mach (m_sm s) w (m_trace s)).

(** A port call that acts on the world; it enters the trace as [o a]. *)
Definition call {A} (f : W -> A * W) (o : A -> O) : act SM W O A :=
  fun s => let '(a, w) := f (m_world s) in (a, Mach (m_sm s) w (o a :: m_trace s)).

(** Record an input in the trace. *)
Definition emit (o : O) : act SM W O unit :=
  fun s => (tt, Mach (m_sm s) (m_world s) (o :: m_trace s)).

(** Weakest precondition of a computation. *)
Definition wp {A} (m : act SM W O A) (Q : A -> mach SM W O -> Prop) (s : mach SM W O) : Prop :=
  Q (m s).1 (m s).2.

Definition exec {A} (m : act SM W O A) (s : mach SM W O) : mach SM W O := (m s).2.

Lemma wp_exec {A} (m : act SM W O A) (P : mach SM W O -> Prop) s :
  wp m (fun _ => P) s <-> P (exec m s).
Proof. reflexivity. Qed.

Lemma wp_ret {A} (a : A) Q s : Q a s -> wp (mret a) Q s.
Proof. exact id. Qed.

Lemma wp_bind {A B} (m : act SM W O A) (k : A -> act SM W O B) Q s :
  wp m (fun a => wp (k a) Q) s -> wp (m ≫= k) Q s.
Proof. unfold wp, mbind, act_bind. by destruct (m s). Qed.

Lemma wp_gets {A} (f : SM -> A) Q s : Q (f (m_sm s)) s -> wp (gets f) Q s.
Proof. exact id. Qed.

Lemma wp_mods (f : SM -> SM) Q s :
  Q tt (Mach (f (m_sm s)) (m_world s) (m_trace s)) -> wp (mods f) Q s.
Proof. exact id. Qed.

Lemma wp_query {A} (f : W -> A * W) Q s :
  (forall a w, Q a (Mach (m_sm s) w (m_trace s))) -> wp (query f) Q s.
Proof. intros H. unfold wp, query. destruct (f (m_world s)); apply H. Qed.

Lemma wp_call {A} (f : W -> A * W) (o : A -> O) Q s :
  (forall a w, Q a (Mach (m_sm s) w (o a :: m_trace s))) -> wp (call f o) Q s.
Proof. intros H. unfold wp, call. destruct (f (m_world s)); apply H. Qed.

Lemma wp_emit (o : O) Q s :
  Q tt (Mach (m_sm s) (m_world s) (o :: m_trace s)) -> wp (emit o) Q s.
Proof. exact id. Qed.

Lemma wp_mono {A} (m : act SM W O A) (Q Q' : A -> mach SM W O -> Prop) s :
  wp m Q s -> (forall a s', Q a s' -> Q' a s') -> wp m Q' s.
Proof. unfold wp; eauto. Qed.

Lemma wp_and {A} (m : act SM W O A) (Q Q' : A -> mach SM W O -> Prop) s :
  wp m Q s -> wp m Q' s -> wp m (fun a s' => Q a s' /\ Q' a s') s.
Proof. unfold wp; auto. Qed.

(** ** Frames: what a computation leaves alone *)

Definition keeps {A X} (f : mach SM W O -> X) (m : act SM W O A) : Prop :=
  forall s, wp m (fun _ s' => f s' = f s) s.

Lemma keeps_ret {A X} (f : mach SM W O -> X) (a : A) : keeps f (mret a).
Proof. done. Qed.

Lemma keeps_bind {A B X} (f : mach SM W O -> X) (m : act SM W O A) (k : A -> act SM W O B) :
  keeps f m -> (forall a, keeps f (k a)) -> keeps f (m ≫= k).
Proof.
  intros Hm Hk s. apply wp_bind. eapply wp_mono; [apply Hm|]. intros a s' Hs'.
  eapply wp_mono; [apply Hk|]. congruence.
Qed.

Lemma keeps_gets {A X} (f : mach SM W O -> X) (g : SM -> A) : keeps f (gets g).
Proof. done. Qed.

Lemma keeps_mods {X} (f : mach SM W O -> X) (g : SM -> SM) :
  (forall s, f (Mach (g (m_sm s)) (m_world s) (m_trace s)) = f s) -> keeps f (mods g).
Proof. intros H s. apply wp_mods, H. Qed.

Lemma keeps_query {A X} (f : mach SM W O -> X) (g : W -> A * W) :
  (forall s w, f (Mach (m_sm s) w (m_trace s)) = f s) -> keeps f (query g).
Proof. intros H s. apply wp_query. intros; apply H. Qed.

Lemma keeps_call {A X} (f : mach SM W O -> X) (g : W -> A * W) (o : A -> O) :
  (forall s w a, f (Mach (m_sm s) w (o a :: m_trace s)) = f s) -> keeps f (call g o).
Proof. intros H s. apply wp_call. intros; apply H. Qed.

End Machine.

(** One step of symbolic execution. *)
Ltac wp_step :=
  match goal with
  | |- wp (mbind _ _) _ _ => apply wp_bind
  | |- wp (mret _) _ _ => apply wp_ret
  | |- wp (gets _) _ _ => apply wp_gets; cbn beta
  | |- wp (mods _) _ _ => apply wp_mods; cbn beta
  | |- wp (query _) _ _ => apply wp_query; let a := fresh "a" in let w := fresh "w" in intros a w
  | |- wp (call _ _) _ _ => apply wp_call; let a := fresh "a" in let w := fresh "w" in intros a w
  | |- wp (emit _) _ _ => apply wp_emit
  | |- wp (if ?b then _ else _) _ _ => let E := fresh "E" in destruct b eqn:E
  end.

(** The frame lemmas of the components. *)
Create HintDb frame.

(** Frames by structure: the side conditions are the assignments and the calls. *)
Ltac keeps_step :=
  match goal with
  | |- keeps _ (mbind _ _) => apply keeps_bind; [|intros]
  | |- keeps _ (mret _) => apply keeps_ret
  | |- keeps _ (gets _) => apply keeps_gets
  | |- keeps _ (mods _) => apply keeps_mods; let s := fresh "s" in intros s
  | |- keeps _ (query _) => apply keeps_query; let s := fresh "s" in let w := fresh "w" in intros s w
  | |- keeps _ (call _ _) => apply keeps_call; let s := fresh "s" in intros s ? ?
  | |- keeps _ (if ?b then _ else _) => destruct b
  | |- keeps _ (match ?o with Some _ => _ | None => _ end) => destruct o
  end.
