(* ===== verification/NetSm.v ===== *)
(** The default-route machine of [espos_net]: [net_sm.c] and
    [espos_net_sm.h].

    One record per interface, a static preference (Ethernet, WiFi station,
    Thread), and the edge a report produces. The abstract specification is the
    route a consumer sees ([route_of]) as a function of the reports alone; the
    machine's edges are exactly the changes of that route. *)
From Stdlib Require Import ZArith Lia String.
From stdpp Require Import base list numbers sets.
From S2P Require Import Prelude.
Open Scope Z_scope.

(** * Data *)

(** [espos_net_if_t]; the values index [ifs], so they stay integers. *)
Definition ESPOS_NET_IF_NONE : Z := 0.
Definition ESPOS_NET_IF_WIFI_STA : Z := 1.
Definition ESPOS_NET_IF_ETH : Z := 2.
Definition ESPOS_NET_IF_THREAD : Z := 3.
Definition ESPOS_NET_IF_MAX : Z := 4.

Definition ESPOS_NET_IP_MAX : nat := 16.

Inductive espos_net_edge_t :=
  | ESPOS_NET_EDGE_NONE
  | ESPOS_NET_EDGE_UP
  | ESPOS_NET_EDGE_DOWN
  | ESPOS_NET_EDGE_CHANGED.

#[export] Instance espos_net_edge_eq_dec : EqDecision espos_net_edge_t.
Proof. solve_decision. Defined.

(** One interface as last reported. *)
Record espos_net_sm_if_t := NetIf {
  if_up : bool;
  if_ip : cstr;
  if_netmask : cstr;
  if_gateway : cstr;
  if_rssi : Z;
  if_up_since_ms : Z
}.

Record espos_net_sm_t := NetSm {
  ifs : list espos_net_sm_if_t;
  active : Z;
  up_count : Z;
  up_since_ms : Z
}.
#[export] Instance espos_net_sm_eta : Eta espos_net_sm_t :=
  fun r => NetSm (ifs r) (active r) (up_count r) (up_since_ms r).

(** The route half of [espos_net_status_t]. *)
Record espos_net_status_t := NetStatus {
  s_up : bool;
  s_iface : Z;
  s_ip : cstr;
  s_netmask : cstr;
  s_gateway : cstr;
  s_rssi : Z;
  s_up_count : Z;
  s_up_since_ms : Z
}.

(** [memset(x, 0, sizeof x)] of an interface record. *)
Definition net_if_zero : espos_net_sm_if_t := NetIf false [] [] [] 0 0.

(** * Operations *)

Definition k_preference : list Z :=
  [ESPOS_NET_IF_ETH; ESPOS_NET_IF_WIFI_STA; ESPOS_NET_IF_THREAD].

Definition copy_ip (src : option cstr) : cstr :=
  snprintf_s ESPOS_NET_IP_MAX (match src with Some s => s | None => [] end).

Definition espos_net_if_str (iface : Z) : cstr :=
  if iface =? ESPOS_NET_IF_WIFI_STA then lit "wifi_sta"
  else if iface =? ESPOS_NET_IF_ETH then lit "eth"
  else if iface =? ESPOS_NET_IF_THREAD then lit "thread"
  else lit "none".

(** The doubling loop of the backoff curve; [i] counts up to [round]. *)
Fixpoint backoff_loop (n : nat) (d cap_ms : Z) : Z :=
  match n with
  | O => d
  | S n' => if d <? cap_ms then backoff_loop n' (u64 (d * 2)) cap_ms else d
  end.

(** The jitter half of the curve: ±25 %, never below 250 ms. *)
Definition backoff_jitter (d rnd : Z) : Z :=
  let span := u32 (d / 2) in
  let j := if span =? 0 then 0 else rnd mod u32 (span + 1) in
  let out := u64 (d - span / 2 + j) in
  u32 (if out <? 250 then 250 else out).

Definition espos_net_backoff_ms (round cap_ms rnd : Z) : Z :=
  let d := backoff_loop (Z.to_nat round) 1000 cap_ms in
  let d := if d >? cap_ms then cap_ms else d in
  backoff_jitter d rnd.

(** [sm->ifs[i]] *)
Definition if_at (sm : espos_net_sm_t) (i : Z) : espos_net_sm_if_t :=
  default net_if_zero (ifs sm !! Z.to_nat i).

Definition espos_net_sm_init : espos_net_sm_t :=
  NetSm (replicate (Z.to_nat ESPOS_NET_IF_MAX) net_if_zero) ESPOS_NET_IF_NONE 0 0.

Fixpoint select_in (prefs : list Z) (sm : espos_net_sm_t) : Z :=
  match prefs with
  | [] => ESPOS_NET_IF_NONE
  | i :: prefs' => if if_up (if_at sm i) then i else select_in prefs' sm
  end.

Definition espos_net_sm_select (sm : espos_net_sm_t) : Z := select_in k_preference sm.

Section Machine.
Context {W : Type} (now_ms : W -> Z * W).

Abbreviation net_act := (act espos_net_sm_t W Empty_set).

Definition now : net_act Z := t ← query now_ms; mret (u32 t).

(** The record a report stores: [next]. *)
Definition next_if (cur : espos_net_sm_if_t) (up : bool) (ip netmask gateway : option cstr) (rssi : Z)
    : net_act espos_net_sm_if_t :=
  if up then
    since ← (if if_up cur then mret (if_up_since_ms cur) else now);
    mret (NetIf true (copy_ip ip) (copy_ip netmask) (copy_ip gateway) rssi since)
  else mret net_if_zero.

Definition same_route (a b : espos_net_sm_if_t) : bool :=
  Bool.eqb (if_up a) (if_up b) && streq (if_ip a) (if_ip b)
  && streq (if_netmask a) (if_netmask b) && streq (if_gateway a) (if_gateway b).

(** A route came up or moved: the counter and the clock of the route. *)
Definition route_moved (sel : Z) : net_act unit :=
  mods (fun sm => sm <| active := sel |> <| up_count ::= fun n => u32 (n + 1) |>);;
  t ← now;
  mods (fun sm => sm <| up_since_ms := t |>).

(** Re-select after [*cur = next]. *)
Definition reselect (iface : Z) (same : bool) : net_act espos_net_edge_t :=
  was ← gets active;
  sel ← gets espos_net_sm_select;
  if (was =? ESPOS_NET_IF_NONE) && negb (sel =? ESPOS_NET_IF_NONE) then
    route_moved sel;; mret ESPOS_NET_EDGE_UP
  else if negb (was =? ESPOS_NET_IF_NONE) && (sel =? ESPOS_NET_IF_NONE) then
    mods (fun sm => sm <| active := ESPOS_NET_IF_NONE |> <| up_since_ms := 0 |>);;
    mret ESPOS_NET_EDGE_DOWN
  else if negb (was =? sel) then
    route_moved sel;; mret ESPOS_NET_EDGE_CHANGED
  else if (iface =? was) && negb same then
    route_moved was;; mret ESPOS_NET_EDGE_CHANGED
  else mret ESPOS_NET_EDGE_NONE.

(** [espos_net_sm_report]: the edge, and what is stored through [changed]. *)
Definition espos_net_sm_report (iface : Z) (up : bool) (ip netmask gateway : option cstr) (rssi : Z)
    : net_act (espos_net_edge_t * bool) :=
  if (iface <=? ESPOS_NET_IF_NONE) || (iface >=? ESPOS_NET_IF_MAX) then
    mret (ESPOS_NET_EDGE_NONE, false)
  else
    cur ← gets (fun sm => if_at sm iface);
    next ← next_if cur up ip netmask gateway rssi;
    let same := same_route cur next in
    if same && (if_rssi cur =? if_rssi next) then mret (ESPOS_NET_EDGE_NONE, false)
    else
      mods (fun sm => sm <| ifs ::= fun l => <[Z.to_nat iface := next]> l |>);;
      edge ← reselect iface same;
      mret (edge, true).

Definition espos_net_sm_status : net_act espos_net_status_t :=
  sm ← gets id;
  if active sm =? ESPOS_NET_IF_NONE then
    mret (NetStatus false ESPOS_NET_IF_NONE [] [] [] 0 (up_count sm) 0)
  else
    let a := if_at sm (active sm) in
    t ← now;
    mret (NetStatus true (active sm) (if_ip a) (if_netmask a) (if_gateway a)
            (if active sm =? ESPOS_NET_IF_WIFI_STA then if_rssi a else 0)
            (up_count sm) (u32 (t - up_since_ms sm))).

End Machine.

(** * The abstract specification

    What the transports said, and nothing else: per interface the address it
    was last reported up with. The route is the first interface of the
    preference that has one. *)

Record report := Report {
  r_iface : Z;
  r_up : bool;
  r_ip : option cstr;
  r_netmask : option cstr;
  r_gateway : option cstr;
  r_rssi : Z
}.

Abbreviation addr := (cstr * cstr * cstr)%type.

Definition report_valid (r : report) : bool :=
  negb ((r_iface r <=? ESPOS_NET_IF_NONE) || (r_iface r >=? ESPOS_NET_IF_MAX)).

Definition spec_report (t : list (option addr)) (r : report) : list (option addr) :=
  if report_valid r then
    <[Z.to_nat (r_iface r) :=
        if r_up r then Some (copy_ip (r_ip r), copy_ip (r_netmask r), copy_ip (r_gateway r))
        else None]> t
  else t.

Definition spec_route (t : list (option addr)) : option (Z * addr) :=
  (fix go (prefs : list Z) : option (Z * addr) :=
     match prefs with
     | [] => None
     | i :: prefs' =>
         match t !! Z.to_nat i with
         | Some (Some a) => Some (i, a)
         | _ => go prefs'
         end
     end) k_preference.

(** What a change of the route is called. *)
Definition edge_between (before after : option (Z * addr)) : espos_net_edge_t :=
  match before, after with
  | None, None => ESPOS_NET_EDGE_NONE
  | None, Some _ => ESPOS_NET_EDGE_UP
  | Some _, None => ESPOS_NET_EDGE_DOWN
  | Some a, Some b => if bool_decide (a = b) then ESPOS_NET_EDGE_NONE else ESPOS_NET_EDGE_CHANGED
  end.

Fixpoint spec_edges (t : list (option addr)) (rs : list report) : list espos_net_edge_t :=
  match rs with
  | [] => []
  | r :: rs' =>
      edge_between (spec_route t) (spec_route (spec_report t r)) :: spec_edges (spec_report t r) rs'
  end.

(** The machine fed a list of reports, with the edges it returned. *)
Fixpoint net_run {W} (now_ms : W -> Z * W) (rs : list report)
    : act espos_net_sm_t W Empty_set (list espos_net_edge_t) :=
  match rs with
  | [] => mret []
  | r :: rs' =>
      res ← espos_net_sm_report now_ms (r_iface r) (r_up r) (r_ip r) (r_netmask r) (r_gateway r) (r_rssi r);
      edges ← net_run now_ms rs';
      mret (res.1 :: edges)
  end.

Definition addr_of (a : espos_net_sm_if_t) : option addr :=
  if if_up a then Some (if_ip a, if_netmask a, if_gateway a) else None.

Definition table_of (sm : espos_net_sm_t) : list (option addr) := addr_of <$> ifs sm.

(** The route the machine's state shows to its status query. *)
Definition route_of (sm : espos_net_sm_t) : option (Z * addr) :=
  if active sm =? ESPOS_NET_IF_NONE then None
  else let a := if_at sm (active sm) in
       Some (active sm, (if_ip a, if_netmask a, if_gateway a)).

Definition net_inv (sm : espos_net_sm_t) : Prop :=
  length (ifs sm) = Z.to_nat ESPOS_NET_IF_MAX /\
  active sm = espos_net_sm_select sm /\
  Forall (fun a => if_up a = false -> a = net_if_zero) (ifs sm).

Definition edge_counts (e : espos_net_edge_t) : Z :=
  match e with ESPOS_NET_EDGE_UP | ESPOS_NET_EDGE_CHANGED => 1 | _ => 0 end.

(** * Theorems *)

Lemma table_lookup sm i :
  table_of sm !! i = addr_of <$> ifs sm !! i.
Proof. apply list_lookup_fmap. Qed.

Lemma select_up sm i :
  espos_net_sm_select sm = i -> i <> ESPOS_NET_IF_NONE -> if_up (if_at sm i) = true.
Proof.
  unfold espos_net_sm_select, k_preference; cbn.
  repeat case_match; by intros <-.
Qed.

Lemma select_range sm : 0 <= espos_net_sm_select sm < ESPOS_NET_IF_MAX.
Proof. unfold espos_net_sm_select, k_preference; cbn. by repeat case_match. Qed.

Lemma spec_route_select sm :
  length (ifs sm) = Z.to_nat ESPOS_NET_IF_MAX ->
  spec_route (table_of sm) =
  let i := espos_net_sm_select sm in
  if i =? ESPOS_NET_IF_NONE then None
  else let a := if_at sm i in Some (i, (if_ip a, if_netmask a, if_gateway a)).
Proof.
  intros Hlen. destruct sm as [l act n since]; simpl in *.
  destruct l as [|i0 [|i1 [|i2 [|i3 [|]]]]]; try discriminate Hlen.
  by destruct i2 as [[] ? ? ? ? ?], i1 as [[] ? ? ? ? ?], i3 as [[] ? ? ? ? ?].
Qed.

Lemma spec_route_of sm : net_inv sm -> spec_route (table_of sm) = route_of sm.
Proof.
  intros (Hlen & Hact & _). rewrite spec_route_select by done. unfold route_of. by rewrite Hact.
Qed.

(** The stored record of a report has exactly the reported address. *)
Lemma next_if_spec {W} (now_ms : W -> Z * W) cur up ip nm gw rssi s :
  wp (next_if now_ms cur up ip nm gw rssi)
     (fun n s' => m_sm s' = m_sm s /\
        addr_of n = (if up then Some (copy_ip ip, copy_ip nm, copy_ip gw) else None) /\
        (if_up n = false -> n = net_if_zero)) s.
Proof.
  unfold next_if, now. destruct up; repeat wp_step; split_and!; cbn; auto; discriminate.
Qed.

Lemma same_route_addr a b :
  (if_up a = false -> a = net_if_zero) -> (if_up b = false -> b = net_if_zero) ->
  same_route a b = bool_decide (addr_of a = addr_of b).
Proof.
  intros Ha Hb. unfold same_route, streq, addr_of.
  destruct (if_up a) eqn:Ea, (if_up b) eqn:Eb; cbn.
  - repeat case_bool_decide; cbn; congruence.
  - by case_bool_decide.
  - by case_bool_decide.
  - rewrite Ha, Hb by done. reflexivity.
Qed.

(** What re-selection does to the machine, whatever the table says. *)
Lemma reselect_spec {W} (now_ms : W -> Z * W) iface same s :
  wp (reselect now_ms iface same)
     (fun e s' =>
        let was := active (m_sm s) in let sel := espos_net_sm_select (m_sm s) in
        ifs (m_sm s') = ifs (m_sm s) /\ active (m_sm s') = sel /\
        e = (if was =? ESPOS_NET_IF_NONE
             then if sel =? ESPOS_NET_IF_NONE
                  then if (iface =? was) && negb same then ESPOS_NET_EDGE_CHANGED else ESPOS_NET_EDGE_NONE
                  else ESPOS_NET_EDGE_UP
             else if sel =? ESPOS_NET_IF_NONE then ESPOS_NET_EDGE_DOWN
             else if was =? sel
                  then if (iface =? was) && negb same then ESPOS_NET_EDGE_CHANGED else ESPOS_NET_EDGE_NONE
                  else ESPOS_NET_EDGE_CHANGED) /\
        up_count (m_sm s') = (if edge_counts e =? 1 then u32 (up_count (m_sm s) + 1)
                              else up_count (m_sm s))) s.
Proof.
  unfold reselect, route_moved, now. do 4 wp_step.
  destruct (Z.eqb_spec (active (m_sm s)) ESPOS_NET_IF_NONE) as [E0|E0],
    (Z.eqb_spec (espos_net_sm_select (m_sm s)) ESPOS_NET_IF_NONE) as [E1|E1];
    cbn [andb negb]; try (destruct (Z.eqb_spec (active (m_sm s)) (espos_net_sm_select (m_sm s))); cbn [negb]);
    try congruence; try (destruct (_ && negb same)); repeat wp_step; cbn; split_and!; auto; congruence.
Qed.

Lemma net_inv_select (sm sm' : espos_net_sm_t) :
  ifs sm' = ifs sm -> espos_net_sm_select sm' = espos_net_sm_select sm.
Proof. unfold espos_net_sm_select; cbn. unfold if_at. by intros ->. Qed.

Lemma edge_between_refl r : edge_between r r = ESPOS_NET_EDGE_NONE.
Proof. destruct r; cbn; [|done]. by rewrite bool_decide_eq_true_2. Qed.

(** One report: the invariant is kept, the table is the specified one, the
    edge is the change of the route, and the counter follows the edge. *)
Definition report_post (r : report) (sm : espos_net_sm_t) (e : espos_net_edge_t) (sm' : espos_net_sm_t) : Prop :=
  net_inv sm' /\
  table_of sm' = spec_report (table_of sm) r /\
  e = edge_between (spec_route (table_of sm)) (spec_route (table_of sm')) /\
  up_count sm' = (if edge_counts e =? 1 then u32 (up_count sm + 1) else up_count sm).

Lemma report_noop r sm :
  net_inv sm -> spec_report (table_of sm) r = table_of sm -> report_post r sm ESPOS_NET_EDGE_NONE sm.
Proof. intros Hinv Ht. split_and!; auto. by rewrite edge_between_refl. Qed.

Lemma report_edge iface cur next sm sm1 :
  net_inv sm -> 0 < iface < ESPOS_NET_IF_MAX -> cur = if_at sm iface ->
  (if_up next = false -> next = net_if_zero) ->
  ifs sm1 = <[Z.to_nat iface := next]> (ifs sm) -> active sm1 = active sm ->
  edge_between (route_of sm) (spec_route (table_of sm1)) =
  (let was := active sm1 in let sel := espos_net_sm_select sm1 in
   if was =? ESPOS_NET_IF_NONE
   then if sel =? ESPOS_NET_IF_NONE
        then if (iface =? was) && negb (same_route cur next) then ESPOS_NET_EDGE_CHANGED else ESPOS_NET_EDGE_NONE
        else ESPOS_NET_EDGE_UP
   else if sel =? ESPOS_NET_IF_NONE then ESPOS_NET_EDGE_DOWN
   else if was =? sel
        then if (iface =? was) && negb (same_route cur next) then ESPOS_NET_EDGE_CHANGED else ESPOS_NET_EDGE_NONE
        else ESPOS_NET_EDGE_CHANGED).
Proof.
  intros Hinv Hi Hcur Hnext Hifs Hact. pose proof Hinv as (Hlen & Hsel & Hz).
  pose proof (select_range sm) as Hr. rewrite <- Hsel in Hr.
  unfold ESPOS_NET_IF_MAX, ESPOS_NET_IF_NONE in *.
  rewrite spec_route_select by (rewrite Hifs, length_insert; exact Hlen).
  unfold route_of, ESPOS_NET_IF_NONE. rewrite Hact. cbn zeta.
  destruct (Z.eqb_spec (active sm) 0) as [E0|E0].
  - destruct (Z.eqb_spec (espos_net_sm_select sm1) 0); cbn; [|done].
    destruct (Z.eqb_spec iface (active sm)) as [E|E]; [lia|done].
  - destruct (Z.eqb_spec (espos_net_sm_select sm1) 0) as [E1|E1]; cbn [edge_between]; [done|].
    destruct (Z.eqb_spec (active sm) (espos_net_sm_select sm1)) as [E|E].
    2:{ by rewrite bool_decide_eq_false_2 by congruence. }
    assert (Hup1 : if_up (if_at sm1 (active sm)) = true) by (apply select_up; auto).
    assert (Hup : if_up (if_at sm (active sm)) = true) by (apply select_up; auto).
    rewrite <- E. destruct (Z.eqb_spec iface (active sm)) as [Ei|Ei]; cbn [andb].
    + assert (Hn : if_at sm1 (active sm) = next).
      { unfold if_at. rewrite Hifs, <- Ei, list_lookup_insert_eq; [done|]. rewrite Hlen. lia. }
      rewrite Hn in *. rewrite Ei in Hcur. rewrite <- Hcur in Hup |- *.
      rewrite same_route_addr by congruence. unfold addr_of. rewrite Hup, Hup1.
      repeat case_bool_decide; cbn; congruence.
    + assert (Hn : if_at sm1 (active sm) = if_at sm (active sm)).
      { unfold if_at. rewrite Hifs, list_lookup_insert_ne; [done|]. lia. }
      rewrite Hn. by rewrite bool_decide_eq_true_2.
Qed.

Lemma report_step {W} (now_ms : W -> Z * W) (r : report) s :
  net_inv (m_sm s) ->
  wp (espos_net_sm_report now_ms (r_iface r) (r_up r) (r_ip r) (r_netmask r) (r_gateway r) (r_rssi r))
     (fun res s' => report_post r (m_sm s) res.1 (m_sm s')) s.
Proof.
  intros Hinv. pose proof Hinv as (Hlen & Hsel & Hz).
  unfold espos_net_sm_report. wp_step.
  { wp_step. apply report_noop; [done|]. unfold spec_report, report_valid. by rewrite E. }
  assert (Hrange : 0 < r_iface r < ESPOS_NET_IF_MAX)
    by (unfold ESPOS_NET_IF_NONE, ESPOS_NET_IF_MAX in *; lia).
  assert (Hcur : ifs (m_sm s) !! Z.to_nat (r_iface r) = Some (if_at (m_sm s) (r_iface r))).
  { unfold if_at. destruct (lookup_lt_is_Some_2 (ifs (m_sm s)) (Z.to_nat (r_iface r))) as [x Hx].
    { rewrite Hlen. unfold ESPOS_NET_IF_MAX in *. lia. }
    by rewrite Hx. }
  pose proof (Forall_lookup_1 _ _ _ _ Hz Hcur) as Hzc.
  assert (Hspec : spec_report (table_of (m_sm s)) r =
    <[Z.to_nat (r_iface r) := if r_up r then Some (copy_ip (r_ip r), copy_ip (r_netmask r), copy_ip (r_gateway r))
                             else None]> (table_of (m_sm s))).
  { unfold spec_report, report_valid. by rewrite E. }
  do 2 wp_step. cbn beta. wp_step.
  eapply wp_mono; [apply next_if_spec|]. intros next s1 (Hs1 & Haddr & Hznext).
  rewrite <- Haddr in Hspec. wp_step.
  - wp_step. rewrite Hs1. apply report_noop; [done|].
    apply andb_prop in E0 as [E0 _]. rewrite same_route_addr in E0 by auto.
    apply bool_decide_eq_true in E0. rewrite Hspec, <- E0.
    apply list_insert_id. by rewrite table_lookup, Hcur.
  - do 3 wp_step. eapply wp_mono; [apply reselect_spec|].
    cbn [m_sm m_world m_trace]. rewrite Hs1. set (sm1 := _ <| ifs ::= _ |>).
    intros e s2 (Hifs & Hact & He & Hcount). wp_step.
    assert (Htab : table_of (m_sm s2) = spec_report (table_of (m_sm s)) r).
    { rewrite Hspec. unfold table_of. rewrite Hifs. apply list_fmap_insert. }
    split_and!; [split_and!| | |].
    + rewrite Hifs. cbn. by rewrite length_insert.
    + rewrite Hact. symmetry. by apply net_inv_select.
    + rewrite Hifs. cbn. apply Forall_insert; auto.
    + done.
    + cbn [fst]. rewrite He, (spec_route_of (m_sm s)) by done.
      symmetry. erewrite <- report_edge; try done. f_equal. unfold table_of. by rewrite Hifs.
    + by cbn [fst].
Qed.

Lemma net_inv_init : net_inv espos_net_sm_init.
Proof. split_and!; [done|done|]. repeat constructor. Qed.

(** The run of a list of reports, from any state of the invariant. *)
Lemma net_run_spec {W} (now_ms : W -> Z * W) rs s :
  net_inv (m_sm s) ->
  wp (net_run now_ms rs)
     (fun edges s' => net_inv (m_sm s') /\
        table_of (m_sm s') = foldl spec_report (table_of (m_sm s)) rs /\
        edges = spec_edges (table_of (m_sm s)) rs /\
        up_count (m_sm s') = foldl (fun n e => if edge_counts e =? 1 then u32 (n + 1) else n)
                               (up_count (m_sm s)) edges) s.
Proof.
  revert s. induction rs as [|r rs IH]; intros s Hinv; cbn [net_run].
  { by wp_step. }
  wp_step. eapply wp_mono; [by apply report_step|].
  intros res s1 (Hinv1 & Ht1 & He1 & Hc1). wp_step.
  eapply wp_mono; [by apply IH|]. intros edges s2 (Hinv2 & Ht2 & He2 & Hc2). wp_step.
  cbn [foldl spec_edges]. rewrite <- Ht1. split_and!; auto; [congruence|].
  rewrite Hc2. cbn [foldl]. by rewrite <- Hc1.
Qed.

(** C30. The machine refines the route specification: whatever the clock
    answers, a fresh machine fed any list of reports returns exactly the edges
    of the specified route, and its state shows exactly the specified route:
    the preferred interface among those last reported up, with the address it
    was reported with (clipped to the buffers). *)
Theorem net_sm_refines_route {W} (now_ms : W -> Z * W) (w : W) (rs : list report) :
  let none := replicate (Z.to_nat ESPOS_NET_IF_MAX) None in
  let '(edges, s) := net_run now_ms rs (Mach espos_net_sm_init w []) in
  edges = spec_edges none rs /\
  route_of (m_sm s) = spec_route (foldl spec_report none rs).
Proof.
  pose proof (net_run_spec now_ms rs (Mach espos_net_sm_init w []) net_inv_init) as H.
  unfold wp in H. destruct (net_run now_ms rs _) as [edges s].
  destruct H as (Hinv & Ht & He & _).
  change (table_of (m_sm (Mach espos_net_sm_init w []))) with
    (replicate (Z.to_nat ESPOS_NET_IF_MAX) (None : option addr)) in Ht, He.
  split; [done|]. by rewrite <- Ht, spec_route_of.
Qed.

(** A status query reads the route the edges announced. *)
Lemma net_status_route {W} (now_ms : W -> Z * W) s :
  net_inv (m_sm s) ->
  wp (espos_net_sm_status now_ms)
     (fun st s' => m_sm s' = m_sm s /\
        (if s_up st then Some (s_iface st, (s_ip st, s_netmask st, s_gateway st)) else None)
        = spec_route (table_of (m_sm s)) /\
        (s_iface st <> ESPOS_NET_IF_WIFI_STA -> s_rssi st = 0)) s.
Proof.
  intros Hinv. rewrite spec_route_of by done.
  unfold espos_net_sm_status, route_of. do 2 wp_step. cbn [id]. wp_step.
  - by wp_step.
  - unfold now. repeat wp_step. cbn. split_and!; auto.
    destruct (Z.eqb_spec (active (m_sm s)) ESPOS_NET_IF_WIFI_STA); [by intros []|done].
Qed.

(** ** The backoff curve *)

Lemma backoff_loop_closed n : forall d cap,
  0 < d -> 0 <= cap < 2 ^ 32 -> d < 2 ^ 33 ->
  Z.min (backoff_loop n d cap) cap = Z.min (d * 2 ^ Z.of_nat n) cap /\
  0 < backoff_loop n d cap < 2 ^ 33.
Proof.
  induction n as [|n IH]; intros d cap Hd Hcap Hd'; cbn [backoff_loop].
  { rewrite Z.mul_1_r. lia. }
  rewrite Nat2Z.inj_succ, Z.pow_succ_r by lia.
  destruct (Z.ltb_spec d cap) as [Hlt|Hge].
  - unfold u64. rewrite Z.mod_small by lia.
    destruct (IH (d * 2) cap) as [-> ?]; [lia..|]. split; [f_equal; ring|done].
  - assert (1 <= 2 ^ Z.of_nat n) by (apply Z.pow_le_mono_r with (b := 0); lia).
    split; [|lia]. rewrite !Z.min_r by nia. done.
Qed.

(** The value before the jitter: one second doubled per round, capped. *)
Definition backoff_base (round cap_ms : Z) : Z := Z.min (1000 * 2 ^ round) cap_ms.

Lemma backoff_base_eq round cap_ms :
  0 <= round -> 0 <= cap_ms < 2 ^ 32 ->
  (let d := backoff_loop (Z.to_nat round) 1000 cap_ms in if d >? cap_ms then cap_ms else d)
  = backoff_base round cap_ms.
Proof.
  intros Hr Hc. destruct (backoff_loop_closed (Z.to_nat round) 1000 cap_ms) as [H _]; [lia..|].
  rewrite Z2Nat.id in H by done. unfold backoff_base. rewrite <- H. cbn zeta.
  rewrite Z.gtb_ltb. destruct (Z.ltb_spec cap_ms (backoff_loop (Z.to_nat round) 1000 cap_ms)); lia.
Qed.

Lemma backoff_jitter_bounds d rnd :
  0 <= d <= 3435973836 -> 0 <= rnd ->
  250 <= backoff_jitter d rnd < 2 ^ 32 /\
  3 * d <= 4 * backoff_jitter d rnd /\
  (backoff_jitter d rnd = 250 \/ 4 * backoff_jitter d rnd <= 5 * d + 4).
Proof.
  intros Hd Hrnd. unfold backoff_jitter, u32, u64.
  rewrite (Z.mod_small (d / 2)) by div_lia. rewrite (Z.mod_small (d / 2 + 1)) by div_lia.
  set (j := if d / 2 =? 0 then 0 else rnd mod (d / 2 + 1)).
  assert (Hj : 0 <= j <= d / 2).
  { unfold j. destruct (Z.eqb_spec (d / 2) 0); [div_lia|].
    pose proof (Z.mod_pos_bound rnd (d / 2 + 1)). div_lia. }
  cbn zeta. rewrite (Z.mod_small (d - d / 2 / 2 + j)) by div_lia.
  destruct (Z.ltb_spec (d - d / 2 / 2 + j) 250); rewrite Z.mod_small by div_lia; div_lia.
Qed.

(** The shared retry curve: for every cap up to 3435973836 ms (80 % of the
    32-bit range, above which the conversion back to 32 bits wraps), the delay
    is the capped doubling of one second within 25 % either way, and never
    below 250 ms. *)
Lemma net_backoff_bounds round cap_ms rnd :
  0 <= round < 2 ^ 32 -> 0 <= cap_ms <= 3435973836 -> 0 <= rnd < 2 ^ 32 ->
  let d := Z.min (1000 * 2 ^ round) cap_ms in
  let r := espos_net_backoff_ms round cap_ms rnd in
  250 <= r < 2 ^ 32 /\ 3 * d <= 4 * r /\ (r = 250 \/ 4 * r <= 5 * d + 4).
Proof.
  intros Hr Hc Hrnd d r. unfold r, espos_net_backoff_ms.
  rewrite backoff_base_eq by lia. fold d. change (backoff_base round cap_ms) with d.
  assert (0 < 1000 * 2 ^ round) by (apply Z.mul_pos_pos; [lia|apply Z.pow_pos_nonneg; lia]).
  apply backoff_jitter_bounds; lia.
Qed.
