(* ===== verification/WifiSm.v ===== *)
(** The WiFi state machine of [espos_wifi]: [wifi_sm.c] and
    [espos_wifi_sm.h].

    The driver is a port, a record of operations on an opaque world; every
    operation that acts on the world enters the trace of the machine. One
    timer serves the state timeout and the portal deadline. The recursion of
    [start_attempt] through a refused [connect] goes down the list of networks;
    it runs on fuel here and [no_fuel_exhausted] shows that the fuel of
    [espos_wifi_sm_event] is always enough. *)
From Stdlib Require Import ZArith Lia String.
From stdpp Require Import base list numbers sets.
From S2P Require Import Prelude NetSm.
Open Scope Z_scope.

(** * Data *)

Definition ESP_OK : Z := 0.

Inductive espos_wifi_state_t :=
  | ESPOS_WIFI_ST_DISABLED
  | ESPOS_WIFI_ST_UNCONFIGURED
  | ESPOS_WIFI_ST_CONNECTING
  | ESPOS_WIFI_ST_OBTAINING_IP
  | ESPOS_WIFI_ST_CONNECTED
  | ESPOS_WIFI_ST_BACKOFF.
#[export] Instance espos_wifi_state_eq_dec : EqDecision espos_wifi_state_t.
Proof. solve_decision. Defined.

Definition ESPOS_WIFI_REASON_NONE : Z := 0.
Definition ESPOS_WIFI_REASON_DHCP_TIMEOUT : Z := 1001.
Definition ESPOS_WIFI_REASON_CONNECT_TIMEOUT : Z := 1002.
Definition ESPOS_WIFI_REASON_LOST_IP : Z := 1003.
Definition ESPOS_WIFI_REASON_CONFIG_CHANGE : Z := 1004.
Definition ESPOS_WIFI_REASON_DISABLED : Z := 1005.

Record espos_wifi_net_t := WifiNet {
  ssid : cstr;
  psk : cstr;
  has_bssid : bool;
  bssid : list Z
}.
Definition net_zero : espos_wifi_net_t := WifiNet [] [] false [0; 0; 0; 0; 0; 0].

Record espos_wifi_cfg_t := WifiCfg {
  cfg_sta_enabled : bool;
  nets : list espos_wifi_net_t;
  net_count : nat;
  backoff_max_ms : Z;
  dhcp_timeout_ms : Z;
  connect_timeout_ms : Z;
  portal_enabled : bool;
  portal_after_ms : Z;
  portal_online : bool
}.

Inductive espos_wifi_portal_force_t :=
  | ESPOS_WIFI_PORTAL_AUTO
  | ESPOS_WIFI_PORTAL_UP
  | ESPOS_WIFI_PORTAL_DOWN
  | ESPOS_WIFI_PORTAL_FORCE_MAX.
#[export] Instance espos_wifi_portal_force_eq_dec : EqDecision espos_wifi_portal_force_t.
Proof. solve_decision. Defined.

Record espos_wifi_link_t := WifiLink {
  link_ssid : cstr;
  link_bssid : list Z;
  channel : Z;
  rssi : Z
}.
Definition link_zero : espos_wifi_link_t := WifiLink [] [0; 0; 0; 0; 0; 0] 0 0.

Record espos_wifi_ip_t := WifiIp { ip_addr : cstr; netmask : cstr; gateway : cstr }.
Definition ip_zero : espos_wifi_ip_t := WifiIp [] [] [].

(** Events with their arguments; an argument that may be [NULL] is an option. *)
Inductive espos_wifi_event_t :=
  | ESPOS_WIFI_EV_START
  | ESPOS_WIFI_EV_STOP
  | ESPOS_WIFI_EV_CONFIG (ncfg : espos_wifi_cfg_t)
  | ESPOS_WIFI_EV_STA_CONNECTED (arg : option espos_wifi_link_t)
  | ESPOS_WIFI_EV_STA_DISCONNECTED (arg : option Z)
  | ESPOS_WIFI_EV_GOT_IP (arg : option espos_wifi_ip_t)
  | ESPOS_WIFI_EV_LOST_IP
  | ESPOS_WIFI_EV_TIMER
  | ESPOS_WIFI_EV_PORTAL_CLIENT (arg : option Z)
  | ESPOS_WIFI_EV_PORTAL_FAILED
  | ESPOS_WIFI_EV_PORTAL_RECONFIG
  | ESPOS_WIFI_EV_OTHER_NET (arg : option bool)
  | ESPOS_WIFI_EV_PORTAL_FORCE (arg : option espos_wifi_portal_force_t)
  | ESPOS_WIFI_EV_MAX.

Record espos_wifi_sm_status_t := WifiStatus {
  state : espos_wifi_state_t;
  sta_enabled : bool;
  net_index : Z;
  link : espos_wifi_link_t;
  ip : espos_wifi_ip_t;
  reason : Z;
  backoff_until_ms : Z;
  attempt : Z;
  round : Z;
  connected_since_ms : Z;
  disconnected_since_ms : Z;
  connect_count : Z;
  disconnect_count : Z;
  portal_active : bool;
  portal_clients : Z;
  portal_force : espos_wifi_portal_force_t
}.
#[export] Instance wifi_status_eta : Eta espos_wifi_sm_status_t := fun r =>
  WifiStatus (state r) (sta_enabled r) (net_index r) (link r) (ip r) (reason r) (backoff_until_ms r)
    (attempt r) (round r) (connected_since_ms r) (disconnected_since_ms r) (connect_count r)
    (disconnect_count r) (portal_active r) (portal_clients r) (portal_force r).

Record espos_wifi_sm_t := WifiSm {
  cfg : espos_wifi_cfg_t;
  st : espos_wifi_sm_status_t;
  started : bool;
  timer_is_dhcp : bool;
  timer_is_portal : bool;
  portal_due_ms : Z;
  state_due_ms : Z;
  timer_due_ms : Z;
  connect_in_flight : bool;
  other_net_up : bool
}.
#[export] Instance wifi_sm_eta : Eta espos_wifi_sm_t := fun r =>
  WifiSm (cfg r) (st r) (started r) (timer_is_dhcp r) (timer_is_portal r) (portal_due_ms r)
    (state_due_ms r) (timer_due_ms r) (connect_in_flight r) (other_net_up r).

(** Driver actions; the operations the machine tests against [NULL] are
    options. *)
Record espos_wifi_port_t (W : Type) := WifiPort {
  connect : espos_wifi_net_t -> W -> Z * W;
  disconnect : W -> Z * W;
  portal_start : option (W -> Z * W);
  portal_stop : option (W -> Z * W);
  arm_timer : Z -> W -> unit * W;
  cancel_timer : W -> unit * W;
  now_ms : W -> Z * W;
  random : W -> Z * W;
  status_changed : option (W -> unit * W)
}.
Arguments connect {W} _.
Arguments disconnect {W} _.
Arguments portal_start {W} _.
Arguments portal_stop {W} _.
Arguments arm_timer {W} _.
Arguments cancel_timer {W} _.
Arguments now_ms {W} _.
Arguments random {W} _.
Arguments status_changed {W} _.

(** The trace: the inputs and what the machine asked the driver for. *)
Inductive wifi_obs :=
  | OEvent (ev : espos_wifi_event_t)
  | OConnect (net : espos_wifi_net_t) (err : Z)
  | ODisconnect
  | OPortalStart (err : Z)
  | OPortalStop
  | OArm (ms : Z)
  | OCancel
  | ONotify
  | OOutOfFuel.

(** * Operations *)

Definition is_state (s : espos_wifi_state_t) (sm : espos_wifi_sm_t) : bool := bool_decide (state (st sm) = s).

(** CONNECTED, OBTAINING_IP or CONNECTING: the driver is doing something. *)
Definition radio_busy (sm : espos_wifi_sm_t) : bool :=
  is_state ESPOS_WIFI_ST_CONNECTED sm || is_state ESPOS_WIFI_ST_OBTAINING_IP sm
  || is_state ESPOS_WIFI_ST_CONNECTING sm.

(** A deadline of 0 means "none": one that lands on 0 is moved to 1. *)
Definition nonzero (x : Z) : Z := if x =? 0 then 1 else x.

Definition espos_wifi_backoff_ms (round cap_ms rnd : Z) : Z :=
  let d := backoff_loop (Z.to_nat round) 1000 cap_ms in
  let d := if d >? cap_ms then cap_ms else d in
  backoff_jitter d rnd.

Section Machine.
Context {W : Type} (port : espos_wifi_port_t W).
(** [memcmp] over two configurations: it also sees padding and the bytes behind
    the terminators, so it is not a function of the fields. *)
Context (cfg_memcmp_eq : espos_wifi_cfg_t -> espos_wifi_cfg_t -> bool).

Abbreviation wact := (act espos_wifi_sm_t W wifi_obs).

Definition set_state (s : espos_wifi_state_t) : wact unit :=
  mods (fun sm => if bool_decide (state (st sm) = s) then sm else sm <| st; state := s |>).

Definition notify : wact unit :=
  match status_changed port with
  | Some f => call f (fun _ => ONotify)
  | None => mret tt
  end.

Definition now : wact Z := t ← query (now_ms port); mret (u32 t).

(** ** Portal *)

Definition portal_up : wact unit :=
  sm ← gets id;
  (if negb (portal_active (st sm)) && portal_enabled (cfg sm) then
     match portal_start port with
     | Some f =>
         err ← call f OPortalStart;
         if err =? ESP_OK then
           mods (fun sm => sm <| st; portal_active := true |> <| st; portal_clients := 0 |>)
         else mret tt
     | None => mret tt
     end
   else mret tt);;
  mods (fun sm => sm <| portal_due_ms := 0 |>).

Definition portal_down : wact unit :=
  sm ← gets id;
  (if portal_active (st sm) then
     match portal_stop port with
     | Some f => call f (fun _ => OPortalStop);; mret tt
     | None => mret tt
     end;;
     mods (fun sm => sm <| st; portal_active := false |> <| st; portal_clients := 0 |>)
   else mret tt);;
  mods (fun sm => sm <| portal_due_ms := 0 |>).

Definition portal_policy : wact unit :=
  sm ← gets id;
  if negb (portal_enabled (cfg sm)) then portal_down
  else if bool_decide (portal_force (st sm) = ESPOS_WIFI_PORTAL_DOWN) then portal_down
  else if bool_decide (portal_force (st sm) = ESPOS_WIFI_PORTAL_UP) then
    if connect_in_flight sm then mods (fun sm => sm <| portal_due_ms := 0 |>)
    else portal_up
  else if is_state ESPOS_WIFI_ST_CONNECTED sm then portal_down
  else if other_net_up sm && negb (portal_online (cfg sm)) then portal_down
  else if portal_active (st sm) then mret tt
  else if bool_decide (net_count (cfg sm) = 0%nat) || negb (cfg_sta_enabled (cfg sm)) then portal_up
  else
    let due := u32 (disconnected_since_ms (st sm) + portal_after_ms (cfg sm)) in
    t ← now;
    if i32 (t - due) >=? 0 then
      if connect_in_flight sm then mods (fun sm => sm <| portal_due_ms := 0 |>)
      else portal_up
    else mods (fun sm => sm <| portal_due_ms := nonzero due |>).

(** ** The timer *)

(** Milliseconds until a pending deadline, at least one. *)
Definition until (due t : Z) : Z := if i32 (due - t) >? 0 then u32 (due - t) else 1.

Definition arm (ms : Z) (is_dhcp : bool) : wact unit :=
  mods (fun sm => sm <| timer_is_dhcp := is_dhcp |> <| timer_is_portal := false |>);;
  t ← now;
  mods (fun sm => sm <| state_due_ms := nonzero (u32 (t + ms)) |>);;
  pdue ← gets portal_due_ms;
  ms ← (if negb (pdue =? 0) then
          t ← now;
          let until_portal := until pdue t in
          if until_portal <? ms then
            mods (fun sm => sm <| timer_is_portal := true |>);; mret until_portal
          else mret ms
        else mret ms);
  t ← now;
  mods (fun sm => sm <| timer_due_ms := nonzero (u32 (t + ms)) |>);;
  call (arm_timer port ms) (fun _ => OArm ms).

Definition rearm_state : wact unit :=
  due ← gets state_due_ms;
  if due =? 0 then mret tt
  else
    t ← now;
    let left := i32 (due - t) in
    is_dhcp ← gets (is_state ESPOS_WIFI_ST_OBTAINING_IP);
    arm (if left >? 0 then left else 1) is_dhcp;;
    mods (fun sm => sm <| state_due_ms := due |>).

Definition arm_portal_only : wact unit :=
  mods (fun sm => sm <| state_due_ms := 0 |>);;
  pdue ← gets portal_due_ms;
  if negb (pdue =? 0) then
    t ← now;
    let ms := until pdue t in
    mods (fun sm => sm <| timer_is_dhcp := false |> <| timer_is_portal := true |>
                       <| timer_due_ms := nonzero (u32 (t + ms)) |>);;
    call (arm_timer port ms) (fun _ => OArm ms)
  else
    mods (fun sm => sm <| timer_due_ms := 0 |>);;
    call (cancel_timer port) (fun _ => OCancel).

Definition rearm_after_policy : wact unit :=
  due ← gets state_due_ms;
  if negb (due =? 0) then rearm_state else arm_portal_only.

(** ** Transitions *)

(** An attempt failed; [start] is [start_attempt]. *)
Definition attempt_failed (start : wact unit) (why : Z) : wact unit :=
  mods (fun sm => sm <| st; reason := why |> <| connect_in_flight := false |>);;
  sm ← gets id;
  if is_state ESPOS_WIFI_ST_CONNECTED sm then
    mods (fun sm => sm <| st; disconnect_count ::= fun n => u32 (n + 1) |>);;
    t ← now;
    mods (fun sm => sm <| st; disconnected_since_ms := t |>);;
    start
  else
    let next := net_index (st sm) + 1 in
    if (0 <=? next) && (next <? Z.of_nat (net_count (cfg sm))) then
      mods (fun sm => sm <| st; net_index := next |> <| connect_in_flight := false |>);;
      portal_policy;;
      start
    else
      mods (fun sm => sm <| st; net_index := 0 |>);;
      rnd ← query (random port);
      let delay := espos_wifi_backoff_ms (round (st sm)) (backoff_max_ms (cfg sm)) (u32 rnd) in
      mods (fun sm => if round (st sm) <? 30 then sm <| st; round ::= fun n => n + 1 |> else sm);;
      set_state ESPOS_WIFI_ST_BACKOFF;;
      t ← now;
      mods (fun sm => sm <| st; backoff_until_ms := u32 (t + delay) |>);;
      portal_policy;;
      arm delay false;;
      notify.

(** The [STA_DISCONNECTED] case of the event handler. *)
Definition ev_sta_disconnected (start : wact unit) (arg : option Z) : wact unit :=
  let why := match arg with Some r => r | None => 0 end in
  sm ← gets id;
  if radio_busy sm then attempt_failed start why else mret tt.

Fixpoint start_attempt (fuel : nat) : wact unit :=
  match fuel with
  | O => emit OOutOfFuel
  | S fuel' =>
      sm ← gets id;
      if bool_decide (net_count (cfg sm) = 0%nat) then
        set_state ESPOS_WIFI_ST_UNCONFIGURED;;
        mods (fun sm => sm <| st; net_index := -1 |> <| connect_in_flight := false |>);;
        portal_policy;;
        arm_portal_only;;
        notify
      else
        mods (fun sm =>
                if (net_index (st sm) <? 0) || (net_index (st sm) >=? Z.of_nat (net_count (cfg sm)))
                then sm <| st; net_index := 0 |> else sm);;
        mods (fun sm => sm <| st; attempt ::= fun n => u32 (n + 1) |>);;
        set_state ESPOS_WIFI_ST_CONNECTING;;
        mods (fun sm => sm <| st; link := link_zero |> <| st; ip := ip_zero |>);;
        net ← gets (fun sm => default net_zero (nets (cfg sm) !! Z.to_nat (net_index (st sm))));
        err ← call (connect port net) (OConnect net);
        if negb (err =? ESP_OK) then
          mods (fun sm => sm <| st; reason := ESPOS_WIFI_REASON_CONNECT_TIMEOUT |>);;
          ev_sta_disconnected (start_attempt fuel') (Some ESPOS_WIFI_REASON_CONNECT_TIMEOUT)
        else
          mods (fun sm => sm <| connect_in_flight := true |>);;
          portal_policy;;
          arm (connect_timeout_ms (cfg sm)) false;;
          notify
  end.

(** [start_attempt] with enough fuel: one attempt per network of the list, and
    one call for an empty list. *)
Definition start : wact unit :=
  sm ← gets id; start_attempt (S (net_count (cfg sm))).

Definition go_idle (s : espos_wifi_state_t) (why : Z) : wact unit :=
  sm ← gets id;
  (if radio_busy sm then call (disconnect port) (fun _ => ODisconnect);; mret tt else mret tt);;
  (if is_state ESPOS_WIFI_ST_CONNECTED sm
   then mods (fun sm => sm <| st; disconnect_count ::= fun n => u32 (n + 1) |>) else mret tt);;
  mods (fun sm => sm <| st; reason := why |> <| st; net_index := -1 |>);;
  t ← now;
  mods (fun sm => sm <| st; disconnected_since_ms := t |> <| st; link := link_zero |>
                     <| st; ip := ip_zero |> <| connect_in_flight := false |>);;
  set_state s;;
  portal_policy;;
  arm_portal_only;;
  notify.

(** ** Init and queries *)

Definition espos_wifi_sm_init (c : espos_wifi_cfg_t) : espos_wifi_sm_t :=
  WifiSm c
    (WifiStatus ESPOS_WIFI_ST_DISABLED (cfg_sta_enabled c) (-1) link_zero ip_zero 0 0 0 0 0 0 0 0 false 0
       ESPOS_WIFI_PORTAL_AUTO)
    false false false 0 0 0 false false.

Definition espos_wifi_sm_backoff_remaining_ms : wact Z :=
  sm ← gets id;
  if negb (is_state ESPOS_WIFI_ST_BACKOFF sm) then mret 0
  else
    t ← now;
    let d := i32 (backoff_until_ms (st sm) - t) in
    mret (if d >? 0 then d else 0).

Definition net_same (a b : espos_wifi_net_t) : bool :=
  streq (ssid a) (ssid b) && streq (psk a) (psk b) && Bool.eqb (has_bssid a) (has_bssid b)
  && (negb (has_bssid a) || bool_decide (bssid a = bssid b)).

(** [c->nets[i]] *)
Definition net_at (c : espos_wifi_cfg_t) (i : nat) : espos_wifi_net_t := default net_zero (nets c !! i).

Definition nets_equal (a b : espos_wifi_cfg_t) : bool :=
  if negb (Nat.eqb (net_count a) (net_count b)) then false
  else forallb (fun i => net_same (net_at a i) (net_at b i)) (seq 0 (net_count a)).

(** The index the current network has in the new configuration, if any. *)
Definition current_net_still_valid (sm : espos_wifi_sm_t) (ncfg : espos_wifi_cfg_t) : option Z :=
  if (net_index (st sm) <? 0) || (net_index (st sm) >=? Z.of_nat (net_count (cfg sm))) then None
  else
    let cur := net_at (cfg sm) (Z.to_nat (net_index (st sm))) in
    Z.of_nat <$> List.find (fun i => net_same (net_at ncfg i) cur) (seq 0 (net_count ncfg)).

(** ** Events *)

Definition ev_start : wact unit :=
  sm ← gets id;
  if started sm then mret tt
  else
    mods (fun sm => sm <| started := true |>);;
    t ← now;
    mods (fun sm => sm <| st; disconnected_since_ms := t |> <| st; round := 0 |> <| st; attempt := 0 |>);;
    if negb (cfg_sta_enabled (cfg sm)) then go_idle ESPOS_WIFI_ST_DISABLED ESPOS_WIFI_REASON_DISABLED
    else
      mods (fun sm => sm <| st; net_index := 0 |>);;
      start.

Definition ev_stop : wact unit :=
  sm ← gets id;
  if negb (started sm) then mret tt
  else
    call (cancel_timer port) (fun _ => OCancel);;
    mods (fun sm => sm <| timer_due_ms := 0 |> <| state_due_ms := 0 |>);;
    portal_down;;
    (if radio_busy sm then call (disconnect port) (fun _ => ODisconnect);; mret tt else mret tt);;
    mods (fun sm => sm <| started := false |>);;
    set_state ESPOS_WIFI_ST_DISABLED;;
    mods (fun sm => sm <| st; net_index := -1 |>);;
    notify.

(** The connection goes on, is dropped or restarts under a new list. *)
Definition ev_config_nets (ncfg : espos_wifi_cfg_t) : wact unit :=
  sm ← gets id;
  let keep :=
    if started sm && cfg_sta_enabled ncfg
       && (is_state ESPOS_WIFI_ST_CONNECTED sm || is_state ESPOS_WIFI_ST_OBTAINING_IP sm)
    then current_net_still_valid sm ncfg else None in
  mods (fun sm => sm <| cfg := ncfg |> <| st; sta_enabled := cfg_sta_enabled ncfg |>);;
  if negb (started sm) then mret tt
  else
    match keep with
    | Some keep_index =>
        mods (fun sm => sm <| st; net_index := keep_index |>);;
        portal_policy;;
        notify
    | None =>
        if negb (cfg_sta_enabled ncfg) then go_idle ESPOS_WIFI_ST_DISABLED ESPOS_WIFI_REASON_DISABLED
        else
          (if radio_busy sm then
             call (disconnect port) (fun _ => ODisconnect);;
             if is_state ESPOS_WIFI_ST_CONNECTED sm then
               mods (fun sm => sm <| st; disconnect_count ::= fun n => u32 (n + 1) |>);;
               t ← now;
               mods (fun sm => sm <| st; disconnected_since_ms := t |>)
             else mret tt
           else mret tt);;
          mods (fun sm => sm <| st; reason := ESPOS_WIFI_REASON_CONFIG_CHANGE |> <| st; round := 0 |>
                             <| st; attempt := 0 |> <| st; net_index := 0 |>);;
          start
    end.

Definition ev_config (ncfg : espos_wifi_cfg_t) : wact unit :=
  sm ← gets id;
  if cfg_memcmp_eq ncfg (cfg sm) then mret tt
  else if nets_equal ncfg (cfg sm) && Bool.eqb (cfg_sta_enabled ncfg) (cfg_sta_enabled (cfg sm)) then
    mods (fun sm => sm <| cfg := ncfg |>);;
    if started sm then
      portal_policy;;
      (if is_state ESPOS_WIFI_ST_UNCONFIGURED sm || is_state ESPOS_WIFI_ST_DISABLED sm
       then arm_portal_only else mret tt);;
      notify
    else mret tt
  else ev_config_nets ncfg.

Definition ev_sta_connected (arg : option espos_wifi_link_t) : wact unit :=
  sm ← gets id;
  if negb (is_state ESPOS_WIFI_ST_CONNECTING sm) then mret tt
  else
    match arg with Some l => mods (fun sm => sm <| st; link := l |>) | None => mret tt end;;
    mods (fun sm => sm <| connect_in_flight := false |>);;
    set_state ESPOS_WIFI_ST_OBTAINING_IP;;
    portal_policy;;
    arm (dhcp_timeout_ms (cfg sm)) true;;
    notify.

Definition ev_got_ip (arg : option espos_wifi_ip_t) : wact unit :=
  sm ← gets id;
  if negb (is_state ESPOS_WIFI_ST_OBTAINING_IP sm) && negb (is_state ESPOS_WIFI_ST_CONNECTED sm) then mret tt
  else
    match arg with Some i => mods (fun sm => sm <| st; ip := i |>) | None => mret tt end;;
    (if negb (is_state ESPOS_WIFI_ST_CONNECTED sm) then
       mods (fun sm => sm <| st; connect_count ::= fun n => u32 (n + 1) |>);;
       t ← now;
       mods (fun sm => sm <| st; connected_since_ms := t |> <| st; round := 0 |> <| st; attempt := 0 |>
                          <| st; reason := ESPOS_WIFI_REASON_NONE |>)
     else mret tt);;
    set_state ESPOS_WIFI_ST_CONNECTED;;
    call (cancel_timer port) (fun _ => OCancel);;
    mods (fun sm => sm <| timer_is_dhcp := false |> <| state_due_ms := 0 |> <| timer_due_ms := 0 |>);;
    portal_policy;;
    notify.

Definition ev_lost_ip : wact unit :=
  sm ← gets id;
  if is_state ESPOS_WIFI_ST_CONNECTED sm then
    mods (fun sm => sm <| st; disconnect_count ::= fun n => u32 (n + 1) |>);;
    t ← now;
    mods (fun sm => sm <| st; disconnected_since_ms := t |> <| st; ip := ip_zero |>
                       <| st; reason := ESPOS_WIFI_REASON_LOST_IP |>);;
    set_state ESPOS_WIFI_ST_OBTAINING_IP;;
    portal_policy;;
    arm (dhcp_timeout_ms (cfg sm)) true;;
    notify
  else mret tt.

(** The timer fired for the portal: the state timeout keeps its deadline. *)
Definition timer_portal : wact unit :=
  mods (fun sm => sm <| timer_is_portal := false |>);;
  portal_policy;;
  sm ← gets id;
  match state (st sm) with
  | ESPOS_WIFI_ST_BACKOFF =>
      left ← espos_wifi_sm_backoff_remaining_ms;
      if left =? 0 then start else rearm_state
  | ESPOS_WIFI_ST_CONNECTING | ESPOS_WIFI_ST_OBTAINING_IP => rearm_state
  | _ => arm_portal_only
  end;;
  notify.

Definition timer_state : wact unit :=
  mods (fun sm => sm <| state_due_ms := 0 |>);;
  sm ← gets id;
  match state (st sm) with
  | ESPOS_WIFI_ST_BACKOFF => start
  | ESPOS_WIFI_ST_CONNECTING =>
      call (disconnect port) (fun _ => ODisconnect);;
      attempt_failed start ESPOS_WIFI_REASON_CONNECT_TIMEOUT
  | ESPOS_WIFI_ST_OBTAINING_IP =>
      call (disconnect port) (fun _ => ODisconnect);;
      attempt_failed start ESPOS_WIFI_REASON_DHCP_TIMEOUT
  | _ => mret tt
  end.

(** A fire that has no deadline, or whose deadline has not passed, is stale. *)
Definition timer_early (due : Z) : wact bool :=
  if due =? 0 then mret true else t ← now; mret (i32 (t - due) <? 0).

Definition ev_timer : wact unit :=
  sm ← gets id;
  if negb (started sm) then mret tt
  else
    early ← timer_early (timer_due_ms sm);
    if (early : bool) then mret tt
    else
      mods (fun sm => sm <| timer_due_ms := 0 |>);;
      if timer_is_portal sm then timer_portal else timer_state.

Definition ev_portal_client (arg : option Z) : wact unit :=
  mods (fun sm => sm <| st; portal_clients :=
                       if portal_active (st sm) then match arg with Some n => n | None => 0 end else 0 |>);;
  notify.

Definition ev_portal_failed : wact unit :=
  sm ← gets id;
  if portal_active (st sm) then
    mods (fun sm => sm <| st; portal_active := false |> <| st; portal_clients := 0 |>);;
    t ← now;
    mods (fun sm => sm <| portal_due_ms := nonzero (u32 (t + 10000)) |>);;
    due ← gets state_due_ms;
    (if negb (due =? 0) then rearm_state else arm_portal_only);;
    notify
  else mret tt.

Definition ev_portal_reconfig : wact unit :=
  sm ← gets id;
  if portal_active (st sm) then portal_down;; portal_policy;; notify else mret tt.

Definition ev_other_net (arg : option bool) : wact unit :=
  let up := match arg with Some b => b | None => false end in
  sm ← gets id;
  if Bool.eqb up (other_net_up sm) then mret tt
  else
    mods (fun sm => sm <| other_net_up := up |>);;
    if negb (started sm) then mret tt
    else portal_policy;; rearm_after_policy;; notify.

Definition ev_portal_force (arg : option espos_wifi_portal_force_t) : wact unit :=
  let want := match arg with Some f => f | None => ESPOS_WIFI_PORTAL_AUTO end in
  sm ← gets id;
  if bool_decide (want = ESPOS_WIFI_PORTAL_FORCE_MAX) then mret tt
  else if bool_decide (want = portal_force (st sm)) then mret tt
  else
    mods (fun sm => sm <| st; portal_force := want |>);;
    if negb (started sm) then mret tt
    else portal_policy;; rearm_after_policy;; notify.

Definition espos_wifi_sm_event (ev : espos_wifi_event_t) : wact unit :=
  emit (OEvent ev);;
  match ev with
  | ESPOS_WIFI_EV_START => ev_start
  | ESPOS_WIFI_EV_STOP => ev_stop
  | ESPOS_WIFI_EV_CONFIG ncfg => ev_config ncfg
  | ESPOS_WIFI_EV_STA_CONNECTED arg => ev_sta_connected arg
  | ESPOS_WIFI_EV_STA_DISCONNECTED arg => ev_sta_disconnected start arg
  | ESPOS_WIFI_EV_GOT_IP arg => ev_got_ip arg
  | ESPOS_WIFI_EV_LOST_IP => ev_lost_ip
  | ESPOS_WIFI_EV_TIMER => ev_timer
  | ESPOS_WIFI_EV_PORTAL_CLIENT arg => ev_portal_client arg
  | ESPOS_WIFI_EV_PORTAL_FAILED => ev_portal_failed
  | ESPOS_WIFI_EV_PORTAL_RECONFIG => ev_portal_reconfig
  | ESPOS_WIFI_EV_OTHER_NET arg => ev_other_net arg
  | ESPOS_WIFI_EV_PORTAL_FORCE arg => ev_portal_force arg
  | ESPOS_WIFI_EV_MAX => mret tt
  end.

Fixpoint wifi_run (evs : list espos_wifi_event_t) : wact unit :=
  match evs with
  | [] => mret tt
  | ev :: evs' => espos_wifi_sm_event ev;; wifi_run evs'
  end.

End Machine.
