(* ===== verification/WifiProps.v ===== *)
(** Correctness of the WiFi state machine ([WifiSm]): the invariant of every
    reachable configuration, by a specification of each operation, and what
    follows from it for the portal, the timer and the list of networks. *)
From Stdlib Require Import ZArith Lia String.
From stdpp Require Import base list numbers sets.
From S2P Require Import Prelude NetSm WifiSm.
Open Scope Z_scope.

(** * What the trace says *)

(** An association is in flight: the driver accepted a connect and has neither
    answered nor been told to disconnect since. *)
Fixpoint assoc_pending (tr : list wifi_obs) : bool :=
  match tr with
  | [] => false
  | OConnect _ err :: _ => err =? ESP_OK
  | ODisconnect :: _ => false
  | OEvent (ESPOS_WIFI_EV_STA_CONNECTED _) :: _ => false
  | OEvent (ESPOS_WIFI_EV_STA_DISCONNECTED _) :: _ => false
  | _ :: tr' => assoc_pending tr'
  end.

(** The driver's timer is armed: armed and not cancelled since. *)
Fixpoint timer_armed (tr : list wifi_obs) : bool :=
  match tr with
  | [] => false
  | OArm _ :: _ => true
  | OCancel :: _ => false
  | _ :: tr' => timer_armed tr'
  end.

(** The portal was never started inside an association, and the recursion of
    [start_attempt] never ran out of fuel. *)
Fixpoint trace_ok (tr : list wifi_obs) : Prop :=
  match tr with
  | [] => True
  | OPortalStart _ :: tr' => assoc_pending tr' = false /\ trace_ok tr'
  | OOutOfFuel :: _ => False
  | _ :: tr' => trace_ok tr'
  end.

(** * The invariant *)

Definition waiting (s : espos_wifi_state_t) : bool :=
  match s with
  | ESPOS_WIFI_ST_CONNECTING | ESPOS_WIFI_ST_OBTAINING_IP | ESPOS_WIFI_ST_BACKOFF => true
  | _ => false
  end.

(** The states in which [net_index] names a network. *)
Definition attempting (s : espos_wifi_state_t) : bool :=
  waiting s || bool_decide (s = ESPOS_WIFI_ST_CONNECTED).

(** What the operator, the application and the other transports allow. *)
Definition portal_allowed (sm : espos_wifi_sm_t) : Prop :=
  portal_enabled (cfg sm) = true /\
  portal_force (st sm) <> ESPOS_WIFI_PORTAL_DOWN /\
  (portal_force (st sm) = ESPOS_WIFI_PORTAL_UP \/
   state (st sm) <> ESPOS_WIFI_ST_CONNECTED /\
   (other_net_up sm = true -> portal_online (cfg sm) = true)).

Definition index_ok (sm : espos_wifi_sm_t) : Prop :=
  attempting (state (st sm)) = true ->
  cfg_sta_enabled (cfg sm) = true /\ 0 <= net_index (st sm) < Z.of_nat (net_count (cfg sm)).

Definition timer_ok (sm : espos_wifi_sm_t) : Prop :=
  waiting (state (st sm)) = true -> timer_due_ms sm <> 0 /\ state_due_ms sm <> 0.

(** The fields the portal functions write, and those the timer functions do. *)
Definition portal_set (sm : espos_wifi_sm_t) (pa : bool) (pc pd : Z) : espos_wifi_sm_t :=
  sm <| st; portal_active := pa |> <| st; portal_clients := pc |> <| portal_due_ms := pd |>.
Definition timer_set (sm : espos_wifi_sm_t) (d tp : bool) (sd td : Z) : espos_wifi_sm_t :=
  sm <| timer_is_dhcp := d |> <| timer_is_portal := tp |> <| state_due_ms := sd |> <| timer_due_ms := td |>.

(** The structs are taken apart into their members; [flat] brings the result of
    assignments back to that form, so that terms stay small. *)
Ltac open_mach s :=
  let c := fresh "c" in destruct s as [[c [] ? ? ? ? ? ? ? ?] ? ?]; cbn in *.
Ltac flat :=
  unfold portal_set, timer_set;
  cbn [m_sm m_world m_trace update id
       cfg st started timer_is_dhcp timer_is_portal portal_due_ms state_due_ms timer_due_ms
       connect_in_flight other_net_up
       state sta_enabled net_index link ip reason backoff_until_ms attempt round connected_since_ms
       disconnected_since_ms connect_count disconnect_count portal_active portal_clients portal_force].
Ltac wstep := wp_step; flat.
Ltac wsteps := repeat wstep.

Section Proofs.
Context {W : Type} (port : espos_wifi_port_t W).
Context (cfg_memcmp_eq : espos_wifi_cfg_t -> espos_wifi_cfg_t -> bool).

Abbreviation wmach := (mach espos_wifi_sm_t W wifi_obs).

Record wifi_inv (s : wmach) : Prop := mk_wifi_inv {
  inv_stopped : started (m_sm s) = false ->
    state (st (m_sm s)) = ESPOS_WIFI_ST_DISABLED /\ portal_active (st (m_sm s)) = false;
  inv_index : index_ok (m_sm s);
  inv_timer : timer_ok (m_sm s);
  inv_armed : timer_due_ms (m_sm s) <> 0 -> timer_armed (m_trace s) = true;
  inv_portal : portal_active (st (m_sm s)) = true -> portal_allowed (m_sm s);
  inv_pending : assoc_pending (m_trace s) = true ->
    connect_in_flight (m_sm s) = true /\ state (st (m_sm s)) = ESPOS_WIFI_ST_CONNECTING;
  inv_trace : trace_ok (m_trace s)
}.

(** A trace extended by calls that neither associate nor touch the timer. *)
Definition quiet (tr tr' : list wifi_obs) : Prop :=
  assoc_pending tr' = assoc_pending tr /\ timer_armed tr' = timer_armed tr /\
  (trace_ok tr -> trace_ok tr').

(** An association in flight is known to the portal policy. *)
Definition pending_guarded (s : wmach) : Prop :=
  assoc_pending (m_trace s) = true ->
  connect_in_flight (m_sm s) = true /\ net_count (cfg (m_sm s)) <> 0%nat /\
  cfg_sta_enabled (cfg (m_sm s)) = true.

(** * Specifications of the operations *)

Lemma nonzero_spec x : nonzero x <> 0.
Proof. unfold nonzero. by destruct (Z.eqb_spec x 0). Qed.

Lemma quiet_refl tr : quiet tr tr.
Proof. done. Qed.
Local Hint Resolve quiet_refl nonzero_spec : core.

Lemma now_spec Q (s : wmach) :
  (forall t w, Q t (Mach (m_sm s) w (m_trace s))) -> wp (now port) Q s.
Proof. intros H. unfold now. repeat wp_step. apply H. Qed.

Lemma notify_spec Q (s : wmach) :
  (forall w tr, quiet (m_trace s) tr -> Q tt (Mach (m_sm s) w tr)) -> wp (notify port) Q s.
Proof.
  intros H. unfold notify. destruct (status_changed port); repeat wp_step.
  - destruct a. by apply H.
  - destruct s. by apply H.
Qed.

Lemma portal_down_spec Q (s : wmach) :
  (forall pc w tr, quiet (m_trace s) tr -> Q tt (Mach (portal_set (m_sm s) false pc 0) w tr)) ->
  wp (portal_down port) Q s.
Proof.
  intros H. unfold portal_down. do 3 wp_step; cbn [id] in *; repeat wp_step.
  - destruct (portal_stop port); repeat wp_step; by apply H.
  - open_mach s. subst. by apply H.
Qed.

Lemma portal_up_spec Q (s : wmach) :
  assoc_pending (m_trace s) = false ->
  (forall pa pc w tr,
     (pa = true -> portal_active (st (m_sm s)) = true \/ portal_enabled (cfg (m_sm s)) = true) ->
     quiet (m_trace s) tr -> Q tt (Mach (portal_set (m_sm s) pa pc 0) w tr)) ->
  wp (portal_up port) Q s.
Proof.
  intros Hp H. unfold portal_up. do 4 wp_step; cbn [id] in *.
  - apply andb_prop in E as [_ E].
    destruct (portal_start port); repeat wp_step.
    + apply H; [auto|]. by repeat split.
    + open_mach s. apply H; [auto|]. by repeat split.
    + open_mach s. by apply H; [auto|].
  - wp_step. wp_step. open_mach s. by apply H; [auto|].
Qed.

Lemma portal_set_due (sm : espos_wifi_sm_t) pd :
  sm <| portal_due_ms := pd |> = portal_set sm (portal_active (st sm)) (portal_clients (st sm)) pd.
Proof. by destruct sm as [? [] ? ? ? ? ? ? ? ?]. Qed.

Lemma portal_set_id (sm : espos_wifi_sm_t) :
  sm = portal_set sm (portal_active (st sm)) (portal_clients (st sm)) (portal_due_ms sm).
Proof. by destruct sm as [? [] ? ? ? ? ? ? ? ?]. Qed.

Lemma portal_policy_spec Q (s : wmach) :
  pending_guarded s ->
  (forall pa pc pd w tr,
     (pa = true -> portal_allowed (m_sm s)) -> quiet (m_trace s) tr ->
     Q tt (Mach (portal_set (m_sm s) pa pc pd) w tr)) ->
  wp (portal_policy port) Q s.
Proof.
  intros Hp H. unfold portal_policy. do 2 wp_step. cbn [id].
  assert (Hup : connect_in_flight (m_sm s) = false -> assoc_pending (m_trace s) = false).
  { unfold pending_guarded in Hp. destruct (assoc_pending (m_trace s)); [|done]. intros C. destruct Hp as [Hp _]; [done|]. congruence. }
  wp_step. { apply portal_down_spec; intros; by apply H. }
  wp_step. { apply portal_down_spec; intros; by apply H. }
  apply negb_false_iff in E. apply bool_decide_eq_false in E0.
  wp_step; [apply bool_decide_eq_true in E1; wp_step|apply bool_decide_eq_false in E1].
  - wp_step. rewrite portal_set_due. apply H; [|done]. intros _. by repeat split; auto.
  - apply portal_up_spec; [auto|]. intros. apply H; [|done]. by repeat split; auto.
  - wp_step. { apply portal_down_spec; intros; by apply H. }
    apply bool_decide_eq_false in E2.
    wp_step. { apply portal_down_spec; intros; by apply H. }
    assert (portal_allowed (m_sm s)).
    { repeat split; auto. right. split; [done|]. intros Ho. rewrite Ho in E3. by apply negb_false_iff in E3. }
    repeat (wp_step; try (apply now_spec; intros)); cbn [m_sm m_trace];
      try (apply portal_up_spec; cbn [m_sm m_trace]; [by auto|intros; by apply H]).
    + destruct s as [sm w tr]; cbn in *. rewrite (portal_set_id sm). by apply H.
    + apply portal_up_spec; [|intros; by apply H].
      destruct (assoc_pending (m_trace s)) eqn:Ep; [|done]. destruct (Hp Ep) as (_ & Hn & He).
      rewrite bool_decide_eq_false_2, He in E5 by done. done.
    + rewrite portal_set_due. by apply H.
    + rewrite portal_set_due. by apply H.
Qed.

Lemma arm_spec Q ms d (s : wmach) :
  (forall tp sd td w tr,
     sd <> 0 -> td <> 0 -> assoc_pending tr = assoc_pending (m_trace s) -> timer_armed tr = true ->
     (trace_ok (m_trace s) -> trace_ok tr) -> Q tt (Mach (timer_set (m_sm s) d tp sd td) w tr)) ->
  wp (arm port ms d) Q s.
Proof.
  intros H. open_mach s. unfold arm, timer_set in *. cbn in H.
  repeat (wp_step || (apply now_spec; intros)); cbn;
    repeat match goal with a : unit |- _ => destruct a end; apply H; auto.
Qed.

(** The trace of a timer call: nothing about the association changes. *)
Definition timed (tr tr' : list wifi_obs) : Prop :=
  assoc_pending tr' = assoc_pending tr /\ (trace_ok tr -> trace_ok tr').

Lemma rearm_state_spec Q (s : wmach) :
  state_due_ms (m_sm s) <> 0 ->
  (forall d tp td w tr,
     td <> 0 -> timer_armed tr = true -> timed (m_trace s) tr ->
     Q tt (Mach (timer_set (m_sm s) d tp (state_due_ms (m_sm s)) td) w tr)) ->
  wp (rearm_state port) Q s.
Proof.
  intros Hd H. unfold rearm_state. do 2 wp_step. rewrite (proj2 (Z.eqb_neq _ _)) by done.
  wp_step. apply now_spec; intros. do 3 wp_step. apply arm_spec; cbn [m_sm m_trace]; intros.
  wp_step. open_mach s. by apply H.
Qed.

Lemma arm_portal_only_spec Q (s : wmach) :
  (forall d tp td w tr,
     (td <> 0 -> timer_armed tr = true) -> timed (m_trace s) tr ->
     Q tt (Mach (timer_set (m_sm s) d tp 0 td) w tr)) ->
  wp (arm_portal_only port) Q s.
Proof.
  intros H. open_mach s. unfold arm_portal_only, timer_set in *. cbn in H.
  repeat (wp_step || (apply now_spec; intros)); cbn; destruct a; apply H; try done; by split.
Qed.

Lemma rearm_after_policy_spec Q (s : wmach) :
  (forall d tp td w tr,
     (td <> 0 -> timer_armed tr = true) -> (state_due_ms (m_sm s) <> 0 -> td <> 0) ->
     timed (m_trace s) tr ->
     Q tt (Mach (timer_set (m_sm s) d tp (state_due_ms (m_sm s)) td) w tr)) ->
  wp (rearm_after_policy port) Q s.
Proof.
  intros H. unfold rearm_after_policy. do 2 wp_step.
  destruct (Z.eqb_spec (state_due_ms (m_sm s)) 0) as [E|E]; cbn [negb].
  - apply arm_portal_only_spec; intros. rewrite <- E at 1. apply H; auto.
  - apply rearm_state_spec; auto.
Qed.

(** * Closing sequences

    Every transition ends by consulting the portal policy, setting the timer
    and telling the owner. These lemmas close them. *)

(** What a transition has to have established before its closing sequence. *)
Record ready (s : wmach) : Prop := mk_ready {
  rd_started : started (m_sm s) = true;
  rd_index : index_ok (m_sm s);
  rd_pending : assoc_pending (m_trace s) = true ->
    connect_in_flight (m_sm s) = true /\ state (st (m_sm s)) = ESPOS_WIFI_ST_CONNECTING;
  rd_trace : trace_ok (m_trace s)
}.

Lemma ready_guarded s : ready s -> pending_guarded s.
Proof.
  intros [_ Hi Hp _] Hpend. destruct (Hp Hpend) as [? Hst].
  destruct Hi as [? ?]; [by rewrite Hst|]. split_and!; auto. lia.
Qed.
Local Hint Resolve ready_guarded : core.

Lemma quiet_timed tr tr' tr'' : timed tr tr' -> quiet tr' tr'' -> timed tr tr''.
Proof. unfold timed, quiet. intuition congruence. Qed.

Definition same_state (s s' : wmach) : Prop := state (st (m_sm s')) = state (st (m_sm s)).

(** [portal_policy(); arm(); notify();] into a state with a timeout *)
Lemma close_armed ms d s :
  ready s -> wp (portal_policy port;; arm port ms d;; notify port) (fun _ s' => wifi_inv s' /\ same_state s s') s.
Proof.
  intros Hr. pose proof Hr as [Hs Hi Hp Ht].
  wp_step. apply portal_policy_spec; [auto|]. intros pa pc pd w tr Hpa (Hq1 & Hq2 & Hq3).
  wp_step. apply arm_spec; cbn [m_sm m_trace]. intros tp sd td w1 tr1 Hsd Htd Ha1 Ha2 Ha3.
  apply notify_spec; cbn [m_sm m_trace]. intros w2 tr2 (Hn1 & Hn2 & Hn3).
  split; [|done]. split; cbn [m_sm m_trace]; cbn; auto.
  - by rewrite Hs.
  - by intros _.
  - intros _. congruence.
  - rewrite Hn1, Ha1, Hq1. auto.
Qed.

(** [portal_policy(); arm_portal_only(); notify();] into an idle state *)
Lemma close_idle s :
  ready s -> waiting (state (st (m_sm s))) = false ->
  wp (portal_policy port;; arm_portal_only port;; notify port) (fun _ s' => wifi_inv s' /\ same_state s s') s.
Proof.
  intros Hr Hw. pose proof Hr as [Hs Hi Hp Ht].
  wp_step. apply portal_policy_spec; [auto|]. intros pa pc pd w tr Hpa (Hq1 & Hq2 & Hq3).
  wp_step. apply arm_portal_only_spec; cbn [m_sm m_trace]. intros d tp td w1 tr1 Ha1 (Ha2 & Ha3).
  apply notify_spec; cbn [m_sm m_trace]. intros w2 tr2 (Hn1 & Hn2 & Hn3).
  split; [|done]. split; cbn [m_sm m_trace]; cbn; auto.
  - by rewrite Hs.
  - intros C. cbn in C. congruence.
  - intros. rewrite Hn2. auto.
  - rewrite Hn1, Ha2, Hq1. auto.
Qed.

(** [portal_policy(); rearm_after_policy(); notify();]: the state goes on *)
Lemma close_rearm s :
  ready s -> timer_ok (m_sm s) ->
  wp (portal_policy port;; rearm_after_policy port;; notify port) (fun _ s' => wifi_inv s' /\ same_state s s') s.
Proof.
  intros Hr Htm. pose proof Hr as [Hs Hi Hp Ht].
  wp_step. apply portal_policy_spec; [auto|]. intros pa pc pd w tr Hpa (Hq1 & Hq2 & Hq3).
  wp_step. apply rearm_after_policy_spec; cbn [m_sm m_trace]. intros d tp td w1 tr1 Ha1 Ha2 (Ha3 & Ha4).
  apply notify_spec; cbn [m_sm m_trace]. intros w2 tr2 (Hn1 & Hn2 & Hn3).
  split; [|done]. split; cbn [m_sm m_trace]; cbn; auto.
  - by rewrite Hs.
  - intros C. destruct (Htm C). cbn. auto.
  - intros. rewrite Hn2. auto.
  - rewrite Hn1, Ha3, Hq1. auto.
Qed.

(** [portal_policy(); notify();]: neither the state nor the timer changes *)
Lemma close_policy s :
  ready s -> timer_ok (m_sm s) -> (timer_due_ms (m_sm s) <> 0 -> timer_armed (m_trace s) = true) ->
  wp (portal_policy port;; notify port) (fun _ s' => wifi_inv s' /\ same_state s s') s.
Proof.
  intros Hr Htm Harm. pose proof Hr as [Hs Hi Hp Ht].
  wp_step. apply portal_policy_spec; [auto|]. intros pa pc pd w tr Hpa (Hq1 & Hq2 & Hq3).
  apply notify_spec; cbn [m_sm m_trace]. intros w2 tr2 (Hn1 & Hn2 & Hn3).
  split; [|done]. split; cbn [m_sm m_trace]; cbn; auto.
  - by rewrite Hs.
  - intros. rewrite Hn2, Hq2. auto.
  - rewrite Hn1, Hq1. auto.
Qed.
(** * Transitions *)

(** No association is in flight and the machine runs: a new attempt may start. *)
Record restartable (s : wmach) : Prop := mk_restartable {
  rs_started : started (m_sm s) = true;
  rs_enabled : cfg_sta_enabled (cfg (m_sm s)) = true;
  rs_pending : assoc_pending (m_trace s) = false;
  rs_trace : trace_ok (m_trace s)
}.

(** Where a new attempt can leave the machine. *)
Definition attempted (s' : wmach) : Prop :=
  wifi_inv s' /\
  (state (st (m_sm s')) = ESPOS_WIFI_ST_UNCONFIGURED \/ state (st (m_sm s')) = ESPOS_WIFI_ST_CONNECTING \/
   state (st (m_sm s')) = ESPOS_WIFI_ST_BACKOFF).

(** The states a handler may move the machine to, apart from where it is. *)
Definition moved (s : wmach) (targets : list espos_wifi_state_t) (s' : wmach) : Prop :=
  wifi_inv s' /\
  (state (st (m_sm s')) = state (st (m_sm s)) \/ state (st (m_sm s')) ∈ targets).

Definition attempt_states : list espos_wifi_state_t :=
  [ESPOS_WIFI_ST_UNCONFIGURED; ESPOS_WIFI_ST_CONNECTING; ESPOS_WIFI_ST_BACKOFF].

Lemma moved_same s ts s' : wifi_inv s' -> state (st (m_sm s')) = state (st (m_sm s)) -> moved s ts s'.
Proof. by split; auto. Qed.

Lemma moved_to s ts s' x : wifi_inv s' -> state (st (m_sm s')) = x -> x ∈ ts -> moved s ts s'.
Proof. intros ? <- ?. by split; auto. Qed.

Lemma moved_attempted s ts s' : attempted s' -> attempt_states ⊆ ts -> moved s ts s'.
Proof.
  intros [Hinv Hst] Hin. split; [done|]. right. apply Hin. unfold attempt_states.
  rewrite !elem_of_cons. tauto.
Qed.

(** The networks the attempt still has in front of it. *)
Definition remaining (sm : espos_wifi_sm_t) : Z :=
  let n := Z.of_nat (net_count (cfg sm)) in
  if n =? 0 then 1
  else if (net_index (st sm) <? 0) || (net_index (st sm) >=? n) then n
  else n - net_index (st sm).

Lemma set_state_spec Q x (s : wmach) :
  Q tt (Mach ((m_sm s) <| st; state := x |>) (m_world s) (m_trace s)) -> wp (set_state x) Q s.
Proof.
  intros H. unfold set_state. wp_step. case_bool_decide as E; [|done].
  open_mach s. by subst.
Qed.

Lemma bump_round_spec Q (s : wmach) :
  (forall r, Q tt (Mach ((m_sm s) <| st; round := r |>) (m_world s) (m_trace s))) ->
  wp (mods (fun sm => if round (st sm) <? 30 then sm <| st; round ::= fun n => n + 1 |> else sm)) Q s.
Proof.
  intros H. wp_step. destruct (_ <? 30); [apply H|].
  specialize (H (round (st (m_sm s)))). by open_mach s.
Qed.

Lemma attempt_failed_spec start why s :
  restartable s -> 0 <= net_index (st (m_sm s)) < Z.of_nat (net_count (cfg (m_sm s))) ->
  (forall s', restartable s' -> cfg (m_sm s') = cfg (m_sm s) ->
     (if bool_decide (state (st (m_sm s)) = ESPOS_WIFI_ST_CONNECTED)
      then net_index (st (m_sm s')) = net_index (st (m_sm s))
      else net_index (st (m_sm s')) = net_index (st (m_sm s)) + 1 /\
           net_index (st (m_sm s')) < Z.of_nat (net_count (cfg (m_sm s)))) ->
     wp start (fun _ => attempted) s') ->
  wp (attempt_failed port start why) (fun _ => attempted) s.
Proof.
  intros [Hs He Hp Ht] Hi Hstart. open_mach s. unfold attempt_failed, is_state. do 4 wstep.
  case_bool_decide as Est.
  - do 3 wstep. apply now_spec; intros; flat. do 2 wstep. apply Hstart; auto. by split.
  - destruct ((0 <=? net_index + 1) && (net_index + 1 <? Z.of_nat (net_count c))) eqn:E.
    + do 3 wstep. apply portal_policy_spec; [by intros C; cbn in C; congruence|].
      intros pa pc pd w tr _ (Hq1 & Hq2 & Hq3). flat.
      apply Hstart; cbn; [split; cbn in *; auto; congruence|done|lia].
    + do 4 wstep. set (delay := espos_wifi_backoff_ms _ _ _). clearbody delay.
      wstep. apply bump_round_spec; intros; flat. wstep.
      apply set_state_spec; flat. wstep. apply now_spec; intros; flat. do 2 wstep.
      eapply wp_mono; [apply close_armed|].
      * split; cbn; auto; [|by rewrite Hp]. intros _. cbn. split; [done|lia].
      * intros _ s' [Hinv Hst]. split; [done|]. by right; right.
Qed.

Lemma remaining_at sm i :
  net_index (st sm) = i -> 0 <= i < Z.of_nat (net_count (cfg sm)) ->
  remaining sm = Z.of_nat (net_count (cfg sm)) - i.
Proof.
  intros <- Hi. unfold remaining. rewrite (proj2 (Z.eqb_neq _ 0)) by lia.
  by destruct (_ || _) eqn:E; [lia|].
Qed.

(** The index is brought back into the list. *)
Lemma normalise_index_spec Q (s : wmach) :
  net_count (cfg (m_sm s)) <> 0%nat ->
  (forall i, 0 <= i < Z.of_nat (net_count (cfg (m_sm s))) ->
     remaining (m_sm s) = Z.of_nat (net_count (cfg (m_sm s))) - i ->
     Q tt (Mach ((m_sm s) <| st; net_index := i |>) (m_world s) (m_trace s))) ->
  wp (mods (fun sm =>
              if (net_index (st sm) <? 0) || (net_index (st sm) >=? Z.of_nat (net_count (cfg sm)))
              then sm <| st; net_index := 0 |> else sm)) Q s.
Proof.
  intros Hn H. wp_step. unfold remaining in H.
  rewrite (proj2 (Z.eqb_neq (Z.of_nat (net_count (cfg (m_sm s)))) 0)) in H by lia.
  destruct (_ || _) eqn:E.
  - apply H; lia.
  - specialize (H (net_index (st (m_sm s)))). open_mach s. apply H; lia.
Qed.

Lemma start_attempt_spec fuel : forall s,
  restartable s -> remaining (m_sm s) <= Z.of_nat fuel ->
  wp (start_attempt port fuel) (fun _ => attempted) s.
Proof.
  induction fuel as [|fuel IH]; intros s [Hs He Hp Ht] Hf.
  { unfold remaining in Hf. repeat case_match; lia. }
  cbn [start_attempt]. open_mach s. do 2 wstep. case_bool_decide as E0.
  - wstep. apply set_state_spec; flat. do 2 wstep.
    eapply wp_mono; [apply close_idle; [split|]; cbn|]; auto.
    + intros C; discriminate C.
    + by rewrite Hp.
    + intros _ s' [Hinv Hst]. split; auto.
  - wstep. apply normalise_index_spec; [done|]. intros i Hi Hrem. flat. do 3 wstep.
    apply set_state_spec; flat. do 6 wstep. wstep.
    + do 2 wstep. unfold ev_sta_disconnected, radio_busy, is_state. do 2 wstep.
      cbn [bool_decide decide orb]. apply attempt_failed_spec; cbn.
      * split; cbn; auto. by apply negb_true_iff in E.
      * done.
      * intros s' Hs' Hcfg [Hidx Hlt]. apply IH; [done|].
        rewrite (remaining_at _ (i + 1)), Hcfg by (rewrite ?Hcfg; auto; lia). cbn in *; lia.
    + do 2 wstep. eapply wp_mono; [apply close_armed|].
      * split; cbn; auto. by intros _.
      * intros _ s' [Hinv Hst]. split; auto.
Qed.

Lemma start_spec s : restartable s -> wp (start port) (fun _ => attempted) s.
Proof.
  intros Hr. unfold start. do 2 wp_step. cbn [id]. apply start_attempt_spec; [done|].
  unfold remaining. repeat case_match; lia.
Qed.

Lemma start_moved s0 ts s :
  restartable s -> attempt_states ⊆ ts -> wp (start port) (fun _ => moved s0 ts) s.
Proof.
  intros Hr Hts. eapply wp_mono; [by apply start_spec|]. intros ? s' H. by apply moved_attempted.
Qed.

(** A busy radio is told to disconnect: no association is left in flight. *)
Lemma hangup_spec Q sm (s : wmach) :
  (assoc_pending (m_trace s) = true -> state (st sm) = ESPOS_WIFI_ST_CONNECTING) ->
  (forall w tr, assoc_pending tr = false -> timer_armed tr = timer_armed (m_trace s) ->
     (trace_ok (m_trace s) -> trace_ok tr) -> Q tt (Mach (m_sm s) w tr)) ->
  wp (if radio_busy sm then call (disconnect port) (fun _ => ODisconnect);; mret tt else mret tt) Q s.
Proof.
  intros Hp H. wp_step.
  - repeat wp_step. by apply H.
  - wp_step. destruct s as [sm' w tr]. apply H; auto. cbn in *.
    destruct (assoc_pending tr); [|done]. unfold radio_busy, is_state in E. rewrite Hp in E by done. done.
Qed.

Lemma go_idle_spec why s :
  started (m_sm s) = true -> trace_ok (m_trace s) ->
  (assoc_pending (m_trace s) = true -> state (st (m_sm s)) = ESPOS_WIFI_ST_CONNECTING) ->
  wp (go_idle port ESPOS_WIFI_ST_DISABLED why)
     (fun _ s' => wifi_inv s' /\ state (st (m_sm s')) = ESPOS_WIFI_ST_DISABLED) s.
Proof.
  intros Hs Ht Hp. unfold go_idle. do 3 wp_step. apply hangup_spec; [done|].
  intros w tr Hp1 Ha1 Ht1. cbn [id]. wp_step.
  match goal with |- wp _ ?Q _ => assert (HQ : forall n,
    Q tt (Mach ((m_sm s) <| st; disconnect_count := n |>) w tr)) end.
  { intros n. open_mach s. do 2 wstep. wstep. apply now_spec; intros; flat. do 3 wstep.
    apply set_state_spec; flat.
    eapply wp_mono; [apply close_idle; [split|]; cbn; auto|].
    - intros C; discriminate C.
    - by rewrite Hp1.
    - intros _ s' [Hinv Hst]. by split. }
  wp_step; wp_step; [apply HQ|].
  specialize (HQ (disconnect_count (st (m_sm s)))). by open_mach s.
Qed.

Lemma inv_ready s : wifi_inv s -> started (m_sm s) = true -> ready s.
Proof. intros [] ?. by split. Qed.

Lemma inv_attempting_started s : wifi_inv s -> attempting (state (st (m_sm s))) = true -> started (m_sm s) = true.
Proof.
  intros [Hst _ _ _ _ _ _] Ha. destruct (started (m_sm s)); [done|].
  destruct Hst as [Hst _]; [done|]. by rewrite Hst in Ha.
Qed.

Lemma inv_not_connecting s :
  wifi_inv s -> state (st (m_sm s)) <> ESPOS_WIFI_ST_CONNECTING -> assoc_pending (m_trace s) = false.
Proof.
  intros Hi Hn. destruct (assoc_pending (m_trace s)) eqn:E; [|done].
  by destruct (inv_pending s Hi E).
Qed.

(** * The handlers *)

Definition idle_or_attempt : list espos_wifi_state_t := ESPOS_WIFI_ST_DISABLED :: attempt_states.

Lemma attempt_idle : attempt_states ⊆ idle_or_attempt.
Proof. unfold idle_or_attempt. set_solver. Qed.
Local Hint Resolve attempt_idle : core.

Lemma is_state_true x sm : is_state x sm = true -> state (st sm) = x.
Proof. apply bool_decide_eq_true. Qed.

Lemma ev_start_moved s : wifi_inv s -> wp (ev_start port) (fun _ => moved s idle_or_attempt) s.
Proof.
  intros Hinv. unfold ev_start. do 3 wp_step; [wp_step; by apply moved_same|]. cbn [id] in E.
  destruct (inv_stopped s Hinv E) as [Hst Hpa].
  pose proof (inv_not_connecting s Hinv ltac:(congruence)) as Hp.
  pose proof (inv_trace s Hinv) as Ht. clear Hinv. open_mach s. subst.
  do 2 wstep. wstep. apply now_spec; intros; flat. do 3 wstep.
  - eapply wp_mono; [apply go_idle_spec; cbn; auto; congruence|]. intros _ s' []. by apply moved_same.
  - do 2 wstep. apply start_moved; [|auto]. split; cbn; auto. by apply negb_false_iff.
Qed.

Lemma ev_stop_moved s : wifi_inv s -> wp (ev_stop port) (fun _ => moved s [ESPOS_WIFI_ST_DISABLED]) s.
Proof.
  intros Hinv. unfold ev_stop. do 3 wp_step; [wp_step; by apply moved_same|]. cbn [id] in *. do 4 wp_step.
  wp_step. apply portal_down_spec. cbn [m_sm m_trace m_world]. intros pc w1 tr1 (Hq1 & Hq2 & Hq3). wp_step.
  apply hangup_spec; cbn [m_sm m_trace m_world].
  { rewrite Hq1. cbn. intros C. by destruct (inv_pending s Hinv C). }
  intros w2 tr2 Hp2 Ha2 Ht2. pose proof (inv_trace s Hinv) as Ht. clear Hinv.
  open_mach s. do 3 wstep. apply set_state_spec; flat. do 2 wstep.
  apply notify_spec; flat. intros w3 tr3 (Hn1 & Hn2 & Hn3).
  eapply moved_to; [|done|by constructor].
  split; cbn; auto; try done. intros C. congruence.
Qed.

Lemma ev_sta_connected_moved arg s :
  wifi_inv s -> assoc_pending (m_trace s) = false ->
  wp (ev_sta_connected port arg)
     (fun _ => moved s (if is_state ESPOS_WIFI_ST_CONNECTING (m_sm s) then [ESPOS_WIFI_ST_OBTAINING_IP] else [])) s.
Proof.
  intros Hinv Hp. unfold ev_sta_connected. do 2 wp_step. cbn [id].
  destruct (is_state _ _) eqn:E; cbn [negb]; [|wp_step; by apply moved_same].
  apply is_state_true in E.
  pose proof (inv_attempting_started s Hinv ltac:(by rewrite E)) as Hs.
  pose proof (inv_index s Hinv) as Hi. pose proof (inv_trace s Hinv) as Ht. clear Hinv.
  assert (HQ : forall l, wp (mods (fun sm => sm <| connect_in_flight := false |>);;
    set_state ESPOS_WIFI_ST_OBTAINING_IP;; portal_policy port;;
    arm port (dhcp_timeout_ms (cfg (m_sm s))) true;; notify port)
    (fun _ => moved s [ESPOS_WIFI_ST_OBTAINING_IP])
    (Mach ((m_sm s) <| st; link := l |>) (m_world s) (m_trace s))).
  { intros l. open_mach s. subst. do 3 wstep. apply set_state_spec; flat.
    eapply wp_mono; [apply close_armed; split; cbn; auto; congruence|].
    intros _ s' [? Hst]. eapply moved_to; [done|apply Hst|by constructor]. }
  wp_step. destruct arg as [l|]; wp_step; [apply HQ|].
  specialize (HQ (link (st (m_sm s)))). by open_mach s.
Qed.

Lemma ev_sta_disconnected_moved arg s :
  wifi_inv s -> assoc_pending (m_trace s) = false ->
  wp (ev_sta_disconnected port (start port) arg)
     (fun _ => moved s (if radio_busy (m_sm s) then attempt_states else [])) s.
Proof.
  intros Hinv Hp. unfold ev_sta_disconnected. do 3 wp_step; [|wp_step; by apply moved_same]. cbn [id] in *.
  rewrite E.
  assert (Ha : attempting (state (st (m_sm s))) = true).
  { unfold radio_busy, is_state in E. by destruct (state (st (m_sm s))). }
  pose proof (inv_attempting_started s Hinv Ha) as Hs.
  destruct (inv_index s Hinv Ha) as [He Hi].
  eapply wp_mono; [apply attempt_failed_spec; auto|intros ? s' H; by apply moved_attempted].
  - split; auto. apply Hinv.
  - intros s' Hs' _ _. by apply start_spec.
Qed.

Lemma ev_got_ip_moved arg s :
  wifi_inv s ->
  wp (ev_got_ip port arg)
     (fun _ => moved s (if is_state ESPOS_WIFI_ST_OBTAINING_IP (m_sm s) then [ESPOS_WIFI_ST_CONNECTED] else [])) s.
Proof.
  intros Hinv. unfold ev_got_ip. do 3 wp_step; [wp_step; by apply moved_same|]. cbn [id] in *.
  assert (Hst : state (st (m_sm s)) = ESPOS_WIFI_ST_OBTAINING_IP \/ state (st (m_sm s)) = ESPOS_WIFI_ST_CONNECTED).
  { unfold is_state in E. by destruct (state (st (m_sm s))); auto. }
  assert (Ha : attempting (state (st (m_sm s))) = true) by (by destruct Hst as [-> | ->]).
  pose proof (inv_attempting_started s Hinv Ha) as Hs. destruct (inv_index s Hinv Ha) as [He Hi].
  pose proof (inv_not_connecting s Hinv ltac:(by destruct Hst as [-> | ->])) as Hp.
  pose proof (inv_trace s Hinv) as Ht. clear Hinv.
  assert (Hto : forall s', wifi_inv s' -> state (st (m_sm s')) = ESPOS_WIFI_ST_CONNECTED ->
    moved s (if is_state ESPOS_WIFI_ST_OBTAINING_IP (m_sm s) then [ESPOS_WIFI_ST_CONNECTED] else []) s').
  { intros s' Hi' Hs'. unfold is_state. destruct Hst as [C|C]; rewrite C;
      [eapply moved_to; [done..|by constructor]|by apply moved_same; [|congruence]]. }
  match goal with |- wp (mbind ?k _) ?Q _ => assert (HQ : forall i,
    wp (k tt) Q (Mach ((m_sm s) <| st; ip := i |>) (m_world s) (m_trace s))) end.
  { intros i. revert Hto. generalize (moved s) as mv. intros mv Hto. open_mach s. wp_step.
    match goal with |- wp _ ?Q _ => assert (HQ : forall n cs r a rs w,
      Q tt (Mach (WifiSm c (WifiStatus state sta_enabled net_index link i rs backoff_until_ms a r cs
        disconnected_since_ms n disconnect_count portal_active portal_clients portal_force)
        started timer_is_dhcp timer_is_portal portal_due_ms state_due_ms timer_due_ms
        connect_in_flight other_net_up) w m_trace)) end.
    { intros. wstep. apply set_state_spec; flat. do 4 wstep.
      eapply wp_mono; [apply close_policy|intros _ s' []; by apply Hto].
      - split; cbn; auto; [by intros _|congruence].
      - intros C; discriminate C.
      - intros C; by destruct C. }
    wstep; [|wstep; apply HQ]. do 2 wstep. wstep. apply now_spec; intros; flat. wstep. apply HQ. }
  wp_step. destruct arg as [i|]; wp_step; [apply HQ|].
  specialize (HQ (ip (st (m_sm s)))). clear Hto. by open_mach s.
Qed.

Lemma ev_lost_ip_moved s :
  wifi_inv s ->
  wp (ev_lost_ip port)
     (fun _ => moved s (if is_state ESPOS_WIFI_ST_CONNECTED (m_sm s) then [ESPOS_WIFI_ST_OBTAINING_IP] else [])) s.
Proof.
  intros Hinv. unfold ev_lost_ip. do 3 wp_step; [|wp_step; by apply moved_same]. cbn [id] in *. rewrite E.
  apply is_state_true in E.
  pose proof (inv_attempting_started s Hinv ltac:(by rewrite E)) as Hs.
  destruct (inv_index s Hinv ltac:(by rewrite E)) as [He Hi].
  pose proof (inv_not_connecting s Hinv ltac:(by rewrite E)) as Hp.
  pose proof (inv_trace s Hinv) as Ht. clear Hinv. generalize (moved_to s [ESPOS_WIFI_ST_OBTAINING_IP]).
  generalize (moved s) as mv. intros mv Hto. open_mach s.
  do 3 wstep. apply now_spec; intros; flat. do 3 wstep. apply set_state_spec; flat.
  eapply wp_mono; [apply close_armed; split; cbn; auto; [by intros _|congruence]|].
  intros _ s' [? Hst]. eapply Hto; [done|apply Hst|by constructor].
Qed.

Lemma notify_inv s : wifi_inv s -> wp (notify port) (fun _ s' => wifi_inv s' /\ same_state s s') s.
Proof.
  intros [H1 H2 H3 H4 H5 H6 H7]. apply notify_spec. intros w tr (Hq1 & Hq2 & Hq3).
  split; [|done]. split; cbn; auto; rewrite ?Hq1, ?Hq2; auto.
Qed.

Lemma notify_moved s ts s1 : moved s ts s1 -> wp (notify port) (fun _ => moved s ts) s1.
Proof.
  intros [Hinv Hm]. eapply wp_mono; [by apply notify_inv|]. intros _ s' [? Hst]. split; [done|].
  by rewrite Hst.
Qed.

Lemma backoff_remaining_spec Q (s : wmach) :
  (forall d w, Q d (Mach (m_sm s) w (m_trace s))) -> wp (espos_wifi_sm_backoff_remaining_ms port) Q s.
Proof.
  intros H. unfold espos_wifi_sm_backoff_remaining_ms. do 3 wp_step.
  - wp_step. destruct s. apply H.
  - wp_step. apply now_spec; intros. wp_step. apply H.
Qed.

(** After a re-arm the machine waits again. *)
Lemma rearm_inv s :
  ready s -> state_due_ms (m_sm s) <> 0 -> (portal_active (st (m_sm s)) = true -> portal_allowed (m_sm s)) ->
  wp (rearm_state port) (fun _ s' => wifi_inv s' /\ same_state s s') s.
Proof.
  intros [Hs Hi Hp Ht] Hd Hpa. apply rearm_state_spec; [done|]. intros d tp td w tr Htd Ha (Hq1 & Hq2).
  split; [|done]. split; cbn; auto.
  - by rewrite Hs.
  - by intros _.
  - rewrite Hq1. auto.
Qed.

Lemma arm_portal_only_inv s :
  ready s -> waiting (state (st (m_sm s))) = false ->
  (portal_active (st (m_sm s)) = true -> portal_allowed (m_sm s)) ->
  wp (arm_portal_only port) (fun _ s' => wifi_inv s' /\ same_state s s') s.
Proof.
  intros [Hs Hi Hp Ht] Hw Hpa. apply arm_portal_only_spec. intros d tp td w tr Htd (Hq1 & Hq2).
  split; [|done]. split; cbn; auto.
  - by rewrite Hs.
  - intros C. cbn in C. congruence.
  - rewrite Hq1. auto.
Qed.

(** The timer fired for the portal. The state timeout is still pending. *)
Lemma timer_portal_moved s :
  ready s -> (waiting (state (st (m_sm s))) = true -> state_due_ms (m_sm s) <> 0) ->
  wp (timer_portal port) (fun _ => moved s (if waiting (state (st (m_sm s))) then attempt_states else [])) s.
Proof.
  intros Hr Hd. unfold timer_portal. do 3 wp_step.
  apply portal_policy_spec.
  { intros C. cbn in *. by apply ready_guarded. }
  cbn [m_sm m_trace m_world]. intros pa pc pd w tr Hpa (Hq1 & Hq2 & Hq3). do 2 wp_step. cbn [id m_sm].
  wp_step. eapply wp_mono; [|intros a s'; apply notify_moved].
  assert (Hr' : ready (Mach (portal_set ((m_sm s) <| timer_is_portal := false |>) pa pc pd) w tr)).
  { destruct Hr as [H1 H2 H3 H4]. split; cbn; auto. rewrite Hq1. auto. }
  pose proof (rd_pending _ Hr') as Hp. cbn in Hp.
  destruct (state (st (m_sm s))) eqn:E; cbn [portal_set update st state]; rewrite ?E; cbn [waiting].
  1,2,5: eapply wp_mono; [apply arm_portal_only_inv; auto; cbn; by rewrite E|];
    intros _ s' [? Hst]; by apply moved_same.
  1,2: eapply wp_mono; [apply rearm_inv; auto|]; intros _ s' [? Hst]; by apply moved_same.
  wp_step. apply backoff_remaining_spec. intros d w'. wp_step.
  - apply start_moved; [|done]. destruct Hr' as [H1 H2 H3 H4]. split; cbn [m_sm m_trace] in *; auto.
    + apply H2. cbn. by rewrite E.
    + destruct (assoc_pending tr); [|done]. by destruct Hp.
  - eapply wp_mono; [apply rearm_inv; cbn; auto; destruct Hr'; by split|].
    intros _ s' [? Hst]; by apply moved_same.
Qed.

Lemma timer_state_moved s :
  ready s -> timer_due_ms (m_sm s) = 0 -> (portal_active (st (m_sm s)) = true -> portal_allowed (m_sm s)) ->
  wp (timer_state port) (fun _ => moved s (if waiting (state (st (m_sm s))) then attempt_states else [])) s.
Proof.
  intros [Hs Hi Hp Ht] Hd Hpa. unfold timer_state, index_ok in *. do 4 wp_step. cbn [id m_sm].
  open_mach s. destruct state eqn:E; cbn in *.
  1,2,5: wp_step; apply moved_same; [|done]; split; cbn; auto; by rewrite Hs.
  1,2: destruct Hi as [He Hi]; [done|]; do 2 wp_step;
    (eapply wp_mono; [apply attempt_failed_spec; cbn; auto; [by split|]|intros ? s' H; by apply moved_attempted]);
    intros s' Hs' _ _; by apply start_spec.
  destruct Hi as [He Hi]; [done|]. apply start_moved; [|done]. split; cbn; auto.
  destruct (assoc_pending m_trace); [|done]. by destruct Hp.
Qed.

Lemma ev_timer_moved s :
  wifi_inv s ->
  wp (ev_timer port) (fun _ => moved s (if waiting (state (st (m_sm s))) then attempt_states else [])) s.
Proof.
  intros Hinv. unfold ev_timer, timer_early. do 3 wp_step; [wp_step; by apply moved_same|]. cbn [id] in *.
  apply negb_false_iff in E. wp_step.
  assert (HQ : forall w, wp (mods (fun sm => sm <| timer_due_ms := 0 |>);;
    (if timer_is_portal (m_sm s) then timer_portal port else timer_state port))
    (fun _ => moved s (if waiting (state (st (m_sm s))) then attempt_states else []))
    (Mach (m_sm s) w (m_trace s))).
  { intros w. pose proof (inv_ready s Hinv E) as [H1 H2 H3 H4]. do 2 wp_step. cbn [m_sm m_trace m_world].
    destruct (timer_is_portal (m_sm s)).
    - eapply wp_mono; [apply timer_portal_moved; [by split|]|intros ? s' H; exact H].
      intros C. by apply (inv_timer s Hinv).
    - eapply wp_mono; [apply timer_state_moved; [by split|done|]|intros ? s' H; exact H].
      apply (inv_portal s Hinv). }
  destruct (timer_due_ms (m_sm s) =? 0); [repeat wp_step; by apply moved_same|].
  wp_step. apply now_spec; intros. do 2 wp_step; [|apply HQ].
  wp_step. apply moved_same; [|done]. by destruct Hinv.
Qed.

Lemma ev_portal_client_moved arg s : wifi_inv s -> wp (ev_portal_client port arg) (fun _ => moved s []) s.
Proof.
  intros Hinv. unfold ev_portal_client. do 2 wp_step. apply notify_moved, moved_same; [|done].
  destruct Hinv. by split.
Qed.

Lemma portal_active_started s : wifi_inv s -> portal_active (st (m_sm s)) = true -> started (m_sm s) = true.
Proof.
  intros Hinv E. destruct (started (m_sm s)) eqn:Hs; [done|]. destruct (inv_stopped s Hinv Hs). congruence.
Qed.

Lemma ev_portal_failed_moved s : wifi_inv s -> wp (ev_portal_failed port) (fun _ => moved s []) s.
Proof.
  intros Hinv. unfold ev_portal_failed. do 3 wp_step; [|wp_step; by apply moved_same]. cbn [id] in *.
  pose proof (portal_active_started s Hinv E) as Hs.
  pose proof (inv_ready s Hinv Hs) as [H1 H2 H3 H4]. pose proof (inv_timer s Hinv) as H5. clear Hinv.
  generalize (moved_same s [] : forall s', _). pose proof (notify_moved s []) as Hn. revert Hn.
  generalize (moved s []) as mv. intros mv Hn Hto.
  open_mach s. do 3 wstep. apply now_spec; intros; flat. do 3 wstep.
  wstep. wstep. eapply wp_mono; [|intros a s'; apply Hn].
  apply wp_mono with (Q := fun _ s' => wifi_inv s' /\ WifiSm.state (st (m_sm s')) = state);
    [|intros _ s' []; by apply Hto].
  destruct (Z.eqb_spec state_due_ms 0) as [Ed|Ed]; cbn [negb].
  - apply arm_portal_only_inv; [by split|cbn|done].
    destruct (waiting state) eqn:Ew; [|done]. by destruct (H5 Ew).
  - by apply rearm_inv.
Qed.

Lemma ev_portal_reconfig_moved s : wifi_inv s -> wp (ev_portal_reconfig port) (fun _ => moved s []) s.
Proof.
  intros Hinv. unfold ev_portal_reconfig. do 3 wp_step; [|wp_step; by apply moved_same]. cbn [id] in *.
  pose proof (portal_active_started s Hinv E) as Hs.
  pose proof (inv_ready s Hinv Hs) as [H1 H2 H3 H4].
  wp_step. apply portal_down_spec. intros pc w tr (Hq1 & Hq2 & Hq3).
  eapply wp_mono; [apply close_policy|intros _ s' []; by apply moved_same].
  - split; cbn; auto. rewrite Hq1. auto.
  - apply (inv_timer s Hinv).
  - cbn. rewrite Hq2. apply (inv_armed s Hinv).
Qed.

Lemma ev_other_net_moved arg s : wifi_inv s -> wp (ev_other_net port arg) (fun _ => moved s []) s.
Proof.
  intros Hinv. unfold ev_other_net. do 3 wp_step; [wp_step; by apply moved_same|]. cbn [id] in *. do 3 wp_step.
  - wp_step. apply moved_same; [|done]. destruct Hinv as [H1 H2 H3 H4 H5 H6 H7]. apply negb_true_iff in E0.
    destruct (H1 E0) as [_ Hpa]. split; cbn; auto. congruence.
  - apply negb_false_iff in E0. pose proof (inv_ready s Hinv E0) as [H1 H2 H3 H4].
    eapply wp_mono; [apply close_rearm; [by split|apply (inv_timer s Hinv)]|].
    intros _ s' []; by apply moved_same.
Qed.

Lemma ev_portal_force_moved arg s : wifi_inv s -> wp (ev_portal_force port arg) (fun _ => moved s []) s.
Proof.
  intros Hinv. unfold ev_portal_force. do 3 wp_step; [wp_step; by apply moved_same|].
  wp_step; [wp_step; by apply moved_same|]. cbn [id] in *. do 3 wp_step.
  - wp_step. apply moved_same; [|done]. destruct Hinv as [H1 H2 H3 H4 H5 H6 H7]. apply negb_true_iff in E1.
    destruct (H1 E1) as [_ Hpa]. split; cbn; auto. congruence.
  - apply negb_false_iff in E1. pose proof (inv_ready s Hinv E1) as [H1 H2 H3 H4].
    eapply wp_mono; [apply close_rearm; [by split|apply (inv_timer s Hinv)]|].
    intros _ s' []; by apply moved_same.
Qed.

Lemma current_net_valid_range sm ncfg i :
  current_net_still_valid sm ncfg = Some i -> 0 <= i < Z.of_nat (net_count ncfg).
Proof.
  unfold current_net_still_valid. case_match; [done|].
  destruct (List.find _ _) as [n|] eqn:E; [|done]. cbn. intros [= <-].
  apply find_some in E as [Hin _]. apply in_seq in Hin. lia.
Qed.

(** A configuration taken while the machine is stopped. *)
Lemma stopped_cfg_inv s ncfg b :
  wifi_inv s -> started (m_sm s) = false ->
  wifi_inv (Mach ((m_sm s) <| cfg := ncfg |> <| st; sta_enabled := b |>) (m_world s) (m_trace s)).
Proof.
  intros [H1 H2 H3 H4 H5 H6 H7] E. destruct (H1 E) as [Hst Hpa].
  split; cbn; auto; unfold index_ok; cbn; rewrite ?Hst; try done. congruence.
Qed.

(** The new list does not hold the current network: disconnect, start over. *)
Lemma config_restart_moved ncfg s :
  wifi_inv s -> started (m_sm s) = true -> cfg_sta_enabled ncfg = true ->
  wp ((if radio_busy (m_sm s) then
         call (disconnect port) (fun _ => ODisconnect);;
         if is_state ESPOS_WIFI_ST_CONNECTED (m_sm s) then
           mods (fun sm => sm <| st; disconnect_count ::= fun n => u32 (n + 1) |>);;
           t ← now port;
           mods (fun sm => sm <| st; disconnected_since_ms := t |>)
         else mret tt
       else mret tt);;
      mods (fun sm => sm <| st; reason := ESPOS_WIFI_REASON_CONFIG_CHANGE |> <| st; round := 0 |>
                         <| st; attempt := 0 |> <| st; net_index := 0 |>);;
      start port)
     (fun _ => moved s idle_or_attempt)
     (Mach ((m_sm s) <| cfg := ncfg |> <| st; sta_enabled := cfg_sta_enabled ncfg |>) (m_world s) (m_trace s)).
Proof.
  intros Hinv Hs He. pose proof (inv_trace s Hinv) as Ht. wp_step.
  assert (Hp : radio_busy (m_sm s) = false -> assoc_pending (m_trace s) = false).
  { intros Er. apply inv_not_connecting; [done|]. intros C. unfold radio_busy, is_state in Er. by rewrite C in Er. }
  assert (Hstart : forall s', restartable s' -> wp (start port) (fun _ => moved s idle_or_attempt) s').
  { intros s' Hs'. by apply start_moved. }
  revert Hstart. generalize (moved s) as mv. intros mv Hstart. clear Hinv. open_mach s.
  destruct (radio_busy _); [do 2 wstep; destruct (is_state _ _)|].
  - do 3 wstep. apply now_spec; intros; flat. do 3 wstep. by apply Hstart.
  - do 3 wstep. by apply Hstart.
  - do 3 wstep. apply Hstart. by split; auto.
Qed.

Lemma ev_config_nets_moved ncfg s : wifi_inv s -> wp (ev_config_nets port ncfg) (fun _ => moved s idle_or_attempt) s.
Proof.
  intros Hinv. unfold ev_config_nets. do 2 wp_step. cbn [id].
  set (keep := if _ && _ then _ else _). do 3 wp_step.
  { wp_step. apply moved_same; [|done]. apply negb_true_iff in E. by apply stopped_cfg_inv. }
  apply negb_false_iff in E. pose proof (inv_ready s Hinv E) as [H1 H2 H3 H4].
  destruct keep as [i|] eqn:Ek.
  - unfold keep in Ek. destruct (_ && _) eqn:Eg in Ek; [|done].
    apply andb_prop in Eg as [Eg Est]. apply andb_prop in Eg as [_ Ena].
    apply current_net_valid_range in Ek. do 2 wp_step.
    eapply wp_mono; [apply close_policy|intros _ s' []; by apply moved_same].
    + split; cbn; auto. by intros _.
    + apply (inv_timer s Hinv).
    + apply (inv_armed s Hinv).
  - wp_step.
    + eapply wp_mono; [apply go_idle_spec; cbn; auto; apply H3|].
      intros _ s' []. eapply moved_to; [done..|by constructor].
    + apply negb_false_iff in E0. by apply config_restart_moved.
Qed.

Lemma ev_config_moved ncfg s :
  wifi_inv s -> wp (ev_config port cfg_memcmp_eq ncfg) (fun _ => moved s idle_or_attempt) s.
Proof.
  intros Hinv. unfold ev_config. do 3 wp_step; [wp_step; by apply moved_same|].
  wp_step; [|by apply ev_config_nets_moved].
  cbn [id] in *. apply andb_prop in E0 as [Hn He]. apply eqb_prop in He.
  unfold nets_equal in Hn. destruct (Nat.eqb_spec (net_count ncfg) (net_count (cfg (m_sm s)))) as [Hc|];
    [clear Hn|done]. do 3 wp_step.
  - pose proof (inv_ready s Hinv E0) as [H1 H2 H3 H4].
    assert (Hr : ready (Mach ((m_sm s) <| cfg := ncfg |>) (m_world s) (m_trace s))).
    { split; cbn; auto. unfold index_ok in *. cbn. by rewrite He, Hc. }
    cbn [m_sm m_trace m_world].
    destruct (is_state _ _ || is_state _ _) eqn:Ei.
    + eapply wp_mono; [apply close_idle; [done|]|intros _ s' []; by apply moved_same]. cbn.
      unfold is_state in Ei. by destruct (state (st (m_sm s))).
    + wp_step. apply portal_policy_spec; [auto|]. intros pa pc pd w tr Hpa (Hq1 & Hq2 & Hq3).
      do 2 wp_step. apply notify_moved, moved_same; [|done].
      destruct Hr. split; cbn in *; auto; rewrite ?Hq1, ?Hq2; auto.
      * congruence.
      * apply (inv_timer s Hinv).
      * apply (inv_armed s Hinv).
  - wp_step. apply moved_same; [|done].
    pose proof (stopped_cfg_inv s ncfg (sta_enabled (st (m_sm s))) Hinv E0) as H. clear Hinv. by open_mach s.
Qed.

(** Recording the input changes nothing but what the driver has answered. *)
Lemma emit_event_inv ev s :
  wifi_inv s -> wifi_inv (Mach (m_sm s) (m_world s) (OEvent ev :: m_trace s)).
Proof. intros []. destruct ev; by split. Qed.
End Proofs.

(** The arrows of the state diagram (docs/wifi.md): where an event may take
    the machine from a state, apart from leaving it where it is. *)
Definition targets (ev : espos_wifi_event_t) (sm : espos_wifi_sm_t) : list espos_wifi_state_t :=
  match ev with
  | ESPOS_WIFI_EV_START | ESPOS_WIFI_EV_CONFIG _ => idle_or_attempt
  | ESPOS_WIFI_EV_STOP => [ESPOS_WIFI_ST_DISABLED]
  | ESPOS_WIFI_EV_STA_CONNECTED _ =>
      if is_state ESPOS_WIFI_ST_CONNECTING sm then [ESPOS_WIFI_ST_OBTAINING_IP] else []
  | ESPOS_WIFI_EV_STA_DISCONNECTED _ => if radio_busy sm then attempt_states else []
  | ESPOS_WIFI_EV_GOT_IP _ =>
      if is_state ESPOS_WIFI_ST_OBTAINING_IP sm then [ESPOS_WIFI_ST_CONNECTED] else []
  | ESPOS_WIFI_EV_LOST_IP =>
      if is_state ESPOS_WIFI_ST_CONNECTED sm then [ESPOS_WIFI_ST_OBTAINING_IP] else []
  | ESPOS_WIFI_EV_TIMER => if waiting (state (st sm)) then attempt_states else []
  | _ => []
  end.

Section Reachable.
Context {W : Type} (port : espos_wifi_port_t W).
Context (cfg_memcmp_eq : espos_wifi_cfg_t -> espos_wifi_cfg_t -> bool).

Lemma event_moved ev (s : mach espos_wifi_sm_t W wifi_obs) :
  wifi_inv s -> wp (espos_wifi_sm_event port cfg_memcmp_eq ev) (fun _ => moved s (targets ev (m_sm s))) s.
Proof.
  intros Hinv. unfold espos_wifi_sm_event. do 2 wp_step.
  pose proof (emit_event_inv ev s Hinv) as Hinv'.
  eapply wp_mono with (Q := fun _ => moved (Mach (m_sm s) (m_world s) (OEvent ev :: m_trace s)) (targets ev (m_sm s)));
    [|intros ? s' H; exact H].
  destruct ev; cbn [targets];
    auto using ev_start_moved, ev_stop_moved, ev_config_moved, ev_portal_client_moved, ev_portal_failed_moved,
      ev_portal_reconfig_moved, ev_other_net_moved, ev_portal_force_moved.
  - by apply (ev_sta_connected_moved port arg (Mach _ _ _)).
  - by apply (ev_sta_disconnected_moved port arg (Mach _ _ _)).
  - by apply (ev_got_ip_moved port arg (Mach _ _ _)).
  - by apply (ev_lost_ip_moved port (Mach _ _ _)).
  - by apply (ev_timer_moved port (Mach _ _ _)).
  - wp_step. by apply moved_same.
Qed.

Lemma init_inv c (w : W) : wifi_inv (Mach (espos_wifi_sm_init c) w []).
Proof. split; cbn; auto; done. Qed.

(** Every configuration reached by events from a fresh machine. *)
Lemma run_inv evs : forall s, wifi_inv s -> wifi_inv (exec (wifi_run port cfg_memcmp_eq evs) s).
Proof.
  induction evs as [|ev evs IH]; intros s Hinv; [done|].
  change (wp (wifi_run port cfg_memcmp_eq (ev :: evs)) (fun _ => wifi_inv) s).
  cbn [wifi_run]. wp_step. eapply wp_mono; [by apply event_moved|].
  intros ? s' [Hs' _]. by apply IH.
Qed.

Definition wifi_reach (c : espos_wifi_cfg_t) (w : W) (evs : list espos_wifi_event_t)
    : mach espos_wifi_sm_t W wifi_obs :=
  exec (wifi_run port cfg_memcmp_eq evs) (Mach (espos_wifi_sm_init c) w []).

Lemma reach_inv c w evs : wifi_inv (wifi_reach c w evs).
Proof. apply run_inv, init_inv. Qed.
End Reachable.

(** * The order of the networks *)

(** The networks the driver was asked to connect to, the oldest first. *)
Definition connects (tr : list wifi_obs) : list espos_wifi_net_t :=
  rev (omap (fun o => match o with OConnect n _ => Some n | _ => None end) tr).

(** The first [n] networks of a configuration. *)
Definition first_nets (c : espos_wifi_cfg_t) (n : nat) : list espos_wifi_net_t := net_at c <$> seq 0 n.

Arguments connects : simpl never.
Arguments first_nets : simpl never.

Lemma first_nets_snoc c n : first_nets c (S n) = first_nets c n ++ [net_at c n].
Proof. unfold first_nets. by rewrite seq_S, fmap_app. Qed.

Section Order.
Context {W : Type} (port : espos_wifi_port_t W).
Context (cfg_memcmp_eq : espos_wifi_cfg_t -> espos_wifi_cfg_t -> bool).

Abbreviation wmach := (mach espos_wifi_sm_t W wifi_obs).

(** What the portal and the timer leave alone. *)
Definition core (s : wmach) :=
  (state (st (m_sm s)), net_index (st (m_sm s)), cfg (m_sm s), connects (m_trace s)).

Lemma notify_core : keeps core (notify port).
Proof. unfold notify. by repeat keeps_step. Qed.
Lemma now_core : keeps core (now port).
Proof. unfold now. by repeat keeps_step. Qed.
Lemma portal_down_core : keeps core (portal_down port).
Proof. unfold portal_down. by repeat keeps_step. Qed.
Lemma portal_up_core : keeps core (portal_up port).
Proof. unfold portal_up. by repeat keeps_step. Qed.
Local Hint Resolve notify_core now_core portal_down_core portal_up_core : frame.

Lemma portal_policy_core : keeps core (portal_policy port).
Proof. unfold portal_policy. repeat keeps_step; auto with frame. Qed.
Lemma arm_core ms d : keeps core (arm port ms d).
Proof. unfold arm. repeat keeps_step; auto with frame. Qed.
Local Hint Resolve portal_policy_core arm_core : frame.

Lemma close_armed_core ms d : keeps core (portal_policy port;; arm port ms d;; notify port).
Proof. repeat keeps_step; auto with frame. Qed.

(** Where a round stands: at network [i] with the first [i + 1] networks tried,
    or done. [round_left] is what is left of it. *)
Definition in_round (c : espos_wifi_cfg_t) (s : wmach) : Prop :=
  cfg (m_sm s) = c /\
  ((state (st (m_sm s)) = ESPOS_WIFI_ST_CONNECTING /\
    exists i, net_index (st (m_sm s)) = Z.of_nat i /\ (i < net_count c)%nat /\
              connects (m_trace s) = first_nets c (S i)) \/
   (state (st (m_sm s)) = ESPOS_WIFI_ST_BACKOFF /\ connects (m_trace s) = first_nets c (net_count c))).

Definition round_left (c : espos_wifi_cfg_t) (s : wmach) : Z :=
  if is_state ESPOS_WIFI_ST_BACKOFF (m_sm s) then 0
  else Z.of_nat (net_count c) - net_index (st (m_sm s)).

Lemma round_left_backoff c s : state (st (m_sm s)) = ESPOS_WIFI_ST_BACKOFF -> round_left c s = 0.
Proof. intros H. unfold round_left, is_state. by rewrite bool_decide_eq_true_2. Qed.

Lemma round_left_connecting c s :
  state (st (m_sm s)) = ESPOS_WIFI_ST_CONNECTING ->
  round_left c s = Z.of_nat (net_count c) - net_index (st (m_sm s)).
Proof. intros H. unfold round_left, is_state. by rewrite bool_decide_eq_false_2 by congruence. Qed.

(** The rest of the round is done within [k] more failures. *)
Definition round_by (c : espos_wifi_cfg_t) (k : Z) (s : wmach) : Prop := in_round c s /\ round_left c s <= k.

Lemma round_by_core c k (s s' : wmach) : core s' = core s -> round_by c k s -> round_by c k s'.
Proof.
  unfold round_by, in_round, round_left, is_state, core. intros H. injection H as H1 H2 H3 H4.
  by rewrite H1, H2, H3, H4.
Qed.

Lemma close_armed_round c k ms d s :
  round_by c k s -> wp (portal_policy port;; arm port ms d;; notify port) (fun _ => round_by c k) s.
Proof.
  intros Hr. eapply wp_mono; [apply close_armed_core|]. intros ? s' Hs'. by apply (round_by_core c k s).
Qed.

Lemma attempt_failed_order start why c i s :
  cfg (m_sm s) = c -> state (st (m_sm s)) = ESPOS_WIFI_ST_CONNECTING ->
  net_index (st (m_sm s)) = Z.of_nat i -> (i < net_count c)%nat ->
  connects (m_trace s) = first_nets c (S i) ->
  (forall s', cfg (m_sm s') = c -> net_index (st (m_sm s')) = Z.of_nat (S i) -> (S i < net_count c)%nat ->
     connects (m_trace s') = first_nets c (S i) ->
     wp start (fun _ => round_by c (Z.of_nat (net_count c) - Z.of_nat (S i))) s') ->
  wp (attempt_failed port start why) (fun _ => round_by c (Z.of_nat (net_count c) - Z.of_nat (S i))) s.
Proof.
  intros Hc Hst Hidx Hi Hcon Hstart. open_mach s. subst c0 net_index state. unfold attempt_failed, is_state. do 4 wstep.
  rewrite bool_decide_eq_false_2 by done. wp_step.
  - do 3 wstep. eapply wp_mono; [apply portal_policy_core|]. unfold core at 2. cbn.
    intros ? s' Hs'. injection Hs' as Hs1 Hs2 Hs3 Hs4. apply Hstart; try congruence; lia.
  - do 4 wstep. set (delay := espos_wifi_backoff_ms _ _ _). clearbody delay.
    wstep. apply bump_round_spec; intros; flat. wstep.
    apply set_state_spec; flat. wstep. apply now_spec; intros; flat. do 2 wstep.
    apply close_armed_round. split; [split; [done|]|].
    + right. split; [done|]. etransitivity; [exact Hcon|]. f_equal. lia.
    + rewrite round_left_backoff by done. lia.
Qed.

Lemma start_attempt_order fuel c : forall s i,
  cfg (m_sm s) = c -> net_index (st (m_sm s)) = Z.of_nat i -> (i < net_count c)%nat ->
  connects (m_trace s) = first_nets c i -> (net_count c - i <= fuel)%nat ->
  wp (start_attempt port fuel) (fun _ => round_by c (Z.of_nat (net_count c) - Z.of_nat i)) s.
Proof.
  induction fuel as [|fuel IH]; intros s i Hc Hidx Hi Hcon Hf; [lia|].
  cbn [start_attempt]. open_mach s. subst c0 net_index. do 2 wstep. rewrite bool_decide_eq_false_2 by lia.
  wp_step. wp_step. cbn [m_sm st net_index cfg].
  replace ((Z.of_nat i <? 0) || (Z.of_nat i >=? Z.of_nat (net_count c))) with false by lia.
  flat. do 3 wstep. apply set_state_spec; flat. do 6 wstep. rewrite Nat2Z.id.
  assert (Hcon' : forall err, connects (OConnect (default net_zero (nets c !! i)) err :: m_trace)
                              = first_nets c (S i)).
  { intros err. unfold connects in *. cbn. by rewrite Hcon, first_nets_snoc. }
  wstep.
  - do 2 wstep. unfold ev_sta_disconnected, radio_busy, is_state. do 2 wstep.
    cbn [bool_decide decide orb]. eapply wp_mono; [eapply (attempt_failed_order _ _ c i); cbn; auto|].
    + intros s' ? ? ? ?. apply IH; auto. lia.
    + intros ? s' [Hr Hl]. split; [done|lia].
  - do 2 wstep. apply close_armed_round. split; [split; [done|]|].
    + left. split; [done|]. exists i. cbn. auto.
    + by rewrite round_left_connecting.
Qed.

Lemma radio_busy_state sm :
  radio_busy sm = match state (st sm) with
                  | ESPOS_WIFI_ST_CONNECTED | ESPOS_WIFI_ST_OBTAINING_IP | ESPOS_WIFI_ST_CONNECTING => true
                  | _ => false
                  end.
Proof. unfold radio_busy, is_state. by destruct (state (st sm)). Qed.

(** A failure report in a round takes the next network, or ends the round. *)
Lemma disconnected_order c k arg s :
  round_by c k s ->
  wp (espos_wifi_sm_event port cfg_memcmp_eq (ESPOS_WIFI_EV_STA_DISCONNECTED arg))
     (fun _ => round_by c (Z.max 0 (k - 1))) s.
Proof.
  intros [[Hc Hr] Hl]. unfold espos_wifi_sm_event, ev_sta_disconnected.
  do 4 wp_step. cbn [id m_sm]. rewrite radio_busy_state.
  destruct Hr as [[Hst (i & Hidx & Hi & Hcon)]|[Hst Hcon]]; rewrite Hst.
  - assert (Hk : Z.of_nat (net_count c) - Z.of_nat i <= k).
    { by rewrite round_left_connecting, Hidx in Hl. }
    eapply wp_mono; [eapply (attempt_failed_order _ _ c i); auto|].
    + intros s' Hc' Hi' Hlt Hcon'. unfold start. do 2 wp_step. cbn [id]. rewrite Hc'.
      apply start_attempt_order; auto. lia.
    + intros ? s' [Hr' Hl']. split; [done|lia].
  - wp_step. split; [|rewrite round_left_backoff by done; lia].
    split; [done|]. right. done.
Qed.

(** Any number of failure reports. *)
Lemma disconnected_run c args : forall k s,
  round_by c k s ->
  round_by c (Z.max 0 (k - Z.of_nat (length args)))
    (exec (wifi_run port cfg_memcmp_eq (ESPOS_WIFI_EV_STA_DISCONNECTED <$> args)) s).
Proof.
  induction args as [|a args IH]; intros k s Hr.
  { destruct Hr. split; [done|]. cbn [length]. cbn. lia. }
  change (wp (wifi_run port cfg_memcmp_eq (ESPOS_WIFI_EV_STA_DISCONNECTED <$> (a :: args)))
    (fun _ => round_by c (Z.max 0 (k - Z.of_nat (length (a :: args))))) s).
  cbn [fmap list_fmap wifi_run]. wp_step. eapply wp_mono; [by apply disconnected_order|].
  intros ? s' Hs'. apply IH in Hs' as [Hr' Hl']. split; [done|].
  eapply Z.le_trans; [exact Hl'|]. cbn [length]. lia.
Qed.

Lemma start_order c w :
  cfg_sta_enabled c = true -> (0 < net_count c)%nat ->
  wp (espos_wifi_sm_event port cfg_memcmp_eq ESPOS_WIFI_EV_START)
     (fun _ => round_by c (Z.of_nat (net_count c))) (Mach (espos_wifi_sm_init c) w []).
Proof.
  intros He Hn. unfold espos_wifi_sm_event, ev_start, espos_wifi_sm_init. do 6 wstep.
  wstep. apply now_spec; intros; flat. do 2 wstep. rewrite He. cbn [negb]. do 2 wstep.
  unfold start. do 2 wstep. eapply wp_mono; [apply (start_attempt_order _ c _ 0%nat); cbn; auto; lia|].
  intros ? s' [Hr Hl]. split; [done|lia].
Qed.
End Order.


(** * The properties *)

(** A driver for the witnesses: the clock advances 100 ms at each reading, a
    connect is accepted, the portal starts. *)
Definition bench_port : espos_wifi_port_t Z :=
  WifiPort Z (fun _ w => (ESP_OK, w)) (fun w => (ESP_OK, w)) (Some (fun w => (ESP_OK, w)))
    (Some (fun w => (ESP_OK, w))) (fun _ w => (tt, w)) (fun w => (tt, w)) (fun w => (w, w + 100))
    (fun w => (7, w)) None.

Definition bench_cfg : espos_wifi_cfg_t :=
  WifiCfg true [WifiNet (lit "boat") (lit "anchor-1") false []; WifiNet (lit "marina") [] false []] 2
    300000 15000 20000 true 90000 false.

Definition bench_memcmp (a b : espos_wifi_cfg_t) : bool := false.

(** C1. The machine is never wedged: for every driver, configuration and
    sequence of events, whenever the machine is started and waits (CONNECTING,
    OBTAINING_IP or BACKOFF), the driver's timer has been armed and not
    cancelled since, the machine will accept its expiry ([timer_due_ms]), and
    the state timeout is pending. *)
Theorem wifi_never_wedged {W} (port : espos_wifi_port_t W) cmp c w evs :
  let s := wifi_reach port cmp c w evs in
  started (m_sm s) = true -> waiting (state (st (m_sm s))) = true ->
  timer_armed (m_trace s) = true /\ timer_due_ms (m_sm s) <> 0 /\ state_due_ms (m_sm s) <> 0.
Proof.
  intros s _ Hw. pose proof (reach_inv port cmp c w evs) as Hinv.
  destruct (inv_timer _ Hinv Hw). auto using inv_armed.
Qed.

Lemma wifi_never_wedged_witness :
  timer_armed (m_trace (wifi_reach bench_port bench_memcmp bench_cfg 0 [ESPOS_WIFI_EV_START])) = true.
Proof.
  refine (proj1 (wifi_never_wedged bench_port bench_memcmp bench_cfg 0 [ESPOS_WIFI_EV_START] _ _));
    vm_compute; reflexivity.
Defined.

(** The access point is never raised inside an association (espOS #144):
    in the trace of every run, whenever [portal_start] is called, no connect
    that the driver accepted is still unanswered. *)
Theorem wifi_portal_not_inside_association {W} (port : espos_wifi_port_t W) cmp c w evs err tr1 tr2 :
  m_trace (wifi_reach port cmp c w evs) = tr1 ++ OPortalStart err :: tr2 -> assoc_pending tr2 = false.
Proof.
  intros H. pose proof (inv_trace _ (reach_inv port cmp c w evs)) as Hok. rewrite H in Hok. clear H.
  induction tr1 as [|o tr1 IH]; [apply Hok|].
  apply IH. by destruct o; cbn in Hok |- *; try apply Hok.
Qed.

Definition portal_trace : list wifi_obs :=
  m_trace (wifi_reach bench_port bench_memcmp bench_cfg 0
    [ESPOS_WIFI_EV_PORTAL_FORCE (Some ESPOS_WIFI_PORTAL_UP); ESPOS_WIFI_EV_START;
     ESPOS_WIFI_EV_STA_DISCONNECTED (Some 201)]).

Lemma wifi_portal_not_inside_association_witness :
  assoc_pending (drop 3 portal_trace) = false.
Proof.
  refine (wifi_portal_not_inside_association bench_port bench_memcmp bench_cfg 0
    [ESPOS_WIFI_EV_PORTAL_FORCE (Some ESPOS_WIFI_PORTAL_UP); ESPOS_WIFI_EV_START;
     ESPOS_WIFI_EV_STA_DISCONNECTED (Some 201)] ESP_OK (take 2 portal_trace) (drop 3 portal_trace) _).
  vm_compute. reflexivity.
Defined.

(** The access point is up only while it may be: for every driver,
    configuration and sequence of events, an active portal implies that the
    machine is started, that the operator enabled the portal, that the
    application did not ask for it to be down, and, unless the application
    asked for it, that the station is not connected and that no other
    transport carries the network unless [portal_online] is set (espOS #158). *)
Theorem wifi_portal_only_when_allowed {W} (port : espos_wifi_port_t W) cmp c w evs :
  let sm := m_sm (wifi_reach port cmp c w evs) in
  portal_active (st sm) = true ->
  started sm = true /\ portal_enabled (cfg sm) = true /\
  portal_force (st sm) <> ESPOS_WIFI_PORTAL_DOWN /\
  (portal_force (st sm) = ESPOS_WIFI_PORTAL_UP \/
   state (st sm) <> ESPOS_WIFI_ST_CONNECTED /\
   (other_net_up sm = true -> portal_online (cfg sm) = true)).
Proof.
  intros sm Hpa. pose proof (reach_inv port cmp c w evs) as Hinv.
  split; [by apply portal_active_started|]. by apply inv_portal.
Qed.

Lemma wifi_portal_only_when_allowed_witness :
  portal_enabled (cfg (m_sm (wifi_reach bench_port bench_memcmp bench_cfg 0
    [ESPOS_WIFI_EV_PORTAL_FORCE (Some ESPOS_WIFI_PORTAL_UP); ESPOS_WIFI_EV_START;
     ESPOS_WIFI_EV_STA_DISCONNECTED (Some 201)]))) = true.
Proof.
  refine (proj1 (proj2 (wifi_portal_only_when_allowed bench_port bench_memcmp bench_cfg 0
    [ESPOS_WIFI_EV_PORTAL_FORCE (Some ESPOS_WIFI_PORTAL_UP); ESPOS_WIFI_EV_START;
     ESPOS_WIFI_EV_STA_DISCONNECTED (Some 201)] _))).
  vm_compute. reflexivity.
Defined.

(** Every event follows the documented state diagram: from any reachable
    configuration an event leaves the state as it is or takes one of the
    arrows of [targets]. In particular CONNECTED is entered only by an address
    obtained in OBTAINING_IP, and OBTAINING_IP only by an association or by
    losing the address. *)
Theorem wifi_follows_diagram {W} (port : espos_wifi_port_t W) cmp c w evs ev :
  let s := wifi_reach port cmp c w evs in
  let s' := exec (espos_wifi_sm_event port cmp ev) s in
  state (st (m_sm s')) = state (st (m_sm s)) \/ state (st (m_sm s')) ∈ targets ev (m_sm s).
Proof. apply (event_moved port cmp ev _ (reach_inv port cmp c w evs)). Qed.

Lemma trace_ok_no_fuel tr : trace_ok tr -> OOutOfFuel ∉ tr.
Proof.
  induction tr as [|o tr IH]; intros Hok; [apply not_elem_of_nil|].
  apply not_elem_of_cons. destruct o; cbn in Hok; (split; [done|]); try (by apply IH); destruct Hok; auto.
Qed.

(** C37. The handlers terminate and stay inside the list of networks: no run
    exhausts the recursion of [start_attempt] (at most one nested attempt per
    configured network), and whenever the machine is attempting or connected
    [net_index] names one of the [net_count] networks of an enabled station. *)
Theorem wifi_attempts_terminate {W} (port : espos_wifi_port_t W) cmp c w evs :
  let s := wifi_reach port cmp c w evs in
  OOutOfFuel ∉ m_trace s /\
  (attempting (state (st (m_sm s))) = true ->
   cfg_sta_enabled (cfg (m_sm s)) = true /\
   0 <= net_index (st (m_sm s)) < Z.of_nat (net_count (cfg (m_sm s)))).
Proof.
  intros s. pose proof (reach_inv port cmp c w evs) as Hinv. split.
  - by apply trace_ok_no_fuel, inv_trace.
  - apply (inv_index _ Hinv).
Qed.

Lemma wifi_attempts_terminate_witness :
  0 <= net_index (st (m_sm (wifi_reach bench_port bench_memcmp bench_cfg 0 [ESPOS_WIFI_EV_START]))) < 2.
Proof.
  refine (proj2 (proj2 (wifi_attempts_terminate bench_port bench_memcmp bench_cfg 0 [ESPOS_WIFI_EV_START]) _)).
  vm_compute. reflexivity.
Defined.

(** A round tries every network once, in priority order: whatever the
    driver answers to each connect, starting a machine with [n >= 1] networks
    and reporting a failure for every attempt it accepts makes it connect to
    network 0, 1, .., n-1, each exactly once, and then back off. *)
Theorem wifi_round_order {W} (port : espos_wifi_port_t W) cmp c w reasons :
  cfg_sta_enabled c = true -> (0 < net_count c <= length reasons)%nat ->
  let s := wifi_reach port cmp c w (ESPOS_WIFI_EV_START :: (ESPOS_WIFI_EV_STA_DISCONNECTED <$> reasons)) in
  connects (m_trace s) = (net_at c <$> seq 0 (net_count c)) /\
  state (st (m_sm s)) = ESPOS_WIFI_ST_BACKOFF.
Proof.
  intros He Hn s.
  assert (Hr : round_by c 0 s).
  { unfold s, wifi_reach. cbn [wifi_run].
    match goal with |- round_by _ _ (exec ?m ?s0) => change (wp m (fun _ => round_by c 0) s0) end.
    wp_step. eapply wp_mono; [apply start_order; [done|lia]|]. intros ? s' Hs'.
    apply (disconnected_run port cmp c reasons) in Hs'. destruct Hs' as [Hr Hl].
    split; [exact Hr|]. eapply Z.le_trans; [exact Hl|]. lia. }
  destruct Hr as [[Hc [[Hst (i & Hidx & Hi & Hcon)]|[Hst Hcon]]] Hl]; [|done].
  rewrite round_left_connecting, Hidx in Hl by done. lia.
Qed.

Lemma wifi_round_order_witness :
  connects (m_trace (wifi_reach bench_port bench_memcmp bench_cfg 0
    [ESPOS_WIFI_EV_START; ESPOS_WIFI_EV_STA_DISCONNECTED (Some 201); ESPOS_WIFI_EV_STA_DISCONNECTED None]))
  = nets bench_cfg.
Proof.
  refine (proj1 (wifi_round_order bench_port bench_memcmp bench_cfg 0 [Some 201; None] _ _)).
  - reflexivity.
  - vm_compute. split; repeat constructor.
Defined.

(** The retry curve of the machine, which is the shared one of
    [espos_net_backoff_ms]: for every cap up to 80 % of the 32-bit range the
    delay is the capped doubling of one second, off by at most 25 % either
    way (rounded up to the next millisecond), and never below 250 ms. *)
Theorem wifi_backoff_bounds round cap_ms rnd :
  0 <= round < 2 ^ 32 -> 0 <= cap_ms <= 3435973836 -> 0 <= rnd < 2 ^ 32 ->
  let d := Z.min (1000 * 2 ^ round) cap_ms in
  let r := espos_wifi_backoff_ms round cap_ms rnd in
  r = espos_net_backoff_ms round cap_ms rnd /\
  250 <= r < 2 ^ 32 /\ 3 * d <= 4 * r /\ (r = 250 \/ 4 * r <= 5 * d + 4).
Proof. intros. split; [done|]. by apply net_backoff_bounds. Qed.

Lemma wifi_backoff_bounds_witness : 250 <= espos_wifi_backoff_ms 3 300000 12345.
Proof. refine (proj1 (proj1 (proj2 (wifi_backoff_bounds 3 300000 12345 _ _ _)))); lia. Defined.
