(* ===== verification/TokenSm.v ===== *)
(** The Signal K access-token machine of [espos_sk]: [token_sm.c] and
    [espos_sk_token_sm.h].

    HTTP is asynchronous: the port starts a request, a poll or a verify leg and
    answers with a result event. The persistent store is written through the
    port; the trace keeps every write, every leg and every timer call. *)
From Stdlib Require Import ZArith Lia String.
From stdpp Require Import base list numbers sets.
From S2P Require Import Prelude.
Open Scope Z_scope.

(** * Data *)

Definition ESPOS_SK_TOKEN_MAX : nat := 1024.
Definition ESPOS_SK_HOST_MAX : nat := 64.
Definition ESPOS_SK_SELF_MAX : nat := 128.
Definition ESPOS_SK_HREF_MAX : nat := 128.
Definition ESPOS_SK_MSG_MAX : nat := 96.

Definition POLL_MIN_MS : Z := 5000.
Definition POLL_MAX_MS : Z := 60000.
Definition ERR_MIN_MS : Z := 10000.
Definition ERR_MAX_MS : Z := 300000.
Definition DUP_MIN_MS : Z := 60000.
Definition DUP_MAX_MS : Z := 600000.
Definition OPEN_CHECK_MS : Z := 60000.
Definition CERT_RETRY_MS : Z := 60000.
Definition PLAIN_RECHECK_MS : Z := 5000.

Definition ESPOS_SK_TOKEN_TOO_LONG : cstr :=
  lit "token longer than CONFIG_ESPOS_SK_TOKEN_MAX allows; raise it, then retry".

Inductive espos_sk_tok_state_t :=
  | ESPOS_SK_TOK_NO_SERVER
  | ESPOS_SK_TOK_IDLE
  | ESPOS_SK_TOK_REQUESTED
  | ESPOS_SK_TOK_VERIFYING
  | ESPOS_SK_TOK_APPROVED
  | ESPOS_SK_TOK_DENIED
  | ESPOS_SK_TOK_OPEN
  | ESPOS_SK_TOK_ERROR
  | ESPOS_SK_TOK_CERT_ERROR.
#[export] Instance espos_sk_tok_state_eq_dec : EqDecision espos_sk_tok_state_t.
Proof. solve_decision. Defined.

Record espos_sk_server_t := SkServer {
  host : cstr;
  srv_port : Z;
  tls : bool;
  self : cstr;
  by_self : bool
}.
#[export] Instance sk_server_eta : Eta espos_sk_server_t := fun r =>
  SkServer (host r) (srv_port r) (tls r) (self r) (by_self r).
Definition server_zero : espos_sk_server_t := SkServer [] 0 false [] false.

Record espos_sk_tok_cfg_t := SkTokCfg {
  client_id : cstr;
  description : cstr;
  permissions : cstr;
  check_interval_ms : Z
}.

Record espos_sk_tok_store_t := SkTokStore {
  token : cstr;
  token_self : cstr;
  token_host : cstr;
  token_port : Z;
  pending_href : cstr;
  pending_host : cstr;
  pending_port : Z;
  pending_self : cstr
}.
#[export] Instance sk_tok_store_eta : Eta espos_sk_tok_store_t := fun r =>
  SkTokStore (token r) (token_self r) (token_host r) (token_port r) (pending_href r) (pending_host r)
    (pending_port r) (pending_self r).
Definition store_zero : espos_sk_tok_store_t := SkTokStore [] [] [] 0 [] [] 0 [].

Record espos_sk_http_result_t := SkHttpResult {
  http_status : Z;
  r_state : cstr;
  r_permission : cstr;
  r_href : cstr;
  r_token : cstr;
  r_message : cstr;
  r_self : cstr;
  cert_error : bool;
  cert_reason : cstr
}.

Inductive espos_sk_tok_event_t :=
  | ESPOS_SK_EV_START
  | ESPOS_SK_EV_STOP
  | ESPOS_SK_EV_SERVER (srv : option espos_sk_server_t)
  | ESPOS_SK_EV_REQUEST_RESULT (r : espos_sk_http_result_t)
  | ESPOS_SK_EV_POLL_RESULT (r : espos_sk_http_result_t)
  | ESPOS_SK_EV_VERIFY_RESULT (r : espos_sk_http_result_t)
  | ESPOS_SK_EV_TIMER
  | ESPOS_SK_EV_MANUAL_TOKEN (tok : option cstr)
  | ESPOS_SK_EV_RETRY
  | ESPOS_SK_EV_UNAUTHORIZED
  | ESPOS_SK_EV_CONFIG (arg : option espos_sk_tok_cfg_t)
  | ESPOS_SK_EV_CERT_ERROR (reason : option cstr).

Record espos_sk_tok_status_t := SkTokStatus {
  state : espos_sk_tok_state_t;
  server : espos_sk_server_t;
  has_server : bool;
  has_token : bool;
  st_pending_href : cstr;
  next_action_ms : Z;
  poll_interval_ms : Z;
  requested_since_ms : Z;
  approved_since_ms : Z;
  last_check_ms : Z;
  last_http_status : Z;
  last_error : cstr;
  request_count : Z;
  approve_count : Z;
  deny_count : Z;
  unauthorized_count : Z;
  cert_error_count : Z;
  busy : bool
}.
#[export] Instance sk_tok_status_eta : Eta espos_sk_tok_status_t := fun r =>
  SkTokStatus (state r) (server r) (has_server r) (has_token r) (st_pending_href r) (next_action_ms r)
    (poll_interval_ms r) (requested_since_ms r) (approved_since_ms r) (last_check_ms r) (last_http_status r)
    (last_error r) (request_count r) (approve_count r) (deny_count r) (unauthorized_count r)
    (cert_error_count r) (busy r).

Record espos_sk_tok_sm_t := SkTokSm {
  cfg : espos_sk_tok_cfg_t;
  store : espos_sk_tok_store_t;
  st : espos_sk_tok_status_t;
  started : bool;
  reeval : bool;
  error_backoff_ms : Z;
  dup_backoff_ms : Z;
  timer_due_ms : Z;
  plain_unauth_streak : Z
}.
#[export] Instance sk_tok_sm_eta : Eta espos_sk_tok_sm_t := fun r =>
  SkTokSm (cfg r) (store r) (st r) (started r) (reeval r) (error_backoff_ms r) (dup_backoff_ms r)
    (timer_due_ms r) (plain_unauth_streak r).

Record espos_sk_tok_port_t (W : Type) := SkTokPort {
  http_request : espos_sk_server_t -> espos_sk_tok_cfg_t -> W -> unit * W;
  http_poll : espos_sk_server_t -> cstr -> W -> unit * W;
  http_verify : espos_sk_server_t -> cstr -> W -> unit * W;
  store_save : espos_sk_tok_store_t -> W -> unit * W;
  arm_timer : Z -> W -> unit * W;
  cancel_timer : W -> unit * W;
  now_ms : W -> Z * W;
  random : W -> Z * W;
  status_changed : option (W -> unit * W)
}.
Arguments http_request {W} _.
Arguments http_poll {W} _.
Arguments http_verify {W} _.
Arguments store_save {W} _.
Arguments arm_timer {W} _.
Arguments cancel_timer {W} _.
Arguments now_ms {W} _.
Arguments random {W} _.
Arguments status_changed {W} _.

Inductive tok_obs :=
  | OEvent (ev : espos_sk_tok_event_t)
  | OHttpRequest (srv : espos_sk_server_t)
  | OHttpPoll (srv : espos_sk_server_t) (href : cstr)
  | OHttpVerify (srv : espos_sk_server_t) (tok : cstr)
  | OSave (s : espos_sk_tok_store_t)
  | OArm (ms : Z)
  | OCancel
  | ONotify.

(** * Operations *)

Definition is_state (s : espos_sk_tok_state_t) (sm : espos_sk_tok_sm_t) : bool := bool_decide (state (st sm) = s).

(** [s[0] != '\0'] *)
Definition nonempty (s : cstr) : bool := match s with [] => false | _ :: _ => true end.

Definition dup_request (msg : cstr) : bool := strstr msg (lit "already requested access").

Section Machine.
Context {W : Type} (port : espos_sk_tok_port_t W).
(** [ESPOS_SK_TOKEN_CAP], a build option *)
Context (token_cap : nat).

Abbreviation tact := (act espos_sk_tok_sm_t W tok_obs).

Definition notify : tact unit :=
  match status_changed port with
  | Some f => call f (fun _ => ONotify)
  | None => mret tt
  end.

Definition now : tact Z := t ← query (now_ms port); mret (u32 t).

Definition set_error (msg : cstr) : tact unit :=
  mods (fun sm => sm <| st; last_error := snprintf_s ESPOS_SK_MSG_MAX msg |>).

Definition arm (ms : Z) : tact unit :=
  t ← now;
  let due := u32 (t + ms) in
  mods (fun sm => sm <| st; next_action_ms := due |> <| timer_due_ms := if due =? 0 then 1 else due |>);;
  call (arm_timer port ms) (fun _ => OArm ms).

Definition cancel : tact unit :=
  mods (fun sm => sm <| timer_due_ms := 0 |> <| st; next_action_ms := 0 |>);;
  call (cancel_timer port) (fun _ => OCancel).

Definition save : tact unit :=
  s ← gets store;
  call (store_save port s) (fun _ => OSave s);;
  mods (fun sm => sm <| st; has_token := nonempty (token (store sm)) |>
                     <| st; st_pending_href := snprintf_s ESPOS_SK_HREF_MAX (pending_href (store sm)) |>).

Definition clear_pending : tact unit :=
  mods (fun sm => sm <| store; pending_href := [] |> <| store; pending_host := [] |>
                     <| store; pending_self := [] |> <| store; pending_port := 0 |>).

Definition clear_token : tact unit :=
  mods (fun sm => sm <| store; token := [] |> <| store; token_self := [] |>
                     <| store; token_host := [] |> <| store; token_port := 0 |>).

Definition token_fits (tok : cstr) : bool := (length tok <? token_cap)%nat.

(** Record where the token works; true when that changed. *)
Definition set_token_addr (h : cstr) (p : Z) : tact bool :=
  s ← gets store;
  if streq (token_host s) h && (token_port s =? p) then mret false
  else
    mods (fun sm => sm <| store; token_host := snprintf_s ESPOS_SK_HOST_MAX h |> <| store; token_port := p |>);;
    mret true.

(** ** Actions *)

Definition do_request : tact unit :=
  mods (fun sm => sm <| st; state := ESPOS_SK_TOK_IDLE |> <| st; busy := true |>
                     <| st; request_count ::= fun n => u32 (n + 1) |>);;
  cancel;;
  sm ← gets id;
  call (http_request port (server (st sm)) (cfg sm)) (fun _ => OHttpRequest (server (st sm)));;
  notify.

Definition do_poll : tact unit :=
  mods (fun sm => sm <| st; state := ESPOS_SK_TOK_REQUESTED |> <| st; busy := true |>);;
  cancel;;
  sm ← gets id;
  call (http_poll port (server (st sm)) (pending_href (store sm)))
       (fun _ => OHttpPoll (server (st sm)) (pending_href (store sm)));;
  notify.

Definition do_verify (as_check : bool) : tact unit :=
  (if negb as_check then mods (fun sm => sm <| st; state := ESPOS_SK_TOK_VERIFYING |>) else mret tt);;
  mods (fun sm => sm <| st; busy := true |>);;
  cancel;;
  sm ← gets id;
  call (http_verify port (server (st sm)) (token (store sm)))
       (fun _ => OHttpVerify (server (st sm)) (token (store sm)));;
  notify.

(** One step up a backoff ladder: doubled, capped. *)
Definition ladder (d cap : Z) : Z :=
  if d <? cap then let d' := u32 (d * 2) in if d' >? cap then cap else d' else d.

(** A delay of [d] with 20 % of jitter around it. *)
Definition jittered (d rnd : Z) : Z := u32 (d - d / 10 + rnd mod (d / 5 + 1)).

Definition enter_error (msg : cstr) : tact unit :=
  mods (fun sm => sm <| st; state := ESPOS_SK_TOK_ERROR |>);;
  set_error msg;;
  d ← gets error_backoff_ms;
  rnd ← query (random port);
  arm (jittered d (u32 rnd));;
  mods (fun sm => sm <| error_backoff_ms ::= fun d => ladder d ERR_MAX_MS |>);;
  notify.

Definition enter_cert_error (reason : cstr) : tact unit :=
  mods (fun sm => sm <| st; state := ESPOS_SK_TOK_CERT_ERROR |>);;
  set_error (if nonempty reason then reason
             else lit "the server's certificate is not the one this device trusts");;
  mods (fun sm => sm <| st; cert_error_count ::= fun n => u32 (n + 1) |>);;
  arm CERT_RETRY_MS;;
  notify.

(** Both ladders back to their first step. *)
Definition reset_backoff : tact unit :=
  mods (fun sm => sm <| error_backoff_ms := ERR_MIN_MS |> <| dup_backoff_ms := DUP_MIN_MS |>).

(** A 401/403 on a request that carried the token; true when it was cleared. *)
Definition unauthorized_conclusive : tact bool :=
  sm ← gets id;
  if by_self (server (st sm)) then
    mods (fun sm => sm <| plain_unauth_streak := 0 |>);;
    enter_error (snprintf_s ESPOS_SK_MSG_MAX
      (lit "token refused here; waiting for " ++ take 40 (token_host (store sm)) ++ lit " or a manual pin"));;
    mret false
  else
    mods (fun sm => sm <| plain_unauth_streak := 0 |>);;
    clear_token;;
    save;;
    set_error (lit "token rejected by the server; requesting access again");;
    mret true.

Definition handle_unauthorized : tact bool :=
  mods (fun sm => sm <| st; unauthorized_count ::= fun n => u32 (n + 1) |>);;
  sm ← gets id;
  if negb (tls (server (st sm))) then
    mods (fun sm => sm <| plain_unauth_streak ::= fun n => u32 (n + 1) |>);;
    streak ← gets plain_unauth_streak;
    if streak <? 2 then
      set_error (lit "unauthorized over plaintext; checking again before dropping the token");;
      arm PLAIN_RECHECK_MS;;
      notify;;
      mret false
    else unauthorized_conclusive
  else unauthorized_conclusive.

(** The pending request belongs to this server. *)
Definition pending_same (sm : espos_sk_tok_sm_t) : bool :=
  let srv := server (st sm) in
  (nonempty (self srv) && nonempty (pending_self (store sm)) && streq (self srv) (pending_self (store sm)))
  || (streq (host srv) (pending_host (store sm)) && (srv_port srv =? pending_port (store sm))).

(** The stored token is, or may be, for this server. *)
Definition token_applicable (sm : espos_sk_tok_sm_t) : bool :=
  negb (nonempty (token_self (store sm))) || negb (nonempty (self (server (st sm))))
  || streq (token_self (store sm)) (self (server (st sm))).

(** What a server whose pending request is not ours needs: its token, or a
    request. *)
Definition evaluate_token : tact unit :=
  sm ← gets id;
  if nonempty (token (store sm)) && token_applicable sm then
    if tls (server (st sm)) then
      mods (fun sm => sm <| st; state := ESPOS_SK_TOK_APPROVED |>);;
      (if approved_since_ms (st sm) =? 0
       then t ← now; mods (fun sm => sm <| st; approved_since_ms := t |>) else mret tt);;
      reset_backoff;;
      set_error [];;
      arm (check_interval_ms (cfg sm));;
      notify
    else do_verify false
  else do_request.

Definition evaluate : tact unit :=
  sm ← gets id;
  if negb (started sm) then mret tt
  else if negb (has_server (st sm)) then
    mods (fun sm => sm <| st; state := ESPOS_SK_TOK_NO_SERVER |>);;
    cancel;;
    notify
  else if nonempty (pending_href (store sm)) then
    if pending_same sm then
      mods (fun sm => sm <| st; poll_interval_ms := POLL_MIN_MS |>);;
      (if requested_since_ms (st sm) =? 0
       then t ← now; mods (fun sm => sm <| st; requested_since_ms := t |>) else mret tt);;
      do_poll
    else
      clear_pending;;
      save;;
      evaluate_token
  else evaluate_token.

(** ** Public *)

(** The part of [espos_sk_tok_init] after the zeroing: a token longer than this
    build holds is dropped and the drop saved. *)
Definition espos_sk_tok_init : tact unit :=
  sm ← gets id;
  (if negb (token_fits (token (store sm))) then
     clear_token;;
     save;;
     set_error (lit "stored token longer than CONFIG_ESPOS_SK_TOKEN_MAX; requesting access again")
   else mret tt);;
  mods (fun sm => sm <| st; has_token := nonempty (token (store sm)) |>
                     <| st; st_pending_href := snprintf_s ESPOS_SK_HREF_MAX (pending_href (store sm)) |>
                     <| error_backoff_ms := ERR_MIN_MS |> <| dup_backoff_ms := DUP_MIN_MS |>
                     <| st; poll_interval_ms := POLL_MIN_MS |>).

(** The zeroed struct with the configuration and the loaded store. *)
Definition tok_zero (c : espos_sk_tok_cfg_t) (s : espos_sk_tok_store_t) : espos_sk_tok_sm_t :=
  SkTokSm c s
    (SkTokStatus ESPOS_SK_TOK_NO_SERVER server_zero false false [] 0 0 0 0 0 0 [] 0 0 0 0 0 false)
    false false 0 0 0 0.

Definition espos_sk_tok_token (sm : espos_sk_tok_sm_t) : cstr :=
  if is_state ESPOS_SK_TOK_APPROVED sm then token (store sm) else [].

(** ** Events *)

Definition ev_start : tact unit :=
  sm ← gets id;
  if started sm then mret tt
  else mods (fun sm => sm <| started := true |>);; evaluate.

Definition ev_stop : tact unit :=
  mods (fun sm => sm <| started := false |> <| st; busy := false |> <| reeval := false |>);;
  cancel;;
  mods (fun sm => sm <| st; state := ESPOS_SK_TOK_NO_SERVER |>);;
  notify.

Definition ev_config (arg : option espos_sk_tok_cfg_t) : tact unit :=
  match arg with
  | None => mret tt
  | Some c =>
      sm ← gets id;
      mods (fun sm => sm <| cfg := c |>);;
      if negb (check_interval_ms (cfg sm) =? check_interval_ms c)
         && is_state ESPOS_SK_TOK_APPROVED sm && negb (busy (st sm))
      then arm (check_interval_ms c) else mret tt
  end.

(** The same server, reported again. *)
Definition ev_server_same (srv : espos_sk_server_t) : tact unit :=
  sm ← gets id;
  (if negb (Bool.eqb (by_self (server (st sm))) (by_self srv)) then
     mods (fun sm => sm <| st; server ::= fun v => v <| by_self := by_self srv |> |>);;
     notify
   else mret tt);;
  if nonempty (self srv) && negb (nonempty (self (server (st sm)))) then
    mods (fun sm => sm <| st; server ::= fun v => v <| self := snprintf_s ESPOS_SK_SELF_MAX (self srv) |> |>);;
    (if nonempty (token (store sm)) && negb (nonempty (token_self (store sm))) then
       mods (fun sm => sm <| store; token_self := snprintf_s ESPOS_SK_SELF_MAX (self srv) |>);;
       save
     else mret tt);;
    notify
  else mret tt.

(** Another server, or none. *)
Definition ev_server_new (srv : option espos_sk_server_t) : tact unit :=
  mods (fun sm =>
          match srv with
          | Some v => sm <| st; server := v |> <| st; has_server := true |>
          | None => sm <| st; server := server_zero |> <| st; has_server := false |>
          end);;
  reset_backoff;;
  set_error [];;
  sm ← gets id;
  if busy (st sm) then
    mods (fun sm => sm <| reeval := true |>);;
    notify
  else evaluate.

Definition same_server (sm : espos_sk_tok_sm_t) (srv : espos_sk_server_t) : bool :=
  let cur := server (st sm) in
  (has_server (st sm) && streq (host srv) (host cur) && (srv_port srv =? srv_port cur)
   && Bool.eqb (tls srv) (tls cur))
  && (negb (nonempty (self srv)) || negb (nonempty (self cur)) || streq (self srv) (self cur)).

Definition ev_server (srv : option espos_sk_server_t) : tact unit :=
  sm ← gets id;
  match srv with
  | Some v => if same_server sm v then ev_server_same v else ev_server_new srv
  | None => ev_server_new srv
  end.

(** A result that answers for a previous server or token: drop it, start over. *)
Definition drop_stale (k : tact unit) : tact unit :=
  sm ← gets id;
  if reeval sm && busy (st sm) then
    mods (fun sm => sm <| reeval := false |> <| st; busy := false |>);;
    evaluate
  else k.

(** The result of a leg is taken: the machine is free again. *)
Definition take_result (r : espos_sk_http_result_t) : tact unit :=
  mods (fun sm => sm <| st; busy := false |> <| st; last_http_status := http_status r |>).

(** Unreachable, or an answer that makes no sense to this leg. *)
Definition leg_failed (what : cstr) (r : espos_sk_http_result_t) : tact unit :=
  if http_status r =? 0 then enter_error (lit "server unreachable")
  else enter_error (snprintf_s ESPOS_SK_MSG_MAX (what ++ lit " failed (HTTP " ++ fmt_d (http_status r) ++ lit ")")).

(** 202: the request is queued on the server. *)
Definition request_accepted (r : espos_sk_http_result_t) : tact unit :=
  mods (fun sm => sm <| store; pending_href := snprintf_s ESPOS_SK_HREF_MAX (r_href r) |>
                     <| store; pending_host := snprintf_s ESPOS_SK_HOST_MAX (host (server (st sm))) |>
                     <| store; pending_self := snprintf_s ESPOS_SK_SELF_MAX (self (server (st sm))) |>
                     <| store; pending_port := srv_port (server (st sm)) |>);;
  save;;
  mods (fun sm => sm <| st; state := ESPOS_SK_TOK_REQUESTED |>);;
  t ← now;
  mods (fun sm => sm <| st; requested_since_ms := t |> <| st; poll_interval_ms := POLL_MIN_MS |>);;
  reset_backoff;;
  set_error [];;
  arm POLL_MIN_MS;;
  notify.

(** 400 "already requested access": wait for a person, on a ladder of its own. *)
Definition request_duplicate : tact unit :=
  mods (fun sm => sm <| st; state := ESPOS_SK_TOK_ERROR |>);;
  set_error (lit "already asked; approve it in Security -> Access Requests");;
  d ← gets dup_backoff_ms;
  rnd ← query (random port);
  arm (jittered d (u32 rnd));;
  mods (fun sm => sm <| dup_backoff_ms ::= fun d => ladder d DUP_MAX_MS |>);;
  notify.

Definition ev_request_result (r : espos_sk_http_result_t) : tact unit :=
  drop_stale (
    sm ← gets id;
    if negb (is_state ESPOS_SK_TOK_IDLE sm) || negb (busy (st sm)) then mret tt
    else
      take_result r;;
      if cert_error r then enter_cert_error (cert_reason r)
      else if (http_status r =? 202) && nonempty (r_href r) then request_accepted r
      else if http_status r =? 404 then
        mods (fun sm => sm <| st; state := ESPOS_SK_TOK_OPEN |>);;
        reset_backoff;;
        set_error [];;
        arm OPEN_CHECK_MS;;
        notify
      else if http_status r =? 599 then enter_error (lit "host answers but is not a SignalK server")
      else if http_status r =? 403 then
        mods (fun sm => sm <| st; state := ESPOS_SK_TOK_DENIED |>
                           <| st; deny_count ::= fun n => u32 (n + 1) |>);;
        set_error (lit "device access requests are disabled on the server");;
        cancel;;
        notify
      else if (http_status r =? 400) && dup_request (r_message r) then request_duplicate
      else if http_status r =? 0 then enter_error (lit "server unreachable")
      else if nonempty (r_message r) then enter_error (r_message r)
      else leg_failed (lit "request") r).

(** The request was decided against the device. *)
Definition poll_denied (msg : cstr) : tact unit :=
  clear_pending;;
  save;;
  mods (fun sm => sm <| st; state := ESPOS_SK_TOK_DENIED |>
                     <| st; deny_count ::= fun n => u32 (n + 1) |>);;
  set_error msg;;
  cancel;;
  notify.

Definition poll_completed (r : espos_sk_http_result_t) : tact unit :=
  let approved := streq (r_permission r) (lit "APPROVED") && nonempty (r_token r) in
  if approved && negb (token_fits (r_token r)) then poll_denied ESPOS_SK_TOKEN_TOO_LONG
  else if approved then
    mods (fun sm => sm <| store; token := snprintf_s ESPOS_SK_TOKEN_MAX (r_token r) |>
                       <| store; token_self := snprintf_s ESPOS_SK_SELF_MAX (self (server (st sm))) |>);;
    sm ← gets id;
    set_token_addr (host (server (st sm))) (srv_port (server (st sm)));;
    clear_pending;;
    save;;
    mods (fun sm => sm <| st; approve_count ::= fun n => u32 (n + 1) |>);;
    set_error [];;
    do_verify false
  else
    poll_denied (if nonempty (r_message r) then r_message r
                 else if streq (r_permission r) (lit "DENIED") then lit "access denied by the server admin"
                 else lit "request rejected").

Definition poll_pending : tact unit :=
  sm ← gets id;
  let next := u32 (poll_interval_ms (st sm) + poll_interval_ms (st sm) / 2) in
  let next := if next >? POLL_MAX_MS then POLL_MAX_MS else next in
  mods (fun sm => sm <| st; poll_interval_ms := next |>);;
  arm next;;
  notify.

(** The server does not know the request. *)
Definition poll_lost : tact unit :=
  sm ← gets id;
  if by_self (server (st sm)) then
    enter_error (snprintf_s ESPOS_SK_MSG_MAX
      (lit "request unknown here; waiting for " ++ take 40 (pending_host (store sm)) ++ lit " or a manual pin"))
  else
    clear_pending;;
    save;;
    set_error (lit "server lost the request; requesting again");;
    do_request.

Definition ev_poll_result (r : espos_sk_http_result_t) : tact unit :=
  drop_stale (
    sm ← gets id;
    if negb (is_state ESPOS_SK_TOK_REQUESTED sm) || negb (busy (st sm)) then mret tt
    else
      take_result r;;
      if cert_error r then enter_cert_error (cert_reason r)
      else
        let ok := (http_status r =? 200) || (http_status r =? 202) in
        if ok && negb (nonempty (r_state r)) then
          enter_error (lit "unexpected reply while polling (not a SignalK server?)")
        else if ok then
          reset_backoff;;
          if streq (r_state r) (lit "COMPLETED") then poll_completed r else poll_pending
        else if (http_status r =? 404) || ((http_status r =? 500) && strstr (r_message r) (lit "not found"))
        then poll_lost
        else leg_failed (lit "poll") r).

(** 200 on the verify leg: the token works. *)
Definition verify_ok (r : espos_sk_http_result_t) : tact unit :=
  sm ← gets id;
  changed ← (if negb (nonempty (token_host (store sm)))
             then set_token_addr (host (server (st sm))) (srv_port (server (st sm))) else mret false);
  (if nonempty (r_self r) then
     mods (fun sm => sm <| store; token_self := snprintf_s ESPOS_SK_SELF_MAX (r_self r) |>);;
     if negb (nonempty (self (server (st sm))))
     then mods (fun sm => sm <| st; server ::= fun v => v <| self := snprintf_s ESPOS_SK_SELF_MAX (r_self r) |> |>)
     else mret tt
   else mret tt);;
  (if changed || (nonempty (r_self r) && negb (streq (token_self (store sm)) (r_self r)))
   then save else mret tt);;
  (if negb (is_state ESPOS_SK_TOK_APPROVED sm)
   then t ← now; mods (fun sm => sm <| st; approved_since_ms := t |>) else mret tt);;
  mods (fun sm => sm <| st; state := ESPOS_SK_TOK_APPROVED |>);;
  reset_backoff;;
  set_error [];;
  arm (check_interval_ms (cfg sm));;
  notify.

Definition ev_verify_result (r : espos_sk_http_result_t) : tact unit :=
  drop_stale (
    sm ← gets id;
    let checking := is_state ESPOS_SK_TOK_APPROVED sm || is_state ESPOS_SK_TOK_OPEN sm in
    if (negb (is_state ESPOS_SK_TOK_VERIFYING sm) && negb checking) || negb (busy (st sm)) then mret tt
    else
      take_result r;;
      t ← now;
      mods (fun sm => sm <| st; last_check_ms := t |>);;
      if cert_error r then enter_cert_error (cert_reason r)
      else if http_status r =? 200 then
        mods (fun sm => sm <| plain_unauth_streak := 0 |>);;
        if is_state ESPOS_SK_TOK_OPEN sm then arm OPEN_CHECK_MS;; notify
        else verify_ok r
      else if (http_status r =? 401) || (http_status r =? 403) then
        if is_state ESPOS_SK_TOK_OPEN sm then set_error [];; do_request
        else
          cleared ← handle_unauthorized;
          if (cleared : bool) then do_request else mret tt
      else leg_failed (lit "check") r).

Definition ev_timer : tact unit :=
  sm ← gets id;
  if negb (started sm) || busy (st sm) || (timer_due_ms sm =? 0) then mret tt
  else
    t ← now;
    if i32 (t - timer_due_ms sm) <? 0 then mret tt
    else
      mods (fun sm => sm <| timer_due_ms := 0 |>);;
      match state (st sm) with
      | ESPOS_SK_TOK_REQUESTED => do_poll
      | ESPOS_SK_TOK_APPROVED | ESPOS_SK_TOK_VERIFYING => do_verify true
      | ESPOS_SK_TOK_OPEN => do_request
      | ESPOS_SK_TOK_ERROR | ESPOS_SK_TOK_CERT_ERROR => evaluate
      | _ => mret tt
      end.

Definition ev_manual_token (arg : option cstr) : tact unit :=
  match arg with
  | None => mret tt
  | Some tok =>
      if negb (nonempty tok) || negb (token_fits tok) then mret tt
      else
        sm ← gets id;
        let srv := if has_server (st sm) then server (st sm) else server_zero in
        mods (fun sm => sm <| store; token := snprintf_s ESPOS_SK_TOKEN_MAX tok |>
                           <| store; token_self := snprintf_s ESPOS_SK_SELF_MAX (self srv) |>);;
        set_token_addr (host srv) (srv_port srv);;
        clear_pending;;
        save;;
        reset_backoff;;
        set_error [];;
        if negb (has_server (st sm)) then notify
        else if busy (st sm) then mods (fun sm => sm <| reeval := true |>);; notify
        else do_verify false
  end.

Definition ev_retry : tact unit :=
  sm ← gets id;
  if negb (started sm) || negb (has_server (st sm)) || busy (st sm) then mret tt
  else
    reset_backoff;;
    set_error [];;
    if is_state ESPOS_SK_TOK_DENIED sm || is_state ESPOS_SK_TOK_OPEN sm then
      clear_pending;;
      save;;
      do_request
    else evaluate.

Definition ev_unauthorized : tact unit :=
  sm ← gets id;
  if is_state ESPOS_SK_TOK_APPROVED sm && negb (busy (st sm)) then
    cleared ← handle_unauthorized;
    if (cleared : bool) then do_request else mret tt
  else mret tt.

Definition ev_cert_error (reason : option cstr) : tact unit :=
  sm ← gets id;
  if is_state ESPOS_SK_TOK_APPROVED sm || is_state ESPOS_SK_TOK_OPEN sm || is_state ESPOS_SK_TOK_VERIFYING sm then
    mods (fun sm => sm <| st; busy := false |>);;
    enter_cert_error (match reason with Some s => s | None => [] end)
  else mret tt.

Definition espos_sk_tok_event (ev : espos_sk_tok_event_t) : tact unit :=
  emit (OEvent ev);;
  match ev with
  | ESPOS_SK_EV_START => ev_start
  | ESPOS_SK_EV_STOP => ev_stop
  | ESPOS_SK_EV_SERVER srv => ev_server srv
  | ESPOS_SK_EV_REQUEST_RESULT r => ev_request_result r
  | ESPOS_SK_EV_POLL_RESULT r => ev_poll_result r
  | ESPOS_SK_EV_VERIFY_RESULT r => ev_verify_result r
  | ESPOS_SK_EV_TIMER => ev_timer
  | ESPOS_SK_EV_MANUAL_TOKEN tok => ev_manual_token tok
  | ESPOS_SK_EV_RETRY => ev_retry
  | ESPOS_SK_EV_UNAUTHORIZED => ev_unauthorized
  | ESPOS_SK_EV_CONFIG arg => ev_config arg
  | ESPOS_SK_EV_CERT_ERROR reason => ev_cert_error reason
  end.

Fixpoint tok_run (evs : list espos_sk_tok_event_t) : tact unit :=
  match evs with
  | [] => mret tt
  | ev :: evs' => espos_sk_tok_event ev;; tok_run evs'
  end.

(** A device: the machine initialised with the loaded store, then its events. *)
Definition tok_device (c : espos_sk_tok_cfg_t) (s : espos_sk_tok_store_t) (w : W)
    (evs : list espos_sk_tok_event_t) : mach espos_sk_tok_sm_t W tok_obs :=
  exec (espos_sk_tok_init;; tok_run evs) (Mach (tok_zero c s) w []).

End Machine.
