(* ===== verification/TokenProps.v ===== *)
(** Correctness of the access-token machine ([TokenSm]): the invariant of every
    reachable configuration, the life of the stored token, and the delays. *)
From Stdlib Require Import ZArith Lia String.
From stdpp Require Import base list numbers sets.
From S2P Require Import Prelude TokenSm.
Open Scope Z_scope.

(** * What the trace says *)

Inductive leg := LRequest | LPoll | LVerify.
#[export] Instance leg_eq_dec : EqDecision leg.
Proof. solve_decision. Defined.

(** The HTTP leg whose answer is awaited: the most recent one, unless a result
    of its kind has arrived since. *)
Fixpoint awaited (tr : list tok_obs) : option (leg * espos_sk_server_t) :=
  match tr with
  | [] => None
  | OHttpRequest srv :: _ => Some (LRequest, srv)
  | OHttpPoll srv _ :: _ => Some (LPoll, srv)
  | OHttpVerify srv _ :: _ => Some (LVerify, srv)
  | OEvent ev :: tr' =>
      match awaited tr', ev with
      | Some (LRequest, _), ESPOS_SK_EV_REQUEST_RESULT _ => None
      | Some (LPoll, _), ESPOS_SK_EV_POLL_RESULT _ => None
      | Some (LVerify, _), ESPOS_SK_EV_VERIFY_RESULT _ => None
      | a, _ => a
      end
  | _ :: tr' => awaited tr'
  end.

(** The owner's timer is armed: armed and not cancelled since. *)
Fixpoint timer_armed (tr : list tok_obs) : bool :=
  match tr with
  | [] => false
  | OArm _ :: _ => true
  | OCancel :: _ => false
  | _ :: tr' => timer_armed tr'
  end.

(** What the persistent store holds: the last write, or what was loaded. *)
Fixpoint saved (s0 : espos_sk_tok_store_t) (tr : list tok_obs) : espos_sk_tok_store_t :=
  match tr with
  | [] => s0
  | OSave s :: _ => s
  | _ :: tr' => saved s0 tr'
  end.

(** The check intervals the operator has configured so far. *)
Fixpoint intervals (c0 : espos_sk_tok_cfg_t) (tr : list tok_obs) : list Z :=
  match tr with
  | [] => [check_interval_ms c0]
  | OEvent (ESPOS_SK_EV_CONFIG (Some c)) :: tr' => check_interval_ms c :: intervals c0 tr'
  | _ :: tr' => intervals c0 tr'
  end.

(** Every timer of the trace is a check interval of the operator's, or between
    five seconds and eleven minutes. *)
Fixpoint arms_ok (c0 : espos_sk_tok_cfg_t) (tr : list tok_obs) : Prop :=
  match tr with
  | [] => True
  | OArm ms :: tr' => (PLAIN_RECHECK_MS <= ms <= DUP_MAX_MS + DUP_MAX_MS / 10 \/ ms ∈ intervals c0 tr') /\ arms_ok c0 tr'
  | _ :: tr' => arms_ok c0 tr'
  end.

(** * The invariant *)

(** The states a timer event acts in. *)
Definition timed_state (s : espos_sk_tok_state_t) : bool :=
  match s with
  | ESPOS_SK_TOK_NO_SERVER | ESPOS_SK_TOK_IDLE | ESPOS_SK_TOK_DENIED => false
  | _ => true
  end.

(** The states that take the result of a leg. *)
Definition takes (l : leg) (s : espos_sk_tok_state_t) : bool :=
  match l, s with
  | LRequest, ESPOS_SK_TOK_IDLE | LPoll, ESPOS_SK_TOK_REQUESTED
  | LVerify, ESPOS_SK_TOK_VERIFYING | LVerify, ESPOS_SK_TOK_APPROVED => true
  | _, _ => false
  end.

Definition same_addr (a b : espos_sk_server_t) : Prop :=
  host a = host b /\ srv_port a = srv_port b /\ tls a = tls b.

(** A leg is out, and its answer will be taken: as an answer of the current
    server, or as the cue to start over. *)
Definition answer_expected (sm : espos_sk_tok_sm_t) (tr : list tok_obs) : Prop :=
  exists l srv, awaited tr = Some (l, srv) /\
    (reeval sm = true \/ takes l (state (st sm)) = true /\ same_addr srv (server (st sm))).

(** Nothing is under way and nothing can be: there is no server, or a person
    has to act. *)
Definition resting (sm : espos_sk_tok_sm_t) : Prop :=
  state (st sm) = ESPOS_SK_TOK_NO_SERVER /\ has_server (st sm) = false \/ state (st sm) = ESPOS_SK_TOK_DENIED.

Definition ladders_ok (sm : espos_sk_tok_sm_t) : Prop :=
  ERR_MIN_MS <= error_backoff_ms sm <= ERR_MAX_MS /\ DUP_MIN_MS <= dup_backoff_ms sm <= DUP_MAX_MS /\
  POLL_MIN_MS <= poll_interval_ms (st sm) <= POLL_MAX_MS.

(** The structs are taken apart into their members; [flat] brings the result of
    assignments back to that form. *)
Ltac flat :=
  cbn [m_sm m_world m_trace update id
       cfg store st started reeval error_backoff_ms dup_backoff_ms timer_due_ms plain_unauth_streak
       token token_self token_host token_port pending_href pending_host pending_port pending_self
       state server has_server has_token st_pending_href next_action_ms poll_interval_ms requested_since_ms
       approved_since_ms last_check_ms last_http_status last_error request_count approve_count deny_count
       unauthorized_count cert_error_count busy].
Ltac open_tok s :=
  destruct s as [[cf [tok tself thost tport phref phost pport pself]
    [stt srv hsrv htok sph nxt pint rsince asince lchk lhttp lerr rq aq dq uq cq bsy]
    run re eb db due streak] wld tr]; cbn in * |-; flat.

(** Symbolic execution up to the arming of a timer or the verdict on a token. *)
Ltac tstep :=
  lazymatch goal with
  | |- wp (mbind _ (arm _ _)) _ _ => fail
  | |- wp (mbind _ (handle_unauthorized _)) _ _ => fail
  | _ => wp_step; flat
  end.
Ltac tsteps := repeat tstep.

Section Proofs.
Context {W : Type} (port : espos_sk_tok_port_t W) (token_cap : nat).
Context (c0 : espos_sk_tok_cfg_t) (s0 : espos_sk_tok_store_t).

Abbreviation tmach := (mach espos_sk_tok_sm_t W tok_obs).

(** The first six parts hold in every configuration; the others, under [on],
    once the machine is started and until it is stopped. *)
Record tok_inv (on : bool) (s : tmach) : Prop := mk_tok_inv {
  ti_ladders : ladders_ok (m_sm s);
  ti_cfg : check_interval_ms (cfg (m_sm s)) ∈ intervals c0 (m_trace s);
  ti_arms : arms_ok c0 (m_trace s);
  ti_saved : saved s0 (m_trace s) = store (m_sm s);
  ti_self : (length (token_self (store (m_sm s))) < ESPOS_SK_SELF_MAX)%nat;
  ti_has : has_token (st (m_sm s)) = nonempty (token (store (m_sm s)));
  ti_started : on = true -> started (m_sm s) = true;
  ti_timer : on = true -> timer_due_ms (m_sm s) <> 0 ->
    timer_armed (m_trace s) = true /\ timed_state (state (st (m_sm s))) = true;
  ti_busy : on = true -> busy (st (m_sm s)) = true -> answer_expected (m_sm s) (m_trace s);
  ti_live : on = true -> busy (st (m_sm s)) = false -> timer_due_ms (m_sm s) <> 0 \/ resting (m_sm s)
}.

(** What an operation has to have established before it hands over to an action
    that sets the state, the timer or the leg. *)
Record tok_ready (on : bool) (s : tmach) : Prop := mk_tok_ready {
  tr_ladders : ladders_ok (m_sm s);
  tr_cfg : check_interval_ms (cfg (m_sm s)) ∈ intervals c0 (m_trace s);
  tr_arms : arms_ok c0 (m_trace s);
  tr_saved : saved s0 (m_trace s) = store (m_sm s);
  tr_self : (length (token_self (store (m_sm s))) < ESPOS_SK_SELF_MAX)%nat;
  tr_has : has_token (st (m_sm s)) = nonempty (token (store (m_sm s)));
  tr_started : on = true -> started (m_sm s) = true
}.

Lemma tok_inv_ready on s : tok_inv on s -> tok_ready on s.
Proof. intros []. by split. Qed.

(** ** The port calls *)

(** A trace with nothing new but a status notification. *)
Definition quiet (tr tr' : list tok_obs) : Prop := tr' = tr \/ tr' = ONotify :: tr.

Lemma tok_now_spec Q (s : tmach) :
  (forall t w, Q t (Mach (m_sm s) w (m_trace s))) -> wp (now port) Q s.
Proof. intros H. unfold now. repeat wp_step. apply H. Qed.

Lemma tok_notify_spec Q (s : tmach) :
  (forall w tr, quiet (m_trace s) tr -> Q tt (Mach (m_sm s) w tr)) -> wp (notify port) Q s.
Proof.
  intros H. unfold notify, quiet in *. destruct (status_changed port); repeat wp_step.
  - destruct a. apply H; auto.
  - destruct s. apply H; auto.
Qed.

Definition timer_set (sm : espos_sk_tok_sm_t) (na td : Z) : espos_sk_tok_sm_t :=
  sm <| st; next_action_ms := na |> <| timer_due_ms := td |>.

Lemma tok_arm_spec Q ms (s : tmach) :
  (forall na td w, td <> 0 -> Q tt (Mach (timer_set (m_sm s) na td) w (OArm ms :: m_trace s))) ->
  wp (arm port ms) Q s.
Proof.
  intros H. unfold arm. repeat (wp_step || (apply tok_now_spec; intros)). destruct a. apply H.
  destruct (Z.eqb_spec (u32 (t + ms)) 0); lia.
Qed.

(** Every transition ends by telling the owner. *)
Lemma tok_notify_inv on (s : tmach) :
  (forall w, tok_inv on (Mach (m_sm s) w (m_trace s))) -> wp (notify port) (fun _ => tok_inv on) s.
Proof.
  intros H. apply tok_notify_spec. intros w tr [->| ->]; [apply H|].
  destruct (H w). by split.
Qed.

(** ** Actions *)

Lemma do_request_inv on s : tok_ready on s -> wp (do_request port) (fun _ => tok_inv on) s.
Proof.
  intros []. open_tok s. unfold do_request, cancel. repeat (wp_step; flat).
  apply tok_notify_inv. intros w1. split; cbn; try done.
  intros _ _. eexists _, _. split; [done|]. right. by repeat split.
Qed.

Lemma do_poll_inv on s : tok_ready on s -> wp (do_poll port) (fun _ => tok_inv on) s.
Proof.
  intros []. open_tok s. unfold do_poll, cancel. repeat (wp_step; flat).
  apply tok_notify_inv. intros w1. split; cbn; try done.
  intros _ _. eexists _, _. split; [done|]. right. by repeat split.
Qed.

Lemma do_verify_inv on as_check s :
  tok_ready on s -> (as_check = true -> takes LVerify (state (st (m_sm s))) = true) ->
  wp (do_verify port as_check) (fun _ => tok_inv on) s.
Proof.
  intros [] Hc. open_tok s. unfold do_verify, cancel. destruct as_check; repeat (wp_step; flat);
    apply tok_notify_inv; intros w1; split; cbn; try done.
  all: intros _ _; eexists _, _; split; [done|]; right; split; [cbn; by auto|by repeat split].
Qed.

(** ** Delays *)

Lemma ladder_bounds lo d cap : 0 <= lo <= d -> d <= cap < 2 ^ 31 -> lo <= ladder d cap <= cap.
Proof.
  intros. unfold ladder, u32. destruct (Z.ltb_spec d cap); [|lia].
  rewrite Z.mod_small by lia. destruct (Z.gtb_spec (d * 2) cap); lia.
Qed.

Lemma jittered_bounds d rnd :
  0 <= d <= DUP_MAX_MS -> 0 <= rnd -> d - d / 10 <= jittered d rnd <= d - d / 10 + d / 5.
Proof.
  unfold DUP_MAX_MS, jittered, u32. intros.
  assert (Hr : 0 <= rnd mod (d / 5 + 1) < d / 5 + 1) by (apply Z.mod_pos_bound; div_lia).
  revert Hr. generalize (rnd mod (d / 5 + 1)). intros r Hr. rewrite Z.mod_small; div_lia.
Qed.

Lemma u32_nonneg x : 0 <= u32 x.
Proof. unfold u32. pose proof (Z.mod_pos_bound x (2 ^ 32)); lia. Qed.

(** [arm(); notify();] into a state a timer event acts in *)
Lemma tok_close_armed on ms s :
  tok_ready on s -> (on = true -> busy (st (m_sm s)) = false) -> timed_state (state (st (m_sm s))) = true ->
  (PLAIN_RECHECK_MS <= ms <= DUP_MAX_MS + DUP_MAX_MS / 10 \/ ms = check_interval_ms (cfg (m_sm s))) ->
  wp (arm port ms;; notify port) (fun _ => tok_inv on) s.
Proof.
  intros [] Hb Ht Hms. wp_step. apply tok_arm_spec. intros na td w Htd. apply tok_notify_inv. intros w1.
  open_tok s. split; cbn; auto; [|intros ?; rewrite Hb by done; discriminate].
  split; [|done]. destruct Hms as [?| ->]; auto.
Qed.

(** [arm(); ladder up; notify();] on either ladder *)
Lemma enter_error_inv on msg s :
  tok_ready on s -> (on = true -> busy (st (m_sm s)) = false) -> wp (enter_error port msg) (fun _ => tok_inv on) s.
Proof.
  intros [] Hb. open_tok s. unfold enter_error, set_error. repeat (wp_step; flat). cbn beta.
  apply tok_arm_spec. intros na td w1 Htd. unfold timer_set. flat. repeat (wp_step; flat). apply tok_notify_inv. intros w2.
  destruct tr_ladders0 as (? & ? & ?); cbn in *. unfold ERR_MIN_MS, ERR_MAX_MS in *.
  pose proof (jittered_bounds eb (u32 a) ltac:(unfold DUP_MAX_MS; lia) (u32_nonneg _)).
  pose proof (ladder_bounds 10000 eb 300000 ltac:(lia) ltac:(lia)).
  split; cbn; auto; [done|split; [left; unfold PLAIN_RECHECK_MS, DUP_MAX_MS; div_lia|done]|].
  intros ?. rewrite Hb by done. discriminate.
Qed.

Lemma request_duplicate_inv on s :
  tok_ready on s -> (on = true -> busy (st (m_sm s)) = false) -> wp (request_duplicate port) (fun _ => tok_inv on) s.
Proof.
  intros [] Hb. open_tok s. unfold request_duplicate, set_error. repeat (wp_step; flat). cbn beta.
  apply tok_arm_spec. intros na td w1 Htd. unfold timer_set. flat. repeat (wp_step; flat). apply tok_notify_inv. intros w2.
  destruct tr_ladders0 as (? & ? & ?); cbn in *. unfold DUP_MIN_MS, DUP_MAX_MS in *.
  pose proof (jittered_bounds db (u32 a) ltac:(unfold DUP_MAX_MS; lia) (u32_nonneg _)).
  pose proof (ladder_bounds 60000 db 600000 ltac:(lia) ltac:(lia)).
  split; cbn; auto; [done|split; [left; unfold PLAIN_RECHECK_MS, DUP_MAX_MS; div_lia|done]|].
  intros ?. rewrite Hb by done. discriminate.
Qed.

Lemma enter_cert_error_inv on reason s :
  tok_ready on s -> (on = true -> busy (st (m_sm s)) = false) ->
  wp (enter_cert_error port reason) (fun _ => tok_inv on) s.
Proof.
  intros [] Hb. open_tok s. unfold enter_cert_error, set_error. tsteps.
  apply tok_close_armed; flat; [by split|done|done|]. left. unfold CERT_RETRY_MS, PLAIN_RECHECK_MS, DUP_MAX_MS. div_lia.
Qed.

Lemma ready_off s : tok_ready false s -> tok_inv false s.
Proof. intros []. by split. Qed.

End Proofs.

(** What a member-wise form owes to the invariant: most parts are untouched. *)
Ltac rdy :=
  split; cbn; try done;
  try (unfold ladders_ok, ERR_MIN_MS, ERR_MAX_MS, DUP_MIN_MS, DUP_MAX_MS, POLL_MIN_MS, POLL_MAX_MS in *; cbn in *; lia);
  try (unfold ESPOS_SK_SELF_MAX; rewrite ?length_take; cbn [length]; lia).

(** A delay of the source, or the check interval. *)
Ltac delay :=
  first [right; reflexivity
        | left; unfold POLL_MIN_MS, POLL_MAX_MS, OPEN_CHECK_MS, PLAIN_RECHECK_MS, DUP_MAX_MS in *; div_lia].

Section Handlers.
Context {W : Type} (port : espos_sk_tok_port_t W) (token_cap : nat).
Context (c0 : espos_sk_tok_cfg_t) (s0 : espos_sk_tok_store_t).

Abbreviation tmach := (mach espos_sk_tok_sm_t W tok_obs).
Abbreviation tok_inv := (tok_inv c0 s0).
Abbreviation tok_ready := (tok_ready c0 s0).

(** [busy] is clear wherever the invariant of the running machine is claimed. *)
Definition free (on : bool) (s : tmach) : Prop := on = true -> busy (st (m_sm s)) = false.

Lemma evaluate_token_inv on s : tok_ready on s -> free on s -> wp (evaluate_token port) (fun _ => tok_inv on) s.
Proof.
  intros Hr Hb. unfold evaluate_token. do 3 wp_step; [wp_step|by apply do_request_inv].
  2: { by apply do_verify_inv. }
  destruct Hr. unfold free in *. open_tok s. unfold reset_backoff, set_error.
  tsteps; try (apply tok_now_spec; intros; flat; tsteps); (apply tok_close_armed; flat; [rdy|done|done|delay]).
Qed.

Lemma evaluate_inv on s : tok_ready on s -> free on s -> wp (evaluate port) (fun _ => tok_inv on) s.
Proof.
  intros Hr Hb. pose proof Hr as []. unfold evaluate. do 3 wp_step.
  { wp_step. destruct on; [|by apply ready_off]. cbn [id] in E. by rewrite tr_started0 in E. }
  wp_step.
  { unfold free in *. open_tok s. unfold cancel. tsteps. apply tok_notify_inv. intros.
    apply negb_true_iff in E0. rdy; intros Hon; [by rewrite Hb|]. right. by left. }
  wp_step; [wp_step|by apply evaluate_token_inv]; unfold free in *; open_tok s.
  - tsteps; try (apply tok_now_spec; intros; flat; tsteps); apply do_poll_inv; rdy.
  - unfold clear_pending, save. tsteps. apply evaluate_token_inv; [rdy|done].
Qed.

(** A refusal: the token goes, or stays with a timer or an error set. *)
Lemma handle_unauthorized_spec on s :
  tok_ready on s -> free on s -> timed_state (state (st (m_sm s))) = true ->
  wp (handle_unauthorized port) (fun cleared s' => if (cleared : bool) then tok_ready on s' else tok_inv on s') s.
Proof.
  intros [] Hb Ht. unfold free in *. open_tok s. unfold handle_unauthorized, unauthorized_conclusive. tsteps.
  - unfold set_error. tsteps. wp_step. apply tok_arm_spec. intros na td w Hd. unfold timer_set. flat. tsteps.
    apply tok_notify_spec. intros w1 tr1 [->| ->]; flat; wp_step; (rdy; try (intros Hon; by rewrite Hb)); auto.
    all: split; [delay|done].
  - eapply wp_mono; [apply enter_error_inv; flat; [rdy|done]|]. done.
  - unfold clear_token, save, set_error. tsteps. rdy.
  - eapply wp_mono; [apply enter_error_inv; flat; [rdy|done]|]. done.
  - unfold clear_token, save, set_error. tsteps. rdy.
Qed.

(** ** Events *)

Lemma refused_inv on s :
  tok_ready on s -> free on s -> timed_state (state (st (m_sm s))) = true ->
  wp (cleared ← handle_unauthorized port; if (cleared : bool) then do_request port else mret tt)
     (fun _ => tok_inv on) s.
Proof.
  intros. wp_step. eapply wp_mono; [by apply handle_unauthorized_spec|]. intros [] s' Hs'.
  - by apply do_request_inv.
  - by wp_step.
Qed.

Lemma ev_config_inv on c s :
  tok_inv on s -> check_interval_ms c ∈ intervals c0 (m_trace s) -> wp (ev_config port (Some c)) (fun _ => tok_inv on) s.
Proof.
  intros [] Hc. unfold ev_config. tsteps; open_tok s.
  - apply andb_prop in E as [E Eb]. apply andb_prop in E as [_ Es].
    unfold is_state in Es. apply bool_decide_eq_true in Es. apply negb_true_iff in Eb. cbn in *. subst.
    apply tok_arm_spec. intros. unfold timer_set. flat. rdy. auto.
  - rdy.
Qed.

Lemma answer_expected_server sm tr v :
  same_addr (server (st sm)) v -> answer_expected sm tr ->
  answer_expected (sm <| st; server := v |>) tr.
Proof.
  intros (? & ? & ?) (l & srv & Ha & [Hr|(Ht & ? & ? & ?)]); exists l, srv; (split; [done|]); [by left|right].
  split; [done|]. repeat split; cbn; congruence.
Qed.

Lemma inv_server on sm (w : W) tr v :
  tok_inv on (Mach sm w tr) -> same_addr (server (st sm)) v -> tok_inv on (Mach (sm <| st; server := v |>) w tr).
Proof.
  intros [] Hv. destruct sm as [? ? [] ? ? ? ? ? ?]. split; try done.
  intros Hon Hb. apply (answer_expected_server _ tr v) in Hv; [done|]. by apply ti_busy0.
Qed.

Lemma inv_notified on sm (w : W) tr :
  tok_inv on (Mach sm w tr) -> forall (w' : W) tr', quiet tr tr' -> tok_inv on (Mach sm w' tr').
Proof. intros [] w' tr' [->| ->]; by split. Qed.

Lemma ev_server_same_inv on v s : tok_inv on s -> wp (ev_server_same port v) (fun _ => tok_inv on) s.
Proof.
  intros Hi. unfold ev_server_same. do 3 wp_step.
  apply (wp_mono _ (fun _ s' => tok_inv on s' /\ server (st (m_sm s')) = (server (st (m_sm s))) <| by_self := by_self (server (st (m_sm s'))) |>
      /\ token (store (m_sm s')) = token (store (m_sm s)) /\ token_self (store (m_sm s')) = token_self (store (m_sm s)))).
  { destruct s as [sm w tr]. wp_step; [|by wp_step; destruct sm as [? ? [? [] ? ? ? ? ? ? ? ? ? ? ? ? ? ? ? ?] ? ? ? ? ? ?]].
    do 2 wp_step. apply tok_notify_spec. intros w1 tr1 Hq. cbn [m_sm m_world m_trace] in *. split.
    - eapply inv_notified; [|exact Hq]. by apply (inv_server _ _ w _ ((server (st sm)) <| by_self := by_self v |>)).
    - by destruct sm as [? [] [] ? ? ? ? ? ?]. }
  intros [] s1 (H1 & Hv & Ht & Hts). destruct s1 as [sm1 w1 tr1]. cbn [m_sm m_world m_trace id] in *. rewrite <- Ht, <- Hts.
  assert (Ha : same_addr (server (st sm1)) ((server (st sm1)) <| self := snprintf_s ESPOS_SK_SELF_MAX (self v) |>)) by done.
  pose proof (inv_server _ _ w1 _ _ H1 Ha) as H2.
  wp_step; [|by wp_step]. do 2 wp_step. cbn [m_sm m_world m_trace].
  change (sm1 <| st; server ::= fun v0 => v0 <| self := snprintf_s ESPOS_SK_SELF_MAX (self v) |> |>)
    with (sm1 <| st; server := (server (st sm1)) <| self := snprintf_s ESPOS_SK_SELF_MAX (self v) |> |>).
  set (sm2 := sm1 <| st; server := _ |>) in *.
  assert (Hn : forall w, wp (notify port) (fun _ => tok_inv on) (Mach sm2 w tr1)).
  { intros. apply tok_notify_spec. intros. by eapply inv_notified. }
  wp_step. wp_step; [|by wp_step].
  unfold save. do 6 wp_step. cbn [m_sm m_world m_trace id].
  apply tok_notify_spec. cbn [m_sm m_world m_trace]. intros w3 tr3 Hq. eapply inv_notified; [|exact Hq].
  destruct H2. destruct sm2 as [? [] [] ? ? ? ? ? ?]. rdy.
  Unshelve. all: exact w1.
Qed.

Lemma ev_server_inv on v s : tok_inv on s -> wp (ev_server port v) (fun _ => tok_inv on) s.
Proof.
  intros Hi. assert (Hnew : wp (ev_server_new port v) (fun _ => tok_inv on) s).
  { destruct Hi. unfold ev_server_new, reset_backoff, set_error. open_tok s.
    destruct v as [v|]; tsteps; subst.
    all: first [apply evaluate_inv; [rdy|done] | apply tok_notify_inv; intros; rdy].
    all: intros Hon _; destruct (ti_busy0 Hon) as (l & srv' & Ha & _); [done|]; exists l, srv'; auto. }
  unfold ev_server. do 2 wp_step. destruct v as [v|]; [|done]. wp_step; [|done]. by apply ev_server_same_inv.
Qed.

Lemma drop_stale_inv on k s :
  tok_ready on s ->
  (reeval (m_sm s) && busy (st (m_sm s)) = false -> wp k (fun _ => tok_inv on) s) ->
  wp (drop_stale port k) (fun _ => tok_inv on) s.
Proof.
  intros [] Hk. unfold drop_stale. do 3 wp_step; [|by apply Hk]. open_tok s. tsteps.
  apply evaluate_inv; [rdy|done].
Qed.

Lemma leg_failed_inv on what r s :
  tok_ready on s -> free on s -> wp (leg_failed port what r) (fun _ => tok_inv on) s.
Proof. intros. unfold leg_failed. wp_step; by apply enter_error_inv. Qed.

Lemma request_accepted_inv on r s :
  tok_ready on s -> free on s -> wp (request_accepted port r) (fun _ => tok_inv on) s.
Proof.
  intros [] Hb. unfold free in *. open_tok s. unfold request_accepted, save, reset_backoff, set_error. tsteps.
  apply tok_now_spec; intros; flat; tsteps. apply tok_close_armed; flat; [rdy|done|done|delay].
Qed.

(** The leg a result event answers. *)
Definition result_leg (ev : espos_sk_tok_event_t) : option leg :=
  match ev with
  | ESPOS_SK_EV_REQUEST_RESULT _ => Some LRequest
  | ESPOS_SK_EV_POLL_RESULT _ => Some LPoll
  | ESPOS_SK_EV_VERIFY_RESULT _ => Some LVerify
  | _ => None
  end.

Definition logged (ev : espos_sk_tok_event_t) (s : tmach) : tmach :=
  Mach (m_sm s) (m_world s) (OEvent ev :: m_trace s).

Lemma ready_logged on ev s :
  (forall c, ev <> ESPOS_SK_EV_CONFIG c) -> tok_ready on s -> tok_ready on (logged ev s).
Proof. intros Hc []. split; try done. cbn. destruct ev; try done. by destruct (Hc arg). Qed.

(** Nothing happens on the answer of a leg the machine is not waiting for. *)
Lemma ignored_inv on ev s :
  tok_inv on s -> (forall c, ev <> ESPOS_SK_EV_CONFIG c) ->
  (forall l, result_leg ev = Some l -> busy (st (m_sm s)) = true ->
     reeval (m_sm s) = false /\ takes l (state (st (m_sm s))) = false) ->
  tok_inv on (logged ev s).
Proof.
  intros Hi Hc Hl. destruct (ready_logged on ev s) as []; [done|by apply tok_inv_ready|]. destruct Hi. split; try done.
  intros Hon Hb. destruct (ti_busy0 Hon Hb) as (l & srv & Ha & Hk). exists l, srv. split; [|done].
  cbn. rewrite Ha. destruct ev, l; try done; destruct (Hl _ eq_refl Hb) as [? Ht]; destruct Hk as [?|[? _]]; congruence.
Qed.

(** A guard of a result event that holds: the answer is not expected. *)
Lemma not_expected (re bsy tk : bool) : re && bsy = false -> negb tk || negb bsy = true -> bsy = true -> re = false /\ tk = false.
Proof. by destruct re, bsy, tk. Qed.

Lemma request_result_inv on r s :
  tok_inv on s -> wp (ev_request_result port r) (fun _ => tok_inv on) (logged (ESPOS_SK_EV_REQUEST_RESULT r) s).
Proof.
  intros Hi. unfold ev_request_result. apply drop_stale_inv; [by apply ready_logged, tok_inv_ready|]. cbn [m_sm logged]. intros Hre.
  do 2 wp_step. cbn [id m_sm logged]. wp_step.
  - wp_step. apply ignored_inv; [done..|]. intros l [= <-] Hb. destruct (not_expected _ _ _ Hre E Hb) as [? Ht].
    split; [done|]. unfold is_state in Ht. revert Ht. by destruct (state (st (m_sm s))).
  - destruct Hi. unfold take_result. open_tok s. tsteps.
    + apply enter_cert_error_inv; [rdy|done].
    + apply request_accepted_inv; [rdy|done].
    + unfold reset_backoff, set_error. tsteps. apply tok_close_armed; flat; [rdy|done|done|delay].
    + apply enter_error_inv; [rdy|done].
    + unfold set_error, cancel. tsteps. apply tok_notify_inv. intros. rdy. intros. right. by right.
    + apply request_duplicate_inv; [rdy|done].
    + apply enter_error_inv; [rdy|done].
    + apply enter_error_inv; [rdy|done].
    + apply leg_failed_inv; [rdy|done].
Qed.

Lemma poll_denied_inv on msg s : tok_ready on s -> free on s -> wp (poll_denied port msg) (fun _ => tok_inv on) s.
Proof.
  intros [] Hb. unfold free in *. open_tok s. unfold poll_denied, clear_pending, save, set_error, cancel. tsteps.
  apply tok_notify_inv. intros. rdy; intros Hon; [by rewrite Hb|]. right. by right.
Qed.

Lemma poll_completed_inv on r s :
  tok_ready on s -> free on s -> wp (poll_completed port token_cap r) (fun _ => tok_inv on) s.
Proof.
  intros Hr Hb. unfold poll_completed. wp_step; [by apply poll_denied_inv|]. wp_step; [|by apply poll_denied_inv].
  destruct Hr. unfold free in *. open_tok s. unfold set_token_addr, clear_pending, save, set_error.
  tsteps; (apply do_verify_inv; [rdy|done]).
Qed.

Lemma poll_pending_inv on s :
  tok_ready on s -> free on s -> state (st (m_sm s)) = ESPOS_SK_TOK_REQUESTED ->
  wp (poll_pending port) (fun _ => tok_inv on) s.
Proof.
  intros [] Hb Hs. unfold free in *. open_tok s. subst. unfold poll_pending. tsteps.
  destruct tr_ladders0 as (? & ? & ?). cbn in *.
  assert (5000 <= (let n := u32 (pint + pint / 2) in if n >? POLL_MAX_MS then POLL_MAX_MS else n) <= 60000).
  { unfold u32, POLL_MIN_MS, POLL_MAX_MS in *. cbn zeta. rewrite Z.mod_small by div_lia.
    destruct (Z.gtb_spec (pint + pint / 2) 60000); div_lia. }
  cbn zeta in *. apply tok_close_armed; flat; [rdy|done|done|delay].
Qed.

Lemma poll_lost_inv on s : tok_ready on s -> free on s -> wp (poll_lost port) (fun _ => tok_inv on) s.
Proof.
  intros Hr Hb. unfold poll_lost. do 3 wp_step; [by apply enter_error_inv|].
  destruct Hr. unfold free in *. open_tok s. unfold clear_pending, save, set_error. tsteps. apply do_request_inv. rdy.
Qed.

Lemma poll_result_inv on r s :
  tok_inv on s -> wp (ev_poll_result port token_cap r) (fun _ => tok_inv on) (logged (ESPOS_SK_EV_POLL_RESULT r) s).
Proof.
  intros Hi. unfold ev_poll_result. apply drop_stale_inv; [by apply ready_logged, tok_inv_ready|]. cbn [m_sm logged]. intros Hre.
  do 2 wp_step. cbn [id m_sm logged]. wp_step.
  - wp_step. apply ignored_inv; [done..|]. intros l [= <-] Hb. destruct (not_expected _ _ _ Hre E Hb) as [? Ht].
    split; [done|]. unfold is_state in Ht. revert Ht. by destruct (state (st (m_sm s))).
  - apply orb_false_iff in E as [Est _]. apply negb_false_iff, bool_decide_eq_true in Est.
    destruct Hi. unfold take_result, reset_backoff. open_tok s. tsteps.
    + apply enter_cert_error_inv; [rdy|done].
    + apply enter_error_inv; [rdy|done].
    + apply poll_completed_inv; [rdy|done].
    + apply poll_pending_inv; [rdy|done|done].
    + apply poll_lost_inv; [rdy|done].
    + apply leg_failed_inv; [rdy|done].
Qed.

(** A URN that compares equal to the stored one is copied to itself. *)
Lemma self_unchanged (tself rself : cstr) :
  (length tself < ESPOS_SK_SELF_MAX)%nat -> false || true && negb (streq tself rself) = false -> take 127 rself = tself.
Proof.
  unfold ESPOS_SK_SELF_MAX, streq. cbn [orb andb]. intros Hl E. apply negb_false_iff, bool_decide_eq_true in E as ->.
  apply take_ge. lia.
Qed.

Lemma verify_ok_inv on r s : tok_ready on s -> free on s -> wp (verify_ok port r) (fun _ => tok_inv on) s.
Proof.
  intros [] Hb. unfold free in *. open_tok s. unfold verify_ok, set_token_addr, save, reset_backoff, set_error.
  tsteps; try (apply tok_now_spec; intros; flat; tsteps); (apply tok_close_armed; flat; [rdy|done|done|delay]).
  all: rewrite tr_saved0; f_equal; symmetry; by apply self_unchanged.
Qed.

Lemma verify_result_inv on r s :
  tok_inv on s -> wp (ev_verify_result port r) (fun _ => tok_inv on) (logged (ESPOS_SK_EV_VERIFY_RESULT r) s).
Proof.
  intros Hi. unfold ev_verify_result. apply drop_stale_inv; [by apply ready_logged, tok_inv_ready|]. cbn [m_sm logged]. intros Hre.
  do 2 wp_step. cbn [id m_sm logged]. wp_step.
  - wp_step. apply ignored_inv; [done..|]. intros l [= <-] Hb. rewrite <- negb_orb in E.
    destruct (not_expected _ _ _ Hre E Hb) as [? Ht].
    split; [done|]. unfold is_state in Ht. revert Ht. by destruct (state (st (m_sm s))).
  - apply orb_false_iff in E as [Est _].
    assert (Ht : timed_state (state (st (m_sm s))) = true) by (revert Est; unfold is_state; by destruct (state (st (m_sm s)))).
    clear Est. destruct Hi. unfold take_result, set_error. open_tok s. tsteps.
    apply tok_now_spec; intros; flat. tsteps.
    + apply enter_cert_error_inv; [rdy|done].
    + apply tok_close_armed; flat; [rdy|done|done|delay].
    + apply verify_ok_inv; [rdy|done].
    + apply do_request_inv. rdy.
    + apply refused_inv; [rdy|done|done].
    + apply leg_failed_inv; [rdy|done].
Qed.

Lemma timer_inv on s :
  tok_inv on s -> wp (ev_timer port) (fun _ => tok_inv on) s.
Proof.
  intros Hi. unfold ev_timer. do 3 wp_step; [by wp_step|]. wp_step. apply tok_now_spec. intros t w.
  assert (Hw : tok_inv on (Mach (m_sm s) w (m_trace s))) by (by destruct Hi; split).
  wp_step; [by wp_step|]. do 2 wp_step. cbn [m_sm m_world m_trace id].
  apply orb_false_iff in E as [E Hd]. apply orb_false_iff in E as [Hst Hb]. apply Z.eqb_neq in Hd.
  assert (Hr : tok_ready on (Mach ((m_sm s) <| timer_due_ms := 0 |>) w (m_trace s))) by (by destruct Hi; split).
  assert (Hn : forall X : Prop, timed_state (state (st (m_sm s))) = false -> on = true -> X).
  { intros X Ht Hon. destruct Hi. destruct (ti_timer0 Hon Hd). congruence. }
  destruct (state (st (m_sm s))) eqn:Hs; cbn [id] in Hs; cbn [id]; rewrite ?Hs.
  all: lazymatch goal with
       | |- wp (do_poll _) _ _ => by apply do_poll_inv
       | |- wp (do_request _) _ _ => by apply do_request_inv
       | |- wp (do_verify _ _) _ _ => apply do_verify_inv; [done|]; cbn; by rewrite Hs
       | |- wp (evaluate _) _ _ => apply evaluate_inv; [done|intros _; exact Hb]
       | |- wp (mret _) _ _ => wp_step; destruct on; [by apply Hn|by apply ready_off]
       end.
Qed.

Lemma manual_token_inv on arg s :
  tok_inv on s -> wp (ev_manual_token port token_cap arg) (fun _ => tok_inv on) s.
Proof.
  intros Hi. unfold ev_manual_token. destruct arg as [tk|]; [|by wp_step]. wp_step; [by wp_step|].
  pose proof Hi as []. unfold set_token_addr, clear_pending, save, reset_backoff, set_error. open_tok s.
  tsteps; first [apply tok_notify_inv; intros; rdy | apply do_verify_inv; [rdy|done]].
  all: intros Hon _; destruct (ti_busy0 Hon) as (l & srv' & Ha & _); [done|]; exists l, srv'; auto.
Qed.

Lemma retry_inv on s : tok_inv on s -> wp (ev_retry port) (fun _ => tok_inv on) s.
Proof.
  intros Hi. unfold ev_retry. do 3 wp_step; [by wp_step|]. apply orb_false_iff in E as [_ Hb].
  destruct Hi. unfold reset_backoff, set_error, clear_pending, save. open_tok s. tsteps.
  - apply do_request_inv. rdy.
  - apply evaluate_inv; [rdy|intros _; exact Hb].
Qed.

Lemma unauthorized_inv on s : tok_inv on s -> wp (ev_unauthorized port) (fun _ => tok_inv on) s.
Proof.
  intros Hi. unfold ev_unauthorized. do 3 wp_step; [|by wp_step].
  apply andb_prop in E as [E Hb]. apply negb_true_iff in Hb. apply bool_decide_eq_true in E. cbn [id] in *.
  apply refused_inv; [by apply tok_inv_ready|by intros _|by rewrite E].
Qed.

Lemma cert_error_inv on reason s : tok_inv on s -> wp (ev_cert_error port reason) (fun _ => tok_inv on) s.
Proof.
  intros Hi. unfold ev_cert_error. do 3 wp_step; [|by wp_step]. destruct Hi. open_tok s. tsteps.
  apply enter_cert_error_inv; [rdy|done].
Qed.

Lemma start_inv on s :
  tok_inv on s -> wp (ev_start port) (fun _ => tok_inv on) s.
Proof.
  intros Hi. unfold ev_start. do 3 wp_step; [by wp_step|]. pose proof Hi as []. cbn [id] in E. open_tok s. tsteps.
  apply evaluate_inv; [rdy|]. intros ->. by rewrite ti_started0 in E.
Qed.

(** The first start of a machine that has not been used makes it live. *)
Lemma first_start_inv s :
  tok_inv false s -> started (m_sm s) = false -> busy (st (m_sm s)) = false -> wp (ev_start port) (fun _ => tok_inv true) s.
Proof.
  intros [] Hs Hb. unfold ev_start. do 2 wp_step. cbn [id]. rewrite Hs. open_tok s. tsteps. apply evaluate_inv; [rdy|by intros _].
Qed.

Lemma stop_inv s : tok_inv false s -> wp (ev_stop port) (fun _ => tok_inv false) s.
Proof. intros []. unfold ev_stop, cancel. open_tok s. tsteps. apply tok_notify_inv. intros. rdy. Qed.

(** ** Every event *)

Lemma config_logged on arg s : tok_inv on s -> tok_inv on (logged (ESPOS_SK_EV_CONFIG arg) s).
Proof.
  intros []. split; try done; cbn.
  - destruct arg; [by right|done].
  - intros Hon Hb. destruct (ti_busy0 Hon Hb) as (l & srv & Ha & ?). exists l, srv. split; [|done].
    cbn. rewrite Ha. by destruct l.
Qed.

Lemma event_inv on ev s :
  tok_inv on s -> (on = true -> ev <> ESPOS_SK_EV_STOP) ->
  wp (espos_sk_tok_event port token_cap ev) (fun _ => tok_inv on) s.
Proof.
  intros Hi Hstop. unfold espos_sk_tok_event. do 2 wp_step.
  destruct ev as [| |v|r|r|r| |tk| | |[c|]|reason].
  all: try (assert (Hl : forall e, result_leg e = None -> (forall c, e <> ESPOS_SK_EV_CONFIG c) -> tok_inv on (logged e s))
    by (intros; apply ignored_inv; [done..|]; intros; congruence)).
  - by apply start_inv, Hl.
  - destruct on; [by destruct Hstop|]. by apply stop_inv, Hl.
  - by apply ev_server_inv, Hl.
  - by apply request_result_inv.
  - by apply poll_result_inv.
  - by apply verify_result_inv.
  - by apply timer_inv, Hl.
  - by apply manual_token_inv, Hl.
  - by apply retry_inv, Hl.
  - by apply unauthorized_inv, Hl.
  - apply ev_config_inv; [by apply config_logged|by left].
  - unfold ev_config. wp_step. by apply config_logged.
  - by apply cert_error_inv, Hl.
Qed.

Lemma tok_run_inv on evs s :
  tok_inv on s -> (on = true -> ESPOS_SK_EV_STOP ∉ evs) -> wp (tok_run port token_cap evs) (fun _ => tok_inv on) s.
Proof.
  revert s. induction evs as [|ev evs IH]; intros s Hi Hs; cbn [tok_run]; [by wp_step|]. wp_step.
  eapply wp_mono; [apply event_inv; [done|set_solver]|]. intros [] s' Hs'. apply IH; [done|set_solver].
Qed.

Lemma tok_init_inv w :
  (length (token_self s0) < ESPOS_SK_SELF_MAX)%nat ->
  wp (espos_sk_tok_init port token_cap)
     (fun _ s => tok_inv false s /\ started (m_sm s) = false /\ busy (st (m_sm s)) = false) (Mach (tok_zero c0 s0) w []).
Proof.
  intros Hl. unfold espos_sk_tok_init, clear_token, save, set_error, tok_zero.
  destruct s0 as [tok tself thost tport phref phost pport pself] eqn:Es. cbn in Hl.
  tsteps; split_and!; try done; rdy; by left.
Qed.

(** A device that has started and not stopped, after any events. *)
Lemma device_inv w evs :
  (length (token_self s0) < ESPOS_SK_SELF_MAX)%nat -> ESPOS_SK_EV_STOP ∉ evs ->
  tok_inv true (tok_device port token_cap c0 s0 w (ESPOS_SK_EV_START :: evs)).
Proof.
  intros Hl Hs. apply (proj1 (wp_exec _ (tok_inv true) _)). wp_step. eapply wp_mono; [by apply tok_init_inv|]. intros [] s (Hi & Hst & Hb).
  cbn [tok_run]. wp_step. unfold espos_sk_tok_event. do 2 wp_step.
  eapply wp_mono; [apply first_start_inv; [by apply (ignored_inv _ ESPOS_SK_EV_START)|done|done]|].
  intros [] s' Hs'. by apply tok_run_inv.
Qed.

(** A device after any events. *)
Lemma any_device_inv w evs :
  (length (token_self s0) < ESPOS_SK_SELF_MAX)%nat -> tok_inv false (tok_device port token_cap c0 s0 w evs).
Proof.
  intros Hl. apply (proj1 (wp_exec _ (tok_inv false) _)). wp_step. eapply wp_mono; [by apply tok_init_inv|]. intros [] s (Hi & _ & _). by apply tok_run_inv.
Qed.

End Handlers.

(** * The life of the token *)

(** The event that puts the token [t] into the store: an approved access request
    that is being waited for, or an operator's. *)
Definition granted (token_cap : nat) (sm : espos_sk_tok_sm_t) (ev : espos_sk_tok_event_t) (t : cstr) : Prop :=
  match ev with
  | ESPOS_SK_EV_POLL_RESULT r =>
      state (st sm) = ESPOS_SK_TOK_REQUESTED /\ busy (st sm) = true /\ reeval sm = false /\
      cert_error r = false /\ (http_status r = 200 \/ http_status r = 202) /\
      r_state r = lit "COMPLETED" /\ r_permission r = lit "APPROVED" /\
      (length (r_token r) < token_cap)%nat /\ t = snprintf_s ESPOS_SK_TOKEN_MAX (r_token r)
  | ESPOS_SK_EV_MANUAL_TOKEN (Some tk) =>
      tk <> [] /\ (length tk < token_cap)%nat /\ t = snprintf_s ESPOS_SK_TOKEN_MAX tk
  | _ => False
  end.

(** The event that costs the token: a 401 or 403 on a request that carried it,
    from a server that is not a stand-in for ours, over TLS or after an earlier
    refusal in plaintext. *)
Definition refused (sm : espos_sk_tok_sm_t) (ev : espos_sk_tok_event_t) : Prop :=
  by_self (server (st sm)) = false /\ (tls (server (st sm)) = true \/ plain_unauth_streak sm <> 0) /\
  match ev with
  | ESPOS_SK_EV_UNAUTHORIZED => state (st sm) = ESPOS_SK_TOK_APPROVED /\ busy (st sm) = false
  | ESPOS_SK_EV_VERIFY_RESULT r =>
      (state (st sm) = ESPOS_SK_TOK_APPROVED \/ state (st sm) = ESPOS_SK_TOK_VERIFYING) /\
      busy (st sm) = true /\ reeval sm = false /\ cert_error r = false /\
      (http_status r = 401 \/ http_status r = 403)
  | _ => False
  end.

(** Frames by structure, through the operations that leave the token alone. *)
Ltac keeps_auto := repeat first [keeps_step | done | solve [eauto with frame nocore]].

Section Life.
Context {W : Type} (port : espos_sk_tok_port_t W) (token_cap : nat).

Abbreviation tmach := (mach espos_sk_tok_sm_t W tok_obs).
Definition tok_of (s : tmach) : cstr := token (store (m_sm s)).

Lemma keeps_notify : keeps tok_of (notify port).
Proof. unfold notify. keeps_auto. Qed.
Lemma keeps_now : keeps tok_of (now port).
Proof. unfold now. keeps_auto. Qed.
Local Hint Resolve keeps_notify keeps_now : frame.
Lemma keeps_set_error msg : keeps tok_of (set_error msg).
Proof. unfold set_error. keeps_auto. Qed.
Lemma keeps_arm ms : keeps tok_of (arm port ms).
Proof. unfold arm. keeps_auto. Qed.
Lemma keeps_cancel : keeps tok_of (cancel port).
Proof. unfold cancel. keeps_auto. Qed.
Lemma keeps_save : keeps tok_of (save port).
Proof. unfold save. keeps_auto. Qed.
Lemma keeps_clear_pending : keeps tok_of clear_pending.
Proof. unfold clear_pending. keeps_auto. Qed.
Lemma keeps_set_token_addr h p : keeps tok_of (set_token_addr h p).
Proof. unfold set_token_addr. keeps_auto. Qed.
Lemma keeps_reset_backoff : keeps tok_of reset_backoff.
Proof. unfold reset_backoff. keeps_auto. Qed.
Local Hint Resolve keeps_set_error keeps_arm keeps_cancel keeps_save keeps_clear_pending
  keeps_set_token_addr keeps_reset_backoff : frame.
Lemma keeps_do_request : keeps tok_of (do_request port).
Proof. unfold do_request. keeps_auto. Qed.
Lemma keeps_do_poll : keeps tok_of (do_poll port).
Proof. unfold do_poll. keeps_auto. Qed.
Lemma keeps_do_verify b : keeps tok_of (do_verify port b).
Proof. unfold do_verify. keeps_auto. Qed.
Lemma keeps_enter_error msg : keeps tok_of (enter_error port msg).
Proof. unfold enter_error. keeps_auto. Qed.
Lemma keeps_enter_cert_error msg : keeps tok_of (enter_cert_error port msg).
Proof. unfold enter_cert_error. keeps_auto. Qed.
Local Hint Resolve keeps_do_request keeps_do_poll keeps_do_verify keeps_enter_error keeps_enter_cert_error : frame.
Lemma keeps_evaluate_token : keeps tok_of (evaluate_token port).
Proof. unfold evaluate_token. keeps_auto. Qed.
Local Hint Resolve keeps_evaluate_token : frame.
Lemma keeps_evaluate : keeps tok_of (evaluate port).
Proof. unfold evaluate. keeps_auto. Qed.
Lemma keeps_leg_failed what r : keeps tok_of (leg_failed port what r).
Proof. unfold leg_failed. keeps_auto. Qed.
Lemma keeps_request_accepted r : keeps tok_of (request_accepted port r).
Proof. unfold request_accepted. keeps_auto. Qed.
Lemma keeps_request_duplicate : keeps tok_of (request_duplicate port).
Proof. unfold request_duplicate. keeps_auto. Qed.
Lemma keeps_poll_denied msg : keeps tok_of (poll_denied port msg).
Proof. unfold poll_denied. keeps_auto. Qed.
Lemma keeps_poll_pending : keeps tok_of (poll_pending port).
Proof. unfold poll_pending. keeps_auto. Qed.
Local Hint Resolve keeps_evaluate keeps_leg_failed keeps_request_accepted keeps_request_duplicate
  keeps_poll_denied keeps_poll_pending : frame.
Lemma keeps_poll_lost : keeps tok_of (poll_lost port).
Proof. unfold poll_lost. keeps_auto. Qed.
Lemma keeps_verify_ok r : keeps tok_of (verify_ok port r).
Proof. unfold verify_ok. keeps_auto. Qed.
Lemma keeps_take_result r : keeps tok_of (take_result r).
Proof. unfold take_result. keeps_auto. Qed.
Local Hint Resolve keeps_poll_lost keeps_verify_ok keeps_take_result : frame.

(** Run a computation that keeps the token. *)
Lemma wp_kept {A} (m : act espos_sk_tok_sm_t W tok_obs A) (Q : A -> tmach -> Prop) s :
  keeps tok_of m -> (forall a s', tok_of s' = tok_of s -> Q a s') -> wp m Q s.
Proof. intros Hk H. eapply wp_mono; [apply Hk|]. cbn. auto. Qed.

Definition refusal_counts (sm : espos_sk_tok_sm_t) : Prop :=
  by_self (server (st sm)) = false /\ (tls (server (st sm)) = true \/ plain_unauth_streak sm <> 0).

Lemma conclusive_life s :
  wp (unauthorized_conclusive port)
     (fun cl s' => if (cl : bool) then tok_of s' = [] /\ by_self (server (st (m_sm s))) = false else tok_of s' = tok_of s) s.
Proof.
  unfold unauthorized_conclusive. do 3 wp_step; do 2 wp_step.
  - wp_step. eapply wp_mono; [apply keeps_enter_error|]. intros ? s' Hs'. by wp_step.
  - unfold clear_token. do 2 wp_step. wp_step. eapply wp_mono; [apply keeps_save|]. intros ? s1 H1.
    wp_step. eapply wp_mono; [apply keeps_set_error|]. intros ? s2 H2. wp_step. split; [|done].
    rewrite H2, H1. done.
Qed.

Lemma handle_unauthorized_life s :
  wp (handle_unauthorized port)
     (fun cl s' => if (cl : bool) then tok_of s' = [] /\ refusal_counts (m_sm s) else tok_of s' = tok_of s) s.
Proof.
  unfold handle_unauthorized. do 4 wp_step. cbn [m_sm m_world m_trace id].
  assert (Hc : forall s1, tok_of s1 = tok_of s -> server (st (m_sm s1)) = server (st (m_sm s)) ->
    (tls (server (st (m_sm s))) = true \/ plain_unauth_streak (m_sm s) <> 0) ->
    wp (unauthorized_conclusive port)
     (fun cl s' => if (cl : bool) then tok_of s' = [] /\ refusal_counts (m_sm s) else tok_of s' = tok_of s) s1).
  { intros s1 Ht Hv Hs. eapply wp_mono; [apply conclusive_life|]. intros [] s2 Hs2; [|congruence].
    rewrite Hv in Hs2. destruct Hs2. by repeat split. }
  wp_step; [|apply Hc; [done..|left; by apply negb_false_iff in E]].
  do 4 wp_step. wp_step.
  - repeat (wp_step; apply wp_kept; [eauto using keeps_set_error, keeps_arm, keeps_notify|intros ? ? ?]).
    wp_step. unfold tok_of in *. cbn in *. congruence.
  - apply Hc; [done..|]. right. intros Hz. cbn in E0. rewrite Hz in E0. done.
Qed.

(** The token after a computation that clears it on a refusal that counts. *)
Lemma refused_life s :
  wp (cleared ← handle_unauthorized port; if (cleared : bool) then do_request port else mret tt)
     (fun _ s' => tok_of s' = tok_of s \/ tok_of s' = [] /\ refusal_counts (m_sm s)) s.
Proof.
  wp_step. eapply wp_mono; [apply handle_unauthorized_life|]. intros [] s' Hs'; [|wp_step; by left].
  eapply wp_mono; [apply keeps_do_request|]. cbn. intros ? s2 H2. right. destruct Hs'. split; [congruence|done].
Qed.

Lemma poll_completed_life r s :
  r_state r = lit "COMPLETED" ->
  wp (poll_completed port token_cap r)
     (fun _ s' => tok_of s' = tok_of s \/
        r_permission r = lit "APPROVED" /\ (length (r_token r) < token_cap)%nat /\
        tok_of s' = snprintf_s ESPOS_SK_TOKEN_MAX (r_token r)) s.
Proof.
  intros Hst. unfold poll_completed. wp_step; [apply wp_kept; [apply keeps_poll_denied|by left]|].
  wp_step; [|apply wp_kept; [apply keeps_poll_denied|by left]].
  apply andb_false_iff in E as [E|E]; [congruence|]. apply andb_prop in E0 as [Ep _]. apply bool_decide_eq_true in Ep.
  apply negb_false_iff, Nat.ltb_lt in E. do 4 wp_step.
  repeat (wp_step; apply wp_kept; [eauto using keeps_set_token_addr, keeps_clear_pending, keeps_save, keeps_set_error|intros ? ? ?]).
  apply wp_kept; [apply keeps_do_verify|intros ? ? ?].
  right. split_and!; [done..|]. unfold tok_of in *. cbn in *. congruence.
Qed.

(** The remaining events keep it. *)
Lemma drop_stale_life k (P : tmach -> Prop) s :
  P s -> (forall s', tok_of s' = tok_of s -> P s') ->
  (reeval (m_sm s) && busy (st (m_sm s)) = false -> wp k (fun _ => P) s) -> wp (drop_stale port k) (fun _ => P) s.
Proof.
  intros H0 HP Hk. unfold drop_stale. do 3 wp_step; [|by apply Hk]. do 2 wp_step.
  apply wp_kept; [apply keeps_evaluate|]. intros. by apply HP.
Qed.

Lemma keeps_quiet_event ev :
  match ev with
  | ESPOS_SK_EV_POLL_RESULT _ | ESPOS_SK_EV_VERIFY_RESULT _ | ESPOS_SK_EV_MANUAL_TOKEN _ | ESPOS_SK_EV_UNAUTHORIZED => True
  | _ => keeps tok_of (espos_sk_tok_event port token_cap ev)
  end.
Proof.
  destruct ev as [| |[v|]|r|r|r| |tk| | |[c|]|reason]; try done; unfold espos_sk_tok_event;
    (apply keeps_bind; [done|intros _]).
  - unfold ev_start. keeps_auto.
  - unfold ev_stop. keeps_auto.
  - unfold ev_server, ev_server_same, ev_server_new. keeps_auto.
  - unfold ev_server, ev_server_new. keeps_auto.
  - unfold ev_request_result, drop_stale. keeps_auto.
  - unfold ev_timer. do 5 (keeps_step; [keeps_auto|]).
    match goal with |- keeps _ (match ?x with _ => _ end) => destruct x end; keeps_auto.
  - unfold ev_retry. keeps_auto.
  - unfold ev_config. keeps_auto.
  - unfold ev_cert_error. keeps_auto.
Qed.

Lemma poll_result_life r s (P : Prop) :
  (state (st (m_sm s)) = ESPOS_SK_TOK_REQUESTED -> busy (st (m_sm s)) = true -> reeval (m_sm s) = false -> P) ->
  wp (ev_poll_result port token_cap r)
     (fun _ s' => tok_of s' = tok_of s \/
        P /\ cert_error r = false /\ (http_status r = 200 \/ http_status r = 202) /\
        r_state r = lit "COMPLETED" /\ r_permission r = lit "APPROVED" /\
        (length (r_token r) < token_cap)%nat /\ tok_of s' = snprintf_s ESPOS_SK_TOKEN_MAX (r_token r)) s.
Proof.
  intros HP. unfold ev_poll_result. apply drop_stale_life; [by left..|]. intros Hre. do 2 wp_step. cbn [id].
  wp_step; [wp_step; by left|]. apply orb_false_iff in E as [Es Eb].
  apply negb_false_iff, bool_decide_eq_true in Es. apply negb_false_iff in Eb.
  wp_step. apply wp_kept; [apply keeps_take_result|]. intros ? s1 H1.
  assert (Hk : forall m : act espos_sk_tok_sm_t W tok_obs unit, keeps tok_of m -> forall Q : tmach -> Prop, wp m (fun _ s' => tok_of s' = tok_of s \/ Q s') s1).
  { intros m Hm Q. apply wp_kept; [done|]. intros. left. congruence. }
  wp_step; [apply Hk; apply keeps_enter_cert_error|]. wp_step; [apply Hk; apply keeps_enter_error|].
  wp_step; [|wp_step; apply Hk; eauto using keeps_poll_lost, keeps_leg_failed].
  wp_step. apply wp_kept; [apply keeps_reset_backoff|]. intros ? s2 H2.
  wp_step; [|apply wp_kept; [apply keeps_poll_pending|intros; left; congruence]].
  apply bool_decide_eq_true in E2.
  eapply wp_mono; [by apply poll_completed_life|]. cbn. intros ? s3 [H3|(? & ? & ?)]; [left; congruence|right].
  apply orb_prop in E1. rewrite !Z.eqb_eq in E1. split_and!; try done. apply HP; try done.
  rewrite Eb in Hre. by destruct (reeval (m_sm s)).
Qed.

Lemma verify_result_life r s :
  wp (ev_verify_result port r)
     (fun _ s' => tok_of s' = tok_of s \/ tok_of s' = [] /\ refused (m_sm s) (ESPOS_SK_EV_VERIFY_RESULT r)) s.
Proof.
  unfold ev_verify_result. apply drop_stale_life; [by left..|]. intros Hre. do 2 wp_step. cbn [id].
  wp_step; [wp_step; by left|]. apply orb_false_iff in E as [Es Eb]. apply negb_false_iff in Eb.
  unfold take_result. do 3 wp_step.
  apply tok_now_spec. intros t w. do 2 wp_step. cbn [m_sm m_world m_trace].
  match goal with |- wp _ _ ?x => set (s1 := x) end.
  assert (Hk : forall m : act espos_sk_tok_sm_t W tok_obs unit, keeps tok_of m -> forall Q : tmach -> Prop, wp m (fun _ s' => tok_of s' = tok_of s \/ Q s') s1).
  { intros m Hm Q. apply wp_kept; [done|]. intros. left. done. }
  wp_step; [apply Hk; apply keeps_enter_cert_error|].
  wp_step; [apply Hk; apply keeps_bind; [done|intros _]; destruct (is_state ESPOS_SK_TOK_OPEN (m_sm s));
            [apply keeps_bind; auto using keeps_arm, keeps_notify|apply keeps_verify_ok]|].
  wp_step; [|apply Hk; apply keeps_leg_failed].
  wp_step; [apply Hk; apply keeps_bind; [apply keeps_set_error|intros _; apply keeps_do_request]|].
  eapply wp_mono; [apply refused_life|]. cbn. intros ? s3 [H3|(H3 & Hb & Ht)]; [by left|right].
  split; [done|]. split; [done|]. split; [done|]. apply orb_prop in E1. rewrite !Z.eqb_eq in E1.
  split_and!; try done.
  - unfold is_state in *. destruct (state (st (m_sm s))); try done; auto.
  - rewrite Eb in Hre. by destruct (reeval (m_sm s)).
Qed.

Lemma manual_token_life tk s :
  wp (ev_manual_token port token_cap tk)
     (fun _ s' => tok_of s' = tok_of s \/ granted token_cap (m_sm s) (ESPOS_SK_EV_MANUAL_TOKEN tk) (tok_of s')) s.
Proof.
  unfold ev_manual_token. destruct tk as [tk|]; [|wp_step; by left]. wp_step; [wp_step; by left|].
  apply orb_false_iff in E as [En Ef]. apply negb_false_iff in En, Ef. apply Nat.ltb_lt in Ef. do 4 wp_step.
  match goal with |- wp ?m _ ?x => assert (Hk : keeps tok_of m) by keeps_auto; set (s1 := x) end.
  eapply wp_mono; [apply Hk|]. cbn. intros ? s' Hs'. right. rewrite Hs'. split_and!; [by destruct tk|done|done].
Qed.

(** C2. The stored token is replaced only by an access request the server
    approved while the machine was polling it, or by an operator's; it is dropped
    only on a 401 or 403 on a request that carried it, from a server that is not
    merely a stand-in for ours, over TLS or after an earlier plaintext refusal.
    No error, certificate problem, server change, restart or retry touches it. *)
Theorem tok_token_changes_only_on_proof s ev :
  let s' := exec (espos_sk_tok_event port token_cap ev) s in
  token (store (m_sm s')) = token (store (m_sm s)) \/
  granted token_cap (m_sm s) ev (token (store (m_sm s'))) \/
  token (store (m_sm s')) = [] /\ refused (m_sm s) ev.
Proof.
  cbn zeta.
  change (wp (espos_sk_tok_event port token_cap ev)
    (fun _ s' => tok_of s' = tok_of s \/ granted token_cap (m_sm s) ev (tok_of s') \/ tok_of s' = [] /\ refused (m_sm s) ev) s).
  pose proof (keeps_quiet_event ev) as Hq.
  destruct ev; try (eapply wp_mono; [apply Hq|]; cbn; by left); clear Hq; unfold espos_sk_tok_event; do 2 wp_step.
  - eapply wp_mono; [apply (poll_result_life r _ (state (st (m_sm s)) = ESPOS_SK_TOK_REQUESTED /\ busy (st (m_sm s)) = true /\ reeval (m_sm s) = false)); done|].
    cbn. naive_solver.
  - eapply wp_mono; [apply verify_result_life|]. cbn. naive_solver.
  - eapply wp_mono; [apply manual_token_life|]. cbn. naive_solver.
  - unfold ev_unauthorized. do 3 wp_step; [|wp_step; by left]. eapply wp_mono; [apply refused_life|]. cbn.
    intros ? s' [?|(? & ? & ?)]; [by left|]. right; right. apply andb_prop in E as [Es Eb].
    apply bool_decide_eq_true in Es. apply negb_true_iff in Eb. done.
Qed.
End Life.

(** * The device *)

Section Device.
Context {W : Type} (port : espos_sk_tok_port_t W) (token_cap : nat).
Context (c0 : espos_sk_tok_cfg_t) (s0 : espos_sk_tok_store_t).
(** [token_self] of the loaded store is a terminated [char[128]]. *)
Context (self_terminated : (length (token_self s0) < ESPOS_SK_SELF_MAX)%nat).

(** C32. A started machine is never stuck: whatever events arrive, in any order,
    either an HTTP leg is out and its answer will be acted upon, or the owner's
    timer is armed and the timer event acts in this state, or there is no server
    to talk to, or a person has denied access. *)
Theorem tok_never_stuck (w : W) evs :
  ESPOS_SK_EV_STOP ∉ evs ->
  let s := tok_device port token_cap c0 s0 w (ESPOS_SK_EV_START :: evs) in
  let sm := m_sm s in
  (busy (st sm) = true /\ answer_expected sm (m_trace s)) \/
  (timer_due_ms sm <> 0 /\ timer_armed (m_trace s) = true /\ timed_state (state (st sm)) = true) \/
  resting sm.
Proof.
  intros Hs. cbn zeta. destruct (device_inv port token_cap c0 s0 w evs self_terminated Hs).
  destruct (busy (st (m_sm _))) eqn:Hb; [left; auto|right].
  destruct (ti_live0 eq_refl eq_refl) as [Hd|?]; [left|by right]. destruct (ti_timer0 eq_refl Hd). auto.
Qed.

(** The persistent store is never behind: after any events the last write
    (or what was loaded at boot, if nothing was written) is exactly the token,
    its address and the pending request the machine works with, and the status
    says whether there is a token. *)
Theorem tok_store_durable (w : W) evs :
  let s := tok_device port token_cap c0 s0 w evs in
  saved s0 (m_trace s) = store (m_sm s) /\
  has_token (st (m_sm s)) = nonempty (token (store (m_sm s))).
Proof. cbn zeta. by destruct (any_device_inv port token_cap c0 s0 w evs self_terminated). Qed.

(** The retry ladders stay in their ranges (10 s to 5 min for errors, 1 to
    10 min for a duplicate request, 5 s to 60 s for polling), and every timer the
    machine ever arms is a check interval of the operator's or between 5 s and
    11 min: the server is neither hammered nor forgotten. *)
Theorem tok_delays_bounded (w : W) evs :
  let s := tok_device port token_cap c0 s0 w evs in
  ladders_ok (m_sm s) /\ arms_ok c0 (m_trace s).
Proof. cbn zeta. by destruct (any_device_inv port token_cap c0 s0 w evs self_terminated). Qed.

End Device.

(** * Witnesses *)

Definition bench_port : espos_sk_tok_port_t Z :=
  SkTokPort Z (fun _ _ t => (tt, t)) (fun _ _ t => (tt, t)) (fun _ _ t => (tt, t)) (fun _ t => (tt, t))
    (fun _ t => (tt, t)) (fun t => (tt, t)) (fun t => (t, t + 100000)) (fun t => (t, t)) (Some (fun t => (tt, t))).
Definition bench_cfg : espos_sk_tok_cfg_t := SkTokCfg (lit "id") (lit "espOS") (lit "readwrite") 300000.
Definition bench_result (status : Z) : espos_sk_http_result_t := SkHttpResult status [] [] [] [] [] [] false [].
Definition bench_server (h : cstr) (secure : bool) : espos_sk_server_t := SkServer h 3000 secure [] false.
Definition bench_store : espos_sk_tok_store_t := store_zero <| token := lit "secret" |>.

(** A poll that is pending, then approved, then verified. *)
Definition bench_pairing : list espos_sk_tok_event_t :=
  [ ESPOS_SK_EV_SERVER (Some (bench_server (lit "boat") false));
    ESPOS_SK_EV_REQUEST_RESULT (SkHttpResult 202 (lit "PENDING") [] (lit "/requests/1") [] [] [] false []);
    ESPOS_SK_EV_TIMER;
    ESPOS_SK_EV_POLL_RESULT (SkHttpResult 200 (lit "COMPLETED") (lit "APPROVED") [] (lit "tok") [] [] false []);
    ESPOS_SK_EV_VERIFY_RESULT (bench_result 200) ].

Example pairing_works :
  let s := tok_device bench_port 1024 bench_cfg store_zero 1 (ESPOS_SK_EV_START :: bench_pairing) in
  espos_sk_tok_token (m_sm s) = lit "tok" /\ saved store_zero (m_trace s) = store (m_sm s).
Proof. by vm_compute. Qed.

Lemma tok_never_stuck_witness :
  let s := tok_device bench_port 1024 bench_cfg store_zero 1 (ESPOS_SK_EV_START :: bench_pairing) in
  state (st (m_sm s)) = ESPOS_SK_TOK_APPROVED /\
  ((busy (st (m_sm s)) = true /\ answer_expected (m_sm s) (m_trace s)) \/
   (timer_due_ms (m_sm s) <> 0 /\ timer_armed (m_trace s) = true /\ timed_state (state (st (m_sm s))) = true) \/
   resting (m_sm s)).
Proof.
  split; [by vm_compute|].
  refine (tok_never_stuck bench_port 1024 bench_cfg store_zero _ 1 bench_pairing _); [vm_compute; lia|].
  unfold bench_pairing. rewrite !not_elem_of_cons. by split_and!; try apply not_elem_of_nil.
Defined.

Lemma tok_store_durable_witness :
  let s := tok_device bench_port 1024 bench_cfg bench_store 1 (ESPOS_SK_EV_START :: bench_pairing) in
  saved bench_store (m_trace s) = store (m_sm s) /\ has_token (st (m_sm s)) = nonempty (token (store (m_sm s))).
Proof.
  refine (tok_store_durable bench_port 1024 bench_cfg bench_store _ 1 (ESPOS_SK_EV_START :: bench_pairing)). vm_compute. lia.
Defined.

Lemma tok_delays_bounded_witness :
  let s := tok_device bench_port 1024 bench_cfg store_zero 1 (ESPOS_SK_EV_START :: bench_pairing) in
  ladders_ok (m_sm s) /\ arms_ok bench_cfg (m_trace s).
Proof.
  refine (tok_delays_bounded bench_port 1024 bench_cfg store_zero _ 1 (ESPOS_SK_EV_START :: bench_pairing)). vm_compute. lia.
Defined.

(** * The count of plaintext refusals *)

Section Streak.
Context {W : Type} (port : espos_sk_tok_port_t W) (token_cap : nat).

(** A server change to a plaintext server whose token has to be checked. *)
Lemma server_change_streak v s Q :
  started (m_sm s) = true -> busy (st (m_sm s)) = false -> pending_href (store (m_sm s)) = [] ->
  nonempty (token (store (m_sm s))) = true -> token_self (store (m_sm s)) = [] -> tls v = false ->
  same_server (m_sm s) v = false ->
  (forall s', state (st (m_sm s')) = ESPOS_SK_TOK_VERIFYING -> busy (st (m_sm s')) = true ->
     reeval (m_sm s') = reeval (m_sm s) -> server (st (m_sm s')) = v ->
     plain_unauth_streak (m_sm s') = plain_unauth_streak (m_sm s) -> Q tt s') ->
  wp (espos_sk_tok_event port token_cap (ESPOS_SK_EV_SERVER (Some v))) Q s.
Proof.
  intros Hst Hb Hp Ht Hts Hv Hsame H. unfold espos_sk_tok_event, ev_server. do 4 wp_step. cbn [m_sm id]. rewrite Hsame.
  open_tok s. unfold ev_server_new, reset_backoff, set_error. tsteps; [congruence|]. subst.
  unfold evaluate, evaluate_token, token_applicable, do_verify, cancel.
  tsteps; try done; try congruence; try (match goal with E : nonempty _ && _ = false |- _ => by rewrite Ht in E end).
  apply tok_notify_spec. intros. by apply H.
Qed.

(** A refusal over plaintext with one on record is the second. *)
Lemma second_refusal_drops r s :
  state (st (m_sm s)) = ESPOS_SK_TOK_VERIFYING -> busy (st (m_sm s)) = true -> reeval (m_sm s) = false ->
  tls (server (st (m_sm s))) = false -> by_self (server (st (m_sm s))) = false -> plain_unauth_streak (m_sm s) = 1 ->
  http_status r = 401 -> cert_error r = false ->
  wp (espos_sk_tok_event port token_cap (ESPOS_SK_EV_VERIFY_RESULT r)) (fun _ s' => token (store (m_sm s')) = []) s.
Proof.
  intros Hs Hb Hre Hv Hbs Hk Hr Hc. open_tok s. subst.
  unfold espos_sk_tok_event, ev_verify_result, drop_stale, take_result, is_state. tsteps; try done. apply tok_now_spec. intros. flat.
  rewrite Hc, Hr. tsteps; try done. wp_step. unfold handle_unauthorized, unauthorized_conclusive.
  unfold clear_token, save, set_error, do_request, cancel. tsteps; try done; try congruence.
  all: by apply tok_notify_spec.
Qed.

(** The count of plaintext refusals is not reset by a change of server: with
    one refusal on record from the previous server, the very first plaintext 401
    of the next server drops the token, without the second check. *)
Theorem tok_streak_crosses_servers s v r :
  started (m_sm s) = true -> busy (st (m_sm s)) = false -> reeval (m_sm s) = false ->
  pending_href (store (m_sm s)) = [] -> nonempty (token (store (m_sm s))) = true ->
  token_self (store (m_sm s)) = [] -> plain_unauth_streak (m_sm s) = 1 ->
  same_server (m_sm s) v = false -> tls v = false -> by_self v = false ->
  http_status r = 401 -> cert_error r = false ->
  token (store (m_sm (exec (tok_run port token_cap [ESPOS_SK_EV_SERVER (Some v); ESPOS_SK_EV_VERIFY_RESULT r]) s))) = [].
Proof.
  intros Hst Hb Hre Hp Ht Hts Hk Hsame Hv Hbs Hr Hc.
  apply (proj1 (wp_exec _ (fun s' => token (store (m_sm s')) = []) s)). cbn [tok_run]. wp_step.
  apply server_change_streak; try done. intros s1 Hs1 Hb1 Hr1 Hv1 Hk1. 
  wp_step. eapply wp_mono; [apply (second_refusal_drops r s1); congruence|]. intros ? s2 Hs2. by wp_step.
Qed.

End Streak.

Lemma tok_streak_crosses_servers_witness :
  let s := tok_device bench_port 1024 bench_cfg bench_store 1
    [ESPOS_SK_EV_START; ESPOS_SK_EV_SERVER (Some (bench_server (lit "boat") false)); ESPOS_SK_EV_VERIFY_RESULT (bench_result 401)] in
  token (store (m_sm s)) = lit "secret" /\
  token (store (m_sm (exec (tok_run bench_port 1024
    [ESPOS_SK_EV_SERVER (Some (bench_server (lit "dock") false)); ESPOS_SK_EV_VERIFY_RESULT (bench_result 401)]) s))) = [].
Proof.
  split; [by vm_compute|].
  refine (tok_streak_crosses_servers bench_port 1024 _ (bench_server (lit "dock") false) (bench_result 401) _ _ _ _ _ _ _ _ _ _ _ _);
    vm_compute; reflexivity.
Defined.
