(* ===== verification/TimePolicy.v ===== *)
(** The wall clock of [espos_time]: [time_policy.c] and
    [espos_time_policy.h].

    The source ranking, the civil-calendar arithmetic and the ISO 8601
    reader and writer. The port is one function, the monotonic clock; an
    operation that calls it takes the reading as an argument. *)
From Stdlib Require Import ZArith Lia String.
From stdpp Require Import base list numbers sets.
From S2P Require Import Prelude.
Open Scope Z_scope.

(** * Sources and ranking *)

Inductive espos_time_src_t :=
  | ESPOS_TIME_SRC_NONE
  | ESPOS_TIME_SRC_RTC
  | ESPOS_TIME_SRC_SK
  | ESPOS_TIME_SRC_MANUAL
  | ESPOS_TIME_SRC_SNTP
  | ESPOS_TIME_SRC_MAX.
#[export] Instance espos_time_src_eq_dec : EqDecision espos_time_src_t.
Proof. solve_decision. Defined.

(** The enumerators' values: the ranking. *)
Definition src_val (s : espos_time_src_t) : Z :=
  match s with
  | ESPOS_TIME_SRC_NONE => 0 | ESPOS_TIME_SRC_RTC => 1 | ESPOS_TIME_SRC_SK => 2
  | ESPOS_TIME_SRC_MANUAL => 3 | ESPOS_TIME_SRC_SNTP => 4 | ESPOS_TIME_SRC_MAX => 5
  end.

Inductive time_err := TIME_OK | TIME_ERR_INVALID_ARG | TIME_ERR_INVALID_STATE.

Record espos_time_policy_t := TimePolicy {
  src : espos_time_src_t;
  epoch_at_zero_ms : Z;
  set_at_mono_ms : Z;
  prior_age_ms : Z;
  stale_after_h : Z;
  sets : Z
}.
#[export] Instance time_policy_eta : Eta espos_time_policy_t := fun r =>
  TimePolicy (src r) (epoch_at_zero_ms r) (set_at_mono_ms r) (prior_age_ms r) (stale_after_h r) (sets r).

Definition espos_time_policy_init (stale : Z) : espos_time_policy_t :=
  TimePolicy ESPOS_TIME_SRC_NONE 0 0 0 stale 0.

Definition espos_time_policy_set_aged (p : espos_time_policy_t) (mono : Z)
    (unix_ms : Z) (s : espos_time_src_t) (prior : Z) : time_err * espos_time_policy_t :=
  if (unix_ms <=? 0) || (src_val s <=? src_val ESPOS_TIME_SRC_NONE) || (src_val s >=? src_val ESPOS_TIME_SRC_MAX)
  then (TIME_ERR_INVALID_ARG, p)
  else if negb (bool_decide (src p = ESPOS_TIME_SRC_NONE)) && (src_val s <? src_val (src p))
  then (TIME_ERR_INVALID_STATE, p)
  else (TIME_OK,
        p <| epoch_at_zero_ms := unix_ms - mono |> <| set_at_mono_ms := mono |>
          <| prior_age_ms := if prior >? 0 then prior else 0 |> <| src := s |>
          <| sets := u32 (sets p + 1) |>).

Definition espos_time_policy_set (p : espos_time_policy_t) (mono unix_ms : Z) (s : espos_time_src_t) :=
  espos_time_policy_set_aged p mono unix_ms s 0.

Definition espos_time_policy_now_ms (p : espos_time_policy_t) (mono : Z) : Z :=
  if bool_decide (src p = ESPOS_TIME_SRC_NONE) then 0 else epoch_at_zero_ms p + mono.

Definition espos_time_policy_at_ms (p : espos_time_policy_t) (mono_ms : Z) : Z :=
  if bool_decide (src p = ESPOS_TIME_SRC_NONE) then 0 else epoch_at_zero_ms p + mono_ms.

Definition espos_time_policy_is_synced (p : espos_time_policy_t) (mono : Z) : bool :=
  if bool_decide (src p = ESPOS_TIME_SRC_NONE) then false
  else if bool_decide (src p = ESPOS_TIME_SRC_RTC) && (stale_after_h p >? 0) then
    let age_ms := prior_age_ms p + (mono - set_at_mono_ms p) in
    if age_ms >=? stale_after_h p * 3600 * 1000 then false else true
  else true.

(** * The civil calendar *)

(** A quotient of signed integers truncates; unsigned ones wrap. *)
Definition days_from_civil (y : Z) (m d : Z) : Z :=
  let y := y - (if m <=? 2 then 1 else 0) in
  let era := Z.quot (if y >=? 0 then y else y - 399) 400 in
  let yoe := u32 (y - era * 400) in
  let doy := u32 (u32 (153 * u32 (m + (if m >? 2 then -3 else 9)) + 2) / 5 + d - 1) in
  let doe := u32 (yoe * 365 + yoe / 4 - yoe / 100 + doy) in
  era * 146097 + doe - 719468.

(** The results are [(year, month, day)]. *)
Definition civil_from_days (z : Z) : Z * Z * Z :=
  let z := z + 719468 in
  let era := Z.quot (if z >=? 0 then z else z - 146096) 146097 in
  let doe := u32 (z - era * 146097) in
  let yoe := u32 (doe - doe / 1460 + doe / 36524 - doe / 146096) / 365 in
  let yr := yoe + era * 400 in
  let doy := u32 (doe - u32 (365 * yoe + yoe / 4 - yoe / 100)) in
  let mp := u32 (5 * doy + 2) / 153 in
  let d := u32 (doy - u32 (153 * mp + 2) / 5 + 1) in
  let m := u32 (mp + (if mp <? 10 then 3 else -9)) in
  (yr + (if m <=? 2 then 1 else 0), m, d).

(** * ISO 8601 *)

Definition ESPOS_TIME_ISO_MAX : Z := 25.

(** The text written to a buffer of [n] bytes; its length is the result. *)
Definition espos_time_iso8601_format (unix_ms : Z) (n : Z) : cstr :=
  if n <? ESPOS_TIME_ISO_MAX then []
  else if unix_ms <=? 0 then []
  else
    let secs := Z.quot unix_ms 1000 in
    let ms := Z.rem unix_ms 1000 in
    let '(ms, secs) := if ms <? 0 then (ms + 1000, secs - 1) else (ms, secs) in
    let days := Z.quot secs 86400 in
    let sod := Z.rem secs 86400 in
    let '(sod, days) := if sod <? 0 then (sod + 86400, days - 1) else (sod, days) in
    let '(y, mo, d) := civil_from_days days in
    let out := fmt_0d 4 y ++ lit "-" ++ fmt_0d 2 mo ++ lit "-" ++ fmt_0d 2 d ++ lit "T"
               ++ fmt_0d 2 (Z.quot sod 3600) ++ lit ":" ++ fmt_0d 2 (Z.rem (Z.quot sod 60) 60) ++ lit ":"
               ++ fmt_0d 2 (Z.rem sod 60) ++ lit "." ++ fmt_0d 3 ms ++ lit "Z" in
    if n <=? Z.of_nat (length out) then [] else out.

Definition is_digit (c : Z) : bool := (48 <=? c) && (c <=? 57).

(** The loop of [take_digits] after [v] has been read; the rest of the string
    is part of the result. *)
Fixpoint take_digits_loop (digits : nat) (v : Z) (s : cstr) : option (Z * cstr) :=
  match digits with
  | O => Some (v, s)
  | S k => match s with
           | c :: s' => if is_digit c then take_digits_loop k (v * 10 + (c - 48)) s' else None
           | [] => None
           end
  end.

Definition take_digits (digits : nat) (s : cstr) : option (Z * cstr) := take_digits_loop digits 0 s.

(** [*s++ != c] *)
Definition expect (c : Z) (s : cstr) : option cstr :=
  match s with x :: s' => if x =? c then Some s' else None | [] => None end.

(** The fraction: the first three digits count, the rest are skipped. *)
Fixpoint take_fraction (seen : nat) (ms : Z) (s : cstr) : Z * cstr :=
  let done_ := (ms * 10 ^ Z.of_nat (3 - seen), s) in
  match s with
  | c :: s' =>
      if is_digit c then
        if (seen <? 3)%nat then take_fraction (S seen) (ms * 10 + (c - 48)) s' else take_fraction seen ms s'
      else done_
  | [] => done_
  end.

Definition parse_fraction (s : cstr) : option (Z * cstr) :=
  match s with
  | c :: s' =>
      if (c =? 46) || (c =? 44) then
        if is_digit (byte0 s') then Some (take_fraction 0 0 s') else None
      else Some (0, s)
  | [] => Some (0, s)
  end.

(** The zone; the result is the offset in seconds. The whole string must have
    been read. *)
Definition parse_zone (s : cstr) : option Z :=
  let close (off : Z) (s : cstr) := match s with [] => Some off | _ :: _ => None end in
  match s with
  | [] => Some 0
  | c :: s' =>
      if (c =? 90) || (c =? 122) then close 0 s'
      else if (c =? 43) || (c =? 45) then
        let sign := if c =? 45 then -1 else 1 in
        '(oh, s1) ← take_digits 2 s';
        let s2 := match expect 58 s1 with Some s2 => s2 | None => s1 end in
        '(om, s3) ← take_digits 2 s2;
        close (sign * (oh * 3600 + om * 60)) s3
      else None
  end.

Definition parse_date (s : cstr) : option (Z * Z * Z * cstr) :=
  '(year, s) ← take_digits 4 s;
  s ← expect 45 s;
  '(month, s) ← take_digits 2 s;
  s ← expect 45 s;
  '(day, s) ← take_digits 2 s;
  Some (year, month, day, s).

Definition parse_time (s : cstr) : option (Z * Z * Z * cstr) :=
  '(hour, s) ← take_digits 2 s;
  s ← expect 58 s;
  '(minute, s) ← take_digits 2 s;
  s ← expect 58 s;
  '(second, s) ← take_digits 2 s;
  Some (hour, minute, second, s).

Definition parse_fields (s : cstr) : option Z :=
  '(year, month, day, s) ← parse_date s;
  s ← match s with c :: s' => if (c =? 84) || (c =? 116) || (c =? 32) then Some s' else None | [] => None end;
  '(hour, minute, second, s) ← parse_time s;
  if (month <? 1) || (month >? 12) || (day <? 1) || (day >? 31) || (hour >? 23) || (minute >? 59) || (second >? 60)
  then None
  else
    '(ms, s) ← parse_fraction s;
    offset_s ← parse_zone s;
    let days := days_from_civil year month day in
    let secs := days * 86400 + hour * 3600 + minute * 60 + second - offset_s in
    Some (secs * 1000 + ms).

Definition espos_time_iso8601_parse (s : option cstr) : Z :=
  match s with
  | None => 0
  | Some s => match parse_fields s with
              | Some ums => if ums >? 0 then ums else 0
              | None => 0
              end
  end.
