(* ===== verification/TimeProps.v ===== *)
(** Correctness of the wall clock ([TimePolicy]): which source wins, the
    calendar arithmetic, and the ISO 8601 round trip. *)
From Stdlib Require Import ZArith Lia String.
From stdpp Require Import base list numbers sets.
From S2P Require Import Prelude TimePolicy.
Open Scope Z_scope.

(** * The calendar *)

(** The Gregorian rules. *)
Definition leap (y : Z) : bool := (y mod 4 =? 0) && (negb (y mod 100 =? 0) || (y mod 400 =? 0)).
Definition month_days (y m : Z) : Z :=
  if m =? 2 then if leap y then 29 else 28
  else if (m =? 4) || (m =? 6) || (m =? 9) || (m =? 11) then 30 else 31.
Definition valid_date (y m d : Z) : Prop := 1 <= m <= 12 /\ 1 <= d <= month_days y m.

(** The day after. *)
Definition next_date (y m d : Z) : Z * Z * Z :=
  if d <? month_days y m then (y, m, d + 1)
  else if m <? 12 then (y, m + 1, 1) else (y + 1, 1, 1).

Lemma u32_small x : 0 <= x < 2 ^ 32 -> u32 x = x.
Proof. apply Z.mod_small. Qed.

Lemma leap_spec y :
  leap y = true <-> y mod 4 = 0 /\ (y mod 100 <> 0 \/ y mod 400 = 0).
Proof. unfold leap. rewrite andb_true_iff, orb_true_iff, negb_true_iff, !Z.eqb_eq, Z.eqb_neq. done. Qed.

(** The days before year [y] of an era, and the year of the era a day is in; years start in March. *)
Definition year_start (y : Z) : Z := 365 * y + y / 4 - y / 100.
Definition yoe_of (doe : Z) : Z := (doe - doe / 1460 + doe / 36524 - doe / 146096) / 365.
Definition year_days (y : Z) : Z := if leap (y + 1) then 366 else 365.

Lemma year_days_parts c q r :
  0 <= c <= 3 -> 0 <= q <= 24 -> 0 <= r <= 3 ->
  year_days (100 * c + 4 * q + r) = 366 <-> r = 3 /\ (q < 24 \/ c = 3).
Proof.
  intros. unfold year_days. destruct (leap _) eqn:El.
  - apply leap_spec in El as [E1 E2]. split; [|done]. intros _. split; [div_lia|]. destruct E2; div_lia.
  - split; [done|]. intros [-> Hq]. exfalso. apply not_true_iff_false in El. apply El, leap_spec. split; [div_lia|].
    destruct Hq as [Hq| ->]; [left|]; [div_lia|]. destruct (Z.eq_dec q 24) as [->|]; [right; done|left; div_lia].
Qed.

Lemma yoe_of_start y doy :
  0 <= y <= 399 -> 0 <= doy < year_days y -> yoe_of (year_start y + doy) = y.
Proof.
  intros Hy Hd. unfold year_start, yoe_of.
  assert (E : exists c q r, 0 <= c <= 3 /\ 0 <= q <= 24 /\ 0 <= r <= 3 /\ y = 100 * c + 4 * q + r).
  { exists (y / 100), (y mod 100 / 4), (y mod 4). div_lia. }
  destruct E as (c & q & r & Hc & Hq & Hr & ->). pose proof (year_days_parts c q r Hc Hq Hr) as Hp.
  assert (Hdoy : 0 <= doy <= 364 \/ doy = 365 /\ r = 3 /\ (q < 24 \/ c = 3)).
  { unfold year_days in *. destruct (leap _); [|lia]. destruct (Z.eq_dec doy 365); [right; by split; [|apply Hp]|lia]. }
  clear Hd Hp. assert (H4 : (100 * c + 4 * q + r) / 4 = 25 * c + q) by div_lia.
  assert (H100 : (100 * c + 4 * q + r) / 100 = c) by div_lia. rewrite H4, H100. clear H4 H100.
  set (doe := _ + doy).
  assert (Ed : doe = 36524 * c + 1461 * q + 365 * r + doy) by (subst doe; lia). clearbody doe.
  assert (c = 0 \/ c = 1 \/ c = 2 \/ c = 3) as [->|[->|[->| ->]]] by lia.
  all: assert (r = 0 \/ r = 1 \/ r = 2 \/ r = 3) as [->|[->|[->| ->]]] by lia.
  all: destruct Hdoy as [?|(-> & ? & ?)]; try lia; div_lia.
Qed.

(** Every day of an era is a day of its year. *)
Lemma yoe_of_ok doe :
  0 <= doe <= 146096 -> 0 <= yoe_of doe <= 399 /\ 0 <= doe - year_start (yoe_of doe) < year_days (yoe_of doe).
Proof.
  intros H.
  assert (E : exists c q r x, 0 <= c <= 3 /\ 0 <= q <= 24 /\ 0 <= r <= 3 /\
    doe = 36524 * c + 1461 * q + 365 * r + x /\ (0 <= x <= 364 \/ x = 365 /\ r = 3 /\ (q < 24 \/ c = 3))).
  { exists (Z.min (doe / 36524) 3). set (a := doe - 36524 * Z.min (doe / 36524) 3).
    exists (a / 1461). set (b := a mod 1461). exists (Z.min (b / 365) 3), (b - 365 * Z.min (b / 365) 3).
    subst a b. div_lia. }
  destruct E as (c & q & r & x & Hc & Hq & Hr & -> & Hx).
  assert (Hy : year_start (100 * c + 4 * q + r) = 36524 * c + 1461 * q + 365 * r) by (unfold year_start; div_lia).
  assert (Hd : 0 <= x < year_days (100 * c + 4 * q + r)).
  { pose proof (year_days_parts c q r Hc Hq Hr) as Hp. unfold year_days in *. destruct Hx as [|[-> Hx]].
    - destruct (leap _); lia. - apply Hp in Hx. lia. }
  rewrite <- Hy, yoe_of_start; [|lia|done]. split; lia.
Qed.

(** ** Months, counted from March *)

Lemma month_of_doy doy :
  0 <= doy <= 365 ->
  let mp := (5 * doy + 2) / 153 in
  0 <= mp <= 11 /\ 1 <= doy - (153 * mp + 2) / 5 + 1 <= 31.
Proof. intros H mp. subst mp. div_lia. Qed.

Lemma doy_of_month mp d :
  0 <= mp <= 11 -> 1 <= d -> d <= (153 * (mp + 1) + 2) / 5 - (153 * mp + 2) / 5 ->
  (5 * ((153 * mp + 2) / 5 + d - 1) + 2) / 153 = mp.
Proof. intros. div_lia. Qed.

Lemma quot_floor z n : 0 < n -> Z.quot (if z >=? 0 then z else z - (n - 1)) n = z / n.
Proof.
  intros Hn. destruct (Z.geb_spec z 0).
  - by apply Z.quot_div_nonneg.
  - rewrite <- (Z.opp_involutive (z - (n - 1))), Z.quot_opp_l, Z.quot_div_nonneg by lia.
    apply Z.div_unique with (r := z + n * ((- (z - (n - 1))) / n)); [left|lia].
    pose proof (Z.div_mod (- (z - (n - 1))) n ltac:(lia)). pose proof (Z.mod_pos_bound (- (z - (n - 1))) n Hn). lia.
Qed.

(** The two functions without the machine arithmetic. *)
Lemma days_closed y m d :
  1 <= m <= 12 -> 1 <= d <= 31 ->
  let y' := if m <=? 2 then y - 1 else y in
  let mp := if m >? 2 then m - 3 else m + 9 in
  days_from_civil y m d = y' / 400 * 146097 + (year_start (y' mod 400) + ((153 * mp + 2) / 5 + d - 1)) - 719468.
Proof.
  intros Hm Hd y' mp. unfold days_from_civil.
  replace (y - (if m <=? 2 then 1 else 0)) with y' by (subst y'; destruct (m <=? 2); lia).
  pose proof (quot_floor y' 400 ltac:(lia)) as Hq. change (400 - 1) with 399 in Hq. cbv zeta. rewrite Hq.
  replace (y' - y' / 400 * 400) with (y' mod 400) by div_lia.
  assert (Hy : 0 <= y' mod 400 <= 399) by div_lia. rewrite (u32_small (y' mod 400)) by lia.
  assert (Emp : u32 (m + (if m >? 2 then -3 else 9)) = mp).
  { subst mp. destruct (Z.gtb_spec m 2); rewrite u32_small; lia. }
  assert (Hmp : 0 <= mp <= 11) by (subst mp; destruct (Z.gtb_spec m 2); lia).
  rewrite Emp, (u32_small (153 * mp + 2)) by lia. rewrite (u32_small (_ + d - 1)) by div_lia.
  unfold year_start. rewrite u32_small; [lia|]. revert Hy. generalize (y' mod 400). intros. div_lia.
Qed.

Lemma civil_closed z :
  let doe := (z + 719468) mod 146097 in
  let yoe := yoe_of doe in
  let mp := (5 * (doe - year_start yoe) + 2) / 153 in
  let m := if mp <? 10 then mp + 3 else mp - 9 in
  civil_from_days z =
    ((z + 719468) / 146097 * 400 + yoe + (if m <=? 2 then 1 else 0), m, doe - year_start yoe - (153 * mp + 2) / 5 + 1).
Proof.
  intros doe yoe mp m. unfold civil_from_days.
  pose proof (quot_floor (z + 719468) 146097 ltac:(lia)) as Hq.
  change (146097 - 1) with 146096 in Hq. cbv zeta. rewrite Hq.
  replace (z + 719468 - (z + 719468) / 146097 * 146097) with doe by (subst doe; div_lia).
  assert (Hdoe : 0 <= doe <= 146096) by (subst doe; div_lia). rewrite (u32_small doe) by lia.
  rewrite (u32_small (doe - doe / 1460 + doe / 36524 - doe / 146096)) by div_lia. fold (yoe_of doe). fold yoe.
  destruct (yoe_of_ok doe Hdoe) as [Hy Hd]. fold yoe in Hy, Hd.
  assert (Hyd : 365 <= year_days yoe <= 366) by (unfold year_days; destruct (leap _); lia).
  fold (year_start yoe). assert (Hs : 0 <= year_start yoe <= 146000) by (unfold year_start; div_lia).
  rewrite (u32_small (year_start yoe)) by lia. rewrite (u32_small (doe - _)) by lia.
  pose proof (month_of_doy (doe - year_start yoe) ltac:(lia)) as [Hmp Hday].
  rewrite (u32_small (5 * _ + 2)) by lia. fold mp in Hmp, Hday |- *.
  rewrite (u32_small (153 * mp + 2)) by lia. rewrite (u32_small (_ - _ + 1)) by lia.
  assert (Em : u32 (mp + (if mp <? 10 then 3 else -9)) = m).
  { subst m. destruct (Z.ltb_spec mp 10); rewrite u32_small; lia. }
  rewrite Em. f_equal. f_equal. lia.
Qed.

(** The length of a month, by the position of the months in a year that
    starts in March. *)
Lemma month_days_gap y m d :
  1 <= m <= 12 -> 1 <= d <= month_days y m ->
  let mp := if m >? 2 then m - 3 else m + 9 in
  d <= 31 /\ d <= (153 * (mp + 1) + 2) / 5 - (153 * mp + 2) / 5 /\
  (mp <= 10 -> (153 * mp + 2) / 5 + d - 1 < 337) /\ (mp = 11 -> m = 2).
Proof.
  intros Hm Hd mp. unfold month_days in Hd. subst mp.
  assert (m = 1 \/ m = 2 \/ m = 3 \/ m = 4 \/ m = 5 \/ m = 6 \/ m = 7 \/ m = 8 \/ m = 9 \/ m = 10 \/ m = 11 \/ m = 12) as Hc by lia.
  destruct (leap y); repeat (destruct Hc as [->|Hc]; [repeat case_match; div_lia|]); subst; repeat case_match; div_lia.
Qed.

Lemma month_days_of_doy y doy :
  0 <= doy < year_days y ->
  let mp := (5 * doy + 2) / 153 in
  let m := if mp <? 10 then mp + 3 else mp - 9 in
  1 <= m <= 12 /\ 1 <= doy - (153 * mp + 2) / 5 + 1 <= month_days (y + (if m <=? 2 then 1 else 0)) m.
Proof.
  intros Hd mp m. assert (Hy : 365 <= year_days y <= 366) by (unfold year_days; destruct (leap _); lia).
  assert (Hmp : 0 <= mp <= 11) by (subst mp; div_lia).
  assert (Hday : 153 * mp <= 5 * doy + 2 < 153 * mp + 153) by (subst mp; div_lia). clearbody mp.
  assert (mp = 0 \/ mp = 1 \/ mp = 2 \/ mp = 3 \/ mp = 4 \/ mp = 5 \/ mp = 6 \/ mp = 7 \/ mp = 8 \/ mp = 9 \/ mp = 10 \/ mp = 11) as Hc by lia.
  subst m. unfold month_days, year_days in *.
  destruct (leap (y + 1)) eqn:El; repeat (destruct Hc as [->|Hc]; [repeat case_match; div_lia|]); subst.
  all: change (11 <? 10) with false; cbv iota; change (11 - 9) with 2; change (2 <=? 2) with true; cbv iota; rewrite El.
  all: cbn [Z.eqb Pos.eqb orb]; div_lia.
Qed.

Lemma leap_period y k : leap (y + 400 * k) = leap y.
Proof.
  unfold leap. assert ((y + 400 * k) mod 4 = y mod 4) as -> by div_lia.
  assert ((y + 400 * k) mod 100 = y mod 100) as -> by div_lia.
  by assert ((y + 400 * k) mod 400 = y mod 400) as -> by div_lia.
Qed.

Lemma month_days_period y k m : month_days (y + 400 * k) m = month_days y m.
Proof. unfold month_days. by rewrite leap_period. Qed.

Lemma civil_days z :
  let '(y, m, d) := civil_from_days z in valid_date y m d /\ days_from_civil y m d = z.
Proof.
  pose proof (civil_closed z) as E. cbv zeta in E. rewrite E. clear E.
  set (doe := (z + 719468) mod 146097). assert (Hdoe : 0 <= doe <= 146096) by (subst doe; div_lia).
  destruct (yoe_of_ok doe Hdoe) as [Hy Hd]. set (yoe := yoe_of doe) in *. set (doy := doe - year_start yoe) in *.
  pose proof (month_days_of_doy yoe doy Hd) as Hm. cbv zeta in Hm.
  set (mp := (5 * doy + 2) / 153) in *. set (m := if mp <? 10 then mp + 3 else mp - 9) in *.
  set (era := (z + 719468) / 146097). assert (Hz : z = era * 146097 + doe - 719468) by (subst era doe; div_lia).
  assert (Hv : valid_date (era * 400 + yoe + (if m <=? 2 then 1 else 0)) m (doy - (153 * mp + 2) / 5 + 1)).
  { split; [lia|]. replace (era * 400 + yoe + _) with (yoe + (if m <=? 2 then 1 else 0) + 400 * era) by lia.
    rewrite month_days_period. lia. }
  split; [done|]. destruct Hv as [Hm1 Hd1]. destruct (month_days_gap _ _ _ Hm1 Hd1) as [Hd31 _].
  rewrite days_closed by lia. cbv zeta.
  assert (Hmp : 0 <= mp <= 11) by (subst mp; assert (0 <= doy <= 365) by (unfold year_days in Hd; destruct (leap _); lia); div_lia).
  assert ((if m >? 2 then m - 3 else m + 9) = mp) as ->.
  { subst m. destruct (Z.ltb_spec mp 10); [destruct (Z.gtb_spec (mp + 3) 2)|destruct (Z.gtb_spec (mp - 9) 2)]; lia. }
  assert ((if m <=? 2 then era * 400 + yoe + (if m <=? 2 then 1 else 0) - 1 else era * 400 + yoe + (if m <=? 2 then 1 else 0))
    = era * 400 + yoe) as -> by (destruct (m <=? 2); lia).
  assert ((era * 400 + yoe) / 400 = era) as -> by div_lia. assert ((era * 400 + yoe) mod 400 = yoe) as -> by div_lia.
  subst doy. lia.
Qed.

(** Every day number, before and after 1970, is a valid Gregorian date of
    [civil_from_days], and [days_from_civil] of that date is the day number. *)
Theorem civil_from_days_valid z :
  let '(y, m, d) := civil_from_days z in valid_date y m d /\ days_from_civil y m d = z.
Proof. apply civil_days. Qed.

(** Conversely every valid Gregorian date survives the way to a day number
    and back. *)
Lemma days_from_civil_inverse y m d :
  valid_date y m d -> civil_from_days (days_from_civil y m d) = (y, m, d).
Proof.
  intros [Hm Hd]. destruct (month_days_gap _ _ _ Hm Hd) as (Hd31 & Hgap & H10 & H11). cbv zeta in *.
  rewrite days_closed by lia. cbv zeta. rewrite (civil_closed _). cbv zeta.
  set (y' := if m <=? 2 then y - 1 else y) in *. set (mp := if m >? 2 then m - 3 else m + 9) in *.
  assert (Hmp : 0 <= mp <= 11) by (subst mp; destruct (Z.gtb_spec m 2); lia).
  set (doy := (153 * mp + 2) / 5 + d - 1) in *.
  assert (Hdoy : 0 <= doy < year_days (y' mod 400)).
  { split; [subst doy; div_lia|]. assert (365 <= year_days (y' mod 400)) by (unfold year_days; destruct (leap _); lia).
    destruct (Z.eq_dec mp 11) as [E|]; [|lia]. specialize (H11 E). unfold year_days.
    assert (leap (y' mod 400 + 1) = leap y) as ->.
    { replace (y' mod 400 + 1) with (y + 400 * - (y' / 400)) by (subst y'; rewrite H11; cbn; div_lia). apply leap_period. }
    subst doy. rewrite E. unfold month_days in Hd. rewrite H11 in Hd.
    cbn [Z.eqb Pos.eqb] in Hd. destruct (leap y); div_lia. }
  assert (Hy : 0 <= y' mod 400 <= 399) by div_lia.
  assert (Hs : 0 <= year_start (y' mod 400) + doy <= 146096).
  { revert Hy Hdoy. generalize (y' mod 400). intros Y ? [? Hlt]. split; [unfold year_start; div_lia|].
    pose proof (year_days_parts (Y / 100) (Y mod 100 / 4) (Y mod 4)) as Hp.
    assert (doy <= 365) by (unfold year_days in Hlt; destruct (leap _); lia).
    unfold year_start. div_lia. }
  set (doe := year_start (y' mod 400) + doy) in *.
  assert ((y' / 400 * 146097 + doe - 719468 + 719468) mod 146097 = doe) as -> by div_lia.
  assert ((y' / 400 * 146097 + doe - 719468 + 719468) / 146097 = y' / 400) as -> by div_lia.
  assert (yoe_of doe = y' mod 400) as -> by (by apply yoe_of_start).
  assert (doe - year_start (y' mod 400) = doy) as -> by (subst doe; lia).
  assert ((5 * doy + 2) / 153 = mp) as -> by (apply doy_of_month; lia).
  assert ((if mp <? 10 then mp + 3 else mp - 9) = m) as ->.
  { subst mp. destruct (Z.gtb_spec m 2); [destruct (Z.ltb_spec (m - 3) 10)|destruct (Z.ltb_spec (m + 9) 10)]; lia. }
  f_equal; [f_equal|subst doy; lia]. subst y'. destruct (m <=? 2); div_lia.
Qed.

(** The days before a year, across eras, grow by the length of the year. *)
Definition era_days (y : Z) : Z := y / 400 * 146097 + year_start (y mod 400).

Lemma era_days_step y : era_days (y + 1) = era_days y + (if leap (y + 1) then 366 else 365).
Proof.
  unfold era_days, year_start. destruct (leap (y + 1)) eqn:El.
  - apply leap_spec in El as [E1 E2]. destruct E2; div_lia.
  - apply not_true_iff_false in El. rewrite leap_spec in El.
    assert (E : (y + 1) mod 4 <> 0 \/ (y + 1) mod 100 = 0 /\ (y + 1) mod 400 <> 0) by lia.
    clear El. destruct E; div_lia.
Qed.

Lemma days_era y m d :
  1 <= m <= 12 -> 1 <= d <= 31 ->
  days_from_civil y m d =
    era_days (if m <=? 2 then y - 1 else y) + ((153 * (if m >? 2 then m - 3 else m + 9) + 2) / 5 + d - 1) - 719468.
Proof. intros. rewrite days_closed by lia. cbv zeta. unfold era_days. lia. Qed.

Lemma month_roll y m :
  1 <= m <= 11 -> days_from_civil y (m + 1) 1 = days_from_civil y m (month_days y m) + 1.
Proof.
  intros Hm. assert (1 <= month_days y m <= 31) by (unfold month_days; repeat case_match; lia).
  rewrite !days_era by lia. pose proof (era_days_step (y - 1)) as Hy. replace (y - 1 + 1) with y in Hy by lia.
  unfold month_days.
  assert (m = 1 \/ m = 2 \/ m = 3 \/ m = 4 \/ m = 5 \/ m = 6 \/ m = 7 \/ m = 8 \/ m = 9 \/ m = 10 \/ m = 11) as Hc by lia.
  repeat (destruct Hc as [->|Hc]; [repeat (case_match; try lia); div_lia|]). subst. repeat (case_match; try lia); div_lia.
Qed.

(** [days_from_civil] counts days: 1970-01-01 is day 0, and the Gregorian
    successor of any valid date is one day later. *)
Theorem days_from_civil_counts y m d :
  valid_date y m d ->
  days_from_civil 1970 1 1 = 0 /\
  let '(y', m', d') := next_date y m d in days_from_civil y' m' d' = days_from_civil y m d + 1.
Proof.
  intros [Hm Hd]. split; [done|]. destruct (month_days_gap _ _ _ Hm Hd) as (Hd31 & _). unfold next_date.
  destruct (Z.ltb_spec d (month_days y m)) as [Hlt|Hge].
  { destruct (month_days_gap y m (d + 1) Hm ltac:(lia)) as (Hd32 & _). rewrite !days_era by lia. lia. }
  assert (d = month_days y m) as -> by lia. destruct (Z.ltb_spec m 12); [apply month_roll; lia|].
  assert (m = 12) as -> by lia. unfold month_days in *. rewrite !days_era by (repeat case_match; lia).
  replace (y + 1 - 1) with y by lia. repeat case_match; div_lia.
Qed.

(** * ISO 8601 *)

Lemma take_digits_split j k v s :
  take_digits_loop (j + k) v s = '(v', s') ← take_digits_loop j v s; take_digits_loop k v' s'.
Proof.
  revert v s. induction j as [|j IH]; intros v s; [done|]. destruct s as [|c s]; [done|]. cbn [Nat.add take_digits_loop].
  by destruct (is_digit c).
Qed.

Lemma take_digits_fixed_loop w v n rest :
  0 <= n < 10 ^ Z.of_nat w -> take_digits_loop w v (dec_fixed w n ++ rest) = Some (v * 10 ^ Z.of_nat w + n, rest).
Proof.
  revert n rest. induction w as [|w IH]; intros n rest Hn.
  - cbn in *. f_equal. f_equal. lia.
  - rewrite Nat2Z.inj_succ, Z.pow_succ_r in * by lia. replace (S w) with (w + 1)%nat by lia. rewrite take_digits_split.
    replace (w + 1)%nat with (S w) by lia. cbn [dec_fixed]. rewrite <- app_assoc, IH.
    + cbn [mbind option_bind take_digits_loop app]. assert (Hd : 0 <= n mod 10 < 10) by (apply Z.mod_pos_bound; lia).
      unfold is_digit. destruct (Z.leb_spec 48 (48 + n mod 10)), (Z.leb_spec (48 + n mod 10) 57); try lia. cbn [andb].
      f_equal. f_equal. pose proof (Z.div_mod n 10 ltac:(lia)). nia.
    + revert Hn. generalize (10 ^ Z.of_nat w). intros. div_lia.
Qed.

(** Reading back a number of fixed width. *)
Lemma take_digits_fixed w n rest :
  0 <= n < 10 ^ Z.of_nat w -> take_digits w (dec_fixed w n ++ rest) = Some (n, rest).
Proof. intros. unfold take_digits. rewrite take_digits_fixed_loop by done. f_equal. Qed.

Lemma expect_hit c s : expect c (c :: s) = Some s.
Proof. unfold expect. by rewrite Z.eqb_refl. Qed.

Lemma take_fraction_ms n : 0 <= n < 1000 -> parse_fraction (46 :: dec_fixed 3 n ++ [90]) = Some (n, [90]).
Proof.
  intros Hn. unfold parse_fraction. change ((46 =? 46) || (46 =? 44)) with true. cbv iota. cbn [dec_fixed app byte0].
  set (a := n / 10 / 10 mod 10). set (b := n / 10 mod 10). set (c := n mod 10).
  assert (0 <= a <= 9 /\ 0 <= b <= 9 /\ 0 <= c <= 9 /\ n = 100 * a + 10 * b + c) as (? & ? & ? & Hval) by (subst a b c; div_lia).
  clearbody a b c. cbn [take_fraction].
  assert (Hdig : forall x, 0 <= x <= 9 -> is_digit (48 + x) = true).
  { intros. unfold is_digit. apply andb_true_intro. lia. }
  rewrite !Hdig by done. change (is_digit 90) with false. cbn [Nat.ltb Nat.leb]. cbv iota. f_equal. f_equal.
  cbn [Nat.sub]. lia.
Qed.

(** The instants up to the end of 9999 are in years of four digits. *)
Lemma year_range y m d : valid_date y m d -> 0 <= days_from_civil y m d < 2932897 -> 0 <= y <= 9999.
Proof.
  intros [Hm Hd] Hz. destruct (month_days_gap _ _ _ Hm Hd) as (Hd31 & _). rewrite days_era in Hz by lia.
  unfold era_days, year_start in Hz. destruct (Z.leb_spec m 2), (Z.gtb_spec m 2); try lia; div_lia.
Qed.

(** What the writer puts in the buffer: the fields of the instant, each of its
    fixed width, for every instant up to the end of the year 9999. *)
Lemma format_fields t n :
  0 < t < 253402300800000 -> ESPOS_TIME_ISO_MAX <= n ->
  exists y m d,
    valid_date y m d /\ 0 <= y <= 9999 /\ days_from_civil y m d = t / 86400000 /\
    let sod := t / 1000 mod 86400 in
    espos_time_iso8601_format t n =
      dec_fixed 4 y ++ [45] ++ dec_fixed 2 m ++ [45] ++ dec_fixed 2 d ++ [84] ++ dec_fixed 2 (sod / 3600) ++ [58] ++
      dec_fixed 2 (sod / 60 mod 60) ++ [58] ++ dec_fixed 2 (sod mod 60) ++ [46] ++ dec_fixed 3 (t mod 1000) ++ [90].
Proof.
  intros Ht Hn. pose proof (civil_days (t / 86400000)) as Hc.
  destruct (civil_from_days (t / 86400000)) as [[y m] d] eqn:Ec. destruct Hc as [Hv Hd].
  exists y, m, d. pose proof (year_range y m d Hv ltac:(rewrite Hd; div_lia)) as Hy. split_and!; [done|lia|lia|done|].
  cbv zeta. unfold espos_time_iso8601_format.
  destruct (Z.ltb_spec n ESPOS_TIME_ISO_MAX); [lia|]. destruct (Z.leb_spec t 0); [lia|].
  rewrite (Z.quot_div_nonneg t 1000), (Z.rem_mod_nonneg t 1000) by lia.
  destruct (Z.ltb_spec (t mod 1000) 0); [div_lia|]. set (secs := t / 1000). assert (Hs : 0 <= secs) by (subst secs; div_lia).
  rewrite (Z.quot_div_nonneg secs 86400), (Z.rem_mod_nonneg secs 86400) by lia.
  destruct (Z.ltb_spec (secs mod 86400) 0); [div_lia|].
  assert (secs / 86400 = t / 86400000) as -> by (subst secs; rewrite Z.div_div by lia; done). rewrite Ec.
  set (sod := secs mod 86400). assert (Hsod : 0 <= sod < 86400) by (subst sod; div_lia). clearbody sod.
  rewrite (Z.quot_div_nonneg sod 3600), (Z.quot_div_nonneg sod 60), (Z.rem_mod_nonneg sod 60) by lia.
  rewrite (Z.rem_mod_nonneg (sod / 60) 60) by div_lia.
  assert (Hmd : 0 <= m < 100 /\ 0 <= d < 100).
  { destruct Hv as [? Hd']. destruct (month_days_gap _ _ _ ltac:(done) Hd') as (? & _). lia. }
  rewrite !fmt_0d_fixed by (first [lia|cbn; div_lia]). cbv zeta.
  change (lit "-") with [45]. change (lit "T") with [84]. change (lit ":") with [58]. change (lit ".") with [46]. change (lit "Z") with [90].
  rewrite !length_app, !length_dec_fixed. cbn [length Nat.add].
  change (Z.of_nat 24) with 24. unfold ESPOS_TIME_ISO_MAX in *. by destruct (Z.leb_spec n 24); [lia|].
Qed.

(** Whatever the writer writes, the reader reads back, to the millisecond,
    for every instant from 1970 to the end of the year 9999; and the text always
    fits the documented buffer, 24 characters and the terminator. *)
Theorem iso8601_round_trip t n :
  0 < t < 253402300800000 -> ESPOS_TIME_ISO_MAX <= n ->
  espos_time_iso8601_parse (Some (espos_time_iso8601_format t n)) = t /\
  length (espos_time_iso8601_format t n) = 24%nat.
Proof.
  intros Ht Hn. destruct (format_fields t n Ht Hn) as (y & m & d & Hv & Hy & Hd & ->).
  split; [|by rewrite !length_app, !length_dec_fixed].
  destruct Hv as [Hm Hdd]. destruct (month_days_gap _ _ _ Hm Hdd) as (Hd31 & _).
  set (sod := t / 1000 mod 86400). assert (Hsod : 0 <= sod < 86400) by (subst sod; div_lia).
  unfold espos_time_iso8601_parse, parse_fields, parse_date, parse_time. cbn [app].
  do 3 (rewrite take_digits_fixed by (cbn; lia); cbn [mbind option_bind]; rewrite ?expect_hit; cbn [mbind option_bind]).
  change ((84 =? 84) || (84 =? 116) || (84 =? 32)) with true. cbv iota. cbn [mbind option_bind].
  do 3 (rewrite take_digits_fixed by (cbn; div_lia); cbn [mbind option_bind]; rewrite ?expect_hit; cbn [mbind option_bind]).
  assert (E : (m <? 1) || (m >? 12) || (d <? 1) || (d >? 31) || (sod / 3600 >? 23) || (sod / 60 mod 60 >? 59) || (sod mod 60 >? 60) = false)
    by (repeat (apply orb_false_intro); div_lia).
  rewrite E, take_fraction_ms by div_lia. cbn [mbind option_bind].
  change (parse_zone [90]) with (Some 0). cbn [mbind option_bind]. rewrite Hd.
  match goal with |- (if ?x >? 0 then _ else _) = _ => assert (x = t) as -> end; [|by destruct (Z.gtb_spec t 0); [|lia]].
  subst sod. div_lia.
Qed.

Lemma iso8601_round_trip_witness :
  espos_time_iso8601_parse (Some (espos_time_iso8601_format 1757239933456 25)) = 1757239933456.
Proof. refine (proj1 (iso8601_round_trip 1757239933456 25 _ _)); vm_compute; [split; reflexivity|discriminate]. Defined.

Lemma days_from_civil_counts_witness : days_from_civil 2024 3 1 = days_from_civil 2024 2 29 + 1.
Proof. refine (proj2 (days_from_civil_counts 2024 2 29 _)). split; split; vm_compute; discriminate. Defined.

(** * Which source wins *)

(** An offer of the time by a source, at a reading of the monotonic clock. *)
Record offer := Offer { o_mono : Z; o_unix : Z; o_src : espos_time_src_t; o_prior : Z }.

Definition offer_valid (o : offer) : bool :=
  (0 <? o_unix o) && (0 <? src_val (o_src o)) && (src_val (o_src o) <? 5).

Definition take_offer (p : espos_time_policy_t) (o : offer) : espos_time_policy_t :=
  (espos_time_policy_set_aged p (o_mono o) (o_unix o) (o_src o) (o_prior o)).2.

Definition clock_after (stale : Z) (os : list offer) : espos_time_policy_t :=
  foldl take_offer (espos_time_policy_init stale) os.

(** [o] is the offer that counts: no valid one before it outranks it, and every
    valid one after it is outranked. *)
Definition wins (o : offer) (os : list offer) : Prop :=
  exists before after, os = before ++ o :: after /\ offer_valid o = true /\
    (forall b, b ∈ before -> offer_valid b = true -> src_val (o_src b) <= src_val (o_src o)) /\
    (forall a, a ∈ after -> offer_valid a = true -> src_val (o_src a) < src_val (o_src o)).

(** The clock that an offer sets. *)
Definition clock_of (o : offer) (p : espos_time_policy_t) : Prop :=
  src p = o_src o /\ epoch_at_zero_ms p = o_unix o - o_mono o /\ set_at_mono_ms p = o_mono o /\
  prior_age_ms p = Z.max 0 (o_prior o).

Lemma src_val_none s : src_val s = 0 <-> s = ESPOS_TIME_SRC_NONE.
Proof. by destruct s. Qed.

Lemma take_offer_spec p o :
  take_offer p o =
    if offer_valid o && (src_val (src p) <=? src_val (o_src o))
    then TimePolicy (o_src o) (o_unix o - o_mono o) (o_mono o) (Z.max 0 (o_prior o)) (stale_after_h p) (u32 (sets p + 1))
    else p.
Proof.
  unfold take_offer, espos_time_policy_set_aged, offer_valid.
  destruct (Z.leb_spec (o_unix o) 0), (Z.ltb_spec 0 (o_unix o)); try lia; [done|]. cbn [orb andb src_val].
  destruct (Z.leb_spec (src_val (o_src o)) 0), (Z.ltb_spec 0 (src_val (o_src o))); try lia; [done|]. cbn [orb andb].
  rewrite Z.geb_leb. destruct (Z.leb_spec 5 (src_val (o_src o))), (Z.ltb_spec (src_val (o_src o)) 5); try lia; [done|]. cbn [andb].
  pose proof (src_val_none (src p)) as Hn.
  destruct (Z.leb_spec (src_val (src p)) (src_val (o_src o))), (Z.ltb_spec (src_val (o_src o)) (src_val (src p))); try lia.
  - rewrite andb_false_r. destruct (Z.gtb_spec (o_prior o) 0); cbn; f_equal; lia.
  - rewrite bool_decide_eq_false_2 by (intros E; apply Hn in E; lia). done.
Qed.

Lemma clock_stale stale os : stale_after_h (clock_after stale os) = stale.
Proof.
  unfold clock_after. induction os as [|o os IH] using rev_ind; [done|]. rewrite foldl_app. cbn [foldl].
  rewrite take_offer_spec. by case_match.
Qed.

(** Either no offer counts, or exactly the winner set the clock. *)
Lemma clock_wins stale os :
  (src (clock_after stale os) = ESPOS_TIME_SRC_NONE /\ forall o, o ∈ os -> offer_valid o = false) \/
  exists o, wins o os /\ clock_of o (clock_after stale os).
Proof.
  induction os as [|o os IH] using rev_ind.
  { left. split; [done|]. intros o Ho. by apply not_elem_of_nil in Ho. }
  unfold clock_after. rewrite foldl_app. cbn [foldl]. fold (clock_after stale os). rewrite take_offer_spec.
  destruct (offer_valid o) eqn:Ev; cbn [andb].
  - destruct (Z.leb_spec (src_val (src (clock_after stale os))) (src_val (o_src o))) as [Hle|Hlt].
    + right. exists o. split; [|done]. exists os, []. split_and!; [done|done| |].
      * intros b Hb Hvb. destruct IH as [[_ IH]|(w & (bs & as' & -> & Hw & Hbs & Has) & Hc & _)].
        -- by rewrite (IH b Hb) in Hvb.
        -- rewrite Hc in Hle. apply elem_of_app in Hb as [Hb|Hb]; [specialize (Hbs b Hb Hvb); lia|].
           apply elem_of_cons in Hb as [->|Hb]; [lia|]. specialize (Has b Hb Hvb). lia.
      * intros a Ha. by apply not_elem_of_nil in Ha.
    + right. destruct IH as [[E _]|(w & (bs & as' & -> & Hw & Hbs & Has) & Hc)].
      { rewrite E in Hlt. unfold offer_valid in Ev. cbn in Hlt. destruct (o_src o); cbn in Hlt; lia. }
      exists w. split; [|done]. exists bs, (as' ++ [o]). split_and!; [by rewrite <- app_assoc|done|done|].
      intros a Ha Hva. apply elem_of_app in Ha as [Ha|Ha]; [by apply Has|]. apply list_elem_of_singleton in Ha as ->.
      destruct Hc as [Hs _]. rewrite Hs in Hlt. done.
  - destruct IH as [[E Hn]|(w & (bs & as' & -> & Hw & Hbs & Has) & Hc)].
    + left. split; [done|]. intros a Ha. apply elem_of_app in Ha as [Ha|Ha]; [by apply Hn|]. by apply list_elem_of_singleton in Ha as ->.
    + right. exists w. split; [|done]. exists bs, (as' ++ [o]). split_and!; [by rewrite <- app_assoc|done|done|].
      intros a Ha Hva. apply elem_of_app in Ha as [Ha|Ha]; [by apply Has|]. apply list_elem_of_singleton in Ha as ->. congruence.
Qed.

(** C34. The clock follows the best source: after any sequence of offers it reads
    0 and is not synchronised if none was valid, and otherwise it is the clock of
    the last valid offer of the highest-ranked source that ever made one -- a lower
    source never overrides a higher one, a source always refreshes itself -- running
    on from that instant, and synchronised unless it is an RTC value whose whole age,
    the deep sleep included, has reached the limit. *)
Theorem time_best_source_wins stale os mono :
  let p := clock_after stale os in
  (espos_time_policy_now_ms p mono = 0 /\ espos_time_policy_is_synced p mono = false /\
   forall o, o ∈ os -> offer_valid o = false) \/
  exists o, wins o os /\
    espos_time_policy_now_ms p mono = o_unix o + (mono - o_mono o) /\
    espos_time_policy_at_ms p mono = o_unix o + (mono - o_mono o) /\
    (espos_time_policy_is_synced p mono = false <->
     o_src o = ESPOS_TIME_SRC_RTC /\ 0 < stale /\ stale * 3600000 <= Z.max 0 (o_prior o) + (mono - o_mono o)).
Proof.
  cbv zeta. destruct (clock_wins stale os) as [[E Hn]|(o & Hw & Hs & He & Hm & Hp)].
  { left. unfold espos_time_policy_now_ms, espos_time_policy_is_synced. by rewrite E. }
  right. exists o. split; [done|].
  assert (Hne : o_src o <> ESPOS_TIME_SRC_NONE).
  { destruct Hw as (? & ? & _ & Hv & _). unfold offer_valid in Hv. intros E. rewrite E, andb_false_r in Hv. done. }
  unfold espos_time_policy_now_ms, espos_time_policy_at_ms, espos_time_policy_is_synced.
  rewrite Hs, He, Hm, Hp, clock_stale, bool_decide_eq_false_2 by done. split_and!; [lia|lia|].
  case_bool_decide as Er; cbn [andb]; [|naive_solver].
  destruct (Z.gtb_spec stale 0); [|naive_solver lia]. rewrite Z.geb_leb.
  destruct (Z.leb_spec (stale * 3600 * 1000) (Z.max 0 (o_prior o) + (mono - o_mono o))); naive_solver lia.
Qed.
