(* ===== verification/AuthPolicy.v ===== *)
(** The authentication policy of [espos_httpd]: [auth_policy.c] and
    [espos_httpd_auth_policy.h].

    Sessions, the failure throttle, the recovery window and the decision on a
    request. Each operation that reads the port's clock takes the reading as
    an argument, one argument per read in the order of the code; [session_open]
    takes its random words the same way. The session table is a list of slots. *)
From Stdlib Require Import ZArith Lia String.
From stdpp Require Import base list numbers sets.
From S2P Require Import Prelude.
Open Scope Z_scope.

(** * Data *)

Definition ESPOS_HTTPD_AUTH_KEY_MAX : nat := 64.
Definition ESPOS_HTTPD_AUTH_SID_LEN : nat := 32.
Definition ESPOS_HTTPD_AUTH_FAIL_MAX : Z := 5.
Definition ESPOS_HTTPD_AUTH_FAIL_WINDOW_S : Z := 60.
Definition ESPOS_HTTPD_AUTH_LOCKOUT_S : Z := 30.
Definition ESPOS_HTTPD_AUTH_RECOVERY_MAX_S : Z := 86400.

Inductive espos_httpd_auth_method_t :=
  | ESPOS_HTTPD_AUTH_NONE
  | ESPOS_HTTPD_AUTH_BEARER
  | ESPOS_HTTPD_AUTH_COOKIE
  | ESPOS_HTTPD_AUTH_PORTAL.

Inductive espos_httpd_auth_verdict_t :=
  | ESPOS_HTTPD_AUTH_ALLOW
  | ESPOS_HTTPD_AUTH_UNAUTHORIZED
  | ESPOS_HTTPD_AUTH_FORBIDDEN_ORIGIN
  | ESPOS_HTTPD_AUTH_UNCONFIGURED
  | ESPOS_HTTPD_AUTH_THROTTLED.
#[export] Instance auth_verdict_eq_dec : EqDecision espos_httpd_auth_verdict_t.
Proof. solve_decision. Defined.

Record espos_httpd_auth_session_t := AuthSession {
  sess_id : cstr;
  expires_s : Z;
  last_seen_s : Z;
  used : bool
}.
#[export] Instance auth_session_eta : Eta espos_httpd_auth_session_t := fun r =>
  AuthSession (sess_id r) (expires_s r) (last_seen_s r) (used r).
Definition session_zero : espos_httpd_auth_session_t := AuthSession [] 0 0 false.

Record espos_httpd_auth_request_t := AuthRequest {
  bearer : option cstr;
  cookie_sid : option cstr;
  rq_host : option cstr;
  origin : option cstr;
  state_changing : bool;
  from_portal : bool
}.

Record espos_httpd_auth_policy_t := AuthPolicy {
  sessions : list espos_httpd_auth_session_t;
  ttl_s : Z;
  require_key : bool;
  key : cstr;
  fail_count : Z;
  fail_first_s : Z;
  lockout_until_s : Z;
  locked : bool;
  recovery_until_s : Z;
  recovery : bool
}.
#[export] Instance auth_policy_eta : Eta espos_httpd_auth_policy_t := fun r =>
  AuthPolicy (sessions r) (ttl_s r) (require_key r) (key r) (fail_count r) (fail_first_s r) (lockout_until_s r)
    (locked r) (recovery_until_s r) (recovery r).

(** * Comparison and clock *)

(** [a[i]] while [i < alen], and 0 past the end *)
Definition byte_at (a : cstr) (alen i : nat) : Z := if (i <? alen)%nat then nth i a 0 else 0.

Definition ct_equal (a : cstr) (alen : nat) (b : cstr) (blen : nat) (width : nat) : bool :=
  let diff := u32 (Z.lxor (Z.of_nat alen) (Z.of_nat blen)) in
  foldl (fun diff i => Z.lor diff (Z.lxor (byte_at a alen i) (byte_at b blen i))) diff (seq 0 width) =? 0.

(** [strnlen(s, max)] *)
Definition strnlen (s : cstr) (max : nat) : nat := Nat.min (length s) max.

Definition reached (a b : Z) : bool := i32 (a - b) >=? 0.

Definition sessions_clear (p : espos_httpd_auth_policy_t) : espos_httpd_auth_policy_t :=
  p <| sessions ::= map (fun _ => session_zero) |>.

Definition espos_httpd_auth_policy_init (session_count : nat) (ttl : Z) (require : bool) : espos_httpd_auth_policy_t :=
  AuthPolicy (replicate session_count session_zero) ttl require [] 0 0 0 false 0 false.

Definition espos_httpd_auth_policy_set_key (p : espos_httpd_auth_policy_t) (k : option cstr) : espos_httpd_auth_policy_t :=
  sessions_clear (p <| key := snprintf_s (S ESPOS_HTTPD_AUTH_KEY_MAX) (default [] k) |>).

Definition espos_httpd_auth_policy_set_ttl (p : espos_httpd_auth_policy_t) (ttl : Z) : espos_httpd_auth_policy_t :=
  p <| ttl_s := ttl |>.

Definition espos_httpd_auth_policy_configured (p : espos_httpd_auth_policy_t) : bool := negb (byte0 (key p) =? 0).

Definition espos_httpd_auth_policy_required (p : espos_httpd_auth_policy_t) : bool :=
  require_key p || espos_httpd_auth_policy_configured p.

(** * Throttle *)

Definition espos_httpd_auth_policy_throttled (p : espos_httpd_auth_policy_t) (now : Z) : bool :=
  locked p && negb (reached now (lockout_until_s p)).

Definition espos_httpd_auth_policy_retry_after_s (p : espos_httpd_auth_policy_t) (now now' : Z) : Z :=
  if negb (espos_httpd_auth_policy_throttled p now) then 0 else u32 (lockout_until_s p - now').

(** A wrong key: count it, open a window for it, lock at the limit. *)
Definition key_missed (p : espos_httpd_auth_policy_t) (now : Z) : espos_httpd_auth_policy_t :=
  let p := if (fail_count p =? 0) || (u32 (now - fail_first_s p) >=? ESPOS_HTTPD_AUTH_FAIL_WINDOW_S)
           then p <| fail_count := 0 |> <| fail_first_s := now |> else p in
  let p := p <| fail_count ::= fun n => u32 (n + 1) |> in
  if fail_count p >=? ESPOS_HTTPD_AUTH_FAIL_MAX
  then p <| locked := true |> <| lockout_until_s := u32 (now + ESPOS_HTTPD_AUTH_LOCKOUT_S) |> <| fail_count := 0 |>
  else p.

Definition espos_httpd_auth_policy_check_key (p : espos_httpd_auth_policy_t) (now : Z) (presented : option cstr)
    : espos_httpd_auth_verdict_t * espos_httpd_auth_policy_t :=
  if locked p && negb (reached now (lockout_until_s p)) then (ESPOS_HTTPD_AUTH_THROTTLED, p)
  else
    let p := if locked p then p <| locked := false |> else p in
    if negb (espos_httpd_auth_policy_configured p) then (ESPOS_HTTPD_AUTH_UNAUTHORIZED, p)
    else
      let presented := default [] presented in
      let plen := strnlen presented (ESPOS_HTTPD_AUTH_KEY_MAX + 1) in
      if ct_equal (key p) (length (key p)) presented plen (ESPOS_HTTPD_AUTH_KEY_MAX + 1)
      then (ESPOS_HTTPD_AUTH_ALLOW, p <| fail_count := 0 |>)
      else (ESPOS_HTTPD_AUTH_UNAUTHORIZED, key_missed p now).

(** * Recovery *)

Definition espos_httpd_auth_policy_recovery_open (p : espos_httpd_auth_policy_t) (now : Z) (seconds : Z)
    : espos_httpd_auth_policy_t :=
  if seconds =? 0 then p <| recovery := false |> <| recovery_until_s := 0 |>
  else
    let seconds := if seconds >? ESPOS_HTTPD_AUTH_RECOVERY_MAX_S then ESPOS_HTTPD_AUTH_RECOVERY_MAX_S else seconds in
    p <| recovery := true |> <| recovery_until_s := u32 (now + seconds) |>.

Definition recovery_open (p : espos_httpd_auth_policy_t) (now : Z) : bool :=
  recovery p && negb (reached now (recovery_until_s p)).

Definition espos_httpd_auth_policy_recovery_s_left (p : espos_httpd_auth_policy_t) (now now' : Z) : Z :=
  if negb (recovery_open p now) then 0 else u32 (recovery_until_s p - now').

(** * Sessions *)

Definition sweep_slot (now : Z) (s : espos_httpd_auth_session_t) : espos_httpd_auth_session_t :=
  if used s && reached now (expires_s s) then session_zero else s.

Definition sweep (p : espos_httpd_auth_policy_t) (now : Z) : espos_httpd_auth_policy_t :=
  p <| sessions ::= map (sweep_slot now) |>.

(** The loop of [session_open]: the first free slot, or the one idle longest. *)
Fixpoint pick_slot (l : list espos_httpd_auth_session_t) (i : nat)
    (slot : option (nat * espos_httpd_auth_session_t)) : option nat :=
  match l with
  | [] => fst <$> slot
  | s :: l' =>
      if negb (used s) then Some i
      else
        let better := match slot with
                      | None => true
                      | Some (_, sl) => i32 (last_seen_s s - last_seen_s sl) <? 0
                      end in
        pick_slot l' (S i) (if better then Some (i, s) else slot)
  end.

Definition hex_digit (n : Z) : Z := if n <? 10 then 48 + n else 87 + n.

(** Eight hex characters of a random word, low nibble first. *)
Definition hex_word (r : Z) : cstr :=
  map (fun j => hex_digit (Z.land (Z.shiftr r (4 * Z.of_nat j)) 15)) (seq 0 8).

(** [rnd]: the four random words the id is made of. *)
Definition espos_httpd_auth_policy_session_open (p : espos_httpd_auth_policy_t) (now : Z) (rnd : Z * Z * Z * Z)
    (id_size : nat) : option cstr * espos_httpd_auth_policy_t :=
  if (length (sessions p) =? 0)%nat || (id_size <? ESPOS_HTTPD_AUTH_SID_LEN + 1)%nat then (None, p)
  else
    let p := sweep p now in
    match pick_slot (sessions p) 0 None with
    | None => (None, p)
    | Some i =>
        let '(r0, r1, r2, r3) := rnd in
        let id := hex_word r0 ++ hex_word r1 ++ hex_word r2 ++ hex_word r3 in
        (Some id, p <| sessions ::= <[i := AuthSession id (u32 (now + ttl_s p)) now true]> |>)
    end.

(** The last slot that matches, as the loop leaves it. *)
Definition find_slot (l : list espos_httpd_auth_session_t) (id : cstr) (len : nat) : option nat :=
  foldl (fun hit e =>
           let eq := ct_equal (sess_id e.2) ESPOS_HTTPD_AUTH_SID_LEN id len (ESPOS_HTTPD_AUTH_SID_LEN + 1) in
           if used e.2 && eq then Some e.1 else hit)
        None (imap pair l).

Definition find (p : espos_httpd_auth_policy_t) (id : option cstr) (now : Z) : option nat * espos_httpd_auth_policy_t :=
  match id with
  | None => (None, p)
  | Some id =>
      let p := sweep p now in
      (find_slot (sessions p) id (strnlen id (ESPOS_HTTPD_AUTH_SID_LEN + 1)), p)
  end.

Definition espos_httpd_auth_policy_session_valid (p : espos_httpd_auth_policy_t) (now : Z) (id : option cstr)
    : bool * espos_httpd_auth_policy_t :=
  let '(hit, p) := find p id now in
  match hit with
  | None => (false, p)
  | Some i => (true, p <| sessions ::= alter (fun s => s <| last_seen_s := now |>) i |>)
  end.

Definition espos_httpd_auth_policy_session_close (p : espos_httpd_auth_policy_t) (now : Z) (id : option cstr)
    : espos_httpd_auth_policy_t :=
  let '(hit, p) := find p id now in
  match hit with
  | None => p
  | Some i => p <| sessions ::= <[i := session_zero]> |>
  end.

Definition espos_httpd_auth_policy_sessions_live (p : espos_httpd_auth_policy_t) (now : Z)
    : nat * espos_httpd_auth_policy_t :=
  let p := sweep p now in
  (foldl (fun n s => n + (if used s then 1 else 0))%nat 0%nat (sessions p), p).

(** * Decision *)

Definition portal_exempt (p : espos_httpd_auth_policy_t) (now : Z) : bool :=
  if negb (espos_httpd_auth_policy_configured p) then true else recovery_open p now.

(** [strstr(s, p)]: the string from the first occurrence on *)
Fixpoint strstr_from (s p : cstr) : option cstr :=
  if is_prefix p s then Some s else match s with [] => None | _ :: s' => strstr_from s' p end.

(** [strcspn(s, set)] *)
Fixpoint strcspn (s set : cstr) : nat :=
  match s with
  | [] => 0
  | c :: s' => if bool_decide (c ∈ set) then 0 else S (strcspn s' set)
  end.

Definition authority (s : cstr) : cstr :=
  let p := match strstr_from s (lit "://") with Some q => drop 3 q | None => s end in
  let n := strcspn p (lit "/?#") in
  let n := if (3 <=? n)%nat && strneq 3 (drop (n - 3) p) (lit ":80") then (n - 3)%nat else n in
  take n p.

Definition tolower (c : Z) : Z := if (65 <=? c) && (c <=? 90) then c + 32 else c.

Definition espos_httpd_auth_origin_matches (origin_or_referer host : option cstr) : bool :=
  match origin_or_referer, host with
  | Some o, Some h =>
      if (byte0 o =? 0) || (byte0 h =? 0) then false
      else
        let a := authority o in
        let b := authority h in
        if (length a =? 0)%nat || negb (length a =? length b)%nat then false
        else forallb (fun xy => tolower xy.1 =? tolower xy.2) (zip a b)
  | _, _ => false
  end.

(** [now_portal] is the reading of the recovery window, [now] the one of the
    credential check; the code makes at most one of each. *)
Definition espos_httpd_auth_policy_decide (p : espos_httpd_auth_policy_t) (now_portal now : Z)
    (rq : espos_httpd_auth_request_t)
    : espos_httpd_auth_verdict_t * espos_httpd_auth_method_t * espos_httpd_auth_policy_t :=
  if from_portal rq && portal_exempt p now_portal
  then (ESPOS_HTTPD_AUTH_ALLOW, ESPOS_HTTPD_AUTH_PORTAL, p)
  else if negb (espos_httpd_auth_policy_configured p)
  then (if require_key p then ESPOS_HTTPD_AUTH_UNCONFIGURED else ESPOS_HTTPD_AUTH_ALLOW, ESPOS_HTTPD_AUTH_NONE, p)
  else
    match bearer rq with
    | Some b =>
        let '(v, p) := espos_httpd_auth_policy_check_key p now (Some b) in
        (v, if bool_decide (v = ESPOS_HTTPD_AUTH_ALLOW) then ESPOS_HTTPD_AUTH_BEARER else ESPOS_HTTPD_AUTH_NONE, p)
    | None =>
        match cookie_sid rq with
        | None => (ESPOS_HTTPD_AUTH_UNAUTHORIZED, ESPOS_HTTPD_AUTH_NONE, p)
        | Some sid =>
            let '(ok, p) := espos_httpd_auth_policy_session_valid p now (Some sid) in
            if (ok : bool) then
              (if state_changing rq && negb (espos_httpd_auth_origin_matches (origin rq) (rq_host rq))
               then ESPOS_HTTPD_AUTH_FORBIDDEN_ORIGIN else ESPOS_HTTPD_AUTH_ALLOW, ESPOS_HTTPD_AUTH_COOKIE, p)
            else (ESPOS_HTTPD_AUTH_UNAUTHORIZED, ESPOS_HTTPD_AUTH_NONE, p)
        end
    end.
