(* ===== verification/AuthProps.v ===== *)
(** Correctness of the authentication policy ([AuthPolicy]): who gets in, how
    fast keys can be guessed, and where sessions come from. *)
From Stdlib Require Import ZArith Lia String Sorted.
From stdpp Require Import base list numbers sets.
From S2P Require Import Prelude AuthPolicy.
Open Scope Z_scope.

(** * Constant-time comparison *)

Lemma u32_lxor_zero a b : 0 <= a < 2 ^ 32 -> 0 <= b < 2 ^ 32 -> u32 (Z.lxor a b) = 0 <-> a = b.
Proof.
  intros Ha Hb. unfold u32. rewrite <- Z.land_ones by lia.
  assert (Z.land (Z.lxor a b) (Z.ones 32) = Z.lxor (Z.land a (Z.ones 32)) (Z.land b (Z.ones 32))) as ->.
  { apply Z.bits_inj'. intros n Hn. rewrite !Z.land_spec, !Z.lxor_spec, !Z.land_spec.
    by destruct (Z.testbit a n), (Z.testbit b n), (Z.testbit (Z.ones 32) n). }
  rewrite !Z.land_ones, !Z.mod_small by lia. apply Z.lxor_eq_0_iff.
Qed.

Lemma diff_zero (f : nat -> Z) l d :
  foldl (fun diff i => Z.lor diff (f i)) d l = 0 <-> d = 0 /\ forall i, i ∈ l -> f i = 0.
Proof.
  revert d. induction l as [|x l IH]; intros d; cbn [foldl].
  - split; [|by intros []]. intros ->. split; [done|]. intros i Hi. by apply not_elem_of_nil in Hi.
  - rewrite IH, Z.lor_eq_0_iff. setoid_rewrite elem_of_cons. naive_solver.
Qed.

(** The comparison is equality of the lengths and of every byte in [width]. *)
Lemma ct_equal_spec a (alen : nat) b (blen : nat) width :
  Z.of_nat alen < 2 ^ 32 -> Z.of_nat blen < 2 ^ 32 ->
  ct_equal a alen b blen width = true <-> alen = blen /\ forall i, (i < width)%nat -> byte_at a alen i = byte_at b blen i.
Proof.
  intros Ha Hb. unfold ct_equal. rewrite Z.eqb_eq, diff_zero, u32_lxor_zero by lia. rewrite Nat2Z.inj_iff.
  apply and_iff_compat_l. split; intros H i Hi.
  - apply Z.lxor_eq_0_iff, H. apply elem_of_seq. lia.
  - apply Z.lxor_eq_0_iff, H. apply elem_of_seq in Hi. lia.
Qed.

(** Two strings, the second cut at one byte more than the first can have. *)
Lemma ct_equal_str (a b : cstr) (max : nat) :
  (length a <= max)%nat -> (Z.of_nat max < 2 ^ 31)%Z ->
  ct_equal a (length a) b (strnlen b (max + 1)) (max + 1) = true <-> a = b.
Proof.
  intros Ha Hmax. unfold strnlen. rewrite ct_equal_spec by lia. split; [intros [Hl H]|intros ->; split; [lia|]].
  - assert (Hb : length b = length a) by lia. apply (nth_ext _ _ 0 0); [done|]. intros i Hi. specialize (H i ltac:(lia)).
    unfold byte_at in H. rewrite <- Hl in H. by destruct (Nat.ltb_spec i (length a)); [|lia].
  - intros i Hi. replace (length b `min` (max + 1))%nat with (length b) by lia. done.
Qed.

(** * The invariant *)

Definition slot_wf (s : espos_httpd_auth_session_t) : Prop :=
  used s = true -> length (sess_id s) = ESPOS_HTTPD_AUTH_SID_LEN.

Record auth_wf (p : espos_httpd_auth_policy_t) : Prop := mk_auth_wf {
  wf_key : (length (key p) <= ESPOS_HTTPD_AUTH_KEY_MAX)%nat;
  wf_nul : 0 ∉ key p;
  wf_slots : Forall slot_wf (sessions p);
  wf_fails : 0 <= fail_count p < ESPOS_HTTPD_AUTH_FAIL_MAX
}.

Lemma configured_key p : 0 ∉ key p -> espos_httpd_auth_policy_configured p = true <-> key p <> [].
Proof.
  unfold espos_httpd_auth_policy_configured. rewrite negb_true_iff, Z.eqb_neq. destruct (key p) as [|c k]; [done|].
  cbn. rewrite not_elem_of_cons. intros [? _]. split; [done|]. congruence.
Qed.

(** The slot of a live session, found by its id. *)
Definition live (p : espos_httpd_auth_policy_t) (now : Z) (id : cstr) (s : espos_httpd_auth_session_t) : Prop :=
  s ∈ sessions p /\ used s = true /\ sess_id s = id /\ reached now (expires_s s) = false.

Lemma sweep_elem p now s : s ∈ sessions (sweep p now) -> used s = true -> s ∈ sessions p /\ reached now (expires_s s) = false.
Proof.
  cbn. rewrite list_elem_of_fmap. intros (s0 & -> & Hs0). unfold sweep_slot.
  destruct (used s0) eqn:Hu; cbn [andb]; [|congruence]. destruct (reached now (expires_s s0)) eqn:Hr; [done|]. done.
Qed.

Lemma elem_sweep p now s :
  s ∈ sessions p -> used s = true -> reached now (expires_s s) = false -> s ∈ sessions (sweep p now).
Proof. intros Hs Hu Hr. cbn. apply list_elem_of_fmap. exists s. unfold sweep_slot. by rewrite Hu, Hr. Qed.

Definition slot_match (id : cstr) (s : espos_httpd_auth_session_t) : bool :=
  used s && ct_equal (sess_id s) ESPOS_HTTPD_AUTH_SID_LEN id (strnlen id (ESPOS_HTTPD_AUTH_SID_LEN + 1)) (ESPOS_HTTPD_AUTH_SID_LEN + 1).

Lemma slot_match_spec id s : slot_wf s -> slot_match id s = true <-> used s = true /\ sess_id s = id.
Proof.
  intros Hw. unfold slot_match. rewrite andb_true_iff. destruct (used s) eqn:Hu; [|naive_solver].
  rewrite <- (Hw Hu), ct_equal_str; [naive_solver|by rewrite (Hw Hu)|rewrite (Hw Hu); done].
Qed.

(** The search returns a matching slot, and misses only if there is none. *)
Lemma find_slot_spec l id :
  match find_slot l id (strnlen id (ESPOS_HTTPD_AUTH_SID_LEN + 1)) with
  | Some i => exists s, l !! i = Some s /\ slot_match id s = true
  | None => forall s, s ∈ l -> slot_match id s = false
  end.
Proof.
  unfold find_slot. change (fun hit e => _) with
    (fun (hit : option nat) (e : nat * espos_httpd_auth_session_t) => if slot_match id e.2 then Some e.1 else hit).
  induction l as [|s l IH] using rev_ind.
  - intros s Hs. by apply not_elem_of_nil in Hs.
  - rewrite imap_app, foldl_app. cbn. rewrite Nat.add_0_r. destruct (slot_match id s) eqn:E.
    + exists s. rewrite lookup_app_r, Nat.sub_diag by lia. done.
    + destruct (foldl _ None (imap pair l)) as [i|].
      * destruct IH as (s' & Hi & Hs'). exists s'. split; [|done]. by apply lookup_app_l_Some.
      * intros s' Hs'. apply elem_of_app in Hs' as [Hs'|Hs']; [by apply IH|]. by apply list_elem_of_singleton in Hs' as ->.
Qed.

(** A session is valid exactly if it is live. *)
Lemma session_valid_spec p now id :
  Forall slot_wf (sessions p) ->
  (espos_httpd_auth_policy_session_valid p now (Some id)).1 = true <-> exists s, live p now id s.
Proof.
  intros Hw. unfold espos_httpd_auth_policy_session_valid, find.
  pose proof (find_slot_spec (sessions (sweep p now)) id) as Hf.
  assert (Hws : forall s, s ∈ sessions (sweep p now) -> slot_wf s).
  { intros s Hs Hu. destruct (sweep_elem _ _ _ Hs Hu) as [Hs' _]. rewrite Forall_forall in Hw. by apply Hw. }
  destruct (find_slot _ _ _) as [i|]; cbn [fst].
  - destruct Hf as (s & Hi & Hm). apply list_elem_of_lookup_2 in Hi. apply slot_match_spec in Hm as [Hu He]; [|auto].
    destruct (sweep_elem _ _ _ Hi Hu). split; [|done]. intros _. by exists s.
  - split; [done|]. intros (s & Hs & Hu & He & Hr). pose proof (elem_sweep _ _ _ Hs Hu Hr) as Hs'.
    specialize (Hf s Hs'). apply not_true_iff_false in Hf. destruct Hf. by apply slot_match_spec; auto.
Qed.

(** A key is accepted exactly if it is the key and there is no lockout. *)
Lemma check_key_spec p now k :
  auth_wf p -> key p <> [] ->
  (espos_httpd_auth_policy_check_key p now (Some k)).1 = ESPOS_HTTPD_AUTH_ALLOW <->
  espos_httpd_auth_policy_throttled p now = false /\ k = key p.
Proof.
  intros Hw Hk. unfold espos_httpd_auth_policy_check_key, espos_httpd_auth_policy_throttled.
  destruct (locked p && negb (reached now (lockout_until_s p))) eqn:El; [naive_solver|].
  set (p1 := if locked p then _ else p).
  assert (Hk1 : key p1 = key p) by (subst p1; by destruct (locked p)).
  assert (Hc : espos_httpd_auth_policy_configured p1 = true).
  { apply configured_key; rewrite Hk1; [by destruct Hw|done]. }
  rewrite Hc. cbn [negb default]. rewrite Hk1. pose proof (ct_equal_str (key p) k ESPOS_HTTPD_AUTH_KEY_MAX) as He.
  destruct (ct_equal _ _ _ _ _); cbn [fst].
  - split; [|done]. intros _. split; [done|]. symmetry. apply He; [by destruct Hw|done|done].
  - split; [done|]. intros [_ ->]. assert (false = true) by (apply He; [by destruct Hw|done|done]). done.
Qed.

(** * Who gets in *)

(** What a request has to show: on the portal, that there is no key yet or that
    the recovery window is open; without a key, a build that does not demand one;
    otherwise the key itself while there is no lockout, or the cookie of a live
    session, with a matching origin if the request changes state. *)
Definition entitled (p : espos_httpd_auth_policy_t) (now_portal now : Z) (rq : espos_httpd_auth_request_t) : Prop :=
  (from_portal rq = true /\ (key p = [] \/ recovery_open p now_portal = true)) \/
  (key p = [] /\ require_key p = false) \/
  (key p <> [] /\
   match bearer rq, cookie_sid rq with
   | Some k, _ => k = key p /\ espos_httpd_auth_policy_throttled p now = false
   | None, Some sid =>
       (exists s, live p now sid s) /\
       (state_changing rq = true -> espos_httpd_auth_origin_matches (origin rq) (rq_host rq) = true)
   | None, None => False
   end).

Lemma portal_exempt_spec p now :
  0 ∉ key p -> portal_exempt p now = true <-> key p = [] \/ recovery_open p now = true.
Proof.
  intros Hn. unfold portal_exempt. pose proof (configured_key p Hn) as Hc.
  destruct (espos_httpd_auth_policy_configured p); cbn [negb]; destruct (decide (key p = [])); naive_solver.
Qed.

(** C27. The decision is exactly the rule: a request is allowed if and only if it
    is entitled, whatever the headers it carries. *)
Theorem auth_decide_sound p now_portal now rq :
  auth_wf p ->
  (espos_httpd_auth_policy_decide p now_portal now rq).1.1 = ESPOS_HTTPD_AUTH_ALLOW <-> entitled p now_portal now rq.
Proof.
  intros Hw. pose proof (portal_exempt_spec p now_portal (wf_nul _ Hw)) as Hp. pose proof (configured_key p (wf_nul _ Hw)) as Hc.
  unfold espos_httpd_auth_policy_decide, entitled.
  destruct (from_portal rq && portal_exempt p now_portal) eqn:Ep.
  { apply andb_prop in Ep as [? ?]. naive_solver. }
  assert (Hnp : ~ (from_portal rq = true /\ (key p = [] \/ recovery_open p now_portal = true))).
  { intros [Hf Hx]. apply Hp in Hx. by rewrite Hf, Hx in Ep. }
  destruct (espos_httpd_auth_policy_configured p) eqn:Ec; cbn [negb].
  2: { assert (key p = []) by (destruct (decide (key p = [])); naive_solver). destruct (require_key p); naive_solver. }
  assert (Hk : key p <> []) by naive_solver.
  destruct (bearer rq) as [k|].
  { pose proof (check_key_spec p now k Hw Hk) as Hs. destruct (espos_httpd_auth_policy_check_key _ _ _) as [v p']. cbn in *.
    naive_solver. }
  destruct (cookie_sid rq) as [sid|]; [|naive_solver].
  pose proof (session_valid_spec p now sid (wf_slots _ Hw)) as Hs.
  destruct (espos_httpd_auth_policy_session_valid p now (Some sid)) as [[] p']; cbn in *; [|naive_solver].
  assert (Hlive : exists s, live p now sid s) by (by apply Hs). clear Hs Hp Hc.
  destruct (state_changing rq), (espos_httpd_auth_origin_matches (origin rq) (rq_host rq)); cbn; naive_solver.
Qed.

(** * How fast a key can be guessed *)

(** Keys presented at the given times: how many were judged wrong and how many
    right, the others being answered 429. *)
Fixpoint guess (p : espos_httpd_auth_policy_t) (gs : list (Z * cstr)) : nat * nat * espos_httpd_auth_policy_t :=
  match gs with
  | [] => (0%nat, 0%nat, p)
  | (t, k) :: gs' =>
      let '(v, p') := espos_httpd_auth_policy_check_key p (u32 t) (Some k) in
      let '(wrong, good, p'') := guess p' gs' in
      match v with
      | ESPOS_HTTPD_AUTH_UNAUTHORIZED => (S wrong, good, p'')
      | ESPOS_HTTPD_AUTH_ALLOW => (wrong, S good, p'')
      | _ => (wrong, good, p'')
      end
  end.

(** After [n] keys judged wrong in the interval that starts at [s], at time [x], with
    [b] allowed for the right ones. *)
Record guess_inv (s x : Z) (n b : Z) (p : espos_httpd_auth_policy_t) : Prop := mk_guess_inv {
  gi_count : 0 <= fail_count p < ESPOS_HTTPD_AUTH_FAIL_MAX;
  gi_total : n <= 9 + b;
  gi_budget :
    (locked p = true /\ exists u, lockout_until_s p = u32 u /\ s + 30 <= u <= s + 60) \/
    n <= fail_count p + b \/
    (n <= 4 + fail_count p + b /\ (fail_count p = 0 \/ exists f, fail_first_s p = u32 f /\ s <= f <= x))
}.

Lemma u32_sub a b : u32 (u32 a - u32 b) = u32 (a - b).
Proof. unfold u32. by rewrite <- Zminus_mod. Qed.

Lemma u32_add a b : u32 (u32 a + b) = u32 (a + b).
Proof. unfold u32. by rewrite Zplus_mod_idemp_l. Qed.

Lemma i32_small x : - 2 ^ 31 <= x < 2 ^ 31 -> i32 x = x.
Proof. intros. unfold i32. rewrite Z.mod_small; lia. Qed.

Lemma i32_u32 a b : i32 (u32 a - u32 b) = i32 (a - b).
Proof. unfold i32, u32. f_equal. rewrite <- Zplus_mod_idemp_l, <- Zminus_mod, Zplus_mod_idemp_l. done. Qed.

Lemma reached_spec a b : - 2 ^ 31 <= a - b < 2 ^ 31 -> reached (u32 a) (u32 b) = (b <=? a).
Proof.
  intros. unfold reached. rewrite i32_u32, i32_small by done. rewrite Z.geb_leb.
  destruct (Z.leb_spec 0 (a - b)), (Z.leb_spec b a); lia.
Qed.

Lemma key_missed_key p now : key (key_missed p now) = key p.
Proof. unfold key_missed. by repeat case_match. Qed.

(** The budget of guesses before a lockout: what is left of an old window,
    and one whole window. *)
Definition budget (s x n b : Z) (p : espos_httpd_auth_policy_t) : Prop :=
  n <= fail_count p + b \/ (n <= 4 + fail_count p + b /\ (fail_count p = 0 \/ exists f, fail_first_s p = u32 f /\ s <= f <= x)).

Lemma key_missed_inv s x n b p t :
  0 <= fail_count p < ESPOS_HTTPD_AUTH_FAIL_MAX -> budget s x n b p -> s <= x <= t -> t < s + 30 ->
  guess_inv s t (n + 1) b (key_missed p (u32 t)).
Proof.
  unfold ESPOS_HTTPD_AUTH_FAIL_MAX, budget. intros Hc Hb Hx Ht. unfold key_missed.
  set (open := (fail_count p =? 0) || _). set (p1 := if open then _ else p).
  assert (Hp1 : 0 <= fail_count p1 < 5 /\
    (n + 1 <= 1 + fail_count p1 + b \/ (n + 1 <= 5 + fail_count p1 + b /\ exists f, fail_first_s p1 = u32 f /\ s <= f <= t))).
  { subst p1. destruct open eqn:Eo; cbn.
    - split; [lia|]. right. split; [|exists t; split; [done|lia]].
      destruct Hb as [Hb|[Hb [Hz|(f & Hf & Hsf)]]]; [lia|lia|]. subst open. apply orb_prop in Eo as [Eo|Eo]; [lia|].
      rewrite Hf, u32_sub in Eo. unfold ESPOS_HTTPD_AUTH_FAIL_WINDOW_S, u32 in Eo. rewrite Z.mod_small in Eo; lia.
    - split; [done|]. destruct Hb as [Hb|[Hb [Hz|(f & Hf & Hsf)]]]; [left; lia|subst open; rewrite Hz in Eo; done|right]. split; [lia|]. exists f. split; [done|lia]. }
  clearbody p1. destruct Hp1 as [Hc1 Hb1]. cbn [fail_count update].
  assert (Eu : u32 (fail_count p1 + 1) = fail_count p1 + 1) by (unfold u32; rewrite Z.mod_small; lia).
  unfold ESPOS_HTTPD_AUTH_FAIL_MAX. cbn. rewrite Eu.
  destruct (Z.geb_spec (fail_count p1 + 1) 5); split; cbn; unfold ESPOS_HTTPD_AUTH_FAIL_MAX; rewrite ?Eu; try lia.
  - left. split; [done|]. exists (t + 30). unfold ESPOS_HTTPD_AUTH_LOCKOUT_S. split; [|lia].
    unfold u32. by rewrite Zplus_mod_idemp_l.
  - right. destruct Hb1 as [Hb1|[Hb1 (f & Hf & Hsf)]]; [left; lia|right]. split; [lia|]. right. by exists f.
Qed.

Lemma key_missed_wf p now : auth_wf p -> auth_wf (key_missed p now).
Proof.
  intros []. unfold key_missed. set (p1 := if _ || _ then _ else p).
  assert (Hp1 : key p1 = key p /\ sessions p1 = sessions p /\ 0 <= fail_count p1 < 5) by (subst p1; case_match; done).
  clearbody p1. destruct Hp1 as (Hk & Hs & Hc).
  assert (Eu : u32 (fail_count p1 + 1) = fail_count p1 + 1) by (unfold u32; rewrite Z.mod_small; lia).
  cbn. rewrite Eu. destruct (Z.geb_spec (fail_count p1 + 1) ESPOS_HTTPD_AUTH_FAIL_MAX) as [|Hlt]; split; cbn; rewrite ?Hk, ?Hs, ?Eu; try done; lia.
Qed.

Lemma check_key_wf p now k : auth_wf p -> auth_wf (espos_httpd_auth_policy_check_key p now k).2.
Proof.
  intros Hw. unfold espos_httpd_auth_policy_check_key. destruct (locked p && _); [done|].
  set (p1 := if locked p then _ else p).
  assert (Hw1 : auth_wf p1) by (subst p1; destruct (locked p); [by destruct Hw|done]). clearbody p1.
  destruct (negb _); [done|]. destruct (ct_equal _ _ _ _ _); cbn; [by destruct Hw1|]. by apply key_missed_wf.
Qed.

Definition unlock (p : espos_httpd_auth_policy_t) : espos_httpd_auth_policy_t :=
  if locked p then p <| locked := false |> else p.

Lemma unlock_key p : key (unlock p) = key p.
Proof. unfold unlock. by destruct (locked p). Qed.
Lemma unlock_fails p : fail_count (unlock p) = fail_count p /\ fail_first_s (unlock p) = fail_first_s p.
Proof. unfold unlock. by destruct (locked p). Qed.

(** A wrong key is answered 429 during a lockout and counted otherwise. *)
Lemma check_key_wrong p now k :
  auth_wf p -> key p <> [] -> k <> key p ->
  espos_httpd_auth_policy_check_key p now (Some k) =
    if espos_httpd_auth_policy_throttled p now then (ESPOS_HTTPD_AUTH_THROTTLED, p)
    else (ESPOS_HTTPD_AUTH_UNAUTHORIZED, key_missed (unlock p) now).
Proof.
  intros Hw Hk Hne. unfold espos_httpd_auth_policy_check_key, espos_httpd_auth_policy_throttled.
  destruct (locked p && negb (reached now (lockout_until_s p))); [done|]. fold (unlock p).
  assert (Hcf : espos_httpd_auth_policy_configured (unlock p) = true)
    by (apply configured_key; rewrite unlock_key; [by destruct Hw|done]).
  rewrite Hcf. cbn [negb default]. rewrite unlock_key.
  destruct (ct_equal _ _ _ _ _) eqn:E; [|done]. destruct Hne. symmetry.
  apply (ct_equal_str (key p) k ESPOS_HTTPD_AUTH_KEY_MAX); [by destruct Hw|done|exact E].
Qed.

(** The right key is answered 429 during a lockout too; otherwise it lets in and
    forgets the wrong ones. *)
Lemma check_key_right p now : auth_wf p -> key p <> [] ->
  espos_httpd_auth_policy_check_key p now (Some (key p)) =
    if espos_httpd_auth_policy_throttled p now then (ESPOS_HTTPD_AUTH_THROTTLED, p) else (ESPOS_HTTPD_AUTH_ALLOW, (unlock p) <| fail_count := 0 |>).
Proof.
  intros Hw Hk. unfold espos_httpd_auth_policy_check_key, espos_httpd_auth_policy_throttled.
  destruct (locked p && negb (reached now (lockout_until_s p))); [done|]. fold (unlock p).
  assert (Hcf : espos_httpd_auth_policy_configured (unlock p) = true)
    by (apply configured_key; rewrite unlock_key; [by destruct Hw|done]).
  rewrite Hcf. cbn [negb default]. rewrite unlock_key.
  destruct (ct_equal _ _ _ _ _) eqn:E; [done|]. pose proof (proj2 (ct_equal_str (key p) (key p) ESPOS_HTTPD_AUTH_KEY_MAX (wf_key _ Hw) ltac:(done)) eq_refl) as Ec.
  discriminate (eq_trans (eq_sym Ec) E).
Qed.

(** Time passes. *)
Lemma guess_later s x n b p t : guess_inv s x n b p -> x <= t -> guess_inv s t n b p.
Proof.
  intros [Hc Ht Hb] Hx. split; [done|done|]. destruct Hb as [?|[?|[? [?|(f & ? & ?)]]]]; auto.
  right; right. split; [done|]. right. exists f. split; [done|lia].
Qed.

Lemma guess_step s x n b p t k v p' :
  guess_inv s x n b p -> auth_wf p -> key p <> [] -> s <= x <= t -> t < s + 30 ->
  espos_httpd_auth_policy_check_key p (u32 t) (Some k) = (v, p') ->
  key p' = key p /\
  match v with
  | ESPOS_HTTPD_AUTH_UNAUTHORIZED => guess_inv s t (n + 1) b p'
  | ESPOS_HTTPD_AUTH_ALLOW => k = key p /\ guess_inv s t n (b + 4) p'
  | _ => guess_inv s t n b p'
  end.
Proof.
  intros Hi Hw Hk Hx Hts Hck. pose proof Hi as [Hc Ht Hb]. assert (Hbud : espos_httpd_auth_policy_throttled p (u32 t) = false -> budget s x n b p).
  { unfold espos_httpd_auth_policy_throttled. intros El. destruct Hb as [[Hl (u & Hu & Hsu)]|[?|?]]; [|by left|by right].
    rewrite Hl, Hu, reached_spec in El by lia. destruct (Z.leb_spec u t); [lia|done]. }
  destruct (unlock_fails p) as [Hc1 Hf1]. destruct (decide (k = key p)) as [->|Hne]; [rewrite check_key_right in Hck by done|rewrite check_key_wrong in Hck by done];
    destruct (espos_httpd_auth_policy_throttled p (u32 t)); injection Hck as <- <-; try (split; [done|]; apply (guess_later s x); [done|lia]).
  - split; [apply unlock_key|]. split; [done|]. specialize (Hbud eq_refl). unfold budget, ESPOS_HTTPD_AUTH_FAIL_MAX in *. split; cbn; unfold ESPOS_HTTPD_AUTH_FAIL_MAX; [lia|lia|]. right; right. split; [lia|by left].
  - rewrite key_missed_key, unlock_key. split; [done|]. apply (key_missed_inv s x); [by rewrite Hc1| |done|done]. unfold budget. rewrite Hc1, Hf1. by apply Hbud.
Qed.

Lemma guess_bound s x n b p gs :
  guess_inv s x n b p -> auth_wf p -> key p <> [] ->
  Forall (fun g => s <= g.1 < s + 30) gs -> StronglySorted (fun a b => a.1 <= b.1) ((x, []) :: gs) -> s <= x ->
  n + Z.of_nat (guess p gs).1.1 <= 9 + b + 4 * Z.of_nat (guess p gs).1.2 /\
  (Forall (fun g => g.2 <> key p) gs -> (guess p gs).1.2 = 0%nat).
Proof.
  revert x n b p. induction gs as [|[t k] gs IH]; intros x n b p Hi Hw Hk Hg Hso Hx; cbn [guess].
  { destruct Hi. cbn. split; [lia|done]. }
  apply Forall_cons in Hg as [Ht Hg]. cbn in Ht.
  apply StronglySorted_inv in Hso as [Hso Hxt]. apply Forall_cons in Hxt as [Hxt _]. cbn in Hxt.
  destruct (espos_httpd_auth_policy_check_key p (u32 t) (Some k)) as [v p'] eqn:E.
  destruct (guess_step s x n b p t k v p') as [Hk' Hi']; try done; [lia|].
  pose proof (check_key_wf p (u32 t) (Some k) Hw) as Hw'. rewrite E in Hw'. cbn in Hw'.
  assert (Hso' : StronglySorted (fun a b : Z * cstr => a.1 <= b.1) ((t, []) :: gs)).
  { apply StronglySorted_inv in Hso as [? Hf]. constructor; [done|]. exact Hf. }
  assert (IH' : forall n' b', guess_inv s t n' b' p' -> n' + Z.of_nat (guess p' gs).1.1 <= 9 + b' + 4 * Z.of_nat (guess p' gs).1.2 /\ (Forall (fun g => g.2 <> key p) gs -> (guess p' gs).1.2 = 0%nat))
    by (intros n' b' Hi2; rewrite <- Hk'; apply (IH t); try done; [by rewrite Hk'|lia]).
  clear IH. destruct (guess p' gs) as [[wr rt] p'']. cbn [fst snd] in IH'. destruct v; cbn [fst snd].
  - destruct Hi' as [-> Hi']. destruct (IH' _ _ Hi') as [H1 _]. split; [lia|]. intros Hf. apply Forall_cons in Hf as [Hf _]. done.
  - destruct (IH' _ _ Hi') as [H1 H2]. split; [lia|]. intros Hf. apply Forall_cons in Hf as [_ Hf]. auto.
  - destruct (IH' _ _ Hi') as [H1 H2]. split; [lia|]. intros Hf. apply Forall_cons in Hf as [_ Hf]. auto.
  - destruct (IH' _ _ Hi') as [H1 H2]. split; [lia|]. intros Hf. apply Forall_cons in Hf as [_ Hf]. auto.
  - destruct (IH' _ _ Hi') as [H1 H2]. split; [lia|]. intros Hf. apply Forall_cons in Hf as [_ Hf]. auto.
Qed.

(** C33. Guessing is slow: of the keys presented in any 30 seconds, right and wrong
    mixed in any way, at most nine wrong ones are judged and four more for every time
    the right key is accepted, which forgets the wrong ones before it; without a right
    key at most nine. All the others are answered 429 without being
    looked at. (Nine: four left over from a window that is about to expire, and a
    new window of five, the last of which starts the lockout.) *)
Theorem auth_guess_rate p s gs :
  auth_wf p -> key p <> [] ->
  Forall (fun g => s <= g.1 < s + 30) gs -> StronglySorted (fun a b => a.1 <= b.1) gs ->
  let '(wrong, good, _) := guess p gs in
  Z.of_nat wrong <= 9 + 4 * Z.of_nat good /\ (Forall (fun g => g.2 <> key p) gs -> Z.of_nat wrong <= 9).
Proof.
  intros Hw Hk Hg Hso. assert (Hs : StronglySorted (fun a b : Z * cstr => a.1 <= b.1) ((s, []) :: gs)) by (constructor; [done|]; eapply Forall_impl; [exact Hg|]; cbn; intros; lia).
  destruct (guess_bound s s 0 0 p gs) as [H1 H2]; try done; [destruct Hw; split; [done|lia|]; right; left; lia|]. destruct (guess p gs) as [[wr rt] p']. cbn [fst snd] in *. split; [lia|]. intros Hf. specialize (H2 Hf). lia.
Qed.

(** * Sessions *)

Inductive auth_op :=
  | OpSetKey (k : option cstr)
  | OpSetTtl (ttl : Z)
  | OpCheckKey (now : Z) (k : option cstr)
  | OpRecovery (now seconds : Z)
  | OpOpen (now : Z) (rnd : Z * Z * Z * Z) (id_size : nat)
  | OpValid (now : Z) (id : option cstr)
  | OpClose (now : Z) (id : option cstr)
  | OpClear
  | OpLive (now : Z)
  | OpDecide (now_portal now : Z) (rq : espos_httpd_auth_request_t).

(** A terminated string has no NUL of its own. *)
Definition op_wf (op : auth_op) : Prop :=
  match op with OpSetKey (Some k) => 0 ∉ k | _ => True end.

(** An operation, and the ids given out since the key last changed. *)
Definition auth_step (st : espos_httpd_auth_policy_t * list cstr) (op : auth_op) : espos_httpd_auth_policy_t * list cstr :=
  let '(p, minted) := st in
  match op with
  | OpSetKey k => (espos_httpd_auth_policy_set_key p k, [])
  | OpSetTtl ttl => (espos_httpd_auth_policy_set_ttl p ttl, minted)
  | OpCheckKey now k => ((espos_httpd_auth_policy_check_key p now k).2, minted)
  | OpRecovery now secs => (espos_httpd_auth_policy_recovery_open p now secs, minted)
  | OpOpen now rnd n =>
      let '(id, p') := espos_httpd_auth_policy_session_open p now rnd n in
      (p', match id with Some id => id :: minted | None => minted end)
  | OpValid now id => ((espos_httpd_auth_policy_session_valid p now id).2, minted)
  | OpClose now id => (espos_httpd_auth_policy_session_close p now id, minted)
  | OpClear => (sessions_clear p, [])
  | OpLive now => ((espos_httpd_auth_policy_sessions_live p now).2, minted)
  | OpDecide n1 n2 rq => ((espos_httpd_auth_policy_decide p n1 n2 rq).2, minted)
  end.

Definition auth_run (n : nat) (ttl : Z) (require : bool) (ops : list auth_op) : espos_httpd_auth_policy_t * list cstr :=
  foldl auth_step (espos_httpd_auth_policy_init n ttl require, []) ops.

(** Every live slot carries an id that was given out. *)
Definition from_minted (minted : list cstr) (s : espos_httpd_auth_session_t) : Prop :=
  used s = true -> length (sess_id s) = ESPOS_HTTPD_AUTH_SID_LEN /\ sess_id s ∈ minted.

Record auth_inv (n : nat) (st : espos_httpd_auth_policy_t * list cstr) : Prop := mk_auth_inv {
  ai_wf : auth_wf st.1;
  ai_minted : Forall (from_minted st.2) (sessions st.1);
  ai_slots : length (sessions st.1) = n
}.

Lemma from_minted_zero minted : from_minted minted session_zero.
Proof. done. Qed.

Lemma sweep_inv n p minted now : auth_inv n (p, minted) -> auth_inv n (sweep p now, minted).
Proof.
  intros [[] Hm Hn]. cbn in *. split; [split| |]; cbn; try done.
  - apply Forall_fmap. eapply Forall_impl; [exact wf_slots0|]. intros s Hs. unfold sweep_slot; cbn. by case_match.
  - apply Forall_fmap. eapply Forall_impl; [exact Hm|]. intros s Hs. unfold sweep_slot; cbn. by case_match.
  - by rewrite length_map.
Qed.

(** Replacing a slot by one whose id was given out keeps the invariant. *)
Lemma set_slot_inv n p minted i s :
  auth_inv n (p, minted) -> from_minted minted s ->
  auth_inv n (p <| sessions ::= <[i := s]> |>, minted).
Proof.
  intros [[] Hm Hn] Hs. cbn in *. split; [split| |]; cbn; try done.
  - apply Forall_insert; [done|]. intros Hu. by destruct (Hs Hu).
  - by apply Forall_insert.
  - by rewrite length_insert.
Qed.

Lemma touch_slot_inv n p minted i now :
  auth_inv n (p, minted) -> auth_inv n (p <| sessions ::= alter (fun s => s <| last_seen_s := now |>) i |>, minted).
Proof.
  intros [[] Hm Hn]. cbn in *. split; [split| |]; cbn; try done.
  - apply Forall_alter; [done|]. intros x Hx Hp. done.
  - apply Forall_alter; [done|]. intros x Hx Hp. done.
  - by rewrite length_alter.
Qed.

Lemma hex_word_len r : length (hex_word r) = 8%nat.
Proof. done. Qed.

Lemma minted_mono n p minted id : auth_inv n (p, minted) -> auth_inv n (p, id :: minted).
Proof.
  intros [? Hm ?]. split; try done. eapply Forall_impl; [exact Hm|]. intros s Hs Hu. destruct (Hs Hu). split; [done|]. by right.
Qed.

Lemma valid_inv n p minted now id :
  auth_inv n (p, minted) -> auth_inv n ((espos_httpd_auth_policy_session_valid p now id).2, minted).
Proof.
  intros Hi. unfold espos_httpd_auth_policy_session_valid, find. destruct id as [id|]; [|done].
  apply (sweep_inv _ _ _ now) in Hi. destruct (find_slot _ _ _); [by apply touch_slot_inv|done].
Qed.

Lemma check_key_sessions p now k : sessions (espos_httpd_auth_policy_check_key p now k).2 = sessions p.
Proof.
  unfold espos_httpd_auth_policy_check_key, key_missed. by repeat (case_match; cbn).
Qed.

Lemma check_key_inv n p minted now k :
  auth_inv n (p, minted) -> auth_inv n ((espos_httpd_auth_policy_check_key p now k).2, minted).
Proof.
  intros [Hw Hm Hn]. split; cbn; rewrite ?check_key_sessions; [|done|done]. by apply check_key_wf.
Qed.

Lemma clear_inv n p minted : auth_inv n (p, minted) -> auth_inv n (sessions_clear p, []).
Proof.
  intros [[] Hm Hn]. cbn in *. split; [split| |]; cbn; try done.
  - apply Forall_fmap, Forall_true. done.
  - apply Forall_fmap, Forall_true. done.
  - by rewrite length_map.
Qed.

Lemma set_key_inv n p minted k :
  auth_inv n (p, minted) -> 0 ∉ default [] k -> auth_inv n (espos_httpd_auth_policy_set_key p k, []).
Proof.
  intros [[] Hm Hn] Hk. apply (clear_inv _ _ minted). cbn in *. split; [split| |]; cbn [fst snd sessions key fail_count update]; try done.
  - unfold snprintf_s. rewrite length_take. unfold ESPOS_HTTPD_AUTH_KEY_MAX. lia.
  - intros H0. apply Hk. unfold snprintf_s in H0. eapply elem_of_take in H0 as (i & Hi & _). by eapply list_elem_of_lookup_2.
Qed.

Lemma open_inv n p minted now rnd sz :
  auth_inv n (p, minted) -> auth_inv n (auth_step (p, minted) (OpOpen now rnd sz)).
Proof.
  intros Hi. cbn [auth_step]. unfold espos_httpd_auth_policy_session_open. destruct (_ || _); [done|].
  apply (sweep_inv _ _ _ now) in Hi. destruct (pick_slot _ _ _) as [i|]; [|done].
  destruct rnd as [[[r0 r1] r2] r3]. apply set_slot_inv; [by apply minted_mono|].
  intros _. split; [|by left]. cbn [sess_id]. by rewrite !length_app, !hex_word_len.
Qed.

Lemma auth_step_inv n st op : auth_inv n st -> op_wf op -> auth_inv n (auth_step st op).
Proof.
  destruct st as [p minted]. intros Hi Hop. destruct op; cbn [auth_step].
  - apply (set_key_inv _ _ minted); [done|]. by destruct k; [|apply not_elem_of_nil].
  - by destruct Hi as [[] ? ?].
  - by apply check_key_inv.
  - destruct Hi as [[] ? ?]. unfold espos_httpd_auth_policy_recovery_open. case_match; done.
  - by apply open_inv.
  - by apply valid_inv.
  - unfold espos_httpd_auth_policy_session_close, find. destruct id as [id|]; [|done].
    apply (sweep_inv _ _ _ now) in Hi. destruct (find_slot _ _ _); [|done]. by apply set_slot_inv.
  - by eapply clear_inv.
  - by apply sweep_inv.
  - unfold espos_httpd_auth_policy_decide. destruct (_ && _); [done|]. destruct (negb _); [done|].
    destruct (bearer rq) as [k|].
    { apply (check_key_inv _ _ _ now (Some k)) in Hi. by destruct (espos_httpd_auth_policy_check_key p now (Some k)). }
    destruct (cookie_sid rq) as [sid|]; [|done]. apply (valid_inv _ _ _ now (Some sid)) in Hi.
    by destruct (espos_httpd_auth_policy_session_valid p now (Some sid)) as [[] ?].
Qed.

Lemma auth_run_inv n ttl require ops : Forall op_wf ops -> auth_inv n (auth_run n ttl require ops).
Proof.
  intros Hw. unfold auth_run. induction ops as [|op ops IH] using rev_ind.
  - cbn. split; [split| |]; cbn.
    + unfold ESPOS_HTTPD_AUTH_KEY_MAX. lia.
    + apply not_elem_of_nil.
    + by apply Forall_replicate.
    + done.
    + by apply Forall_replicate.
    + by rewrite length_replicate.
  - apply Forall_app in Hw as [Hw Ho]. rewrite Forall_singleton in Ho. rewrite foldl_app. cbn [foldl].
    apply auth_step_inv; [by apply IH|exact Ho].
Qed.

(** Where sessions come from: after any operations, in any order, the table
    has the size it was given, the policy is well formed, and a cookie is valid
    only if its value was handed out by a login since the key last changed or the
    sessions were last cleared. *)
Theorem auth_sessions_minted n ttl require ops now id :
  Forall op_wf ops ->
  let '(p, minted) := auth_run n ttl require ops in
  auth_wf p /\ length (sessions p) = n /\
  ((espos_httpd_auth_policy_session_valid p now (Some id)).1 = true -> id ∈ minted).
Proof.
  intros Hw. pose proof (auth_run_inv n ttl require ops Hw) as Hi. destruct (auth_run n ttl require ops) as [p minted].
  destruct Hi as [Hwf Hm Hn]. split_and!; [done|done|]. intros Hv. apply session_valid_spec in Hv; [|by destruct Hwf].
  destruct Hv as (s & Hs & Hu & <- & _). rewrite Forall_forall in Hm. by destruct (Hm s Hs Hu).
Qed.

(** ** Opening a session *)

Lemma pick_slot_spec l i slot :
  match slot with Some (j, sl) => used sl = true | None => True end ->
  match pick_slot l i slot with
  | Some k =>
      (exists s, l !! (k - i)%nat = Some s /\ (i <= k)%nat /\ (used s = false \/ Forall (fun x => used x = true) l)) \/
      (exists sl, slot = Some (k, sl) /\ Forall (fun x => used x = true) l)
  | None => slot = None /\ l = []
  end.
Proof.
  revert i slot. induction l as [|s l IH]; intros i slot Hs; cbn [pick_slot].
  { destruct slot as [[j sl]|]; cbn; [|done]. right. exists sl. done. }
  destruct (used s) eqn:Hu; cbn [negb].
  2: { left. exists s. rewrite Nat.sub_diag. split_and!; auto. }
  set (better := match slot with None => true | Some _ => _ end).
  specialize (IH (S i) (if better then Some (i, s) else slot)).
  assert (Hs' : match (if better then Some (i, s) else slot) with Some (j, sl) => used sl = true | None => True end).
  { by destruct better. }
  specialize (IH Hs'). destruct (pick_slot _ _ _) as [k|].
  - destruct IH as [(x & Hx & Hk & Hx')|(sl & Hsl & Hall)].
    + left. exists x. replace (k - i)%nat with (S (k - S i)) by lia. split_and!; [done|lia|].
      destruct Hx' as [?|?]; [by left|right]. by constructor.
    + destruct better.
      * injection Hsl as <- <-. left. exists s. rewrite Nat.sub_diag. split_and!; [done|lia|]. right. by constructor.
      * right. exists sl. split; [done|]. by constructor.
  - destruct IH as [IH _]. subst better. destruct slot as [[j sl]|]; [|done]. by destruct (_ <? 0).
Qed.

(** A login works: with a table and a large enough buffer it always returns
    an id, which is valid from then on for the whole lifetime; the slot taken was
    free or expired unless every session was live; and every other session that is
    live keeps its slot untouched. *)
Theorem auth_session_open_works p now rnd id_size :
  auth_wf p -> sessions p <> [] -> (ESPOS_HTTPD_AUTH_SID_LEN < id_size)%nat -> 0 < ttl_s p < 2 ^ 31 ->
  exists id i old p',
    espos_httpd_auth_policy_session_open p (u32 now) rnd id_size = (Some id, p') /\
    (forall t, now <= t < now + ttl_s p -> (espos_httpd_auth_policy_session_valid p' (u32 t) (Some id)).1 = true) /\
    sessions (sweep p (u32 now)) !! i = Some old /\
    (used old = false \/ Forall (fun s => used s = true) (sessions (sweep p (u32 now)))) /\
    (forall j, j <> i -> sessions p' !! j = sessions (sweep p (u32 now)) !! j).
Proof.
  intros Hw Hne Hsz Httl. unfold espos_httpd_auth_policy_session_open.
  destruct (Nat.eqb_spec (length (sessions p)) 0) as [E|_]; [by destruct (sessions p)|].
  destruct (Nat.ltb_spec id_size (ESPOS_HTTPD_AUTH_SID_LEN + 1)); [lia|]. cbn [orb].
  pose proof (pick_slot_spec (sessions (sweep p (u32 now))) 0 None I) as Hp.
  destruct (pick_slot (sessions (sweep p (u32 now))) 0 None) as [i|].
  2: { destruct Hp as [_ Hp]. cbn in Hp. by destruct (sessions p). }
  destruct Hp as [(old & Hi & _ & Hold)|(sl & ? & _)]; [|done]. rewrite Nat.sub_0_r in Hi.
  destruct rnd as [[[r0 r1] r2] r3]. set (id := _ ++ _).
  eexists id, i, old, _. split; [reflexivity|]. split_and!; try done.
  - intros t Ht. assert (Hlen : length id = 32%nat) by (subst id; by rewrite !length_app, !hex_word_len).
    apply session_valid_spec.
    + cbn. apply Forall_insert; [|done]. apply Forall_fmap. eapply Forall_impl; [exact (wf_slots _ Hw)|].
      intros s Hs. unfold sweep_slot; cbn. by case_match.
    + eexists. split; [|split; [|split]].
      * cbn. apply list_elem_of_lookup. exists i. apply list_lookup_insert_eq. by eapply lookup_lt_Some.
      * done.
      * done.
      * cbn. rewrite u32_add, reached_spec by lia.
        destruct (Z.leb_spec (now + ttl_s p) t); lia.
  - intros j Hj. cbn. by rewrite list_lookup_insert_ne.
Qed.

(** * Origins *)

(** An authority without the default port. *)
Definition strip80 (a : cstr) : cstr :=
  if (3 <=? length a)%nat && streq (drop (length a - 3) a) (lit ":80") then take (length a - 3) a else a.

(** No character that ends an authority. *)
Definition plain (s : cstr) : Prop := Forall (fun c => c ∉ 0 :: lit "/?#") s.

(** What follows the authority in a URL. *)
Definition tail_of_url (r : cstr) : Prop := r = [] \/ byte0 r ∈ lit "/?#".

Lemma plain_not s c : plain s -> c ∈ 0 :: lit "/?#" -> c ∉ s.
Proof. unfold plain. rewrite Forall_forall. intros H Hc Hs. by apply (H c). Qed.

Lemma strstr_scheme (sch x : cstr) : 58 ∉ sch -> strstr_from (sch ++ lit "://" ++ x) (lit "://") = Some (lit "://" ++ x).
Proof.
  induction sch as [|c sch IH]; intros Hs; [by destruct x|]. apply not_elem_of_cons in Hs as [Hc Hs].
  cbn [app strstr_from]. change (lit "://") with [58; 47; 47] in *. cbn [is_prefix].
  destruct (Z.eqb_spec 58 c); [congruence|]. cbn [andb]. by apply IH.
Qed.

Lemma strstr_none (h : cstr) : 47 ∉ h -> strstr_from h (lit "://") = None.
Proof.
  change (lit "://") with [58; 47; 47]. induction h as [|c h IH]; intros Hs; [done|]. apply not_elem_of_cons in Hs as [Hc Hs].
  cbn [strstr_from is_prefix]. destruct (58 =? c); cbn [andb]; [|by apply IH].
  destruct h as [|d h]; [by apply IH|]. apply not_elem_of_cons in Hs as [Hd Hs'].
  destruct (Z.eqb_spec 47 d); [congruence|]. cbn [andb]. apply IH. by apply not_elem_of_cons.
Qed.

Lemma strcspn_plain a r : plain a -> tail_of_url r -> strcspn (a ++ r) (lit "/?#") = length a.
Proof.
  intros Ha Hr. induction Ha as [|c a Hc Ha IH]; cbn [app strcspn length].
  - destruct r as [|c r]; [done|]. destruct Hr as [|Hc]; [done|]. cbn [strcspn]. by rewrite bool_decide_eq_true_2.
  - rewrite bool_decide_eq_false_2 by (intros Hc'; apply Hc; by right). by f_equal.
Qed.

Lemma take_strip (p a r : cstr) :
  p = a ++ r ->
  (let n := length a in
   take (if (3 <=? n)%nat && strneq 3 (drop (n - 3) p) (lit ":80") then (n - 3)%nat else n) p) = strip80 a.
Proof.
  intros ->. cbv zeta. unfold strip80. destruct (Nat.leb_spec 3 (length a)) as [Hl|Hl]; cbn [andb].
  2: { by rewrite take_app_le, take_ge. }
  assert (strneq 3 (drop (length a - 3) (a ++ r)) (lit ":80") = streq (drop (length a - 3) a) (lit ":80")) as ->.
  { unfold strneq, streq. rewrite drop_app_le, take_app_le by (rewrite ?length_drop; lia).
    rewrite take_ge by (rewrite length_drop; lia). change (take 3 (lit ":80")) with (lit ":80"). done. }
  destruct (streq _ _); [by rewrite take_app_le by lia|]. by rewrite take_app_le, take_ge.
Qed.

Lemma authority_url sch a r : 58 ∉ sch -> plain a -> tail_of_url r -> authority (sch ++ lit "://" ++ a ++ r) = strip80 a.
Proof.
  intros Hs Ha Hr. unfold authority. rewrite strstr_scheme by done. change (drop 3 (lit "://" ++ a ++ r)) with (a ++ r).
  rewrite strcspn_plain by done. by apply (take_strip _ a r).
Qed.

Lemma authority_host h : plain h -> authority h = strip80 h.
Proof.
  intros Hh. unfold authority. rewrite strstr_none by (apply (plain_not _ _ Hh); by apply (bool_decide_eq_true_1 _)).
  pose proof (strcspn_plain h [] Hh (or_introl eq_refl)) as E. rewrite app_nil_r in E. rewrite E.
  apply (take_strip h h []). by rewrite app_nil_r.
Qed.

Lemma forallb_lower a b :
  length a = length b -> forallb (fun xy => tolower xy.1 =? tolower xy.2) (zip a b) = true <-> map tolower a = map tolower b.
Proof.
  revert b. induction a as [|x a IH]; intros [|y b] Hl; try done. cbn. rewrite andb_true_iff, Z.eqb_eq, IH by (cbn in Hl; lia).
  split; [by intros [-> ->]|]. by intros [= -> ->].
Qed.

(** The origin check is on the authority alone: whatever the scheme and the
    path, a page of authority [a] may change state on host [h] exactly if the two
    are the same up to letter case and an explicit port 80. A page of any other
    host is refused. *)
Theorem auth_origin_authority sch a r h :
  58 ∉ sch -> 0 ∉ sch -> plain a -> tail_of_url r -> plain h -> h <> [] ->
  espos_httpd_auth_origin_matches (Some (sch ++ lit "://" ++ a ++ r)) (Some h) = true <->
  strip80 a <> [] /\ map tolower (strip80 a) = map tolower (strip80 h).
Proof.
  intros Hs H0 Ha Hr Hh Hne. unfold espos_httpd_auth_origin_matches.
  assert ((byte0 (sch ++ lit "://" ++ a ++ r) =? 0) = false) as ->.
  { destruct sch as [|c sch]; [done|]. cbn. apply not_elem_of_cons in H0 as [? _]. by apply Z.eqb_neq. }
  assert ((byte0 h =? 0) = false) as ->.
  { destruct h as [|c h]; [done|]. cbn. apply Forall_cons in Hh as [Hc _]. apply not_elem_of_cons in Hc as [? _]. by apply Z.eqb_neq. }
  cbn [orb]. rewrite authority_url, authority_host by done.
  assert (Hz : (length (strip80 a) =? 0)%nat = true <-> strip80 a = []) by (rewrite Nat.eqb_eq; apply length_zero_iff_nil).
  destruct (length (strip80 a) =? 0)%nat; cbn [orb]; [naive_solver|].
  destruct (Nat.eqb_spec (length (strip80 a)) (length (strip80 h))) as [El|El]; cbn [negb].
  - rewrite forallb_lower by done. naive_solver.
  - split; [done|]. intros [_ E]. apply (f_equal length) in E. rewrite !length_map in E. congruence.
Qed.

(** * Witnesses *)

Definition bench_policy : espos_httpd_auth_policy_t :=
  espos_httpd_auth_policy_set_key (espos_httpd_auth_policy_init 2 3600 true) (Some (lit "hunter2")).

Lemma bench_policy_wf : auth_wf bench_policy.
Proof.
  refine (ai_wf 2 _ (auth_run_inv 2 3600 true [OpSetKey (Some (lit "hunter2"))] _)).
  constructor; [|constructor]. cbn. rewrite !not_elem_of_cons. by split_and!; try apply not_elem_of_nil.
Defined.

Lemma auth_decide_sound_witness :
  (espos_httpd_auth_policy_decide bench_policy 5 5 (AuthRequest (Some (lit "hunter2")) None None None true false)).1.1
  = ESPOS_HTTPD_AUTH_ALLOW.
Proof.
  refine (proj2 (auth_decide_sound bench_policy 5 5 (AuthRequest (Some (lit "hunter2")) None None None true false) bench_policy_wf) _).
  right; right. split; [by vm_compute|]. by vm_compute.
Defined.

(** Wrong keys with the right one in between. *)
Definition mixed_keys : list (Z * cstr) :=
  [(1, lit "a"); (1, lit "b"); (2, lit "c"); (3, lit "d"); (3, lit "hunter2"); (4, lit "f"); (4, lit "g"); (4, lit "h"); (4, lit "i"); (4, lit "j"); (4, lit "k")].

Lemma auth_guess_rate_witness :
  let '(wrong, good, _) := guess bench_policy mixed_keys in
  Z.of_nat wrong <= 9 + 4 * Z.of_nat good /\ (Forall (fun g => g.2 <> key bench_policy) mixed_keys -> Z.of_nat wrong <= 9).
Proof.
  refine (auth_guess_rate bench_policy 0 mixed_keys bench_policy_wf _ _ _); [by vm_compute| |].
  - apply (bool_decide_eq_true_1 (Forall (fun g : Z * cstr => 0 <= g.1 < 0 + 30) mixed_keys)). vm_compute. reflexivity.
  - repeat first [apply SSorted_nil | apply SSorted_cons | apply Forall_nil_2 | apply Forall_cons_2 | by vm_compute].
Defined.

(** Nine of the ten wrong keys were judged, since the right one was accepted once. *)
Example mixed_judged : (guess bench_policy mixed_keys).1 = (9%nat, 1%nat).
Proof. vm_compute. reflexivity. Qed.

Lemma auth_sessions_minted_witness :
  let '(p, minted) := auth_run 2 3600 true [OpSetKey (Some (lit "k")); OpOpen 7 (1, 2, 3, 4) 33] in
  auth_wf p /\ length (sessions p) = 2%nat /\
  ((espos_httpd_auth_policy_session_valid p 8 (Some (lit "cookie"))).1 = true -> lit "cookie" ∈ minted).
Proof.
  refine (auth_sessions_minted 2 3600 true [OpSetKey (Some (lit "k")); OpOpen 7 (1, 2, 3, 4) 33] 8 (lit "cookie") _).
  repeat constructor. cbn. rewrite not_elem_of_cons. by split; [|apply not_elem_of_nil].
Defined.

Lemma auth_session_open_works_witness :
  exists id i old p',
    espos_httpd_auth_policy_session_open bench_policy (u32 100) (1, 2, 3, 4) 33 = (Some id, p') /\
    (forall t, 100 <= t < 100 + ttl_s bench_policy -> (espos_httpd_auth_policy_session_valid p' (u32 t) (Some id)).1 = true) /\
    sessions (sweep bench_policy (u32 100)) !! i = Some old /\
    (used old = false \/ Forall (fun s => used s = true) (sessions (sweep bench_policy (u32 100)))) /\
    (forall j, j <> i -> sessions p' !! j = sessions (sweep bench_policy (u32 100)) !! j).
Proof.
  refine (auth_session_open_works bench_policy 100 (1, 2, 3, 4) 33 bench_policy_wf _ _ _); [by vm_compute| |by vm_compute].
  unfold ESPOS_HTTPD_AUTH_SID_LEN. lia.
Defined.

Lemma auth_origin_authority_witness :
  espos_httpd_auth_origin_matches (Some (lit "http" ++ lit "://" ++ lit "Boat.local:80" ++ lit "/ui")) (Some (lit "boat.local")) = true.
Proof.
  refine (proj2 (auth_origin_authority (lit "http") (lit "Boat.local:80") (lit "/ui") (lit "boat.local") _ _ _ _ _ _) _).
  all: try (apply (bool_decide_eq_true_1 _); vm_compute; reflexivity).
Defined.
