(* ===== verification/HealthTable.v ===== *)
(** The condition table of [espos_health]: [espos_health.c] and
    [espos_health.h].

    The table, its sinks and the synthetic conditions (drills). The mutexes, the
    clock and the sinks are the port: taking a lock may time out at every single
    call, which is how the code's error paths are reached. A sink acts on the
    world; one that reports a condition of its own is not modelled. *)
From Stdlib Require Import ZArith Lia String.
From stdpp Require Import base list numbers sets.
From S2P Require Import Prelude.
Open Scope Z_scope.

(** * Data *)

Definition ESPOS_HEALTH_KEY_MAX : nat := 24.
Definition ESPOS_HEALTH_MSG_MAX : nat := 96.
Definition ESPOS_HEALTH_F_REBOOT_ON_ALARM : Z := 1.
Definition ESPOS_HEALTH_TEST_PREFIX : cstr := lit "test.".
Definition ESPOS_HEALTH_TEST_TTL_MAX_MS : Z := 300 * 1000.
Definition REPLAY_PASSES : nat := 4.

Inductive espos_health_state_t := ESPOS_HEALTH_NORMAL | ESPOS_HEALTH_WARN | ESPOS_HEALTH_ALARM.
#[export] Instance espos_health_state_eq_dec : EqDecision espos_health_state_t.
Proof. solve_decision. Defined.

Definition state_val (s : espos_health_state_t) : Z :=
  match s with ESPOS_HEALTH_NORMAL => 0 | ESPOS_HEALTH_WARN => 1 | ESPOS_HEALTH_ALARM => 2 end.

Inductive health_err :=
  | HEALTH_OK | HEALTH_ERR_INVALID_ARG | HEALTH_ERR_INVALID_SIZE | HEALTH_ERR_INVALID_STATE
  | HEALTH_ERR_NO_MEM | HEALTH_ERR_TIMEOUT | HEALTH_ERR_NOT_FOUND.
#[export] Instance health_err_eq_dec : EqDecision health_err.
Proof. solve_decision. Defined.

Record espos_health_condition_t := HealthCondition {
  c_key : cstr;
  c_state : espos_health_state_t;
  c_message : cstr;
  c_flags : Z
}.
#[export] Instance health_condition_eta : Eta espos_health_condition_t := fun r =>
  HealthCondition (c_key r) (c_state r) (c_message r) (c_flags r).

(** A registered sink: function and argument, as opaque identities. *)
Record sink_t := Sink { fn : Z; arg : Z }.
#[export] Instance sink_eq_dec : EqDecision sink_t.
Proof. solve_decision. Defined.

Record health_t := Health {
  cond : list espos_health_condition_t;
  sink : list sink_t;
  test_key : cstr;
  test_deadline_ms : Z;
  test_armed : bool;
  test_pending_clear : cstr
}.
#[export] Instance health_eta : Eta health_t := fun r =>
  Health (cond r) (sink r) (test_key r) (test_deadline_ms r) (test_armed r) (test_pending_clear r).
Definition health_zero : health_t := Health [] [] [] 0 false [].

Record health_port_t (W : Type) := HealthPort {
  take_lock : W -> bool * W;
  take_test_lock : W -> bool * W;
  espos_health_port_now_ms : W -> Z * W;
  call_sink : sink_t -> cstr -> espos_health_state_t -> cstr -> W -> unit * W
}.
Arguments take_lock {W} _.
Arguments take_test_lock {W} _.
Arguments espos_health_port_now_ms {W} _.
Arguments call_sink {W} _.

Inductive health_obs := OSink (sk : sink_t) (key : cstr) (state : espos_health_state_t) (message : cstr).

(** * The table *)

(** The first condition with this key. *)
Fixpoint find_cond (l : list espos_health_condition_t) (key : cstr) : option nat :=
  match l with
  | [] => None
  | c :: l' => if streq (c_key c) key then Some 0%nat else S <$> find_cond l' key
  end.

Section Table.
Context {W : Type} (port : health_port_t W).
(** [CONFIG_ESPOS_HEALTH_MAX_CONDITIONS], [CONFIG_ESPOS_HEALTH_MAX_SINKS] *)
Context (MAX_CONDITIONS MAX_SINKS : nat).

Abbreviation hact := (act health_t W health_obs).

Definition lock : hact bool := query (take_lock port).

Definition tell (sk : sink_t) (key : cstr) (state : espos_health_state_t) (message : cstr) : hact unit :=
  call (call_sink port sk key state message) (fun _ => OSink sk key state message).

Fixpoint tell_all (sks : list sink_t) (key : cstr) (state : espos_health_state_t) (message : cstr) : hact unit :=
  match sks with
  | [] => mret tt
  | sk :: sks' => tell sk key state message;; tell_all sks' key state message
  end.

Definition fan_out (key : cstr) (state : espos_health_state_t) (message : cstr) : hact unit :=
  ok ← lock;
  if negb ok then mret tt
  else snapshot ← gets sink; tell_all snapshot key state message.

(** Under the lock: what becomes of the table, and whether the sinks are told;
    [None] when there is no slot. *)
Definition record (l : list espos_health_condition_t) (key : cstr) (state : espos_health_state_t)
    (message : cstr) (flags : Z) : option (list espos_health_condition_t * bool) :=
  match find_cond l key with
  | None =>
      if (MAX_CONDITIONS <=? length l)%nat then None
      else Some (l ++ [HealthCondition (snprintf_s ESPOS_HEALTH_KEY_MAX key) state
                                       (snprintf_s ESPOS_HEALTH_MSG_MAX message) flags], true)
  | Some i =>
      match l !! i with
      | None => None
      | Some c =>
          if bool_decide (c_state c = state) && streq (c_message c) message
          then Some (<[i := c <| c_flags := flags |>]> l, false)
          else Some (<[i := c <| c_state := state |> <| c_flags := flags |>
                              <| c_message := snprintf_s ESPOS_HEALTH_MSG_MAX message |>]> l, true)
      end
  end.

Definition report_invalid (key : option cstr) (message : option cstr) (flags : Z) : option health_err :=
  match key with
  | None => Some HEALTH_ERR_INVALID_ARG
  | Some k =>
      if byte0 k =? 0 then Some HEALTH_ERR_INVALID_ARG
      else if negb (Z.land flags (Z.lnot ESPOS_HEALTH_F_REBOOT_ON_ALARM) =? 0) then Some HEALTH_ERR_INVALID_ARG
      else if (ESPOS_HEALTH_KEY_MAX <=? length k)%nat then Some HEALTH_ERR_INVALID_SIZE
      else if (ESPOS_HEALTH_MSG_MAX <=? length (default [] message))%nat then Some HEALTH_ERR_INVALID_SIZE
      else None
  end.

Definition espos_health_report_ex (key : option cstr) (state : espos_health_state_t) (message : option cstr)
    (flags : Z) : hact health_err :=
  match report_invalid key message flags with
  | Some e => mret e
  | None =>
      let k := default [] key in
      let msg := default [] message in
      ok ← lock;
      if negb ok then mret HEALTH_ERR_TIMEOUT
      else
        l ← gets cond;
        match record l k state msg flags with
        | None => mret HEALTH_ERR_NO_MEM
        | Some (l', changed) =>
            mods (fun s => s <| cond := l' |>);;
            if (changed : bool) then fan_out k state msg;; mret HEALTH_OK else mret HEALTH_OK
        end
  end.

Definition espos_health_report (key : option cstr) (state : espos_health_state_t) (message : option cstr) : hact health_err :=
  espos_health_report_ex key state message 0.

Definition cond_settled (s : health_t) (i : nat) (c : espos_health_condition_t) : bool :=
  match cond s !! i with
  | None => true
  | Some c' => bool_decide (c_state c' = c_state c) && streq (c_message c') (c_message c)
  end.

(** The passes over one condition; the result says whether the newest state was
    the last one sent, or [None] that the lock timed out. *)
Fixpoint replay_passes (passes : nat) (sk : sink_t) (i : nat) (c : espos_health_condition_t) : hact (option bool) :=
  match passes with
  | O => mret (Some false)
  | S n =>
      tell sk (c_key c) (c_state c) (c_message c);;
      ok ← lock;
      if negb ok then mret None
      else
        s ← gets id;
        if cond_settled s i c then mret (Some true)
        else replay_passes n sk i (default c (cond s !! i))
  end.

(** The loop over the table, from index [i]; [fuel] bounds the conditions. *)
Fixpoint replay_from (fuel : nat) (sk : sink_t) (i : nat) (incomplete : bool) : hact health_err :=
  match fuel with
  | O => mret HEALTH_ERR_TIMEOUT
  | S fuel' =>
      ok ← lock;
      if negb ok then mret HEALTH_ERR_TIMEOUT
      else
        s ← gets id;
        match cond s !! i with
        | None => mret (if incomplete then HEALTH_ERR_TIMEOUT else HEALTH_OK)
        | Some c =>
            r ← replay_passes REPLAY_PASSES sk i c;
            match r with
            | None => mret HEALTH_ERR_TIMEOUT
            | Some settled => replay_from fuel' sk (S i) (if (settled : bool) then incomplete else true)
            end
        end
  end.

Definition espos_health_replay (sk : option sink_t) : hact health_err :=
  match sk with
  | None => mret HEALTH_ERR_INVALID_ARG
  | Some sk => replay_from (S MAX_CONDITIONS) sk 0 false
  end.

Definition espos_health_add_sink (sk : option sink_t) : hact health_err :=
  match sk with
  | None => mret HEALTH_ERR_INVALID_ARG
  | Some k =>
      ok ← lock;
      if negb ok then mret HEALTH_ERR_TIMEOUT
      else
        s ← gets id;
        if bool_decide (k ∈ sink s) then mret HEALTH_ERR_INVALID_STATE
        else if (MAX_SINKS <=? length (sink s))%nat then mret HEALTH_ERR_NO_MEM
        else
          mods (fun s => s <| sink ::= fun l => l ++ [k] |>);;
          espos_health_replay sk;;
          mret HEALTH_OK
  end.

(** The last sink takes the place of the one removed. *)
Definition drop_sink (l : list sink_t) (i : nat) : list sink_t :=
  match last l with
  | None => l
  | Some x => take (pred (length l)) (<[i := x]> l)
  end.

Definition espos_health_remove_sink (sk : sink_t) : hact health_err :=
  ok ← lock;
  if negb ok then mret HEALTH_ERR_TIMEOUT
  else
    s ← gets id;
    match list_find (eq sk) (sink s) with
    | Some (i, _) => mods (fun s => s <| sink ::= fun l => drop_sink l i |>);; mret HEALTH_OK
    | None => mret HEALTH_ERR_NOT_FOUND
    end.

(** The conditions copied out, and how many there are. *)
Definition espos_health_snapshot (max : nat) : hact (list espos_health_condition_t * nat) :=
  ok ← lock;
  if negb ok then mret ([], 0%nat)
  else s ← gets id; mret (take max (cond s), length (cond s)).

Definition worst_of (l : list espos_health_condition_t) : espos_health_state_t :=
  foldl (fun w c => if state_val (c_state c) >? state_val w then c_state c else w) ESPOS_HEALTH_NORMAL l.

Definition espos_health_worst : hact espos_health_state_t :=
  ok ← lock;
  if negb ok then mret ESPOS_HEALTH_NORMAL
  else s ← gets id; mret (worst_of (cond s)).

Definition is_fatal (c : espos_health_condition_t) : bool :=
  bool_decide (c_state c = ESPOS_HEALTH_ALARM) && negb (Z.land (c_flags c) ESPOS_HEALTH_F_REBOOT_ON_ALARM =? 0).

Definition espos_health_fatal_alarm : hact (option espos_health_condition_t) :=
  ok ← lock;
  if negb ok then mret None
  else s ← gets id; mret (snd <$> list_find (fun c => is_fatal c = true) (cond s)).

(** * Drills *)

Definition flush_pending_clear : hact bool :=
  ok ← lock;
  if negb ok then mret false
  else
    due ← gets test_pending_clear;
    if byte0 due =? 0 then mret true
    else
      e ← espos_health_report_ex (Some due) ESPOS_HEALTH_NORMAL (Some []) 0;
      if negb (bool_decide (e = HEALTH_OK)) then mret false
      else
        ok ← lock;
        if negb ok then mret false
        else
          mods (fun s => if streq (test_pending_clear s) due then s <| test_pending_clear := [] |> else s);;
          mret true.

(** [strncmp(key, "test.", 5) == 0], and what follows the prefix is not empty *)
Definition test_invalid (key : option cstr) (state : espos_health_state_t) (message : option cstr) (ttl_ms : Z)
    : option health_err :=
  match key with
  | None => Some HEALTH_ERR_INVALID_ARG
  | Some k =>
      if negb (strneq (length ESPOS_HEALTH_TEST_PREFIX) k ESPOS_HEALTH_TEST_PREFIX) then Some HEALTH_ERR_INVALID_ARG
      else if (length k =? length ESPOS_HEALTH_TEST_PREFIX)%nat then Some HEALTH_ERR_INVALID_ARG
      else if negb (bool_decide (state = ESPOS_HEALTH_NORMAL))
              && ((ttl_ms =? 0) || (ttl_ms >? ESPOS_HEALTH_TEST_TTL_MAX_MS)) then Some HEALTH_ERR_INVALID_ARG
      else if (ESPOS_HEALTH_KEY_MAX <=? length k)%nat then Some HEALTH_ERR_INVALID_SIZE
      else if (ESPOS_HEALTH_MSG_MAX <=? length (default [] message))%nat then Some HEALTH_ERR_INVALID_SIZE
      else None
  end.

(** The critical section that claims the previous drill and arms the new one;
    the result is the drill that is superseded, empty if there is none. *)
Definition arm_drill (k : cstr) (raising : bool) (ttl_ms : Z) : hact cstr :=
  s ← gets id;
  let previous := if test_armed s && negb (streq (test_key s) k)
                  then snprintf_s ESPOS_HEALTH_KEY_MAX (test_key s) else [] in
  (if test_armed s && negb (streq (test_key s) k)
   then mods (fun s => s <| test_pending_clear := previous |>) else mret tt);;
  (if raising then
     t ← query (espos_health_port_now_ms port);
     mods (fun s => s <| test_key := snprintf_s ESPOS_HEALTH_KEY_MAX k |>
                      <| test_deadline_ms := u32 (u32 t + ttl_ms) |> <| test_armed := true |>)
   else if streq (test_key s) k then
     mods (fun s => s <| test_armed := false |> <| test_key := [] |>)
   else mret tt);;
  mret previous.

(** The report failed: put the bookkeeping back, unless the lock times out. *)
Definition rollback_drill (saved : health_t) (previous : cstr) : hact unit :=
  ok ← lock;
  if negb ok then mret tt
  else
    mods (fun s =>
            let s := s <| test_key := test_key saved |> <| test_deadline_ms := test_deadline_ms saved |>
                       <| test_armed := test_armed saved |> in
            if negb (byte0 previous =? 0) && streq (test_pending_clear s) previous
            then s <| test_pending_clear := [] |> else s).

(** The superseded drill is cleared and its claim released. *)
Definition clear_superseded (previous : cstr) : hact unit :=
  if byte0 previous =? 0 then mret tt
  else
    e ← espos_health_report_ex (Some previous) ESPOS_HEALTH_NORMAL (Some []) 0;
    if negb (bool_decide (e = HEALTH_OK)) then mret tt
    else
      ok ← lock;
      if negb ok then mret tt
      else mods (fun s => if streq (test_pending_clear s) previous then s <| test_pending_clear := [] |> else s).

Definition espos_health_report_test (key : option cstr) (state : espos_health_state_t) (message : option cstr)
    (ttl_ms : Z) : hact health_err :=
  match test_invalid key state message ttl_ms with
  | Some e => mret e
  | None =>
      let k := default [] key in
      ok ← query (take_test_lock port);
      if negb ok then mret HEALTH_ERR_TIMEOUT
      else
        flushed ← flush_pending_clear;
        if negb flushed then mret HEALTH_ERR_TIMEOUT
        else
          ok ← lock;
          if negb ok then mret HEALTH_ERR_TIMEOUT
          else
            saved ← gets id;
            previous ← arm_drill k (negb (bool_decide (state = ESPOS_HEALTH_NORMAL))) ttl_ms;
            err ← espos_health_report_ex (Some k) state (Some (default [] message)) 0;
            if negb (bool_decide (err = HEALTH_OK)) then
              rollback_drill saved previous;;
              mret err
            else
              clear_superseded previous;;
              mret HEALTH_OK
  end.

Definition espos_health_test_expire : hact bool :=
  ok ← query (take_test_lock port);
  if negb ok then mret false
  else
    flush_pending_clear;;
    ok ← lock;
    if negb ok then mret false
    else
      s ← gets id;
      due ← (if test_armed s then
               t ← query (espos_health_port_now_ms port);
               mret (if i32 (u32 t - test_deadline_ms s) >=? 0 then snprintf_s ESPOS_HEALTH_KEY_MAX (test_key s) else [])
             else mret []);
      if byte0 due =? 0 then mret false
      else
        e ← espos_health_report_ex (Some due) ESPOS_HEALTH_NORMAL (Some []) 0;
        if negb (bool_decide (e = HEALTH_OK)) then mret false
        else
          ok ← lock;
          (if negb ok then mret tt
           else mods (fun s => if test_armed s && streq (test_key s) due
                               then s <| test_armed := false |> <| test_key := [] |> else s));;
          mret true.

Definition espos_health_reset : hact unit :=
  ok ← lock;
  if negb ok then mret tt
  else mods (fun s => s <| cond := [] |> <| sink := [] |> <| test_armed := false |> <| test_key := [] |>
                        <| test_pending_clear := [] |>).

End Table.
