(* ===== verification/HealthProps.v ===== *)
(** Correctness of the condition table ([HealthTable]): what a report does, and
    that a drill can neither outlive its bookkeeping nor reboot the device. *)
From Stdlib Require Import ZArith Lia String.
From stdpp Require Import base list numbers sets.
From S2P Require Import Prelude HealthTable.
Open Scope Z_scope.

(** * The table *)

Definition key_ok (k : cstr) : Prop := byte0 k <> 0 /\ (length k < ESPOS_HEALTH_KEY_MAX)%nat.

(** A key of a drill. *)
Definition is_test (k : cstr) : Prop :=
  take (length ESPOS_HEALTH_TEST_PREFIX) k = ESPOS_HEALTH_TEST_PREFIX /\ (length k < ESPOS_HEALTH_KEY_MAX)%nat.

(** A condition under this key is not normal. *)
Definition raised (l : list espos_health_condition_t) (k : cstr) : Prop :=
  exists c, c ∈ l /\ c_key c = k /\ c_state c <> ESPOS_HEALTH_NORMAL.

Record table_ok (max : nat) (l : list espos_health_condition_t) : Prop := mk_table_ok {
  tb_keys : NoDup (map c_key l);
  tb_size : (length l <= max)%nat;
  tb_wf : Forall (fun c => key_ok (c_key c) /\ (length (c_message c) < ESPOS_HEALTH_MSG_MAX)%nat) l;
  (** a drill never carries the flag that reboots *)
  tb_harmless : Forall (fun c => is_test (c_key c) -> c_flags c = 0) l
}.

Lemma find_cond_some l k i : find_cond l k = Some i -> exists c, l !! i = Some c /\ c_key c = k.
Proof.
  revert i. induction l as [|c l IH]; intros i; cbn [find_cond]; [done|].
  destruct (streq (c_key c) k) eqn:E.
  - intros [= <-]. exists c. split; [done|]. by apply bool_decide_eq_true in E.
  - destruct (find_cond l k) as [j|]; [|done]. intros [= <-]. apply IH. done.
Qed.

Lemma find_cond_none l k : find_cond l k = None -> k ∉ map c_key l.
Proof.
  induction l as [|c l IH]; cbn [find_cond]; intros H; [apply not_elem_of_nil|].
  destruct (streq (c_key c) k) eqn:E; [done|]. apply bool_decide_eq_false in E.
  destruct (find_cond l k); [done|]. cbn. apply not_elem_of_cons. split; [done|]. by apply IH.
Qed.

Lemma insert_keys l i c c' : l !! i = Some c -> c_key c' = c_key c -> map c_key (<[i := c']> l) = map c_key l.
Proof.
  intros Hi Hk. change (c_key <$> <[i := c']> l = c_key <$> l). rewrite list_fmap_insert, Hk. apply list_insert_id.
  rewrite list_lookup_fmap, Hi. done.
Qed.

(** What a recorded report makes of the table. *)
Record recorded (l l' : list espos_health_condition_t) (k : cstr) (st : espos_health_state_t) (msg : cstr) (fl : Z) : Prop :=
  mk_recorded {
  rc_there : HealthCondition k st msg fl ∈ l';
  rc_others : forall c, c_key c <> k -> c ∈ l' <-> c ∈ l;
  rc_keys : forall c, c ∈ l' -> c_key c = k -> c = HealthCondition k st msg fl
}.

(** Setting the one condition of a key. *)
Lemma insert_recorded l i c k st msg fl :
  NoDup (map c_key l) -> l !! i = Some c -> c_key c = k ->
  recorded l (<[i := HealthCondition k st msg fl]> l) k st msg fl.
Proof.
  intros Hnd Hi Hk. assert (Hlt : (i < length l)%nat) by (by eapply lookup_lt_Some).
  assert (Hj : forall j d, l !! j = Some d -> c_key d = k -> j = i).
  { intros j d Hd Hdk. eapply NoDup_lookup; [exact Hnd| |]; rewrite list_lookup_fmap.
    - rewrite Hd. cbn. by rewrite Hdk.
    - rewrite Hi. cbn. by rewrite Hk. }
  split.
  - apply list_elem_of_lookup. exists i. by apply list_lookup_insert_eq.
  - intros d Hd. rewrite !list_elem_of_lookup. split; intros [j Hjd].
    + destruct (decide (i = j)) as [->|Hne]; [rewrite list_lookup_insert_eq in Hjd by done; naive_solver|].
      exists j. by rewrite list_lookup_insert_ne in Hjd.
    + exists j. rewrite list_lookup_insert_ne; [done|]. intros ->. congruence.
  - intros d Hd Hdk. apply list_elem_of_lookup in Hd as [j Hd]. destruct (decide (i = j)) as [->|Hne].
    + rewrite list_lookup_insert_eq in Hd by done. congruence.
    + rewrite list_lookup_insert_ne in Hd by done. destruct Hne. symmetry. by eapply Hj.
Qed.

Lemma record_spec max l k st msg fl l' ch :
  table_ok max l -> key_ok k -> (length msg < ESPOS_HEALTH_MSG_MAX)%nat -> (is_test k -> fl = 0) ->
  record max l k st msg fl = Some (l', ch) ->
  table_ok max l' /\ recorded l l' k st msg fl.
Proof.
  intros [Hnd Hsz Hwf Hh] [Hk0 Hk] Hmsg Hfl. unfold record.
  assert (Ek : snprintf_s ESPOS_HEALTH_KEY_MAX k = k) by (apply take_ge; unfold ESPOS_HEALTH_KEY_MAX in *; lia).
  assert (Em : snprintf_s ESPOS_HEALTH_MSG_MAX msg = msg) by (apply take_ge; unfold ESPOS_HEALTH_MSG_MAX in *; lia).
  destruct (find_cond l k) as [i|] eqn:Ef.
  - apply find_cond_some in Ef as (c & Hi & Hck). rewrite Hi.
    assert (Hins : forall c', c' = HealthCondition k st msg fl -> table_ok max (<[i := c']> l) /\ recorded l (<[i := c']> l) k st msg fl).
    { intros c' ->. split; [|by eapply insert_recorded]. split.
      - rewrite (insert_keys l i c) by done. done.
      - by rewrite length_insert.
      - apply Forall_insert; done.
      - apply Forall_insert; done. }
    destruct (bool_decide (c_state c = st) && streq (c_message c) msg) eqn:E; intros [= <- _]; apply Hins.
    + apply andb_prop in E as [E1 E2]. apply bool_decide_eq_true in E1, E2. destruct c; cbn in *; congruence.
    + rewrite Em. destruct c; cbn in *; congruence.
  - apply find_cond_none in Ef. destruct (Nat.leb_spec max (length l)) as [|Hlt]; [done|]. rewrite Ek, Em. intros [= <- _].
    split; [split|split].
    + rewrite map_app. cbn. apply NoDup_app. split_and!; [done| |apply NoDup_singleton].
      intros x Hx Hx'. apply list_elem_of_singleton in Hx'. congruence.
    + rewrite length_app. cbn. lia.
    + apply Forall_app. split; [done|]. by apply Forall_singleton.
    + apply Forall_app. split; [done|]. by apply Forall_singleton.
    + apply elem_of_app. right. by apply list_elem_of_singleton.
    + intros c Hc. rewrite elem_of_app, list_elem_of_singleton. naive_solver.
    + intros c Hc Hck. apply elem_of_app in Hc as [Hc|Hc]; [|by apply list_elem_of_singleton in Hc].
      destruct Ef. rewrite <- Hck. by apply list_elem_of_fmap_2.
Qed.

(** The sinks are told exactly if state or message are new for the key. *)
Lemma record_changed max l k st msg fl l' ch :
  table_ok max l -> record max l k st msg fl = Some (l', ch) ->
  ch = false <-> exists fl0, HealthCondition k st msg fl0 ∈ l.
Proof.
  intros [Hnd _ _ _]. unfold record. destruct (find_cond l k) as [i|] eqn:Ef.
  - apply find_cond_some in Ef as (c & Hi & Hck). rewrite Hi.
    destruct (bool_decide (c_state c = st) && streq (c_message c) msg) eqn:E; intros [= _ <-].
    + split; [|done]. intros _. apply andb_prop in E as [E1 E2]. apply bool_decide_eq_true in E1, E2. exists (c_flags c).
      apply list_elem_of_lookup. exists i. rewrite Hi. destruct c; cbn in *; congruence.
    + split; [done|]. intros [fl0 H0]. exfalso. apply list_elem_of_lookup in H0 as [j Hj].
      assert (j = i) as ->.
      { eapply NoDup_lookup; [exact Hnd| |]; rewrite list_lookup_fmap; [rewrite Hj|rewrite Hi; cbn; rewrite Hck]; done. }
      rewrite Hi in Hj. injection Hj as ->. cbn in E. unfold streq in E. rewrite !bool_decide_eq_true_2 in E by done. done.
  - apply find_cond_none in Ef. destruct (_ <=? _)%nat; [done|]. intros [= _ <-]. split; [done|].
    intros [fl0 H0]. destruct Ef. apply (list_elem_of_fmap_2 c_key) in H0. done.
Qed.

Lemma record_none max l k st msg fl :
  record max l k st msg fl = None -> k ∉ map c_key l /\ (max <= length l)%nat.
Proof.
  unfold record. destruct (find_cond l k) as [i|] eqn:Ef.
  - apply find_cond_some in Ef as (c & Hi & Hck). rewrite Hi. by destruct (_ && _).
  - apply find_cond_none in Ef. destruct (Nat.leb_spec max (length l)); done.
Qed.

Lemma report_valid k msg fl :
  key_ok k -> (length msg < ESPOS_HEALTH_MSG_MAX)%nat -> (fl = 0 \/ fl = 1) -> report_invalid (Some k) (Some msg) fl = None.
Proof.
  intros [Hk0 Hk] Hm Hfl. unfold report_invalid. rewrite (proj2 (Z.eqb_neq _ _)) by done.
  assert (negb (Z.land fl (Z.lnot ESPOS_HEALTH_F_REBOOT_ON_ALARM) =? 0) = false) as -> by (by destruct Hfl as [->| ->]).
  change (default [] (Some msg)) with msg. destruct (Nat.leb_spec ESPOS_HEALTH_KEY_MAX (length k)); [lia|].
  destruct (Nat.leb_spec ESPOS_HEALTH_MSG_MAX (length msg)); [lia|done].
Qed.

Lemma recorded_raised l l' k st msg fl k' :
  recorded l l' k st msg fl -> raised l' k' -> (k' = k /\ st <> ESPOS_HEALTH_NORMAL) \/ (k' <> k /\ raised l k').
Proof.
  intros [_ Ho Hk] (c & Hc & <- & Hs). destruct (decide (c_key c = k)) as [E|E]; [left|right].
  - split; [done|]. by rewrite (Hk c Hc E) in Hs.
  - split; [done|]. exists c. split_and!; try done. by apply Ho.
Qed.

(** * Drills *)

(** Every drill that is raised is known to the bookkeeping: it is the armed one,
    or its clearing is pending. *)
Definition tracked (s : health_t) : Prop :=
  forall k, is_test k -> raised (cond s) k ->
    (test_armed s = true /\ test_key s = k) \/ test_pending_clear s = k.

Record health_inv (max : nat) (s : health_t) : Prop := mk_health_inv {
  hi_table : table_ok max (cond s);
  hi_armed : test_armed s = true -> is_test (test_key s);
  hi_pending : test_pending_clear s = [] \/ is_test (test_pending_clear s)
}.

Lemma is_test_ok k : is_test k -> key_ok k.
Proof. intros [Hp Hl]. split; [|done]. by destruct k; [|injection Hp as -> _]. Qed.

Lemma is_test_byte0 k : is_test k -> (byte0 k =? 0) = false.
Proof. intros H. apply Z.eqb_neq. by apply is_test_ok in H as []. Qed.

Lemma is_test_fits k : is_test k -> snprintf_s ESPOS_HEALTH_KEY_MAX k = k.
Proof. intros [_ Hl]. apply take_ge. unfold ESPOS_HEALTH_KEY_MAX in *. lia. Qed.

Ltac hflat := cbn [m_sm m_world m_trace update id cond sink test_key test_deadline_ms test_armed test_pending_clear] in *.

Section Drills.
Context {W : Type} (port : health_port_t W) (MAXC MAXS : nat).
Abbreviation hmach := (mach health_t W health_obs).

Lemma lock_spec Q (s : hmach) : (forall b w, Q b (Mach (m_sm s) w (m_trace s))) -> wp (lock port) Q s.
Proof. intros H. unfold lock. by wp_step. Qed.

Lemma tell_all_spec Q sks k st msg (s : hmach) :
  (forall w, Q tt (Mach (m_sm s) w (reverse (map (fun sk => OSink sk k st msg) sks) ++ m_trace s))) -> wp (tell_all port sks k st msg) Q s.
Proof.
  revert s. induction sks as [|sk sks IH]; intros s H; cbn [tell_all].
  - wp_step. destruct s. apply H.
  - wp_step. unfold tell. wp_step. apply IH. intros w'. cbn [m_sm m_trace]. specialize (H w').
    rewrite map_cons, reverse_cons, <- app_assoc in H. done.
Qed.

Lemma fan_out_spec Q k st msg (s : hmach) :
  (forall w tr, tr = m_trace s \/ tr = reverse (map (fun sk => OSink sk k st msg) (sink (m_sm s))) ++ m_trace s ->
     Q tt (Mach (m_sm s) w tr)) -> wp (fan_out port k st msg) Q s.
Proof.
  intros H. unfold fan_out. wp_step. apply lock_spec. intros b w. destruct b; cbn [negb].
  - do 2 wp_step. cbn [m_sm]. apply tell_all_spec. cbn [m_sm m_trace]. auto.
  - wp_step. auto.
Qed.

(** A report: it fails and changes nothing, or the table has it. *)
Lemma report_ex_spec Q k st msg fl (s : hmach) :
  table_ok MAXC (cond (m_sm s)) -> key_ok k -> (length msg < ESPOS_HEALTH_MSG_MAX)%nat -> (fl = 0 \/ fl = 1 /\ ~ is_test k) ->
  (forall e w tr, e <> HEALTH_OK -> Q e (Mach (m_sm s) w tr)) ->
  (forall l' w tr, table_ok MAXC l' -> recorded (cond (m_sm s)) l' k st msg fl ->
     Q HEALTH_OK (Mach ((m_sm s) <| cond := l' |>) w tr)) ->
  wp (espos_health_report_ex port MAXC (Some k) st (Some msg) fl) Q s.
Proof.
  intros Ht Hk Hm Hfl Hfail Hok. unfold espos_health_report_ex.
  rewrite report_valid by (done || tauto).
  change (default [] (Some k)) with k. change (default [] (Some msg)) with msg. cbv zeta.
  wp_step. apply lock_spec. intros b w. destruct b; cbn [negb]; [|wp_step; by apply Hfail].
  do 2 wp_step. cbn [m_sm]. destruct (record _ _ _ _ _ _) as [[l' ch]|] eqn:Er; [|wp_step; by apply Hfail].
  assert (Hf : is_test k -> fl = 0) by naive_solver.
  destruct (record_spec MAXC _ _ _ _ _ _ _ Ht Hk Hm Hf Er) as [Ht' Hr].
  do 2 wp_step. destruct ch; [|wp_step; by apply Hok]. wp_step. apply fan_out_spec. intros. wp_step. by apply Hok.
Qed.

(** A clearing report of a drill. *)
Lemma clear_spec Q k (s : hmach) :
  table_ok MAXC (cond (m_sm s)) -> is_test k ->
  (forall e w tr, e <> HEALTH_OK -> Q e (Mach (m_sm s) w tr)) ->
  (forall l' w tr, table_ok MAXC l' -> ~ raised l' k -> (forall k', raised l' k' -> raised (cond (m_sm s)) k') ->
     Q HEALTH_OK (Mach ((m_sm s) <| cond := l' |>) w tr)) ->
  wp (espos_health_report_ex port MAXC (Some k) ESPOS_HEALTH_NORMAL (Some []) 0) Q s.
Proof.
  intros Ht Hk Hfail Hok. apply report_ex_spec; try done; [by apply is_test_ok|cbn; unfold ESPOS_HEALTH_MSG_MAX; lia|by left|].
  intros l' w tr Ht' Hr. apply Hok; [done| |].
  - intros Hx. destruct (recorded_raised _ _ _ _ _ _ _ Hr Hx) as [[_ ?]|[? _]]; done.
  - intros k' Hx. destruct (recorded_raised _ _ _ _ _ _ _ Hr Hx) as [[_ ?]|[_ ?]]; done.
Qed.

Definition good (s : hmach) : Prop := health_inv MAXC (m_sm s) /\ tracked (m_sm s).

Definition same_drill (s s' : hmach) : Prop :=
  test_key (m_sm s') = test_key (m_sm s) /\ test_armed (m_sm s') = test_armed (m_sm s) /\
  test_deadline_ms (m_sm s') = test_deadline_ms (m_sm s).

Lemma flush_spec Q (s : hmach) :
  good s ->
  (forall b s', good s' -> same_drill s s' -> (b = true -> test_pending_clear (m_sm s') = []) -> Q b s') ->
  wp (flush_pending_clear port MAXC) Q s.
Proof.
  intros [Hi Ht] H. destruct Hi as [Htb Ha Hp]. unfold flush_pending_clear.
  wp_step. apply lock_spec. intros b w. destruct b; cbn [negb]; [|wp_step; by apply H].
  do 2 wp_step. cbn [m_sm]. destruct Hp as [Hp|Hp].
  { rewrite Hp. cbn. wp_step. apply H; [|done|done]. split; [split; auto|done]. }
  rewrite is_test_byte0 by done. wp_step. apply clear_spec; [done|done| |]; cbn [m_sm m_trace].
  - intros e w' tr' He. rewrite bool_decide_eq_false_2 by done. cbn [negb]. wp_step. apply H; [|done|done]. split; [split; auto|done].
  - intros l' w' tr' Htb' Hnr Hsub. rewrite bool_decide_eq_true_2 by done. cbn [negb].
    destruct s as [[cd sk tk td ta tp] w0 tr0]. cbn in *.
    assert (Hg : forall w1, good (Mach (Health l' sk tk td ta tp) w1 tr')).
    { intros w1. split; [split; cbn; auto|]. intros k Hk Hr. apply (Ht k Hk), Hsub, Hr. }
    wp_step. apply lock_spec. intros b w1. destruct b; cbn [negb m_sm m_trace]; [|wp_step; by apply H].
    do 2 wp_step. unfold streq. cbn [test_pending_clear m_sm m_trace m_world]. rewrite bool_decide_eq_true_2 by done.
    wp_step. apply H; [|done|done].
    split; [split; cbn; auto|]. intros k Hk Hr. cbn in *. destruct (Ht k Hk (Hsub _ Hr)) as [?|Hx]; [by left|]. by subst.
Qed.

(** A string the drill interface accepts. *)
Lemma test_valid key st msg ttl :
  test_invalid key st msg ttl = None ->
  exists k, key = Some k /\ is_test k /\ (length (default [] msg) < ESPOS_HEALTH_MSG_MAX)%nat.
Proof.
  unfold test_invalid. destruct key as [k|]; [|done]. unfold strneq.
  case_bool_decide as Hp; cbn [negb]; [|done]. repeat (case_match; [done|]). intros _. exists k.
  apply Nat.leb_gt in H1, H2. split_and!; [done| |done]. split; [|done]. by rewrite Hp.
Qed.

(** The bookkeeping after the critical section of a report: what is raised now
    is the superseded drill at most, or the one that is being reported. *)
Lemma arm_drill_spec Q k raising ttl (s : hmach) :
  good s -> test_pending_clear (m_sm s) = [] -> is_test k ->
  (forall previous s',
     cond (m_sm s') = cond (m_sm s) -> health_inv MAXC (m_sm s') ->
     (raising = true -> test_armed (m_sm s') = true /\ test_key (m_sm s') = k /\ tracked (m_sm s')) ->
     (raising = false -> forall k', k' <> k -> is_test k' -> raised (cond (m_sm s)) k' ->
        (test_armed (m_sm s') = true /\ test_key (m_sm s') = k') \/ test_pending_clear (m_sm s') = k') ->
     (previous = [] /\ test_pending_clear (m_sm s') = [] \/ is_test previous /\ test_pending_clear (m_sm s') = previous /\ previous <> k /\
        test_armed (m_sm s) = true /\ test_key (m_sm s) = previous) ->
     Q previous s') ->
  wp (arm_drill port k raising ttl) Q s.
Proof.
  intros [[Htb Ha Hp] Ht] Hpe Hk H. unfold arm_drill. do 2 wp_step. cbn [id].
  destruct s as [[cd sk tk td ta tp] w0 tr0]. hflat. subst tp.
  assert (Ht' : forall k', is_test k' -> raised cd k' -> ta = true /\ tk = k').
  { intros k' Hk' Hr. destruct (Ht k' Hk' Hr) as [?|<-]; [done|]. by destruct Hk' as [? _]. }
  clear Ht. destruct (ta && negb (streq tk k)) eqn:Ep.
  - apply andb_prop in Ep as [-> Ep]. apply negb_true_iff in Ep. pose proof Ep as Hne. apply bool_decide_eq_false in Hne.
    assert (Htk : is_test tk) by auto. rewrite (is_test_fits tk) by done. do 3 wp_step. hflat. rewrite Ep.
    destruct raising; repeat wp_step; hflat; rewrite ?(is_test_fits k) by done.
    + apply H; cbn; try done; try (split; cbn; by auto); try (by left); try (right; by auto).
      intros _. split_and!; [done|done|]. intros k' Hk' Hr. right. by apply Ht'.
    + apply H; cbn; try done; try (split; cbn; by auto); try (by left); try (right; by auto).
      intros _ k' Hne' Hk' Hr. right. by apply Ht'.
  - do 3 wp_step. hflat. destruct raising.
    + repeat wp_step. hflat. rewrite (is_test_fits k) by done.
      apply H; cbn; try done; try (split; cbn; by auto); try (by left); try (right; by auto).
      intros _. split_and!; [done|done|]. intros k' Hk' Hr. left. split; [done|].
      destruct (Ht' k' Hk' Hr) as [-> <-]. apply andb_false_iff in Ep as [?|Ep]; [done|].
      apply negb_false_iff, bool_decide_eq_true in Ep. done.
    + destruct (streq tk k) eqn:Es; repeat wp_step; hflat.
      * apply bool_decide_eq_true in Es. subst. apply H; cbn; try done; try (split; cbn; by auto); try (by left); try (right; by auto).
        intros _ k' Hne' Hk' Hr. by destruct (Ht' k' Hk' Hr).
      * apply H; cbn; try done; try (split; cbn; by auto); try (by left); try (right; by auto). intros _ k' Hne' Hk' Hr. left. by apply Ht'.
Qed.

Lemma clear_superseded_spec Q previous (s : hmach) :
  good s -> (previous = [] \/ is_test previous) ->
  (forall s', good s' -> Q tt s') -> wp (clear_superseded port MAXC previous) Q s.
Proof.
  intros [[Htb Ha Hp] Ht] Hpr H. unfold clear_superseded. destruct Hpr as [->|Hpr].
  { cbn [byte0 Z.eqb]. wp_step. apply H. split; [by split|done]. }
  rewrite is_test_byte0 by done. wp_step. apply clear_spec; [done|done| |].
  - intros e w tr He. rewrite bool_decide_eq_false_2 by done. cbn [negb]. wp_step. apply H. split; [by split|done].
  - intros l' w tr Htb' Hnr Hsub. rewrite bool_decide_eq_true_2 by done. cbn [negb].
    destruct s as [[cd sk tk td ta tp] w0 tr0]. hflat.
    assert (Hg : forall w1, good (Mach (Health l' sk tk td ta tp) w1 tr)).
    { intros w1. split; [split; hflat; auto|]. intros k Hk Hr. apply (Ht k Hk), Hsub, Hr. }
    wp_step. apply lock_spec. intros b w1. destruct b; cbn [negb m_sm m_trace]; [|wp_step; by apply H].
    wp_step. hflat. destruct (streq tp previous) eqn:E; [|by apply H]. apply bool_decide_eq_true in E. subst tp.
    apply H. split; [split; hflat; auto|]. intros k Hk Hr. hflat. destruct (Ht k Hk (Hsub _ Hr)) as [?|Hx]; [by left|]. by subst.
Qed.

Lemma rollback_spec Q (s0 : hmach) previous (s : hmach) :
  good s0 -> test_pending_clear (m_sm s0) = [] -> cond (m_sm s) = cond (m_sm s0) -> health_inv MAXC (m_sm s) ->
  (forall s', health_inv MAXC (m_sm s') -> (tracked (m_sm s) -> tracked (m_sm s')) -> Q tt s') ->
  wp (rollback_drill port (m_sm s0) previous) Q s.
Proof.
  intros [[Htb0 Ha0 Hp0] Ht0] Hpe Hc [Htb Ha Hp] H. unfold rollback_drill. wp_step. apply lock_spec. intros b w.
  destruct b; cbn [negb]; [|wp_step; apply H; [by split|done]]. wp_step.
  destruct s as [[cd sk tk td ta tp] w1 tr1], s0 as [[cd0 sk0 tk0 td0 ta0 tp0] w2 tr2]. hflat. subst.
  assert (Htr : forall p, tracked (Health cd0 sk tk0 td0 ta0 p)).
  { intros p k Hk Hr. left. hflat. destruct (Ht0 k Hk Hr) as [?|Hx]; [done|]. hflat. subst. by destruct Hk. }
  destruct (_ && _); apply H; try (intros _; apply Htr); split; hflat; auto.
Qed.

(** A drill that is reported: the invariant stays, and unless the report was an
    unsuccessful clearing every raised drill stays tracked, whatever lock times out. *)
Lemma report_test_inv key st msg ttl (s : hmach) :
  good s ->
  wp (espos_health_report_test port MAXC key st msg ttl)
     (fun e s' => health_inv MAXC (m_sm s') /\ (e = HEALTH_OK \/ st <> ESPOS_HEALTH_NORMAL -> tracked (m_sm s'))) s.
Proof.
  intros Hg. unfold espos_health_report_test. destruct (test_invalid key st msg ttl) eqn:Ev; [wp_step; by destruct Hg|].
  destruct (test_valid _ _ _ _ Ev) as (k & -> & Hk & Hm). change (default [] (Some k)) with k. cbv zeta.
  wp_step. wp_step. destruct a; cbn [negb]; [|wp_step; by destruct Hg].
  wp_step. apply flush_spec; [exact Hg|]. intros b s1 Hg1 _ Hpe. destruct b; cbn [negb]; [|wp_step; by destruct Hg1].
  specialize (Hpe eq_refl). wp_step. apply lock_spec. intros b w1. destruct b; cbn [negb]; [|wp_step; by destruct Hg1].
  set (s2 := Mach (m_sm s1) w1 (m_trace s1)). assert (Hg2 : good s2) by exact Hg1. do 2 wp_step. cbn [id].
  wp_step. apply arm_drill_spec; [exact Hg2|exact Hpe|exact Hk|]. intros previous s3 Hc3 Hi3 Hup Hdown Hprev.
  wp_step. apply report_ex_spec; [by destruct Hi3|by apply is_test_ok|done|by left| |].
  - intros e w3 tr3 He. rewrite bool_decide_eq_false_2 by done. cbn [negb]. wp_step.
    apply (rollback_spec _ s2); [exact Hg2|exact Hpe|exact Hc3|exact Hi3|]. intros s4 Hi4 Ht4. wp_step. split; [done|].
    intros [?|Hst]; [done|]. apply Ht4. apply Hup. rewrite bool_decide_eq_false_2 by done. done.
  - intros l' w3 tr3 Htb' Hrec. rewrite bool_decide_eq_true_2 by done. cbn [negb]. wp_step.
    assert (Hg4 : good (Mach ((m_sm s3) <| cond := l' |>) w3 tr3)).
    { destruct Hi3 as [Htb3 Ha3 Hp3]. split; [by split|]. intros k' Hk' Hr. cbn [m_sm] in *.
      destruct (recorded_raised _ _ _ _ _ _ _ Hrec Hr) as [[-> Hst]|[Hne Hr']].
      - destruct Hup as (? & ? & _); [by rewrite bool_decide_eq_false_2|]. by left.
      - destruct (decide (st = ESPOS_HEALTH_NORMAL)) as [->|Hst].
        + rewrite Hc3 in Hr'. by destruct (Hdown eq_refl k' Hne Hk' Hr') as [[? ?]|?]; [left|right].
        + destruct Hup as (_ & _ & Ht3); [by rewrite bool_decide_eq_false_2|]. by destruct (Ht3 k' Hk' Hr') as [?|?]; [left|right]. }
    apply clear_superseded_spec; [exact Hg4| |].
    + destruct Hprev as [[? _]|[? _]]; auto.
    + intros s5 [Hi5 Ht5]. by wp_step.
Qed.

Lemma expire_inv (s : hmach) : good s -> wp (espos_health_test_expire port MAXC) (fun _ => good) s.
Proof.
  intros Hg. unfold espos_health_test_expire. wp_step. wp_step. destruct a; cbn [negb]; [|by wp_step].
  wp_step. apply flush_spec; [exact Hg|]. intros b s1 [[Htb Ha Hp] Ht] _ _. clear Hg.
  assert (Hg1 : forall w tr, good (Mach (m_sm s1) w tr)) by (intros; split; [by split|done]).
  wp_step. apply lock_spec. intros b1 w1. destruct b1; cbn [negb]; [|by wp_step]. do 2 wp_step. cbn [id m_sm].
  wp_step. destruct (test_armed (m_sm s1)) eqn:Ea.
  2: { wp_step. cbn [byte0 Z.eqb]. by wp_step. }
  do 2 wp_step. wp_step. cbn [m_sm m_world m_trace]. destruct (_ >=? 0).
  2: { cbn [byte0 Z.eqb]. by wp_step. }
  specialize (Ha eq_refl). rewrite is_test_fits, is_test_byte0 by done.
  wp_step. apply clear_spec; [done|done| |]; cbn [m_sm m_trace].
  - intros e w2 tr2 He. rewrite bool_decide_eq_false_2 by done. cbn [negb]. by wp_step.
  - intros l' w2 tr2 Htb' Hnr Hsub. rewrite bool_decide_eq_true_2 by done. cbn [negb].
    destruct s1 as [[cd sk tk td ta tp] w9 tr9]. hflat. subst ta.
    assert (Hg2 : forall w, good (Mach (Health l' sk tk td true tp) w tr2)).
    { intros. split; [by split; hflat|]. intros k Hk Hr. apply (Ht k Hk), Hsub, Hr. }
    wp_step. apply lock_spec. intros b2 w3. wp_step. destruct b2; cbn [negb m_sm m_trace]; [|by do 2 wp_step].
    do 2 wp_step. hflat. unfold streq. rewrite bool_decide_eq_true_2 by done. cbn [andb].
    split; [split; hflat; done|]. intros k Hk Hr. hflat. destruct (Ht k Hk (Hsub _ Hr)) as [[_ ?]|?]; [by subst|by right].
Qed.

(** ** The other operations *)

Lemma flags_valid fl : Z.land fl (Z.lnot ESPOS_HEALTH_F_REBOOT_ON_ALARM) = 0 -> fl = 0 \/ fl = 1.
Proof.
  unfold ESPOS_HEALTH_F_REBOOT_ON_ALARM. rewrite <- Z.ldiff_land. change 1 with (Z.ones 1). rewrite Z.ldiff_ones_r by lia.
  rewrite Z.shiftl_mul_pow2, Z.shiftr_div_pow2 by lia. intros. change (2 ^ 1) with 2 in *. change (Z.ones 1) with 1. div_lia.
Qed.

(** Any report by anybody under a key that is not a drill's. *)
Lemma report_any_inv key st msg fl (s : hmach) :
  good s -> (forall k, key = Some k -> ~ is_test k) ->
  wp (espos_health_report_ex port MAXC key st msg fl) (fun _ => good) s.
Proof.
  intros Hg Hkey. destruct (report_invalid key msg fl) as [e|] eqn:Ev.
  { unfold espos_health_report_ex. rewrite Ev. by wp_step. }
  assert (Hv := Ev). unfold report_invalid in Hv. destruct key as [k|]; [|done].
  destruct (Z.eqb_spec (byte0 k) 0) as [|Hk0]; [done|]. destruct (Z.eqb_spec (Z.land fl (Z.lnot ESPOS_HEALTH_F_REBOOT_ON_ALARM)) 0) as [Hf|]; [|done]. cbn [negb] in Hv.
  destruct (Nat.leb_spec ESPOS_HEALTH_KEY_MAX (length k)); [done|].
  destruct (Nat.leb_spec ESPOS_HEALTH_MSG_MAX (length (default [] msg))) as [|Hm]; [done|].
  assert (Hx : espos_health_report_ex port MAXC (Some k) st msg fl = espos_health_report_ex port MAXC (Some k) st (Some (default [] msg)) fl)
    by (by destruct msg).
  rewrite Hx. pose proof Hg as [[Htb Ha Hp] Ht]. specialize (Hkey k eq_refl).
  apply report_ex_spec; [done|done|done|apply flags_valid in Hf; tauto|by intros; apply Hg|].
  intros l' w tr Htb' Hrec. split; [by split|]. intros k' Hk' Hr. cbn [m_sm] in *.
  destruct (recorded_raised _ _ _ _ _ _ _ Hrec Hr) as [[-> _]|[_ Hr']]; [done|].
  by destruct (Ht k' Hk' Hr') as [?|?]; [left|right].
Qed.

Lemma tell_keeps sk k st msg : keeps m_sm (tell port sk k st msg).
Proof. unfold tell. by keeps_step. Qed.
Lemma lock_keeps : keeps m_sm (lock port).
Proof. unfold lock. by keeps_step. Qed.

Lemma replay_passes_keeps n sk i c : keeps m_sm (replay_passes port n sk i c).
Proof.
  revert c. induction n as [|n IH]; intros c; cbn [replay_passes]; [apply keeps_ret|].
  keeps_step; [apply tell_keeps|]. keeps_step; [apply lock_keeps|]. keeps_step; [keeps_step|]. keeps_step; [keeps_step|].
  keeps_step; [keeps_step|]. apply IH.
Qed.

Lemma replay_from_keeps fuel sk i inc : keeps m_sm (replay_from port fuel sk i inc).
Proof.
  revert i inc. induction fuel as [|fuel IH]; intros i inc; cbn [replay_from]; [apply keeps_ret|].
  keeps_step; [apply lock_keeps|]. keeps_step; [keeps_step|]. keeps_step; [keeps_step|]. keeps_step; [|keeps_step].
  keeps_step; [apply replay_passes_keeps|]. keeps_step; [apply IH|keeps_step].
Qed.

Lemma add_sink_inv sk (s : hmach) : good s -> wp (espos_health_add_sink port MAXC MAXS sk) (fun _ => good) s.
Proof.
  intros Hg. unfold espos_health_add_sink. destruct sk as [sk|]; [|by wp_step].
  wp_step. apply lock_spec. intros b w. destruct b; cbn [negb]; [|by wp_step]. do 2 wp_step. cbn [id m_sm].
  wp_step; [by wp_step|]. wp_step; [by wp_step|]. do 3 wp_step. unfold espos_health_replay.
  eapply wp_mono; [apply replay_from_keeps|]. intros e s' Hs'. wp_step. unfold good. rewrite Hs'. by destruct Hg as [[] ?].
Qed.

Lemma remove_sink_inv sk (s : hmach) : good s -> wp (espos_health_remove_sink port sk) (fun _ => good) s.
Proof.
  intros Hg. unfold espos_health_remove_sink. wp_step. apply lock_spec. intros b w. destruct b; cbn [negb]; [|by wp_step].
  do 2 wp_step. destruct (list_find _ _) as [[i x]|]; [|by wp_step]. do 3 wp_step. by destruct Hg as [[] ?].
Qed.

Lemma reset_inv (s : hmach) : good s -> wp (espos_health_reset port) (fun _ => good) s.
Proof.
  intros Hg. unfold espos_health_reset. wp_step. apply lock_spec. intros b w. destruct b; cbn [negb]; [|by wp_step].
  wp_step. split; [split; cbn; auto; [|done]|].
  - split; [apply NoDup_nil_2|cbn; lia|by constructor|by constructor].
  - intros k _ (c & Hc & _). by apply not_elem_of_nil in Hc.
Qed.

(** A configuration reached by any operations, with locks that time out at any
    moment; reports under other keys, drills raised, drills cleared successfully. *)
Inductive reachable : hmach -> Prop :=
  | reach_init w : reachable (Mach health_zero w [])
  | reach_report s key st msg fl :
      reachable s -> (forall k, key = Some k -> ~ is_test k) ->
      reachable (exec (espos_health_report_ex port MAXC key st msg fl) s)
  | reach_raise s key st msg ttl :
      reachable s -> st <> ESPOS_HEALTH_NORMAL -> reachable (exec (espos_health_report_test port MAXC key st msg ttl) s)
  | reach_clear s key msg ttl :
      reachable s -> (espos_health_report_test port MAXC key ESPOS_HEALTH_NORMAL msg ttl s).1 = HEALTH_OK ->
      reachable (exec (espos_health_report_test port MAXC key ESPOS_HEALTH_NORMAL msg ttl) s)
  | reach_expire s : reachable s -> reachable (exec (espos_health_test_expire port MAXC) s)
  | reach_add s sk : reachable s -> reachable (exec (espos_health_add_sink port MAXC MAXS sk) s)
  | reach_remove s sk : reachable s -> reachable (exec (espos_health_remove_sink port sk) s)
  | reach_reset s : reachable s -> reachable (exec (espos_health_reset port) s).

Lemma reachable_good s : reachable s -> good s.
Proof.
  induction 1 as [w|s key st msg fl _ IH Hk|s key st msg ttl _ IH Hst|s key msg ttl _ IH He|s _ IH|s sk _ IH|s sk _ IH|s _ IH].
  - split; [split; cbn; auto; [|done]|]; [|by intros k _ (c & Hc & _); apply not_elem_of_nil in Hc].
    split; [apply NoDup_nil_2|cbn; lia|by constructor|by constructor].
  - by apply report_any_inv.
  - destruct (report_test_inv key st msg ttl s IH) as [Hi Ht]. split; [exact Hi|]. apply Ht. by right.
  - destruct (report_test_inv key ESPOS_HEALTH_NORMAL msg ttl s IH) as [Hi Ht]. split; [exact Hi|]. apply Ht. by left.
  - by apply expire_inv.
  - by apply add_sink_inv.
  - by apply remove_sink_inv.
  - by apply reset_inv.
Qed.

(** A drill cannot leak: however the locks time out, in any run whose ordinary
    reports stay off the drill prefix and whose clearing calls are not themselves
    refused (that case is [drill_rollback_timeouts]), a synthetic condition that is
    raised is always the armed one, which its time limit clears, or one whose clearing
    is pending; it never carries the flag that makes an alarm fatal, so it can never
    reboot the device; and the table keeps one slot per key within its bound. *)
Theorem drill_always_tracked s :
  reachable s ->
  tracked (m_sm s) /\ table_ok MAXC (cond (m_sm s)) /\
  forall c, c ∈ cond (m_sm s) -> is_test (c_key c) -> is_fatal c = false.
Proof.
  intros Hr. destruct (reachable_good s Hr) as [[Htb _ _] Ht]. split_and!; [done|done|].
  intros c Hc Hk. destruct Htb as [_ _ _ Hh]. rewrite Forall_forall in Hh. unfold is_fatal. rewrite (Hh c Hc Hk). apply andb_false_r.
Qed.

(** ** Obliging locks *)

(** No lock times out. *)
Definition obliging : Prop :=
  (forall w, (take_lock port w).1 = true) /\ (forall w, (take_test_lock port w).1 = true).

Lemma lock_obliging Q (s : hmach) :
  obliging -> (forall w, Q true (Mach (m_sm s) w (m_trace s))) -> wp (lock port) Q s.
Proof.
  intros [Ho _] H. unfold lock, wp, query. specialize (Ho (m_world s)). destruct (take_lock port (m_world s)) as [b w].
  cbn in *. subst. apply H.
Qed.

Lemma find_cond_there l k c : c ∈ l -> c_key c = k -> exists i d, find_cond l k = Some i /\ l !! i = Some d /\ c_key d = k.
Proof.
  intros Hc Hk. destruct (find_cond l k) as [i|] eqn:E.
  - apply find_cond_some in E as (d & ? & ?). by exists i, d.
  - apply find_cond_none in E. destruct E. rewrite <- Hk. by apply list_elem_of_fmap_2.
Qed.

(** What a report does when nothing times out: a valid report is refused only
    for want of a slot for a new key; otherwise the key then has exactly the reported
    state, message and flags and every other condition is untouched, and all sinks
    are told, once each and in the order of registration, exactly if the state or
    the message is not what the table already had. *)
Theorem health_report_recorded k st msg fl (s : hmach) :
  obliging -> table_ok MAXC (cond (m_sm s)) -> key_ok k -> (length msg < ESPOS_HEALTH_MSG_MAX)%nat ->
  (fl = 0 \/ fl = 1 /\ ~ is_test k) ->
  let r := espos_health_report_ex port MAXC (Some k) st (Some msg) fl s in
  let known := exists fl0, HealthCondition k st msg fl0 ∈ cond (m_sm s) in
  (r.1 = HEALTH_ERR_NO_MEM /\ m_sm r.2 = m_sm s /\ m_trace r.2 = m_trace s /\
     k ∉ map c_key (cond (m_sm s)) /\ (MAXC <= length (cond (m_sm s)))%nat) \/
  (r.1 = HEALTH_OK /\ recorded (cond (m_sm s)) (cond (m_sm r.2)) k st msg fl /\
     ((known /\ m_trace r.2 = m_trace s) \/
      (~ known /\ m_trace r.2 = reverse (map (fun sk => OSink sk k st msg) (sink (m_sm s))) ++ m_trace s))).
Proof.
  intros Ho Ht Hk Hm Hfl r known. subst r.
  change (wp (espos_health_report_ex port MAXC (Some k) st (Some msg) fl) (fun e s' =>
    (e = HEALTH_ERR_NO_MEM /\ m_sm s' = m_sm s /\ m_trace s' = m_trace s /\
       k ∉ map c_key (cond (m_sm s)) /\ (MAXC <= length (cond (m_sm s)))%nat) \/
    (e = HEALTH_OK /\ recorded (cond (m_sm s)) (cond (m_sm s')) k st msg fl /\
     ((known /\ m_trace s' = m_trace s) \/
      (~ known /\ m_trace s' = reverse (map (fun sk => OSink sk k st msg) (sink (m_sm s))) ++ m_trace s)))) s).
  unfold espos_health_report_ex. rewrite report_valid by (done || tauto).
  change (default [] (Some k)) with k. change (default [] (Some msg)) with msg. cbv zeta.
  wp_step. apply lock_obliging; [done|]. intros w. cbn [negb]. do 2 wp_step. cbn [m_sm m_trace].
  destruct (record _ _ _ _ _ _) as [[l' ch]|] eqn:Er.
  2: { wp_step. left. destruct (record_none _ _ _ _ _ _ Er). done. }
  assert (Hf : is_test k -> fl = 0) by naive_solver.
  destruct (record_spec MAXC _ _ _ _ _ _ _ Ht Hk Hm Hf Er) as [Ht' Hr].
  pose proof (record_changed _ _ _ _ _ _ _ _ Ht Er) as Hch. do 2 wp_step. destruct ch.
  - wp_step. unfold fan_out. wp_step. apply lock_obliging; [done|]. intros w1. cbn [negb]. do 2 wp_step. cbn [m_sm m_trace].
    apply tell_all_spec. intros w2. cbn [m_sm m_trace]. wp_step. right. split_and!; [done|done|]. right. split; [|done].
    intros Hkn. by apply Hch in Hkn.
  - wp_step. right. split_and!; [done|done|]. left. split; [by apply Hch|done].
Qed.

Lemma clear_obliging Q k (s : hmach) :
  obliging -> table_ok MAXC (cond (m_sm s)) -> is_test k -> raised (cond (m_sm s)) k ->
  (forall l' w tr, ~ raised l' k -> Q HEALTH_OK (Mach ((m_sm s) <| cond := l' |>) w tr)) ->
  wp (espos_health_report_ex port MAXC (Some k) ESPOS_HEALTH_NORMAL (Some []) 0) Q s.
Proof.
  intros Ho Ht Hk (c & Hc & Hck & _) HQ. unfold espos_health_report_ex.
  assert (Hm : (length (@nil Z) < ESPOS_HEALTH_MSG_MAX)%nat) by (unfold ESPOS_HEALTH_MSG_MAX; cbn; lia).
  rewrite report_valid by (first [by apply is_test_ok|done|by left]).
  change (default [] (Some k)) with k. change (default [] (Some [])) with (@nil Z). cbv zeta.
  wp_step. apply lock_obliging; [done|]. intros w. cbn [negb]. do 2 wp_step. cbn [m_sm m_trace].
  destruct (record _ _ _ _ _ _) as [[l' ch]|] eqn:Er.
  2: { apply record_none in Er as [Er _]. destruct Er. rewrite <- Hck. by apply list_elem_of_fmap_2. }
  destruct (record_spec MAXC _ _ _ _ _ _ _ Ht (is_test_ok _ Hk) Hm (fun _ => eq_refl) Er) as [Ht' Hr].
  assert (Hnr : ~ raised l' k).
  { intros Hx. by destruct (recorded_raised _ _ _ _ _ _ _ Hr Hx) as [[_ ?]|[? _]]. }
  do 2 wp_step. destruct ch; [|wp_step; by apply HQ]. wp_step. apply fan_out_spec. intros. wp_step. by apply HQ.
Qed.

(** A drill ends by itself: once its time limit has passed, the expiry pass
    leaves the condition normal and nothing armed, and says so. *)
Theorem drill_expires (s : hmach) :
  obliging -> health_inv MAXC (m_sm s) -> test_pending_clear (m_sm s) = [] ->
  test_armed (m_sm s) = true -> raised (cond (m_sm s)) (test_key (m_sm s)) ->
  (forall w, i32 (u32 (espos_health_port_now_ms port w).1 - test_deadline_ms (m_sm s)) >= 0) ->
  let r := espos_health_test_expire port MAXC s in
  r.1 = true /\ ~ raised (cond (m_sm r.2)) (test_key (m_sm s)) /\ test_armed (m_sm r.2) = false.
Proof.
  intros Ho [Htb Ha Hp] Hpe Har Hra Hnow. cbv zeta.
  change (wp (espos_health_test_expire port MAXC) (fun b s' => b = true /\ ~ raised (cond (m_sm s')) (test_key (m_sm s)) /\ test_armed (m_sm s') = false) s).
  specialize (Ha Har). unfold espos_health_test_expire. wp_step. unfold wp at 1, query.
  pose proof (proj2 Ho (m_world s)) as Htl. destruct (take_test_lock port (m_world s)) as [b w].
  cbn [fst snd] in Htl |- *. subst b. cbn [negb].
  wp_step. unfold flush_pending_clear. wp_step. apply lock_obliging; [done|]. intros w1. cbn [negb m_sm m_trace]. do 2 wp_step.
  cbn [m_sm]. rewrite Hpe. cbn [byte0 Z.eqb]. wp_step. wp_step. apply lock_obliging; [done|]. intros w2. cbn [negb m_sm m_trace].
  do 2 wp_step. cbn [id m_sm]. rewrite Har. do 2 wp_step. unfold wp at 1, query. cbn [m_sm m_world m_trace].
  specialize (Hnow w2). destruct (espos_health_port_now_ms port w2) as [t w3]. cbn [fst snd] in *. wp_step.
  rewrite Z.geb_leb. destruct (Z.leb_spec 0 (i32 (u32 t - test_deadline_ms (m_sm s)))); [|lia].
  rewrite is_test_fits, is_test_byte0 by done. wp_step. apply clear_obliging; [done|done|done|done|]. cbn [m_sm m_trace].
  intros l' w4 tr4 Hnr. rewrite bool_decide_eq_true_2 by done. cbn [negb]. wp_step. apply lock_obliging; [done|]. intros w5.
  cbn [negb m_sm m_trace]. do 3 wp_step. destruct s as [[cd sk tk td ta tp] w0 tr0]. hflat. subst ta. unfold streq.
  rewrite bool_decide_eq_true_2 by done. done.
Qed.

End Drills.

(** * Witnesses and counterexamples *)

(** Locks answer from a script, then always succeed; the clock stands at 1000. *)
Definition bench_port : health_port_t (list bool) :=
  HealthPort (list bool)
    (fun w => match w with [] => (true, []) | b :: w' => (b, w') end) (fun w => (true, w)) (fun w => (1000, w))
    (fun _ _ _ _ w => (tt, w)).
Definition bench_obliging : health_port_t unit :=
  HealthPort unit (fun w => (true, w)) (fun w => (true, w)) (fun w => (100000, w)) (fun _ _ _ _ w => (tt, w)).

Definition drill (k : string) (st : espos_health_state_t) := espos_health_report_test bench_port 4 (Some (lit k)) st None 60000.

(** A device with one drill running; the locks of what follows answer by the script. *)
Definition drilling (script : list bool) : mach health_t (list bool) health_obs :=
  let s := exec (drill "test.a" ESPOS_HEALTH_ALARM) (Mach health_zero [] []) in Mach (m_sm s) script (m_trace s).

Lemma drilling_reachable : reachable bench_port 4 4 (drilling []).
Proof.
  assert (drilling [] = exec (drill "test.a" ESPOS_HEALTH_ALARM) (Mach health_zero [] [])) as -> by (vm_compute; reflexivity).
  apply reach_raise; [constructor|done].
Qed.

#[local] Instance raised_decision l k : Decision (raised l k).
Proof.
  refine (cast_if (decide (Exists (fun c => c_key c = k /\ c_state c <> ESPOS_HEALTH_NORMAL) l)));
    unfold raised; abstract (rewrite Exists_exists in *; naive_solver).
Defined.

(** The two failure paths the rollback does not cover, when the lock times
    out twice in one call. Clearing the running drill then fails and leaves it
    raised with nothing that tracks it: an alarm no time limit clears. Raising a
    second drill then fails and leaves the first one marked for clearing: the next
    expiry pass ends it although its time limit has not passed. And clearing a
    drill that is not running ends the one that is. *)
Theorem drill_rollback_timeouts :
  (let s := exec (drill "test.a" ESPOS_HEALTH_NORMAL) (drilling [true; true; false; false]) in
   raised (cond (m_sm s)) (lit "test.a") /\ ~ tracked (m_sm s)) /\
  (let s := exec (drill "test.b" ESPOS_HEALTH_ALARM) (drilling [true; true; false; false]) in
   let s' := exec (espos_health_test_expire bench_port 4) s in
   raised (cond (m_sm s)) (lit "test.a") /\ ~ raised (cond (m_sm s')) (lit "test.a")) /\
  (let s := exec (drill "test.b" ESPOS_HEALTH_NORMAL) (drilling []) in ~ raised (cond (m_sm s)) (lit "test.a")).
Proof.
  split; [|split]; cbv zeta.
  - assert (Hr : raised (cond (m_sm (exec (drill "test.a" ESPOS_HEALTH_NORMAL) (drilling [true; true; false; false])))) (lit "test.a"))
      by (apply (bool_decide_eq_true_1 _); vm_compute; reflexivity).
    split; [exact Hr|]. intros Ht. destruct (Ht (lit "test.a")) as [[H _]|H].
    + split; vm_compute; [reflexivity|lia].
    + exact Hr.
    + vm_compute in H. discriminate H.
    + vm_compute in H. discriminate H.
  - split; [apply (bool_decide_eq_true_1 _); vm_compute; reflexivity|].
    apply (bool_decide_eq_false_1 _). vm_compute. reflexivity.
  - apply (bool_decide_eq_false_1 _). vm_compute. reflexivity.
Qed.

Lemma drill_always_tracked_witness :
  tracked (m_sm (drilling [])) /\ table_ok 4 (cond (m_sm (drilling []))) /\
  forall c, c ∈ cond (m_sm (drilling [])) -> is_test (c_key c) -> is_fatal c = false.
Proof. refine (drill_always_tracked bench_port 4 4 (drilling []) drilling_reachable). Defined.

Lemma bench_obliges : obliging bench_obliging.
Proof. by split. Qed.

Lemma table_ok_nil max : table_ok max [].
Proof. split; [apply NoDup_nil_2|cbn; lia|by constructor|by constructor]. Qed.

Lemma health_report_recorded_witness :
  let s0 : mach health_t unit health_obs := Mach (health_zero <| sink := [Sink 1 2] |>) tt [] in
  m_trace (espos_health_report_ex bench_obliging 4 (Some (lit "lowMemory")) ESPOS_HEALTH_ALARM (Some (lit "x")) 1 s0).2
  = [OSink (Sink 1 2) (lit "lowMemory") ESPOS_HEALTH_ALARM (lit "x")].
Proof.
  cbv zeta. set (s0 := Mach _ tt []).
  destruct (health_report_recorded bench_obliging 4 (lit "lowMemory") ESPOS_HEALTH_ALARM (lit "x") 1 s0) as [(_ & _ & _ & _ & H)|(_ & _ & [[[fl0 H] _]|[_ H]])].
  - apply bench_obliges.
  - apply table_ok_nil.
  - split; vm_compute; [discriminate|lia].
  - vm_compute. lia.
  - right. split; [reflexivity|]. intros [H _]. vm_compute in H. discriminate H.
  - exfalso. vm_compute in H. lia.
  - exfalso. vm_compute in H. by apply not_elem_of_nil in H.
  - exact H.
Defined.

(** A device of the obliging port with one drill running since time 0. *)
Definition drill_device : mach health_t unit health_obs :=
  Mach (Health [HealthCondition (lit "test.a") ESPOS_HEALTH_ALARM [] 0] [] (lit "test.a") 60000 true []) tt [].

Lemma drill_expires_witness :
  (espos_health_test_expire bench_obliging 4 drill_device).1 = true.
Proof.
  refine (proj1 (drill_expires bench_obliging 4 drill_device bench_obliges _ _ _ _ _)).
  - split; [split| |].
    + apply NoDup_singleton.
    + cbn. lia.
    + apply Forall_singleton. split; [split; vm_compute; [discriminate|lia]|vm_compute; lia].
    + apply Forall_singleton. reflexivity.
    + intros _. split; vm_compute; [reflexivity|lia].
    + left. reflexivity.
  - reflexivity.
  - reflexivity.
  - apply (bool_decide_eq_true_1 _). vm_compute. reflexivity.
  - intros []. vm_compute. discriminate.
Defined.
