(* ===== verification/HealthPolicy.v ===== *)
(** The watchdog policy of [espos_health]: [health_policy.c] and
    [espos_health_policy.h].

    Memory thresholds, watched tasks, strikes and the restart. The clock, the
    heap figures, the condition table and the restart are the port; the trace
    keeps every report, every verdict of the table and the restart. *)
From Stdlib Require Import ZArith Lia String.
From stdpp Require Import base list numbers sets.
From S2P Require Import Prelude HealthTable.
Open Scope Z_scope.

Definition RECORD_MAGIC : Z := 1751474540.
Definition ESPOS_HEALTH_WATCHED_MAX : nat := 8.
Definition ESPOS_HEALTH_TASK_NAME_MAX : nat := 16.

Record espos_health_heap_t := HealthHeap {
  total_free : Z;
  total_min : Z;
  internal_free : Z;
  internal_min : Z;
  largest_block : Z
}.

Record espos_health_policy_cfg_t := HealthCfg {
  cfg_strikes : Z;
  heap_warn_kb : Z;
  internal_warn_kb : Z;
  internal_alarm_kb : Z;
  largest_block_alarm_kb : Z;
  internal_trough_warn_kb : Z
}.
#[export] Instance health_cfg_eta : Eta espos_health_policy_cfg_t := fun r =>
  HealthCfg (cfg_strikes r) (heap_warn_kb r) (internal_warn_kb r) (internal_alarm_kb r) (largest_block_alarm_kb r)
    (internal_trough_warn_kb r).

(** [task] is the opaque identity of a task, 0 for a free slot. *)
Record espos_health_watched_t := HealthWatched {
  task : Z;
  name : cstr;
  timeout_ms : Z;
  last_kick_ms : Z
}.
#[export] Instance health_watched_eta : Eta espos_health_watched_t := fun r =>
  HealthWatched (task r) (name r) (timeout_ms r) (last_kick_ms r).

Record espos_health_reset_record_t := HealthRecord {
  magic : Z;
  rec_key : cstr;
  rec_message : cstr;
  min_free_heap : Z;
  min_internal : Z;
  rec_largest_block : Z;
  rec_uptime_s : Z;
  rec_unix_ms : Z
}.

Record espos_health_policy_t := HealthPolicy {
  cfg : espos_health_policy_cfg_t;
  strikes : Z;
  ticks : Z;
  restarting : bool;
  fatal : option espos_health_condition_t;
  watched : list espos_health_watched_t;
  ever_watched : bool
}.
#[export] Instance health_policy_eta : Eta espos_health_policy_t := fun r =>
  HealthPolicy (cfg r) (strikes r) (ticks r) (restarting r) (fatal r) (watched r) (ever_watched r).

Record espos_health_policy_port_t (W : Type) := HealthPolicyPort {
  now_ms : W -> Z * W;
  uptime_s : W -> Z * W;
  unix_ms : W -> Z * W;
  heap : W -> espos_health_heap_t * W;
  report : cstr -> espos_health_state_t -> cstr -> Z -> W -> unit * W;
  fatal_alarm : W -> option espos_health_condition_t * W;
  store_record : espos_health_reset_record_t -> W -> unit * W;
  restart : W -> unit * W
}.
Arguments now_ms {W} _.
Arguments uptime_s {W} _.
Arguments unix_ms {W} _.
Arguments heap {W} _.
Arguments report {W} _.
Arguments fatal_alarm {W} _.
Arguments store_record {W} _.
Arguments restart {W} _.

Inductive policy_obs :=
  | OReport (key : cstr) (state : espos_health_state_t) (message : cstr) (flags : Z)
  | OVerdict (c : option espos_health_condition_t)
  | OStore (rec : espos_health_reset_record_t)
  | ORestart.

(** * Memory *)

(** [limit_kb && figure < limit_kb * 1024u] *)
Definition below (figure limit_kb : Z) : bool := negb (limit_kb =? 0) && (figure <? u32 (limit_kb * 1024)).

Definition espos_health_policy_memory (c : espos_health_policy_cfg_t) (h : espos_health_heap_t)
    : espos_health_state_t * cstr * Z :=
  if below (internal_free h) (internal_alarm_kb c) then
    (ESPOS_HEALTH_ALARM,
     lit "internal RAM exhausted (below " ++ fmt_d (internal_alarm_kb c) ++ lit " KB free)",
     ESPOS_HEALTH_F_REBOOT_ON_ALARM)
  else if below (largest_block h) (largest_block_alarm_kb c) then
    let low := below (internal_free h) (internal_warn_kb c)
               || (internal_free h <? u32 (largest_block_alarm_kb c * 1024)) in
    (ESPOS_HEALTH_ALARM,
     lit "internal RAM " ++ (if low then lit "low" else lit "fragmented") ++ lit " (largest block below "
     ++ fmt_d (largest_block_alarm_kb c) ++ lit " KB)",
     ESPOS_HEALTH_F_REBOOT_ON_ALARM)
  else if below (internal_free h) (internal_warn_kb c) then
    (ESPOS_HEALTH_WARN, lit "internal RAM low (below " ++ fmt_d (internal_warn_kb c) ++ lit " KB free)", 0)
  else if below (total_free h) (heap_warn_kb c) then
    (ESPOS_HEALTH_WARN, lit "heap low (below " ++ fmt_d (heap_warn_kb c) ++ lit " KB free)", 0)
  else (ESPOS_HEALTH_NORMAL, [], 0).

Definition espos_health_policy_trough (c : espos_health_policy_cfg_t) (h : espos_health_heap_t)
    : espos_health_state_t * cstr :=
  if below (internal_min h) (internal_trough_warn_kb c) then
    (ESPOS_HEALTH_WARN,
     lit "internal RAM low-water mark below " ++ fmt_d (internal_trough_warn_kb c) ++ lit " KB since boot")
  else (ESPOS_HEALTH_NORMAL, []).

(** * Tasks *)

(** How long a task has been silent; a stamp from the future is no silence. *)
Definition silence (now : Z) (w : espos_health_watched_t) : Z :=
  let delta := i32 (now - last_kick_ms w) in if delta <? 0 then 0 else u32 delta.

(** The loop of [check_tasks]: the worst offender and its silence. *)
Definition worst_stalled (now : Z) (l : list espos_health_watched_t) : option espos_health_watched_t * Z :=
  foldl (fun acc w =>
           if task w =? 0 then acc
           else
             let age := silence now w in
             if (age >? timeout_ms w) && (age >=? acc.2) then (Some w, age) else acc)
        (None, 0) l.

Fixpoint find (l : list espos_health_watched_t) (t : Z) : option nat :=
  match l with
  | [] => None
  | w :: l' => if task w =? t then Some 0%nat else S <$> find l' t
  end.

Section Policy.
Context {W : Type} (port : espos_health_policy_port_t W).
Abbreviation pact := (act espos_health_policy_t W policy_obs).

Definition say (key : cstr) (st : espos_health_state_t) (msg : cstr) (flags : Z) : pact unit :=
  call (report port key st msg flags) (fun _ => OReport key st msg flags).

Definition check_tasks (now : Z) : pact unit :=
  p ← gets id;
  match worst_stalled now (watched p) with
  | (Some w, age) =>
      say (lit "taskStalled") ESPOS_HEALTH_ALARM
          (snprintf_s ESPOS_HEALTH_MSG_MAX
             (name w ++ lit " silent for " ++ fmt_d (age / 1000) ++ lit " s (limit " ++ fmt_d (timeout_ms w / 1000) ++ lit " s)"))
          ESPOS_HEALTH_F_REBOOT_ON_ALARM
  | (None, _) => say (lit "taskStalled") ESPOS_HEALTH_NORMAL [] ESPOS_HEALTH_F_REBOOT_ON_ALARM
  end.

(** The record is stored, then the device restarts. *)
Definition strike_out (c : espos_health_condition_t) (h : espos_health_heap_t) : pact unit :=
  up ← query (uptime_s port);
  ux ← query (unix_ms port);
  let rec := HealthRecord RECORD_MAGIC (snprintf_s ESPOS_HEALTH_KEY_MAX (c_key c)) (take 63 (c_message c))
               (total_min h) (internal_min h) (largest_block h) (u32 up) ux in
  mods (fun p => p <| restarting := true |>);;
  call (store_record port rec) (fun _ => OStore rec);;
  call (restart port) (fun _ => ORestart).

Definition espos_health_policy_tick : pact Z :=
  p ← gets id;
  if restarting p then mret (strikes p)
  else
    mods (fun p => p <| ticks ::= fun n => u32 (n + 1) |>);;
    t ← query (now_ms port);
    let now := u32 t in
    h ← query (heap port);
    let '(st, msg, flags) := espos_health_policy_memory (cfg p) h in
    say (lit "lowMemory") st (snprintf_s ESPOS_HEALTH_MSG_MAX msg) flags;;
    let '(tst, tmsg) := espos_health_policy_trough (cfg p) h in
    say (lit "memoryTrough") tst (snprintf_s ESPOS_HEALTH_MSG_MAX tmsg) 0;;
    (if ever_watched p then check_tasks now else mret tt);;
    v ← call (fatal_alarm port) OVerdict;
    match v with
    | None =>
        mods (fun p => p <| strikes := 0 |>);;
        mret 0
    | Some c =>
        mods (fun p => p <| fatal := Some c |> <| strikes ::= fun n => u32 (n + 1) |>);;
        n ← gets strikes;
        if n <? cfg_strikes (cfg p) then mret n
        else strike_out c h;; mret n
    end.

Definition espos_health_policy_watch (t : Z) (nm : option cstr) (timeout : Z) : pact health_err :=
  match nm with
  | None => mret HEALTH_ERR_INVALID_ARG
  | Some nm =>
      if (t =? 0) || (byte0 nm =? 0) then mret HEALTH_ERR_INVALID_ARG
      else
        p ← gets id;
        match (match find (watched p) t with Some i => Some i | None => find (watched p) 0 end) with
        | None => mret HEALTH_ERR_NO_MEM
        | Some i =>
            k ← query (now_ms port);
            mods (fun p => p <| watched ::= <[i := HealthWatched t (snprintf_s ESPOS_HEALTH_TASK_NAME_MAX nm) timeout (u32 k)]> |>
                             <| ever_watched := true |>);;
            mret HEALTH_OK
        end
  end.

Definition espos_health_policy_unwatch (t : Z) : pact health_err :=
  p ← gets id;
  match (if t =? 0 then None else find (watched p) t) with
  | None => mret HEALTH_ERR_NOT_FOUND
  | Some i => mods (fun p => p <| watched ::= alter (fun w => w <| task := 0 |>) i |>);; mret HEALTH_OK
  end.

Definition espos_health_policy_kick (t : Z) : pact unit :=
  if t =? 0 then mret tt
  else
    p ← gets id;
    match find (watched p) t with
    | None => mret tt
    | Some i =>
        k ← query (now_ms port);
        mods (fun p => p <| watched ::= alter (fun w => w <| last_kick_ms := u32 k |>) i |>)
    end.

End Policy.

Definition espos_health_policy_init (c : espos_health_policy_cfg_t) : espos_health_policy_t :=
  HealthPolicy (if cfg_strikes c =? 0 then c <| cfg_strikes := 1 |> else c) 0 0 false None
    (replicate ESPOS_HEALTH_WATCHED_MAX (HealthWatched 0 [] 0 0)) false.
