(* ===== verification/HealthPolicyProps.v ===== *)
(** Correctness of the watchdog policy ([HealthPolicy]): when it restarts the
    device, which tasks it calls stalled, and how it judges memory. *)
From Stdlib Require Import ZArith Lia String.
From stdpp Require Import base list numbers sets.
From S2P Require Import Prelude HealthTable HealthPolicy.
Open Scope Z_scope.

(** * Strikes *)

(** The fatal verdicts in a row, up to now. *)
Fixpoint streak (tr : list policy_obs) : Z :=
  match tr with
  | [] => 0
  | OVerdict (Some _) :: tr' => streak tr' + 1
  | OVerdict None :: _ => 0
  | _ :: tr' => streak tr'
  end.

(** The condition of the last fatal verdict. *)
Fixpoint last_fatal (tr : list policy_obs) : option espos_health_condition_t :=
  match tr with
  | [] => None
  | OVerdict v :: _ => v
  | _ :: tr' => last_fatal tr'
  end.

(** The device restarted, right after the record of the condition was stored. *)
Definition restarted_for (c : espos_health_condition_t) (tr : list policy_obs) : Prop :=
  exists rec tr', tr = ORestart :: OStore rec :: tr' /\ ORestart ∉ tr' /\ last_fatal tr' = Some c /\
    magic rec = RECORD_MAGIC /\ rec_key rec = snprintf_s ESPOS_HEALTH_KEY_MAX (c_key c) /\ rec_message rec = take 63 (c_message c).

Inductive policy_op := OpTick | OpWatch (t : Z) (nm : option cstr) (timeout : Z) | OpUnwatch (t : Z) | OpKick (t : Z).

Section Policy.
Context {W : Type} (port : espos_health_policy_port_t W).
Abbreviation pmach := (mach espos_health_policy_t W policy_obs).

Definition policy_step (op : policy_op) : act espos_health_policy_t W policy_obs unit :=
  match op with
  | OpTick => espos_health_policy_tick port;; mret tt
  | OpWatch t nm timeout => espos_health_policy_watch port t nm timeout;; mret tt
  | OpUnwatch t => espos_health_policy_unwatch t;; mret tt
  | OpKick t => espos_health_policy_kick port t
  end.

Fixpoint policy_run (ops : list policy_op) : act espos_health_policy_t W policy_obs unit :=
  match ops with [] => mret tt | op :: ops' => policy_step op;; policy_run ops' end.

Definition limit (c : espos_health_policy_cfg_t) : Z := Z.max 1 (cfg_strikes c).

Record policy_inv (c : espos_health_policy_cfg_t) (s : pmach) : Prop := mk_policy_inv {
  pi_cfg : cfg_strikes (cfg (m_sm s)) = limit c;
  pi_wait : restarting (m_sm s) = false ->
    strikes (m_sm s) = streak (m_trace s) /\ 0 <= streak (m_trace s) < limit c /\ ORestart ∉ m_trace s;
  pi_done : restarting (m_sm s) = true ->
    streak (m_trace s) = limit c /\ exists x, last_fatal (m_trace s) = Some x /\ restarted_for x (m_trace s)
}.

(** The reports of a tick change neither the machine nor what the verdicts say. *)
Lemma say_spec Q key st msg fl (s : pmach) :
  (forall w, Q tt (Mach (m_sm s) w (OReport key st msg fl :: m_trace s))) -> wp (say port key st msg fl) Q s.
Proof. intros H. unfold say. wp_step. destruct a. apply H. Qed.

Definition same_verdicts (tr tr' : list policy_obs) : Prop :=
  streak tr' = streak tr /\ last_fatal tr' = last_fatal tr /\ (ORestart ∉ tr -> ORestart ∉ tr').

Lemma check_tasks_spec Q now (s : pmach) :
  (forall w tr, same_verdicts (m_trace s) tr -> Q tt (Mach (m_sm s) w tr)) -> wp (check_tasks port now) Q s.
Proof.
  intros H. unfold check_tasks. do 2 wp_step.
  destruct (worst_stalled now (watched (id (m_sm s)))) as [[w|] age]; apply say_spec; intros w'; apply H;
    (split_and!; [done|done|]; intros Hr; apply not_elem_of_cons; done).
Qed.

Lemma tick_inv c (s : pmach) :
  limit c < 2 ^ 32 -> policy_inv c s -> wp (espos_health_policy_tick port) (fun _ => policy_inv c) s.
Proof.
  intros Hlim Hi. unfold espos_health_policy_tick. do 2 wp_step. cbn [id]. destruct (restarting (m_sm s)) eqn:Er.
  { by wp_step. }
  pose proof Hi as [Hc Hw _]. destruct (Hw Er) as (Hs & Hst & Hnr). clear Hw Hi.
  do 2 wp_step. do 2 wp_step. do 2 wp_step. cbn [m_sm m_world m_trace].
  destruct (espos_health_policy_memory (cfg (m_sm s)) a0) as [[st msg] fl]. wp_step. apply say_spec. intros w1. cbn [m_sm m_trace].
  destruct (espos_health_policy_trough (cfg (m_sm s)) a0) as [tst tmsg]. wp_step. apply say_spec. intros w2. cbn [m_sm m_trace].
  set (tr2 := OReport _ _ _ _ :: OReport _ _ _ _ :: m_trace s).
  assert (Htr2 : same_verdicts (m_trace s) tr2).
  { split_and!; [done|done|]. intros _. subst tr2. rewrite !not_elem_of_cons. done. }
  clearbody tr2. wp_step.
  set (sm1 := (m_sm s) <| ticks ::= _ |>).
  assert (Hsm : strikes sm1 = strikes (m_sm s) /\ cfg sm1 = cfg (m_sm s) /\ restarting sm1 = false) by done.
  clearbody sm1. destruct Hsm as (Hs1 & Hc1 & Hr1).
  assert (Hrest : forall w tr3, same_verdicts (m_trace s) tr3 ->
    wp (v ← call (fatal_alarm port) OVerdict;
        match v with
        | None => mods (fun p => p <| strikes := 0 |>);; mret 0
        | Some c0 =>
            mods (fun p => p <| fatal := Some c0 |> <| strikes ::= fun n => u32 (n + 1) |>);;
            n ← gets strikes;
            if n <? cfg_strikes (cfg (m_sm s)) then mret n else strike_out port c0 a0;; mret n
        end) (fun _ => policy_inv c) (Mach sm1 w tr3)).
  2: { destruct (ever_watched (m_sm s)).
       - apply check_tasks_spec. cbn [m_sm m_trace]. intros w3 tr3 (H1 & H2 & H3). apply Hrest.
         destruct Htr2 as (G1 & G2 & G3). split_and!; [congruence|congruence|auto].
       - wp_step. by apply Hrest. }
  intros w9 tr3 (H1 & H2 & H3). wp_step. wp_step. rewrite Hc. rewrite Hs in Hs1. rewrite <- Hc1 in Hc. clear Hc1 Hs.
  destruct sm1 as [cf sk tk rs ft wt ew]. cbn [strikes cfg restarting] in Hs1, Hc, Hr1. subst sk rs.
  destruct a1 as [x|].
  - do 4 wp_step. cbn [m_sm m_world m_trace strikes update health_policy_eta cfg].
    assert (Hu : u32 (streak (m_trace s) + 1) = streak (m_trace s) + 1) by (unfold u32; rewrite Z.mod_small; lia).
    cbn. rewrite Hu. destruct (Z.ltb_spec (streak (m_trace s) + 1) (limit c)) as [Hlt|Hge].
    + wp_step. split; cbn; [done| |congruence]. intros _. rewrite H1. split_and!; [done|lia|lia|].
      apply not_elem_of_cons. auto.
    + unfold strike_out. repeat wp_step. split; cbn; [done|done|]. intros _. split; [rewrite H1; lia|]. exists x. split; [done|].
      eexists _, _. split; [done|]. split_and!; try done. apply not_elem_of_cons. auto.
  - do 3 wp_step. split; cbn; [done| |congruence]. intros _. split_and!; [done|lia|unfold limit; lia|]. apply not_elem_of_cons. auto.
Qed.

Lemma watching_inv c op (s : pmach) : op <> OpTick -> policy_inv c s -> wp (policy_step op) (fun _ => policy_inv c) s.
Proof.
  intros Hop [Hc Hw Hd]. destruct op as [|t nm timeout|t|t]; [done|..]; cbn [policy_step].
  - wp_step. unfold espos_health_policy_watch. destruct nm as [nm|]; [|do 2 wp_step; by split].
    wp_step; [do 2 wp_step; by split|]. do 2 wp_step. destruct (match find _ t with Some i => _ | None => _ end).
    + do 2 wp_step. do 2 wp_step. do 2 wp_step. by split.
    + do 2 wp_step. by split.
  - wp_step. unfold espos_health_policy_unwatch. do 2 wp_step. destruct (if t =? 0 then None else _).
    + do 4 wp_step. by split.
    + do 2 wp_step. by split.
  - unfold espos_health_policy_kick. wp_step; [wp_step; by split|]. do 2 wp_step. destruct (find _ t); [|wp_step; by split].
    do 3 wp_step. by split.
Qed.

Lemma step_inv c op (s : pmach) : limit c < 2 ^ 32 -> policy_inv c s -> wp (policy_step op) (fun _ => policy_inv c) s.
Proof.
  intros Hl Hi. destruct op; try (by apply watching_inv). cbn [policy_step]. wp_step.
  eapply wp_mono; [by apply tick_inv|]. intros a s' H. by wp_step.
Qed.

Lemma policy_run_inv c ops (s : pmach) : limit c < 2 ^ 32 -> policy_inv c s -> policy_inv c (exec (policy_run ops) s).
Proof.
  intros Hl. revert s. induction ops as [|op ops IH]; intros s Hi; [done|].
  apply (proj1 (wp_exec _ (policy_inv c) _)). cbn [policy_run]. wp_step.
  eapply wp_mono; [by apply step_inv|]. intros a s' H. apply (proj2 (wp_exec _ _ _)). by apply IH.
Qed.

Lemma policy_init_inv c w : 0 <= cfg_strikes c -> policy_inv c (Mach (espos_health_policy_init c) w []).
Proof.
  intros H0. split; cbn; [|intros _; split_and!; [done|lia|unfold limit; lia|apply not_elem_of_nil]|done].
  unfold limit. destruct (Z.eqb_spec (cfg_strikes c) 0) as [E|E]; cbn; lia.
Qed.

(** The device is restarted exactly when it should be: at any moment of any
    run, the fatal verdicts in a row never exceed the configured number of strikes;
    below it the device has never been restarted, and at it the device has just been
    restarted, once, after the record of the very condition of the last verdict was
    stored, and nothing more is done. *)
Theorem health_restart_on_strikes (c : espos_health_policy_cfg_t) w ops :
  0 <= cfg_strikes c < 2 ^ 32 ->
  let s := exec (policy_run ops) (Mach (espos_health_policy_init c) w []) in
  (streak (m_trace s) < limit c /\ restarting (m_sm s) = false /\ ORestart ∉ m_trace s) \/
  (streak (m_trace s) = limit c /\ restarting (m_sm s) = true /\
   exists x, last_fatal (m_trace s) = Some x /\ restarted_for x (m_trace s)).
Proof.
  intros Hc. cbv zeta. assert (Hl : limit c < 2 ^ 32) by (unfold limit; lia).
  pose proof (policy_run_inv c ops (Mach (espos_health_policy_init c) w []) Hl (policy_init_inv c w (proj1 Hc))) as [_ Hw Hd].
  destruct (restarting _) eqn:Er; [right|left].
  - destruct (Hd eq_refl) as (H1 & H2). done.
  - destruct (Hw eq_refl) as (_ & H1 & H2). split_and!; [lia|done|done].
Qed.
End Policy.

(** A port with a still clock, plenty of memory, and a table that holds one fatal
    condition from the start. *)
Definition stuck_condition : espos_health_condition_t :=
  HealthCondition (lit "n2kSilent") ESPOS_HEALTH_ALARM (lit "bus silent") ESPOS_HEALTH_F_REBOOT_ON_ALARM.
Definition stuck_port : espos_health_policy_port_t unit :=
  HealthPolicyPort unit (fun w => (0, w)) (fun w => (60, w)) (fun w => (0, w))
    (fun w => (HealthHeap 100000 90000 50000 40000 20000, w)) (fun _ _ _ _ w => (tt, w))
    (fun w => (Some stuck_condition, w)) (fun _ w => (tt, w)) (fun w => (tt, w)).
Definition default_cfg : espos_health_policy_cfg_t := HealthCfg 3 40 30 10 6 8.

(** Three ticks with the condition raised: the third restarts. *)
Lemma health_restart_on_strikes_witness :
  let s := exec (policy_run stuck_port [OpTick; OpKick 7; OpTick; OpTick; OpTick]) (Mach (espos_health_policy_init default_cfg) tt []) in
  0 <= cfg_strikes default_cfg < 2 ^ 32 /\ streak (m_trace s) = 3 /\ restarting (m_sm s) = true.
Proof.
  cbv zeta. split; [cbn; lia|].
  destruct (health_restart_on_strikes stuck_port default_cfg tt [OpTick; OpKick 7; OpTick; OpTick; OpTick]) as [(H & _)|(H1 & H2 & _)].
  - cbn; lia.
  - exfalso. revert H. vm_compute. discriminate.
  - split; [exact H1|exact H2].
Defined.

(** * Stalled tasks *)

(** A slot of the table and the true time of the kick its stamp came from: the
    stamp is that time on the 32-bit millisecond clock, which wraps every 49 days. *)
Definition stamped (T : Z) (x : espos_health_watched_t * Z) : Prop :=
  last_kick_ms x.1 = u32 x.2 /\ - 2 ^ 31 < T - x.2 < 2 ^ 31 /\ 0 <= timeout_ms x.1.

(** A watched task that has been silent longer than it may. *)
Definition stalled (T : Z) (x : espos_health_watched_t * Z) : Prop := task x.1 <> 0 /\ timeout_ms x.1 < T - x.2.

(** The wrap-around subtraction gives the true silence. *)
Lemma silence_true T w k : stamped T (w, k) -> silence (u32 T) w = Z.max 0 (T - k).
Proof.
  intros (Hk & Hb & _). cbn in *. unfold silence. rewrite Hk.
  assert (E : i32 (u32 T - u32 k) = T - k) by (unfold i32, u32; div_lia).
  rewrite E. destruct (Z.ltb_spec (T - k) 0); [lia|]. unfold u32. rewrite Z.mod_small; lia.
Qed.

(** What the loop of [check_tasks] knows after the slots seen so far. *)
Definition worst_so_far (T : Z) (l : list (espos_health_watched_t * Z)) (acc : option espos_health_watched_t * Z) : Prop :=
  match acc with
  | (None, age) => age = 0 /\ Forall (fun x => ~ stalled T x) l
  | (Some w, age) => exists k, (w, k) ∈ l /\ stalled T (w, k) /\ age = T - k /\
                     Forall (fun x => stalled T x -> T - x.2 <= age) l
  end.

Lemma worst_stalled_exact T l : Forall (stamped T) l -> worst_so_far T l (worst_stalled (u32 T) (l.*1)).
Proof.
  intros H. unfold worst_stalled. induction l as [|[w k] l IH] using rev_ind; [by cbn|].
  apply Forall_app in H as [Hl Hw]. rewrite Forall_singleton in Hw. specialize (IH Hl).
  rewrite fmap_app, foldl_app. cbn [fmap list_fmap foldl fst]. destruct (foldl _ _ _) as [o age] eqn:Ef. clear Ef.
  pose proof (silence_true T w k Hw) as Hsil. destruct Hw as (_ & Hb & Ht). cbn in Hb, Ht.
  destruct (Z.eqb_spec (task w) 0) as [E0|E0].
  { destruct o as [v|]; cbn in *.
    - destruct IH as (kv & Hin & Hst & Ha & Hall). exists kv. split_and!; [apply elem_of_app; auto|done|done|].
      apply Forall_app. split; [done|]. rewrite Forall_singleton. by intros [? _].
    - destruct IH as [-> Hall]. split; [done|]. apply Forall_app. split; [done|]. rewrite Forall_singleton. by intros [? _]. }
  rewrite Hsil. cbn [snd].
  destruct (Z.gtb_spec (Z.max 0 (T - k)) (timeout_ms w)) as [Hgt|Hle]; cbn [andb].
  - assert (Hs : stalled T (w, k)) by (split; cbn; [done|lia]).
    rewrite Z.geb_leb. destruct (Z.leb_spec age (Z.max 0 (T - k))) as [Hge|Hlt].
    + exists k. split_and!; [apply elem_of_app; right; by apply list_elem_of_singleton|done|lia|].
      apply Forall_app. split; [|rewrite Forall_singleton; cbn; lia].
      destruct o as [v|]; cbn in IH.
      * destruct IH as (kv & _ & _ & -> & Hall). eapply Forall_impl; [apply Hall|]. intros x Hx Hxs. specialize (Hx Hxs). lia.
      * destruct IH as [_ Hall]. eapply Forall_impl; [apply Hall|]. intros x Hx Hxs. by destruct (Hx Hxs).
    + destruct o as [v|]; cbn in *; [|destruct IH; lia].
      destruct IH as (kv & Hin & Hst & -> & Hall). exists kv. split_and!; [apply elem_of_app; auto|done|done|].
      apply Forall_app. split; [done|]. rewrite Forall_singleton. cbn. lia.
  - assert (Hs : ~ stalled T (w, k)) by (intros [_ H]; cbn in H; lia).
    destruct o as [v|]; cbn in *.
    + destruct IH as (kv & Hin & Hst & -> & Hall). exists kv. split_and!; [apply elem_of_app; auto|done|done|].
      apply Forall_app. split; [done|]. rewrite Forall_singleton. done.
    + destruct IH as [-> Hall]. split; [done|]. apply Forall_app. split; [done|]. by rewrite Forall_singleton.
Qed.

(** The task watchdog is exact across clock wrap-around: with stamps less than
    24 days old, a tick reports [taskStalled] ALARM (fatal) exactly if some watched
    task's true silence exceeds its limit, and then the message names a task that is
    silent beyond its limit, with its silence, and no stalled task is silent for
    longer; a stamp later than the tick's own clock reading never counts as silence. *)
Theorem health_stall_exact {W} (port : espos_health_policy_port_t W) T l (s : mach espos_health_policy_t W policy_obs) :
  watched (m_sm s) = l.*1 -> Forall (stamped T) l ->
  exists st msg,
    m_trace (exec (check_tasks port (u32 T)) s) =
      OReport (lit "taskStalled") st msg ESPOS_HEALTH_F_REBOOT_ON_ALARM :: m_trace s /\
    m_sm (exec (check_tasks port (u32 T)) s) = m_sm s /\
    ((st = ESPOS_HEALTH_NORMAL /\ msg = [] /\ Forall (fun x => ~ stalled T x) l) \/
     (st = ESPOS_HEALTH_ALARM /\ exists w k, (w, k) ∈ l /\ stalled T (w, k) /\
        Forall (fun x => stalled T x -> T - x.2 <= T - k) l /\
        msg = snprintf_s ESPOS_HEALTH_MSG_MAX (name w ++ lit " silent for " ++ fmt_d ((T - k) / 1000)
                ++ lit " s (limit " ++ fmt_d (timeout_ms w / 1000) ++ lit " s)"))).
Proof.
  intros Hw Hl. apply worst_stalled_exact in Hl. rewrite <- Hw in Hl. unfold exec, check_tasks, say, mbind, act_bind, gets, call. cbn [id].
  destruct (worst_stalled (u32 T) (watched (m_sm s))) as [[w|] age] eqn:E; cbn [id fst snd];
    destruct (report port _ _ _ _ _) as [[] w'] eqn:E'; cbn in Hl.
  - destruct Hl as (k & Hin & Hst & -> & Hall). eexists _, _. split; [reflexivity|]. split; [reflexivity|]. right. split; [done|].
    by exists w, k.
  - destruct Hl as [_ Hall]. eexists _, _. split; [reflexivity|]. split; [reflexivity|]. by left.
Qed.

(** A task kicked 200 ms before the clock wrapped and silent for 31 s since, and one
    whose kick landed just after the tick read the clock. *)
Definition wrap_slots : list (espos_health_watched_t * Z) :=
  [(HealthWatched 5 (lit "n2k") 30000 (2 ^ 32 - 200), 2 ^ 32 - 200); (HealthWatched 6 (lit "ui") 30000 31000, 2 ^ 32 + 31000)].
Definition wrap_start : mach espos_health_policy_t unit policy_obs :=
  Mach ((espos_health_policy_init default_cfg) <| watched := wrap_slots.*1 |>) tt [].

Lemma health_stall_exact_witness :
  Forall (stamped (2 ^ 32 + 30800)) wrap_slots /\
  exists st msg, m_trace (exec (check_tasks stuck_port (u32 (2 ^ 32 + 30800))) wrap_start) =
    [OReport (lit "taskStalled") st msg ESPOS_HEALTH_F_REBOOT_ON_ALARM] /\ st = ESPOS_HEALTH_ALARM.
Proof.
  assert (H : Forall (stamped (2 ^ 32 + 30800)) wrap_slots).
  { repeat constructor; vm_compute; try reflexivity; discriminate. }
  split; [exact H|].
  destruct (health_stall_exact stuck_port (2 ^ 32 + 30800) wrap_slots wrap_start eq_refl H) as (st & msg & Ht & _ & Hs).
  exists st, msg. split; [exact Ht|]. destruct Hs as [(_ & _ & Hn)|(Hs & _)]; [|exact Hs].
  exfalso. inversion Hn as [|x y Hx Hy]. apply Hx. split; vm_compute; [discriminate|reflexivity].
Defined.

(** * Memory *)

Definition heap_le (h h' : espos_health_heap_t) : Prop :=
  total_free h <= total_free h' /\ internal_free h <= internal_free h' /\ largest_block h <= largest_block h' /\
  internal_min h <= internal_min h'.

Lemma below_anti a b k : a <= b -> below b k = true -> below a k = true.
Proof. unfold below. rewrite !andb_true_iff, !Z.ltb_lt. intros Hab [? ?]. split; [done|lia]. Qed.

(** Everything the memory condition can say under a configuration. *)
Definition memory_messages (c : espos_health_policy_cfg_t) : list cstr :=
  [[];
   lit "internal RAM exhausted (below " ++ fmt_d (internal_alarm_kb c) ++ lit " KB free)";
   lit "internal RAM " ++ lit "low" ++ lit " (largest block below " ++ fmt_d (largest_block_alarm_kb c) ++ lit " KB)";
   lit "internal RAM " ++ lit "fragmented" ++ lit " (largest block below " ++ fmt_d (largest_block_alarm_kb c) ++ lit " KB)";
   lit "internal RAM low (below " ++ fmt_d (internal_warn_kb c) ++ lit " KB free)";
   lit "heap low (below " ++ fmt_d (heap_warn_kb c) ++ lit " KB free)"].

Lemma memory_cases c h :
  let '(st, msg, fl) := espos_health_policy_memory c h in
  msg ∈ memory_messages c /\
  (fl = if decide (st = ESPOS_HEALTH_ALARM) then ESPOS_HEALTH_F_REBOOT_ON_ALARM else 0) /\
  (st = ESPOS_HEALTH_ALARM <->
     below (internal_free h) (internal_alarm_kb c) || below (largest_block h) (largest_block_alarm_kb c) = true) /\
  (st = ESPOS_HEALTH_NORMAL <->
     below (internal_free h) (internal_alarm_kb c) || below (largest_block h) (largest_block_alarm_kb c)
     || below (internal_free h) (internal_warn_kb c) || below (total_free h) (heap_warn_kb c) = false).
Proof.
  unfold espos_health_policy_memory.
  destruct (below (internal_free h) (internal_alarm_kb c)); cbn [orb].
  { split_and!; [apply (list_elem_of_lookup_2 _ 1); reflexivity|done|done|done]. }
  destruct (below (largest_block h) (largest_block_alarm_kb c)); cbn [orb].
  { split_and!; [|done|done|done].
    destruct (_ || _); [apply (list_elem_of_lookup_2 _ 2)|apply (list_elem_of_lookup_2 _ 3)]; reflexivity. }
  destruct (below (internal_free h) (internal_warn_kb c)); cbn [orb].
  { split_and!; [apply (list_elem_of_lookup_2 _ 4); reflexivity|done|done|done]. }
  destruct (below (total_free h) (heap_warn_kb c)); cbn [orb].
  { split_and!; [apply (list_elem_of_lookup_2 _ 5); reflexivity|done|done|done]. }
  split_and!; [apply (list_elem_of_lookup_2 _ 0); reflexivity|done|done|done].
Qed.

(** The memory verdict is sound and monotone, for every configuration: more
    free memory never worsens it; the condition is fatal exactly if it is an ALARM,
    which is exactly if free internal RAM or its largest block is below its (enabled)
    alarm threshold; the low-water-mark condition is never an ALARM, so it can never
    restart the device; and the message is one of six the configuration fixes, never a
    live figure, so that the suppression of repeated reports works. *)
Theorem health_memory_verdict (c : espos_health_policy_cfg_t) (h h' : espos_health_heap_t) (Hle : heap_le h h') :
  let '(st, msg, fl) := espos_health_policy_memory c h in
  let '(st', _, _) := espos_health_policy_memory c h' in
  state_val st' <= state_val st /\
  state_val (espos_health_policy_trough c h').1 <= state_val (espos_health_policy_trough c h).1 /\
  (espos_health_policy_trough c h).1 <> ESPOS_HEALTH_ALARM /\
  (fl = if decide (st = ESPOS_HEALTH_ALARM) then ESPOS_HEALTH_F_REBOOT_ON_ALARM else 0) /\
  (st = ESPOS_HEALTH_ALARM <->
     below (internal_free h) (internal_alarm_kb c) || below (largest_block h) (largest_block_alarm_kb c) = true) /\
  msg ∈ memory_messages c.
Proof.
  pose proof (memory_cases c h) as H. pose proof (memory_cases c h') as H'.
  destruct (espos_health_policy_memory c h) as [[st msg] fl], (espos_health_policy_memory c h') as [[st' msg'] fl'].
  destruct H as (Hm & Hf & Ha & Hn), H' as (_ & _ & Ha' & Hn'), Hle as (Ht & Hi & Hb & Hmin).
  split_and!; try done.
  - pose proof (below_anti _ _ (internal_alarm_kb c) Hi). pose proof (below_anti _ _ (largest_block_alarm_kb c) Hb).
    pose proof (below_anti _ _ (internal_warn_kb c) Hi). pose proof (below_anti _ _ (heap_warn_kb c) Ht).
    destruct st, st'; cbn; try lia; exfalso; rewrite ?orb_true_iff, ?orb_false_iff, <- ?not_true_iff_false in *; intuition discriminate.
  - pose proof (below_anti _ _ (internal_trough_warn_kb c) Hmin) as Hd. unfold espos_health_policy_trough.
    repeat case_match; cbn; try lia.
  - intros Hx. unfold espos_health_policy_trough in Hx. by destruct (below (internal_min h) (internal_trough_warn_kb c)).
Qed.

(** 5 KB of internal RAM against 9 KB, with the default thresholds. *)
Lemma health_memory_verdict_witness :
  let h := HealthHeap 60000 50000 5000 4000 3000 in
  let h' := HealthHeap 60000 50000 9000 4000 7000 in
  heap_le h h' /\
  state_val (espos_health_policy_memory default_cfg h').1.1 <= state_val (espos_health_policy_memory default_cfg h).1.1.
Proof.
  cbv zeta.
  assert (H : heap_le (HealthHeap 60000 50000 5000 4000 3000) (HealthHeap 60000 50000 9000 4000 7000)) by (repeat split; cbn; lia).
  split; [exact H|].
  exact (proj1 (health_memory_verdict default_cfg _ _ H)).
Defined.
