(* ===== verification/SkSelect.v ===== *)
(** Which discovered SignalK server is the device's own: [sk_select.c] and the
    types of [espos_sk_priv.h].

    The anchor is the server the stored token, or else the pending request, came
    from. Arrays with a count are lists; an index result of -1 is [None]; a null
    string is the empty one where the code treats them alike. *)
From Stdlib Require Import ZArith Lia String.
From stdpp Require Import base list numbers sets.
From S2P Require Import Prelude TokenSm.
Open Scope Z_scope.

Record espos_sk_discovered_t := SkDiscovered {
  d_host : cstr;
  d_port : Z;
  d_self : cstr;
  d_name : cstr;
  d_roles : cstr;
  d_swname : cstr;
  d_swvers : cstr;
  d_tls : bool;
  seen_ms : Z
}.
#[export] Instance sk_discovered_eta : Eta espos_sk_discovered_t := fun r =>
  SkDiscovered (d_host r) (d_port r) (d_self r) (d_name r) (d_roles r) (d_swname r) (d_swvers r) (d_tls r) (seen_ms r).

Record espos_sk_anchor_t := SkAnchor { a_host : cstr; a_port : Z; a_self : cstr }.

Record espos_sk_keep_t := SkKeep {
  k_anchor : option espos_sk_anchor_t;
  k_cur_host : cstr;
  k_cur_port : Z;
  k_self_fallback : bool
}.

Record espos_sk_merge_in_t := SkMergeIn {
  table : list espos_sk_discovered_t;
  table_avoid : list Z;
  found : list espos_sk_discovered_t;
  mi_anchor : espos_sk_anchor_t;
  mi_cur_host : cstr;
  mi_cur_port : Z;
  mi_self_fallback : bool;
  mi_now_ms : Z;
  carry_ms : Z
}.

(** [strcmp]: the sign, with bytes compared as unsigned and the terminator as 0. *)
Fixpoint strcmp (a b : cstr) : comparison :=
  match a, b with
  | [], [] => Eq
  | [], _ :: _ => Lt
  | _ :: _, [] => Gt
  | x :: a', y :: b' => match x ?= y with Eq => strcmp a' b' | c => c end
  end.

(** The first index that satisfies [p]. *)
Fixpoint index_of {A} (p : A -> bool) (l : list A) : option nat :=
  match l with
  | [] => None
  | x :: l' => if p x then Some 0%nat else S <$> index_of p l'
  end.

Definition espos_sk_store_anchor (st : espos_sk_tok_store_t) : espos_sk_anchor_t :=
  if negb (byte0 (token st) =? 0) then SkAnchor (token_host st) (token_port st) (token_self st)
  else if negb (byte0 (pending_href st) =? 0) then SkAnchor (pending_host st) (pending_port st) (pending_self st)
  else SkAnchor [] 0 [].

Definition espos_sk_same_addr (d : espos_sk_discovered_t) (host : cstr) (port : Z) : bool :=
  negb (byte0 host =? 0) && (d_port d =? port) && streq (d_host d) host.

Definition espos_sk_disc_before (a b : espos_sk_discovered_t) (cur_host : cstr) (cur_port : Z) : bool :=
  match strcmp (d_self a) (d_self b) with
  | Lt => true
  | Gt => false
  | Eq =>
      let a_cur := espos_sk_same_addr a cur_host cur_port in
      let b_cur := espos_sk_same_addr b cur_host cur_port in
      if negb (Bool.eqb a_cur b_cur) then a_cur
      else
        match strcmp (d_host a) (d_host b) with
        | Lt => true
        | Gt => false
        | Eq => d_port a <? d_port b
        end
  end.

Definition espos_sk_is_anchor (d : espos_sk_discovered_t) (anchor : espos_sk_anchor_t) : bool :=
  let self_ok := (byte0 (a_self anchor) =? 0) || (byte0 (d_self d) =? 0) || streq (d_self d) (a_self anchor) in
  self_ok && espos_sk_same_addr d (a_host anchor) (a_port anchor).

(** The second loop of [espos_sk_find_anchored]: among the entries with this self
    URN, the first in election order, with its index. *)
Definition elect (l : list espos_sk_discovered_t) (self cur_host : cstr) (cur_port : Z)
    : option (nat * espos_sk_discovered_t) :=
  foldl (fun idx x =>
           if negb (streq (d_self x.2) self) then idx
           else match idx with
                | None => Some x
                | Some (_, best) => if espos_sk_disc_before x.2 best cur_host cur_port then Some x else idx
                end)
        None (imap pair l).

Definition espos_sk_find_anchored (l : list espos_sk_discovered_t) (anchor : espos_sk_anchor_t)
    (cur_host : cstr) (cur_port : Z) (self_fallback : bool) : option nat :=
  match index_of (fun d => espos_sk_is_anchor d anchor) l with
  | Some i => Some i
  | None =>
      if (byte0 (a_self anchor) =? 0) || (negb (byte0 (a_host anchor) =? 0) && negb self_fallback) then None
      else fst <$> elect l (a_self anchor) cur_host cur_port
  end.

(** A full list: the slot the newcomer takes, if any. *)
Definition keep_slot (out : list espos_sk_discovered_t) (max : nat) (d : espos_sk_discovered_t)
    (k : espos_sk_keep_t) (anchor : espos_sk_anchor_t) : option nat :=
  let cur := espos_sk_find_anchored out anchor (k_cur_host k) (k_cur_port k) (k_self_fallback k) in
  let listed := match cur with None => [] | Some i => match out !! i with Some e => [e] | None => [] end end in
  let pick := espos_sk_find_anchored (listed ++ [d]) anchor (k_cur_host k) (k_cur_port k) (k_self_fallback k) in
  if bool_decide (pick = Some (length listed)) then Some (default (pred max) cur) else None.

Definition espos_sk_disc_add (out : list espos_sk_discovered_t) (max : nat) (d : espos_sk_discovered_t)
    (keep : option espos_sk_keep_t) : list espos_sk_discovered_t :=
  match index_of (fun o => espos_sk_same_addr o (d_host d) (d_port d)) out with
  | Some i => <[i := d]> out
  | None =>
      if (length out <? max)%nat then out ++ [d]
      else if (max =? 0)%nat then out
      else
        match keep with
        | None => out
        | Some k =>
            match k_anchor k with
            | None => out
            | Some anchor => match keep_slot out max d k anchor with Some i => <[i := d]> out | None => out end
            end
        end
  end.

(** * The merge *)

(** The entry as answered in this round. *)
Definition answered (now : Z) (d : espos_sk_discovered_t) : espos_sk_discovered_t := d <| seen_ms := now |>.

(** [(int32_t)(now_ms - seen_ms) < (int32_t)carry_ms] *)
Definition carried (i : espos_sk_merge_in_t) (d : espos_sk_discovered_t) : bool :=
  i32 (mi_now_ms i - seen_ms d) <? i32 (carry_ms i).

(** The stamp of the table's last entry at the address of [d], else [avoid]. *)
Definition carry_avoid (i : espos_sk_merge_in_t) (d : espos_sk_discovered_t) (avoid : Z) : Z :=
  foldl (fun av x => if espos_sk_same_addr x.1 (d_host d) (d_port d) then x.2 else av)
        avoid (zip (table i) (table_avoid i)).

Definition merge_find (i : espos_sk_merge_in_t) (l : list espos_sk_discovered_t) : option nat :=
  espos_sk_find_anchored l (mi_anchor i) (mi_cur_host i) (mi_cur_port i) (mi_self_fallback i).

(** The first slot, from the table's anchored entry. *)
Definition reserve_kept (i : espos_sk_merge_in_t) : option (espos_sk_discovered_t * Z) :=
  match merge_find i (table i) with
  | None => None
  | Some keep =>
      match table i !! keep with
      | None => None
      | Some t =>
          let av := default 0 (table_avoid i !! keep) in
          match index_of (fun f => espos_sk_same_addr f (d_host t) (d_port t)) (found i) with
          | Some k => (fun f => (answered (mi_now_ms i) f, av)) <$> found i !! k
          | None => if carried i t then Some (t, av) else None
          end
      end
  end.

(** The first slot, from this round's answers. *)
Definition reserve_found (i : espos_sk_merge_in_t) : option (espos_sk_discovered_t * Z) :=
  k ← merge_find i (found i);
  f ← found i !! k;
  Some (answered (mi_now_ms i) f, carry_avoid i f 0).

Definition reserve (i : espos_sk_merge_in_t) : option (espos_sk_discovered_t * Z) :=
  match reserve_kept i with Some r => Some r | None => reserve_found i end.

Definition add_found (i : espos_sk_merge_in_t) (cap : nat) (reserved : option (espos_sk_discovered_t * Z))
    (out : list (espos_sk_discovered_t * Z)) (f : espos_sk_discovered_t) : list (espos_sk_discovered_t * Z) :=
  if (cap <=? length out)%nat then out
  else if match reserved with Some r => espos_sk_same_addr f (d_host r.1) (d_port r.1) | None => false end then out
  else out ++ [(answered (mi_now_ms i) f, carry_avoid i f 0)].

Definition add_carried (i : espos_sk_merge_in_t) (cap : nat) (out : list (espos_sk_discovered_t * Z))
    (t : espos_sk_discovered_t * Z) : list (espos_sk_discovered_t * Z) :=
  if (cap <=? length out)%nat then out
  else if existsb (fun o => espos_sk_same_addr o.1 (d_host t.1) (d_port t.1)) out then out
  else if carried i t.1 then out ++ [t] else out.

(** The merged table with its stamps; the stamps past its end are zero. *)
Definition espos_sk_merge_servers (i : espos_sk_merge_in_t) (cap : nat) : list (espos_sk_discovered_t * Z) :=
  if (cap =? 0)%nat then []
  else
    let reserved := reserve i in
    let out := match reserved with Some r => [r] | None => [] end in
    let out := foldl (add_found i cap reserved) out (found i) in
    foldl (add_carried i cap) out (zip (table i) (table_avoid i)).
