(* ===== verification/SkSelectProps.v ===== *)
(** Correctness of the choice of the device's own server ([SkSelect]): it does not
    depend on the order of the answers, and neither a crowded discovery round nor
    the merge of rounds loses the server the device is paired with. *)
From Stdlib Require Import ZArith Lia String.
From stdpp Require Import base list numbers sets.
From S2P Require Import Prelude TokenSm SkSelect.
Open Scope Z_scope.

Definition addr (d : espos_sk_discovered_t) : cstr * Z := (d_host d, d_port d).

(** * Generic facts *)

Lemma index_of_some {A} (p : A -> bool) l i :
  index_of p l = Some i <-> exists x, l !! i = Some x /\ p x = true /\ forall j y, (j < i)%nat -> l !! j = Some y -> p y = false.
Proof.
  revert i. induction l as [|x l IH]; intros i; cbn.
  - split; [done|]. intros (x & Hx & _). by rewrite lookup_nil in Hx.
  - destruct (p x) eqn:E.
    + split.
      * intros [= <-]. exists x. split_and!; [done|done|]. intros j y Hj. lia.
      * intros (y & Hy & Hp & Hlt). destruct i as [|i]; [done|]. specialize (Hlt 0%nat x ltac:(lia) eq_refl). congruence.
    + split.
      * intros H. apply fmap_Some in H as (j & Hj & ->). apply IH in Hj as (y & Hy & Hp & Hlt). exists y. split_and!; [done|done|].
        intros [|k] z Hk Hz; [cbn in Hz; congruence|]. apply (Hlt k z); [lia|done].
      * intros (y & Hy & Hp & Hlt). destruct i as [|i]; [cbn in Hy; congruence|]. apply fmap_Some. exists i. split; [|done].
        apply IH. exists y. split_and!; [done|done|]. intros j z Hj Hz. apply (Hlt (S j) z); [lia|done].
Qed.

Lemma index_of_none {A} (p : A -> bool) l : index_of p l = None <-> forall x, x ∈ l -> p x = false.
Proof.
  induction l as [|x l IH]; cbn.
  - split; [|done]. intros _ x Hx. by apply not_elem_of_nil in Hx.
  - destruct (p x) eqn:E.
    + split; [done|]. intros H. rewrite H in E by apply list_elem_of_here. done.
    + rewrite fmap_None, IH. split.
      * intros H y Hy. apply elem_of_cons in Hy as [->|Hy]; auto.
      * intros H y Hy. apply H. by right.
Qed.

Lemma NoDup_fmap_inj {A B} (f : A -> B) l x y : NoDup (f <$> l) -> x ∈ l -> y ∈ l -> f x = f y -> x = y.
Proof.
  intros Hn Hx Hy Hf. apply list_elem_of_lookup in Hx as [i Hi], Hy as [j Hj].
  assert (i = j) as ->; [|congruence].
  eapply NoDup_lookup; [done| |]; rewrite list_lookup_fmap; [by rewrite Hi|]. by rewrite Hj, Hf.
Qed.

Lemma strcmp_eq a b : strcmp a b = Eq <-> a = b.
Proof.
  revert b. induction a as [|x a IH]; intros [|y b]; cbn; try done.
  destruct (Z.compare_spec x y) as [->|H|H]; [rewrite IH; split; congruence|split; [done|intros [= ->]; lia]..].
Qed.

Lemma strcmp_sym a b : strcmp b a = CompOpp (strcmp a b).
Proof.
  revert b. induction a as [|x a IH]; intros [|y b]; cbn; try done.
  rewrite Z.compare_antisym. destruct (x ?= y); cbn; auto.
Qed.

Lemma strcmp_trans a b c : strcmp a b = Lt -> strcmp b c = Lt -> strcmp a c = Lt.
Proof.
  revert b c. induction a as [|x a IH]; intros [|y b] [|z c]; cbn; try done.
  destruct (Z.compare_spec x y), (Z.compare_spec y z), (Z.compare_spec x z); subst; try done; try lia. apply IH.
Qed.

Lemma same_addr_spec d h p : espos_sk_same_addr d h p = true <-> byte0 h <> 0 /\ addr d = (h, p).
Proof.
  unfold espos_sk_same_addr, streq, addr. rewrite !andb_true_iff, negb_true_iff, Z.eqb_neq, Z.eqb_eq, bool_decide_eq_true.
  split; [intros [[? ->] ->]; done|intros [? [= -> ->]]; done].
Qed.

Lemma is_anchor_addr d a : espos_sk_is_anchor d a = true -> addr d = (a_host a, a_port a) /\ byte0 (d_host d) <> 0.
Proof.
  unfold espos_sk_is_anchor. rewrite andb_true_iff, same_addr_spec. intros (_ & H0 & Ha). split; [done|]. by injection Ha as -> _.
Qed.

(** * The election *)

(** The election order of servers with one self URN: the current server first,
    then by address. *)
Definition before (ch : cstr) (cp : Z) (a b : espos_sk_discovered_t) : Prop := espos_sk_disc_before a b ch cp = true.

Lemma before_cases ch cp a b : d_self a = d_self b ->
  before ch cp a b <->
  (espos_sk_same_addr a ch cp = true /\ espos_sk_same_addr b ch cp = false) \/
  (espos_sk_same_addr a ch cp = espos_sk_same_addr b ch cp /\
   (strcmp (d_host a) (d_host b) = Lt \/ d_host a = d_host b /\ d_port a < d_port b)).
Proof.
  intros Hs. unfold before, espos_sk_disc_before. rewrite (proj2 (strcmp_eq _ _) Hs).
  assert (E : strcmp (d_host a) (d_host b) = Eq <-> d_host a = d_host b) by apply strcmp_eq.
  destruct (espos_sk_same_addr a ch cp), (espos_sk_same_addr b ch cp); cbn [Bool.eqb negb];
    destruct (strcmp (d_host a) (d_host b)); rewrite ?Z.ltb_lt; intuition congruence.
Qed.

Lemma before_trans ch cp a b c : d_self a = d_self b -> d_self b = d_self c ->
  before ch cp a b -> before ch cp b c -> before ch cp a c.
Proof.
  intros Hab Hbc. rewrite !before_cases by congruence.
  assert (Ht : (strcmp (d_host a) (d_host b) = Lt \/ d_host a = d_host b /\ d_port a < d_port b) ->
    (strcmp (d_host b) (d_host c) = Lt \/ d_host b = d_host c /\ d_port b < d_port c) ->
    strcmp (d_host a) (d_host c) = Lt \/ d_host a = d_host c /\ d_port a < d_port c).
  { intros [H1|[E1 H1]] [H2|[E2 H2]].
    - left. by eapply strcmp_trans.
    - left. by rewrite <- E2.
    - left. by rewrite E1.
    - right. split; [congruence|lia]. }
  destruct (espos_sk_same_addr a ch cp), (espos_sk_same_addr b ch cp), (espos_sk_same_addr c ch cp); intuition congruence.
Qed.

Lemma before_total ch cp a b : d_self a = d_self b -> ~ before ch cp a b -> ~ before ch cp b a -> addr a = addr b.
Proof.
  intros Hs. rewrite !before_cases, (strcmp_sym (d_host a) (d_host b)) by done. intros H1 H2.
  destruct (strcmp (d_host a) (d_host b)) eqn:E; cbn in H2;
    [|destruct (espos_sk_same_addr a ch cp), (espos_sk_same_addr b ch cp); intuition congruence..].
  apply strcmp_eq in E. unfold addr. rewrite E in *. f_equal.
  destruct (Z.lt_trichotomy (d_port a) (d_port b)) as [H|[H|H]]; [|done|];
    destruct (espos_sk_same_addr a ch cp), (espos_sk_same_addr b ch cp); intuition congruence.
Qed.

Lemma elect_app l x self ch cp :
  elect (l ++ [x]) self ch cp =
  if negb (streq (d_self x) self) then elect l self ch cp
  else match elect l self ch cp with
       | None => Some (length l, x)
       | Some (i, best) => if espos_sk_disc_before x best ch cp then Some (length l, x) else Some (i, best)
       end.
Proof.
  unfold elect. rewrite imap_app, foldl_app. cbn [imap foldl Init.Nat.add snd]. rewrite Nat.add_0_r.
  destruct (negb _); [done|]. by destruct (foldl _ _ _) as [[i best]|].
Qed.

(** The elected entry: with the self URN, and none with it before it. *)
Lemma elect_spec l self ch cp :
  match elect l self ch cp with
  | None => forall x, x ∈ l -> d_self x <> self
  | Some (i, x) => l !! i = Some x /\ d_self x = self /\ forall y, y ∈ l -> d_self y = self -> ~ before ch cp y x
  end.
Proof.
  induction l as [|z l IH] using rev_ind.
  { cbn. intros x Hx. by apply not_elem_of_nil in Hx. }
  rewrite elect_app. unfold streq. destruct (bool_decide_reflect (d_self z = self)) as [E|E]; cbn [negb].
  - destruct (elect l self ch cp) as [[i best]|].
    + destruct IH as (Hi & Hs & Hmin). destruct (espos_sk_disc_before z best ch cp) eqn:Eb.
      * split_and!; [by rewrite list_lookup_middle|done|]. intros y Hy Hys Hb.
        apply elem_of_app in Hy as [Hy|Hy].
        -- apply (Hmin y Hy Hys). eapply before_trans; [| |exact Hb|exact Eb]; congruence.
        -- apply list_elem_of_singleton in Hy as ->. revert Hb. rewrite before_cases by done. rewrite (proj2 (strcmp_eq _ _) eq_refl).
           intuition (congruence || lia).
      * split_and!; [by apply lookup_app_l_Some|done|]. intros y Hy Hys. apply elem_of_app in Hy as [Hy|Hy]; [by apply Hmin|].
        apply list_elem_of_singleton in Hy as ->. unfold before. congruence.
    + split_and!; [by rewrite list_lookup_middle|done|]. intros y Hy Hys. apply elem_of_app in Hy as [Hy|Hy]; [by destruct (IH y Hy)|].
      apply list_elem_of_singleton in Hy as ->. rewrite before_cases by done. rewrite (proj2 (strcmp_eq _ _) eq_refl).
      intuition (congruence || lia).
  - destruct (elect l self ch cp) as [[i best]|].
    + destruct IH as (Hi & Hs & Hmin). split_and!; [by apply lookup_app_l_Some|done|].
      intros y Hy Hys. apply elem_of_app in Hy as [Hy|Hy]; [by apply Hmin|]. apply list_elem_of_singleton in Hy as ->. done.
    + intros x Hx. apply elem_of_app in Hx as [Hx|Hx]; [by apply IH|]. by apply list_elem_of_singleton in Hx as ->.
Qed.

(** The entry [espos_sk_find_anchored] points at. *)
Definition chosen (l : list espos_sk_discovered_t) (a : espos_sk_anchor_t) (ch : cstr) (cp : Z) (fb : bool)
    : option espos_sk_discovered_t :=
  i ← espos_sk_find_anchored l a ch cp fb; l !! i.

(** What the choice should be, with no reference to the order of the list: the
    entry at the anchor's address; failing that, and if the anchor has no address or
    may have moved, the first in election order of those with its self URN. *)
Definition wanted (l : list espos_sk_discovered_t) (a : espos_sk_anchor_t) (ch : cstr) (cp : Z) (fb : bool)
    (x : espos_sk_discovered_t) : Prop :=
  x ∈ l /\
  (espos_sk_is_anchor x a = true \/
   ((forall y, y ∈ l -> espos_sk_is_anchor y a = false) /\ byte0 (a_self a) <> 0 /\ (byte0 (a_host a) = 0 \/ fb = true) /\
    d_self x = a_self a /\ forall y, y ∈ l -> d_self y = a_self a -> ~ before ch cp y x)).

Lemma chosen_wanted l a ch cp fb :
  match chosen l a ch cp fb with Some x => wanted l a ch cp fb x | None => forall x, ~ wanted l a ch cp fb x end.
Proof.
  unfold chosen, espos_sk_find_anchored. destruct (index_of _ l) as [i|] eqn:Ei.
  - apply index_of_some in Ei as (x & Hx & Hp & _). cbn. rewrite Hx. split; [by eapply list_elem_of_lookup_2|by left].
  - pose proof (proj1 (index_of_none _ _) Ei) as Hno. cbn in Hno. clear Ei.
    destruct (Z.eqb_spec (byte0 (a_self a)) 0) as [E0|E0]; cbn [orb].
    { intros x (Hx & [Hx'|(_ & ? & _)]); [|done]. rewrite Hno in Hx' by done. done. }
    destruct (negb (byte0 (a_host a) =? 0) && negb fb) eqn:Eg.
    { apply andb_true_iff in Eg as [Eh Ef]. apply negb_true_iff in Eh, Ef. apply Z.eqb_neq in Eh.
      intros x (Hx & [Hx'|(_ & _ & [?|?] & _)]); [|congruence..]. rewrite Hno in Hx' by done. done. }
    assert (Hg : byte0 (a_host a) = 0 \/ fb = true).
    { apply andb_false_iff in Eg as [Eg|Eg]; rewrite negb_false_iff, ?Z.eqb_eq in Eg; auto. }
    pose proof (elect_spec l (a_self a) ch cp) as He. destruct (elect l (a_self a) ch cp) as [[i x]|]; cbn.
    + destruct He as (Hx & Hs & Hmin). rewrite Hx. split; [by eapply list_elem_of_lookup_2|]. right. done.
    + intros x (Hx & [Hx'|(_ & _ & _ & Hs & _)]); [rewrite Hno in Hx' by done; done|]. by apply (He x).
Qed.

Lemma wanted_unique l a ch cp fb x y :
  NoDup (addr <$> l) -> wanted l a ch cp fb x -> wanted l a ch cp fb y -> x = y.
Proof.
  intros Hn (Hx & Hx') (Hy & Hy'). apply (NoDup_fmap_inj addr l); [done..|].
  destruct Hx' as [Hx'|(Nx & _ & _ & Sx & Mx)], Hy' as [Hy'|(Ny & _ & _ & Sy & My)].
  - apply is_anchor_addr in Hx' as [-> _], Hy' as [-> _]. done.
  - rewrite Ny in Hx' by done. done.
  - rewrite Nx in Hy' by done. done.
  - apply (before_total ch cp); [congruence| |]; auto.
Qed.

Lemma wanted_perm l l' a ch cp fb x : l ≡ₚ l' -> wanted l a ch cp fb x -> wanted l' a ch cp fb x.
Proof.
  intros Hp (Hx & H). split; [by rewrite <- Hp|]. destruct H as [H|(Hn & H1 & H2 & H3 & Hm)]; [by left|right].
  split_and!; try done; intros y Hy; rewrite <- Hp in Hy; auto.
Qed.

(** The choice of the own server is deterministic: with distinct addresses, the
    entry chosen is exactly the one at the address the token or request came from
    (unless its self URN contradicts the anchor's), or, when that address is unknown
    or given up, the one with the anchor's self URN that comes first by "in use, then
    host, then port"; so any reordering of the answers gives the same choice. *)
Theorem sk_choice_order_free l l' a ch cp fb x :
  NoDup (addr <$> l) -> l ≡ₚ l' ->
  (chosen l a ch cp fb = Some x <-> wanted l a ch cp fb x) /\ chosen l' a ch cp fb = chosen l a ch cp fb.
Proof.
  intros Hn Hp. pose proof (chosen_wanted l a ch cp fb) as H. pose proof (chosen_wanted l' a ch cp fb) as H'.
  destruct (chosen l a ch cp fb) as [y|].
  - split.
    + split; [intros [= <-]; done|]. intros Hx. f_equal. by eapply wanted_unique.
    + pose proof (wanted_perm _ _ _ _ _ _ _ Hp H) as Hy.
      destruct (chosen l' a ch cp fb) as [z|]; [|by destruct (H' y)].
      f_equal. eapply wanted_unique; [|exact H'|exact Hy]. by rewrite <- Hp.
  - split; [split; [done|]; intros Hx; by destruct (H x)|].
    destruct (chosen l' a ch cp fb) as [z|]; [|done]. destruct (H z). eapply wanted_perm; [|exact H']. done.
Qed.

(** * A discovery round *)

Definition discover (max : nat) (keep : option espos_sk_keep_t) (answers : list espos_sk_discovered_t) :=
  foldl (fun out d => espos_sk_disc_add out max d keep) [] answers.

Definition at_anchor (a : espos_sk_anchor_t) (d : espos_sk_discovered_t) : Prop := addr d = (a_host a, a_port a).
#[local] Instance at_anchor_dec a d : Decision (at_anchor a d).
Proof. unfold at_anchor. apply _. Defined.

(** The last answer from the anchor's address. *)
Definition last_at (a : espos_sk_anchor_t) (answers : list espos_sk_discovered_t) : option espos_sk_discovered_t :=
  last (filter (at_anchor a) answers).

Lemma last_at_snoc a l d : last_at a (l ++ [d]) = if decide (at_anchor a d) then Some d else last_at a l.
Proof.
  unfold last_at. rewrite filter_app, filter_cons, filter_nil. destruct (decide (at_anchor a d)); [apply last_snoc|].
  by rewrite app_nil_r.
Qed.

Lemma insert_addr_same (l : list espos_sk_discovered_t) i x d : l !! i = Some x -> addr d = addr x -> addr <$> <[i:=d]> l = addr <$> l.
Proof. intros Hi Ha. rewrite list_fmap_insert, Ha. apply list_insert_id. by rewrite list_lookup_fmap, Hi. Qed.

Lemma insert_addr_fresh (l : list espos_sk_discovered_t) i d : NoDup (addr <$> l) -> addr d ∉ addr <$> l -> NoDup (addr <$> <[i:=d]> l).
Proof.
  intros Hn Hd. rewrite list_fmap_insert. apply NoDup_alt. intros j k x Hj Hk.
  apply list_lookup_insert_Some in Hj as [(E & Ex & _)|(? & Hj)], Hk as [(E' & Ey & _)|(? & Hk)]; [congruence|..].
  - destruct Hd. rewrite Ex. by eapply list_elem_of_lookup_2.
  - destruct Hd. rewrite Ey. by eapply list_elem_of_lookup_2.
  - by eapply NoDup_lookup.
Qed.

(** How [espos_sk_disc_add] changes the list. *)
Inductive added (max : nat) (out : list espos_sk_discovered_t) (d : espos_sk_discovered_t) : list espos_sk_discovered_t -> Prop :=
  | added_again i x : out !! i = Some x -> addr x = addr d -> added max out d (<[i := d]> out)
  | added_last : addr d ∉ addr <$> out -> (length out < max)%nat -> added max out d (out ++ [d])
  | added_instead i x : addr d ∉ addr <$> out -> (max <= length out)%nat -> out !! i = Some x -> added max out d (<[i := d]> out)
  | added_not : addr d ∉ addr <$> out -> (max <= length out)%nat -> added max out d out.


Lemma find_lookup l a ch cp fb i : espos_sk_find_anchored l a ch cp fb = Some i -> exists x, l !! i = Some x.
Proof.
  unfold espos_sk_find_anchored. destruct (index_of _ l) as [j|] eqn:Ei.
  - intros [= <-]. apply index_of_some in Ei as (x & Hx & _). eauto.
  - destruct (_ || _); [done|]. pose proof (elect_spec l (a_self a) ch cp) as He.
    destruct (elect l (a_self a) ch cp) as [[j x]|]; [|done]. cbn. intros [= <-]. destruct He as [He _]. eauto.
Qed.

Lemma disc_add_added out max d keep :
  (0 < max)%nat -> byte0 (d_host d) <> 0 -> added max out d (espos_sk_disc_add out max d keep).
Proof.
  intros Hm Hd. unfold espos_sk_disc_add. destruct (index_of _ out) as [i|] eqn:Ei.
  { apply index_of_some in Ei as (x & Hx & Hs & _). apply same_addr_spec in Hs as [_ Hs]. by eapply added_again. }
  assert (Hf : addr d ∉ addr <$> out).
  { intros Hin. apply list_elem_of_fmap in Hin as (x & Ha & Hx). pose proof (proj1 (index_of_none _ _) Ei x Hx) as Hno. cbn in Hno.
    apply not_true_iff_false in Hno. apply Hno, same_addr_spec. split; [done|]. by rewrite <- Ha. }
  destruct (Nat.ltb_spec (length out) max); [by apply added_last|].
  destruct (Nat.eqb_spec max 0); [lia|]. destruct keep as [k|]; [|by apply added_not]. destruct (k_anchor k) as [a|]; [|by apply added_not].
  unfold keep_slot. destruct (bool_decide _); [|by apply added_not].
  assert (Hx : exists x, out !! default (pred max) (espos_sk_find_anchored out a (k_cur_host k) (k_cur_port k) (k_self_fallback k)) = Some x).
  { destruct (espos_sk_find_anchored out a _ _ _) as [j|] eqn:Ej; cbn; [by eapply find_lookup|]. apply lookup_lt_is_Some_2. lia. }
  destruct Hx as [x Hx]. by eapply added_instead.
Qed.

(** The listed addresses are distinct, the bound holds, every entry was answered,
    and nothing answered is missing while there is room. *)
Definition round_ok (max : nat) (answers out : list espos_sk_discovered_t) : Prop :=
  NoDup (addr <$> out) /\ (length out <= max)%nat /\ (forall d, d ∈ out -> d ∈ answers) /\
  (length out <= length answers)%nat /\
  ((length answers <= max)%nat -> forall d, d ∈ answers -> addr d ∈ addr <$> out).

Lemma elem_of_snoc {A} (l : list A) x y : x ∈ l ++ [y] <-> x ∈ l \/ x = y.
Proof. by rewrite elem_of_app, list_elem_of_singleton. Qed.

Lemma insert_elem {A} (l : list A) i x y : y ∈ <[i:=x]> l -> y ∈ l \/ y = x.
Proof.
  intros Hy. apply list_elem_of_lookup in Hy as [j Hj]. apply list_lookup_insert_Some in Hj as [(_ & -> & _)|(_ & Hj)]; [by right|].
  left. by eapply list_elem_of_lookup_2.
Qed.

Lemma round_ok_add max answers out d out' :
  round_ok max answers out -> added max out d out' -> round_ok max (answers ++ [d]) out'.
Proof.
  intros (Hn & Hl & Hin & Hc & Hall) Ha. unfold round_ok. rewrite length_app. cbn [length].
  destruct Ha as [i x Hi Hx|Hf Hlt|i x Hf Hge Hi|Hf Hge]; rewrite ?length_insert, ?length_app; cbn [length].
  - rewrite (insert_addr_same _ _ x) by done. split_and!; [done|done| |lia|].
    + intros y Hy. apply elem_of_snoc. apply insert_elem in Hy as [?|?]; auto.
    + intros Hm y Hy. apply elem_of_snoc in Hy as [?| ->]; [apply Hall; [lia|done]|].
      rewrite <- Hx. apply list_elem_of_fmap_2. by eapply list_elem_of_lookup_2.
  - rewrite fmap_app. cbn. split_and!; [|lia| |lia|].
    + apply NoDup_app. split_and!; [done| |apply NoDup_singleton]. intros y Hy Hy'. by apply list_elem_of_singleton in Hy' as ->.
    + intros y Hy. apply elem_of_snoc in Hy as [?| ->]; apply elem_of_snoc; auto.
    + intros Hm y Hy. apply elem_of_snoc. apply elem_of_snoc in Hy as [?| ->]; [left; apply Hall; [lia|done]|by right].
  - split_and!; [by apply insert_addr_fresh|done| |lia|lia]. intros y Hy. apply elem_of_snoc. apply insert_elem in Hy as [?|?]; auto.
  - split_and!; [done|done| |lia|lia]. intros y Hy. apply elem_of_snoc. auto.
Qed.

(** With the anchor at index [i] first, the choice is [i]. *)
Lemma find_anchor_first l a ch cp fb i x :
  NoDup (addr <$> l) -> l !! i = Some x -> espos_sk_is_anchor x a = true -> espos_sk_find_anchored l a ch cp fb = Some i.
Proof.
  intros Hn Hi Hx. unfold espos_sk_find_anchored.
  assert (index_of (fun d => espos_sk_is_anchor d a) l = Some i) as ->; [|done]. apply index_of_some. exists x. split_and!; [done|done|].
  intros j y Hj Hy. apply not_true_iff_false. intros Ha. apply is_anchor_addr in Hx as [Hx _], Ha as [Ha _].
  assert (j = i); [|lia]. eapply (NoDup_lookup (addr <$> l)); [done| |]; rewrite list_lookup_fmap; [rewrite Hy; cbn; by rewrite Ha|rewrite Hi; cbn; by rewrite Hx].
Qed.

(** A newcomer that is the anchor takes a slot. *)
Lemma keep_slot_new out max d k a :
  (forall y, y ∈ out -> addr y <> addr d) -> espos_sk_is_anchor d a = true ->
  keep_slot out max d k a = Some (default (pred max) (espos_sk_find_anchored out a (k_cur_host k) (k_cur_port k) (k_self_fallback k))).
Proof.
  intros Hf Hd. unfold keep_slot. cbv zeta.
  set (listed := match espos_sk_find_anchored out a _ _ _ with Some i => _ | None => _ end).
  assert (Hl : forall y, y ∈ listed -> y ∈ out).
  { subst listed. destruct (espos_sk_find_anchored out a _ _ _) as [i|]; [|intros y Hy; by apply not_elem_of_nil in Hy].
    destruct (out !! i) as [e|] eqn:E; [|intros y Hy; by apply not_elem_of_nil in Hy].
    intros y Hy. apply list_elem_of_singleton in Hy as ->. by eapply list_elem_of_lookup_2. }
  assert (Hn : NoDup (addr <$> listed ++ [d])).
  { rewrite fmap_app. apply NoDup_app. split_and!; [|..].
    - subst listed. destruct (espos_sk_find_anchored out a _ _ _) as [i|]; [|apply NoDup_nil_2].
      destruct (out !! i); [apply NoDup_singleton|apply NoDup_nil_2].
    - intros z Hz Hz'. apply list_elem_of_singleton in Hz' as ->. apply list_elem_of_fmap in Hz as (y & Hy & Hyl).
      by apply (Hf y); [apply Hl|].
    - apply NoDup_singleton. }
  rewrite bool_decide_eq_true_2; [done|]. eapply find_anchor_first; [done| |done]. by rewrite list_lookup_middle.
Qed.

(** A listed anchor is not displaced by another server. *)
Lemma keep_slot_old out max d k a x :
  NoDup (addr <$> out) -> x ∈ out -> espos_sk_is_anchor x a = true -> (forall y, y ∈ out -> addr y <> addr d) ->
  keep_slot out max d k a = None.
Proof.
  intros Hn Hx Ha Hf. pose proof Hx as Hx'. apply list_elem_of_lookup in Hx' as [i Hi].
  unfold keep_slot. rewrite (find_anchor_first out a _ _ _ i x) by done. rewrite Hi. cbn [app length].
  rewrite (find_anchor_first [x; d] a _ _ _ 0 x); [done| |done|done].
  cbn. apply NoDup_cons. split; [|apply NoDup_singleton]. intros H. apply list_elem_of_singleton in H. by apply (Hf x).
Qed.

(** The list keeps the anchored server. *)
Lemma disc_add_keeps out max d k a x :
  NoDup (addr <$> out) -> (0 < max)%nat -> byte0 (d_host d) <> 0 -> k_anchor k = Some a ->
  espos_sk_is_anchor x a = true -> (if decide (at_anchor a d) then x = d else x ∈ out) ->
  x ∈ espos_sk_disc_add out max d (Some k).
Proof.
  intros Hn Hm Hd Hk Hx Hin. pose proof (is_anchor_addr x a Hx) as [Hxa Hxh].
  unfold espos_sk_disc_add. destruct (index_of _ out) as [i|] eqn:Ei.
  { apply index_of_some in Ei as (y & Hy & Hs & _). apply same_addr_spec in Hs as [_ Hs].
    destruct (decide (at_anchor a d)) as [E|E]; [subst; apply list_elem_of_lookup_2 with i; apply list_lookup_insert_eq; by eapply lookup_lt_Some|].
    apply list_elem_of_lookup in Hin as [j Hj]. apply list_elem_of_lookup_2 with j. rewrite list_lookup_insert_ne; [done|].
    intros ->. unfold at_anchor, addr in *. congruence. }
  assert (Hf : forall y, y ∈ out -> addr y <> addr d).
  { intros y Hy Ha. pose proof (proj1 (index_of_none _ _) Ei y Hy) as Hno. cbn in Hno.
    apply not_true_iff_false in Hno. apply Hno, same_addr_spec. done. }
  destruct (Nat.ltb_spec (length out) max).
  { apply elem_of_snoc. destruct (decide (at_anchor a d)); auto. }
  destruct (Nat.eqb_spec max 0); [lia|]. rewrite Hk. destruct (decide (at_anchor a d)) as [Ed|Ed].
  - subst x. rewrite keep_slot_new by done. apply list_elem_of_lookup_2 with (default (pred max) (espos_sk_find_anchored out a (k_cur_host k) (k_cur_port k) (k_self_fallback k))).
    apply list_lookup_insert_eq. destruct (espos_sk_find_anchored out a _ _ _) as [j|] eqn:Ej; cbn; [|lia].
    apply find_lookup in Ej as [y Hy]. by eapply lookup_lt_Some.
  - by rewrite (keep_slot_old _ _ _ _ _ x).
Qed.

(** A crowded discovery round does not lose the paired server: whatever answers
    arrive and however small the list, the addresses listed are distinct, every entry
    is an answer of the round (all of them while there is room), and if the latest
    answer from the anchor's address does not contradict the anchor's self URN, it is
    listed and it is what the choice then picks, whatever server is in use. *)
Theorem sk_discovery_keeps_anchor answers max k a ch cp fb :
  (0 < max)%nat -> Forall (fun d => byte0 (d_host d) <> 0) answers -> k_anchor k = Some a ->
  let out := discover max (Some k) answers in
  round_ok max answers out /\
  forall x, last_at a answers = Some x -> espos_sk_is_anchor x a = true -> chosen out a ch cp fb = Some x.
Proof.
  intros Hm Hh Hk. cbv zeta.
  assert (H : round_ok max answers (discover max (Some k) answers) /\
    forall x, last_at a answers = Some x -> espos_sk_is_anchor x a = true -> x ∈ discover max (Some k) answers).
  { induction answers as [|d l IH] using rev_ind.
    { split; [|done]. split_and!; [apply NoDup_nil_2|cbn; lia|done|done|]. intros _ d Hd. by apply not_elem_of_nil in Hd. }
    apply Forall_app in Hh as [Hl Hd]. rewrite Forall_singleton in Hd. destruct (IH Hl) as [Hr Hx]. clear IH.
    unfold discover in *. rewrite foldl_app. cbn [foldl]. split.
    - eapply round_ok_add; [done|]. by apply disc_add_added.
    - intros x Hlast Ha. apply disc_add_keeps with a; try done; [apply Hr|].
      rewrite last_at_snoc in Hlast. destruct (decide (at_anchor a d)); [congruence|]. by apply Hx. }
  destruct H as [Hr Hx]. split; [done|]. intros x Hlast Ha. specialize (Hx x Hlast Ha).
  apply list_elem_of_lookup in Hx as [i Hi]. unfold chosen. rewrite (find_anchor_first _ _ _ _ _ i x); [done|apply Hr|done|done].
Qed.

(** * The merge of a round into the table *)

(** The addresses of a merged table. *)
Definition addrs (out : list (espos_sk_discovered_t * Z)) : list (cstr * Z) := (fun x => addr x.1) <$> out.

Lemma addrs_snoc out x : addrs (out ++ [x]) = addrs out ++ [addr x.1].
Proof. unfold addrs. by rewrite fmap_app. Qed.

Lemma NoDup_snoc {A} (l : list A) x : NoDup l -> x ∉ l -> NoDup (l ++ [x]).
Proof. intros Hl Hx. apply NoDup_app. split_and!; [done| |apply NoDup_singleton]. intros y Hy Hy'. by apply list_elem_of_singleton in Hy' as ->. Qed.

Lemma prefix_addrs out out' : out `prefix_of` out' -> forall a, a ∈ addrs out -> a ∈ addrs out'.
Proof. intros [k ->] a Ha. unfold addrs in *. rewrite fmap_app. apply elem_of_app. by left. Qed.

(** What a loop of the merge does with the entries [new], those [ok] marks being
    wanted: the table it starts from stays in front, addresses stay distinct, the
    bound holds, only wanted entries at new addresses are added, and while there is
    room every wanted address gets in. *)
Record extends (cap : nat) (new : list (espos_sk_discovered_t * Z)) (ok : espos_sk_discovered_t * Z -> Prop)
    (out out' : list (espos_sk_discovered_t * Z)) : Prop := mk_extends {
  ex_prefix : out `prefix_of` out';
  ex_nodup : NoDup (addrs out) -> NoDup (addrs out');
  ex_bound : (length out <= cap)%nat -> (length out' <= cap)%nat;
  ex_src : forall x, x ∈ out' -> x ∈ out \/ (x ∈ new /\ ok x /\ addr x.1 ∉ addrs out /\ (length out < cap)%nat);
  ex_all : (length out' < cap)%nat -> forall x, x ∈ new -> ok x -> addr x.1 ∈ addrs out'
}.

Lemma extends_stop cap new ok out :
  ((length out < cap)%nat -> forall x, x ∈ new -> ok x -> addr x.1 ∈ addrs out) -> extends cap new ok out out.
Proof. intros H. split; auto. Qed.

Lemma extends_cons cap x new ok out out1 out2 :
  out1 = out /\ ((length out < cap)%nat -> ok x -> addr x.1 ∈ addrs out) \/
  out1 = out ++ [x] /\ (length out < cap)%nat /\ ok x /\ addr x.1 ∉ addrs out ->
  extends cap new ok out1 out2 -> extends cap (x :: new) ok out out2.
Proof.
  intros Hs [Hp Hn Hb Hsrc Hall]. destruct Hs as [[-> Hx]|(-> & Hlt & Hok & Hf)].
  - split; auto.
    + intros y Hy. destruct (Hsrc y Hy) as [?|(Hy' & ? & ?)]; [by left|right]. split; [by right|done].
    + intros Hl y Hy Hyok. apply elem_of_cons in Hy as [->|Hy]; [|by apply Hall].
      apply (prefix_addrs _ _ Hp). apply Hx; [|done]. apply prefix_length in Hp. lia.
  - rewrite addrs_snoc, length_app in *. cbn [length] in *. split.
    + etrans; [|exact Hp]. by apply prefix_app_r.
    + intros H. apply Hn. by apply NoDup_snoc.
    + intros H. apply Hb. lia.
    + intros y Hy. destruct (Hsrc y Hy) as [Hy'|(Hy' & ? & Hyf & ?)].
      * apply elem_of_snoc in Hy' as [?| ->]; [by left|right]. split_and!; [by left|done..].
      * right. split_and!; [by right|done| |done]. intros H'. apply Hyf. apply elem_of_app. by left.
    + intros Hl y Hy Hyok. apply elem_of_cons in Hy as [->|Hy]; [|by apply Hall].
      apply (prefix_addrs _ _ Hp). rewrite addrs_snoc. apply elem_of_snoc. by right.
Qed.

Lemma existsb_addr out d :
  byte0 (d_host d) <> 0 ->
  existsb (fun o : espos_sk_discovered_t * Z => espos_sk_same_addr o.1 (d_host d) (d_port d)) out = true <-> addr d ∈ addrs out.
Proof.
  intros Hd. rewrite existsb_exists. unfold addrs. rewrite list_elem_of_fmap. split.
  - intros (x & Hx & Hs). apply same_addr_spec in Hs as [_ Hs]. exists x. split; [done|]. by apply list_elem_of_In.
  - intros (x & Hs & Hx). exists x. split; [by apply list_elem_of_In|]. by apply same_addr_spec.
Qed.

Lemma carried_loop i cap new out :
  Forall (fun t => byte0 (d_host t.1) <> 0) new ->
  extends cap new (fun t => carried i t.1 = true) out (foldl (add_carried i cap) out new).
Proof.
  revert out. induction new as [|t new IH]; intros out Hh.
  { cbn. apply extends_stop. intros _ x Hx. by apply not_elem_of_nil in Hx. }
  apply Forall_cons in Hh as [Ht Hh]. cbn [foldl]. eapply extends_cons; [|by apply IH]. unfold add_carried.
  destruct (Nat.leb_spec cap (length out)); [left; split; [done|lia]|].
  destruct (existsb _ out) eqn:Ed.
  { left. split; [done|]. intros _ _. by apply existsb_addr in Ed. }
  assert (Hf : addr t.1 ∉ addrs out) by (rewrite <- existsb_addr by done; congruence).
  destruct (carried i t.1) eqn:Ec; [by right|left; split; [done|congruence]].
Qed.

(** The answers as they enter the table. *)
Definition entry (i : espos_sk_merge_in_t) (f : espos_sk_discovered_t) : espos_sk_discovered_t * Z :=
  (answered (mi_now_ms i) f, carry_avoid i f 0).

Lemma found_loop i cap reserved new out :
  Forall (fun f => byte0 (d_host f) <> 0) new -> NoDup (addr <$> new) ->
  (forall r, reserved = Some r -> byte0 (d_host r.1) <> 0 /\ addr r.1 ∈ addrs out) ->
  (forall f, f ∈ new -> addr f ∈ addrs out -> exists r, reserved = Some r /\ addr f = addr r.1) ->
  extends cap (entry i <$> new) (fun _ => True) out (foldl (add_found i cap reserved) out new).
Proof.
  revert out. induction new as [|f new IH]; intros out Hh Hn Hr Hin.
  { cbn. apply extends_stop. intros _ x Hx. by apply not_elem_of_nil in Hx. }
  apply Forall_cons in Hh as [Ht Hh]. cbn in Hn. apply NoDup_cons in Hn as [Hf Hn]. cbn [foldl fmap list_fmap].
  assert (Hskip : extends cap (entry i <$> new) (fun _ => True) out (foldl (add_found i cap reserved) out new)).
  { apply IH; try done. intros g Hg. apply Hin. by right. }
  unfold add_found at 2. destruct (Nat.leb_spec cap (length out)).
  { eapply extends_cons; [|exact Hskip]. left. split; [done|lia]. }
  destruct (match reserved with Some r => _ | None => _ end) eqn:Es.
  { eapply extends_cons; [|exact Hskip]. left. split; [done|]. intros _ _. destruct reserved as [r|]; [|done].
    apply same_addr_spec in Es as [_ Es]. change (addr (entry i f).1) with (addr f). rewrite Es. by apply Hr. }
  assert (Hnew : addr f ∉ addrs out).
  { intros H'. destruct (Hin f ltac:(by left) H') as (r & -> & Ha). apply not_true_iff_false in Es. apply Es, same_addr_spec.
    split; [by apply Hr|done]. }
  eapply extends_cons; [right; split; [reflexivity|done]|]. apply IH; try done.
  - intros r Hr'. destruct (Hr r Hr'). split; [done|]. rewrite addrs_snoc. apply elem_of_app. by left.
  - intros g Hg Hg'. rewrite addrs_snoc in Hg'. apply elem_of_snoc in Hg' as [Hg'|Hg']; [apply Hin; [by right|done]|].
    destruct Hf. assert (addr f = addr g) as -> by (by rewrite Hg'). by apply list_elem_of_fmap_2.
Qed.

Record merge_wf (i : espos_sk_merge_in_t) : Prop := mk_merge_wf {
  mw_found : Forall (fun f => byte0 (d_host f) <> 0) (found i);
  mw_table : Forall (fun t => byte0 (d_host t) <> 0) (table i);
  mw_distinct : NoDup (addr <$> found i);
  mw_avoid : length (table_avoid i) = length (table i)
}.

(** Where the first slot may come from. *)
Lemma reserve_found_src i r :
  reserve_found i = Some r -> exists f, f ∈ found i /\ r.1 = answered (mi_now_ms i) f.
Proof.
  unfold reserve_found. destruct (merge_find i (found i)) as [k|]; [|done]. cbn. destruct (found i !! k) as [f|] eqn:Ef; [|done]. cbn.
  intros [= <-]. exists f. split; [by eapply list_elem_of_lookup_2|done].
Qed.

Lemma reserve_src i r : merge_wf i -> reserve i = Some r ->
  (exists f, f ∈ found i /\ r.1 = answered (mi_now_ms i) f) \/
  (r.1 ∈ table i /\ carried i r.1 = true /\ addr r.1 ∉ addr <$> found i).
Proof.
  intros [Hh _ _ _]. unfold reserve, reserve_kept. destruct (merge_find i (table i)) as [j|]; [|intros H; left; by apply reserve_found_src].
  destruct (table i !! j) as [t|] eqn:Ej; [|intros H; left; by apply reserve_found_src].
  destruct (index_of _ (found i)) as [k|] eqn:Ek.
  - pose proof Ek as Ek'. apply index_of_some in Ek' as (f & Hf & _). rewrite Hf. cbn. intros [= <-]. left. exists f.
    split; [by eapply list_elem_of_lookup_2|done].
  - destruct (carried i t) eqn:Ec; [|intros H; left; by apply reserve_found_src].
    intros [= <-]. right. split_and!; [by eapply list_elem_of_lookup_2|done|]. intros Hin. apply list_elem_of_fmap in Hin as (f & Ha & Hf).
    pose proof (proj1 (index_of_none _ _) Ek f Hf) as Hno. cbn in Hno, Ha. apply not_true_iff_false in Hno. apply Hno, same_addr_spec.
    rewrite Forall_forall in Hh. specialize (Hh f Hf). split; [|done]. by injection Ha as -> _.
Qed.

Definition first_slot (i : espos_sk_merge_in_t) : list (espos_sk_discovered_t * Z) :=
  match reserve i with Some r => [r] | None => [] end.

Lemma reserve_host i r : merge_wf i -> reserve i = Some r -> byte0 (d_host r.1) <> 0.
Proof.
  intros Hw Hr. pose proof (reserve_src i r Hw Hr) as H. destruct Hw as [Hf Ht _ _]. rewrite Forall_forall in Hf, Ht.
  destruct H as [(f & Hin & ->)|(Hin & _)]; [exact (Hf f Hin)|by apply Ht].
Qed.

(** The two loops, from the first slot on. *)
Lemma merge_loops i cap : merge_wf i -> (0 < cap)%nat ->
  exists mid,
    extends cap (entry i <$> found i) (fun _ => True) (first_slot i) mid /\
    extends cap (zip (table i) (table_avoid i)) (fun t => carried i t.1 = true) mid (espos_sk_merge_servers i cap).
Proof.
  intros Hw Hc. unfold espos_sk_merge_servers. destruct (Nat.eqb_spec cap 0); [lia|]. fold (first_slot i). cbv zeta. eexists. split.
  - apply found_loop; [apply Hw|apply Hw| |].
    + intros r Hr. split; [by eapply reserve_host|]. unfold first_slot. rewrite Hr. by left.
    + intros f _ Hin. unfold first_slot in Hin. destruct (reserve i) as [r|]; [|by apply not_elem_of_nil in Hin].
      apply list_elem_of_singleton in Hin. by exists r.
  - apply carried_loop. destruct Hw as [_ Ht _ _]. rewrite Forall_forall in Ht. apply Forall_forall. intros [t av] Hin.
    apply (Ht t). by apply elem_of_zip_l in Hin.
Qed.

Lemma first_slot_ok i cap : (0 < cap)%nat -> NoDup (addrs (first_slot i)) /\ (length (first_slot i) <= cap)%nat.
Proof. intros Hc. unfold first_slot. destruct (reserve i); cbn; split; try lia; [apply NoDup_singleton|apply NoDup_nil_2]. Qed.

(** Merging a discovery round is sound and complete: the merged table keeps
    within its size and lists each address once; every entry is an answer of this
    round, stamped now, or an earlier entry that is still fresh and was not answered;
    and unless the table is full, every answered server and every fresh earlier one
    is in it. *)
Theorem sk_merge_table i cap :
  merge_wf i -> (0 < cap)%nat ->
  let out := espos_sk_merge_servers i cap in
  NoDup (addrs out) /\ (length out <= cap)%nat /\
  (forall x, x ∈ out -> (exists f, f ∈ found i /\ x.1 = answered (mi_now_ms i) f) \/
                       (x.1 ∈ table i /\ carried i x.1 = true /\ addr x.1 ∉ addr <$> found i)) /\
  ((length out < cap)%nat ->
   (forall f, f ∈ found i -> addr f ∈ addrs out) /\ (forall t, t ∈ table i -> carried i t = true -> addr t ∈ addrs out)).
Proof.
  intros Hw Hc. cbv zeta. destruct (merge_loops i cap Hw Hc) as (mid & [P1 N1 B1 S1 A1] & [P2 N2 B2 S2 A2]).
  destruct (first_slot_ok i cap Hc) as [N0 B0].
  assert (Hm : (length mid < cap)%nat -> forall f, f ∈ found i -> addr f ∈ addrs mid).
  { intros Hl f Hf. apply (A1 Hl (entry i f)); [|done]. by apply list_elem_of_fmap_2. }
  split_and!; [auto|auto| |].
  - intros x Hx. destruct (S2 x Hx) as [Hx'|(Hx' & Hcar & Hnew & Hlt)].
    + destruct (S1 x Hx') as [Hs|(Hs & _)].
      * unfold first_slot in Hs. destruct (reserve i) as [r|] eqn:Er; [|by apply not_elem_of_nil in Hs].
        apply list_elem_of_singleton in Hs as ->. by apply reserve_src.
      * left. apply list_elem_of_fmap in Hs as (f & -> & Hf). by exists f.
    + right. split_and!; [destruct x; by apply elem_of_zip_l in Hx'|done|]. intros Hin. apply list_elem_of_fmap in Hin as (f & Ha & Hf).
      apply Hnew. rewrite Ha. by apply Hm.
  - intros Hl. pose proof (prefix_length _ _ P2) as Hpl. split.
    + intros f Hf. apply (prefix_addrs _ _ P2). apply Hm; [lia|done].
    + intros t Ht Hcar. apply list_elem_of_lookup in Ht as [j Hj].
      destruct (lookup_lt_is_Some_2 (table_avoid i) j) as [av Hav]; [destruct Hw as [_ _ _ ->]; by eapply lookup_lt_Some|].
      apply (A2 Hl (t, av)); [|done]. apply list_elem_of_lookup_2 with j. apply lookup_zip_Some. done.
Qed.

(** The anchored server answered: the first slot is its answer. *)
Lemma reserve_answered i f :
  merge_wf i -> mi_self_fallback i = false -> f ∈ found i -> espos_sk_is_anchor f (mi_anchor i) = true ->
  exists av, reserve i = Some (answered (mi_now_ms i) f, av).
Proof.
  intros Hw Hfb Hf Ha. pose proof (is_anchor_addr _ _ Ha) as [Haddr Hhost]. destruct Hw as [_ _ Hd _].
  unfold reserve. destruct (reserve_kept i) as [r|] eqn:Er.
  - unfold reserve_kept in Er. destruct (merge_find i (table i)) as [j|] eqn:Ej; [|done]. destruct (table i !! j) as [t|] eqn:Et; [|done].
    assert (Hta : espos_sk_is_anchor t (mi_anchor i) = true).
    { unfold merge_find, espos_sk_find_anchored in Ej. rewrite Hfb in Ej.
      destruct (index_of _ (table i)) as [j'|] eqn:Ei; [injection Ej as ->; apply index_of_some in Ei as (t' & ? & ? & _); congruence|].
      assert (byte0 (a_host (mi_anchor i)) =? 0 = false) as Hz by (apply Z.eqb_neq; by injection Haddr as <- _).
      rewrite Hz in Ej. cbn [negb andb] in Ej. rewrite orb_true_r in Ej. done. }
    apply is_anchor_addr in Hta as [Hta Hth].
    destruct (index_of _ (found i)) as [k|] eqn:Ek.
    + apply index_of_some in Ek as (g & Hg & Hs & _). rewrite Hg in Er. cbn in Er. injection Er as <-.
      apply same_addr_spec in Hs as [_ Hs]. assert (g = f) as ->; [|eauto].
      apply (NoDup_fmap_inj addr (found i)); [done|by eapply list_elem_of_lookup_2|done|]. rewrite Hs, Haddr. exact Hta.
    + pose proof (proj1 (index_of_none _ _) Ek f Hf) as Hno. cbn in Hno. apply not_true_iff_false in Hno. destruct Hno.
      apply same_addr_spec. split; [done|]. rewrite Haddr. symmetry. exact Hta.
  - unfold reserve_found, merge_find. apply list_elem_of_lookup in Hf as [k Hk].
    rewrite (find_anchor_first _ _ _ _ _ k f) by done. cbn. rewrite Hk. cbn. eauto.
Qed.

(** The anchored server is silent but fresh: the first slot is its old entry. *)
Lemma reserve_silent i k t av :
  merge_wf i -> index_of (fun d => espos_sk_is_anchor d (mi_anchor i)) (table i) = Some k -> table i !! k = Some t ->
  table_avoid i !! k = Some av -> carried i t = true -> (forall f, f ∈ found i -> addr f <> addr t) -> reserve i = Some (t, av).
Proof.
  intros Hw Hk Ht Hav Hcar Hno. unfold reserve, reserve_kept, merge_find, espos_sk_find_anchored. rewrite Hk, Ht, Hav.
  destruct (index_of _ (found i)) as [j|] eqn:Ej.
  - apply index_of_some in Ej as (f & Hf & Hs & _). apply same_addr_spec in Hs as [_ Hs].
    destruct (Hno f); [by eapply list_elem_of_lookup_2|done].
  - by rewrite Hcar.
Qed.

(** C29. Merging never loses the paired server: while its address is not given up, if
    it answered, it is first in the merged table, stamped now; if it was silent but
    is still fresh, it is first with its entry and its avoidance stamp unchanged; in
    both cases the choice then picks it, however full the table and whatever else
    answered. *)
Theorem sk_merge_keeps_anchor i cap ch cp fb :
  merge_wf i -> (0 < cap)%nat -> mi_self_fallback i = false ->
  let out := espos_sk_merge_servers i cap in
  (forall f, f ∈ found i -> espos_sk_is_anchor f (mi_anchor i) = true ->
     chosen (out.*1) (mi_anchor i) ch cp fb = Some (answered (mi_now_ms i) f) /\ head (out.*1) = Some (answered (mi_now_ms i) f)) /\
  (forall k t av, index_of (fun d => espos_sk_is_anchor d (mi_anchor i)) (table i) = Some k ->
     table i !! k = Some t -> table_avoid i !! k = Some av -> carried i t = true ->
     (forall f, f ∈ found i -> addr f <> addr t) ->
     chosen (out.*1) (mi_anchor i) ch cp fb = Some t /\ head out = Some (t, av)).
Proof.
  intros Hw Hc Hfb. cbv zeta.
  assert (Hhead : forall r, reserve i = Some r -> exists rest, espos_sk_merge_servers i cap = r :: rest).
  { intros r Hr. destruct (merge_loops i cap Hw Hc) as (mid & [[k1 ->] _ _ _ _] & [[k2 ->] _ _ _ _]).
    unfold first_slot. rewrite Hr. cbn. eauto. }
  split.
  - intros f Hf Ha.
    assert (exists av, reserve i = Some (answered (mi_now_ms i) f, av)) as [av Hr] by by apply reserve_answered.
    destruct (Hhead _ Hr) as [rest ->]. cbn. split; [|done]. unfold chosen, espos_sk_find_anchored. cbn [index_of].
    change (espos_sk_is_anchor (answered (mi_now_ms i) f) (mi_anchor i)) with (espos_sk_is_anchor f (mi_anchor i)). by rewrite Ha.
  - intros k t av Hk Ht Hav Hcar Hno.
    assert (Hr : reserve i = Some (t, av)) by by eapply reserve_silent.
    destruct (Hhead _ Hr) as [rest ->]. cbn. split; [|done]. apply index_of_some in Hk as (t' & Ht' & Ha & _).
    assert (t' = t) as -> by congruence. unfold chosen, espos_sk_find_anchored. cbn [index_of]. by rewrite Ha.
Qed.

(** * Witnesses *)

Definition server (host : string) (port : Z) (self : string) (t : Z) : espos_sk_discovered_t :=
  SkDiscovered (lit host) port (lit self) [] [] [] [] false t.
(** The paired server, a twin with its URN, and a neighbour. *)
Definition boat : espos_sk_discovered_t := server "192.168.1.5" 3000 "urn:boat" 0.
Definition twin : espos_sk_discovered_t := server "192.168.1.2" 3000 "urn:boat" 0.
Definition neighbour : espos_sk_discovered_t := server "192.168.1.9" 3000 "urn:other" 0.
Definition pairing : espos_sk_anchor_t := SkAnchor (lit "192.168.1.5") 3000 (lit "urn:boat").

(** The twin answers first; the paired server is chosen in either order. *)
Lemma sk_choice_order_free_witness :
  NoDup (addr <$> [twin; boat; neighbour]) /\ [twin; boat; neighbour] ≡ₚ [neighbour; boat; twin] /\
  chosen [neighbour; boat; twin] pairing [] 0 true = chosen [twin; boat; neighbour] pairing [] 0 true.
Proof.
  assert (H1 : NoDup (addr <$> [twin; boat; neighbour])) by (apply (bool_decide_unpack _); vm_compute; exact I).
  assert (H2 : [twin; boat; neighbour] ≡ₚ [neighbour; boat; twin]) by exact (Permutation_rev [twin; boat; neighbour]).
  split; [exact H1|]. split; [exact H2|]. exact (proj2 (sk_choice_order_free _ _ pairing [] 0 true boat H1 H2)).
Defined.

(** Two slots, three servers, the paired one last to answer. *)
Lemma sk_discovery_keeps_anchor_witness :
  Forall (fun d => byte0 (d_host d) <> 0) [neighbour; twin; boat] /\
  chosen (discover 2 (Some (SkKeep (Some pairing) [] 0 false)) [neighbour; twin; boat]) pairing [] 0 false = Some boat.
Proof.
  assert (H : Forall (fun d => byte0 (d_host d) <> 0) [neighbour; twin; boat]) by (repeat constructor; vm_compute; discriminate).
  split; [exact H|].
  apply (proj2 (sk_discovery_keeps_anchor [neighbour; twin; boat] 2 (SkKeep (Some pairing) [] 0 false) pairing [] 0 false
    ltac:(lia) H eq_refl)); vm_compute; reflexivity.
Defined.

(** The paired server in the table, silent in a round the other two answer. *)
Definition silent_round : espos_sk_merge_in_t :=
  SkMergeIn [twin; boat] [7; 9] [neighbour; twin] pairing [] 0 false 20000 65000.

Lemma silent_round_wf : merge_wf silent_round.
Proof.
  split; [repeat constructor; vm_compute; discriminate..|apply (bool_decide_unpack _); vm_compute; exact I|reflexivity].
Defined.

Lemma sk_merge_table_witness :
  merge_wf silent_round /\ (length (espos_sk_merge_servers silent_round 4) <= 4)%nat.
Proof.
  split; [exact silent_round_wf|].
  exact (proj1 (proj2 (sk_merge_table silent_round 4 silent_round_wf ltac:(lia)))).
Defined.

Lemma sk_merge_keeps_anchor_witness :
  merge_wf silent_round /\ chosen ((espos_sk_merge_servers silent_round 1).*1) pairing [] 0 true = Some boat.
Proof.
  split; [exact silent_round_wf|].
  refine (proj1 (proj2 (sk_merge_keeps_anchor silent_round 1 [] 0 true silent_round_wf ltac:(lia) eq_refl) 1%nat boat 9 _ _ _ _ _)); [vm_compute; reflexivity..|].
  intros f Hf. apply elem_of_cons in Hf as [->|Hf]; [vm_compute; discriminate|].
  apply elem_of_cons in Hf as [->|Hf]; [vm_compute; discriminate|]. by apply not_elem_of_nil in Hf.
Defined.
