(* ===== verification/Sha256.v ===== *)
(** SHA-256 and CRC-32 of the SD logger: [sdlog_sha256.c].

    The digest context is the C struct: eight words, the byte count, a 64-byte
    buffer and how much of it is used. Bytes are [0..255], words [0..2^32). The
    streaming SHA-256 computes the padded, blockwise hash of FIPS 180-4 however the
    data is cut, and the CRC-32 continues across pieces and tells apart data that
    differ in one byte. *)
From Stdlib Require Import ZArith Lia String ZifyNat.
From stdpp Require Import base list numbers sets.
From S2P Require Import Prelude.
Open Scope Z_scope.

(** The round constants, in decimal. *)
Definition K : list Z := [
  1116352408; 1899447441; 3049323471; 3921009573; 961987163; 1508970993; 2453635748; 2870763221;
  3624381080; 310598401; 607225278; 1426881987; 1925078388; 2162078206; 2614888103; 3248222580;
  3835390401; 4022224774; 264347078; 604807628; 770255983; 1249150122; 1555081692; 1996064986;
  2554220882; 2821834349; 2952996808; 3210313671; 3336571891; 3584528711; 113926993; 338241895;
  666307205; 773529912; 1294757372; 1396182291; 1695183700; 1986661051; 2177026350; 2456956037;
  2730485921; 2820302411; 3259730800; 3345764771; 3516065817; 3600352804; 4094571909; 275423344;
  430227734; 506948616; 659060556; 883997877; 958139571; 1322822218; 1537002063; 1747873779;
  1955562222; 2024104815; 2227730452; 2361852424; 2428436474; 2756734187; 3204031479; 3329325298 ].

Definition ROR (x n : Z) : Z := Z.lor (Z.shiftr x n) (u32 (Z.shiftl x (32 - n))).

(** [a[i]] of a word array *)
Definition word (l : list Z) (i : nat) : Z := nth i l 0.

(** [w[0..16)]: the block as big-endian words *)
Definition load_word (p : list Z) (i : nat) : Z :=
  Z.lor (Z.lor (Z.lor (Z.shiftl (word p (4 * i)) 24) (Z.shiftl (word p (4 * i + 1)) 16))
               (Z.shiftl (word p (4 * i + 2)) 8)) (word p (4 * i + 3)).

(** One turn of the schedule loop: [w[i]] from the words before it. *)
Definition schedule (w : list Z) (i : nat) : list Z :=
  let s0 := Z.lxor (Z.lxor (ROR (word w (i - 15)) 7) (ROR (word w (i - 15)) 18)) (Z.shiftr (word w (i - 15)) 3) in
  let s1 := Z.lxor (Z.lxor (ROR (word w (i - 2)) 17) (ROR (word w (i - 2)) 19)) (Z.shiftr (word w (i - 2)) 10) in
  w ++ [u32 (word w (i - 16) + s0 + word w (i - 7) + s1)].

(** One round on [a b c d e f g k]. *)
Definition round (w : list Z) (h : list Z) (i : nat) : list Z :=
  match h with
  | [a; b; c; d; e; f; g; k] =>
      let t1 := u32 (k + Z.lxor (Z.lxor (ROR e 6) (ROR e 11)) (ROR e 25)
                     + Z.lxor (Z.land e f) (Z.land (u32 (Z.lnot e)) g) + word K i + word w i) in
      let t2 := u32 (Z.lxor (Z.lxor (ROR a 2) (ROR a 13)) (ROR a 22)
                     + Z.lxor (Z.lxor (Z.land a b) (Z.land a c)) (Z.land b c)) in
      [u32 (t1 + t2); a; b; c; u32 (d + t1); e; f; g]
  | _ => h
  end.

Definition block (h : list Z) (p : list Z) : list Z :=
  let w := foldl schedule (load_word p <$> seq 0 16) (seq 16 48) in
  zip_with (fun x y => u32 (x + y)) h (foldl (round w) h (seq 0 64)).

Record espos_sdlog_sha256_t := Sha256Ctx {
  sha_h : list Z;
  sha_len : Z;
  sha_buf : list Z;
  sha_used : nat
}.
#[export] Instance sha256_eta : Eta espos_sdlog_sha256_t := fun r =>
  Sha256Ctx (sha_h r) (sha_len r) (sha_buf r) (sha_used r).

Definition iv : list Z := [ 0x6a09e667; 0xbb67ae85; 0x3c6ef372; 0xa54ff53a; 0x510e527f; 0x9b05688c; 0x1f83d9ab; 0x5be0cd19 ].

(** [espos_sdlog_sha256_init]; the buffer keeps what it held. *)
Definition espos_sdlog_sha256_init (c : espos_sdlog_sha256_t) : espos_sdlog_sha256_t :=
  c <| sha_h := iv |> <| sha_len := 0 |> <| sha_used := 0%nat |>.

(** [memcpy(buf + off, p, n)] *)
Definition copy_in (buf : list Z) (off n : nat) (p : list Z) : list Z := take off buf ++ take n p ++ drop (off + n) buf.

(** The loop of [update]; every turn takes at least one byte, so the number of bytes
    is fuel enough. *)
Fixpoint update_loop (fuel : nat) (c : espos_sdlog_sha256_t) (p : list Z) : espos_sdlog_sha256_t :=
  match fuel with
  | O => c
  | S fuel' =>
      match p with
      | [] => c
      | _ =>
          let n := Nat.min (64 - sha_used c) (length p) in
          let c := c <| sha_buf := copy_in (sha_buf c) (sha_used c) n p |> <| sha_used := (sha_used c + n)%nat |> in
          let c := if (sha_used c =? 64)%nat
                   then c <| sha_h := block (sha_h c) (sha_buf c) |> <| sha_used := 0%nat |> else c in
          update_loop fuel' c (drop n p)
      end
  end.

Definition espos_sdlog_sha256_update (c : espos_sdlog_sha256_t) (data : list Z) : espos_sdlog_sha256_t :=
  update_loop (length data) (c <| sha_len := u64 (sha_len c + Z.of_nat (length data)) |>) data.

(** [while (c->used != 56)]: at most 63 turns bring [used] there. *)
Fixpoint pad_loop (fuel : nat) (c : espos_sdlog_sha256_t) : espos_sdlog_sha256_t :=
  match fuel with
  | O => c
  | S fuel' => if (sha_used c =? 56)%nat then c else pad_loop fuel' (espos_sdlog_sha256_update c [0])
  end.

Definition lenbuf (bits : Z) : list Z := (fun i => u8 (Z.shiftr bits (56 - 8 * Z.of_nat i))) <$> seq 0 8.

Definition digit (n : Z) : Z := word (lit "0123456789abcdef") (Z.to_nat n).

Definition word_hex (x : Z) : cstr :=
  seq 0 4 ≫= fun j =>
    let byte := u8 (Z.shiftr x (24 - 8 * Z.of_nat j)) in [digit (Z.shiftr byte 4); digit (Z.land byte 15)].

Definition espos_sdlog_sha256_hex (c : espos_sdlog_sha256_t) : cstr :=
  let bits := u64 (sha_len c * 8) in
  let c := espos_sdlog_sha256_update c [0x80] in
  let c := pad_loop 64 c in
  let c := espos_sdlog_sha256_update c (lenbuf bits) in
  sha_h c ≫= word_hex.

(** * CRC-32 *)

(** [crc = (crc >> 1) ^ (0xEDB88320u & (0u - (crc & 1u)))] *)
Definition crc_bit (crc : Z) : Z :=
  Z.lxor (Z.shiftr crc 1) (Z.land 0xEDB88320 (u32 (0 - Z.land crc 1))).

Definition crc_byte (crc b : Z) : Z := Nat.iter 8 crc_bit (Z.lxor crc b).

Definition espos_sdlog_crc32 (crc : Z) (data : list Z) : Z :=
  u32 (Z.lnot (foldl crc_byte (u32 (Z.lnot crc)) data)).

(** * Correctness *)

#[local] Arguments block : simpl never.
#[local] Arguments copy_in : simpl never.

(** [div_lia] for quotients and remainders of natural numbers too. *)
#[local] Ltac nat_div_lia := zify; Z.to_euclidean_division_equations; lia.

(** * The hash of a whole message *)

Fixpoint blocks (n : nat) (h l : list Z) : list Z :=
  match n with O => h | S n' => blocks n' (block h (take 64 l)) (drop 64 l) end.

(** The zero bytes that bring a message and its 0x80 to 56 modulo 64. *)
Definition pad_zeros (len : nat) : nat := Z.to_nat ((55 - Z.of_nat len) mod 64).

(** The padding of FIPS 180-4, section 5.1.1. *)
Definition padded (msg : list Z) : list Z :=
  msg ++ [0x80] ++ replicate (pad_zeros (length msg)) 0 ++ lenbuf (u64 (Z.of_nat (length msg) * 8)).

Definition sha256 (msg : list Z) : cstr := blocks (length (padded msg) / 64) iv (padded msg) ≫= word_hex.

(** "abc" and the two-block message of FIPS 180-2, appendix B. *)
Example sha256_abc : sha256 (lit "abc") = lit "ba7816bf8f01cfea414140de5dae2223b00361a396177a9cb410ff61f20015ad".
Proof. vm_compute. reflexivity. Qed.
Example sha256_two_blocks :
  sha256 (lit "abcdbcdecdefdefgefghfghighijhijkijkljklmklmnlmnomnopnopq") =
  lit "248d6a61d20638b8e5c026930c3e6039a33ce45964ff2167f6ecedd419db06c1".
Proof. vm_compute. reflexivity. Qed.

Lemma blocks_app q n h l l' : length l = (64 * q)%nat -> blocks (q + n) h (l ++ l') = blocks n (blocks q h l) l'.
Proof.
  revert h l. induction q as [|q IH]; intros h l Hl.
  - assert (l = []) as -> by (apply nil_length_inv; lia). done.
  - cbn [blocks Nat.add]. rewrite take_app_le, drop_app_le by lia. apply IH. rewrite length_drop. lia.
Qed.

(** * The context of a stream *)

(** The context holds the message so far: the whole blocks hashed, the rest in the
    buffer. *)
Definition holds (c : espos_sdlog_sha256_t) (msg : list Z) : Prop :=
  exists q full, msg = full ++ take (sha_used c) (sha_buf c) /\ length full = (64 * q)%nat /\ length (sha_buf c) = 64%nat /\
    (sha_used c < 64)%nat /\ sha_h c = blocks q iv full.

Lemma holds_used c msg : holds c msg -> sha_used c = (length msg mod 64)%nat.
Proof.
  intros (q & full & -> & Hf & Hb & Hu & _). rewrite length_app, length_take, Hf, Nat.min_l by lia.
  rewrite Nat.add_comm, Nat.mul_comm, Nat.Div0.mod_add. symmetry. by apply Nat.mod_small.
Qed.

Lemma copy_in_prefix buf u n p :
  length buf = 64%nat -> (u + n <= 64)%nat -> (n <= length p)%nat ->
  length (copy_in buf u n p) = 64%nat /\ take (u + n) (copy_in buf u n p) = take u buf ++ take n p.
Proof.
  intros Hb Hu Hn. unfold copy_in. split.
  - rewrite !length_app, !length_take, length_drop. lia.
  - rewrite app_assoc. apply take_app_length'. rewrite length_app, !length_take. lia.
Qed.

Lemma update_loop_holds fuel c p msg :
  (length p <= fuel)%nat -> holds c msg ->
  holds (update_loop fuel c p) (msg ++ p) /\ sha_len (update_loop fuel c p) = sha_len c.
Proof.
  revert c p msg. induction fuel as [|fuel IH]; intros c p msg Hp Hc.
  { assert (p = []) as -> by (apply nil_length_inv; lia). by rewrite app_nil_r. }
  destruct p as [|b p]; [by rewrite app_nil_r|]. cbn [update_loop]. set (l := b :: p) in *.
  set (n := Nat.min (64 - sha_used c) (length l)).
  destruct Hc as (q & full & -> & Hf & Hb & Hu & Hh). destruct c as [h len buf used]. cbn [sha_h sha_len sha_buf sha_used] in *.
  destruct (copy_in_prefix buf used n l Hb ltac:(lia) ltac:(lia)) as [Hcl Hct].
  assert (Hn : (1 <= n)%nat) by (subst n l; cbn [length]; lia).
  replace ((full ++ take used buf) ++ l) with ((full ++ take used buf ++ take n l) ++ drop n l)
    by (rewrite <- !app_assoc, take_drop; done).
  cbn -[drop take Nat.eqb]. destruct (Nat.eqb_spec (used + n) 64) as [E|E].
  - apply (IH (Sha256Ctx _ len _ _) _ (full ++ take used buf ++ take n l)); [rewrite length_drop; lia|].
    exists (S q), (full ++ take used buf ++ take n l). cbn -[take blocks]. rewrite app_nil_r. split_and!; [done| |done|lia|].
    + rewrite !length_app, !length_take, Hf. lia.
    + replace (S q) with (q + 1)%nat by lia. rewrite blocks_app by done. cbn [blocks]. rewrite <- Hh, <- Hct, E.
      rewrite take_take. f_equal. by rewrite take_ge by lia.
  - apply (IH (Sha256Ctx _ len _ _) _ (full ++ take used buf ++ take n l)); [rewrite length_drop; lia|].
    exists q, full. cbn -[take blocks]. rewrite Hct. split_and!; [done|done|done|lia|done].
Qed.

(** [holds] and the length. *)
Definition digests (c : espos_sdlog_sha256_t) (msg : list Z) : Prop :=
  holds c msg /\ sha_len c = u64 (Z.of_nat (length msg)).

Lemma init_digests c : length (sha_buf c) = 64%nat -> digests (espos_sdlog_sha256_init c) [].
Proof. intros Hb. split; [|done]. exists 0%nat, []. cbn. split_and!; [done|done|done|lia|done]. Qed.

Lemma update_digests c msg p : digests c msg -> digests (espos_sdlog_sha256_update c p) (msg ++ p).
Proof.
  intros [Hc Hl]. unfold espos_sdlog_sha256_update.
  destruct (update_loop_holds (length p) (c <| sha_len := u64 (sha_len c + Z.of_nat (length p)) |>) p msg) as [H1 H2]; [lia|done|].
  split; [done|]. rewrite H2. cbn. rewrite Hl, length_app. unfold u64. rewrite Zplus_mod_idemp_l. f_equal. lia.
Qed.

Lemma pad_loop_digests fuel c msg :
  digests c msg -> ((120 - length msg mod 64) mod 64 < fuel)%nat ->
  digests (pad_loop fuel c) (msg ++ replicate ((120 - length msg mod 64) mod 64) 0).
Proof.
  revert c msg. induction fuel as [|fuel IH]; intros c msg Hc Hf; [lia|]. cbn [pad_loop].
  rewrite (holds_used c msg) by apply Hc. pose proof (Nat.mod_upper_bound (length msg) 64 ltac:(lia)) as Hm.
  destruct (Nat.eqb_spec (length msg mod 64) 56) as [E|E].
  - rewrite E. cbn. by rewrite app_nil_r.
  - assert (Hk : ((120 - length msg mod 64) mod 64 = S ((120 - length (msg ++ [0%Z]) mod 64) mod 64))%nat).
    { rewrite length_app. cbn [length]. nat_div_lia. }
    rewrite Hk in *. cbn [replicate]. rewrite cons_middle, app_assoc. apply IH; [|lia]. by apply update_digests.
Qed.

Lemma padding_length msg : (length (padded msg) mod 64 = 0)%nat.
Proof. unfold padded, lenbuf, pad_zeros. rewrite !length_app, length_fmap, length_replicate. cbn [length seq]. nat_div_lia. Qed.

Lemma pad_zeros_eq msg : pad_zeros (length msg) = ((120 - length (msg ++ [0x80%Z]) mod 64) mod 64)%nat.
Proof. unfold pad_zeros. rewrite length_app. cbn [length]. nat_div_lia. Qed.

(** The digest of the message a context holds. *)
Lemma hex_digests c msg : digests c msg -> espos_sdlog_sha256_hex c = sha256 msg.
Proof.
  intros Hc. unfold espos_sdlog_sha256_hex, sha256. cbv zeta.
  pose proof (update_digests c msg [0x80] Hc) as H1.
  assert (H2 : digests (pad_loop 64 (espos_sdlog_sha256_update c [0x80])) ((msg ++ [0x80]) ++ replicate (pad_zeros (length msg)) 0)).
  { rewrite pad_zeros_eq. apply pad_loop_digests; [done|]. apply Nat.mod_upper_bound. lia. }
  pose proof (update_digests _ _ (lenbuf (u64 (sha_len c * 8))) H2) as [H3 _].
  destruct Hc as [_ Hl]. rewrite Hl in *.
  assert (Hb : u64 (u64 (Z.of_nat (length msg)) * 8) = u64 (Z.of_nat (length msg) * 8)) by (unfold u64; apply Zmult_mod_idemp_l).
  rewrite Hb in *. rewrite <- !app_assoc in H3. fold (padded msg) in H3.
  pose proof (holds_used _ _ H3) as Hu. rewrite padding_length in Hu. destruct H3 as (q & full & Hm & Hf & _ & _ & Hh).
  rewrite Hu in Hm. cbn [take] in Hm. rewrite app_nil_r in Hm. rewrite Hh, Hm, Hf. f_equal. f_equal.
  rewrite Nat.mul_comm, Nat.div_mul by lia. done.
Qed.

Lemma updates_digests c msg pieces :
  digests c msg -> digests (foldl espos_sdlog_sha256_update c pieces) (msg ++ concat pieces).
Proof.
  revert c msg. induction pieces as [|p pieces IH]; intros c msg Hc; cbn; [by rewrite app_nil_r|].
  rewrite app_assoc. apply IH. by apply update_digests.
Qed.

(** C35. The streaming digest is SHA-256: for any way of cutting the data into
    pieces, empty ones included, and whatever the buffer held before, the 64 hex digits
    that come out are the blockwise hash of the whole message with the padding of the
    standard; its loops always end. *)
Theorem sha256_streaming (c : espos_sdlog_sha256_t) (pieces : list (list Z)) :
  length (sha_buf c) = 64%nat ->
  espos_sdlog_sha256_hex (foldl espos_sdlog_sha256_update (espos_sdlog_sha256_init c) pieces) = sha256 (concat pieces).
Proof. intros Hb. apply hex_digests. apply (updates_digests _ []). by apply init_digests. Qed.

Lemma sha256_streaming_witness :
  let c := Sha256Ctx [] 0 (replicate 64 255) 17 in
  length (sha_buf c) = 64%nat /\
  espos_sdlog_sha256_hex (foldl espos_sdlog_sha256_update (espos_sdlog_sha256_init c) [lit "a"; []; lit "bc"]) = sha256 (lit "abc").
Proof.
  cbv zeta. split; [reflexivity|]. exact (sha256_streaming (Sha256Ctx [] 0 (replicate 64 255) 17) [lit "a"; []; lit "bc"] eq_refl).
Defined.

(** * CRC-32 *)

Definition POLY : Z := 0xEDB88320.
Definition is_word (x : Z) : Prop := 0 <= x < 2 ^ 32.
Definition is_byte (x : Z) : Prop := 0 <= x < 2 ^ 8.

Lemma lxor_range n a b : 0 <= n -> 0 <= a < 2 ^ n -> 0 <= b < 2 ^ n -> 0 <= Z.lxor a b < 2 ^ n.
Proof.
  intros Hn Ha Hb. pose proof (Z.lxor_nonneg a b) as Hnn. assert (H0 : 0 <= Z.lxor a b) by (apply Hnn; lia). split; [done|].
  destruct (Z.eq_dec (Z.lxor a b) 0) as [->|Hz]; [lia|]. apply Z.log2_lt_pow2; [lia|].
  pose proof (Z.log2_lxor a b ltac:(lia) ltac:(lia)) as Hl.
  assert (Hlt : forall x, 0 <= x < 2 ^ n -> Z.log2 x < n \/ n = 0).
  { intros x Hx. destruct (Z.eq_dec x 0) as [->|]; [cbn; lia|]. left. apply Z.log2_lt_pow2; lia. }
  destruct (Hlt a Ha), (Hlt b Hb); subst; try lia; rewrite Z.pow_0_r in *; assert (a = 0) as -> by lia; assert (b = 0) as -> by lia; done.
Qed.

Lemma lxor_inj_l a b c : Z.lxor a c = Z.lxor b c -> a = b.
Proof. intros H. rewrite <- (Z.lxor_0_r a), <- (Z.lxor_0_r b), <- (Z.lxor_nilpotent c), <- !Z.lxor_assoc. by rewrite H. Qed.

Lemma crc_bit_eq x : crc_bit x = Z.lxor (x / 2) (if Z.odd x then POLY else 0).
Proof.
  unfold crc_bit. rewrite Z.shiftr_div_pow2 by lia. change (2 ^ 1) with 2. f_equal.
  change 1 with (Z.ones 1) at 1. rewrite Z.land_ones by lia. change (2 ^ 1) with 2. rewrite Zmod_odd. by destruct (Z.odd x).
Qed.

Lemma crc_bit_word x : is_word x -> is_word (crc_bit x).
Proof.
  intros Hx. rewrite crc_bit_eq. apply lxor_range; [lia|unfold is_word in Hx; div_lia|]. destruct (Z.odd x); unfold POLY; lia.
Qed.

(** The bit shifted out shows in the top bit, so a step can be undone. *)
Lemma crc_bit_inj x y : is_word x -> is_word y -> crc_bit x = crc_bit y -> x = y.
Proof.
  intros Hx Hy H. rewrite !crc_bit_eq in H.
  assert (Htop : forall z, is_word z -> Z.testbit (Z.lxor (z / 2) (if Z.odd z then POLY else 0)) 31 = Z.odd z).
  { intros z Hz. rewrite Z.lxor_spec. unfold is_word in Hz.
    assert (Z.testbit (z / 2) 31 = false) as ->; [|by destruct (Z.odd z)].
    destruct (Z.eq_dec (z / 2) 0) as [->|]; [done|]. apply Z.bits_above_log2; [div_lia|]. apply Z.log2_lt_pow2; div_lia. }
  assert (Ho : Z.odd x = Z.odd y) by (rewrite <- (Htop x), <- (Htop y), H by done; done).
  rewrite Ho in H. apply lxor_inj_l in H. rewrite (Z_div_mod_eq_full x 2), (Z_div_mod_eq_full y 2), H, !Zmod_odd, Ho. done.
Qed.

Lemma crc_byte_inj x y b : is_word x -> is_word y -> Nat.iter b crc_bit x = Nat.iter b crc_bit y -> x = y.
Proof.
  revert x y. induction b as [|b IH]; intros x y Hx Hy H; [done|]. rewrite !Nat.iter_succ_r in H.
  apply crc_bit_inj; [done..|]. apply IH; [by apply crc_bit_word..|done].
Qed.

#[local] Opaque crc_bit.

Lemma iter_word n x : is_word x -> is_word (Nat.iter n crc_bit x).
Proof. intros Hx. induction n as [|n IH]; [done|]. cbn. by apply crc_bit_word. Qed.

Lemma byte_word b : is_byte b -> is_word b.
Proof. unfold is_byte, is_word. lia. Qed.

Lemma crc_byte_word x b : is_word x -> is_byte b -> is_word (crc_byte x b).
Proof. intros Hx Hb. unfold crc_byte. apply iter_word. apply lxor_range; [lia|done|by apply byte_word]. Qed.

Lemma crc_fold_word x l : is_word x -> Forall is_byte l -> is_word (foldl crc_byte x l).
Proof.
  revert x. induction l as [|b l IH]; intros x Hx Hl; [done|]. apply Forall_cons in Hl as [Hb Hl]. cbn. apply IH; [|done]. by apply crc_byte_word.
Qed.

Lemma crc_fold_inj x y l : is_word x -> is_word y -> Forall is_byte l -> foldl crc_byte x l = foldl crc_byte y l -> x = y.
Proof.
  revert x y. induction l as [|b l IH]; intros x y Hx Hy Hl H; [done|]. apply Forall_cons in Hl as [Hb Hl].
  cbn [foldl] in H. apply IH in H; [|by apply crc_byte_word..|done]. unfold crc_byte in H.
  apply crc_byte_inj in H; [|by apply lxor_range, byte_word..]. by apply lxor_inj_l in H.
Qed.

Lemma lnot_word x : u32 (Z.lnot x) = 2 ^ 32 - 1 - u32 x.
Proof. unfold u32, Z.lnot. div_lia. Qed.

(** The row checksum can be continued and is a checksum: the CRC of a first part,
    continued over a second, is the CRC of both; and two byte strings that differ in
    exactly one byte, anywhere and by anything, never have the same CRC. *)
Theorem crc32_continues_detects (crc : Z) (pre post : list Z) (b b' : Z) :
  Forall is_byte pre -> Forall is_byte post -> is_byte b -> is_byte b' ->
  espos_sdlog_crc32 (espos_sdlog_crc32 crc pre) post = espos_sdlog_crc32 crc (pre ++ post) /\
  (b <> b' -> espos_sdlog_crc32 crc (pre ++ b :: post) <> espos_sdlog_crc32 crc (pre ++ b' :: post)).
Proof.
  intros Hpre Hpost Hb Hb'. unfold espos_sdlog_crc32.
  assert (Hw : is_word (u32 (Z.lnot crc))) by (unfold is_word, u32; div_lia). set (s := u32 (Z.lnot crc)) in *. clearbody s.
  pose proof (crc_fold_word s pre Hw Hpre) as Hp. split.
  - rewrite foldl_app. f_equal. f_equal. f_equal. rewrite !lnot_word. unfold is_word in Hp. unfold u32. div_lia.
  - intros Hne H. rewrite !lnot_word, !foldl_app in H. cbn [foldl] in H. set (x := foldl crc_byte s pre) in *. clearbody x.
    pose proof (crc_fold_word _ post (crc_byte_word x b Hp Hb) Hpost) as H1.
    pose proof (crc_fold_word _ post (crc_byte_word x b' Hp Hb') Hpost) as H2.
    assert (He : foldl crc_byte (crc_byte x b) post = foldl crc_byte (crc_byte x b') post).
    { unfold is_word in H1, H2. unfold u32 in H. rewrite !Z.mod_small in H by done. lia. }
    apply crc_fold_inj in He; [|by apply crc_byte_word..|done]. apply Hne. unfold crc_byte in He. apply crc_byte_inj in He; [|by apply lxor_range, byte_word..].
    rewrite (Z.lxor_comm x b), (Z.lxor_comm x b') in He. by apply lxor_inj_l in He.
Qed.

#[local] Transparent crc_bit.

(** The check value of the CRC, and one flipped bit. *)
Lemma crc32_continues_detects_witness :
  espos_sdlog_crc32 0 (lit "123456789") = 0xCBF43926 /\
  espos_sdlog_crc32 (espos_sdlog_crc32 0 (lit "1234")) (lit "56789") = 0xCBF43926 /\
  espos_sdlog_crc32 0 (lit "1234" ++ 53 :: lit "6789") <> espos_sdlog_crc32 0 (lit "1234" ++ 52 :: lit "6789").
Proof.
  assert (H1 : Forall is_byte (lit "1234")) by (vm_compute; repeat constructor; discriminate).
  assert (H2 : Forall is_byte (lit "56789")) by (vm_compute; repeat constructor; discriminate).
  assert (H3 : Forall is_byte (lit "6789")) by (vm_compute; repeat constructor; discriminate).
  assert (H4 : is_byte 53) by (vm_compute; split; [discriminate|reflexivity]).
  assert (H5 : is_byte 52) by (vm_compute; split; [discriminate|reflexivity]).
  split; [vm_compute; reflexivity|]. split.
  - rewrite (proj1 (crc32_continues_detects 0 (lit "1234") (lit "56789") 53 52 H1 H2 H4 H5)). vm_compute. reflexivity.
  - apply (proj2 (crc32_continues_detects 0 (lit "1234") (lit "6789") 53 52 H1 H3 H4 H5)). discriminate.
Defined.
