(* ===== verification/B64.v ===== *)
(** Base64 of binary configuration values: [b64.c] of [espos_config], and its
    correctness. *)
From Stdlib Require Import ZArith Lia ZifyNat String.
From stdpp Require Import base list numbers sets.
From S2P Require Import Prelude.
Open Scope Z_scope.

Definition k_alpha : cstr := lit "ABCDEFGHIJKLMNOPQRSTUVWXYZabcdefghijklmnopqrstuvwxyz0123456789+/".

Definition espos_b64_encoded_len (n : nat) : nat := ((n + 2) / 3 * 4 + 1)%nat.

(** [k_alpha[x]] *)
Definition alpha (x : Z) : Z := nth (Z.to_nat x) k_alpha 0.

(** The four characters of up to three bytes, from [v]. *)
Definition quad (v : Z) (has2 has3 : bool) : cstr :=
  [alpha (Z.land (Z.shiftr v 18) 63); alpha (Z.land (Z.shiftr v 12) 63);
   (if has2 then alpha (Z.land (Z.shiftr v 6) 63) else 61);
   (if has3 then alpha (Z.land v 63) else 61)].

(** The loop of [espos_b64_encode], three bytes a turn. *)
Fixpoint encode_loop (l : list Z) : cstr :=
  match l with
  | [] => []
  | [a] => quad (Z.shiftl a 16) false false
  | [a; b] => quad (Z.lor (Z.shiftl a 16) (Z.shiftl b 8)) true false
  | a :: b :: c :: l' => quad (Z.lor (Z.lor (Z.shiftl a 16) (Z.shiftl b 8)) c) true true ++ encode_loop l'
  end.

(** The text written, or [None] if it does not fit with its terminator. *)
Definition espos_b64_encode (l : list Z) (out_size : nat) : option cstr :=
  if (out_size <? espos_b64_encoded_len (length l))%nat then None else Some (encode_loop l).

Definition b64_val (c : Z) : Z :=
  if (65 <=? c) && (c <=? 90) then c - 65
  else if (97 <=? c) && (c <=? 122) then c - 97 + 26
  else if (48 <=? c) && (c <=? 57) then c - 48 + 52
  else if c =? 43 then 62
  else if c =? 47 then 63
  else -1.

Inductive b64_err := B64_INVALID_ARG | B64_INVALID_SIZE.

(** Without the trailing [=]. *)
Fixpoint strip_rev (l : cstr) : cstr := match l with [] => [] | c :: l' => if c =? 61 then strip_rev l' else l end.
Definition strip_padding (l : cstr) : cstr := rev (strip_rev (rev l)).

(** The loop of [espos_b64_decode]: the accumulator, the bits it holds beyond the
    bytes put out, and the output so far. *)
Fixpoint decode_loop (l : cstr) (out_size : nat) (acc bits : Z) (out : list Z) : b64_err + list Z :=
  match l with
  | [] => inr out
  | c :: l' =>
      let v := b64_val c in
      if v <? 0 then inl B64_INVALID_ARG
      else
        let acc := u32 (Z.lor (Z.shiftl acc 6) v) in
        let bits := bits + 6 in
        if bits >=? 8 then
          let bits := bits - 8 in
          if (out_size <=? length out)%nat then inl B64_INVALID_SIZE
          else decode_loop l' out_size acc bits (out ++ [Z.land (Z.shiftr acc bits) 255])
        else decode_loop l' out_size acc bits out
  end.

Definition espos_b64_decode (l : cstr) (out_size : nat) : b64_err + list Z :=
  let l := strip_padding l in
  if (length l mod 4 =? 1)%nat then inl B64_INVALID_ARG else decode_loop l out_size 0 0 [].

(** * Correctness *)

Definition b64_byte (x : Z) : Prop := 0 <= x < 256.

Lemma alpha_table x : 0 <= x < 64 -> b64_val (alpha x) = x /\ alpha x <> 61.
Proof.
  intros Hx.
  assert (H : forallb (fun n => (b64_val (alpha (Z.of_nat n)) =? Z.of_nat n) && negb (alpha (Z.of_nat n) =? 61)) (seq 0 64) = true)
    by (vm_compute; reflexivity).
  rewrite forallb_forall in H. specialize (H (Z.to_nat x)). rewrite Z2Nat.id in H by lia.
  rewrite andb_true_iff, Z.eqb_eq, negb_true_iff, Z.eqb_neq in H. apply H. apply in_seq. lia.
Qed.

(** The sextets of up to three bytes, as numbers. *)
Definition sextets (l : list Z) : list Z :=
  match l with
  | [a] => [a / 4; a mod 4 * 16]
  | [a; b] => [a / 4; a mod 4 * 16 + b / 16; b mod 16 * 4]
  | [a; b; c] => [a / 4; a mod 4 * 16 + b / 16; b mod 16 * 4 + c / 64; c mod 64]
  | _ => []
  end.

(** The text without its padding. *)
Fixpoint core (l : list Z) : cstr :=
  match l with
  | a :: b :: c :: l' => (alpha <$> sextets [a; b; c]) ++ core l'
  | _ => alpha <$> sextets l
  end.


Lemma land_63 x : Z.land x 63 = x mod 64.
Proof. change 63 with (Z.ones 6). by rewrite Z.land_ones by lia. Qed.
Lemma land_255 x : Z.land x 255 = x mod 256.
Proof. change 255 with (Z.ones 8). by rewrite Z.land_ones by lia. Qed.

Lemma quad3 a b c : b64_byte a -> b64_byte b -> b64_byte c ->
  quad (Z.lor (Z.lor (Z.shiftl a 16) (Z.shiftl b 8)) c) true true = alpha <$> sextets [a; b; c].
Proof.
  unfold b64_byte. intros Ha Hb Hc. unfold quad. rewrite !land_63, !Z.shiftr_div_pow2 by lia.
  rewrite (lor_split a (Z.shiftl b 8) 16), (Z.shiftl_mul_pow2 b 8) by (rewrite ?Z.shiftl_mul_pow2; lia).
  replace (a * 2 ^ 16 + b * 2 ^ 8) with ((a * 256 + b) * 2 ^ 8) by lia.
  rewrite <- Z.shiftl_mul_pow2, lor_split by lia. cbn [fmap list_fmap sextets]. repeat (f_equal; try div_lia).
Qed.

Lemma quad2 a b : b64_byte a -> b64_byte b ->
  quad (Z.lor (Z.shiftl a 16) (Z.shiftl b 8)) true false = (alpha <$> sextets [a; b]) ++ [61].
Proof.
  unfold b64_byte. intros Ha Hb. unfold quad. rewrite !land_63, !Z.shiftr_div_pow2 by lia.
  rewrite (lor_split a (Z.shiftl b 8) 16), (Z.shiftl_mul_pow2 b 8) by (rewrite ?Z.shiftl_mul_pow2; lia).
  cbn [fmap list_fmap sextets app]. repeat (f_equal; try div_lia).
Qed.

Lemma quad1 a : b64_byte a -> quad (Z.shiftl a 16) false false = (alpha <$> sextets [a]) ++ [61; 61].
Proof.
  unfold b64_byte. intros Ha. unfold quad. rewrite !land_63, !Z.shiftr_div_pow2, Z.shiftl_mul_pow2 by lia.
  cbn [fmap list_fmap sextets app]. repeat (f_equal; try div_lia).
Qed.

(** Induction three elements at a time. *)
Lemma list_ind3 {A} (P : list A -> Prop) :
  P [] -> (forall a, P [a]) -> (forall a b, P [a; b]) -> (forall a b c l, P l -> P (a :: b :: c :: l)) -> forall l, P l.
Proof.
  intros H0 H1 H2 H3 l. remember (length l) as n eqn:Hn. revert l Hn.
  induction (lt_wf n) as [n _ IH]. intros [|a [|b [|c l]]] Hn; auto. apply H3. apply (IH (length l)); [cbn in Hn; lia|done].
Qed.

Definition b64_pad (n : nat) : nat := match (n mod 3)%nat with 1%nat => 2 | 2%nat => 1 | _ => 0 end.

Lemma b64_pad_step n : b64_pad (S (S (S n))) = b64_pad n.
Proof. unfold b64_pad. assert ((S (S (S n))) mod 3 = n mod 3)%nat as ->; [|done]. zify. Z.to_euclidean_division_equations; lia. Qed.

Lemma encode_core l : Forall b64_byte l -> encode_loop l = core l ++ replicate (b64_pad (length l)) 61.
Proof.
  induction l as [|a|a b|a b c l IH] using list_ind3; intros Hl; [done|..].
  - inversion Hl; subst. by apply quad1.
  - inversion Hl as [|?? Ha Hl']; inversion Hl'; subst. by apply quad2.
  - inversion Hl as [|?? Ha Hl1]; inversion Hl1 as [|?? Hb Hl2]; inversion Hl2; subst.
    cbn [encode_loop core length]. rewrite quad3, IH, b64_pad_step by done. by rewrite app_assoc.
Qed.

Lemma sextets_small l : Forall b64_byte l -> Forall (fun v => 0 <= v < 64) (sextets l).
Proof.
  intros Hl. destruct l as [|a [|b [|c [|d l]]]]; cbn [sextets]; [constructor| | | |constructor];
    repeat match goal with H : Forall _ (_ :: _) |- _ => apply Forall_cons in H as [? H] end; unfold b64_byte in *;
    repeat constructor; div_lia.
Qed.

Lemma core_plain l : Forall b64_byte l -> Forall (fun c => c <> 61) (core l).
Proof.
  assert (Hs : forall l, Forall b64_byte l -> Forall (fun c => c <> 61) (alpha <$> sextets l)).
  { intros l' Hl'. apply Forall_fmap. eapply Forall_impl; [by apply sextets_small|]. intros v Hv. by apply alpha_table. }
  induction l as [|a|a b|a b c l IH] using list_ind3; intros Hl; try (by apply Hs).
  cbn [core]. apply Forall_app. change (a :: b :: c :: l) with ([a; b; c] ++ l) in Hl. apply Forall_app in Hl as [H1 H2].
  split; [by apply Hs|by apply IH].
Qed.

Lemma strip_core l k : Forall (fun c => c <> 61) l -> strip_padding (l ++ replicate k 61) = l.
Proof.
  intros Hl. unfold strip_padding. rewrite rev_app_distr.
  assert (rev (replicate k 61) = replicate k 61) as -> by (rewrite rev_alt; apply reverse_replicate).
  assert (Hr : forall m, strip_rev (replicate k 61 ++ m) = strip_rev m) by (intros m; induction k as [|k IH]; [done|by cbn]).
  rewrite Hr. assert (Hrev : Forall (fun c => c <> 61) (rev l)) by (by apply Forall_rev). rewrite <- (rev_involutive l) at 2. f_equal.
  destruct (rev l) as [|c r]; [done|]. apply Forall_cons in Hrev as [Hc _]. cbn. by destruct (Z.eqb_spec c 61).
Qed.

(** One turn of the decoder on a character of the alphabet. *)
Lemma decode_step v l sz acc bits out : 0 <= v < 64 ->
  decode_loop (alpha v :: l) sz acc bits out =
  let acc' := u32 (acc * 64 + v) in
  if bits + 6 >=? 8 then
    if (sz <=? length out)%nat then inl B64_INVALID_SIZE
    else decode_loop l sz acc' (bits - 2) (out ++ [acc' / 2 ^ (bits - 2) mod 256])
  else decode_loop l sz acc' (bits + 6) out.
Proof.
  intros Hv. cbn [decode_loop]. destruct (alpha_table v Hv) as [-> _]. destruct (Z.ltb_spec v 0); [lia|].
  rewrite lor_split by lia. change (2 ^ 6) with 64. rewrite Z.geb_leb. destruct (Z.leb_spec 8 (bits + 6)); [|done].
  replace (bits + 6 - 8) with (bits - 2) by lia. rewrite land_255, Z.shiftr_div_pow2 by lia. done.
Qed.

(** What comes of a byte: it goes out if there is room. *)
Definition put (sz : nat) (out : list Z) (x : Z) (k : list Z -> b64_err + list Z) : b64_err + list Z :=
  if (sz <=? length out)%nat then inl B64_INVALID_SIZE else k (out ++ [x]).

Lemma step0 v l sz acc out : 0 <= v < 64 ->
  decode_loop (alpha v :: l) sz acc 0 out = decode_loop l sz (u32 (acc * 64 + v)) 6 out.
Proof. intros Hv. by rewrite decode_step. Qed.
Lemma step6 v l sz acc out : 0 <= v < 64 ->
  decode_loop (alpha v :: l) sz acc 6 out =
  put sz out (u32 (acc * 64 + v) / 16 mod 256) (decode_loop l sz (u32 (acc * 64 + v)) 4).
Proof. intros Hv. by rewrite decode_step. Qed.
Lemma step4 v l sz acc out : 0 <= v < 64 ->
  decode_loop (alpha v :: l) sz acc 4 out =
  put sz out (u32 (acc * 64 + v) / 4 mod 256) (decode_loop l sz (u32 (acc * 64 + v)) 2).
Proof. intros Hv. by rewrite decode_step. Qed.
Lemma step2 v l sz acc out : 0 <= v < 64 ->
  decode_loop (alpha v :: l) sz acc 2 out =
  put sz out (u32 (acc * 64 + v) / 1 mod 256) (decode_loop l sz (u32 (acc * 64 + v)) 0).
Proof. intros Hv. by rewrite decode_step. Qed.

Lemma out_byte1 acc a y : b64_byte a -> 0 <= y < 16 -> u32 (u32 (acc * 64 + a / 4) * 64 + (a mod 4 * 16 + y)) / 16 mod 256 = a.
Proof. unfold b64_byte, u32. intros. div_lia. Qed.
Lemma out_byte2 acc x b y : b64_byte b -> 0 <= y < 4 -> 0 <= x < 4 ->
  u32 (u32 (acc * 64 + (x * 16 + b / 16)) * 64 + (b mod 16 * 4 + y)) / 4 mod 256 = b.
Proof. unfold b64_byte, u32. intros. div_lia. Qed.
Lemma out_byte3 acc x c : b64_byte c -> 0 <= x < 16 ->
  u32 (u32 (acc * 64 + (x * 4 + c / 64)) * 64 + c mod 64) / 1 mod 256 = c.
Proof. unfold b64_byte, u32. intros. div_lia. Qed.

Lemma put_ext sz out x k k' : (forall o, k o = k' o) -> put sz out x k = put sz out x k'.
Proof. intros H. unfold put. by rewrite H. Qed.

Lemma decode1 a sz acc out : b64_byte a ->
  decode_loop (alpha <$> sextets [a]) sz acc 0 out = put sz out a (fun out => inr out).
Proof.
  intros Ha. cbn [sextets fmap list_fmap]. rewrite step0, step6 by (unfold b64_byte in Ha; div_lia).
  replace (a mod 4 * 16) with (a mod 4 * 16 + 0) by lia. rewrite out_byte1 by (done || lia). done.
Qed.

Lemma decode2 a b sz acc out : b64_byte a -> b64_byte b ->
  decode_loop (alpha <$> sextets [a; b]) sz acc 0 out = put sz out a (fun out => put sz out b (fun out => inr out)).
Proof.
  intros Ha Hb. pose proof Ha as Ha'. pose proof Hb as Hb'. unfold b64_byte in Ha', Hb'.
  cbn [sextets fmap list_fmap]. rewrite step0, step6 by div_lia. rewrite out_byte1 by (done || div_lia).
  apply put_ext. intros o. rewrite step4 by div_lia. replace (b mod 16 * 4) with (b mod 16 * 4 + 0) by lia.
  rewrite out_byte2 by (done || div_lia). done.
Qed.

Lemma decode3 a b c l sz acc out : b64_byte a -> b64_byte b -> b64_byte c -> exists acc',
  decode_loop ((alpha <$> sextets [a; b; c]) ++ l) sz acc 0 out =
  put sz out a (fun out => put sz out b (fun out => put sz out c (decode_loop l sz acc' 0))).
Proof.
  intros Ha Hb Hc. pose proof Ha as Ha'. pose proof Hb as Hb'. pose proof Hc as Hc'. unfold b64_byte in Ha', Hb', Hc'.
  cbn [sextets fmap list_fmap app]. eexists. rewrite step0, step6 by div_lia. rewrite out_byte1 by (done || div_lia).
  apply put_ext. intros o. rewrite step4 by div_lia. rewrite out_byte2 by (done || div_lia).
  apply put_ext. intros o'. rewrite step2 by div_lia. rewrite out_byte3 by (done || div_lia). reflexivity.
Qed.

(** The decoder gives the bytes back, or runs out of room exactly if they do not fit. *)
Lemma decode_core l sz acc out : Forall b64_byte l -> (length out <= sz)%nat ->
  decode_loop (core l) sz acc 0 out = if (length out + length l <=? sz)%nat then inr (out ++ l) else inl B64_INVALID_SIZE.
Proof.
  assert (Hput : forall o x k, (length o <= sz)%nat ->
    put sz o x k = if (length o + 1 <=? sz)%nat then k (o ++ [x]) else inl B64_INVALID_SIZE).
  { intros o x k Ho. unfold put. destruct (Nat.leb_spec sz (length o)), (Nat.leb_spec (length o + 1) sz); lia || done. }
  revert acc out. induction l as [|a|a b|a b c l IH] using list_ind3; intros acc out Hl Ho.
  - cbn. rewrite Nat.add_0_r, app_nil_r. destruct (Nat.leb_spec (length out) sz); lia || done.
  - inversion Hl; subst. cbn [core]. rewrite decode1 by done. by apply Hput.
  - inversion Hl as [|?? Ha Hl']; inversion Hl'; subst. cbn [core]. rewrite decode2 by done. rewrite Hput by done.
    destruct (Nat.leb_spec (length out + 1) sz).
    + rewrite Hput by (rewrite length_app; cbn; lia). rewrite length_app, <- app_assoc. cbn [length app].
      by replace (length out + 1 + 1)%nat with (length out + 2)%nat by lia.
    + destruct (Nat.leb_spec (length out + length [a; b]) sz); [cbn in *; lia|done].
  - inversion Hl as [|?? Ha Hl1]; inversion Hl1 as [|?? Hb Hl2]; inversion Hl2 as [|?? Hc Hl3]; subst. cbn [core].
    destruct (decode3 a b c (core l) sz acc out Ha Hb Hc) as [acc' ->]. cbn [length]. rewrite Hput by done.
    destruct (Nat.leb_spec (length out + 1) sz); [|destruct (Nat.leb_spec (length out + S (S (S (length l)))) sz); lia || done].
    rewrite Hput by (rewrite length_app; cbn; lia). rewrite length_app. cbn [length].
    destruct (Nat.leb_spec (length out + 1 + 1) sz); [|destruct (Nat.leb_spec (length out + S (S (S (length l)))) sz); lia || done].
    rewrite Hput by (rewrite !length_app; cbn; lia). rewrite !length_app. cbn [length].
    destruct (Nat.leb_spec (length out + 1 + 1 + 1) sz); [|destruct (Nat.leb_spec (length out + S (S (S (length l)))) sz); lia || done].
    rewrite IH by (done || (rewrite !length_app; cbn; lia)). rewrite !length_app, <- !app_assoc. cbn [length app].
    by replace (length out + 1 + 1 + 1 + length l)%nat with (length out + S (S (S (length l))))%nat by lia.
Qed.

Lemma core_length l : (length (core l) = (4 * length l + 2) / 3)%nat.
Proof.
  induction l as [|a|a b|a b c l IH] using list_ind3; [done..|]. cbn [core]. rewrite length_app, IH. cbn [sextets fmap list_fmap length].
  zify. Z.to_euclidean_division_equations; lia.
Qed.

(** Base64 of binary values: encoding into a buffer of the announced size always
    works and fills it exactly, with the terminator; decoding the text gives the bytes
    back into any buffer that can hold them, and reports a size error, and nothing
    else, for one that cannot. *)
Theorem b64_round_trip (l : list Z) (enc_size out_size : nat) :
  Forall b64_byte l -> (espos_b64_encoded_len (length l) <= enc_size)%nat ->
  exists t, espos_b64_encode l enc_size = Some t /\ S (length t) = espos_b64_encoded_len (length l) /\
    espos_b64_decode t out_size = if (length l <=? out_size)%nat then inr l else inl B64_INVALID_SIZE.
Proof.
  intros Hl Hs. exists (encode_loop l). unfold espos_b64_encode. destruct (Nat.ltb_spec enc_size (espos_b64_encoded_len (length l))); [lia|].
  rewrite encode_core by done. split_and!; [done| |].
  - rewrite length_app, length_replicate, core_length. unfold espos_b64_encoded_len, b64_pad.
    pose proof (Nat.mod_upper_bound (length l) 3 ltac:(lia)). destruct (length l mod 3)%nat as [|[|[|]]] eqn:E; [..|lia];
      zify; Z.to_euclidean_division_equations; lia.
  - unfold espos_b64_decode. rewrite strip_core by (by apply core_plain).
    assert ((length (core l) mod 4 =? 1)%nat = false) as ->.
    { apply Nat.eqb_neq. rewrite core_length. zify. Z.to_euclidean_division_equations; lia. }
    rewrite decode_core by (done || (cbn; lia)). done.
Qed.

Lemma b64_round_trip_witness :
  Forall b64_byte [0; 255; 16; 77] /\
  exists t, espos_b64_encode [0; 255; 16; 77] 9 = Some t /\ t = lit "AP8QTQ==" /\ espos_b64_decode t 4 = inr [0; 255; 16; 77].
Proof.
  assert (H : Forall b64_byte [0; 255; 16; 77]) by (repeat constructor; vm_compute; (discriminate || reflexivity)).
  split; [exact H|]. destruct (b64_round_trip [0; 255; 16; 77] 9 4 H ltac:(vm_compute; lia)) as (t & He & _ & Hd).
  exists t. split; [exact He|]. split; [|exact Hd]. vm_compute in He. injection He as <-. vm_compute. reflexivity.
Defined.
