(* ===== verification/BleProto.v ===== *)
(** Wire-format helpers and queues of the BLE gateway: [ble_proto.c].

    Hex and UUID text, the ring of advertisements, the queue of frames, and the
    POST schedule. A queued frame is a heap string: its identity is a [Z], and the
    frames an operation frees are part of its result. *)
From Stdlib Require Import ZArith Lia String.
From stdpp Require Import base list numbers sets.
From S2P Require Import Prelude.
Open Scope Z_scope.

(** * Hex *)

Definition kHexUpper : cstr := lit "0123456789ABCDEF".
Definition kHexLower : cstr := lit "0123456789abcdef".

Definition hex_digit (digits : cstr) (n : Z) : Z := nth (Z.to_nat n) digits 0.

Definition hex_encode (data : list Z) (digits : cstr) : cstr :=
  data ≫= fun b => [hex_digit digits (Z.shiftr b 4); hex_digit digits (Z.land b 15)].
Definition espos_ble_hex_encode_upper (data : list Z) : cstr := hex_encode data kHexUpper.
Definition espos_ble_hex_encode_lower (data : list Z) : cstr := hex_encode data kHexLower.

Definition hex_val (c : Z) : Z :=
  if (48 <=? c) && (c <=? 57) then c - 48
  else if (97 <=? c) && (c <=? 102) then c - 97 + 10
  else if (65 <=? c) && (c <=? 70) then c - 65 + 10
  else -1.

(** The byte of two hex characters, [None] for -1. *)
Definition hex_pair (a b : Z) : option Z :=
  let hi := hex_val a in
  let lo := hex_val b in
  if (hi <? 0) || (lo <? 0) then None else Some (Z.lor (Z.shiftl hi 4) lo).

Fixpoint hex_decode_loop (hex : cstr) : option (list Z) :=
  match hex with
  | a :: b :: hex' => x ← hex_pair a b; l ← hex_decode_loop hex'; Some (x :: l)
  | _ => Some []
  end.

(** The bytes, [None] for -1; [hex] may be null. *)
Definition espos_ble_hex_decode (hex : option cstr) (out_max : nat) : option (list Z) :=
  match hex with
  | None => None
  | Some hex =>
      if negb (length hex mod 2 =? 0)%nat then None
      else if (out_max <? length hex / 2)%nat then None
      else hex_decode_loop hex
  end.

(** * The ring of advertisements *)

Section AdvQueue.
Context {A : Type}.

Record espos_ble_advq_t := AdvQ { aq_slots : list A; aq_cap : nat; aq_head : nat; aq_count : nat; aq_dropped : Z }.

Definition espos_ble_advq_init (storage : list A) (cap : nat) : espos_ble_advq_t := AdvQ storage cap 0 0 0.

Definition espos_ble_advq_push (q : espos_ble_advq_t) (adv : A) : bool * espos_ble_advq_t :=
  if (aq_cap q =? 0)%nat then (false, q)
  else
    let evicted := (aq_count q =? aq_cap q)%nat in
    let slots := <[aq_head q := adv]> (aq_slots q) in
    let head := ((aq_head q + 1) mod aq_cap q)%nat in
    if evicted then (evicted, AdvQ slots (aq_cap q) head (aq_count q) (u32 (aq_dropped q + 1)))
    else (evicted, AdvQ slots (aq_cap q) head (aq_count q + 1) (aq_dropped q)).

(** Entry [i] behind [tail], if the slot exists. *)
Definition slots_from (slots : list A) (cap tail n : nat) : list A :=
  omap (fun i => slots !! ((tail + i) mod cap)%nat) (seq 0 n).

Definition espos_ble_advq_drain (q : espos_ble_advq_t) (max : nat) : list A * espos_ble_advq_t :=
  let n := Nat.min (aq_count q) max in
  let tail := ((aq_head q + aq_cap q - aq_count q) mod aq_cap q)%nat in
  (slots_from (aq_slots q) (aq_cap q) tail n, AdvQ (aq_slots q) (aq_cap q) (aq_head q) (aq_count q - n) (aq_dropped q)).

End AdvQueue.
Arguments espos_ble_advq_t : clear implicits.

(** * The queue of frames *)

Record espos_ble_frameq_t := FrameQ { fq_slots : list (option Z); fq_cap : nat; fq_head : nat; fq_count : nat; fq_dropped : Z }.
#[export] Instance frameq_eta : Eta espos_ble_frameq_t := fun r =>
  FrameQ (fq_slots r) (fq_cap r) (fq_head r) (fq_count r) (fq_dropped r).

Definition espos_ble_frameq_init (storage : list (option Z)) (cap : nat) : espos_ble_frameq_t := FrameQ storage cap 0 0 0.

(** [q->slots[i]], null out of range *)
Definition slot (q : espos_ble_frameq_t) (i : nat) : option Z := default None (fq_slots q !! i).

(** [free(p)]: what it frees *)
Definition freed (p : option Z) : list Z := option_list p.

(** Whether a frame was dropped, what was freed, and the queue. *)
Definition espos_ble_frameq_push (q : espos_ble_frameq_t) (frame : Z) : bool * list Z * espos_ble_frameq_t :=
  if (fq_cap q =? 0)%nat then (true, [frame], q <| fq_dropped ::= fun n => u32 (n + 1) |>)
  else
    let '(evicted, fr, q) :=
      if (fq_count q =? fq_cap q)%nat then
        (true, freed (slot q (fq_head q)),
         q <| fq_slots ::= <[fq_head q := None]> |> <| fq_head := ((fq_head q + 1) mod fq_cap q)%nat |>
           <| fq_count ::= pred |> <| fq_dropped ::= fun n => u32 (n + 1) |>)
      else (false, [], q) in
    (evicted, fr, q <| fq_slots ::= <[((fq_head q + fq_count q) mod fq_cap q)%nat := Some frame]> |> <| fq_count ::= S |>).

Definition espos_ble_frameq_pop (q : espos_ble_frameq_t) : option Z * espos_ble_frameq_t :=
  if (fq_count q =? 0)%nat then (None, q)
  else (slot q (fq_head q),
        q <| fq_slots ::= <[fq_head q := None]> |> <| fq_head := ((fq_head q + 1) mod fq_cap q)%nat |> <| fq_count ::= pred |>).

(** Whether the frame is back, what was freed, and the queue. *)
Definition espos_ble_frameq_unshift (q : espos_ble_frameq_t) (frame : Z) : bool * list Z * espos_ble_frameq_t :=
  if (fq_count q =? fq_cap q)%nat then (false, [frame], q <| fq_dropped ::= fun n => u32 (n + 1) |>)
  else
    let h := ((fq_head q + fq_cap q - 1) mod fq_cap q)%nat in
    (true, [], q <| fq_head := h |> <| fq_slots ::= <[h := Some frame]> |> <| fq_count ::= S |>).

(** [while (q->count) free(pop(q))]: one turn per frame. *)
Fixpoint clear_loop (fuel : nat) (q : espos_ble_frameq_t) : list Z * espos_ble_frameq_t :=
  match fuel with
  | O => ([], q)
  | S k =>
      if (fq_count q =? 0)%nat then ([], q)
      else
        let '(f, q) := espos_ble_frameq_pop q in
        let '(fr, q) := clear_loop k q in
        (freed f ++ fr, q)
  end.

Definition espos_ble_frameq_clear (q : espos_ble_frameq_t) : list Z * espos_ble_frameq_t :=
  let '(fr, q) := clear_loop (fq_count q) q in (fr, q <| fq_head := 0%nat |>).

(** * When the gateway POSTs *)

Record espos_ble_post_sched_t := PostSched { next_us : Z; held : bool }.

Definition espos_ble_post_due (s : espos_ble_post_sched_t) (now_us : Z) (pending batch_max capacity : nat) : bool :=
  if now_us >=? next_us s then true
  else
    let full := if (batch_max <? capacity)%nat then batch_max else capacity in
    negb (held s) && negb (full =? 0)%nat && (full <=? pending)%nat.

Definition espos_ble_post_done (now_us : Z) (ok : bool) (interval_ms : Z) : espos_ble_post_sched_t :=
  PostSched (now_us + interval_ms * 1000) (negb ok).

(** * UUIDs *)

Definition kBaseUuid : list Z := [0; 0; 0; 0; 0; 0; 16; 0; 128; 0; 0; 128; 95; 155; 52; 251].

(** [hex_byte(s)]: the first two characters, NUL past the end *)
Definition hex_byte (s : cstr) : option Z := hex_pair (nth 0 s 0) (nth 1 s 0).

(** The short forms: [nbytes] bytes right-aligned into bytes 0..3. *)
Fixpoint uuid_short (n i nbytes : nat) (str : cstr) (out : list Z) : option (list Z) :=
  match n with
  | O => Some out
  | S n' => b ← hex_byte (drop (i * 2) str); uuid_short n' (S i) nbytes str (<[(4 - nbytes + i)%nat := b]> out)
  end.

(** The loop over the dashed form from the remaining characters, with the bytes so
    far; [None] for a bad digit. *)
Fixpoint uuid_dashed (fuel : nat) (l : cstr) (out : list Z) : option (list Z) :=
  match fuel with
  | O => Some out
  | S fuel' =>
      match l with
      | [] => Some out
      | c :: l' =>
          if (16 <=? length out)%nat then Some out
          else if c =? 45 then uuid_dashed fuel' l' out
          else b ← hex_byte l; uuid_dashed fuel' (drop 1 l') (out ++ [b])
      end
  end.

(** The 16 bytes and the width; on [None] the output buffer is unspecified. *)
Definition espos_ble_uuid_parse (str : option cstr) : option (list Z * Z) :=
  match str with
  | None => None
  | Some str =>
      let len := length str in
      if (len =? 4)%nat || (len =? 8)%nat then
        out ← uuid_short (len / 2) 0 (len / 2) str kBaseUuid;
        Some (out, if (len =? 4)%nat then 16 else 32)
      else if (len =? 36)%nat then
        if negb (forallb (fun i => nth i str 0 =? 45) [8%nat; 13%nat; 18%nat; 23%nat]) then None
        else
          out ← uuid_dashed 36 str [];
          if (length out =? 16)%nat then Some (out, 128) else None
      else None
  end.

Definition espos_ble_uuid_format (uuid : list Z) (bits : Z) : cstr :=
  let base := bool_decide (drop 4 uuid = drop 4 kBaseUuid) in
  if base && (bits =? 16) && (nth 0 uuid 0 =? 0) && (nth 1 uuid 0 =? 0) then hex_encode (take 2 (drop 2 uuid)) kHexLower
  else if base && (bits =? 32) then hex_encode (take 4 uuid) kHexLower
  else
    hex_encode (take 4 uuid) kHexLower ++ [45] ++ hex_encode (take 2 (drop 4 uuid)) kHexLower ++ [45]
    ++ hex_encode (take 2 (drop 6 uuid)) kHexLower ++ [45] ++ hex_encode (take 2 (drop 8 uuid)) kHexLower ++ [45]
    ++ hex_encode (drop 10 uuid) kHexLower.

Definition espos_ble_uuid_equal (a b : list Z) : bool := bool_decide (take 16 a = take 16 b).
