(* ===== verification/BleProps.v ===== *)
(** Correctness of the BLE gateway's queues and text forms ([BleProto]): the two ring
    buffers are the bounded queues they stand for, frames are neither leaked nor freed
    twice, and UUIDs survive the trip through text. *)
From Stdlib Require Import ZArith Lia String.
From stdpp Require Import base list numbers sets.
From S2P Require Import Prelude BleProto.
Open Scope Z_scope.

(** * Positions on a ring *)

(** [(a + i) % c] for an index on the ring. *)
Lemma mod_wrap (c a i : nat) : (a < c)%nat -> (i <= c)%nat ->
  ((a + i) mod c)%nat = (if decide (a + i < c) then a + i else a + i - c)%nat.
Proof.
  intros Ha Hi. destruct (decide (a + i < c)%nat) as [H|H]; [by apply Nat.mod_small|].
  replace (a + i)%nat with ((a + i - c) + 1 * c)%nat at 1 by lia. rewrite Nat.Div0.mod_add. apply Nat.mod_small. lia.
Qed.

(** Decide positions on a ring of size [c]. *)
Ltac ring_pos :=
  repeat (match goal with |- context [((?a + ?i) mod ?c)%nat] => rewrite (mod_wrap c a i) by lia end; case_decide); try lia.

Lemma length_tail {A} (l : list A) : length (tail l) = pred (length l).
Proof. by destruct l. Qed.

(** * The ring of advertisements *)

Inductive adv_op (A : Type) := APush (x : A) | ADrain (max : nat).
Arguments APush {A} _.
Arguments ADrain {A} _.

Section Adv.
Context {A : Type}.
Implicit Types (q : espos_ble_advq_t A) (l : list A).

(** The entries drained, and the queue. *)
Definition adv_step q (op : adv_op A) : list A * espos_ble_advq_t A :=
  match op with
  | APush x => ([], (espos_ble_advq_push q x).2)
  | ADrain max => espos_ble_advq_drain q max
  end.

(** A bounded queue that drops its oldest entry, and how many it dropped. *)
Definition adv_spec (cap : nat) (s : list A * Z) (op : adv_op A) : list A * (list A * Z) :=
  match op with
  | APush x => if (length s.1 =? cap)%nat then ([], (tail s.1 ++ [x], u32 (s.2 + 1))) else ([], (s.1 ++ [x], s.2))
  | ADrain max => (take max s.1, (drop max s.1, s.2))
  end.

(** All that was drained, over a sequence of operations. *)
Fixpoint outputs {S O : Type} (step : S -> O -> list A * S) (s : S) (ops : list O) : list A * S :=
  match ops with
  | [] => ([], s)
  | op :: ops' => let '(o, s') := step s op in let '(os, s'') := outputs step s' ops' in (o ++ os, s'')
  end.

(** The ring holds [l], oldest first, starting at slot [t]. *)
Definition adv_rep q (s : list A * Z) : Prop :=
  exists t, (t < aq_cap q)%nat /\ length (aq_slots q) = aq_cap q /\ aq_count q = length s.1 /\ (length s.1 <= aq_cap q)%nat /\
    aq_head q = ((t + length s.1) mod aq_cap q)%nat /\ aq_dropped q = s.2 /\
    forall i x, s.1 !! i = Some x -> aq_slots q !! ((t + i) mod aq_cap q)%nat = Some x.

Lemma slots_from_take slots c t l n :
  (forall i x, l !! i = Some x -> slots !! ((t + i) mod c)%nat = Some x) -> (n <= length l)%nat -> slots_from slots c t n = take n l.
Proof.
  intros Hs. induction n as [|n IH]; intros Hn; [by rewrite take_0|]. unfold slots_from in *. rewrite seq_S, omap_app, IH by lia.
  destruct (lookup_lt_is_Some_2 l n) as [x Hx]; [lia|]. rewrite (take_S_r _ _ x) by done. cbn. by rewrite (Hs n x Hx).
Qed.

Lemma adv_push_rep q s x : adv_rep q s -> adv_rep (espos_ble_advq_push q x).2 (adv_spec (aq_cap q) s (APush x)).2.
Proof.
  destruct q as [slots c h n dr], s as [l d]. intros (t & Ht & Hlen & Hn & Hle & Hh & Hd & Hs). cbn in Ht, Hlen, Hn, Hle, Hh, Hd, Hs. subst n dr.
  unfold espos_ble_advq_push, adv_spec. cbn [aq_cap aq_count aq_head aq_slots aq_dropped fst snd].
  destruct (Nat.eqb_spec c 0); [lia|]. destruct (Nat.eqb_spec (length l) c) as [Hfull|Hroom]; cbn [snd].
  - exists ((t + 1) mod c)%nat. cbn. rewrite length_insert, length_app, length_tail. cbn [length]. subst h.
    split_and!; [apply Nat.mod_upper_bound; lia|done|lia|lia|..]; [ring_pos|done|].
    intros i y Hi. apply lookup_app_Some in Hi as [Hi|[Hge Hi]].
    + rewrite lookup_tail in Hi. apply lookup_lt_Some in Hi as Hlt. specialize (Hs _ _ Hi).
      rewrite list_lookup_insert_ne; [|ring_pos]. rewrite <- Hs. f_equal. ring_pos.
    + rewrite length_tail in *. apply list_lookup_singleton_Some in Hi as [Hi <-].
      replace (((t + 1) mod c + i) mod c)%nat with ((t + length l) mod c)%nat by ring_pos.
      apply list_lookup_insert_eq. rewrite Hlen. apply Nat.mod_upper_bound. lia.
  - exists t. cbn. rewrite length_insert, length_app. cbn [length]. subst h.
    split_and!; [done|done|lia|lia|ring_pos|done|]. intros i y Hi. apply lookup_app_Some in Hi as [Hi|[Hge Hi]].
    + apply lookup_lt_Some in Hi as Hlt. rewrite list_lookup_insert_ne; [by apply Hs|ring_pos].
    + apply list_lookup_singleton_Some in Hi as [Hi <-]. replace i with (length l) by lia.
      apply list_lookup_insert_eq. rewrite Hlen. apply Nat.mod_upper_bound. lia.
Qed.

Lemma adv_drain_rep q s max :
  adv_rep q s -> (espos_ble_advq_drain q max).1 = take max s.1 /\ adv_rep (espos_ble_advq_drain q max).2 (drop max s.1, s.2).
Proof.
  destruct q as [slots c h n dr], s as [l d]. intros (t & Ht & Hlen & Hn & Hle & Hh & Hd & Hs). cbn in Ht, Hlen, Hn, Hle, Hh, Hd, Hs. subst n dr.
  unfold espos_ble_advq_drain. cbn [aq_cap aq_count aq_head aq_slots aq_dropped fst snd].
  assert (Htail : ((h + c - length l) mod c = t)%nat).
  { subst h. replace ((t + length l) mod c + c - length l)%nat with ((t + length l) mod c + (c - length l))%nat by lia.
    destruct (Nat.eq_dec (length l) 0%nat) as [E|E]; ring_pos. }
  split.
  - rewrite Htail, (slots_from_take slots c t l) by (done || lia). destruct (Nat.le_ge_cases (length l) max).
    + by rewrite Nat.min_l, !take_ge by lia.
    + by rewrite Nat.min_r by lia.
  - exists ((t + Nat.min (length l) max) mod c)%nat. cbn. rewrite length_drop.
    split_and!; [apply Nat.mod_upper_bound; lia|done|lia|lia| |done|].
    + subst h. ring_pos.
    + intros i x Hi. rewrite lookup_drop in Hi. apply lookup_lt_Some in Hi as Hlt. specialize (Hs _ _ Hi). rewrite <- Hs. f_equal.
      rewrite Nat.min_r by lia. ring_pos.
Qed.

Lemma adv_step_cap q op : aq_cap (adv_step q op).2 = aq_cap q.
Proof.
  destruct op; cbn; [|done]. unfold espos_ble_advq_push. destruct (_ =? 0)%nat; [done|]. by destruct (_ =? _)%nat.
Qed.

Lemma adv_run_rep q s ops : adv_rep q s ->
  (outputs adv_step q ops).1 = (outputs (adv_spec (aq_cap q)) s ops).1 /\
  adv_rep (outputs adv_step q ops).2 (outputs (adv_spec (aq_cap q)) s ops).2 /\ aq_cap (outputs adv_step q ops).2 = aq_cap q.
Proof.
  revert q s. induction ops as [|op ops IH]; intros q s Hr; [done|]. cbn [outputs].
  assert (Hstep : (adv_step q op).1 = (adv_spec (aq_cap q) s op).1 /\ adv_rep (adv_step q op).2 (adv_spec (aq_cap q) s op).2).
  { destruct op as [x|max]; [|by apply adv_drain_rep]. split; [|by apply adv_push_rep]. cbn. by destruct (_ =? _)%nat. }
  pose proof (adv_step_cap q op) as Hc. destruct (adv_step q op) as [o q'], (adv_spec (aq_cap q) s op) as [o' s'].
  cbn [fst snd] in *. destruct Hstep as [-> Hr']. specialize (IH q' s' Hr'). rewrite Hc in IH.
  destruct (outputs adv_step q' ops) as [os q''], (outputs (adv_spec (aq_cap q)) s' ops) as [os' s'']. cbn [fst snd] in *.
  by destruct IH as [-> IH].
Qed.

(** The advertisement ring is a bounded first-in first-out queue that drops its
    oldest entry: for any sequence of pushes and drains on a ring of any non-zero
    size, whatever its memory held before, what is drained, how many entries remain
    and how many were dropped are those of a list of at most that many entries. *)
Theorem ble_advq_refines (storage : list A) (cap : nat) (ops : list (adv_op A)) :
  (0 < cap)%nat -> length storage = cap ->
  let c := outputs adv_step (espos_ble_advq_init storage cap) ops in
  let s := outputs (adv_spec cap) ([], 0) ops in
  c.1 = s.1 /\ aq_count c.2 = length s.2.1 /\ aq_dropped c.2 = s.2.2 /\ (length s.2.1 <= cap)%nat.
Proof.
  intros Hc Hl. cbv zeta. destruct (adv_run_rep (espos_ble_advq_init storage cap) ([], 0) ops) as (H1 & H2 & H3).
  - exists 0%nat. cbn. split_and!; [done|done|done|lia|symmetry; apply Nat.Div0.mod_0_l|done|done].
  - cbn [aq_cap espos_ble_advq_init] in *. destruct H2 as (t & _ & _ & Hn & Hle & _ & Hd & _). rewrite H3 in Hle. done.
Qed.
End Adv.

(** * The queue of frames *)

Inductive frame_op := FPush (f : Z) | FPop | FUnshift (f : Z) | FClear.

(** What an operation hands out and what it frees. *)
Record frame_out := FrameOut { popped : list Z; freed_by : list Z }.

Definition frame_step (q : espos_ble_frameq_t) (op : frame_op) : frame_out * espos_ble_frameq_t :=
  match op with
  | FPush f => let '(_, fr, q') := espos_ble_frameq_push q f in (FrameOut [] fr, q')
  | FPop => let '(p, q') := espos_ble_frameq_pop q in (FrameOut (option_list p) [], q')
  | FUnshift f => let '(_, fr, q') := espos_ble_frameq_unshift q f in (FrameOut [] fr, q')
  | FClear => let '(fr, q') := espos_ble_frameq_clear q in (FrameOut [] fr, q')
  end.

(** The bounded deque the queue stands for, with the number of frames it dropped. *)
Definition frame_spec (cap : nat) (s : list Z * Z) (op : frame_op) : frame_out * (list Z * Z) :=
  match op with
  | FPush f =>
      if (length s.1 <? cap)%nat then (FrameOut [] [], (s.1 ++ [f], s.2))
      else (FrameOut [] (take 1 (s.1 ++ [f])), (drop 1 (s.1 ++ [f]), u32 (s.2 + 1)))
  | FPop => (FrameOut (take 1 s.1) [], (drop 1 s.1, s.2))
  | FUnshift f =>
      if (length s.1 <? cap)%nat then (FrameOut [] [], (f :: s.1, s.2)) else (FrameOut [] [f], (s.1, u32 (s.2 + 1)))
  | FClear => (FrameOut [] s.1, ([], s.2))
  end.

(** The queue holds [l], oldest first. *)
Definition frame_rep (q : espos_ble_frameq_t) (s : list Z * Z) : Prop :=
  length (fq_slots q) = fq_cap q /\ fq_count q = length s.1 /\ (length s.1 <= fq_cap q)%nat /\
  (fq_head q < fq_cap q \/ fq_cap q = 0 /\ fq_head q = 0)%nat /\ fq_dropped q = s.2 /\
  forall i x, s.1 !! i = Some x -> fq_slots q !! ((fq_head q + i) mod fq_cap q)%nat = Some (Some x).

Lemma slot_rep q l d i x : frame_rep q (l, d) -> l !! i = Some x -> slot q ((fq_head q + i) mod fq_cap q) = Some x.
Proof. intros (_ & _ & _ & _ & _ & Hs) Hi. unfold slot. by rewrite (Hs i x Hi). Qed.

Lemma frame_pop_rep q f l d :
  frame_rep q (f :: l, d) -> (espos_ble_frameq_pop q).1 = Some f /\ frame_rep (espos_ble_frameq_pop q).2 (l, d) /\
    fq_cap (espos_ble_frameq_pop q).2 = fq_cap q.
Proof.
  intros Hr. pose proof (slot_rep q (f :: l) d 0 f Hr eq_refl) as H0. destruct q as [slots c h n dr].
  destruct Hr as (Hlen & Hn & Hle & Hh & Hd & Hs). cbn in Hlen, Hn, Hle, Hh, Hd, Hs, H0. subst n dr.
  assert (Hh' : (h < c)%nat) by lia. unfold espos_ble_frameq_pop. cbn -[Nat.modulo].
  rewrite Nat.add_0_r, Nat.mod_small in H0 by done. split_and!; [done|..|done].
  split_and!; cbn -[Nat.modulo]; [by rewrite length_insert|done|lia|left; apply Nat.mod_upper_bound; lia|done|].
  intros i x Hi. apply lookup_lt_Some in Hi as Hlt. specialize (Hs (S i) x Hi). rewrite list_lookup_insert_ne; [|ring_pos].
  rewrite <- Hs. f_equal. ring_pos.
Qed.

Lemma frame_push_rep q l d f :
  frame_rep q (l, d) ->
  (frame_step q (FPush f)).1 = (frame_spec (fq_cap q) (l, d) (FPush f)).1 /\
  frame_rep (frame_step q (FPush f)).2 (frame_spec (fq_cap q) (l, d) (FPush f)).2.
Proof.
  intros Hr. pose proof (slot_rep q l d) as Hslot. destruct q as [slots c h n dr].
  pose proof Hr as (Hlen & Hn & Hle & Hh & Hd & Hs). cbn in Hlen, Hn, Hle, Hh, Hd, Hs. subst n dr.
  cbn [frame_step frame_spec fq_cap fst snd]. unfold espos_ble_frameq_push. cbn [fq_cap fq_count fq_head].
  destruct (Nat.eqb_spec c 0) as [E0|E0].
  { assert (l = []) as -> by (apply nil_length_inv; lia). destruct slots; [|cbn in Hlen; lia]. cbn in Hlen. subst c. cbn. split; [reflexivity|]. split_and!; cbn; try done; lia. }
  assert (Hh' : (h < c)%nat) by lia.
  destruct (Nat.eqb_spec (length l) c) as [Hfull|Hroom]; destruct (Nat.ltb_spec (length l) c) as [Hlt|Hge]; try lia.
  - destruct l as [|x l]; [cbn in *; lia|]. specialize (Hslot 0%nat x Hr eq_refl). cbn [fq_head fq_cap] in Hslot.
    rewrite Nat.add_0_r, Nat.mod_small in Hslot by done. rewrite Hslot. cbn -[Nat.modulo]. split; [by destruct l|].
    rewrite drop_0. cbn [length] in *.
    split_and!; cbn -[Nat.modulo]; [by rewrite !length_insert|rewrite length_app; cbn; lia|rewrite length_app; cbn; lia|left; apply Nat.mod_upper_bound; lia|done|].
    intros i y Hi. apply lookup_app_Some in Hi as [Hi|[Hge' Hi]].
    + apply lookup_lt_Some in Hi as Hi'. specialize (Hs (S i) y Hi). rewrite !list_lookup_insert_ne by ring_pos. rewrite <- Hs. f_equal. ring_pos.
    + apply list_lookup_singleton_Some in Hi as [Hi <-]. replace i with (length l) by lia. apply list_lookup_insert_eq.
      rewrite length_insert, Hlen. apply Nat.mod_upper_bound. lia.
  - cbn -[Nat.modulo]. split; [done|].
    split_and!; cbn -[Nat.modulo]; [by rewrite length_insert|rewrite length_app; cbn; lia|rewrite length_app; cbn; lia|lia|done|].
    intros i y Hi. apply lookup_app_Some in Hi as [Hi|[Hge' Hi]].
    + apply lookup_lt_Some in Hi as Hi'. rewrite list_lookup_insert_ne by ring_pos. by apply Hs.
    + apply list_lookup_singleton_Some in Hi as [Hi <-]. replace i with (length l) by lia. apply list_lookup_insert_eq.
      rewrite Hlen. apply Nat.mod_upper_bound. lia.
Qed.

Lemma frame_unshift_rep q l d f :
  frame_rep q (l, d) ->
  (frame_step q (FUnshift f)).1 = (frame_spec (fq_cap q) (l, d) (FUnshift f)).1 /\
  frame_rep (frame_step q (FUnshift f)).2 (frame_spec (fq_cap q) (l, d) (FUnshift f)).2.
Proof.
  intros Hr. destruct q as [slots c h n dr]. pose proof Hr as (Hlen & Hn & Hle & Hh & Hd & Hs). cbn in Hlen, Hn, Hle, Hh, Hd, Hs. subst n dr.
  cbn [frame_step frame_spec fq_cap fst snd]. unfold espos_ble_frameq_unshift. cbn [fq_cap fq_count fq_head].
  destruct (Nat.eqb_spec (length l) c) as [Hfull|Hroom]; destruct (Nat.ltb_spec (length l) c) as [Hlt|Hge]; try lia.
  - split; [done|]. split_and!; done.
  - assert (Hh' : (h < c)%nat) by lia. replace (h + c - 1)%nat with (h + (c - 1))%nat by lia. cbn -[Nat.modulo Nat.sub]. split; [done|].
    split_and!; cbn -[Nat.modulo Nat.sub]; [by rewrite length_insert|done|lia|left; apply Nat.mod_upper_bound; lia|done|].
    intros [|i] y Hi.
    + cbn in Hi. injection Hi as <-. rewrite Nat.add_0_r, (Nat.mod_small ((h + (c - 1)) mod c)) by (apply Nat.mod_upper_bound; lia).
      apply list_lookup_insert_eq. rewrite Hlen. apply Nat.mod_upper_bound. lia.
    + cbn in Hi. apply lookup_lt_Some in Hi as Hi'. rewrite list_lookup_insert_ne by ring_pos. rewrite <- (Hs i y Hi). f_equal. ring_pos.
Qed.

Lemma clear_loop_rep q l d : frame_rep q (l, d) ->
  (clear_loop (length l) q).1 = l /\ frame_rep (clear_loop (length l) q).2 ([], d) /\ fq_cap (clear_loop (length l) q).2 = fq_cap q.
Proof.
  revert q. induction l as [|f l IH]; intros q Hr; [done|]. cbn [length clear_loop].
  destruct (frame_pop_rep q f l d Hr) as (H1 & H2 & H3). pose proof Hr as (_ & Hn & _). rewrite Hn. cbn [length Nat.eqb fst].
  destruct (espos_ble_frameq_pop q) as [p q']. cbn [fst snd] in *. subst p. destruct (IH q' H2) as (H4 & H5 & H6).
  destruct (clear_loop (length l) q') as [fr q'']. cbn [fst snd] in *. subst fr. split_and!; [done|done|congruence].
Qed.

Lemma frame_clear_rep q l d :
  frame_rep q (l, d) ->
  (frame_step q FClear).1 = FrameOut [] l /\ frame_rep (frame_step q FClear).2 ([], d) /\ fq_cap (frame_step q FClear).2 = fq_cap q.
Proof.
  intros Hr. cbn [frame_step]. unfold espos_ble_frameq_clear. pose proof Hr as (_ & Hn & _). rewrite Hn. cbn [fst].
  destruct (clear_loop_rep q l d Hr) as (H1 & H2 & H3). destruct (clear_loop (length l) q) as [fr q']. cbn [fst snd] in *. subst fr.
  split_and!; [done| |done]. destruct H2 as (Hlen & Hc & Hle & Hh & Hd & Hs). split_and!; cbn; [done|done|done|lia|done|done].
Qed.

Lemma frame_step_rep q s op : frame_rep q s ->
  (frame_step q op).1 = (frame_spec (fq_cap q) s op).1 /\ frame_rep (frame_step q op).2 (frame_spec (fq_cap q) s op).2 /\
  fq_cap (frame_step q op).2 = fq_cap q.
Proof.
  intros Hr. destruct s as [l d], op as [f| |f|].
  - destruct (frame_push_rep q l d f Hr) as [H1 H2]. split_and!; [done|done|]. cbn [frame_step]. unfold espos_ble_frameq_push.
    destruct (fq_cap q =? 0)%nat; [done|]. by destruct (fq_count q =? fq_cap q)%nat.
  - destruct l as [|f l].
    + pose proof Hr as (_ & Hn & _). cbn [frame_step frame_spec]. unfold espos_ble_frameq_pop. rewrite Hn. done.
    + destruct (frame_pop_rep q f l d Hr) as (H1 & H2 & H3). cbn [frame_step frame_spec fst snd].
      destruct (espos_ble_frameq_pop q) as [p q']. cbn [fst snd] in *. subst p. cbn. by rewrite drop_0.
  - destruct (frame_unshift_rep q l d f Hr) as [H1 H2]. split_and!; [done|done|]. cbn [frame_step]. unfold espos_ble_frameq_unshift.
    by destruct (fq_count q =? fq_cap q)%nat.
  - by apply frame_clear_rep.
Qed.

Fixpoint frame_run {S : Type} (step : S -> frame_op -> frame_out * S) (s : S) (ops : list frame_op) : list frame_out * S :=
  match ops with
  | [] => ([], s)
  | op :: ops' => let '(o, s') := step s op in let '(os, s'') := frame_run step s' ops' in (o :: os, s'')
  end.

Lemma frame_run_rep q s ops : frame_rep q s ->
  (frame_run frame_step q ops).1 = (frame_run (frame_spec (fq_cap q)) s ops).1 /\
  frame_rep (frame_run frame_step q ops).2 (frame_run (frame_spec (fq_cap q)) s ops).2 /\
  fq_cap (frame_run frame_step q ops).2 = fq_cap q.
Proof.
  revert q s. induction ops as [|op ops IH]; intros q s Hr; [done|]. cbn [frame_run].
  destruct (frame_step_rep q s op Hr) as (H1 & H2 & H3).
  destruct (frame_step q op) as [o q'], (frame_spec (fq_cap q) s op) as [o' s']. cbn [fst snd] in *. subst o'.
  specialize (IH q' s' H2). rewrite H3 in IH.
  destruct (frame_run frame_step q' ops) as [os q''], (frame_run (frame_spec (fq_cap q)) s' ops) as [os' s'']. cbn [fst snd] in *.
  by destruct IH as (-> & IH).
Qed.

(** The frames the operations hand over to the queue. *)
Definition handed (ops : list frame_op) : list Z :=
  ops ≫= fun op => match op with FPush f | FUnshift f => [f] | _ => [] end.
Definition all_popped (os : list frame_out) : list Z := os ≫= popped.
Definition all_freed (os : list frame_out) : list Z := os ≫= freed_by.

Lemma spec_owns cap s ops :
  let r := frame_run (frame_spec cap) s ops in
  s.1 ++ handed ops ≡ₚ r.2.1 ++ all_popped r.1 ++ all_freed r.1.
Proof.
  revert s. induction ops as [|op ops IH]; intros [l d]; cbv zeta; [done|]. cbn [frame_run].
  assert (Hs : l ++ handed [op] ≡ₚ (frame_spec cap (l, d) op).2.1 ++ popped (frame_spec cap (l, d) op).1 ++ freed_by (frame_spec cap (l, d) op).1).
  { destruct op as [f| |f|]; cbn [handed mbind list_bind frame_spec fst snd app].
    - destruct (_ <? _)%nat; cbn [popped freed_by fst snd app]; [by rewrite app_nil_r|]. rewrite (Permutation_app_comm (drop 1 _)). by rewrite take_drop.
    - cbn. rewrite !app_nil_r. rewrite (Permutation_app_comm (drop 1 l)). by rewrite take_drop.
    - destruct (_ <? _)%nat; cbn; [rewrite app_nil_r; by rewrite Permutation_app_comm|done].
    - cbn. by rewrite app_nil_r. }
  destruct (frame_spec cap (l, d) op) as [o s']. specialize (IH s'). cbv zeta in IH. cbn [fst snd] in *.
  destruct (frame_run (frame_spec cap) s' ops) as [os s'']. cbn [fst snd] in *.
  assert (Hh : handed (op :: ops) = handed [op] ++ handed ops) by (unfold handed; cbn; by rewrite app_nil_r).
  unfold all_popped, all_freed in *. rewrite Hh, app_assoc, Hs. cbn [mbind list_bind].
  transitivity ((s'.1 ++ handed ops) ++ popped o ++ freed_by o); [solve_Permutation|]. rewrite IH. solve_Permutation.
Qed.

(** The frame queue is a bounded deque that owns its frames: for any sequence of
    appends, removals, put-backs and clears, on a queue of any size, what is handed
    out and what is freed at each step, and the count of drops, are those of a list
    that drops its oldest frame when full; and every frame handed over is exactly once
    still queued, handed out or freed, so none leaks and none is freed twice. *)
Theorem ble_frameq_refines (storage : list (option Z)) (cap : nat) (ops : list frame_op) :
  length storage = cap ->
  let c := frame_run frame_step (espos_ble_frameq_init storage cap) ops in
  let s := frame_run (frame_spec cap) ([], 0) ops in
  c.1 = s.1 /\ fq_count c.2 = length s.2.1 /\ fq_dropped c.2 = s.2.2 /\ (length s.2.1 <= cap)%nat /\
  handed ops ≡ₚ s.2.1 ++ all_popped c.1 ++ all_freed c.1.
Proof.
  intros Hl. cbv zeta. destruct (frame_run_rep (espos_ble_frameq_init storage cap) ([], 0) ops) as (H1 & H2 & H3).
  - split_and!; cbn; [done|done|lia|lia|done|done].
  - cbn [fq_cap espos_ble_frameq_init] in *. destruct H2 as (_ & Hn & Hle & _ & Hd & _). rewrite H3 in Hle.
    split_and!; try done. rewrite H1. exact (spec_owns cap ([], 0) ops).
Qed.

(** * UUID text *)

Definition ble_byte (b : Z) : Prop := 0 <= b < 256.

(** The two digits of a byte. *)
Definition hi (digits : cstr) (b : Z) : Z := hex_digit digits (Z.shiftr b 4).
Definition lo (digits : cstr) (b : Z) : Z := hex_digit digits (Z.land b 15).

Lemma hex_pair_digits b : ble_byte b ->
  hex_pair (hi kHexLower b) (lo kHexLower b) = Some b /\ hex_pair (hi kHexUpper b) (lo kHexUpper b) = Some b /\
  (hi kHexLower b =? 45) = false.
Proof.
  intros Hb.
  assert (H : forallb (fun n => let b := Z.of_nat n in
    bool_decide (hex_pair (hi kHexLower b) (lo kHexLower b) = Some b) && bool_decide (hex_pair (hi kHexUpper b) (lo kHexUpper b) = Some b)
    && negb (hi kHexLower b =? 45)) (seq 0 256) = true) by (vm_compute; reflexivity).
  rewrite forallb_forall in H. specialize (H (Z.to_nat b)). cbv zeta in H. unfold ble_byte in Hb. rewrite Z2Nat.id in H by lia.
  rewrite !andb_true_iff, !bool_decide_eq_true, negb_true_iff in H. destruct H as [[? ?] ?]; [apply in_seq; lia|done].
Qed.

Lemma hex_encode_cons b l digits : hex_encode (b :: l) digits = hi digits b :: lo digits b :: hex_encode l digits.
Proof. done. Qed.

(** Decoding gives the bytes back, in either case. *)
Lemma hex_round_trip l : Forall ble_byte l ->
  espos_ble_hex_decode (Some (espos_ble_hex_encode_lower l)) (length l) = Some l /\
  espos_ble_hex_decode (Some (espos_ble_hex_encode_upper l)) (length l) = Some l.
Proof.
  intros Hl. unfold espos_ble_hex_decode, espos_ble_hex_encode_lower, espos_ble_hex_encode_upper.
  assert (Hlen : forall digits, length (hex_encode l digits) = (length l * 2)%nat).
  { intros digits. clear. induction l as [|b l IH]; [done|]. rewrite hex_encode_cons. cbn [length]. rewrite IH. lia. }
  assert (Hdec : hex_decode_loop (hex_encode l kHexLower) = Some l /\ hex_decode_loop (hex_encode l kHexUpper) = Some l).
  { clear Hlen. induction Hl as [|b l Hb _ [IH1 IH2]]; [done|]. rewrite !hex_encode_cons. cbn [hex_decode_loop].
    destruct (hex_pair_digits b Hb) as (-> & -> & _). cbn [mbind option_bind]. by rewrite IH1, IH2. }
  rewrite !Hlen, Nat.Div0.mod_mul, Nat.div_mul by lia. cbn [negb Nat.eqb]. rewrite Nat.ltb_irrefl. done.
Qed.

Lemma hex_byte_digits b l : ble_byte b -> hex_byte (hi kHexLower b :: lo kHexLower b :: l) = Some b.
Proof. intros Hb. unfold hex_byte. cbn. by apply hex_pair_digits. Qed.

(** The dashed loop takes a byte, and skips a dash. *)
Lemma dashed_byte n b l out : ble_byte b -> (length out < 16)%nat ->
  uuid_dashed (S n) (hi kHexLower b :: lo kHexLower b :: l) out = uuid_dashed n l (out ++ [b]).
Proof.
  intros Hb Ho. cbn [uuid_dashed]. destruct (Nat.leb_spec 16 (length out)); [lia|].
  destruct (hex_pair_digits b Hb) as (_ & _ & ->). rewrite hex_byte_digits by done. done.
Qed.

Lemma dashed_dash n l out : (length out < 16)%nat -> uuid_dashed (S n) (45 :: l) out = uuid_dashed n l out.
Proof. intros Ho. cbn [uuid_dashed]. by destruct (Nat.leb_spec 16 (length out)); [lia|]. Qed.

(** One turn of the short forms. *)
Lemma short_byte n i nbytes str b l out : ble_byte b -> drop (i * 2) str = hi kHexLower b :: lo kHexLower b :: l ->
  uuid_short (S n) i nbytes str out = uuid_short n (S i) nbytes str (<[(4 - nbytes + i)%nat := b]> out).
Proof. intros Hb Hd. cbn [uuid_short]. rewrite Hd, hex_byte_digits by done. done. Qed.

#[local] Opaque hi lo.

(** What [espos_ble_uuid_parse] makes of each of the three forms. *)
Lemma parse_short16 u2 u3 : ble_byte u2 -> ble_byte u3 ->
  espos_ble_uuid_parse (Some (hex_encode [u2; u3] kHexLower)) = Some ([0; 0; u2; u3] ++ drop 4 kBaseUuid, 16).
Proof.
  intros H2 H3. unfold espos_ble_uuid_parse. rewrite !hex_encode_cons. cbn -[uuid_short].
  rewrite (short_byte _ _ _ _ u2 [hi kHexLower u3; lo kHexLower u3]) by done. rewrite (short_byte _ _ _ _ u3 []) by done. done.
Qed.

Lemma parse_short32 u0 u1 u2 u3 : ble_byte u0 -> ble_byte u1 -> ble_byte u2 -> ble_byte u3 ->
  espos_ble_uuid_parse (Some (hex_encode [u0; u1; u2; u3] kHexLower)) = Some ([u0; u1; u2; u3] ++ drop 4 kBaseUuid, 32).
Proof.
  intros H0 H1 H2 H3. unfold espos_ble_uuid_parse. rewrite !hex_encode_cons. cbn -[uuid_short].
  rewrite (short_byte _ _ _ _ u0 (hex_encode [u1; u2; u3] kHexLower)) by done.
  rewrite (short_byte _ _ _ _ u1 (hex_encode [u2; u3] kHexLower)) by done.
  rewrite (short_byte _ _ _ _ u2 (hex_encode [u3] kHexLower)) by done. rewrite (short_byte _ _ _ _ u3 []) by done. done.
Qed.

Lemma parse_dashed u : length u = 16%nat -> Forall ble_byte u ->
  espos_ble_uuid_parse (Some (
    hex_encode (take 4 u) kHexLower ++ [45] ++ hex_encode (take 2 (drop 4 u)) kHexLower ++ [45]
    ++ hex_encode (take 2 (drop 6 u)) kHexLower ++ [45] ++ hex_encode (take 2 (drop 8 u)) kHexLower ++ [45]
    ++ hex_encode (drop 10 u) kHexLower)) = Some (u, 128).
Proof.
  intros Hl Hb. do 16 (destruct u as [|? u]; [done|]; apply Forall_cons in Hb as [? Hb]). destruct u; [|done].
  cbn [take drop]. rewrite !hex_encode_cons. cbn [hex_encode mbind list_bind app]. unfold espos_ble_uuid_parse. cbn -[uuid_dashed].
  repeat first [rewrite dashed_byte by (done || (cbn; lia)) | rewrite dashed_dash by (cbn; lia)]. done.
Qed.

(** A UUID survives the trip through text: for any 16 bytes and any width, what
    [espos_ble_uuid_format] prints, short or dashed, is accepted by
    [espos_ble_uuid_parse] and gives the same 16 bytes back, with a width under which it
    prints the same again. *)
Theorem ble_uuid_round_trip (u : list Z) (bits : Z) :
  length u = 16%nat -> Forall ble_byte u ->
  exists w, espos_ble_uuid_parse (Some (espos_ble_uuid_format u bits)) = Some (u, w) /\
    espos_ble_uuid_format u w = espos_ble_uuid_format u bits /\ (w = 16 \/ w = 32 \/ w = 128).
Proof.
  intros Hl Hb. pose proof (parse_dashed u Hl Hb) as Hd.
  destruct u as [|u0 [|u1 [|u2 [|u3 u]]]]; try done. rewrite !Forall_cons in Hb. destruct Hb as (H0 & H1 & H2 & H3 & _).
  unfold espos_ble_uuid_format. set (base := bool_decide (drop 4 (u0 :: u1 :: u2 :: u3 :: u) = drop 4 kBaseUuid)).
  assert (Hbase : base = true -> u = drop 4 kBaseUuid) by apply bool_decide_eq_true. clearbody base. cbn [nth].
  destruct (base && (bits =? 16) && (u0 =? 0) && (u1 =? 0)) eqn:E1.
  - exists 16. rewrite !andb_true_iff, !Z.eqb_eq in E1. destruct E1 as [[[Eb _] ->] ->]. rewrite Eb, (Hbase Eb).
    split_and!; [by apply parse_short16|done|auto].
  - destruct (base && (bits =? 32)) eqn:E2.
    + exists 32. apply andb_true_iff in E2 as [Eb _]. rewrite Eb, (Hbase Eb). split_and!; [by apply parse_short32|done|auto].
    + exists 128. split_and!; [exact Hd|by destruct base|auto].
Qed.

(** * Witnesses *)

Lemma ble_advq_refines_witness :
  length [7; 7] = 2%nat /\ (outputs adv_step (espos_ble_advq_init [7; 7] 2) [APush 1; APush 2; APush 3; ADrain 1; ADrain 5]).1 = [2; 3].
Proof.
  split; [reflexivity|].
  rewrite (proj1 (ble_advq_refines [7; 7] 2 [APush 1; APush 2; APush 3; ADrain 1; ADrain 5] ltac:(lia) eq_refl)). reflexivity.
Defined.

Lemma ble_frameq_refines_witness :
  length [None; Some 9] = 2%nat /\
  (frame_run frame_step (espos_ble_frameq_init [None; Some 9] 2) [FPush 1; FPush 2; FPop; FUnshift 1; FPush 3; FClear]).1 =
  [FrameOut [] []; FrameOut [] []; FrameOut [1] []; FrameOut [] []; FrameOut [] [1]; FrameOut [] [2; 3]].
Proof.
  split; [reflexivity|].
  rewrite (proj1 (ble_frameq_refines [None; Some 9] 2 [FPush 1; FPush 2; FPop; FUnshift 1; FPush 3; FClear] eq_refl)). reflexivity.
Defined.

(** The battery service, 180f. *)
Lemma ble_uuid_round_trip_witness :
  let u := [0; 0; 24; 15] ++ drop 4 kBaseUuid in
  length u = 16%nat /\ Forall ble_byte u /\ espos_ble_uuid_format u 16 = lit "180f" /\
  exists w, espos_ble_uuid_parse (Some (espos_ble_uuid_format u 16)) = Some (u, w).
Proof.
  cbv zeta. assert (H : Forall ble_byte ([0; 0; 24; 15] ++ drop 4 kBaseUuid)) by (repeat constructor; vm_compute; (discriminate || reflexivity)).
  split; [reflexivity|]. split; [exact H|]. split; [vm_compute; reflexivity|].
  destruct (ble_uuid_round_trip ([0; 0; 24; 15] ++ drop 4 kBaseUuid) 16 eq_refl H) as (w & Hw & _). exists w. exact Hw.
Defined.
