(* ===== verification/PowerPolicy.v ===== *)
(** The sleep policy: [power_policy.c] and [espos_power_policy.h]. *)
From Stdlib Require Import ZArith Lia.
From stdpp Require Import base list numbers.
From S2P Require Import Prelude.
Open Scope Z_scope.

Inductive espos_power_decision_t := ESPOS_POWER_STAY | ESPOS_POWER_SLEEP.
#[export] Instance power_decision_eq_dec : EqDecision espos_power_decision_t.
Proof. solve_decision. Defined.

Inductive espos_power_why_t :=
  | ESPOS_POWER_WHY_OFF | ESPOS_POWER_WHY_UNCONFIRMED | ESPOS_POWER_WHY_WINDOW | ESPOS_POWER_WHY_NETWORK
  | ESPOS_POWER_WHY_STREAM | ESPOS_POWER_WHY_PUBLISHING | ESPOS_POWER_WHY_HOLD | ESPOS_POWER_WHY_DONE
  | ESPOS_POWER_WHY_DEADLINE | ESPOS_POWER_WHY_OTA.
#[export] Instance power_why_eq_dec : EqDecision espos_power_why_t.
Proof. solve_decision. Defined.

Record espos_power_policy_cfg_t := PowerCfg { window_ms : Z; awake_max_ms : Z; publish_ms : Z }.

Record espos_power_policy_in_t := PowerIn {
  enabled : bool;
  timer_wake : bool;
  image_unconfirmed : bool;
  ota_busy : bool;
  net_up : bool;
  net_up_for_ms : Z;
  have_stream : bool;
  stream_connected : bool;
  stream_up_for_ms : Z;
  uptime_ms : Z;
  holds : Z
}.

Definition decided (w : espos_power_why_t) : espos_power_decision_t * espos_power_why_t :=
  ((if bool_decide (w = ESPOS_POWER_WHY_DONE) || bool_decide (w = ESPOS_POWER_WHY_DEADLINE) then ESPOS_POWER_SLEEP else ESPOS_POWER_STAY), w).

Definition espos_power_policy_deadline_ms (cfg : option espos_power_policy_cfg_t) (timer_wake : bool) : Z :=
  match cfg with
  | None => UINT32_MAX
  | Some c =>
      if timer_wake then awake_max_ms c
      else if window_ms c >? UINT32_MAX - awake_max_ms c then UINT32_MAX else window_ms c + awake_max_ms c
  end.

Definition espos_power_policy_decide (cfg : option espos_power_policy_cfg_t) (i : option espos_power_policy_in_t)
    : espos_power_decision_t * espos_power_why_t :=
  match cfg, i with
  | Some c, Some i =>
      if negb (enabled i) then decided ESPOS_POWER_WHY_OFF
      else if image_unconfirmed i then decided ESPOS_POWER_WHY_UNCONFIRMED
      else if ota_busy i then decided ESPOS_POWER_WHY_OTA
      else if negb (timer_wake i) && (uptime_ms i <? window_ms c) then decided ESPOS_POWER_WHY_WINDOW
      else if uptime_ms i >=? espos_power_policy_deadline_ms (Some c) (timer_wake i) then decided ESPOS_POWER_WHY_DEADLINE
      else if negb (net_up i) then decided ESPOS_POWER_WHY_NETWORK
      else if have_stream i && negb (stream_connected i) then decided ESPOS_POWER_WHY_STREAM
      else
        let ready_for := if have_stream i then stream_up_for_ms i else net_up_for_ms i in
        if ready_for <? publish_ms c then decided ESPOS_POWER_WHY_PUBLISHING
        else if holds i >? 0 then decided ESPOS_POWER_WHY_HOLD
        else decided ESPOS_POWER_WHY_DONE
  | _, _ => decided ESPOS_POWER_WHY_OFF
  end.

(** * Correctness *)

(** Everything this wake was for is done. *)
Definition published (c : espos_power_policy_cfg_t) (i : espos_power_policy_in_t) : Prop :=
  net_up i = true /\ holds i = 0 /\
  (if have_stream i then stream_connected i = true /\ publish_ms c <= stream_up_for_ms i else publish_ms c <= net_up_for_ms i).

(** The time budget of this boot, as a true number of milliseconds. *)
Definition budget (c : espos_power_policy_cfg_t) (i : espos_power_policy_in_t) : Z :=
  (if timer_wake i then 0 else window_ms c) + awake_max_ms c.

(** Nothing forbids sleeping: the cycle is on, the running image has confirmed itself
    and no update is under way. *)
Definition may_sleep (i : espos_power_policy_in_t) : Prop :=
  enabled i = true /\ image_unconfirmed i = false /\ ota_busy i = false.

Record power_wf (c : espos_power_policy_cfg_t) (i : espos_power_policy_in_t) : Prop := mk_power_wf {
  pw_window : 0 <= window_ms c < 2 ^ 32;
  pw_awake : 0 <= awake_max_ms c < 2 ^ 32;
  pw_uptime : 0 <= uptime_ms i < 2 ^ 32;
  pw_holds : 0 <= holds i
}.

Lemma power_deadline c i : power_wf c i ->
  espos_power_policy_deadline_ms (Some c) (timer_wake i) = Z.min (budget c i) UINT32_MAX.
Proof.
  intros [Hw Ha _ _]. unfold espos_power_policy_deadline_ms, budget, UINT32_MAX. destruct (timer_wake i); [lia|].
  rewrite Z.gtb_ltb. case_match; lia.
Qed.

(** The device sleeps exactly when it should: it goes to sleep if and only if
    nothing forbids it (the cycle is on, the image has confirmed itself, no update is
    under way) and either this boot's time budget has run out, or its awake window is
    over and everything the wake was for is done; so it never sleeps on an unconfirmed
    image or during an update, and otherwise never stays awake past its budget, which
    saturates instead of wrapping; the reason given tells the two cases apart. *)
Theorem power_sleeps_exactly (c : espos_power_policy_cfg_t) (i : espos_power_policy_in_t) :
  power_wf c i ->
  let '(d, why) := espos_power_policy_decide (Some c) (Some i) in
  (d = ESPOS_POWER_SLEEP <->
     may_sleep i /\ (Z.min (budget c i) UINT32_MAX <= uptime_ms i \/
                    (timer_wake i = true \/ window_ms c <= uptime_ms i) /\ published c i)) /\
  (why = ESPOS_POWER_WHY_DEADLINE <-> may_sleep i /\ Z.min (budget c i) UINT32_MAX <= uptime_ms i) /\
  (d = ESPOS_POWER_SLEEP <-> why = ESPOS_POWER_WHY_DONE \/ why = ESPOS_POWER_WHY_DEADLINE).
Proof.
  intros Hw. pose proof (power_deadline c i Hw) as Hd. destruct Hw as [Hwin Haw Hup Hho].
  unfold espos_power_policy_decide. rewrite Hd. clear Hd. unfold may_sleep, published, decided.
  assert (Hb : timer_wake i = false -> window_ms c <= Z.min (budget c i) UINT32_MAX) by (unfold budget, UINT32_MAX; intros ->; lia).
  set (dl := Z.min (budget c i) UINT32_MAX) in *. clearbody dl.
  destruct (enabled i); cbn [negb]; [|cbn; intuition discriminate].
  destruct (image_unconfirmed i); [cbn; intuition discriminate|]. destruct (ota_busy i); [cbn; intuition discriminate|].
  destruct (timer_wake i); cbn [negb andb]; [|destruct (Z.ltb_spec (uptime_ms i) (window_ms c));
    [specialize (Hb eq_refl); cbn; intuition (discriminate || lia)|]].
  all: rewrite Z.geb_leb; destruct (Z.leb_spec dl (uptime_ms i)); [cbn; intuition (discriminate || lia)|].
  all: destruct (net_up i); cbn [negb]; [|cbn; intuition (discriminate || lia)].
  all: destruct (have_stream i); cbn [andb]; [destruct (stream_connected i); cbn [negb]; [|cbn; intuition (discriminate || lia)]|].
  all: match goal with |- context [?a <? publish_ms ?k] => destruct (Z.ltb_spec a (publish_ms k)) end; [cbn; intuition (discriminate || lia)|].
  all: rewrite Z.gtb_ltb; destruct (Z.ltb_spec 0 (holds i)); cbn; intuition (discriminate || lia).
Qed.

(** An hour's window, woken by hand, connected and published. *)
Lemma power_sleeps_exactly_witness :
  let c := PowerCfg 3600000 60000 5000 in
  let i := PowerIn true false false false true 9000 true true 6000 3600001 0 in
  power_wf c i /\ (espos_power_policy_decide (Some c) (Some i)).1 = ESPOS_POWER_SLEEP.
Proof.
  cbv zeta.
  assert (H : power_wf (PowerCfg 3600000 60000 5000) (PowerIn true false false false true 9000 true true 6000 3600001 0))
    by (split; cbn; lia).
  split; [exact H|]. apply (proj1 (power_sleeps_exactly _ _ H)). split; [repeat split|]. right. split; [right; cbn; lia|].
  split; [reflexivity|]. split; [reflexivity|]. cbn. split; [reflexivity|lia].
Defined.
