(* ===== verification/WifiAux.v ===== *)
(** Three small deciders beside the WiFi state machine: the one dropped association
    per boot ([wifi_fresh.c]), the remembered access point ([wifi_last_ap.c]) and the
    stall detector ([wifi_stall.c]). *)
From Stdlib Require Import ZArith Lia String.
From stdpp Require Import base list numbers.
From S2P Require Import Prelude.
Open Scope Z_scope.

(** * [wifi_fresh.c]

    The phase is an atomic that two tasks use: the event task decides, the state
    machine's port cancels. A call is a program of atomic accesses, so that calls can
    be interleaved access by access. *)
Module Fresh.

Inductive fresh_phase := FRESH_ARMED | FRESH_PENDING | FRESH_REJOINING | FRESH_DONE.
#[export] Instance fresh_phase_eq_dec : EqDecision fresh_phase.
Proof. solve_decision. Defined.

Inductive prog :=
  | PRet (b : bool)
  | PCas (expected desired : fresh_phase) (k : bool -> prog)
  | PStore (desired : fresh_phase) (k : prog).

(** [espos_wifi_fresh_cancel], then what the caller does. *)
Definition espos_wifi_fresh_cancel (k : prog) : prog :=
  PCas FRESH_PENDING FRESH_DONE (fun ok => if ok then k else PCas FRESH_REJOINING FRESH_DONE (fun _ => k)).

Definition espos_wifi_fresh_on_connected (enabled : bool) : prog :=
  if enabled then PCas FRESH_ARMED FRESH_PENDING (fun ok => if ok then PRet true else PStore FRESH_DONE (PRet false))
  else PStore FRESH_DONE (PRet false).

Definition espos_wifi_fresh_on_disconnected (leave : bool) : prog :=
  if leave then
    PCas FRESH_PENDING FRESH_REJOINING (fun ok => if ok then PRet true else espos_wifi_fresh_cancel (PRet false))
  else espos_wifi_fresh_cancel (PRet false).

Definition espos_wifi_fresh_armed (p : fresh_phase) : bool := bool_decide (p = FRESH_ARMED).
Definition espos_wifi_fresh_pending (p : fresh_phase) : bool :=
  bool_decide (p = FRESH_PENDING) || bool_decide (p = FRESH_REJOINING).

(** One atomic access of a program. *)
Definition access (p : fresh_phase) (pr : prog) : fresh_phase * prog :=
  match pr with
  | PRet b => (p, PRet b)
  | PCas e d k => if decide (p = e) then (d, k true) else (p, k false)
  | PStore d k => (d, k)
  end.

Inductive fresh_call := OnConnected (enabled : bool) | OnDisconnected (leave : bool) | Cancel.

Definition code (c : fresh_call) : prog :=
  match c with
  | OnConnected e => espos_wifi_fresh_on_connected e
  | OnDisconnected l => espos_wifi_fresh_on_disconnected l
  | Cancel => espos_wifi_fresh_cancel (PRet false)
  end.

(** The phase, and the calls made so far with what is left of each. *)
Record fresh_sys := FreshSys { f_phase : fresh_phase; f_calls : list (fresh_call * prog) }.

Inductive fresh_step : fresh_sys -> fresh_sys -> Prop :=
  | step_call p cs c : fresh_step (FreshSys p cs) (FreshSys p (cs ++ [(c, code c)]))
  | step_access p cs i c pr :
      cs !! i = Some (c, pr) ->
      fresh_step (FreshSys p cs) (FreshSys (access p pr).1 (<[i := (c, (access p pr).2)]> cs)).

(** A zeroed struct, then any interleaving of any calls. *)
Inductive fresh_reach : fresh_sys -> Prop :=
  | reach_boot : fresh_reach (FreshSys FRESH_ARMED [])
  | reach_step s s' : fresh_reach s -> fresh_step s s' -> fresh_reach s'.

(** ** At most one drop *)

(** The call returned [true] to its caller: an association it must drop, or the echo of
    the drop it must swallow. *)
Definition drops (x : fresh_call * prog) : bool := match x with (OnConnected _, PRet true) => true | _ => false end.
Definition swallows (x : fresh_call * prog) : bool := match x with (OnDisconnected _, PRet true) => true | _ => false end.

Definition count (f : fresh_call * prog -> bool) (cs : list (fresh_call * prog)) : nat := length (List.filter f cs).

(** What may be left of a call. *)
Definition left_of (c : fresh_call) (pr : prog) : Prop :=
  pr = code c \/ pr = PRet false \/ pr = PStore FRESH_DONE (PRet false) \/
  pr = espos_wifi_fresh_cancel (PRet false) \/ pr = PCas FRESH_REJOINING FRESH_DONE (fun _ => PRet false) \/
  (pr = PRet true /\ c <> Cancel).

Record fresh_inv (s : fresh_sys) : Prop := mk_fresh_inv {
  fi_left : forall x, x ∈ f_calls s -> left_of x.1 x.2;
  fi_count : match f_phase s with
             | FRESH_ARMED => count drops (f_calls s) = 0%nat /\ count swallows (f_calls s) = 0%nat
             | FRESH_PENDING => count drops (f_calls s) = 1%nat /\ count swallows (f_calls s) = 0%nat
             | FRESH_REJOINING => count drops (f_calls s) = 1%nat /\ count swallows (f_calls s) = 1%nat
             | FRESH_DONE => (count swallows (f_calls s) <= count drops (f_calls s) <= 1)%nat
             end
}.

Lemma count_app f cs cs' : count f (cs ++ cs') = (count f cs + count f cs')%nat.
Proof. unfold count. by rewrite List.filter_app, length_app. Qed.

Definition one (f : fresh_call * prog -> bool) (x : fresh_call * prog) : nat := if f x then 1%nat else 0%nat.

Lemma count_insert f cs i x y : cs !! i = Some x -> (count f (<[i := y]> cs) + one f x = count f cs + one f y)%nat.
Proof.
  intros Hi. pose proof (take_drop_middle cs i x Hi) as Hc. rewrite (insert_take_drop cs i y) by (by eapply lookup_lt_Some).
  rewrite <- Hc at 3. rewrite !count_app. unfold count, one. cbn [List.filter]. destruct (f x), (f y); cbn [length]; lia.
Qed.

(** The ways a call can make an access: on its phase, what is left and what it counts. *)
Lemma access_cases c pr p : left_of c pr ->
  let '(p', pr') := access p pr in
  left_of c pr' /\
  ((p' = p /\ one drops (c, pr') = one drops (c, pr) /\ one swallows (c, pr') = one swallows (c, pr)) \/
   (p = FRESH_ARMED /\ p' = FRESH_PENDING /\ one drops (c, pr) = 0 /\ one drops (c, pr') = 1 /\ one swallows (c, pr) = 0 /\ one swallows (c, pr') = 0)%nat \/
   (p = FRESH_PENDING /\ p' = FRESH_REJOINING /\ one drops (c, pr) = 0 /\ one drops (c, pr') = 0 /\ one swallows (c, pr) = 0 /\ one swallows (c, pr') = 1)%nat \/
   (p' = FRESH_DONE /\ one drops (c, pr) = 0 /\ one drops (c, pr') = 0 /\ one swallows (c, pr) = 0 /\ one swallows (c, pr') = 0)%nat).
Proof.
  unfold left_of. intros [->|[->|[->|[->|[->|[-> Hc]]]]]].
  - destruct c as [[]|[]|]; cbn; repeat case_decide; subst; cbn; intuition (eauto || congruence).
  - destruct c; cbn; intuition.
  - destruct c; cbn; intuition.
  - destruct c; cbn; repeat case_decide; subst; cbn; intuition.
  - destruct c; cbn; repeat case_decide; subst; cbn; intuition.
  - destruct c; cbn; intuition.
Qed.

Lemma fresh_reach_inv s : fresh_reach s -> fresh_inv s.
Proof.
  induction 1 as [|s s' _ [Hl Hc] Hs].
  { split; [|done]. intros x Hx. by apply not_elem_of_nil in Hx. }
  destruct Hs as [p cs c|p cs i c pr Hi]; cbn [f_phase f_calls] in *.
  - split; cbn [f_phase f_calls].
    + intros x Hx. apply elem_of_app in Hx as [Hx|Hx]; [by apply Hl|]. apply list_elem_of_singleton in Hx as ->. by left.
    + rewrite !count_app. assert (count drops [(c, code c)] = 0%nat) as -> by by destruct c as [[]|[]|].
      assert (count swallows [(c, code c)] = 0%nat) as -> by by destruct c as [[]|[]|]. rewrite !Nat.add_0_r. done.
  - pose proof (access_cases c pr p (Hl (c, pr) ltac:(by eapply list_elem_of_lookup_2))) as Ha.
    destruct (access p pr) as [p' pr']. cbn [fst snd]. destruct Ha as [Hl' Ha].
    pose proof (count_insert drops cs i (c, pr) (c, pr') Hi) as Hd. pose proof (count_insert swallows cs i (c, pr) (c, pr') Hi) as Hw.
    split; cbn [f_phase f_calls].
    + intros x Hx. apply list_elem_of_lookup in Hx as [j Hj]. apply list_lookup_insert_Some in Hj as [(_ & <- & _)|(_ & Hj)]; [done|].
      apply Hl. by eapply list_elem_of_lookup_2.
    + destruct Ha as [(-> & ? & ?)|[(-> & -> & ?)|[(-> & -> & ?)|(-> & ?)]]]; [destruct p; lia|lia|lia|destruct p; lia].
Qed.

(** The first association is dropped at most once per boot: in any interleaving,
    atomic access by atomic access, of any calls from the two tasks, at most one call
    tells its caller to drop an association, at most one disconnect is swallowed, and
    one is swallowed only if an association was dropped; while a drop is pending there
    has been exactly one. *)
Theorem wifi_fresh_drop_once s :
  fresh_reach s ->
  (count drops (f_calls s) <= 1)%nat /\ (count swallows (f_calls s) <= count drops (f_calls s))%nat /\
  (espos_wifi_fresh_pending (f_phase s) = true -> count drops (f_calls s) = 1%nat).
Proof. intros Hr. destruct (fresh_reach_inv s Hr) as [_ Hc]. destruct (f_phase s); cbn; split_and!; try lia; done. Qed.

(** A drop, its echo racing with a cancel, and a second association. *)
Lemma wifi_fresh_drop_once_witness :
  exists s, fresh_reach s /\ count drops (f_calls s) = 1%nat /\ (count swallows (f_calls s) <= count drops (f_calls s))%nat.
Proof.
  set (s1 := FreshSys FRESH_ARMED [(Cancel, code Cancel)]).
  set (rest := PCas FRESH_REJOINING FRESH_DONE (fun _ => PRet false)).
  assert (H1 : fresh_reach s1) by exact (reach_step _ _ reach_boot (step_call _ [] Cancel)).
  assert (H2 : fresh_reach (FreshSys FRESH_ARMED [(Cancel, rest)])) by exact (reach_step _ _ H1 (step_access _ [(Cancel, code Cancel)] 0 Cancel _ eq_refl)).
  assert (H3 : fresh_reach (FreshSys FRESH_ARMED [(Cancel, rest); (OnConnected true, code (OnConnected true))]))
    by exact (reach_step _ _ H2 (step_call _ _ (OnConnected true))).
  assert (H4 : fresh_reach (FreshSys FRESH_PENDING [(Cancel, rest); (OnConnected true, PRet true)]))
    by exact (reach_step _ _ H3 (step_access _ [(Cancel, rest); (OnConnected true, code (OnConnected true))] 1 (OnConnected true) _ eq_refl)).
  assert (H5 : fresh_reach (FreshSys FRESH_PENDING [(Cancel, rest); (OnConnected true, PRet true); (OnDisconnected true, code (OnDisconnected true))]))
    by exact (reach_step _ _ H4 (step_call _ _ (OnDisconnected true))).
  assert (H6 : fresh_reach (FreshSys FRESH_REJOINING [(Cancel, rest); (OnConnected true, PRet true); (OnDisconnected true, PRet true)]))
    by exact (reach_step _ _ H5 (step_access _ [(Cancel, rest); (OnConnected true, PRet true); (OnDisconnected true, code (OnDisconnected true))] 2 (OnDisconnected true) _ eq_refl)).
  eexists. split; [exact H6|]. split; [reflexivity|]. exact (proj1 (proj2 (wifi_fresh_drop_once _ H6))).
Defined.

End Fresh.

(** * [wifi_last_ap.c] *)
Module LastAp.

Definition ESPOS_WIFI_LAST_AP_MAGIC : Z := 0x57494641.
Definition ESPOS_WIFI_LAST_AP_SSID_MAX : nat := 33.

(** [la_ssid] is the whole array, which need not hold a terminator. *)
Record espos_wifi_last_ap_t := LastApRec { magic : Z; la_ssid : list Z; bssid : list Z; channel : Z; check : Z }.

(** The bytes before the first NUL, at most [n]. *)
Fixpoint cut (n : nat) (l : list Z) : cstr :=
  match n, l with
  | S n', c :: l' => if c =? 0 then [] else c :: cut n' l'
  | _, _ => []
  end.

(** One turn of the hash. *)
Definition mix (h b : Z) : Z := u32 (Z.lxor h b * 16777619).

Definition espos_wifi_last_ap_check (ssid : list Z) (bssid : list Z) (channel : Z) : Z :=
  let h := Z.lxor ESPOS_WIFI_LAST_AP_MAGIC (u32 (channel * 2654435761)) in
  let h := foldl mix h (cut ESPOS_WIFI_LAST_AP_SSID_MAX ssid) in
  let h := foldl mix h (take 6 bssid) in
  u32 (h + 0x9e3779b9).

Definition espos_wifi_last_ap_usable (rec : option espos_wifi_last_ap_t) (ssid : option cstr) (attempts_left : Z)
    (operator_pinned : bool) : bool :=
  match rec, ssid with
  | Some r, Some ssid =>
      if operator_pinned then false
      else if attempts_left =? 0 then false
      else if negb (magic r =? ESPOS_WIFI_LAST_AP_MAGIC) then false
      else if negb (check r =? espos_wifi_last_ap_check (la_ssid r) (bssid r) (channel r)) then false
      else if (channel r =? 0) || (channel r >? 177) then false
      else bool_decide (cut ESPOS_WIFI_LAST_AP_SSID_MAX (la_ssid r) = cut ESPOS_WIFI_LAST_AP_SSID_MAX ssid)
  | _, _ => false
  end.

(** The record after a store with no null argument. *)
Definition espos_wifi_last_ap_store (ssid : cstr) (bssid : list Z) (channel : Z) : espos_wifi_last_ap_t :=
  let s := take (pred ESPOS_WIFI_LAST_AP_SSID_MAX) ssid in
  let arr := s ++ replicate (ESPOS_WIFI_LAST_AP_SSID_MAX - length s) 0 in
  let b := take 6 bssid in
  LastApRec ESPOS_WIFI_LAST_AP_MAGIC arr b channel (espos_wifi_last_ap_check arr b channel).

Lemma cut_plain n (l rest : list Z) : Forall (fun c => c <> 0) l -> (length l <= n)%nat -> cut n (l ++ 0 :: rest) = l.
Proof.
  intros Hl. revert n. induction Hl as [|c l Hc _ IH]; intros n Hn; destruct n as [|n]; cbn in *; try done; try lia.
  destruct (Z.eqb_spec c 0); [done|]. f_equal. apply IH. lia.
Qed.

Lemma cut_end n (l : list Z) : Forall (fun c => c <> 0) l -> cut n l = take n l.
Proof.
  intros Hl. revert n. induction Hl as [|c l Hc _ IH]; intros n; destruct n as [|n]; cbn; try done.
  destruct (Z.eqb_spec c 0); [done|]. by f_equal.
Qed.

(** A remembered access point skips the scan for its own network and for no other:
    an SSID has at most 32 bytes. *)
Lemma last_ap_own_network ssid ssid' bssid ch n :
  Forall (fun c => c <> 0) ssid -> Forall (fun c => c <> 0) ssid' -> (length ssid <= 32)%nat -> (length ssid' <= 32)%nat ->
  0 < ch <= 177 -> 0 < n ->
  espos_wifi_last_ap_usable (Some (espos_wifi_last_ap_store ssid bssid ch)) (Some ssid') n false = bool_decide (ssid = ssid').
Proof.
  intros H1 H2 L1 L2 Hc Hn. unfold espos_wifi_last_ap_usable, espos_wifi_last_ap_store. cbn -[espos_wifi_last_ap_check cut Nat.sub take].
  destruct (Z.eqb_spec n 0); [lia|]. rewrite Z.eqb_refl. cbn [negb].
  destruct (Z.eqb_spec ch 0); [lia|]. rewrite Z.gtb_ltb. destruct (Z.ltb_spec 177 ch); [lia|]. cbn [orb].
  rewrite (take_ge ssid) by (cbn; lia). unfold ESPOS_WIFI_LAST_AP_SSID_MAX.
  replace (33 - length ssid)%nat with (S (32 - length ssid)) by lia. cbn [replicate].
  rewrite cut_plain by (done || lia). rewrite cut_end, take_ge by (done || lia). done.
Qed.

End LastAp.

(** * [wifi_stall.c] *)
Module Stall.

Record espos_wifi_stall_in_t := StallIn {
  sta_enabled : bool; has_networks : bool; associated : bool; other_net_up : bool; portal_clients : Z; suppressed : bool
}.

(** The trying of the code. *)
Definition trying (i : espos_wifi_stall_in_t) : bool :=
  sta_enabled i && has_networks i && negb (associated i) && negb (other_net_up i) && (portal_clients i <=? 0) && negb (suppressed i).

(** The verdict and [since_ms] afterwards. *)
Definition espos_wifi_stall_update (since_ms : Z) (i : espos_wifi_stall_in_t) (now_ms stall_ms : Z) : bool * Z :=
  if negb (trying i) || (stall_ms =? 0) then (false, 0)
  else if since_ms =? 0 then (false, if now_ms =? 0 then 1 else now_ms)
  else (u32 (now_ms - since_ms) >=? stall_ms, since_ms).

Definition espos_wifi_stall_reset (since_ms : Z) : Z := 0.

(** The tracker after a history of observations with their true times, oldest first;
    the code sees a time modulo 2^32. *)
Definition tracked (stall_ms : Z) (hist : list (espos_wifi_stall_in_t * Z)) : Z :=
  foldl (fun since x => (espos_wifi_stall_update since x.1 (u32 x.2) stall_ms).2) (espos_wifi_stall_reset 0) hist.

(** When the unbroken run of trying began, if the last observation is in one. *)
Definition start_of (hist : list (espos_wifi_stall_in_t * Z)) : option Z :=
  foldl (fun start x => if trying x.1 then Some (default x.2 start) else None) None hist.

(** The stamp of a start: the clock, but 1 for 0, which means "not trying". *)
Definition stamp (t : Z) : Z := if u32 t =? 0 then 1 else u32 t.

Lemma tracked_start stall_ms hist : 0 < stall_ms -> tracked stall_ms hist = match start_of hist with Some t => stamp t | None => 0 end.
Proof.
  intros Hs. unfold tracked, start_of. induction hist as [|[i T] hist IH] using rev_ind; [done|].
  rewrite !foldl_app. cbn [foldl fst snd]. rewrite IH. clear IH. unfold espos_wifi_stall_update.
  destruct (Z.eqb_spec stall_ms 0); [lia|]. rewrite orb_false_r. destruct (trying i); cbn [negb snd]; [|done].
  destruct (foldl _ None hist) as [t|]; cbn [default from_option snd].
  - unfold stamp. destruct (Z.eqb_spec (u32 t) 0) as [E|E]; cbn; [by rewrite E|]. by destruct (Z.eqb_spec (u32 t) 0).
  - done.
Qed.

(** The stall alarm is exact: at an observation, it is raised if and only if the
    station is trying now, has been trying in every observation since some start, and
    the configured time has passed since that start (one millisecond more if the clock
    happened to read 0 then); with one exception, which is a false alarm: two
    observations at the same millisecond in which the 32-bit clock reads 0. *)
Theorem wifi_stall_exact stall_ms hist i T :
  0 < stall_ms < 2 ^ 32 -> (forall t, start_of hist = Some t -> 0 <= T - t < 2 ^ 32 - 1) ->
  (espos_wifi_stall_update (tracked stall_ms hist) i (u32 T) stall_ms).1 = true <->
  trying i = true /\ exists t, start_of hist = Some t /\
    (stall_ms <= T - t - (if u32 t =? 0 then 1 else 0) \/ (T = t /\ u32 t = 0)).
Proof.
  intros Hs Hb. rewrite tracked_start by lia. unfold espos_wifi_stall_update. destruct (Z.eqb_spec stall_ms 0); [lia|]. rewrite orb_false_r.
  destruct (trying i); cbn [negb]; [|by intuition]. destruct (start_of hist) as [t|]; cbn [fst]; [|naive_solver].
  specialize (Hb t eq_refl). unfold stamp.
  destruct (Z.eqb_spec (u32 t) 0) as [E|E]; cbn [Z.eqb]; [|destruct (Z.eqb_spec (u32 t) 0); [done|]]; cbn [fst]; rewrite Z.geb_leb, Z.leb_le.
  - assert (Hu : u32 (u32 T - 1) = if decide (T = t) then 2 ^ 32 - 1 else T - t - 1) by (case_decide; unfold u32 in *; div_lia).
    rewrite Hu. split.
    + intros H. split; [done|]. exists t. split; [done|]. rewrite E. cbn [Z.eqb]. case_decide; [by right|left; lia].
    + intros (_ & t' & [= <-] & [H|[H _]]); rewrite ?E in H; cbn [Z.eqb] in H; case_decide; lia.
  - assert (Hu : u32 (u32 T - u32 t) = T - t) by (unfold u32 in *; div_lia). rewrite Hu. split.
    + intros H. split; [done|]. exists t. split; [done|]. left. destruct (Z.eqb_spec (u32 t) 0); [done|lia].
    + intros (_ & t' & [= <-] & [H|[_ H]]); [|done]. destruct (Z.eqb_spec (u32 t) 0); [done|lia].
Qed.

(** Ten minutes of trying from 100 ms before the clock wraps; and the false alarm. *)
Lemma wifi_stall_exact_witness :
  let i := StallIn true true false false 0 false in
  (espos_wifi_stall_update (tracked 600000 [(i, 2 ^ 32 - 100); (i, 2 ^ 32 + 300000)]) i (u32 (2 ^ 32 + 599900)) 600000).1 = true /\
  (espos_wifi_stall_update (tracked 600000 [(i, 2 ^ 32)]) i (u32 (2 ^ 32)) 600000).1 = true.
Proof.
  cbv zeta. split.
  - apply (proj2 (wifi_stall_exact 600000 [(StallIn true true false false 0 false, 2 ^ 32 - 100); (StallIn true true false false 0 false, 2 ^ 32 + 300000)]
      (StallIn true true false false 0 false) (2 ^ 32 + 599900) ltac:(lia) ltac:(intros t [= <-]; cbn; lia))).
    split; [reflexivity|]. exists (2 ^ 32 - 100). split; [reflexivity|]. left. vm_compute. discriminate.
  - apply (proj2 (wifi_stall_exact 600000 [(StallIn true true false false 0 false, 2 ^ 32)]
      (StallIn true true false false 0 false) (2 ^ 32) ltac:(lia) ltac:(intros t [= <-]; cbn; lia))).
    split; [reflexivity|]. exists (2 ^ 32). split; [reflexivity|]. right. split; reflexivity.
Defined.

End Stall.
