(* ===== verification/ConfigDesc.v ===== *)
(** The descriptor tables of the configuration store and what they say about
    values: the types of espos_config_desc.h and espos_config_priv.h, the
    validation of a value against its key, and the representation of the values
    in storage (the byte images the store passes to its backend).

    A [float] is its IEEE-754 bit pattern, a [Z] in [0 .. 2^32): that is how the
    store keeps it, and comparison and the tests for NaN and infinity are
    defined on the pattern. The presentation fields of a descriptor (unit,
    display) are not modelled: the store never reads them. *)
From Stdlib Require Import ZArith Lia String.
From stdpp Require Import base list numbers.
From S2P Require Import Prelude.
Open Scope Z_scope.

(** * Error codes (esp_err.h) *)

Inductive esp_err_t :=
  | ESP_OK | ESP_FAIL | ESP_ERR_NO_MEM | ESP_ERR_INVALID_ARG | ESP_ERR_INVALID_STATE
  | ESP_ERR_INVALID_SIZE | ESP_ERR_NOT_FOUND | ESP_ERR_NOT_SUPPORTED
  | ESP_ERR_OTHER (code : Z).

#[export] Instance esp_err_eq_dec : EqDecision esp_err_t.
Proof. solve_decision. Defined.

Definition is_ok (e : esp_err_t) : bool := bool_decide (e = ESP_OK).

(** * Descriptors *)

(** The enumeration, with the values a C object of that type can hold beyond it. *)
Inductive espos_cfg_type_t :=
  | ESPOS_CFG_TYPE_BOOL | ESPOS_CFG_TYPE_INT | ESPOS_CFG_TYPE_FLOAT
  | ESPOS_CFG_TYPE_STRING | ESPOS_CFG_TYPE_BLOB
  | TYPE_OTHER (v : Z).

#[export] Instance cfg_type_eq_dec : EqDecision espos_cfg_type_t.
Proof. solve_decision. Defined.

Definition ESPOS_CFG_FLAG_SECRET : Z := Z.shiftl 1 0.
Definition ESPOS_CFG_FLAG_RESTART_REQUIRED : Z := Z.shiftl 1 1.
Definition ESPOS_CFG_FLAG_READ_ONLY : Z := Z.shiftl 1 2.

(** [kd->flags & f] *)
Definition has_flag (flags f : Z) : bool := negb (Z.land flags f =? 0).

(** The union of a default or a bound: a descriptor fills the member of its
    key's type, and only that one is read. *)
Record espos_cfg_scalar_t := Scalar {
  sc_b : bool; sc_i : Z; sc_f : Z; sc_s : option cstr }.

Record espos_cfg_key_t := Key {
  k_name : option cstr;
  k_type : espos_cfg_type_t;
  k_flags : Z;
  k_def : espos_cfg_scalar_t;
  k_min : espos_cfg_scalar_t;
  k_max : espos_cfg_scalar_t;
  k_has_min : bool;
  k_has_max : bool;
  k_max_len : nat;
  k_enum_values : option (list cstr) }.

(** [ns_keys = None] is a null key array. *)
Record espos_cfg_ns_t := Ns {
  ns_name : option cstr;
  ns_title : option cstr;
  ns_version : Z;
  ns_keys : option (list espos_cfg_key_t) }.

(** The strings of a descriptor that passed the generator or the registration
    are not null. *)
Definition str_of (o : option cstr) : cstr := default [] o.
Definition key_name (k : espos_cfg_key_t) : cstr := str_of (k_name k).
Definition desc_name (d : espos_cfg_ns_t) : cstr := str_of (ns_name d).
Definition desc_keys (d : espos_cfg_ns_t) : list espos_cfg_key_t := default [] (ns_keys d).

Definition ESPOS_CFG_RUNTIME_NS_PREFIX : cstr := lit "f_".
Definition ESPOS_CFG_RUNTIME_ID_MAX : nat := 12.
Definition ESPOS_CFG_NS_NAME_MAX : nat := 15.
Definition ESPOS_CFG_VERSION_KEY : cstr := lit "config_version".

(** * Floats by bit pattern *)

Definition f_exp (f : Z) : Z := Z.land (Z.shiftr f 23) 255.
Definition f_frac (f : Z) : Z := Z.land f (2 ^ 23 - 1).
Definition isnan (f : Z) : bool := (f_exp f =? 255) && negb (f_frac f =? 0).
Definition isinf (f : Z) : bool := (f_exp f =? 255) && (f_frac f =? 0).

(** Sign and magnitude as a signed number: it orders the patterns that are not
    NaN as the floats, and gives both zeros the same value. *)
Definition f_ord (f : Z) : Z := if f <? 2 ^ 31 then f else - (f - 2 ^ 31).
Definition flt_lt (a b : Z) : bool := negb (isnan a) && negb (isnan b) && (f_ord a <? f_ord b).
Definition flt_eq (a b : Z) : bool := negb (isnan a) && negb (isnan b) && (f_ord a =? f_ord b).

(** * Values *)

(** [v.blob.p] is [None] when null; otherwise the bytes it points at, of which
    the first [len] are the value. *)
Inductive espos_cfg_value_t :=
  | VBool (b : bool)
  | VInt (i : Z)
  | VFloat (f : Z)
  | VStr (s : option cstr)
  | VBlob (p : option (list Z)) (len : nat)
  | VOther (t : Z).

Definition v_type (v : espos_cfg_value_t) : espos_cfg_type_t :=
  match v with
  | VBool _ => ESPOS_CFG_TYPE_BOOL | VInt _ => ESPOS_CFG_TYPE_INT
  | VFloat _ => ESPOS_CFG_TYPE_FLOAT | VStr _ => ESPOS_CFG_TYPE_STRING
  | VBlob _ _ => ESPOS_CFG_TYPE_BLOB | VOther t => TYPE_OTHER t
  end.

(** Why a value is refused: the texts of the [FAIL]s. *)
Inductive reason :=
  | RExpected (t : espos_cfg_type_t) | ROutOfRange | RNotFinite | RBelowMin | RAboveMax
  | RExpectedString | RTooLong | RNotAllowed | RExpectedBlob | RUnknownType.

Definition FAIL (r : reason) : option reason := Some r.

(** [None] is the code's [true]. *)
Definition espos_config_validate (key : espos_cfg_key_t) (val : espos_cfg_value_t) : option reason :=
  if negb (bool_decide (v_type val = k_type key)) then FAIL (RExpected (k_type key)) else
  match val with
  | VBool _ => None
  | VInt i =>
      if (i <? sc_i (k_min key)) || (sc_i (k_max key) <? i) then FAIL ROutOfRange else None
  | VFloat f =>
      if isnan f || isinf f then FAIL RNotFinite else
      if k_has_min key && flt_lt f (sc_f (k_min key)) then FAIL RBelowMin else
      if k_has_max key && flt_lt (sc_f (k_max key)) f then FAIL RAboveMax else None
  | VStr None => FAIL RExpectedString
  | VStr (Some s) =>
      if (k_max_len key <? length s)%nat then FAIL RTooLong else
      match k_enum_values key with
      | Some vs => if existsb (fun e => streq e s) vs then None else FAIL RNotAllowed
      | None => None
      end
  | VBlob p len =>
      if (k_max_len key <? len)%nat then FAIL RTooLong else
      if negb (len =? 0)%nat && bool_decide (p = None) then FAIL RExpectedBlob else None
  | VOther _ => FAIL RUnknownType
  end.

Definition valid (key : espos_cfg_key_t) (val : espos_cfg_value_t) : bool :=
  bool_decide (espos_config_validate key val = None).

#[export] Instance reason_eq_dec : EqDecision reason.
Proof. solve_decision. Defined.

(** * Bytes in memory *)

(** The four bytes of a 32-bit integer, little endian, and back. *)
Definition bytes32 (x : Z) : list Z :=
  [x mod 256; x / 2 ^ 8 mod 256; x / 2 ^ 16 mod 256; x / 2 ^ 24 mod 256].
Definition get32 (b : list Z) : Z :=
  nth 0 b 0 + 2 ^ 8 * nth 1 b 0 + 2 ^ 16 * nth 2 b 0 + 2 ^ 24 * nth 3 b 0.

(** [memcpy(buf, data, ...)] onto the start of a buffer. *)
Definition overlay (buf data : list Z) : list Z := data ++ drop (length data) buf.

(** The C string at the start of a buffer. *)
Fixpoint c_string (buf : list Z) : cstr :=
  match buf with
  | [] => []
  | c :: b => if c =? 0 then [] else c :: c_string b
  end.

(** A string as it lies in memory: its bytes are not NUL and are bytes. *)
Definition wf_str (s : cstr) : Prop := Forall (fun c => 0 < c < 256) s.
Definition wf_bytes (b : list Z) : Prop := Forall (fun c => 0 <= c < 256) b.

(** * Lemmas *)

Lemma get32_bytes32 x : 0 <= x < 2 ^ 32 -> get32 (bytes32 x) = x.
Proof. intros H. unfold get32, bytes32. cbn [nth]. div_lia. Qed.

Lemma i32_u32_bytes x : - 2 ^ 31 <= x < 2 ^ 31 -> i32 (get32 (bytes32 (u32 x))) = x.
Proof.
  intros H. rewrite get32_bytes32; [|apply Z.mod_pos_bound; lia]. unfold i32, u32. div_lia.
Qed.

Lemma c_string_app s b : wf_str s -> c_string (s ++ 0 :: b) = s.
Proof.
  induction 1 as [|c s Hc Hs IH]; [done|]. cbn [app c_string]. destruct (Z.eqb_spec c 0); [lia|]. by rewrite IH.
Qed.

Lemma c_string_wf b : wf_bytes b -> wf_str (c_string b).
Proof.
  induction 1 as [|c b Hc Hb IH]; [constructor|]. cbn [c_string]. destruct (Z.eqb_spec c 0); [constructor|].
  constructor; [lia|done].
Qed.

Lemma c_string_insert n b : (n < length b)%nat -> (length (c_string (<[n := 0%Z]> b)) <= n)%nat.
Proof.
  revert n. induction b as [|c b IH]; intros n Hn; [cbn in Hn; lia|]. destruct n as [|n]; [cbn; lia|].
  change (<[S n := 0]> (c :: b)) with (c :: <[n := 0]> b). cbn [c_string].
  destruct (c =? 0); cbn [length] in *; [lia|]. specialize (IH n ltac:(lia)). lia.
Qed.

Lemma length_overlay buf data : (length data <= length buf)%nat -> length (overlay buf data) = length buf.
Proof. intros H. unfold overlay. rewrite length_app, length_drop. lia. Qed.

Lemma wf_str_bytes s : wf_str s -> wf_bytes s.
Proof. apply Forall_impl. lia. Qed.

Lemma is_ok_true e : is_ok e = true <-> e = ESP_OK.
Proof. unfold is_ok. by rewrite bool_decide_eq_true. Qed.

Lemma is_ok_false e : is_ok e = false <-> e <> ESP_OK.
Proof. unfold is_ok. by rewrite bool_decide_eq_false. Qed.

Lemma valid_none key val : valid key val = true <-> espos_config_validate key val = None.
Proof. unfold valid. by rewrite bool_decide_eq_true. Qed.

(** A validated value has the type of its key. *)
Lemma validate_type key val : espos_config_validate key val = None -> v_type val = k_type key.
Proof. unfold espos_config_validate. destruct (bool_decide_reflect (v_type val = k_type key)); done. Qed.

(** The value a valid string value carries. *)
Lemma validate_str key s : espos_config_validate key (VStr s) = None ->
  exists t, s = Some t /\ (length t <= k_max_len key)%nat.
Proof.
  unfold espos_config_validate. cbn [v_type]. case_bool_decide; [|done]. cbn [negb].
  destruct s as [t|]; [|done]. destruct (Nat.ltb_spec (k_max_len key) (length t)); [done|].
  intros _. exists t. split; [done|lia].
Qed.

Lemma validate_blob key p n : espos_config_validate key (VBlob p n) = None ->
  (n <= k_max_len key)%nat /\ (n <> 0%nat -> p <> None).
Proof.
  unfold espos_config_validate. cbn [v_type]. case_bool_decide; [|done]. cbn [negb].
  destruct (Nat.ltb_spec (k_max_len key) n); [done|]. destruct (Nat.eqb_spec n 0); [done|].
  case_bool_decide; done.
Qed.

Lemma flt_eq_refl f : isnan f = false -> flt_eq f f = true.
Proof. intros H. unfold flt_eq. by rewrite H, Z.eqb_refl. Qed.
