(* ===== verification/ConfigStore.v ===== *)
(** The configuration store (espos_config.c): descriptor lookup, effective
    values, validated writes, change notification, schema versions and
    migrations, life cycle, runtime namespaces and the batch plan, over the
    backend interface of espos_config_backend.h.

    The file-level struct is [cfg]; a function of the file is a computation of
    the machine of the prelude, whose world holds what is behind the backend,
    the allocator and the migration callbacks, and whose trace records the
    backend calls, the lock, the callbacks and the alarms. A pointer to a
    descriptor is an [nsref] and a pointer to an [ns_state_t] a [slot_ref].
    A subscriber called by [notify] is an event of the trace: what it does with
    the store are the calls that come after, since the code calls it last and
    without the lock. Log output is left out. *)
From Stdlib Require Import ZArith Lia String.
From stdpp Require Import base list numbers.
From S2P Require Import Prelude ConfigDesc.
Open Scope Z_scope.

Definition CONFIG_ESPOS_CONFIG_MAX_MIGRATIONS : nat := 16.
Definition CONFIG_ESPOS_CONFIG_MAX_SUBSCRIBERS : nat := 8.
Definition CONFIG_ESPOS_CONFIG_MAX_RUNTIME_NS : nat := 32.

(** * The backend interface *)

(** A handle is a pointer, 0 when null. [be_get h key type buf len] returns the
    error, the bytes written at the start of the buffer and the length out;
    [buf] says whether there is a buffer. *)
Record espos_config_backend_t (W : Type) := Backend {
  be_init : W -> (esp_err_t * bool) * W;
  be_open : cstr -> W -> (esp_err_t * Z) * W;
  be_close : Z -> W -> unit * W;
  be_get : Z -> cstr -> espos_cfg_type_t -> bool -> nat -> W -> (esp_err_t * list Z * nat) * W;
  be_set : Z -> cstr -> espos_cfg_type_t -> list Z -> nat -> W -> esp_err_t * W;
  be_erase_key : Z -> cstr -> W -> esp_err_t * W;
  be_erase_all : Z -> W -> esp_err_t * W;
  be_commit : Z -> W -> esp_err_t * W;
  be_erase_storage : W -> esp_err_t * W }.
Arguments be_init {W} _ _.
Arguments be_open {W} _ _ _.
Arguments be_close {W} _ _ _.
Arguments be_get {W} _ _ _ _ _ _ _.
Arguments be_set {W} _ _ _ _ _ _ _.
Arguments be_erase_key {W} _ _ _ _.
Arguments be_erase_all {W} _ _ _.
Arguments be_commit {W} _ _ _.
Arguments be_erase_storage {W} _ _.

(** * State *)

(** A descriptor pointer: into the generated table, or to a descriptor at some
    other address. *)
Inductive nsref := Static (i : nat) | Runtime (addr : Z).

#[export] Instance nsref_eq_dec : EqDecision nsref.
Proof. solve_decision. Defined.

Record ns_state_t := NsState { st_desc : option nsref; st_h : Z }.
#[export] Instance eta_ns_state : Eta ns_state_t := fun r => NsState (st_desc r) (st_h r).

Inductive slot_ref := SNs (i : nat) | SRt (i : nat).

#[export] Instance slot_ref_eq_dec : EqDecision slot_ref.
Proof. solve_decision. Defined.

Record migration_t := Migration { mg_ns : cstr; mg_from : Z; mg_fn : Z; mg_arg : Z }.

Record subscriber_t := Subscriber { sub_cb : Z; sub_arg : Z }.

(** What a migration callback gets: the open handle of its namespace and the
    version it starts from. *)
Record espos_config_migrate_ctx := MigrateCtx { ctx_h : Z; ctx_from : Z }.

(** [c_ns] is empty while the pointer is null; [c_lock] says whether the mutex
    exists. The backend and its context do not change while the store is up and
    are the parameter [be] below. *)
Record cfg := Cfg {
  c_ns : list ns_state_t;
  c_ns_count : nat;
  c_lock : bool;
  c_inited : bool;
  c_storage_reset : bool;
  c_migrations : list migration_t;
  c_subs : list subscriber_t;
  c_rt : list ns_state_t;
  c_generation : Z }.
#[export] Instance eta_cfg : Eta cfg := fun r =>
  Cfg (c_ns r) (c_ns_count r) (c_lock r) (c_inited r) (c_storage_reset r) (c_migrations r)
      (c_subs r) (c_rt r) (c_generation r).

(** The zero-initialised struct. *)
Definition cfg_zero : cfg :=
  Cfg [] 0 false false false []
    (replicate CONFIG_ESPOS_CONFIG_MAX_SUBSCRIBERS (Subscriber 0 0))
    (replicate CONFIG_ESPOS_CONFIG_MAX_RUNTIME_NS (NsState None 0)) 0.

(** * Trace *)

(** The messages of [flow_config_alarm]. *)
Inductive alarm :=
  | ABadNsName | ANoKeys | AKeyName (i : nat) | AReserved (k : cstr) | AUnknownType (k : cstr)
  | AMaxLen (k : cstr) | ANeedsDefault (k : cstr) | ADupKey (k : cstr)
  | ABuiltIn (ns : cstr) | ARegistered (ns : cstr) | ANoSlot (ns : cstr) | ACannotOpen (ns : cstr) (e : esp_err_t).

Inductive obs :=
  | OLock | OUnlock
  | OInit (e : esp_err_t) | OOpen (ns : cstr) (e : esp_err_t) | OClose (h : Z)
  | OGet (h : Z) (key : cstr) (e : esp_err_t)
  | OSet (h : Z) (key : cstr) (e : esp_err_t)
  | OErase (h : Z) (key : cstr) (e : esp_err_t)
  | OCommit (h : Z) (e : esp_err_t)
  | OEraseStorage (e : esp_err_t)
  | OMigrate (ns : cstr) (from : Z) (e : esp_err_t)
  | ONotify (cb arg : Z) (ns key : cstr)
  | OAlarm (a : alarm).

(** What is behind the other calls of the file: the allocator, whose memory
    comes with arbitrary contents, the creation of the mutex, and the migration
    callbacks. *)
Record env (W : Type) := Env {
  e_malloc : nat -> W -> bool * W;
  e_junk : W -> nat -> Z;
  e_mutex : W -> bool * W;
  e_migrate : Z -> espos_config_migrate_ctx -> Z -> W -> esp_err_t * W }.
Arguments e_malloc {W} _ _ _.
Arguments e_junk {W} _ _ _.
Arguments e_mutex {W} _ _.
Arguments e_migrate {W} _ _ _ _ _.

(** ** Members of the value union *)

Definition v_b (v : espos_cfg_value_t) : bool := match v with VBool b => b | _ => false end.
Definition v_i (v : espos_cfg_value_t) : Z := match v with VInt i => i | _ => 0 end.
Definition v_f (v : espos_cfg_value_t) : Z := match v with VFloat f => f | _ => 0 end.
Definition v_s (v : espos_cfg_value_t) : option cstr := match v with VStr s => s | _ => None end.
Definition v_p (v : espos_cfg_value_t) : option (list Z) := match v with VBlob p _ => p | _ => None end.
Definition v_len (v : espos_cfg_value_t) : nat := match v with VBlob _ n => n | _ => 0%nat end.

Section Store.
Context {W : Type} (be : espos_config_backend_t W) (ev : env W).

(** The generated table [espos_cfg_namespaces]. *)
Context (namespaces : list espos_cfg_ns_t).

(** The descriptors at the other addresses: borrowed, never copied, and the same
    for as long as they are registered. *)
Context (rt_desc : Z -> espos_cfg_ns_t).

#[local] Abbreviation M := (act cfg W obs).

Definition espos_cfg_namespace_count : nat := length namespaces.

Definition null_ns : espos_cfg_ns_t := Ns None None 0 None.

(** [*p] *)
Definition deref (p : nsref) : espos_cfg_ns_t :=
  match p with Static i => nth i namespaces null_ns | Runtime a => rt_desc a end.

Definition ref_name (p : nsref) : cstr := desc_name (deref p).

Definition null_state : ns_state_t := NsState None 0.

(** [*nss], and assignment through it *)
Definition slot_get (s : cfg) (r : slot_ref) : ns_state_t :=
  match r with SNs i => nth i (c_ns s) null_state | SRt i => nth i (c_rt s) null_state end.

Definition slot_set (r : slot_ref) (v : ns_state_t) (s : cfg) : cfg :=
  match r with
  | SNs i => s <| c_ns ::= <[i := v]> |>
  | SRt i => s <| c_rt ::= <[i := v]> |>
  end.

Definition nss_desc (r : slot_ref) : M (option nsref) := gets (fun s => st_desc (slot_get s r)).
Definition nss_h (r : slot_ref) : M Z := gets (fun s => st_h (slot_get s r)).
Definition assign (r : slot_ref) (v : ns_state_t) : M unit := mods (slot_set r v).

(** A loop over a sequence. *)
Fixpoint for_each {A} (l : list A) (f : A -> M unit) : M unit :=
  match l with [] => mret tt | a :: l' => f a;; for_each l' f end.

(** ** Utilities *)

Definition cfg_lock : M unit :=
  l ← gets c_lock; if l : bool then emit OLock else mret tt.

Definition cfg_unlock : M unit :=
  l ← gets c_lock; if l : bool then emit OUnlock else mret tt.

Definition ensure_lock : M esp_err_t :=
  l ← gets c_lock;
  if l : bool then mret ESP_OK else
    ok ← query (e_mutex ev);
    if ok : bool then mods (fun s => s <| c_lock := true |>);; mret ESP_OK
    else mret ESP_ERR_NO_MEM.

Fixpoint find_rt (rt : list ns_state_t) (ns : cstr) : option nsref :=
  match rt with
  | [] => None
  | NsState (Some d) _ :: rt' => if streq (ref_name d) ns then Some d else find_rt rt' ns
  | NsState None _ :: rt' => find_rt rt' ns
  end.

Definition find_runtime_ns (ns : cstr) : M (option nsref) := gets (fun s => find_rt (c_rt s) ns).

(** The index of the generated descriptor of that name. *)
Fixpoint find_static_from (i : nat) (l : list espos_cfg_ns_t) (ns : cstr) : option nat :=
  match l with
  | [] => None
  | d :: l' => if streq (desc_name d) ns then Some i else find_static_from (S i) l' ns
  end.
Definition find_static (ns : cstr) : option nat := find_static_from 0 namespaces ns.

Definition espos_config_find_ns (ns : option cstr) : M (option nsref) :=
  match ns with
  | None => mret None
  | Some n =>
      match find_static n with
      | Some i => mret (Some (Static i))
      | None => cfg_lock;; rt ← find_runtime_ns n; cfg_unlock;; mret rt
      end
  end.

Fixpoint nth_used (rt : list ns_state_t) (want : nat) : option nsref :=
  match rt with
  | [] => None
  | NsState (Some d) _ :: rt' => match want with O => Some d | S w => nth_used rt' w end
  | NsState None _ :: rt' => nth_used rt' want
  end.

Definition ns_at (i : nat) : M (option nsref) :=
  if (i <? espos_cfg_namespace_count)%nat then mret (Some (Static i)) else
    gets (fun s => nth_used (c_rt s) (i - espos_cfg_namespace_count)).

Fixpoint count_used (rt : list ns_state_t) : nat :=
  match rt with
  | [] => 0
  | NsState (Some _) _ :: rt' => S (count_used rt')
  | NsState None _ :: rt' => count_used rt'
  end.

Definition espos_config_ns_total_locked : M nat :=
  gets (fun s => (espos_cfg_namespace_count + count_used (c_rt s))%nat).

Definition espos_config_ns_at (i : nat) : M (option nsref) :=
  cfg_lock;; nd ← ns_at i; cfg_unlock;; mret nd.

Definition espos_config_ns_total : M nat :=
  cfg_lock;; n ← espos_config_ns_total_locked; cfg_unlock;; mret n.

Definition espos_config_runtime_ns_count : M nat :=
  cfg_lock;; n ← gets (fun s => count_used (c_rt s)); cfg_unlock;; mret n.

Fixpoint find_key_in (ks : list espos_cfg_key_t) (key : cstr) : option espos_cfg_key_t :=
  match ks with
  | [] => None
  | k :: ks' => if streq (key_name k) key then Some k else find_key_in ks' key
  end.

Definition espos_config_find_key (ns : option nsref) (key : option cstr) : option espos_cfg_key_t :=
  match ns, key with
  | Some p, Some n => find_key_in (desc_keys (deref p)) n
  | _, _ => None
  end.

Fixpoint find_slot (i : nat) (rt : list ns_state_t) (desc : nsref) : option slot_ref :=
  match rt with
  | [] => None
  | NsState (Some d) _ :: rt' => if bool_decide (d = desc) then Some (SRt i) else find_slot (S i) rt' desc
  | NsState None _ :: rt' => find_slot (S i) rt' desc
  end.

Definition slot_for (s : cfg) (desc : nsref) : option slot_ref :=
  match desc with
  | Static i => if (i <? espos_cfg_namespace_count)%nat then Some (SNs i) else find_slot 0 (c_rt s) desc
  | Runtime _ => find_slot 0 (c_rt s) desc
  end.
Definition ns_state_for (desc : nsref) : M (option slot_ref) := gets (fun s => slot_for s desc).

Definition lookup (ns key : option cstr) : M (esp_err_t + slot_ref * espos_cfg_key_t) :=
  nd ← espos_config_find_ns ns;
  match nd with
  | None => mret (inl ESP_ERR_NOT_FOUND)
  | Some d =>
      match espos_config_find_key nd key with
      | None => mret (inl ESP_ERR_NOT_FOUND)
      | Some k =>
          st ← ns_state_for d;
          match st with
          | None => mret (inl ESP_ERR_NOT_FOUND)
          | Some r => mret (inr (r, k))
          end
      end
  end.

(** ** Backend calls *)

Definition get (h : Z) (key : cstr) (t : espos_cfg_type_t) (len : nat) : M (esp_err_t * list Z * nat) :=
  call (be_get be h key t true len) (fun r => OGet h key r.1.1).
Definition set (h : Z) (key : cstr) (t : espos_cfg_type_t) (buf : list Z) (len : nat) : M esp_err_t :=
  call (be_set be h key t buf len) (OSet h key).
Definition erase_key (h : Z) (key : cstr) : M esp_err_t := call (be_erase_key be h key) (OErase h key).
Definition commit (h : Z) : M esp_err_t := call (be_commit be h) (OCommit h).
Definition open_ (ns : cstr) : M (esp_err_t * Z) := call (be_open be ns) (fun r => OOpen ns r.1).
Definition close_ (h : Z) : M unit := call (be_close be h) (fun _ => OClose h).

(** [malloc(n)]: the block, with whatever it holds. *)
Definition malloc (n : nat) : M (option (list Z)) :=
  query (fun w => let '(ok, w') := e_malloc ev n w in
                  (if ok : bool then Some (map (e_junk ev w') (seq 0 n)) else None, w')).

Definition dec_bool (data : list Z) : Z := nth 0 (overlay [0] data) 0.
Definition dec_i32 (data : list Z) : Z := i32 (get32 (overlay [0; 0; 0; 0] data)).
Definition dec_f32 (data : list Z) : Z := get32 (overlay [0; 0; 0; 0] data).

(** [strncpy(dst, src, n + 1); dst[n] = 0] *)
Definition cut_str (n : nat) (s : cstr) : cstr := take n s.

(** ** Effective values

    [sbuf] and [bbuf] are the caller's buffers, [max_len + 1] and [max_len]
    bytes; the string read is in the result. *)
Definition espos_config_read_effective (nd : nsref) (key : espos_cfg_key_t) (sbuf bbuf : list Z)
  : M (esp_err_t * espos_cfg_value_t * bool) :=
  nss ← ns_state_for nd;
  match nss with
  | None => mret (ESP_ERR_INVALID_STATE, VOther 0, false)
  | Some r =>
      h ← nss_h r;
      if h =? 0 then mret (ESP_ERR_INVALID_STATE, VOther 0, false) else
      match k_type key with
      | ESPOS_CFG_TYPE_BOOL =>
          '(err, data, _) ← get h (key_name key) (k_type key) 1;
          let u := dec_bool data in
          if is_ok err && (u <=? 1) then mret (ESP_OK, VBool (negb (u =? 0)), true)
          else mret (ESP_OK, VBool (sc_b (k_def key)), false)
      | ESPOS_CFG_TYPE_INT =>
          '(err, data, _) ← get h (key_name key) (k_type key) 4;
          let i := dec_i32 data in
          if is_ok err && (sc_i (k_min key) <=? i) && (i <=? sc_i (k_max key))
          then mret (ESP_OK, VInt i, true)
          else mret (ESP_OK, VInt (sc_i (k_def key)), false)
      | ESPOS_CFG_TYPE_FLOAT =>
          '(err, data, _) ← get h (key_name key) (k_type key) 4;
          let f := dec_f32 data in
          if is_ok err && valid key (VFloat f) then mret (ESP_OK, VFloat f, true)
          else mret (ESP_OK, VFloat (sc_f (k_def key)), false)
      | ESPOS_CFG_TYPE_STRING =>
          '(err, data, _) ← get h (key_name key) (k_type key) (k_max_len key + 1);
          let s := c_string (<[k_max_len key := 0]> (overlay sbuf data)) in
          if is_ok err && valid key (VStr (Some s)) then mret (ESP_OK, VStr (Some s), true)
          else mret (ESP_OK, VStr (Some (cut_str (k_max_len key) (str_of (sc_s (k_def key))))), false)
      | ESPOS_CFG_TYPE_BLOB =>
          '(err, data, len) ← get h (key_name key) (k_type key) (k_max_len key);
          if is_ok err && (len <=? k_max_len key)%nat
          then mret (ESP_OK, VBlob (Some (overlay bbuf data)) len, true)
          else mret (ESP_OK, VBlob (Some (overlay bbuf data)) 0, false)
      | TYPE_OTHER _ => mret (ESP_ERR_INVALID_STATE, VOther 0, false)
      end
  end.

(** The buffers of a caller that allocates what the key's type needs:
    [None] when the allocation fails. *)
Definition alloc_buffers (key : espos_cfg_key_t) : M (option (list Z * list Z)) :=
  match k_type key with
  | ESPOS_CFG_TYPE_STRING =>
      b ← malloc (k_max_len key + 1); mret (option_map (fun sbuf => (sbuf, [])) b)
  | ESPOS_CFG_TYPE_BLOB =>
      b ← malloc (if (k_max_len key =? 0)%nat then 1 else k_max_len key);
      mret (option_map (fun bbuf => ([], bbuf)) b)
  | _ => mret (Some ([], []))
  end.

(** [memcmp(a, b, n) == 0] *)
Definition memeq (n : nat) (a b : list Z) : bool := bool_decide (take n a = take n b).

(** The comparison of [value_equals_effective]. *)
Definition value_eqb (t : espos_cfg_type_t) (cur val : espos_cfg_value_t) : bool :=
  match t with
  | ESPOS_CFG_TYPE_BOOL => Bool.eqb (v_b cur) (v_b val)
  | ESPOS_CFG_TYPE_INT => v_i cur =? v_i val
  | ESPOS_CFG_TYPE_FLOAT => flt_eq (v_f cur) (v_f val)
  | ESPOS_CFG_TYPE_STRING => streq (str_of (v_s cur)) (str_of (v_s val))
  | ESPOS_CFG_TYPE_BLOB =>
      (v_len cur =? v_len val)%nat &&
      ((v_len val =? 0)%nat || memeq (v_len val) (str_of (v_p cur)) (str_of (v_p val)))
  | TYPE_OTHER _ => false
  end.

Definition value_equals_effective (nd : nsref) (key : espos_cfg_key_t) (val : espos_cfg_value_t)
  : M (esp_err_t * bool) :=
  bufs ← alloc_buffers key;
  match bufs with
  | None => mret (ESP_ERR_NO_MEM, false)
  | Some (sbuf, bbuf) =>
      '(err, cur, _) ← espos_config_read_effective nd key sbuf bbuf;
      mret (err, if is_ok err then value_eqb (k_type key) cur val else false)
  end.

(** [nss->desc] of a slot in use. *)
Definition nss_nd (r : slot_ref) : M nsref :=
  d ← nss_desc r; mret (default (Runtime 0) d).

(** Write one validated value; the result says whether the effective value
    changed. *)
Definition write_locked (nss : slot_ref) (key : espos_cfg_key_t) (val : espos_cfg_value_t)
  : M (esp_err_t * bool) :=
  nd ← nss_nd nss;
  '(err, eq) ← value_equals_effective nd key val;
  if negb (is_ok err) then mret (err, false) else
  let changed := negb eq in
  h ← nss_h nss;
  let store_and_commit (put : M esp_err_t) : M (esp_err_t * bool) :=
    err ← put;
    if negb (is_ok err) then mret (err, false) else
    err ← commit h;
    mret (err, if is_ok err then changed else false) in
  match k_type key with
  | ESPOS_CFG_TYPE_BOOL =>
      store_and_commit (set h (key_name key) (k_type key) [if v_b val then 1 else 0] 1)
  | ESPOS_CFG_TYPE_INT =>
      store_and_commit (set h (key_name key) (k_type key) (bytes32 (u32 (v_i val))) 4)
  | ESPOS_CFG_TYPE_FLOAT =>
      store_and_commit (set h (key_name key) (k_type key) (bytes32 (v_f val)) 4)
  | ESPOS_CFG_TYPE_STRING =>
      let s := str_of (v_s val) in
      store_and_commit (set h (key_name key) (k_type key) (s ++ [0]) (length s + 1))
  | ESPOS_CFG_TYPE_BLOB =>
      if (v_len val =? 0)%nat then
        store_and_commit (err ← erase_key h (key_name key);
                          mret (if bool_decide (err = ESP_ERR_NOT_FOUND) then ESP_OK else err))
      else store_and_commit (set h (key_name key) (k_type key) (str_of (v_p val)) (v_len val))
  | TYPE_OTHER _ => mret (ESP_ERR_INVALID_ARG, changed)
  end.

Definition default_value (key : espos_cfg_key_t) : espos_cfg_value_t :=
  match k_type key with
  | ESPOS_CFG_TYPE_BOOL => VBool (sc_b (k_def key))
  | ESPOS_CFG_TYPE_INT => VInt (sc_i (k_def key))
  | ESPOS_CFG_TYPE_FLOAT => VFloat (sc_f (k_def key))
  | ESPOS_CFG_TYPE_STRING => VStr (sc_s (k_def key))
  | ESPOS_CFG_TYPE_BLOB => VBlob None 0
  | TYPE_OTHER t => VOther t
  end.

Definition reset_locked (nss : slot_ref) (key : espos_cfg_key_t) : M (esp_err_t * bool) :=
  nd ← nss_nd nss;
  '(err, eq) ← value_equals_effective nd key (default_value key);
  if negb (is_ok err) then mret (err, false) else
  let changed := negb eq in
  h ← nss_h nss;
  err ← erase_key h (key_name key);
  let err := if bool_decide (err = ESP_ERR_NOT_FOUND) then ESP_OK else err in
  err ← (if is_ok err then commit h else mret err);
  mret (err, if is_ok err then changed else false).

(** ** Notification *)

Definition notify (nd : nsref) (key : espos_cfg_key_t) : M unit :=
  cfg_lock;;
  subs ← gets c_subs;
  cfg_unlock;;
  for_each subs (fun x =>
    if sub_cb x =? 0 then mret tt
    else emit (ONotify (sub_cb x) (sub_arg x) (ref_name nd) (key_name key))).

(** The first entry that satisfies [p] is replaced; [None] when there is none. *)
Fixpoint replace_first (p : subscriber_t -> bool) (v : subscriber_t) (l : list subscriber_t)
  : option (list subscriber_t) :=
  match l with
  | [] => None
  | x :: l' => if p x then Some (v :: l') else option_map (cons x) (replace_first p v l')
  end.

Definition espos_config_subscribe (cb arg : Z) : M esp_err_t :=
  inited ← gets c_inited;
  if (cb =? 0) || negb inited then mret ESP_ERR_INVALID_STATE else
  cfg_lock;;
  subs ← gets c_subs;
  err ← match replace_first (fun x => sub_cb x =? 0) (Subscriber cb arg) subs with
        | Some subs' => mods (fun s => s <| c_subs := subs' |>);; mret ESP_OK
        | None => mret ESP_ERR_NO_MEM
        end;
  cfg_unlock;; mret err.

Definition espos_config_unsubscribe (cb arg : Z) : M esp_err_t :=
  inited ← gets c_inited;
  if negb inited then mret ESP_ERR_INVALID_STATE else
  cfg_lock;;
  subs ← gets c_subs;
  err ← match replace_first (fun x => (sub_cb x =? cb) && (sub_arg x =? arg)) (Subscriber 0 0) subs with
        | Some subs' => mods (fun s => s <| c_subs := subs' |>);; mret ESP_OK
        | None => mret ESP_ERR_NOT_FOUND
        end;
  cfg_unlock;; mret err.

(** ** Migrations *)

Definition is_step (ns : cstr) (from : Z) (m : migration_t) : bool :=
  (mg_from m =? from) && streq (mg_ns m) ns.

Definition espos_config_register_migration (ns : option cstr) (from_version fn arg : Z) : M esp_err_t :=
  nd ← espos_config_find_ns ns;
  match nd with
  | None => mret ESP_ERR_INVALID_ARG
  | Some d =>
      if (fn =? 0) || (from_version =? 0) || (ns_version (deref d) <=? from_version)
      then mret ESP_ERR_INVALID_ARG else
      inited ← gets c_inited;
      if inited : bool then mret ESP_ERR_INVALID_STATE else
      ms ← gets c_migrations;
      if existsb (is_step (str_of ns) from_version) ms then mret ESP_ERR_INVALID_STATE else
      if (CONFIG_ESPOS_CONFIG_MAX_MIGRATIONS <=? length ms)%nat then mret ESP_ERR_NO_MEM else
      mods (fun s => s <| c_migrations ::= fun ms => ms ++ [Migration (ref_name d) from_version fn arg] |>);;
      mret ESP_OK
  end.

Definition find_migration (ns : cstr) (from : Z) : M (option migration_t) :=
  gets (fun s => List.find (is_step ns from) (c_migrations s)).

Definition espos_config_migrate_get (ctx : espos_config_migrate_ctx) (key : cstr) (t : espos_cfg_type_t)
  (buf : bool) (len : nat) : M (esp_err_t * list Z * nat) :=
  call (be_get be (ctx_h ctx) key t buf len) (fun r => OGet (ctx_h ctx) key r.1.1).
Definition espos_config_migrate_set (ctx : espos_config_migrate_ctx) (key : cstr) (t : espos_cfg_type_t)
  (buf : list Z) (len : nat) : M esp_err_t := set (ctx_h ctx) key t buf len.
Definition espos_config_migrate_erase (ctx : espos_config_migrate_ctx) (key : cstr) : M esp_err_t :=
  erase_key (ctx_h ctx) key.
Definition espos_config_migrate_from_version (ctx : espos_config_migrate_ctx) : Z := ctx_from ctx.

Definition read_version (nss : slot_ref) : M (esp_err_t + Z) :=
  h ← nss_h nss;
  '(err, data, _) ← get h ESPOS_CFG_VERSION_KEY ESPOS_CFG_TYPE_INT 4;
  if negb (is_ok err) then mret (inl err) else
  let v := dec_i32 data in
  if (v <? 0) || (65535 <? v) then mret (inl ESP_ERR_INVALID_STATE) else mret (inr (u16 v)).

Definition write_version (nss : slot_ref) (v : Z) : M esp_err_t :=
  h ← nss_h nss;
  err ← set h ESPOS_CFG_VERSION_KEY ESPOS_CFG_TYPE_INT (bytes32 (u32 v)) 4;
  if is_ok err then commit h else mret err.

(** The chain, one step per version; [fuel] counts the versions left. *)
Fixpoint migrate_loop (fuel : nat) (nss : slot_ref) (name : cstr) (v : Z) : M unit :=
  match fuel with
  | O => mret tt
  | S k =>
      m ← find_migration name v;
      err ← match m with
            | Some m =>
                h ← nss_h nss;
                call (e_migrate ev (mg_fn m) (MigrateCtx h v) (mg_arg m)) (OMigrate name v)
            | None => mret ESP_OK
            end;
      if negb (is_ok err) then mret tt else
      err ← write_version nss (u16 (v + 1));
      if negb (is_ok err) then mret tt else
      migrate_loop k nss name (u16 (v + 1))
  end.

Definition migrate_ns (nss : slot_ref) : M unit :=
  nd ← nss_nd nss;
  let version := ns_version (deref nd) in
  stored ← read_version nss;
  match stored with
  | inl ESP_ERR_NOT_FOUND => write_version nss version;; mret tt
  | inl _ =>
      h ← nss_h nss;
      erase_key h ESPOS_CFG_VERSION_KEY;;
      write_version nss version;; mret tt
  | inr v =>
      if v =? version then mret tt else
      if version <? v then mret tt else
      migrate_loop (Z.to_nat (version - v)) nss (ref_name nd) v
  end.

Definition espos_config_get_version (ns : option cstr) : M (esp_err_t * Z * Z) :=
  nd ← espos_config_find_ns ns;
  match nd with
  | None => mret (ESP_ERR_NOT_FOUND, 0, 0)
  | Some d =>
      inited ← gets c_inited;
      if negb inited then mret (ESP_ERR_INVALID_STATE, 0, 0) else
      cfg_lock;;
      nss ← ns_state_for d;
      v ← match nss with
          | None => mret 0
          | Some r =>
              h ← nss_h r;
              if h =? 0 then mret 0 else
              v ← read_version r;
              mret (match v with inr v => v | inl _ => 0 end)
          end;
      cfg_unlock;;
      mret (ESP_OK, v, ns_version (deref d))
  end.

(** ** Life cycle *)

Definition set_h (r : slot_ref) (h : Z) : M unit :=
  mods (fun s => slot_set r (NsState (st_desc (slot_get s r)) h) s).

Definition bump_generation : M unit := mods (fun s => s <| c_generation ::= fun g => u32 (g + 1) |>).

Definition rt_slots : list slot_ref := map SRt (seq 0 CONFIG_ESPOS_CONFIG_MAX_RUNTIME_NS).

Definition migrate_runtime_locked : M unit :=
  for_each rt_slots (fun r =>
    d ← nss_desc r; h ← nss_h r;
    match d with
    | Some _ => if h =? 0 then mret tt else migrate_ns r
    | None => mret tt
    end).

Fixpoint open_static (idx : list nat) : M esp_err_t :=
  match idx with
  | [] => mret ESP_OK
  | i :: idx' =>
      nd ← nss_nd (SNs i);
      '(err, h) ← open_ (ref_name nd);
      if negb (is_ok err) then
        for_each (seq 0 i) (fun j => hj ← nss_h (SNs j); close_ hj;; set_h (SNs j) 0);;
        mret err
      else set_h (SNs i) h;; open_static idx'
  end.

Definition open_runtime (r : slot_ref) : M unit :=
  d ← nss_desc r; h ← nss_h r;
  match d with
  | None => mret tt
  | Some nd =>
      if negb (h =? 0) then mret tt else
      '(err, h') ← open_ (ref_name nd);
      if negb (is_ok err) then assign r (NsState None 0);; bump_generation
      else set_h r h'
  end.

Definition open_all_locked : M esp_err_t :=
  n ← gets c_ns_count;
  err ← open_static (seq 0 n);
  if negb (is_ok err) then mret err else
  for_each rt_slots open_runtime;; mret ESP_OK.

Definition close_slot (r : slot_ref) : M unit :=
  h ← nss_h r; if h =? 0 then mret tt else close_ h;; set_h r 0.

Definition close_all_locked : M unit :=
  n ← gets c_ns_count;
  for_each (map SNs (seq 0 n)) close_slot;;
  for_each rt_slots close_slot.

(** [free(s.ns); s.ns = NULL] *)
Definition free_ns : M unit := mods (fun s => s <| c_ns := [] |>).

(** The second half of [espos_config_init]: open, migrate, be up. *)
Definition init_open : M esp_err_t :=
  cfg_lock;;
  err ← open_all_locked;
  (if is_ok err then
     n ← gets c_ns_count;
     for_each (map SNs (seq 0 n)) migrate_ns;;
     migrate_runtime_locked;;
     mods (fun s => s <| c_inited := true |>)
   else mret tt);;
  cfg_unlock;;
  (if negb (is_ok err) then free_ns else mret tt);;
  mret err.

(** [backend] says whether there is a backend: the caller's, or the NVS one. *)
Definition espos_config_init (backend : bool) : M esp_err_t :=
  inited ← gets c_inited;
  if inited : bool then mret ESP_ERR_INVALID_STATE else
  if negb backend then mret ESP_ERR_NOT_SUPPORTED else
  err ← ensure_lock;
  if negb (is_ok err) then mret ESP_ERR_NO_MEM else
  mods (fun s => s <| c_ns_count := espos_cfg_namespace_count |>);;
  ok ← query (e_malloc ev (if (espos_cfg_namespace_count =? 0)%nat then 1 else espos_cfg_namespace_count));
  if negb ok then free_ns;; mret ESP_ERR_NO_MEM else
  mods (fun s => s <| c_ns := map (fun i => NsState (Some (Static i)) 0) (seq 0 espos_cfg_namespace_count) |>);;
  '(err, reset) ← call (be_init be) (fun r => OInit r.1);
  if negb (is_ok err) then free_ns;; mret err else
  mods (fun s => s <| c_storage_reset := reset |>);;
  init_open.

Definition espos_config_deinit : M unit :=
  inited ← gets c_inited;
  if negb inited then mret tt else
  cfg_lock;;
  close_all_locked;;
  mods (fun s => s <| c_inited := false |> <| c_ns := [] |> <| c_ns_count := 0%nat |>
                   <| c_migrations := [] |>
                   <| c_subs := replicate CONFIG_ESPOS_CONFIG_MAX_SUBSCRIBERS (Subscriber 0 0) |>
                   <| c_rt := replicate CONFIG_ESPOS_CONFIG_MAX_RUNTIME_NS (NsState None 0) |>);;
  bump_generation;;
  cfg_unlock.

Definition espos_config_factory_reset : M esp_err_t :=
  inited ← gets c_inited;
  if negb inited then mret ESP_ERR_INVALID_STATE else
  cfg_lock;;
  close_all_locked;;
  err ← call (be_erase_storage be) OEraseStorage;
  err ← (if is_ok err then '(e, _) ← call (be_init be) (fun r => OInit r.1); mret e else mret err);
  err ← (if is_ok err then open_all_locked else mret err);
  (if is_ok err then
     n ← gets c_ns_count;
     for_each (map SNs (seq 0 n)) migrate_ns;;
     migrate_runtime_locked
   else mods (fun s => s <| c_inited := false |> <| c_ns := [] |> <| c_ns_count := 0%nat |>));;
  cfg_unlock;;
  mret err.

(** ** Runtime namespaces *)

Definition flow_config_alarm (a : alarm) : M unit := emit (OAlarm a).

(** The characters of a name: [a-z], [0-9] and underscore. *)
Definition name_char (c : Z) : bool :=
  ((97 <=? c) && (c <=? 122)) || ((48 <=? c) && (c <=? 57)) || (c =? 95).

Definition valid_ns_name (n : option cstr) : bool :=
  match n with
  | None => false
  | Some s =>
      if (length s =? 0)%nat || (ESPOS_CFG_NS_NAME_MAX <? length s)%nat then false
      else forallb name_char s
  end.

(** [out] is the size of the caller's buffer, [None] when the pointer is null;
    the result is the error and the name written. *)
Definition espos_config_flow_ns_name (id : option cstr) (out : option nat) : esp_err_t * cstr :=
  match id, out with
  | Some s, Some size =>
      if (size <? ESPOS_CFG_NS_NAME_MAX + 1)%nat then (ESP_ERR_INVALID_ARG, []) else
      if (length s =? 0)%nat || (ESPOS_CFG_RUNTIME_ID_MAX <? length s)%nat then (ESP_ERR_INVALID_ARG, []) else
      if negb (forallb name_char s) then (ESP_ERR_INVALID_ARG, []) else
      (ESP_OK, snprintf_s size (ESPOS_CFG_RUNTIME_NS_PREFIX ++ s))
  | _, _ => (ESP_ERR_INVALID_ARG, [])
  end.

Definition is_str_or_blob (t : espos_cfg_type_t) : bool :=
  bool_decide (t = ESPOS_CFG_TYPE_STRING) || bool_decide (t = ESPOS_CFG_TYPE_BLOB).
Definition known_type (t : espos_cfg_type_t) : bool := match t with TYPE_OTHER _ => false | _ => true end.

(** The checks on key [i], after the keys before it: what is wrong with it. *)
Definition check_key (i : nat) (before : list espos_cfg_key_t) (k : espos_cfg_key_t) : option alarm :=
  if negb (valid_ns_name (k_name k)) then Some (AKeyName i) else
  if streq (key_name k) ESPOS_CFG_VERSION_KEY then Some (AReserved (key_name k)) else
  if negb (known_type (k_type k)) then Some (AUnknownType (key_name k)) else
  if is_str_or_blob (k_type k) && (k_max_len k =? 0)%nat then Some (AMaxLen (key_name k)) else
  if bool_decide (k_type k = ESPOS_CFG_TYPE_STRING) && bool_decide (sc_s (k_def k) = None)
  then Some (ANeedsDefault (key_name k)) else
  if existsb (fun b => streq (key_name b) (key_name k)) before then Some (ADupKey (key_name k)) else None.

Fixpoint check_keys (i : nat) (before ks : list espos_cfg_key_t) : option alarm :=
  match ks with
  | [] => None
  | k :: ks' =>
      match check_key i before k with
      | Some a => Some a
      | None => check_keys (S i) (before ++ [k]) ks'
      end
  end.

Definition validate_runtime_desc (ns : option nsref) : M esp_err_t :=
  match ns with
  | None => mret ESP_ERR_INVALID_ARG
  | Some p =>
      let d := deref p in
      if bool_decide (ns_name d = None) || bool_decide (ns_title d = None) || (ns_version d =? 0)
      then mret ESP_ERR_INVALID_ARG else
      if negb (valid_ns_name (ns_name d))
      then flow_config_alarm ABadNsName;; mret ESP_ERR_INVALID_ARG else
      if (length (desc_keys d) =? 0)%nat
      then flow_config_alarm ANoKeys;; mret ESP_ERR_INVALID_ARG else
      match check_keys 0 [] (desc_keys d) with
      | Some a => flow_config_alarm a;; mret ESP_ERR_INVALID_ARG
      | None => mret ESP_OK
      end
  end.

Fixpoint find_free (i : nat) (rt : list ns_state_t) : option nat :=
  match rt with
  | [] => None
  | NsState None _ :: _ => Some i
  | _ :: rt' => find_free (S i) rt'
  end.

Definition espos_config_register_ns (ns : option nsref) : M esp_err_t :=
  err ← validate_runtime_desc ns;
  match ns with
  | None => mret err
  | Some p =>
      if negb (is_ok err) then mret err else
      lk ← ensure_lock;
      if negb (is_ok lk) then mret ESP_ERR_NO_MEM else
      let name := ref_name p in
      if bool_decide (find_static name <> None)
      then flow_config_alarm (ABuiltIn name);; mret ESP_ERR_INVALID_STATE else
      cfg_lock;;
      taken ← find_runtime_ns name;
      match taken with
      | Some _ => cfg_unlock;; flow_config_alarm (ARegistered name);; mret ESP_ERR_INVALID_STATE
      | None =>
          slot ← gets (fun s => find_free 0 (c_rt s));
          match slot with
          | None => cfg_unlock;; flow_config_alarm (ANoSlot name);; mret ESP_ERR_NO_MEM
          | Some i =>
              assign (SRt i) (NsState (Some p) 0);;
              inited ← gets c_inited;
              let finish := bump_generation;; cfg_unlock;; mret ESP_OK in
              if inited : bool then
                '(err, h) ← open_ name;
                if negb (is_ok err) then
                  assign (SRt i) (NsState None 0);;
                  cfg_unlock;; flow_config_alarm (ACannotOpen name err);; mret err
                else set_h (SRt i) h;; migrate_ns (SRt i);; finish
              else finish
          end
      end
  end.

(** The index of the runtime slot of that name. *)
Fixpoint find_rt_index (i : nat) (rt : list ns_state_t) (ns : cstr) : option nat :=
  match rt with
  | [] => None
  | NsState (Some d) _ :: rt' => if streq (ref_name d) ns then Some i else find_rt_index (S i) rt' ns
  | NsState None _ :: rt' => find_rt_index (S i) rt' ns
  end.

Definition espos_config_unregister_ns (ns : option cstr) : M esp_err_t :=
  match ns with
  | None => mret ESP_ERR_INVALID_ARG
  | Some n =>
      if bool_decide (find_static n <> None) then mret ESP_ERR_INVALID_ARG else
      lk ← gets c_lock;
      if negb lk then mret ESP_ERR_NOT_FOUND else
      cfg_lock;;
      slot ← gets (fun s => find_rt_index 0 (c_rt s) n);
      err ← match slot with
            | None => mret ESP_ERR_NOT_FOUND
            | Some i =>
                h ← nss_h (SRt i);
                (if h =? 0 then mret tt else close_ h);;
                assign (SRt i) (NsState None 0);;
                bump_generation;;
                mret ESP_OK
            end;
      cfg_unlock;; mret err
  end.

Definition espos_config_generation : M Z :=
  cfg_lock;; g ← gets c_generation; cfg_unlock;; mret g.

(** ** Accessors *)

(** [out] says whether the result pointer is not null; the value is the one
    written through it. *)
Definition get_scalar (ns key : option cstr) (t : espos_cfg_type_t) : M (esp_err_t * espos_cfg_value_t) :=
  inited ← gets c_inited;
  if negb inited then mret (ESP_ERR_INVALID_STATE, VOther 0) else
  l ← lookup ns key;
  match l with
  | inl err => mret (err, VOther 0)
  | inr (nss, kd) =>
      if negb (bool_decide (k_type kd = t)) then mret (ESP_ERR_INVALID_ARG, VOther 0) else
      cfg_lock;;
      nd ← nss_nd nss;
      '(err, v, _) ← espos_config_read_effective nd kd [] [];
      cfg_unlock;;
      mret (err, v)
  end.

(** [*out], written only when there is no error *)
Definition written {A} (f : espos_cfg_value_t -> A) (r : esp_err_t * espos_cfg_value_t) : esp_err_t * option A :=
  (r.1, if is_ok r.1 then Some (f r.2) else None).

Definition espos_config_get_bool (ns key : option cstr) (out : bool) : M (esp_err_t * option bool) :=
  if negb out then mret (ESP_ERR_INVALID_ARG, None) else
  r ← get_scalar ns key ESPOS_CFG_TYPE_BOOL; mret (written v_b r).

Definition espos_config_get_i32 (ns key : option cstr) (out : bool) : M (esp_err_t * option Z) :=
  if negb out then mret (ESP_ERR_INVALID_ARG, None) else
  r ← get_scalar ns key ESPOS_CFG_TYPE_INT; mret (written v_i r).

Definition espos_config_get_float (ns key : option cstr) (out : bool) : M (esp_err_t * option Z) :=
  if negb out then mret (ESP_ERR_INVALID_ARG, None) else
  r ← get_scalar ns key ESPOS_CFG_TYPE_FLOAT; mret (written v_f r).

(** [buf] says whether there is a buffer; the result is the error, the string
    left in the buffer and the full length. *)
Definition espos_config_get_str (ns key : option cstr) (buf : bool) (buf_size : nat)
  : M (esp_err_t * option cstr * option nat) :=
  inited ← gets c_inited;
  if negb inited then mret (ESP_ERR_INVALID_STATE, None, None) else
  l ← lookup ns key;
  match l with
  | inl err => mret (err, None, None)
  | inr (nss, kd) =>
      if negb (bool_decide (k_type kd = ESPOS_CFG_TYPE_STRING)) then mret (ESP_ERR_INVALID_ARG, None, None) else
      tmp ← malloc (k_max_len kd + 1);
      match tmp with
      | None => mret (ESP_ERR_NO_MEM, None, None)
      | Some sbuf =>
          cfg_lock;;
          nd ← nss_nd nss;
          '(err, v, _) ← espos_config_read_effective nd kd sbuf [];
          cfg_unlock;;
          if negb (is_ok err) then mret (err, None, None) else
          let s := str_of (v_s v) in
          let n := length s in
          if buf && negb (buf_size =? 0)%nat then
            let c := if (n <? buf_size - 1)%nat then n else (buf_size - 1)%nat in
            mret (if (c <? n)%nat then ESP_ERR_INVALID_SIZE else ESP_OK, Some (take c s), Some n)
          else
            mret (if (buf_size =? 0)%nat && (0 <? n)%nat then ESP_ERR_INVALID_SIZE else ESP_OK, None, Some n)
      end
  end.

(** [len] is the buffer size in, [None] when the pointer is null; the result is
    the error, the bytes copied into the buffer and the length out. *)
Definition espos_config_get_blob (ns key : option cstr) (buf : bool) (len : option nat)
  : M (esp_err_t * option (list Z) * option nat) :=
  inited ← gets c_inited;
  if negb inited then mret (ESP_ERR_INVALID_STATE, None, len) else
  match len with
  | None => mret (ESP_ERR_INVALID_ARG, None, None)
  | Some cap =>
      l ← lookup ns key;
      match l with
      | inl err => mret (err, None, len)
      | inr (nss, kd) =>
          if negb (bool_decide (k_type kd = ESPOS_CFG_TYPE_BLOB)) then mret (ESP_ERR_INVALID_ARG, None, len) else
          tmp ← malloc (if (k_max_len kd =? 0)%nat then 1 else k_max_len kd);
          match tmp with
          | None => mret (ESP_ERR_NO_MEM, None, len)
          | Some bbuf =>
              cfg_lock;;
              nd ← nss_nd nss;
              '(err, v, _) ← espos_config_read_effective nd kd [] bbuf;
              cfg_unlock;;
              if negb (is_ok err) then mret (err, None, len) else
              let blen := v_len v in
              if buf : bool then
                if (cap <? blen)%nat then mret (ESP_ERR_INVALID_SIZE, None, Some blen)
                else mret (ESP_OK, Some (take blen (str_of (v_p v))), Some blen)
              else mret (ESP_OK, None, Some blen)
          end
      end
  end.

Definition espos_config_is_set (ns key : option cstr) : M bool :=
  inited ← gets c_inited;
  if negb inited then mret false else
  l ← lookup ns key;
  match l with
  | inl _ => mret false
  | inr (nss, kd) =>
      bufs ← alloc_buffers kd;
      match bufs with
      | None => mret false
      | Some (sbuf, bbuf) =>
          cfg_lock;;
          nd ← nss_nd nss;
          '(_, _, is_set) ← espos_config_read_effective nd kd sbuf bbuf;
          cfg_unlock;;
          mret is_set
      end
  end.

Definition set_value (ns key : option cstr) (val : espos_cfg_value_t) : M esp_err_t :=
  inited ← gets c_inited;
  if negb inited then mret ESP_ERR_INVALID_STATE else
  l ← lookup ns key;
  match l with
  | inl err => mret err
  | inr (nss, kd) =>
      if has_flag (k_flags kd) ESPOS_CFG_FLAG_READ_ONLY then mret ESP_ERR_NOT_SUPPORTED else
      if negb (valid kd val) then mret ESP_ERR_INVALID_ARG else
      cfg_lock;;
      '(err, changed) ← write_locked nss kd val;
      cfg_unlock;;
      (if is_ok err && changed then nd ← nss_nd nss; notify nd kd else mret tt);;
      mret err
  end.

Definition espos_config_set_bool (ns key : option cstr) (v : bool) : M esp_err_t := set_value ns key (VBool v).
Definition espos_config_set_i32 (ns key : option cstr) (v : Z) : M esp_err_t := set_value ns key (VInt v).
Definition espos_config_set_float (ns key : option cstr) (v : Z) : M esp_err_t := set_value ns key (VFloat v).
Definition espos_config_set_str (ns key : option cstr) (v : option cstr) : M esp_err_t :=
  match v with None => mret ESP_ERR_INVALID_ARG | Some _ => set_value ns key (VStr v) end.
Definition espos_config_set_blob (ns key : option cstr) (buf : option (list Z)) (len : nat) : M esp_err_t :=
  set_value ns key (VBlob buf len).

Definition espos_config_reset_key (ns key : option cstr) : M esp_err_t :=
  inited ← gets c_inited;
  if negb inited then mret ESP_ERR_INVALID_STATE else
  l ← lookup ns key;
  match l with
  | inl err => mret err
  | inr (nss, kd) =>
      cfg_lock;;
      '(err, changed) ← reset_locked nss kd;
      cfg_unlock;;
      (if is_ok err && changed then nd ← nss_nd nss; notify nd kd else mret tt);;
      mret err
  end.

(** The loop over the keys: the first error, and the keys that changed. *)
Fixpoint reset_keys (nss : slot_ref) (ks : list espos_cfg_key_t) (err : esp_err_t) (changed : list espos_cfg_key_t)
  : M (esp_err_t * list espos_cfg_key_t) :=
  match ks with
  | [] => mret (err, changed)
  | k :: ks' =>
      '(e, c) ← reset_locked nss k;
      reset_keys nss ks' (if is_ok err then e else err) (if c : bool then changed ++ [k] else changed)
  end.

Definition espos_config_reset_ns (ns : option cstr) : M esp_err_t :=
  inited ← gets c_inited;
  if negb inited then mret ESP_ERR_INVALID_STATE else
  nd ← espos_config_find_ns ns;
  match nd with
  | None => mret ESP_ERR_NOT_FOUND
  | Some d =>
      st ← ns_state_for d;
      match st with
      | None => mret ESP_ERR_NOT_FOUND
      | Some nss =>
          h ← nss_h nss;
          if h =? 0 then mret ESP_ERR_NOT_FOUND else
          let n := length (desc_keys (deref d)) in
          ok ← query (e_malloc ev (if (n =? 0)%nat then 1%nat else n));
          if negb ok then mret ESP_ERR_NO_MEM else
          cfg_lock;;
          '(err, changed) ← reset_keys nss (desc_keys (deref d)) ESP_OK [];
          cfg_unlock;;
          for_each changed (notify d);;
          mret err
      end
  end.

(** ** Batch plan *)

Record espos_config_plan_entry_t := PlanEntry {
  pe_ns : nsref; pe_key : espos_cfg_key_t; pe_reset : bool; pe_val : espos_cfg_value_t }.

Definition apply_entry (p : espos_config_plan_entry_t) : M (esp_err_t * bool) :=
  nss ← ns_state_for (pe_ns p);
  match nss with
  | None => mret (ESP_ERR_NOT_FOUND, false)
  | Some r =>
      h ← nss_h r;
      if h =? 0 then mret (ESP_ERR_NOT_FOUND, false) else
      if pe_reset p then reset_locked r (pe_key p) else write_locked r (pe_key p) (pe_val p)
  end.

(** The loop from entry [i]: the first error, the indices of the entries that
    changed and whether one of them asks for a restart. *)
Fixpoint plan_loop (i : nat) (plan : list espos_config_plan_entry_t) (err : esp_err_t) (changed_idx : list nat)
  (restart : bool) : M (esp_err_t * list nat * bool) :=
  match plan with
  | [] => mret (err, changed_idx, restart)
  | p :: plan' =>
      '(e, c) ← apply_entry p;
      if negb (is_ok e) then plan_loop (S i) plan' (if is_ok err then e else err) changed_idx restart else
      if c : bool then
        plan_loop (S i) plan' err (changed_idx ++ [i])
          (restart || has_flag (k_flags (pe_key p)) ESPOS_CFG_FLAG_RESTART_REQUIRED)
      else plan_loop (S i) plan' err changed_idx restart
  end.

Definition espos_config_apply_plan (plan : list espos_config_plan_entry_t)
  : M (esp_err_t * list nat * bool) :=
  inited ← gets c_inited;
  if negb inited then mret (ESP_ERR_INVALID_STATE, [], false) else
  cfg_lock;;
  '(err, changed_idx, restart) ← plan_loop 0 plan ESP_OK [] false;
  cfg_unlock;;
  for_each changed_idx (fun i =>
    match plan !! i with Some p => notify (pe_ns p) (pe_key p) | None => mret tt end);;
  mret (err, changed_idx, restart).

End Store.
