(* ===== verification/ConfigLaws.v ===== *)
(** What the configuration store relies on: the contract of
    espos_config_backend.h as a type class over an abstract view of the storage,
    and that of the allocator and the migration callbacks. The store's theorems
    are proved against these classes; ConfigMem.v discharges the first for the
    in-memory backend. *)
From Stdlib Require Import ZArith Lia.
From stdpp Require Import base list numbers.
From S2P Require Import Prelude ConfigDesc ConfigStore.
Open Scope Z_scope.

(** A stored entry: its type and its byte image. *)
Definition entry : Type := espos_cfg_type_t * list Z.

(** The storage behind a backend: what each namespace holds under each key, and
    the namespace an open handle belongs to. *)
Class Storage (W : Type) := {
  view : W -> cstr -> cstr -> option entry;
  hns : W -> Z -> option cstr }.

(** Same contents, same open handles. *)
Definition store_eq `{Storage W} (w w' : W) : Prop :=
  (forall ns k, view w ns k = view w' ns k) /\ (forall h, hns w h = hns w' h).

#[export] Instance store_eq_equiv `{Storage W} : Equivalence store_eq.
Proof.
  split.
  - split; done.
  - intros w w' [H1 H2]; split; done.
  - intros w1 w2 w3 [H1 H2] [H3 H4]; split; intros; [by rewrite H1|by rewrite H2].
Qed.

#[export] Instance view_proper `{Storage W} : Proper (store_eq ==> eq ==> eq ==> eq) view.
Proof. intros w w' [H1 _] ? ? -> ? ? ->. apply H1. Qed.

#[export] Instance hns_proper `{Storage W} : Proper (store_eq ==> eq ==> eq) hns.
Proof. intros w w' [_ H2] ? ? ->. apply H2. Qed.

(** [w'] differs from [w] at most in what [ns] holds under [key]. *)
Definition only_at `{Storage W} (ns key : cstr) (w w' : W) : Prop :=
  (forall ns' k', (ns', k') <> (ns, key) -> view w' ns' k' = view w ns' k') /\ (forall h, hns w' h = hns w h).

(** [w'] differs from [w] at most in what [ns] holds. *)
Definition only_in `{Storage W} (ns : cstr) (w w' : W) : Prop :=
  (forall ns' k', ns' <> ns -> view w' ns' k' = view w ns' k') /\ (forall h, hns w' h = hns w h).

(** The images the types have in storage: strings end with their NUL. *)
Definition wf_entry (e : entry) : Prop :=
  match e.1 with
  | ESPOS_CFG_TYPE_BOOL => exists u, e.2 = [u] /\ 0 <= u < 256
  | ESPOS_CFG_TYPE_INT | ESPOS_CFG_TYPE_FLOAT => length e.2 = 4%nat /\ wf_bytes e.2
  | ESPOS_CFG_TYPE_STRING => exists s, e.2 = s ++ [0] /\ wf_str s
  | ESPOS_CFG_TYPE_BLOB => wf_bytes e.2
  | TYPE_OTHER _ => True
  end.

(** What a typed get of an entry returns into a buffer of [cap] bytes. *)
Definition get_spec (o : option entry) (t : espos_cfg_type_t) (cap : nat) (r : esp_err_t * list Z * nat) : Prop :=
  match o with
  | None => r.1.1 = ESP_ERR_NOT_FOUND
  | Some (t', d) =>
      if bool_decide (t' = t) then
        if (cap <? length d)%nat then r.1.1 = ESP_ERR_INVALID_SIZE else r = (ESP_OK, d, length d)
      else r.1.1 = ESP_ERR_INVALID_STATE
  end.

(** The arguments a typed get is called with: a number has room. *)
Definition get_args (t : espos_cfg_type_t) (cap : nat) : Prop :=
  match t with
  | ESPOS_CFG_TYPE_BOOL => (1 <= cap)%nat
  | ESPOS_CFG_TYPE_INT | ESPOS_CFG_TYPE_FLOAT => (4 <= cap)%nat
  | ESPOS_CFG_TYPE_STRING | ESPOS_CFG_TYPE_BLOB => True
  | TYPE_OTHER _ => False
  end.

(** The arguments a typed set is called with: the image of a value. *)
Definition set_args (t : espos_cfg_type_t) (buf : list Z) (len : nat) : Prop :=
  match t with
  | ESPOS_CFG_TYPE_BOOL => (buf = [0] \/ buf = [1]) /\ len = 1%nat
  | ESPOS_CFG_TYPE_INT | ESPOS_CFG_TYPE_FLOAT => length buf = 4%nat /\ len = 4%nat /\ wf_bytes buf
  | ESPOS_CFG_TYPE_STRING => (exists s, buf = s ++ [0] /\ wf_str s) /\ len = length buf
  | ESPOS_CFG_TYPE_BLOB => (len <= length buf)%nat /\ len <> 0%nat /\ wf_bytes buf
  | TYPE_OTHER _ => False
  end.

(** The contract of a backend on the worlds that satisfy [good] (its own
    representation invariant). *)
Class BackendLaws {W : Type} `{Storage W} (be : espos_config_backend_t W) (good : W -> Prop) : Prop := {
  law_wf w ns k e : good w -> view w ns k = Some e -> wf_entry e;
  law_get w h ns key t cap : good w -> hns w h = Some ns -> get_args t cap ->
    let '(r, w') := be_get be h key t true cap w in
    good w' /\ store_eq w w' /\ get_spec (view w ns key) t cap r;
  law_set w h ns key t buf len : good w -> hns w h = Some ns -> set_args t buf len ->
    let '(e, w') := be_set be h key t buf len w in
    good w' /\ only_at ns key w w' /\ (e = ESP_OK -> view w' ns key = Some (t, take len buf));
  law_erase_key w h ns key : good w -> hns w h = Some ns ->
    let '(e, w') := be_erase_key be h key w in
    good w' /\ only_at ns key w w' /\ (e = ESP_OK \/ e = ESP_ERR_NOT_FOUND -> view w' ns key = None);
  law_commit w h ns : good w -> hns w h = Some ns ->
    let '(_, w') := be_commit be h w in good w' /\ store_eq w w';
  law_open w ns : good w ->
    let '(e, h, w') := be_open be ns w in
    good w' /\ (forall n k, view w' n k = view w n k) /\
    (forall h' n, hns w h' = Some n -> hns w' h' = Some n) /\
    (e = ESP_OK -> h <> 0 /\ hns w' h = Some ns);
  law_close w h ns : good w -> hns w h = Some ns ->
    let '(_, w') := be_close be h w in
    good w' /\ (forall n k, view w' n k = view w n k) /\ (forall h', h' <> h -> hns w' h' = hns w h');
  law_init w : good w ->
    let '(e, reset, w') := be_init be w in
    good w' /\ (e = ESP_OK -> forall n k, view w' n k = if reset : bool then None else view w n k);
  law_erase_storage w : good w ->
    let '(e, w') := be_erase_storage be w in
    good w' /\ (e = ESP_OK -> forall n k, view w' n k = None) }.

(** The allocator and the mutex do not touch the storage; a migration callback
    uses the raw accessors on its own namespace only. *)
Class EnvLaws {W : Type} `{Storage W} (ev : env W) (good : W -> Prop) : Prop := {
  law_malloc w n : good w -> good (e_malloc ev n w).2 /\ store_eq w (e_malloc ev n w).2;
  law_mutex w : good w -> good (e_mutex ev w).2 /\ store_eq w (e_mutex ev w).2;
  law_migrate w fn h from ns arg : good w -> hns w h = Some ns ->
    good (e_migrate ev fn (MigrateCtx h from) arg w).2 /\
    only_in ns w (e_migrate ev fn (MigrateCtx h from) arg w).2 }.

Lemma only_at_in `{Storage W} ns key w w' : only_at ns key w w' -> only_in ns w w'.
Proof. intros [H1 H2]. split; [|done]. intros ns' k' Hn. apply H1. congruence. Qed.

Lemma store_eq_at `{Storage W} ns key w w' : store_eq w w' -> only_at ns key w w'.
Proof. intros [H1 H2]. split; intros; by rewrite ?H1, ?H2. Qed.

Lemma store_eq_in `{Storage W} ns w w' : store_eq w w' -> only_in ns w w'.
Proof. intros [H1 H2]. split; intros; by rewrite ?H1, ?H2. Qed.

Lemma only_at_trans `{Storage W} ns key w1 w2 w3 : only_at ns key w1 w2 -> only_at ns key w2 w3 -> only_at ns key w1 w3.
Proof. intros [H1 H2] [H3 H4]. split; intros; [rewrite H3, H1|rewrite H4, H2]; done. Qed.

Lemma only_in_trans `{Storage W} ns w1 w2 w3 : only_in ns w1 w2 -> only_in ns w2 w3 -> only_in ns w1 w3.
Proof. intros [H1 H2] [H3 H4]. split; intros; [rewrite H3, H1|rewrite H4, H2]; done. Qed.

Lemma only_at_hns `{Storage W} ns key w w' h : only_at ns key w w' -> hns w' h = hns w h.
Proof. by intros [_ ->]. Qed.

Lemma only_in_hns `{Storage W} ns w w' h : only_in ns w w' -> hns w' h = hns w h.
Proof. by intros [_ ->]. Qed.
