(* ===== verification/ConfigMem.v ===== *)
(** The in-memory backend of the configuration store (backend_mem.c), and the
    proof that it keeps the contract of a backend.

    The linked lists are lists, newest first; a pointer to a [mem_ns_t] is the
    address the node was allocated at. [m_heap] says which allocations succeed,
    in the order of [m_tick]; an address is never used again. *)
From Stdlib Require Import ZArith Lia String.
From stdpp Require Import base numbers list.
From S2P Require Import Prelude ConfigDesc ConfigStore ConfigLaws.
Open Scope Z_scope.

(** [data] of an entry whose first allocation failed is null with length 0: the
    empty list, with the type 0 that [calloc] left. *)
Record entry_t := Entry { en_key : cstr; en_type : espos_cfg_type_t; en_data : list Z }.

Record mem_ns_t := MemNs { mn_addr : Z; mn_name : cstr; mn_entries : list entry_t }.
#[export] Instance eta_mem_ns : Eta mem_ns_t := fun r => MemNs (mn_addr r) (mn_name r) (mn_entries r).

Record espos_config_mem := Mem {
  m_namespaces : list mem_ns_t;
  m_write_fault : esp_err_t;
  m_inited : bool;
  m_tick : nat;
  m_heap : nat -> bool }.
#[export] Instance eta_mem : Eta espos_config_mem := fun r =>
  Mem (m_namespaces r) (m_write_fault r) (m_inited r) (m_tick r) (m_heap r).

(** [calloc] or [malloc]: whether it succeeds, at a fresh address. *)
Definition m_alloc (m : espos_config_mem) : option Z * espos_config_mem :=
  (if m_heap m (m_tick m) then Some (Z.of_nat (m_tick m) + 1) else None, m <| m_tick ::= S |>).

Definition free_all (m : espos_config_mem) : espos_config_mem := m <| m_namespaces := [] |>.

Definition espos_config_mem_create (heap : nat -> bool) (tick : nat) : espos_config_mem :=
  Mem [] ESP_OK false tick heap.

Definition espos_config_mem_set_write_fault (err : esp_err_t) (m : espos_config_mem) : espos_config_mem :=
  m <| m_write_fault := err |>.

Definition lookup_ns (l : list mem_ns_t) (name : cstr) : option mem_ns_t :=
  List.find (fun ns => streq (mn_name ns) name) l.

Definition find_ns (m : espos_config_mem) (name : cstr) (create : bool) : option Z * espos_config_mem :=
  match lookup_ns (m_namespaces m) name with
  | Some ns => (Some (mn_addr ns), m)
  | None =>
      if negb create || (15 <? length name)%nat then (None, m) else
      match m_alloc m with
      | (None, m') => (None, m')
      | (Some a, m') => (Some a, m' <| m_namespaces ::= cons (MemNs a name []) |>)
      end
  end.

(** [*h] *)
Definition at_addr (l : list mem_ns_t) (h : Z) : option mem_ns_t := List.find (fun ns => mn_addr ns =? h) l.

Definition entries_at (m : espos_config_mem) (h : Z) : list entry_t :=
  from_option mn_entries [] (at_addr (m_namespaces m) h).

(** [h->entries = es] *)
Definition put_ns (h : Z) (es : list entry_t) : list mem_ns_t -> list mem_ns_t :=
  map (fun ns => if mn_addr ns =? h then ns <| mn_entries := es |> else ns).
Definition put_entries (h : Z) (es : list entry_t) (m : espos_config_mem) : espos_config_mem :=
  m <| m_namespaces ::= put_ns h es |>.

Definition find_entry (es : list entry_t) (key : cstr) : option entry_t :=
  List.find (fun e => streq (en_key e) key) es.

Definition scalar_size (t : espos_cfg_type_t) : nat :=
  match t with
  | ESPOS_CFG_TYPE_BOOL => 1
  | ESPOS_CFG_TYPE_INT => 4
  | ESPOS_CFG_TYPE_FLOAT => 4
  | _ => 0
  end.

(** The length to store, or why the value is refused. *)
Definition set_len (t : espos_cfg_type_t) (buf : list Z) (len : nat) : esp_err_t + nat :=
  match t with
  | ESPOS_CFG_TYPE_STRING =>
      let len := (length (c_string buf) + 1)%nat in
      if 4000 <? Z.of_nat len then inl ESP_ERR_INVALID_SIZE else inr len
  | ESPOS_CFG_TYPE_BLOB => if 508000 <? Z.of_nat len then inl ESP_ERR_INVALID_SIZE else inr len
  | _ => if (scalar_size t =? 0)%nat then inl ESP_ERR_INVALID_ARG else inr (scalar_size t)
  end.

(** [e->type = type; e->data = d] of the entry of that key *)
Definition update_entry (key : cstr) (t : espos_cfg_type_t) (d : list Z) : list entry_t -> list entry_t :=
  map (fun e => if streq (en_key e) key then Entry key t d else e).

Definition raw_set (h : Z) (key : cstr) (t : espos_cfg_type_t) (buf : list Z) (len : nat) (m : espos_config_mem)
  : esp_err_t * espos_config_mem :=
  if (15 <? length key)%nat then (ESP_ERR_INVALID_ARG, m) else
  match set_len t buf len with
  | inl err => (err, m)
  | inr len =>
      let '(have, m) :=
        match find_entry (entries_at m h) key with
        | Some _ => (true, m)
        | None =>
            match m_alloc m with
            | (None, m') => (false, m')
            | (Some _, m') => (true, put_entries h (Entry key (TYPE_OTHER 0) [] :: entries_at m' h) m')
            end
        end in
      if negb have then (ESP_ERR_NO_MEM, m) else
      match m_alloc m with
      | (None, m') => (ESP_ERR_NO_MEM, m')
      | (Some _, m') => (ESP_OK, put_entries h (update_entry key t (take len buf) (entries_at m' h)) m')
      end
  end.

Definition espos_config_mem_plant (ns key : cstr) (t : espos_cfg_type_t) (buf : list Z) (len : nat)
  (m : espos_config_mem) : esp_err_t * espos_config_mem :=
  match find_ns m ns true with
  | (None, m') => (ESP_ERR_NO_MEM, m')
  | (Some h, m') => raw_set h key t buf len m'
  end.

Definition espos_config_mem_key_count (m : espos_config_mem) (ns : cstr) : nat :=
  match find_ns m ns false with
  | (Some h, _) => length (entries_at m h)
  | (None, _) => 0
  end.

Definition espos_config_mem_has_key (m : espos_config_mem) (ns key : cstr) : bool :=
  match find_ns m ns false with
  | (Some h, _) => bool_decide (is_Some (find_entry (entries_at m h) key))
  | (None, _) => false
  end.

(** ** The table of operations *)

Definition mem_init (m : espos_config_mem) : (esp_err_t * bool) * espos_config_mem :=
  ((ESP_OK, false), m <| m_inited := true |>).

Definition mem_open (ns : cstr) (m : espos_config_mem) : (esp_err_t * Z) * espos_config_mem :=
  if negb (m_inited m) then ((ESP_ERR_INVALID_STATE, 0), m) else
  match find_ns m ns true with
  | (None, m') => ((ESP_ERR_NO_MEM, 0), m')
  | (Some h, m') => ((ESP_OK, h), m')
  end.

Definition mem_close (h : Z) (m : espos_config_mem) : unit * espos_config_mem := (tt, m).

(** Without a buffer the length of a string or blob is all there is to get. *)
Definition mem_get (h : Z) (key : cstr) (t : espos_cfg_type_t) (buf : bool) (len : nat) (m : espos_config_mem)
  : (esp_err_t * list Z * nat) * espos_config_mem :=
  match find_entry (entries_at m h) key with
  | None => ((ESP_ERR_NOT_FOUND, [], len), m)
  | Some e =>
      let n := length (en_data e) in
      if negb (bool_decide (en_type e = t)) then ((ESP_ERR_INVALID_STATE, [], len), m) else
      if is_str_or_blob t then
        if negb buf then ((ESP_OK, [], n), m) else
        if (len <? n)%nat then ((ESP_ERR_INVALID_SIZE, [], n), m) else ((ESP_OK, en_data e, n), m)
      else
        if (len <? n)%nat then ((ESP_ERR_INVALID_SIZE, [], len), m) else ((ESP_OK, en_data e, n), m)
  end.

Definition mem_set (h : Z) (key : cstr) (t : espos_cfg_type_t) (buf : list Z) (len : nat) (m : espos_config_mem)
  : esp_err_t * espos_config_mem :=
  if negb (is_ok (m_write_fault m)) then (m_write_fault m, m) else raw_set h key t buf len m.

(** The first entry of that key is unlinked. *)
Fixpoint unlink (key : cstr) (es : list entry_t) : option (list entry_t) :=
  match es with
  | [] => None
  | e :: es' => if streq (en_key e) key then Some es' else option_map (cons e) (unlink key es')
  end.

Definition mem_erase_key (h : Z) (key : cstr) (m : espos_config_mem) : esp_err_t * espos_config_mem :=
  if negb (is_ok (m_write_fault m)) then (m_write_fault m, m) else
  match unlink key (entries_at m h) with
  | Some es => (ESP_OK, put_entries h es m)
  | None => (ESP_ERR_NOT_FOUND, m)
  end.

Definition mem_erase_all (h : Z) (m : espos_config_mem) : esp_err_t * espos_config_mem :=
  if negb (is_ok (m_write_fault m)) then (m_write_fault m, m) else (ESP_OK, put_entries h [] m).

Definition mem_commit (h : Z) (m : espos_config_mem) : esp_err_t * espos_config_mem := (m_write_fault m, m).

Definition mem_erase_storage (m : espos_config_mem) : esp_err_t * espos_config_mem :=
  (ESP_OK, (free_all m) <| m_inited := false |>).

Definition k_mem_backend : espos_config_backend_t espos_config_mem :=
  Backend _ mem_init mem_open mem_close mem_get mem_set mem_erase_key mem_erase_all mem_commit mem_erase_storage.

(** * The contract *)

(** What the lists hold, by names; a handle is the address of a live node. *)
#[export] Instance mem_storage : Storage espos_config_mem := {
  view m ns k :=
    n ← lookup_ns (m_namespaces m) ns; e ← find_entry (mn_entries n) k; Some (en_type e, en_data e);
  hns m h := mn_name <$> at_addr (m_namespaces m) h }.

Definition good_entries (es : list entry_t) : Prop :=
  NoDup (map en_key es) /\ Forall (fun e => wf_entry (en_type e, en_data e)) es.

(** Addresses are distinct, used and not null; names are distinct, and so are
    the keys of a namespace; every entry is the image of a value. The injected fault is not a
    [NOT_FOUND], which a backend reports only for a key that does not exist. *)
Record mem_good (m : espos_config_mem) : Prop := {
  mg_addr : NoDup (map mn_addr (m_namespaces m));
  mg_fresh : Forall (fun ns => 0 < mn_addr ns <= Z.of_nat (m_tick m)) (m_namespaces m);
  mg_name : NoDup (map mn_name (m_namespaces m));
  mg_entries : Forall (fun ns => good_entries (mn_entries ns)) (m_namespaces m);
  mg_fault : m_write_fault m <> ESP_ERR_NOT_FOUND }.

(** ** Searching lists without duplicates *)

#[local] Arguments put_ns : simpl never.
#[local] Arguments lookup_ns : simpl never.
#[local] Arguments at_addr : simpl never.
#[local] Arguments find_entry : simpl never.

Lemma find_by_name l n : NoDup (map mn_name l) -> n ∈ l -> lookup_ns l (mn_name n) = Some n.
Proof.
  induction l as [|x l IH]; intros Hd Hin; [by apply not_elem_of_nil in Hin|]. unfold lookup_ns in *. cbn.
  apply NoDup_cons in Hd as [Hx Hd]. apply elem_of_cons in Hin as [->|Hin].
  - by rewrite (proj2 (streq_true _ _) eq_refl).
  - destruct (streq (mn_name x) (mn_name n)) eqn:E; [|by apply IH].
    apply streq_true in E. destruct Hx. rewrite E. by apply (list_elem_of_fmap_2 mn_name).
Qed.

Lemma lookup_ns_some l ns n : lookup_ns l ns = Some n -> n ∈ l /\ mn_name n = ns.
Proof. intros H%find_some. rewrite <- list_elem_of_In, streq_true in H. done. Qed.

Lemma at_addr_some l h n : at_addr l h = Some n -> n ∈ l /\ mn_addr n = h.
Proof. intros H%find_some. rewrite <- list_elem_of_In, Z.eqb_eq in H. done. Qed.

Lemma find_entry_some es k e : find_entry es k = Some e -> e ∈ es /\ en_key e = k.
Proof. intros H%find_some. rewrite <- list_elem_of_In, streq_true in H. done. Qed.

Lemma find_entry_none es k : find_entry es k = None -> k ∉ map en_key es.
Proof.
  intros H Hin. apply list_elem_of_fmap in Hin as (e & -> & He).
  rewrite list_elem_of_In in He. apply (find_none _ _ H) in He. by rewrite (proj2 (streq_true _ _) eq_refl) in He.
Qed.

(** ** Replacing the entries of a namespace *)

Lemma put_ns_addr h es l : map mn_addr (put_ns h es l) = map mn_addr l.
Proof. unfold put_ns. rewrite map_map. apply map_ext. intros ns. by destruct (mn_addr ns =? h). Qed.

Lemma put_ns_name h es l : map mn_name (put_ns h es l) = map mn_name l.
Proof. unfold put_ns. rewrite map_map. apply map_ext. intros ns. by destruct (mn_addr ns =? h). Qed.

Lemma at_addr_put h es l h' :
  mn_name <$> at_addr (put_ns h es l) h' = mn_name <$> at_addr l h'.
Proof.
  induction l as [|x l IH]; [done|]. unfold put_ns, at_addr in *. cbn.
  destruct (mn_addr x =? h) eqn:E; cbn; destruct (mn_addr x =? h'); done.
Qed.

Lemma put_ns_fresh h es l : h ∉ map mn_addr l -> put_ns h es l = l.
Proof.
  intros Hx. unfold put_ns. rewrite <- (map_id l) at 2. apply map_ext_in. intros y Hy.
  destruct (mn_addr y =? h) eqn:E; [|done]. destruct Hx. apply Z.eqb_eq in E. rewrite <- E.
  apply (list_elem_of_fmap_2 mn_addr), list_elem_of_In, Hy.
Qed.

Lemma lookup_put_other h es l ns n : at_addr l h = Some n -> mn_name n <> ns ->
  NoDup (map mn_addr l) -> lookup_ns (put_ns h es l) ns = lookup_ns l ns.
Proof.
  induction l as [|x l IH]; [done|]. intros Ha Hne Hd. apply NoDup_cons in Hd as [Hx Hd].
  unfold put_ns. cbn [map]. fold (put_ns h es l). unfold at_addr in Ha. cbn [List.find] in Ha.
  destruct (Z.eqb_spec (mn_addr x) h) as [<-|]; unfold lookup_ns in *; cbn [List.find].
  - injection Ha as ->. cbn [mn_name]. rewrite put_ns_fresh by done. cbn.
    destruct (streq (mn_name n) ns) eqn:E; [by apply streq_true in E|done].
  - destruct (streq (mn_name x) ns); [done|]. by apply IH.
Qed.

Lemma lookup_put_same h es l n : at_addr l h = Some n -> NoDup (map mn_name l) ->
  lookup_ns (put_ns h es l) (mn_name n) = Some (n <| mn_entries := es |>).
Proof.
  intros [Hn Ha]%at_addr_some Hd. change (mn_name n) with (mn_name (n <| mn_entries := es |>)).
  apply find_by_name.
  - by rewrite put_ns_name.
  - apply list_elem_of_fmap. exists n. split; [|done]. by rewrite (proj2 (Z.eqb_eq _ _) Ha).
Qed.

Lemma view_entries m h n k : mem_good m -> at_addr (m_namespaces m) h = Some n ->
  view m (mn_name n) k = (e ← find_entry (entries_at m h) k; Some (en_type e, en_data e)).
Proof.
  intros G Ha. cbn. rewrite (find_by_name _ n); [|apply G|by destruct (at_addr_some _ _ _ Ha)].
  unfold entries_at. by rewrite Ha.
Qed.

Lemma put_entries_spec m h n es : mem_good m -> at_addr (m_namespaces m) h = Some n -> good_entries es ->
  mem_good (put_entries h es m) /\
  (forall k, view (put_entries h es m) (mn_name n) k = (e ← find_entry es k; Some (en_type e, en_data e))) /\
  (forall ns k, ns <> mn_name n -> view (put_entries h es m) ns k = view m ns k) /\
  (forall h', hns (put_entries h es m) h' = hns m h').
Proof.
  intros G Ha He. pose proof (lookup_put_same h es _ n Ha (mg_name _ G)) as Hs. split_and!.
  - destruct G as [G1 G2 G3 G4 G5]. split; cbn; rewrite ?put_ns_addr, ?put_ns_name; try done.
    + apply Forall_map. eapply Forall_impl; [exact G2|]. cbn. intros ns Hn. by destruct (mn_addr ns =? h).
    + apply Forall_map. eapply Forall_impl; [exact G4|]. cbn. intros ns Hn. by destruct (mn_addr ns =? h).
  - intros k. cbn. by rewrite Hs.
  - intros ns k Hne. cbn. rewrite (lookup_put_other _ _ _ _ n); [done|done|done|apply G].
  - intros h'. cbn. apply at_addr_put.
Qed.

(** ** Entries *)

Lemma find_entry_update es key t d k : find_entry es key <> None ->
  find_entry (update_entry key t d es) k = if streq key k then Some (Entry key t d) else find_entry es k.
Proof.
  intros Hk. destruct (streq key k) eqn:E.
  - apply streq_true in E as <-. induction es as [|e es IH]; [done|]. unfold find_entry in *. cbn in *.
    destruct (streq (en_key e) key) eqn:E2; cbn; [by rewrite (proj2 (streq_true _ _) eq_refl)|]. rewrite E2. by apply IH.
  - clear Hk. induction es as [|e es IH]; [done|]. unfold find_entry in *. cbn.
    destruct (streq (en_key e) key) eqn:E2; cbn; [|by rewrite IH].
    apply streq_true in E2. rewrite E2, E. apply IH.
Qed.

Lemma update_entry_keys key t d es : map en_key (update_entry key t d es) = map en_key es.
Proof.
  unfold update_entry. rewrite map_map. apply map_ext. intros e. destruct (streq (en_key e) key) eqn:E; [|done].
  by apply streq_true in E.
Qed.

Lemma good_update key t d es : good_entries es -> wf_entry (t, d) -> good_entries (update_entry key t d es).
Proof.
  intros [H1 H2] H3. split; [by rewrite update_entry_keys|]. apply Forall_map. eapply Forall_impl; [exact H2|].
  intros e He. by destruct (streq (en_key e) key).
Qed.

Lemma good_cons key es : good_entries es -> find_entry es key = None ->
  good_entries (Entry key (TYPE_OTHER 0) [] :: es).
Proof. intros [H1 H2] H3%find_entry_none. split; [by apply NoDup_cons|by constructor]. Qed.

Lemma unlink_some key es es' : good_entries es -> unlink key es = Some es' ->
  good_entries es' /\ find_entry es' key = None /\ forall k, k <> key -> find_entry es' k = find_entry es k.
Proof.
  revert es'. induction es as [|e es IH]; intros es' [H1 H2]; [done|]. cbn [unlink].
  apply NoDup_cons in H1 as [H1 H1']. apply Forall_cons in H2 as [H2 H2'].
  destruct (streq (en_key e) key) eqn:E.
  - intros [= <-]. apply streq_true in E. split_and!; [done| |].
    + destruct (find_entry es key) as [x|] eqn:F; [|done]. apply find_entry_some in F as [F1 F2]. destruct H1.
      rewrite E, <- F2. by apply (list_elem_of_fmap_2 en_key).
    + intros k Hk. unfold find_entry. cbn. destruct (streq (en_key e) k) eqn:E2; [|done]. apply streq_true in E2. congruence.
  - destruct (unlink key es) as [u|] eqn:U; [|done]. cbn. intros [= <-].
    destruct (IH u (conj H1' H2') eq_refl) as ((I1 & I2) & I3 & I4). split_and!.
    + split; [|by constructor]. cbn. apply NoDup_cons. split; [|done]. intros Hin. apply H1.
      apply list_elem_of_fmap in Hin as (x & Hx & Hin). rewrite Hx. apply (list_elem_of_fmap_2 en_key).
      clear -U Hin. revert u U Hin. induction es as [|y es IHes]; intros u U Hin; [done|]. cbn in U.
      destruct (streq (en_key y) key); [injection U as ->; by right|].
      destruct (unlink key es) as [v|]; [|done]. injection U as <-. apply elem_of_cons in Hin as [->|Hin]; [by left|right; eauto].
    + unfold find_entry in *. cbn. by rewrite E.
    + intros k Hk. unfold find_entry in *. cbn. destruct (streq (en_key e) k); [done|by apply I4].
Qed.

Lemma unlink_none key es : unlink key es = None -> find_entry es key = None.
Proof.
  induction es as [|e es IH]; [done|]. unfold find_entry in *. cbn. destruct (streq (en_key e) key); [done|].
  destruct (unlink key es); [done|]. auto.
Qed.

Lemma set_len_take t buf len n : set_args t buf len -> set_len t buf len = inr n ->
  take n buf = take len buf /\ wf_entry (t, take len buf).
Proof.
  destruct t; cbn; try done.
  - intros [[->| ->] ->] [= <-]; (split; [done|]); cbn; eexists; split; done || lia.
  - intros (H1 & -> & H2) [= <-]. rewrite take_ge by lia. done.
  - intros (H1 & -> & H2) [= <-]. rewrite take_ge by lia. done.
  - intros [(s & -> & Hs) ->]. rewrite (c_string_app s [] Hs). destruct (4000 <? _); [done|]. intros [= <-].
    rewrite length_app. cbn [length]. split; [done|]. exists s. split; [|done].
    rewrite take_ge; [done|]. rewrite length_app. done.
  - intros (H1 & H2 & H3). destruct (508000 <? _); [done|]. intros [= <-]. split; [done|]. by apply Forall_take.
Qed.

(** ** Growing the store *)

Lemma good_tick m : mem_good m -> mem_good (m <| m_tick ::= S |>).
Proof.
  intros [G1 G2 G3 G4 G5]. split; cbn; try done. eapply Forall_impl; [exact G2|]. cbn. lia.
Qed.

Lemma good_inited m b : mem_good m -> mem_good (m <| m_inited := b |>).
Proof. intros [G1 G2 G3 G4 G5]. by split. Qed.

Lemma at_addr_in m h ns : hns m h = Some ns -> exists n, at_addr (m_namespaces m) h = Some n /\ mn_name n = ns.
Proof. cbn. destruct (at_addr _ h) as [n|]; [|done]. intros [= <-]. eauto. Qed.

Lemma find_ns_create m ns : mem_good m ->
  let '(o, m') := find_ns m ns true in
  mem_good m' /\ (forall n k, view m' n k = view m n k) /\ (forall h' n, hns m h' = Some n -> hns m' h' = Some n) /\
  (forall h, o = Some h -> h <> 0 /\ hns m' h = Some ns).
Proof.
  intros G. unfold find_ns. destruct (lookup_ns (m_namespaces m) ns) as [x|] eqn:F.
  - split_and!; try done. intros h [= <-]. apply lookup_ns_some in F as [F1 F2].
    pose proof (proj1 (Forall_forall _ _) (mg_fresh _ G) x F1) as Hx. cbn in Hx. split; [lia|]. cbn.
    destruct (at_addr (m_namespaces m) (mn_addr x)) as [y|] eqn:A.
    + apply at_addr_some in A as [A1 A2]. cbn. f_equal. rewrite <- F2. f_equal.
      apply list_elem_of_lookup in A1 as [i A1], F1 as [j F1].
      assert (i = j) as ->; [|congruence].
      eapply (NoDup_lookup (map mn_addr (m_namespaces m))); [apply G| |];
        rewrite list_lookup_fmap; [rewrite A1|rewrite F1]; cbn; by rewrite ?A2.
    + rewrite list_elem_of_In in F1. apply (find_none _ _ A) in F1. cbn in F1. lia.
  - destruct (negb true || (15 <? length ns)%nat); [by split_and!|]. unfold m_alloc.
    pose proof (good_tick m G) as G'. destruct (m_heap m (m_tick m)); [|by split_and!].
    set (a := Z.of_nat (m_tick m) + 1).
    assert (a ∉ map mn_addr (m_namespaces m)) as Ha.
    { intros Hin. apply list_elem_of_fmap in Hin as (x & E & Hx).
      pose proof (proj1 (Forall_forall _ _) (mg_fresh _ G) x Hx) as H. cbn in H. lia. }
    assert (ns ∉ map mn_name (m_namespaces m)) as Hn.
    { intros Hin. apply list_elem_of_fmap in Hin as (x & -> & Hx). by rewrite (find_by_name _ x) in F by (done || apply G). }
    destruct G' as [G1 G2 G3 G4 G5]. split_and!.
    + split; cbn in *; try done; try (apply NoDup_cons; done).
      * constructor; [cbn; lia|done].
      * constructor; [|done]. split; constructor.
    + intros n k. cbn. fold (streq ns n). unfold lookup_ns at 1. cbn. destruct (streq ns n) eqn:E; [|done].
      apply streq_true in E as <-. by rewrite F.
    + intros h' n. cbn. unfold at_addr at 2. cbn. destruct (Z.eqb_spec a h') as [<-|]; [|done].
      destruct (at_addr (m_namespaces m) a) as [x|] eqn:A; [|done]. apply at_addr_some in A as [A1 A2].
      destruct Ha. rewrite <- A2. by apply (list_elem_of_fmap_2 mn_addr).
    + intros h [= <-]. split; [lia|]. cbn. unfold at_addr. cbn. by rewrite Z.eqb_refl.
Qed.

(** ** The operations *)

(** An update of the entries of one namespace at one key. *)
Lemma put_only_at m h n key es : mem_good m -> at_addr (m_namespaces m) h = Some n -> good_entries es ->
  (forall k, k <> key -> find_entry es k = find_entry (entries_at m h) k) ->
  mem_good (put_entries h es m) /\ only_at (mn_name n) key m (put_entries h es m) /\
  view (put_entries h es m) (mn_name n) key = (e ← find_entry es key; Some (en_type e, en_data e)).
Proof.
  intros G Ha He Hk. destruct (put_entries_spec m h n es G Ha He) as (P1 & P2 & P3 & P4). split_and!; [done| |done].
  split; [|done]. intros ns k Hne. destruct (decide (ns = mn_name n)) as [->|]; [|by apply P3].
  rewrite P2, (view_entries m h n) by done. rewrite Hk; [done|]. congruence.
Qed.

Lemma mem_good_entries m h n : mem_good m -> at_addr (m_namespaces m) h = Some n -> good_entries (entries_at m h).
Proof.
  intros G Ha. unfold entries_at. rewrite Ha. apply at_addr_some in Ha as [Hn _].
  apply (proj1 (Forall_forall _ _) (mg_entries _ G) n Hn).
Qed.

Lemma raw_set_spec m h n key t buf len : mem_good m -> at_addr (m_namespaces m) h = Some n -> set_args t buf len ->
  let '(e, m') := raw_set h key t buf len m in
  mem_good m' /\ only_at (mn_name n) key m m' /\ (e = ESP_OK -> view m' (mn_name n) key = Some (t, take len buf)).
Proof.
  intros G Ha Hs. unfold raw_set. destruct (15 <? length key)%nat; [by split_and!|].
  destruct (set_len t buf len) as [e|l] eqn:L.
  { assert (e <> ESP_OK). { destruct t; cbn in L; repeat case_match; congruence. } by split_and!. }
  destruct (set_len_take _ _ _ _ Hs L) as [Ht Hw]. rewrite Ht.
  (* the entry exists, in a store that differs at the key only *)
  assert (exists have m1, match find_entry (entries_at m h) key with
        | Some _ => (true, m)
        | None => match m_alloc m with
            | (None, m') => (false, m')
            | (Some _, m') => (true, put_entries h (Entry key (TYPE_OTHER 0) [] :: entries_at m' h) m')
            end
        end = (have, m1) /\ mem_good m1 /\ only_at (mn_name n) key m m1 /\
        (have = true -> exists n1, at_addr (m_namespaces m1) h = Some n1 /\ mn_name n1 = mn_name n /\ find_entry (entries_at m1 h) key <> None))
    as (have & m1 & -> & G1 & O1 & H1).
  { destruct (find_entry (entries_at m h) key) as [e|] eqn:F.
    { exists true, m. split_and!; try done. intros _. exists n. by rewrite F. }
    unfold m_alloc. pose proof (good_tick m G) as Gt. destruct (m_heap m (m_tick m)).
    2:{ eexists false, _. by split_and!. }
    eexists true, _. split; [reflexivity|].
    destruct (put_only_at (m <| m_tick ::= S |>) h n key (Entry key (TYPE_OTHER 0) [] :: entries_at m h)) as (P1 & P2 & P3).
    - done.
    - done.
    - apply good_cons; [by eapply mem_good_entries|done].
    - intros k Hk. unfold find_entry at 1. cbn. destruct (streq key k) eqn:E; [by apply streq_true in E|done].
    - split_and!; [done|done|]. intros _.
      assert (hns (put_entries h (Entry key (TYPE_OTHER 0) [] :: entries_at m h) (m <| m_tick ::= S |>)) h = Some (mn_name n)) as Hh.
      { rewrite (only_at_hns _ _ _ _ _ P2). cbn. by rewrite Ha. }
      apply at_addr_in in Hh as (n1 & A1 & A2). exists n1. split_and!; [done|done|]. intros F1.
      rewrite <- A2, (view_entries _ h) in P3 by done. change (entries_at (m <| m_tick ::= S |>) h) with (entries_at m h) in *.
      rewrite F1 in P3. unfold find_entry in P3. cbn in P3. by rewrite (proj2 (streq_true _ _) eq_refl) in P3. }
  destruct have; cbn [negb]; [|by split_and!]. destruct H1 as (n1 & A1 & A2 & F1); [done|].
  unfold m_alloc. pose proof (good_tick m1 G1) as Gt. destruct (m_heap m1 (m_tick m1)); [|by split_and!].
  destruct (put_only_at (m1 <| m_tick ::= S |>) h n1 key (update_entry key t (take len buf) (entries_at m1 h))) as (P1 & P2 & P3).
  - done.
  - done.
  - apply good_update; [by eapply mem_good_entries|done].
  - intros k Hk. rewrite find_entry_update by done. destruct (streq key k) eqn:E; [by apply streq_true in E|done].
  - rewrite A2 in P2, P3. split_and!; [done|by eapply only_at_trans|]. intros _.
    change (entries_at (m1 <| m_tick ::= S |>) h) with (entries_at m1 h). rewrite P3, find_entry_update by done.
    by rewrite (proj2 (streq_true _ _) eq_refl).
Qed.

Lemma mem_get_spec m h n key t cap : mem_good m -> at_addr (m_namespaces m) h = Some n ->
  let '(r, m') := mem_get h key t true cap m in m' = m /\ get_spec (view m (mn_name n) key) t cap r.
Proof.
  intros G Ha. rewrite (view_entries m h n) by done. unfold mem_get, get_spec.
  destruct (find_entry (entries_at m h) key) as [e|]; [|done]. cbn [mbind option_bind].
  destruct (bool_decide (en_type e = t)) eqn:E; cbn [negb]; [|done].
  destruct (is_str_or_blob t), (cap <? length (en_data e))%nat; done.
Qed.

Lemma mem_erase_spec m h n key : mem_good m -> at_addr (m_namespaces m) h = Some n ->
  let '(e, m') := mem_erase_key h key m in
  mem_good m' /\ only_at (mn_name n) key m m' /\ (e = ESP_OK \/ e = ESP_ERR_NOT_FOUND -> view m' (mn_name n) key = None).
Proof.
  intros G Ha. unfold mem_erase_key. destruct (is_ok (m_write_fault m)) eqn:E; cbn [negb].
  2:{ apply is_ok_false in E. split_and!; try done. intros [?|?]; [done|]. by destruct (mg_fault _ G). }
  destruct (unlink key (entries_at m h)) as [es|] eqn:U.
  - destruct (unlink_some _ _ _ (mem_good_entries _ _ _ G Ha) U) as (U1 & U2 & U3).
    destruct (put_only_at m h n key es G Ha U1 U3) as (P1 & P2 & P3). split_and!; [done|done|]. intros _. by rewrite P3, U2.
  - apply unlink_none in U. split_and!; try done. intros _. by rewrite (view_entries m h n), U.
Qed.

Lemma mem_view_wf m ns k e : mem_good m -> view m ns k = Some e -> wf_entry e.
Proof.
  intros G. cbn. destruct (lookup_ns _ ns) as [n|] eqn:L; [|done]. cbn. apply lookup_ns_some in L as [L _].
  destruct (find_entry (mn_entries n) k) as [x|] eqn:F; [|done]. intros [= <-]. apply find_entry_some in F as [F _].
  destruct (proj1 (Forall_forall _ _) (mg_entries _ G) n L) as [_ H]. by apply (proj1 (Forall_forall _ _) H x).
Qed.

(** The in-memory backend is a backend. *)
#[export] Instance mem_laws : BackendLaws k_mem_backend mem_good.
Proof.
  split; cbn [be_get be_set be_erase_key be_commit be_open be_close be_init be_erase_storage k_mem_backend].
  - intros. by eapply mem_view_wf.
  - intros m h ns key t cap G (n & Ha & <-)%at_addr_in _. pose proof (mem_get_spec m h n key t cap G Ha) as H.
    destruct (mem_get _ _ _ _ _ _) as [r m']. by destruct H as [-> H].
  - intros m h ns key t buf len G (n & Ha & <-)%at_addr_in Hs. unfold mem_set.
    destruct (is_ok (m_write_fault m)) eqn:E; cbn [negb]; [by apply raw_set_spec|].
    apply is_ok_false in E. by split_and!.
  - intros m h ns key G (n & Ha & <-)%at_addr_in. by apply mem_erase_spec.
  - done.
  - intros m ns G. unfold mem_open. destruct (m_inited m); cbn [negb]; [|by split_and!].
    pose proof (find_ns_create m ns G) as H. destruct (find_ns m ns true) as [[h|] m'].
    + destruct H as (H1 & H2 & H3 & H4). split_and!; try done. intros _. by apply H4.
    + destruct H as (H1 & H2 & H3 & H4). by split_and!.
  - done.
  - intros m G. split; [by apply good_inited|done].
  - intros m G. split; [|done]. unfold mem_erase_storage. destruct G as [G1 G2 G3 G4 G5]. by split; cbn; try constructor.
Qed.

(** The in-memory backend keeps the contract of espos_config_backend.h from
    its creation on, whatever allocations fail and whatever write fault (but
    [NOT_FOUND]) is injected: typed gets return what was set, an entry of another
    type or that does not fit is an error, a set or an erase touches its own key
    only, handles stay valid, and a wipe leaves nothing. *)
Theorem config_mem_backend heap tick err :
  err <> ESP_ERR_NOT_FOUND ->
  mem_good (espos_config_mem_set_write_fault err (espos_config_mem_create heap tick)) /\ BackendLaws k_mem_backend mem_good.
Proof. intros He. split; [|apply mem_laws]. by split; cbn; try constructor. Qed.

Lemma config_mem_backend_witness :
  mem_good (espos_config_mem_set_write_fault ESP_FAIL (espos_config_mem_create (fun n => Nat.even n) 4)) /\
  BackendLaws k_mem_backend mem_good.
Proof. apply (config_mem_backend (fun n => Nat.even n) 4 ESP_FAIL). discriminate. Defined.
