(* ===== verification/ConfigSpec.v ===== *)
(** The configuration store against its backend: the effective value a stored
    entry stands for, and what reading, writing and resetting one key do to the
    storage, for any backend that keeps its contract. *)
From Stdlib Require Import ZArith Lia.
From stdpp Require Import base numbers list.
From S2P Require Import Prelude ConfigDesc ConfigStore ConfigLaws.
Open Scope Z_scope.

(** * Effective values *)

(** The default as a read returns it: a string cut to the key's length. *)
Definition default_read (kd : espos_cfg_key_t) : espos_cfg_value_t :=
  match k_type kd with
  | ESPOS_CFG_TYPE_STRING => VStr (Some (cut_str (k_max_len kd) (str_of (sc_s (k_def kd)))))
  | ESPOS_CFG_TYPE_BLOB => VBlob (Some []) 0
  | _ => default_value kd
  end.

(** The value of a stored image of the key's type, if it is an acceptable one. *)
Definition decode (kd : espos_cfg_key_t) (d : list Z) : option espos_cfg_value_t :=
  let ok v := if valid kd v then Some v else None in
  match k_type kd with
  | ESPOS_CFG_TYPE_BOOL => if dec_bool d <=? 1 then Some (VBool (negb (dec_bool d =? 0))) else None
  | ESPOS_CFG_TYPE_INT => ok (VInt (dec_i32 d))
  | ESPOS_CFG_TYPE_FLOAT => ok (VFloat (dec_f32 d))
  | ESPOS_CFG_TYPE_STRING => if (k_max_len kd + 1 <? length d)%nat then None else ok (VStr (Some (c_string d)))
  | ESPOS_CFG_TYPE_BLOB => ok (VBlob (Some d) (length d))
  | TYPE_OTHER _ => None
  end.

Definition stored_value (kd : espos_cfg_key_t) (o : option entry) : option espos_cfg_value_t :=
  match o with
  | Some (t, d) => if bool_decide (t = k_type kd) then decode kd d else None
  | None => None
  end.

(** The specification of a read: the stored value when there is an acceptable
    one, the default otherwise. *)
Definition effective (kd : espos_cfg_key_t) (o : option entry) : espos_cfg_value_t :=
  default (default_read kd) (stored_value kd o).

(** The bytes of a blob beyond its length are not part of the value. *)
Definition norm (v : espos_cfg_value_t) : espos_cfg_value_t :=
  match v with VBlob p n => VBlob (Some (take n (str_of p))) n | _ => v end.

(** The image of a value in storage; an empty blob is stored as no entry. *)
Definition image (v : espos_cfg_value_t) : option entry :=
  match v with
  | VBool b => Some (ESPOS_CFG_TYPE_BOOL, [if b then 1 else 0])
  | VInt i => Some (ESPOS_CFG_TYPE_INT, bytes32 (u32 i))
  | VFloat f => Some (ESPOS_CFG_TYPE_FLOAT, bytes32 f)
  | VStr s => Some (ESPOS_CFG_TYPE_STRING, str_of s ++ [0])
  | VBlob p n => if (n =? 0)%nat then None else Some (ESPOS_CFG_TYPE_BLOB, take n (str_of p))
  | VOther _ => None
  end.

(** A value as C can hold it. *)
Definition wf_value (v : espos_cfg_value_t) : Prop :=
  match v with
  | VBool _ => True
  | VInt i => - 2 ^ 31 <= i < 2 ^ 31
  | VFloat f => 0 <= f < 2 ^ 32
  | VStr s => wf_str (str_of s)
  | VBlob p n => wf_bytes (str_of p) /\ (n <= length (str_of p))%nat
  | VOther _ => True
  end.

Lemma u32_range x : 0 <= u32 x < 2 ^ 32.
Proof. apply Z.mod_pos_bound. lia. Qed.

Lemma bytes32_wf x : wf_bytes (bytes32 x).
Proof. unfold bytes32. repeat constructor; apply Z.mod_pos_bound; lia. Qed.

Lemma overlay_full buf data : length buf = length data -> overlay buf data = data.
Proof. intros H. unfold overlay. rewrite drop_ge by lia. apply app_nil_r. Qed.

Lemma overlay_take buf data : take (length data) (overlay buf data) = data.
Proof. unfold overlay. rewrite take_app_le by lia. by rewrite take_ge. Qed.

Lemma c_string_overlay n buf s : wf_str s -> length buf = S n -> (length s <= n)%nat ->
  c_string (<[n := 0]> (overlay buf (s ++ [0]))) = s.
Proof.
  intros Hs Hb Hn. unfold overlay. destruct (decide (length s = n)) as [<-|].
  - rewrite length_app. cbn [length]. rewrite drop_ge by lia. rewrite app_nil_r.
    rewrite (insert_app_r_alt s [0] (length s) 0) by lia. rewrite Nat.sub_diag. by apply c_string_app.
  - rewrite <- app_assoc. rewrite insert_app_r_alt by lia. cbn [app].
    replace (n - length s)%nat with (S (n - length s - 1)) by lia. cbn. by apply c_string_app.
Qed.

(** What is stored for a valid value reads back as that value. *)
Lemma stored_image kd v : valid kd v = true -> wf_value v ->
  norm (effective kd (image v)) = norm v.
Proof.
  intros Hv Hw. pose proof (proj1 (valid_none _ _) Hv) as Hn. pose proof (validate_type _ _ Hn) as Ht.
  unfold effective, stored_value, decode, default_read, image. rewrite <- Ht.
  destruct v as [b|i|f|s|p n|t]; cbn [v_type] in *.
  - rewrite bool_decide_true by done. by destruct b.
  - rewrite bool_decide_true by done. unfold dec_i32. rewrite overlay_full by done.
    rewrite i32_u32_bytes by done. by rewrite Hv.
  - rewrite bool_decide_true by done. unfold dec_f32. rewrite overlay_full by done.
    rewrite get32_bytes32 by done. by rewrite Hv.
  - destruct (validate_str _ _ Hn) as (t & -> & Hl). rewrite bool_decide_true by done.
    cbn [str_of default from_option id] in *. rewrite c_string_app by done. rewrite length_app. cbn [length].
    destruct (Nat.ltb_spec (k_max_len kd + 1) (length t + 1)); [lia|]. by rewrite Hv.
  - destruct (validate_blob _ _ _ Hn) as [Hl Hp]. destruct (Nat.eqb_spec n 0) as [->|Hz]; [done|].
    rewrite bool_decide_true by done. destruct Hw as [Hw Hb].
    assert (length (take n (str_of p)) = n) as Hlen by (rewrite length_take; lia). rewrite Hlen.
    assert (valid kd (VBlob (Some (take n (str_of p))) n) = true) as ->.
    { apply valid_none. unfold espos_config_validate in *. cbn [v_type] in *. case_bool_decide; [|done]. cbn [negb] in *.
      destruct (k_max_len kd <? n)%nat; [done|]. by rewrite andb_false_r. }
    cbn. by rewrite take_take, Nat.min_id.
  - by unfold espos_config_validate in Hn; case_bool_decide.
Qed.

(** The same values up to what the code compares: floats by value. *)
Lemma value_eqb_norm t cur cur' val : norm cur = norm cur' -> value_eqb t cur val = value_eqb t cur' val.
Proof.
  intros H. assert (v_b cur = v_b cur' /\ v_i cur = v_i cur' /\ v_f cur = v_f cur' /\ v_s cur = v_s cur' /\ v_len cur = v_len cur'
    /\ take (v_len cur) (str_of (v_p cur)) = take (v_len cur') (str_of (v_p cur'))) as (H1 & H2 & H3 & H4 & H5 & H6).
  { destruct cur, cur'; cbn [norm] in H; try discriminate H; try (injection H as ->; done).
    injection H as E ->. done. }
  destruct t; cbn; rewrite ?H1, ?H2, ?H3, ?H4, ?H5; try done.
  destruct (Nat.eqb_spec (v_len cur') (v_len val)) as [E|]; [|done]. unfold memeq. rewrite <- E. rewrite H5 in H6. by rewrite H6.
Qed.

Lemma valid_int kd i : k_type kd = ESPOS_CFG_TYPE_INT ->
  valid kd (VInt i) = (sc_i (k_min kd) <=? i) && (i <=? sc_i (k_max kd)).
Proof.
  intros T. apply eq_bool_prop_intro. unfold valid. rewrite bool_decide_spec. unfold espos_config_validate. cbn [v_type].
  rewrite T, bool_decide_true by done. cbn [negb].
  destruct (Z.ltb_spec i (sc_i (k_min kd))), (Z.ltb_spec (sc_i (k_max kd)) i),
    (Z.leb_spec (sc_i (k_min kd)) i), (Z.leb_spec i (sc_i (k_max kd))); cbn; lia || done.
Qed.

(** * Reading and writing one key *)

Definition is_notify (o : obs) : bool := match o with ONotify _ _ _ _ => true | _ => false end.

(** The callbacks run so far. *)
Definition notes (tr : list obs) : list obs := filter (fun o => is_notify o = true) tr.

Section Spec.
Context `{Storage W} (be : espos_config_backend_t W) (ev : env W) (good : W -> Prop).
Context `{!BackendLaws be good} `{!EnvLaws ev good}.
Context (namespaces : list espos_cfg_ns_t) (rt_desc : Z -> espos_cfg_ns_t).

#[local] Abbreviation M := (act cfg W obs).
#[local] Abbreviation st := (mach cfg W obs).
#[local] Abbreviation deref := (deref namespaces rt_desc).
#[local] Abbreviation ref_name := (ref_name namespaces rt_desc).
#[local] Abbreviation slot_for := (slot_for namespaces).

(** Nothing has changed for a client of the store. *)
Definition quiet (s s' : st) : Prop :=
  m_sm s' = m_sm s /\ good (m_world s') /\ store_eq (m_world s) (m_world s') /\ notes (m_trace s') = notes (m_trace s).

(** At most the entry under one key has. *)
Definition wrote (ns key : cstr) (s s' : st) : Prop :=
  m_sm s' = m_sm s /\ good (m_world s') /\ only_at ns key (m_world s) (m_world s') /\ notes (m_trace s') = notes (m_trace s).

Lemma cfg_quiet_refl s : good (m_world s) -> quiet s s.
Proof. intros G. by split_and!. Qed.

Lemma quiet_trans s1 s2 s3 : quiet s1 s2 -> quiet s2 s3 -> quiet s1 s3.
Proof. intros (A1 & A2 & A3 & A4) (B1 & B2 & B3 & B4). split_and!; [congruence|done|by etransitivity|congruence]. Qed.

Lemma quiet_wrote ns key s1 s2 : quiet s1 s2 -> wrote ns key s1 s2.
Proof. intros (A1 & A2 & A3 & A4). split_and!; try done. by apply store_eq_at. Qed.

Lemma wrote_trans ns key s1 s2 s3 : wrote ns key s1 s2 -> wrote ns key s2 s3 -> wrote ns key s1 s3.
Proof. intros (A1 & A2 & A3 & A4) (B1 & B2 & B3 & B4). split_and!; [congruence|done|by eapply only_at_trans|congruence]. Qed.

(** The slot [r] is open on namespace [ns] with descriptor [nd]. *)
Record open_slot (s : st) (r : slot_ref) (nd : nsref) (h : Z) (ns : cstr) : Prop := {
  os_slot : slot_for (m_sm s) nd = Some r;
  os_desc : st_desc (slot_get (m_sm s) r) = Some nd;
  os_h : st_h (slot_get (m_sm s) r) = h;
  os_nz : h <> 0;
  os_ns : hns (m_world s) h = Some ns }.

Lemma open_slot_wrote s s' r nd h ns n k : wrote n k s s' -> open_slot s r nd h ns -> open_slot s' r nd h ns.
Proof. intros (A1 & A2 & A3 & A4) [B1 B2 B3 B4 B5]. split; rewrite ?A1, ?(only_at_hns _ _ _ _ _ A3); done. Qed.

Lemma open_slot_quiet s s' r nd h ns : quiet s s' -> open_slot s r nd h ns -> open_slot s' r nd h ns.
Proof. intros A. apply (open_slot_wrote _ _ _ _ _ _ [] []). by apply quiet_wrote. Qed.

Ltac prj := cbn [m_sm m_world m_trace notes filter list_filter is_notify decide] in *.

(** ** Backend calls under the contract *)

Lemma wp_get h key t cap ns Q s : good (m_world s) -> hns (m_world s) h = Some ns -> get_args t cap ->
  (forall r s', quiet s s' -> get_spec (view (m_world s) ns key) t cap r -> Q r s') ->
  wp (get be h key t cap) Q s.
Proof.
  intros G Hh Ha HQ. unfold wp, get, call. pose proof (law_get (m_world s) h ns key t cap G Hh Ha) as L.
  destruct (be_get be h key t true cap (m_world s)) as [r w']. destruct L as (L1 & L2 & L3). by apply HQ.
Qed.

Lemma wp_set h key t buf len ns Q s : good (m_world s) -> hns (m_world s) h = Some ns -> set_args t buf len ->
  (forall e s', wrote ns key s s' -> (e = ESP_OK -> view (m_world s') ns key = Some (t, take len buf)) -> Q e s') ->
  wp (set be h key t buf len) Q s.
Proof.
  intros G Hh Ha HQ. unfold wp, set, call. pose proof (law_set (m_world s) h ns key t buf len G Hh Ha) as L.
  destruct (be_set be h key t buf len (m_world s)) as [r w']. destruct L as (L1 & L2 & L3). by apply HQ.
Qed.

Lemma wp_erase h key ns Q s : good (m_world s) -> hns (m_world s) h = Some ns ->
  (forall e s', wrote ns key s s' -> (e = ESP_OK \/ e = ESP_ERR_NOT_FOUND -> view (m_world s') ns key = None) -> Q e s') ->
  wp (erase_key be h key) Q s.
Proof.
  intros G Hh HQ. unfold wp, erase_key, call. pose proof (law_erase_key (m_world s) h ns key G Hh) as L.
  destruct (be_erase_key be h key (m_world s)) as [r w']. destruct L as (L1 & L2 & L3). by apply HQ.
Qed.

Lemma wp_commit h ns Q s : good (m_world s) -> hns (m_world s) h = Some ns ->
  (forall e s', quiet s s' -> Q e s') -> wp (commit be h) Q s.
Proof.
  intros G Hh HQ. unfold wp, commit, call. pose proof (law_commit (m_world s) h ns G Hh) as L.
  destruct (be_commit be h (m_world s)) as [r w']. destruct L as (L1 & L2). by apply HQ.
Qed.

Lemma wp_malloc n Q s : good (m_world s) ->
  (forall b s', quiet s s' -> (forall l, b = Some l -> length l = n) -> Q b s') -> wp (malloc ev n) Q s.
Proof.
  intros G HQ. unfold wp, malloc, query. destruct (law_malloc (m_world s) n G) as [L1 L2].
  destruct (e_malloc ev n (m_world s)) as [ok w']. apply HQ; [done|].
  intros l. destruct ok; [|done]. intros [= <-]. by rewrite length_map, length_seq.
Qed.

Lemma wp_lock Q s : good (m_world s) -> (forall s', quiet s s' -> Q tt s') -> wp cfg_lock Q s.
Proof. intros G HQ. unfold cfg_lock. wp_step. wp_step. wp_step; wp_step; apply HQ; by split_and!. Qed.

Lemma wp_unlock Q s : good (m_world s) -> (forall s', quiet s s' -> Q tt s') -> wp cfg_unlock Q s.
Proof. intros G HQ. unfold cfg_unlock. wp_step. wp_step. wp_step; wp_step; apply HQ; by split_and!. Qed.

(** ** Reading *)

(** A read returns the value of the specification, and says whether it is stored. *)
Lemma wp_read_effective nd kd sbuf bbuf r h ns Q s :
  good (m_world s) -> open_slot s r nd h ns -> known_type (k_type kd) = true ->
  (k_type kd = ESPOS_CFG_TYPE_STRING -> length sbuf = S (k_max_len kd)) ->
  (forall v b s', quiet s s' -> norm v = norm (effective kd (view (m_world s) ns (key_name kd))) ->
     b = bool_decide (is_Some (stored_value kd (view (m_world s) ns (key_name kd)))) -> Q (ESP_OK, v, b) s') ->
  wp (espos_config_read_effective be namespaces nd kd sbuf bbuf) Q s.
Proof.
  intros G O Hk Hs HQ. unfold espos_config_read_effective. wp_step. apply wp_gets. rewrite (os_slot _ _ _ _ _ O).
  wp_step. apply wp_gets. rewrite (os_h _ _ _ _ _ O). destruct (Z.eqb_spec h 0); [by destruct (os_nz _ _ _ _ _ O)|].
  destruct (k_type kd) eqn:T; [..|done]; wp_step; (eapply wp_get; [done|exact (os_ns _ _ _ _ _ O)|cbn; lia || done|]); intros [[e d] n'] s' Hq Hg;
    unfold effective, stored_value, decode, default_read, default_value in HQ; rewrite T in HQ;
    destruct (view (m_world s) ns (key_name kd)) as [[t' d']|] eqn:V; cbn [get_spec fst] in Hg;
    try (subst e; cbn; apply wp_ret; by apply HQ);
    (case_bool_decide as Ht; [subst t'|subst e; cbn; apply wp_ret; by apply HQ]);
    apply law_wf in V as Hw; try done; cbn in Hw.
  - destruct Hw as (u & -> & Hu). cbn in Hg. injection Hg as -> -> ->. cbn [is_ok].
    rewrite (proj2 (is_ok_true _) eq_refl). cbn [andb].
    destruct (dec_bool [u] <=? 1); apply wp_ret; by apply HQ.
  - destruct Hw as (Hl & Hb). rewrite Hl in Hg. cbn in Hg. injection Hg as -> -> ->.
    rewrite (proj2 (is_ok_true _) eq_refl). cbn [andb]. rewrite <- valid_int by done.
    destruct (valid kd (VInt (dec_i32 d'))); apply wp_ret; by apply HQ.
  - destruct Hw as (Hl & Hb). rewrite Hl in Hg. cbn in Hg. injection Hg as -> -> ->.
    rewrite (proj2 (is_ok_true _) eq_refl). cbn [andb].
    destruct (valid kd (VFloat (dec_f32 d'))); apply wp_ret; by apply HQ.
  - destruct Hw as (x & -> & Hx). rewrite length_app in *. cbn [length] in *.
    destruct (k_max_len kd + 1 <? length x + 1)%nat eqn:L.
    { subst e. cbn. apply wp_ret. by apply HQ. }
    injection Hg as -> -> ->. rewrite (proj2 (is_ok_true _) eq_refl). cbn [andb].
    apply Nat.ltb_ge in L. rewrite c_string_app in HQ by done. rewrite c_string_overlay; [|done|auto|lia].
    destruct (valid kd (VStr (Some x))); apply wp_ret; by apply HQ.
  - destruct (k_max_len kd <? length d')%nat eqn:L.
    + assert (valid kd (VBlob (Some d') (length d')) = false) as Hv.
      { apply bool_decide_false. unfold espos_config_validate. cbn [v_type].
        rewrite T, bool_decide_true, L by done. done. }
      rewrite Hv in HQ. subst e. cbn. apply wp_ret. by apply HQ.
    + injection Hg as -> -> ->. rewrite (proj2 (is_ok_true _) eq_refl). cbn [andb].
      apply Nat.ltb_ge in L as L'. rewrite (proj2 (Nat.leb_le _ _)) by done. apply wp_ret.
      assert (valid kd (VBlob (Some d') (length d')) = true) as Hv.
      { apply valid_none. unfold espos_config_validate. cbn [v_type]. rewrite T, bool_decide_true, L by done. cbn.
        by rewrite andb_false_r. }
      rewrite Hv in HQ. apply HQ; [done| |done]. cbn. f_equal. f_equal. rewrite overlay_take. by rewrite take_ge.
Qed.

Lemma wp_alloc_buffers kd Q s : good (m_world s) ->
  (forall b s', quiet s s' -> (forall sbuf bbuf, b = Some (sbuf, bbuf) -> k_type kd = ESPOS_CFG_TYPE_STRING -> length sbuf = S (k_max_len kd)) ->
     Q b s') -> wp (alloc_buffers ev kd) Q s.
Proof.
  intros G HQ. unfold alloc_buffers. destruct (k_type kd) eqn:T;
    try (apply wp_ret; apply HQ; [by apply cfg_quiet_refl|by intros]).
  - wp_step. apply wp_malloc; [done|]. intros b s' Hq Hl. apply wp_ret, HQ; [done|].
    intros sb bb Hb _. destruct b as [l|]; [|done]. injection Hb as <- <-. rewrite (Hl l eq_refl). lia.
  - wp_step. apply wp_malloc; [done|]. intros b s' Hq Hl. apply wp_ret, HQ; [done|]. by intros.
Qed.

Lemma wp_value_equals nd kd val r h ns Q s :
  good (m_world s) -> open_slot s r nd h ns -> known_type (k_type kd) = true ->
  (forall e eq s', quiet s s' -> (e = ESP_OK -> eq = value_eqb (k_type kd) (effective kd (view (m_world s) ns (key_name kd))) val) ->
     Q (e, eq) s') ->
  wp (value_equals_effective be ev namespaces nd kd val) Q s.
Proof.
  intros G O Hk HQ. unfold value_equals_effective. wp_step. apply wp_alloc_buffers; [done|]. intros b s1 Q1 Hb.
  destruct b as [[sbuf bbuf]|]; [|by apply wp_ret, HQ].
  wp_step. pose proof Q1 as (A1 & A2 & A3 & A4). eapply wp_read_effective; [done|by eapply open_slot_quiet|done|by eapply Hb|].
  intros v b s2 Q2 Hv _. apply wp_ret. apply HQ; [by eapply quiet_trans|]. intros _. cbn. rewrite <- A3 in Hv. by apply value_eqb_norm.
Qed.

(** ** Writing *)

(** The bytes and the length of a store, as [write_locked] passes them. *)
Lemma set_args_value kd v : valid kd v = true -> wf_value v -> match v with
  | VBool b => set_args ESPOS_CFG_TYPE_BOOL [if b then 1 else 0] 1
  | VInt i => set_args ESPOS_CFG_TYPE_INT (bytes32 (u32 i)) 4
  | VFloat f => set_args ESPOS_CFG_TYPE_FLOAT (bytes32 f) 4
  | VStr s => set_args ESPOS_CFG_TYPE_STRING (str_of s ++ [0]) (length (str_of s) + 1)
  | VBlob p n => n <> 0%nat -> set_args ESPOS_CFG_TYPE_BLOB (str_of p) n
  | VOther _ => True
  end.
Proof.
  intros Hv Hw. destruct v as [b|i|f|s|p n|t]; cbn in *.
  - split; [|done]. destruct b; auto.
  - split_and!; [done|done|apply bytes32_wf].
  - split_and!; [done|done|apply bytes32_wf].
  - split; [by exists (str_of s)|by rewrite length_app].
  - destruct Hw. intros Hn. by split_and!.
  - done.
Qed.

(** [store_and_commit] of a write that leaves the image of the value. *)
Lemma wp_store_commit (put : M esp_err_t) h ns kd val changed r nd Q s :
  good (m_world s) -> open_slot s r nd h ns ->
  (forall Q', (forall e s', wrote ns (key_name kd) s s' ->
                (e = ESP_OK -> view (m_world s') ns (key_name kd) = image val) -> Q' e s') -> wp put Q' s) ->
  (forall e c s', wrote ns (key_name kd) s s' ->
     (e = ESP_OK -> view (m_world s') ns (key_name kd) = image val) -> c = is_ok e && changed -> Q (e, c) s') ->
  wp (err ← put; if negb (is_ok err) then mret (err, false) else
      err ← commit be h; mret (err, if is_ok err then changed else false)) Q s.
Proof.
  intros G O Hput HQ. wp_step. apply Hput. intros e s1 W1 V1. pose proof W1 as (A1 & A2 & A3 & A4).
  destruct (is_ok e) eqn:E; cbn [negb].
  2:{ apply wp_ret. apply HQ; [done| |by rewrite E]. apply is_ok_false in E. done. }
  apply is_ok_true in E. subst e. wp_step. eapply wp_commit; [done| |].
  { rewrite (only_at_hns _ _ _ _ _ A3). apply (os_ns _ _ _ _ _ O). }
  intros e2 s2 Q2. apply wp_ret. apply HQ.
  - eapply wrote_trans; [done|by apply quiet_wrote].
  - intros _. destruct Q2 as (B1 & B2 & B3 & B4). rewrite <- B3. by apply V1.
  - by destruct (is_ok e2).
Qed.

Lemma wp_write_locked r nd h ns kd val Q s :
  good (m_world s) -> open_slot s r nd h ns -> valid kd val = true -> wf_value val ->
  (forall e c s', wrote ns (key_name kd) s s' ->
     (e = ESP_OK -> view (m_world s') ns (key_name kd) = image val) ->
     c = is_ok e && negb (value_eqb (k_type kd) (effective kd (view (m_world s) ns (key_name kd))) val) -> Q (e, c) s') ->
  wp (write_locked be ev namespaces r kd val) Q s.
Proof.
  intros G O Hv Hw HQ. pose proof (validate_type _ _ (proj1 (valid_none _ _) Hv)) as Ht.
  assert (known_type (k_type kd) = true) as Hk.
  { destruct (k_type kd) eqn:T; try done. destruct val; try done. unfold valid in Hv. apply bool_decide_eq_true in Hv.
    unfold espos_config_validate in Hv. by case_bool_decide. }
  unfold write_locked, nss_nd. do 2 wp_step. apply wp_gets. rewrite (os_desc _ _ _ _ _ O). apply wp_ret. cbn [default from_option id].
  wp_step. eapply wp_value_equals; [done|done|done|]. intros e eq s1 Q1 He. destruct (is_ok e) eqn:E; cbn [negb].
  2:{ apply wp_ret. apply HQ; [by apply quiet_wrote| |by rewrite E]. apply is_ok_false in E. done. }
  apply is_ok_true in E. rewrite He in * by done. wp_step. apply wp_gets. pose proof Q1 as (A1 & A2 & A3 & A4). rewrite A1, (os_h _ _ _ _ _ O).
  pose proof (open_slot_quiet _ _ _ _ _ _ Q1 O) as O1. pose proof (set_args_value kd val Hv Hw) as Hs.
  assert (forall put, (forall Q', (forall e s', wrote ns (key_name kd) s1 s' ->
                (e = ESP_OK -> view (m_world s') ns (key_name kd) = image val) -> Q' e s') -> wp put Q' s1) ->
    wp (err ← put; if negb (is_ok err) then mret (err, false) else
        err ← commit be h; mret (err, if is_ok err then negb (value_eqb (k_type kd) (effective kd (view (m_world s) ns (key_name kd))) val) else false)) Q s1) as Hput.
  { intros put Hp. eapply wp_store_commit; [done|done|exact Hp|]. intros. apply HQ; [|done|done].
    eapply wrote_trans; [by apply quiet_wrote|done]. }
  rewrite <- Ht in *. destruct val as [b|i|f|x|p n|t]; cbn [v_type v_b v_i v_f v_s v_len v_p] in *; try done.
  1-4: apply Hput; intros Q' HQ'; eapply wp_set; [done|apply (os_ns _ _ _ _ _ O1)|exact Hs|];
    intros e' s' W1 V; apply HQ'; [done|]; intros E'; rewrite V by done; cbn [image]; rewrite take_ge by (rewrite ?length_app; cbn; lia); done.
  destruct (Nat.eqb_spec n 0) as [->|Hn].
  - apply Hput. intros Q' HQ'. wp_step. eapply wp_erase; [done|apply (os_ns _ _ _ _ _ O1)|]. intros e' s' W1 V. apply wp_ret, HQ'; [done|].
    cbn. case_bool_decide; intros; apply V; auto.
  - apply Hput. intros Q' HQ'. eapply wp_set; [done|apply (os_ns _ _ _ _ _ O1)|by apply Hs|]. intros e' s' W1 V. apply HQ'; [done|].
    intros E'. rewrite V by done. cbn. by rewrite (proj2 (Nat.eqb_neq n 0)).
Qed.

Lemma wp_reset_locked r nd h ns kd Q s :
  good (m_world s) -> open_slot s r nd h ns -> known_type (k_type kd) = true ->
  (forall e c s', wrote ns (key_name kd) s s' ->
     (e = ESP_OK -> view (m_world s') ns (key_name kd) = None) ->
     c = is_ok e && negb (value_eqb (k_type kd) (effective kd (view (m_world s) ns (key_name kd))) (default_value kd)) -> Q (e, c) s') ->
  wp (reset_locked be ev namespaces r kd) Q s.
Proof.
  intros G O Hk HQ. unfold reset_locked, nss_nd. do 2 wp_step. apply wp_gets. rewrite (os_desc _ _ _ _ _ O). apply wp_ret. cbn [default from_option id].
  wp_step. eapply wp_value_equals; [done|done|done|]. intros e eq s1 Q1 He. destruct (is_ok e) eqn:E; cbn [negb].
  2:{ apply wp_ret. apply HQ; [by apply quiet_wrote| |by rewrite E]. apply is_ok_false in E. done. }
  apply is_ok_true in E. rewrite He in * by done. wp_step. apply wp_gets. pose proof Q1 as (A1 & A2 & A3 & A4). rewrite A1, (os_h _ _ _ _ _ O).
  pose proof (open_slot_quiet _ _ _ _ _ _ Q1 O) as O1. wp_step. eapply wp_erase; [done|apply (os_ns _ _ _ _ _ O1)|]. intros e2 s2 W2 V2.
  set (e3 := if bool_decide (e2 = ESP_ERR_NOT_FOUND) then ESP_OK else e2).
  assert (e3 = ESP_OK -> view (m_world s2) ns (key_name kd) = None) as V3.
  { intros H3. apply V2. unfold e3 in H3. case_bool_decide; auto. }
  pose proof (wrote_trans _ _ _ _ _ (quiet_wrote ns (key_name kd) _ _ Q1) W2) as W3.
  wp_step. destruct (is_ok e3) eqn:E3.
  - apply is_ok_true in E3. eapply wp_commit; [apply W2|apply (os_ns _ _ _ _ _ (open_slot_wrote _ _ _ _ _ _ _ _ W2 O1))|].
    intros e4 s4 Q4. apply wp_ret. apply HQ.
    + eapply wrote_trans; [done|by apply quiet_wrote].
    + intros _. destruct Q4 as (B1 & B2 & B3 & B4). rewrite <- B3. auto.
    + by destruct (is_ok e4).
  - do 2 apply wp_ret. apply HQ; [done| |by rewrite E3]. intros H3. by rewrite H3 in E3.
Qed.
End Spec.
