(* ===== verification/ConfigInv.v ===== *)
(** The invariant of the configuration store, and that every operation of the
    file keeps it: the namespaces that are registered have distinct names, a
    store that is up holds an open handle of the right namespace for each of
    them, and one that is down holds none. *)
From Stdlib Require Import ZArith Lia.
From stdpp Require Import base numbers list.
From S2P Require Import Prelude ConfigDesc ConfigStore ConfigLaws ConfigSpec.
Open Scope Z_scope.

Section Inv.
Context `{Storage W} (be : espos_config_backend_t W) (ev : env W) (good : W -> Prop).
Context `{!BackendLaws be good} `{!EnvLaws ev good}.
Context (namespaces : list espos_cfg_ns_t) (rt_desc : Z -> espos_cfg_ns_t).

#[local] Abbreviation M := (act cfg W obs).
#[local] Abbreviation st := (mach cfg W obs).
#[local] Abbreviation deref := (deref namespaces rt_desc).
#[local] Abbreviation ref_name := (ref_name namespaces rt_desc).
#[local] Abbreviation slot_for := (slot_for namespaces).
#[local] Abbreviation count := (espos_cfg_namespace_count namespaces).
#[local] Abbreviation quiet := (quiet good).
#[local] Abbreviation wrote := (wrote good).
#[local] Abbreviation open_slot := (open_slot namespaces).

(** The generator refuses two descriptors of one name, and a key of a type it
    does not know. *)
Definition known_keys (d : espos_cfg_ns_t) : Prop := Forall (fun k => known_type (k_type k) = true) (desc_keys d).
Context (names_distinct : NoDup (map desc_name namespaces)).
Context (static_known : Forall known_keys namespaces).

(** * Slots *)

(** The descriptors a slot may hold. *)
Definition shape (r : slot_ref) (d : nsref) : Prop :=
  match r with
  | SNs i => d = Static i /\ (i < count)%nat
  | SRt _ => (exists a, d = Runtime a) /\ find_static namespaces (ref_name d) = None /\ known_keys (deref d)
  end.

Definition slot_ok (w : W) (r : slot_ref) (x : ns_state_t) : Prop :=
  match st_desc x with
  | None => st_h x = 0
  | Some d => shape r d /\ (st_h x = 0 \/ hns w (st_h x) = Some (ref_name d))
  end.

Record slots_inv (w : W) (c : cfg) : Prop := {
  si_len : length (c_rt c) = CONFIG_ESPOS_CONFIG_MAX_RUNTIME_NS;
  si_ok r : slot_ok w r (slot_get c r);
  si_rt i j d d' : st_desc (slot_get c (SRt i)) = Some d -> st_desc (slot_get c (SRt j)) = Some d' ->
    ref_name d = ref_name d' -> i = j }.

Definition is_up (c : cfg) : Prop :=
  c_lock c = true /\ length (c_ns c) = count /\ c_ns_count c = count /\
  (forall i, (i < count)%nat -> st_desc (slot_get c (SNs i)) = Some (Static i)) /\
  (forall r, st_desc (slot_get c r) <> None -> st_h (slot_get c r) <> 0).

Definition is_down (c : cfg) : Prop := c_ns c = [] /\ forall r, st_h (slot_get c r) = 0.

(** The invariant between two calls. *)
Definition store_inv (s : st) : Prop :=
  good (m_world s) /\ slots_inv (m_world s) (m_sm s) /\
  if c_inited (m_sm s) then is_up (m_sm s) else is_down (m_sm s).

(** ** Access to slots *)

Definition in_range (c : cfg) (r : slot_ref) : Prop :=
  match r with SNs i => (i < length (c_ns c))%nat | SRt i => (i < length (c_rt c))%nat end.

Lemma nth_insert {A} (l : list A) i v d : (i < length l)%nat -> nth i (<[i:=v]> l) d = v.
Proof.
  intros Hi. apply nth_lookup_Some. by apply list_lookup_insert_eq.
Qed.

Lemma nth_insert_ne {A} (l : list A) i j v d : i <> j -> nth j (<[i:=v]> l) d = nth j l d.
Proof. intros Hi. rewrite !nth_lookup. by rewrite list_lookup_insert_ne. Qed.

Lemma slot_get_set c r v : in_range c r -> slot_get (slot_set r v c) r = v.
Proof. destruct r; cbn; apply nth_insert. Qed.

Lemma slot_get_set_ne c r r' v : r <> r' -> slot_get (slot_set r v c) r' = slot_get c r'.
Proof. destruct r, r'; cbn; intros Hr; try done; apply nth_insert_ne; congruence. Qed.

Lemma slot_in_range c r : st_desc (slot_get c r) <> None -> in_range c r.
Proof.
  intros Hr. destruct r as [i|i]; cbn in *.
  - destruct (Nat.lt_ge_cases i (length (c_ns c))); [lia|]. by rewrite nth_overflow in Hr by lia.
  - destruct (Nat.lt_ge_cases i (length (c_rt c))); [lia|]. by rewrite nth_overflow in Hr by lia.
Qed.

(** ** Names *)

Lemma find_static_from_lt k l n i : find_static_from k l n = Some i -> (k <= i < k + length l)%nat /\ desc_name (nth (i - k) l null_ns) = n.
Proof.
  revert k. induction l as [|d l IH]; intros k; [done|]. cbn. destruct (streq (desc_name d) n) eqn:E.
  - intros [= ->]. rewrite Nat.sub_diag. split; [lia|]. unfold streq in E. by apply bool_decide_eq_true in E.
  - intros Hf. apply IH in Hf as [H1 H2]. split; [lia|]. replace (i - k)%nat with (S (i - S k)) by lia. done.
Qed.

Lemma find_static_from_none k l n : find_static_from k l n = None -> n ∉ map desc_name l.
Proof.
  revert k. induction l as [|d l IH]; intros k; cbn; [intros _; apply not_elem_of_nil|]. destruct (streq (desc_name d) n) eqn:E; [done|].
  intros Hf. apply not_elem_of_cons. split; [|by eapply IH]. intros ->. unfold streq in E.
  rewrite bool_decide_true in E by done. done.
Qed.

Lemma find_static_some n i : find_static namespaces n = Some i -> (i < count)%nat /\ ref_name (Static i) = n.
Proof. intros Hf%find_static_from_lt. rewrite Nat.sub_0_r in Hf. destruct Hf as [[_ H1] H2]. done. Qed.

Lemma static_lookup i : (i < count)%nat -> map desc_name namespaces !! i = Some (ref_name (Static i)).
Proof.
  intros Hi. rewrite list_lookup_fmap. unfold ConfigStore.ref_name. cbn [ConfigStore.deref].
  destruct (namespaces !! i) as [d|] eqn:E; [|apply lookup_ge_None in E; unfold espos_cfg_namespace_count in Hi; lia].
  cbn. f_equal. f_equal. symmetry. by apply nth_lookup_Some.
Qed.

Lemma static_name_in i : (i < count)%nat -> ref_name (Static i) ∈ map desc_name namespaces.
Proof.
  intros Hi. apply (list_elem_of_fmap_2 desc_name). cbn. rewrite list_elem_of_In. by apply nth_In.
Qed.

(** Two slots in use have different names. *)
Lemma slot_names w c r r' d d' : slots_inv w c -> st_desc (slot_get c r) = Some d -> st_desc (slot_get c r') = Some d' ->
  ref_name d = ref_name d' -> r = r'.
Proof.
  intros Hi Hd Hd' Hn. pose proof (si_ok _ _ Hi r) as O. pose proof (si_ok _ _ Hi r') as O'. unfold slot_ok in O, O'.
  rewrite Hd in O. rewrite Hd' in O'. destruct O as [O _], O' as [O' _]. destruct r as [i|i], r' as [j|j]; cbn in O, O'.
  - destruct O as [-> L], O' as [-> L']. f_equal. eapply (NoDup_lookup (map desc_name namespaces)); [done| |].
    + by apply static_lookup.
    + rewrite Hn. by apply static_lookup.
  - destruct O as [-> L], O' as (_ & L' & _). apply find_static_from_none in L'. rewrite <- Hn in L'. by destruct L'; apply static_name_in.
  - destruct O' as [-> L], O as (_ & L' & _). apply find_static_from_none in L'. rewrite Hn in L'. by destruct L'; apply static_name_in.
  - f_equal. by eapply si_rt.
Qed.

(** Two slots in use have different handles. *)
Lemma slot_handles w c r r' : slots_inv w c -> st_h (slot_get c r) <> 0 -> st_h (slot_get c r) = st_h (slot_get c r') -> r = r'.
Proof.
  intros Hi Hz He. pose proof (si_ok _ _ Hi r) as O. pose proof (si_ok _ _ Hi r') as O'. unfold slot_ok in O, O'.
  destruct (st_desc (slot_get c r)) as [d|] eqn:D; [|done]. destruct (st_desc (slot_get c r')) as [d'|] eqn:D'; [|congruence].
  destruct O as [_ [?|O]]; [done|]. destruct O' as [_ [?|O']]; [congruence|]. eapply slot_names; [done|done|done|]. congruence.
Qed.

(** * Operations that change stored data only *)

Definition data_only (s s' : st) : Prop :=
  m_sm s' = m_sm s /\ good (m_world s') /\ forall h, hns (m_world s') h = hns (m_world s) h.

Lemma slots_inv_hns w w' c : (forall h, hns w' h = hns w h) -> slots_inv w c -> slots_inv w' c.
Proof.
  intros Hh [I1 I2 I3]. split; try done. intros r. specialize (I2 r). unfold slot_ok in *. destruct (st_desc _); [|done].
  by rewrite Hh.
Qed.

Lemma inv_data_only s s' : data_only s s' -> store_inv s -> store_inv s'.
Proof. intros (A1 & A2 & A3) (B1 & B2 & B3). split_and!; [done| |]; rewrite A1; [|done]. by eapply slots_inv_hns. Qed.

Lemma data_only_refl s : good (m_world s) -> data_only s s.
Proof. done. Qed.

Lemma data_only_trans s1 s2 s3 : data_only s1 s2 -> data_only s2 s3 -> data_only s1 s3.
Proof. intros (A1 & A2 & A3) (B1 & B2 & B3). split_and!; [congruence|done|]. intros h. by rewrite B3. Qed.

Lemma wrote_data n k s s' : wrote n k s s' -> data_only s s'.
Proof. intros (A1 & A2 & [_ A3] & A4). done. Qed.

Lemma quiet_data s s' : quiet s s' -> data_only s s'.
Proof. intros Hq. apply (wrote_data [] []). by apply quiet_wrote. Qed.

(** ** Lookup *)

Definition find_ns_pure (c : cfg) (ns : option cstr) : option nsref :=
  match ns with
  | None => None
  | Some n => match find_static namespaces n with
              | Some i => Some (Static i)
              | None => find_rt namespaces rt_desc (c_rt c) n
              end
  end.

(** The descriptor and the key a pair of names stands for. *)
Definition declared (c : cfg) (ns key : option cstr) : option (nsref * espos_cfg_key_t) :=
  d ← find_ns_pure c ns; k ← espos_config_find_key namespaces rt_desc (Some d) key; Some (d, k).

Lemma wp_find_ns ns Q s : good (m_world s) -> (forall s', quiet s s' -> Q (find_ns_pure (m_sm s) ns) s') ->
  wp (espos_config_find_ns namespaces rt_desc ns) Q s.
Proof.
  intros G HQ. unfold espos_config_find_ns, find_ns_pure in *. destruct ns as [n|]; [|apply wp_ret, HQ; by apply cfg_quiet_refl].
  destruct (find_static namespaces n); [apply wp_ret, HQ; by apply cfg_quiet_refl|].
  wp_step. apply (wp_lock good); [done|]. intros s1 Q1. wp_step. unfold find_runtime_ns. apply wp_gets. wp_step.
  apply (wp_unlock good); [apply Q1|]. intros s2 Q2. apply wp_ret. pose proof Q1 as (E & _). rewrite E. apply HQ. by eapply quiet_trans.
Qed.

Lemma find_rt_some l n d : find_rt namespaces rt_desc l n = Some d ->
  exists i x, l !! i = Some x /\ st_desc x = Some d /\ ref_name d = n.
Proof.
  induction l as [|[[e|] h] l IH]; cbn; [done| |].
  - destruct (streq _ n) eqn:E.
    + intros [= ->]. unfold streq in E. apply bool_decide_eq_true in E. by exists 0%nat, (NsState (Some d) h).
    + intros (i & x & Hx)%IH. by exists (S i), x.
  - intros (i & x & Hx)%IH. by exists (S i), x.
Qed.

Lemma find_slot_some k l d r : find_slot k l d = Some r ->
  exists i x, r = SRt (k + i) /\ l !! i = Some x /\ st_desc x = Some d.
Proof.
  revert k. induction l as [|[[e|] h] l IH]; intros k; cbn; [done| |].
  - case_bool_decide as E.
    + intros [= <-]. subst e. exists 0%nat, (NsState (Some d) h). by rewrite Nat.add_0_r.
    + intros (i & x & -> & Hx)%IH. exists (S i), x. by rewrite Nat.add_succ_r.
  - intros (i & x & -> & Hx)%IH. exists (S i), x. by rewrite Nat.add_succ_r.
Qed.

Lemma find_slot_none k l d i x : find_slot k l d = None -> l !! i = Some x -> st_desc x <> Some d.
Proof.
  revert k i. induction l as [|[[e|] h] l IH]; intros k i; cbn; [done| |].
  - case_bool_decide; [done|]. intros Hf. destruct i as [|i]; cbn; [intros [= <-]; cbn; congruence|by eapply IH].
  - intros Hf. destruct i as [|i]; cbn; [by intros [= <-]|by eapply IH].
Qed.

Lemma slot_get_rt c i x : c_rt c !! i = Some x -> slot_get c (SRt i) = x.
Proof. cbn. intros Hx. by apply nth_lookup_Some. Qed.

Lemma slot_rt_lookup c i d : st_desc (slot_get c (SRt i)) = Some d -> exists x, c_rt c !! i = Some x /\ st_desc x = Some d.
Proof. cbn. rewrite nth_lookup. destruct (c_rt c !! i) as [x|]; cbn; [|done]. eauto. Qed.

(** The slot of a descriptor in use is the one that holds it. *)
Lemma slot_for_desc w c r d : slots_inv w c -> st_desc (slot_get c r) = Some d -> slot_for c d = Some r.
Proof.
  intros Hi Hd. pose proof (si_ok _ _ Hi r) as O. unfold slot_ok in O. rewrite Hd in O. destruct O as [O _].
  destruct r as [i|i]; cbn in O.
  - destruct O as [-> L]. cbn [ConfigStore.slot_for]. by rewrite (proj2 (Nat.ltb_lt _ _) L).
  - destruct O as [[a ->] _]. cbn [ConfigStore.slot_for].
    destruct (find_slot 0 (c_rt c) (Runtime a)) as [r|] eqn:F.
    + apply find_slot_some in F as (j & x & -> & F1 & F2). f_equal. cbn [Nat.add].
      eapply slot_names; [done|by rewrite (slot_get_rt c j x)|done|done].
    + apply slot_rt_lookup in Hd as (x & D1 & D2). by destruct (find_slot_none _ _ _ _ _ F D1).
Qed.

Lemma find_ns_slot w c ns d : slots_inv w c -> is_up c -> find_ns_pure c ns = Some d ->
  exists r, st_desc (slot_get c r) = Some d /\ ns = Some (ref_name d).
Proof.
  intros Hi Hup. unfold find_ns_pure. destruct ns as [n|]; [|done]. destruct (find_static namespaces n) as [i|] eqn:F.
  - intros [= <-]. apply find_static_some in F as [F1 F2]. exists (SNs i). rewrite F2. split; [|done]. by apply Hup.
  - intros (i & x & F1 & F2 & F3)%find_rt_some. exists (SRt i). rewrite F3. split; [|done]. by rewrite (slot_get_rt _ _ x).
Qed.

Lemma open_slot_of s r d : store_inv s -> c_inited (m_sm s) = true -> st_desc (slot_get (m_sm s) r) = Some d ->
  open_slot s r d (st_h (slot_get (m_sm s) r)) (ref_name d).
Proof.
  intros (G & Hi & Hup) Hin Hd. rewrite Hin in Hup. pose proof (si_ok _ _ Hi r) as O. unfold slot_ok in O. rewrite Hd in O.
  assert (st_h (slot_get (m_sm s) r) <> 0) as Hz by (apply Hup; by rewrite Hd).
  split; try done; [by eapply slot_for_desc|]. by destruct O as [_ [?|?]].
Qed.

Lemma slot_known w c r d : slots_inv w c -> st_desc (slot_get c r) = Some d -> known_keys (deref d).
Proof.
  intros Hi Hd. pose proof (si_ok _ _ Hi r) as O. unfold slot_ok in O. rewrite Hd in O. destruct O as [O _].
  destruct r as [i|i]; cbn in O; [|apply O]. destruct O as [-> L]. cbn.
  apply (proj1 (Forall_forall _ _) static_known). rewrite list_elem_of_In. by apply nth_In.
Qed.

Lemma find_key_in_elem ks n k : find_key_in ks n = Some k -> k ∈ ks /\ key_name k = n.
Proof.
  induction ks as [|x ks IH]; cbn; [done|]. destruct (streq (key_name x) n) eqn:E.
  - intros [= ->]. unfold streq in E. apply bool_decide_eq_true in E. split; [by left|done].
  - intros [H1 H2]%IH. split; [by right|done].
Qed.

Lemma declared_slot s ns key d kd : store_inv s -> c_inited (m_sm s) = true -> declared (m_sm s) ns key = Some (d, kd) ->
  exists r, slot_for (m_sm s) d = Some r /\ open_slot s r d (st_h (slot_get (m_sm s) r)) (ref_name d) /\ known_type (k_type kd) = true.
Proof.
  intros I Hin. unfold declared. destruct (find_ns_pure (m_sm s) ns) as [d'|] eqn:F; [|done]. cbn [mbind option_bind].
  destruct (espos_config_find_key _ _ _ key) as [k|] eqn:K; [|done]. cbn. intros [= -> ->].
  pose proof I as (G & Hi & Hup). rewrite Hin in Hup. apply (find_ns_slot (m_world s)) in F as (r & Hd & _); [|done|done].
  exists r. split_and!; [by eapply slot_for_desc|by apply open_slot_of|].
  destruct key as [n|]; [|done]. cbn in K. apply find_key_in_elem in K as [K _].
  apply (proj1 (Forall_forall _ _) (slot_known _ _ _ _ Hi Hd) kd K).
Qed.

Lemma wp_lookup ns key Q s : store_inv s -> c_inited (m_sm s) = true ->
  (forall s', quiet s s' -> declared (m_sm s) ns key = None -> Q (inl ESP_ERR_NOT_FOUND) s') ->
  (forall d r kd s', quiet s s' -> declared (m_sm s) ns key = Some (d, kd) -> known_type (k_type kd) = true ->
     open_slot s' r d (st_h (slot_get (m_sm s) r)) (ref_name d) -> Q (inr (r, kd)) s') ->
  wp (lookup namespaces rt_desc ns key) Q s.
Proof.
  intros I Hin Hn Hs. unfold lookup. wp_step. apply wp_find_ns; [apply I|]. intros s1 Q1.
  assert (forall d kd, declared (m_sm s) ns key = Some (d, kd) -> exists r, slot_for (m_sm s) d = Some r /\
      open_slot s r d (st_h (slot_get (m_sm s) r)) (ref_name d) /\ known_type (k_type kd) = true) as HD.
  { intros. by eapply declared_slot. }
  unfold declared in *. destruct (find_ns_pure (m_sm s) ns) as [d|]; [|by apply wp_ret, Hn]. cbn [mbind option_bind] in *.
  destruct (espos_config_find_key namespaces rt_desc (Some d) key) as [kd|]; [|by apply wp_ret, Hn].
  wp_step. apply wp_gets. pose proof Q1 as (E & _). rewrite E. destruct (HD d kd eq_refl) as (r & H1 & H2 & H3). rewrite H1.
  apply wp_ret. eapply Hs; [done|done|done|]. by eapply open_slot_quiet.
Qed.

(** ** Notification *)

(** The callbacks a change of a key runs, in the order of the table. *)
Definition callbacks (c : cfg) (nd : nsref) (kd : espos_cfg_key_t) : list obs :=
  map (fun x => ONotify (sub_cb x) (sub_arg x) (ref_name nd) (key_name kd))
    (filter (fun x => sub_cb x <> 0) (c_subs c)).

(** Only callbacks have run, [l] in their order. *)
Definition said (l : list obs) (s s' : st) : Prop :=
  m_sm s' = m_sm s /\ good (m_world s') /\ store_eq (m_world s) (m_world s') /\ notes (m_trace s') = rev l ++ notes (m_trace s).

Lemma quiet_said s s' : quiet s s' -> said [] s s'.
Proof. done. Qed.

Lemma said_trans l l' s1 s2 s3 : said l s1 s2 -> said l' s2 s3 -> said (l ++ l') s1 s3.
Proof.
  intros (A1 & A2 & A3 & A4) (B1 & B2 & B3 & B4). split_and!; [congruence|done|by etransitivity|].
  by rewrite rev_app_distr, B4, A4, app_assoc.
Qed.

Lemma said_data l s s' : said l s s' -> data_only s s'.
Proof. intros (A1 & A2 & [_ A3] & A4). split_and!; [done|done|]. intros h. by rewrite A3. Qed.

Lemma wp_for_each {A} (l : list A) (f : A -> M unit) (I : list A -> st -> Prop) s :
  I [] s -> (forall pre a post s, l = pre ++ a :: post -> I pre s -> wp (f a) (fun _ => I (pre ++ [a])) s) ->
  wp (for_each l f) (fun _ => I l) s.
Proof.
  intros H0 Hs. assert (forall post pre s, l = pre ++ post -> I pre s -> wp (for_each post f) (fun _ => I l) s) as Hg.
  { induction post as [|a post IH]; intros pre s1 E Hp.
    - rewrite app_nil_r in E. subst. by apply wp_ret.
    - cbn. wp_step. eapply wp_mono; [by eapply Hs|]. intros u s2 H2. apply (IH (pre ++ [a])); [|done]. by rewrite <- app_assoc. }
  by apply (Hg l [] s).
Qed.

Lemma wp_notify nd kd Q s : good (m_world s) -> (forall s', said (callbacks (m_sm s) nd kd) s s' -> Q tt s') ->
  wp (notify namespaces rt_desc nd kd) Q s.
Proof.
  intros G HQ. unfold notify. wp_step. apply (wp_lock good); [done|]. intros s1 Q1. wp_step. apply wp_gets. wp_step.
  apply (wp_unlock good); [apply Q1|]. intros s2 Q2. pose proof (quiet_trans good _ _ _ Q1 Q2) as Q3. pose proof Q1 as (E1 & _).
  rewrite E1. eapply wp_mono; [apply (wp_for_each _ _ (fun pre s' => said (map (fun x => ONotify (sub_cb x) (sub_arg x) (ref_name nd) (key_name kd))
    (filter (fun x => sub_cb x <> 0) pre)) s2 s'))|].
  - apply quiet_said, cfg_quiet_refl, Q3.
  - intros pre x post s3 _ S3. rewrite filter_app, map_app. destruct (Z.eqb_spec (sub_cb x) 0) as [Hz|Hz].
    + apply wp_ret. rewrite filter_cons_False by lia. by rewrite app_nil_r.
    + apply wp_emit. rewrite filter_cons_True by done. eapply said_trans; [exact S3|]. by split_and!; [|apply S3|..].
  - cbn beta. intros [] s3 S3. apply HQ. by apply (said_trans [] _ _ s2).
Qed.

(** A change of one key under the lock and its notification, for a computation
    [m] that leaves [img] under the key and reports a change of the effective
    value when [ch]. *)
Lemma wp_locked_change (m : M (esp_err_t * bool)) img ch d r h kd s s1 :
  quiet s s1 -> open_slot s1 r d h (ref_name d) ->
  (forall Q s2, quiet s1 s2 -> open_slot s2 r d h (ref_name d) ->
     (forall e c s', wrote (ref_name d) (key_name kd) s2 s' ->
        (e = ESP_OK -> view (m_world s') (ref_name d) (key_name kd) = img) -> c = is_ok e && ch -> Q (e, c) s') -> wp m Q s2) ->
  wp (cfg_lock;; '(err, changed) ← m; cfg_unlock;;
      (if is_ok err && changed then nd ← nss_nd r; notify namespaces rt_desc nd kd else mret tt);; mret err)
    (fun e s' => data_only s s' /\ only_at (ref_name d) (key_name kd) (m_world s) (m_world s') /\
       (e = ESP_OK -> view (m_world s') (ref_name d) (key_name kd) = img) /\
       notes (m_trace s') = (if is_ok e && ch then rev (callbacks (m_sm s) d kd) else []) ++ notes (m_trace s)) s1.
Proof.
  intros Q1 O Hm. wp_step. apply (wp_lock good); [apply Q1|]. intros s2 Q2.
  wp_step. apply Hm; [done|exact (open_slot_quiet good _ _ _ _ _ _ _ Q2 O)|]. intros e c s3 W3 V3 ->.
  wp_step. apply (wp_unlock good); [apply W3|]. intros s4 Q4.
  assert (wrote (ref_name d) (key_name kd) s s4) as W4.
  { eapply wrote_trans; [apply quiet_wrote; by eapply quiet_trans|]. eapply wrote_trans; [done|by apply quiet_wrote]. }
  assert (e = ESP_OK -> view (m_world s4) (ref_name d) (key_name kd) = img) as V4.
  { intros He. destruct Q4 as (_ & _ & Q4 & _). rewrite <- Q4. auto. }
  wp_step. destruct (is_ok e) eqn:E; cbn [andb]; [destruct ch|].
  - wp_step. unfold nss_nd. wp_step. apply wp_gets.
    assert (st_desc (slot_get (m_sm s4) r) = Some d) as ->.
    { destruct W4 as (E4 & _). rewrite E4. destruct Q1 as (E1 & _). rewrite <- E1. apply (os_desc _ _ _ _ _ _ O). }
    apply wp_ret. apply wp_notify; [apply W4|]. intros s5 S5. apply wp_ret. split_and!.
    + eapply data_only_trans; [by eapply wrote_data|by eapply said_data].
    + eapply only_at_trans; [apply W4|]. apply store_eq_at, S5.
    + intros He. destruct S5 as (_ & _ & S5 & _). rewrite <- S5. auto.
    + destruct S5 as (_ & _ & _ & ->). destruct W4 as (E4 & _ & _ & ->). by rewrite E4, E.
  - do 2 apply wp_ret. rewrite E. split_and!; [by eapply wrote_data|apply W4|done|apply W4].
  - do 2 apply wp_ret. rewrite E. split_and!; [by eapply wrote_data|apply W4|done|apply W4].
Qed.

(** ** Setting a key *)

(** What a set does: nothing but report why when the key is not declared, is
    read-only or the value is not acceptable; otherwise at most the entry of the
    key changes, it holds the image of the value when the call succeeds, and the
    callbacks run if then the effective value is another one. *)
Definition set_result (s : st) (ns key : option cstr) (val : espos_cfg_value_t) (e : esp_err_t) (s' : st) : Prop :=
  match declared (m_sm s) ns key with
  | None => e = ESP_ERR_NOT_FOUND /\ quiet s s'
  | Some (d, kd) =>
      if has_flag (k_flags kd) ESPOS_CFG_FLAG_READ_ONLY then e = ESP_ERR_NOT_SUPPORTED /\ quiet s s' else
      if negb (valid kd val) then e = ESP_ERR_INVALID_ARG /\ quiet s s' else
      data_only s s' /\ only_at (ref_name d) (key_name kd) (m_world s) (m_world s') /\
      (e = ESP_OK -> view (m_world s') (ref_name d) (key_name kd) = image val) /\
      notes (m_trace s') =
        (if is_ok e && negb (value_eqb (k_type kd) (effective kd (view (m_world s) (ref_name d) (key_name kd))) val)
         then rev (callbacks (m_sm s) d kd) else []) ++ notes (m_trace s)
  end.

Lemma wp_set_value ns key val s : store_inv s -> c_inited (m_sm s) = true -> (forall kd, valid kd val = true -> wf_value val) ->
  wp (set_value be ev namespaces rt_desc ns key val) (set_result s ns key val) s.
Proof.
  intros I Hin Hw. unfold set_value, set_result. wp_step. apply wp_gets. rewrite Hin. cbn [negb]. wp_step.
  eapply wp_lookup; [done|done| |].
  { intros s1 Q1 ->. by apply wp_ret. }
  intros d r kd s1 Q1 -> Hk O. destruct (has_flag _ _); [by apply wp_ret|]. destruct (valid kd val) eqn:Hv; cbn [negb]; [|by apply wp_ret].
  apply wp_locked_change with (1 := Q1) (2 := O). intros Q s2 Q2 O2 HQ.
  eapply (wp_write_locked be ev good); [apply Q2|exact O2|done|by eapply Hw|]. intros e c s3 W3 V3 ->. apply HQ; [done|done|].
  destruct (quiet_trans good _ _ _ Q1 Q2) as (_ & _ & [E3 _] & _). by rewrite E3.
Qed.
(** ** Resetting a key *)

Definition reset_result (s : st) (ns key : option cstr) (e : esp_err_t) (s' : st) : Prop :=
  match declared (m_sm s) ns key with
  | None => e = ESP_ERR_NOT_FOUND /\ quiet s s'
  | Some (d, kd) =>
      data_only s s' /\ only_at (ref_name d) (key_name kd) (m_world s) (m_world s') /\
      (e = ESP_OK -> view (m_world s') (ref_name d) (key_name kd) = None) /\
      notes (m_trace s') =
        (if is_ok e && negb (value_eqb (k_type kd) (effective kd (view (m_world s) (ref_name d) (key_name kd))) (default_value kd))
         then rev (callbacks (m_sm s) d kd) else []) ++ notes (m_trace s)
  end.

Lemma wp_reset_key ns key s : store_inv s -> c_inited (m_sm s) = true ->
  wp (espos_config_reset_key be ev namespaces rt_desc ns key) (reset_result s ns key) s.
Proof.
  intros I Hin. unfold espos_config_reset_key, reset_result. wp_step. apply wp_gets. rewrite Hin. cbn [negb]. wp_step.
  eapply wp_lookup; [done|done| |].
  { intros s1 Q1 ->. by apply wp_ret. }
  intros d r kd s1 Q1 -> Hk O.
  apply wp_locked_change with (1 := Q1) (2 := O). intros Q s2 Q2 O2 HQ.
  eapply (wp_reset_locked be ev good); [apply Q2|exact O2|done|]. intros e c s3 W3 V3 ->. apply HQ; [done|done|].
  destruct (quiet_trans good _ _ _ Q1 Q2) as (_ & _ & [E3 _] & _). by rewrite E3.
Qed.

(** ** Getters *)

(** Reading under the lock. *)
Lemma wp_locked_read d r h kd sbuf bbuf s :
  good (m_world s) -> open_slot s r d h (ref_name d) -> known_type (k_type kd) = true ->
  (k_type kd = ESPOS_CFG_TYPE_STRING -> length sbuf = S (k_max_len kd)) ->
  forall B (K : esp_err_t -> espos_cfg_value_t -> bool -> M B) Q, (forall v b s', quiet s s' ->
     norm v = norm (effective kd (view (m_world s) (ref_name d) (key_name kd))) ->
     b = bool_decide (is_Some (stored_value kd (view (m_world s) (ref_name d) (key_name kd)))) -> wp (K ESP_OK v b) Q s') ->
  wp (cfg_lock;; nd ← nss_nd r; '(err, v, b) ← espos_config_read_effective be namespaces nd kd sbuf bbuf; cfg_unlock;; K err v b) Q s.
Proof.
  intros G O Hk Hl B K Q HQ. wp_step. apply (wp_lock good); [done|]. intros s1 Q1. pose proof (open_slot_quiet good _ _ _ _ _ _ _ Q1 O) as O1.
  wp_step. unfold nss_nd. wp_step. apply wp_gets. rewrite (os_desc _ _ _ _ _ _ O1). apply wp_ret. cbn [default from_option id].
  wp_step. eapply (wp_read_effective be good); [apply Q1|exact O1|done|done|]. intros v b s2 Q2 Hv Hb.
  wp_step. apply (wp_unlock good); [apply Q2|]. intros s3 Q3. pose proof Q1 as (_ & _ & [E1 _] & _). rewrite <- E1 in Hv, Hb.
  apply HQ; [|done|done]. eapply quiet_trans; [done|by eapply quiet_trans].
Qed.

Definition get_result (s : st) (ns key : option cstr) (t : espos_cfg_type_t) (r : esp_err_t * espos_cfg_value_t) (s' : st) : Prop :=
  quiet s s' /\
  match declared (m_sm s) ns key with
  | None => r.1 = ESP_ERR_NOT_FOUND
  | Some (d, kd) =>
      if bool_decide (k_type kd = t)
      then r.1 = ESP_OK /\ norm r.2 = norm (effective kd (view (m_world s) (ref_name d) (key_name kd)))
      else r.1 = ESP_ERR_INVALID_ARG
  end.

Lemma wp_get_scalar ns key t s : store_inv s -> c_inited (m_sm s) = true -> t <> ESPOS_CFG_TYPE_STRING ->
  wp (get_scalar be namespaces rt_desc ns key t) (get_result s ns key t) s.
Proof.
  intros I Hin Ht. unfold get_scalar, get_result. wp_step. apply wp_gets. rewrite Hin. cbn [negb]. wp_step.
  eapply wp_lookup; [done|done| |].
  { intros s1 Q1 ->. by apply wp_ret. }
  intros d r kd s1 Q1 -> Hk O. case_bool_decide as Hkt; cbn [negb]; [|by apply wp_ret].
  eapply wp_locked_read; [apply Q1|exact O|done|congruence|]. intros v b s2 Q2 Hv _. apply wp_ret.
  pose proof Q1 as (_ & _ & [E1 _] & _). rewrite <- E1 in Hv. split; [|done]. by eapply quiet_trans.
Qed.

(** The string getter: the effective string, cut to the buffer. *)
Definition get_str_result (s : st) (ns key : option cstr) (size : nat) (r : esp_err_t * option cstr * option nat) (s' : st) : Prop :=
  quiet s s' /\
  match declared (m_sm s) ns key with
  | None => r = (ESP_ERR_NOT_FOUND, None, None)
  | Some (d, kd) =>
      if bool_decide (k_type kd = ESPOS_CFG_TYPE_STRING) then
        let x := str_of (v_s (effective kd (view (m_world s) (ref_name d) (key_name kd)))) in
        r = (ESP_ERR_NO_MEM, None, None) \/
        r = (if (size <=? length x)%nat then ESP_ERR_INVALID_SIZE else ESP_OK, Some (take (size - 1) x), Some (length x))
      else r = (ESP_ERR_INVALID_ARG, None, None)
  end.

Lemma wp_get_str ns key size s : store_inv s -> c_inited (m_sm s) = true -> size <> 0%nat ->
  wp (espos_config_get_str be ev namespaces rt_desc ns key true size) (get_str_result s ns key size) s.
Proof.
  intros I Hin Hz. unfold espos_config_get_str, get_str_result. wp_step. apply wp_gets. rewrite Hin. cbn [negb]. wp_step.
  eapply wp_lookup; [done|done| |].
  { intros s1 Q1 ->. by apply wp_ret. }
  intros d r kd s1 Q1 -> Hk O. case_bool_decide as Hkt; cbn [negb]; [|by apply wp_ret].
  wp_step. apply (wp_malloc ev good); [apply Q1|]. intros b s2 Q2 Hb. pose proof (quiet_trans good _ _ _ Q1 Q2) as Q3.
  destruct b as [sbuf|]; [|apply wp_ret; by auto]. pose proof (open_slot_quiet good _ _ _ _ _ _ _ Q2 O) as O2.
  eapply wp_locked_read; [apply Q2|exact O2|done|intros _; rewrite (Hb sbuf eq_refl); lia|]. intros v b s4 Q4 Hv _.
  pose proof Q3 as (_ & _ & [E3 _] & _). rewrite <- E3 in Hv.
  assert (v_s v = v_s (effective kd (view (m_world s) (ref_name d) (key_name kd)))) as <-.
  { destruct v, (effective kd _); cbn in Hv; congruence || done. }
  rewrite (proj2 (is_ok_true _) eq_refl). cbn [negb andb]. destruct (Nat.eqb_spec size 0); [done|]. cbn [negb]. apply wp_ret.
  split; [by eapply quiet_trans|]. right. set (x := str_of (v_s v)). set (m := length x).
  destruct (Nat.ltb_spec m (size - 1)), (Nat.leb_spec size m); try lia.
  - rewrite Nat.ltb_irrefl. by rewrite !take_ge by (unfold m in *; lia).
  - by rewrite (proj2 (Nat.ltb_lt (size - 1) m)) by lia.
  - by rewrite (proj2 (Nat.ltb_ge (size - 1) m)) by lia.
Qed.

(** The blob getter with a buffer: the effective bytes, if they fit. *)
Definition get_blob_result (s : st) (ns key : option cstr) (cap : nat) (r : esp_err_t * option (list Z) * option nat) (s' : st) : Prop :=
  quiet s s' /\
  match declared (m_sm s) ns key with
  | None => r = (ESP_ERR_NOT_FOUND, None, Some cap)
  | Some (d, kd) =>
      if bool_decide (k_type kd = ESPOS_CFG_TYPE_BLOB) then
        let v := effective kd (view (m_world s) (ref_name d) (key_name kd)) in
        r = (ESP_ERR_NO_MEM, None, Some cap) \/
        r = (if (cap <? v_len v)%nat then (ESP_ERR_INVALID_SIZE, None, Some (v_len v))
             else (ESP_OK, Some (take (v_len v) (str_of (v_p v))), Some (v_len v)))
      else r = (ESP_ERR_INVALID_ARG, None, Some cap)
  end.

Lemma wp_get_blob ns key cap s : store_inv s -> c_inited (m_sm s) = true ->
  wp (espos_config_get_blob be ev namespaces rt_desc ns key true (Some cap)) (get_blob_result s ns key cap) s.
Proof.
  intros I Hin. unfold espos_config_get_blob, get_blob_result. wp_step. apply wp_gets. rewrite Hin. cbn [negb]. wp_step.
  eapply wp_lookup; [done|done| |].
  { intros s1 Q1 ->. by apply wp_ret. }
  intros d r kd s1 Q1 -> Hk O. case_bool_decide as Hkt; cbn [negb]; [|by apply wp_ret].
  wp_step. apply (wp_malloc ev good); [apply Q1|]. intros b s2 Q2 Hb. pose proof (quiet_trans good _ _ _ Q1 Q2) as Q3.
  destruct b as [bbuf|]; [|apply wp_ret; by auto]. pose proof (open_slot_quiet good _ _ _ _ _ _ _ Q2 O) as O2.
  eapply wp_locked_read; [apply Q2|exact O2|done|congruence|]. intros v b s4 Q4 Hv _.
  pose proof Q3 as (_ & _ & [E3 _] & _). rewrite <- E3 in Hv.
  set (w := effective kd (view (m_world s) (ref_name d) (key_name kd))) in *.
  assert (v_len v = v_len w /\ take (v_len v) (str_of (v_p v)) = take (v_len w) (str_of (v_p w))) as [Hl Ht].
  { clearbody w. destruct v, w; cbn [norm] in Hv; try discriminate Hv; try done. injection Hv as Hv1 ->. done. }
  rewrite (proj2 (is_ok_true _) eq_refl). cbn [negb]. rewrite Ht, Hl.
  destruct (cap <? v_len w)%nat; apply wp_ret; (split; [by eapply quiet_trans|by right]).
Qed.

End Inv.
