(* ===== verification/ConfigLife.v ===== *)
(** The rest of the configuration store against its backend: the migration
    chain, the reset of a namespace, the batch plan, and the life cycle (init,
    deinit, factory reset, registration of namespaces), with the proof that each
    keeps the invariant of the store. *)
From Stdlib Require Import ZArith Lia.
From stdpp Require Import base numbers list.
From S2P Require Import Prelude ConfigDesc ConfigStore ConfigLaws ConfigSpec ConfigInv.
Open Scope Z_scope.

Section Life.
Context `{Storage W} (be : espos_config_backend_t W) (ev : env W) (good : W -> Prop).
Context `{!BackendLaws be good} `{!EnvLaws ev good}.
Context (namespaces : list espos_cfg_ns_t) (rt_desc : Z -> espos_cfg_ns_t).
Context (names_distinct : NoDup (map desc_name namespaces)).
Context (static_known : Forall known_keys namespaces).

#[local] Abbreviation M := (act cfg W obs).
#[local] Abbreviation st := (mach cfg W obs).
#[local] Abbreviation deref := (deref namespaces rt_desc).
#[local] Abbreviation ref_name := (ref_name namespaces rt_desc).
#[local] Abbreviation slot_for := (slot_for namespaces).
#[local] Abbreviation count := (espos_cfg_namespace_count namespaces).
#[local] Abbreviation quiet := (quiet good).
#[local] Abbreviation wrote := (wrote good).
#[local] Abbreviation said := (said good).
#[local] Abbreviation data_only := (data_only good).
#[local] Abbreviation open_slot := (open_slot namespaces).
#[local] Abbreviation store_inv := (store_inv good namespaces rt_desc).
#[local] Abbreviation slots_inv := (slots_inv namespaces rt_desc).
#[local] Abbreviation VER := ESPOS_CFG_VERSION_KEY.

(** * Versions and migrations *)

(** The stored stamp of a namespace, as [read_version] takes it. *)
Definition version_of (o : option entry) : esp_err_t + Z :=
  match o with
  | None => inl ESP_ERR_NOT_FOUND
  | Some (t, d) =>
      if bool_decide (t = ESPOS_CFG_TYPE_INT) then
        if (dec_i32 d <? 0) || (65535 <? dec_i32 d) then inl ESP_ERR_INVALID_STATE else inr (dec_i32 d)
      else inl ESP_ERR_INVALID_STATE
  end.

Lemma version_of_stamp v : 0 <= v <= 65535 -> version_of (Some (ESPOS_CFG_TYPE_INT, bytes32 (u32 v))) = inr v.
Proof.
  intros Hv. unfold version_of. rewrite bool_decide_true by done. unfold dec_i32. rewrite overlay_full by done.
  rewrite i32_u32_bytes by lia. destruct (Z.ltb_spec v 0), (Z.ltb_spec 65535 v); lia || done.
Qed.

(** The handle of a slot is open on [ns]. *)
Definition handle_ok (s : st) (r : slot_ref) (ns : cstr) : Prop := hns (m_world s) (st_h (slot_get (m_sm s) r)) = Some ns.

Lemma handle_ok_data s s' r ns : data_only s s' -> handle_ok s r ns -> handle_ok s' r ns.
Proof. intros (A1 & A2 & A3). unfold handle_ok. by rewrite A1, A3. Qed.

Lemma open_handle s r d h ns : open_slot s r d h ns -> handle_ok s r ns.
Proof. intros [O1 O2 O3 O4 O5]. unfold handle_ok. by rewrite O3. Qed.

Lemma wp_read_version r ns Q s : good (m_world s) -> handle_ok s r ns ->
  (forall s', quiet s s' -> Q (version_of (view (m_world s) ns VER)) s') -> wp (read_version be r) Q s.
Proof.
  intros G Hh HQ. unfold read_version. wp_step. apply wp_gets. wp_step. eapply (wp_get be good); [done|exact Hh|cbn; lia|].
  intros [[e d] n] s1 Q1 Hg. unfold version_of in HQ. destruct (view (m_world s) ns VER) as [[t d']|] eqn:V; cbn [get_spec fst] in Hg.
  - case_bool_decide as Ht.
    + subst t. apply (law_wf _ _ _ _ G) in V as [Hl _]. cbn in Hl. rewrite Hl in Hg. cbn in Hg. injection Hg as -> -> ->.
      rewrite (proj2 (is_ok_true _) eq_refl). cbn [negb]. destruct ((dec_i32 d' <? 0) || (65535 <? dec_i32 d')) eqn:R.
      * apply wp_ret. by apply HQ.
      * apply wp_ret. replace (u16 (dec_i32 d')) with (dec_i32 d'); [by apply HQ|]. unfold u16.
        rewrite Z.mod_small; [done|]. apply orb_false_iff in R as [?%Z.ltb_ge ?%Z.ltb_ge]. lia.
    + subst e. cbn. apply wp_ret. by apply HQ.
  - subst e. cbn. apply wp_ret. by apply HQ.
Qed.

Lemma wp_write_version r ns v Q s : good (m_world s) -> handle_ok s r ns ->
  (forall e s', wrote ns VER s s' -> (e = ESP_OK -> view (m_world s') ns VER = Some (ESPOS_CFG_TYPE_INT, bytes32 (u32 v))) -> Q e s') ->
  wp (write_version be r v) Q s.
Proof.
  intros G Hh HQ. unfold write_version. wp_step. apply wp_gets. wp_step. eapply (wp_set be good); [done|exact Hh| |].
  { split_and!; [done|done|apply bytes32_wf]. }
  intros e s1 W1 V1. rewrite take_ge in V1 by done. destruct (is_ok e) eqn:E.
  - apply is_ok_true in E. eapply (wp_commit be good); [apply W1| |].
    { pose proof (handle_ok_data _ _ _ _ (wrote_data _ _ _ _ _ W1) Hh) as H1. unfold handle_ok in H1.
      destruct W1 as (E1 & _). by rewrite <- E1. }
    intros e2 s2 Q2. apply HQ; [eapply wrote_trans; [done|by apply quiet_wrote]|].
    intros _. destruct Q2 as (_ & _ & [Q2 _] & _). rewrite <- Q2. auto.
  - apply HQ; [done|]. apply is_ok_false in E. done.
Qed.

(** [migrate_ns] and its callbacks change the data of one namespace. *)
Definition touched (ns : cstr) (s s' : st) : Prop :=
  m_sm s' = m_sm s /\ good (m_world s') /\ only_in ns (m_world s) (m_world s') /\ notes (m_trace s') = notes (m_trace s).

Lemma touched_data ns s s' : touched ns s s' -> data_only s s'.
Proof. intros (A1 & A2 & [_ A3] & A4). done. Qed.

Lemma wrote_touched ns k s s' : wrote ns k s s' -> touched ns s s'.
Proof. intros (A1 & A2 & A3 & A4). split_and!; try done. by eapply only_at_in. Qed.

Lemma quiet_touched ns s s' : quiet s s' -> touched ns s s'.
Proof. intros A. apply (wrote_touched _ []). by apply quiet_wrote. Qed.

Lemma touched_refl ns s : good (m_world s) -> touched ns s s.
Proof. intros G. by split_and!. Qed.

Lemma touched_trans ns s1 s2 s3 : touched ns s1 s2 -> touched ns s2 s3 -> touched ns s1 s3.
Proof. intros (A1 & A2 & A3 & A4) (B1 & B2 & B3 & B4). split_and!; [congruence|done|by eapply only_in_trans|congruence]. Qed.

Lemma wp_migrate_cb fn h from arg name ns Q s : good (m_world s) -> hns (m_world s) h = Some ns ->
  (forall e s', touched ns s s' -> m_trace s' = OMigrate name from e :: m_trace s ->
     (e, m_world s') = e_migrate ev fn (MigrateCtx h from) arg (m_world s) -> Q e s') ->
  wp (call (e_migrate ev fn (MigrateCtx h from) arg) (OMigrate name from)) Q s.
Proof.
  intros G Hh HQ. unfold wp, call. destruct (law_migrate (m_world s) fn h from ns arg G Hh) as [L1 L2].
  destruct (e_migrate ev fn (MigrateCtx h from) arg (m_world s)) as [e w'] eqn:E. apply HQ; [|done|done]. by split_and!.
Qed.

Lemma wp_migrate_loop fuel r ns name v s : good (m_world s) -> handle_ok s r ns ->
  wp (migrate_loop be ev fuel r name v) (fun _ s' => touched ns s s') s.
Proof.
  revert v s. induction fuel as [|fuel IH]; intros v s G Hh; cbn [migrate_loop]; [by apply wp_ret, touched_refl|].
  wp_step. apply wp_gets. wp_step.
  assert (forall e s1, touched ns s s1 -> wp (if negb (is_ok e) then mret tt else
      err ← write_version be r (u16 (v + 1)); if negb (is_ok err) then mret tt else migrate_loop be ev fuel r name (u16 (v + 1)))
      (fun _ s' => touched ns s s') s1) as Hk.
  { intros e s1 T1. destruct (is_ok e); cbn [negb]; [|by apply wp_ret]. wp_step.
    eapply wp_write_version; [apply T1|by eapply handle_ok_data; [eapply touched_data|]|]. intros e2 s2 W2 _.
    pose proof (touched_trans _ _ _ _ T1 (wrote_touched _ _ _ _ W2)) as T2.
    destruct (is_ok e2); cbn [negb]; [|by apply wp_ret]. eapply wp_mono; [apply IH; [apply T2|by eapply handle_ok_data; [eapply touched_data|]]|].
    intros u s3 T3. by eapply touched_trans. }
  destruct (List.find _ _) as [m|]; [|by apply wp_ret, Hk, touched_refl].
  wp_step. apply wp_gets. eapply wp_migrate_cb; [done|exact Hh|]. intros. by apply Hk.
Qed.

Lemma wp_migrate_ns r ns s : good (m_world s) -> handle_ok s r ns ->
  wp (migrate_ns be ev namespaces rt_desc r) (fun _ s' => touched ns s s') s.
Proof.
  intros G Hh. unfold migrate_ns, nss_nd. do 2 wp_step. apply wp_gets. apply wp_ret. wp_step.
  eapply wp_read_version; [done|exact Hh|]. intros s1 Q1. pose proof (quiet_touched ns _ _ Q1) as T1.
  pose proof (handle_ok_data _ _ _ _ (touched_data _ _ _ T1) Hh) as H1.
  assert (forall s2 v, touched ns s s2 -> wp (write_version be r v;; mret tt) (fun _ s' => touched ns s s') s2) as Hw.
  { intros s2 v T2. wp_step. eapply wp_write_version; [apply T2|by eapply handle_ok_data; [eapply touched_data|]|].
    intros e s3 W3 _. apply wp_ret. eapply touched_trans; [done|by eapply wrote_touched]. }
  assert (wp (h ← nss_h r; erase_key be h VER;; write_version be r
    (ns_version (deref (default (Runtime 0) (st_desc (slot_get (m_sm s) r)))));; mret tt) (fun _ s' => touched ns s s') s1) as He.
  { wp_step. apply wp_gets. wp_step. eapply (wp_erase be good); [apply T1|exact H1|]. intros e s2 W2 _. apply Hw.
    eapply touched_trans; [done|by eapply wrote_touched]. }
  destruct (version_of _) as [e|v]; [destruct e; try exact He; by apply Hw|].
  wp_step; [by apply wp_ret|]. wp_step; [by apply wp_ret|]. eapply wp_mono; [apply wp_migrate_loop; [apply T1|exact H1]|].
  intros u s2 T2. exact (touched_trans _ _ _ _ T1 T2).
Qed.
(** * Handles *)

Definition slots_inv_len (c : cfg) : Prop := length (c_rt c) = CONFIG_ESPOS_CONFIG_MAX_RUNTIME_NS.

Lemma slot_set_out c r v : ~ in_range c r -> slot_set r v c = c.
Proof.
  destruct r, c; cbn; intros Hr; f_equal; apply list_insert_ge; lia.
Qed.

Lemma slot_get_out c r : ~ in_range c r -> slot_get c r = null_state.
Proof. destruct r; cbn; intros Hr; apply nth_overflow; lia. Qed.

Lemma in_range_dec c r : in_range c r \/ ~ in_range c r.
Proof. destruct r; cbn; lia. Qed.

Lemma slot_set_len c r v : length (c_rt (slot_set r v c)) = length (c_rt c).
Proof. destruct r; cbn; [done|]. apply length_insert. Qed.

(** Assigning to a slot keeps the invariant when what is assigned is fit for it. *)
Lemma slots_inv_set w c r x : slots_inv w c -> slot_ok namespaces rt_desc w r x ->
  (forall i j d d', r = SRt i -> j <> i -> st_desc x = Some d -> st_desc (slot_get c (SRt j)) = Some d' -> ref_name d <> ref_name d') ->
  slots_inv w (slot_set r x c).
Proof.
  intros Hi Hx Hu. destruct (in_range_dec c r) as [R|R]; [|by rewrite slot_set_out]. split.
  - rewrite slot_set_len. apply Hi.
  - intros r'. destruct (decide (r = r')) as [<-|Hr]; [by rewrite slot_get_set|]. rewrite slot_get_set_ne by done. apply Hi.
  - intros i j d d' Hd Hd' Hn. destruct (decide (r = SRt i)) as [Ei|Hri], (decide (r = SRt j)) as [Ej|Hrj].
    + congruence.
    + subst r. rewrite slot_get_set in Hd by done. rewrite slot_get_set_ne in Hd' by done. destruct (decide (j = i)) as [->|]; [done|].
      by destruct (Hu i j d d').
    + subst r. rewrite slot_get_set in Hd' by done. rewrite slot_get_set_ne in Hd by done. destruct (decide (i = j)) as [->|]; [done|].
      by destruct (Hu j i d' d).
    + rewrite slot_get_set_ne in Hd, Hd' by done. by eapply si_rt.
Qed.

Lemma slots_inv_set_h w c r h : slots_inv w c ->
  (forall d, st_desc (slot_get c r) = Some d -> h = 0 \/ hns w h = Some (ref_name d)) -> (st_desc (slot_get c r) = None -> h = 0) ->
  slots_inv w (slot_set r (NsState (st_desc (slot_get c r)) h) c).
Proof.
  intros Hi Hh Hn. apply slots_inv_set; [done| |].
  - pose proof (si_ok _ _ _ _ Hi r) as O. unfold slot_ok in *. cbn. destruct (st_desc (slot_get c r)) as [d|]; [|auto].
    destruct O. split; [done|auto].
  - cbn. intros i j d d' -> Hj Hd Hd' He. destruct Hj. by eapply (si_rt _ _ _ _ Hi j i d' d).
Qed.

Lemma slots_inv_world w w' c : slots_inv w c ->
  (forall r, st_h (slot_get c r) <> 0 -> hns w' (st_h (slot_get c r)) = hns w (st_h (slot_get c r))) -> slots_inv w' c.
Proof.
  intros [I1 I2 I3] Hw. split; try done. intros r. specialize (I2 r). specialize (Hw r). unfold slot_ok in *.
  destruct (st_desc _); [|done]. destruct I2 as [I2 [I4|I4]]; (split; [done|]); [by left|].
  destruct (decide (st_h (slot_get c r) = 0)); [by left|]. right. by rewrite Hw.
Qed.

(** What opening and closing handles leaves alone. *)
Definition hframe (s s' : st) : Prop :=
  (c_lock (m_sm s'), c_ns_count (m_sm s'), c_inited (m_sm s'), length (c_ns (m_sm s'))) =
  (c_lock (m_sm s), c_ns_count (m_sm s), c_inited (m_sm s), length (c_ns (m_sm s))) /\
  (forall ns k, view (m_world s') ns k = view (m_world s) ns k) /\ notes (m_trace s') = notes (m_trace s).

Lemma hframe_refl s : hframe s s.
Proof. done. Qed.

Lemma hframe_trans s1 s2 s3 : hframe s1 s2 -> hframe s2 s3 -> hframe s1 s3.
Proof. intros (A1 & A2 & A3) (B1 & B2 & B3). split_and!; [congruence| |congruence]. intros. by rewrite B2. Qed.

Lemma slot_set_fields r v c :
  (c_lock (slot_set r v c), c_ns_count (slot_set r v c), c_inited (slot_set r v c), length (c_ns (slot_set r v c))) =
  (c_lock c, c_ns_count c, c_inited c, length (c_ns c)).
Proof. destruct r; cbn; [|done]. by rewrite length_insert. Qed.

(** The state is sound, whatever handles are open. *)
Definition sound (s : st) : Prop := good (m_world s) /\ slots_inv (m_world s) (m_sm s).

(** Descriptors and the other slots as they were. *)
Definition same_descs (s s' : st) : Prop := forall r, st_desc (slot_get (m_sm s') r) = st_desc (slot_get (m_sm s) r).

Lemma slot_desc_set_h c r r' h : st_desc (slot_get (slot_set r (NsState (st_desc (slot_get c r)) h) c) r') = st_desc (slot_get c r').
Proof.
  destruct (in_range_dec c r) as [R|R]; [|by rewrite slot_set_out].
  destruct (decide (r = r')) as [<-|]; [by rewrite slot_get_set|by rewrite slot_get_set_ne].
Qed.

(** Closing the handle of a slot. *)
Definition closed (r : slot_ref) (s s' : st) : Prop :=
  sound s' /\ hframe s s' /\ same_descs s s' /\ st_h (slot_get (m_sm s') r) = 0 /\
  (forall r', r' <> r -> slot_get (m_sm s') r' = slot_get (m_sm s) r').

Lemma wp_close_set r s : sound s -> st_h (slot_get (m_sm s) r) <> 0 ->
  wp (close_ be (st_h (slot_get (m_sm s) r));; set_h r 0) (fun _ => closed r s) s.
Proof.
  intros [G Hi] Hz.
  pose proof (si_ok _ _ _ _ Hi r) as O. unfold slot_ok in O. destruct (st_desc (slot_get (m_sm s) r)) as [d|] eqn:D; [|done].
  destruct O as [O1 [O2|O2]]; [done|]. wp_step. unfold close_, wp at 1, call.
  pose proof (law_close (m_world s) _ _ G O2) as L. destruct (be_close be _ (m_world s)) as [u w'] eqn:E. destruct L as (L1 & L2 & L3).
  unfold set_h. apply wp_mods. cbn [fst snd m_sm m_world m_trace].
  assert (in_range (m_sm s) r) as R by (apply slot_in_range; by rewrite D). unfold closed. split_and!.
  - split; [done|]. cbn [m_sm m_world]. apply (slots_inv_world (m_world s)).
    + apply slots_inv_set_h; [done|auto|done].
    + intros r'. destruct (decide (r = r')) as [<-|Hr]; [by rewrite slot_get_set|]. rewrite slot_get_set_ne by done.
      intros Hz'. apply L3. intros He. by destruct Hr; eapply slot_handles.
  - split_and!; cbn [m_sm m_world m_trace]; [apply slot_set_fields|done|done].
  - intros r'. cbn [m_sm]. apply slot_desc_set_h.
  - cbn [m_sm]. by rewrite slot_get_set.
  - intros r' Hr. cbn [m_sm]. by rewrite slot_get_set_ne.
Qed.

Lemma wp_close_slot r s : sound s -> wp (close_slot be r) (fun _ => closed r s) s.
Proof.
  intros Hs. unfold close_slot. wp_step. apply wp_gets. destruct (Z.eqb_spec (st_h (slot_get (m_sm s) r)) 0) as [Hz|Hz].
  - apply wp_ret. by split_and!.
  - by apply wp_close_set.
Qed.

Lemma wp_close_slots l s : sound s ->
  wp (for_each l (close_slot be)) (fun _ s' => sound s' /\ hframe s s' /\ same_descs s s' /\
    (forall r, r ∈ l \/ st_h (slot_get (m_sm s) r) = 0 -> st_h (slot_get (m_sm s') r) = 0)) s.
Proof.
  intros Hs. apply (wp_for_each _ _ (fun pre s' => sound s' /\ hframe s s' /\ same_descs s s' /\
    (forall r, r ∈ pre \/ st_h (slot_get (m_sm s) r) = 0 -> st_h (slot_get (m_sm s') r) = 0))).
  - split_and!; try done. intros r [Hr|Hr]; [by apply not_elem_of_nil in Hr|done].
  - intros pre r post s1 _ (S1 & F1 & D1 & Z1). eapply wp_mono; [by apply wp_close_slot|].
    intros u s2 (S2 & F2 & D2 & Z2 & K2). split_and!; [exact S2|exact (hframe_trans _ _ _ F1 F2)| |].
    + intros r'. by rewrite (D2 r').
    + intros r' Hr'. destruct (decide (r' = r)) as [->|Hne]; [done|]. rewrite K2 by done. apply Z1.
      destruct Hr' as [Hr'|]; [|by right]. left. apply elem_of_app in Hr' as [|Hr']; [done|]. by apply list_elem_of_singleton in Hr'.
Qed.

(** Every slot that can be in use is one of those closed. *)
Lemma slot_cases c r : slots_inv_len c -> in_range c r -> r ∈ map SNs (seq 0 (length (c_ns c))) \/ r ∈ rt_slots.
Proof.
  intros Hl Hr. destruct r as [i|i]; cbn in Hr; [left|right]; apply (list_elem_of_fmap_2 _ _ i), elem_of_seq; rewrite ?Hl in Hr; lia.
Qed.
Lemma wp_close_all s : sound s -> c_ns_count (m_sm s) = length (c_ns (m_sm s)) ->
  wp (close_all_locked be) (fun _ s' => sound s' /\ hframe s s' /\ same_descs s s' /\ forall r, st_h (slot_get (m_sm s') r) = 0) s.
Proof.
  intros Hs Hc. unfold close_all_locked. wp_step. apply wp_gets. wp_step. eapply wp_mono; [by apply wp_close_slots|].
  intros u s1 (S1 & F1 & D1 & Z1). eapply wp_mono; [by apply wp_close_slots|]. intros u' s2 (S2 & F2 & D2 & Z2).
  split_and!; [done|by eapply hframe_trans| |].
  - intros r. by rewrite (D2 r).
  - intros r. destruct (in_range_dec (m_sm s) r) as [R|R].
    + apply (slot_cases _ _ (si_len _ _ _ _ (proj2 Hs))) in R as [R|R]; apply Z2; [right; apply Z1; left|by left]. by rewrite Hc.
    + apply Z2. right. apply Z1. right. by rewrite slot_get_out.
Qed.

(** Opening. *)
Lemma slots_inv_grow w w' c : (forall h n, hns w h = Some n -> hns w' h = Some n) -> slots_inv w c -> slots_inv w' c.
Proof.
  intros Hw [I1 I2 I3]. split; try done. intros r. specialize (I2 r). unfold slot_ok in *. destruct (st_desc _); [|done].
  destruct I2 as [I2 [I4|I4]]; auto.
Qed.

Lemma wp_open ns Q s : sound s ->
  (forall e h s', m_sm s' = m_sm s -> sound s' -> (forall n k, view (m_world s') n k = view (m_world s) n k) ->
     notes (m_trace s') = notes (m_trace s) -> (e = ESP_OK -> h <> 0 /\ hns (m_world s') h = Some ns) -> Q (e, h) s') ->
  wp (open_ be ns) Q s.
Proof.
  intros [G Hi] HQ. unfold wp, open_, call. pose proof (law_open (m_world s) ns G) as L.
  destruct (be_open be ns (m_world s)) as [[e h] w']. destruct L as (L1 & L2 & L3 & L4). apply HQ; try done.
  split; [done|]. by eapply slots_inv_grow.
Qed.

(** Storing an open handle of the slot's namespace. *)
Lemma sound_set_h s r d h : sound s -> st_desc (slot_get (m_sm s) r) = Some d -> hns (m_world s) h = Some (ref_name d) ->
  sound (Mach (slot_set r (NsState (st_desc (slot_get (m_sm s) r)) h) (m_sm s)) (m_world s) (m_trace s)).
Proof.
  intros [G Hi] Hd Hh. split; [done|]. cbn [m_sm m_world]. apply slots_inv_set_h; [done| |congruence].
  intros d' Hd'. right. congruence.
Qed.

(** What [open_static] leaves alone. *)
Definition oframe (s s' : st) : Prop := hframe s s' /\ same_descs s s' /\ c_rt (m_sm s') = c_rt (m_sm s).

Lemma oframe_trans s1 s2 s3 : oframe s1 s2 -> oframe s2 s3 -> oframe s1 s3.
Proof.
  intros (A1 & A2 & A3) (B1 & B2 & B3). split_and!; [by eapply hframe_trans| |congruence]. intros r. by rewrite (B2 r).
Qed.

Lemma closed_oframe i s s' : closed (SNs i) s s' -> slots_inv_len (m_sm s) -> oframe s s'.
Proof.
  intros (A1 & A2 & A3 & A4 & A5) Hl. split_and!; [done|done|]. apply list_eq_same_length with (n := CONFIG_ESPOS_CONFIG_MAX_RUNTIME_NS);
    [apply Hl|apply A1|]. intros j x y _ Hx Hy. specialize (A5 (SRt j)). cbn in A5. rewrite !nth_lookup, Hx, Hy in A5. cbn in A5.
  by apply A5.
Qed.

Lemma wp_close_back i s : sound s -> (forall j, (j < i)%nat -> st_h (slot_get (m_sm s) (SNs j)) <> 0) ->
  wp (for_each (seq 0 i) (fun j => hj ← nss_h (SNs j); close_ be hj;; set_h (SNs j) 0)) (fun _ s' => sound s' /\ oframe s s') s.
Proof.
  intros Hs Hj. eapply wp_mono; [apply (wp_for_each _ _ (fun pre s' => sound s' /\ oframe s s' /\
    forall j, (length pre <= j < i)%nat -> st_h (slot_get (m_sm s') (SNs j)) <> 0))|].
  - split_and!; [done|done|]. intros j Hj'. apply Hj. lia.
  - intros pre j post s1 E (S1 & O1 & H1). wp_step. apply wp_gets.
    assert (j = length pre /\ (j < i)%nat) as [-> Hi].
    { assert (seq 0 i !! length pre = Some j) as L by (rewrite E; by apply list_lookup_middle). apply lookup_seq in L. lia. }
    eapply wp_mono; [apply wp_close_set; [done|apply H1; lia]|]. intros u s2 C2. split_and!; [apply C2| |].
    + eapply oframe_trans; [done|]. apply (closed_oframe _ _ _ C2). apply S1.
    + intros j Hj'. rewrite length_app in Hj'. cbn [length] in Hj'. destruct C2 as (_ & _ & _ & _ & C2).
      rewrite C2 by (intros [= ->]; lia). apply H1. lia.
  - cbn. intros u s1 (S1 & O1 & _). done.
Qed.

Lemma wp_open_static k n s : sound s -> (forall j, (j < k)%nat -> st_h (slot_get (m_sm s) (SNs j)) <> 0) ->
  (forall i, (i < k + n)%nat -> st_desc (slot_get (m_sm s) (SNs i)) = Some (Static i)) ->
  wp (open_static be namespaces rt_desc (seq k n)) (fun e s' => sound s' /\ oframe s s' /\
    (e = ESP_OK -> forall j, (j < k + n)%nat -> st_h (slot_get (m_sm s') (SNs j)) <> 0)) s.
Proof.
  revert k s. induction n as [|n IH]; intros k s Hs Hh Hd; cbn [seq open_static].
  { apply wp_ret. split_and!; try done. intros _ j Hj. apply Hh. lia. }
  wp_step. unfold nss_nd. wp_step. apply wp_gets. rewrite Hd by lia. apply wp_ret. cbn [default from_option id].
  wp_step. apply wp_open; [done|]. intros e h s1 E1 S1 V1 N1 H1.
  assert (oframe s s1) as O1. { split_and!; [split_and!|..]; rewrite ?E1; try done. intros r. by rewrite E1. }
  destruct (is_ok e) eqn:E; cbn [negb].
  - apply is_ok_true in E. destruct (H1 E) as [Hz Hn]. wp_step. unfold set_h. apply wp_mods.
    set (s2 := Mach _ _ _). assert (st_desc (slot_get (m_sm s1) (SNs k)) = Some (Static k)) as Hk by (rewrite E1; apply Hd; lia).
    assert (in_range (m_sm s1) (SNs k)) as R by (apply slot_in_range; by rewrite Hk).
    assert (sound s2) as S2 by (by eapply sound_set_h).
    assert (oframe s s2) as O2.
    { eapply oframe_trans; [exact O1|]. unfold s2. split_and!; [split_and!|..]; cbn [m_sm m_world m_trace]; try done.
      - apply slot_set_fields.
      - intros r. apply slot_desc_set_h. }
    eapply wp_mono; [apply IH; [done| |]|].
    + intros j Hj. unfold s2. cbn [m_sm]. destruct (decide (j = k)) as [->|]; [by rewrite slot_get_set|].
      rewrite slot_get_set_ne by congruence. rewrite E1. apply Hh. lia.
    + intros i Hi. destruct O2 as (_ & O2 & _). rewrite (O2 (SNs i)). apply Hd. lia.
    + intros e2 s3 (S3 & O3 & H3). split_and!; [done|by eapply oframe_trans|]. intros E2 j Hj. apply H3; [done|lia].
  - wp_step. eapply wp_mono; [apply wp_close_back; [done|]|].
    + intros j Hj. rewrite E1. by apply Hh.
    + intros u s2 [S2 O2]. apply wp_ret. split_and!; [done|by eapply oframe_trans|]. by apply is_ok_false in E.
Qed.
(** What the runtime phase leaves alone. *)
Definition rframe (s s' : st) : Prop := hframe s s' /\ c_ns (m_sm s') = c_ns (m_sm s).

Lemma rframe_trans s1 s2 s3 : rframe s1 s2 -> rframe s2 s3 -> rframe s1 s3.
Proof. intros [A1 A2] [B1 B2]. split; [by eapply hframe_trans|congruence]. Qed.

Lemma rt_slot_ns i v c : c_ns (slot_set (SRt i) v c) = c_ns c.
Proof. done. Qed.

Definition is_open (c : cfg) (r : slot_ref) : Prop := st_desc (slot_get c r) <> None -> st_h (slot_get c r) <> 0.

Lemma wp_open_runtime i s : sound s ->
  wp (open_runtime be namespaces rt_desc (SRt i)) (fun _ s' => sound s' /\ rframe s s' /\ is_open (m_sm s') (SRt i) /\
    (forall r, r <> SRt i -> slot_get (m_sm s') r = slot_get (m_sm s) r)) s.
Proof.
  intros Hs. unfold open_runtime. wp_step. apply wp_gets. wp_step. apply wp_gets.
  destruct (st_desc (slot_get (m_sm s) (SRt i))) as [d|] eqn:D.
  2:{ apply wp_ret. split_and!; [done|done| |done]. intros Hd. by rewrite D in Hd. }
  destruct (Z.eqb_spec (st_h (slot_get (m_sm s) (SRt i))) 0) as [Hz|Hz]; cbn [negb].
  2:{ apply wp_ret. split_and!; [done|done|by intros _|done]. }
  wp_step. apply wp_open; [done|]. intros e h s1 E1 S1 V1 N1 H1.
  assert (in_range (m_sm s1) (SRt i)) as R by (apply slot_in_range; by rewrite E1, D).
  assert (rframe s s1) as F1 by (split_and!; [split_and!|]; rewrite ?E1; done).
  destruct (is_ok e) eqn:E; cbn [negb].
  - apply is_ok_true in E. destruct (H1 E) as [Hz' Hn]. unfold set_h. apply wp_mods. split_and!.
    + eapply sound_set_h; [done|by rewrite E1|done].
    + eapply rframe_trans; [exact F1|]. split_and!; [split_and!|]; done || apply slot_set_fields.
    + intros _. cbn [m_sm]. by rewrite slot_get_set.
    + intros r Hr. cbn [m_sm]. by rewrite slot_get_set_ne, E1.
  - wp_step. unfold assign. apply wp_mods. unfold bump_generation. apply wp_mods. split_and!.
    + split; [apply S1|]. cbn [m_sm m_world]. destruct (slots_inv_set (m_world s1) (m_sm s1) (SRt i) (NsState None 0)) as [I1 I2 I3];
        [apply S1|done|done|]. split; [exact I1|exact I2|exact I3].
    + eapply rframe_trans; [exact F1|]. split_and!; [split_and!|]; done.
    + unfold is_open. cbn [m_sm]. change (slot_get _ (SRt i)) with (slot_get (slot_set (SRt i) (NsState None 0) (m_sm s1)) (SRt i)).
      by rewrite slot_get_set.
    + intros r Hr. cbn [m_sm]. change (slot_get _ r) with (slot_get (slot_set (SRt i) (NsState None 0) (m_sm s1)) r) at 1.
      by rewrite slot_get_set_ne, E1.
Qed.

Lemma wp_open_runtimes s : sound s ->
  wp (for_each rt_slots (open_runtime be namespaces rt_desc)) (fun _ s' => sound s' /\ rframe s s' /\ forall i, is_open (m_sm s') (SRt i)) s.
Proof.
  intros Hs. eapply wp_mono; [apply (wp_for_each _ _ (fun pre s' => sound s' /\ rframe s s' /\ forall r, r ∈ pre -> is_open (m_sm s') r))|].
  - split_and!; try done. intros r Hr. by apply not_elem_of_nil in Hr.
  - intros pre r post s1 E (S1 & F1 & O1).
    assert (exists i, r = SRt i) as [i ->].
    { assert (r ∈ rt_slots) as Hr by (rewrite E; apply elem_of_app; right; by left). apply list_elem_of_fmap in Hr as (i & -> & _). eauto. }
    eapply wp_mono; [by apply wp_open_runtime|]. intros u s2 (S2 & F2 & O2 & K2). split_and!; [done|by eapply rframe_trans|].
    intros r Hr. destruct (decide (r = SRt i)) as [->|Hne]; [done|]. unfold is_open. rewrite K2 by done. apply O1.
    apply elem_of_app in Hr as [|Hr]; [done|]. by apply list_elem_of_singleton in Hr.
  - cbn beta. intros u s1 (S1 & F1 & O1). split_and!; [done|done|]. intros i. destruct (in_range_dec (m_sm s1) (SRt i)) as [R|R].
    + apply O1. cbn in R. rewrite (si_len _ _ _ _ (proj2 S1)) in R. apply (list_elem_of_fmap_2 SRt), elem_of_seq. lia.
    + unfold is_open. by rewrite slot_get_out.
Qed.

(** The static table is allocated, with its descriptors. *)
Definition allocated (c : cfg) : Prop :=
  c_ns_count c = count /\ length (c_ns c) = count /\ forall i, (i < count)%nat -> st_desc (slot_get c (SNs i)) = Some (Static i).

Lemma wp_open_all s : sound s -> allocated (m_sm s) ->
  wp (open_all_locked be namespaces rt_desc) (fun e s' => sound s' /\ hframe s s' /\ allocated (m_sm s') /\
    (e = ESP_OK -> forall r, is_open (m_sm s') r) /\ (e <> ESP_OK -> c_rt (m_sm s') = c_rt (m_sm s))) s.
Proof.
  intros Hs (A1 & A2 & A3). unfold open_all_locked. wp_step. apply wp_gets. rewrite A1. wp_step. eapply wp_mono.
  { apply wp_open_static; [done|lia|exact A3]. }
  intros e s1 (S1 & (F1 & D1 & R1) & H1). pose proof F1 as ([= E1 E2 E3 E4] & _ & _).
  assert (allocated (m_sm s1)) as A. { split_and!; [congruence|congruence|]. intros i Hi. rewrite (D1 (SNs i)). auto. }
  destruct (is_ok e) eqn:E; cbn [negb]; [|apply wp_ret; split_and!; try done; by apply is_ok_false in E].
  apply is_ok_true in E. wp_step. eapply wp_mono; [by apply wp_open_runtimes|]. intros u s2 (S2 & [F2 N2] & O2). apply wp_ret.
  pose proof F2 as ([= G1 G2 G3 G4] & _ & _). destruct A as (B1 & B2 & B3).
  assert (forall i, slot_get (m_sm s2) (SNs i) = slot_get (m_sm s1) (SNs i)) as K2 by (intros i; cbn; by rewrite N2).
  split_and!; [done|by eapply hframe_trans|split_and!; [congruence|congruence|intros i Hi; rewrite K2; auto]| |done].
  intros _ [i|i]; [|apply O2]. intros Hd. rewrite K2 in *. apply H1; [done|]. cbn.
  destruct (Nat.lt_ge_cases i count) as [|L]; [done|]. destruct Hd. cbn. by rewrite nth_overflow by lia.
Qed.
End Life.
