(* ===== verification/ConfigOps.v ===== *)
(** Init, deinit, factory reset and the registration of namespaces keep the
    invariant of the configuration store; a factory reset leaves nothing stored
    but version stamps. *)
From Stdlib Require Import ZArith Lia.
From stdpp Require Import base numbers list.
From S2P Require Import Prelude ConfigDesc ConfigStore ConfigLaws ConfigSpec ConfigInv ConfigLife.
Open Scope Z_scope.

Section Ops.
Context `{Storage W} (be : espos_config_backend_t W) (ev : env W) (good : W -> Prop).
Context `{!BackendLaws be good} `{!EnvLaws ev good}.
Context (namespaces : list espos_cfg_ns_t) (rt_desc : Z -> espos_cfg_ns_t).
Context (names_distinct : NoDup (map desc_name namespaces)).
Context (static_known : Forall known_keys namespaces).

#[local] Abbreviation M := (act cfg W obs).
#[local] Abbreviation st := (mach cfg W obs).
#[local] Abbreviation deref := (deref namespaces rt_desc).
#[local] Abbreviation ref_name := (ref_name namespaces rt_desc).
#[local] Abbreviation count := (espos_cfg_namespace_count namespaces).
#[local] Abbreviation quiet := (quiet good).
#[local] Abbreviation wrote := (wrote good).
#[local] Abbreviation data_only := (data_only good).
#[local] Abbreviation open_slot := (open_slot namespaces).
#[local] Abbreviation store_inv := (store_inv good namespaces rt_desc).
#[local] Abbreviation slots_inv := (slots_inv namespaces rt_desc).
#[local] Abbreviation sound := (sound good namespaces rt_desc).
#[local] Abbreviation allocated := (allocated namespaces).
#[local] Abbreviation handle_ok := (@handle_ok W _).
#[local] Abbreviation VER := ESPOS_CFG_VERSION_KEY.

(** * Migrating every namespace *)

(** A step of the migration of all namespaces: [migrate_ns], or nothing. *)
Definition may_migrate (f : slot_ref -> M unit) : Prop :=
  forall r s Q, good (m_world s) -> (st_desc (slot_get (m_sm s) r) <> None -> exists ns, handle_ok s r ns) ->
    (st_desc (slot_get (m_sm s) r) <> None -> wp (migrate_ns be ev namespaces rt_desc r) Q s) ->
    (Q tt s) -> wp (f r) Q s.

Definition migrate_if_open (r : slot_ref) : M unit :=
  d ← nss_desc r; h ← nss_h r;
  match d with
  | Some _ => if h =? 0 then mret tt else migrate_ns be ev namespaces rt_desc r
  | None => mret tt
  end.

Lemma may_migrate_if_open : may_migrate migrate_if_open.
Proof.
  intros r s Q G Hh Hm HQ. unfold migrate_if_open. wp_step. apply wp_gets. wp_step. apply wp_gets.
  destruct (st_desc (slot_get (m_sm s) r)); [|by apply wp_ret]. destruct (_ =? 0); [by apply wp_ret|]. by apply Hm.
Qed.

(** All handles in use are open. *)
Definition all_open (s : st) : Prop := forall r d, st_desc (slot_get (m_sm s) r) = Some d -> handle_ok s r (ref_name d).

Lemma all_open_data s s' : data_only s s' -> all_open s -> all_open s'.
Proof. intros D Ho r d Hd. pose proof D as (E & _). rewrite E in Hd. eapply handle_ok_data; [done|]. by apply Ho. Qed.

Lemma wp_migrate_runtime s : good (m_world s) -> all_open s ->
  wp (migrate_runtime_locked be ev namespaces rt_desc) (fun _ => data_only s) s.
Proof.
  intros G Ho. apply (wp_for_each _ _ (fun _ => data_only s)); [by split_and!|].
  intros pre r post s1 _ D1. eapply (may_migrate_if_open r s1).
  - apply D1.
  - intros Hd. destruct (st_desc (slot_get (m_sm s1) r)) as [d|] eqn:E; [|done]. exists (ref_name d). by apply (all_open_data _ _ D1 Ho).
  - intros Hd. destruct (st_desc (slot_get (m_sm s1) r)) as [d|] eqn:E; [|done].
    eapply wp_mono; [apply (wp_migrate_ns be ev good namespaces rt_desc r (ref_name d)); [apply D1|by apply (all_open_data _ _ D1 Ho)]|].
    intros u s2 T2. eapply data_only_trans; [done|exact (touched_data good _ _ _ T2)].
  - done.
Qed.

Lemma wp_migrate_static n s : good (m_world s) -> all_open s -> (forall i, (i < n)%nat -> st_desc (slot_get (m_sm s) (SNs i)) <> None) ->
  wp (for_each (map SNs (seq 0 n)) (migrate_ns be ev namespaces rt_desc)) (fun _ => data_only s) s.
Proof.
  intros G Ho Hd. apply (wp_for_each _ _ (fun _ => data_only s)); [by split_and!|].
  intros pre r post s1 E D1.
  assert (exists i, r = SNs i /\ (i < n)%nat) as (i & -> & Hi).
  { assert (r ∈ map SNs (seq 0 n)) as Hr by (rewrite E; apply elem_of_app; right; by left).
    apply list_elem_of_fmap in Hr as (i & -> & Hi%elem_of_seq). exists i. split; [done|lia]. }
  specialize (Hd i Hi). pose proof D1 as (E1 & _). rewrite <- E1 in Hd. destruct (st_desc (slot_get (m_sm s1) (SNs i))) as [d|] eqn:Ed; [|done].
  eapply wp_mono; [apply (wp_migrate_ns be ev good namespaces rt_desc (SNs i) (ref_name d)); [apply D1|by apply (all_open_data _ _ D1 Ho)]|].
  intros u s2 T2. eapply data_only_trans; [done|exact (touched_data good _ _ _ T2)].
Qed.

(** * Init and deinit *)

Lemma nth_map_seq {A} (f : nat -> A) n i d : nth i (map f (seq 0 n)) d = if (i <? n)%nat then f i else d.
Proof.
  destruct (Nat.ltb_spec i n) as [Hi|Hi].
  - rewrite (nth_indep _ _ (f 0%nat)) by (by rewrite length_map, length_seq). by rewrite map_nth, seq_nth.
  - apply nth_overflow. by rewrite length_map, length_seq.
Qed.

Lemma nth_replicate_same {A} n (x : A) i : nth i (replicate n x) x = x.
Proof. revert i. induction n as [|n IH]; intros [|i]; cbn; auto. Qed.

Lemma slots_inv_free w c : slots_inv w c -> slots_inv w (c <| c_ns := [] |>).
Proof.
  intros [I1 I2 I3]. split; [done| |done]. intros [i|i]; [|apply (I2 (SRt i))]. unfold slot_ok. cbn. by destruct i.
Qed.

Lemma sound_all_open s : sound s -> (forall r, is_open (m_sm s) r) -> all_open s.
Proof.
  intros [G Hi] Ho r d Hd. pose proof (si_ok _ _ _ _ Hi r) as O. unfold slot_ok in O. rewrite Hd in O. destruct O as [_ [Hz|O]]; [|done].
  destruct (Ho r); [by rewrite Hd|done].
Qed.

(** A store whose slots are all open is up once it says so. *)
Lemma up_inv s : sound s -> allocated (m_sm s) -> (forall r, is_open (m_sm s) r) -> c_lock (m_sm s) = true ->
  c_inited (m_sm s) = true -> store_inv s.
Proof.
  intros [G Hi] (A1 & A2 & A3) Ho Hl Hin. split_and!; [done|done|]. rewrite Hin. split_and!; try done.
Qed.

Lemma wp_init_open s : sound s -> allocated (m_sm s) -> c_inited (m_sm s) = false -> c_lock (m_sm s) = true ->
  (forall i, st_h (slot_get (m_sm s) (SRt i)) = 0) ->
  wp (init_open be ev namespaces rt_desc) (fun e s' => store_inv s' /\ (e = ESP_OK <-> c_inited (m_sm s') = true)) s.
Proof.
  intros Hs A Hin Hl Hz. unfold init_open. wp_step. apply (wp_lock good); [apply Hs|]. intros s1 Q1.
  pose proof Q1 as (E1 & G1 & [V1 H1] & N1).
  assert (sound s1) as S1. { split; [done|]. rewrite E1. eapply slots_inv_hns; [|apply Hs]. intros. by rewrite H1. }
  wp_step. eapply wp_mono; [apply wp_open_all; [done..|by rewrite E1]|]. intros e s2 (S2 & F2 & A2 & O2 & R2).
  pose proof F2 as ([= E2l E2c E2i E2n] & _ & _). wp_step. destruct (is_ok e) eqn:E.
  - apply is_ok_true in E. specialize (O2 E). wp_step. apply wp_gets. wp_step. eapply wp_mono.
    { apply wp_migrate_static; [apply S2|by apply sound_all_open|]. intros i Hi. destruct A2 as (B1 & B2 & B3). rewrite B3 by congruence || lia. done. }
    intros u s3 D3. wp_step. eapply wp_mono.
    { apply wp_migrate_runtime; [apply D3|]. eapply all_open_data; [exact D3|]. by apply sound_all_open. }
    intros u' s4 D4. pose proof (data_only_trans _ _ _ _ D3 D4) as (E4 & G4 & H4). apply wp_mods. wp_step. apply (wp_unlock good); [done|]. intros s5 Q5.
    wp_step. cbn [negb]. apply wp_ret. apply wp_ret. pose proof Q5 as (E5 & G5 & [V5 H5] & N5). cbn [m_sm m_world] in *.
    assert (c_inited (m_sm s5) = true) as Hin5 by (by rewrite E5). split; [|done].
    apply (inv_data_only good namespaces rt_desc (Mach ((m_sm s4) <| c_inited := true |>) (m_world s4) (m_trace s4))).
    { split_and!; [done|done|]. intros h. by rewrite <- H5. }
    apply up_inv; [| | |by cbn; rewrite E4, E2l, E1|done].
    + split; [done|]. cbn [m_sm m_world]. rewrite E4. pose proof (slots_inv_hns _ _ _ (m_world s4) _ H4 (proj2 S2)) as [I1 I2 I3]. split; done.
    + cbn [m_sm]. rewrite E4. exact A2.
    + intros r. cbn [m_sm]. rewrite E4. apply (O2 r).
  - apply wp_ret. wp_step. apply (wp_unlock good); [apply S2|]. intros s5 Q5. wp_step. cbn [negb]. unfold free_ns. apply wp_mods. apply wp_ret.
    pose proof Q5 as (E5 & G5 & [V5 H5] & N5). apply is_ok_false in E.
    split; [|cbn; rewrite E5; split; [done|congruence]].
    split_and!; [done| |]; cbn [m_sm m_world].
    + rewrite E5. apply slots_inv_free. eapply slots_inv_hns; [|apply S2]. intros h. by rewrite H5.
    + cbn [c_inited]. rewrite E5. cbn. rewrite E2i, E1, Hin. split; [done|]. intros [i|i]; [by destruct i|]. cbn. specialize (Hz i). cbn in Hz.
      rewrite R2 by done. by rewrite E1.
Qed.
(** A field the invariant does not mention, or a lock that appears, changes nothing. *)
Lemma down_inv s : good (m_world s) -> slots_inv (m_world s) (m_sm s) -> c_inited (m_sm s) = false ->
  c_ns (m_sm s) = [] -> (forall i, st_h (slot_get (m_sm s) (SRt i)) = 0) -> store_inv s.
Proof.
  intros G Hi Hin Hn Hz. split_and!; [done|done|]. rewrite Hin. split; [done|]. intros [i|i]; [|apply Hz]. cbn. rewrite Hn. by destruct i.
Qed.

Lemma wp_ensure_lock Q s : store_inv s ->
  (forall s', store_inv s' -> c_lock (m_sm s') = true -> c_inited (m_sm s') = c_inited (m_sm s) ->
     c_rt (m_sm s') = c_rt (m_sm s) -> Q ESP_OK s') ->
  (forall s', store_inv s' -> c_inited (m_sm s') = c_inited (m_sm s) -> Q ESP_ERR_NO_MEM s') ->
  wp (ensure_lock ev) Q s.
Proof.
  intros I HQ1 HQ2. unfold ensure_lock. wp_step. apply wp_gets. destruct (c_lock (m_sm s)) eqn:L; [by apply wp_ret, HQ1|].
  wp_step. unfold wp at 1, query. destruct (law_mutex (m_world s) (proj1 I)) as [L1 L2].
  destruct (e_mutex ev (m_world s)) as [ok w'] eqn:E. cbn [fst snd] in *.
  assert (data_only s (Mach (m_sm s) w' (m_trace s))) as D. { split_and!; [done|done|]. intros h. by rewrite (proj2 L2). }
  pose proof (inv_data_only _ _ _ _ _ D I) as I'. destruct ok; [|apply wp_ret; by apply HQ2].
  wp_step. apply wp_mods. apply wp_ret. apply HQ1; try done. destruct I' as (B1 & [C1 C2 C3] & B3). split_and!; [done|by split|].
  cbn [m_sm]. change (c_inited (_ <| c_lock := true |>)) with (c_inited (m_sm s)). destruct (c_inited (m_sm s)) eqn:Hin.
  - cbn [m_sm] in B3. rewrite Hin in B3. destruct B3. congruence.
  - cbn [m_sm] in B3. by rewrite Hin in B3.
Qed.

Lemma wp_init b s : store_inv s ->
  wp (espos_config_init be ev namespaces rt_desc b) (fun e s' => store_inv s' /\
    if c_inited (m_sm s) then e = ESP_ERR_INVALID_STATE /\ s' = s else (e = ESP_OK <-> c_inited (m_sm s') = true)) s.
Proof.
  intros I. unfold espos_config_init. wp_step. apply wp_gets. destruct (c_inited (m_sm s)) eqn:Hin; [by apply wp_ret|].
  destruct b; cbn [negb]; [|apply wp_ret; split; [done|by rewrite Hin]]. wp_step. apply wp_ensure_lock; [done| |].
  2:{ intros s1 I1 E1. cbn. apply wp_ret. split; [done|]. by rewrite E1, Hin. }
  intros s1 I1 L1 E1 _. rewrite (proj2 (is_ok_true _) eq_refl). cbn [negb]. rewrite Hin in E1. destruct I1 as (G1 & S1 & D1). rewrite E1 in D1.
  destruct D1 as [D1 Z1]. wp_step. apply wp_mods. wp_step. unfold wp at 1, query. cbn [m_sm m_world m_trace].
  set (n := if (count =? 0)%nat then 1%nat else count). destruct (law_malloc (m_world s1) n G1) as [L2 [_ H2]].
  destruct (e_malloc ev n (m_world s1)) as [ok w2] eqn:M. cbn [fst snd] in *.
  assert (slots_inv w2 (m_sm s1)) as S2. { eapply slots_inv_hns; [|exact S1]. done. }
  destruct ok; cbn [negb].
  2:{ wp_step. unfold free_ns. apply wp_mods. apply wp_ret. split; [|cbn; by rewrite E1]. apply down_inv; cbn; try done.
      - destruct S2 as [I1 I2 I3]. split; [done| |done]. intros [i|i]; [|apply (I2 (SRt i))]. unfold slot_ok. cbn. by destruct i.
      - intros i. apply (Z1 (SRt i)). }
  wp_step. apply wp_mods. cbn [m_sm m_world m_trace].
  set (c3 := update c_ns _ _). set (s3 := Mach c3 w2 (m_trace s1)).
  assert (forall i, slot_get c3 (SNs i) = if (i <? count)%nat then NsState (Some (Static i)) 0 else null_state) as Hs3.
  { intros i. exact (nth_map_seq (fun i => NsState (Some (Static i)) 0) _ _ _). }
  assert (slots_inv w2 c3) as S3.
  { destruct S2 as [I1 I2 I3]. split; [done| |done]. intros [i|i]; [|apply (I2 (SRt i))]. rewrite Hs3. unfold slot_ok.
    destruct (Nat.ltb_spec i count); [|done]. cbn. split; [done|by left]. }
  wp_step. unfold wp at 1, call. pose proof (law_init w2 L2) as L3. cbn [m_world s3].
  destruct (be_init be w2) as [[e rst] w3] eqn:B. destruct L3 as [L3 _]. cbn [fst snd].
  assert (slots_inv w3 c3) as S4.
  { apply (slots_inv_world _ _ w2); [done|]. intros r Hr. destruct Hr. destruct r as [i|i]; [|apply (Z1 (SRt i))].
    rewrite Hs3. by destruct (i <? count)%nat. }
  destruct (is_ok e) eqn:E; cbn [negb].
  - wp_step. apply wp_mods. eapply wp_mono; [apply wp_init_open|].
    + split; [done|]. cbn [m_sm m_world]. destruct S4 as [I1 I2 I3]. by split.
    + split_and!; cbn [m_sm]; [done|cbn; by rewrite length_map, length_seq|]. intros i Hi.
      change (slot_get _ (SNs i)) with (slot_get c3 (SNs i)). rewrite Hs3. by rewrite (proj2 (Nat.ltb_lt _ _) Hi).
    + done.
    + done.
    + intros i. apply (Z1 (SRt i)).
    + done.
  - wp_step. unfold free_ns. apply wp_mods. apply wp_ret. apply is_ok_false in E. split; [|cbn; rewrite E1; split; [done|congruence]].
    apply down_inv; cbn [m_sm m_world]; try done; [by apply slots_inv_free|]. intros i. apply (Z1 (SRt i)).
Qed.

Lemma wp_deinit s : store_inv s -> wp (espos_config_deinit be) (fun _ s' => store_inv s' /\ c_inited (m_sm s') = false /\
  forall ns k, view (m_world s') ns k = view (m_world s) ns k) s.
Proof.
  intros I. pose proof I as (G & Hi & U). unfold espos_config_deinit. wp_step. apply wp_gets.
  destruct (c_inited (m_sm s)) eqn:Hin; cbn [negb]; [|by apply wp_ret]. destruct U as (U1 & U2 & U3 & U4 & U5).
  wp_step. apply (wp_lock good); [done|]. intros s1 Q1. pose proof Q1 as (E1 & G1 & [V1 H1] & N1).
  wp_step. eapply wp_mono; [apply (wp_close_all be good namespaces rt_desc names_distinct); [|by rewrite E1, U2, U3]|].
  { split; [done|]. rewrite E1. eapply slots_inv_hns; [|exact Hi]. intros. by rewrite H1. }
  intros u s2 ([G2 S2] & (_ & V2 & _) & _ & Z2). wp_step. apply wp_mods. wp_step. unfold bump_generation. apply wp_mods.
  apply (wp_unlock good); [done|]. intros s3 Q3. pose proof Q3 as (E3 & G3 & [V3 H3] & N3). cbn [m_sm m_world] in *.
  split_and!; [|by rewrite E3|intros; by rewrite <- V3, V2, V1]. apply down_inv; [done| |by rewrite E3|by rewrite E3|].
  - rewrite E3. split; cbn [c_rt]; [apply length_replicate| |].
    + intros [i|i]; unfold slot_ok; cbn [slot_get c_ns c_rt update]; [by destruct i|]. by rewrite nth_replicate_same.
    + intros i j d d'. cbn [slot_get c_rt update]. by rewrite nth_replicate_same.
  - intros i. rewrite E3. cbn [slot_get c_rt update]. by rewrite nth_replicate_same.
Qed.
(** * Factory reset *)

Lemma wp_migrate_fresh r ns s : good (m_world s) -> handle_ok s r ns -> view (m_world s) ns VER = None ->
  wp (migrate_ns be ev namespaces rt_desc r) (fun _ => wrote ns VER s) s.
Proof.
  intros G Hh Hv. unfold migrate_ns, nss_nd. do 2 wp_step. apply wp_gets. apply wp_ret. wp_step.
  eapply (wp_read_version be good); [done|exact Hh|]. intros s1 Q1. rewrite Hv. cbn [version_of].
  pose proof (quiet_wrote good ns VER _ _ Q1) as W1. wp_step. eapply (wp_write_version be good); [apply Q1| |].
  { eapply (handle_ok_data good); [by eapply quiet_data|exact Hh]. }
  intros e s2 W2 _. apply wp_ret. exact (wrote_trans good _ _ _ _ _ W1 W2).
Qed.

(** Stamps have been written for the slots [D]; nothing else is stored. *)
Definition stamped (D : list slot_ref) (s s' : st) : Prop :=
  data_only s s' /\ (forall ns k, k <> VER -> view (m_world s') ns k = None) /\
  (forall r d, r ∉ D -> st_desc (slot_get (m_sm s) r) = Some d -> view (m_world s') (ref_name d) VER = None).

Lemma wp_stamp_one D r s s1 : sound s -> all_open s -> stamped D s s1 -> r ∉ D -> st_desc (slot_get (m_sm s) r) <> None ->
  wp (migrate_ns be ev namespaces rt_desc r) (fun _ => stamped (D ++ [r]) s) s1.
Proof.
  intros [G Hi] Ho (D1 & N1 & V1) Hr Hd. destruct (st_desc (slot_get (m_sm s) r)) as [d|] eqn:E; [|done].
  pose proof D1 as (E1 & G1 & H1). eapply wp_mono; [apply (wp_migrate_fresh r (ref_name d)); [done| |by apply (V1 r d)]|].
  { eapply (handle_ok_data good); [exact D1|by apply Ho]. }
  intros u s2 W2. pose proof W2 as (E2 & G2 & [O2 _] & _). split_and!.
  - eapply data_only_trans; [exact D1|exact (wrote_data good _ _ _ _ W2)].
  - intros ns k Hk. rewrite O2 by congruence. auto.
  - intros r' d' Hr' Hd'. apply not_elem_of_app in Hr' as [Hr' Hne]. rewrite O2; [by apply (V1 r')|].
    intros [= Hn]. apply Hne. apply list_elem_of_singleton. symmetry. by eapply (slot_names _ _ names_distinct _ _ r r' d d').
Qed.

Lemma stamped_skip D r s s1 : stamped D s s1 -> stamped (D ++ [r]) s s1.
Proof. intros (D1 & N1 & V1). split_and!; [done|done|]. intros r' d' [Hr' _]%not_elem_of_app. by apply V1. Qed.

Lemma wp_stamp_all n s : sound s -> all_open s -> (forall i, (i < n)%nat -> st_desc (slot_get (m_sm s) (SNs i)) <> None) ->
  (forall ns k, view (m_world s) ns k = None) ->
  wp (for_each (map SNs (seq 0 n)) (migrate_ns be ev namespaces rt_desc);; migrate_runtime_locked be ev namespaces rt_desc)
    (fun _ s' => data_only s s' /\ forall ns k, k <> VER -> view (m_world s') ns k = None) s.
Proof.
  intros Hs Ho Hd Hv. wp_step. eapply wp_mono; [apply (wp_for_each _ _ (fun pre => stamped pre s))|].
  - split_and!; [split_and!; [done|apply Hs|done]|by intros|by intros].
  - intros pre r post s1 E T1. assert (NoDup (pre ++ r :: post)) as Hnd.
    { rewrite <- E. apply NoDup_fmap_2; [congruence|apply NoDup_seq]. }
    assert (r ∈ map SNs (seq 0 n)) as Hr by (rewrite E; apply elem_of_app; right; by left).
    apply list_elem_of_fmap in Hr as (i & -> & Hi%elem_of_seq). apply wp_stamp_one; [done|done|done| |apply Hd; lia].
    apply NoDup_app in Hnd as (_ & Hnd & _). intros Hin. apply (Hnd _ Hin). by left.
  - intros u s1 T1. eapply wp_mono; [apply (wp_for_each _ _ (fun pre => stamped (map SNs (seq 0 n) ++ pre) s))|].
    + by rewrite app_nil_r.
    + intros pre r post s2 E T2. rewrite app_assoc. pose proof T2 as (D2 & _ & _). pose proof D2 as (E2 & G2 & H2).
      apply may_migrate_if_open; [done| | |by apply stamped_skip].
      * intros Hn. destruct (st_desc (slot_get (m_sm s2) r)) as [d|] eqn:Ed; [|done]. exists (ref_name d). by apply (all_open_data _ _ D2 Ho).
      * intros Hn. apply wp_stamp_one; [done|done|done| |by rewrite <- E2].
        assert (NoDup (pre ++ r :: post)) as Hnd. { rewrite <- E. apply NoDup_fmap_2; [congruence|apply NoDup_seq]. }
        assert (r ∈ rt_slots) as Hr by (rewrite E; apply elem_of_app; right; by left).
        apply list_elem_of_fmap in Hr as (i & -> & _). intros [Hin|Hin]%elem_of_app.
        -- apply list_elem_of_fmap in Hin as (j & [=] & _).
        -- apply NoDup_app in Hnd as (_ & Hnd & _). apply (Hnd _ Hin). by left.
    + intros u' s2 (D2 & N2 & _). done.
Qed.

(** A factory reset that succeeds leaves no value stored, and the store up. *)
Lemma wp_factory_reset s : store_inv s ->
  wp (espos_config_factory_reset be ev namespaces rt_desc) (fun e s' => store_inv s' /\
    if c_inited (m_sm s) then
      (e = ESP_OK <-> c_inited (m_sm s') = true) /\
      (e = ESP_OK -> forall ns k, k <> VER -> view (m_world s') ns k = None)
    else e = ESP_ERR_INVALID_STATE /\ s' = s) s.
Proof.
  intros I. pose proof I as (G & Hi & U). unfold espos_config_factory_reset. wp_step. apply wp_gets.
  destruct (c_inited (m_sm s)) eqn:Hin; cbn [negb]; [|by apply wp_ret]. destruct U as (U1 & U2 & U3 & U4 & U5).
  wp_step. apply (wp_lock good); [done|]. intros s1 Q1. pose proof Q1 as (E1 & G1 & [V1 H1] & N1).
  wp_step. eapply wp_mono; [apply (wp_close_all be good namespaces rt_desc names_distinct); [|by rewrite E1, U2, U3]|].
  { split; [done|]. rewrite E1. eapply slots_inv_hns; [|exact Hi]. intros. by rewrite H1. }
  intros u s2 ([G2 S2] & ([= F2l F2c F2i F2n] & _ & _) & D2 & Z2). rewrite E1 in *.
  wp_step. unfold wp at 1, call. pose proof (law_erase_storage (m_world s2) G2) as L3. destruct (be_erase_storage be (m_world s2)) as [e3 w3].
  destruct L3 as [G3 V3]. cbn [fst snd]. wp_step.
  set (s3 := Mach (m_sm s2) w3 _).
  (* the state after the wipe and the new init: sound, all handles closed *)
  assert (forall w tr, good w -> sound (Mach (m_sm s2) w tr)) as Hsnd.
  { intros w tr Gw. split; [done|]. cbn [m_sm m_world]. apply (slots_inv_world _ _ (m_world s2)); [done|]. intros r Hr. by destruct (Hr (Z2 r)). }
  assert (allocated (m_sm s2)) as A2. { split_and!; [congruence|congruence|]. intros i Hi'. rewrite (D2 (SNs i)). by rewrite E1; apply U4. }
  (* the rest, from a state in which the error so far is [e] *)
  assert (forall e w tr, good w -> (e = ESP_OK -> forall ns k, view w ns k = None) ->
    wp (err ← (if is_ok e then open_all_locked be namespaces rt_desc else mret e);
        (if is_ok err then n ← gets c_ns_count; for_each (map SNs (seq 0 n)) (migrate_ns be ev namespaces rt_desc);;
           migrate_runtime_locked be ev namespaces rt_desc
         else mods (fun s => s <| c_inited := false |> <| c_ns := [] |> <| c_ns_count := 0%nat |>));; cfg_unlock;; mret err)
      (fun e s' => store_inv s' /\ (e = ESP_OK <-> c_inited (m_sm s') = true) /\
         (e = ESP_OK -> forall ns k, k <> VER -> view (m_world s') ns k = None)) (Mach (m_sm s2) w tr)) as Hrest.
  { intros e w tr Gw Hv. pose proof (Hsnd w tr Gw) as Sw. wp_step.
    eapply (wp_mono _ (fun e' s' => sound s' /\ allocated (m_sm s') /\ c_lock (m_sm s') = true /\ c_inited (m_sm s') = true /\
      (e' = ESP_OK -> (forall r, is_open (m_sm s') r) /\ forall ns k, view (m_world s') ns k = None) /\
      (e' <> ESP_OK -> forall i, st_h (slot_get (m_sm s') (SRt i)) = 0))).
    { destruct (is_ok e) eqn:E.
      - eapply wp_mono; [by apply wp_open_all|]. intros e' s4 (S4 & ([= F4l F4c F4i F4n] & V4 & _) & A4 & O4 & R4).
        split_and!; [done|done|cbn in *; congruence|cbn in *; congruence| |].
        + intros E'. split; [by apply O4|]. intros ns k. rewrite V4. cbn. apply Hv. by apply is_ok_true in E.
        + intros E' i. cbn. rewrite R4 by done. apply (Z2 (SRt i)).
      - apply wp_ret. apply is_ok_false in E. split_and!; [done|done|cbn; congruence|cbn; congruence|done|]. intros _ i. apply (Z2 (SRt i)). }
    intros e' s4 (S4 & A4 & L4 & I4 & K4 & Z4). wp_step. destruct (is_ok e') eqn:E'.
    - apply is_ok_true in E'. destruct (K4 E') as [O4 V4]. wp_step. apply wp_gets. eapply wp_mono.
      { apply wp_stamp_all; [done|by apply sound_all_open| |done]. intros i Hi'. destruct A4 as (B1 & B2 & B3). rewrite B3 by congruence || lia. done. }
      intros u' s5 [D5 V5]. wp_step. apply (wp_unlock good); [apply D5|]. intros s6 Q6. apply wp_ret.
      pose proof Q6 as (E6 & _ & [V6 _] & _). pose proof D5 as (E5 & _). split_and!.
      + eapply inv_data_only; [by eapply quiet_data|]. eapply inv_data_only; [exact D5|]. by apply up_inv.
      + split; [|done]. intros _. by rewrite E6, E5.
      + intros _ ns k Hk. rewrite <- V6. auto.
    - apply is_ok_false in E'. apply wp_mods. wp_step. apply (wp_unlock good); [apply S4|]. intros s6 Q6. apply wp_ret.
      pose proof Q6 as (E6 & _). split_and!; [|rewrite E6; cbn; split; congruence|done].
      eapply inv_data_only; [by eapply quiet_data|]. apply down_inv; cbn [m_sm m_world]; try done; [apply S4| |].
      + pose proof (slots_inv_free _ _ (proj2 S4)) as [I1 I2 I3]. by split.
      + intros i. by apply Z4. }
  destruct (is_ok e3) eqn:E3.
  - apply is_ok_true in E3. wp_step. unfold wp at 1, call. cbn [m_world s3]. pose proof (law_init w3 G3) as L4.
    destruct (be_init be w3) as [[e4 rst] w4]. destruct L4 as [G4 V4]. cbn [fst snd]. apply wp_ret. apply (Hrest e4); [done|].
    intros E4 ns k. rewrite V4 by done. destruct rst; [done|]. by apply V3.
  - apply wp_ret. apply is_ok_false in E3. by apply (Hrest e3).
Qed.
(** * Registering namespaces *)

(** A descriptor the registration accepts. *)
Definition acceptable (d : espos_cfg_ns_t) : Prop :=
  ns_title d <> None /\ ns_version d <> 0 /\ valid_ns_name (ns_name d) = true /\ desc_keys d <> [] /\
  check_keys 0 [] (desc_keys d) = None.

Lemma check_keys_known i b ks : check_keys i b ks = None -> Forall (fun k => known_type (k_type k) = true) ks.
Proof.
  revert i b. induction ks as [|k ks IH]; intros i b; cbn; [constructor|]. destruct (check_key i b k) eqn:E; [done|]. intros Hk.
  constructor; [|by eapply IH]. unfold check_key in E. destruct (known_type (k_type k)); [done|]. by repeat case_match.
Qed.

(** The checks only report: they touch neither state nor storage. *)
Lemma wp_validate_runtime p Q s : good (m_world s) ->
  (forall s', quiet s s' -> match p with Some d => acceptable (deref d) | None => False end -> Q ESP_OK s') ->
  (forall s', quiet s s' -> (forall d, p = Some d -> ~ acceptable (deref d)) -> Q ESP_ERR_INVALID_ARG s') ->
  wp (validate_runtime_desc namespaces rt_desc p) Q s.
Proof.
  intros G HQ1 HQ2. unfold validate_runtime_desc. destruct p as [d|]; [|apply wp_ret, HQ2; [by apply cfg_quiet_refl|done]].
  assert (forall a, ~ acceptable (deref d) -> wp (flow_config_alarm a;; mret ESP_ERR_INVALID_ARG) Q s) as Ha.
  { intros a Hn. unfold flow_config_alarm. wp_step. apply wp_emit, wp_ret, HQ2; [by split_and!|by intros ? [= <-]]. }
  unfold acceptable in *. destruct (bool_decide (ns_name (deref d) = None) || _ || _) eqn:E1.
  { apply wp_ret, HQ2; [by apply cfg_quiet_refl|]. intros ? [= <-] (A1 & A2 & A3 & A4 & A5).
    apply orb_true_iff in E1 as [E1|E1%Z.eqb_eq]; [|done]. apply orb_true_iff in E1 as [E1%bool_decide_eq_true|E1%bool_decide_eq_true]; [|done].
    by rewrite E1 in A3. }
  apply orb_false_iff in E1 as [[E1 E2]%orb_false_iff E3%Z.eqb_neq]. apply bool_decide_eq_false in E1, E2.
  destruct (valid_ns_name _) eqn:E4; cbn [negb]; [|apply Ha; by intros (_ & _ & ? & _)].
  destruct (Nat.eqb_spec (length (desc_keys (deref d))) 0) as [E5|E5].
  { apply Ha. intros (_ & _ & _ & Hk & _). by destruct (desc_keys (deref d)). }
  destruct (check_keys 0 [] _) eqn:E6; [apply Ha; by intros (_ & _ & _ & _ & ?)|].
  apply wp_ret, HQ1; [by apply cfg_quiet_refl|]. split_and!; try done. intros Hk. by rewrite Hk in E5.
Qed.

Lemma find_free_some k l i : find_free k l = Some i -> exists j h, i = (k + j)%nat /\ l !! j = Some (NsState None h).
Proof.
  revert k. induction l as [|[[d|] h] l IH]; intros k; cbn; [done| |].
  - intros (j & h' & -> & Hj)%IH. exists (S j), h'. split; [lia|done].
  - intros [= <-]. exists 0%nat, h. split; [lia|done].
Qed.

Lemma find_rt_none l n i x d : find_rt namespaces rt_desc l n = None -> l !! i = Some x -> st_desc x = Some d -> ref_name d <> n.
Proof.
  revert i. induction l as [|[[e|] h] l IH]; intros i; cbn; [done| |].
  - destruct (streq _ n) eqn:E; [done|]. intros Hf. destruct i as [|i]; cbn; [|by apply IH].
    intros [= <-] [= <-]. unfold streq in E. by apply bool_decide_eq_false in E.
  - intros Hf. destruct i as [|i]; cbn; [by intros [= <-]|by apply IH].
Qed.

Lemma find_rt_insert l i p h : (i < length l)%nat ->
  (forall j x d, j <> i -> l !! j = Some x -> st_desc x = Some d -> ref_name d <> ref_name p) ->
  find_rt namespaces rt_desc (<[i := NsState (Some p) h]> l) (ref_name p) = Some p.
Proof.
  revert i. induction l as [|x l IH]; intros i Hi Hu; [cbn in Hi; lia|]. destruct i as [|i]; cbn.
  - unfold streq. by rewrite bool_decide_true.
  - assert (find_rt namespaces rt_desc (<[i := NsState (Some p) h]> l) (ref_name p) = Some p) as Hl.
    { apply IH; [cbn in Hi; lia|]. intros j y d Hj. apply (Hu (S j)). lia. }
    destruct x as [[d|] h']; [|done]. unfold streq. rewrite bool_decide_false; [done|]. by apply (Hu 0%nat (NsState (Some d) h')).
Qed.

(** The state with a namespace put in a free slot. *)
Lemma slots_inv_register w c p i h : slots_inv w c -> acceptable (deref p) -> find_static namespaces (ref_name p) = None ->
  (forall j, p <> Static j) -> (h = 0 \/ hns w h = Some (ref_name p)) -> (i < length (c_rt c))%nat ->
  (forall j d, j <> i -> st_desc (slot_get c (SRt j)) = Some d -> ref_name d <> ref_name p) ->
  slots_inv w (slot_set (SRt i) (NsState (Some p) h) c).
Proof.
  intros Hi Ha Hf Hs Hh Hlt Hu. apply slots_inv_set; [done| |].
  - unfold slot_ok. cbn. split; [|done]. split_and!; [|done|].
    + destruct p as [j|a]; [by destruct (Hs j)|eauto].
    + eapply check_keys_known, Ha.
  - intros i' j d d' [= <-] Hj [= <-] Hd' He. by destruct (Hu j d' Hj Hd').
Qed.

Lemma acceptable_runtime p : acceptable (deref p) -> find_static namespaces (ref_name p) = None -> forall j, p <> Static j.
Proof.
  intros Ha Hf j ->. destruct (Nat.lt_ge_cases j count) as [L|L].
  - apply find_static_from_none in Hf. destruct Hf. by apply static_name_in.
  - unfold acceptable in Ha. cbn in Ha. rewrite nth_overflow in Ha by done. by destruct Ha.
Qed.

Lemma find_free_spec w c i : slots_inv w c -> find_free 0 (c_rt c) = Some i ->
  (i < length (c_rt c))%nat /\ slot_get c (SRt i) = NsState None 0.
Proof.
  intros Hi Hf. apply find_free_some in Hf as (j & h & -> & Hj). cbn [Nat.add]. split; [by eapply lookup_lt_Some|].
  pose proof (si_ok _ _ _ _ Hi (SRt j)) as O. rewrite (slot_get_rt _ _ _ Hj) in *. unfold slot_ok in O. cbn in O. by rewrite O.
Qed.

Lemma slot_set_set c r v v' : slot_set r v' (slot_set r v c) = slot_set r v' c.
Proof. destruct r, c; cbn; f_equal; apply list_insert_insert_eq. Qed.

Lemma slot_set_back c r v x : in_range c r -> slot_get c r = x -> slot_set r x (slot_set r v c) = c.
Proof.
  intros R <-. rewrite slot_set_set. destruct r as [i|i], c; cbn in *; f_equal; apply list_insert_id; rewrite nth_lookup;
    (destruct (_ !! i) eqn:E; [done|apply lookup_ge_None in E; lia]).
Qed.

(** Registration: what the invariant needs of every way out. *)
Lemma wp_register p s : store_inv s ->
  wp (espos_config_register_ns be ev namespaces rt_desc p) (fun e s' => store_inv s' /\ c_inited (m_sm s') = c_inited (m_sm s) /\
    (e = ESP_OK -> exists d, p = Some d /\ acceptable (deref d) /\ find_static namespaces (ref_name d) = None /\
       find_ns_pure namespaces rt_desc (m_sm s') (Some (ref_name d)) = Some d)) s.
Proof.
  intros I. unfold espos_config_register_ns. wp_step. apply wp_validate_runtime; [apply I| |].
  2:{ intros s1 Q1 Hn. pose proof (inv_data_only _ _ _ _ _ (quiet_data _ _ _ Q1) I) as I1. pose proof Q1 as (E1 & _).
      destruct p; apply wp_ret; by rewrite E1. }
  destruct p as [p|]; [|done]. intros s1 Q1 Ha. pose proof (inv_data_only _ _ _ _ _ (quiet_data _ _ _ Q1) I) as I1. pose proof Q1 as (E1 & _).
  rewrite (proj2 (is_ok_true _) eq_refl). cbn [negb]. wp_step. apply wp_ensure_lock; [done| |].
  2:{ intros s2 I2 E2. cbn. apply wp_ret. split_and!; [done|congruence|done]. }
  intros s2 I2 L2 E2 R2. rewrite (proj2 (is_ok_true _) eq_refl). cbn [negb]. rewrite E1 in E2. case_bool_decide as Hf.
  { unfold flow_config_alarm. wp_step. apply wp_emit, wp_ret. split_and!; [exact I2|done|done]. }
  rename Hf into Hst.
  pose proof (acceptable_runtime p Ha Hst) as Hs.
  wp_step. apply (wp_lock good); [apply I2|]. intros s3 Q3. pose proof (inv_data_only _ _ _ _ _ (quiet_data _ _ _ Q3) I2) as I3. pose proof Q3 as (E3 & _).
  wp_step. unfold find_runtime_ns. apply wp_gets. destruct (find_rt namespaces rt_desc (c_rt (m_sm s3)) (ref_name p)) eqn:Hrt.
  { wp_step. apply (wp_unlock good); [apply I3|]. intros s4 Q4. unfold flow_config_alarm. wp_step. apply wp_emit, wp_ret.
    pose proof Q4 as (E4 & _). split_and!; [exact (inv_data_only _ _ _ _ _ (quiet_data _ _ _ Q4) I3)|cbn; congruence|done]. }
  wp_step. apply wp_gets. destruct (find_free 0 (c_rt (m_sm s3))) as [i|] eqn:Hfree.
  2:{ wp_step. apply (wp_unlock good); [apply I3|]. intros s4 Q4. unfold flow_config_alarm. wp_step. apply wp_emit, wp_ret.
    pose proof Q4 as (E4 & _). split_and!; [exact (inv_data_only _ _ _ _ _ (quiet_data _ _ _ Q4) I3)|cbn; congruence|done]. }
  pose proof I3 as (G3 & S3 & U3). destruct (find_free_spec _ _ _ S3 Hfree) as [Hlt Hsl].
  assert (forall j d, j <> i -> st_desc (slot_get (m_sm s3) (SRt j)) = Some d -> ref_name d <> ref_name p) as Hu.
  { intros j d Hj Hd. apply slot_rt_lookup in Hd as (x & X1 & X2). by eapply find_rt_none. }
  wp_step. unfold assign. apply wp_mods. set (c4 := slot_set (SRt i) (NsState (Some p) 0) (m_sm s3)).
  assert (in_range (m_sm s3) (SRt i)) as R by exact Hlt.
  assert (slots_inv (m_world s3) c4) as S4 by (apply slots_inv_register; auto).
  wp_step. apply wp_gets. cbn [m_sm]. change (c_inited c4) with (c_inited (m_sm s3)).
  assert (forall c, c_rt c = c_rt (slot_set (SRt i) (NsState (Some p) (st_h (slot_get c (SRt i)))) (m_sm s3)) ->
    find_ns_pure namespaces rt_desc c (Some (ref_name p)) = Some p) as Hfound.
  { intros c Hc. unfold find_ns_pure. rewrite Hst, Hc. cbn [slot_set update c_rt].
    apply find_rt_insert; [done|]. intros j x d Hj Hx Hd. apply (Hu j d Hj). by rewrite (slot_get_rt _ _ x). }
  destruct (c_inited (m_sm s3)) eqn:Hin.
  - wp_step. apply (wp_open be good namespaces rt_desc); [by split|]. intros e h s5 E5 S5 V5 N5 H5. cbn [m_sm] in E5.
    destruct U3 as (U1 & U2 & U3' & U4 & U5).
    assert (forall h c, h <> 0 -> c = slot_set (SRt i) (NsState (Some p) h) (m_sm s3) -> is_up namespaces c) as Hup.
    { intros h' c Hh' ->. split_and!; try done. intros r Hr. destruct (decide (SRt i = r)) as [<-|Hne]; [by rewrite slot_get_set|].
      rewrite slot_get_set_ne in * by done. by apply U5. }
    assert (slot_set (SRt i) (NsState None 0) (m_sm s5) = m_sm s3) as Eq.
    { rewrite E5. apply (slot_set_back _ _ _ _ R Hsl). }
    assert (slots_inv (m_world s5) (m_sm s3)) as S35 by (rewrite <- Eq; apply slots_inv_set; [apply S5|done|done]).
    destruct (is_ok e) eqn:E; cbn [negb].
    + apply is_ok_true in E. destruct (H5 E) as [Hz Hn]. wp_step. unfold set_h. apply wp_mods. rewrite E5. set (s6 := Mach _ _ _).
      assert (m_sm s6 = slot_set (SRt i) (NsState (Some p) h) (m_sm s3)) as E6.
      { unfold s6, c4. cbn [m_sm]. rewrite slot_get_set by done. apply slot_set_set. }
      assert (store_inv s6) as I6.
      { split_and!; [apply S5|rewrite E6; apply slots_inv_register; auto|].
        rewrite E6. cbn [slot_set update c_inited]. rewrite Hin. exact (Hup h _ Hz eq_refl). }
      wp_step. eapply wp_mono; [apply (wp_migrate_ns be ev good namespaces rt_desc (SRt i) (ref_name p)); [apply I6|]|].
      { unfold ConfigLife.handle_ok. rewrite E6, slot_get_set by done. done. }
      intros u s7 T7. pose proof (inv_data_only _ _ _ _ _ (touched_data _ _ _ _ T7) I6) as I7. pose proof T7 as (E7 & _).
      wp_step. unfold bump_generation. apply wp_mods. wp_step. apply (wp_unlock good); [apply I7|]. intros s8 Q8. apply wp_ret. pose proof Q8 as (E8 & _).
      split_and!.
      * eapply inv_data_only; [by eapply quiet_data|]. destruct I7 as (J1 & [J2 J3 J4] & J5). split_and!; [done|by split|]. exact J5.
      * rewrite E8. cbn. rewrite E7, E6. cbn. congruence.
      * intros _. exists p. split_and!; try done. apply Hfound. rewrite E8. cbn [m_sm update c_rt slot_get]. rewrite E7, E6.
        change (nth i (c_rt (slot_set (SRt i) (NsState (Some p) h) (m_sm s3))) null_state) with (slot_get (slot_set (SRt i) (NsState (Some p) h) (m_sm s3)) (SRt i)).
        by rewrite slot_get_set.
    + wp_step. apply wp_mods. wp_step. apply (wp_unlock good); [apply S5|]. intros s6 Q6. unfold flow_config_alarm. wp_step. apply wp_emit, wp_ret.
      pose proof Q6 as (E6 & _). apply is_ok_false in E. cbn [m_sm] in E6.
      split_and!; [|cbn; rewrite E6, Eq; congruence|done].
      assert (store_inv (Mach (m_sm s3) (m_world s5) (m_trace s5))) as I5.
      { split_and!; [apply S5|exact S35|cbn [m_sm]; rewrite Hin; by split_and!]. }
      rewrite <- Eq in I5. eapply (inv_data_only _ _ _ _ _ (quiet_data _ _ _ Q6)) in I5. exact I5.
  - wp_step. unfold bump_generation. apply wp_mods. wp_step. apply (wp_unlock good); [done|]. intros s5 Q5. apply wp_ret. pose proof Q5 as (E5 & _).
    cbn [m_sm] in E5. split_and!.
    + eapply inv_data_only; [by eapply quiet_data|]. apply down_inv; cbn [m_sm m_world]; try done.
      * destruct S4 as [J1 J2 J3]. by split.
      * apply U3.
      * intros j. change (slot_get _ (SRt j)) with (slot_get c4 (SRt j)). destruct (decide (SRt i = SRt j)) as [<-|Hne].
        -- unfold c4. by rewrite slot_get_set.
        -- unfold c4. rewrite slot_get_set_ne by done. apply U3.
    + rewrite E5. cbn. congruence.
    + intros _. exists p. split_and!; try done. apply Hfound. rewrite E5. cbn [m_sm update c_rt slot_get].
      change (nth i (c_rt c4) null_state) with (slot_get c4 (SRt i)). unfold c4. by rewrite slot_get_set.
Qed.
Lemma find_rt_index_some k l n i : find_rt_index namespaces rt_desc k l n = Some i ->
  exists j x d, i = (k + j)%nat /\ l !! j = Some x /\ st_desc x = Some d /\ ref_name d = n.
Proof.
  revert k. induction l as [|[[e|] h] l IH]; intros k; cbn; [done| |].
  - destruct (streq _ n) eqn:E.
    + intros [= <-]. unfold streq in E. apply bool_decide_eq_true in E. exists 0%nat, (NsState (Some e) h), e. split_and!; [lia|done..].
    + intros (j & x & d & -> & Hj)%IH. exists (S j), x, d. split; [lia|done].
  - intros (j & x & d & -> & Hj)%IH. exists (S j), x, d. split; [lia|done].
Qed.

(** Emptying a runtime slot. *)
Lemma inv_drop s s' i : store_inv s -> sound s' -> hframe s s' -> (forall r, r <> SRt i -> slot_get (m_sm s') r = slot_get (m_sm s) r) ->
  slot_get (m_sm s') (SRt i) = NsState None 0 -> c_ns (m_sm s') = c_ns (m_sm s) -> store_inv s'.
Proof.
  intros (G & Hi & U) [G' Hi'] ([= F1 F2 F3 F4] & _ & _) Hk Hz Hn. split_and!; [done|done|]. rewrite F3.
  destruct (c_inited (m_sm s)).
  - destruct U as (U1 & U2 & U3 & U4 & U5). split_and!; try congruence.
    + intros j Hj. rewrite Hk by done. auto.
    + intros r Hr. destruct (decide (r = SRt i)) as [->|Hne]; [by rewrite Hz in Hr|]. rewrite Hk in * by done. auto.
  - destruct U as [U1 U2]. split; [congruence|]. intros r. destruct (decide (r = SRt i)) as [->|Hne]; [by rewrite Hz|]. rewrite Hk by done. auto.
Qed.

Lemma wp_unregister n s : store_inv s ->
  wp (espos_config_unregister_ns be namespaces rt_desc n) (fun _ s' => store_inv s' /\ c_inited (m_sm s') = c_inited (m_sm s) /\
    forall ns k, view (m_world s') ns k = view (m_world s) ns k) s.
Proof.
  intros I. unfold espos_config_unregister_ns. destruct n as [n|]; [|by apply wp_ret]. case_bool_decide; [by apply wp_ret|].
  wp_step. apply wp_gets. destruct (c_lock (m_sm s)) eqn:L; cbn [negb]; [|by apply wp_ret].
  wp_step. apply (wp_lock good); [apply I|]. intros s1 Q1. pose proof (inv_data_only _ _ _ _ _ (quiet_data _ _ _ Q1) I) as I1. pose proof Q1 as (E1 & _ & [V1 _] & _).
  wp_step. apply wp_gets. wp_step.
  eapply (wp_mono _ (fun _ s' => store_inv s' /\ c_inited (m_sm s') = c_inited (m_sm s) /\ forall ns k, view (m_world s') ns k = view (m_world s) ns k)).
  2:{ intros e s2 (I2 & H2 & V2). wp_step. apply (wp_unlock good); [apply I2|]. intros s3 Q3. apply wp_ret. pose proof Q3 as (E3 & _ & [V3 _] & _).
      split_and!; [exact (inv_data_only _ _ _ _ _ (quiet_data _ _ _ Q3) I2)|congruence|intros; by rewrite <- V3]. }
  destruct (find_rt_index _ _ 0 (c_rt (m_sm s1)) n) as [i|] eqn:F; [|apply wp_ret; split_and!; [done|congruence|intros; by rewrite V1]].
  apply find_rt_index_some in F as (j & x & d & -> & F1 & F2 & F3). cbn [Nat.add].
  pose proof I1 as (G1 & S1 & _). assert (in_range (m_sm s1) (SRt j)) as R by (cbn; by eapply lookup_lt_Some).
  wp_step. apply wp_gets. wp_step.
  (* after the close, if any, the slot is emptied *)
  assert (forall w tr, good w -> (forall n k, view w n k = view (m_world s1) n k) -> notes tr = notes (m_trace s1) ->
    (forall r, r <> SRt j -> st_h (slot_get (m_sm s1) r) <> 0 -> hns w (st_h (slot_get (m_sm s1) r)) = hns (m_world s1) (st_h (slot_get (m_sm s1) r))) ->
    wp (assign (SRt j) (NsState None 0);; bump_generation;; mret ESP_OK) (fun _ s' => store_inv s' /\ c_inited (m_sm s') = c_inited (m_sm s) /\
      forall ns k, view (m_world s') ns k = view (m_world s) ns k) (Mach (m_sm s1) w tr)) as Hdrop.
  { intros w tr Gw Vw Nw Hw. wp_step. unfold assign. apply wp_mods. wp_step. unfold bump_generation. apply wp_mods. apply wp_ret.
    split_and!; [|cbn; congruence|intros; cbn; by rewrite Vw, V1]. eapply (inv_drop s1 _ j); [done| | | | |done].
    - split; [done|]. cbn [m_sm m_world].
      assert (slots_inv w (slot_set (SRt j) (NsState None 0) (m_sm s1))) as [J1 J2 J3]; [|by split].
      apply (slots_inv_world _ _ (m_world s1)); [by apply slots_inv_set|]. intros r. destruct (decide (SRt j = r)) as [<-|Hne]; [by rewrite slot_get_set|].
      rewrite slot_get_set_ne by done. apply Hw. congruence.
    - split_and!; [done|done|done].
    - intros r Hr. exact (slot_get_set_ne (m_sm s1) (SRt j) r _ (not_eq_sym Hr)).
    - exact (slot_get_set (m_sm s1) (SRt j) _ R). }
  destruct (Z.eqb_spec (st_h (slot_get (m_sm s1) (SRt j))) 0) as [Hz|Hz]; [apply wp_ret; destruct s1; by apply Hdrop|].
  unfold close_, wp at 1, call. pose proof (si_ok _ _ _ _ S1 (SRt j)) as O. rewrite (slot_get_rt _ _ _ F1) in *. unfold slot_ok in O. rewrite F2 in O.
  destruct O as [_ [O|O]]; [done|]. pose proof (law_close _ _ _ G1 O) as L2. destruct (be_close be _ _) as [u w']. destruct L2 as (L2 & L3 & L4).
  apply Hdrop; try done. intros r Hr Hz'. apply L4. intros He. apply Hr.
  eapply (slot_handles _ _ names_distinct _ _ r (SRt j) S1 Hz'). by rewrite (slot_get_rt _ _ _ F1).
Qed.

(** * The other calls *)

Lemma wp_subscribe cb arg s : store_inv s -> wp (espos_config_subscribe cb arg) (fun _ s' => store_inv s') s.
Proof.
  intros I. unfold espos_config_subscribe. wp_step. apply wp_gets. destruct ((cb =? 0) || _); [by apply wp_ret|].
  wp_step. apply (wp_lock good); [apply I|]. intros s1 Q1. pose proof (inv_data_only _ _ _ _ _ (quiet_data _ _ _ Q1) I) as I1.
  wp_step. apply wp_gets. wp_step. eapply (wp_mono _ (fun _ s' => store_inv s')).
  - destruct (replace_first _ _ _); [|by apply wp_ret]. wp_step. apply wp_mods. apply wp_ret. destruct I1 as (J1 & [J2 J3 J4] & J5). split_and!; [done|by split|done].
  - intros e s2 I2. wp_step. apply (wp_unlock good); [apply I2|]. intros s3 Q3. apply wp_ret. exact (inv_data_only _ _ _ _ _ (quiet_data _ _ _ Q3) I2).
Qed.

Lemma wp_unsubscribe cb arg s : store_inv s -> wp (espos_config_unsubscribe cb arg) (fun _ s' => store_inv s') s.
Proof.
  intros I. unfold espos_config_unsubscribe. wp_step. apply wp_gets. destruct (negb _); [by apply wp_ret|].
  wp_step. apply (wp_lock good); [apply I|]. intros s1 Q1. pose proof (inv_data_only _ _ _ _ _ (quiet_data _ _ _ Q1) I) as I1.
  wp_step. apply wp_gets. wp_step. eapply (wp_mono _ (fun _ s' => store_inv s')).
  - destruct (replace_first _ _ _); [|by apply wp_ret]. wp_step. apply wp_mods. apply wp_ret. destruct I1 as (J1 & [J2 J3 J4] & J5). split_and!; [done|by split|done].
  - intros e s2 I2. wp_step. apply (wp_unlock good); [apply I2|]. intros s3 Q3. apply wp_ret. exact (inv_data_only _ _ _ _ _ (quiet_data _ _ _ Q3) I2).
Qed.

Lemma wp_register_migration ns v fn arg s : store_inv s ->
  wp (espos_config_register_migration namespaces rt_desc ns v fn arg) (fun _ s' => store_inv s') s.
Proof.
  intros I. unfold espos_config_register_migration. wp_step. apply (wp_find_ns good); [apply I|]. intros s1 Q1.
  pose proof (inv_data_only _ _ _ _ _ (quiet_data _ _ _ Q1) I) as I1. destruct (find_ns_pure _ _ _ ns); [|by apply wp_ret].
  destruct (_ || _ || _); [by apply wp_ret|]. wp_step. apply wp_gets. destruct (c_inited _) eqn:Hin; [by apply wp_ret|]. wp_step. apply wp_gets.
  destruct (existsb _ _); [by apply wp_ret|]. destruct (_ <=? _)%nat; [by apply wp_ret|]. wp_step. apply wp_mods. apply wp_ret.
  destruct I1 as (J1 & [J2 J3 J4] & J5). split_and!; [done|by split|done].
Qed.
End Ops.
