(* ===== verification/ConfigPlan.v ===== *)
(** Operations of the configuration store on several keys: the reset of a
    namespace and the batch plan of the JSON import. *)
From Stdlib Require Import ZArith Lia.
From stdpp Require Import base numbers list sorting.
From S2P Require Import Prelude ConfigDesc ConfigStore ConfigLaws ConfigSpec ConfigInv.
Open Scope Z_scope.

Section Plan.
Context `{Storage W} (be : espos_config_backend_t W) (ev : env W) (good : W -> Prop).
Context `{!BackendLaws be good} `{!EnvLaws ev good}.
Context (namespaces : list espos_cfg_ns_t) (rt_desc : Z -> espos_cfg_ns_t).
Context (names_distinct : NoDup (map desc_name namespaces)).
Context (static_known : Forall known_keys namespaces).

#[local] Abbreviation M := (act cfg W obs).
#[local] Abbreviation st := (mach cfg W obs).
#[local] Abbreviation deref := (deref namespaces rt_desc).
#[local] Abbreviation ref_name := (ref_name namespaces rt_desc).
#[local] Abbreviation quiet := (quiet good).
#[local] Abbreviation wrote := (wrote good).
#[local] Abbreviation said := (said good).
#[local] Abbreviation data_only := (data_only good).
#[local] Abbreviation open_slot := (open_slot namespaces).
#[local] Abbreviation store_inv := (store_inv good namespaces rt_desc).
#[local] Abbreviation callbacks := (callbacks namespaces rt_desc).

(** * The batch plan *)

(** The entry a plan entry is about, and what it leaves there. *)
Definition target (p : espos_config_plan_entry_t) : cstr * cstr := (ref_name (pe_ns p), key_name (pe_key p)).
Definition planned (p : espos_config_plan_entry_t) : option entry := if pe_reset p then None else image (pe_val p).

(** The plan is validated: the caller's part of the contract. *)
Definition wf_entry_of_plan (p : espos_config_plan_entry_t) : Prop :=
  known_type (k_type (pe_key p)) = true /\ (pe_reset p = false -> valid (pe_key p) (pe_val p) = true /\ wf_value (pe_val p)).

(** Only entries under the targets have changed, without callbacks. *)
Definition planned_only (ts : list (cstr * cstr)) (s s' : st) : Prop :=
  data_only s s' /\ (forall ns k, (ns, k) ∉ ts -> view (m_world s') ns k = view (m_world s) ns k) /\
  notes (m_trace s') = notes (m_trace s).

Lemma planned_only_trans ts ts' s1 s2 s3 : planned_only ts s1 s2 -> planned_only ts' s2 s3 -> planned_only (ts ++ ts') s1 s3.
Proof.
  intros (A1 & A2 & A3) (B1 & B2 & B3). split_and!; [by eapply data_only_trans| |congruence].
  intros ns k [Ha Hb]%not_elem_of_app. by rewrite B2, A2.
Qed.

Lemma wrote_planned ns k s s' : wrote ns k s s' -> planned_only [(ns, k)] s s'.
Proof.
  intros Hw. pose proof Hw as (A1 & A2 & [A3 _] & A4). split_and!; [by eapply wrote_data| |done].
  intros ns' k' Hn. apply A3. intros E. apply Hn. rewrite E. by left.
Qed.

Lemma quiet_planned s s' : quiet s s' -> planned_only [] s s'.
Proof. intros Q. pose proof Q as (A1 & A2 & [A3 _] & A4). split_and!; [by eapply quiet_data| |done]. intros. by rewrite A3. Qed.

Lemma slot_for_some w c d r : slots_inv namespaces rt_desc w c -> is_up namespaces c -> slot_for namespaces c d = Some r ->
  st_desc (slot_get c r) = Some d.
Proof.
  intros Hi Hup. destruct d as [i|a]; cbn [slot_for].
  - destruct (Nat.ltb_spec i (espos_cfg_namespace_count namespaces)); [intros [= <-]; by apply Hup|].
    intros (j & x & -> & Hx & Hd)%find_slot_some. by rewrite (slot_get_rt _ _ x).
  - intros (j & x & -> & Hx & Hd)%find_slot_some. by rewrite (slot_get_rt _ _ x).
Qed.

Lemma wp_apply_entry p s : store_inv s -> c_inited (m_sm s) = true -> wf_entry_of_plan p ->
  wp (apply_entry be ev namespaces p) (fun '(e, c) s' => wrote (target p).1 (target p).2 s s' /\
    (e = ESP_OK -> view (m_world s') (target p).1 (target p).2 = planned p) /\ (c = true -> e = ESP_OK)) s.
Proof.
  intros I Hin [Hk Hv]. pose proof I as (G & Hi & U). rewrite Hin in U. unfold apply_entry. wp_step. apply wp_gets.
  assert (wrote (target p).1 (target p).2 s s) as Hrefl by (apply quiet_wrote; by apply cfg_quiet_refl).
  destruct (slot_for namespaces (m_sm s) (pe_ns p)) as [r|] eqn:Hs; [|by apply wp_ret].
  wp_step. apply wp_gets. destruct (_ =? 0); [by apply wp_ret|].
  pose proof (open_slot_of good _ _ names_distinct _ _ _ I Hin (slot_for_some _ _ _ _ Hi U Hs)) as O. unfold planned.
  destruct (pe_reset p).
  - eapply (wp_reset_locked be ev good); [done|exact O|done|]. intros e c s' W1 V1 ->. split_and!; [done|done|].
    destruct (is_ok e) eqn:E; [|done]. by apply is_ok_true in E.
  - destruct (Hv eq_refl) as [Hv1 Hv2]. eapply (wp_write_locked be ev good); [done|exact O|done|done|]. intros e c s' W1 V1 ->. split_and!; [done|done|].
    destruct (is_ok e) eqn:E; [|done]. by apply is_ok_true in E.
Qed.

Definition restarts (p : espos_config_plan_entry_t) : bool := has_flag (k_flags (pe_key p)) ESPOS_CFG_FLAG_RESTART_REQUIRED.

(** The loop: only the targets change; without an error every entry is in place
    that no later entry is about; the changed indices go up, from [i], and say
    whether a restart is needed. *)
Lemma wp_plan_loop plan i err idx rst s : store_inv s -> c_inited (m_sm s) = true -> Forall wf_entry_of_plan plan ->
  wp (plan_loop be ev namespaces i plan err idx rst) (fun '(err', idx', rst') s' =>
    planned_only (map target plan) s s' /\
    (err' = ESP_OK -> err = ESP_OK /\ forall pre p post, plan = pre ++ p :: post -> target p ∉ map target post ->
       view (m_world s') (target p).1 (target p).2 = planned p) /\
    exists new, idx' = idx ++ map (Nat.add i) new /\ Forall (fun n => n < length plan)%nat new /\ StronglySorted lt new /\
      rst' = rst || existsb (fun n => match plan !! n with Some p => restarts p | None => false end) new) s.
Proof.
  revert i err idx rst s. induction plan as [|p plan IH]; intros i err idx rst s I Hin Hw; cbn [plan_loop].
  { apply wp_ret. split_and!; [by apply quiet_planned, cfg_quiet_refl, I| |].
    - intros ->. split; [done|]. intros [|]; by intros.
    - exists []. rewrite app_nil_r, orb_false_r. split_and!; constructor. }
  apply Forall_cons in Hw as [Hp Hw]. wp_step. eapply wp_mono; [by apply wp_apply_entry|]. intros [e c] s1 (W1 & V1 & C1).
  pose proof (inv_data_only _ _ _ _ _ (wrote_data _ _ _ _ _ W1) I) as I1. pose proof W1 as (E1 & _).
  assert (c_inited (m_sm s1) = true) as Hin1 by congruence.
  (* what holds of the rest of the loop, whichever way it is entered *)
  assert (forall err1 idx1 rst1 new1, (err1 = ESP_OK -> err = ESP_OK /\ e = ESP_OK) -> idx1 = idx ++ map (Nat.add i) new1 ->
      (new1 = [] \/ new1 = [0%nat]) -> rst1 = rst || existsb (fun _ => restarts p) new1 ->
    wp (plan_loop be ev namespaces (S i) plan err1 idx1 rst1) (fun '(err', idx', rst') s' =>
    planned_only (map target (p :: plan)) s s' /\
    (err' = ESP_OK -> err = ESP_OK /\ forall pre p' post, p :: plan = pre ++ p' :: post -> target p' ∉ map target post ->
       view (m_world s') (target p').1 (target p').2 = planned p') /\
    exists new, idx' = idx ++ map (Nat.add i) new /\ Forall (fun n => n < length (p :: plan))%nat new /\ StronglySorted lt new /\
      rst' = rst || existsb (fun n => match (p :: plan) !! n with Some p => restarts p | None => false end) new) s1) as Hrest.
  { intros err1 idx1 rst1 new1 He -> Hn ->. eapply wp_mono; [by apply IH|]. intros [[err' idx'] rst'] s2 (P2 & V2 & new & -> & N1 & N2 & ->).
    destruct (target p) as [tn tk] eqn:T. cbn [fst snd] in *. split_and!.
    - apply (planned_only_trans [target p] (map target plan) s s1 s2); [rewrite T; by apply wrote_planned|done].
    - intros ->. destruct (V2 eq_refl) as [He1 V2']. destruct (He He1) as [-> ->]. split; [done|]. intros [|q pre] p' post [= <- Hpost] Ht.
      + subst post. destruct P2 as (_ & P2 & _). rewrite T. cbn [fst snd]. rewrite P2; [by apply V1|]. by rewrite <- T.
      + by eapply V2'.
    - exists (new1 ++ map S new). split_and!.
      + rewrite map_app, <- app_assoc, map_map. do 2 f_equal. apply map_ext. intros n. lia.
      + apply Forall_app. split; [destruct Hn as [->| ->]; [by apply Forall_nil|apply Forall_singleton; cbn; lia]|]. apply Forall_map. eapply Forall_impl; [exact N1|]. cbn. lia.
      + assert (StronglySorted lt (map S new)) as HS.
        { clear -N2. induction N2 as [|n l HS IHS Hf]; [constructor|]. constructor; [done|]. apply Forall_map. eapply Forall_impl; [exact Hf|]. cbn. lia. }
        destruct Hn as [->| ->]; [done|]. constructor; [done|]. apply Forall_map. apply Forall_true. cbn. lia.
      + rewrite existsb_app, <- orb_assoc. f_equal. f_equal.
        * by destruct Hn as [->| ->].
        * clear. induction new as [|n new IHn]; [done|]. cbn. by rewrite IHn. }
  destruct (is_ok e) eqn:E; cbn [negb].
  - apply is_ok_true in E as ->. destruct c.
    + apply (Hrest err _ _ [0%nat]); [done|cbn; by rewrite Nat.add_0_r|by right|]. cbn. by rewrite orb_false_r.
    + apply (Hrest err _ _ []); [done|by rewrite app_nil_r|by left|]. cbn. by rewrite orb_false_r.
  - apply is_ok_false in E. apply (Hrest _ _ _ []); [|by rewrite app_nil_r|by left|cbn; by rewrite orb_false_r].
    destruct (is_ok err) eqn:Er; [done|]. apply is_ok_false in Er. done.
Qed.
(** Callbacks one after the other. *)
Lemma wp_said_each {A} (l : list A) (f : A -> M unit) (g : A -> list obs) s :
  good (m_world s) -> (forall a s', m_sm s' = m_sm s -> good (m_world s') -> wp (f a) (fun _ => said (g a) s') s') ->
  wp (for_each l f) (fun _ => said (flat_map g l) s) s.
Proof.
  intros G Hf. apply (wp_for_each _ _ (fun pre => said (flat_map g pre) s)); [by apply quiet_said, cfg_quiet_refl|].
  intros pre a post s1 _ S1. eapply wp_mono; [apply Hf; apply S1|]. intros u s2 S2. rewrite flat_map_app. cbn [flat_map]. rewrite app_nil_r.
  exact (said_trans good _ _ _ _ _ S1 S2).
Qed.

Definition plan_callbacks (c : cfg) (plan : list espos_config_plan_entry_t) (i : nat) : list obs :=
  match plan !! i with Some p => callbacks c (pe_ns p) (pe_key p) | None => [] end.

Lemma wp_apply_plan plan s : store_inv s -> c_inited (m_sm s) = true -> Forall wf_entry_of_plan plan ->
  wp (espos_config_apply_plan be ev namespaces rt_desc plan) (fun '(err, idx, rst) s' =>
    data_only s s' /\ (forall ns k, (ns, k) ∉ map target plan -> view (m_world s') ns k = view (m_world s) ns k) /\
    (err = ESP_OK -> forall pre p post, plan = pre ++ p :: post -> target p ∉ map target post ->
       view (m_world s') (target p).1 (target p).2 = planned p) /\
    Forall (fun n => n < length plan)%nat idx /\ StronglySorted lt idx /\
    rst = existsb (fun n => match plan !! n with Some p => restarts p | None => false end) idx /\
    notes (m_trace s') = rev (flat_map (plan_callbacks (m_sm s) plan) idx) ++ notes (m_trace s)) s.
Proof.
  intros I Hin Hw. unfold espos_config_apply_plan. wp_step. apply wp_gets. rewrite Hin. cbn [negb].
  wp_step. apply (wp_lock good); [apply I|]. intros s1 Q1. pose proof (inv_data_only _ _ _ _ _ (quiet_data _ _ _ Q1) I) as I1. pose proof Q1 as (E1 & _).
  wp_step. eapply wp_mono; [apply wp_plan_loop; [done|congruence|done]|]. intros [[err idx] rst] s2 (P2 & V2 & new & -> & N1 & N2 & ->).
  cbn [app]. assert (map (Nat.add 0) new = new) as -> by apply map_id. cbn [orb].
  pose proof (planned_only_trans _ _ _ _ _ (quiet_planned _ _ Q1) P2) as P3. cbn [app] in P3. pose proof P2 as ((E2 & G2 & _) & _).
  wp_step. apply (wp_unlock good); [done|]. intros s3 Q3. pose proof Q3 as (E3 & G3 & [V3 H3] & N3).
  pose proof (planned_only_trans _ _ _ _ _ P3 (quiet_planned _ _ Q3)) as P4. rewrite app_nil_r in P4.
  wp_step. eapply wp_mono; [apply (wp_said_each _ _ (plan_callbacks (m_sm s3) plan)); [done|]|].
  { intros i s4 E4 G4. unfold plan_callbacks. destruct (plan !! i) as [p|]; [|by apply wp_ret, quiet_said, cfg_quiet_refl].
    apply (wp_notify good); [done|]. intros s5 S5. by rewrite <- E4. }
  intros u s4 S4. apply wp_ret. destruct P4 as (D4 & V4 & N4). pose proof S4 as (E5 & G5 & [V5 H5] & N5).
  assert (m_sm s3 = m_sm s) as E3s by congruence. rewrite E3s in N5. split_and!; try done.
  - eapply data_only_trans; [exact D4|by eapply said_data].
  - intros ns k Hn. rewrite <- V5. by apply V4.
  - intros ->. destruct (V2 eq_refl) as [_ V2']. intros pre p post Hp Ht. rewrite <- V5, <- V3. by eapply V2'.
  - by rewrite N5, N4.
Qed.

(** * The reset of a namespace *)

Lemma wp_reset_keys nss d ks err ch s h : store_inv s -> c_inited (m_sm s) = true -> open_slot s nss d h (ref_name d) ->
  Forall (fun k => known_type (k_type k) = true) ks ->
  wp (reset_keys be ev namespaces nss ks err ch) (fun '(err', ch') s' =>
    planned_only (map (fun k => (ref_name d, key_name k)) ks) s s' /\
    (err' = ESP_OK -> err = ESP_OK /\ forall n, (view (m_world s) (ref_name d) n = None \/ n ∈ map key_name ks) -> view (m_world s') (ref_name d) n = None) /\
    exists new, ch' = ch ++ new /\ new `sublist_of` ks) s.
Proof.
  revert err ch s. induction ks as [|k ks IH]; intros err ch s I Hin O Hk; cbn [reset_keys].
  { apply wp_ret. split_and!; [by apply quiet_planned, cfg_quiet_refl, I| |].
    - intros ->. split; [done|]. intros n [|Hn]; [done|by apply not_elem_of_nil in Hn].
    - exists []. by rewrite app_nil_r. }
  apply Forall_cons in Hk as [Hk Hks]. wp_step. eapply (wp_reset_locked be ev good); [apply I|exact O|done|]. intros e c s1 W1 V1 ->.
  pose proof (inv_data_only _ _ _ _ _ (wrote_data _ _ _ _ _ W1) I) as I1. pose proof W1 as (E1 & _ & [A1 _] & _).
  eapply wp_mono; [apply IH; [done|congruence|by eapply open_slot_wrote|done]|]. intros [err' ch'] s2 (P2 & V2 & new & -> & Hs). split_and!.
  - apply (planned_only_trans [(ref_name d, key_name k)] _ s s1 s2); [by apply wrote_planned|done].
  - intros ->. destruct (V2 eq_refl) as [He V2']. assert (err = ESP_OK /\ e = ESP_OK) as [-> ->].
    { destruct (is_ok err) eqn:Er; [by apply is_ok_true in Er|]. apply is_ok_false in Er. done. }
    split; [done|]. intros n Hn. apply V2'. cbn [map] in Hn. destruct (decide (n = key_name k)) as [->|Hne]; [left; by apply V1|].
    rewrite elem_of_cons in Hn. destruct Hn as [Hn|[|Hn]]; [left|done|by right]. by rewrite A1 by congruence.
  - destruct (is_ok e && _); [exists (k :: new)|exists new].
    + split; [by rewrite <- app_assoc|by constructor].
    + split; [done|by constructor].
Qed.

Lemma wp_reset_ns ns s : store_inv s -> c_inited (m_sm s) = true ->
  wp (espos_config_reset_ns be ev namespaces rt_desc ns) (fun e s' => data_only s s' /\
    match find_ns_pure namespaces rt_desc (m_sm s) ns with
    | None => e = ESP_ERR_NOT_FOUND
    | Some d =>
        (forall n k, n <> ref_name d \/ k ∉ map key_name (desc_keys (deref d)) -> view (m_world s') n k = view (m_world s) n k) /\
        (e = ESP_OK -> forall k, k ∈ map key_name (desc_keys (deref d)) -> view (m_world s') (ref_name d) k = None)
    end) s.
Proof.
  intros I Hin. pose proof I as (G & Hi & U). rewrite Hin in U. unfold espos_config_reset_ns. wp_step. apply wp_gets. rewrite Hin. cbn [negb].
  wp_step. apply (wp_find_ns good); [done|]. intros s1 Q1. pose proof (inv_data_only _ _ _ _ _ (quiet_data _ _ _ Q1) I) as I1. pose proof Q1 as (E1 & _ & [V1 H1] & _).
  destruct (find_ns_pure namespaces rt_desc (m_sm s) ns) as [d|] eqn:F; [|apply wp_ret; split; [by eapply quiet_data|done]].
  destruct (find_ns_slot _ _ (m_world s) _ _ _ Hi U F) as (r & Hd & _). wp_step. apply wp_gets. rewrite E1, (slot_for_desc _ _ names_distinct _ _ _ _ Hi Hd).
  pose proof (open_slot_of good _ _ names_distinct _ _ _ I Hin Hd) as O. pose proof (open_slot_quiet good _ _ _ _ _ _ _ Q1 O) as O1.
  wp_step. apply wp_gets. rewrite (os_h _ _ _ _ _ _ O1). destruct (Z.eqb_spec (st_h (slot_get (m_sm s) r)) 0) as [Hz|_]; [by destruct (os_nz _ _ _ _ _ _ O)|].
  wp_step. unfold wp at 1, query. set (n := if (length (desc_keys (deref d)) =? 0)%nat then 1%nat else length (desc_keys (deref d))).
  destruct (law_malloc (m_world s1) n (proj1 I1)) as [L2 L3]. destruct (e_malloc ev n (m_world s1)) as [ok w2]. cbn [fst snd] in *. set (s2 := Mach (m_sm s1) w2 (m_trace s1)).
  assert (quiet s s2) as Q2. { eapply quiet_trans; [exact Q1|]. by split_and!. }
  destruct ok; cbn [negb].
  2:{ apply wp_ret. pose proof Q2 as (_ & _ & [V2 _] & _). split_and!; [by eapply quiet_data|intros; by rewrite V2|done]. }
  wp_step. apply (wp_lock good); [done|]. intros s3 Q3. pose proof (quiet_trans good _ _ _ Q2 Q3) as Q4. pose proof Q4 as (E4 & _ & [V4 _] & _).
  pose proof (inv_data_only _ _ _ _ _ (quiet_data _ _ _ Q4) I) as I4.
  wp_step. eapply wp_mono.
  { apply (wp_reset_keys r d _ _ _ s3 (st_h (slot_get (m_sm s) r)));
      [done|congruence|exact (open_slot_quiet good _ _ _ _ _ _ _ Q4 O)|exact (slot_known _ _ static_known _ _ _ _ Hi Hd)]. }
  intros [err ch] s5 (P5 & V5 & new & -> & Hs). cbn [app]. pose proof P5 as (D5 & A5 & _).
  wp_step. apply (wp_unlock good); [apply D5|]. intros s6 Q6. pose proof Q6 as (E6 & G6 & [V6 _] & _). wp_step. eapply wp_mono.
  { apply (wp_said_each _ _ (callbacks (m_sm s6) d)); [done|]. intros k s7 E7 G7. apply (wp_notify good); [done|]. intros s8 S8. by rewrite <- E7. }
  intros u s7 S7. apply wp_ret. pose proof S7 as (_ & _ & [V7 _] & _). split_and!.
  - apply (data_only_trans good _ _ _ (quiet_data _ _ _ Q4)), (data_only_trans good _ _ _ D5), (data_only_trans good _ _ _ (quiet_data _ _ _ Q6)).
    exact (said_data _ _ _ _ S7).
  - intros n' k Hn. rewrite <- V7, <- V6, A5, V4; [done|]. intros Hin'. apply list_elem_of_fmap in Hin' as (k' & [= -> ->] & Hk').
    destruct Hn as [|Hn]; [done|]. apply Hn. by apply (list_elem_of_fmap_2 key_name).
  - intros -> k Hk. rewrite <- V7, <- V6. apply V5; [done|]. by right.
Qed.
End Plan.
