(* ===== verification/ConfigLock.v ===== *)
(** The calls of the configuration store as a program would make them, and the
    discipline of its lock: whatever the backend, the allocator and the
    callbacks do, the (non-recursive) mutex is never taken twice, every access to
    an open namespace happens under it, and change callbacks and alarms run
    without it. *)
From Stdlib Require Import ZArith Lia.
From stdpp Require Import base numbers list.
From S2P Require Import Prelude ConfigDesc ConfigStore.
Open Scope Z_scope.

(** * Calls *)

(** The public functions of the store and of its private header. *)
Inductive config_op :=
  | OpInit (backend : bool) | OpDeinit | OpFactoryReset
  | OpRegister (p : option nsref) | OpUnregister (ns : option cstr)
  | OpSubscribe (cb arg : Z) | OpUnsubscribe (cb arg : Z)
  | OpRegisterMigration (ns : option cstr) (from fn arg : Z)
  | OpSetBool (ns key : option cstr) (v : bool) | OpSetI32 (ns key : option cstr) (v : Z)
  | OpSetFloat (ns key : option cstr) (v : Z) | OpSetStr (ns key v : option cstr)
  | OpSetBlob (ns key : option cstr) (buf : option (list Z)) (len : nat)
  | OpResetKey (ns key : option cstr) | OpResetNs (ns : option cstr)
  | OpApplyPlan (plan : list espos_config_plan_entry_t)
  | OpGetBool (ns key : option cstr) (out : bool) | OpGetI32 (ns key : option cstr) (out : bool)
  | OpGetFloat (ns key : option cstr) (out : bool)
  | OpGetStr (ns key : option cstr) (buf : bool) (size : nat)
  | OpGetBlob (ns key : option cstr) (buf : bool) (len : option nat)
  | OpIsSet (ns key : option cstr) | OpGetVersion (ns : option cstr)
  | OpFindNs (ns : option cstr) | OpNsAt (i : nat) | OpNsTotal | OpRuntimeNsCount | OpGeneration.

Section Run.
Context {W : Type} (be : espos_config_backend_t W) (ev : env W).
Context (namespaces : list espos_cfg_ns_t) (rt_desc : Z -> espos_cfg_ns_t).

#[local] Abbreviation M := (act cfg W obs).
#[local] Abbreviation st := (mach cfg W obs).

(** A call, without its result. *)
Definition run_op (op : config_op) : M unit :=
  let void {A} (m : M A) : M unit := m ≫= fun _ => mret tt in
  match op with
  | OpInit b => void (espos_config_init be ev namespaces rt_desc b)
  | OpDeinit => void (espos_config_deinit be)
  | OpFactoryReset => void (espos_config_factory_reset be ev namespaces rt_desc)
  | OpRegister p => void (espos_config_register_ns be ev namespaces rt_desc p)
  | OpUnregister ns => void (espos_config_unregister_ns be namespaces rt_desc ns)
  | OpSubscribe cb arg => void (espos_config_subscribe cb arg)
  | OpUnsubscribe cb arg => void (espos_config_unsubscribe cb arg)
  | OpRegisterMigration ns from fn arg => void (espos_config_register_migration namespaces rt_desc ns from fn arg)
  | OpSetBool ns key v => void (espos_config_set_bool be ev namespaces rt_desc ns key v)
  | OpSetI32 ns key v => void (espos_config_set_i32 be ev namespaces rt_desc ns key v)
  | OpSetFloat ns key v => void (espos_config_set_float be ev namespaces rt_desc ns key v)
  | OpSetStr ns key v => void (espos_config_set_str be ev namespaces rt_desc ns key v)
  | OpSetBlob ns key buf len => void (espos_config_set_blob be ev namespaces rt_desc ns key buf len)
  | OpResetKey ns key => void (espos_config_reset_key be ev namespaces rt_desc ns key)
  | OpResetNs ns => void (espos_config_reset_ns be ev namespaces rt_desc ns)
  | OpApplyPlan plan => void (espos_config_apply_plan be ev namespaces rt_desc plan)
  | OpGetBool ns key out => void (espos_config_get_bool be namespaces rt_desc ns key out)
  | OpGetI32 ns key out => void (espos_config_get_i32 be namespaces rt_desc ns key out)
  | OpGetFloat ns key out => void (espos_config_get_float be namespaces rt_desc ns key out)
  | OpGetStr ns key buf size => void (espos_config_get_str be ev namespaces rt_desc ns key buf size)
  | OpGetBlob ns key buf len => void (espos_config_get_blob be ev namespaces rt_desc ns key buf len)
  | OpIsSet ns key => void (espos_config_is_set be ev namespaces rt_desc ns key)
  | OpGetVersion ns => void (espos_config_get_version be namespaces rt_desc ns)
  | OpFindNs ns => void (espos_config_find_ns namespaces rt_desc ns)
  | OpNsAt i => void (espos_config_ns_at namespaces i)
  | OpNsTotal => void (espos_config_ns_total namespaces)
  | OpRuntimeNsCount => void espos_config_runtime_ns_count
  | OpGeneration => void espos_config_generation
  end.

Fixpoint run_ops (ops : list config_op) : M unit :=
  match ops with [] => mret tt | op :: ops' => run_op op;; run_ops ops' end.

(** * The discipline *)

(** Whether the mutex is held after a trace (most recent event first); [None]
    when it was taken while held or given while free, when a namespace was
    accessed without it, or a callback or an alarm ran with it. *)
Fixpoint held (tr : list obs) : option bool :=
  match tr with
  | [] => Some false
  | o :: tr' =>
      match held tr', o with
      | Some false, OLock => Some true
      | Some true, OUnlock => Some false
      | Some true, (OOpen _ _ | OClose _ | OGet _ _ _ | OSet _ _ _ | OErase _ _ _ | OCommit _ _ | OEraseStorage _ | OMigrate _ _ _) => Some true
      | Some b, OInit _ => Some b
      | Some false, (ONotify _ _ _ _ | OAlarm _) => Some false
      | _, _ => None
      end
  end.

(** The lock exists and is, or is not, held. *)
Definition lk (b : bool) (s : st) : Prop := c_lock (m_sm s) = true /\ held (m_trace s) = Some b.

(** A computation that finds the lock in one state and leaves it in another. *)
Definition from_to (b c : bool) {A} (m : M A) : Prop := forall s, lk b s -> wp m (fun _ => lk c) s.

(** A computation that runs with the lock held throughout, or not held before and after. *)
#[local] Abbreviation under b := (from_to b b).

Lemma under_ret b {A} (a : A) : under b (mret a).
Proof. intros s Hs. exact Hs. Qed.

Lemma under_bind b {A B} (m : M A) (k : A -> M B) : under b m -> (forall a, under b (k a)) -> under b (m ≫= k).
Proof. intros Hm Hk s Hs. apply wp_bind. eapply wp_mono; [by apply Hm|]. intros a s' Hs'. by apply Hk. Qed.

Lemma under_gets b {A} (f : cfg -> A) : under b (gets f).
Proof. intros s Hs. exact Hs. Qed.

Lemma under_mods b f : (forall c, c_lock c = true -> c_lock (f c) = true) -> under b (mods f).
Proof. intros Hf s [H1 H2]. apply wp_mods. split; [by apply Hf|done]. Qed.

Lemma under_query b {A} (f : W -> A * W) : under b (query f).
Proof. intros s Hs. apply wp_query. done. Qed.

Lemma under_call b {A} (f : W -> A * W) o : (forall a tr, held tr = Some b -> held (o a :: tr) = Some b) -> under b (call f o).
Proof. intros Ho s [H1 H2]. apply wp_call. intros a w. split; [done|]. by apply Ho. Qed.

Lemma under_for_each b {A} (l : list A) f : (forall a, under b (f a)) -> under b (for_each (W := W) l f).
Proof. intros Hf. induction l as [|a l IH]; [by apply under_ret|]. apply under_bind; [done|]. intros _. exact IH. Qed.

Lemma slot_set_lock r v c : c_lock (slot_set r v c) = c_lock c.
Proof. by destruct r. Qed.

Create HintDb lockdb.

Ltac under_step :=
  match goal with
  | |- from_to ?b ?b (mbind _ _) => apply under_bind; [|intros]
  | |- from_to ?b ?b (mret _) => apply under_ret
  | |- from_to ?b ?b (gets _) => apply under_gets
  | |- from_to ?b ?b (mods _) => apply under_mods; intros; rewrite ?slot_set_lock; first [assumption|reflexivity]
  | |- from_to ?b ?b (query _) => apply under_query
  | |- from_to true true (call _ _) => apply under_call; let H := fresh in intros ? ? H; cbn [held]; rewrite H; reflexivity
  | |- from_to ?b ?b (for_each _ _) => apply under_for_each; intros
  | |- from_to ?b ?b (let '(_, _) := ?x in _) => destruct x
  | |- from_to ?b ?b (if ?x then _ else _) => destruct x
  | |- from_to ?b ?b (match ?x with _ => _ end) => destruct x
  end.
Ltac under_solve := repeat first [solve [auto with lockdb nocore] | under_step].

Lemma under_read nd kd sb bb : under true (espos_config_read_effective be namespaces nd kd sb bb).
Proof. unfold espos_config_read_effective, ns_state_for, nss_h, get. under_solve. Qed.
#[local] Hint Resolve under_read : lockdb.

Lemma under_alloc b kd : under b (alloc_buffers ev kd).
Proof. unfold alloc_buffers, malloc. under_solve. Qed.
#[local] Hint Resolve under_alloc : lockdb.

Lemma under_equals nd kd v : under true (value_equals_effective be ev namespaces nd kd v).
Proof. unfold value_equals_effective. under_solve. Qed.
#[local] Hint Resolve under_equals : lockdb.

Lemma under_write r kd v : under true (write_locked be ev namespaces r kd v).
Proof. unfold write_locked, nss_nd, nss_desc, nss_h, set, commit, erase_key. under_solve. Qed.
#[local] Hint Resolve under_write : lockdb.

Lemma under_reset r kd : under true (reset_locked be ev namespaces r kd).
Proof. unfold reset_locked, nss_nd, nss_desc, nss_h, commit, erase_key. under_solve. Qed.
#[local] Hint Resolve under_reset : lockdb.

Lemma under_write_version r v : under true (write_version be r v).
Proof. unfold write_version, nss_h, set, commit. under_solve. Qed.
#[local] Hint Resolve under_write_version : lockdb.

Lemma under_read_version r : under true (read_version be r).
Proof. unfold read_version, nss_h, get. under_solve. Qed.
#[local] Hint Resolve under_read_version : lockdb.

Lemma under_migrate_loop fuel r n v : under true (migrate_loop be ev fuel r n v).
Proof.
  revert v. induction fuel as [|fuel IH]; intros v; cbn [migrate_loop]; [by apply under_ret|].
  unfold find_migration, nss_h. under_solve.
Qed.
#[local] Hint Resolve under_migrate_loop : lockdb.

Lemma under_migrate_ns r : under true (migrate_ns be ev namespaces rt_desc r).
Proof. unfold migrate_ns, nss_nd, nss_desc, nss_h, erase_key. under_solve. Qed.
#[local] Hint Resolve under_migrate_ns : lockdb.

Lemma under_migrate_runtime : under true (migrate_runtime_locked be ev namespaces rt_desc).
Proof. unfold migrate_runtime_locked, nss_desc, nss_h. under_solve. Qed.
#[local] Hint Resolve under_migrate_runtime : lockdb.

Lemma under_open_static idx : under true (open_static be namespaces rt_desc idx).
Proof. induction idx as [|i idx IH]; cbn [open_static]; [by apply under_ret|]. unfold nss_nd, nss_desc, nss_h, open_, close_, set_h. under_solve. Qed.
#[local] Hint Resolve under_open_static : lockdb.

Lemma under_open_all : under true (open_all_locked be namespaces rt_desc).
Proof. unfold open_all_locked, open_runtime, nss_desc, nss_h, open_, set_h, assign, bump_generation. under_solve. Qed.
#[local] Hint Resolve under_open_all : lockdb.

Lemma under_close_all : under true (close_all_locked be).
Proof. unfold close_all_locked, close_slot, nss_h, close_, set_h. under_solve. Qed.
#[local] Hint Resolve under_close_all : lockdb.

Lemma under_reset_keys r ks e ch : under true (reset_keys be ev namespaces r ks e ch).
Proof. revert e ch. induction ks as [|k ks IH]; intros e ch; cbn [reset_keys]; under_solve. Qed.
#[local] Hint Resolve under_reset_keys : lockdb.

Lemma under_plan_loop i plan e idx rst : under true (plan_loop be ev namespaces i plan e idx rst).
Proof.
  revert i e idx rst. induction plan as [|p plan IH]; intros; cbn [plan_loop]; [by apply under_ret|].
  unfold apply_entry, ns_state_for, nss_h. under_solve.
Qed.
#[local] Hint Resolve under_plan_loop : lockdb.
(** ** Taking and giving the lock *)

Lemma ft_bind b c d {A B} (m : M A) (k : A -> M B) : from_to b c m -> (forall a, from_to c d (k a)) -> from_to b d (m ≫= k).
Proof. intros Hm Hk s Hs. apply wp_bind. eapply wp_mono; [by apply Hm|]. intros a s' Hs'. by apply Hk. Qed.

Lemma ft_lock : from_to false true cfg_lock.
Proof. intros s [H1 H2]. unfold cfg_lock. wp_step. apply wp_gets. rewrite H1. apply wp_emit. split; [done|]. cbn. by rewrite H2. Qed.

Lemma ft_unlock : from_to true false cfg_unlock.
Proof. intros s [H1 H2]. unfold cfg_unlock. wp_step. apply wp_gets. rewrite H1. apply wp_emit. split; [done|]. cbn. by rewrite H2. Qed.

Lemma under_notify_ev cb arg ns k : under false (emit (ONotify cb arg ns k)).
Proof. intros s [H1 H2]. apply wp_emit. split; [done|]. cbn. by rewrite H2. Qed.

Lemma under_alarm a : under false (flow_config_alarm a).
Proof. intros s [H1 H2]. apply wp_emit. split; [done|]. cbn. by rewrite H2. Qed.
#[local] Hint Resolve under_notify_ev under_alarm : lockdb.

(** Through a function from the lock free to the lock free. *)
Ltac ft_step :=
  match goal with
  | |- from_to false false (mbind _ cfg_lock) => apply (ft_bind false true false); [exact ft_lock|intros]
  | |- from_to true false (mbind _ cfg_unlock) => apply (ft_bind true false false); [exact ft_unlock|intros]
  | |- from_to true false cfg_unlock => exact ft_unlock
  | |- from_to ?b ?c (mbind _ _) => apply (ft_bind b b c); [solve [under_solve]|intros]
  | |- from_to ?b ?c (let '(_, _) := ?x in _) => destruct x
  | |- from_to ?b ?c (if ?x then _ else _) => destruct x
  | |- from_to ?b ?c (match ?x with _ => _ end) => destruct x
  | |- from_to ?b ?b _ => solve [under_solve]
  end.

Lemma under_find_ns ns : under false (espos_config_find_ns namespaces rt_desc ns).
Proof. unfold espos_config_find_ns, find_runtime_ns. repeat ft_step. Qed.
#[local] Hint Resolve under_find_ns : lockdb.

Lemma under_lookup ns k : under false (lookup namespaces rt_desc ns k).
Proof. unfold lookup, ns_state_for. under_solve. Qed.
#[local] Hint Resolve under_lookup : lockdb.

Lemma under_notify nd kd : under false (notify namespaces rt_desc nd kd).
Proof. unfold notify. repeat ft_step. Qed.
#[local] Hint Resolve under_notify : lockdb.

Lemma under_set_value ns k v : under false (set_value be ev namespaces rt_desc ns k v).
Proof. unfold set_value, nss_nd, nss_desc. repeat ft_step. Qed.
#[local] Hint Resolve under_set_value : lockdb.

Lemma under_ensure_lock : under false (ensure_lock ev).
Proof. unfold ensure_lock. under_solve. Qed.
#[local] Hint Resolve under_ensure_lock : lockdb.
Lemma under_validate p : under false (validate_runtime_desc namespaces rt_desc p).
Proof. unfold validate_runtime_desc. under_solve. Qed.
#[local] Hint Resolve under_validate : lockdb.

Lemma under_init_open : under false (init_open be ev namespaces rt_desc).
Proof. unfold init_open, free_ns. repeat ft_step. Qed.
#[local] Hint Resolve under_init_open : lockdb.

Lemma under_init_call : under false (call (be_init be) (fun r => OInit r.1)).
Proof. apply under_call. intros a tr Ht. cbn. by rewrite Ht. Qed.
#[local] Hint Resolve under_init_call : lockdb.

Lemma under_get_scalar ns k t : under false (get_scalar be namespaces rt_desc ns k t).
Proof. unfold get_scalar, nss_nd, nss_desc. repeat ft_step. Qed.
#[local] Hint Resolve under_get_scalar : lockdb.

(** With the lock in place, every call finds it free and leaves it free. *)
Lemma under_op op : under false (run_op op).
Proof.
  destruct op; cbn [run_op]; (apply (ft_bind false false false); [|intros; apply under_ret]);
  unfold espos_config_init, espos_config_deinit, espos_config_factory_reset, espos_config_register_ns, espos_config_unregister_ns,
    espos_config_subscribe, espos_config_unsubscribe, espos_config_register_migration, espos_config_set_bool, espos_config_set_i32,
    espos_config_set_float, espos_config_set_str, espos_config_set_blob, espos_config_reset_key, espos_config_reset_ns,
    espos_config_apply_plan, espos_config_get_bool, espos_config_get_i32, espos_config_get_float, espos_config_get_str,
    espos_config_get_blob, espos_config_is_set, espos_config_get_version, espos_config_ns_at, espos_config_ns_total,
    espos_config_runtime_ns_count, espos_config_generation, espos_config_ns_total_locked, ns_at, find_runtime_ns, ns_state_for,
    nss_nd, nss_desc, nss_h, assign, set_h, free_ns, bump_generation, malloc, open_, close_, find_runtime_ns.
  all: repeat ft_step.
Qed.

(** ** Before the lock exists *)

Definition lock_inv (s : st) : Prop := held (m_trace s) = Some false /\ (c_inited (m_sm s) = true -> c_lock (m_sm s) = true).

(** The store is down and the mutex not yet created. *)
Definition idle (s : st) : Prop := c_lock (m_sm s) = false /\ c_inited (m_sm s) = false /\ held (m_trace s) = Some false.

Lemma lk_lock_inv s : lk false s -> lock_inv s.
Proof. intros [H1 H2]. by split. Qed.

Lemma idle_lock_inv s : idle s -> lock_inv s.
Proof. intros (H1 & H2 & H3). split; [done|congruence]. Qed.

Lemma idle_lock Q s : idle s -> Q tt s -> wp cfg_lock Q s.
Proof. intros (H1 & _) HQ. unfold cfg_lock. wp_step. apply wp_gets. by rewrite H1; apply wp_ret. Qed.

Lemma idle_unlock Q s : idle s -> Q tt s -> wp cfg_unlock Q s.
Proof. intros (H1 & _) HQ. unfold cfg_unlock. wp_step. apply wp_gets. by rewrite H1; apply wp_ret. Qed.

Lemma idle_find_ns ns s : idle s -> wp (espos_config_find_ns namespaces rt_desc ns) (fun _ => idle) s.
Proof.
  intros Hs. unfold espos_config_find_ns. destruct ns as [n|]; [|done]. destruct (find_static namespaces n); [done|].
  wp_step. apply idle_lock; [done|]. wp_step. unfold find_runtime_ns. apply wp_gets. wp_step. by apply idle_unlock.
Qed.

(** Creating it. *)
Lemma idle_ensure_lock s : idle s -> wp (ensure_lock ev) (fun e s' => (e = ESP_OK /\ lk false s') \/ (e = ESP_ERR_NO_MEM /\ idle s')) s.
Proof.
  intros (H1 & H2 & H3). unfold ensure_lock. wp_step. apply wp_gets. rewrite H1. wp_step. apply wp_query. intros ok w.
  destruct ok; [|apply wp_ret; by right]. wp_step. apply wp_mods. apply wp_ret. by left.
Qed.

Lemma idle_register p s : idle s -> wp (espos_config_register_ns be ev namespaces rt_desc p) (fun _ => lock_inv) s.
Proof.
  intros Hs. unfold espos_config_register_ns. wp_step.
  assert (forall a, idle (Mach (m_sm s) (m_world s) (OAlarm a :: m_trace s))) as Ha.
  { intros a. destruct Hs as (H1 & H2 & H3). split_and!; [done|done|]. cbn. by rewrite H3. }
  eapply (wp_mono _ (fun _ => idle)).
  { unfold validate_runtime_desc, flow_config_alarm. destruct p; [|done]. repeat case_match; try done; by apply wp_bind, wp_emit, wp_ret. }
  intros e s1 S1. destruct p as [p|]; [|apply wp_ret; by apply idle_lock_inv]. destruct (is_ok e); cbn [negb]; [|apply wp_ret; by apply idle_lock_inv].
  wp_step. eapply wp_mono; [by apply idle_ensure_lock|]. intros e2 s2 [[-> S2]|[-> S2]]; [|apply wp_ret; by apply idle_lock_inv].
  rewrite (proj2 (is_ok_true _) eq_refl). cbn [negb]. eapply (wp_mono _ (fun _ => lk false)); [|intros; by apply lk_lock_inv]. revert s2 S2.
  match goal with |- forall s2, _ -> wp ?m _ s2 => change (from_to false false m) end.
  unfold find_runtime_ns, assign, open_, set_h, bump_generation. repeat ft_step.
Qed.

Lemma idle_init b s : idle s -> wp (espos_config_init be ev namespaces rt_desc b) (fun _ => lock_inv) s.
Proof.
  intros Hs. unfold espos_config_init. wp_step. apply wp_gets. rewrite (proj1 (proj2 Hs)). destruct b; cbn [negb]; [|apply wp_ret; by apply idle_lock_inv].
  wp_step. eapply wp_mono; [by apply idle_ensure_lock|]. intros e2 s2 [[-> S2]|[-> S2]]; [|apply wp_ret; by apply idle_lock_inv].
  rewrite (proj2 (is_ok_true _) eq_refl). cbn [negb]. eapply (wp_mono _ (fun _ => lk false)); [|intros; by apply lk_lock_inv]. revert s2 S2.
  match goal with |- forall s2, _ -> wp ?m _ s2 => change (from_to false false m) end.
  unfold free_ns. repeat ft_step.
Qed.

Lemma idle_register_migration ns v fn arg s : idle s ->
  wp (espos_config_register_migration namespaces rt_desc ns v fn arg) (fun _ => lock_inv) s.
Proof.
  intros Hs. unfold espos_config_register_migration. wp_step. eapply wp_mono; [by apply idle_find_ns|]. intros nd s1 S1.
  pose proof (idle_lock_inv _ S1) as I1. destruct nd; [|done]. wp_step; [done|]. wp_step. apply wp_gets. rewrite (proj1 (proj2 S1)).
  wp_step. apply wp_gets. wp_step; [done|]. wp_step; [done|]. wp_step. by apply wp_mods, wp_ret.
Qed.

Lemma idle_get_version ns s : idle s -> wp (espos_config_get_version be namespaces rt_desc ns) (fun _ => lock_inv) s.
Proof.
  intros Hs. unfold espos_config_get_version. wp_step. eapply wp_mono; [by apply idle_find_ns|]. intros nd s1 S1.
  pose proof (idle_lock_inv _ S1) as I1. destruct nd; [|done]. wp_step. apply wp_gets. by rewrite (proj1 (proj2 S1)).
Qed.

Lemma lock_inv_op op s : lock_inv s -> wp (run_op op) (fun _ => lock_inv) s.
Proof.
  intros [Hh Hl]. destruct (c_lock (m_sm s)) eqn:L.
  { eapply wp_mono; [by apply under_op|]. intros; by apply lk_lock_inv. }
  assert (idle s) as Hs. { split_and!; [done| |done]. destruct (c_inited (m_sm s)); [by specialize (Hl eq_refl)|done]. }
  pose proof (idle_lock_inv _ Hs) as HI. pose proof Hs as (_ & Hi & _).
  destruct op; cbn [run_op]; apply wp_bind;
  (eapply (wp_mono _ (fun _ => lock_inv)); [|intros ? ? ?; by apply wp_ret]).
  24: by eapply wp_mono; [apply idle_find_ns|intros; by apply idle_lock_inv].
  23: by apply idle_get_version.
  8: by apply idle_register_migration.
  4: by apply idle_register.
  1: by apply idle_init.
  all: unfold espos_config_deinit, espos_config_factory_reset, espos_config_unregister_ns,
    espos_config_subscribe, espos_config_unsubscribe, espos_config_register_migration, espos_config_set_bool, espos_config_set_i32,
    espos_config_set_float, espos_config_set_str, espos_config_set_blob, set_value, espos_config_reset_key, espos_config_reset_ns,
    espos_config_apply_plan, espos_config_get_bool, espos_config_get_i32, espos_config_get_float, get_scalar, espos_config_get_str,
    espos_config_get_blob, espos_config_is_set, espos_config_get_version, espos_config_ns_at, espos_config_ns_total,
    espos_config_runtime_ns_count, espos_config_generation, espos_config_ns_total_locked, ns_at.
  all: repeat match goal with
    | |- wp (match ?x with _ => _ end) _ _ => destruct x
    | |- wp (if ?x then _ else _) _ _ => destruct x
    | |- wp (mret _) _ _ => apply wp_ret; assumption
    | |- wp (mbind _ (gets c_inited)) _ _ => apply wp_bind, wp_gets; rewrite Hi; cbn [negb]; rewrite ?orb_true_r
    | |- wp (mbind _ (mbind _ _)) _ _ => apply wp_bind
    | |- wp (mbind _ (if _ then _ else _)) _ _ => apply wp_bind
    | |- wp (mbind _ (gets c_lock)) _ _ => apply wp_bind, wp_gets; rewrite L; cbn [negb]
    | |- wp (mbind _ cfg_lock) _ _ => apply wp_bind, idle_lock; [exact Hs|]
    | |- wp (mbind _ cfg_unlock) _ _ => apply wp_bind, idle_unlock; [exact Hs|]
    | |- wp (mbind _ (gets _)) _ _ => apply wp_bind, wp_gets
    | |- wp (mbind _ (mret _)) _ _ => apply wp_bind, wp_ret
    | |- wp (mret _) _ _ => apply wp_ret
    | |- wp (gets _) _ _ => apply wp_gets
    end.
  all: try done.
Qed.

(** C28. Whatever the backend, the allocator and the callbacks do and whatever
    calls are made, in any order and with any arguments: the mutex of the store
    is never taken by a task that holds it nor given by one that does not, every
    backend access to a namespace and every migration runs with the mutex held,
    every change callback and alarm with it free, and it is free between calls. *)
Theorem config_lock_discipline ops s :
  m_sm s = cfg_zero -> m_trace s = [] -> held (m_trace (exec (run_ops ops) s)) = Some false.
Proof.
  intros Hc Ht. assert (lock_inv s) as I by (split; [by rewrite Ht|by rewrite Hc]). clear Hc Ht.
  revert s I. induction ops as [|op ops IH]; intros s I; [apply I|]. cbn [run_ops].
  change (wp (run_op op;; run_ops ops) (fun _ s' => held (m_trace s') = Some false) s). wp_step.
  eapply wp_mono; [by apply lock_inv_op|]. intros u s' I'. by apply IH.
Qed.
End Run.
