(* ===== verification/ConfigProps.v ===== *)
(** The properties of the configuration store. *)
From Stdlib Require Import ZArith Lia String.
From stdpp Require Import base numbers list sorting.
From S2P Require Import Prelude ConfigDesc ConfigStore ConfigLaws ConfigSpec ConfigInv ConfigLife ConfigOps ConfigPlan ConfigLock ConfigMem.
Open Scope Z_scope.

(** * What is read is acceptable, whatever is stored *)

(** C38. Whatever the backend returns (an error, another type's bytes, a string
    without its NUL, a number out of range), a read of a declared key that
    succeeds yields a value of the key's type, one the validation accepts when it
    is reported as stored, and always when the key's default is acceptable. *)
Theorem config_read_typed {W} (be : espos_config_backend_t W) namespaces nd kd sbuf bbuf (s : mach cfg W obs) :
  wp (espos_config_read_effective be namespaces nd kd sbuf bbuf)
    (fun '(e, v, is_set) _ => e = ESP_OK ->
       v_type v = k_type kd /\ (is_set = true \/ valid kd (default_read kd) = true -> espos_config_validate kd v = None)) s.
Proof.
  unfold espos_config_read_effective, default_read, default_value. wp_step. apply wp_gets.
  destruct (slot_for _ _ _); [|by apply wp_ret]. wp_step. apply wp_gets. wp_step; [by apply wp_ret|].
  destruct (k_type kd) eqn:T; [..|by apply wp_ret]; wp_step; apply wp_call; intros [[e d] n] w; wp_step; apply wp_ret; intros _; cbn [v_type];
    (split; [done|]); try (intros [[=]|Hd]; by apply valid_none); intros _.
  - unfold espos_config_validate. cbn [v_type]. by rewrite T, bool_decide_true.
  - apply valid_none. rewrite valid_int by done. apply andb_true_iff in E0 as [E1 E2]. apply andb_true_iff in E1 as [_ E1]. by rewrite E1, E2.
  - apply andb_true_iff in E0 as [_ E1]. by apply valid_none.
  - apply andb_true_iff in E0 as [_ E1]. by apply valid_none.
  - apply andb_true_iff in E0 as [_ E1%Nat.leb_le]. unfold espos_config_validate. cbn [v_type]. rewrite T, bool_decide_true by done. cbn [negb].
    rewrite (proj2 (Nat.ltb_ge _ _) E1). by rewrite andb_false_r.
Qed.

Section Props.
Context `{Storage W} (be : espos_config_backend_t W) (ev : env W) (good : W -> Prop).
Context `{!BackendLaws be good} `{!EnvLaws ev good}.
Context (namespaces : list espos_cfg_ns_t) (rt_desc : Z -> espos_cfg_ns_t).
Context (names_distinct : NoDup (map desc_name namespaces)).
Context (static_known : Forall known_keys namespaces).

#[local] Abbreviation M := (act cfg W obs).
#[local] Abbreviation st := (mach cfg W obs).
#[local] Abbreviation deref := (deref namespaces rt_desc).
#[local] Abbreviation ref_name := (ref_name namespaces rt_desc).
#[local] Abbreviation quiet := (quiet good).
#[local] Abbreviation data_only := (data_only good).
#[local] Abbreviation store_inv := (store_inv good namespaces rt_desc).
#[local] Abbreviation declared := (declared namespaces rt_desc).
#[local] Abbreviation run_op := (run_op be ev namespaces rt_desc).
#[local] Abbreviation run_ops := (run_ops be ev namespaces rt_desc).

(** * The invariant *)

(** Arguments a caller may pass: values as C holds them, plans that are validated. *)
Definition op_wf (op : config_op) : Prop :=
  match op with
  | OpSetI32 _ _ v => wf_value (VInt v)
  | OpSetFloat _ _ v => wf_value (VFloat v)
  | OpSetStr _ _ v => wf_value (VStr v)
  | OpSetBlob _ _ buf len => buf <> None -> wf_value (VBlob buf len)
  | OpApplyPlan plan => Forall (wf_entry_of_plan) plan
  | _ => True
  end.

Lemma inv_quiet s s' : quiet s s' -> store_inv s -> store_inv s'.
Proof. intros Q. apply inv_data_only. by eapply quiet_data. Qed.

(** Readers leave everything as it is. *)
Lemma quiet_get_scalar ns key t s : store_inv s -> t <> ESPOS_CFG_TYPE_STRING ->
  wp (get_scalar be namespaces rt_desc ns key t) (fun _ => quiet s) s.
Proof.
  intros I Ht. destruct (c_inited (m_sm s)) eqn:E.
  - eapply wp_mono; [by apply (wp_get_scalar be good)|]. intros r s' [Q _]. done.
  - unfold get_scalar. wp_step. apply wp_gets. rewrite E. apply wp_ret. apply cfg_quiet_refl, I.
Qed.

(** A reader that looks up, allocates and reads under the lock. *)
Lemma quiet_reader {A} ns key (kq : esp_err_t -> A) (body : slot_ref -> espos_cfg_key_t -> M A) (a0 : A) s : store_inv s ->
  (forall d r kd s', quiet s s' -> known_type (k_type kd) = true ->
     open_slot namespaces s' r d (st_h (slot_get (m_sm s) r)) (ref_name d) -> wp (body r kd) (fun _ => quiet s') s') ->
  wp (inited ← gets c_inited; if negb inited then mret a0 else
      l ← lookup namespaces rt_desc ns key; match l with inl err => mret (kq err) | inr (r, kd) => body r kd end) (fun _ => quiet s) s.
Proof.
  intros I Hb. wp_step. apply wp_gets. destruct (c_inited (m_sm s)) eqn:E; cbn [negb]; [|apply wp_ret, cfg_quiet_refl, I].
  wp_step. eapply (wp_lookup good); [done|done|done|done| |].
  - intros s1 Q1 _. by apply wp_ret.
  - intros d r kd s1 Q1 _ Hk O. eapply wp_mono; [by eapply Hb|]. intros a s2 Q2. exact (quiet_trans good _ _ _ Q1 Q2).
Qed.

Lemma quiet_get_str ns key buf size s : store_inv s -> wp (espos_config_get_str be ev namespaces rt_desc ns key buf size) (fun _ => quiet s) s.
Proof.
  intros I. unfold espos_config_get_str. apply (quiet_reader ns key (fun err => (err, None, None))); [done|]. intros d r kd s1 Q1 Hk O.
  case_bool_decide as Hs; cbn [negb]; [|apply wp_ret, cfg_quiet_refl, Q1]. wp_step. apply (wp_malloc ev good); [apply Q1|]. intros b s2 Q2 Hb.
  destruct b as [sbuf|]; [|by apply wp_ret]. eapply (wp_locked_read be good); [apply Q2|exact (open_slot_quiet good _ _ _ _ _ _ _ Q2 O)|done| |].
  { intros _. rewrite (Hb sbuf eq_refl). lia. }
  intros v b s3 Q3 _ _. pose proof (quiet_trans good _ _ _ Q2 Q3) as Q4. destruct (negb _); [by apply wp_ret|]. by destruct (_ && _); apply wp_ret.
Qed.

Lemma quiet_get_blob ns key buf len s : store_inv s -> wp (espos_config_get_blob be ev namespaces rt_desc ns key buf len) (fun _ => quiet s) s.
Proof.
  intros I. unfold espos_config_get_blob. destruct len as [cap|].
  2:{ wp_step. apply wp_gets. destruct (negb _); apply wp_ret, cfg_quiet_refl, I. }
  apply (quiet_reader ns key (fun err => (err, None, Some cap))); [done|]. intros d r kd s1 Q1 Hk O.
  case_bool_decide as Hs; cbn [negb]; [|apply wp_ret, cfg_quiet_refl, Q1]. wp_step. apply (wp_malloc ev good); [apply Q1|]. intros b s2 Q2 Hb.
  destruct b as [bbuf|]; [|by apply wp_ret]. eapply (wp_locked_read be good); [apply Q2|exact (open_slot_quiet good _ _ _ _ _ _ _ Q2 O)|done|congruence|].
  intros v b s3 Q3 _ _. pose proof (quiet_trans good _ _ _ Q2 Q3) as Q4. destruct (negb _); [by apply wp_ret|].
  destruct buf; [|by apply wp_ret]. by destruct (_ <? _)%nat; apply wp_ret.
Qed.

Lemma quiet_is_set ns key s : store_inv s -> wp (espos_config_is_set be ev namespaces rt_desc ns key) (fun _ => quiet s) s.
Proof.
  intros I. unfold espos_config_is_set. apply (quiet_reader ns key (fun _ => false)); [done|]. intros d r kd s1 Q1 Hk O.
  wp_step. apply (wp_alloc_buffers ev good); [apply Q1|]. intros b s2 Q2 Hb. destruct b as [[sbuf bbuf]|]; [|by apply wp_ret].
  eapply (wp_locked_read be good).
  - apply Q2.
  - exact (open_slot_quiet good _ _ _ _ _ _ _ Q2 O).
  - done.
  - intros Ht. by eapply Hb.
  - intros v b s3 Q3 _ _. apply wp_ret. exact (quiet_trans good _ _ _ Q2 Q3).
Qed.

Lemma quiet_get_version ns s : store_inv s -> wp (espos_config_get_version be namespaces rt_desc ns) (fun _ => quiet s) s.
Proof.
  intros I. pose proof I as (G & Hi & U). unfold espos_config_get_version. wp_step. apply (wp_find_ns good); [done|]. intros s1 Q1. pose proof Q1 as (E1 & _).
  destruct (find_ns_pure _ _ _ ns) as [d|] eqn:F; [|by apply wp_ret]. wp_step. apply wp_gets. rewrite E1. destruct (c_inited (m_sm s)) eqn:Hin; cbn [negb]; [|by apply wp_ret].
  destruct (find_ns_slot _ _ (m_world s) _ _ _ Hi U F) as (r & Hd & _). pose proof (open_slot_of good _ _ names_distinct _ _ _ I Hin Hd) as O.
  wp_step. apply (wp_lock good); [apply Q1|]. intros s2 Q2. pose proof (quiet_trans good _ _ _ Q1 Q2) as Q3. pose proof Q3 as (E3 & _).
  wp_step. apply wp_gets. rewrite E3, (slot_for_desc _ _ names_distinct _ _ _ _ Hi Hd). wp_step. wp_step. apply wp_gets. rewrite E3.
  destruct (_ =? 0).
  { apply wp_ret. wp_step. apply (wp_unlock good); [apply Q3|]. intros s4 Q4. apply wp_ret. exact (quiet_trans good _ _ _ Q3 Q4). }
  wp_step. eapply (wp_read_version be good); [apply Q3|exact (open_handle _ _ _ _ _ _ (open_slot_quiet good _ _ _ _ _ _ _ Q3 O))|]. intros s4 Q4. apply wp_ret.
  wp_step. apply (wp_unlock good); [apply Q4|]. intros s5 Q5. apply wp_ret. exact (quiet_trans good _ _ _ Q3 (quiet_trans good _ _ _ Q4 Q5)).
Qed.

(** A bracket around a query of the tables. *)
Lemma quiet_bracket {A} (f : cfg -> A) s : store_inv s -> wp (cfg_lock;; x ← gets f; cfg_unlock;; mret x) (fun _ => quiet s) s.
Proof.
  intros I. wp_step. apply (wp_lock good); [apply I|]. intros s1 Q1. wp_step. apply wp_gets. wp_step. apply (wp_unlock good); [apply Q1|].
  intros s2 Q2. apply wp_ret. exact (quiet_trans good _ _ _ Q1 Q2).
Qed.

Lemma inv_set ns key v s : store_inv s -> (forall kd, valid kd v = true -> wf_value v) ->
  wp (set_value be ev namespaces rt_desc ns key v) (fun _ => store_inv) s.
Proof.
  intros I Hw. destruct (c_inited (m_sm s)) eqn:E.
  - eapply wp_mono; [by apply (wp_set_value be ev good)|]. intros e s' R. unfold set_result in R. eapply inv_data_only; [|exact I].
    destruct (ConfigInv.declared _ _ _ ns key) as [[d kd]|]; [|exact (quiet_data good _ _ (proj2 R))].
    destruct (has_flag _ _); [exact (quiet_data good _ _ (proj2 R))|]. destruct (negb _); [exact (quiet_data good _ _ (proj2 R))|apply R].
  - unfold set_value. wp_step. apply wp_gets. rewrite E. by apply wp_ret.
Qed.

Lemma inv_op op s : store_inv s -> op_wf op -> wp (run_op op) (fun _ => store_inv) s.
Proof.
  intros I Hw.
  assert (forall A (m : M A), wp m (fun _ => quiet s) s -> wp (m;; mret tt) (fun _ => store_inv) s) as Hq.
  { intros A m Hm. wp_step. eapply wp_mono; [exact Hm|]. intros a s' Q. apply wp_ret. exact (inv_quiet _ _ Q I). }
  assert (forall A (m : M A), wp m (fun _ => store_inv) s -> wp (m;; mret tt) (fun _ => store_inv) s) as Hi.
  { intros A m Hm. wp_step. eapply wp_mono; [exact Hm|]. intros a s' Q. by apply wp_ret. }
  assert (forall A (m : M A) (a0 : A), (c_inited (m_sm s) = true -> wp m (fun _ => store_inv) s) ->
     (c_inited (m_sm s) = false -> wp m (fun _ s' => s' = s) s) -> wp (m;; mret tt) (fun _ => store_inv) s) as Hd.
  { intros A m a0 H1 H2. apply Hi. destruct (c_inited (m_sm s)); [by apply H1|]. eapply wp_mono; [by apply H2|]. by intros a s' ->. }
  destruct op; cbn [ConfigLock.run_op op_wf] in *.
  - apply Hi. eapply wp_mono; [by apply (wp_init be ev good)|]. by intros e s' [? _].
  - apply Hi. eapply wp_mono; [by apply (wp_deinit be good namespaces rt_desc)|]. by intros e s' [? _].
  - apply Hi. eapply wp_mono; [by apply (wp_factory_reset be ev good)|]. by intros e s' [? _].
  - apply Hi. eapply wp_mono; [by apply (wp_register be ev good)|]. by intros e s' [? _].
  - apply Hi. eapply wp_mono; [by apply (wp_unregister be good)|]. by intros e s' [? _].
  - apply Hi. by apply wp_subscribe.
  - apply Hi. by apply wp_unsubscribe.
  - apply Hi. by apply wp_register_migration.
  - apply Hi. by apply inv_set.
  - apply Hi. by apply inv_set.
  - apply Hi. by apply inv_set.
  - apply Hi. unfold espos_config_set_str. destruct v; [|by apply wp_ret]. by apply inv_set.
  - apply Hi. apply inv_set; [done|]. intros kd Hv. destruct buf as [l|]; [by apply Hw|]. apply valid_none, validate_blob in Hv as [_ Hn].
    split; [constructor|]. cbn. destruct len; [lia|]. by destruct Hn.
  - apply (Hd _ _ ESP_OK); intros Hin.
    + eapply wp_mono; [by apply (wp_reset_key be ev good)|]. intros e s' R. unfold reset_result in R. eapply inv_data_only; [|exact I].
      destruct (ConfigInv.declared _ _ _ ns key) as [[d kd]|]; [apply R|exact (quiet_data good _ _ (proj2 R))].
    + unfold espos_config_reset_key. wp_step. apply wp_gets. rewrite Hin. by apply wp_ret.
  - apply (Hd _ _ ESP_OK); intros Hin.
    + eapply wp_mono; [by apply (wp_reset_ns be ev good)|]. intros e s' [D _]. by eapply inv_data_only.
    + unfold espos_config_reset_ns. wp_step. apply wp_gets. rewrite Hin. by apply wp_ret.
  - apply (Hd _ _ (ESP_OK, [], false)); intros Hin.
    + eapply wp_mono; [by apply (wp_apply_plan be ev good)|]. intros [[e idx] rst] s' [D _]. by eapply inv_data_only.
    + unfold espos_config_apply_plan. wp_step. apply wp_gets. rewrite Hin. by apply wp_ret.
  - apply Hq. unfold espos_config_get_bool. destruct out; cbn [negb]; [|apply wp_ret, cfg_quiet_refl, I]. wp_step. eapply wp_mono; [by apply quiet_get_scalar|]. done.
  - apply Hq. unfold espos_config_get_i32. destruct out; cbn [negb]; [|apply wp_ret, cfg_quiet_refl, I]. wp_step. eapply wp_mono; [by apply quiet_get_scalar|]. done.
  - apply Hq. unfold espos_config_get_float. destruct out; cbn [negb]; [|apply wp_ret, cfg_quiet_refl, I]. wp_step. eapply wp_mono; [by apply quiet_get_scalar|]. done.
  - apply Hq. by apply quiet_get_str.
  - apply Hq. by apply quiet_get_blob.
  - apply Hq. by apply quiet_is_set.
  - apply Hq. by apply quiet_get_version.
  - apply Hq. apply (wp_find_ns good); [apply I|done].
  - apply Hq. unfold espos_config_ns_at, ns_at. destruct (_ <? _)%nat; [|by apply quiet_bracket].
    wp_step. apply (wp_lock good); [apply I|]. intros s1 Q1. wp_step. apply wp_ret. wp_step. apply (wp_unlock good); [apply Q1|].
    intros s2 Q2. apply wp_ret. exact (quiet_trans good _ _ _ Q1 Q2).
  - apply Hq. by apply quiet_bracket.
  - apply Hq. by apply quiet_bracket.
  - apply Hq. by apply quiet_bracket.
Qed.

Lemma inv_run ops s : good (m_world s) -> m_sm s = cfg_zero -> Forall op_wf ops ->
  store_inv (exec (run_ops ops) s).
Proof.
  intros G Hc Hw. assert (store_inv s) as I.
  { apply down_inv; rewrite ?Hc; try done; [|intros i; cbn [slot_get cfg_zero c_rt]; by rewrite nth_replicate_same].
    split; [done| |].
    - intros [i|i]; unfold slot_ok; cbn [slot_get cfg_zero c_rt c_ns]; [by destruct i|]. by rewrite nth_replicate_same.
    - intros i j d d'. cbn [slot_get cfg_zero c_rt]. by rewrite nth_replicate_same. }
  clear Hc G. revert s I. induction Hw as [|op ops Hop Hw IH]; intros s I; [exact I|]. cbn [ConfigLock.run_ops].
  change (wp (run_op op;; run_ops ops) (fun _ => store_inv) s). wp_step. eapply wp_mono; [by apply inv_op|]. intros u s' I'. by apply IH.
Qed.

(** C36. Over any sequence of calls with well-formed arguments, from power-on and
    with any backend that keeps its contract: the registered namespaces have
    distinct names, a store that is up holds for every one of them an open handle
    of exactly that namespace and its mutex, and a store that is down holds no
    handle at all. *)
Theorem config_inv_reachable ops s : good (m_world s) -> m_sm s = cfg_zero -> Forall op_wf ops ->
  store_inv (exec (run_ops ops) s).
Proof. apply inv_run. Qed.

(** * Setting and getting *)

(** What a successful set leaves: the key declared, the value acceptable and stored. *)
Lemma set_ok ns key val s s1 : store_inv s -> c_inited (m_sm s) = true -> wf_value val ->
  set_value be ev namespaces rt_desc ns key val s = (ESP_OK, s1) ->
  exists d kd, declared (m_sm s1) ns key = Some (d, kd) /\ valid kd val = true /\ store_inv s1 /\ c_inited (m_sm s1) = true /\
    norm (effective kd (view (m_world s1) (ref_name d) (key_name kd))) = norm val.
Proof.
  intros I Hin Hw E. pose proof (wp_set_value be ev good namespaces rt_desc names_distinct static_known ns key val s I Hin (fun _ _ => Hw)) as R.
  unfold wp in R. rewrite E in R. cbn [fst snd] in R. unfold set_result in R.
  destruct (declared (m_sm s) ns key) as [[d kd]|] eqn:D; [|by destruct R]. destruct (has_flag _ _); [by destruct R|].
  destruct (valid kd val) eqn:V; cbn [negb] in R; [|by destruct R]. destruct R as (R1 & R2 & R3 & R4). pose proof R1 as (E1 & _).
  exists d, kd. rewrite E1. split_and!; [done|done|exact (inv_data_only good _ _ _ _ R1 I)|done|]. rewrite R3 by done. by apply stored_image.
Qed.

(** The scalar getters pass on what [get_scalar] reads. *)
Lemma getter_run ns key t {A} (f : espos_cfg_value_t -> A) a s :
  let m := get_scalar be namespaces rt_desc ns key t in
  (m s).1.1 = ESP_OK -> f (m s).1.2 = a -> (r ← m; mret (written f r)) s = ((ESP_OK, Some a), (m s).2).
Proof.
  intros m H1 H2. unfold mbind, act_bind. destruct (m s) as [[e v] s2]. cbn in H1, H2 |- *. subst e a. done.
Qed.

Lemma norm_bool v b : norm v = norm (VBool b) -> v_b v = b.
Proof. destruct v; cbn; congruence. Qed.
Lemma norm_int v i : norm v = norm (VInt i) -> v_i v = i.
Proof. destruct v; cbn; congruence. Qed.
Lemma norm_float v f : norm v = norm (VFloat f) -> v_f v = f.
Proof. destruct v; cbn; congruence. Qed.

Definition blob_bytes (p : option (list Z)) (n : nat) : list Z := take n (str_of p).

(** What a setter stored, the getter of its type returns: the same boolean,
    integer or float bit for bit, the whole string and its length to a buffer
    that holds it with its NUL, the bytes of the blob to a buffer that holds them
    (the last two unless the allocation of the temporary fails). *)
Theorem config_set_get ns key val s s1 :
  store_inv s -> c_inited (m_sm s) = true -> wf_value val ->
  set_value be ev namespaces rt_desc ns key val s = (ESP_OK, s1) ->
  match val with
  | VBool b => (espos_config_get_bool be namespaces rt_desc ns key true s1).1 = (ESP_OK, Some b)
  | VInt i => (espos_config_get_i32 be namespaces rt_desc ns key true s1).1 = (ESP_OK, Some i)
  | VFloat f => (espos_config_get_float be namespaces rt_desc ns key true s1).1 = (ESP_OK, Some f)
  | VStr x => forall size, (length (str_of x) < size)%nat ->
      (espos_config_get_str be ev namespaces rt_desc ns key true size s1).1 = (ESP_OK, Some (str_of x), Some (length (str_of x))) \/
      (espos_config_get_str be ev namespaces rt_desc ns key true size s1).1 = (ESP_ERR_NO_MEM, None, None)
  | VBlob p n => forall cap, (n <= cap)%nat ->
      (espos_config_get_blob be ev namespaces rt_desc ns key true (Some cap) s1).1 = (ESP_OK, Some (blob_bytes p n), Some n) \/
      (espos_config_get_blob be ev namespaces rt_desc ns key true (Some cap) s1).1 = (ESP_ERR_NO_MEM, None, Some cap)
  | VOther _ => False
  end.
Proof.
  intros I Hin Hw E. destruct (set_ok ns key val s s1 I Hin Hw E) as (d & kd & D & V & I1 & Hin1 & Hv).
  pose proof (validate_type _ _ (proj1 (valid_none _ _) V)) as T.
  assert (forall t, t <> ESPOS_CFG_TYPE_STRING -> k_type kd = t -> (get_scalar be namespaces rt_desc ns key t s1).1.1 = ESP_OK /\
     norm (get_scalar be namespaces rt_desc ns key t s1).1.2 = norm val) as Hs.
  { intros t Ht Hk. destruct (wp_get_scalar be good namespaces rt_desc names_distinct static_known ns key t s1 I1 Hin1 Ht) as [_ R].
    rewrite D, bool_decide_true in R by done. destruct R as [R1 R2]. split; [done|congruence]. }
  destruct val as [b|i|f|x|p n|t]; cbn [v_type] in T.
  - destruct (Hs ESPOS_CFG_TYPE_BOOL) as [H1 H2]; [done|done|]. apply norm_bool in H2. unfold espos_config_get_bool. cbn [negb].
    by rewrite (getter_run _ _ _ _ _ _ H1 H2).
  - destruct (Hs ESPOS_CFG_TYPE_INT) as [H1 H2]; [done|done|]. apply norm_int in H2. unfold espos_config_get_i32. cbn [negb].
    by rewrite (getter_run _ _ _ _ _ _ H1 H2).
  - destruct (Hs ESPOS_CFG_TYPE_FLOAT) as [H1 H2]; [done|done|]. apply norm_float in H2. unfold espos_config_get_float. cbn [negb].
    by rewrite (getter_run _ _ _ _ _ _ H1 H2).
  - intros size Hsz. destruct (wp_get_str be ev good namespaces rt_desc names_distinct static_known ns key size s1 I1 Hin1 ltac:(lia)) as [_ R].
    rewrite D, bool_decide_true in R by done.
    assert (v_s (effective kd (view (m_world s1) (ref_name d) (key_name kd))) = x) as Hx by (destruct (effective kd _); cbn [norm v_s] in *; congruence).
    rewrite Hx in R. destruct R as [R|R]; [by right|left]. rewrite R. destruct (Nat.leb_spec size (length (str_of x))); [lia|].
    by rewrite take_ge by lia.
  - intros cap Hc. destruct (wp_get_blob be ev good namespaces rt_desc names_distinct static_known ns key cap s1 I1 Hin1) as [_ R].
    rewrite D, bool_decide_true in R by done. destruct (effective kd _) as [| | | |q m|]; cbn [norm] in Hv; try discriminate Hv.
    injection Hv as H1 H2. subst m. cbn [v_len v_p] in R. destruct R as [R|R]; [by right|left]. rewrite R.
    destruct (Nat.ltb_spec cap n); [lia|]. unfold blob_bytes. by rewrite <- H1.
  - apply valid_none in V. unfold espos_config_validate in V. by case_bool_decide.
Qed.

(** C3. A set changes exactly what it says. When the key is not declared, is
    read-only or the value is not acceptable, the error says which and neither
    the storage nor a subscriber sees anything. Otherwise no other key of any
    namespace reads differently, and the subscribers are called, each once and in
    the order of the table, if and only if the call succeeds and the effective
    value is another one than before. *)
Theorem config_set_exact ns key val s e s1 :
  store_inv s -> c_inited (m_sm s) = true -> wf_value val ->
  set_value be ev namespaces rt_desc ns key val s = (e, s1) ->
  let refused err := e = err /\ (forall n k, view (m_world s1) n k = view (m_world s) n k) /\ notes (m_trace s1) = notes (m_trace s) in
  match declared (m_sm s) ns key with
  | None => refused ESP_ERR_NOT_FOUND
  | Some (d, kd) =>
      if has_flag (k_flags kd) ESPOS_CFG_FLAG_READ_ONLY then refused ESP_ERR_NOT_SUPPORTED else
      if negb (valid kd val) then refused ESP_ERR_INVALID_ARG else
      (forall n kd', (n, key_name kd') <> (ref_name d, key_name kd) ->
         effective kd' (view (m_world s1) n (key_name kd')) = effective kd' (view (m_world s) n (key_name kd'))) /\
      notes (m_trace s1) =
        (if is_ok e && negb (value_eqb (k_type kd) (effective kd (view (m_world s) (ref_name d) (key_name kd))) val)
         then rev (callbacks namespaces rt_desc (m_sm s) d kd) else []) ++ notes (m_trace s)
  end.
Proof.
  intros I Hin Hw E refused.
  pose proof (wp_set_value be ev good namespaces rt_desc names_distinct static_known ns key val s I Hin (fun _ _ => Hw)) as R.
  unfold wp in R. rewrite E in R. cbn [fst snd] in R. unfold set_result in R.
  assert (forall err, e = err /\ quiet s s1 -> refused err) as Hr.
  { intros err [-> (_ & _ & [V _] & N)]. split_and!; [done|by intros; rewrite V|done]. }
  destruct (declared (m_sm s) ns key) as [[d kd]|]; [|by apply Hr]. destruct (has_flag _ _); [by apply Hr|].
  destruct (negb _); [by apply Hr|]. destruct R as (_ & [R2 _] & _ & R4). split; [|done]. intros n kd' Hn. by rewrite R2.
Qed.

(** A factory reset that succeeds leaves the store up with every declared
    key of every namespace, built-in or registered, at its default; one that
    fails leaves the store down. *)
Theorem config_factory_reset_defaults s e s1 :
  store_inv s -> c_inited (m_sm s) = true ->
  espos_config_factory_reset be ev namespaces rt_desc s = (e, s1) ->
  c_inited (m_sm s1) = is_ok e /\
  (e = ESP_OK -> forall ns key d kd, declared (m_sm s1) ns key = Some (d, kd) -> key_name kd <> ESPOS_CFG_VERSION_KEY ->
     effective kd (view (m_world s1) (ref_name d) (key_name kd)) = default_read kd).
Proof.
  intros I Hin E. pose proof (wp_factory_reset be ev good namespaces rt_desc names_distinct s I) as R.
  unfold wp in R. rewrite E, Hin in R. destruct R as (_ & R1 & R2). cbn [fst snd] in *. split.
  - destruct (is_ok e) eqn:Eo; [apply is_ok_true in Eo; by apply R1|]. apply is_ok_false in Eo. destruct (c_inited (m_sm s1)); [|done]. by destruct Eo; apply R1.
  - intros Eo ns key d kd _ Hk. unfold effective. by rewrite R2.
Qed.

(** A validated plan is applied entry by entry: only what the plan names
    changes, an error does not stop the others, and without error every entry is
    in place that no later one overrides. The changed indices are strictly
    increasing and within the plan, a restart is asked for exactly if one of them
    is of a key flagged so, and the callbacks run after all writes, for the changed
    entries in the order of the plan. *)
Theorem config_plan_exact plan s err idx rst s1 :
  store_inv s -> c_inited (m_sm s) = true -> Forall wf_entry_of_plan plan ->
  espos_config_apply_plan be ev namespaces rt_desc plan s = (err, idx, rst, s1) ->
  (forall ns k, (ns, k) ∉ map (target namespaces rt_desc) plan -> view (m_world s1) ns k = view (m_world s) ns k) /\
  (err = ESP_OK -> forall pre p post, plan = pre ++ p :: post -> target namespaces rt_desc p ∉ map (target namespaces rt_desc) post ->
     view (m_world s1) (ref_name (pe_ns p)) (key_name (pe_key p)) = planned p) /\
  Forall (fun n => n < length plan)%nat idx /\ StronglySorted lt idx /\
  rst = existsb (fun n => match plan !! n with Some p => restarts p | None => false end) idx /\
  notes (m_trace s1) = rev (flat_map (plan_callbacks namespaces rt_desc (m_sm s) plan) idx) ++ notes (m_trace s).
Proof.
  intros I Hin Hw E. pose proof (wp_apply_plan be ev good namespaces rt_desc names_distinct plan s I Hin Hw) as R.
  unfold wp in R. rewrite E in R. cbn [fst snd] in R. by destruct R as (_ & R).
Qed.

(** * Migrations *)

(** The migration callbacks of a trace (most recent event first), in the order they ran. *)
Definition migs (tr : list obs) : list (Z * esp_err_t) :=
  rev (omap (fun o => match o with OMigrate _ v e => Some (v, e) | _ => None end) tr).

(** A stamp could not be written or committed. *)
Definition stamp_failed (tr : list obs) : bool :=
  existsb (fun o => match o with OSet _ _ e | OCommit _ e => negb (is_ok e) | _ => false end) tr.

(** The versions from [v] on, [n] of them, for which a step is registered, each run with success. *)
Definition steps (c : cfg) (name : cstr) (v : Z) (n : nat) : list (Z * esp_err_t) :=
  map (fun u => (u, ESP_OK)) (List.filter (fun u => existsb (is_step name u) (c_migrations c)) (map (fun i => v + Z.of_nat i) (seq 0 n))).

Lemma steps_S c name v n :
  steps c name v (S n) = (if existsb (is_step name v) (c_migrations c) then [(v, ESP_OK)] else []) ++ steps c name (v + 1) n.
Proof.
  unfold steps. cbn [seq map]. rewrite Z.add_0_r, <- seq_shift, map_map. cbn [List.filter].
  rewrite (map_ext (fun i => v + Z.of_nat (S i)) (fun i => v + 1 + Z.of_nat i)) by lia. by destruct (existsb _ _).
Qed.

(** How a chain that starts at [v] and should reach [ver] can end, after [k] steps. *)
Definition chain_end (c : cfg) (name : cstr) (v ver : Z) (k : nat) (stamp : esp_err_t + Z) (tr : list obs) : Prop :=
  (v + Z.of_nat k = ver /\ migs tr = steps c name v k /\ stamp = inr ver) \/
  (v + Z.of_nat k < ver /\ existsb (is_step name (v + Z.of_nat k)) (c_migrations c) = true /\
     (exists e, e <> ESP_OK /\ migs tr = steps c name v k ++ [(v + Z.of_nat k, e)]) /\ stamp = inr (v + Z.of_nat k)) \/
  (v + Z.of_nat k < ver /\ migs tr = steps c name v (S k) /\ stamp_failed tr = true).

Context (migrate_keeps_stamp : forall w fn ctx arg ns, view (e_migrate ev fn ctx arg w).2 ns ESPOS_CFG_VERSION_KEY = view w ns ESPOS_CFG_VERSION_KEY).

Lemma migs_app t1 t2 : migs (t1 ++ t2) = migs t2 ++ migs t1.
Proof. unfold migs. by rewrite omap_app, rev_app_distr. Qed.

(** Writing a stamp: no migration runs, and it is in place or the failure shows. *)
Lemma wp_stamp r ns v s : good (m_world s) -> handle_ok s r ns ->
  wp (write_version be r v) (fun e s' => touched good ns s s' /\ exists tr, m_trace s' = tr ++ m_trace s /\ migs tr = [] /\
    (e = ESP_OK -> view (m_world s') ns ESPOS_CFG_VERSION_KEY = Some (ESPOS_CFG_TYPE_INT, bytes32 (u32 v))) /\
    stamp_failed tr = negb (is_ok e)) s.
Proof.
  intros G Hh. apply wp_and.
  { apply (wp_write_version be good r ns); [done|done|]. intros e s' W1 _. by eapply wrote_touched. }
  apply (wp_mono _ (fun e s' => (e = ESP_OK -> view (m_world s') ns ESPOS_CFG_VERSION_KEY = Some (ESPOS_CFG_TYPE_INT, bytes32 (u32 v))) /\
    exists tr, m_trace s' = tr ++ m_trace s /\ migs tr = [] /\ stamp_failed tr = negb (is_ok e))).
  2:{ intros e s' (H1 & tr & H2 & H3 & H4). exists tr. by split_and!. }
  apply wp_and; [by apply (wp_write_version be good r ns)|]. unfold write_version. wp_step. apply wp_gets. wp_step. apply wp_call. intros e w.
  destruct (is_ok e) eqn:E.
  - apply wp_call. intros e2 w2. eexists [_; _]. split_and!; [done|done|]. cbn. rewrite E, orb_false_r. done.
  - apply wp_ret. eexists [_]. split_and!; [done|done|]. cbn. by rewrite E.
Qed.

Lemma wp_chain fuel r ns name v ver s : good (m_world s) -> handle_ok s r ns -> 0 <= v -> ver <= 65535 -> v + Z.of_nat fuel = ver ->
  version_of (view (m_world s) ns ESPOS_CFG_VERSION_KEY) = inr v ->
  wp (migrate_loop be ev fuel r name v) (fun _ s' => exists k tr, m_trace s' = tr ++ m_trace s /\
    chain_end (m_sm s) name v ver k (version_of (view (m_world s') ns ESPOS_CFG_VERSION_KEY)) tr) s.
Proof.
  revert v s. induction fuel as [|fuel IH]; intros v s G Hh Hv Hver Hf Hst; cbn [migrate_loop].
  { apply wp_ret. exists 0%nat, []. split; [done|]. left. split_and!; [lia|done|]. rewrite Hst. f_equal. lia. }
  assert (u16 (v + 1) = v + 1) as -> by (apply Z.mod_small; lia).
  wp_step. apply wp_gets.
  assert (List.find (is_step name v) (c_migrations (m_sm s)) <> None <-> existsb (is_step name v) (c_migrations (m_sm s)) = true) as Hfind.
  { induction (c_migrations (m_sm s)) as [|m l IHl]; cbn; [done|]. by destruct (is_step name v m). }
  (* the stamp and the rest of the chain, after a step that went well *)
  assert (forall s1 tr1, touched good ns s s1 -> version_of (view (m_world s1) ns ESPOS_CFG_VERSION_KEY) = inr v -> m_trace s1 = tr1 ++ m_trace s ->
    migs tr1 = (if existsb (is_step name v) (c_migrations (m_sm s)) then [(v, ESP_OK)] else []) ->
    wp (err ← write_version be r (v + 1); if negb (is_ok err) then mret tt else migrate_loop be ev fuel r name (v + 1))
      (fun _ s' => exists k tr, m_trace s' = tr ++ m_trace s /\
         chain_end (m_sm s) name v ver k (version_of (view (m_world s') ns ESPOS_CFG_VERSION_KEY)) tr) s1) as Hrest.
  { intros s1 tr1 T1 V1 E1 M1. pose proof T1 as (C1 & G1 & _). wp_step. eapply wp_mono.
    { apply (wp_stamp r ns); [done|]. eapply (handle_ok_data good); [by eapply touched_data|done]. }
    intros e s2 (T2 & tr2 & E2 & M2 & V2 & F2). pose proof (touched_trans good _ _ _ _ T1 T2) as T3. destruct (is_ok e) eqn:E; cbn [negb].
    - apply is_ok_true in E. specialize (V2 E). pose proof T3 as (C3 & G3 & _). eapply wp_mono.
      { apply IH; [done|eapply (handle_ok_data good); [by eapply touched_data|done]|lia|done|lia|]. rewrite V2. apply version_of_stamp. lia. }
      intros u s4 (k & tr & E4 & H4). exists (S k), (tr ++ tr2 ++ tr1). split; [by rewrite E4, E2, E1, <- !app_assoc|].
      assert (migs (tr ++ tr2 ++ tr1) = (if existsb (is_step name v) (c_migrations (m_sm s)) then [(v, ESP_OK)] else []) ++ migs tr) as HM.
      { by rewrite !migs_app, M1, M2, app_nil_r. }
      rewrite C3 in H4. unfold chain_end in *. rewrite HM. replace (v + Z.of_nat (S k)) with (v + 1 + Z.of_nat k) by lia. rewrite !steps_S.
      destruct H4 as [(H5 & H6 & H7)|[(H5 & H6 & (e' & He' & H7) & H8)|(H5 & H6 & H7)]].
      + left. split_and!; [done|by rewrite H6|done].
      + right. left. split_and!; [done|done| |done]. exists e'. split; [done|]. by rewrite H7, app_assoc.
      + right. right. split_and!; [done|by rewrite H6, steps_S|]. unfold stamp_failed in *. by rewrite existsb_app, H7.
    - apply wp_ret. exists 0%nat, (tr2 ++ tr1). split; [by rewrite E2, E1, <- app_assoc|]. right. right. split_and!; [lia| |].
      + by rewrite migs_app, M1, M2, app_nil_r, steps_S, app_nil_r.
      + unfold stamp_failed in *. by rewrite existsb_app, F2. }
  wp_step. destruct (List.find (is_step name v) (c_migrations (m_sm s))) as [m|].
  - assert (existsb (is_step name v) (c_migrations (m_sm s)) = true) as Hreg by (by apply Hfind). rewrite Hreg in *.
    wp_step. apply wp_gets. eapply (wp_migrate_cb ev good); [done|exact Hh|]. intros e s1 T1 E1 W1.
    assert (version_of (view (m_world s1) ns ESPOS_CFG_VERSION_KEY) = inr v) as V1.
    { rewrite <- Hst. f_equal. rewrite <- (migrate_keeps_stamp (m_world s) (mg_fn m) (MigrateCtx (st_h (slot_get (m_sm s) r)) v) (mg_arg m)). by rewrite <- W1. }
    destruct (is_ok e) eqn:E; cbn [negb].
    + apply is_ok_true in E. subst e. by apply (Hrest s1 [OMigrate name v ESP_OK]).
    + apply is_ok_false in E. apply wp_ret. exists 0%nat, [OMigrate name v e]. split; [done|]. right. left. rewrite Z.add_0_r. split_and!; [lia|done| |done].
      by exists e.
  - assert (existsb (is_step name v) (c_migrations (m_sm s)) = false) as Hreg by (destruct (existsb _ _); [by destruct (proj2 Hfind)|done]). rewrite Hreg in *.
    apply wp_ret. rewrite (proj2 (is_ok_true _) eq_refl). cbn [negb]. apply (Hrest s []); [by apply touched_refl|done|done|done].
Qed.

(** When a namespace is opened whose stored stamp [v] is below the version of
    its descriptor, the registered steps run in the order of the versions, each
    at most once. The chain ends in one of three ways: at the current version, with its stamp
    stored; at the first step that fails, with the stamp of that step's version
    and no later step run; or at the first stamp that cannot be written. *)
Theorem config_migration_chain r nd v s s' :
  good (m_world s) -> handle_ok s r (ref_name nd) -> st_desc (slot_get (m_sm s) r) = Some nd ->
  version_of (view (m_world s) (ref_name nd) ESPOS_CFG_VERSION_KEY) = inr v ->
  0 <= v < ns_version (deref nd) -> ns_version (deref nd) <= 65535 ->
  s' = exec (migrate_ns be ev namespaces rt_desc r) s ->
  exists k tr, migs (m_trace s') = migs (m_trace s) ++ migs tr /\
    chain_end (m_sm s) (ref_name nd) v (ns_version (deref nd)) k (version_of (view (m_world s') (ref_name nd) ESPOS_CFG_VERSION_KEY)) tr.
Proof.
  intros G Hh Hd Hv Hlt Hver ->.
  apply (proj1 (wp_exec _ (fun s' => exists k tr, migs (m_trace s') = migs (m_trace s) ++ migs tr /\
    chain_end (m_sm s) (ref_name nd) v (ns_version (deref nd)) k (version_of (view (m_world s') (ref_name nd) ESPOS_CFG_VERSION_KEY)) tr) _)).
  unfold migrate_ns, nss_nd. do 2 wp_step. apply wp_gets. rewrite Hd. apply wp_ret. cbn [default from_option id]. wp_step.
  apply (wp_mono _ (fun x s1 => x = inr v /\ quiet s s1 /\ migs (m_trace s1) = migs (m_trace s))).
  { apply (wp_mono _ (fun x s1 => (x = inr v /\ quiet s s1) /\ migs (m_trace s1) = migs (m_trace s))); [|intros x s1 [[? ?] ?]; by split_and!].
    apply wp_and; [apply (wp_read_version be good r (ref_name nd)); [done|done|]; intros s1 Q1; by rewrite Hv|].
    unfold read_version. wp_step. apply wp_gets. wp_step. apply wp_call. intros [[e d] n] w. wp_step; [by apply wp_ret|]. wp_step; by apply wp_ret. }
  intros x s1 (-> & Q1 & M1). pose proof Q1 as (E1 & G1 & [V1 H1] & _).
  destruct (Z.eqb_spec v (ns_version (deref nd))); [lia|]. destruct (Z.ltb_spec (ns_version (deref nd)) v); [lia|].
  eapply wp_mono; [apply (wp_chain _ r (ref_name nd) (ref_name nd) v (ns_version (deref nd))); [done| |lia|done|lia|by rewrite <- V1]|].
  { eapply (handle_ok_data good); [by eapply quiet_data|done]. }
  intros u s2 (k & tr & E2 & H2). exists k, tr. rewrite E1 in H2. split; [|done]. by rewrite E2, migs_app, M1.
Qed.
End Props.

(** * An example store

    One built-in namespace over the in-memory backend, whose allocations all
    succeed; the migration callback does nothing. *)

Definition ex_env : env espos_config_mem :=
  Env _ (fun _ m => (true, m)) (fun _ _ => 0) (fun m => (true, m)) (fun _ _ _ m => (ESP_OK, m)).

#[export] Instance ex_env_laws : EnvLaws ex_env mem_good.
Proof. by split; cbn; intros; split_and!. Qed.

Definition no_scalar : espos_cfg_scalar_t := Scalar false 0 0 None.
Definition ex_int (i : Z) : espos_cfg_scalar_t := Scalar false i 0 None.

Definition ex_port : espos_cfg_key_t :=
  Key (Some (lit "port")) ESPOS_CFG_TYPE_INT ESPOS_CFG_FLAG_RESTART_REQUIRED (ex_int 80) (ex_int 1) (ex_int 65535) true true 0 None.
Definition ex_host : espos_cfg_key_t :=
  Key (Some (lit "host")) ESPOS_CFG_TYPE_STRING 0 (Scalar false 0 0 (Some (lit "espos"))) no_scalar no_scalar false false 8 None.

Definition ex_namespaces : list espos_cfg_ns_t := [Ns (Some (lit "net")) (Some (lit "Network")) 3 (Some [ex_port; ex_host])].

(** Descriptors at other addresses: at 1 a filter node whose default is out of its range. *)
Definition ex_gain : espos_cfg_key_t :=
  Key (Some (lit "gain")) ESPOS_CFG_TYPE_INT 0 (ex_int 99) (ex_int 0) (ex_int 9) true true 0 None.
Definition ex_rt (a : Z) : espos_cfg_ns_t :=
  if a =? 1 then Ns (Some (lit "f_cal")) (Some (lit "Cal")) 1 (Some [ex_gain]) else null_ns.

Definition ex_start : mach cfg espos_config_mem obs := Mach cfg_zero (espos_config_mem_create (fun _ => true) 0) [].

Definition ex_run (ops : list config_op) : mach cfg espos_config_mem obs -> mach cfg espos_config_mem obs :=
  exec (run_ops k_mem_backend ex_env ex_namespaces ex_rt ops).

Lemma ex_names : NoDup (map desc_name ex_namespaces).
Proof. by apply (bool_decide_unpack _). Defined.

Lemma ex_known : Forall known_keys ex_namespaces.
Proof. repeat constructor. Defined.

Lemma ex_start_good : mem_good (m_world ex_start).
Proof. by split; cbn; try constructor. Defined.

(** The store after it came up, with a subscriber. *)
Definition ex_up := ex_run [OpInit true; OpSubscribe 7 1; OpRegister (Some (Runtime 1))] ex_start.

Lemma ex_up_inv : store_inv mem_good ex_namespaces ex_rt ex_up.
Proof. apply (inv_run k_mem_backend ex_env mem_good ex_namespaces ex_rt ex_names ex_known); [exact ex_start_good|done|repeat constructor]. Defined.

Lemma config_lock_discipline_witness :
  held (m_trace (ex_run [OpInit true; OpSubscribe 7 1; OpSetI32 (Some (lit "net")) (Some (lit "port")) 8080; OpDeinit] ex_start)) = Some false.
Proof. by apply (config_lock_discipline k_mem_backend ex_env ex_namespaces ex_rt). Defined.

Lemma config_inv_reachable_witness :
  store_inv mem_good ex_namespaces ex_rt (ex_run [OpInit true; OpRegister (Some (Runtime 1)); OpFactoryReset] ex_start).
Proof.
  apply (config_inv_reachable k_mem_backend ex_env mem_good ex_namespaces ex_rt ex_names ex_known); [exact ex_start_good|done|repeat constructor].
Defined.

(** A set of the port on the example store, and the state after it. *)
#[local] Abbreviation ex_set v := (set_value k_mem_backend ex_env ex_namespaces ex_rt (Some (lit "net")) (Some (lit "port")) v ex_up).

Lemma pair_eq {A B} (p : A * B) a : p.1 = a -> p = (a, p.2).
Proof. intros <-. apply surjective_pairing. Defined.

Lemma config_set_get_witness :
  (espos_config_get_i32 k_mem_backend ex_namespaces ex_rt (Some (lit "net")) (Some (lit "port")) true (ex_set (VInt 8080)).2).1
  = (ESP_OK, Some 8080).
Proof.
  apply (config_set_get k_mem_backend ex_env mem_good ex_namespaces ex_rt ex_names ex_known
           (Some (lit "net")) (Some (lit "port")) (VInt 8080) ex_up (ex_set (VInt 8080)).2 ex_up_inv).
  - vm_compute. reflexivity.
  - cbn. lia.
  - apply pair_eq. vm_compute. reflexivity.
Defined.

Lemma config_set_exact_witness :
  (ex_set (VInt 0)).1 = ESP_ERR_INVALID_ARG /\ notes (m_trace (ex_set (VInt 0)).2) = notes (m_trace ex_up).
Proof.
  assert ((ex_set (VInt 0)).1 = ESP_ERR_INVALID_ARG) as E by (vm_compute; reflexivity).
  pose proof (config_set_exact k_mem_backend ex_env mem_good ex_namespaces ex_rt ex_names ex_known
    (Some (lit "net")) (Some (lit "port")) (VInt 0) ex_up ESP_ERR_INVALID_ARG _ ex_up_inv ltac:(vm_compute; reflexivity) ltac:(cbn; lia)
    (pair_eq _ _ E)) as R.
  assert (declared ex_namespaces ex_rt (m_sm ex_up) (Some (lit "net")) (Some (lit "port")) = Some (Static 0, ex_port)) as D by (vm_compute; reflexivity).
  rewrite D in R. cbn [has_flag] in R. change (has_flag (k_flags ex_port) ESPOS_CFG_FLAG_READ_ONLY) with false in R.
  assert (valid ex_port (VInt 0) = false) as V by (vm_compute; reflexivity). rewrite V in R. cbn [negb] in R. destruct R as (_ & _ & R2). exact (conj E R2).
Defined.

Lemma config_factory_reset_defaults_witness :
  let r := espos_config_factory_reset k_mem_backend ex_env ex_namespaces ex_rt ex_up in
  c_inited (m_sm r.2) = is_ok r.1.
Proof.
  intros r. apply (config_factory_reset_defaults k_mem_backend ex_env mem_good ex_namespaces ex_rt ex_names ex_up r.1 r.2 ex_up_inv).
  - vm_compute. reflexivity.
  - apply surjective_pairing.
Defined.

Definition ex_plan : list espos_config_plan_entry_t :=
  [PlanEntry (Static 0) ex_port false (VInt 81); PlanEntry (Static 0) ex_host true (VStr None)].

Lemma config_plan_exact_witness :
  let r := espos_config_apply_plan k_mem_backend ex_env ex_namespaces ex_rt ex_plan ex_up in
  StronglySorted lt r.1.1.2.
Proof.
  intros r. eapply (config_plan_exact k_mem_backend ex_env mem_good ex_namespaces ex_rt ex_names ex_plan ex_up r.1.1.1 r.1.1.2 r.1.2 r.2 ex_up_inv).
  - vm_compute. reflexivity.
  - repeat constructor; try done; vm_compute; discriminate || reflexivity.
  - unfold r. by destruct (espos_config_apply_plan _ _ _ _ _ _) as [[[? ?] ?] ?].
Defined.

(** A store stamped with version 1 of the namespace, one step registered. *)
Definition ex_stamp_mem : espos_config_mem :=
  (espos_config_mem_plant (lit "net") ESPOS_CFG_VERSION_KEY ESPOS_CFG_TYPE_INT (bytes32 1) 4 (espos_config_mem_create (fun _ => true) 0)).2.
Definition ex_old : mach cfg espos_config_mem obs :=
  Mach (Cfg [NsState (Some (Static 0)) 1] 1 true false false [Migration (lit "net") 2 5 0] [] [] 0) ex_stamp_mem [].

Lemma config_migration_chain_witness : exists k tr,
  migs (m_trace (exec (migrate_ns k_mem_backend ex_env ex_namespaces ex_rt (SNs 0)) ex_old)) = [] ++ migs tr /\
  chain_end (m_sm ex_old) (lit "net") 1 3 k
    (version_of (view (m_world (exec (migrate_ns k_mem_backend ex_env ex_namespaces ex_rt (SNs 0)) ex_old)) (lit "net") ESPOS_CFG_VERSION_KEY)) tr.
Proof.
  apply (config_migration_chain k_mem_backend ex_env mem_good ex_namespaces ex_rt (fun _ _ _ _ _ => eq_refl) (SNs 0) (Static 0) 1 ex_old _).
  - split; cbn; repeat constructor; try done; by apply (bool_decide_unpack _).
  - reflexivity.
  - reflexivity.
  - reflexivity.
  - cbn. lia.
  - cbn. lia.
  - reflexivity.
Defined.

(** The registration of a namespace at run time does not check the defaults
    of its keys: a descriptor with an integer default outside its own range is
    accepted, its key then reads a value that the validation refuses, and setting
    the key to the value it reads is an error. *)
Theorem config_runtime_default_unchecked :
  valid ex_gain (default_value ex_gain) = false /\
  (espos_config_get_i32 k_mem_backend ex_namespaces ex_rt (Some (lit "f_cal")) (Some (lit "gain")) true ex_up).1 = (ESP_OK, Some 99) /\
  (espos_config_set_i32 k_mem_backend ex_env ex_namespaces ex_rt (Some (lit "f_cal")) (Some (lit "gain")) 99 ex_up).1 = ESP_ERR_INVALID_ARG.
Proof. vm_compute. done. Qed.
