(* ===== verification/ConfigNvs.v ===== *)
(** The NVS backend of the configuration store (backend_nvs.c), and the proof
    that it keeps the contract of a backend over any flash storage library that
    behaves as documented. The library (nvs.h, nvs_flash.h of ESP-IDF) is a
    record of functions; what the code relies on is the class [NvsLaws]. *)
From Stdlib Require Import ZArith Lia String.
From stdpp Require Import base numbers list.
From S2P Require Import Prelude ConfigDesc ConfigStore ConfigLaws ConfigSpec.
Open Scope Z_scope.

(** * The library *)

Definition ESP_ERR_NVS_NOT_INITIALIZED : esp_err_t := ESP_ERR_OTHER 0x1101.
Definition ESP_ERR_NVS_NOT_FOUND : esp_err_t := ESP_ERR_OTHER 0x1102.
Definition ESP_ERR_NVS_TYPE_MISMATCH : esp_err_t := ESP_ERR_OTHER 0x1103.
Definition ESP_ERR_NVS_NOT_ENOUGH_SPACE : esp_err_t := ESP_ERR_OTHER 0x1105.
Definition ESP_ERR_NVS_INVALID_LENGTH : esp_err_t := ESP_ERR_OTHER 0x110c.
Definition ESP_ERR_NVS_NO_FREE_PAGES : esp_err_t := ESP_ERR_OTHER 0x110d.
Definition ESP_ERR_NVS_VALUE_TOO_LONG : esp_err_t := ESP_ERR_OTHER 0x110e.
Definition ESP_ERR_NVS_NEW_VERSION_FOUND : esp_err_t := ESP_ERR_OTHER 0x1110.
Definition ESP_ERR_NVS_CORRUPT_KEY_PART : esp_err_t := ESP_ERR_OTHER 0x1117.

(** A stored item has the type of the call that set it. *)
Inductive nvs_item := NvsU8 (u : Z) | NvsI32 (i : Z) | NvsU32 (u : Z) | NvsStr (s : cstr) | NvsBlob (b : list Z).

Record nvs (W : Type) := Nvs {
  nvs_flash_init_partition : cstr -> W -> esp_err_t * W;
  nvs_flash_deinit_partition : cstr -> W -> esp_err_t * W;
  nvs_flash_erase_partition : cstr -> W -> esp_err_t * W;
  nvs_open_from_partition : cstr -> cstr -> W -> (esp_err_t * Z) * W;
  nvs_close : Z -> W -> unit * W;
  nvs_get_u8 : Z -> cstr -> W -> (esp_err_t * Z) * W;
  nvs_get_i32 : Z -> cstr -> W -> (esp_err_t * Z) * W;
  nvs_get_u32 : Z -> cstr -> W -> (esp_err_t * Z) * W;
  nvs_get_str : Z -> cstr -> bool -> nat -> W -> (esp_err_t * list Z * nat) * W;
  nvs_get_blob : Z -> cstr -> bool -> nat -> W -> (esp_err_t * list Z * nat) * W;
  nvs_set : Z -> cstr -> nvs_item -> W -> esp_err_t * W;
  nvs_erase_key : Z -> cstr -> W -> esp_err_t * W;
  nvs_erase_all : Z -> W -> esp_err_t * W;
  nvs_commit : Z -> W -> esp_err_t * W }.
Arguments nvs_flash_init_partition {W} _ _ _.
Arguments nvs_flash_deinit_partition {W} _ _ _.
Arguments nvs_flash_erase_partition {W} _ _ _.
Arguments nvs_open_from_partition {W} _ _ _ _.
Arguments nvs_close {W} _ _ _.
Arguments nvs_get_u8 {W} _ _ _ _.
Arguments nvs_get_i32 {W} _ _ _ _.
Arguments nvs_get_u32 {W} _ _ _ _.
Arguments nvs_get_str {W} _ _ _ _ _ _.
Arguments nvs_get_blob {W} _ _ _ _ _ _.
Arguments nvs_set {W} _ _ _ _ _.
Arguments nvs_erase_key {W} _ _ _ _.
Arguments nvs_erase_all {W} _ _ _.
Arguments nvs_commit {W} _ _ _.

(** * The backend *)

Section Backend.
Context {W : Type} (N : nvs W) (ctx : option cstr).

Definition CONFIG_ESPOS_CONFIG_NVS_PARTITION : cstr := lit "nvs".

Definition part_label : cstr := default CONFIG_ESPOS_CONFIG_NVS_PARTITION ctx.

Definition map_err (e : esp_err_t) : esp_err_t :=
  if bool_decide (e = ESP_OK) then ESP_OK else
  if bool_decide (e = ESP_ERR_NVS_NOT_FOUND) then ESP_ERR_NOT_FOUND else
  if bool_decide (e = ESP_ERR_NVS_TYPE_MISMATCH) then ESP_ERR_INVALID_STATE else
  if bool_decide (e = ESP_ERR_NVS_INVALID_LENGTH) || bool_decide (e = ESP_ERR_NVS_VALUE_TOO_LONG) then ESP_ERR_INVALID_SIZE else
  if bool_decide (e = ESP_ERR_NVS_NOT_ENOUGH_SPACE) then ESP_ERR_NO_MEM else ESP_FAIL.

Definition unusable (e : esp_err_t) : bool :=
  bool_decide (e = ESP_ERR_NVS_NO_FREE_PAGES) || bool_decide (e = ESP_ERR_NVS_NEW_VERSION_FOUND) ||
  bool_decide (e = ESP_ERR_NVS_CORRUPT_KEY_PART).

Definition nvs_be_init (w : W) : (esp_err_t * bool) * W :=
  let '(err, w) := nvs_flash_init_partition N part_label w in
  if unusable err then
    let '(e2, w) := nvs_flash_erase_partition N part_label w in
    if negb (is_ok e2) then ((e2, false), w) else
    let '(err, w) := nvs_flash_init_partition N part_label w in
    ((err, is_ok err), w)
  else ((err, false), w).

Definition nvs_be_open (ns : cstr) (w : W) : (esp_err_t * Z) * W :=
  let '((err, h), w) := nvs_open_from_partition N part_label ns w in
  if negb (is_ok err) then ((map_err err, 0), w) else ((ESP_OK, h), w).

Definition nvs_be_close (h : Z) (w : W) : unit * W := nvs_close N h w.

(** A scalar of [n] bytes, whose bytes are those of the value. *)
Definition get_number (n len : nat) (bytes : Z -> list Z) (r : (esp_err_t * Z) * W) (w : W)
  : (esp_err_t * list Z * nat) * W :=
  if (len <? n)%nat then ((ESP_ERR_INVALID_SIZE, [], len), w) else
  let '((err, v), w') := r in
  if is_ok err then ((map_err err, bytes v, n), w') else ((map_err err, [], len), w').

Definition nvs_be_get (h : Z) (key : cstr) (t : espos_cfg_type_t) (buf : bool) (len : nat) (w : W)
  : (esp_err_t * list Z * nat) * W :=
  match t with
  | ESPOS_CFG_TYPE_BOOL => get_number 1 len (fun u => [u]) (nvs_get_u8 N h key w) w
  | ESPOS_CFG_TYPE_INT => get_number 4 len (fun i => bytes32 (u32 i)) (nvs_get_i32 N h key w) w
  | ESPOS_CFG_TYPE_FLOAT => get_number 4 len bytes32 (nvs_get_u32 N h key w) w
  | ESPOS_CFG_TYPE_STRING =>
      let '((err, d, n), w) := nvs_get_str N h key buf len w in ((map_err err, d, n), w)
  | ESPOS_CFG_TYPE_BLOB =>
      let '((err, d, n), w) := nvs_get_blob N h key buf len w in ((map_err err, d, n), w)
  | TYPE_OTHER _ => ((ESP_ERR_INVALID_ARG, [], len), w)
  end.

Definition nvs_raw_set (h : Z) (key : cstr) (t : espos_cfg_type_t) (buf : list Z) (len : nat) (w : W) : esp_err_t * W :=
  match t with
  | ESPOS_CFG_TYPE_BOOL => nvs_set N h key (NvsU8 (if nth 0 buf 0 =? 0 then 0 else 1)) w
  | ESPOS_CFG_TYPE_INT => nvs_set N h key (NvsI32 (i32 (get32 buf))) w
  | ESPOS_CFG_TYPE_FLOAT => nvs_set N h key (NvsU32 (get32 buf)) w
  | ESPOS_CFG_TYPE_STRING => nvs_set N h key (NvsStr (c_string buf)) w
  | ESPOS_CFG_TYPE_BLOB => nvs_set N h key (NvsBlob (take len buf)) w
  | TYPE_OTHER _ => (ESP_ERR_INVALID_ARG, w)
  end.

Definition nvs_be_set (h : Z) (key : cstr) (t : espos_cfg_type_t) (buf : list Z) (len : nat) (w : W) : esp_err_t * W :=
  let '(err, w) := nvs_raw_set h key t buf len w in
  let '(err, w) :=
    if bool_decide (err = ESP_ERR_NVS_TYPE_MISMATCH) then
      let '(err, w) := nvs_erase_key N h key w in
      if is_ok err then nvs_raw_set h key t buf len w else (err, w)
    else (err, w) in
  (map_err err, w).

Definition nvs_be_erase_key (h : Z) (key : cstr) (w : W) : esp_err_t * W :=
  let '(err, w) := nvs_erase_key N h key w in (map_err err, w).

Definition nvs_be_erase_all (h : Z) (w : W) : esp_err_t * W :=
  let '(err, w) := nvs_erase_all N h w in (map_err err, w).

Definition nvs_be_commit (h : Z) (w : W) : esp_err_t * W :=
  let '(err, w) := nvs_commit N h w in (map_err err, w).

Definition nvs_be_erase_storage (w : W) : esp_err_t * W :=
  let '(_, w) := nvs_flash_deinit_partition N part_label w in
  nvs_flash_erase_partition N part_label w.

Definition k_nvs_backend : espos_config_backend_t W :=
  Backend _ nvs_be_init nvs_be_open nvs_be_close nvs_be_get nvs_be_set nvs_be_erase_key nvs_be_erase_all nvs_be_commit
    nvs_be_erase_storage.
End Backend.

(** * What the library promises *)

(** The items of each namespace, and the namespace of each open handle. *)
Class NvsStorage (W : Type) := {
  items : W -> cstr -> cstr -> option nvs_item;
  opened : W -> Z -> option cstr }.

Definition wf_item (i : nvs_item) : Prop :=
  match i with
  | NvsU8 u => 0 <= u < 256
  | NvsI32 i => - 2 ^ 31 <= i < 2 ^ 31
  | NvsU32 u => 0 <= u < 2 ^ 32
  | NvsStr s => wf_str s
  | NvsBlob b => wf_bytes b
  end.

Definition same_items `{NvsStorage W} (w w' : W) : Prop :=
  (forall ns k, items w' ns k = items w ns k) /\ (forall h, opened w' h = opened w h).
Definition other_items `{NvsStorage W} (ns key : cstr) (w w' : W) : Prop :=
  (forall ns' k', (ns', k') <> (ns, key) -> items w' ns' k' = items w ns' k') /\ (forall h, opened w' h = opened w h).

(** A get of a number: the item if it is of that type, else which error. *)
Definition number_of (o : option nvs_item) (f : nvs_item -> option Z) (r : esp_err_t * Z) : Prop :=
  match o with
  | None => r.1 = ESP_ERR_NVS_NOT_FOUND
  | Some i => match f i with Some v => r = (ESP_OK, v) | None => r.1 = ESP_ERR_NVS_TYPE_MISMATCH end
  end.
Definition is_u8 (i : nvs_item) : option Z := match i with NvsU8 u => Some u | _ => None end.
Definition is_i32 (i : nvs_item) : option Z := match i with NvsI32 u => Some u | _ => None end.
Definition is_u32 (i : nvs_item) : option Z := match i with NvsU32 u => Some u | _ => None end.

(** A get of bytes into a buffer of [cap]. *)
Definition bytes_of (o : option nvs_item) (f : nvs_item -> option (list Z)) (cap : nat) (r : esp_err_t * list Z * nat) : Prop :=
  match o with
  | None => r.1.1 = ESP_ERR_NVS_NOT_FOUND
  | Some i =>
      match f i with
      | Some d => if (cap <? length d)%nat then r.1.1 = ESP_ERR_NVS_INVALID_LENGTH else r = (ESP_OK, d, length d)
      | None => r.1.1 = ESP_ERR_NVS_TYPE_MISMATCH
      end
  end.
Definition is_str (i : nvs_item) : option (list Z) := match i with NvsStr s => Some (s ++ [0]) | _ => None end.
Definition is_blob (i : nvs_item) : option (list Z) := match i with NvsBlob b => Some b | _ => None end.

Class NvsLaws {W : Type} `{NvsStorage W} (N : nvs W) (good : W -> Prop) : Prop := {
  nvs_wf w ns k i : good w -> items w ns k = Some i -> wf_item i;
  nvs_u8 w h ns key : good w -> opened w h = Some ns ->
    let '(r, w') := nvs_get_u8 N h key w in good w' /\ same_items w w' /\ number_of (items w ns key) is_u8 r;
  nvs_i32 w h ns key : good w -> opened w h = Some ns ->
    let '(r, w') := nvs_get_i32 N h key w in good w' /\ same_items w w' /\ number_of (items w ns key) is_i32 r;
  nvs_u32 w h ns key : good w -> opened w h = Some ns ->
    let '(r, w') := nvs_get_u32 N h key w in good w' /\ same_items w w' /\ number_of (items w ns key) is_u32 r;
  nvs_str w h ns key cap : good w -> opened w h = Some ns ->
    let '(r, w') := nvs_get_str N h key true cap w in good w' /\ same_items w w' /\ bytes_of (items w ns key) is_str cap r;
  nvs_blob w h ns key cap : good w -> opened w h = Some ns ->
    let '(r, w') := nvs_get_blob N h key true cap w in good w' /\ same_items w w' /\ bytes_of (items w ns key) is_blob cap r;
  nvs_store w h ns key i : good w -> opened w h = Some ns -> wf_item i ->
    let '(e, w') := nvs_set N h key i w in
    good w' /\ other_items ns key w w' /\ (e = ESP_OK -> items w' ns key = Some i);
  nvs_remove w h ns key : good w -> opened w h = Some ns ->
    let '(e, w') := nvs_erase_key N h key w in
    good w' /\ other_items ns key w w' /\ (e = ESP_OK \/ e = ESP_ERR_NVS_NOT_FOUND -> items w' ns key = None);
  nvs_commits w h ns : good w -> opened w h = Some ns ->
    let '(_, w') := nvs_commit N h w in good w' /\ same_items w w';
  nvs_opens w part ns : good w ->
    let '((e, h), w') := nvs_open_from_partition N part ns w in
    good w' /\ (forall n k, items w' n k = items w n k) /\ (forall h' n, opened w h' = Some n -> opened w' h' = Some n) /\
    (e = ESP_OK -> h <> 0 /\ opened w' h = Some ns);
  nvs_closes w h ns : good w -> opened w h = Some ns ->
    let '(_, w') := nvs_close N h w in
    good w' /\ (forall n k, items w' n k = items w n k) /\ (forall h', h' <> h -> opened w' h' = opened w h');
  nvs_init w part : good w ->
    let '(e, w') := nvs_flash_init_partition N part w in
    good w' /\ (e = ESP_OK -> forall n k, items w' n k = items w n k);
  nvs_deinit w part : good w -> good (nvs_flash_deinit_partition N part w).2;
  nvs_erases w part : good w ->
    let '(e, w') := nvs_flash_erase_partition N part w in
    good w' /\ (e = ESP_OK -> forall n k, items w' n k = None) }.

(** * The contract *)

(** How an item looks through the backend. *)
Definition entry_of (i : nvs_item) : entry :=
  match i with
  | NvsU8 u => (ESPOS_CFG_TYPE_BOOL, [u])
  | NvsI32 i => (ESPOS_CFG_TYPE_INT, bytes32 (u32 i))
  | NvsU32 u => (ESPOS_CFG_TYPE_FLOAT, bytes32 u)
  | NvsStr s => (ESPOS_CFG_TYPE_STRING, s ++ [0])
  | NvsBlob b => (ESPOS_CFG_TYPE_BLOB, b)
  end.

#[export] Instance nvs_storage `{NvsStorage W} : Storage W := {
  view w ns k := entry_of <$> items w ns k;
  hns := opened }.

Section Contract.
Context `{NvsStorage W} (N : nvs W) (ctx : option cstr) (good : W -> Prop) `{!NvsLaws N good}.

Lemma same_store w w' : same_items w w' -> store_eq w w'.
Proof. intros [H1 H2]. split; intros; cbn; by rewrite ?H1, ?H2. Qed.

Lemma other_store ns key w w' : other_items ns key w w' -> only_at ns key w w'.
Proof. intros [H1 H2]. split; [|done]. intros. cbn. by rewrite H1. Qed.

Lemma other_trans ns key w1 w2 w3 : other_items ns key w1 w2 -> other_items ns key w2 w3 -> other_items ns key w1 w3.
Proof. intros [H1 H2] [H3 H4]. split; intros; [rewrite H3, H1|rewrite H4, H2]; done. Qed.

Lemma bytes32_get32 b : length b = 4%nat -> wf_bytes b -> bytes32 (get32 b) = b.
Proof.
  intros Hl Hb. destruct b as [|a0 [|a1 [|a2 [|a3 [|]]]]]; try discriminate Hl.
  repeat (apply Forall_cons in Hb as [? Hb]). unfold bytes32, get32. cbn [nth]. repeat f_equal; div_lia.
Qed.

Lemma get32_range b : length b = 4%nat -> wf_bytes b -> 0 <= get32 b < 2 ^ 32.
Proof.
  intros Hl Hb. destruct b as [|a0 [|a1 [|a2 [|a3 [|]]]]]; try discriminate Hl.
  repeat (apply Forall_cons in Hb as [? Hb]). unfold get32. cbn [nth]. lia.
Qed.

Lemma u32_i32 x : 0 <= x < 2 ^ 32 -> u32 (i32 x) = x.
Proof. intros Hx. unfold u32, i32. div_lia. Qed.

Lemma i32_range x : - 2 ^ 31 <= i32 x < 2 ^ 31.
Proof. unfold i32. pose proof (Z.mod_pos_bound (x + 2 ^ 31) (2 ^ 32)). lia. Qed.

(** The item a typed set stores is the image of its arguments. *)
Definition item_of (t : espos_cfg_type_t) (buf : list Z) (len : nat) : option nvs_item :=
  match t with
  | ESPOS_CFG_TYPE_BOOL => Some (NvsU8 (if nth 0 buf 0 =? 0 then 0 else 1))
  | ESPOS_CFG_TYPE_INT => Some (NvsI32 (i32 (get32 buf)))
  | ESPOS_CFG_TYPE_FLOAT => Some (NvsU32 (get32 buf))
  | ESPOS_CFG_TYPE_STRING => Some (NvsStr (c_string buf))
  | ESPOS_CFG_TYPE_BLOB => Some (NvsBlob (take len buf))
  | TYPE_OTHER _ => None
  end.

Lemma item_image t buf len : set_args t buf len -> exists i, item_of t buf len = Some i /\ wf_item i /\ entry_of i = (t, take len buf).
Proof.
  destruct t; cbn [set_args item_of]; [| | | | |done]; intros Ha; eexists; (split; [done|]).
  - destruct Ha as [[->| ->] ->]; cbn; (split; [lia|done]).
  - destruct Ha as (Hl & -> & Hb). split; [apply i32_range|]. cbn. rewrite u32_i32 by (by apply get32_range). rewrite bytes32_get32 by done.
    by rewrite take_ge by lia.
  - destruct Ha as (Hl & -> & Hb). split; [by apply get32_range|]. cbn. rewrite bytes32_get32 by done. by rewrite take_ge by lia.
  - destruct Ha as ((s & -> & Hs) & ->). rewrite c_string_app by done. split; [done|]. cbn. by rewrite take_ge.
  - destruct Ha as (Hl & Hn & Hb). split; [by apply Forall_take|done].
Qed.

Lemma raw_set_item h key t buf len i w : item_of t buf len = Some i -> nvs_raw_set N h key t buf len w = nvs_set N h key i w.
Proof. destruct t; cbn; by intros [= <-]. Qed.

Lemma map_err_ok e : map_err e = ESP_OK -> e = ESP_OK.
Proof. unfold map_err. by repeat case_bool_decide. Qed.

Lemma map_err_absent e : map_err e = ESP_OK \/ map_err e = ESP_ERR_NOT_FOUND -> e = ESP_OK \/ e = ESP_ERR_NVS_NOT_FOUND.
Proof. unfold map_err. repeat case_bool_decide; auto; intros [?|?]; done. Qed.

Lemma nvs_set_law w h ns key t buf len : good w -> opened w h = Some ns -> set_args t buf len ->
  let '(e, w') := nvs_be_set N h key t buf len w in
  good w' /\ only_at ns key w w' /\ (e = ESP_OK -> view w' ns key = Some (t, take len buf)).
Proof.
  intros G Ho Ha. destruct (item_image t buf len Ha) as (i & Hi & Hw & He). unfold nvs_be_set. rewrite (raw_set_item _ _ _ _ _ _ _ Hi).
  pose proof (nvs_store w h ns key i G Ho Hw) as S1. destruct (nvs_set N h key i w) as [e w1]. destruct S1 as (G1 & O1 & V1).
  case_bool_decide as Hm.
  - pose proof (nvs_remove w1 h ns key G1 ltac:(by rewrite (proj2 O1))) as S2. destruct (nvs_erase_key N h key w1) as [e2 w2]. destruct S2 as (G2 & O2 & V2).
    pose proof (other_trans _ _ _ _ _ O1 O2) as O12. destruct (is_ok e2) eqn:E2.
    + rewrite (raw_set_item _ _ _ _ _ _ _ Hi). pose proof (nvs_store w2 h ns key i G2 ltac:(by rewrite (proj2 O12)) Hw) as S3.
      destruct (nvs_set N h key i w2) as [e3 w3]. destruct S3 as (G3 & O3 & V3). split_and!; [done|apply other_store; by eapply other_trans|].
      intros H3%map_err_ok. cbn. by rewrite V3, <- He.
    + split_and!; [done|by apply other_store|]. intros H3%map_err_ok. by rewrite H3 in E2.
  - split_and!; [done|by apply other_store|]. intros H3%map_err_ok. cbn. by rewrite V1, <- He.
Qed.

Lemma entry_type i : (entry_of i).1 = match i with NvsU8 _ => ESPOS_CFG_TYPE_BOOL | NvsI32 _ => ESPOS_CFG_TYPE_INT | NvsU32 _ => ESPOS_CFG_TYPE_FLOAT
  | NvsStr _ => ESPOS_CFG_TYPE_STRING | NvsBlob _ => ESPOS_CFG_TYPE_BLOB end.
Proof. by destruct i. Qed.

(** A number through the backend. *)
Lemma get_number_spec o t n cap bytes f (r : esp_err_t * Z) w w' : (n <= cap)%nat -> number_of o f r ->
  (forall i, match f i with Some v => entry_of i = (t, bytes v) /\ length (bytes v) = n | None => (entry_of i).1 <> t end) ->
  get_spec (entry_of <$> o) t cap (get_number n cap bytes (r, w') w).1 /\ (get_number (W := W) n cap bytes (r, w') w).2 = w'.
Proof.
  intros Hn Hr Hf. unfold get_number. destruct (Nat.ltb_spec cap n); [lia|]. destruct r as [e v]. destruct o as [i|]; cbn [fmap option_fmap option_map get_spec number_of] in *.
  - specialize (Hf i). destruct (f i) as [x|].
    + injection Hr as -> ->. destruct Hf as [-> Hl]. rewrite (proj2 (is_ok_true _) eq_refl). rewrite bool_decide_true by done. rewrite Hl.
      destruct (Nat.ltb_spec cap n); [lia|done].
    + cbn in Hr. subst e. cbn. destruct (entry_of i) as [t' d]. cbn in Hf. by rewrite bool_decide_false.
  - cbn in Hr. by subst e.
Qed.

Lemma get_bytes_spec o t cap f (r : esp_err_t * list Z * nat) : bytes_of o f cap r ->
  (forall i, match f i with Some d => entry_of i = (t, d) | None => (entry_of i).1 <> t end) ->
  get_spec (entry_of <$> o) t cap (map_err r.1.1, r.1.2, r.2).
Proof.
  intros Hr Hf. destruct r as [[e d] n]. destruct o as [i|]; cbn [fmap option_fmap option_map get_spec bytes_of fst snd] in *; [|by subst e].
  specialize (Hf i). destruct (f i) as [x|].
  - rewrite Hf, bool_decide_true by done. destruct (cap <? length x)%nat; [by subst e|]. injection Hr as -> -> ->. done.
  - subst e. destruct (entry_of i) as [t' x]. cbn in Hf. by rewrite bool_decide_false.
Qed.

Lemma nvs_get_law w h ns key t cap : good w -> opened w h = Some ns -> get_args t cap ->
  let '(r, w') := nvs_be_get N h key t true cap w in good w' /\ store_eq w w' /\ get_spec (view w ns key) t cap r.
Proof.
  intros G Ho Ha. destruct t; cbn [nvs_be_get get_args] in *; [| | | | |done].
  - pose proof (nvs_u8 w h ns key G Ho) as L. destruct (nvs_get_u8 N h key w) as [r w1]. destruct L as (L1 & L2 & L3).
    destruct (get_number_spec _ ESPOS_CFG_TYPE_BOOL 1 cap (fun u => [u]) _ r w w1 Ha L3) as [S1 S2]; [by intros []|].
    destruct (get_number _ _ _ _ _) as [x w2]. cbn in S1, S2. subst w2. split_and!; [done|by apply same_store|done].
  - pose proof (nvs_i32 w h ns key G Ho) as L. destruct (nvs_get_i32 N h key w) as [r w1]. destruct L as (L1 & L2 & L3).
    destruct (get_number_spec _ ESPOS_CFG_TYPE_INT 4 cap (fun i => bytes32 (u32 i)) _ r w w1 Ha L3) as [S1 S2]; [by intros []|].
    destruct (get_number _ _ _ _ _) as [x w2]. cbn in S1, S2. subst w2. split_and!; [done|by apply same_store|done].
  - pose proof (nvs_u32 w h ns key G Ho) as L. destruct (nvs_get_u32 N h key w) as [r w1]. destruct L as (L1 & L2 & L3).
    destruct (get_number_spec _ ESPOS_CFG_TYPE_FLOAT 4 cap bytes32 _ r w w1 Ha L3) as [S1 S2]; [by intros []|].
    destruct (get_number _ _ _ _ _) as [x w2]. cbn in S1, S2. subst w2. split_and!; [done|by apply same_store|done].
  - pose proof (nvs_str w h ns key cap G Ho) as L. destruct (nvs_get_str N h key true cap w) as [[[e d] n] w1]. destruct L as (L1 & L2 & L3).
    split_and!; [done|by apply same_store|]. apply (get_bytes_spec _ _ _ _ _ L3). by intros [].
  - pose proof (nvs_blob w h ns key cap G Ho) as L. destruct (nvs_get_blob N h key true cap w) as [[[e d] n] w1]. destruct L as (L1 & L2 & L3).
    split_and!; [done|by apply same_store|]. apply (get_bytes_spec _ _ _ _ _ L3). by intros [].
Qed.

Lemma nvs_init_law w : good w ->
  let '((e, rst), w') := nvs_be_init N ctx w in
  good w' /\ (e = ESP_OK -> forall n k, view w' n k = if rst : bool then None else view w n k).
Proof.
  intros G. unfold nvs_be_init. pose proof (nvs_init w (part_label ctx) G) as L1. destruct (nvs_flash_init_partition N _ w) as [e1 w1].
  destruct L1 as [G1 V1]. destruct (unusable e1) eqn:U.
  - pose proof (nvs_erases w1 (part_label ctx) G1) as L2. destruct (nvs_flash_erase_partition N _ w1) as [e2 w2]. destruct L2 as [G2 V2].
    destruct (is_ok e2) eqn:E2; cbn [negb]; [|apply is_ok_false in E2; done]. apply is_ok_true in E2.
    pose proof (nvs_init w2 (part_label ctx) G2) as L3. destruct (nvs_flash_init_partition N _ w2) as [e3 w3]. destruct L3 as [G3 V3].
    split; [done|]. intros -> n k. cbn. by rewrite V3, V2.
  - split; [done|]. intros -> n k. cbn. by rewrite V1.
Qed.

#[export] Instance nvs_backend_laws : BackendLaws (k_nvs_backend N ctx) good.
Proof.
  split; cbn [be_get be_set be_erase_key be_commit be_open be_close be_init be_erase_storage k_nvs_backend].
  - intros w ns k e G. cbn. destruct (items w ns k) as [i|] eqn:E; [|done]. intros [= <-]. apply (nvs_wf _ _ _ _ G) in E.
    destruct i; cbn in *; try done; [by eexists|split; [done|apply bytes32_wf]|split; [done|apply bytes32_wf]|by eexists].
  - intros w h ns key t cap G Ho. apply nvs_get_law; done.
  - intros w h ns key t buf len G Ho. apply nvs_set_law; done.
  - intros w h ns key G Ho. unfold nvs_be_erase_key. pose proof (nvs_remove w h ns key G Ho) as L. destruct (nvs_erase_key N h key w) as [e w'].
    destruct L as (L1 & L2 & L3). split_and!; [done|by apply other_store|]. intros He%map_err_absent. cbn. by rewrite L3.
  - intros w h ns G Ho. unfold nvs_be_commit. pose proof (nvs_commits w h ns G Ho) as L. destruct (nvs_commit N h w) as [e w'].
    destruct L as [L1 L2]. split; [done|by apply same_store].
  - intros w ns G. unfold nvs_be_open. pose proof (nvs_opens w (part_label ctx) ns G) as L. destruct (nvs_open_from_partition N _ ns w) as [[e h] w'].
    destruct L as (L1 & L2 & L3 & L4). destruct (is_ok e) eqn:E; cbn [negb]; (split_and!; [done|intros; cbn; by rewrite L2|done|]).
    + apply is_ok_true in E. intros _. by apply L4.
    + intros He%map_err_ok. by rewrite He in E.
  - intros w h ns G Ho. unfold nvs_be_close. pose proof (nvs_closes w h ns G Ho) as L. destruct (nvs_close N h w) as [u w'].
    destruct L as (L1 & L2 & L3). split_and!; [done|intros; cbn; by rewrite L2|done].
  - intros w G. by apply nvs_init_law.
  - intros w G. unfold nvs_be_erase_storage. pose proof (nvs_deinit w (part_label ctx) G) as L1. destruct (nvs_flash_deinit_partition N _ w) as [e1 w1].
    pose proof (nvs_erases w1 (part_label ctx) L1) as L2. destruct (nvs_flash_erase_partition N _ w1) as [e2 w2]. destruct L2 as [G2 V2].
    split; [done|]. intros He n k. cbn. by rewrite V2.
Qed.

(** Over any flash storage library that behaves as its documentation says
    (typed items; a set of an existing key with another type may be refused), the
    NVS backend keeps the contract of espos_config_backend.h: values read back as
    set whatever type the key had before, errors are the generic ones, and a
    storage that had to be wiped at init is reported as reset and is empty. *)
Theorem config_nvs_backend : BackendLaws (k_nvs_backend N ctx) good.
Proof. apply nvs_backend_laws. Qed.
End Contract.

(** * A library that behaves as documented

    Items as a function of namespace and key; handles are positions in the list
    of names opened so far. A set of an existing key with another type is refused. *)

Definition ex_flash : Type := (cstr -> cstr -> option nvs_item) * list cstr.

Definition kind_of (i : nvs_item) : Z := match i with NvsU8 _ => 0 | NvsI32 _ => 1 | NvsU32 _ => 2 | NvsStr _ => 3 | NvsBlob _ => 4 end.

Definition ex_opened (w : ex_flash) (h : Z) : option cstr := if h <=? 0 then None else w.2 !! Z.to_nat (h - 1).
#[export] Instance ex_flash_storage : NvsStorage ex_flash := { items w := w.1; opened := ex_opened }.

Definition ex_put (ns key : cstr) (o : option nvs_item) (w : ex_flash) : ex_flash :=
  (fun ns' k' => if bool_decide ((ns', k') = (ns, key)) then o else w.1 ns' k', w.2).

Definition ex_item (w : ex_flash) (h : Z) (key : cstr) : option nvs_item := ns ← ex_opened w h; w.1 ns key.

Definition ex_number (f : nvs_item -> option Z) (h : Z) (key : cstr) (w : ex_flash) : (esp_err_t * Z) * ex_flash :=
  (match ex_item w h key with
   | None => (ESP_ERR_NVS_NOT_FOUND, 0)
   | Some i => match f i with Some v => (ESP_OK, v) | None => (ESP_ERR_NVS_TYPE_MISMATCH, 0) end
   end, w).

Definition ex_bytes (f : nvs_item -> option (list Z)) (h : Z) (key : cstr) (buf : bool) (cap : nat) (w : ex_flash)
  : (esp_err_t * list Z * nat) * ex_flash :=
  (match ex_item w h key with
   | None => (ESP_ERR_NVS_NOT_FOUND, [], cap)
   | Some i =>
       match f i with
       | Some d => if (cap <? length d)%nat then (ESP_ERR_NVS_INVALID_LENGTH, [], length d) else (ESP_OK, d, length d)
       | None => (ESP_ERR_NVS_TYPE_MISMATCH, [], cap)
       end
   end, w).

Definition ex_nvs : nvs ex_flash := Nvs _
  (fun _ w => (ESP_OK, w)) (fun _ w => (ESP_OK, (w.1, []))) (fun _ w => (ESP_OK, (fun _ _ => None, [])))
  (fun _ ns w => ((ESP_OK, Z.of_nat (length w.2) + 1), (w.1, w.2 ++ [ns])))
  (fun _ w => (tt, w))
  (ex_number is_u8) (ex_number is_i32) (ex_number is_u32) (ex_bytes is_str) (ex_bytes is_blob)
  (fun h key i w =>
     match ex_opened w h with
     | None => (ESP_FAIL, w)
     | Some ns =>
         match w.1 ns key with
         | Some j => if kind_of i =? kind_of j then (ESP_OK, ex_put ns key (Some i) w) else (ESP_ERR_NVS_TYPE_MISMATCH, w)
         | None => (ESP_OK, ex_put ns key (Some i) w)
         end
     end)
  (fun h key w =>
     match ex_opened w h with
     | None => (ESP_FAIL, w)
     | Some ns => match w.1 ns key with Some _ => (ESP_OK, ex_put ns key None w) | None => (ESP_ERR_NVS_NOT_FOUND, w) end
     end)
  (fun _ w => (ESP_OK, w)) (fun _ w => (ESP_OK, w)).

Definition ex_good (w : ex_flash) : Prop := forall ns k i, w.1 ns k = Some i -> wf_item i.

Lemma ex_put_ok ns key o w : ex_good w -> (forall i, o = Some i -> wf_item i) ->
  ex_good (ex_put ns key o w) /\ other_items ns key w (ex_put ns key o w) /\ items (ex_put ns key o w) ns key = o.
Proof.
  intros G Ho. split_and!.
  - intros n k i. cbn. case_bool_decide; [apply Ho|apply G].
  - split; [|done]. intros n k Hn. cbn. by rewrite bool_decide_false.
  - cbn. by rewrite bool_decide_true.
Qed.

Lemma ex_number_ok f ns h key w : ex_good w -> ex_opened w h = Some ns ->
  let '(r, w') := ex_number f h key w in ex_good w' /\ same_items w w' /\ number_of (w.1 ns key) f r.
Proof.
  intros G Ho. unfold ex_number, ex_item. rewrite Ho. cbn [mbind option_bind]. split_and!; [done|done|].
  unfold number_of. destruct (w.1 ns key) as [i|]; [|done]. destruct (f i) eqn:E; by rewrite ?E.
Qed.

Lemma ex_bytes_ok f ns h key cap w : ex_good w -> ex_opened w h = Some ns ->
  let '(r, w') := ex_bytes f h key true cap w in ex_good w' /\ same_items w w' /\ bytes_of (w.1 ns key) f cap r.
Proof.
  intros G Ho. unfold ex_bytes, ex_item. rewrite Ho. cbn [mbind option_bind]. split_and!; [done|done|].
  unfold bytes_of. destruct (w.1 ns key) as [i|]; [|done]. destruct (f i) as [d|] eqn:E; rewrite ?E; [|done].
  destruct (Nat.ltb_spec cap (length d)); cbn [fst snd]; repeat case_bool_decide; try done; try lia.
Qed.

#[export] Instance ex_nvs_laws : NvsLaws ex_nvs ex_good.
Proof.
  split; cbn [nvs_get_u8 nvs_get_i32 nvs_get_u32 nvs_get_str nvs_get_blob nvs_set nvs_erase_key nvs_commit nvs_open_from_partition nvs_close
    nvs_flash_init_partition nvs_flash_deinit_partition nvs_flash_erase_partition ex_nvs]; cbn [opened items ex_flash_storage].
  - intros w ns k i G. apply G.
  - intros w h ns key G Ho. apply (ex_number_ok _ ns); done.
  - intros w h ns key G Ho. apply (ex_number_ok _ ns); done.
  - intros w h ns key G Ho. apply (ex_number_ok _ ns); done.
  - intros w h ns key cap G Ho. apply (ex_bytes_ok _ ns); done.
  - intros w h ns key cap G Ho. apply (ex_bytes_ok _ ns); done.
  - intros w h ns key i G Ho Hw. rewrite Ho. destruct (ex_put_ok ns key (Some i) w G ltac:(by intros ? [= <-])) as (P1 & P2 & P3).
    destruct (w.1 ns key); [destruct (_ =? _)|]; by split_and!.
  - intros w h ns key G Ho. rewrite Ho. destruct (ex_put_ok ns key None w G ltac:(done)) as (P1 & P2 & P3).
    destruct (w.1 ns key) eqn:E; by split_and!.
  - intros w h ns G Ho. by split_and!.
  - intros w part ns G. cbn. split_and!; [done|done| |].
    + intros h n. unfold ex_opened. cbn. destruct (h <=? 0); [done|]. intros Hh. by apply lookup_app_l_Some.
    + intros _. split; [lia|]. unfold ex_opened. cbn. destruct (Z.leb_spec (Z.of_nat (length w.2) + 1) 0); [lia|].
      replace (Z.to_nat (Z.of_nat (length w.2) + 1 - 1)) with (length w.2) by lia. by apply list_lookup_middle.
  - intros w h ns G Ho. by split_and!.
  - intros w part G. by split.
  - intros w part G. exact G.
  - intros w part G. split; [|done]. by intros ns k i.
Qed.

Lemma config_nvs_backend_witness : BackendLaws (k_nvs_backend ex_nvs (Some (lit "cfg"))) ex_good.
Proof. apply (config_nvs_backend ex_nvs (Some (lit "cfg")) ex_good). Defined.
