(* ===== verification/CardFs.v ===== *)
(** The file system a log lives on: what [sdlog_session.c] uses of stdio and
    POSIX, and what a power cut does to it.

    The tree below the log's root directory is one level of files and of
    directories of files, by name. A file is the bytes the system holds and how
    many of them are known to be on the card (synced); bytes that stdio still
    buffers are in the [FILE]. A power cut keeps every directory operation
    (create, rename, remove, truncate) done so far, loses the buffers, and cuts
    each file somewhere at or after its synced part.

    Every change of the tree enters the trace of the machine as the tree after
    it, so the trace is the list of the moments at which the power can go.
    Whether a call fails, how much stdio writes out by itself, the order in which
    a directory is read and whether it reports types are questions to the world. *)
From Stdlib Require Import ZArith Lia String.
From stdpp Require Import base list numbers gmap.
From S2P Require Import Prelude.
Open Scope Z_scope.

Record file := File { f_data : list Z; f_synced : nat }.

#[export] Instance file_eq_dec : EqDecision file.
Proof. solve_decision. Defined.

Record fs := Fs {
  fs_root : bool;                          (** the root directory exists *)
  fs_files : gmap cstr file;               (** files in it *)
  fs_dirs : gmap cstr (gmap cstr file) }.  (** directories in it, with their files *)
#[export] Instance eta_fs : Eta fs := fun r => Fs (fs_root r) (fs_files r) (fs_dirs r).

(** * Power cut *)

Inductive cut_file : file -> file -> Prop :=
  | Cut f n : (f_synced f <= n <= length (f_data f))%nat -> cut_file f (File (take n (f_data f)) n).

Definition cut_files (a b : gmap cstr file) : Prop := map_relation (fun _ => cut_file) (fun _ _ => False) (fun _ _ => False) a b.

Record cut (s t : fs) : Prop := {
  cut_root : fs_root t = fs_root s;
  cut_top : cut_files (fs_files s) (fs_files t);
  cut_dirs : map_relation (fun _ => cut_files) (fun _ _ => False) (fun _ _ => False) (fs_dirs s) (fs_dirs t) }.

(** Nothing is synced beyond its end. *)
Definition file_ok (f : file) : Prop := (f_synced f <= length (f_data f))%nat.

(** All of it is on the card. *)
Definition durable (f : file) : Prop := f_synced f = length (f_data f).

(** * The system *)

Inductive sysop := SysStat | SysOpendir | SysOpen | SysRead | SysWrite | SysFlush | SysSync | SysClose
  | SysUnlink | SysRename | SysMkdir | SysRmdir | SysTruncate.

Record os (W : Type) := Os {
  os_fail : sysop -> W -> bool * W;              (** does the call fail? *)
  os_spill : nat -> W -> nat * W;                (** of so many buffered bytes, how many does stdio write out? *)
  os_order : list cstr -> W -> list cstr * W;    (** the order in which a directory is read *)
  os_dtype : cstr -> W -> bool * W;              (** does the entry carry its type? *)
  os_malloc : nat -> W -> bool * W }.            (** does the allocation succeed? *)
Arguments Os {W}.
Arguments os_fail {W}.
Arguments os_spill {W}.
Arguments os_order {W}.
Arguments os_dtype {W}.
Arguments os_malloc {W}.

(** A directory read yields its entries once each. *)
Class OsLaws {W} (o : os W) : Prop := os_perm : forall l w, (os_order o l w).1 ≡ₚ l.

Section System.
Context {W : Type} (o : os W) (root : cstr).

#[local] Abbreviation M := (act fs W fs).

(** One change of the tree. *)
Definition touch (f : fs -> fs) : M unit := mods f;; s ← gets id; emit s.

Definition fails (op : sysop) : M bool := query (os_fail o op).

(** ** Paths: what a path string names below the root *)

Inductive loc := LRoot (name : cstr) | LIn (dir name : cstr) | LOut.

Fixpoint strip (p s : cstr) : option cstr :=
  match p, s with
  | [], _ => Some s
  | x :: p', y :: s' => if x =? y then strip p' s' else None
  | _ :: _, [] => None
  end.

(** Split at the first slash. *)
Fixpoint split_slash (s : cstr) : cstr * option cstr :=
  match s with
  | [] => ([], None)
  | c :: s' => if c =? 47 then ([], Some s') else let '(a, b) := split_slash s' in (c :: a, b)
  end.

Definition resolve (p : cstr) : loc :=
  match strip root p with
  | Some (47 :: r) => match split_slash r with (d, None) => LRoot d | (d, Some f) => LIn d f end
  | _ => LOut
  end.

Definition lookup_loc (s : fs) (l : loc) : option file :=
  match l with
  | LRoot n => fs_files s !! n
  | LIn d n => fs_dirs s !! d ≫= lookup n
  | LOut => None
  end.

(** Change the file at a place, or create or remove it; the directory must be there. *)
Definition alter_loc (f : option file -> option file) (l : loc) (s : fs) : fs :=
  match l with
  | LRoot n => s <| fs_files ::= partial_alter f n |>
  | LIn d n => s <| fs_dirs ::= alter (partial_alter f n) d |>
  | LOut => s
  end.

(** A file can be created there. *)
Definition can_create (s : fs) (l : loc) : bool :=
  match l with
  | LRoot n => fs_root s && bool_decide (fs_dirs s !! n = None)
  | LIn d _ => bool_decide (is_Some (fs_dirs s !! d))
  | LOut => false
  end.

(** ** Calls *)

Inductive stat_t := StFile (size : nat) | StDir.

Definition stat_at (s : fs) (l : loc) : option stat_t :=
  match l with
  | LRoot n =>
      match fs_files s !! n with
      | Some f => Some (StFile (length (f_data f)))
      | None => if bool_decide (is_Some (fs_dirs s !! n)) then Some StDir else None
      end
  | l => (fun f => StFile (length (f_data f))) <$> lookup_loc s l
  end.

(** [stat]: [None] when it fails *)
Definition sys_stat (p : cstr) : M (option stat_t) :=
  bad ← fails SysStat;
  s ← gets id;
  mret (if bad : bool then None else stat_at s (resolve p)).

(** A stream open for writing: its file and the bytes not yet handed to the system. *)
Record FILE := Stream { fp_at : loc; fp_buf : list Z }.

Definition fopen_wb (p : cstr) : M (option FILE) :=
  bad ← fails SysOpen;
  s ← gets id;
  if bad || negb (can_create s (resolve p)) then mret None else
  touch (alter_loc (fun _ => Some (File [] 0)) (resolve p));;
  mret (Some (Stream (resolve p) [])).

Definition append_bytes (b : list Z) (f : file) : file := File (f_data f ++ b) (f_synced f).

(** Hand [n] of the buffered bytes to the system. *)
Definition spill (n : nat) (f : FILE) : M FILE :=
  touch (alter_loc (fmap (append_bytes (take n (fp_buf f)))) (fp_at f));;
  mret (Stream (fp_at f) (drop n (fp_buf f))).

(** [fwrite] or [fputs]: the bytes go to the buffer, some of it to the system. *)
Definition fwrite (b : list Z) (f : FILE) : M (bool * FILE) :=
  bad ← fails SysWrite;
  let f := Stream (fp_at f) (fp_buf f ++ b) in
  n ← query (os_spill o (length (fp_buf f)));
  f ← spill n f;
  mret (negb bad, f).

Definition fflush (f : FILE) : M (bool * FILE) :=
  bad ← fails SysFlush;
  n ← query (os_spill o (length (fp_buf f)));
  f ← spill (if bad : bool then n else length (fp_buf f)) f;
  mret (negb bad, f).

Definition sync_up (f : file) : file := File (f_data f) (length (f_data f)).

Definition fsync (f : FILE) : M bool :=
  bad ← fails SysSync;
  if bad : bool then mret false else
  touch (alter_loc (fmap sync_up) (fp_at f));; mret true.

(** [fclose]: the rest of the buffer is written out *)
Definition fclose (f : FILE) : M bool :=
  bad ← fails SysClose;
  n ← query (os_spill o (length (fp_buf f)));
  f ← spill (if bad : bool then n else length (fp_buf f)) f;
  mret (negb bad).

(** [fopen(p, "rb")]: [inl true] is [ENOENT], [inl false] another error *)
Definition fopen_rb (p : cstr) : M (bool + list Z) :=
  s ← gets id;
  match lookup_loc s (resolve p) with
  | None => mret (inl true)
  | Some f => bad ← fails SysOpen; mret (if bad : bool then inl false else inr (f_data f))
  end.

(** [fread] in a loop with a buffer of [n]: the pieces, and whether the end was
    reached without an error. *)
Fixpoint fread_all (fuel n : nat) (data : list Z) : M (list (list Z) * bool) :=
  match fuel with
  | O => mret ([], true)
  | S fuel' =>
      bad ← fails SysRead;
      if bad : bool then mret ([], false) else
      match data with
      | [] => mret ([], true)
      | _ => '(l, ok) ← fread_all fuel' n (drop n data); mret (take n data :: l, ok)
      end
  end.

Definition unlink (p : cstr) : M bool :=
  bad ← fails SysUnlink;
  s ← gets id;
  if bad || bool_decide (lookup_loc s (resolve p) = None) then mret false else
  touch (alter_loc (fun _ => None) (resolve p));; mret true.

(** [rename] as FatFs does it: not onto an existing name *)
Definition rename (p q : cstr) : M bool :=
  bad ← fails SysRename;
  s ← gets id;
  match lookup_loc s (resolve p) with
  | Some f =>
      if bad || negb (can_create s (resolve q)) || bool_decide (is_Some (lookup_loc s (resolve q))) then mret false else
      touch (fun s => alter_loc (fun _ => Some f) (resolve q) (alter_loc (fun _ => None) (resolve p) s));; mret true
  | None => mret false
  end.

Definition mkdir (p : cstr) : M bool :=
  bad ← fails SysMkdir;
  s ← gets id;
  match resolve p with
  | LRoot d =>
      if bad || negb (fs_root s) || bool_decide (is_Some (fs_files s !! d)) || bool_decide (is_Some (fs_dirs s !! d))
      then mret false else
      touch (fun s => s <| fs_dirs ::= insert d ∅ |>);; mret true
  | _ => mret false
  end.

Definition rmdir (p : cstr) : M bool :=
  bad ← fails SysRmdir;
  s ← gets id;
  match resolve p with
  | LRoot d =>
      if bad || negb (bool_decide (fs_dirs s !! d = Some ∅)) then mret false else
      touch (fun s => s <| fs_dirs ::= delete d |>);; mret true
  | _ => mret false
  end.

Definition cut_to (n : nat) (f : file) : file := File (take n (f_data f)) (Nat.min n (f_synced f)).

Definition truncate (p : cstr) (n : nat) : M bool :=
  bad ← fails SysTruncate;
  s ← gets id;
  if bad || bool_decide (lookup_loc s (resolve p) = None) then mret false else
  touch (alter_loc (fmap (cut_to n)) (resolve p));; mret true.

(** [opendir] and [readdir] to the end, without the dot entries: [inl true] is [ENOENT]. *)
Definition readdir_root : M (bool + list cstr) :=
  s ← gets id;
  if negb (fs_root s) then mret (inl true) else
  bad ← fails SysOpendir;
  if bad : bool then mret (inl false) else
  l ← query (os_order o (map fst (map_to_list (fs_files s)) ++ map fst (map_to_list (fs_dirs s))));
  mret (inr l).

Definition readdir_in (p : cstr) : M (bool + list cstr) :=
  s ← gets id;
  match resolve p with
  | LRoot d =>
      match fs_dirs s !! d with
      | None => mret (inl (bool_decide (fs_files s !! d = None)))
      | Some files =>
          bad ← fails SysOpendir;
          if bad : bool then mret (inl false) else
          l ← query (os_order o (map fst (map_to_list files)));
          mret (inr l)
      end
  | _ => mret (inl true)
  end.

Definition malloc (n : nat) : M bool := query (os_malloc o n).
End System.
