(* ===== verification/SdlogSession.v ===== *)
(** The SD logger's sessions: the whole of [sdlog_session.c] over the file system
    of [CardFs].

    The root path is a variable of the section. A null root, header, row, output
    pointer or callback, which every function refuses, is not a value of the model;
    an output the source may leave out is always returned. *)
From Stdlib Require Import ZArith Lia String.
From stdpp Require Import base list numbers gmap.
From S2P Require Import Prelude ConfigDesc Sha256 CardFs.
Open Scope Z_scope.

Definition ESP_ERR_INVALID_RESPONSE : esp_err_t := ESP_ERR_OTHER 0x108.

Definition PATH_MAX_LEN : nat := 160.
Definition SEQ_DIGITS : nat := 8.
Definition MAX_SEQ : Z := 99999999.
Definition LAST_SEQ_FILE : cstr := lit "LASTSEQ.TXT".
Definition LAST_SEQ_TMP : cstr := lit "LASTSEQ.TMP".
Definition ESPOS_SDLOG_SYNC_EVERY_DEFAULT : Z := 10.

Inductive espos_sdlog_file_t :=
  | ESPOS_SDLOG_FILE_HEADER | ESPOS_SDLOG_FILE_ROWS | ESPOS_SDLOG_FILE_CLOSE | ESPOS_SDLOG_FILE_SYNCED.

Definition FILE_NAMES (which : espos_sdlog_file_t) : cstr :=
  match which with
  | ESPOS_SDLOG_FILE_HEADER => lit "HEAD.JSN"
  | ESPOS_SDLOG_FILE_ROWS => lit "ROWS.TXT"
  | ESPOS_SDLOG_FILE_CLOSE => lit "CLOSE.JSN"
  | ESPOS_SDLOG_FILE_SYNCED => lit "SYNCED"
  end.
#[local] Abbreviation HEAD := (FILE_NAMES ESPOS_SDLOG_FILE_HEADER).
#[local] Abbreviation ROWS := (FILE_NAMES ESPOS_SDLOG_FILE_ROWS).
#[local] Abbreviation CLOSE := (FILE_NAMES ESPOS_SDLOG_FILE_CLOSE).
#[local] Abbreviation SYNCED := (FILE_NAMES ESPOS_SDLOG_FILE_SYNCED).

Record espos_sdlog_session := Session {
  rows_f : FILE;
  sha : espos_sdlog_sha256_t;
  s_seq : Z;
  s_rows : Z;
  s_bytes : Z;
  sync_every : Z;
  unsynced : Z;
  row_crc : bool;
  failed : bool }.
#[export] Instance eta_session : Eta espos_sdlog_session := fun r =>
  Session (rows_f r) (sha r) (s_seq r) (s_rows r) (s_bytes r) (sync_every r) (unsynced r) (row_crc r) (failed r).

Record espos_sdlog_open_cfg_t := OpenCfg { oc_sync_every : Z; oc_row_crc : bool }.

Record espos_sdlog_info_t := Info {
  i_seq : Z; i_closed : bool; i_clean : bool; i_synced : bool; i_rows : Z; i_bytes : Z; i_sha256 : cstr }.
#[export] Instance eta_info : Eta espos_sdlog_info_t := fun r =>
  Info (i_seq r) (i_closed r) (i_clean r) (i_synced r) (i_rows r) (i_bytes r) (i_sha256 r).
Definition info_zero : espos_sdlog_info_t := Info 0 false false false 0 0 [].

(** * What the C library parses *)

Definition isspace (c : Z) : bool := (c =? 32) || ((9 <=? c) && (c <=? 13)).
Definition isdigit (c : Z) : bool := (48 <=? c) && (c <=? 57).

(** The digits at the front of [s], accumulated into [v]. *)
Fixpoint scan_digits (s : cstr) (v : Z) : Z * cstr :=
  match s with
  | c :: s' => if isdigit c then scan_digits s' (v * 10 + (c - 48)) else (v, s)
  | [] => (v, s)
  end.

Fixpoint skip_space (s : cstr) : cstr :=
  match s with c :: s' => if isspace c then skip_space s' else s | [] => s end.

(** A conversion to an unsigned integer of [bits]: white space, a sign, digits; a
    value out of range saturates. *)
Definition scan_u (bits : Z) (s : cstr) : option (Z * cstr) :=
  let s := skip_space s in
  let '(neg, s) := match s with 45 :: s' => (true, s') | 43 :: s' => (false, s') | _ => (false, s) end in
  match s with
  | c :: _ =>
      if isdigit c then
        let '(v, s') := scan_digits s 0 in
        Some (if 2 ^ bits <=? v then 2 ^ bits - 1 else if neg : bool then (- v) mod 2 ^ bits else v, s')
      else None
  | [] => None
  end.

(** [%w[set]]: at least one and at most [w] characters of the set *)
Fixpoint span (w : nat) (set : Z -> bool) (s : cstr) : cstr * cstr :=
  match w, s with
  | S w', c :: s' => if set c then let '(a, r) := span w' set s' in (c :: a, r) else ([], s)
  | _, _ => ([], s)
  end.
Definition scan_set (w : nat) (set : Z -> bool) (s : cstr) : option (cstr * cstr) :=
  match span w set s with ([], _) => None | r => Some r end.

(** A string in quotes. *)
Definition quoted (s : string) : cstr := 34 :: lit s ++ [34].

(** * Sessions *)

(** A directory name that is exactly eight digits. *)
Fixpoint parse_loop (n : nat) (name : cstr) (v : Z) : option (Z * cstr) :=
  match n with
  | O => Some (v, name)
  | S n' =>
      match name with
      | c :: name' => if (c <? 48) || (57 <? c) then None else parse_loop n' name' (u32 (v * 10 + (c - 48)))
      | [] => None
      end
  end.
Definition parse_seq (name : cstr) : option Z :=
  match parse_loop SEQ_DIGITS name 0 with Some (v, []) => Some v | _ => None end.

Definition cmp_seq (x y : Z) : Z := if x <? y then -1 else if x >? y then 1 else 0.

Fixpoint insert_seq (x : Z) (l : list Z) : list Z :=
  match l with
  | [] => [x]
  | y :: l' => if cmp_seq x y <=? 0 then x :: l else y :: insert_seq x l'
  end.
(** [qsort] with [cmp_seq] *)
Definition qsort (l : list Z) : list Z := foldr insert_seq [] l.

(** The fields of the close record before its meta, as [write_close] prints them. *)
Definition close_head (clean : bool) (rows bytes : Z) (sha : cstr) : cstr :=
  lit "{" ++ quoted "closed" ++ lit ":true," ++ quoted "clean" ++ lit ":" ++ (if clean then lit "true" else lit "false") ++
  lit "," ++ quoted "rows" ++ lit ":" ++ fmt_d rows ++ lit "," ++ quoted "bytes" ++ lit ":" ++ fmt_d bytes ++
  lit "," ++ quoted "sha256" ++ lit ":" ++ [34] ++ sha ++ [34] ++ lit "," ++ quoted "meta" ++ lit ":".

(** The conversions of [read_close]. *)
Definition is_lower (c : Z) : bool := (97 <=? c) && (c <=? 122).
Definition is_hex (c : Z) : bool := isdigit c || ((97 <=? c) && (c <=? 102)).
Definition sscanf_close (buf : cstr) : option (cstr * Z * Z * cstr) :=
  s ← strip (lit "{" ++ quoted "closed" ++ lit ":true," ++ quoted "clean" ++ lit ":") buf;
  '(clean, s) ← scan_set 5 is_lower s;
  s ← strip (lit "," ++ quoted "rows" ++ lit ":") s;
  '(rows, s) ← scan_u 64 s;
  s ← strip (lit "," ++ quoted "bytes" ++ lit ":") s;
  '(bytes, s) ← scan_u 64 s;
  s ← strip (lit "," ++ quoted "sha256" ++ lit ":" ++ [34]) s;
  '(sha, _) ← scan_set 64 is_hex s;
  Some (clean, rows, bytes, sha).

Definition slash : cstr := [47].

Section Sdlog.
Context {W : Type} (o : os W) (root : cstr).

#[local] Abbreviation M := (act fs W fs).
#[local] Abbreviation sys_stat := (sys_stat o root).
#[local] Abbreviation fopen_wb := (fopen_wb o root).
#[local] Abbreviation fopen_rb := (fopen_rb o root).
#[local] Abbreviation unlink := (unlink o root).
#[local] Abbreviation rename := (rename o root).
#[local] Abbreviation mkdir := (mkdir o root).
#[local] Abbreviation rmdir := (rmdir o root).

Definition dir_name (seq : Z) : cstr := fmt_0d SEQ_DIGITS seq.

Definition espos_sdlog_path (seq : Z) (which : espos_sdlog_file_t) (n : nat) : nat * cstr :=
  let full := root ++ slash ++ dir_name seq ++ slash ++ FILE_NAMES which in
  (if (n <=? length full)%nat then 0%nat else length full, snprintf_s n full).

Definition path_in (seq : Z) (name : option cstr) : bool * cstr :=
  let full := root ++ slash ++ dir_name seq ++ match name with Some n => 47 :: n | None => [] end in
  ((length full <? PATH_MAX_LEN)%nat, snprintf_s PATH_MAX_LEN full).

(** The path of a file in the root, as cut to its buffer. *)
Definition root_path (name : cstr) : cstr := snprintf_s PATH_MAX_LEN (root ++ slash ++ name).

Definition exists_ (p : cstr) : M bool := st ← sys_stat p; mret (bool_decide (is_Some st)).

Definition session_file_exists (seq : Z) (name : cstr) : M bool :=
  let '(ok, p) := path_in seq (Some name) in
  if ok : bool then exists_ p else mret false.

Definition is_stat_dir (st : option stat_t) : bool := match st with Some StDir => true | _ => false end.

Definition is_dir (name : cstr) : M bool :=
  known ← query (os_dtype o name);
  s ← gets id;
  if known : bool then mret (bool_decide (is_Some (fs_dirs s !! name))) else
  if (length (root ++ slash ++ name) <? PATH_MAX_LEN)%nat
  then st ← sys_stat (root_path name); mret (is_stat_dir st) else mret false.

Fixpoint scan_loop (entries : list cstr) (cap : nat) (out : list Z) : M (esp_err_t + list Z) :=
  match entries with
  | [] => mret (inr out)
  | e :: es =>
      match parse_seq e with
      | None => scan_loop es cap out
      | Some seq =>
          d ← is_dir e;
          if negb d then scan_loop es cap out else
          if (length out =? cap)%nat then
            let ncap := if (cap =? 0)%nat then 16%nat else (cap * 2)%nat in
            ok ← malloc o (ncap * 4);
            if ok : bool then scan_loop es ncap (out ++ [seq]) else mret (inl ESP_ERR_NO_MEM)
          else scan_loop es cap (out ++ [seq])
      end
  end.

Definition scan : M (esp_err_t + list Z) :=
  d ← readdir_root o;
  match d with
  | inl enoent => mret (if enoent : bool then inr [] else inl ESP_FAIL)
  | inr entries =>
      r ← scan_loop entries 0 [];
      mret (match r with inr l => inr (qsort l) | e => e end)
  end.

(** [mkdir] of a prefix of the root, or of the root itself: whether there is a
    directory of that name then. *)
Definition mkdir_outer (last : bool) : M bool :=
  bad ← fails o SysMkdir;
  there ← gets fs_root;
  if bad : bool then mret false else
  (if last && negb there then touch (fun s => s <| fs_root := true |>) else mret tt);; mret true.

Fixpoint mkdir_loop (idx : list nat) : M esp_err_t :=
  match idx with
  | [] => mret ESP_OK
  | i :: idx' =>
      if (nth i root 0 =? 47) || (i =? length root)%nat then
        ok ← mkdir_outer (i =? length root)%nat;
        if ok : bool then mkdir_loop idx' else mret ESP_FAIL
      else mkdir_loop idx'
  end.

Definition mkdir_p : M esp_err_t :=
  let n := length root in
  if ((n =? 0) || (PATH_MAX_LEN <=? n))%nat then mret ESP_ERR_INVALID_ARG else mkdir_loop (seq 1 n).

Definition sync_file (f : FILE) : M (esp_err_t * FILE) :=
  '(ok, f) ← fflush o f;
  if negb ok then mret (ESP_FAIL, f) else
  ok ← fsync o f;
  mret (if ok : bool then ESP_OK else ESP_FAIL, f).

Fixpoint fputs_all (parts : list (option cstr)) (f : FILE) : M (bool * FILE) :=
  match parts with
  | [] => mret (true, f)
  | None :: parts' => fputs_all parts' f
  | Some a :: parts' =>
      '(ok, f) ← fwrite o a f;
      if ok : bool then fputs_all parts' f else mret (false, f)
  end.

Definition write_file_atomic (tmp dst : cstr) (parts : list (option cstr)) : M esp_err_t :=
  f ← fopen_wb tmp;
  match f with
  | None => mret ESP_FAIL
  | Some f =>
      '(ok, f) ← fputs_all parts f;
      '(ok, f) ← (if ok : bool then '(err, f) ← sync_file f; mret (is_ok err, f) else mret (false, f));
      closed ← fclose o f;
      if negb (closed && ok) then unlink tmp;; mret ESP_FAIL else
      unlink dst;;
      ok ← rename tmp dst;
      if ok : bool then mret ESP_OK else unlink tmp;; mret ESP_FAIL
  end.

Definition write_atomic (seq : Z) (tmp_name name : cstr) (parts : list (option cstr)) : M esp_err_t :=
  let '(ok1, tmp) := path_in seq (Some tmp_name) in
  let '(ok2, dst) := path_in seq (Some name) in
  if negb ok1 || negb ok2 then mret ESP_ERR_INVALID_SIZE else write_file_atomic tmp dst parts.

(** The number in a file: a [long] has 32 bits on the device. *)
Definition seq_of_text (data : list Z) : Z :=
  match scan_u 32 data with Some (v, _) => if v >? MAX_SEQ then 0 else v | None => 0 end.

Definition read_seq_file (name : cstr) : M Z :=
  f ← fopen_rb (root_path name);
  match f with
  | inl _ => mret 0
  | inr data => bad ← fails o SysRead; mret (if bad : bool then 0 else seq_of_text data)
  end.

Definition read_last_seq : M Z :=
  a ← read_seq_file LAST_SEQ_FILE;
  b ← read_seq_file LAST_SEQ_TMP;
  mret (if a >? b then a else b).

Definition write_last_seq (seq : Z) : M esp_err_t :=
  write_file_atomic (root_path LAST_SEQ_TMP) (root_path LAST_SEQ_FILE) [Some (snprintf_s 16 (fmt_d seq ++ [10])); None; None].

Definition write_close (seq : Z) (clean : bool) (rows bytes : Z) (sha : cstr) (meta : option cstr) : M esp_err_t :=
  let head := close_head clean rows bytes sha in
  if (192 <=? length head)%nat then mret ESP_ERR_INVALID_SIZE else
  write_atomic seq (lit "CLOSE.TMP") (lit "CLOSE.JSN") [Some head; Some (default (lit "null") meta); Some (lit "}" ++ [10])].

Fixpoint remove_entries (seq : Z) (entries : list cstr) : M unit :=
  match entries with
  | [] => mret tt
  | e :: es =>
      let '(ok, p) := path_in seq (Some e) in
      (if ok : bool then unlink p;; mret tt else mret tt);; remove_entries seq es
  end.

Definition espos_sdlog_remove (seq : Z) : M esp_err_t :=
  let '(ok, dir) := path_in seq None in
  if negb ok then mret ESP_ERR_INVALID_SIZE else
  d ← readdir_in o root dir;
  match d with
  | inl enoent => mret (if enoent : bool then ESP_ERR_NOT_FOUND else ESP_FAIL)
  | inr entries =>
      remove_entries seq entries;;
      ok ← rmdir dir;
      mret (if ok : bool then ESP_OK else ESP_FAIL)
  end.

(** A context fresh from [calloc]. *)
Definition sha_fresh : espos_sdlog_sha256_t := Sha256Ctx (replicate 8 0) 0 (replicate 64 0) 0.

(** The rows file of a session whose header is written. *)
Definition open_rows (seq : Z) (cfg : option espos_sdlog_open_cfg_t) : M (esp_err_t * option espos_sdlog_session) :=
  ok ← malloc o 408;
  if negb ok then espos_sdlog_remove seq;; mret (ESP_ERR_NO_MEM, None) else
  f ← fopen_wb (path_in seq (Some ROWS)).2;
  match f with
  | None => espos_sdlog_remove seq;; mret (ESP_FAIL, None)
  | Some f =>
      let every := match cfg with
                   | Some c => if oc_sync_every c =? 0 then ESPOS_SDLOG_SYNC_EVERY_DEFAULT else oc_sync_every c
                   | None => ESPOS_SDLOG_SYNC_EVERY_DEFAULT end in
      mret (ESP_OK, Some (Session f (espos_sdlog_sha256_init sha_fresh) seq 0 0 every 0 (from_option oc_row_crc false cfg) false))
  end.

Definition espos_sdlog_open (header : cstr) (cfg : option espos_sdlog_open_cfg_t) : M (esp_err_t * option espos_sdlog_session) :=
  if (PATH_MAX_LEN <=? length root + 1 + SEQ_DIGITS + 1 + 12)%nat then mret (ESP_ERR_INVALID_ARG, None) else
  err ← mkdir_p;
  if negb (is_ok err) then mret (err, None) else
  seqs ← scan;
  match seqs with
  | inl err => mret (err, None)
  | inr seqs =>
      recorded ← read_last_seq;
      let top := match last seqs with Some top => if top >? recorded then top else recorded | None => recorded end in
      if MAX_SEQ <=? top then mret (ESP_ERR_INVALID_STATE, None) else
      let seq := top + 1 in
      err ← write_last_seq seq;
      if negb (is_ok err) then mret (err, None) else
      made ← mkdir (path_in seq None).2;
      if negb made then mret (ESP_FAIL, None) else
      err ← write_atomic seq (lit "HEAD.TMP") (lit "HEAD.JSN") [Some header; None; None];
      if negb (is_ok err) then espos_sdlog_remove seq;; mret (err, None) else
      open_rows seq cfg
  end.

Definition espos_sdlog_sync (s : espos_sdlog_session) : M (esp_err_t * espos_sdlog_session) :=
  if failed s then mret (ESP_FAIL, s) else
  '(err, f) ← sync_file (rows_f s);
  let s := s <| rows_f := f |> in
  if negb (is_ok err) then mret (ESP_FAIL, s <| failed := true |>) else
  mret (ESP_OK, s <| unsynced := 0 |>).

(** What follows the row: the check value, if asked for, and the newline. *)
Definition row_tail (crc : bool) (row : cstr) : cstr :=
  if crc then snprintf_s 16 ([44] ++ word_hex (espos_sdlog_crc32 0 row) ++ [10]) else [10].

Definition espos_sdlog_append (s : espos_sdlog_session) (row : cstr) : M (esp_err_t * espos_sdlog_session) :=
  if existsb (fun c => (c =? 13) || (c =? 10)) row then mret (ESP_ERR_INVALID_ARG, s) else
  if failed s then mret (ESP_FAIL, s) else
  let tail := row_tail (row_crc s) row in
  '(ok, f) ← fwrite o row (rows_f s);
  if negb ok then mret (ESP_FAIL, s <| rows_f := f |> <| failed := true |>) else
  '(ok, f) ← fwrite o tail f;
  if negb ok then mret (ESP_FAIL, s <| rows_f := f |> <| failed := true |>) else
  let s := s <| rows_f := f |>
             <| sha := espos_sdlog_sha256_update (espos_sdlog_sha256_update (sha s) row) tail |>
             <| s_rows := u64 (s_rows s + 1) |>
             <| s_bytes := u64 (s_bytes s + Z.of_nat (length row + length tail)) |>
             <| unsynced := u32 (unsynced s + 1) |> in
  if unsynced s >=? sync_every s then espos_sdlog_sync s else mret (ESP_OK, s).

Definition espos_sdlog_close (s : espos_sdlog_session) (meta : option cstr) : M esp_err_t :=
  '(ok, f) ← (if failed s then mret (false, rows_f s) else '(err, f) ← sync_file (rows_f s); mret (is_ok err, f));
  closed ← fclose o f;
  if closed && ok then write_close (s_seq s) true (s_rows s) (s_bytes s) (espos_sdlog_sha256_hex (sha s)) meta
  else mret ESP_FAIL.

Definition espos_sdlog_seq (s : option espos_sdlog_session) : Z := from_option s_seq 0 s.
Definition espos_sdlog_rows (s : option espos_sdlog_session) : Z := from_option s_rows 0 s.
Definition espos_sdlog_bytes (s : option espos_sdlog_session) : Z := from_option s_bytes 0 s.

Definition read_close (seq : Z) (info : espos_sdlog_info_t) : M (esp_err_t * espos_sdlog_info_t) :=
  f ← fopen_rb (path_in seq (Some CLOSE)).2;
  match f with
  | inl _ => mret (ESP_FAIL, info)
  | inr data =>
      bad ← fails o SysRead;
      match sscanf_close (c_string (if bad : bool then [] else take 255 data)) with
      | Some (clean, rows, bytes, sha) =>
          if (length sha =? 64)%nat
          then mret (ESP_OK, info <| i_clean := streq clean (lit "true") |> <| i_rows := rows |> <| i_bytes := bytes |> <| i_sha256 := sha |>)
          else mret (ESP_ERR_INVALID_RESPONSE, info)
      | None => mret (ESP_ERR_INVALID_RESPONSE, info)
      end
  end.

Definition espos_sdlog_info (seq : Z) : M (esp_err_t * espos_sdlog_info_t) :=
  let '(ok, p) := path_in seq None in
  st ← (if ok : bool then sys_stat p else mret None);
  if negb (is_stat_dir st) then mret (ESP_ERR_NOT_FOUND, info_zero) else
  synced ← session_file_exists seq SYNCED;
  let out := info_zero <| i_seq := seq |> <| i_synced := synced |> in
  closed ← session_file_exists seq CLOSE;
  if closed : bool then read_close seq (out <| i_closed := true |>) else
  st ← sys_stat (path_in seq (Some ROWS)).2;
  mret (ESP_OK, match st with
                | Some (StFile n) => out <| i_bytes := u64 (Z.of_nat n) |>
                | Some StDir => out <| i_bytes := 0 |>
                | None => out end).

(** The sessions the callback sees, up to the one at which it returns false. *)
Fixpoint list_loop (fn : espos_sdlog_info_t -> bool) (seqs : list Z) : M (list espos_sdlog_info_t) :=
  match seqs with
  | [] => mret []
  | seq :: seqs' =>
      '(err, info) ← espos_sdlog_info seq;
      if is_ok err then if fn info then l ← list_loop fn seqs'; mret (info :: l) else mret [info]
      else list_loop fn seqs'
  end.
Definition espos_sdlog_list (fn : espos_sdlog_info_t -> bool) : M (esp_err_t * list espos_sdlog_info_t) :=
  seqs ← scan;
  match seqs with
  | inl err => mret (err, [])
  | inr seqs => l ← list_loop fn seqs; mret (ESP_OK, l)
  end.

(** ** Recovery *)

(** One byte, then one buffer, of the search for the last complete row:
    [rows], [keep] and [size] so far. *)
Definition count_byte (acc : Z * Z) (at_ : Z) (c : Z) : Z * Z := if c =? 10 then (u64 (acc.1 + 1), u64 (at_ + 1)) else acc.
Fixpoint count_buf (acc : Z * Z) (at_ : Z) (buf : list Z) : Z * Z :=
  match buf with [] => acc | c :: buf' => count_buf (count_byte acc at_ c) (at_ + 1) buf' end.
Definition count_step (acc : Z * Z * Z) (buf : list Z) : Z * Z * Z :=
  let '(rows, keep, size) := acc in
  let '(rows, keep) := count_buf (rows, keep) size buf in (rows, keep, u64 (size + Z.of_nat (length buf))).

(** The first part of [recover_one]: [rows], [keep] and [size], or the error. *)
Definition count_rows (p : cstr) : M (esp_err_t + Z * Z * Z) :=
  f ← fopen_rb p;
  match f with
  | inr data =>
      '(bufs, read_ok) ← fread_all o (S (length data)) 512 data;
      mret (if read_ok : bool then inr (foldl count_step (0, 0, 0) bufs) else inl ESP_FAIL)
  | inl false => mret (inl ESP_FAIL)
  | inl true =>
      f ← fopen_wb p;
      match f with
      | None => mret (inl ESP_FAIL)
      | Some f =>
          '(err, f) ← sync_file f;
          closed ← fclose o f;
          mret (if closed && is_ok err then inr (0, 0, 0) else inl ESP_FAIL)
      end
  end.

(** The last part: hash what is kept and write the close record. *)
Definition hash_and_close (seq : Z) (rows keep : Z) : M esp_err_t :=
  f ← fopen_rb (path_in seq (Some ROWS)).2;
  match f with
  | inl _ => mret ESP_FAIL
  | inr data =>
      '(bufs, read_ok) ← fread_all o (S (length data)) 512 data;
      if negb read_ok then mret ESP_FAIL else
      let sha := foldl espos_sdlog_sha256_update (espos_sdlog_sha256_init sha_fresh) bufs in
      write_close seq false rows keep (espos_sdlog_sha256_hex sha) None
  end.

Definition recover_rows (seq : Z) : M esp_err_t :=
  let p := (path_in seq (Some ROWS)).2 in
  c ← count_rows p;
  match c with
  | inl err => mret err
  | inr (rows, keep, size) =>
      ok ← (if size >? keep then truncate o root p (Z.to_nat keep) else mret true);
      if negb ok then mret ESP_FAIL else hash_and_close seq rows keep
  end.

Definition recover_one (seq : Z) : M esp_err_t :=
  unlink (path_in seq (Some (lit "CLOSE.TMP"))).2;;
  recover_rows seq.

Fixpoint recover_loop (seqs : list Z) (first : esp_err_t) (recovered removed : Z) : M (esp_err_t * Z * Z) :=
  match seqs with
  | [] => mret (first, recovered, removed)
  | seq :: seqs' =>
      closed ← session_file_exists seq CLOSE;
      if closed : bool then recover_loop seqs' first recovered removed else
      headed ← session_file_exists seq HEAD;
      if negb headed then
        err ← espos_sdlog_remove seq;
        recover_loop seqs' (if is_ok first then err else first) recovered (if is_ok err then removed + 1 else removed)
      else
        err ← recover_one seq;
        recover_loop seqs' (if is_ok first then err else first) (if is_ok err then recovered + 1 else recovered) removed
  end.
Definition espos_sdlog_recover : M (esp_err_t * Z * Z) :=
  seqs ← scan;
  match seqs with
  | inl err => mret (err, 0, 0)
  | inr seqs => recover_loop seqs ESP_OK 0 0
  end.

Definition espos_sdlog_mark_synced (seq : Z) (note : option cstr) : M esp_err_t :=
  '(err, info) ← espos_sdlog_info seq;
  if negb (is_ok err) then mret err else
  if negb (i_closed info) then mret ESP_ERR_INVALID_STATE else
  write_atomic seq (lit "SYNCED.TMP") SYNCED [Some (default [] note); None; None].

(** ** Pruning *)

Fixpoint prune_infos (seqs : list Z) (total : Z) : M (list espos_sdlog_info_t * Z) :=
  match seqs with
  | [] => mret ([], total)
  | seq :: seqs' =>
      '(err, info) ← espos_sdlog_info seq;
      let '(info, total) :=
        if is_ok err then (info, u64 (total + i_bytes info))
        else (info <| i_seq := seq |> <| i_synced := false |> <| i_bytes := 0 |>, total) in
      '(l, total) ← prune_infos seqs' total;
      mret (info :: l, total)
  end.

Fixpoint prune_loop (infos : list espos_sdlog_info_t) (keep_bytes total : Z) (first : esp_err_t) (removed : Z)
  : M (esp_err_t * Z) :=
  match infos with
  | [] => mret (first, removed)
  | info :: infos' =>
      if negb (total >? keep_bytes) then mret (first, removed) else
      if negb (i_closed info) || negb (i_synced info) then prune_loop infos' keep_bytes total first removed else
      err ← espos_sdlog_remove (i_seq info);
      if is_ok err then prune_loop infos' keep_bytes (u64 (total - i_bytes info)) first (removed + 1)
      else prune_loop infos' keep_bytes total (if is_ok first then err else first) removed
  end.

Definition espos_sdlog_prune (keep_bytes : Z) : M (esp_err_t * Z) :=
  seqs ← scan;
  match seqs with
  | inl err => mret (err, 0)
  | inr seqs =>
      ok ← (if (length seqs =? 0)%nat then mret true else malloc o (length seqs * 104));
      if negb ok then mret (ESP_ERR_NO_MEM, 0) else
      '(infos, total) ← prune_infos seqs 0;
      prune_loop infos keep_bytes total ESP_OK 0
  end.
End Sdlog.
