(* ===== verification/SdlogRules.v ===== *)
(** Reasoning about power cuts: a weakest precondition with a crash condition,
    and its rules for the file system calls on the files of one place (the root,
    or one session's directory). *)
From Stdlib Require Import ZArith Lia String.
From stdpp Require Import base list numbers gmap.
From S2P Require Import Prelude ConfigDesc Sha256 CardFs SdlogSession.
Open Scope Z_scope.

Section Crash.
Context {W : Type} (o : os W) (root : cstr).
#[local] Abbreviation M := (act fs W fs).

(** The system never refuses a call. *)
Definition reliable : Prop := (forall op w, (os_fail o op w).1 = false) /\ (forall n w, (os_malloc o n w).1 = true).

(** A question after a name is answered. *)
Definition stats : Prop := forall w, (os_fail o SysStat w).1 = false.

Lemma reliable_stats : reliable -> stats.
Proof. intros [H _] w. apply H. Qed.

(** From the tree [x], [m] keeps [P] at every moment and ends with [Q]. *)
Definition cwp {A : Type} (P : fs -> Prop) (m : M A) (Q : A -> fs -> Prop) (x : fs) : Prop :=
  forall w tr, exists new,
    m_trace (m (Mach x w tr)).2 = new ++ tr /\ Forall P new /\ Q (m (Mach x w tr)).1 (m_sm (m (Mach x w tr)).2).

Lemma cwp_ret {A : Type} P (a : A) Q x : Q a x -> cwp P (mret a) Q x.
Proof. intros HQ w tr. by exists []. Qed.

Lemma cwp_bind {A B : Type} P (m : M A) (k : A -> M B) Q x : cwp P m (fun a => cwp P (k a) Q) x -> cwp P (m ≫= k) Q x.
Proof.
  intros Hm w tr. destruct (Hm w tr) as (new & Htr & Hnew & Hk). unfold mbind, act_bind. destruct (m _) as [a [y w' tr']]. cbn [fst snd m_trace m_sm] in *.
  destruct (Hk w' tr') as (new' & Htr' & Hnew' & HQ). exists (new' ++ new). split; [by rewrite Htr', Htr, app_assoc|]. split; [by apply Forall_app|exact HQ].
Qed.

Lemma cwp_mono {A : Type} (P P' : fs -> Prop) (m : M A) (Q Q' : A -> fs -> Prop) x :
  cwp P m Q x -> (forall y, P y -> P' y) -> (forall a y, Q a y -> Q' a y) -> cwp P' m Q' x.
Proof.
  intros Hm HP HQ w tr. destruct (Hm w tr) as (new & Htr & Hnew & Hk). exists new. split_and!; [done| |by apply HQ].
  eapply Forall_impl; [exact Hnew|exact HP].
Qed.

Lemma cwp_post {A : Type} P (m : M A) (Q Q' : A -> fs -> Prop) x : cwp P m Q x -> (forall a y, Q a y -> Q' a y) -> cwp P m Q' x.
Proof. intros Hm HQ. by apply (cwp_mono P P _ _ _ _ Hm). Qed.

Lemma cwp_gets {A : Type} P (f : fs -> A) Q x : Q (f x) x -> cwp P (gets f) Q x.
Proof. intros HQ w tr. by exists []. Qed.

Lemma cwp_query {A : Type} P (f : W -> A * W) Q x : (forall w, Q (f w).1 x) -> cwp P (query f) Q x.
Proof. intros HQ w tr. specialize (HQ w). unfold query. cbn. destruct (f w). by exists []. Qed.

Lemma cwp_touch P (f : fs -> fs) Q x : P (f x) -> Q tt (f x) -> cwp P (touch f) Q x.
Proof. intros HP HQ w tr. exists [f x]. split_and!; [done| |done]. by constructor. Qed.

Lemma cwp_fails P op Q x : (forall b, (reliable -> b = false) -> Q b x) -> cwp P (fails o op) Q x.
Proof. intros HQ. apply cwp_query. intros w. apply HQ. intros [Hr _]. apply Hr. Qed.

Lemma cwp_malloc P n Q x : (forall b, (reliable -> b = true) -> Q b x) -> cwp P (malloc o n) Q x.
Proof. intros HQ. apply cwp_query. intros w. apply HQ. intros [_ Hr]. apply Hr. Qed.

(** * Calls that only look *)

Lemma cwp_stat P p Q x : Q (stat_at x (resolve root p)) x -> (~ stats -> Q None x) -> cwp P (sys_stat o root p) Q x.
Proof.
  intros HQ HN. unfold sys_stat. apply cwp_bind, cwp_query. intros w. apply cwp_bind, cwp_gets, cwp_ret.
  destruct (os_fail o SysStat w).1 eqn:E; [|done]. apply HN. intros Hs. by rewrite Hs in E.
Qed.

Lemma cwp_fopen_rb P p Q x :
  match lookup_loc x (resolve root p) with
  | None => Q (inl true) x
  | Some f => Q (inr (f_data f)) x /\ (~ reliable -> Q (inl false) x)
  end -> cwp P (fopen_rb o root p) Q x.
Proof.
  intros HQ. unfold fopen_rb. apply cwp_bind, cwp_gets. cbn [id]. destruct (lookup_loc _ _); [|by apply cwp_ret].
  destruct HQ as [H1 H2]. apply cwp_bind, cwp_fails. intros [] Hb; apply cwp_ret; [|done]. apply H2. intros Hr. by specialize (Hb Hr).
Qed.

(** The pieces of a file read to its end are the file. *)
Lemma cwp_fread P fuel n data Q x : (0 < n)%nat -> (length data < fuel)%nat ->
  (forall bufs, concat bufs = data -> Q (bufs, true) x) -> (forall bufs, ~ reliable -> Q (bufs, false) x) ->
  cwp P (fread_all o fuel n data) Q x.
Proof.
  intros Hn. revert data Q. induction fuel as [|fuel IH]; intros data Q Hf Hok Hbad; [lia|]. cbn [fread_all].
  apply cwp_bind, cwp_fails. intros [] Hb; [apply cwp_ret, Hbad; intros Hr; by specialize (Hb Hr)|].
  destruct data as [|c data']; [by apply cwp_ret, Hok|]. remember (c :: data') as data eqn:E. apply cwp_bind.
  apply IH; [rewrite length_drop; subst; cbn [length] in *; lia| |].
  - intros bufs Hbufs. apply cwp_ret, Hok. cbn [concat]. by rewrite Hbufs, take_drop.
  - intros bufs Hr. by apply cwp_ret, Hbad.
Qed.

(** * Places *)

(** A directory whose files a function works on: where a name of it is, and the
    tree as a function of its files. *)
Record place := Place { pl_loc : cstr -> loc; pl_put : gmap cstr file -> fs }.

Class PlaceLaws (pl : place) (names : cstr -> Prop) : Prop := {
  pl_lookup F n : lookup_loc (pl_put pl F) (pl_loc pl n) = F !! n;
  pl_alter F n f : alter_loc f (pl_loc pl n) (pl_put pl F) = pl_put pl (partial_alter f n F);
  pl_create F n : names n -> can_create (pl_put pl F) (pl_loc pl n) = true }.

Context (pl : place) (names : cstr -> Prop) `{!PlaceLaws pl names}.
#[local] Abbreviation put := (pl_put pl).

(** The crash condition as one on the files of the place. *)
Definition at_place (PF : gmap cstr file -> Prop) (x : fs) : Prop := exists F, x = put F /\ PF F.

Definition pwp {A : Type} (PF : gmap cstr file -> Prop) (m : M A) (Q : A -> gmap cstr file -> Prop) (F : gmap cstr file) : Prop :=
  cwp (at_place PF) m (fun a y => exists F', y = put F' /\ Q a F') (put F).

Lemma pwp_ret {A : Type} PF (a : A) Q F : Q a F -> pwp PF (mret a) Q F.
Proof. intros HQ. apply cwp_ret. eauto. Qed.

Lemma pwp_bind {A B : Type} PF (m : M A) (k : A -> M B) Q F : pwp PF m (fun a => pwp PF (k a) Q) F -> pwp PF (m ≫= k) Q F.
Proof. intros Hm. apply cwp_bind. eapply cwp_post; [exact Hm|]. intros a y (F' & -> & HQ). exact HQ. Qed.

Lemma pwp_mono {A : Type} (PF PF' : gmap cstr file -> Prop) (m : M A) (Q Q' : A -> gmap cstr file -> Prop) F :
  pwp PF m Q F -> (forall F, PF F -> PF' F) -> (forall a F, Q a F -> Q' a F) -> pwp PF' m Q' F.
Proof.
  intros Hm HP HQ. eapply cwp_mono; [exact Hm| |].
  - intros y (F' & -> & HF). exists F'. auto.
  - intros a y (F' & -> & HF). exists F'. auto.
Qed.

Lemma pwp_cwp {A : Type} PF (m : M A) Q F : cwp (at_place PF) m (fun a y => y = put F /\ Q a F) (put F) -> pwp PF m Q F.
Proof. intros Hm. eapply cwp_post; [exact Hm|]. intros a y [-> HQ]. eauto. Qed.

Lemma pwp_fails PF op Q F : (forall b, (reliable -> b = false) -> Q b F) -> pwp PF (fails o op) Q F.
Proof. intros HQ. apply cwp_fails. eauto. Qed.

Lemma pwp_query {A : Type} PF (f : W -> A * W) Q F : (forall a, Q a F) -> pwp PF (query f) Q F.
Proof. intros HQ. apply cwp_query. eauto. Qed.

Lemma pwp_gets {A : Type} PF (f : fs -> A) Q F : Q (f (put F)) F -> pwp PF (gets f) Q F.
Proof. intros HQ. apply cwp_gets. eauto. Qed.

Lemma pwp_alter PF n f Q F : PF (partial_alter f n F) -> Q tt (partial_alter f n F) ->
  pwp PF (touch (alter_loc f (pl_loc pl n))) Q F.
Proof. intros HP HQ. apply cwp_touch; rewrite pl_alter; [by eexists|eauto]. Qed.

Lemma alter_some (F : gmap cstr file) n f g : F !! n = Some f -> partial_alter (fmap g) n F = <[n := g f]> F.
Proof. intros Hn. apply partial_alter_ext with (f := fmap g) (g := fun _ => Some (g f)). by intros x <-%(eq_trans (eq_sym Hn)). Qed.

(** ** Streams

    A file of the place being written: [text] so far, of which the system has a
    prefix and the stream the rest; at least [k] bytes are on the card. *)

Definition grown (k : nat) (text : list Z) (fl : file) : Prop :=
  file_ok fl /\ (k <= f_synced fl)%nat /\ f_data fl `prefix_of` text.

Definition full (text : list Z) : file := File text (length text).

Definition streams (n : cstr) (F0 : gmap cstr file) (k : nat) (text : list Z) (f : FILE) (F : gmap cstr file) : Prop :=
  fp_at f = pl_loc pl n /\ exists fl, F = <[n := fl]> F0 /\ file_ok fl /\ (k <= f_synced fl)%nat /\ f_data fl ++ fp_buf f = text.

Lemma grown_full text fl : grown (length text) text fl -> fl = full text.
Proof.
  intros (Hok & Hk & [r Hr]). destruct fl as [d n]. unfold file_ok, full in *. cbn in *. subst text. rewrite length_app in *.
  assert (r = []) as -> by (apply nil_length_inv; lia). rewrite app_nil_r. f_equal. cbn in *. lia.
Qed.

Lemma full_grown k text : (k <= length text)%nat -> grown k text (full text).
Proof. intros Hk. by split_and!; unfold file_ok; cbn. Qed.

Lemma grown_mono k k' text text' fl : grown k text fl -> (k' <= k)%nat -> text `prefix_of` text' -> grown k' text' fl.
Proof. intros (H1 & H2 & H3) Hk Ht. split_and!; [done|lia|by etrans]. Qed.

Lemma streams_grown n F0 k text f F : streams n F0 k text f F -> exists fl, F = <[n := fl]> F0 /\ grown k text fl.
Proof. intros (_ & fl & -> & Hok & Hk & <-). exists fl. split_and!; [done|split_and!; [done|done|by eexists]]. Qed.

Lemma pwp_fopen_wb PF p n Q F : resolve root p = pl_loc pl n -> names n ->
  PF (<[n := File [] 0]> F) ->
  (forall f, streams n F 0 [] f (<[n := File [] 0]> F) -> Q (Some f) (<[n := File [] 0]> F)) ->
  (~ reliable -> Q None F) -> pwp PF (fopen_wb o root p) Q F.
Proof.
  intros Hp Hn HP Hok Hbad. unfold fopen_wb. rewrite Hp. apply pwp_bind, pwp_fails. intros b Hb. apply pwp_bind, pwp_gets. cbn [id].
  rewrite pl_create by done. cbn [negb]. rewrite orb_false_r. destruct b; [apply pwp_ret, Hbad; intros Hr; by specialize (Hb Hr)|].
  apply pwp_bind, pwp_alter; [done|]. apply pwp_ret, Hok. split; [done|]. exists (File [] 0). split_and!; try done. unfold file_ok. cbn. lia.
Qed.

Lemma pwp_spill PF n F0 k text f i Q F : streams n F0 k text f F ->
  (forall fl, grown k text fl -> PF (<[n := fl]> F0)) ->
  (forall f' F', streams n F0 k text f' F' -> fp_buf f' = drop i (fp_buf f) -> Q f' F') ->
  pwp PF (spill i f) Q F.
Proof.
  intros (Hat & fl & -> & Hok & Hk & Htext) HP HQ. unfold spill. rewrite Hat.
  assert (E : partial_alter (fmap (append_bytes (take i (fp_buf f)))) n (<[n := fl]> F0) = <[n := append_bytes (take i (fp_buf f)) fl]> F0).
  { rewrite (alter_some _ _ fl) by apply lookup_insert_eq. apply insert_insert_eq. }
  assert (Hok' : file_ok (append_bytes (take i (fp_buf f)) fl)).
  { unfold file_ok in *. cbn. rewrite length_app. lia. }
  assert (Htext' : f_data (append_bytes (take i (fp_buf f)) fl) ++ drop i (fp_buf f) = text).
  { cbn. by rewrite <- app_assoc, take_drop. }
  apply pwp_bind, pwp_alter; rewrite E.
  - apply HP. split_and!; [done|done|by eexists].
  - apply pwp_ret, HQ; [|done]. split; [done|]. eexists. by split_and!.
Qed.

Lemma pwp_fwrite PF n F0 k text b f Q F : streams n F0 k text f F ->
  (forall fl, grown k (text ++ b) fl -> PF (<[n := fl]> F0)) ->
  (forall ok f' F', streams n F0 k (text ++ b) f' F' -> (reliable -> ok = true) -> Q (ok, f') F') ->
  pwp PF (fwrite o b f) Q F.
Proof.
  intros (Hat & fl & -> & Hok & Hk & Htext) HP HQ. unfold fwrite. apply pwp_bind, pwp_fails. intros bad Hb. apply pwp_bind, pwp_query. intros i.
  apply pwp_bind. apply (pwp_spill _ n F0 k (text ++ b)); [|done|].
  - split; [done|]. exists fl. split_and!; [done..|]. cbn. by rewrite app_assoc, Htext.
  - intros f' F' Hs _. apply pwp_ret, HQ; [done|]. intros Hr. by rewrite (Hb Hr).
Qed.

Lemma pwp_fflush PF n F0 k text f Q F : streams n F0 k text f F ->
  (forall fl, grown k text fl -> PF (<[n := fl]> F0)) ->
  (forall ok f' F', streams n F0 k text f' F' -> (reliable -> ok = true) -> (ok = true -> fp_buf f' = []) -> Q (ok, f') F') ->
  pwp PF (fflush o f) Q F.
Proof.
  intros Hs HP HQ. unfold fflush. apply pwp_bind, pwp_fails. intros bad Hb. apply pwp_bind, pwp_query. intros i.
  apply pwp_bind. apply (pwp_spill _ n F0 k text); [done|done|]. intros f' F' Hs' Hd. apply pwp_ret, HQ; [done| |].
  - intros Hr. by rewrite (Hb Hr).
  - destruct bad; [done|]. intros _. by rewrite Hd, drop_all.
Qed.

Lemma pwp_fclose PF n F0 k text f Q F : streams n F0 k text f F ->
  (forall fl, grown k text fl -> PF (<[n := fl]> F0)) ->
  (forall ok fl, grown k text fl -> (reliable -> ok = true) -> Q ok (<[n := fl]> F0)) ->
  pwp PF (fclose o f) Q F.
Proof.
  intros Hs HP HQ. unfold fclose. apply pwp_bind, pwp_fails. intros bad Hb. apply pwp_bind, pwp_query. intros i.
  apply pwp_bind. apply (pwp_spill _ n F0 k text); [done|done|]. intros f' F' Hs' _. apply pwp_ret.
  destruct (streams_grown _ _ _ _ _ _ Hs') as (fl & -> & Hg). apply HQ; [done|]. intros Hr. by rewrite (Hb Hr).
Qed.

(** [sync_file]: on success all of the text is on the card. *)
Lemma pwp_sync_file PF n F0 k text f Q F : streams n F0 k text f F ->
  (forall fl, grown k text fl -> PF (<[n := fl]> F0)) ->
  (forall f' F', streams n F0 (length text) text f' F' -> Q (ESP_OK, f') F') ->
  (forall f' F', streams n F0 k text f' F' -> ~ reliable -> Q (ESP_FAIL, f') F') ->
  pwp PF (sync_file o f) Q F.
Proof.
  intros Hs HP Hok Hbad. unfold sync_file. apply pwp_bind. apply (pwp_fflush _ n F0 k text); [done|done|].
  intros ok f' F' Hs' Hr Hbuf. destruct ok; cbn [negb]; [|apply pwp_ret, Hbad; [done|intros H; by specialize (Hr H)]].
  specialize (Hbuf eq_refl). destruct Hs' as (Hat & fl & -> & Hfl & Hk & Htext). rewrite Hbuf, app_nil_r in Htext.
  unfold fsync. apply pwp_bind, pwp_bind, pwp_fails. intros bad Hb. destruct bad.
  - apply pwp_ret, pwp_ret, Hbad; [|intros H; by specialize (Hb H)]. split; [done|]. exists fl. split_and!; [done..|]. by rewrite Hbuf, app_nil_r.
  - assert (E : partial_alter (fmap sync_up) n (<[n := fl]> F0) = <[n := full text]> F0).
    { rewrite (alter_some _ _ fl) by apply lookup_insert_eq. rewrite insert_insert_eq. unfold sync_up, full. by rewrite Htext. }
    rewrite Hat. assert (Hlen : (k <= length text)%nat) by (unfold file_ok in Hfl; rewrite Htext in Hfl; lia).
    apply pwp_bind, pwp_alter; rewrite E.
    + by apply HP, full_grown.
    + apply pwp_ret, pwp_ret, Hok. split; [done|]. exists (full text). split_and!; [done| |done|cbn; by rewrite Hbuf, app_nil_r].
      unfold file_ok. done.
Qed.

(** ** Names *)

Lemma pwp_unlink PF p n Q F : resolve root p = pl_loc pl n ->
  (is_Some (F !! n) -> PF (delete n F)) ->
  (is_Some (F !! n) -> Q true (delete n F)) -> ((reliable -> F !! n = None) -> Q false F) ->
  pwp PF (unlink o root p) Q F.
Proof.
  intros Hp HP Hok Hbad. unfold unlink. rewrite Hp. apply pwp_bind, pwp_fails. intros b Hb. apply pwp_bind, pwp_gets. cbn [id].
  rewrite pl_lookup. destruct (decide (F !! n = None)) as [Hn|Hn].
  - rewrite bool_decide_true, orb_true_r by done. by apply pwp_ret, Hbad.
  - rewrite bool_decide_false, orb_false_r by done. destruct b.
    + apply pwp_ret, Hbad. intros Hr. by specialize (Hb Hr).
    + apply not_eq_None_Some in Hn. apply pwp_bind, pwp_alter; [by apply HP|]. by apply pwp_ret, Hok.
Qed.

(** Remove a name whether or not it is there. *)
Lemma pwp_unlink_gone PF p n Q F : resolve root p = pl_loc pl n -> PF (delete n F) ->
  (forall ok, Q ok (delete n F)) -> (~ reliable -> Q false F) -> pwp PF (unlink o root p) Q F.
Proof.
  intros Hp HP Hok Hbad. apply (pwp_unlink _ _ n); [done|done|done|]. intros Hr.
  destruct (F !! n) eqn:E; [apply Hbad; intros H; by specialize (Hr H)|]. rewrite <- (delete_id F n E). apply Hok.
Qed.

Lemma pwp_rename PF p q t n fl Q F : resolve root p = pl_loc pl t -> resolve root q = pl_loc pl n -> names n -> t <> n ->
  F !! t = Some fl -> (reliable -> F !! n = None) ->
  PF (<[n := fl]> (delete t F)) -> Q true (<[n := fl]> (delete t F)) -> (~ reliable -> Q false F) ->
  pwp PF (rename o root p q) Q F.
Proof.
  intros Hp Hq Hn Htn Ht Habs HP Hok Hbad. unfold rename. rewrite Hp, Hq. apply pwp_bind, pwp_fails. intros b Hb.
  apply pwp_bind, pwp_gets. cbn [id]. rewrite !pl_lookup, Ht, pl_create by done. cbn [negb]. rewrite orb_false_r.
  destruct b; [apply pwp_ret, Hbad; intros Hr; by specialize (Hb Hr)|]. cbn [orb].
  destruct (F !! n) eqn:E.
  { rewrite bool_decide_true by done. apply pwp_ret, Hbad. intros Hr. by specialize (Habs Hr). }
  rewrite bool_decide_false by (by intros []). apply pwp_bind.
  apply cwp_touch; rewrite !pl_alter; [by eexists|]. eexists. split; [done|]. by apply pwp_ret.
Qed.

(** ** Files written whole or not at all *)

Definition parts_text (parts : list (option cstr)) : cstr := concat (omap id parts).

Lemma pwp_fputs PF n F0 k text parts f Q F : streams n F0 k text f F ->
  (forall fl, grown k (text ++ parts_text parts) fl -> PF (<[n := fl]> F0)) ->
  (forall f' F', streams n F0 k (text ++ parts_text parts) f' F' -> Q (true, f') F') ->
  (forall f' F' text', text' `prefix_of` text ++ parts_text parts -> streams n F0 k text' f' F' -> ~ reliable -> Q (false, f') F') ->
  pwp PF (fputs_all o parts f) Q F.
Proof.
  revert text f F. induction parts as [|[a|] parts IH]; intros text f F Hs HP Hok Hbad; cbn [fputs_all].
  - apply pwp_ret, Hok. unfold parts_text. cbn. by rewrite app_nil_r.
  - change (parts_text (Some a :: parts)) with (a ++ parts_text parts) in *. rewrite app_assoc in *.
    apply pwp_bind. apply (pwp_fwrite _ n F0 k text); [done| |].
    + intros fl Hg. apply HP. eapply grown_mono; [done|done|by eexists].
    + intros ok f' F' Hs' Hr. destruct ok; [by apply (IH (text ++ a))|].
      apply pwp_ret. eapply Hbad; [|done|intros H; by specialize (Hr H)]. by eexists.
  - by apply (IH text).
Qed.

Lemma map_after_rename (F : gmap cstr file) t n fl : t <> n -> <[n := fl]> (delete t (<[t := fl]> (delete n F))) = <[n := fl]> (delete t F).
Proof.
  intros Htn. apply map_eq. intros i. destruct (decide (i = n)) as [->|Hi]; [by rewrite !lookup_insert_eq|]. rewrite !(lookup_insert_ne _ n i) by done.
  destruct (decide (i = t)) as [->|Ht]; [by rewrite !lookup_delete_eq|]. rewrite !lookup_delete_ne, lookup_insert_ne, lookup_delete_ne; done.
Qed.

(** Giving up: the temporary file goes. *)
Lemma pwp_give_up PF p t fl Q F : resolve root p = pl_loc pl t -> PF (<[t := fl]> F) -> (~ reliable -> PF (delete t F)) ->
  ~ reliable -> (forall F', ~ reliable -> PF F' -> Q ESP_FAIL F') ->
  pwp PF (unlink o root p;; mret ESP_FAIL) Q (<[t := fl]> F).
Proof.
  intros Hp HF Hdel Hr Hbad. apply pwp_bind. apply (pwp_unlink_gone _ _ t); [done|rewrite delete_insert_eq; by apply Hdel| |].
  - intros _. rewrite delete_insert_eq. apply pwp_ret, Hbad; auto.
  - intros _. by apply pwp_ret, Hbad.
Qed.

(** The temporary file takes the name. *)
Lemma pwp_take_name PF p q t n fl Q F : resolve root p = pl_loc pl t -> resolve root q = pl_loc pl n -> names n -> t <> n ->
  PF (<[t := fl]> F) -> (~ reliable -> PF (delete t F)) -> PF (<[t := fl]> (delete n F)) -> (~ reliable -> PF (delete t (delete n F))) ->
  PF (<[n := fl]> (delete t F)) ->
  Q ESP_OK (<[n := fl]> (delete t F)) -> (forall F', ~ reliable -> PF F' -> Q ESP_FAIL F') ->
  pwp PF (unlink o root q;; ok ← rename o root p q; if ok : bool then mret ESP_OK else unlink o root p;; mret ESP_FAIL) Q (<[t := fl]> F).
Proof.
  intros Hp Hq Hn Htn HF Hdel Hfull Hboth Hdone Hok Hbad. apply pwp_bind.
  assert (Hsw : delete n (<[t := fl]> F) = <[t := fl]> (delete n F)) by (by rewrite delete_insert_ne by done).
  apply (pwp_unlink _ _ n); [done|by rewrite Hsw| |].
  - intros _. rewrite Hsw. rewrite <- (map_after_rename F t n) in Hdone, Hok by done.
    apply pwp_bind. apply (pwp_rename _ _ _ t n fl); try done.
    + by rewrite lookup_insert_eq.
    + intros _. rewrite lookup_insert_ne by done. by rewrite lookup_delete_eq.
    + by apply pwp_ret.
    + intros Hr. by apply pwp_give_up.
  - intros Habs. rewrite lookup_insert_ne in Habs by done. assert (E : delete t (<[t := fl]> F) = delete t F) by apply delete_insert_eq.
    apply pwp_bind. apply (pwp_rename _ _ _ t n fl); try done.
    + by rewrite lookup_insert_eq.
    + by rewrite lookup_insert_ne.
    + by rewrite E.
    + rewrite E. by apply pwp_ret.
    + intros Hr. by apply pwp_give_up.
Qed.

Lemma pwp_write_file_atomic PF p q t n parts Q F :
  let T := parts_text parts in
  resolve root p = pl_loc pl t -> resolve root q = pl_loc pl n -> names t -> names n -> t <> n ->
  PF F -> (forall fl, grown 0 T fl -> PF (<[t := fl]> F)) -> (~ reliable -> PF (delete t F)) ->
  PF (<[t := full T]> (delete n F)) -> (~ reliable -> PF (delete t (delete n F))) -> PF (<[n := full T]> (delete t F)) ->
  Q ESP_OK (<[n := full T]> (delete t F)) -> (forall F', ~ reliable -> PF F' -> Q ESP_FAIL F') ->
  pwp PF (write_file_atomic o root p q parts) Q F.
Proof.
  intros T Hp Hq Ht Hn Htn HF Hpart Hdel Hfull Hboth Hdone Hok Hbad. unfold write_file_atomic. apply pwp_bind.
  apply (pwp_fopen_wb _ _ t); [done|done|apply Hpart; split_and!; [unfold file_ok; cbn; lia|cbn; lia|apply prefix_nil]| |].
  2:{ intros Hr. apply pwp_ret. by apply Hbad. }
  intros f Hs. apply pwp_bind. apply (pwp_fputs _ t F 0 [] parts); [done|done| |].
  2:{ intros f' F' text Hpre Hs' Hr. apply pwp_bind, pwp_ret, pwp_bind.
      assert (Hpart' : forall fl, grown 0 text fl -> PF (<[t := fl]> F)) by (intros fl Hg; apply Hpart; by eapply grown_mono).
      apply (pwp_fclose _ t F 0 text); [done|done|]. intros closed fl Hg _. rewrite andb_false_r. apply pwp_give_up; auto. }
  intros f1 F1 Hs1. apply pwp_bind, pwp_bind. apply (pwp_sync_file _ t F 0 T); [done|done| |].
  2:{ intros f' F' Hs' Hr. apply pwp_ret, pwp_bind. apply (pwp_fclose _ t F 0 T); [done|done|].
      intros closed fl Hg _. change (is_ok ESP_FAIL) with false. rewrite andb_false_r. apply pwp_give_up; auto. }
  intros f2 F2 Hs2. apply pwp_ret, pwp_bind. apply (pwp_fclose _ t F (length T) T); [done| |].
  { intros fl Hg. apply Hpart. eapply grown_mono; [done|lia|done]. }
  intros closed fl Hg Hc. apply grown_full in Hg as ->. change (is_ok ESP_OK) with true. rewrite andb_true_r.
  assert (HT : PF (<[t := full T]> F)) by (apply Hpart, full_grown; lia).
  destruct closed; cbn [negb]; [by apply (pwp_take_name _ _ _ t n)|].
  apply pwp_give_up; auto. intros H. by specialize (Hc H).
Qed.
End Crash.
