(* ===== verification/SdlogPaths.v ===== *)
(** The names of the log: session directories as eight digits, paths within their
    buffers, and the places (the root, one session) the calls work on. *)
From Stdlib Require Import ZArith Lia String.
From stdpp Require Import base list numbers gmap.
From S2P Require Import Prelude ConfigDesc Sha256 CardFs SdlogSession SdlogRules.
Open Scope Z_scope.

Definition is_seq (q : Z) : Prop := 0 <= q <= MAX_SEQ.

(** * Directory names *)

Lemma dir_name_fixed q : is_seq q -> dir_name q = dec_fixed 8 q.
Proof. intros Hq. apply fmt_0d_fixed; [unfold SEQ_DIGITS; lia|]. unfold is_seq, MAX_SEQ, SEQ_DIGITS in *. change (10 ^ Z.of_nat 8) with 100000000. lia. Qed.

Lemma dec_fixed_digits w n : Forall (fun c => isdigit c = true) (dec_fixed w n).
Proof.
  revert n. induction w as [|w IH]; intros n; [constructor|]. cbn [dec_fixed]. apply Forall_app. split; [apply IH|]. constructor; [|constructor].
  unfold isdigit. pose proof (Z.mod_pos_bound n 10 ltac:(lia)). apply andb_true_iff. split; apply Z.leb_le; lia.
Qed.

Fixpoint value_of (v : Z) (s : cstr) : Z := match s with [] => v | c :: s' => value_of (v * 10 + (c - 48)) s' end.

Lemma value_of_app v s c : value_of v (s ++ [c]) = value_of v s * 10 + (c - 48).
Proof. revert v. induction s as [|x s IH]; intros v; [done|]. cbn. apply IH. Qed.

Lemma value_of_fixed w n : 0 <= n < 10 ^ Z.of_nat w -> value_of 0 (dec_fixed w n) = n.
Proof.
  revert n. induction w as [|w IH]; intros n Hn; [cbn in *; lia|]. rewrite Nat2Z.inj_succ, Z.pow_succ_r in Hn by lia.
  cbn [dec_fixed]. rewrite value_of_app, IH; [div_lia|]. revert Hn. generalize (10 ^ Z.of_nat w). intros. div_lia.
Qed.

Lemma digit_range c : isdigit c = true <-> 48 <= c <= 57.
Proof. unfold isdigit. rewrite andb_true_iff, !Z.leb_le. lia. Qed.

(** A string of [w] digits is the fixed-width print of its value. *)
Lemma fixed_value_of s v w : Forall (fun c => isdigit c = true) s -> 0 <= v < 10 ^ Z.of_nat w ->
  dec_fixed (w + length s) (value_of v s) = dec_fixed w v ++ s /\ 0 <= value_of v s < 10 ^ Z.of_nat (w + length s).
Proof.
  revert v w. induction s as [|c s IH]; intros v w Hs Hv; cbn [value_of length].
  { by rewrite Nat.add_0_r, app_nil_r. }
  apply Forall_cons in Hs as [Hc Hs]. apply digit_range in Hc.
  destruct (IH (v * 10 + (c - 48)) (S w) Hs) as [H1 H2].
  { rewrite Nat2Z.inj_succ, Z.pow_succ_r by lia. revert Hv. generalize (10 ^ Z.of_nat w). intros. lia. }
  replace (w + S (length s))%nat with (S w + length s)%nat by lia. rewrite H1. split; [|done].
  cbn [dec_fixed]. rewrite <- app_assoc. cbn [app].
  replace ((v * 10 + (c - 48)) / 10) with v by div_lia. replace (48 + (v * 10 + (c - 48)) mod 10) with c by div_lia. done.
Qed.

Lemma parse_loop_spec w name v r q : 0 <= v -> (v + 1) * 10 ^ Z.of_nat w <= 2 ^ 32 ->
  parse_loop w name v = Some (q, r) <->
  exists s, name = s ++ r /\ length s = w /\ Forall (fun c => isdigit c = true) s /\ q = value_of v s.
Proof.
  revert name v. induction w as [|w IH]; intros name v Hv Hw; cbn [parse_loop].
  { split; [intros [= -> ->]; by exists []|]. intros (s & -> & Hs & _ & ->). apply nil_length_inv in Hs as ->. done. }
  rewrite Nat2Z.inj_succ, Z.pow_succ_r in Hw by lia. assert (0 < 10 ^ Z.of_nat w) by (apply Z.pow_pos_nonneg; lia).
  destruct name as [|c name]; [split; [done|]; by intros ([|] & ? & ? & _)|].
  destruct (isdigit c) eqn:Hc.
  - apply digit_range in Hc. assert (((c <? 48) || (57 <? c)) = false) as -> by (apply orb_false_iff; split; apply Z.ltb_ge; lia).
    assert ((v * 10 + (c - 48) + 1) * 10 ^ Z.of_nat w <= 2 ^ 32) by nia.
    assert (u32 (v * 10 + (c - 48)) = v * 10 + (c - 48)) as -> by (unfold u32; apply Z.mod_small; nia).
    rewrite IH by lia. split.
    + intros (s & -> & Hl & Hs & ->). exists (c :: s). split_and!; [done|cbn; by rewrite Hl| |done]. constructor; [|done]. by apply digit_range.
    + intros ([|x s] & Hn & Hl & Hs & ->); [done|]. injection Hn as -> ->. apply Forall_cons in Hs as [_ Hs]. injection Hl as Hl. by exists s.
  - assert (((c <? 48) || (57 <? c)) = true) as ->.
    { destruct (Z.ltb_spec c 48); [done|]. destruct (Z.ltb_spec 57 c); [done|]. exfalso. assert (isdigit c = true) by (apply digit_range; lia). congruence. }
    split; [done|]. intros ([|x s] & Hn & Hl & Hs & _); [done|]. injection Hn as -> ->. apply Forall_cons in Hs as [Hx _]. congruence.
Qed.

Lemma parse_seq_spec d q : parse_seq d = Some q <-> is_seq q /\ d = dir_name q.
Proof.
  unfold parse_seq, SEQ_DIGITS. split.
  - destruct (parse_loop 8 d 0) as [[v [|]]|] eqn:E; try done. intros [= ->]. apply parse_loop_spec in E as (s & -> & Hl & Hs & ->); [|lia|cbn; lia].
    rewrite app_nil_r. destruct (fixed_value_of s 0 0 Hs ltac:(cbn; lia)) as [H1 H2]. rewrite Hl in *. cbn [Nat.add dec_fixed app] in *.
    change (10 ^ Z.of_nat 8) with 100000000 in H2. assert (is_seq (value_of 0 s)) by (unfold is_seq, MAX_SEQ; lia).
    split; [done|]. by rewrite dir_name_fixed.
  - intros [Hq ->]. rewrite dir_name_fixed by done.
    assert (parse_loop 8 (dec_fixed 8 q) 0 = Some (q, [])) as ->; [|done]. apply parse_loop_spec; [lia|cbn; lia|].
    exists (dec_fixed 8 q). rewrite app_nil_r, length_dec_fixed, value_of_fixed; [split_and!; [done|done|apply dec_fixed_digits|done]|].
    unfold is_seq, MAX_SEQ in Hq. change (10 ^ Z.of_nat 8) with 100000000. lia.
Qed.

Lemma dir_name_inj p q : is_seq p -> is_seq q -> dir_name p = dir_name q -> p = q.
Proof. intros Hp Hq E. assert (parse_seq (dir_name p) = Some p) by (by apply parse_seq_spec). assert (parse_seq (dir_name q) = Some q) by (by apply parse_seq_spec). congruence. Qed.

(** * Paths *)

Definition no_slash (n : cstr) : Prop := Forall (fun c => c <> 47) n.

Lemma dir_name_plain q : is_seq q -> no_slash (dir_name q) /\ length (dir_name q) = 8%nat.
Proof.
  intros Hq. rewrite dir_name_fixed, length_dec_fixed by done. split; [|done]. eapply Forall_impl; [apply dec_fixed_digits|].
  intros c Hc%digit_range. lia.
Qed.

Lemma strip_app p s : strip p (p ++ s) = Some s.
Proof. induction p as [|x p IH]; [done|]. cbn. by rewrite Z.eqb_refl. Qed.

Lemma split_slash_plain n : no_slash n -> split_slash n = (n, None).
Proof. induction 1 as [|c n Hc Hn IH]; [done|]. cbn. rewrite (proj2 (Z.eqb_neq c 47)), IH by done. done. Qed.

Lemma split_slash_app n r : no_slash n -> split_slash (n ++ 47 :: r) = (n, Some r).
Proof. induction 1 as [|c n Hc Hn IH]; [done|]. cbn. rewrite (proj2 (Z.eqb_neq c 47)), IH by done. done. Qed.

Section Paths.
Context (root : cstr) (root_fits : (length root + 22 < PATH_MAX_LEN)%nat).

Lemma snprintf_fits s : (length s < PATH_MAX_LEN)%nat -> snprintf_s PATH_MAX_LEN s = s.
Proof. intros Hs. unfold snprintf_s, PATH_MAX_LEN in *. apply take_ge. cbn. lia. Qed.

Lemma resolve_root n : no_slash n -> resolve root (root ++ slash ++ n) = LRoot n.
Proof. intros Hn. unfold resolve. rewrite strip_app. cbn. by rewrite split_slash_plain. Qed.

Lemma resolve_in d n : no_slash d -> resolve root (root ++ slash ++ d ++ 47 :: n) = LIn d n.
Proof. intros Hn. unfold resolve. rewrite strip_app. cbn. by rewrite split_slash_app. Qed.

Lemma root_path_at n : no_slash n -> (length n <= 12)%nat -> resolve root (root_path root n) = LRoot n.
Proof.
  intros Hn Hl. unfold root_path. rewrite snprintf_fits; [by apply resolve_root|]. unfold slash, PATH_MAX_LEN in *. rewrite !length_app. cbn. lia.
Qed.

Lemma path_in_dir q : is_seq q -> path_in root q None = (true, root ++ slash ++ dir_name q) /\ resolve root (root ++ slash ++ dir_name q) = LRoot (dir_name q).
Proof.
  intros Hq. destruct (dir_name_plain q Hq) as [Hn Hl]. split; [|by apply resolve_root]. unfold path_in. rewrite app_nil_r.
  assert (length (root ++ slash ++ dir_name q) < PATH_MAX_LEN)%nat by (unfold slash, PATH_MAX_LEN in *; rewrite !length_app, Hl; cbn; lia).
  rewrite snprintf_fits by done. f_equal. by apply Nat.ltb_lt.
Qed.

Lemma path_in_file q n : is_seq q -> (length n <= 12)%nat ->
  path_in root q (Some n) = (true, root ++ slash ++ dir_name q ++ 47 :: n) /\
  resolve root (root ++ slash ++ dir_name q ++ 47 :: n) = LIn (dir_name q) n.
Proof.
  intros Hq Hln. destruct (dir_name_plain q Hq) as [Hn Hl]. split; [|by apply resolve_in]. unfold path_in.
  assert (Nat.lt (length (root ++ slash ++ dir_name q ++ 47 :: n)) PATH_MAX_LEN).
  { unfold slash, PATH_MAX_LEN in *. rewrite !length_app, Hl. cbn. lia. }
  rewrite snprintf_fits by done. f_equal. by apply Nat.ltb_lt.
Qed.

(** A path in a session's directory that fits its buffer names what it says. *)
Lemma path_in_any q n p : is_seq q -> path_in root q (Some n) = (true, p) -> resolve root p = LIn (dir_name q) n.
Proof.
  intros Hq. unfold path_in. intros [= Hl <-]. apply Nat.ltb_lt in Hl. rewrite snprintf_fits by done. by apply resolve_in, dir_name_plain.
Qed.
End Paths.

(** * Places *)

Definition root_place (x : fs) : place := Place LRoot (fun F => x <| fs_files := F |>).
Definition dir_place (x : fs) (d : cstr) : place := Place (LIn d) (fun D => x <| fs_dirs ::= insert d D |>).

#[export] Instance root_place_laws x : PlaceLaws (root_place x) (fun n => fs_root x = true /\ fs_dirs x !! n = None).
Proof. split; try done. intros F n [Hr Hd]. cbn. by rewrite Hr, bool_decide_true. Qed.

#[export] Instance dir_place_laws x d : PlaceLaws (dir_place x d) (fun _ => True).
Proof.
  split.
  - intros F n. cbn. by rewrite lookup_insert_eq.
  - intros F n f. destruct x. unfold alter_loc, dir_place. cbn. f_equal. by rewrite alter_insert_eq.
  - intros F n _. cbn. rewrite lookup_insert_eq. by apply bool_decide_true.
Qed.

Lemma root_place_id x : x = pl_put (root_place x) (fs_files x).
Proof. by destruct x. Qed.

Lemma dir_place_id x d D : fs_dirs x !! d = Some D -> x = pl_put (dir_place x d) D.
Proof. intros Hd. destruct x. cbn in *. unfold dir_place. cbn. f_equal. by rewrite insert_id. Qed.
