(* ===== verification/SdlogInv.v ===== *)
(** What is on the card: complete rows, the close record, the invariant of a
    session's directory, and that a power cut keeps it. *)
From Stdlib Require Import ZArith Lia String.
From stdpp Require Import base list numbers gmap.
From S2P Require Import Prelude ConfigDesc Sha256 CardFs SdlogSession SdlogRules SdlogPaths.
Open Scope Z_scope.

Abbreviation HEAD := (FILE_NAMES ESPOS_SDLOG_FILE_HEADER).
Abbreviation ROWS := (FILE_NAMES ESPOS_SDLOG_FILE_ROWS).
Abbreviation CLOSE := (FILE_NAMES ESPOS_SDLOG_FILE_CLOSE).
Abbreviation SYNCED := (FILE_NAMES ESPOS_SDLOG_FILE_SYNCED).
Abbreviation CLOSE_TMP := (lit "CLOSE.TMP").
Abbreviation HEAD_TMP := (lit "HEAD.TMP").
Abbreviation SYNCED_TMP := (lit "SYNCED.TMP").

(** * Rows *)

Fixpoint newlines (d : list Z) : nat := match d with [] => 0 | c :: d' => ((if (c =? 10)%Z then 1 else 0) + newlines d')%nat end.

(** The complete rows at the front of the data: up to the last newline. *)
Fixpoint keep_rows (d : list Z) : list Z :=
  match d with
  | [] => []
  | c :: d' => match keep_rows d' with [] => if c =? 10 then [c] else [] | r => c :: r end
  end.

(** Nothing but complete rows. *)
Definition whole (d : list Z) : Prop := keep_rows d = d.

Lemma newlines_app a b : newlines (a ++ b) = (newlines a + newlines b)%nat.
Proof. induction a as [|c a IH]; [done|]. cbn. rewrite IH. lia. Qed.

Lemma keep_rows_nil d : keep_rows d = [] <-> newlines d = 0%nat.
Proof.
  induction d as [|c d IH]; [done|]. cbn. destruct (keep_rows d) as [|x r].
  - rewrite (proj1 IH) by done. destruct (c =? 10); split; done || lia.
  - split; [done|]. intros H. assert (newlines d = 0%nat) as H0 by lia. apply IH in H0. done.
Qed.

Lemma keep_rows_app a b : keep_rows (a ++ b) = match keep_rows b with [] => keep_rows a | r => a ++ r end.
Proof.
  induction a as [|c a IH]; [cbn; by destruct (keep_rows b)|]. cbn [app keep_rows]. rewrite IH. destruct (keep_rows b) as [|x r]; [done|].
  by destruct a.
Qed.

Lemma keep_rows_prefix d : keep_rows d `prefix_of` d.
Proof.
  induction d as [|c d [r Hr]]; [done|]. cbn. destruct (keep_rows d) as [|x l] eqn:E.
  - destruct (c =? 10); [by exists d|apply prefix_nil].
  - exists r. by rewrite Hr at 1.
Qed.

Lemma keep_rows_whole d : whole (keep_rows d).
Proof.
  unfold whole. induction d as [|c d IH]; [done|]. cbn. destruct (keep_rows d) as [|x l] eqn:E.
  - destruct (c =? 10) eqn:Ec; [|done]. cbn. by rewrite Ec.
  - cbn [keep_rows]. cbn [keep_rows] in IH. rewrite IH. done.
Qed.

Lemma newlines_keep d : newlines (keep_rows d) = newlines d.
Proof.
  induction d as [|c d IH]; [done|]. cbn. destruct (keep_rows d) as [|x l] eqn:E.
  - apply keep_rows_nil in E. rewrite E. destruct (c =? 10) eqn:Ec; cbn; [by rewrite Ec|done].
  - cbn [newlines] in *. lia.
Qed.

Lemma keep_rows_len d : (length (keep_rows d) <= length d)%nat.
Proof. apply prefix_length, keep_rows_prefix. Qed.

Lemma keep_rows_take d : take (length (keep_rows d)) d = keep_rows d.
Proof. destruct (keep_rows_prefix d) as [r Hr]. rewrite Hr at 2. apply take_app_length. Qed.

Lemma newlines_len d : (newlines d <= length d)%nat.
Proof. induction d as [|c d IH]; [done|]. cbn. destruct (c =? 10); lia. Qed.

Lemma whole_app a b : whole a -> whole b -> whole (a ++ b).
Proof.
  intros Ha Hb. unfold whole in *. rewrite keep_rows_app, Hb. destruct b; [by rewrite app_nil_r|done].
Qed.

Lemma whole_row r : whole (r ++ [10]).
Proof. unfold whole. by rewrite keep_rows_app. Qed.

(** Complete rows that a prefix of the data holds are among its complete rows. *)
Lemma whole_prefix a d : whole a -> a `prefix_of` d -> a `prefix_of` keep_rows d.
Proof. intros Ha [r ->]. rewrite keep_rows_app. destruct (keep_rows r); [by rewrite Ha|by eexists]. Qed.

(** The search of [recover_one]. *)
Lemma count_buf_spec buf r k a : 0 <= r -> 0 <= a -> r + Z.of_nat (length buf) < 2 ^ 64 -> a + Z.of_nat (length buf) < 2 ^ 64 ->
  count_buf (r, k) a buf =
  (r + Z.of_nat (newlines buf), match keep_rows buf with [] => k | l => a + Z.of_nat (length l) end).
Proof.
  revert r k a. induction buf as [|c buf IH]; intros r k a Hr Ha Hrl Hal; [cbn; by rewrite Z.add_0_r|].
  cbn [length] in *. rewrite Nat2Z.inj_succ in *. cbn [count_buf newlines keep_rows]. unfold count_byte. destruct (c =? 10).
  - unfold u64. rewrite !Z.mod_small by (cbn [fst]; lia). cbn [fst]. rewrite IH by lia. f_equal; [lia|].
    destruct (keep_rows buf); cbn [length]; lia.
  - rewrite IH by lia. f_equal. destruct (keep_rows buf); cbn [length]; [done|lia].
Qed.

Lemma count_steps_spec bufs d : Z.of_nat (length (d ++ concat bufs)) < 2 ^ 64 ->
  foldl count_step (Z.of_nat (newlines d), Z.of_nat (length (keep_rows d)), Z.of_nat (length d)) bufs =
  (Z.of_nat (newlines (d ++ concat bufs)), Z.of_nat (length (keep_rows (d ++ concat bufs))), Z.of_nat (length (d ++ concat bufs))).
Proof.
  revert d. induction bufs as [|b bufs IH]; intros d Hl; [cbn; by rewrite app_nil_r|]. cbn [concat foldl] in *. rewrite app_assoc in *.
  assert (Hdb : Z.of_nat (length d + length b) < 2 ^ 64).
  { rewrite !length_app in Hl. lia. }
  pose proof (newlines_len d). unfold count_step at 2. rewrite count_buf_spec by lia. rewrite <- IH by done. f_equal.
  rewrite newlines_app, keep_rows_app, length_app. unfold u64. rewrite Z.mod_small by lia.
  repeat f_equal; [lia| |lia]. destruct (keep_rows b); [done|]. rewrite length_app. lia.
Qed.

(** * The close record *)

Definition close_text (clean : bool) (data : list Z) (meta : option cstr) : cstr :=
  close_head clean (u64 (Z.of_nat (newlines data))) (u64 (Z.of_nat (length data))) (sha256 data) ++ default (lit "null") meta ++ lit "}" ++ [10].

(** * The directory of a session *)

(** What callers pass as headers. *)
Class Headers := is_header : cstr -> Prop.

Section Inv.
Context {HS : Headers}.

(** Files with 8.3 names; a header is whole, one that was passed to [open]; a close record is whole, of rows that
    are all on the card, and of a session with a header. *)
Definition entry_ok (n : cstr) (f : file) : Prop := file_ok f /\ (length n <= 12)%nat.

Record dir_ok (D : gmap cstr file) : Prop := {
  ok_files : map_Forall entry_ok D;
  ok_head h : D !! HEAD = Some h -> durable h /\ is_header (f_data h);
  ok_close c : D !! CLOSE = Some c ->
    durable c /\ is_Some (D !! HEAD) /\
    exists r clean meta, D !! ROWS = Some r /\ durable r /\ whole (f_data r) /\ f_data c = close_text clean (f_data r) meta }.

(** The card: a name is a file or a directory, no directory has the name of a file of
    the log, and every session is sound. *)
Record card_ok (x : fs) : Prop := {
  card_names n : fs_files x !! n = None \/ fs_dirs x !! n = None;
  card_seq : fs_dirs x !! LAST_SEQ_FILE = None /\ fs_dirs x !! LAST_SEQ_TMP = None;
  card_dirs q D : is_seq q -> fs_dirs x !! dir_name q = Some D -> dir_ok D }.

Lemma cut_durable f f' : durable f -> cut_file f f' -> f' = f.
Proof.
  intros Hd Hc. destruct Hc as [f n Hn]. unfold durable in Hd. rewrite Hd in Hn. assert (n = length (f_data f)) as -> by lia.
  rewrite take_ge by lia. destruct f. cbn in *. by subst.
Qed.

Lemma cut_whole f f' : cut_file f f' -> durable f' /\ file_ok f' /\ f_data f' `prefix_of` f_data f.
Proof.
  intros [g n Hn]. unfold durable, file_ok. cbn. rewrite length_take. split_and!; [lia|lia|]. by apply prefix_take.
Qed.

Lemma cut_lookup D D' n : cut_files D D' ->
  match D !! n, D' !! n with Some f, Some f' => cut_file f f' | None, None => True | _, _ => False end.
Proof. intros Hc. specialize (Hc n). unfold option_relation in Hc. by destruct (D !! n), (D' !! n). Qed.

Lemma cut_files_ok D D' : cut_files D D' -> dir_ok D -> dir_ok D'.
Proof.
  intros Hc [Hf Hh Hcl]. split.
  - intros n f' Hn. pose proof (cut_lookup _ _ n Hc) as C. rewrite Hn in C. destruct (D !! n) as [f|] eqn:E; [|done].
    apply cut_whole in C as (_ & ? & _). split; [done|]. apply (Hf n f E).
  - intros h' Hn. pose proof (cut_lookup _ _ HEAD Hc) as C. rewrite Hn in C. destruct (D !! HEAD) as [h|] eqn:E; [|done].
    apply cut_durable in C as ->; by apply Hh.
  - intros c' Hn. pose proof (cut_lookup _ _ CLOSE Hc) as C. rewrite Hn in C. destruct (D !! CLOSE) as [c|] eqn:E; [|done].
    destruct (Hcl c eq_refl) as (Hd & [h Hhead] & r & clean & meta & Hr & Hdr & Hw & Htext). apply cut_durable in C as ->; [|done].
    split; [done|]. split.
    { pose proof (cut_lookup _ _ HEAD Hc) as C. rewrite Hhead in C. destruct (D' !! HEAD); [done|]. done. }
    exists r, clean, meta. pose proof (cut_lookup _ _ ROWS Hc) as C. rewrite Hr in C. destruct (D' !! ROWS) as [r'|] eqn:Er; [|done].
    apply cut_durable in C as ->; [|done]. done.
Qed.

Lemma cut_none x y n : cut x y -> (fs_files y !! n = None <-> fs_files x !! n = None) /\ (fs_dirs y !! n = None <-> fs_dirs x !! n = None).
Proof.
  intros [_ Ht Hd]. split.
  - pose proof (cut_lookup _ _ n Ht). destruct (fs_files x !! n), (fs_files y !! n); done.
  - specialize (Hd n). unfold option_relation in Hd. destruct (fs_dirs x !! n), (fs_dirs y !! n); done.
Qed.

Lemma cut_card_ok x y : cut x y -> card_ok x -> card_ok y.
Proof.
  intros Hc [Hn Hs Hx]. split.
  - intros n. destruct (cut_none x y n Hc) as [-> ->]. apply Hn.
  - rewrite !(proj2 (cut_none x y _ Hc)). apply Hs.
  - intros q D' Hq HD'. destruct Hc as [_ _ Hd]. specialize (Hd (dir_name q)). rewrite HD' in Hd.
    destruct (fs_dirs x !! dir_name q) as [D|] eqn:E; [|done]. eapply cut_files_ok; [exact Hd|]. by apply (Hx q).
Qed.

(** Files the invariant does not speak of may be anything sound. *)
Definition plain_name (n : cstr) : Prop := n <> HEAD /\ n <> ROWS /\ n <> CLOSE.

Lemma dir_ok_insert D n f : plain_name n -> entry_ok n f -> dir_ok D -> dir_ok (<[n := f]> D).
Proof.
  intros (H1 & H2 & H3) Hf [Hall Hh Hc]. split.
  - by apply map_Forall_insert_2.
  - intros h. rewrite lookup_insert_ne by done. apply Hh.
  - intros c. rewrite !lookup_insert_ne by done. apply Hc.
Qed.

Lemma dir_ok_delete D n : plain_name n -> dir_ok D -> dir_ok (delete n D).
Proof.
  intros (H1 & H2 & H3) [Hall Hh Hc]. split.
  - by apply map_Forall_delete.
  - intros h. rewrite lookup_delete_ne by done. apply Hh.
  - intros c. rewrite !lookup_delete_ne by done. apply Hc.
Qed.

(** Without a close record only the header must be whole. *)
Lemma dir_ok_open D : map_Forall entry_ok D -> (forall h, D !! HEAD = Some h -> durable h /\ is_header (f_data h)) -> D !! CLOSE = None -> dir_ok D.
Proof. intros H1 H2 H3. split; [done|done|]. intros c. by rewrite H3. Qed.

Lemma dir_ok_rows D f : file_ok f -> dir_ok D -> D !! CLOSE = None -> dir_ok (<[ROWS := f]> D).
Proof.
  intros Hf [Hall Hh _] Hc. apply dir_ok_open.
  - apply map_Forall_insert_2; [|done]. split; [done|cbn; lia].
  - intros h. rewrite lookup_insert_ne by done. apply Hh.
  - by rewrite lookup_insert_ne.
Qed.

(** Some of the files of a directory without a close record. *)
Lemma dir_ok_subset D D' : dir_ok D -> D !! CLOSE = None -> D' ⊆ D -> dir_ok D'.
Proof.
  intros [Hall Hh _] Hc Hsub. apply dir_ok_open.
  - intros n f Hn. apply (Hall n). by eapply lookup_weaken.
  - intros h Hn. apply Hh. by eapply lookup_weaken.
  - destruct (D' !! CLOSE) eqn:E; [|done]. by rewrite (lookup_weaken _ _ _ _ E Hsub) in Hc.
Qed.

Lemma full_ok t : file_ok (full t) /\ durable (full t).
Proof. by unfold file_ok, durable. Qed.

(** * Lifting a directory's argument to the card *)

Lemma dir_name_not_seq q : is_seq q -> dir_name q <> LAST_SEQ_FILE /\ dir_name q <> LAST_SEQ_TMP.
Proof. intros Hq. destruct (dir_name_plain q Hq) as [_ Hl]. split; intros E; by rewrite E in Hl. Qed.

Lemma card_ok_put x q D : is_seq q -> card_ok x -> fs_files x !! dir_name q = None -> dir_ok D ->
  card_ok (pl_put (dir_place x (dir_name q)) D).
Proof.
  intros Hq [Hn Hs Hx] Hf HD. destruct (dir_name_not_seq q Hq) as [N1 N2]. split.
  - intros n. cbn. destruct (decide (n = dir_name q)) as [->|Hne]; [by left|]. rewrite lookup_insert_ne by done. apply Hn.
  - cbn. by rewrite !lookup_insert_ne.
  - intros p D' Hp. cbn. destruct (decide (p = q)) as [->|Hne]; [rewrite lookup_insert_eq; by intros [= <-]|].
    rewrite lookup_insert_ne; [by apply Hx|]. intros E. apply Hne. symmetry. by apply dir_name_inj.
Qed.

Lemma card_dir_file x n D : card_ok x -> fs_dirs x !! n = Some D -> fs_files x !! n = None.
Proof. intros [Hn _ _] HD. destruct (Hn n); congruence. Qed.

Lemma pwp_card {W A : Type} (x : fs) (q : Z) (D : gmap cstr file) (PF : gmap cstr file -> Prop) (m : act fs W fs A)
    (Q : A -> gmap cstr file -> Prop) :
  is_seq q -> card_ok x -> fs_dirs x !! dir_name q = Some D -> (forall D', PF D' -> dir_ok D') ->
  pwp (dir_place x (dir_name q)) PF m Q D ->
  cwp card_ok m (fun a y => exists D', y = pl_put (dir_place x (dir_name q)) D' /\ Q a D') x.
Proof.
  intros Hq Hx HD HP Hm. unfold pwp in Hm. rewrite <- (dir_place_id x _ D HD) in Hm. eapply cwp_mono; [exact Hm| |done].
  intros y (D' & -> & HD'). apply card_ok_put; [done|done|by eapply card_dir_file|]. by apply HP.
Qed.
End Inv.
