(* ===== verification/SdlogOps.v ===== *)
(** The operations of one session in the crash logic: the close record, append,
    sync and close. *)
From Stdlib Require Import ZArith Lia String.
From stdpp Require Import base list numbers gmap.
From S2P Require Import Prelude ConfigDesc Sha256 CardFs SdlogSession SdlogRules SdlogPaths SdlogInv.
Open Scope Z_scope.

(** * The size of the close record's head *)

Lemma length_dec_digits fuel n acc : (length (dec_digits fuel n acc) <= fuel + length acc)%nat.
Proof.
  revert n acc. induction fuel as [|fuel IH]; intros n acc; cbn [dec_digits]; [lia|]. destruct (n <? 10); [cbn [length]; lia|].
  etrans; [apply IH|]. cbn [length]. lia.
Qed.

Lemma length_fmt_d n : 0 <= n -> (length (fmt_d n) <= 20)%nat.
Proof. intros Hn. unfold fmt_d. destruct (Z.ltb_spec n 0); [lia|]. pose proof (length_dec_digits 20 n []). cbn [length] in *. lia. Qed.

Lemma length_zip_words (h l : list Z) : length (zip_with (fun x y => u32 (x + y)) h l) = Nat.min (length h) (length l).
Proof. apply length_zip_with. Qed.

Lemma length_close_head clean rows bytes sha : 0 <= rows -> 0 <= bytes -> length sha = 64%nat ->
  (length (close_head clean rows bytes sha) <= 169)%nat.
Proof.
  intros Hr Hb Hs. pose proof (length_fmt_d rows Hr). pose proof (length_fmt_d bytes Hb). unfold close_head. rewrite !length_app, Hs.
  destruct clean; cbn; lia.
Qed.

Lemma length_round w h i : length (round w h i) = length h.
Proof. unfold round. by do 9 (destruct h as [|? h]; [done|]). Qed.

Lemma length_rounds w h l : length (foldl (round w) h l) = length h.
Proof. revert h. induction l as [|i l IH]; intros h; [done|]. cbn. by rewrite IH, length_round. Qed.

Lemma length_block h p : length (block h p) = length h.
Proof. unfold block. rewrite length_zip_words, length_rounds. lia. Qed.

Lemma length_blocks n h l : length (blocks n h l) = length h.
Proof. revert h l. induction n as [|n IH]; intros h l; [done|]. cbn. by rewrite IH, length_block. Qed.

Lemma length_hex_words l : length (l ≫= word_hex) = (8 * length l)%nat.
Proof.
  induction l as [|x l IH]; [done|]. change ((x :: l) ≫= word_hex) with (word_hex x ++ (l ≫= word_hex)).
  rewrite length_app, IH. change (length (word_hex x)) with 8%nat. cbn [length]. lia.
Qed.

Lemma length_sha256 d : length (sha256 d) = 64%nat.
Proof. unfold sha256. rewrite length_hex_words, length_blocks. done. Qed.

(** * Directories *)

Section Headers.
Context {HS : Headers}.

Lemma plain_tmp : plain_name CLOSE_TMP /\ plain_name HEAD_TMP /\ plain_name SYNCED_TMP /\ plain_name SYNCED.
Proof. split_and!; done. Qed.

(** Other files stay. *)
Definition same_off (ns : list cstr) (D D' : gmap cstr file) : Prop := forall n, n ∉ ns -> D' !! n = D !! n.

Lemma same_off_refl ns D : same_off ns D D.
Proof. done. Qed.

Lemma same_off_trans ns D D' D'' : same_off ns D D' -> same_off ns D' D'' -> same_off ns D D''.
Proof. intros H1 H2 n Hn. by rewrite H2, H1. Qed.

Lemma same_off_insert ns D D' n f : n ∈ ns -> same_off ns D D' -> same_off ns D (<[n := f]> D').
Proof. intros Hn HD m Hm. rewrite lookup_insert_ne; [by apply HD|]. by intros <-. Qed.

Lemma same_off_delete ns D D' n : n ∈ ns -> same_off ns D D' -> same_off ns D (delete n D').
Proof. intros Hn HD m Hm. rewrite lookup_delete_ne; [by apply HD|]. by intros <-. Qed.

Lemma same_off_more ns ns' D D' : ns ⊆ ns' -> same_off ns D D' -> same_off ns' D D'.
Proof. intros Hsub HD n Hn. apply HD. by intros H%Hsub. Qed.

Lemma dir_ok_recorded (clean : bool) (data : list Z) (meta : option cstr) (D : gmap cstr file) :
  dir_ok D -> is_Some (D !! HEAD) -> D !! ROWS = Some (full data) -> whole data ->
  dir_ok (<[CLOSE := full (close_text clean data meta)]> (delete CLOSE_TMP D)).
Proof.
  intros HD Hh Hr Hw. destruct (dir_ok_delete _ _ (proj1 plain_tmp) HD) as [Hall Hhead _]. split.
  - apply map_Forall_insert_2; [split; [apply full_ok|cbn; lia]|done].
  - intros h. rewrite lookup_insert_ne by done. apply Hhead.
  - intros c. rewrite lookup_insert_eq. intros [= <-].
    split; [apply full_ok|]. rewrite !lookup_insert_ne, !lookup_delete_ne by done. split; [done|].
    exists (full data), clean, meta. split_and!; [done|apply full_ok|done|done].
Qed.

(** The directory of a session that was closed. *)
Definition closed_dir (clean : bool) (data : list Z) (meta : option cstr) (D : gmap cstr file) : gmap cstr file :=
  <[CLOSE := full (close_text clean data meta)]> (delete CLOSE_TMP (<[ROWS := full data]> D)).

Section Ops.
Context {W : Type} (o : os W) (root : cstr) (root_fits : (length root + 22 < PATH_MAX_LEN)%nat).
#[local] Abbreviation reliable := (reliable o).
Context (x : fs) (q : Z) (Hq : is_seq q).
#[local] Abbreviation d := (dir_name q).
#[local] Abbreviation pwp := (pwp (dir_place x d)).
#[local] Abbreviation streams := (streams (dir_place x d)).

Lemma pwp_write_atomic (PF : gmap cstr file -> Prop) (t n : cstr) (parts : list (option cstr))
    (Q : esp_err_t -> gmap cstr file -> Prop) (D : gmap cstr file) :
  let T := parts_text parts in
  (length t <= 12)%nat -> (length n <= 12)%nat -> t <> n ->
  PF D -> (forall fl, grown 0 T fl -> PF (<[t := fl]> D)) -> (~ reliable -> PF (delete t D)) ->
  PF (<[t := full T]> (delete n D)) -> (~ reliable -> PF (delete t (delete n D))) -> PF (<[n := full T]> (delete t D)) ->
  Q ESP_OK (<[n := full T]> (delete t D)) -> (forall D', ~ reliable -> PF D' -> Q ESP_FAIL D') ->
  pwp PF (write_atomic o root q t n parts) Q D.
Proof.
  intros T Ht Hn Htn. intros. unfold write_atomic.
  destruct (path_in_file root root_fits q t Hq Ht) as [-> Et]. destruct (path_in_file root root_fits q n Hq Hn) as [-> En].
  cbn [negb orb]. by apply (pwp_write_file_atomic o root (dir_place x d) (fun _ => True) PF _ _ t n).
Qed.

(** The record of what the rows file holds. *)
Lemma pwp_write_close (clean : bool) (data : list Z) (meta : option cstr) (Q : esp_err_t -> gmap cstr file -> Prop) (D : gmap cstr file) :
  dir_ok D -> D !! CLOSE = None -> is_Some (D !! HEAD) -> D !! ROWS = Some (full data) -> whole data ->
  let PF D' := dir_ok D' /\ same_off [CLOSE; CLOSE_TMP] D D' in
  Q ESP_OK (<[CLOSE := full (close_text clean data meta)]> (delete CLOSE_TMP D)) ->
  (forall D', ~ reliable -> PF D' -> Q ESP_FAIL D') ->
  pwp PF (write_close o root q clean (u64 (Z.of_nat (newlines data))) (u64 (Z.of_nat (length data))) (sha256 data) meta) Q D.
Proof.
  intros HD Hc Hh Hr Hw PF Hok Hbad. unfold write_close.
  assert (Hlen : (length (close_head clean (u64 (Z.of_nat (newlines data))) (u64 (Z.of_nat (length data))) (sha256 data)) <= 169)%nat).
  { apply length_close_head; [apply Z.mod_pos_bound; lia..|apply length_sha256]. }
  destruct (Nat.leb_spec 192 (length (close_head clean (u64 (Z.of_nat (newlines data))) (u64 (Z.of_nat (length data))) (sha256 data)))); [lia|].
  assert (ET : parts_text [Some (close_head clean (u64 (Z.of_nat (newlines data))) (u64 (Z.of_nat (length data))) (sha256 data));
      Some (default (lit "null") meta); Some (lit "}" ++ [10])] = close_text clean data meta).
  { unfold parts_text, close_text. cbn [omap list_omap id concat]. by rewrite app_nil_r. }
  destruct plain_tmp as (Htmp & _).
  assert (Hdel : delete (lit "CLOSE.JSN") D = D) by (by apply delete_id).
  assert (I1 : CLOSE ∈ [CLOSE; CLOSE_TMP]) by (apply list_elem_of_here).
  assert (I2 : CLOSE_TMP ∈ [CLOSE; CLOSE_TMP]) by (apply list_elem_of_further, list_elem_of_here).
  apply pwp_write_atomic; rewrite ?ET, ?Hdel; try done; unfold PF.
  - cbn. lia.
  - cbn. lia.
  - intros fl (Hfl & _). split; [apply dir_ok_insert; [done|split; [done|cbn; lia]|done]|by apply same_off_insert].
  - intros _. split; [by apply dir_ok_delete|by apply same_off_delete].
  - split; [apply dir_ok_insert; [done|split; [apply full_ok|cbn; lia]|done]|by apply same_off_insert].
  - intros _. split; [by apply dir_ok_delete|by apply same_off_delete].
  - split; [|apply same_off_insert; [done|by apply same_off_delete]].
    by apply dir_ok_recorded.
Qed.

(** * The open session *)

(** The counters of a session that has not failed: [text] is all it wrote, complete
    rows; all of them but the last [unsynced] are in the first [k] bytes. *)
Definition counts (s : espos_sdlog_session) (text : list Z) (k : nat) : Prop :=
  whole text /\ s_rows s = u64 (Z.of_nat (newlines text)) /\ s_bytes s = u64 (Z.of_nat (length text)) /\ digests (sha s) text /\
  exists a b, text = a ++ b /\ whole a /\ k = length a /\ Z.of_nat (newlines b) = unsynced s /\ unsynced s < sync_every s.

Record sess_ok (s : espos_sdlog_session) (text : list Z) (k : nat) (D : gmap cstr file) : Prop := {
  so_seq : s_seq s = q;
  so_dir : dir_ok D;
  so_close : D !! CLOSE = None;
  so_head : is_Some (D !! HEAD);
  so_stream : streams ROWS D k text (rows_f s) D;
  so_every : 0 <= unsynced s /\ 1 <= sync_every s < 2 ^ 32;
  so_counts : failed s = false -> counts s text k }.

(** The card while the rows [T] are being written: at least [k] bytes of them are safe. *)
Record rows_safe (D0 : gmap cstr file) (k : nat) (T : list Z) (D : gmap cstr file) : Prop := {
  rs_dir : dir_ok D;
  rs_same n : n <> ROWS -> D !! n = D0 !! n;
  rs_rows : exists fl, D !! ROWS = Some fl /\ grown k T fl }.

Lemma rows_safe_grown (D0 D : gmap cstr file) (k : nat) (T : list Z) (fl : file) : dir_ok D -> D !! CLOSE = None -> (forall n, n <> ROWS -> D !! n = D0 !! n) -> grown k T fl ->
  rows_safe D0 k T (<[ROWS := fl]> D).
Proof.
  intros HD Hc Hs Hg. split.
  - apply dir_ok_rows; [apply Hg|done|done].
  - intros n Hn. rewrite lookup_insert_ne by done. by apply Hs.
  - exists fl. by rewrite lookup_insert_eq.
Qed.

Lemma rows_safe_mono (D0 : gmap cstr file) (k k' : nat) (T T' : list Z) (D : gmap cstr file) : rows_safe D0 k T D -> (k' <= k)%nat -> T `prefix_of` T' -> rows_safe D0 k' T' D.
Proof. intros [H1 H2 (fl & H3 & H4)] Hk HT. split; [done|done|]. exists fl. split; [done|]. by eapply grown_mono. Qed.


Lemma streams_base n F0 k t f F : streams n F0 k t f F -> streams n F k t f F.
Proof. intros (Hat & fl & -> & Hrest). split; [done|]. exists fl. split; [by rewrite insert_insert_eq|done]. Qed.

(** The stream of a session moved on. *)
Lemma sess_moved s text k D s' text' k' D' : sess_ok s text k D -> streams ROWS D k' text' (rows_f s') D' ->
  s_seq s' = s_seq s -> 0 <= unsynced s' -> sync_every s' = sync_every s -> (failed s' = false -> counts s' text' k') ->
  sess_ok s' text' k' D'.
Proof.
  intros [H1 H2 H3 H4 H5 H6 H7] Hs Hseq Hun Hev Hc. pose proof (streams_base _ _ _ _ _ _ Hs) as Hs'.
  destruct Hs as (_ & fl & -> & Hfl & _). split; [congruence|by apply dir_ok_rows|..]; rewrite ?lookup_insert_ne by done; try done.
  split; [done|]. rewrite Hev. apply H6.
Qed.

Lemma stream_moved_same s text k D k' text' f' D' n : sess_ok s text k D -> streams ROWS D k' text' f' D' -> n <> ROWS -> D' !! n = D !! n.
Proof. intros _ (_ & fl & -> & _) Hn. by rewrite lookup_insert_ne. Qed.

Lemma counts_synced s text k : counts s text k -> 1 <= sync_every s -> counts (s <| unsynced := 0 |>) text (length text).
Proof.
  intros (H1 & H2 & H3 & H4 & _) He. split_and!; try done. exists text, []. rewrite app_nil_r. split_and!; try done. cbn. lia.
Qed.

(** What a call leaves of a session. *)
Definition left (s s' : espos_sdlog_session) (text' : list Z) (k : nat) (D D' : gmap cstr file) : Prop :=
  sync_every s' = sync_every s /\ row_crc s' = row_crc s /\ (forall n, n <> ROWS -> D' !! n = D !! n) /\
  exists k', (k <= k')%nat /\ sess_ok s' text' k' D'.

Lemma pwp_sync (PF : gmap cstr file -> Prop) (s : espos_sdlog_session) (text : list Z) (k : nat) (D : gmap cstr file)
    (Q : esp_err_t * espos_sdlog_session -> gmap cstr file -> Prop) :
  sess_ok s text k D -> (forall fl, grown k text fl -> PF (<[ROWS := fl]> D)) ->
  (forall s' D', left s s' text k D D' -> failed s' = false -> unsynced s' = 0 -> s_rows s' = s_rows s -> Q (ESP_OK, s') D') ->
  (forall s' D', left s s' text k D D' -> failed s' = true -> (reliable -> failed s = true) -> Q (ESP_FAIL, s') D') ->
  pwp PF (espos_sdlog_sync o s) Q D.
Proof.
  intros Hs HP Hok Hbad. unfold espos_sdlog_sync. destruct (failed s) eqn:Hf.
  { apply pwp_ret, Hbad; [|done|done]. split_and!; [done|done|done|]. exists k. split; [lia|done]. }
  assert (Hev : 1 <= sync_every s < 2 ^ 32) by apply (so_every _ _ _ _ Hs).
  apply pwp_bind. apply (pwp_sync_file o (dir_place x d) (fun _ => True) PF ROWS D k text); [apply Hs|done| |].
  - intros f' D' Hst. change (is_ok ESP_OK) with true. cbn [negb]. apply pwp_ret. pose proof (so_counts _ _ _ _ Hs Hf) as Hc.
    destruct Hc as (Hw & _ & _ & _ & a & b & Ht & _ & Hk & _).
    apply Hok; [|done|done|done]. split_and!; [done|done|intros n Hn; by apply (stream_moved_same s text k D (length text) text f' D')|].
    exists (length text). split; [subst; rewrite length_app; lia|].
    eapply (sess_moved s text k D); [done|exact Hst|done|cbn; lia|done|]. intros _. apply (counts_synced _ _ k); [|cbn; lia].
    apply (so_counts _ _ _ _ Hs Hf).
  - intros f' D' Hst Hr. change (is_ok ESP_FAIL) with false. cbn [negb]. apply pwp_ret. apply Hbad; [|done|done].
    split_and!; [done|done|intros n Hn; by apply (stream_moved_same s text k D k text f' D')|]. exists k. split; [lia|].
    eapply (sess_moved s text k D); [done|exact Hst|done|apply (so_every _ _ _ _ Hs)|done|done].
Qed.

Lemma row_tail_crc row : row_tail true row = [44] ++ word_hex (espos_sdlog_crc32 0 row) ++ [10].
Proof. unfold row_tail, snprintf_s. apply take_ge. rewrite !length_app. change (length (word_hex _)) with 8%nat. cbn. lia. Qed.

Lemma row_tail_whole crc row : whole (row ++ row_tail crc row).
Proof.
  destruct crc; [rewrite row_tail_crc, !app_assoc|]; apply whole_row.
Qed.

Lemma word_hex_plain v : newlines (word_hex v) = 0%nat.
Proof.
  assert (Hd : forall n, 0 <= n < 16 -> digit n <> 10).
  { intros n Hn. assert (Forall (fun n => digit n <> 10) (Z.of_nat <$> seq 0 16)) as HF by (repeat constructor; done).
    rewrite Forall_forall in HF. apply HF. apply list_elem_of_fmap. exists (Z.to_nat n). split; [lia|]. apply elem_of_seq. lia. }
  unfold word_hex. cbn -[Z.shiftr Z.land u8 digit]. unfold u8.
  assert (Hb : forall y, 0 <= Z.shiftr (y mod 2 ^ 8) 4 < 16 /\ 0 <= Z.land (y mod 2 ^ 8) 15 < 16).
  { intros y. pose proof (Z.mod_pos_bound y (2 ^ 8) ltac:(lia)). rewrite Z.shiftr_div_pow2 by lia. change 15 with (Z.ones 4). rewrite Z.land_ones by lia. div_lia. }
  rewrite !(proj2 (Z.eqb_neq _ 10)); [done|..]; apply Hd, Hb.
Qed.

Lemma row_tail_one crc row : newlines row = 0%nat -> newlines (row ++ row_tail crc row) = 1%nat.
Proof.
  intros Hr. rewrite newlines_app, Hr. destruct crc; [|done]. by rewrite row_tail_crc, !newlines_app, word_hex_plain.
Qed.

Lemma no_newline row : existsb (fun c => (c =? 13) || (c =? 10)) row = false -> newlines row = 0%nat.
Proof. induction row as [|c row IH]; [done|]. cbn. intros [[_ ->]%orb_false_iff Hr]%orb_false_iff. by apply IH. Qed.

(** The counters after one more row. *)
Lemma counts_append s text k row f : counts s text k -> newlines row = 0%nat -> 0 <= unsynced s -> unsynced s < sync_every s < 2 ^ 32 ->
  let tail := row_tail (row_crc s) row in
  let s' := s <| rows_f := f |>
             <| sha := espos_sdlog_sha256_update (espos_sdlog_sha256_update (sha s) row) tail |>
             <| s_rows := u64 (s_rows s + 1) |>
             <| s_bytes := u64 (s_bytes s + Z.of_nat (length row + length tail)) |>
             <| unsynced := u32 (unsynced s + 1) |> in
  unsynced s' = unsynced s + 1 /\
  (unsynced s' < sync_every s' -> counts s' (text ++ row ++ tail) k) /\
  counts (s' <| unsynced := 0 |>) (text ++ row ++ tail) (length (text ++ row ++ tail)).
Proof.
  intros (Hw & Hrows & Hbytes & Hsha & a & b & Ht & Ha & Hk & Hun & _) Hrow H0 Hlt tail s'.
  assert (Hu : unsynced s' = unsynced s + 1) by (cbn; unfold u32; apply Z.mod_small; lia).
  assert (Hw' : whole (text ++ row ++ tail)) by (apply whole_app; [done|apply row_tail_whole]).
  assert (Hr' : s_rows s' = u64 (Z.of_nat (newlines (text ++ row ++ tail)))).
  { cbn. rewrite newlines_app. unfold tail. rewrite (row_tail_one _ _ Hrow), Hrows. unfold u64. rewrite Zplus_mod_idemp_l. f_equal. lia. }
  assert (Hb' : s_bytes s' = u64 (Z.of_nat (length (text ++ row ++ tail)))).
  { cbn. rewrite !length_app, Hbytes. unfold u64. rewrite Zplus_mod_idemp_l. f_equal. lia. }
  assert (Hs' : digests (sha s') (text ++ row ++ tail)).
  { cbn. rewrite app_assoc. by apply update_digests, update_digests. }
  split; [done|]. split.
  - intros Hlt'. split_and!; try done. exists a, (b ++ row ++ tail). split; [rewrite Ht; by rewrite <- !app_assoc|]. split_and!; try done.
    + rewrite newlines_app. unfold tail. rewrite (row_tail_one _ _ Hrow). rewrite Hu, <- Hun. lia.
  - split_and!; try done. exists (text ++ row ++ tail), []. rewrite app_nil_r. split_and!; try done. cbn. lia.
Qed.

(** One row appended: refused, written, or the session has failed. *)
Lemma pwp_append (s : espos_sdlog_session) (text : list Z) (k : nat) (row : cstr) (D : gmap cstr file)
    (Q : esp_err_t * espos_sdlog_session -> gmap cstr file -> Prop) :
  sess_ok s text k D ->
  let T := text ++ row ++ row_tail (row_crc s) row in
  (existsb (fun c => (c =? 13) || (c =? 10)) row = true -> Q (ESP_ERR_INVALID_ARG, s) D) ->
  (forall s' D', left s s' T k D D' -> failed s' = false -> s_rows s' = u64 (s_rows s + 1) -> Q (ESP_OK, s') D') ->
  (forall s' D' T', T' `prefix_of` T -> left s s' T' k D D' -> failed s' = true -> (reliable -> failed s = true) -> Q (ESP_FAIL, s') D') ->
  pwp (rows_safe D k T) (espos_sdlog_append o s row) Q D.
Proof.
  intros Hs T Harg Hok Hbad. unfold espos_sdlog_append. destruct (existsb _ row) eqn:Hrow; [by apply pwp_ret, Harg|].
  apply no_newline in Hrow. destruct (failed s) eqn:Hf.
  { apply pwp_ret, (Hbad s D text); [by eexists| |done|done]. split_and!; [done|done|done|]. exists k. split; [lia|done]. }
  assert (Hsafe : forall T' fl, T' `prefix_of` T -> grown k T' fl -> rows_safe D k T (<[ROWS := fl]> D)).
  { intros T' fl HT Hg. apply rows_safe_grown; [apply Hs|apply Hs|done|]. by eapply grown_mono. }
  assert (Hfail : forall T' f' D', T' `prefix_of` T -> streams ROWS D k T' f' D' ->
    left s (s <| rows_f := f' |> <| failed := true |>) T' k D D').
  { intros T' f' D' HT Hst. split_and!; [done|done|intros n Hn; by apply (stream_moved_same s text k D k T' f' D')|]. exists k. split; [lia|].
    eapply (sess_moved s text k D); [done|exact Hst|done|apply (so_every _ _ _ _ Hs)|done|done]. }
  cbv zeta. apply pwp_bind. apply (pwp_fwrite o (dir_place x d) (fun _ => True) _ ROWS D k text); [apply Hs| |].
  { intros fl Hg. apply (Hsafe (text ++ row)); [|done]. exists (row_tail (row_crc s) row). by rewrite <- app_assoc. }
  intros ok f' D' Hst Hr. assert (Hpre : text ++ row `prefix_of` T) by (exists (row_tail (row_crc s) row); by rewrite <- app_assoc).
  destruct ok; cbn [negb].
  2:{ apply pwp_ret, (Hbad _ _ (text ++ row)); [done|by apply Hfail|done|]. intros H. by specialize (Hr H). }
  apply pwp_bind. apply (pwp_fwrite o (dir_place x d) (fun _ => True) _ ROWS D k (text ++ row)); [done|intros fl Hg; rewrite <- app_assoc in Hg; by apply (Hsafe T)|].
  intros ok f2 D2 Hst2 Hr2. rewrite <- app_assoc in Hst2. fold T in Hst2. destruct ok; cbn [negb].
  2:{ apply pwp_ret, (Hbad _ _ T); [done|by apply Hfail|done|]. intros H. by specialize (Hr2 H). }
  destruct (so_every _ _ _ _ Hs) as [Hun Hev]. pose proof (so_counts _ _ _ _ Hs Hf) as Hc.
  assert (Hlt : unsynced s < sync_every s) by (destruct Hc as (_ & _ & _ & _ & a & b & _ & _ & _ & _ & Hlt); done).
  destruct (counts_append s text k row f2 Hc Hrow Hun ltac:(lia)) as (Hu & Hc1 & Hc2). cbv zeta in Hu, Hc1, Hc2. fold T in Hc1, Hc2.
  match type of Hu with unsynced ?t = _ => remember t as s' eqn:Es' end.
  assert (Hsame : s_seq s' = s_seq s /\ sync_every s' = sync_every s /\ failed s' = failed s /\ row_crc s' = row_crc s /\
    s_rows s' = u64 (s_rows s + 1) /\ rows_f s' = f2 /\ sha s' = sha (s' <| unsynced := 0 |>)) by (by rewrite Es').
  destruct Hsame as (E1 & E2 & E3 & E4 & E5 & E6 & _). clear Es'. rewrite Z.geb_leb.
  destruct (Z.leb_spec (sync_every s') (unsynced s')).
  2:{ apply pwp_ret, Hok; [|congruence|done]. split_and!; [done|done|intros n Hn; by apply (stream_moved_same s text k D k T f2 D2)|]. exists k. split; [lia|].
      eapply (sess_moved s text k D); [done|by rewrite E6|done|lia|done|]. intros _. by apply Hc1. }
  (* the row that completes a batch *)
  unfold espos_sdlog_sync. rewrite E3, Hf, E6. apply pwp_bind.
  apply (pwp_sync_file o (dir_place x d) (fun _ => True) _ ROWS D k T); [done|intros fl Hg; by apply (Hsafe T)| |].
  - intros f3 D3 Hst3. change (is_ok ESP_OK) with true. cbn [negb]. apply pwp_ret, Hok; [|cbn; congruence|done].
    split_and!; [done|done|intros n Hn; by apply (stream_moved_same s text k D (length T) T f3 D3)|]. exists (length T). split.
    { destruct (so_stream _ _ _ _ Hs) as (_ & fl & _ & Hfl & Hk & Htext). unfold file_ok in Hfl. unfold T. rewrite length_app, <- Htext, length_app. lia. }
    eapply (sess_moved s text k D); [done|exact Hst3|done|cbn; lia|done|]. intros _. exact Hc2.
  - intros f3 D3 Hst3 Hr3. change (is_ok ESP_FAIL) with false. cbn [negb]. apply pwp_ret, (Hbad _ _ T); [done| |done|done].
    split_and!; [done|done|intros n Hn; by apply (stream_moved_same s text k D k T f3 D3)|]. exists k. split; [lia|].
    eapply (sess_moved s text k D); [done|exact Hst3|done|cbn; lia|done|done].
Qed.

(** Closing: the rows are on the card before the record is. *)
Lemma pwp_close (s : espos_sdlog_session) (text : list Z) (k : nat) (meta : option cstr) (D : gmap cstr file)
    (Q : esp_err_t -> gmap cstr file -> Prop) :
  sess_ok s text k D ->
  let PF D' := dir_ok D' /\ same_off [ROWS; CLOSE; CLOSE_TMP] D D' /\ exists fl, D' !! ROWS = Some fl /\ grown k text fl in
  (failed s = false -> Q ESP_OK (closed_dir true text meta D)) ->
  (forall D', PF D' -> (reliable -> failed s = true) -> Q ESP_FAIL D') ->
  pwp PF (espos_sdlog_close o root s meta) Q D.
Proof.
  intros Hs PF Hok Hbad. unfold espos_sdlog_close. pose proof (so_stream _ _ _ _ Hs) as Hst.
  assert (Hrows : forall fl, grown k text fl -> PF (<[ROWS := fl]> D)).
  { intros fl Hg. split_and!; [apply dir_ok_rows; [apply Hg|apply Hs|apply Hs]| |exists fl; by rewrite lookup_insert_eq].
    apply same_off_insert; [apply list_elem_of_here|done]. }
  assert (Hlost : forall f D', streams ROWS D k text f D' -> (reliable -> failed s = true) ->
    pwp PF (closed ← fclose o f; if closed && false then write_close o root (s_seq s) true (s_rows s) (s_bytes s)
      (espos_sdlog_sha256_hex (sha s)) meta else mret ESP_FAIL) Q D').
  { intros f D' Hf Hr. apply pwp_bind. apply (pwp_fclose o (dir_place x d) (fun _ => True) _ ROWS D k text); [done|done|].
    intros closed fl Hg _. rewrite andb_false_r. apply pwp_ret, Hbad; [by apply Hrows|done]. }
  apply pwp_bind. destruct (failed s) eqn:Ef; [apply pwp_ret; by apply Hlost|].
  apply pwp_bind. apply (pwp_sync_file o (dir_place x d) (fun _ => True) _ ROWS D k text); [done|done| |].
  2:{ intros f' D' Hf Hr. apply pwp_ret. by apply Hlost. }
  intros f' D' Hf. apply pwp_ret. change (is_ok ESP_OK) with true. pose proof (so_counts _ _ _ _ Hs Ef) as (Hw & Hr & Hb & Hd & a & b & Ht & _ & Hk & _).
  assert (Hkl : (k <= length text)%nat) by (subst; rewrite length_app; lia).
  apply pwp_bind. apply (pwp_fclose o (dir_place x d) (fun _ => True) _ ROWS D (length text) text); [done| |].
  { intros fl Hg. apply Hrows. by eapply grown_mono. }
  intros closed fl Hg Hcl. apply grown_full in Hg as ->. rewrite andb_true_r.
  assert (Hfull : grown k text (full text)) by (by apply full_grown).
  destruct closed; [|apply pwp_ret, Hbad; [by apply Hrows|intros H; by specialize (Hcl H)]].
  rewrite (so_seq _ _ _ _ Hs), Hr, Hb, (hex_digests _ _ Hd). destruct (Hrows _ Hfull) as (HD' & Hoff & _).
  assert (Hrows' : forall D', same_off [CLOSE; CLOSE_TMP] (<[ROWS := full text]> D) D' -> D' !! ROWS = Some (full text)).
  { intros D'' Hs'. rewrite (Hs' ROWS); [apply lookup_insert_eq|]. by apply (bool_decide_unpack (ROWS ∉ [CLOSE; CLOSE_TMP])). }
  assert (Hlift : forall D', dir_ok D' /\ same_off [CLOSE; CLOSE_TMP] (<[ROWS := full text]> D) D' -> PF D').
  { intros D'' [H1 H2]. split_and!; [done| |exists (full text); split; [by apply Hrows'|done]].
    eapply same_off_trans; [exact Hoff|]. eapply same_off_more; [|exact H2]. set_solver. }
  eapply pwp_mono; [|exact Hlift|intros e D'' HQ; exact HQ].
  apply pwp_write_close; rewrite ?lookup_insert_ne by done; try done.
  - apply Hs.
  - apply Hs.
  - apply lookup_insert_eq.
  - by apply Hok.
  - intros D'' Hrel HP. apply Hbad; [by apply Hlift|done].
Qed.
End Ops.
End Headers.
