(* ===== verification/SdlogCard.v ===== *)
(** Operations on the whole card in the crash logic: scanning, removing a session,
    recovering one and all of them. *)
From Stdlib Require Import ZArith Lia String Sorted.
From stdpp Require Import base list numbers gmap.
From S2P Require Import Prelude ConfigDesc Sha256 CardFs SdlogSession SdlogRules SdlogPaths SdlogInv SdlogOps.
Open Scope Z_scope.

(** * Sorting *)

Lemma insert_seq_perm v l : insert_seq v l ≡ₚ v :: l.
Proof. induction l as [|y l IH]; [done|]. cbn. destruct (cmp_seq v y <=? 0); [done|]. rewrite IH. apply Permutation_swap. Qed.

Lemma qsort_perm l : qsort l ≡ₚ l.
Proof. induction l as [|v l IH]; [done|]. cbn. by rewrite insert_seq_perm, IH. Qed.

Lemma cmp_seq_le v y : (cmp_seq v y <=? 0) = (v <=? y).
Proof. unfold cmp_seq. rewrite Z.gtb_ltb. destruct (Z.ltb_spec v y), (Z.leb_spec v y), (Z.ltb_spec y v); done || lia. Qed.

Lemma insert_seq_sorted v l : StronglySorted Z.le l -> StronglySorted Z.le (insert_seq v l).
Proof.
  induction 1 as [|y l Hl IH Hy]; [by repeat constructor|]. cbn. rewrite cmp_seq_le. destruct (Z.leb_spec v y).
  - constructor; [by constructor|]. constructor; [done|]. eapply Forall_impl; [exact Hy|]. cbn. lia.
  - constructor; [done|]. rewrite insert_seq_perm. by constructor; [lia|].
Qed.

Lemma qsort_sorted l : StronglySorted Z.le (qsort l).
Proof. induction l as [|v l IH]; [constructor|]. by apply insert_seq_sorted. Qed.

Lemma sorted_last l t : StronglySorted Z.le l -> last l = Some t -> forall v, v ∈ l -> v <= t.
Proof.
  induction 1 as [|y l Hl IH Hy]; [done|]. intros Ht v Hv. destruct l as [|z l].
  - injection Ht as ->. apply list_elem_of_singleton in Hv. lia.
  - apply elem_of_cons in Hv as [->|Hv]; [|by apply IH]. rewrite Forall_forall in Hy. transitivity z; [apply Hy, list_elem_of_here|].
    apply IH; [done|apply list_elem_of_here].
Qed.

Section Headers.
Context {HS : Headers}.

(** * The rows of a session being recovered *)

(** The rows on the card. *)
Definition rows_of (D : gmap cstr file) : list Z := from_option f_data [] (D !! ROWS).

(** A session of an earlier boot: what of its rows file is there is on the card. *)
Definition settled (D : gmap cstr file) : Prop := forall f, D !! ROWS = Some f -> durable f.

(** The card while a session is recovered: no complete row is lost. *)
Record recovering (D0 D : gmap cstr file) : Prop := {
  rv_dir : dir_ok D;
  rv_same : same_off [ROWS; CLOSE; CLOSE_TMP] D0 D;
  rv_rows : keep_rows (rows_of D) = keep_rows (rows_of D0);
  rv_settled : settled D }.

Lemma recovering_rows D0 D data : recovering D0 D -> D !! CLOSE = None -> keep_rows data = keep_rows (rows_of D0) ->
  recovering D0 (<[ROWS := full data]> D).
Proof.
  intros [H1 H2 H3 H4] Hc Hk. split.
  - apply dir_ok_rows; [apply full_ok|done|done].
  - apply same_off_insert; [apply list_elem_of_here|done].
  - unfold rows_of. by rewrite lookup_insert_eq.
  - intros f. rewrite lookup_insert_eq. intros [= <-]. apply full_ok.
Qed.

Lemma durable_full f : durable f -> f = full (f_data f).
Proof. destruct f as [dt n]. unfold durable, full. cbn. by intros ->. Qed.

Lemma closed_dir_twice clean data meta D : closed_dir clean data meta (delete CLOSE_TMP D) = closed_dir clean data meta D.
Proof.
  unfold closed_dir. f_equal. rewrite !delete_insert_ne by done. by rewrite delete_delete_eq.
Qed.

Lemma recovering_closed D0 D1 data D' : recovering D0 (<[ROWS := full data]> D1) -> dir_ok D' ->
  same_off [CLOSE; CLOSE_TMP] (<[ROWS := full data]> D1) D' -> recovering D0 D'.
Proof.
  intros HR H1 H2. assert (D' !! ROWS = Some (full data)) as Er.
  { rewrite (H2 ROWS); [apply lookup_insert_eq|]. by apply (bool_decide_unpack (ROWS ∉ [CLOSE; CLOSE_TMP])). }
  split; [done| | |].
  - eapply same_off_trans; [apply HR|]. eapply same_off_more; [|exact H2]. set_solver.
  - rewrite <- (rv_rows _ _ HR). unfold rows_of. by rewrite Er, lookup_insert_eq.
  - intros f. rewrite Er. intros [= <-]. apply full_ok.
Qed.

Section Card.
Context {W : Type} (o : os W) `{!OsLaws o} (root : cstr) (root_fits : (length root + 22 < PATH_MAX_LEN)%nat).
#[local] Abbreviation reliable := (reliable o).

(** * Looking *)

Lemma cwp_exists P q n Q x : is_seq q -> (length n <= 12)%nat ->
  (forall b, (b = true -> is_Some (lookup_loc x (LIn (dir_name q) n))) ->
     (stats o -> b = bool_decide (is_Some (lookup_loc x (LIn (dir_name q) n)))) -> Q b x) ->
  cwp P (session_file_exists o root q n) Q x.
Proof.
  intros Hq Hn HQ. unfold session_file_exists. destruct (path_in_file root root_fits q n Hq Hn) as [-> E]. unfold exists_.
  apply cwp_bind, cwp_stat; rewrite ?E; [|intros Hr]; apply cwp_ret, HQ; try done.
  - intros Hb%bool_decide_eq_true. cbn [stat_at] in Hb. by rewrite fmap_is_Some in Hb.
  - intros _. cbn [stat_at]. apply bool_decide_ext. by rewrite fmap_is_Some.
Qed.

Lemma cwp_is_dir P q Q x : is_seq q -> fs_files x !! dir_name q = None \/ fs_dirs x !! dir_name q = None ->
  (forall b, (b = true -> is_Some (fs_dirs x !! dir_name q)) ->
     (stats o -> b = bool_decide (is_Some (fs_dirs x !! dir_name q))) -> Q b x) ->
  cwp P (is_dir o root (dir_name q)) Q x.
Proof.
  intros Hq Hdisj HQ. destruct (dir_name_plain q Hq) as [Hplain Hl]. unfold is_dir. apply cwp_bind, cwp_query. intros w. apply cwp_bind, cwp_gets. cbn [id].
  destruct (os_dtype o (dir_name q) w).1.
  { apply cwp_ret, HQ; [|done]. by intros ?%bool_decide_eq_true. }
  destruct (Nat.ltb_spec (length (root ++ slash ++ dir_name q)) PATH_MAX_LEN) as [Hlt|Hge].
  2:{ exfalso. unfold slash, PATH_MAX_LEN in *. rewrite !length_app, Hl in Hge. cbn in Hge. lia. }
  apply cwp_bind, cwp_stat; rewrite ?root_path_at by (done || lia); [|intros Hr]; apply cwp_ret, HQ; try done; cbn [stat_at];
    destruct (fs_files x !! dir_name q), (fs_dirs x !! dir_name q); cbn; try done; by destruct Hdisj.
Qed.

(** * Scanning *)

Definition dirs_of (x : fs) (q : Z) : Prop := is_seq q /\ is_Some (fs_dirs x !! dir_name q).

Lemma cwp_scan_loop P entries cap out Q x : card_ok x ->
  (forall l, (forall q, q ∈ l -> dirs_of x q) -> (reliable -> forall q, is_seq q -> dir_name q ∈ entries -> is_Some (fs_dirs x !! dir_name q) -> q ∈ l) ->
     (NoDup entries -> NoDup l) -> (forall q, q ∈ l -> dir_name q ∈ entries) -> Q (inr (out ++ l)) x) ->
  (~ reliable -> Q (inl ESP_ERR_NO_MEM) x) ->
  cwp P (scan_loop o root entries cap out) Q x.
Proof.
  intros Hx. revert cap out Q. induction entries as [|e es IH]; intros cap out Q Hok Hbad; cbn [scan_loop].
  { apply cwp_ret. rewrite <- (app_nil_r out). apply Hok; try done; try set_solver. constructor. }
  assert (Hskip : (forall q, is_seq q -> dir_name q = e -> reliable -> ~ is_Some (fs_dirs x !! dir_name q)) ->
    cwp P (scan_loop o root es cap out) Q x).
  { intros Hno. apply IH; [|done]. intros l H1 H2 H3 H4. apply Hok; [done| | |].
    - intros Hr q Hq [He|He]%elem_of_cons Hd; [by destruct (Hno q Hq He Hr)|by apply H2].
    - intros [_ Hnd]%NoDup_cons. by apply H3.
    - intros q Hql. apply elem_of_cons. right. by apply H4. }
  destruct (parse_seq e) as [q|] eqn:E.
  2:{ apply Hskip. intros q Hq <- _ _. rewrite (proj2 (parse_seq_spec (dir_name q) q)) in E; done. }
  apply parse_seq_spec in E as [Hq ->]. apply cwp_bind, cwp_is_dir; [done|apply Hx|]. intros b Hb Hrb.
  destruct b; cbn [negb].
  2:{ apply Hskip. intros q' Hq' Heq Hr Hd. apply dir_name_inj in Heq as ->; [|done|done]. specialize (Hrb (reliable_stats o Hr)). rewrite bool_decide_true in Hrb; done. }
  assert (Htake : forall cap', cwp P (scan_loop o root es cap' (out ++ [q])) Q x).
  { intros cap'. apply IH; [|done]. intros l H1 H2 H3 H4. rewrite <- app_assoc. apply Hok.
    - intros q' [->|Hq']%elem_of_cons; [split; [done|by apply Hb]|by apply H1].
    - intros Hr q' Hq' [He|He]%elem_of_cons Hd; apply elem_of_cons; [left; by apply dir_name_inj|right; by apply H2].
    - intros [Hni Hnd]%NoDup_cons. constructor; [|by apply H3]. intros Hin. by apply Hni, H4.
    - intros q' [->|Hq']%elem_of_cons; apply elem_of_cons; [by left|right; by apply H4]. }
  destruct (length out =? cap)%nat; [|apply Htake]. apply cwp_bind, cwp_malloc. intros ok Hm. destruct ok; [apply Htake|].
  apply cwp_ret, Hbad. intros Hr. by specialize (Hm Hr).
Qed.

(** The sessions in ascending order: all of them, unless a call fails. *)
Lemma cwp_scan P Q x : card_ok x ->
  (forall l, StronglySorted Z.le l -> NoDup l -> (forall q, q ∈ l -> dirs_of x q) ->
     (reliable -> fs_root x = true -> forall q, dirs_of x q -> q ∈ l) -> Q (inr l) x) ->
  (forall e, ~ reliable -> e <> ESP_OK -> Q (inl e) x) -> cwp P (scan o root) Q x.
Proof.
  intros Hx Hok Hbad. unfold scan, readdir_root. apply cwp_bind, cwp_bind, cwp_gets. cbn [id]. destruct (fs_root x) eqn:Hroot; cbn [negb].
  2:{ apply cwp_ret, cwp_ret, Hok; [constructor|constructor|set_solver|done]. }
  apply cwp_bind, cwp_fails. intros b Hb. destruct b.
  { apply cwp_ret, cwp_ret, Hbad; [|done]. intros Hr. by specialize (Hb Hr). }
  apply cwp_bind, cwp_query. intros w. pose proof (os_perm (map fst (map_to_list (fs_files x)) ++ map fst (map_to_list (fs_dirs x))) w) as Hperm.
  assert (Hnd : NoDup (os_order o (map fst (map_to_list (fs_files x)) ++ map fst (map_to_list (fs_dirs x))) w).1).
  { rewrite Hperm. apply NoDup_app. split_and!; [apply NoDup_fst_map_to_list| |apply NoDup_fst_map_to_list].
    intros n H1 H2. apply list_elem_of_fmap in H1 as ([n1 f] & -> & H1). apply list_elem_of_fmap in H2 as ([n2 D] & E2 & H2). cbn in E2. subst n2.
    apply elem_of_map_to_list in H1, H2. destruct (card_names x Hx n1); congruence. }
  apply cwp_ret, cwp_bind, cwp_scan_loop; [done| |intros Hr; by apply cwp_ret, Hbad].
  intros l H1 H2 H3 _. apply cwp_ret. cbn [app]. apply Hok.
  - apply qsort_sorted.
  - rewrite qsort_perm. by apply H3.
  - intros q. rewrite qsort_perm. apply H1.
  - intros Hr _ q [Hq Hd]. rewrite qsort_perm. apply (H2 Hr); [done| |done]. rewrite Hperm. apply elem_of_app. right.
    destruct Hd as [D HD]. apply list_elem_of_fmap. exists (dir_name q, D). split; [done|]. by apply elem_of_map_to_list.
Qed.

(** * Removing a session *)

Lemma pwp_remove_entries (x : fs) (q : Z) (entries : list cstr) (D0 D : gmap cstr file) (Q : unit -> gmap cstr file -> Prop) :
  is_seq q -> D ⊆ D0 -> map_Forall (fun n _ => (length n <= 12)%nat) D0 ->
  (forall D', D' ⊆ D -> (reliable -> forall n, n ∈ entries -> D' !! n = None) -> Q tt D') ->
  pwp (dir_place x (dir_name q)) (fun D' => D' ⊆ D0) (remove_entries o root q entries) Q D.
Proof.
  intros Hq. revert D Q. induction entries as [|e es IH]; intros D Q Hsub Hshort HQ; cbn [remove_entries].
  { apply pwp_ret, HQ; [done|]. intros _ n Hn. by apply not_elem_of_nil in Hn. }
  destruct (path_in root q (Some e)) as [ok p] eqn:Ep. apply pwp_bind.
  assert (Hgo : forall D1, D1 ⊆ D -> (reliable -> D1 !! e = None) ->
    pwp (dir_place x (dir_name q)) (fun D' => D' ⊆ D0) (remove_entries o root q es) Q D1).
  { intros D1 H1 H2. apply IH; [by etrans|done|]. intros D' Hs' Hnone. apply HQ; [by etrans|].
    intros Hr n [->|Hn]%elem_of_cons; [|by apply Hnone]. destruct (D' !! e) eqn:Ee; [|done].
    by rewrite (lookup_weaken _ _ _ _ Ee Hs') in H2; specialize (H2 Hr). }
  destruct ok.
  - pose proof (path_in_any root root_fits q e p Hq Ep) as Eres. apply pwp_bind.
    apply (pwp_unlink_gone o root (dir_place x (dir_name q)) (fun _ => True) _ _ e); [done| | |].
    + etrans; [apply delete_subseteq|done].
    + intros _. apply pwp_ret, Hgo; [apply delete_subseteq|]. intros _. apply lookup_delete_eq.
    + intros Hr. by apply pwp_ret, Hgo.
  - apply pwp_ret, Hgo; [done|]. intros _. destruct (D !! e) as [f|] eqn:Ee; [|done].
    assert (length e <= 12)%nat as Hl by (eapply (Hshort e f); by eapply lookup_weaken).
    destruct (path_in_file root root_fits q e Hq Hl) as [E' _]. congruence.
Qed.

(** The files go one by one, then the directory. *)
Lemma cwp_remove (P : fs -> Prop) (q : Z) (D : gmap cstr file) (Q : esp_err_t -> fs -> Prop) (x : fs) :
  is_seq q -> fs_dirs x !! dir_name q = Some D -> map_Forall (fun n _ => (length n <= 12)%nat) D ->
  (forall D', D' ⊆ D -> P (pl_put (dir_place x (dir_name q)) D')) -> P (x <| fs_dirs ::= delete (dir_name q) |>) ->
  Q ESP_OK (x <| fs_dirs ::= delete (dir_name q) |>) ->
  (forall D', ~ reliable -> D' ⊆ D -> Q ESP_FAIL (pl_put (dir_place x (dir_name q)) D')) ->
  cwp P (espos_sdlog_remove o root q) Q x.
Proof.
  intros Hq HD Hshort HP HPd Hok Hbad. unfold espos_sdlog_remove. destruct (path_in_dir root root_fits q Hq) as [-> E]. cbn [negb].
  unfold readdir_in. rewrite E. apply cwp_bind, cwp_bind, cwp_gets. cbn [id]. rewrite HD. apply cwp_bind, cwp_fails. intros b Hb. destruct b.
  { apply cwp_ret, cwp_ret. rewrite (dir_place_id x _ D HD). apply Hbad; [|done]. intros Hr. by specialize (Hb Hr). }
  apply cwp_bind, cwp_query. intros w. pose proof (os_perm (map fst (map_to_list D)) w) as Hperm.
  apply cwp_ret, cwp_bind. rewrite (dir_place_id x _ D HD).
  eapply cwp_mono with (P := at_place (dir_place x (dir_name q)) (fun D' => D' ⊆ D)).
  - apply (pwp_remove_entries x q _ D D (fun _ D' => D' ⊆ D /\ (reliable -> D' = ∅))); [done|done|done|].
    intros D' Hsub Hnone. split; [done|]. intros Hr. apply map_empty. intros n. destruct (D' !! n) as [f|] eqn:En; [|done].
    rewrite (Hnone Hr) in En; [done|]. rewrite Hperm. apply list_elem_of_fmap. exists (n, f). split; [done|].
    apply elem_of_map_to_list. by eapply lookup_weaken.
  - intros y (D' & -> & HD'). by apply HP.
  - intros _ y (D' & -> & Hsub & Hempty). unfold rmdir. rewrite E. apply cwp_bind, cwp_bind, cwp_fails. intros b Hb'.
    apply cwp_bind, cwp_gets. cbn [id].
    assert (fs_dirs (pl_put (dir_place x (dir_name q)) D') !! dir_name q = Some D') as -> by apply lookup_insert_eq.
    assert (Ed : (pl_put (dir_place x (dir_name q)) D') <| fs_dirs ::= delete (dir_name q) |> = x <| fs_dirs ::= delete (dir_name q) |>).
    { destruct x. cbn. f_equal. apply delete_insert_eq. }
    destruct b; cbn [orb].
    { apply cwp_ret, cwp_ret, Hbad; [|done]. intros Hr. by specialize (Hb' Hr). }
    destruct (decide (D' = ∅)) as [->|Hne].
    + rewrite bool_decide_true by done. cbn [negb]. apply cwp_bind, cwp_touch; [by rewrite Ed|]. apply cwp_ret, cwp_ret. by rewrite Ed.
    + rewrite bool_decide_false by congruence. cbn [negb]. apply cwp_ret, cwp_ret, Hbad; [|done]. intros Hr. by apply Hne, Hempty.
Qed.

(** * Recovering a session *)

Section One.
Context (x : fs) (q : Z) (Hq : is_seq q).
#[local] Abbreviation pwp := (pwp (dir_place x (dir_name q))).

Lemma pwp_fopen_rb (PF : gmap cstr file -> Prop) (n : cstr) (Q : bool + list Z -> gmap cstr file -> Prop) (D : gmap cstr file) : (length n <= 12)%nat ->
  match D !! n with
  | None => Q (inl true) D
  | Some f => Q (inr (f_data f)) D /\ (~ reliable -> Q (inl false) D)
  end -> pwp PF (fopen_rb o root (path_in root q (Some n)).2) Q D.
Proof.
  intros Hn HQ. destruct (path_in_file root root_fits q n Hq Hn) as [-> E]. cbn [snd]. apply pwp_cwp, cwp_fopen_rb. rewrite E.
  cbn. rewrite lookup_insert_eq. cbn. destruct (D !! n); [|done]. destruct HQ. split; [done|]. intros Hr. auto.
Qed.

Lemma pwp_fread (PF : gmap cstr file -> Prop) (data : list Z) (Q : list (list Z) * bool -> gmap cstr file -> Prop) (D : gmap cstr file) :
  (forall bufs, concat bufs = data -> Q (bufs, true) D) -> (forall bufs, ~ reliable -> Q (bufs, false) D) ->
  pwp PF (fread_all o (S (length data)) 512 data) Q D.
Proof. intros H1 H2. apply pwp_cwp, cwp_fread; [lia|lia| |]; intros bufs Hb; split; [done|auto|done|auto]. Qed.

(** Counting: the file is there afterwards, and the numbers are its. *)
Lemma pwp_count_rows (D0 D : gmap cstr file) (Q : esp_err_t + Z * Z * Z -> gmap cstr file -> Prop) :
  recovering D0 D -> D !! CLOSE = None -> Z.of_nat (length (rows_of D)) < 2 ^ 64 ->
  (forall data, D !! ROWS = Some (full data) \/ D !! ROWS = None /\ data = [] ->
     Q (inr (Z.of_nat (newlines data), Z.of_nat (length (keep_rows data)), Z.of_nat (length data))) (<[ROWS := full data]> D)) ->
  (forall D', ~ reliable -> recovering D0 D' -> Q (inl ESP_FAIL) D') ->
  pwp (recovering D0) (count_rows o root (path_in root q (Some ROWS)).2) Q D.
Proof.
  intros Hrv Hc Hsmall Hok Hbad. unfold count_rows. apply pwp_bind, pwp_fopen_rb; [cbn; lia|]. destruct (D !! ROWS) as [f|] eqn:Er.
  - pose proof (durable_full f (rv_settled _ _ Hrv f Er)) as Ef. assert (Erows : rows_of D = f_data f) by (unfold rows_of; by rewrite Er).
    split; [|intros Hr; apply pwp_ret, Hbad; done]. apply pwp_bind, pwp_fread.
    + intros bufs Hbufs. apply pwp_ret.
      pose proof (count_steps_spec bufs []) as Hcount. cbn [app newlines keep_rows length] in Hcount. change (Z.of_nat 0) with 0 in Hcount.
      rewrite Hcount by (rewrite Hbufs, <- Erows; done). rewrite Hbufs.
      replace D with (<[ROWS := full (f_data f)]> D) at 1; [apply Hok; left; congruence|]. rewrite <- Ef. by apply insert_id.
    + intros bufs Hr. by apply pwp_ret, Hbad.
  - assert (Erows : rows_of D = []) by (unfold rows_of; by rewrite Er).
    assert (Hempty : forall fl, grown 0 [] fl -> recovering D0 (<[ROWS := fl]> D)).
    { intros fl (Hfl & _ & Hpre). destruct fl as [dt n]. cbn in *. apply prefix_nil_inv in Hpre as ->. unfold file_ok in Hfl. cbn in Hfl.
      replace n with 0%nat by lia. apply (recovering_rows D0 D []); [done|done|]. rewrite <- (rv_rows _ _ Hrv). by rewrite Erows. }
    destruct (path_in_file root root_fits q ROWS Hq ltac:(cbn; lia)) as [-> E]. cbn [snd]. apply pwp_bind.
    apply (pwp_fopen_wb o root (dir_place x (dir_name q)) (fun _ => True) _ _ ROWS); [done|done| | |].
    + apply Hempty. split_and!; [unfold file_ok; cbn; lia|cbn; lia|done].
    + intros f Hs. apply pwp_bind. apply (pwp_sync_file o (dir_place x (dir_name q)) (fun _ => True) _ ROWS D 0 []); [done|done| |].
      * intros f' D' Hs'. apply pwp_bind. apply (pwp_fclose o (dir_place x (dir_name q)) (fun _ => True) _ ROWS D 0 []); [done|done|].
        intros closed fl Hg Hcl. apply (grown_full []) in Hg as ->. apply pwp_ret. change (is_ok ESP_OK) with true. destruct closed; cbn [andb].
        -- apply (Hok []). by right.
        -- apply Hbad; [intros Hr; by specialize (Hcl Hr)|]. by apply Hempty, full_grown.
      * intros f' D' Hs' Hr. apply pwp_bind. apply (pwp_fclose o (dir_place x (dir_name q)) (fun _ => True) _ ROWS D 0 []); [done|done|].
        intros closed fl Hg Hcl. apply pwp_ret. replace (closed && is_ok ESP_FAIL) with false by (by rewrite andb_false_r).
        apply Hbad; [done|]. by apply Hempty.
    + intros Hr. by apply pwp_ret, Hbad.
Qed.

Lemma pwp_hash_and_close (D0 D1 : gmap cstr file) (data : list Z) (Q : esp_err_t -> gmap cstr file -> Prop) :
  recovering D0 (<[ROWS := full data]> D1) -> D1 !! CLOSE = None -> is_Some (D1 !! HEAD) -> whole data -> Z.of_nat (length data) < 2 ^ 64 ->
  Q ESP_OK (closed_dir false data None D1) -> (forall D', ~ reliable -> recovering D0 D' -> Q ESP_FAIL D') ->
  pwp (recovering D0) (hash_and_close o root q (Z.of_nat (newlines data)) (Z.of_nat (length data))) Q (<[ROWS := full data]> D1).
Proof.
  intros HR Hc Hh Hw Hsmall Hok Hbad. unfold hash_and_close.
  apply pwp_bind, pwp_fopen_rb; [cbn; lia|]. rewrite lookup_insert_eq. split; [|intros Hr; by apply pwp_ret, Hbad].
  apply pwp_bind, pwp_fread; [|intros bufs Hr; by apply pwp_ret, Hbad]. intros bufs Hbufs. cbn [negb f_data full] in *.
  rewrite (hex_digests _ data).
  2:{ rewrite <- Hbufs. by apply (updates_digests _ []), init_digests. }
  pose proof (newlines_len data).
  replace (Z.of_nat (newlines data)) with (u64 (Z.of_nat (newlines data))) by (unfold u64; apply Z.mod_small; lia).
  replace (Z.of_nat (length data)) with (u64 (Z.of_nat (length data))) by (unfold u64; apply Z.mod_small; lia).
  assert (Hlift : forall D', dir_ok D' /\ same_off [CLOSE; CLOSE_TMP] (<[ROWS := full data]> D1) D' -> recovering D0 D').
  { intros D' [H1 H2]. by apply (recovering_closed D0 D1 data). }
  eapply pwp_mono; [|exact Hlift|intros e D' HQ; exact HQ].
  apply pwp_write_close; rewrite ?lookup_insert_ne by done; try done.
  - apply HR.
  - apply lookup_insert_eq.
  - intros D' Hr HP. apply Hbad; [done|]. by apply Hlift.
Qed.

Lemma pwp_truncate (PF : gmap cstr file -> Prop) (n : cstr) (k : nat) (f : file) (Q : bool -> gmap cstr file -> Prop) (D : gmap cstr file) :
  (length n <= 12)%nat -> D !! n = Some f -> PF (<[n := cut_to k f]> D) -> Q true (<[n := cut_to k f]> D) -> (~ reliable -> Q false D) ->
  pwp PF (truncate o root (path_in root q (Some n)).2 k) Q D.
Proof.
  intros Hn Hf HP Hok Hbad. unfold truncate. destruct (path_in_file root root_fits q n Hq Hn) as [-> E]. cbn [snd]. rewrite E.
  apply pwp_bind, pwp_fails. intros b Hb. apply pwp_bind, pwp_gets. cbn [id].
  change (LIn (dir_name q) n) with (pl_loc (dir_place x (dir_name q)) n).
  rewrite (@pl_lookup (dir_place x (dir_name q)) (fun _ => True) _), Hf, bool_decide_false, orb_false_r by done. destruct b.
  { apply pwp_ret, Hbad. intros Hr. by specialize (Hb Hr). }
  apply pwp_bind, (pwp_alter (dir_place x (dir_name q)) (fun _ => True)); rewrite (alter_some _ _ f) by done; [done|]. by apply pwp_ret.
Qed.

Lemma pwp_recover_rows (D0 D : gmap cstr file) (Q : esp_err_t -> gmap cstr file -> Prop) :
  recovering D0 D -> D !! CLOSE = None -> is_Some (D !! HEAD) -> Z.of_nat (length (rows_of D)) < 2 ^ 64 ->
  Q ESP_OK (closed_dir false (keep_rows (rows_of D)) None D) -> (forall D', ~ reliable -> recovering D0 D' -> Q ESP_FAIL D') ->
  pwp (recovering D0) (recover_rows o root q) Q D.
Proof.
  intros HR Hc Hh Hsmall Hok Hbad. unfold recover_rows. cbv zeta. apply pwp_bind, (pwp_count_rows D0); [done|done|done| |].
  2:{ intros D' Hr HR'. apply pwp_ret. by apply Hbad. }
  intros data Hdata. assert (Edata : rows_of D = data) by (unfold rows_of; by destruct Hdata as [->|[-> ->]]). rewrite Edata in *.
  pose proof (rv_rows _ _ HR) as Hk. rewrite Edata in Hk. pose proof (keep_rows_len data) as Hlen.
  assert (HR1 : recovering D0 (<[ROWS := full data]> D)) by (by apply recovering_rows).
  assert (HR2 : recovering D0 (<[ROWS := full (keep_rows data)]> D)).
  { apply recovering_rows; [done|done|]. by rewrite <- Hk, keep_rows_whole. }
  assert (Hrest : pwp (recovering D0) (hash_and_close o root q (Z.of_nat (newlines data)) (Z.of_nat (length (keep_rows data)))) Q
    (<[ROWS := full (keep_rows data)]> D)).
  { rewrite <- newlines_keep. apply pwp_hash_and_close; try done; [apply keep_rows_whole|lia]. }
  apply pwp_bind. rewrite Z.gtb_ltb. destruct (Z.ltb_spec (Z.of_nat (length (keep_rows data))) (Z.of_nat (length data))) as [Hlt|Hge].
  - assert (Ecut : <[ROWS := cut_to (Z.to_nat (Z.of_nat (length (keep_rows data)))) (full data)]> (<[ROWS := full data]> D) = <[ROWS := full (keep_rows data)]> D).
    { rewrite insert_insert_eq. f_equal. unfold cut_to, full. cbn [f_data f_synced]. rewrite Nat2Z.id, keep_rows_take. f_equal. lia. }
    apply (pwp_truncate _ _ _ (full data)); rewrite ?Ecut; [cbn; lia|apply lookup_insert_eq|done|done|]. intros Hr. by apply pwp_ret, Hbad.
  - apply pwp_ret. cbn [negb]. assert (Ek : keep_rows data = data) by (rewrite <- (keep_rows_take data); apply take_ge; lia).
    rewrite Ek in Hrest |- *. exact Hrest.
Qed.

(** A session left open is closed with its complete rows. *)
Lemma pwp_recover_one (D : gmap cstr file) (Q : esp_err_t -> gmap cstr file -> Prop) :
  dir_ok D -> D !! CLOSE = None -> is_Some (D !! HEAD) -> settled D -> Z.of_nat (length (rows_of D)) < 2 ^ 64 ->
  Q ESP_OK (closed_dir false (keep_rows (rows_of D)) None D) ->
  (forall D', ~ reliable -> recovering D D' -> Q ESP_FAIL D') ->
  pwp (recovering D) (recover_one o root q) Q D.
Proof.
  intros HD Hc Hh Hset Hsmall Hok Hbad. unfold recover_one. destruct plain_tmp as (Htmp & _).
  assert (Er : rows_of (delete CLOSE_TMP D) = rows_of D) by (unfold rows_of; by rewrite lookup_delete_ne).
  assert (R1 : recovering D (delete CLOSE_TMP D)).
  { split; [by apply dir_ok_delete| |by rewrite Er|].
    - apply same_off_delete; [|done]. do 2 apply list_elem_of_further. apply list_elem_of_here.
    - intros f. rewrite lookup_delete_ne by done. apply Hset. }
  apply pwp_bind. destruct (path_in_file root root_fits q CLOSE_TMP Hq ltac:(cbn; lia)) as [-> Et]. cbn [snd].
  apply (pwp_unlink_gone o root (dir_place x (dir_name q)) (fun _ => True) _ _ CLOSE_TMP); [done|done| |].
  - intros _. apply pwp_recover_rows; rewrite ?lookup_delete_ne, ?Er by done; try done. by rewrite closed_dir_twice.
  - intros _. apply pwp_recover_rows; try done; by split.
Qed.
End One.
End Card.
End Headers.
