(* ===== verification/SdlogRecover.v ===== *)
(** Recovery of the whole card: what it leaves of every session, at the end and at
    every moment at which it may itself be cut short. *)
From Stdlib Require Import ZArith Lia String Sorted.
From stdpp Require Import base list numbers gmap.
From S2P Require Import Prelude ConfigDesc Sha256 CardFs SdlogSession SdlogRules SdlogPaths SdlogInv SdlogOps SdlogCard.
Open Scope Z_scope.

Section Headers.
Context {HS : Headers}.

(** What a session's directory is to be after recovery: a closed one stays, one
    without a header goes, an open one is closed with its complete rows. *)
Definition recovered (D : gmap cstr file) : option (gmap cstr file) :=
  match D !! CLOSE, D !! HEAD with
  | Some _, _ => Some D
  | None, None => None
  | None, Some _ => Some (closed_dir false (keep_rows (rows_of D)) None D)
  end.

(** A moment of that. *)
Definition half_recovered (D : gmap cstr file) (r : option (gmap cstr file)) : Prop :=
  match D !! CLOSE, D !! HEAD with
  | Some _, _ => r = Some D
  | None, None => r = None \/ exists D', r = Some D' /\ D' ⊆ D
  | None, Some _ => exists D', r = Some D' /\ recovering D D'
  end.

(** The card as recovery finds it: a session's rows file is as the power cut left it. *)
Definition booted (x : fs) : Prop :=
  card_ok x /\ forall q D, is_seq q -> fs_dirs x !! dir_name q = Some D -> settled D /\ Z.of_nat (length (rows_of D)) < 2 ^ 64.

Record during (x y : fs) : Prop := {
  du_root : fs_root y = fs_root x;
  du_files : fs_files y = fs_files x;
  du_other n : parse_seq n = None -> fs_dirs y !! n = fs_dirs x !! n;
  du_dirs q : is_seq q ->
    match fs_dirs x !! dir_name q with
    | None => fs_dirs y !! dir_name q = None
    | Some D => half_recovered D (fs_dirs y !! dir_name q)
    end }.

Lemma half_refl D : dir_ok D -> settled D -> half_recovered D (Some D).
Proof.
  intros HD Hs. unfold half_recovered. destruct (D !! CLOSE), (D !! HEAD); [done|done| |right; by exists D].
  exists D. split; [done|]. by split.
Qed.

Lemma during_refl x : booted x -> during x x.
Proof.
  intros [[Hn Hs Hd] Hb]. split; [done..|]. intros q Hq. destruct (fs_dirs x !! dir_name q) as [D|] eqn:E; [|done].
  apply half_refl; [by apply (Hd q)|by apply (Hb q)].
Qed.

Lemma half_ok D D' : dir_ok D -> half_recovered D (Some D') -> dir_ok D'.
Proof.
  intros HD. unfold half_recovered. destruct (D !! CLOSE) eqn:Ec; [by intros [= ->]|]. destruct (D !! HEAD).
  - intros (D1 & [= <-] & HR). apply HR.
  - intros [|(D1 & [= <-] & Hsub)]; [done|]. by eapply dir_ok_subset.
Qed.

Lemma during_card_ok x y : card_ok x -> during x y -> card_ok y.
Proof.
  intros [Hn [Hs1 Hs2] Hd] [_ Hf Ho Hdu]. split.
  - intros n. rewrite Hf. destruct (parse_seq n) as [q|] eqn:E; [|rewrite Ho by done; apply Hn].
    apply parse_seq_spec in E as [Hq ->]. specialize (Hdu q Hq). destruct (Hn (dir_name q)) as [|Hnone]; [by left|].
    right. by rewrite Hnone in Hdu.
  - by rewrite !Ho.
  - intros q D' Hq HD'. specialize (Hdu q Hq). rewrite HD' in Hdu. destruct (fs_dirs x !! dir_name q) as [D|] eqn:E; [|done].
    eapply half_ok; [|done]. by apply (Hd q).
Qed.

Lemma during_step x y q D y' r : during x y -> is_seq q -> fs_dirs x !! dir_name q = Some D -> half_recovered D r ->
  fs_root y' = fs_root y -> fs_files y' = fs_files y -> (forall n, n <> dir_name q -> fs_dirs y' !! n = fs_dirs y !! n) ->
  fs_dirs y' !! dir_name q = r -> during x y'.
Proof.
  intros [H1 H2 H3 H4] Hq HD Hr Er Ef Eo Ed. split; [congruence|congruence| |].
  - intros n Hn. rewrite Eo; [by apply H3|]. intros ->. by rewrite (proj2 (parse_seq_spec (dir_name q) q)) in Hn.
  - intros p Hp. destruct (decide (p = q)) as [->|Hne]; [by rewrite HD, Ed|]. rewrite Eo; [by apply H4|].
    intros E. by apply dir_name_inj in E.
Qed.

Lemma recovering_done D : dir_ok D -> D !! CLOSE = None -> is_Some (D !! HEAD) -> settled D ->
  recovering D (closed_dir false (keep_rows (rows_of D)) None D).
Proof.
  intros HD Hc Hh Hset. assert (R1 : recovering D (<[ROWS := full (keep_rows (rows_of D))]> D)).
  { apply recovering_rows; [by split|done|]. apply keep_rows_whole. }
  eapply recovering_closed; [exact R1| |].
  - apply dir_ok_recorded; [apply R1|by rewrite lookup_insert_ne|apply lookup_insert_eq|apply keep_rows_whole].
  - unfold closed_dir. apply same_off_insert; [apply list_elem_of_here|]. apply same_off_delete; [|done].
    apply list_elem_of_further, list_elem_of_here.
Qed.

Section Recover.
Context {W : Type} (o : os W) `{!OsLaws o} (root : cstr) (root_fits : (length root + 22 < PATH_MAX_LEN)%nat).
#[local] Abbreviation reliable := (reliable o).

(** Which sessions there is something to do for. *)
Definition left_open (x : fs) (q : Z) : bool :=
  match fs_dirs x !! dir_name q with
  | Some D => match D !! CLOSE, D !! HEAD with None, Some _ => true | _, _ => false end
  | None => false
  end.
Definition unstarted (x : fs) (q : Z) : bool :=
  match fs_dirs x !! dir_name q with
  | Some D => match D !! CLOSE, D !! HEAD with None, None => true | _, _ => false end
  | None => false
  end.
Definition count_if (f : Z -> bool) (l : list Z) : Z := Z.of_nat (length (List.filter f l)).

(** One session recovered, from a card on which it has not been touched. *)
Lemma cwp_recover_session x y q D Q : booted x -> during x y -> is_seq q -> fs_dirs x !! dir_name q = Some D -> fs_dirs y !! dir_name q = Some D ->
  (forall e y', during x y' -> (forall n, n <> dir_name q -> fs_dirs y' !! n = fs_dirs y !! n) ->
     (reliable -> e = ESP_OK /\ fs_dirs y' !! dir_name q = recovered D) -> Q e y') ->
  D !! CLOSE = None ->
  (D !! HEAD = None -> cwp (during x) (espos_sdlog_remove o root q) Q y) /\
  (is_Some (D !! HEAD) -> cwp (during x) (recover_one o root q) Q y).
Proof.
  intros [Hx Hb] Hdu Hq HDx HDy HQ Hc. pose proof (card_dirs x Hx q D Hq HDx) as HD. destruct (Hb q D Hq HDx) as [Hset Hsmall]. split.
  - intros Hh. assert (Hhalf : forall D', D' ⊆ D -> half_recovered D (Some D')).
    { intros D' Hsub. unfold half_recovered. rewrite Hc, Hh. right. by exists D'. }
    assert (Hput : forall D', D' ⊆ D -> during x (pl_put (dir_place y (dir_name q)) D')).
    { intros D' Hsub. eapply (during_step x y q D); [done|done|done|by apply (Hhalf D')|done|done| |].
      - intros n Hn. cbn. by rewrite lookup_insert_ne.
      - cbn. apply lookup_insert_eq. }
    assert (Hdel : during x (y <| fs_dirs ::= delete (dir_name q) |>)).
    { eapply (during_step x y q D _ None); [done|done|done| |done|done| |].
      - unfold half_recovered. rewrite Hc, Hh. by left.
      - intros n Hn. cbn. by rewrite lookup_delete_ne.
      - cbn. apply lookup_delete_eq. }
    apply (cwp_remove o root root_fits _ q D); [done|done| |done|done| |].
    + intros n f Hn. apply (ok_files D HD n f Hn).
    + apply HQ; [done|intros n Hn; cbn; by rewrite lookup_delete_ne|]. intros _. split; [done|]. unfold recovered. rewrite Hc, Hh. cbn. apply lookup_delete_eq.
    + intros D' Hr Hsub. apply HQ; [by apply Hput|intros n Hn; cbn; by rewrite lookup_insert_ne|]. done.
  - intros Hh. assert (Hput : forall D', recovering D D' -> during x (pl_put (dir_place y (dir_name q)) D')).
    { intros D' HR. eapply (during_step x y q D _ (Some D')); [done|done|done| |done|done| |].
      - unfold half_recovered. rewrite Hc. destruct Hh as [h ->]. by exists D'.
      - intros n Hn. cbn. by rewrite lookup_insert_ne.
      - cbn. apply lookup_insert_eq. }
    assert (Hpwp : pwp (dir_place y (dir_name q)) (recovering D) (recover_one o root q)
      (fun e D' => recovering D D' /\ (reliable -> e = ESP_OK /\ Some D' = recovered D)) D).
    { apply (pwp_recover_one o root root_fits y q Hq); [done..| |].
      - split.
        + by apply recovering_done.
        + intros _. split; [done|]. unfold recovered. rewrite Hc. by destruct Hh as [h ->].
      - intros D' Hr HR. by split. }
    unfold pwp in Hpwp. rewrite <- (dir_place_id y _ D HDy) in Hpwp. eapply cwp_mono; [exact Hpwp| |].
    + intros z (D' & -> & HR). by apply Hput.
    + intros e z (D' & -> & HR & Hrel). apply HQ; [by apply Hput|intros n Hn; cbn; by rewrite lookup_insert_ne|].
      intros Hr. destruct (Hrel Hr) as [He Hd]. split; [done|]. cbn. by rewrite lookup_insert_eq.
Qed.

Lemma count_if_cons f q l : count_if f (q :: l) = (if f q then 1 else 0) + count_if f l.
Proof. unfold count_if. cbn. destruct (f q); cbn [length]; lia. Qed.

(** What recovery of the sessions [l] leaves, from [y]. *)
Definition recovers (x y : fs) (l : list Z) (first : esp_err_t) (rc rm : Z) (r : esp_err_t * Z * Z) (y' : fs) : Prop :=
  during x y' /\ (forall n, (forall q, q ∈ l -> n <> dir_name q) -> fs_dirs y' !! n = fs_dirs y !! n) /\
  (reliable -> r = (first, rc + count_if (left_open x) l, rm + count_if (unstarted x) l) /\
     forall q, q ∈ l -> fs_dirs y' !! dir_name q = fs_dirs x !! dir_name q ≫= recovered).

Lemma recovers_cons x y q D l first rc rm r y1 y' : is_seq q -> q ∉ l -> (forall p, p ∈ l -> is_seq p) ->
  fs_dirs x !! dir_name q = Some D -> (forall n, n <> dir_name q -> fs_dirs y1 !! n = fs_dirs y !! n) ->
  (reliable -> fs_dirs y1 !! dir_name q = recovered D) ->
  recovers x y1 l first (rc + (if left_open x q then 1 else 0)) (rm + (if unstarted x q then 1 else 0)) r y' ->
  recovers x y (q :: l) first rc rm r y'.
Proof.
  intros Hq Hnl Hl HD Hoff Hdone (H1 & H2 & H3). assert (Hoff' : forall p, p ∈ l -> dir_name q <> dir_name p).
  { intros p Hp E. apply dir_name_inj in E as ->; [done|done|by apply Hl]. }
  split; [done|]. split.
  - intros n Hn. rewrite H2; [apply Hoff; apply Hn, list_elem_of_here|]. intros p Hp. apply Hn. by apply list_elem_of_further.
  - intros Hr. destruct (H3 Hr) as [-> H4]. split; [rewrite !count_if_cons; f_equal; [f_equal|]; lia|].
    intros p [->|Hp]%elem_of_cons; [|by apply H4]. rewrite (H2 (dir_name q)) by done. by rewrite Hdone, HD.
Qed.

Lemma recovers_eq x y l first rc rm first' rc' rm' r y' : (reliable -> first = first' /\ rc = rc' /\ rm = rm') ->
  recovers x y l first rc rm r y' -> recovers x y l first' rc' rm' r y'.
Proof. intros E (H1 & H2 & H3). split_and!; [done|done|]. intros Hr. destruct (E Hr) as (-> & -> & ->). by apply H3. Qed.

Lemma cwp_recover_loop x l : stats o -> booted x -> NoDup l -> (forall q, q ∈ l -> dirs_of x q) ->
  forall y first rc rm, during x y -> (forall q, q ∈ l -> fs_dirs y !! dir_name q = fs_dirs x !! dir_name q) ->
  cwp (during x) (recover_loop o root l first rc rm) (recovers x y l first rc rm) y.
Proof.
  intros Hst Hb. induction l as [|q l IH]; intros Hnd Hl y first rc rm Hdu Hsame; cbn [recover_loop].
  { apply cwp_ret. split_and!; [done|done|]. intros _. split; [unfold count_if; cbn; f_equal; [f_equal|]; lia|]. intros q Hq. by apply not_elem_of_nil in Hq. }
  apply NoDup_cons in Hnd as [Hnl Hnd]. destruct (Hl q (list_elem_of_here _ _)) as [Hq [D HD]].
  assert (Hl' : forall p, p ∈ l -> dirs_of x p) by (intros p Hp; apply Hl; by apply list_elem_of_further).
  assert (Hly : fs_dirs y !! dir_name q = Some D) by (rewrite Hsame; [done|apply list_elem_of_here]).
  assert (Hrest : forall y1 first' rc' rm', during x y1 -> (forall n, n <> dir_name q -> fs_dirs y1 !! n = fs_dirs y !! n) ->
    (reliable -> fs_dirs y1 !! dir_name q = recovered D /\ first' = first /\ rc' = rc + (if left_open x q then 1 else 0) /\ rm' = rm + (if unstarted x q then 1 else 0)) ->
    cwp (during x) (recover_loop o root l first' rc' rm') (recovers x y (q :: l) first rc rm) y1).
  { intros y1 first' rc' rm' Hdu1 Hoff Hrel. eapply cwp_post; [apply (IH Hnd Hl' y1 first' rc' rm'); [done|]|].
    - intros p Hp. rewrite Hoff; [apply Hsame; by apply list_elem_of_further|]. intros E. apply dir_name_inj in E as ->; [done|by apply Hl'|done].
    - intros r y' HR. eapply (recovers_cons x y q D); [done|done|intros p Hp; by apply Hl'|done|exact Hoff|intros Hr; by apply Hrel|].
      eapply recovers_eq; [|exact HR]. intros Hr. by destruct (Hrel Hr) as (_ & -> & -> & ->). }
  assert (Hlook : forall n, lookup_loc y (LIn (dir_name q) n) = D !! n) by (intros n; cbn [lookup_loc]; by rewrite Hly).
  assert (Hopen : left_open x q = match D !! CLOSE, D !! HEAD with None, Some _ => true | _, _ => false end) by (unfold left_open; by rewrite HD).
  assert (Hun : unstarted x q = match D !! CLOSE, D !! HEAD with None, None => true | _, _ => false end) by (unfold unstarted; by rewrite HD).
  rewrite Hopen, Hun in Hrest. clear Hopen Hun. unfold recovered in Hrest.
  apply cwp_bind, cwp_exists; [done|done|cbn; lia|]. intros b _ Hbc. rewrite Hlook in Hbc. specialize (Hbc Hst). subst b.
  destruct (D !! CLOSE) as [c|] eqn:Ec.
  { rewrite bool_decide_true by done. apply Hrest; [done|done|]. intros _. split_and!; [done|done|lia|lia]. }
  rewrite bool_decide_false by (by intros []).
  apply cwp_bind, cwp_exists; [done|done|cbn; lia|]. intros b _ Hbh. rewrite Hlook in Hbh. specialize (Hbh Hst). subst b.
  assert (Hone : forall e y1 rc' rm', during x y1 -> (forall n, n <> dir_name q -> fs_dirs y1 !! n = fs_dirs y !! n) ->
     (reliable -> e = ESP_OK /\ fs_dirs y1 !! dir_name q = recovered D /\ rc' = rc + (match D !! HEAD with Some _ => 1 | None => 0 end) /\
        rm' = rm + (match D !! HEAD with Some _ => 0 | None => 1 end)) ->
     cwp (during x) (recover_loop o root l (if is_ok first then e else first) rc' rm') (recovers x y (q :: l) first rc rm) y1).
  { intros e y1 rc' rm' Hdu1 Hoff Hrel. apply Hrest; [done|done|]. intros Hr. destruct (Hrel Hr) as (-> & Hd & -> & ->).
    rewrite Hd. unfold recovered. rewrite Ec. split; [done|]. split; [by destruct first|]. by destruct (D !! HEAD). }
  destruct (D !! HEAD) as [h|] eqn:Eh.
  - rewrite bool_decide_true by done. cbn [negb]. apply cwp_bind.
    eapply (cwp_recover_session x y q D _ Hb Hdu Hq HD Hly); [|done|by rewrite Eh].
    intros e y1 Hdu1 Hoff Hrel. apply Hone; [done|done|]. intros Hr. destruct (Hrel Hr) as [-> Hd]. split_and!; [done|done|done|lia].
  - rewrite bool_decide_false by (by intros []). cbn [negb]. apply cwp_bind.
    eapply (cwp_recover_session x y q D _ Hb Hdu Hq HD Hly); [|done|done].
    intros e y1 Hdu1 Hoff Hrel. apply Hone; [done|done|]. intros Hr. destruct (Hrel Hr) as [-> Hd]. split_and!; [done|done|lia|done].
Qed.

(** Recovery of the card. *)
Lemma cwp_recover x : stats o -> booted x ->
  cwp (during x) (espos_sdlog_recover o root) (fun r y => during x y /\
    (reliable -> fs_root x = true -> exists l, StronglySorted Z.le l /\ NoDup l /\ (forall q, q ∈ l <-> dirs_of x q) /\
       r = (ESP_OK, count_if (left_open x) l, count_if (unstarted x) l) /\
       forall q, is_seq q -> fs_dirs y !! dir_name q = fs_dirs x !! dir_name q ≫= recovered)) x.
Proof.
  intros Hst Hb. pose proof Hb as [Hx _]. unfold espos_sdlog_recover. apply cwp_bind, cwp_scan; [done|done|done| |].
  2:{ intros e Hr _. apply cwp_ret. split; [by apply during_refl|]. intros Hrel. done. }
  intros l Hs Hnd Hl Hall. eapply cwp_post; [apply (cwp_recover_loop x l Hst Hb Hnd Hl x); [by apply during_refl|done]|].
  intros r y (H1 & H2 & H3). split; [done|]. intros Hr Hroot. exists l. destruct (H3 Hr) as [-> H4].
  split; [done|]. split; [done|]. split; [|split].
  - intros q. split; [apply Hl|by apply Hall].
  - by rewrite !Z.add_0_l.
  - intros q Hq. destruct (decide (q ∈ l)) as [Hin|Hnin]; [by apply H4|]. rewrite H2.
    + destruct (fs_dirs x !! dir_name q) eqn:E; [|done]. exfalso. apply Hnin, Hall; [done|done|]. split; [done|]. by rewrite E.
    + intros p Hp E. apply dir_name_inj in E as ->; [done|done|by apply Hl].
Qed.
End Recover.
End Headers.
