(* ===== verification/SdlogOpen.v ===== *)
(** Opening a session in the crash logic, and the numbers it hands out. *)
From Stdlib Require Import ZArith Lia String Sorted.
From stdpp Require Import base list numbers gmap.
From S2P Require Import Prelude ConfigDesc Sha256 CardFs SdlogSession SdlogRules SdlogPaths SdlogInv SdlogOps SdlogCard.
Open Scope Z_scope.

(** * Numbers as text *)

Lemma scan_digits_spec s r v : Forall (fun c => isdigit c = true) s -> match r with c :: _ => isdigit c = false | [] => True end ->
  scan_digits (s ++ r) v = (value_of v s, r).
Proof.
  intros Hs Hr. revert v. induction Hs as [|c s Hc Hs IH]; intros v.
  - cbn. destruct r as [|c r]; [done|]. cbn. by rewrite Hr.
  - cbn. by rewrite Hc, IH.
Qed.

Lemma dec_digits_value fuel n acc : 0 <= n < 10 ^ Z.of_nat fuel -> (0 < fuel)%nat ->
  exists s, dec_digits fuel n acc = s ++ acc /\ s <> [] /\ Forall (fun c => isdigit c = true) s /\ value_of 0 s = n.
Proof.
  revert n acc. induction fuel as [|fuel IH]; intros n acc Hn Hf; [lia|]. cbn [dec_digits]. destruct (Z.ltb_spec n 10).
  - exists [48 + n]. split_and!; [done|done| |cbn; lia]. constructor; [apply digit_range; lia|constructor].
  - assert (Hf' : (0 < fuel)%nat) by (destruct fuel; [cbn in Hn; lia|lia]). rewrite Nat2Z.inj_succ, Z.pow_succ_r in Hn by lia.
    destruct (IH (n / 10) (48 + n mod 10 :: acc)) as (s & -> & Hne & Hs & Hv); [revert Hn; generalize (10 ^ Z.of_nat fuel); intros; div_lia|done|].
    exists (s ++ [48 + n mod 10]). rewrite <- app_assoc. split_and!; [done|by destruct s| |].
    + apply Forall_app. split; [done|]. constructor; [|constructor]. apply digit_range. pose proof (Z.mod_pos_bound n 10 ltac:(lia)). lia.
    + rewrite value_of_app, Hv. div_lia.
Qed.

Lemma fmt_d_value n : 0 <= n < 10 ^ 20 -> exists s, fmt_d n = s /\ s <> [] /\ Forall (fun c => isdigit c = true) s /\ value_of 0 s = n.
Proof.
  intros Hn. unfold fmt_d. destruct (Z.ltb_spec n 0); [lia|]. destruct (dec_digits_value 20 n [] Hn ltac:(lia)) as (s & -> & H1 & H2 & H3).
  exists s. by rewrite app_nil_r.
Qed.

(** A number read back as printed. *)
Lemma scan_u_fmt bits n c r : 0 <= n < 2 ^ bits -> n < 10 ^ 20 -> isdigit c = false -> scan_u bits (fmt_d n ++ c :: r) = Some (n, c :: r).
Proof.
  intros Hn H20 Hc. destruct (fmt_d_value n ltac:(lia)) as (s & -> & Hne & Hs & Hv). destruct s as [|x s]; [done|].
  pose proof Hs as Hs'. apply Forall_cons in Hs as [Hx _]. pose proof Hx as Hr. apply digit_range in Hr. unfold scan_u. cbn [app skip_space].
  assert (isspace x = false) as ->.
  { unfold isspace. destruct (Z.eqb_spec x 32); [lia|]. destruct (Z.leb_spec 9 x), (Z.leb_spec x 13); done || lia. }
  assert (Hm : (match x :: s ++ c :: r with 45 :: s' => (true, s') | 43 :: s' => (false, s') | _ => (false, x :: s ++ c :: r) end) = (false, x :: s ++ c :: r)).
  { destruct (decide (x = 45)) as [->|]; [lia|]. destruct (decide (x = 43)) as [->|]; [lia|]. destruct x as [|p|p]; try done.
    do 6 (destruct p as [p|p|]; try done; try lia). }
  rewrite Hm, Hx. change (x :: s ++ c :: r) with ((x :: s) ++ c :: r). rewrite scan_digits_spec by done. rewrite Hv.
  destruct (Z.leb_spec (2 ^ bits) n); [lia|done].
Qed.

Definition seq_text (q : Z) : cstr := fmt_d q ++ [10].

Lemma seq_of_seq_text q : is_seq q -> seq_of_text (seq_text q) = q.
Proof.
  intros Hq. unfold is_seq, MAX_SEQ in Hq. unfold seq_of_text, seq_text. rewrite scan_u_fmt by (done || cbn; lia).
  rewrite Z.gtb_ltb. destruct (Z.ltb_spec MAX_SEQ q); [unfold MAX_SEQ in *; lia|done].
Qed.

Lemma length_seq_text q : is_seq q -> (length (seq_text q) < 16)%nat.
Proof.
  intros Hq. unfold seq_text, fmt_d. destruct (Z.ltb_spec q 0); [unfold is_seq in *; lia|]. rewrite length_app. cbn [length].
  assert (H1 : 0 <= q < 10 ^ Z.of_nat 8) by (unfold is_seq, MAX_SEQ in *; cbn; lia).
  pose proof (dec_digits_fixed 7 20 q [] H1 ltac:(lia)) as H2. apply (f_equal length) in H2.
  rewrite !length_app, length_replicate, length_dec_fixed in H2. cbn [length] in H2. lia.
Qed.

Lemma snprintf_seq_text q : is_seq q -> snprintf_s 16 (seq_text q) = seq_text q.
Proof. intros Hq. pose proof (length_seq_text q Hq). unfold snprintf_s. apply take_ge. cbn. lia. Qed.

Lemma scan_digits_nonneg s v : 0 <= v -> 0 <= (scan_digits s v).1.
Proof.
  revert v. induction s as [|c s IH]; intros v Hv; [done|]. cbn. destruct (isdigit c) eqn:E; [|done]. apply IH. apply digit_range in E. lia.
Qed.

Lemma seq_of_text_range d : is_seq (seq_of_text d).
Proof.
  unfold seq_of_text. destruct (scan_u 32 d) as [[v r]|] eqn:E; [|unfold is_seq, MAX_SEQ; lia]. rewrite Z.gtb_ltb.
  destruct (Z.ltb_spec MAX_SEQ v); [unfold is_seq, MAX_SEQ; lia|]. split; [|done]. unfold scan_u in E.
  destruct (match skip_space d with 45 :: s' => (true, s') | 43 :: s' => (false, s') | _ => (false, skip_space d) end) as [neg s].
  destruct s as [|c s]; [done|]. destruct (isdigit c); [|done]. pose proof (scan_digits_nonneg (c :: s) 0 ltac:(lia)) as Hv.
  destruct (scan_digits (c :: s) 0) as [v' r']. cbn in Hv. injection E as <- _.
  destruct (Z.leb_spec (2 ^ 32) v'); [lia|]. destruct neg; [|done]. apply Z.mod_pos_bound. lia.
Qed.

(** * The numbers on the card *)

(** The number a file of the root records. *)
Definition seq_in (F : gmap cstr file) (n : cstr) : Z := from_option (fun f => seq_of_text (f_data f)) 0 (F !! n).
Definition recorded (F : gmap cstr file) : Z := Z.max (seq_in F LAST_SEQ_FILE) (seq_in F LAST_SEQ_TMP).

Lemma seq_in_range F n : is_seq (seq_in F n).
Proof. unfold seq_in. destruct (F !! n); cbn; [apply seq_of_text_range|unfold is_seq, MAX_SEQ; lia]. Qed.

Section Headers.
Context {HS : Headers}.

Lemma card_ok_files x F : card_ok x -> (forall n, n <> LAST_SEQ_FILE -> n <> LAST_SEQ_TMP -> F !! n = fs_files x !! n) ->
  card_ok (pl_put (root_place x) F).
Proof.
  intros [Hn [H1 H2] Hd] HF. split; [|done|done]. intros n. cbn. destruct (decide (n = LAST_SEQ_FILE)) as [->|]; [by right|].
  destruct (decide (n = LAST_SEQ_TMP)) as [->|]; [by right|]. rewrite HF by done. apply Hn.
Qed.

Section Open.
Context {W : Type} (o : os W) `{!OsLaws o} (root : cstr) (root_fits : (length root + 22 < PATH_MAX_LEN)%nat) (root_named : root <> []).
#[local] Abbreviation reliable := (reliable o).

Lemma cwp_mkdir_loop (P : fs -> Prop) (idx : list nat) (Q : esp_err_t -> fs -> Prop) (x : fs) :
  P (x <| fs_root := true |>) ->
  (forall b, (length root ∈ idx -> b = true) -> Q ESP_OK (x <| fs_root := fs_root x || b |>)) ->
  (forall b, ~ reliable -> Q ESP_FAIL (x <| fs_root := fs_root x || b |>)) ->
  cwp P (mkdir_loop o root idx) Q x.
Proof.
  intros HP. assert (Hid : forall y : fs, y <| fs_root := fs_root y || false |> = y) by (intros []; cbn; by rewrite orb_false_r).
  revert x HP Q. induction idx as [|i idx IH]; intros x HP Q Hok Hbad; cbn [mkdir_loop].
  { apply cwp_ret. rewrite <- (Hid x). apply Hok. intros H. by apply not_elem_of_nil in H. }
  assert (Hskip : i <> length root -> cwp P (mkdir_loop o root idx) Q x).
  { intros Hi. apply IH; [done| |done]. intros b Hb. apply Hok. intros [E|H]%elem_of_cons; [by destruct Hi|by apply Hb]. }
  destruct ((nth i root 0 =? 47) || (i =? length root)%nat) eqn:E.
  2:{ apply orb_false_iff in E as [_ E]. apply Hskip. by apply Nat.eqb_neq. }
  apply cwp_bind. unfold mkdir_outer. apply cwp_bind, cwp_fails. intros b Hb. apply cwp_bind, cwp_gets. destruct b.
  { apply cwp_ret, cwp_ret. rewrite <- (Hid x). apply Hbad. intros Hr. by specialize (Hb Hr). }
  apply cwp_bind. destruct (Nat.eqb_spec i (length root)) as [->|Hi]; cbn [andb].
  - destruct (fs_root x) eqn:Er; cbn [negb].
    + apply cwp_ret, cwp_ret. apply IH; [done| |].
      * intros b _. rewrite Er. by apply (Hok true).
      * intros b Hr. rewrite Er. by apply (Hbad true).
    + apply cwp_touch; [done|]. apply cwp_ret. apply IH; [done| |].
      * intros b _. specialize (Hok true ltac:(done)). rewrite orb_true_r in Hok. exact Hok.
      * intros b Hr. specialize (Hbad true Hr). rewrite orb_true_r in Hbad. exact Hbad.
  - apply cwp_ret, cwp_ret. by apply Hskip.
Qed.

Lemma cwp_mkdir_p (P : fs -> Prop) (Q : esp_err_t -> fs -> Prop) (x : fs) :
  P (x <| fs_root := true |>) -> Q ESP_OK (x <| fs_root := true |>) -> (forall b, ~ reliable -> Q ESP_FAIL (x <| fs_root := fs_root x || b |>)) ->
  cwp P (mkdir_p o root) Q x.
Proof.
  intros HP Hok Hbad. unfold mkdir_p. destruct (Nat.eqb_spec (length root) 0) as [E|Hne]; [by destruct root|].
  destruct (Nat.leb_spec PATH_MAX_LEN (length root)); [unfold PATH_MAX_LEN in *; lia|]. cbn [orb].
  apply cwp_mkdir_loop; [done| |done]. intros b Hb. rewrite Hb by (apply elem_of_seq; lia). by rewrite orb_true_r.
Qed.

Lemma cwp_read_seq_file (P : fs -> Prop) (n : cstr) (Q : Z -> fs -> Prop) (x : fs) : no_slash n -> (length n <= 12)%nat ->
  (forall v, is_seq v -> (reliable -> v = seq_in (fs_files x) n) -> Q v x) -> cwp P (read_seq_file o root n) Q x.
Proof.
  intros Hn Hl HQ. unfold read_seq_file. apply cwp_bind, cwp_fopen_rb. rewrite root_path_at by done. cbn [lookup_loc].
  assert (H0 : is_seq 0) by (unfold is_seq, MAX_SEQ; lia). unfold seq_in in HQ. destruct (fs_files x !! n) as [f|]; cbn [from_option] in HQ.
  - split; [|intros Hr; apply cwp_ret, HQ; [done|by intros H; destruct Hr]].
    apply cwp_bind, cwp_fails. intros b Hb. apply cwp_ret. destruct b.
    + apply HQ; [done|]. intros Hr. by specialize (Hb Hr).
    + apply HQ; [apply seq_of_text_range|done].
  - by apply cwp_ret, HQ.
Qed.

Lemma last_names : no_slash LAST_SEQ_FILE /\ no_slash LAST_SEQ_TMP.
Proof. split; repeat constructor; done. Qed.

Lemma cwp_read_last_seq (P : fs -> Prop) (Q : Z -> fs -> Prop) (x : fs) :
  (forall v, is_seq v -> (reliable -> v = recorded (fs_files x)) -> Q v x) -> cwp P (read_last_seq o root) Q x.
Proof.
  intros HQ. destruct last_names as [N1 N2]. unfold read_last_seq. apply cwp_bind, cwp_read_seq_file; [done|cbn; lia|]. intros a Ha Hra.
  apply cwp_bind, cwp_read_seq_file; [done|cbn; lia|]. intros b Hb Hrb. apply cwp_ret, HQ.
  - by destruct (a >? b).
  - intros Hr. rewrite (Hra Hr), (Hrb Hr). unfold recorded. rewrite Z.gtb_ltb.
    destruct (Z.ltb_spec (seq_in (fs_files x) LAST_SEQ_TMP) (seq_in (fs_files x) LAST_SEQ_FILE)); lia.
Qed.

(** The moments of recording the number [q]. *)
Record record_moments (NF : gmap cstr file -> Prop) (F : gmap cstr file) (q : Z) : Prop := {
  rm_start : NF F;
  rm_part fl : grown 0 (seq_text q) fl -> NF (<[LAST_SEQ_TMP := fl]> F);
  rm_drop : ~ reliable -> NF (delete LAST_SEQ_TMP F);
  rm_full : NF (<[LAST_SEQ_TMP := full (seq_text q)]> (delete LAST_SEQ_FILE F));
  rm_lost : ~ reliable -> NF (delete LAST_SEQ_TMP (delete LAST_SEQ_FILE F));
  rm_done : NF (<[LAST_SEQ_FILE := full (seq_text q)]> (delete LAST_SEQ_TMP F)) }.

(** The card and a condition on the files of its root. *)
Definition card_and (NF : gmap cstr file -> Prop) (y : fs) : Prop := card_ok y /\ NF (fs_files y).

Lemma cwp_write_last_seq (NF : gmap cstr file -> Prop) (q : Z) (Q : esp_err_t -> fs -> Prop) (x : fs) :
  card_ok x -> fs_root x = true -> is_seq q -> record_moments NF (fs_files x) q ->
  let x' := x <| fs_files := <[LAST_SEQ_FILE := full (seq_text q)]> (delete LAST_SEQ_TMP (fs_files x)) |> in
  (card_ok x' -> Q ESP_OK x') ->
  (forall y, ~ reliable -> card_and NF y -> fs_dirs y = fs_dirs x -> Q ESP_FAIL y) ->
  cwp (card_and NF) (write_last_seq o root q) Q x.
Proof.
  intros Hx Hroot Hq [M1 M2 M3 M4 M5 M6] x' Hok Hbad. destruct last_names as [N1 N2].
  set (off (F : gmap cstr file) := forall n : cstr, n <> LAST_SEQ_FILE -> n <> LAST_SEQ_TMP -> F !! n = fs_files x !! n).
  assert (Hoff : off (fs_files x)) by done.
  assert (Hins : forall (F : gmap cstr file) (f : file) (n : cstr), n = LAST_SEQ_FILE \/ n = LAST_SEQ_TMP -> off F -> off (<[n := f]> F)).
  { intros F f n Hn HF m Hm1 Hm2. rewrite lookup_insert_ne; [by apply HF|]. destruct Hn; congruence. }
  assert (Hdel : forall (F : gmap cstr file) (n : cstr), n = LAST_SEQ_FILE \/ n = LAST_SEQ_TMP -> off F -> off (delete n F)).
  { intros F n Hn HF m Hm1 Hm2. rewrite lookup_delete_ne; [by apply HF|]. destruct Hn; congruence. }
  assert (Hpwp : pwp (root_place x) (fun F => off F /\ NF F) (write_last_seq o root q)
    (fun e F => e = ESP_OK /\ F = <[LAST_SEQ_FILE := full (seq_text q)]> (delete LAST_SEQ_TMP (fs_files x)) \/
                e = ESP_FAIL /\ ~ reliable /\ off F /\ NF F) (fs_files x)).
  { unfold write_last_seq. change (fmt_d q ++ [10]) with (seq_text q). rewrite snprintf_seq_text by done.
    assert (ET : parts_text [Some (seq_text q); None; None] = seq_text q) by (unfold parts_text; cbn; by rewrite app_nil_r).
    destruct (card_seq x Hx) as [C1 C2].
    apply (pwp_write_file_atomic o root (root_place x) (fun n => fs_root x = true /\ fs_dirs x !! n = None) _ _ _ LAST_SEQ_TMP LAST_SEQ_FILE);
      rewrite ?ET; try done; auto 10.
    - apply (root_path_at root root_fits); [done|cbn; lia].
    - apply (root_path_at root root_fits); [done|cbn; lia].
  }
  unfold pwp in Hpwp. rewrite <- root_place_id in Hpwp. eapply cwp_mono; [exact Hpwp| |].
  - intros y (F & -> & HF & HN). split; [by apply card_ok_files|done].
  - intros e y (F & -> & [[-> ->]|(-> & Hr & HF & HN)]).
    + apply Hok. apply (card_ok_files x); [done|]. apply Hins; [by left|]. apply Hdel; [by right|done].
    + apply Hbad; [done|split; [by apply card_ok_files|done]|done].
Qed.

(** * The new session *)

Lemma card_ok_drop x q : card_ok x -> card_ok (x <| fs_dirs ::= delete (dir_name q) |>).
Proof.
  intros [Hn [H1 H2] Hd]. split.
  - intros n. cbn. destruct (Hn n); [by left|right]. apply lookup_delete_None. by right.
  - cbn. rewrite !lookup_delete_None. split; by right.
  - intros p D Hp. cbn. intros [_ HD]%lookup_delete_Some. by apply (Hd p).
Qed.

(** Undoing a session that has no close record. *)
Lemma cwp_undo (NF : gmap cstr file -> Prop) (q : Z) (D : gmap cstr file) (e : esp_err_t) (Q : esp_err_t * option espos_sdlog_session -> fs -> Prop) (x : fs) :
  card_and NF x -> is_seq q -> fs_dirs x !! dir_name q = Some D -> D !! CLOSE = None ->
  (forall y, card_and NF y -> Q (e, None) y) -> cwp (card_and NF) (espos_sdlog_remove o root q;; mret (e, None)) Q x.
Proof.
  intros [Hx HN] Hq HD Hc HQ. pose proof (card_dirs x Hx q D Hq HD) as Hok.
  assert (Hput : forall D', D' ⊆ D -> card_and NF (pl_put (dir_place x (dir_name q)) D')).
  { intros D' Hsub. split; [|done]. apply card_ok_put; [done|done|by eapply card_dir_file|]. by eapply dir_ok_subset. }
  assert (Hdrop : card_and NF (x <| fs_dirs ::= delete (dir_name q) |>)) by (split; [by apply card_ok_drop|done]).
  apply cwp_bind. apply (cwp_remove o root root_fits _ q D); [done|done| |done|done| |].
  - intros n f Hn. apply (ok_files D Hok n f Hn).
  - by apply cwp_ret, HQ.
  - intros D' _ Hsub. apply cwp_ret, HQ. by apply Hput.
Qed.

Definition every_of (cfg : option espos_sdlog_open_cfg_t) : Z :=
  match cfg with
  | Some c => if oc_sync_every c =? 0 then ESPOS_SDLOG_SYNC_EVERY_DEFAULT else oc_sync_every c
  | None => ESPOS_SDLOG_SYNC_EVERY_DEFAULT
  end.

Definition cfg_ok (cfg : option espos_sdlog_open_cfg_t) : Prop := match cfg with Some c => 0 <= oc_sync_every c < 2 ^ 32 | None => True end.

(** A session as [open] hands it out. *)
Definition opened (q : Z) (header : cstr) (cfg : option espos_sdlog_open_cfg_t) (s : espos_sdlog_session) (y : fs) : Prop :=
  exists D, fs_dirs y !! dir_name q = Some D /\ D !! HEAD = Some (full header) /\ sess_ok y q s [] 0 D /\
    failed s = false /\ s_rows s = 0 /\ sync_every s = every_of cfg.

Lemma sess_ok_any x y q s text k D : sess_ok x q s text k D -> sess_ok y q s text k D.
Proof. intros [H1 H2 H3 H4 H5 H6 H7]. split; done. Qed.

Lemma cwp_open_rows (NF : gmap cstr file -> Prop) (q : Z) (D : gmap cstr file) (header : cstr) cfg (Q : esp_err_t * option espos_sdlog_session -> fs -> Prop) (x : fs) :
  card_and NF x -> is_seq q -> fs_dirs x !! dir_name q = Some D -> D !! CLOSE = None -> D !! HEAD = Some (full header) -> cfg_ok cfg ->
  (forall s y, card_and NF y -> fs_files y = fs_files x -> s_seq s = q -> opened q header cfg s y -> Q (ESP_OK, Some s) y) ->
  (forall e y, ~ reliable -> e <> ESP_OK -> card_and NF y -> Q (e, None) y) ->
  cwp (card_and NF) (open_rows o root q cfg) Q x.
Proof.
  intros Hx Hq HD Hc Hh Hcfg Hok Hbad. unfold open_rows. apply cwp_bind, cwp_malloc. intros b Hb. destruct b; cbn [negb].
  2:{ assert (Hr : ~ reliable) by (intros Hr; by specialize (Hb Hr)). apply (cwp_undo NF q D); [done..|]. intros y Hy. by apply Hbad. }
  destruct (path_in_file root root_fits q ROWS Hq ltac:(cbn; lia)) as [-> E]. cbn [snd]. apply cwp_bind.
  pose proof (card_dirs x (proj1 Hx) q D Hq HD) as HDok.
  assert (Hrows : dir_ok (<[ROWS := File [] 0]> D)) by (apply dir_ok_rows; [unfold file_ok; cbn; lia|done|done]).
  assert (Hput : forall D', dir_ok D' -> card_and NF (pl_put (dir_place x (dir_name q)) D')).
  { intros D' HD'. destruct Hx as [Hx HN]. split; [|done]. apply card_ok_put; [done|done|by eapply card_dir_file|done]. }
  assert (Hpwp : pwp (dir_place x (dir_name q)) dir_ok (fopen_wb o root (root ++ slash ++ dir_name q ++ 47 :: ROWS))
    (fun f D' => match f with Some f => D' = <[ROWS := File [] 0]> D /\ streams (dir_place x (dir_name q)) ROWS D 0 [] f D'
                 | None => D' = D /\ ~ reliable end) D).
  { apply (pwp_fopen_wb o root (dir_place x (dir_name q)) (fun _ => True) _ _ ROWS); done. }
  unfold pwp in Hpwp. rewrite <- (dir_place_id x _ D HD) in Hpwp. eapply cwp_mono; [exact Hpwp| |].
  - intros y (D' & -> & HD'). by apply Hput.
  - intros f y (D' & -> & Hf). destruct f as [f|].
    + destruct Hf as [-> Hst]. apply cwp_ret, Hok; [by apply Hput|done|done|].
      exists (<[ROWS := File [] 0]> D). split; [cbn; apply lookup_insert_eq|]. rewrite lookup_insert_ne by done.
      split; [done|]. split; [|done]. split; [done|done|by rewrite lookup_insert_ne|rewrite lookup_insert_ne; [by rewrite Hh|done]| | |].
      * by apply (streams_base x q _ D).
      * cbn. split; [lia|]. destruct cfg as [c|]; [|unfold ESPOS_SDLOG_SYNC_EVERY_DEFAULT; lia]. cbn in Hcfg.
        destruct (Z.eqb_spec (oc_sync_every c) 0); unfold ESPOS_SDLOG_SYNC_EVERY_DEFAULT; lia.
      * intros _. split_and!; [done|done|done|by apply init_digests|]. exists [], []. split_and!; try done. cbn.
        destruct cfg as [c|]; [|unfold ESPOS_SDLOG_SYNC_EVERY_DEFAULT; lia]. cbn in Hcfg.
        destruct (Z.eqb_spec (oc_sync_every c) 0); unfold ESPOS_SDLOG_SYNC_EVERY_DEFAULT; lia.
    + destruct Hf as [-> Hr]. apply (cwp_undo NF q D); [by apply Hput|done|cbn; apply lookup_insert_eq|done|].
      intros y Hy. by apply Hbad.
Qed.

Lemma cwp_mkdir (P : fs -> Prop) (q : Z) (Q : bool -> fs -> Prop) (x : fs) : is_seq q ->
  (fs_files x !! dir_name q = None -> fs_dirs x !! dir_name q = None ->
     P (pl_put (dir_place x (dir_name q)) ∅) /\ Q true (pl_put (dir_place x (dir_name q)) ∅)) ->
  ((reliable -> fs_root x = true -> is_Some (fs_files x !! dir_name q) \/ is_Some (fs_dirs x !! dir_name q)) -> Q false x) ->
  cwp P (mkdir o root (path_in root q None).2) Q x.
Proof.
  intros Hq Hok Hbad. destruct (path_in_dir root root_fits q Hq) as [-> E]. cbn [snd]. unfold mkdir. rewrite E.
  apply cwp_bind, cwp_fails. intros b Hb. apply cwp_bind, cwp_gets. cbn [id]. destruct b; cbn [orb].
  { apply cwp_ret, Hbad. intros Hr. by specialize (Hb Hr). }
  destruct (fs_root x) eqn:Er; cbn [negb orb]; [|by apply cwp_ret, Hbad].
  destruct (fs_files x !! dir_name q) as [f|] eqn:Ef.
  { rewrite bool_decide_true by done. cbn [orb]. apply cwp_ret, Hbad. intros _ _. by left. }
  rewrite bool_decide_false by (by intros []). cbn [orb]. destruct (fs_dirs x !! dir_name q) as [D|] eqn:Ed.
  { rewrite bool_decide_true by done. apply cwp_ret, Hbad. intros _ _. by right. }
  rewrite bool_decide_false by (by intros []). destruct Hok as [HP HQ]; [done|done|]. apply cwp_bind, cwp_touch; [done|]. by apply cwp_ret.
Qed.

Lemma dir_ok_empty : dir_ok ∅.
Proof. apply dir_ok_open; [apply map_Forall_empty|done|done]. Qed.

(** The header, written whole before the session counts as started. *)
Lemma pwp_write_head (x : fs) (q : Z) (header : cstr) (Q : esp_err_t -> gmap cstr file -> Prop) : is_seq q -> is_header header ->
  Q ESP_OK (<[HEAD := full header]> ∅) -> (forall D', ~ reliable -> dir_ok D' -> D' !! CLOSE = None -> Q ESP_FAIL D') ->
  pwp (dir_place x (dir_name q)) dir_ok (write_atomic o root q HEAD_TMP (lit "HEAD.JSN") [Some header; None; None]) Q ∅.
Proof.
  intros Hq Hhd Hok Hbad. destruct plain_tmp as (_ & Htmp & _).
  assert (ET : parts_text [Some header; None; None] = header) by (unfold parts_text; cbn; by rewrite app_nil_r).
  set (PF (D : gmap cstr file) := dir_ok D /\ D !! CLOSE = None).
  assert (H0 : PF ∅) by (split; [apply dir_ok_empty|done]).
  assert (Htmp' : forall fl, file_ok fl -> PF (<[HEAD_TMP := fl]> ∅)).
  { intros fl Hfl. split; [apply dir_ok_insert; [done|split; [done|cbn; lia]|apply H0]|done]. }
  assert (Hhead : PF (<[HEAD := full header]> ∅)).
  { split; [|done]. apply dir_ok_open; [|intros h; rewrite lookup_insert_eq; intros [= <-]; split; [apply full_ok|done]|done].
    apply map_Forall_insert_2; [|apply map_Forall_empty]. split; [apply full_ok|cbn; lia]. }
  apply (pwp_mono (dir_place x (dir_name q)) PF dir_ok _ Q Q); [|by intros D' [H _]|done].
  apply (pwp_write_atomic o root root_fits x q Hq PF HEAD_TMP (lit "HEAD.JSN")); rewrite ?ET, ?delete_empty; try done.
  - cbn. lia.
  - cbn. lia.
  - intros fl (Hfl & _). by apply Htmp'.
  - apply Htmp', full_ok.
  - intros D' Hr [H1 H2]. by apply Hbad.
Qed.

(** The number a session gets is above every one in use or on record. *)
Definition fresh_for (x : fs) (q : Z) : Prop := recorded (fs_files x) < q /\ forall p, dirs_of x p -> p < q.

(** Nothing stands in the way of another session. *)
Definition room (x : fs) : Prop :=
  (forall q, is_seq q -> fs_files x !! dir_name q = None) /\ (forall q, dirs_of x q -> q < MAX_SEQ) /\ recorded (fs_files x) < MAX_SEQ.

Lemma cwp_open (NF : gmap cstr file -> Prop) (header : cstr) cfg (Q : esp_err_t * option espos_sdlog_session -> fs -> Prop) (x : fs) :
  card_and NF x -> cfg_ok cfg -> is_header header ->
  (forall q, is_seq q -> (reliable -> fresh_for x q) -> record_moments NF (fs_files x) q) ->
  (forall s y, card_and NF y -> is_seq (s_seq s) -> opened (s_seq s) header cfg s y ->
     fs_files y = <[LAST_SEQ_FILE := full (seq_text (s_seq s))]> (delete LAST_SEQ_TMP (fs_files x)) ->
     (reliable -> fresh_for x (s_seq s)) -> Q (ESP_OK, Some s) y) ->
  (forall e y, e <> ESP_OK -> card_and NF y -> (reliable -> room x -> False) -> Q (e, None) y) ->
  cwp (card_and NF) (espos_sdlog_open o root header cfg) Q x.
Proof.
  intros [Hx HN] Hcfg Hhd Hmom Hok Hbad. unfold espos_sdlog_open.
  destruct (Nat.leb_spec PATH_MAX_LEN (length root + 1 + SEQ_DIGITS + 1 + 12)) as [Hge|_]; [unfold SEQ_DIGITS, PATH_MAX_LEN in *; lia|].
  assert (Hroot : forall b, card_and NF (x <| fs_root := b |>)) by (intros b; split; [by destruct Hx|done]).
  apply cwp_bind, cwp_mkdir_p; [by apply Hroot| |].
  2:{ intros b Hr. change (is_ok ESP_FAIL) with false. apply cwp_ret, Hbad; [done|apply Hroot|done]. }
  change (is_ok ESP_OK) with true. cbn [negb]. set (x1 := x <| fs_root := true |>). destruct (Hroot true) as [Hx1 HN1]. fold x1 in Hx1, HN1.
  apply cwp_bind, cwp_scan; [done|done|done| |].
  2:{ intros e Hr He. apply cwp_ret, Hbad; [done|done|done]. }
  intros l Hs _ Hl Hall. specialize (fun Hr => Hall Hr eq_refl). apply cwp_bind, cwp_read_last_seq. intros v Hv Hrv.
  set (top := match last l with Some t => if t >? v then t else v | None => v end).
  assert (Htop : v <= top /\ (forall q, q ∈ l -> q <= top) /\ (top = v \/ top ∈ l)).
  { unfold top. destruct (last l) as [t|] eqn:Et.
    - pose proof (sorted_last l t Hs Et) as Hmax. assert (t ∈ l) by (apply last_Some in Et as [l' ->]; set_solver).
      rewrite Z.gtb_ltb. destruct (Z.ltb_spec v t); split_and!; try lia; auto. intros q Hq. specialize (Hmax q Hq). lia.
    - apply last_None in Et as ->. split_and!; [lia|set_solver|by left]. }
  destruct Htop as (Ht1 & Ht2 & Ht3). clearbody top.
  assert (Htop : is_seq top) by (destruct Ht3 as [->|Hin]; [done|by apply Hl]).
  destruct (Z.leb_spec MAX_SEQ top) as [Hfull|Hlt].
  { apply cwp_ret, Hbad; [done|done|]. intros Hr (_ & R2 & R3). destruct Ht3 as [->|Hin]; [rewrite (Hrv Hr) in Hfull; cbn in *; lia|].
    specialize (R2 top). specialize (Hl top Hin). unfold dirs_of in *. cbn in Hl. specialize (R2 Hl). lia. }
  assert (Hq : is_seq (top + 1)) by (unfold is_seq in *; lia).
  assert (Hfresh : reliable -> fresh_for x (top + 1)).
  { intros Hr. split; [specialize (Hrv Hr); cbn in Hrv; lia|]. intros p Hp. specialize (Ht2 p (Hall Hr p Hp)). lia. }
  apply cwp_bind, cwp_write_last_seq; [done|done|done|by apply (Hmom (top + 1))| |].
  2:{ intros y Hr Hy _. change (is_ok ESP_FAIL) with false. by apply cwp_ret, Hbad. }
  intros Hx2. change (is_ok ESP_OK) with true. cbn [negb].
  set (x2 := x1 <| fs_files := <[LAST_SEQ_FILE := full (seq_text (top + 1))]> (delete LAST_SEQ_TMP (fs_files x1)) |>) in *.
  assert (HN2 : NF (fs_files x2)) by apply (Hmom (top + 1) Hq Hfresh).
  apply cwp_bind, cwp_mkdir; [done| |].
  2:{ intros Hex. apply cwp_ret, Hbad; [done|by split|]. intros Hr (R1 & _). destruct (Hex Hr eq_refl) as [Hf|Hd].
      - destruct (dir_name_not_seq _ Hq) as [D1 D2]. cbn in Hf. rewrite lookup_insert_ne, lookup_delete_ne in Hf by done.
        change (is_Some (fs_files x !! dir_name (top + 1))) in Hf. rewrite R1 in Hf; [by destruct Hf|done].
      - destruct (Hfresh Hr) as [_ Hf]. specialize (Hf (top + 1)). cut (top + 1 < top + 1); [lia|]. apply Hf. by split. }
  intros Hnof Hnod. assert (Hx3 : forall D, dir_ok D -> card_and NF (pl_put (dir_place x2 (dir_name (top + 1))) D)).
  { intros D HD. split; [by apply card_ok_put|done]. }
  split; [apply Hx3, dir_ok_empty|]. cbn [negb]. apply cwp_bind. eapply cwp_mono with (P := at_place (dir_place x2 (dir_name (top + 1))) dir_ok).
  - apply (pwp_write_head x2 (top + 1) header (fun e D' => e = ESP_OK /\ D' = <[HEAD := full header]> ∅ \/
      e = ESP_FAIL /\ ~ reliable /\ dir_ok D' /\ D' !! CLOSE = None)); [done|done|by left|by right].
  - intros y (D & -> & HD). by apply Hx3.
  - intros e y (D & -> & [[-> ->]|(-> & Hr & HD & Hc)]).
    + change (is_ok ESP_OK) with true. cbn [negb]. assert (HD : dir_ok (<[HEAD := full header]> ∅)).
      { apply dir_ok_open; [|intros h; rewrite lookup_insert_eq; intros [= <-]; split; [apply full_ok|done]|done].
        apply map_Forall_insert_2; [|apply map_Forall_empty]. split; [apply full_ok|cbn; lia]. }
      apply (cwp_open_rows NF (top + 1) (<[HEAD := full header]> ∅) header); [by apply Hx3|done|cbn; apply lookup_insert_eq|done|apply lookup_insert_eq|done| |].
      * intros s y Hy Hf Hsq Hopen. apply Hok; [done|by rewrite Hsq|by rewrite Hsq|by rewrite Hsq, Hf|by rewrite Hsq].
      * intros e y Hr He Hy. by apply Hbad.
    + change (is_ok ESP_FAIL) with false. cbn [negb]. apply (cwp_undo NF (top + 1) D); [by apply Hx3|done|cbn; apply lookup_insert_eq|done|].
      intros y Hy. by apply Hbad.
Qed.
End Open.
End Headers.
