(* ===== verification/SdlogInfo.v ===== *)
(** Reading a session back: the close record as [read_close] parses it is the one
    [write_close] printed, and [espos_sdlog_info] reports what is on the card. *)
From Stdlib Require Import ZArith Lia String Sorted.
From stdpp Require Import base list numbers gmap.
From S2P Require Import Prelude ConfigDesc Sha256 CardFs SdlogSession SdlogRules SdlogPaths SdlogInv SdlogOps SdlogCard SdlogOpen.
Open Scope Z_scope.

(** * The parser on what the printer wrote *)

Lemma span_spec w (set : Z -> bool) s r : Forall (fun c => set c = true) s -> (length s <= w)%nat ->
  (length s = w \/ match r with c :: _ => set c = false | [] => True end) -> span w set (s ++ r) = (s, r).
Proof.
  intros Hs. revert w. induction Hs as [|c s Hc Hs IH]; intros w Hw Hr.
  - cbn [app]. destruct w; [by destruct r|]. destruct Hr as [[=]|Hr]. destruct r as [|c r]; [done|]. cbn. by rewrite Hr.
  - cbn [length] in *. destruct w as [|w]; [lia|]. cbn. rewrite Hc, IH; [done|lia|]. destruct Hr as [[= Hr]|Hr]; [by left|by right].
Qed.

Lemma scan_set_spec w (set : Z -> bool) s r : s <> [] -> Forall (fun c => set c = true) s -> (length s <= w)%nat ->
  (length s = w \/ match r with c :: _ => set c = false | [] => True end) -> scan_set w set (s ++ r) = Some (s, r).
Proof. intros Hne Hs Hw Hr. unfold scan_set. rewrite span_spec by done. by destruct s. Qed.

Lemma digit_hex n : 0 <= n < 16 -> is_hex (digit n) = true.
Proof.
  intros Hn. assert (Forall (fun n => is_hex (digit n) = true) (Z.of_nat <$> seq 0 16)) as HF by (repeat constructor).
  rewrite Forall_forall in HF. apply HF. apply list_elem_of_fmap. exists (Z.to_nat n). split; [lia|]. apply elem_of_seq. lia.
Qed.

Lemma word_hex_hex v : Forall (fun c => is_hex c = true) (word_hex v).
Proof.
  assert (Hb : forall y, 0 <= Z.shiftr (u8 y) 4 < 16 /\ 0 <= Z.land (u8 y) 15 < 16).
  { intros y. unfold u8. pose proof (Z.mod_pos_bound y (2 ^ 8) ltac:(lia)). rewrite Z.shiftr_div_pow2 by lia. change 15 with (Z.ones 4). rewrite Z.land_ones by lia. div_lia. }
  unfold word_hex. cbn -[Z.shiftr Z.land u8 digit is_hex]. repeat constructor; apply digit_hex, Hb.
Qed.

Lemma sha256_hex d : Forall (fun c => is_hex c = true) (sha256 d).
Proof.
  unfold sha256. generalize (blocks (length (padded d) / 64) iv (padded d)). intros l. induction l as [|v l IH]; [constructor|].
  change ((v :: l) ≫= word_hex) with (word_hex v ++ (l ≫= word_hex)). apply Forall_app. split; [apply word_hex_hex|done].
Qed.

Lemma strip_lit a s : strip a (a ++ s) = Some s.
Proof. apply strip_app. Qed.

Lemma sscanf_close_head clean rows bytes sha r : 0 <= rows < 2 ^ 64 -> 0 <= bytes < 2 ^ 64 -> length sha = 64%nat ->
  Forall (fun c => is_hex c = true) sha ->
  sscanf_close (close_head clean rows bytes sha ++ r) = Some (if clean then lit "true" else lit "false", rows, bytes, sha).
Proof.
  intros Hr Hb Hl Hs. unfold close_head, sscanf_close.
  set (tail := lit "," ++ quoted "meta" ++ lit ":").
  assert (E : (lit "{" ++ quoted "closed" ++ lit ":true," ++ quoted "clean" ++ lit ":" ++ (if clean then lit "true" else lit "false") ++
    lit "," ++ quoted "rows" ++ lit ":" ++ fmt_d rows ++ lit "," ++ quoted "bytes" ++ lit ":" ++ fmt_d bytes ++
    lit "," ++ quoted "sha256" ++ lit ":" ++ [34] ++ sha ++ [34] ++ tail) ++ r =
    (lit "{" ++ quoted "closed" ++ lit ":true," ++ quoted "clean" ++ lit ":") ++ (if clean then lit "true" else lit "false") ++
    (lit "," ++ quoted "rows" ++ lit ":") ++ fmt_d rows ++ (lit "," ++ quoted "bytes" ++ lit ":") ++ fmt_d bytes ++
    (lit "," ++ quoted "sha256" ++ lit ":" ++ [34]) ++ sha ++ 34 :: tail ++ r).
  { rewrite <- !app_assoc. done. }
  rewrite E. clear E. rewrite strip_app. cbn [mbind option_bind].
  rewrite (scan_set_spec 5 is_lower (if clean then lit "true" else lit "false")); [|by destruct clean|destruct clean; repeat constructor|destruct clean; cbn; lia|by right].
  cbn [mbind option_bind]. rewrite strip_app. cbn [mbind option_bind].
  change ((lit "," ++ quoted "bytes" ++ lit ":") ++ fmt_d bytes ++ (lit "," ++ quoted "sha256" ++ lit ":" ++ [34]) ++ sha ++ 34 :: tail ++ r)
    with (44 :: quoted "bytes" ++ lit ":" ++ fmt_d bytes ++ (lit "," ++ quoted "sha256" ++ lit ":" ++ [34]) ++ sha ++ 34 :: tail ++ r).
  rewrite scan_u_fmt by (done || lia). cbn [mbind option_bind].
  change (44 :: quoted "bytes" ++ lit ":" ++ fmt_d bytes ++ (lit "," ++ quoted "sha256" ++ lit ":" ++ [34]) ++ sha ++ 34 :: tail ++ r)
    with ((lit "," ++ quoted "bytes" ++ lit ":") ++ fmt_d bytes ++ (44 :: quoted "sha256" ++ lit ":" ++ [34] ++ sha ++ 34 :: tail ++ r)).
  rewrite strip_app. cbn [mbind option_bind]. rewrite scan_u_fmt by (done || lia). cbn [mbind option_bind].
  change (44 :: quoted "sha256" ++ lit ":" ++ [34] ++ sha ++ 34 :: tail ++ r)
    with ((lit "," ++ quoted "sha256" ++ lit ":" ++ [34]) ++ sha ++ 34 :: tail ++ r).
  rewrite strip_app. cbn [mbind option_bind]. rewrite scan_set_spec; [done|by destruct sha|done|lia|by left].
Qed.

(** The head of a record has no NUL. *)
Lemma c_string_prefix a r : Forall (fun c => c <> 0) a -> c_string (a ++ r) = a ++ c_string r.
Proof. induction 1 as [|c a Hc Ha IH]; [done|]. cbn. rewrite (proj2 (Z.eqb_neq c 0)), IH by done. done. Qed.

Lemma close_head_plain clean rows bytes sha : 0 <= rows < 2 ^ 64 -> 0 <= bytes < 2 ^ 64 -> Forall (fun c => is_hex c = true) sha ->
  Forall (fun c => c <> 0) (close_head clean rows bytes sha).
Proof.
  intros Hr Hb Hs.
  assert (Hd : forall n, 0 <= n < 2 ^ 64 -> Forall (fun c => c <> 0) (fmt_d n)).
  { intros n Hn. destruct (fmt_d_value n ltac:(lia)) as (s & -> & _ & Hds & _). eapply Forall_impl; [exact Hds|]. intros c Hc%digit_range. lia. }
  assert (Hx : Forall (fun c => c <> 0) sha).
  { eapply Forall_impl; [exact Hs|]. intros c Hc ->. done. }
  unfold close_head. repeat (apply Forall_app; split); try done; try (by apply Hd); try (repeat constructor; done).
  destruct clean; repeat constructor; done.
Qed.

Lemma read_back clean data meta : 
  sscanf_close (c_string (take 255 (close_text clean data meta))) =
  Some (if clean then lit "true" else lit "false", u64 (Z.of_nat (newlines data)), u64 (Z.of_nat (length data)), sha256 data).
Proof.
  assert (R : forall n, 0 <= u64 n < 2 ^ 64) by (intros n; apply Z.mod_pos_bound; lia).
  set (head := close_head clean (u64 (Z.of_nat (newlines data))) (u64 (Z.of_nat (length data))) (sha256 data)).
  assert (Hlen : (length head <= 169)%nat) by (apply length_close_head; [apply R..|apply length_sha256]).
  unfold close_text. fold head. rewrite take_app_ge by lia. unfold head at 1. rewrite c_string_prefix by (apply close_head_plain; [apply R..|apply sha256_hex]).
  apply sscanf_close_head; [apply R..|apply length_sha256|apply sha256_hex].
Qed.

(** * What [espos_sdlog_info] reports *)

Definition read_spec (data : list Z) (info : espos_sdlog_info_t) : esp_err_t * espos_sdlog_info_t :=
  match sscanf_close (c_string (take 255 data)) with
  | Some (clean, rows, bytes, sha) =>
      if (length sha =? 64)%nat
      then (ESP_OK, info <| i_clean := streq clean (lit "true") |> <| i_rows := rows |> <| i_bytes := bytes |> <| i_sha256 := sha |>)
      else (ESP_ERR_INVALID_RESPONSE, info)
  | None => (ESP_ERR_INVALID_RESPONSE, info)
  end.

Definition info_spec (x : fs) (q : Z) : esp_err_t * espos_sdlog_info_t :=
  match fs_dirs x !! dir_name q with
  | None => (ESP_ERR_NOT_FOUND, info_zero)
  | Some D =>
      let out := info_zero <| i_seq := q |> <| i_synced := bool_decide (is_Some (D !! SYNCED)) |> in
      match D !! CLOSE with
      | Some c => read_spec (f_data c) (out <| i_closed := true |>)
      | None => (ESP_OK, out <| i_bytes := u64 (Z.of_nat (length (rows_of D))) |>)
      end
  end.

(** A closed session is reported with the numbers of its rows. *)
Lemma info_closed x q D c clean data meta : fs_dirs x !! dir_name q = Some D -> D !! CLOSE = Some c -> f_data c = close_text clean data meta ->
  info_spec x q = (ESP_OK, Info q true clean (bool_decide (is_Some (D !! SYNCED))) (u64 (Z.of_nat (newlines data))) (u64 (Z.of_nat (length data))) (sha256 data)).
Proof.
  intros HD Hc Ht. unfold info_spec, read_spec. rewrite HD, Hc, Ht, read_back. rewrite length_sha256. cbn. by destruct clean.
Qed.

Section Info.
Context {HS : Headers} {W : Type} (o : os W) (root : cstr) (root_fits : (length root + 22 < PATH_MAX_LEN)%nat).
#[local] Abbreviation reliable := (reliable o).

(** What holds of a report whatever fails. *)
Definition report_ok (x : fs) (q : Z) (r : esp_err_t * espos_sdlog_info_t) : Prop :=
  (i_closed r.2 = true -> exists D, fs_dirs x !! dir_name q = Some D /\ is_Some (D !! CLOSE)) /\
  (i_synced r.2 = true -> exists D, fs_dirs x !! dir_name q = Some D /\ is_Some (D !! SYNCED)) /\
  (r.1 = ESP_ERR_NOT_FOUND \/ i_seq r.2 = q) /\
  (r.1 = ESP_ERR_NOT_FOUND -> i_closed r.2 = false).

Lemma cwp_info (P : fs -> Prop) (q : Z) (Q : esp_err_t * espos_sdlog_info_t -> fs -> Prop) (x : fs) : card_ok x -> is_seq q ->
  (forall r, report_ok x q r -> (reliable -> r = info_spec x q) -> Q r x) -> cwp P (espos_sdlog_info o root q) Q x.
Proof.
  intros Hx Hq HQ. unfold espos_sdlog_info. destruct (path_in_dir root root_fits q Hq) as [-> E]. apply cwp_bind.
  assert (Hgone : ((reliable -> fs_dirs x !! dir_name q = None) -> cwp (W := W) P (mret (ESP_ERR_NOT_FOUND, info_zero)) Q x)).
  { intros Hno. apply cwp_ret, HQ; [split_and!; try done; by left|]. intros Hr. unfold info_spec. by rewrite (Hno Hr). }
  apply cwp_stat; rewrite ?E; [|intros Hst; cbn [negb is_stat_dir]; apply Hgone; intros Hr; by apply reliable_stats in Hr].
  cbn [stat_at]. destruct (fs_dirs x !! dir_name q) as [D|] eqn:HD.
  2:{ rewrite bool_decide_false by (by intros []). destruct (fs_files x !! dir_name q); cbn [is_stat_dir negb]; by apply Hgone. }
  rewrite (card_dir_file x _ D Hx HD), bool_decide_true by done. cbn [is_stat_dir negb].
  assert (Hlook : forall n, lookup_loc x (LIn (dir_name q) n) = D !! n) by (intros n; cbn [lookup_loc]; by rewrite HD).
  unfold report_ok, info_spec in HQ. rewrite HD in HQ.
  apply cwp_bind, cwp_exists; [done|done|cbn; lia|]. intros synced Hs1 Hs2. rewrite Hlook in Hs1, Hs2.
  apply cwp_bind, cwp_exists; [done|done|cbn; lia|]. intros closed Hc1 Hc2. rewrite Hlook in Hc1, Hc2.
  assert (Hrs : reliable -> synced = bool_decide (is_Some (D !! SYNCED))) by (intros Hr; by apply Hs2, reliable_stats).
  assert (Hrc : reliable -> closed = bool_decide (is_Some (D !! CLOSE))) by (intros Hr; by apply Hc2, reliable_stats). clear Hs2 Hc2.
  destruct closed.
  - destruct (Hc1 eq_refl) as [c Hc]. rewrite Hc in HQ. unfold read_close. destruct (path_in_file root root_fits q CLOSE Hq ltac:(cbn; lia)) as [-> Ec]. cbn [snd].
    assert (Hany : forall r, r.1 <> ESP_ERR_NOT_FOUND -> i_synced r.2 = synced -> i_seq r.2 = q -> i_closed r.2 = true ->
      (reliable -> r = read_spec (f_data c) (info_zero <| i_seq := q |> <| i_synced := bool_decide (is_Some (D !! SYNCED)) |> <| i_closed := true |>)) -> Q r x).
    { intros r H1 H2 H3 H4 H5. apply HQ; [|done]. split_and!; [eauto|intros Hs; exists D; split; [done|apply Hs1; congruence]|by right|done]. }
    apply cwp_bind, cwp_fopen_rb. rewrite Ec, Hlook, Hc. split; [|intros Hr; apply cwp_ret, Hany; try done].
    apply cwp_bind, cwp_fails. intros bad Hbad. unfold read_spec in Hany.
    destruct bad; [assert (Hr : ~ reliable) by (intros Hr; by specialize (Hbad Hr))|]; cbn iota.
    + destruct (sscanf_close (c_string [])) as [[[[clean rows] bytes] sha]|]; [destruct (length sha =? 64)%nat|]; by apply cwp_ret, Hany.
    + destruct (sscanf_close (c_string (take 255 (f_data c)))) as [[[[clean rows] bytes] sha]|]; [destruct (length sha =? 64)%nat|];
        apply cwp_ret, Hany; try done; intros Hr; by rewrite (Hrs Hr).
  - assert (Hc : reliable -> D !! CLOSE = None).
    { intros Hr. specialize (Hrc Hr). symmetry in Hrc. apply bool_decide_eq_false in Hrc. by apply eq_None_not_Some. }
    assert (Hany : forall r, r.1 <> ESP_ERR_NOT_FOUND -> i_synced r.2 = synced -> i_seq r.2 = q -> i_closed r.2 = false ->
      (reliable -> r = (ESP_OK, info_zero <| i_seq := q |> <| i_synced := bool_decide (is_Some (D !! SYNCED)) |> <| i_bytes := u64 (Z.of_nat (length (rows_of D))) |>)) -> Q r x).
    { intros r H1 H2 H3 H4 H5. apply HQ; [|intros Hr; rewrite (Hc Hr); by apply H5].
      split_and!; [congruence|intros Hs; exists D; split; [done|apply Hs1; congruence]|by right|done]. }
    destruct (path_in_file root root_fits q ROWS Hq ltac:(cbn; lia)) as [-> Ec]. cbn [snd].
    apply cwp_bind, cwp_stat; rewrite ?Ec; [|intros Hst]; apply cwp_ret, Hany; try done.
    + cbn [stat_at]. rewrite Hlook. by destruct (D !! ROWS).
    + cbn [stat_at]. rewrite Hlook. by destruct (D !! ROWS).
    + cbn [stat_at]. rewrite Hlook. by destruct (D !! ROWS).
    + intros Hr. cbn [stat_at]. rewrite Hlook, (Hrs Hr). unfold rows_of. by destruct (D !! ROWS).
    + intros Hr. by apply reliable_stats in Hr.
Qed.
End Info.
