(* ===== verification/SdlogProps.v ===== *)
(** The SD logger under power cuts: the properties of its sessions. *)
From Stdlib Require Import ZArith Lia String Sorted.
From stdpp Require Import base list numbers gmap.
From S2P Require Import Prelude ConfigDesc Sha256 CardFs SdlogSession SdlogRules SdlogPaths SdlogInv SdlogOps SdlogCard SdlogRecover SdlogOpen SdlogInfo.
Open Scope Z_scope.

(** * A device's life

    After a boot the device may recover the card, then makes any calls, at most one
    session open at a time; at any moment the power may go. *)

Inductive sd_op :=
  | OpOpen (header : cstr) (cfg : option espos_sdlog_open_cfg_t)
  | OpAppend (row : cstr) | OpSync | OpClose (meta : option cstr)
  | OpMark (seq : Z) (note : option cstr) | OpInfo (seq : Z) | OpList.

Section Headers.
Context {HS : Headers}.

(** The arguments a caller passes: its headers, numbers of sessions, a 32-bit sync count. *)
Definition sd_op_ok (op : sd_op) : Prop :=
  match op with OpOpen header cfg => is_header header /\ cfg_ok cfg | OpMark q _ | OpInfo q => is_seq q | _ => True end.

Section Life.
Context {W : Type} (o : os W) `{!OsLaws o} (root : cstr) (root_fits : (length root + 22 < PATH_MAX_LEN)%nat) (root_named : root <> []).
#[local] Abbreviation M := (act fs W fs).
#[local] Abbreviation reliable := (reliable o).

Definition run_op (op : sd_op) (h : option espos_sdlog_session) : M (option espos_sdlog_session) :=
  match op, h with
  | OpOpen header cfg, None => '(_, s) ← espos_sdlog_open o root header cfg; mret s
  | OpAppend row, Some s => '(_, s) ← espos_sdlog_append o s row; mret (Some s)
  | OpSync, Some s => '(_, s) ← espos_sdlog_sync o s; mret (Some s)
  | OpClose meta, Some s => espos_sdlog_close o root s meta;; mret None
  | OpMark q note, h => espos_sdlog_mark_synced o root q note;; mret h
  | OpInfo q, h => espos_sdlog_info o root q;; mret h
  | OpList, h => espos_sdlog_list o root (fun _ => true);; mret h
  | _, h => mret h
  end.

Fixpoint run_ops (ops : list sd_op) (h : option espos_sdlog_session) : M (option espos_sdlog_session) :=
  match ops with
  | [] => mret h
  | op :: ops' => h ← run_op op h; run_ops ops' h
  end.

Definition boot (recover : bool) (ops : list sd_op) : M (option espos_sdlog_session) :=
  (if recover then espos_sdlog_recover o root;; mret tt else mret tt);; run_ops ops None.

(** What holds between calls. *)
Definition idle_inv (h : option espos_sdlog_session) (y : fs) : Prop :=
  card_ok y /\ match h with
  | None => True
  | Some s => exists D text k, is_seq (s_seq s) /\ fs_dirs y !! dir_name (s_seq s) = Some D /\ sess_ok y (s_seq s) s text k D
  end.

(** An operation on the open session's directory. *)
Lemma cwp_on_session {A : Type} (y : fs) (s : espos_sdlog_session) (D : gmap cstr file) (PF : gmap cstr file -> Prop) (m : M A)
    (Q : A -> gmap cstr file -> Prop) (Q' : A -> fs -> Prop) :
  card_ok y -> is_seq (s_seq s) -> fs_dirs y !! dir_name (s_seq s) = Some D -> (forall D', PF D' -> dir_ok D') ->
  (forall a D', Q a D' -> dir_ok D' -> Q' a (pl_put (dir_place y (dir_name (s_seq s))) D')) ->
  pwp (dir_place y (dir_name (s_seq s))) PF m (fun a D' => dir_ok D' /\ Q a D') D ->
  cwp card_ok m Q' y.
Proof.
  intros Hy Hq HD HP HQ Hm. eapply cwp_post; [by apply (pwp_card y (s_seq s) D PF)|]. intros a y' (D' & -> & Hok & HA). by apply HQ.
Qed.

Lemma inv_put y q D : card_ok y -> is_seq q -> is_Some (fs_dirs y !! dir_name q) -> dir_ok D -> card_ok (pl_put (dir_place y (dir_name q)) D).
Proof. intros Hy Hq [D0 HD0] HD. apply card_ok_put; [done|done|by eapply card_dir_file|done]. Qed.

Lemma inv_session y s D text k D' : card_ok y -> fs_dirs y !! dir_name (s_seq s) = Some D -> is_seq (s_seq s) ->
  sess_ok y (s_seq s) s text k D' -> idle_inv (Some s) (pl_put (dir_place y (dir_name (s_seq s))) D').
Proof.
  intros Hy HD Hq Hs. split; [apply inv_put; [done|done|by rewrite HD|apply Hs]|]. exists D', text, k.
  split; [done|]. split; [cbn; apply lookup_insert_eq|]. by eapply sess_ok_any.
Qed.

Lemma cwp_append_inv y s row : idle_inv (Some s) y ->
  cwp card_ok (espos_sdlog_append o s row) (fun r y' => idle_inv (Some r.2) y') y.
Proof.
  intros (Hy & D & text & k & Hq & HD & Hs). set (T := text ++ row ++ row_tail (row_crc s) row).
  apply (cwp_on_session y s D (rows_safe D k T) _ (fun r D' => s_seq r.2 = s_seq s /\ exists text' k', sess_ok y (s_seq s) r.2 text' k' D'));
    [done|done|done|by intros D' []| |].
  - intros [e s'] D' (Hseq & text' & k' & Hs') _. cbn [snd] in *. rewrite <- Hseq in *. by eapply inv_session.
  - assert (Hleft : forall s' T' D', left y (s_seq s) s s' T' k D D' -> s_seq s' = s_seq s /\ exists text' k', sess_ok y (s_seq s) s' text' k' D').
    { intros s' T' D' (_ & _ & _ & k' & _ & Hs'). split; [apply Hs'|by eexists _, _]. }
    apply (pwp_append o root root_fits y (s_seq s) s text k); [done| | |].
    + intros _. split; [apply Hs|]. split; [done|by eexists _, _].
    + intros s' D' HL _ _. split; [|by apply (Hleft _ _ _ HL)]. destruct HL as (_ & _ & _ & k' & _ & Hs'). apply Hs'.
    + intros s' D' T' _ HL _ _. split; [|by apply (Hleft _ _ _ HL)]. destruct HL as (_ & _ & _ & k' & _ & Hs'). apply Hs'.
Qed.

Lemma cwp_sync_inv y s : idle_inv (Some s) y -> cwp card_ok (espos_sdlog_sync o s) (fun r y' => idle_inv (Some r.2) y') y.
Proof.
  intros (Hy & D & text & k & Hq & HD & Hs).
  apply (cwp_on_session y s D dir_ok _ (fun r D' => s_seq r.2 = s_seq s /\ exists text' k', sess_ok y (s_seq s) r.2 text' k' D'));
    [done|done|done|done| |].
  - intros [e s'] D' (Hseq & text' & k' & Hs') _. cbn [snd] in *. rewrite <- Hseq in *. by eapply inv_session.
  - apply (pwp_sync o root root_fits y (s_seq s) dir_ok s text k); [done| | |].
    + intros fl Hg. apply dir_ok_rows; [apply Hg|apply Hs|apply Hs].
    + intros s' D' (_ & _ & _ & k' & _ & Hs') _ _ _. split; [apply Hs'|]. split; [apply Hs'|by eexists _, _].
    + intros s' D' (_ & _ & _ & k' & _ & Hs') _ _. split; [apply Hs'|]. split; [apply Hs'|by eexists _, _].
Qed.

Lemma cwp_close_inv y s meta : idle_inv (Some s) y -> cwp card_ok (espos_sdlog_close o root s meta) (fun _ y' => card_ok y') y.
Proof.
  intros (Hy & D & text & k & Hq & HD & Hs).
  apply (cwp_on_session y s D (fun D' => dir_ok D' /\ same_off [ROWS; CLOSE; CLOSE_TMP] D D' /\ exists fl, D' !! ROWS = Some fl /\ grown k text fl)
    _ (fun _ _ => True)); [done|done|done|by intros D' []| |].
  - intros e D' _ HD'. apply inv_put; [done|done|by rewrite HD|done].
  - apply (pwp_close o root root_fits y (s_seq s) Hq s text k meta); [done| |].
    + intros Hf. split; [|done]. unfold closed_dir. destruct (so_counts _ _ _ _ _ _ Hs Hf) as (Hw & _).
      apply dir_ok_recorded; [|rewrite lookup_insert_ne by done; apply Hs|apply lookup_insert_eq|done].
      apply dir_ok_rows; [apply full_ok|apply Hs|apply Hs].
    + intros D' (HD' & _) _. by split.
Qed.

(** Marking as delivered touches a closed session only. *)
Lemma cwp_mark (Q : esp_err_t -> fs -> Prop) (q : Z) (note : option cstr) (x : fs) : card_ok x -> is_seq q ->
  (forall e y, card_ok y -> fs_files y = fs_files x -> (forall n, n <> dir_name q -> fs_dirs y !! n = fs_dirs x !! n) ->
     (y = x \/ exists D, fs_dirs x !! dir_name q = Some D /\ is_Some (D !! CLOSE)) -> Q e y) ->
  cwp card_ok (espos_sdlog_mark_synced o root q note) Q x.
Proof.
  intros Hx Hq HQ. unfold espos_sdlog_mark_synced. apply cwp_bind, cwp_info; [done|done|done|]. intros [e i] (Hc & _ & Hi & _) _. cbn [fst snd] in *.
  destruct (is_ok e) eqn:Ee; cbn [negb]; [|apply cwp_ret, HQ; auto]. destruct (i_closed i) eqn:Ei; cbn [negb]; [|apply cwp_ret, HQ; auto].
  destruct (Hc eq_refl) as (D & HD & Hcl). pose proof (card_dirs x Hx q D Hq HD) as HDok. destruct plain_tmp as (_ & _ & Htmp & Hsyn).
  eapply cwp_post; [apply (pwp_card x q D dir_ok _ (fun _ D' => dir_ok D')); [done|done|done|done|]|].
  - set (T := parts_text [Some (default [] note); None; None]).
    apply (pwp_write_atomic o root root_fits x q Hq dir_ok SYNCED_TMP SYNCED [Some (default [] note); None; None]); fold T; try done.
    + cbn. lia.
    + cbn. lia.
    + intros fl (Hfl & _). apply dir_ok_insert; [done|split; [done|cbn; lia]|done].
    + intros _. by apply dir_ok_delete.
    + apply dir_ok_insert; [done|split; [apply full_ok|cbn; lia]|by apply dir_ok_delete].
    + intros _. apply dir_ok_delete; [done|]. by apply dir_ok_delete.
    + apply dir_ok_insert; [done|split; [apply full_ok|cbn; lia]|by apply dir_ok_delete].
    + apply dir_ok_insert; [done|split; [apply full_ok|cbn; lia]|by apply dir_ok_delete].
  - intros e' y (D' & -> & HD'). apply HQ; [apply inv_put; [done|done|by rewrite HD|done]|done|intros n Hn; cbn; by rewrite lookup_insert_ne|right; eauto].
Qed.

Lemma cwp_list_loop (P : fs -> Prop) fn l (Q : list espos_sdlog_info_t -> fs -> Prop) (x : fs) : card_ok x -> (forall q, q ∈ l -> is_seq q) ->
  (forall r, Q r x) -> cwp P (list_loop o root fn l) Q x.
Proof.
  intros Hx. revert Q. induction l as [|q l IH]; intros Q Hl HQ; cbn [list_loop]; [by apply cwp_ret|].
  assert (Hl' : forall p, p ∈ l -> is_seq p) by (intros p Hp; apply Hl; by apply list_elem_of_further).
  apply cwp_bind, cwp_info; [done|done|apply Hl, list_elem_of_here|]. intros [e i] _ _. destruct (is_ok e); [|by apply IH].
  destruct (fn i); [|by apply cwp_ret]. apply cwp_bind, IH; [done|]. intros r. by apply cwp_ret.
Qed.

Lemma cwp_run_op op h y : sd_op_ok op -> idle_inv h y -> cwp card_ok (run_op op h) idle_inv y.
Proof.
  intros Hop Hi. assert (Hskip : cwp (W := W) card_ok (mret h) idle_inv y) by (by apply cwp_ret).
  destruct op as [header cfg|row| |meta|q note|q|]; cbn [run_op].
  - destruct h as [s|]; [done|]. apply cwp_bind. destruct Hi as [Hy _].
    eapply cwp_mono; [apply (cwp_open o root root_fits root_named (fun _ => True) header cfg (fun r y' => idle_inv r.2 y'))| |].
    + by split.
    + apply Hop.
    + apply Hop.
    + intros q Hq _. by split.
    + intros s y' [Hy' _] Hseq (D & HD & _ & Hs & _) _ _. split; [done|]. by exists D, [], 0%nat.
    + intros e y' _ [Hy' _] _. by split.
    + by intros z [Hz _].
    + intros [e s] y' Hr. by apply cwp_ret.
  - destruct h as [s|]; [|done]. apply cwp_bind. eapply cwp_post; [by apply cwp_append_inv|]. intros [e s'] y' Hr. by apply cwp_ret.
  - destruct h as [s|]; [|done]. apply cwp_bind. eapply cwp_post; [by apply cwp_sync_inv|]. intros [e s'] y' Hr. by apply cwp_ret.
  - destruct h as [s|]; [|done]. apply cwp_bind. eapply cwp_post; [by apply cwp_close_inv|]. intros e y' Hr. by apply cwp_ret.
  - apply cwp_bind. destruct Hi as [Hy Hh]. apply cwp_mark; [done|done|]. intros e y' Hy' _ Hoff Hcase. apply cwp_ret. split; [done|].
    destruct h as [s|]; [|done]. destruct Hh as (D & text & k & Hq & HD & Hs). exists D, text, k. split; [done|]. split; [|by eapply sess_ok_any].
    destruct Hcase as [->|(D' & HD' & Hc)]; [done|]. rewrite Hoff; [done|]. intros E. rewrite E, HD' in HD. injection HD as ->.
    rewrite (so_close _ _ _ _ _ _ Hs) in Hc. by destruct Hc.
  - apply cwp_bind, cwp_info; [done|apply Hi|done|]. intros r _ _. by apply cwp_ret.
  - apply cwp_bind. unfold espos_sdlog_list. apply cwp_bind, cwp_scan; [done|done|apply Hi| |intros e _ _; by do 2 apply cwp_ret].
    intros l _ _ Hl _. apply cwp_bind, cwp_list_loop; [apply Hi|intros q Hq; by apply Hl|]. intros r. by do 2 apply cwp_ret.
Qed.

Lemma cwp_run_ops ops h y : Forall sd_op_ok ops -> idle_inv h y -> cwp card_ok (run_ops ops h) idle_inv y.
Proof.
  intros Hops. revert h y. induction Hops as [|op ops Hop Hops IH]; intros h y Hi; cbn [run_ops]; [by apply cwp_ret|].
  apply cwp_bind. eapply cwp_post; [by apply cwp_run_op|]. intros h' y'. apply IH.
Qed.

Lemma cwp_boot rec ops x : stats o -> booted x -> Forall sd_op_ok ops -> cwp card_ok (boot rec ops) idle_inv x.
Proof.
  intros Hst Hb Hops. unfold boot. apply cwp_bind. pose proof Hb as [Hx _]. destruct rec.
  - apply cwp_bind. eapply cwp_mono; [by apply (cwp_recover o root root_fits x Hst Hb)| |].
    + intros y Hy. by eapply during_card_ok.
    + intros r y [Hy _]. apply cwp_ret, cwp_run_ops; [done|]. split; [by eapply during_card_ok|done].
  - apply cwp_ret, cwp_run_ops; [done|]. by split.
Qed.

(** The moments of a run from [x] at which the power may go. *)
Definition moment {A : Type} (m : M A) (x y : fs) : Prop := y = x \/ exists w, y ∈ m_trace (m (Mach x w [])).2.

Lemma cwp_moment {A : Type} (P : fs -> Prop) (m : M A) Q x y : cwp P m Q x -> P x -> moment m x y -> P y.
Proof.
  intros Hm Hx [->|[w Hy]]; [done|]. destruct (Hm w []) as (new & Htr & Hnew & _). rewrite Htr, app_nil_r in Hy.
  rewrite Forall_forall in Hnew. by apply Hnew.
Qed.

Definition small (x : fs) : Prop := forall q D, is_seq q -> fs_dirs x !! dir_name q = Some D -> Z.of_nat (length (rows_of D)) < 2 ^ 64.

(** The cards a device may find at a boot: blank, or as the power cut left it at some
    moment after an earlier boot. *)
Inductive reach : fs -> Prop :=
  | ReachBlank r : reach (Fs r ∅ ∅)
  | ReachCut x rec ops y z : reach x -> Forall sd_op_ok ops -> moment (boot rec ops) x y -> cut y z -> small z -> reach z.

Lemma cut_settled y z q D : cut y z -> fs_dirs z !! dir_name q = Some D -> settled D.
Proof.
  intros [_ _ Hd] HD f Hf. specialize (Hd (dir_name q)). rewrite HD in Hd. destruct (fs_dirs y !! dir_name q) as [D0|]; [|done].
  pose proof (cut_lookup D0 D ROWS Hd) as C. rewrite Hf in C. destruct (D0 !! ROWS); [|done]. by apply cut_whole in C as (? & _).
Qed.

Lemma cut_booted y z : cut y z -> card_ok y -> small z -> booted z.
Proof. intros Hc Hy Hs. split; [by eapply cut_card_ok|]. intros q D Hq HD. split; [by eapply cut_settled|by apply (Hs q)]. Qed.

Lemma reach_booted z : stats o -> reach z -> booted z.
Proof.
  intros Hst. induction 1 as [r|x rec ops y z Hx IH Hops Hy Hc Hsm].
  - split; [split; cbn; [by left|done|]|]; intros q D _; cbn; by rewrite lookup_empty.
  - eapply cut_booted; [done| |done]. eapply cwp_moment; [by apply cwp_boot|apply IH|done].
Qed.

(** The states of the manual's table. *)
Inductive session_state (D : gmap cstr file) : Prop :=
  | NeverStarted : D !! HEAD = None -> D !! CLOSE = None -> session_state D
  | LeftOpen h : D !! HEAD = Some h -> is_header (f_data h) -> D !! CLOSE = None -> session_state D
  | Closed h c r clean meta : D !! HEAD = Some h -> is_header (f_data h) -> D !! CLOSE = Some c -> D !! ROWS = Some r ->
      whole (f_data r) -> f_data c = close_text clean (f_data r) meta -> session_state D.

Lemma dir_state D : dir_ok D -> session_state D.
Proof.
  intros [_ Hh Hc]. destruct (D !! CLOSE) as [c|] eqn:Ec.
  - destruct (Hc c eq_refl) as (_ & [h Eh] & r & clean & meta & Hr & _ & Hw & Ht). eapply Closed; [done|by apply Hh|done|done|done|done].
  - destruct (D !! HEAD) as [h|] eqn:Eh; [|by apply NeverStarted]. eapply LeftOpen; [done|by apply Hh|done].
Qed.

(** C4. Whatever is called (but remove and prune), whatever the card
    refuses (but the question whether a file exists) and whenever the power goes,
    also during recovery and again and again: at the next boot every session on the card was never started, or has a
    whole header as it was passed to open and no close record, or has a whole
    header and a close record that gives the number of rows, the bytes and the
    SHA-256 of a rows file of complete rows. *)
Theorem sdlog_power_cut z : stats o -> reach z -> forall q D, is_seq q -> fs_dirs z !! dir_name q = Some D -> session_state D.
Proof. intros Hst Hz q D Hq HD. destruct (reach_booted z Hst Hz) as [Hok _]. apply dir_state. by apply (card_dirs z Hok q). Qed.

Lemma during_cut x y z q D : booted x -> during x y -> cut y z -> is_seq q -> fs_dirs x !! dir_name q = Some D -> is_Some (D !! HEAD) ->
  exists D', fs_dirs z !! dir_name q = Some D' /\ D' !! HEAD = D !! HEAD /\ keep_rows (rows_of D') = keep_rows (rows_of D).
Proof.
  intros Hb Hdu Hc Hq HD [h Hh]. pose proof (du_dirs x y Hdu q Hq) as Hy. rewrite HD in Hy. destruct Hb as [Hx Hset].
  assert (exists D1, fs_dirs y !! dir_name q = Some D1 /\ recovering D D1) as (D1 & HD1 & HR).
  { unfold half_recovered in Hy. rewrite Hh in Hy. destruct (D !! CLOSE); [|by destruct Hy as (D1 & -> & HR); exists D1].
    exists D. split; [done|]. split; [by apply (card_dirs x Hx q)|done|done|by apply (Hset q)]. }
  destruct Hc as [_ _ Hd]. specialize (Hd (dir_name q)). rewrite HD1 in Hd. destruct (fs_dirs z !! dir_name q) as [D2|]; [|done].
  exists D2. split; [done|]. assert (Hhead : D1 !! HEAD = Some h).
  { rewrite (rv_same _ _ HR); [done|]. by apply (bool_decide_unpack (HEAD ∉ [ROWS; CLOSE; CLOSE_TMP])). }
  split.
  - pose proof (cut_lookup D1 D2 HEAD Hd) as C. rewrite Hhead in C. destruct (D2 !! HEAD) as [h2|]; [|done].
    apply cut_durable in C as ->; [by rewrite Hh|]. by apply (ok_head D1 (rv_dir _ _ HR)).
  - rewrite <- (rv_rows _ _ HR). pose proof (cut_lookup D1 D2 ROWS Hd) as C. unfold rows_of. destruct (D1 !! ROWS) as [r1|] eqn:Er, (D2 !! ROWS); try done.
    apply cut_durable in C as ->; [done|]. by apply (rv_settled _ _ HR).
Qed.

(** C31. Recovery does what the manual's table says: when the card works it closes
    exactly the sessions left open, with all their complete rows and nothing else,
    removes exactly those never started, leaves the closed ones, and returns their
    numbers; and if the power goes again at any moment of it, no session with a
    header and no complete row is lost. *)
Theorem sdlog_recover_exact x : stats o -> booted x ->
  (forall y z, moment (espos_sdlog_recover o root) x y -> cut y z ->
     forall q D, is_seq q -> fs_dirs x !! dir_name q = Some D -> is_Some (D !! HEAD) ->
       exists D', fs_dirs z !! dir_name q = Some D' /\ D' !! HEAD = D !! HEAD /\ keep_rows (rows_of D') = keep_rows (rows_of D)) /\
  (reliable -> fs_root x = true -> forall w tr,
     let s := exec (espos_sdlog_recover o root) (Mach x w tr) in
     exists l, StronglySorted Z.le l /\ NoDup l /\ (forall q, q ∈ l <-> dirs_of x q) /\
       (espos_sdlog_recover o root (Mach x w tr)).1 = (ESP_OK, count_if (left_open x) l, count_if (unstarted x) l) /\
       forall q, is_seq q -> fs_dirs (m_sm s) !! dir_name q = fs_dirs x !! dir_name q ≫= recovered).
Proof.
  intros Hst Hb. pose proof (cwp_recover o root root_fits x Hst Hb) as Hrec. split.
  - intros y z Hy Hc q D Hq HD Hh. eapply during_cut; [done| |done|done|done|done]. eapply cwp_moment; [exact Hrec|by apply during_refl|done].
  - intros Hr Hroot w tr s. destruct (Hrec w tr) as (_ & _ & _ & _ & H). by apply H.
Qed.

(** * What a power cut can cost *)

(** The synced part of a rows file survives. *)
Lemma cut_keeps_rows y z q D fl k T a : cut y z -> fs_dirs y !! dir_name q = Some D -> D !! ROWS = Some fl -> grown k T fl ->
  a `prefix_of` T -> k = length a -> exists Dz, fs_dirs z !! dir_name q = Some Dz /\ a `prefix_of` rows_of Dz /\ rows_of Dz `prefix_of` T.
Proof.
  intros [_ _ Hd] HD Hr (Hfl & Hk & Hpre) Ha ->. specialize (Hd (dir_name q)). rewrite HD in Hd. destruct (fs_dirs z !! dir_name q) as [Dz|]; [|done].
  exists Dz. split; [done|]. pose proof (cut_lookup D Dz ROWS Hd) as C. rewrite Hr in C. destruct (Dz !! ROWS) as [fz|] eqn:Ez; [|done].
  unfold rows_of. rewrite Ez. cbn. inversion C as [f n Hn Ef]; subst. cbn.
  assert (Hz : take n (f_data fl) `prefix_of` T) by (etrans; [|exact Hpre]; by apply prefix_take).
  split; [|done]. destruct (prefix_weak_total a (take n (f_data fl)) T) as [H|[r H]]; [done|done|done|].
  assert (length r = 0)%nat as Hl.
  { apply (f_equal length) in H. rewrite length_app, length_take in H. lia. }
  apply nil_length_inv in Hl as ->. rewrite app_nil_r in H. by rewrite <- H.
Qed.

(** A power cut at any moment of an append costs fewer than [sync_every] of
    the rows appended before it: what is on the card is a beginning of what was
    appended, and it holds all the earlier rows but the last [unsynced] ones. *)
Theorem sdlog_cut_loss y s D text k row : card_ok y -> is_seq (s_seq s) -> fs_dirs y !! dir_name (s_seq s) = Some D ->
  sess_ok y (s_seq s) s text k D -> failed s = false -> Z.of_nat (newlines text) < 2 ^ 64 ->
  unsynced s < sync_every s /\
  forall y' z, moment (espos_sdlog_append o s row) y y' -> cut y' z ->
    exists Dz, fs_dirs z !! dir_name (s_seq s) = Some Dz /\ rows_of Dz `prefix_of` text ++ row ++ row_tail (row_crc s) row /\
      s_rows s - unsynced s <= Z.of_nat (newlines (keep_rows (rows_of Dz))).
Proof.
  intros Hy Hq HD Hs Hf Hsmall. destruct (so_counts _ _ _ _ _ _ Hs Hf) as (Hw & Hrows & _ & _ & a & b & Ht & Ha & Hk & Hun & Hlt).
  split; [done|]. set (T := text ++ row ++ row_tail (row_crc s) row). intros y' z Hm Hc.
  assert (HaT : a `prefix_of` T) by (exists (b ++ row ++ row_tail (row_crc s) row); unfold T; by rewrite Ht, <- !app_assoc).
  assert (Hsafe : exists D', fs_dirs y' !! dir_name (s_seq s) = Some D' /\ rows_safe D k T D').
  { apply (cwp_moment (fun v => exists D', fs_dirs v !! dir_name (s_seq s) = Some D' /\ rows_safe D k T D') (espos_sdlog_append o s row) (fun _ _ => True) y y'); [| |done].
    - pose proof (pwp_append o root root_fits y (s_seq s) s text k row D (fun _ _ => True) Hs ltac:(done) ltac:(done) ltac:(done)) as Hp.
      unfold pwp in Hp. rewrite <- (dir_place_id y _ D HD) in Hp. eapply cwp_mono; [exact Hp| |done].
      intros v (D' & -> & HR). exists D'. split; [cbn; apply lookup_insert_eq|done].
    - exists D. split; [done|]. destruct (so_stream _ _ _ _ _ _ Hs) as (_ & fl & Efl & Hfl & Hkl & Htext). split; [apply Hs|done|].
      exists fl. split; [rewrite Efl; apply lookup_insert_eq|]. split_and!; [done|done|]. unfold T. rewrite <- Htext. rewrite <- app_assoc. by eexists. }
  destruct Hsafe as (D' & HD' & HR). destruct (rs_rows _ _ _ _ HR) as (fl & Hfl & Hg).
  destruct (cut_keeps_rows y' z (s_seq s) D' fl k T a) as (Dz & HDz & H1 & H2); [done..|].
  exists Dz. split; [done|]. split; [done|]. rewrite Hrows. unfold u64. rewrite Z.mod_small by lia.
  pose proof (whole_prefix a (rows_of Dz) Ha H1) as [r Hr]. rewrite Hr, newlines_app. rewrite Ht, newlines_app, Nat2Z.inj_add, Hun. lia.
Qed.

(** A session whose close succeeded reads back as it was: closed, clean, with
    the rows and bytes it counted and the SHA-256 of the rows file, whatever its
    meta says. *)
Theorem sdlog_close_info y s D text k meta : card_ok y -> is_seq (s_seq s) -> fs_dirs y !! dir_name (s_seq s) = Some D ->
  sess_ok y (s_seq s) s text k D ->
  forall w tr e s1, espos_sdlog_close o root s meta (Mach y w tr) = (e, s1) -> e = ESP_OK ->
  let report := (ESP_OK, Info (s_seq s) true true (bool_decide (is_Some (D !! SYNCED))) (s_rows s) (s_bytes s) (sha256 text)) in
  info_spec (m_sm s1) (s_seq s) = report /\ (reliable -> (espos_sdlog_info o root (s_seq s) s1).1 = report).
Proof.
  intros Hy Hq HD Hs w tr e s1 Hclose -> report.
  assert (Hcl : cwp card_ok (espos_sdlog_close o root s meta)
    (fun e y' => card_ok y' /\ (e = ESP_OK -> failed s = false /\ y' = pl_put (dir_place y (dir_name (s_seq s))) (closed_dir true text meta D))) y).
  { eapply cwp_post; [apply (pwp_card y (s_seq s) D (fun D' => dir_ok D' /\ same_off [ROWS; CLOSE; CLOSE_TMP] D D' /\ exists fl, D' !! ROWS = Some fl /\ grown k text fl)
        _ (fun e D' => dir_ok D' /\ (e = ESP_OK -> failed s = false /\ D' = closed_dir true text meta D)) Hq Hy HD); [by intros D' []|]|].
    - apply (pwp_close o root root_fits y (s_seq s) Hq s text k meta); [done| |intros D' (HD' & _) _; by split].
      intros Hf. destruct (so_counts _ _ _ _ _ _ Hs Hf) as (Hw & _). split; [|done]. unfold closed_dir.
      apply dir_ok_recorded; [|rewrite lookup_insert_ne by done; apply Hs|apply lookup_insert_eq|done]. apply dir_ok_rows; [apply full_ok|apply Hs|apply Hs].
    - intros e y' (D' & -> & HD' & He). split; [apply inv_put; [done|done|by rewrite HD|done]|]. intros Hok. by destruct (He Hok) as [-> ->]. }
  destruct (Hcl w tr) as (new & _ & _ & Hpost). rewrite Hclose in Hpost. cbn [fst snd] in Hpost. destruct Hpost as [Hy1 Hres].
  destruct (Hres eq_refl) as [Hf Ey]. destruct (so_counts _ _ _ _ _ _ Hs Hf) as (Hw & Hr & Hb & _).
  assert (Hspec : info_spec (m_sm s1) (s_seq s) = report).
  { rewrite (info_closed _ _ (closed_dir true text meta D) (full (close_text true text meta)) true text meta).
    - unfold report. rewrite Hr, Hb. unfold closed_dir. rewrite lookup_insert_ne, lookup_delete_ne, lookup_insert_ne by done. done.
    - rewrite Ey. cbn. apply lookup_insert_eq.
    - unfold closed_dir. apply lookup_insert_eq.
    - done. }
  split; [done|]. intros Hrel. destruct s1 as [y1 w1 tr1]. cbn [m_sm] in *.
  destruct (cwp_info o root root_fits (fun _ => True) (s_seq s) (fun r _ => r = report) y1 Hy1 Hq) with (w := w1) (tr := tr1) as (_ & _ & _ & H); [|done].
  intros r _ Hspec'. by rewrite (Hspec' Hrel).
Qed.

(** * Numbers *)

(** Every number up to [n] is covered by the record, whatever the power does. *)
Definition covers (n : Z) (F : gmap cstr file) (name : cstr) : Prop := exists f, F !! name = Some f /\ durable f /\ n <= seq_of_text (f_data f).

Lemma covers_recorded n F name : name = LAST_SEQ_FILE \/ name = LAST_SEQ_TMP -> covers n F name -> n <= recorded F.
Proof. intros Hn (f & Hf & _ & Hle). unfold recorded, seq_in. destruct Hn as [->| ->]; rewrite Hf; cbn; lia. Qed.

Lemma covers_cut n y z name : cut y z -> covers n (fs_files y) name -> covers n (fs_files z) name.
Proof.
  intros [_ Ht _] (f & Hf & Hd & Hle). pose proof (cut_lookup _ _ name Ht) as C. rewrite Hf in C. destruct (fs_files z !! name) as [f'|] eqn:E; [|done].
  apply cut_durable in C as ->; [|done]. by exists f.
Qed.

Lemma covers_full n q F name : is_seq q -> n <= q -> F !! name = Some (full (seq_text q)) -> covers n F name.
Proof. intros Hq Hn HF. exists (full (seq_text q)). split; [done|]. split; [done|]. cbn. by rewrite seq_of_seq_text. Qed.

(** A number is never handed out twice over a power cut: when [LASTSEQ.TXT]
    covers the numbers handed out so far and the card works, then wherever an open
    is cut short, the number that the next open to complete hands out is above all
    of them (and above every session on the card), and [LASTSEQ.TXT] covers it. *)
Theorem sdlog_number_fresh x n header cfg : reliable -> card_ok x -> covers n (fs_files x) LAST_SEQ_FILE ->
  is_header header -> cfg_ok cfg ->
  forall y z, moment (espos_sdlog_open o root header cfg) x y -> cut y z ->
  forall w tr e s s1, espos_sdlog_open o root header cfg (Mach z w tr) = (e, Some s, s1) ->
    n < s_seq s /\ fresh_for z (s_seq s) /\ covers (s_seq s) (fs_files (m_sm s1)) LAST_SEQ_FILE.
Proof.
  intros Hr Hx Hcov Hhd Hcfg y z Hm Hc w tr e s s1 Hopen.
  set (NF (F : gmap cstr file) := covers n F LAST_SEQ_FILE \/ covers n F LAST_SEQ_TMP).
  assert (HNF : forall F, NF F -> n <= recorded F).
  { intros F [H|H]; [apply (covers_recorded n F LAST_SEQ_FILE); [by left|done]|apply (covers_recorded n F LAST_SEQ_TMP); [by right|done]]. }
  assert (Hy : card_and NF y).
  { eapply cwp_moment; [apply (cwp_open o root root_fits root_named NF header cfg (fun _ _ => True) x)|split; [done|by left]|done]; try done.
    - split; [done|by left].
    - intros q Hq Hfr. destruct (Hfr Hr) as [Hrec _]. pose proof (HNF (fs_files x) ltac:(by left)). destruct Hcov as (f & Hf & Hd & Hle). split.
      + left. by exists f.
      + intros fl _. left. exists f. by rewrite lookup_insert_ne.
      + by intros H1.
      + right. apply (covers_full n q); [done|lia|]. apply lookup_insert_eq.
      + by intros H1.
      + left. apply (covers_full n q); [done|lia|]. apply lookup_insert_eq. }
  destruct Hy as [Hy HNy]. assert (Hz : card_ok z) by (by eapply cut_card_ok).
  assert (HNz : n <= recorded (fs_files z)) by (apply HNF; destruct HNy as [H|H]; [left|right]; by eapply covers_cut).
  assert (Hgo : cwp (card_and (fun _ => True)) (espos_sdlog_open o root header cfg)
    (fun r y' => forall s, r.2 = Some s -> n < s_seq s /\ fresh_for z (s_seq s) /\ covers (s_seq s) (fs_files y') LAST_SEQ_FILE) z).
  { apply cwp_open; try done. intros s' y' _ Hq _ Hf Hfr s'' [= <-]. destruct (Hfr Hr) as [H1 H2].
    split; [lia|]. split; [done|]. apply (covers_full _ (s_seq s')); [done|lia|]. rewrite Hf. apply lookup_insert_eq. }
  destruct (Hgo w tr) as (_ & _ & _ & H). rewrite Hopen in H. by apply H.
Qed.
End Life.
End Headers.
