(* ===== verification/SdlogPrune.v ===== *)
(** Pruning a full card: only delivered sessions go, oldest first, until the rest fits. *)
From Stdlib Require Import ZArith Lia String Sorted.
From stdpp Require Import base list numbers gmap.
From S2P Require Import Prelude ConfigDesc Sha256 CardFs SdlogSession SdlogRules SdlogPaths SdlogInv SdlogOps SdlogCard SdlogRecover SdlogOpen SdlogInfo SdlogProps.
Open Scope Z_scope.

(** * The abstract decision *)

Definition delivered (i : espos_sdlog_info_t) : bool := i_closed i && i_synced i.

(** The bytes the sessions add up to, in 64 bits. *)
Definition total_bytes (t : Z) (l : list espos_sdlog_info_t) : Z := foldl (fun t i => u64 (t + i_bytes i)) t l.

(** The sessions to remove: oldest first, while the rest is too much. *)
Fixpoint prune_pick (keep total : Z) (l : list espos_sdlog_info_t) : list Z :=
  match l with
  | [] => []
  | i :: l' =>
      if total >? keep then
        if delivered i then i_seq i :: prune_pick keep (u64 (total - i_bytes i)) l' else prune_pick keep total l'
      else []
  end.

(** What is left of the total. *)
Fixpoint prune_left (keep total : Z) (l : list espos_sdlog_info_t) : Z :=
  match l with
  | [] => total
  | i :: l' =>
      if total >? keep then
        if delivered i then prune_left keep (u64 (total - i_bytes i)) l' else prune_left keep total l'
      else total
  end.

(** It fits then, or nothing is left to remove. *)
Lemma prune_enough keep l total : prune_left keep total l <= keep \/ forall i, i ∈ l -> delivered i = true -> i_seq i ∈ prune_pick keep total l.
Proof.
  revert total. induction l as [|i l IH]; intros total; cbn [prune_left prune_pick]; [right; set_solver|].
  destruct (Z.gtb_spec total keep) as [Hgt|Hle]; [|by left]. destruct (delivered i) eqn:Ed.
  - destruct (IH (u64 (total - i_bytes i))) as [H|H]; [by left|]. right. intros j [->|Hj]%elem_of_cons Hd; [apply list_elem_of_here|].
    apply list_elem_of_further. by apply H.
  - destruct (IH total) as [H|H]; [by left|]. right. intros j [->|Hj]%elem_of_cons Hd; [congruence|by apply H].
Qed.

Lemma prune_pick_sub keep l total q : q ∈ prune_pick keep total l -> exists i, i ∈ l /\ delivered i = true /\ i_seq i = q.
Proof.
  revert total. induction l as [|i l IH]; intros total; cbn [prune_pick]; [set_solver|].
  destruct (total >? keep); [|set_solver]. destruct (delivered i) eqn:Ed.
  - intros [->|H]%elem_of_cons; [exists i; split_and!; [apply list_elem_of_here|done|done]|].
    destruct (IH _ H) as (j & Hj & Hd). exists j. split; [by apply list_elem_of_further|done].
  - intros H. destruct (IH _ H) as (j & Hj & Hd). exists j. split; [by apply list_elem_of_further|done].
Qed.

(** A session that is closed and has reached its server. *)
Definition done_with (D : gmap cstr file) : Prop := is_Some (D !! CLOSE) /\ is_Some (D !! SYNCED).

(** Nothing is missing but files of sessions that are. *)
Record pruned (x y : fs) : Prop := {
  pr_root : fs_root y = fs_root x;
  pr_files : fs_files y = fs_files x;
  pr_dirs n : fs_dirs y !! n = fs_dirs x !! n \/
    exists q D, n = dir_name q /\ is_seq q /\ fs_dirs x !! n = Some D /\ done_with D /\
      (fs_dirs y !! n = None \/ exists D', fs_dirs y !! n = Some D' /\ D' ⊆ D) }.

Lemma pruned_refl x : pruned x x.
Proof. split; [done|done|]. intros n. by left. Qed.

Section Prune.
Context {HS : Headers} {W : Type} (o : os W) `{!OsLaws o} (root : cstr) (root_fits : (length root + 22 < PATH_MAX_LEN)%nat).
#[local] Abbreviation reliable := (reliable o).

(** One session goes, or a part of it. *)
Lemma pruned_step (x y : fs) (q : Z) (D : gmap cstr file) (r : option (gmap cstr file)) : pruned x y -> is_seq q -> fs_dirs x !! dir_name q = Some D -> done_with D ->
  (forall D', r = Some D' -> D' ⊆ D) -> pruned x (y <| fs_dirs ::= partial_alter (fun _ => r) (dir_name q) |>).
Proof.
  intros [H1 H2 H3] Hq HD Hd Hr. split; [done|done|]. intros n. cbn. destruct (decide (n = dir_name q)) as [->|Hn].
  - right. exists q, D. rewrite lookup_partial_alter_eq. do 4 (split; [done|]). destruct r as [D'|]; [right; eauto|by left].
  - rewrite lookup_partial_alter_ne by done. apply H3.
Qed.

(** What is known of the reports of the sessions [l]. *)
Definition reported (x : fs) (q : Z) (i : espos_sdlog_info_t) : Prop :=
  (delivered i = true -> i_seq i = q /\ exists D, fs_dirs x !! dir_name q = Some D /\ done_with D) /\
  (reliable -> i = (info_spec x q).2).

Lemma info_spec_ok x q : card_ok x -> dirs_of x q -> (info_spec x q).1 = ESP_OK /\ i_seq (info_spec x q).2 = q.
Proof.
  intros Hx [Hq [D HD]]. pose proof (card_dirs x Hx q D Hq HD) as HDok. destruct (D !! CLOSE) as [c|] eqn:Hc.
  - destruct (ok_close D HDok c Hc) as (_ & _ & r & clean & meta & _ & _ & _ & Ht). by rewrite (info_closed x q D c clean (f_data r) meta HD Hc Ht).
  - unfold info_spec. by rewrite HD, Hc.
Qed.

Lemma cwp_prune_infos (P : fs -> Prop) (l : list Z) (t : Z) (Q : list espos_sdlog_info_t * Z -> fs -> Prop) (x : fs) :
  card_ok x -> (forall q, q ∈ l -> dirs_of x q) ->
  (forall infos t', Forall2 (reported x) l infos -> (reliable -> t' = total_bytes t infos) -> Q (infos, t') x) ->
  cwp P (prune_infos o root l t) Q x.
Proof.
  intros Hx. revert t Q. induction l as [|q l IH]; intros t Q Hl HQ; cbn [prune_infos]; [by apply cwp_ret, HQ|].
  assert (Hq : dirs_of x q) by (apply Hl, list_elem_of_here).
  apply cwp_bind, cwp_info; [done|done|apply Hq|]. intros [e i] (H1 & H2 & H3 & H4) Hspec. cbn [fst snd] in *.
  destruct (info_spec_ok x q Hx Hq) as [Hok Hseq].
  assert (Hgo : forall i' t1, reported x q i' -> (reliable -> t1 = u64 (t + i_bytes i')) ->
    cwp P ('(l', t') ← prune_infos o root l t1; mret (i' :: l', t')) Q x).
  { intros i' t1 Hi Ht. apply cwp_bind, IH; [intros p Hp; apply Hl; by apply list_elem_of_further|]. intros infos t' Hinf Ht'. apply cwp_ret, HQ; [by constructor|].
    intros Hr. rewrite (Ht' Hr), (Ht Hr). done. }
  destruct (is_ok e) eqn:Ee.
  - apply Hgo; [|done]. split; [|intros Hr; by rewrite <- (Hspec Hr)]. intros [Hc Hs]%andb_true_iff.
    destruct (H1 Hc) as (D & HD & HcD), (H2 Hs) as (D2 & HD2 & HsD). rewrite HD in HD2. injection HD2 as <-.
    split; [|exists D; by split_and!]. destruct H3 as [->|?]; done.
  - apply Hgo; [|intros Hr; rewrite <- (Hspec Hr) in Hok; cbn in Hok; by subst e].
    split; [unfold delivered; cbn; by rewrite andb_false_r|]. intros Hr. rewrite <- (Hspec Hr) in Hok. cbn in Hok. by subst e.
Qed.

(** What the loop leaves, from [y]. *)
Definition prunes (x y : fs) (infos : list espos_sdlog_info_t) (keep total : Z) (first : esp_err_t) (removed : Z) (r : esp_err_t * Z) (y' : fs) : Prop :=
  pruned x y' /\
  (reliable -> r = (first, removed + Z.of_nat (length (prune_pick keep total infos))) /\
     forall n : cstr, fs_dirs y' !! n = if decide (n ∈ map dir_name (prune_pick keep total infos)) then None else fs_dirs y !! n).

Lemma prunes_none x y keep total first removed infos : pruned x y -> prune_pick keep total infos = [] ->
  prunes x y infos keep total first removed (first, removed) y.
Proof.
  intros Hy Hp. split; [done|]. intros _. rewrite Hp. split; [f_equal; cbn; lia|]. intros n. by rewrite decide_False by (cbn; set_solver).
Qed.

Lemma cwp_prune_loop (x : fs) (keep : Z) (l : list Z) (infos : list espos_sdlog_info_t) (total : Z) (first : esp_err_t) (removed : Z) (y : fs) :
  card_ok x -> pruned x y -> NoDup l -> (forall q, q ∈ l -> dirs_of x q) -> (forall q, q ∈ l -> fs_dirs y !! dir_name q = fs_dirs x !! dir_name q) ->
  Forall2 (reported x) l infos -> cwp (pruned x) (prune_loop o root infos keep total first removed) (prunes x y infos keep total first removed) y.
Proof.
  intros Hx Hy Hnd Hl Hsame Hrep. revert total first removed y Hy Hnd Hl Hsame.
  induction Hrep as [|q i l infos Hi Hrep IH]; intros total first removed y Hy Hnd Hl Hsame; cbn [prune_loop]; [by apply cwp_ret, prunes_none|].
  apply NoDup_cons in Hnd as [Hnl Hnd]. destruct (Hl q (list_elem_of_here _ _)) as [Hq [D HD]].
  assert (Hl' : forall p, p ∈ l -> dirs_of x p) by (intros p Hp; apply Hl; by apply list_elem_of_further).
  assert (Hsame' : forall p, p ∈ l -> fs_dirs y !! dir_name p = fs_dirs x !! dir_name p) by (intros p Hp; apply Hsame; by apply list_elem_of_further).
  destruct (total >? keep) eqn:Et; cbn [negb]; [|apply cwp_ret, prunes_none; [done|cbn; by rewrite Et]].
  assert (Hskip : forall first' removed' y', pruned x y' -> (forall n, n <> dir_name q -> fs_dirs y' !! n = fs_dirs y !! n) ->
    forall total', cwp (pruned x) (prune_loop o root infos keep total' first' removed') (prunes x y' infos keep total' first' removed') y').
  { intros first' removed' y' Hy' Hoff total'. apply IH; [done|done|done|]. intros p Hp. rewrite Hoff; [by apply Hsame'|].
    intros E. apply dir_name_inj in E; [subst p; done| |done]. by apply Hl'. }
  rewrite <- negb_andb. fold (delivered i). destruct (delivered i) eqn:Ed; cbn [negb].
  2:{ eapply cwp_post; [by apply Hskip|]. intros r y' Hr. unfold prunes in *. cbn [prune_pick]. by rewrite Et, Ed. }
  destruct (proj1 Hi Ed) as (Eseq & D' & HD' & Hdone). rewrite HD in HD'. injection HD' as <-.
  pose proof (card_dirs x Hx q D Hq HD) as HDok. rewrite Eseq. apply cwp_bind.
  apply (cwp_remove o root root_fits (pruned x) q D); [done|rewrite Hsame; [done|apply list_elem_of_here]| | | | |].
  - intros n f Hf. by destruct (ok_files D HDok n f Hf).
  - intros D' Hsub. apply (pruned_step x y q D (Some D')); [done..|]. by intros ? [= <-].
  - by apply (pruned_step x y q D None).
  - change (is_ok ESP_OK) with true. cbn iota.
    eapply cwp_post; [apply Hskip; [by apply (pruned_step x y q D None)|intros n Hn; cbn; by rewrite lookup_delete_ne]|].
    intros r y' [H1 H2]. split; [done|]. intros Hr. destruct (H2 Hr) as [-> H3]. cbn [prune_pick]. rewrite Et, Ed, Eseq.
    split; [f_equal; cbn [length]; lia|]. intros n. rewrite H3. cbn [map]. destruct (decide (n ∈ map dir_name _)) as [Hn|Hn].
    + by rewrite decide_True by (by apply list_elem_of_further).
    + destruct (decide (n = dir_name q)) as [->|Hne]; [rewrite decide_True by apply list_elem_of_here; cbn; apply lookup_delete_eq|].
      rewrite decide_False by (rewrite elem_of_cons; intros [?|?]; done). cbn. by rewrite lookup_delete_ne.
  - intros D' Hnr Hsub. change (is_ok ESP_FAIL) with false. cbn iota.
    eapply cwp_post; [apply Hskip; [apply (pruned_step x y q D (Some D')); [done..|by intros ? [= <-]]|intros n Hn; cbn; by rewrite lookup_insert_ne]|].
    intros r y' [H1 _]. split; [done|]. intros Hr. by destruct Hnr.
Qed.

Lemma cwp_prune x keep : card_ok x ->
  cwp (pruned x) (espos_sdlog_prune o root keep) (fun r y => pruned x y /\ (reliable -> fs_root x = true ->
     exists l, StronglySorted Z.le l /\ NoDup l /\ (forall q, q ∈ l <-> dirs_of x q) /\
       let infos := map (fun q => (info_spec x q).2) l in
       let gone := prune_pick keep (total_bytes 0 infos) infos in
       r = (ESP_OK, Z.of_nat (length gone)) /\
       (forall q, is_seq q -> fs_dirs y !! dir_name q = if decide (q ∈ gone) then None else fs_dirs x !! dir_name q))) x.
Proof.
  intros Hx. unfold espos_sdlog_prune. apply cwp_bind, cwp_scan; [done|done|done| |].
  2:{ intros e Hnr _. apply cwp_ret. split; [apply pruned_refl|]. intros Hr. by destruct Hnr. }
  intros l Hsort Hnd Hl Hall. apply cwp_bind.
  assert (Hmem : forall Q : bool -> fs -> Prop, (forall b, (reliable -> b = true) -> Q b x) ->
    cwp (pruned x) (if (length l =? 0)%nat then mret true else malloc o (length l * 104)) Q x).
  { intros Q HQ. destruct (length l =? 0)%nat; [by apply cwp_ret, HQ|by apply cwp_malloc]. }
  apply Hmem. intros b Hb. destruct b; cbn [negb].
  2:{ apply cwp_ret. split; [apply pruned_refl|]. intros Hr. by specialize (Hb Hr). }
  apply cwp_bind, cwp_prune_infos; [done|done|]. intros infos t Hrep Ht.
  eapply cwp_post; [apply (cwp_prune_loop x keep l infos t ESP_OK 0 x); [done|apply pruned_refl|done|done|done|done]|].
  intros r y [H1 H2]. split; [done|]. intros Hr Hroot. exists l. do 2 (split; [done|]). split; [intros q; split; [apply Hl|by apply Hall]|].
  assert (infos = map (fun q => (info_spec x q).2) l) as <-.
  { clear -Hrep Hr. induction Hrep as [|q i l infos [_ Hi] _ IH]; [done|]. cbn. by rewrite <- (Hi Hr), <- IH. }
  rewrite <- (Ht Hr). destruct (H2 Hr) as [-> H3]. split; [done|]. intros q Hq. rewrite H3.
  destruct (decide (q ∈ prune_pick keep t infos)) as [Hin|Hout]; [by rewrite decide_True by (by apply list_elem_of_fmap_2)|].
  rewrite decide_False; [done|]. intros (p & E & Hp)%list_elem_of_fmap. apply dir_name_inj in E as ->; [done|done|].
  apply prune_pick_sub in Hp as (i & Hi & Hdel & <-). apply list_elem_of_lookup in Hi as [k Hk]. destruct (Forall2_lookup_r _ _ _ _ _ Hrep Hk) as (p & Hp & Hrep' & _).
  destruct (Hrep' Hdel) as [-> _]. by eapply Hl, list_elem_of_lookup_2.
Qed.

(** Pruning never loses data that has not reached its server: at any moment of
    it, whatever call fails, only files of sessions that are closed and marked as
    synced are missing. When the card works it removes exactly the oldest such
    sessions, as many as it takes until the rows left add up to [keep_bytes] or
    less (or until there are no more of them), and returns their number. *)
Theorem sdlog_prune_exact x keep : card_ok x ->
  (forall y, moment (espos_sdlog_prune o root keep) x y -> pruned x y) /\
  (reliable -> fs_root x = true -> forall w tr,
     exists l, StronglySorted Z.le l /\ NoDup l /\ (forall q, q ∈ l <-> dirs_of x q) /\
       let infos := map (fun q => (info_spec x q).2) l in
       let gone := prune_pick keep (total_bytes 0 infos) infos in
       (espos_sdlog_prune o root keep (Mach x w tr)).1 = (ESP_OK, Z.of_nat (length gone)) /\
       (forall q, is_seq q -> fs_dirs (m_sm (exec (espos_sdlog_prune o root keep) (Mach x w tr))) !! dir_name q =
          if decide (q ∈ gone) then None else fs_dirs x !! dir_name q) /\
       (prune_left keep (total_bytes 0 infos) infos <= keep \/ forall i, i ∈ infos -> delivered i = true -> i_seq i ∈ gone)).
Proof.
  intros Hx. pose proof (cwp_prune x keep Hx) as Hp. split.
  - intros y. eapply cwp_moment; [exact Hp|apply pruned_refl].
  - intros Hr Hroot w tr. destruct (Hp w tr) as (_ & _ & _ & _ & H). destruct (H Hr Hroot) as (l & H1 & H2 & H3 & H4 & H5).
    exists l. do 3 (split; [done|]). intros infos gone. do 2 (split; [done|]). apply prune_enough.
Qed.
End Prune.
