(* ===== verification/SdlogRuns.v ===== *)
(** Runs of the SD logger on a card that works: concrete lives of a log at
    /sd/logs, to which the properties of [SdlogProps] apply, and the runs in which
    the log does not keep what its documentation promises. *)
From Stdlib Require Import ZArith Lia String Sorted.
From stdpp Require Import base list numbers gmap.
From S2P Require Import Prelude ConfigDesc Sha256 CardFs SdlogSession SdlogRules SdlogPaths SdlogInv SdlogOps SdlogCard SdlogRecover SdlogOpen SdlogInfo SdlogProps SdlogPrune.
Open Scope Z_scope.
Definition any_header : Headers := fun _ => True.
#[local] Existing Instance any_header.

Definition calm : os unit :=
  Os (fun _ w => (false, w)) (fun _ w => (0%nat, w)) (fun l w => (l, w)) (fun _ w => (true, w)) (fun _ w => (true, w)).

#[local] Instance calm_laws : OsLaws calm.
Proof. intros l w. reflexivity. Qed.

Lemma calm_reliable : reliable calm.
Proof. by split. Qed.

Definition logs : cstr := lit "/sd/logs".

Lemma logs_fits : (length logs + 22 < PATH_MAX_LEN)%nat.
Proof. cbn. unfold PATH_MAX_LEN. lia. Qed.

Lemma logs_named : logs <> [].
Proof. done. Qed.

(** The power goes with nothing on the card but what was synced. *)
Definition power_off_file (f : file) : file := File (take (f_synced f) (f_data f)) (f_synced f).
Definition power_off_files (F : gmap cstr file) : gmap cstr file := power_off_file <$> F.
Definition power_off (y : fs) : fs := Fs (fs_root y) (power_off_files (fs_files y)) (fmap (M := gmap cstr) power_off_files (fs_dirs y)).

Definition intact (y : fs) : Prop :=
  map_Forall (fun (_ : cstr) f => (f_synced f <= length (f_data f))%nat) (fs_files y) /\
  map_Forall (fun (_ : cstr) D => map_Forall (fun (_ : cstr) f => (f_synced f <= length (f_data f))%nat) D) (fs_dirs y).

Lemma power_off_cut_files (F : gmap cstr file) : map_Forall (fun _ f => (f_synced f <= length (f_data f))%nat) F -> cut_files F (power_off_files F).
Proof.
  intros HF n. unfold power_off_files. rewrite lookup_fmap. destruct (F !! n) as [f|] eqn:E; [|done]. apply (Cut f (f_synced f)). split; [done|]. by apply (HF n).
Qed.

Lemma power_off_cut y : bool_decide (intact y) = true -> cut y (power_off y).
Proof.
  intros [Hf Hd]%bool_decide_eq_true. split; [done|by apply power_off_cut_files|]. intros n. cbn. rewrite lookup_fmap.
  destruct (fs_dirs y !! n) as [D|] eqn:E; [|done]. by apply power_off_cut_files, (Hd n).
Qed.

Definition blank : fs := Fs false ∅ ∅.
Definition short_rows (y : fs) : Prop := map_Forall (fun (_ : cstr) D => Z.of_nat (length (rows_of D)) < 2 ^ 64) (fs_dirs y).

Lemma short_rows_small y : bool_decide (short_rows y) = true -> small y.
Proof. intros H%bool_decide_eq_true q D _ HD. by apply (H (dir_name q)). Qed.

(** The tree after a run, one of the moments of the run if anything was changed. *)
Definition after {A : Type} (m : act fs unit fs A) (x : fs) : fs := m_sm (m (Mach x tt [])).2.

Lemma after_moment {A : Type} (m : act fs unit fs A) x : head (m_trace (m (Mach x tt [])).2) = Some (after m x) -> moment m x (after m x).
Proof. intros H. right. exists tt. apply head_Some_elem_of. exact H. Qed.

(** * The witnesses *)

(** A session left open with one row on the card and one in the buffers. *)
Definition first_life : list sd_op :=
  [OpOpen (lit "{}") (Some (OpenCfg 0 false)); OpAppend (lit "1,2"); OpSync; OpAppend (lit "3,4")].

#[local] Abbreviation found := (power_off (after (boot calm logs false first_life) blank)).

Lemma first_life_ok : Forall sd_op_ok first_life.
Proof. repeat constructor; cbn; lia. Qed.

Lemma found_reach : reach calm logs found.
Proof.
  eapply (ReachCut _ _ blank false first_life); [constructor|apply first_life_ok|apply after_moment; vm_compute; reflexivity| |].
  - apply power_off_cut. vm_compute. reflexivity.
  - apply short_rows_small. vm_compute. reflexivity.
Qed.

Lemma found_rows : exists D, fs_dirs found !! dir_name 1 = Some D /\ is_Some (D !! HEAD) /\ rows_of D = lit "1,2" ++ [10].
Proof.
  assert (E : option_map (fun D => (bool_decide (is_Some (D !! HEAD)), rows_of D)) (fs_dirs found !! dir_name 1) = Some (true, lit "1,2" ++ [10]))
    by (vm_compute; reflexivity).
  destruct (fs_dirs found !! dir_name 1) as [D|]; [|discriminate E]. injection E as E1 E2. exists D. split; [reflexivity|].
  split; [by apply bool_decide_eq_true in E1|exact E2].
Qed.

Lemma sdlog_power_cut_witness : stats calm /\ reach calm logs found /\
  exists D, fs_dirs found !! dir_name 1 = Some D /\ session_state D /\ rows_of D = lit "1,2" ++ [10].
Proof.
  split; [apply reliable_stats, calm_reliable|]. split; [apply found_reach|]. destruct found_rows as (D & HD & _ & Hr). exists D. split; [exact HD|]. split; [|exact Hr].
  apply (sdlog_power_cut calm logs logs_fits logs_named found (reliable_stats _ calm_reliable) found_reach 1); [unfold is_seq, MAX_SEQ; lia|exact HD].
Defined.

Lemma found_booted : booted found.
Proof. apply (reach_booted calm logs logs_fits logs_named); [apply reliable_stats, calm_reliable|apply found_reach]. Qed.

Lemma sdlog_recover_exact_witness : stats calm /\ booted found /\ reliable calm /\ fs_root found = true /\
  (exists l, (forall q, q ∈ l <-> dirs_of found q) /\
     (espos_sdlog_recover calm logs (Mach found tt [])).1 = (ESP_OK, count_if (left_open found) l, count_if (unstarted found) l)) /\
  (espos_sdlog_recover calm logs (Mach found tt [])).1 = (ESP_OK, 1, 0).
Proof.
  split; [apply reliable_stats, calm_reliable|]. split; [apply found_booted|]. split; [apply calm_reliable|]. split; [reflexivity|]. split; [|vm_compute; reflexivity].
  destruct (sdlog_recover_exact calm logs logs_fits found (reliable_stats _ calm_reliable) found_booted) as [_ H].
  destruct (H calm_reliable eq_refl tt []) as (l & _ & _ & H1 & H2 & _). exists l. split; [exact H1|exact H2].
Defined.

(** The open session of that life. *)
#[local] Abbreviation run := (run_ops calm logs first_life None (Mach blank tt [])).

Lemma run_session : exists s D text k, run.1 = Some s /\ card_ok (m_sm run.2) /\ is_seq (s_seq s) /\ fs_dirs (m_sm run.2) !! dir_name (s_seq s) = Some D /\
  sess_ok (m_sm run.2) (s_seq s) s text k D /\ failed s = false /\ Z.of_nat (newlines text) < 2 ^ 64.
Proof.
  destruct (cwp_run_ops calm logs logs_fits logs_named first_life None blank first_life_ok) with (w := tt) (tr := @nil fs) as (_ & _ & _ & Hy & Hs).
  { split; [|done]. split; cbn; [by left|done|]. intros q D _. by rewrite lookup_empty. }
  assert (exists s, run.1 = Some s /\ failed s = false /\ (length (fp_buf (rows_f s)) <= 10)%nat /\
     (length (from_option rows_of [] (fs_dirs (m_sm run.2) !! dir_name (s_seq s))) <= 10)%nat) as (s & Es & Hf & Hl1 & Hl2).
  { eexists. split; [vm_compute; reflexivity|]. split; [reflexivity|]. split; apply Nat.leb_le; vm_compute; reflexivity. }
  rewrite Es in Hs. destruct Hs as (D & text & k & Hq & HD & Hsess). exists s, D, text, k. do 6 (split; [done|]).
  rewrite HD in Hl2. cbn [from_option] in Hl2. destruct (so_stream _ _ _ _ _ _ Hsess) as (_ & fl & Efl & _ & _ & <-).
  pose proof (newlines_len (f_data fl ++ fp_buf (rows_f s))) as Hn. rewrite length_app in Hn.
  unfold rows_of in Hl2. rewrite Efl, lookup_insert_eq in Hl2. cbn in Hl2. lia.
Qed.

Lemma sdlog_cut_loss_witness : exists s D text k, card_ok (m_sm run.2) /\ is_seq (s_seq s) /\ fs_dirs (m_sm run.2) !! dir_name (s_seq s) = Some D /\
  sess_ok (m_sm run.2) (s_seq s) s text k D /\ failed s = false /\ Z.of_nat (newlines text) < 2 ^ 64 /\ unsynced s < sync_every s /\
  forall y z, moment (espos_sdlog_append calm s (lit "5,6")) (m_sm run.2) y -> cut y z ->
    exists Dz, fs_dirs z !! dir_name (s_seq s) = Some Dz /\ s_rows s - unsynced s <= Z.of_nat (newlines (keep_rows (rows_of Dz))).
Proof.
  destruct run_session as (s & D & text & k & _ & Hy & Hq & HD & Hs & Hf & Hn). exists s, D, text, k. do 6 (split; [assumption|]).
  destruct (sdlog_cut_loss calm logs logs_fits (m_sm run.2) s D text k (lit "5,6") Hy Hq HD Hs Hf Hn) as [Hlt H]. split; [exact Hlt|].
  intros y z Hm Hc. destruct (H y z Hm Hc) as (Dz & HDz & _ & Hle). exists Dz. split; [exact HDz|exact Hle].
Defined.

Lemma sdlog_close_info_witness : exists s D text k, card_ok (m_sm run.2) /\ is_seq (s_seq s) /\ fs_dirs (m_sm run.2) !! dir_name (s_seq s) = Some D /\
  sess_ok (m_sm run.2) (s_seq s) s text k D /\
  exists e s1, espos_sdlog_close calm logs s None (Mach (m_sm run.2) tt []) = (e, s1) /\ e = ESP_OK /\ reliable calm /\
    (espos_sdlog_info calm logs (s_seq s) s1).1 =
      (ESP_OK, Info (s_seq s) true true (bool_decide (is_Some (D !! SYNCED))) (s_rows s) (s_bytes s) (sha256 text)).
Proof.
  destruct run_session as (s & D & text & k & Es & Hy & Hq & HD & Hs & Hf & Hn). exists s, D, text, k. do 4 (split; [assumption|]).
  destruct (espos_sdlog_close calm logs s None (Mach (m_sm run.2) tt [])) as [e s1] eqn:E. exists e, s1. split; [reflexivity|].
  assert (He : e = ESP_OK).
  { assert (Hok : option_map (fun s => is_ok (espos_sdlog_close calm logs s None (Mach (m_sm run.2) tt [])).1) run.1 = Some true) by (vm_compute; reflexivity).
    rewrite Es in Hok. cbn [option_map] in Hok. rewrite E in Hok. destruct e; [reflexivity|discriminate Hok..]. }
  split; [exact He|]. split; [apply calm_reliable|].
  apply (sdlog_close_info calm logs logs_fits (m_sm run.2) s D text k None Hy Hq HD Hs tt [] e s1 E He). apply calm_reliable.
Defined.

(** The session of that life is number 1; an open that is cut short between removing
    LASTSEQ.TXT and giving it its new contents. *)
Lemma sdlog_number_fresh_witness : reliable calm /\ card_ok (m_sm run.2) /\ covers 1 (fs_files (m_sm run.2)) LAST_SEQ_FILE /\
  exists y, moment (espos_sdlog_open calm logs (lit "{}") None) (m_sm run.2) y /\ fs_files y !! LAST_SEQ_FILE = None /\ cut y (power_off y) /\
  exists e s s1, espos_sdlog_open calm logs (lit "{}") None (Mach (power_off y) tt []) = (e, Some s, s1) /\
    1 < s_seq s /\ covers (s_seq s) (fs_files (m_sm s1)) LAST_SEQ_FILE.
Proof.
  split; [apply calm_reliable|]. assert (Hy : card_ok (m_sm run.2)) by (destruct run_session as (s & D & text & k & _ & Hy & _); exact Hy). split; [exact Hy|].
  assert (Hc : covers 1 (fs_files (m_sm run.2)) LAST_SEQ_FILE).
  { assert (E : option_map (fun f => (f_synced f =? length (f_data f))%nat && (1 <=? seq_of_text (f_data f))) (fs_files (m_sm run.2) !! LAST_SEQ_FILE) = Some true)
      by (vm_compute; reflexivity).
    destruct (fs_files (m_sm run.2) !! LAST_SEQ_FILE) as [f|] eqn:Ef; [|discriminate E]. injection E as [E1 E2]%andb_prop.
    exists f. split; [exact Ef|]. split; [by apply Nat.eqb_eq|by apply Z.leb_le]. }
  split; [exact Hc|].
  set (open_ := espos_sdlog_open calm logs (lit "{}") None).
  assert (Hy9 : option_map (fun y => bool_decide (fs_files y !! LAST_SEQ_FILE = None) && bool_decide (intact y) &&
    bool_decide (is_Some (open_ (Mach (power_off y) tt [])).1.2)) (m_trace (open_ (Mach (m_sm run.2) tt [])).2 !! 9%nat) = Some true) by (vm_compute; reflexivity).
  destruct (m_trace (open_ (Mach (m_sm run.2) tt [])).2 !! 9%nat) as [y|] eqn:Hi; [|discriminate Hy9].
  injection Hy9 as [[Hg%bool_decide_eq_true Hin]%andb_prop Hs%bool_decide_eq_true]%andb_prop.
  destruct (open_ (Mach (power_off y) tt [])) as [[e r] s1] eqn:E. destruct Hs as [s Hr]. cbn [fst snd] in Hr. subst r.
  assert (Hm : moment (espos_sdlog_open calm logs (lit "{}") None) (m_sm run.2) y) by (right; exists tt; eapply list_elem_of_lookup_2; exact Hi).
  pose proof (power_off_cut y Hin) as Hcut.
  exists y. split; [exact Hm|]. split; [exact Hg|]. split; [exact Hcut|]. exists e, s, s1. split; [exact E|].
  destruct (sdlog_number_fresh calm logs logs_fits logs_named (m_sm run.2) 1 (lit "{}") None calm_reliable Hy Hc I I y (power_off y) Hm Hcut tt [] e s s1 E) as (H1 & _ & H2).
  split; [exact H1|exact H2].
Defined.

(** A delivered session and an open one. *)
Definition second_life : list sd_op :=
  [OpOpen (lit "{}") None; OpAppend (lit "1,2"); OpClose None; OpMark 1 None; OpOpen (lit "{}") None; OpAppend (lit "3,4")].

#[local] Abbreviation full_card := (after (run_ops calm logs second_life None) blank).

Lemma full_card_ok : card_ok full_card.
Proof.
  destruct (cwp_run_ops calm logs logs_fits logs_named second_life None blank) with (w := tt) (tr := @nil fs) as (_ & _ & _ & Hy & _).
  - repeat constructor; cbn; unfold MAX_SEQ; lia.
  - split; [|done]. split; cbn; [by left|done|]. intros q D _. by rewrite lookup_empty.
  - exact Hy.
Qed.

Lemma sdlog_prune_exact_witness : card_ok full_card /\ reliable calm /\ fs_root full_card = true /\
  (espos_sdlog_prune calm logs 0 (Mach full_card tt [])).1 = (ESP_OK, 1) /\
  exists l, (forall q, q ∈ l <-> dirs_of full_card q) /\
    length (prune_pick 0 (total_bytes 0 (map (fun q => (info_spec full_card q).2) l)) (map (fun q => (info_spec full_card q).2) l)) = 1%nat.
Proof.
  split; [apply full_card_ok|]. split; [apply calm_reliable|]. split; [vm_compute; reflexivity|].
  assert (E : (espos_sdlog_prune calm logs 0 (Mach full_card tt [])).1 = (ESP_OK, 1)) by (vm_compute; reflexivity). split; [exact E|].
  destruct (sdlog_prune_exact calm logs logs_fits full_card 0 full_card_ok) as [_ H].
  destruct (H calm_reliable ltac:(vm_compute; reflexivity) tt []) as (l & _ & _ & Hl & Hres & _). exists l. split; [exact Hl|].
  rewrite E in Hres. injection Hres as Hres. apply Nat2Z.inj. symmetry. exact Hres.
Defined.

(** * What the documentation promises and the log does not keep *)

#[local] Abbreviation open_empty := (espos_sdlog_open calm logs (lit "{}") None).

(** A session is opened, written, closed, delivered and pruned: its number and the number of sessions removed. *)
Definition delivered_life : act fs unit fs (Z * Z) :=
  '(_, s) ← open_empty;
  match s with
  | None => mret (0, 0)
  | Some s =>
      '(_, s) ← espos_sdlog_append calm s (lit "1,2");
      espos_sdlog_close calm logs s None;;
      espos_sdlog_mark_synced calm logs (s_seq s) None;;
      '(_, removed) ← espos_sdlog_prune calm logs 0;
      mret (s_seq s, removed)
  end.

(** The [i]-th last moment of an open from [x], as the power cut leaves it. *)
Definition open_cut_at (i : nat) (x : fs) : fs := power_off (nth i (m_trace (open_empty (Mach x tt [])).2) x).

Definition cut_short {A : Type} (m : act fs unit fs A) (x z : fs) : Prop := exists y, moment m x y /\ cut y z.

Lemma open_cut_short i x : (i <? length (m_trace (open_empty (Mach x tt [])).2))%nat = true ->
  bool_decide (intact (nth i (m_trace (open_empty (Mach x tt [])).2) x)) = true -> cut_short open_empty x (open_cut_at i x).
Proof.
  intros Hi Hin. exists (nth i (m_trace (open_empty (Mach x tt [])).2) x). split; [|by apply power_off_cut]. right. exists tt.
  apply list_elem_of_In, nth_In. by apply Nat.ltb_lt.
Qed.

(** A number can come round again, against the manual, on a card that works:
    session 1 was delivered and pruned; an open is cut short after it removed
    [LASTSEQ.TXT], and the next one after it emptied [LASTSEQ.TMP], the only file
    that still had the number; the open after that hands out number 1. *)
Theorem sdlog_number_reused : exists x z1 z2,
  (delivered_life (Mach blank tt [])).1 = (1, 1) /\ x = after delivered_life blank /\
  cut_short open_empty x z1 /\ cut_short open_empty z1 z2 /\
  option_map s_seq (open_empty (Mach z2 tt [])).1.2 = Some 1.
Proof.
  exists (after delivered_life blank), (open_cut_at 9 (after delivered_life blank)), (open_cut_at 13 (open_cut_at 9 (after delivered_life blank))).
  split; [vm_compute; reflexivity|]. split; [reflexivity|]. split; [|split].
  - apply open_cut_short; vm_compute; reflexivity.
  - apply open_cut_short; vm_compute; reflexivity.
  - vm_compute; reflexivity.
Qed.

(** A card that works but for the [n]-th question whether a file exists. *)
Definition one_stat_fails (n : nat) : os nat :=
  Os (fun op w => match op with SysStat => ((w =? n)%nat, S w) | _ => (false, w) end)
     (fun _ w => (0%nat, w)) (fun l w => (l, w)) (fun _ w => (true, w)) (fun _ w => (true, w)).

(** One failing [stat] costs a session: recovery takes any failure for "no such
    file", so when the question after [HEAD.JSN] of a session left open fails, the
    session is removed with the rows that were on the card, and recovery reports
    success. *)
Theorem sdlog_stat_error_removes :
  (exists D, fs_dirs found !! dir_name 1 = Some D /\ is_Some (D !! HEAD) /\ rows_of D = lit "1,2" ++ [10]) /\
  (espos_sdlog_recover (one_stat_fails 1) logs (Mach found 0%nat [])).1 = (ESP_OK, 0, 1) /\
  fs_dirs (m_sm (espos_sdlog_recover (one_stat_fails 1) logs (Mach found 0%nat [])).2) !! dir_name 1 = None.
Proof.
  split; [exact found_rows|]. split; [vm_compute; reflexivity|].
  vm_compute. reflexivity.
Qed.
