(* ===== verification/SkNvs.v ===== *)
(** One namespace of the flash storage, as the device state of [espos_sk] uses it
    (nvs.h of ESP-IDF): typed items by key.

    Whether a call fails is a question to the world; a set or an erase that
    reports an error may have been done all the same. Every change of the items
    enters the trace, so the trace has the moments at which the power may go. *)
From Stdlib Require Import ZArith Lia String.
From stdpp Require Import base list numbers gmap.
From S2P Require Import Prelude ConfigDesc.
Open Scope Z_scope.

Definition ESP_ERR_NVS_NOT_FOUND : esp_err_t := ESP_ERR_OTHER 0x1102.
Definition ESP_ERR_NVS_TYPE_MISMATCH : esp_err_t := ESP_ERR_OTHER 0x1103.
Definition ESP_ERR_NVS_INVALID_LENGTH : esp_err_t := ESP_ERR_OTHER 0x110c.

Inductive item := IU8 (v : Z) | IU16 (v : Z) | IU32 (v : Z) | II64 (v : Z) | IStr (s : cstr).
#[export] Instance item_eq_dec : EqDecision item.
Proof. solve_decision. Defined.

Abbreviation flash := (gmap cstr item).

Inductive nvop := NvOpen | NvGet | NvSet | NvErase | NvCommit.

(** Where a machine keeps the namespace, and how a change of it enters the trace. *)
Class HasFlash (SM O : Type) := {
  fl : SM -> flash;
  set_fl : (flash -> flash) -> SM -> SM;
  fl_moment : flash -> O }.

(** The answers: does the call succeed, and if not, was it done? *)
Class HasNvs (W : Type) := nv_ask : nvop -> W -> (bool * bool) * W.

Section Nvs.
Context {SM W O : Type} `{!HasFlash SM O} `{!HasNvs W}.
#[local] Abbreviation M := (act SM W O).

Definition nv_touch (f : flash -> flash) : M unit := mods (set_fl f);; m ← gets fl; emit (fl_moment m).

Definition nvs_open : M bool := '(ok, _) ← query (nv_ask NvOpen); mret ok.

(** A string into a buffer of [size]. *)
Definition nvs_get_str (key : cstr) (size : nat) : M (esp_err_t * cstr) :=
  '(ok, _) ← query (nv_ask NvGet);
  m ← gets fl;
  mret (if negb ok then (ESP_FAIL, []) else
        match m !! key with
        | None => (ESP_ERR_NVS_NOT_FOUND, [])
        | Some (IStr s) => if (size <? length s + 1)%nat then (ESP_ERR_NVS_INVALID_LENGTH, []) else (ESP_OK, s)
        | Some _ => (ESP_ERR_NVS_TYPE_MISMATCH, [])
        end).

(** A number of the type that [f] recognises. *)
Definition nvs_get_num (f : item -> option Z) (key : cstr) : M (esp_err_t * Z) :=
  '(ok, _) ← query (nv_ask NvGet);
  m ← gets fl;
  mret (if negb ok then (ESP_FAIL, 0) else
        match m !! key with
        | None => (ESP_ERR_NVS_NOT_FOUND, 0)
        | Some i => match f i with Some v => (ESP_OK, v) | None => (ESP_ERR_NVS_TYPE_MISMATCH, 0) end
        end).
Definition is_u8 (i : item) : option Z := match i with IU8 v => Some v | _ => None end.
Definition is_u16 (i : item) : option Z := match i with IU16 v => Some v | _ => None end.
Definition is_u32 (i : item) : option Z := match i with IU32 v => Some v | _ => None end.
Definition is_i64 (i : item) : option Z := match i with II64 v => Some v | _ => None end.

Definition nvs_set (key : cstr) (i : item) : M esp_err_t :=
  '(ok, done_) ← query (nv_ask NvSet);
  (if ok || done_ then nv_touch (insert key i) else mret tt);;
  mret (if ok : bool then ESP_OK else ESP_FAIL).

Definition nvs_erase_key (key : cstr) : M esp_err_t :=
  '(ok, done_) ← query (nv_ask NvErase);
  m ← gets fl;
  if ok && bool_decide (m !! key = None) then mret ESP_ERR_NVS_NOT_FOUND else
  (if ok || done_ then nv_touch (delete key) else mret tt);;
  mret (if ok : bool then ESP_OK else ESP_FAIL).

Definition nvs_commit : M esp_err_t :=
  '(ok, _) ← query (nv_ask NvCommit); mret (if ok : bool then ESP_OK else ESP_FAIL).

(** [get_str] of sk_store.c and sk_tls.c: empty on any error. *)
Definition get_str (key : cstr) (size : nat) : M cstr :=
  '(err, v) ← nvs_get_str key size; mret (if is_ok err then v else []).

(** ** What reading finds *)

Definition num_in (f : flash) (get : item -> option Z) (key : cstr) : Z := default 0 (f !! key ≫= get).
Definition str_in (f : flash) (key : cstr) (size : nat) : cstr :=
  match f !! key with Some (IStr v) => if (size <? length v + 1)%nat then [] else v | _ => [] end.

(** Reading works. *)
Definition reads : Prop := forall op w, op = NvOpen \/ op = NvGet -> (nv_ask op w).1.1 = true.

Lemma wp_nv_get_str key size Q s : reads -> (forall w', Q (str_in (fl (m_sm s)) key size) (Mach (m_sm s) w' (m_trace s))) -> wp (get_str key size) Q s.
Proof.
  intros Hr HQ. unfold get_str, nvs_get_str, wp, mbind, act_bind, query, gets, mret, act_ret. specialize (Hr NvGet (m_world s) (or_intror eq_refl)).
  destruct (nv_ask NvGet (m_world s)) as [[ok dn] w']. cbn [fst snd] in *. subst ok. cbn [negb m_sm]. specialize (HQ w'). unfold str_in in HQ.
  destruct (fl (m_sm s) !! key) as [[]|]; try exact HQ. by destruct (size <? _)%nat.
Qed.

Lemma wp_nv_get_num get key Q s : reads ->
  (forall w' e v, (if is_ok e then v else 0) = num_in (fl (m_sm s)) get key -> (is_ok e = true <-> is_Some (fl (m_sm s) !! key ≫= get)) -> Q (e, v) (Mach (m_sm s) w' (m_trace s))) ->
  wp (nvs_get_num get key) Q s.
Proof.
  intros Hr HQ. unfold nvs_get_num, wp, mbind, act_bind, query, gets, mret, act_ret. specialize (Hr NvGet (m_world s) (or_intror eq_refl)).
  destruct (nv_ask NvGet (m_world s)) as [[ok dn] w']. cbn [fst snd] in *. subst ok. cbn [negb m_sm].
  destruct (fl (m_sm s) !! key) as [i|] eqn:E; [destruct (get i) as [v|] eqn:Eg|]; apply HQ; unfold num_in; rewrite ?E; cbn; rewrite ?Eg; cbn; try done.
  all: split; [done|intros []; done].
Qed.

Lemma wp_nv_open (Q : bool -> mach SM W O -> Prop) s : reads -> (forall w', Q true (Mach (m_sm s) w' (m_trace s))) -> wp nvs_open Q s.
Proof.
  intros Hr HQ. unfold nvs_open, wp, mbind, act_bind, query, mret, act_ret. specialize (Hr NvOpen (m_world s) (or_introl eq_refl)).
  destruct (nv_ask NvOpen (m_world s)) as [[ok dn] w']. cbn [fst snd] in *. by subst ok.
Qed.
End Nvs.
