(* ===== verification/SkTlsPolicy.v ===== *)
(** The trust decision for a SignalK server's certificate and the normal form of
    the set of names it is for: [sk_tls_policy.c] and [espos_sk_tls_policy.h].

    A [char] is unsigned on the device. A null entry of the input set is an empty
    name, which the code skips alike; the null facts of a caller that passes no
    record are [None]. *)
From Stdlib Require Import ZArith Lia String Sorted.
From stdpp Require Import base list numbers sets.
From S2P Require Import Prelude ConfigDesc.
Open Scope Z_scope.

Definition ESPOS_SK_TLS_SAN_MAX : nat := 256.
Definition ESPOS_SK_TLS_CN_MAX : nat := 64.
Definition ESPOS_SK_TLS_FP_LEN : nat := 32.

Inductive espos_sk_tls_anchor_kind_t := ESPOS_SK_TLS_ANCHOR_NONE | ESPOS_SK_TLS_ANCHOR_CA | ESPOS_SK_TLS_ANCHOR_LEAF.
Inductive espos_sk_tls_trust_t := ESPOS_SK_TLS_TRUST_TOFU | ESPOS_SK_TLS_TRUST_CA | ESPOS_SK_TLS_TRUST_BUNDLE.
Inductive espos_sk_tls_verdict_t := ESPOS_SK_TLS_ACCEPT | ESPOS_SK_TLS_CAPTURE | ESPOS_SK_TLS_REJECT.
Inductive espos_sk_tls_reason_t :=
  | ESPOS_SK_TLS_R_OK | ESPOS_SK_TLS_R_FIRST_USE | ESPOS_SK_TLS_R_LEAF_CHANGED | ESPOS_SK_TLS_R_CA_CHANGED
  | ESPOS_SK_TLS_R_SAN_CHANGED | ESPOS_SK_TLS_R_NO_IDENTITY.

#[export] Instance anchor_kind_eq_dec : EqDecision espos_sk_tls_anchor_kind_t.
Proof. solve_decision. Defined.
#[export] Instance trust_eq_dec : EqDecision espos_sk_tls_trust_t.
Proof. solve_decision. Defined.
#[export] Instance verdict_eq_dec : EqDecision espos_sk_tls_verdict_t.
Proof. solve_decision. Defined.

Record espos_sk_tls_facts_t := Facts {
  has_anchor : bool; anchor_is_leaf : bool; leaf_matches : bool; ca_present : bool; ca_matches : bool;
  leaf_has_san : bool; san_matches : bool }.

Record espos_sk_tls_decision_t := Decision_ {
  verdict : espos_sk_tls_verdict_t; reason_ : espos_sk_tls_reason_t; capture_as : espos_sk_tls_anchor_kind_t }.

Definition reject (r : espos_sk_tls_reason_t) : espos_sk_tls_decision_t := Decision_ ESPOS_SK_TLS_REJECT r ESPOS_SK_TLS_ANCHOR_NONE.
Definition accept : espos_sk_tls_decision_t := Decision_ ESPOS_SK_TLS_ACCEPT ESPOS_SK_TLS_R_OK ESPOS_SK_TLS_ANCHOR_NONE.

Definition espos_sk_tls_decide (facts : option espos_sk_tls_facts_t) : espos_sk_tls_decision_t :=
  match facts with
  | None => reject ESPOS_SK_TLS_R_LEAF_CHANGED
  | Some f =>
      if negb (has_anchor f) then
        Decision_ ESPOS_SK_TLS_CAPTURE ESPOS_SK_TLS_R_FIRST_USE
          (if ca_present f && leaf_has_san f then ESPOS_SK_TLS_ANCHOR_CA else ESPOS_SK_TLS_ANCHOR_LEAF)
      else if anchor_is_leaf f then
        if leaf_matches f then accept else reject ESPOS_SK_TLS_R_LEAF_CHANGED
      else if negb (ca_present f) || negb (ca_matches f) then reject ESPOS_SK_TLS_R_CA_CHANGED
      else if negb (leaf_has_san f) then reject ESPOS_SK_TLS_R_NO_IDENTITY
      else if negb (san_matches f) then reject ESPOS_SK_TLS_R_SAN_CHANGED
      else accept
  end.

Definition espos_sk_tls_reason_str (r : espos_sk_tls_reason_t) : cstr :=
  match r with
  | ESPOS_SK_TLS_R_OK => lit "certificate matches the pinned one"
  | ESPOS_SK_TLS_R_FIRST_USE => lit "first use: pinning this certificate"
  | ESPOS_SK_TLS_R_LEAF_CHANGED => lit "the server certificate changed"
  | ESPOS_SK_TLS_R_CA_CHANGED => lit "the server certificate was issued by a different CA"
  | ESPOS_SK_TLS_R_SAN_CHANGED => lit "the server certificate now names different hosts"
  | ESPOS_SK_TLS_R_NO_IDENTITY => lit "the server certificate carries no host name to check"
  end.

(** * The set of names *)

Definition SAN_TRUNC_MARK : Z := 33.

Definition lower (c : Z) : Z := if (65 <=? c) && (c <=? 90) then c - 65 + 97 else c.

Fixpoint cmp_ci (a b : cstr) : Z :=
  match a, b with
  | x :: a', y :: b' => if lower x =? lower y then cmp_ci a' b' else if lower x <? lower y then -1 else 1
  | _ :: _, [] => 1
  | [], _ :: _ => -1
  | [], [] => 0
  end.

(** One pass: the smallest name above the one emitted last. *)
Definition better (prev : option cstr) (best : option cstr) (cand : cstr) : option cstr :=
  if bool_decide (cand = []) then best else
  if from_option (fun p => cmp_ci cand p <=? 0) false prev then best else
  if from_option (fun b => cmp_ci cand b <? 0) true best then Some cand else best.
Definition select (prev : option cstr) (in_ : list cstr) : option cstr := foldl (better prev) None in_.

Fixpoint san_passes (pass : nat) (in_ : list cstr) (out_size : nat) (prev : option cstr) (out : cstr) : esp_err_t * cstr * bool :=
  match pass with
  | O => (ESP_OK, out, false)
  | S pass' =>
      match select prev in_ with
      | None => (ESP_OK, out, false)
      | Some best =>
          let need := (length best + if bool_decide (out = []) then 0 else 1)%nat in
          if (out_size <? length out + need + 1)%nat then (ESP_ERR_INVALID_SIZE, out, true) else
          san_passes pass' in_ out_size (Some best)
            (out ++ (if bool_decide (out = []) then [] else [44]) ++ map lower best)
      end
  end.

(** The result, the text and [*truncated]. *)
Definition espos_sk_tls_san_normalise (in_ : list cstr) (out_size : nat) : esp_err_t * cstr * bool :=
  if (out_size =? 0)%nat then (ESP_ERR_INVALID_ARG, [], false) else
  san_passes (length in_) in_ out_size None [].

Definition espos_sk_tls_san_equal (a b : cstr) : bool :=
  if bool_decide (a = []) || bool_decide (b = []) then false else
  if (byte0 a =? SAN_TRUNC_MARK) || (byte0 b =? SAN_TRUNC_MARK) then false else streq a b.

Example san_order : espos_sk_tls_san_normalise [lit "Boat.local"; lit "b"; lit "a"; lit "boat.LOCAL"; []] 256 = (ESP_OK, lit "a,b,boat.local", false).
Proof. reflexivity. Qed.

(** * The names as a sorted set *)

(** Lexicographic order of lower-cased names. *)
Fixpoint lex_lt (a b : cstr) : Prop :=
  match a, b with
  | _, [] => False
  | [], _ :: _ => True
  | x :: a', y :: b' => x < y \/ x = y /\ lex_lt a' b'
  end.

Lemma lex_irrefl a : ~ lex_lt a a.
Proof. induction a as [|x a IH]; cbn; [tauto|]. intros [H|[_ H]]; [lia|tauto]. Qed.

Lemma lex_trans a b c : lex_lt a b -> lex_lt b c -> lex_lt a c.
Proof.
  revert b c. induction a as [|x a IH]; intros [|y b] [|z c]; cbn; try done.
  intros [H1|[-> H1]] [H2|[-> H2]]; [left; lia|by left|by left|right; split; [done|by eapply IH]].
Qed.

Lemma cmp_ci_spec a b :
  match cmp_ci a b with Z0 => map lower a = map lower b | Zpos _ => lex_lt (map lower b) (map lower a) | Zneg _ => lex_lt (map lower a) (map lower b) end.
Proof.
  revert b. induction a as [|x a IH]; intros [|y b]; cbn; try done. destruct (Z.eqb_spec (lower x) (lower y)) as [E|E].
  - specialize (IH b). rewrite E. destruct (cmp_ci a b); [by rewrite IH|by right|by right].
  - destruct (Z.ltb_spec (lower x) (lower y)); left; lia.
Qed.

Lemma cmp_ci_lt a b : (cmp_ci a b <? 0) = true <-> lex_lt (map lower a) (map lower b).
Proof.
  pose proof (cmp_ci_spec a b) as H. rewrite Z.ltb_lt. destruct (cmp_ci a b); split; try (done || lia).
  - intros Hl. rewrite H in Hl. by apply lex_irrefl in Hl.
  - intros Hl. destruct (lex_irrefl (map lower a)). by eapply lex_trans.
Qed.

Lemma cmp_ci_gt a b : (cmp_ci a b <=? 0) = false <-> lex_lt (map lower b) (map lower a).
Proof.
  pose proof (cmp_ci_spec a b) as H. rewrite Z.leb_gt. destruct (cmp_ci a b); split; try (done || lia).
  - intros Hl. rewrite H in Hl. by apply lex_irrefl in Hl.
  - intros Hl. destruct (lex_irrefl (map lower a)). by eapply lex_trans.
Qed.

Lemma lex_total a b : lex_lt a b \/ a = b \/ lex_lt b a.
Proof.
  revert b. induction a as [|x a IH]; intros [|y b]; cbn; [auto..|]. destruct (Z.lt_trichotomy x y) as [H|[->|H]]; [auto| |auto].
  destruct (IH b) as [H|[->|H]]; auto.
Qed.

(** The names of a set, in lower case. *)
Definition names (in_ : list cstr) : list cstr := map (map lower) (List.filter (fun c => negb (bool_decide (c = []))) in_).

Definition above (prev : option cstr) (x : cstr) : Prop := match prev with None => True | Some p => lex_lt (map lower p) x end.

(** A pass finds the least name above the last. *)
Definition selected (prev : option cstr) (in_ : list cstr) (best : option cstr) : Prop :=
  match best with
  | None => forall x, x ∈ names in_ -> ~ above prev x
  | Some b => map lower b ∈ names in_ /\ above prev (map lower b) /\ forall x, x ∈ names in_ -> above prev x -> ~ lex_lt x (map lower b)
  end.

Lemma names_app a b : names (a ++ b) = names a ++ names b.
Proof. unfold names. by rewrite List.filter_app, map_app. Qed.

Lemma names_one c : c <> [] -> names [c] = [map lower c].
Proof. intros H. unfold names. cbn. by rewrite bool_decide_false. Qed.

Lemma better_selected prev in_ best c : selected prev in_ best -> selected prev (in_ ++ [c]) (better prev best c).
Proof.
  intros Hs. unfold better. case_bool_decide as Hc.
  { subst c. unfold selected in *. rewrite names_app. change (names [[]]) with (@nil cstr). by rewrite app_nil_r. }
  assert (Hin : forall x, x ∈ names (in_ ++ [c]) <-> x ∈ names in_ \/ x = map lower c).
  { intros x. rewrite names_app, names_one by done. by rewrite elem_of_app, list_elem_of_singleton. }
  assert (Habove : from_option (fun p => cmp_ci c p <=? 0) false prev = false <-> above prev (map lower c)).
  { destruct prev as [p|]; cbn; [apply cmp_ci_gt|done]. }
  destruct (from_option (fun p => cmp_ci c p <=? 0) false prev) eqn:Ep.
  { assert (Hn : ~ above prev (map lower c)) by (intros H; apply Habove in H; done). unfold selected in *. destruct best as [b|].
    - destruct Hs as (H1 & H2 & H3). split_and!; [apply Hin; by left|done|]. intros x [Hx| ->]%Hin Hax; [by apply H3|done].
    - intros x [Hx| ->]%Hin; [by apply Hs|done]. }
  assert (Hac : above prev (map lower c)) by (by apply Habove). destruct best as [b|]; cbn [from_option].
  - destruct Hs as (H1 & H2 & H3). destruct (cmp_ci c b <? 0) eqn:El.
    + apply cmp_ci_lt in El. cbn. split_and!; [apply Hin; by right|done|]. intros x [Hx| ->]%Hin Hax Hlt; [|by apply lex_irrefl in Hlt].
      apply (H3 x Hx Hax). by eapply lex_trans.
    + cbn. split_and!; [apply Hin; by left|done|]. intros x [Hx| ->]%Hin Hax Hlt; [by apply (H3 x)|]. apply cmp_ci_lt in Hlt. congruence.
  - cbn. split_and!; [apply Hin; by right|done|]. intros x [Hx| ->]%Hin Hax Hlt; [by apply (Hs x)|by apply lex_irrefl in Hlt].
Qed.

Lemma select_spec prev in_ : selected prev in_ (select prev in_).
Proof.
  unfold select. assert (forall rest seen best, selected prev seen best -> selected prev (seen ++ rest) (foldl (better prev) best rest)) as H.
  { induction rest as [|c rest IH]; intros seen best Hs; cbn; [by rewrite app_nil_r|]. replace (seen ++ c :: rest) with ((seen ++ [c]) ++ rest) by (by rewrite <- app_assoc).
    apply IH. by apply better_selected. }
  apply (H in_ [] None). intros x Hx. by apply not_elem_of_nil in Hx.
Qed.

(** * The normal form *)

Fixpoint join (l : list cstr) : cstr := match l with [] => [] | [x] => x | x :: l' => x ++ 44 :: join l' end.

Lemma join_snoc l x : l <> [] -> join (l ++ [x]) = join l ++ 44 :: x.
Proof.
  induction l as [|y l IH]; [done|]. intros _. destruct l as [|z l]; [done|].
  change (join ((y :: z :: l) ++ [x])) with (y ++ 44 :: join ((z :: l) ++ [x])). rewrite IH by done.
  change (join (y :: z :: l)) with (y ++ 44 :: join (z :: l)). by rewrite <- app_assoc.
Qed.

(** Strictly ascending lists with the same elements are equal. *)
Lemma sorted_unique l1 l2 : StronglySorted lex_lt l1 -> StronglySorted lex_lt l2 -> (forall x, x ∈ l1 <-> x ∈ l2) -> l1 = l2.
Proof.
  revert l2. induction l1 as [|x l1 IH]; intros [|y l2] H1 H2 Heq.
  - done.
  - pose proof (proj2 (Heq y) (list_elem_of_here _ _)) as H. by apply not_elem_of_nil in H.
  - pose proof (proj1 (Heq x) (list_elem_of_here _ _)) as H. by apply not_elem_of_nil in H.
  - apply StronglySorted_inv in H1 as [H1 Hx]. apply StronglySorted_inv in H2 as [H2 Hy]. rewrite List.Forall_forall in Hx, Hy. setoid_rewrite <- list_elem_of_In in Hx. setoid_rewrite <- list_elem_of_In in Hy.
    assert (x = y) as ->.
    { assert (x = y \/ x ∈ l2) as [->|Hxin]; [apply elem_of_cons, Heq, list_elem_of_here|done|].
      assert (y = x \/ y ∈ l1) as [->|Hyin]; [apply elem_of_cons, Heq, list_elem_of_here|done|].
      destruct (lex_irrefl x). eapply lex_trans; [by apply Hx|by apply Hy]. }
    f_equal. apply IH; [done|done|]. intros z. specialize (Heq z). rewrite !elem_of_cons in Heq. split; intros Hz.
    + destruct (proj1 Heq (or_intror Hz)) as [->|?]; [|done]. by destruct (lex_irrefl y); apply Hx.
    + destruct (proj2 Heq (or_intror Hz)) as [->|?]; [|done]. by destruct (lex_irrefl y); apply Hy.
Qed.

(** What has been emitted: the names up to [prev], in order. *)
Record emitted (in_ : list cstr) (prev : option cstr) (l : list cstr) : Prop := {
  em_sorted : StronglySorted lex_lt l;
  em_set x : x ∈ l <-> x ∈ names in_ /\ ~ above prev x }.

Lemma emitted_nil in_ : emitted in_ None [].
Proof. split; [constructor|]. intros x. cbn. split; [by intros ?%not_elem_of_nil|by intros []]. Qed.

Lemma sorted_snoc l b : StronglySorted lex_lt l -> (forall x, x ∈ l -> lex_lt x b) -> StronglySorted lex_lt (l ++ [b]).
Proof.
  induction 1 as [|x l Hl IH Hx]; intros H; cbn; [by repeat constructor|]. constructor; [apply IH; intros y Hy; apply H; by apply list_elem_of_further|].
  apply Forall_app. split; [done|]. repeat constructor. apply H, list_elem_of_here.
Qed.

Lemma above_dec prev x : above prev x \/ ~ above prev x.
Proof. destruct prev as [p|]; cbn; [|by left]. destruct (lex_total (map lower p) x) as [H|[<-|H]]; [by left|right; apply lex_irrefl|right]. intros H'. destruct (lex_irrefl x). by eapply lex_trans. Qed.

Lemma emitted_step in_ prev l b : emitted in_ prev l -> selected prev in_ (Some b) -> emitted in_ (Some b) (l ++ [map lower b]).
Proof.
  intros [H1 H3] (Hb1 & Hb2 & Hb3).
  assert (Hlt : forall x, x ∈ l -> lex_lt x (map lower b)).
  { intros x [Hx Hn]%H3. destruct prev as [p|]; cbn in *; [|done]. destruct (lex_total x (map lower p)) as [H|[->|H]]; [by eapply lex_trans|done|done]. }
  split.
  - by apply sorted_snoc.
  - intros x. rewrite elem_of_app, list_elem_of_singleton. cbn. split.
    + intros [Hx| ->]; [|split; [done|apply lex_irrefl]]. split; [by apply H3|]. intros H. destruct (lex_irrefl x). eapply lex_trans; [by apply Hlt|done].
    + intros [Hx Hn]. destruct (lex_total x (map lower b)) as [H|[->|H]]; [|by right|done]. left. apply H3. split; [done|].
      intros Ha. by apply (Hb3 x Hx Ha).
Qed.

Lemma emitted_all in_ prev l : emitted in_ prev l -> selected prev in_ None -> forall x, x ∈ l <-> x ∈ names in_.
Proof. intros [_ H] Hs x. rewrite H. split; [by intros []|]. intros Hx. split; [done|by apply Hs]. Qed.

Lemma names_length in_ : (length (names in_) <= length in_)%nat.
Proof. unfold names. rewrite length_map. induction in_ as [|c l IH]; cbn; [done|]. destruct (negb _); cbn; lia. Qed.

Lemma emitted_nodup l : StronglySorted lex_lt l -> NoDup l.
Proof.
  induction 1 as [|x l Hl IH Hx]; constructor; [|done]. intros Hin. rewrite List.Forall_forall in Hx. apply list_elem_of_In in Hin. by apply lex_irrefl in Hx.
Qed.

(** When everything fits the text is that of the sorted set. *)
Lemma san_passes_spec in_ size pass prev l out : emitted in_ prev l -> out = join l -> (length in_ <= pass + length l)%nat ->
  exists l', match san_passes pass in_ size prev out with
  | (e, t, cut) => t = join l' /\
      (e = ESP_OK /\ cut = false /\ StronglySorted lex_lt l' /\ (forall x, x ∈ l' <-> x ∈ names in_) \/
       e = ESP_ERR_INVALID_SIZE /\ cut = true /\ (forall x, x ∈ l' -> x ∈ names in_) /\ exists x, x ∈ names in_ /\ x ∉ l')
  end.
Proof.
  revert prev l out. induction pass as [|pass IH]; intros prev l out Hem Hout Hlen; cbn [san_passes].
  - exists l. split; [done|]. left. split_and!; [done|done|apply Hem|]. intros x. split; [intros Hx; by apply (em_set _ _ _ Hem)|].
    intros Hx. assert (Hsub : l ⊆+ names in_).
    { apply NoDup_submseteq; [apply emitted_nodup, Hem|]. intros y Hy. by apply (em_set _ _ _ Hem). }
    pose proof (names_length in_). apply (submseteq_length_Permutation _ _) in Hsub; [by rewrite Hsub|lia].
  - pose proof (select_spec prev in_) as Hsel. destruct (select prev in_) as [b|].
    2:{ exists l. split; [done|]. left. split_and!; [done|done|apply Hem|]. by apply (emitted_all in_ prev). }
    destruct (size <? _)%nat.
    + exists l. split; [done|]. right. split_and!; [done|done|intros x Hx; by apply (em_set _ _ _ Hem)|]. exists (map lower b). destruct Hsel as (H1 & H2 & _).
      split; [done|]. intros [_ Hn]%(em_set _ _ _ Hem). done.
    + apply (IH (Some b) (l ++ [map lower b])); [by eapply emitted_step| |rewrite length_app; cbn; lia].
      destruct l as [|x l]; [by subst out|]. rewrite join_snoc by done. rewrite bool_decide_false; [by subst out|].
      subst out. assert (Hx : x <> []).
      { assert (x ∈ names in_) as Hx by (apply (em_set _ _ _ Hem), list_elem_of_here). unfold names in Hx. apply list_elem_of_fmap in Hx as (c & -> & Hc).
        apply list_elem_of_In, List.filter_In in Hc as [_ Hc]. apply negb_true_iff, bool_decide_eq_false in Hc. by destruct c. }
      destruct x; [done|]. by destruct l.
Qed.

(** * When two texts are the same *)

(** A name that can be told from its neighbours and from the mark of a cut set. *)
Definition host_name (x : cstr) : Prop := x <> [] /\ Forall (fun c => c <> 44) x /\ byte0 x <> SAN_TRUNC_MARK.

(** What follows a name in the text. *)
Definition tail_text (r : cstr) : Prop := r = [] \/ exists r', r = 44 :: r'.

Lemma tail_inj x y r s : Forall (fun c => c <> 44) x -> Forall (fun c => c <> 44) y -> tail_text r -> tail_text s ->
  x ++ r = y ++ s -> x = y /\ r = s.
Proof.
  intros Hx. revert y. induction Hx as [|c x Hc Hx IH]; intros y Hy Hr Hs E; destruct Hy as [|d y Hd Hy]; cbn in E.
  - done.
  - destruct Hr as [->|[r' ->]]; [done|]. injection E as <- _. done.
  - destruct Hs as [->|[s' ->]]; [done|]. injection E as -> _. done.
  - injection E as -> E. destruct (IH y Hy Hr Hs E) as [-> ->]. done.
Qed.

Lemma join_cons x l : join (x :: l) = x ++ match l with [] => [] | _ => 44 :: join l end.
Proof. destruct l; [by rewrite app_nil_r|done]. Qed.

Lemma tail_join l : tail_text (match l with [] => [] | _ => 44 :: join l end).
Proof. destruct l; [by left|right; by eexists]. Qed.

Lemma join_inj l1 l2 : Forall host_name l1 -> Forall host_name l2 -> join l1 = join l2 -> l1 = l2.
Proof.
  intros H1. revert l2. induction H1 as [|x l1 (Hx & Hxc & _) H1 IH]; intros l2 H2 E.
  - destruct H2 as [|y l2 (Hy & _) H2]; [done|]. rewrite join_cons in E. by destruct y.
  - destruct H2 as [|y l2 (Hy & Hyc & _) H2]; [rewrite join_cons in E; by destruct x|]. rewrite !join_cons in E.
    destruct (tail_inj x y _ _ Hxc Hyc (tail_join l1) (tail_join l2) E) as [-> E']. f_equal. apply IH; [done|].
    destruct l1, l2; try done. by injection E'.
Qed.

Lemma join_empty l : Forall host_name l -> join l = [] -> l = [].
Proof. intros [|x l' (Hx & _) _]; [done|]. rewrite join_cons. by destruct x. Qed.

Lemma join_mark l : Forall host_name l -> (byte0 (join l) =? SAN_TRUNC_MARK) = false.
Proof. intros [|x l' (Hx & _ & Hm) _]; [done|]. rewrite join_cons. destruct x; [done|]. by apply Z.eqb_neq. Qed.

Lemma san_normalise_spec in_ size t cut : espos_sk_tls_san_normalise in_ size = (ESP_OK, t, cut) ->
  exists l, t = join l /\ StronglySorted lex_lt l /\ forall x, x ∈ l <-> x ∈ names in_.
Proof.
  unfold espos_sk_tls_san_normalise. destruct (size =? 0)%nat; [done|]. intros E.
  destruct (san_passes_spec in_ size (length in_) None [] []) as [l Hl]; [apply emitted_nil|done|cbn; lia|]. rewrite E in Hl.
  destruct Hl as [-> [(_ & _ & H)|(H & _)]]; [by exists l|done].
Qed.

Lemma names_hosts l in_ : (forall x, x ∈ l <-> x ∈ names in_) -> Forall host_name (names in_) -> Forall host_name l.
Proof. rewrite !Forall_forall. intros H1 H2 x Hx. by apply H2, H1. Qed.

(** Two sets of host names are the same to the policy exactly if they have the
    same names, whatever their order, their repetitions and their case: for sets
    that fit the record, [san_equal] of the normal forms holds if and only if the
    sets are not empty and have the same members in lower case. *)
Theorem sk_tls_san_exact in1 in2 size1 size2 t1 t2 c1 c2 :
  espos_sk_tls_san_normalise in1 size1 = (ESP_OK, t1, c1) -> espos_sk_tls_san_normalise in2 size2 = (ESP_OK, t2, c2) ->
  Forall host_name (names in1) -> Forall host_name (names in2) ->
  espos_sk_tls_san_equal t1 t2 = true <-> names in1 <> [] /\ forall x, x ∈ names in1 <-> x ∈ names in2.
Proof.
  intros (l1 & -> & Hs1 & H1)%san_normalise_spec (l2 & -> & Hs2 & H2)%san_normalise_spec Hn1 Hn2.
  pose proof (names_hosts l1 in1 H1 Hn1) as Hl1. pose proof (names_hosts l2 in2 H2 Hn2) as Hl2.
  assert (Hnil : names in1 = [] <-> l1 = []).
  { split; intros E; [destruct l1 as [|x l]|destruct (names in1) as [|x l]]; try done.
    - pose proof (proj1 (H1 x) (list_elem_of_here _ _)) as H. rewrite E in H. by apply not_elem_of_nil in H.
    - pose proof (proj2 (H1 x) (list_elem_of_here _ _)) as H. rewrite E in H. by apply not_elem_of_nil in H. }
  unfold espos_sk_tls_san_equal. rewrite !join_mark by done. cbn [orb]. split.
  - destruct (bool_decide (join l1 = [])) eqn:E1; [done|]. cbn [orb]. destruct (bool_decide (join l2 = [])); [done|].
    intros E%bool_decide_eq_true. apply join_inj in E as ->; [|done|done]. apply bool_decide_eq_false in E1.
    split; [rewrite Hnil; by intros ->|]. intros x. by rewrite <- H1, H2.
  - intros [Hne Heq]. assert (l1 = l2) as <- by (apply sorted_unique; [done|done|]; intros x; by rewrite H1, H2).
    rewrite bool_decide_false; [by apply bool_decide_eq_true|]. intros E%join_empty; [|done]. by apply Hne, Hnil.
Qed.

Lemma sk_tls_san_exact_witness :
  espos_sk_tls_san_normalise [lit "boat.local"; lit "10.0.0.2"] 256 = (ESP_OK, lit "10.0.0.2,boat.local", false) /\
  espos_sk_tls_san_normalise [lit "10.0.0.2"; lit "Boat.Local"; lit "10.0.0.2"] 256 = (ESP_OK, lit "10.0.0.2,boat.local", false) /\
  espos_sk_tls_san_equal (lit "10.0.0.2,boat.local") (lit "10.0.0.2,boat.local") = true.
Proof.
  assert (E1 : espos_sk_tls_san_normalise [lit "boat.local"; lit "10.0.0.2"] 256 = (ESP_OK, lit "10.0.0.2,boat.local", false)) by reflexivity.
  assert (E2 : espos_sk_tls_san_normalise [lit "10.0.0.2"; lit "Boat.Local"; lit "10.0.0.2"] 256 = (ESP_OK, lit "10.0.0.2,boat.local", false)) by reflexivity.
  split; [exact E1|]. split; [exact E2|].
  apply (sk_tls_san_exact _ _ _ _ _ _ _ _ E1 E2).
  - repeat constructor; discriminate.
  - repeat constructor; discriminate.
  - split; [discriminate|]. intros x.
    change (names [lit "boat.local"; lit "10.0.0.2"]) with [lit "boat.local"; lit "10.0.0.2"].
    change (names [lit "10.0.0.2"; lit "Boat.Local"; lit "10.0.0.2"]) with [lit "10.0.0.2"; lit "boat.local"; lit "10.0.0.2"].
    rewrite !elem_of_cons. intuition.
Defined.
