(* ===== verification/SkTls.v ===== *)
(** The trust store of the SignalK connection: [sk_tls.c] with TLS built in.

    A certificate is what the code reads of mbedTLS's parse of it; the digest, the
    parser of a PEM text, the clock, the allocator, the creation of tasks and
    mutexes and the flash are behind the port. The file-level struct is [tls]. A
    function of the file is one step: its critical sections under the struct's
    mutex are not split, so other tasks come between two functions, not within
    one. mbedTLS calls [verify_cb] once per certificate of the chain, from the top
    down to the leaf at depth 0, with the flags it found for it. *)
From Stdlib Require Import ZArith Lia String.
From stdpp Require Import base list numbers gmap.
From S2P Require Import Prelude ConfigDesc SkNvs SkTlsPolicy.
Open Scope Z_scope.

Definition ESP_ERR_TIMEOUT : esp_err_t := ESP_ERR_OTHER 0x107.
Definition CONFIG_ESPOS_SK_TLS_CA_MAX : nat := 2048.
Definition CONFIG_ESPOS_SK_TLS_MIN_FREE_BLOCK_KB : Z := 24.
Definition ESPOS_SK_SELF_MAX : nat := 128.
Definition MBEDTLS_ERR_X509_CERT_VERIFY_FAILED : Z := -0x2700.
Definition MBEDTLS_X509_SAN_DNS_NAME : Z := 2.
Definition MBEDTLS_X509_SAN_IP_ADDRESS : Z := 7.

Record mbedtls_x509_crt := Crt {
  raw : list Z;                            (** the DER of the certificate *)
  subject : list (bool * list Z);          (** is it the CN?, value *)
  subject_alt_names : list (Z * list Z);   (** tag, value *)
  ca_istrue : bool }.
Definition crt_init : mbedtls_x509_crt := Crt [] [] [] false.

Definition fp_zero : list Z := replicate ESPOS_SK_TLS_FP_LEN 0.

Record anchor_t := Anchor {
  kind : espos_sk_tls_anchor_kind_t; leaf_fp : list Z; ca_fp : list Z; san : cstr; cn : cstr; server_self : cstr; pinned_unix : Z }.
#[export] Instance eta_anchor : Eta anchor_t := fun r => Anchor (kind r) (leaf_fp r) (ca_fp r) (san r) (cn r) (server_self r) (pinned_unix r).
Definition anchor_zero : anchor_t := Anchor ESPOS_SK_TLS_ANCHOR_NONE fp_zero fp_zero [] [] [] 0.

Record capture_t := Capture {
  valid_ : bool; cap_as : espos_sk_tls_anchor_kind_t; cap_leaf_fp : list Z; cap_ca_fp : list Z; have_ca : bool; cap_san : cstr; cap_cn : cstr }.
#[export] Instance eta_capture : Eta capture_t := fun r =>
  Capture (valid_ r) (cap_as r) (cap_leaf_fp r) (cap_ca_fp r) (have_ca r) (cap_san r) (cap_cn r).
Definition capture_zero : capture_t := Capture false ESPOS_SK_TLS_ANCHOR_NONE fp_zero fp_zero false [] [].

Record tls := Tls {
  t_lock : bool;                 (** the mutex exists *)
  t_handshake : option bool;     (** the handshake slot, if it exists: is it taken? *)
  loaded : bool; anchor : anchor_t; store_pending : bool; cap : capture_t; trust : espos_sk_tls_trust_t;
  ca_pem : cstr; ca_crt : mbedtls_x509_crt; ca_crt_ready : bool;
  last_error : cstr; seen_cn : cstr; seen_fp : cstr; have_seen : bool;
  t_flash : flash }.             (** not of the struct: the items of the namespace *)
#[export] Instance eta_tls : Eta tls := fun r =>
  Tls (t_lock r) (t_handshake r) (loaded r) (anchor r) (store_pending r) (cap r) (trust r) (ca_pem r) (ca_crt r) (ca_crt_ready r)
    (last_error r) (seen_cn r) (seen_fp r) (have_seen r) (t_flash r).

(** A boot on what the flash holds. *)
Definition tls_boot (f : flash) : tls :=
  Tls false None false anchor_zero false capture_zero ESPOS_SK_TLS_TRUST_TOFU [] crt_init false [] [] [] false f.

Inductive tls_ev := TFlash (f : flash) | TMemory (warn : bool) | TPublish (doc : cstr).
#[export] Instance tls_flash : HasFlash tls tls_ev := { fl := t_flash; set_fl := fun g s => s <| t_flash ::= g |>; fl_moment := TFlash }.

(** What is behind the port, but the flash. *)
Class TlsPort (W : Type) := {
  port_mutex : W -> bool * W;                  (** does the creation of a mutex succeed? *)
  port_task : W -> bool * W;                   (** can the work be done now on an internal stack? *)
  port_now_ms : W -> Z * W;                    (** [espos_time_now_ms], 0 in a build without it *)
  port_largest_block : W -> Z * W;
  port_malloc : W -> bool * W }.

(** * Text *)

Definition hex_char (n : Z) : Z := nth (Z.to_nat n) (lit "0123456789abcdef") 0.
Definition hex (b : list Z) : cstr := b ≫= fun c => [hex_char (Z.shiftr c 4); hex_char (Z.land c 15)].

Definition unhex_char (c : Z) : option Z :=
  if (48 <=? c) && (c <=? 57) then Some (c - 48) else if (97 <=? c) && (c <=? 102) then Some (c - 97 + 10) else None.
(** Whether all [n] bytes were read, and those that were. *)
Fixpoint unhex (n : nat) (s : cstr) : bool * list Z :=
  match n, s with
  | O, _ => (true, [])
  | S n', a :: b :: s' =>
      match unhex_char a, unhex_char b with
      | Some hi, Some lo => let '(ok, r) := unhex n' s' in (ok, u8 (Z.lor (Z.shiftl hi 4) lo) :: r)
      | _, _ => (false, [])
      end
  | S _, _ => (false, [])
  end.

(** * Certificates *)

Section Trust.
Context (md : list Z -> option (list Z)) (crt_parse : cstr -> option mbedtls_x509_crt).

Definition crt_fingerprint (c : mbedtls_x509_crt) : list Z := default (replicate ESPOS_SK_TLS_FP_LEN 255) (md (raw c)).

Fixpoint first_cn (l : list (bool * list Z)) : cstr :=
  match l with
  | [] => []
  | (true, v) :: _ => c_string (take (ESPOS_SK_TLS_CN_MAX - 1) v)
  | (false, _) :: l' => first_cn l'
  end.
Definition crt_cn (c : mbedtls_x509_crt) : cstr := first_cn (subject c).

Definition SAN_ENTRY_MAX : nat := 8.
Definition SAN_NAME_MAX : nat := 64.

(** The text of one entry, if it names a host. *)
Fixpoint ip6_text (b : list Z) : cstr :=
  match b with
  | x :: y :: b' => hex [x; y] ++ match b' with [] => [] | _ => 58 :: ip6_text b' end
  | _ => []
  end.
Definition san_name (tag : Z) (v : list Z) : option cstr :=
  if tag =? MBEDTLS_X509_SAN_DNS_NAME then Some (c_string (take (SAN_NAME_MAX - 1) v)) else
  if tag =? MBEDTLS_X509_SAN_IP_ADDRESS then
    match v with
    | [a; b; c; d] => Some (fmt_d a ++ lit "." ++ fmt_d b ++ lit "." ++ fmt_d c ++ lit "." ++ fmt_d d)
    | _ => if (length v =? 16)%nat then Some (ip6_text v) else None
    end
  else None.

(** The names collected, and whether there were too many. *)
Fixpoint san_collect (l : list (Z * list Z)) (names : list cstr) : list cstr * bool :=
  match l with
  | [] => (names, false)
  | (tag, v) :: l' =>
      if bool_decide (v = []) then san_collect l' names else
      if (SAN_ENTRY_MAX <=? length names)%nat then (names, true) else
      match san_name tag v with
      | Some t => san_collect l' (names ++ [t])
      | None => san_collect l' names
      end
  end.

(** The text and [*truncated]. *)
Definition crt_san_set (c : mbedtls_x509_crt) (out_size : nat) : cstr * bool :=
  let '(names, overflow) := san_collect (subject_alt_names c) [] in
  let '(err, out, cut) := espos_sk_tls_san_normalise names out_size in
  if negb (is_ok err) || cut || overflow
  then (if (1 <? out_size)%nat then SAN_TRUNC_MARK :: take (out_size - 2) out else out, true)
  else (out, false).

(** * The store *)

Context {W : Type} `{!HasNvs W} `{!TlsPort W}.
#[local] Abbreviation M := (act tls W tls_ev).

Definition pinned_now_unix : M Z := ms ← query port_now_ms; mret (if ms >? 0 then ms / 1000 else 0).

Definition kind_num (k : espos_sk_tls_anchor_kind_t) : Z :=
  match k with ESPOS_SK_TLS_ANCHOR_NONE => 0 | ESPOS_SK_TLS_ANCHOR_CA => 1 | ESPOS_SK_TLS_ANCHOR_LEAF => 2 end.
Definition kind_of (v : Z) : espos_sk_tls_anchor_kind_t :=
  if v =? 1 then ESPOS_SK_TLS_ANCHOR_CA else if v =? 2 then ESPOS_SK_TLS_ANCHOR_LEAF else ESPOS_SK_TLS_ANCHOR_NONE.

(** A stored fingerprint: whether it can be used, and its bytes. *)
Definition load_fp (fp : cstr) : bool * list Z :=
  if bool_decide (fp = []) then (true, fp_zero) else
  let '(ok, b) := unhex ESPOS_SK_TLS_FP_LEN fp in (ok, b ++ drop (length b) fp_zero).

Definition anchor_load : M unit :=
  mods (fun s => s <| anchor := anchor_zero |>);;
  ok ← nvs_open;
  if negb ok then mret tt else
  '(err, k) ← nvs_get_num is_u8 (lit "tls_kind");
  let k := if is_ok err then k else 0 in
  fp ← get_str (lit "tls_fp") 65;
  let '(ok1, leaf) := load_fp fp in
  fp ← get_str (lit "tls_ca") 65;
  let '(ok2, ca) := load_fp fp in
  san ← get_str (lit "tls_san") ESPOS_SK_TLS_SAN_MAX;
  cn ← get_str (lit "tls_cn") ESPOS_SK_TLS_CN_MAX;
  self ← get_str (lit "tls_self") ESPOS_SK_SELF_MAX;
  '(err, at_) ← nvs_get_num is_i64 (lit "tls_at");
  mods (fun s => s <| anchor := Anchor (kind_of (if ok1 && ok2 then k else 0)) leaf ca san cn self (if is_ok err then at_ else 0) |>
                   <| loaded := true |>).

(** Write the items in order; the last error. *)
Fixpoint store_items (l : list (cstr * item)) (err : esp_err_t) : M esp_err_t :=
  match l with
  | [] => mret err
  | (key, i) :: l' => e ← nvs_set key i; store_items l' (if is_ok e then err else e)
  end.
Definition anchor_items (a : anchor_t) : list (cstr * item) :=
  [(lit "tls_kind", IU8 (kind_num (kind a))); (lit "tls_fp", IStr (hex (leaf_fp a))); (lit "tls_ca", IStr (hex (ca_fp a)));
   (lit "tls_san", IStr (san a)); (lit "tls_cn", IStr (cn a)); (lit "tls_self", IStr (server_self a)); (lit "tls_at", II64 (pinned_unix a))].
Definition anchor_store (a : anchor_t) : M esp_err_t :=
  ok ← nvs_open;
  if negb ok then mret ESP_FAIL else
  err ← store_items (anchor_items a) ESP_OK;
  e ← nvs_commit;
  mret (if is_ok e then err else e).

Fixpoint erase_keys (l : list cstr) : M unit :=
  match l with [] => mret tt | key :: l' => nvs_erase_key key;; erase_keys l' end.
Definition anchor_erase : M unit :=
  ok ← nvs_open;
  if negb ok then mret tt else
  erase_keys (map fst (anchor_items anchor_zero));;
  nvs_commit;; mret tt.

(** ** The verify callback: its result and the flags it leaves *)

Definition facts_of (a : anchor_t) (c : capture_t) (san_cut : bool) : espos_sk_tls_facts_t :=
  Facts (bool_decide (kind a <> ESPOS_SK_TLS_ANCHOR_NONE)) (bool_decide (kind a = ESPOS_SK_TLS_ANCHOR_LEAF))
    (bool_decide (cap_leaf_fp c = leaf_fp a)) (have_ca c) (have_ca c && bool_decide (cap_ca_fp c = ca_fp a))
    (negb (bool_decide (cap_san c = [])) && negb san_cut) (espos_sk_tls_san_equal (cap_san c) (san a)).

Definition verify_cb (c : mbedtls_x509_crt) (depth : nat) (flags : Z) : M (Z * Z) :=
  if (0 <? depth)%nat then
    h ← gets (fun s => have_ca (cap s));
    (if ca_istrue c && negb h then mods (fun s => s <| cap; cap_ca_fp := crt_fingerprint c |> <| cap; have_ca := true |>) else mret tt);;
    mret (0, 0)
  else
    let '(san, san_cut) := crt_san_set c ESPOS_SK_TLS_SAN_MAX in
    mods (fun s => s <| cap ::= fun p => p <| cap_leaf_fp := crt_fingerprint c |> <| cap_cn := crt_cn c |> <| cap_san := san |> |>);;
    d ← gets (fun s => espos_sk_tls_decide (Some (facts_of (anchor s) (cap s) san_cut)));
    mods (fun s => s <| seen_fp := hex (cap_leaf_fp (cap s)) |> <| seen_cn := snprintf_s ESPOS_SK_TLS_CN_MAX (cap_cn (cap s)) |> <| have_seen := true |>);;
    if bool_decide (verdict d = ESPOS_SK_TLS_REJECT) then
      mods (fun s => s <| last_error := snprintf_s 96 (espos_sk_tls_reason_str (reason_ d)) |> <| cap; valid_ := false |>);;
      mret (MBEDTLS_ERR_X509_CERT_VERIFY_FAILED, flags)
    else
      mods (fun s => s <| last_error := [] |>
        <| cap; cap_as := if bool_decide (verdict d = ESPOS_SK_TLS_CAPTURE) then capture_as d else kind (anchor s) |> <| cap; valid_ := true |>);;
      mret (0, 0).

(** ** Public operations *)

Definition run_on_internal_stack (fn : M unit) : M bool :=
  ok ← query port_task;
  if ok : bool then fn;; mret true else mret false.

Definition ensure_init : M unit :=
  have ← gets t_lock;
  (if negb have then
     l ← query port_mutex;
     hs ← query port_mutex;
     mods (fun s => s <| t_lock := l |> <| t_handshake := if hs : bool then Some false else None |> <| ca_crt := crt_init |>)
   else mret tt);;
  done_ ← gets loaded;
  if negb done_ then run_on_internal_stack anchor_load;; mret tt else mret tt.

Definition espos_sk_tls_parse_ca (pem : cstr) : esp_err_t * mbedtls_x509_crt :=
  if bool_decide (pem = []) then (ESP_ERR_INVALID_ARG, crt_init) else
  if (CONFIG_ESPOS_SK_TLS_CA_MAX <? length pem + 1)%nat then (ESP_ERR_INVALID_SIZE, crt_init) else
  match crt_parse pem with None => (ESP_ERR_INVALID_ARG, crt_init) | Some c => (ESP_OK, c) end.

(** A new PEM: parse it and make it the anchor. *)
Definition adopt_ca : M unit :=
  mods (fun s => if ca_crt_ready s then s <| ca_crt := crt_init |> <| ca_crt_ready := false |> else s);;
  pem ← gets ca_pem;
  let '(err, c) := espos_sk_tls_parse_ca pem in
  if negb (bool_decide (pem = [])) && is_ok err then
    mods (fun s => s <| ca_crt := c |> <| ca_crt_ready := true |>);;
    at_ ← pinned_now_unix;
    let a := Anchor ESPOS_SK_TLS_ANCHOR_CA fp_zero (crt_fingerprint c) [] (crt_cn c) [] at_ in
    mods (fun s => s <| anchor := a |>);;
    e ← anchor_store a;
    mods (fun s => s <| store_pending := negb (is_ok e) |>)
  else mret tt.

Definition espos_sk_tls_set_trust (tr : espos_sk_tls_trust_t) (pem : option cstr) : M unit :=
  ensure_init;;
  old ← gets ca_pem;
  mods (fun s => s <| trust := tr |>);;
  match pem with
  | None => mret tt
  | Some p =>
      mods (fun s => s <| ca_pem := snprintf_s CONFIG_ESPOS_SK_TLS_CA_MAX p |>);;
      if negb (strneq CONFIG_ESPOS_SK_TLS_CA_MAX old p) then adopt_ca else mret tt
  end.

Definition espos_sk_tls_trust_mode : M espos_sk_tls_trust_t := ensure_init;; gets trust.

(** What the attach hook installs: the bundle alone, or the callback over the
    operator's CA or the bundle's chain. *)
Inductive attached := Bundle | Callback (chain : option mbedtls_x509_crt).
Definition espos_sk_tls_attach : M attached :=
  ensure_init;;
  tr ← gets trust;
  if bool_decide (tr = ESPOS_SK_TLS_TRUST_BUNDLE) then mret Bundle else
  gets (fun s => Callback (if ca_crt_ready s then Some (ca_crt s) else None)).

Definition espos_sk_tls_discard : M unit := ensure_init;; mods (fun s => s <| cap := capture_zero |>).

Definition store_anchor : M unit :=
  a ← gets anchor;
  e ← anchor_store a;
  mods (fun s => s <| store_pending := negb (is_ok e) |>).

Definition persist_anchor : M unit :=
  ran ← run_on_internal_stack store_anchor;
  if negb ran then mods (fun s => s <| store_pending := true |>) else mret tt.

(** The document of [GET /api/v1/sk/tls]. *)
Definition q_ (s : cstr) : cstr := 34 :: s ++ [34].
Definition trust_text (t : espos_sk_tls_trust_t) : cstr :=
  match t with ESPOS_SK_TLS_TRUST_BUNDLE => lit "bundle" | ESPOS_SK_TLS_TRUST_CA => lit "ca" | ESPOS_SK_TLS_TRUST_TOFU => lit "tofu" end.
Definition kind_text (k : espos_sk_tls_anchor_kind_t) : cstr :=
  match k with ESPOS_SK_TLS_ANCHOR_NONE => lit "none" | ESPOS_SK_TLS_ANCHOR_CA => lit "ca" | ESPOS_SK_TLS_ANCHOR_LEAF => lit "leaf" end.
Definition tls_doc (s : tls) : cstr :=
  let a := anchor s in
  let fp := hex (if bool_decide (kind a = ESPOS_SK_TLS_ANCHOR_CA) then ca_fp a else leaf_fp a) in
  lit "{" ++ q_ (lit "trust") ++ lit ":" ++ q_ (trust_text (trust s)) ++ lit "," ++ q_ (lit "pinned") ++ lit ":" ++
  (if bool_decide (kind a = ESPOS_SK_TLS_ANCHOR_NONE) then lit "null" else
   lit "{" ++ q_ (lit "kind") ++ lit ":" ++ q_ (kind_text (kind a)) ++ lit "," ++ q_ (lit "cn") ++ lit ":" ++ q_ (take 63 (cn a)) ++
   lit "," ++ q_ (lit "san") ++ lit ":" ++ q_ (take 255 (san a)) ++ lit "," ++ q_ (lit "fingerprint") ++ lit ":" ++ q_ fp ++
   lit "," ++ q_ (lit "since") ++ lit ":" ++ fmt_d (pinned_unix a) ++ lit "}") ++
  lit "," ++ q_ (lit "last_error") ++ lit ":" ++ q_ (take 95 (last_error s)) ++ lit "," ++ q_ (lit "presented") ++ lit ":" ++
  (if have_seen s then
     lit "{" ++ q_ (lit "cn") ++ lit ":" ++ q_ (take 63 (seen_cn s)) ++ lit "," ++ q_ (lit "fingerprint") ++ lit ":" ++ q_ (seen_fp s) ++ lit "}}"
   else lit "null}").

(** The document, cut to its buffer; [None] when there is no memory. *)
Definition espos_sk_tls_json : M (option cstr) :=
  ensure_init;;
  ok ← query port_malloc;
  if ok : bool then gets (fun s => Some (snprintf_s 1024 (tls_doc s))) else mret None.

Definition espos_sk_tls_publish : M unit :=
  d ← espos_sk_tls_json;
  match d with Some t => emit (TPublish t) | None => mret tt end.

(** The anchor after a connection that proved itself, and whether it differs: one
    statement of the source is one [set_if]. *)
Definition set_if (test : anchor_t -> bool) (f : anchor_t -> anchor_t) (p : anchor_t * bool) : anchor_t * bool :=
  if test p.1 then (f p.1, true) else p.
Definition take_kind (c : capture_t) (now : Z) : anchor_t * bool -> anchor_t * bool :=
  set_if (fun a => bool_decide (kind a = ESPOS_SK_TLS_ANCHOR_NONE)) (fun a => a <| kind := cap_as c |> <| pinned_unix := now |>).
Definition take_leaf (c : capture_t) : anchor_t * bool -> anchor_t * bool :=
  set_if (fun a => negb (bool_decide (leaf_fp a = cap_leaf_fp c))) (fun a => a <| leaf_fp := cap_leaf_fp c |>).
Definition take_ca (c : capture_t) : anchor_t * bool -> anchor_t * bool :=
  set_if (fun a => have_ca c && negb (bool_decide (ca_fp a = cap_ca_fp c))) (fun a => a <| ca_fp := cap_ca_fp c |>).
Definition take_san (c : capture_t) : anchor_t * bool -> anchor_t * bool :=
  set_if (fun a => negb (bool_decide (cap_san c = [])) && negb (byte0 (cap_san c) =? SAN_TRUNC_MARK) && negb (streq (san a) (cap_san c)))
    (fun a => a <| san := snprintf_s ESPOS_SK_TLS_SAN_MAX (cap_san c) |>).
Definition take_cn (c : capture_t) : anchor_t * bool -> anchor_t * bool :=
  set_if (fun a => negb (streq (cn a) (cap_cn c))) (fun a => a <| cn := snprintf_s ESPOS_SK_TLS_CN_MAX (cap_cn c) |>).
Definition take_self (self : option cstr) : anchor_t * bool -> anchor_t * bool :=
  match self with
  | Some v => set_if (fun a => negb (streq (server_self a) v)) (fun a => a <| server_self := snprintf_s ESPOS_SK_SELF_MAX v |>)
  | None => id
  end.
Definition commit_anchor (c : capture_t) (self : option cstr) (now : Z) (a : anchor_t) : anchor_t * bool :=
  take_self self (take_cn c (take_san c (take_ca c (take_leaf c (take_kind c now (a, false)))))).

Definition espos_sk_tls_commit (self : option cstr) : M unit :=
  ensure_init;;
  ok ← gets (fun s => valid_ (cap s));
  if negb ok then mret tt else
  none ← gets (fun s => bool_decide (kind (anchor s) = ESPOS_SK_TLS_ANCHOR_NONE));
  now ← (if none : bool then pinned_now_unix else mret 0);
  '(a, changed) ← gets (fun s => commit_anchor (cap s) self now (anchor s));
  mods (fun s => s <| cap := capture_zero |>);;
  if negb changed then
    pend ← gets store_pending;
    if pend : bool then persist_anchor else mret tt
  else
    mods (fun s => s <| anchor := a |>);;
    persist_anchor;;
    espos_sk_tls_publish.

Definition espos_sk_tls_reset : M esp_err_t :=
  ensure_init;;
  mods (fun s => s <| anchor := anchor_zero |> <| cap := capture_zero |> <| store_pending := false |> <| last_error := [] |>);;
  anchor_erase;;
  espos_sk_tls_publish;;
  mret ESP_OK.

Definition espos_sk_tls_last_error : M cstr := gets last_error.

Definition espos_sk_tls_handshake_begin : M esp_err_t :=
  ensure_init;;
  slot ← gets t_handshake;
  match slot with
  | None => mret ESP_ERR_NO_MEM
  | Some true => mret ESP_ERR_TIMEOUT
  | Some false =>
      mods (fun s => s <| t_handshake := Some true |>);;
      largest ← query port_largest_block;
      if largest <? CONFIG_ESPOS_SK_TLS_MIN_FREE_BLOCK_KB * 1024 then
        emit (TMemory true);;
        mods (fun s => s <| t_handshake := Some false |>);;
        mret ESP_ERR_NO_MEM
      else
        emit (TMemory false);;
        mods (fun s => s <| last_error := [] |>);;
        espos_sk_tls_discard;;
        mret ESP_OK
  end.

Definition espos_sk_tls_handshake_end : M unit := mods (fun s => s <| t_handshake ::= fmap (fun _ => false) |>).

(** A chain, as mbedTLS presents it: the certificates above the leaf from the top
    down, each with its flags. It stops when the callback fails; else the flags
    left are those of all certificates together, and the chain is accepted if the
    result and the flags are 0. *)
Fixpoint verify_above (l : list (mbedtls_x509_crt * Z)) : M (Z * Z) :=
  match l with
  | [] => mret (0, 0)
  | (c, fl) :: l' =>
      '(rc, fl) ← verify_cb c (length l) fl;
      if rc =? 0 then '(rc, fls) ← verify_above l'; mret (rc, Z.lor fl fls) else mret (rc, fl)
  end.
Definition verify_chain (l : list (mbedtls_x509_crt * Z)) (leaf : mbedtls_x509_crt) (fl : Z) : M (Z * Z) :=
  '(rc, fls) ← verify_above l;
  if rc =? 0 then '(rc, fl) ← verify_cb leaf 0 fl; mret (rc, Z.lor fl fls) else mret (rc, fls).
End Trust.
