(* ===== verification/SkTlsProps.v ===== *)
(** Correctness of the trust store ([SkTls]): what a handshake accepts, how the pin
    can change, and that it survives a reboot; and the runs in which the store does
    not keep what its documentation says. *)
From Stdlib Require Import ZArith Lia String.
From stdpp Require Import base list numbers gmap.
From S2P Require Import Prelude ConfigDesc SkNvs SkTlsPolicy SkTls.
Open Scope Z_scope.

(** * What is pinned *)

Inductive pin := PinNone | PinLeaf (fp : list Z) | PinCa (fp : list Z) (san : cstr).

#[export] Instance pin_eq_dec : EqDecision pin.
Proof. solve_decision. Defined.

Definition pin_of (a : anchor_t) : pin :=
  match kind a with
  | ESPOS_SK_TLS_ANCHOR_NONE => PinNone
  | ESPOS_SK_TLS_ANCHOR_LEAF => PinLeaf (leaf_fp a)
  | ESPOS_SK_TLS_ANCHOR_CA => PinCa (ca_fp a) (san a)
  end.

Lemma pin_none a : pin_of a = PinNone <-> kind a = ESPOS_SK_TLS_ANCHOR_NONE.
Proof. unfold pin_of. by destruct (kind a). Qed.

(** A whole, non-empty set of names. *)
Definition whole_san (t : cstr) : Prop := t <> [] /\ byte0 t <> SAN_TRUNC_MARK.

Section Props.
Context (md : list Z -> option (list Z)).
#[local] Abbreviation fingerprint := (crt_fingerprint md).

(** The topmost CA of a chain. *)
Definition top_ca (l : list mbedtls_x509_crt) : option mbedtls_x509_crt := List.find ca_istrue l.

Definition san_of (c : mbedtls_x509_crt) : cstr := (crt_san_set c ESPOS_SK_TLS_SAN_MAX).1.

(** The fingerprint of the CA that a chain is judged by: the one the capture slot
    holds already, else the topmost CA of the chain. *)
Definition judged_ca (c : capture_t) (above : list mbedtls_x509_crt) : option (list Z) :=
  if have_ca c then Some (cap_ca_fp c) else option_map fingerprint (top_ca above).

(** The rule: on first use anything; with a pinned certificate that one; with a
    pinned CA that CA and a leaf for the same names. *)
Definition trusts (p : pin) (ca : option (list Z)) (leaf : mbedtls_x509_crt) : Prop :=
  match p with
  | PinNone => True
  | PinLeaf fp => fingerprint leaf = fp
  | PinCa fp names => ca = Some fp /\ whole_san (san_of leaf) /\ san_of leaf = names
  end.

Context {W : Type} `{!HasNvs W} `{!TlsPort W}.
#[local] Abbreviation M := (act tls W tls_ev).
#[local] Abbreviation verify_cb := (verify_cb md).
#[local] Abbreviation verify_chain := (verify_chain md).

Lemma san_cut_mark c size : (1 < size)%nat -> (crt_san_set c size).2 = true -> byte0 (crt_san_set c size).1 = SAN_TRUNC_MARK.
Proof.
  intros Hs. unfold crt_san_set. destruct (san_collect _ _) as [names ov], (espos_sk_tls_san_normalise _ _) as [[e out] cut].
  destruct (negb (is_ok e) || cut || ov); [|done]. intros _. by rewrite (proj2 (Nat.ltb_lt _ _) Hs).
Qed.

Lemma san_equal_spec a b : espos_sk_tls_san_equal a b = true <-> whole_san a /\ a = b.
Proof.
  unfold espos_sk_tls_san_equal, whole_san. destruct (bool_decide_reflect (a = [])) as [->|Ha]; cbn [orb]; [naive_solver|].
  destruct (bool_decide_reflect (b = [])) as [->|Hb]; cbn [orb]; [naive_solver|].
  destruct (Z.eqb_spec (byte0 a) SAN_TRUNC_MARK) as [E|E]; cbn [orb]; [naive_solver|].
  destruct (Z.eqb_spec (byte0 b) SAN_TRUNC_MARK) as [E'|E']; [naive_solver congruence|].
  unfold streq. rewrite bool_decide_eq_true. naive_solver.
Qed.

(** The decision, in terms of the pin and the capture. *)
Definition cap_fits (p : pin) (c : capture_t) : Prop :=
  match p with
  | PinNone => True
  | PinLeaf fp => cap_leaf_fp c = fp
  | PinCa fp names => have_ca c = true /\ cap_ca_fp c = fp /\ whole_san (cap_san c) /\ cap_san c = names
  end.

#[local] Instance cap_fits_dec p c : Decision (cap_fits p c).
Proof. destruct p; unfold cap_fits, whole_san; apply _. Defined.

Lemma decide_spec a c cut : (cut = true -> byte0 (cap_san c) = SAN_TRUNC_MARK) ->
  let d := espos_sk_tls_decide (Some (facts_of a c cut)) in
  (verdict d = ESPOS_SK_TLS_REJECT <-> ~ cap_fits (pin_of a) c) /\
  (verdict d = ESPOS_SK_TLS_CAPTURE <-> kind a = ESPOS_SK_TLS_ANCHOR_NONE) /\
  (verdict d = ESPOS_SK_TLS_CAPTURE ->
     capture_as d = ESPOS_SK_TLS_ANCHOR_LEAF \/ capture_as d = ESPOS_SK_TLS_ANCHOR_CA /\ have_ca c = true /\ cap_san c <> [] /\ cut = false).
Proof.
  intros Hcut. unfold espos_sk_tls_decide, facts_of, pin_of, cap_fits. cbn [has_anchor anchor_is_leaf leaf_matches ca_present ca_matches leaf_has_san san_matches].
  destruct (kind a) eqn:Ek; cbn [negb].
  - rewrite bool_decide_false by naive_solver. cbn [negb verdict capture_as]. split; [split; [done|naive_solver]|]. split; [done|]. intros _.
    destruct (have_ca c) eqn:Eh; [|by left]. destruct (bool_decide_reflect (cap_san c = [])); [by left|]. destruct cut; [by left|]. right. naive_solver.
  - rewrite (bool_decide_true (ESPOS_SK_TLS_ANCHOR_CA <> ESPOS_SK_TLS_ANCHOR_NONE)), (bool_decide_false (ESPOS_SK_TLS_ANCHOR_CA = ESPOS_SK_TLS_ANCHOR_LEAF)) by done. cbn [negb].
    split; [|split; [split; [|done]|]; destruct (have_ca c); cbn; repeat case_match; done].
    destruct (have_ca c) eqn:Eh; cbn; [|naive_solver]. destruct (bool_decide_reflect (cap_ca_fp c = ca_fp a)) as [E|E]; cbn; [|naive_solver].
    destruct (bool_decide_reflect (cap_san c = [])) as [Es|Es]; cbn; [split; [|done]; intros _ (_ & _ & [? _] & _); done|].
    destruct cut; cbn; [split; [|done]; intros _ (_ & _ & [_ Hm] & _); by apply Hm, Hcut|].
    destruct (espos_sk_tls_san_equal (cap_san c) (san a)) eqn:Eq; cbn.
    + apply san_equal_spec in Eq. naive_solver.
    + split; [|done]. intros _ (_ & _ & Hw & Hs). rewrite (proj2 (san_equal_spec _ _)) in Eq; done.
  - rewrite (bool_decide_true (ESPOS_SK_TLS_ANCHOR_LEAF <> ESPOS_SK_TLS_ANCHOR_NONE)), (bool_decide_true (ESPOS_SK_TLS_ANCHOR_LEAF = ESPOS_SK_TLS_ANCHOR_LEAF)) by done. cbn [negb]. destruct (bool_decide_reflect (cap_leaf_fp c = leaf_fp a)); cbn; naive_solver.
Qed.

(** * One handshake *)

(** What the callback leaves alone. *)
Record kept (s s' : tls) : Prop := {
  kept_anchor : anchor s' = anchor s; kept_loaded : loaded s' = loaded s; kept_pending : store_pending s' = store_pending s;
  kept_flash : t_flash s' = t_flash s; kept_slot : t_handshake s' = t_handshake s; kept_pem : ca_pem s' = ca_pem s }.

(** The capture when the leaf has been seen. *)
Definition leaf_cap (c : mbedtls_x509_crt) (p : capture_t) : capture_t :=
  p <| cap_leaf_fp := fingerprint c |> <| cap_cn := crt_cn c |> <| cap_san := san_of c |>.

(** A valid capture: it fits the pin it was judged by, or would be a pin of its own. *)
Definition sound_cap (p : pin) (c : capture_t) : Prop :=
  cap_fits p c /\
  (p = PinNone ->
     cap_as c = ESPOS_SK_TLS_ANCHOR_LEAF \/ cap_as c = ESPOS_SK_TLS_ANCHOR_CA /\ have_ca c = true /\ cap_san c <> []).

(** What of the leaf is in the capture. *)
Definition looked (c : mbedtls_x509_crt) (p p' : capture_t) : Prop :=
  cap_leaf_fp p' = fingerprint c /\ cap_cn p' = crt_cn c /\ cap_san p' = san_of c /\ cap_ca_fp p' = cap_ca_fp p /\ have_ca p' = have_ca p.

Lemma verify_leaf c fl (s : mach tls W tls_ev) : let a := anchor (m_sm s) in let p := leaf_cap c (cap (m_sm s)) in
  exists sm', (verify_cb c 0 fl s).2 = Mach sm' (m_world s) (m_trace s) /\ kept (m_sm s) sm' /\ looked c (cap (m_sm s)) (cap sm') /\
    ((cap_fits (pin_of a) p /\ (verify_cb c 0 fl s).1 = (0, 0) /\ valid_ (cap sm') = true /\ sound_cap (pin_of a) (cap sm')) \/
     (~ cap_fits (pin_of a) p /\ (verify_cb c 0 fl s).1 = (MBEDTLS_ERR_X509_CERT_VERIFY_FAILED, fl) /\ valid_ (cap sm') = false)).
Proof.
  intros a p. unfold SkTls.verify_cb. cbn [Nat.ltb Nat.leb]. destruct (crt_san_set c ESPOS_SK_TLS_SAN_MAX) as [t cut] eqn:Et.
  assert (Ep : ((cap (m_sm s)) <| cap_leaf_fp := fingerprint c |> <| cap_cn := crt_cn c |> <| cap_san := t |>) = p).
  { unfold p, leaf_cap, san_of. by rewrite Et. }
  assert (Hcut : cut = true -> byte0 (cap_san p) = SAN_TRUNC_MARK).
  { intros ->. rewrite <- Ep. cbn. change t with (t, true).1. rewrite <- Et. apply san_cut_mark; [unfold ESPOS_SK_TLS_SAN_MAX; lia|by rewrite Et]. }
  destruct (decide_spec a p cut Hcut) as (Hrej & Hcap & Has). unfold mbind, act_bind, mods, gets, mret, act_ret. cbn [m_sm m_world m_trace].
  change (anchor ((m_sm s) <| cap ::= _ |>)) with a. change (cap ((m_sm s) <| cap ::= _ |>)) with ((cap (m_sm s)) <| cap_leaf_fp := fingerprint c |> <| cap_cn := crt_cn c |> <| cap_san := t |>).
  assert (Es : san_of c = t) by (unfold san_of; by rewrite Et).
  rewrite Ep. case_bool_decide as Hv; eexists; (split; [reflexivity|]); (split; [by destruct s as [[] ? ?]|]); (split; [by split_and!|]).
  - right. split; [by apply Hrej|]. by split.
  - left. assert (Hfits : cap_fits (pin_of a) p).
    { destruct (decide (cap_fits (pin_of a) p)) as [|Hn]; [done|]. by apply Hrej in Hn. }
    split; [done|]. split; [done|]. split; [by destruct s as [[] ? ?]|].
    set (d := espos_sk_tls_decide _) in *. split; [rewrite <- Ep in Hfits; destruct (pin_of a); exact Hfits|].
    intros Hk%pin_none. pose proof (proj2 Hcap Hk) as Hd. cbn. rewrite bool_decide_true by done. destruct (Has Hd) as [H|(H1 & H2 & H3 & H4)]; [by left|].
    right. rewrite <- Ep in H2, H3. by split.
Qed.

(** A certificate above the leaf: the topmost CA is noted, and its flags are dropped. *)
Definition note_ca (c : mbedtls_x509_crt) (p : capture_t) : capture_t :=
  if ca_istrue c && negb (have_ca p) then p <| cap_ca_fp := fingerprint c |> <| have_ca := true |> else p.

Lemma verify_upper c depth fl (s : mach tls W tls_ev) :
  verify_cb c (S depth) fl s = ((0, 0), Mach ((m_sm s) <| cap ::= note_ca c |>) (m_world s) (m_trace s)).
Proof.
  unfold SkTls.verify_cb, note_ca, mbind, act_bind, gets, mods, mret, act_ret. cbn [Nat.ltb Nat.leb].
  destruct s as [sm w tr]. cbn [m_sm m_world m_trace]. destruct (ca_istrue c), (have_ca (cap sm)) eqn:E; destruct sm; cbn in *; by rewrite ?E.
Qed.

Lemma verify_above_spec l (s : mach tls W tls_ev) :
  verify_above md l s = ((0, 0), Mach ((m_sm s) <| cap ::= fun p => foldl (flip note_ca) p (map fst l) |>) (m_world s) (m_trace s)).
Proof.
  revert s. induction l as [|[c fl] l IH]; intros s; cbn [verify_above]; [by destruct s as [[] ? ?]|].
  unfold mbind, act_bind. cbn [length]. rewrite verify_upper, Z.eqb_refl, IH. by destruct s as [[] ? ?].
Qed.

(** From an empty slot, the CA noted is the topmost one. *)
Lemma note_cas l p : let p' := foldl (flip note_ca) p l in
  if have_ca p then p' = p else
  match top_ca l with Some c => p' = p <| cap_ca_fp := fingerprint c |> <| have_ca := true |> | None => p' = p end.
Proof.
  revert p. induction l as [|c l IH]; intros p; cbn [foldl top_ca List.find flip]; [by destruct (have_ca p)|].
  specialize (IH (note_ca c p)). unfold note_ca in *. cbv zeta in *. destruct (have_ca p) eqn:Eh.
  - rewrite andb_false_r in *. rewrite Eh in IH. exact IH.
  - rewrite andb_true_r in *. fold (top_ca l). destruct (ca_istrue c); [exact IH|]. rewrite Eh in IH. exact IH.
Qed.

(** A handshake follows the rule. *)
Lemma verify_exact l leaf fl (s : mach tls W tls_ev) : let r := (verify_chain l leaf fl s).1 in
  (r = (0, 0) <-> trusts (pin_of (anchor (m_sm s))) (judged_ca (cap (m_sm s)) (map fst l)) leaf) /\
  (r <> (0, 0) -> r.1 = MBEDTLS_ERR_X509_CERT_VERIFY_FAILED).
Proof.
  intros r. subst r. unfold SkTls.verify_chain, mbind, act_bind. rewrite verify_above_spec, Z.eqb_refl.
  set (s1 := Mach _ _ _). destruct (verify_leaf leaf fl s1) as (sm' & E2 & _ & _ & H). destruct (verify_cb leaf 0 fl s1) as [r s2]. cbn [fst snd] in *.
  assert (Hfits : cap_fits (pin_of (anchor (m_sm s1))) (leaf_cap leaf (cap (m_sm s1))) <-> trusts (pin_of (anchor (m_sm s))) (judged_ca (cap (m_sm s)) (map fst l)) leaf).
  { subst s1. cbn. pose proof (note_cas (map fst l) (cap (m_sm s))) as Hn. cbv zeta in Hn.
    unfold cap_fits, trusts, judged_ca. destruct (pin_of (anchor (m_sm s))) as [|fp|fp names]; [done|done|].
    destruct (have_ca (cap (m_sm s))) eqn:Eh; [rewrite Hn; cbn; rewrite Eh; naive_solver|].
    destruct (top_ca (map fst l)) as [c|]; rewrite Hn; cbn; rewrite ?Eh; naive_solver. }
  destruct H as [(H & -> & _)|(H & -> & _)]; cbn.
  - split; [|done]. split; [intros _; by apply Hfits|done].
  - split; [|done]. split; [done|]. intros Ht. by apply Hfits in Ht.
Qed.

(** * The store over time *)

Context (crt_parse : cstr -> option mbedtls_x509_crt).

Inductive tls_step :=
  | SVerify (c : mbedtls_x509_crt) (depth : nat) (flags : Z) | SCommit (self : option cstr) | SDiscard | SBegin | SEnd | SReset
  | STrust (t : espos_sk_tls_trust_t) (pem : option cstr) | SAttach | SPublish.

Definition run_step (st : tls_step) : M unit :=
  match st with
  | SVerify c depth flags => verify_cb c depth flags;; mret tt
  | SCommit self => espos_sk_tls_commit self
  | SDiscard => espos_sk_tls_discard
  | SBegin => espos_sk_tls_handshake_begin;; mret tt
  | SEnd => espos_sk_tls_handshake_end
  | SReset => espos_sk_tls_reset;; mret tt
  | STrust t pem => espos_sk_tls_set_trust md crt_parse t pem
  | SAttach => espos_sk_tls_attach;; mret tt
  | SPublish => espos_sk_tls_publish
  end.

(** ** What the operations leave alone *)

Record quiet (s s' : tls) : Prop := {
  q_anchor : anchor s' = anchor s; q_loaded : loaded s' = loaded s; q_pending : store_pending s' = store_pending s;
  q_flash : t_flash s' = t_flash s; q_cap : cap s' = cap s; q_pem : ca_pem s' = ca_pem s }.

Lemma tls_quiet_refl s : quiet s s.
Proof. done. Qed.

Lemma tls_quiet_trans s s' s'' : quiet s s' -> quiet s' s'' -> quiet s s''.
Proof. intros [] []. split; congruence. Qed.

Lemma wp_ensure_init Q s : loaded (m_sm s) = true -> (forall sm' w', quiet (m_sm s) sm' -> Q tt (Mach sm' w' (m_trace s))) -> wp (W := W) ensure_init Q s.
Proof.
  intros Hl HQ. unfold ensure_init. apply wp_bind, wp_gets, wp_bind. destruct (t_lock (m_sm s)); cbn [negb].
  - apply wp_ret, wp_bind, wp_gets. rewrite Hl. apply wp_ret. destruct s. by apply HQ.
  - apply wp_bind, wp_query. intros l w1. apply wp_bind, wp_query. intros h w2. apply wp_mods, wp_bind, wp_gets. cbn [m_sm].
    match goal with |- context [negb (loaded ?x)] => replace (loaded x) with true by (symmetry; exact Hl) end. apply wp_ret, HQ. by destruct s as [[] ? ?].
Qed.

(** ** Writing the anchor *)

Definition holds (f : flash) (l : list (cstr * item)) : Prop := Forall (fun ki => f !! ki.1 = Some ki.2) l.

Lemma wp_nvs_set key i Q s : (forall e f w' tr, (e = ESP_OK -> f = <[key := i]> (t_flash (m_sm s))) -> (f = t_flash (m_sm s) \/ f = <[key := i]> (t_flash (m_sm s))) ->
    Q e (Mach ((m_sm s) <| t_flash := f |>) w' tr)) -> wp (W := W) (nvs_set key i) Q s.
Proof.
  intros HQ. unfold nvs_set. apply wp_bind, wp_query. intros [ok dn] w'. apply wp_bind. destruct (ok || dn) eqn:E.
  - unfold nv_touch. apply wp_bind, wp_mods, wp_bind, wp_gets, wp_emit, wp_ret. cbn [m_sm m_world m_trace].
    assert (forall e, Q e (Mach ((m_sm s) <| t_flash := <[key := i]> (t_flash (m_sm s)) |>) w' (fl_moment (fl (set_fl (insert key i) (m_sm s))) :: m_trace s))) as H.
    { intros e. apply HQ; [done|by right]. }
    destruct ok; apply H.
  - destruct ok; [done|]. apply wp_ret. assert (E' : m_sm s = (m_sm s) <| t_flash := t_flash (m_sm s) |>) by (by destruct s as [[] ? ?]). rewrite E'. apply HQ; [done|by left].
Qed.

Lemma wp_store_items l err Q s : NoDup (map fst l) ->
  (forall e f w' tr, (e = ESP_OK -> err = ESP_OK /\ holds f l) -> (forall k, k ∉ map fst l -> f !! k = t_flash (m_sm s) !! k) ->
     Q e (Mach ((m_sm s) <| t_flash := f |>) w' tr)) -> wp (W := W) (store_items l err) Q s.
Proof.
  revert err s. induction l as [|[key i] l IH]; intros err s Hnd HQ; cbn [store_items].
  { apply wp_ret. assert (E : m_sm s = (m_sm s) <| t_flash := t_flash (m_sm s) |>) by (by destruct s as [[] ? ?]).
    destruct s as [sm w tr]. cbn [m_sm] in *. rewrite E. apply HQ; [intros ->; split; [done|constructor]|done]. }
  cbn [map fst] in Hnd. apply NoDup_cons in Hnd as [Hk Hnd]. apply wp_bind, wp_nvs_set. intros e f w' tr Hok Hany. apply IH; [done|].
  intros e' f' w'' tr' Hok' Hoff. cbn [m_sm]. change ((m_sm s) <| t_flash := f |> <| t_flash := f' |>) with ((m_sm s) <| t_flash := f' |>). apply HQ.
  - intros ->. destruct (Hok' eq_refl) as [He Hl]. destruct (bool_decide_reflect (e = ESP_OK)) as [->|Hne]; [|unfold is_ok in He; by rewrite bool_decide_false in He].
    split; [done|]. constructor; [|done]. cbn. rewrite Hoff by done. rewrite (Hok eq_refl). apply lookup_insert_eq.
  - intros k Hnk. apply not_elem_of_cons in Hnk as [Hne Hnk]. rewrite (Hoff k Hnk). cbn. destruct Hany as [-> | ->]; [done|]. by apply lookup_insert_ne.
Qed.

Lemma anchor_keys a : NoDup (map fst (anchor_items a)).
Proof. apply (bool_decide_unpack (NoDup (map fst (anchor_items anchor_zero)))). vm_compute. done. Qed.

Lemma wp_anchor_store a Q s :
  (forall e f w' tr, (e = ESP_OK -> holds f (anchor_items a)) -> Q e (Mach ((m_sm s) <| t_flash := f |>) w' tr)) -> wp (W := W) (anchor_store a) Q s.
Proof.
  intros HQ. unfold anchor_store, nvs_open, nvs_commit. apply wp_bind, wp_bind, wp_query. intros [ok dn] w'. apply wp_ret. destruct ok; cbn [negb].
  - apply wp_bind, wp_store_items; [apply anchor_keys|]. intros e f w2 tr Hok _. cbn [m_sm]. apply wp_bind, wp_bind, wp_query. intros [ok dn'] w3. apply wp_ret, wp_ret.
    apply HQ. intros He. apply Hok. destruct ok; [|done]. done.
  - apply wp_ret. assert (E : m_sm s = (m_sm s) <| t_flash := t_flash (m_sm s) |>) by (by destruct s as [[] ? ?]). cbn [m_sm]. rewrite E. by apply HQ.
Qed.

(** ** Reading it back *)

(** The anchor the items stand for. *)
Definition load_of (f : flash) : anchor_t :=
  let '(ok1, leaf) := load_fp (str_in f (lit "tls_fp") 65) in
  let '(ok2, ca) := load_fp (str_in f (lit "tls_ca") 65) in
  Anchor (kind_of (if ok1 && ok2 then num_in f is_u8 (lit "tls_kind") else 0)) leaf ca (str_in f (lit "tls_san") ESPOS_SK_TLS_SAN_MAX)
    (str_in f (lit "tls_cn") ESPOS_SK_TLS_CN_MAX) (str_in f (lit "tls_self") ESPOS_SK_SELF_MAX) (num_in f is_i64 (lit "tls_at")).

Lemma wp_anchor_load Q s : reads ->
  (forall w', Q tt (Mach ((m_sm s) <| anchor := load_of (t_flash (m_sm s)) |> <| loaded := true |>) w' (m_trace s))) -> wp (W := W) anchor_load Q s.
Proof.
  intros Hr HQ. unfold anchor_load. apply wp_bind, wp_mods, wp_bind. cbn [m_sm].
  set (sm0 := (m_sm s) <| anchor := anchor_zero |>). assert (Hf : t_flash sm0 = t_flash (m_sm s)) by done.
  apply wp_nv_open; [done|]. intros w'. cbn [negb m_sm m_trace].
  apply wp_bind, wp_nv_get_num; [done|]. cbn [m_sm m_trace fl tls_flash]. intros w1 e k Hk _. rewrite Hf in Hk. rewrite Hk.
  apply wp_bind, wp_nv_get_str; [done|]. cbn [m_sm m_trace fl tls_flash]. intros w2. rewrite Hf. unfold load_of in HQ. destruct (load_fp (str_in _ (lit "tls_fp") 65)) as [ok1 leaf].
  apply wp_bind, wp_nv_get_str; [done|]. cbn [m_sm m_trace fl tls_flash]. intros w3. rewrite Hf. destruct (load_fp (str_in _ (lit "tls_ca") 65)) as [ok2 ca].
  do 3 (apply wp_bind, wp_nv_get_str; [done|]; cbn [m_sm m_trace fl tls_flash]; intros ?w; rewrite Hf).
  apply wp_bind, wp_nv_get_num; [done|]. cbn [m_sm m_trace fl tls_flash]. intros w7 e' v Hv _. rewrite Hf in Hv. apply wp_mods. cbn [m_sm m_world m_trace]. rewrite Hv. apply HQ.
Qed.

(** ** Well-formed records *)

Definition fp_ok (fp : list Z) : Prop := length fp = ESPOS_SK_TLS_FP_LEN /\ wf_bytes fp.
Record wf_anchor (a : anchor_t) : Prop := {
  wf_leaf : fp_ok (leaf_fp a); wf_ca : fp_ok (ca_fp a); wf_san : (length (san a) < ESPOS_SK_TLS_SAN_MAX)%nat;
  wf_cn : (length (cn a) < ESPOS_SK_TLS_CN_MAX)%nat; wf_self : (length (server_self a) < ESPOS_SK_SELF_MAX)%nat }.
Record wf_cap (c : capture_t) : Prop := {
  wc_leaf : fp_ok (cap_leaf_fp c); wc_ca : fp_ok (cap_ca_fp c); wc_san : (length (cap_san c) < ESPOS_SK_TLS_SAN_MAX)%nat;
  wc_cn : (length (cap_cn c) < ESPOS_SK_TLS_CN_MAX)%nat }.

Lemma fp_zero_ok : fp_ok fp_zero.
Proof. split; [done|]. apply Forall_replicate. lia. Qed.

Lemma unhex_hex_char n : 0 <= n < 16 -> unhex_char (hex_char n) = Some n.
Proof.
  intros Hn. assert (H : forall k, (k < 16)%nat -> unhex_char (hex_char (Z.of_nat k)) = Some (Z.of_nat k)).
  { intros k Hk. do 16 (destruct k as [|k]; [reflexivity|]). lia. }
  rewrite <- (Z2Nat.id n) by lia. apply H. lia.
Qed.

Lemma unhex_hex b : wf_bytes b -> unhex (length b) (hex b) = (true, b).
Proof.
  induction 1 as [|c b Hc Hb IH]; [done|]. cbn [length]. change (hex (c :: b)) with ([hex_char (Z.shiftr c 4); hex_char (Z.land c 15)] ++ hex b). cbn [app unhex].
  change 15 with (Z.ones 4). rewrite Z.land_ones, Z.shiftr_div_pow2 by lia. rewrite !unhex_hex_char, IH by div_lia. f_equal. f_equal.
  assert (E : Z.lor (Z.shiftl (c / 2 ^ 4) 4) (c mod 2 ^ 4) = c).
  { rewrite <- Z.land_ones, <- Z.shiftr_div_pow2 by lia. apply Z.bits_inj'. intros i Hi. rewrite Z.lor_spec, Z.shiftl_spec, Z.land_spec by lia.
    destruct (Z.ltb_spec i 4).
    - rewrite Z.ones_spec_low, andb_true_r by lia. rewrite Z.testbit_neg_r by lia. done.
    - rewrite Z.ones_spec_high, andb_false_r, orb_false_r by lia. rewrite Z.shiftr_spec by lia. f_equal. lia. }
  rewrite E. unfold u8. apply Z.mod_small. lia.
Qed.

Lemma hex_length b : length (hex b) = (2 * length b)%nat.
Proof. induction b as [|c b IH]; [done|]. change (hex (c :: b)) with ([hex_char (Z.shiftr c 4); hex_char (Z.land c 15)] ++ hex b). rewrite length_app, IH. cbn [length]. lia. Qed.

Lemma load_fp_hex fp : fp_ok fp -> load_fp (hex fp) = (true, fp).
Proof.
  intros [Hl Hw]. unfold load_fp. rewrite bool_decide_false.
  - rewrite <- Hl at 1. rewrite unhex_hex by done. f_equal. rewrite drop_ge by (unfold fp_zero; rewrite length_replicate; lia). by rewrite app_nil_r.
  - intros E. apply (f_equal length) in E. rewrite hex_length, Hl in E. done.
Qed.

Lemma kind_round k : kind_of (kind_num k) = k.
Proof. by destruct k. Qed.

Lemma load_stored f a : wf_anchor a -> holds f (anchor_items a) -> load_of f = a.
Proof.
  intros [H1 H2 H3 H4 H5] H. unfold holds, anchor_items in H. rewrite !Forall_cons in H. cbn [fst snd] in H. destruct H as (K1 & K2 & K3 & K4 & K5 & K6 & K7 & _).
  unfold load_of, str_in, num_in. rewrite K1, K2, K3, K4, K5, K6, K7. rewrite !hex_length, (proj1 H1), (proj1 H2).
  change (65 <? 2 * ESPOS_SK_TLS_FP_LEN + 1)%nat with false. cbn iota. rewrite !load_fp_hex by done. cbn [andb].
  change (default 0 (Some (IU8 (kind_num (kind a))) ≫= is_u8)) with (kind_num (kind a)). rewrite kind_round. rewrite !(proj2 (Nat.ltb_ge _ _)) by lia. by destruct a.
Qed.

(** The digest has 32 bytes. *)
Context (md_ok : forall d h, md d = Some h -> fp_ok h).

Lemma fingerprint_ok c : fp_ok (fingerprint c).
Proof. unfold crt_fingerprint. destruct (md (raw c)) as [h|] eqn:E; [by eapply md_ok|]. split; [done|]. apply Forall_replicate. lia. Qed.

Lemma san_passes_len pass l size prev out : (length out < size)%nat -> (length (san_passes pass l size prev out).1.2 < size)%nat.
Proof.
  revert prev out. induction pass as [|pass IH]; intros prev out Ho; cbn [san_passes]; [done|]. destruct (select prev l) as [b|]; [|done].
  destruct (Nat.ltb_spec size (length out + (length b + (if bool_decide (out = []) then 0 else 1)) + 1)); [done|]. apply IH.
  rewrite !length_app, length_map. destruct (bool_decide (out = [])); cbn [length] in *; lia.
Qed.

Lemma san_of_len c : (length (san_of c) < ESPOS_SK_TLS_SAN_MAX)%nat.
Proof.
  unfold san_of, crt_san_set. destruct (san_collect _ _) as [names ov]. pose proof (san_passes_len (length names) names ESPOS_SK_TLS_SAN_MAX None [] ltac:(unfold ESPOS_SK_TLS_SAN_MAX; cbn; lia)) as H.
  unfold espos_sk_tls_san_normalise. change (ESPOS_SK_TLS_SAN_MAX =? 0)%nat with false. cbn iota.
  destruct (san_passes _ _ _ _ _) as [[e out] cut]. cbn [fst snd] in H. destruct (negb (is_ok e) || cut || ov); [|done].
  change (1 <? ESPOS_SK_TLS_SAN_MAX)%nat with true. cbn [fst length]. rewrite length_take. unfold ESPOS_SK_TLS_SAN_MAX. lia.
Qed.

Lemma c_string_len b : (length (c_string b) <= length b)%nat.
Proof. induction b as [|c b IH]; cbn; [done|]. destruct (c =? 0); cbn; lia. Qed.

Lemma crt_cn_len c : (length (crt_cn c) < ESPOS_SK_TLS_CN_MAX)%nat.
Proof.
  unfold crt_cn. induction (subject c) as [|[[] v] l IH]; cbn [first_cn]; [cbn; unfold ESPOS_SK_TLS_CN_MAX; lia| |done].
  pose proof (c_string_len (take (ESPOS_SK_TLS_CN_MAX - 1) v)) as H. rewrite length_take in H. unfold ESPOS_SK_TLS_CN_MAX in *. lia.
Qed.

Lemma capture_zero_wf : wf_cap capture_zero.
Proof. split; [apply fp_zero_ok|apply fp_zero_ok|cbn; unfold ESPOS_SK_TLS_SAN_MAX; lia|cbn; unfold ESPOS_SK_TLS_CN_MAX; lia]. Qed.

Lemma looked_wf c p p' : wf_cap p -> looked c p p' -> wf_cap p'.
Proof. intros [H1 H2 H3 H4] (E1 & E2 & E3 & E4 & E5). split; [rewrite E1; apply fingerprint_ok|by rewrite E4|rewrite E3; apply san_of_len|rewrite E2; apply crt_cn_len]. Qed.

Lemma tls_snprintf_fits n v : (length v < n)%nat -> snprintf_s n v = v.
Proof. intros H. unfold snprintf_s. apply take_ge. lia. Qed.

Lemma snprintf_len n v : (0 < n)%nat -> (length (snprintf_s n v) < n)%nat.
Proof. intros H. unfold snprintf_s. rewrite length_take. lia. Qed.

(** What a commit makes of the anchor. *)
Record committed (c : capture_t) (a a' : anchor_t) : Prop := {
  co_kind : kind a' = if bool_decide (kind a = ESPOS_SK_TLS_ANCHOR_NONE) then cap_as c else kind a;
  co_leaf : leaf_fp a' = cap_leaf_fp c;
  co_ca : ca_fp a' = if have_ca c then cap_ca_fp c else ca_fp a;
  co_san : san a' = if negb (bool_decide (cap_san c = [])) && negb (byte0 (cap_san c) =? SAN_TRUNC_MARK) then cap_san c else san a }.

Lemma set_if_keep {A} (x : anchor_t -> A) t f p : (forall a, x (f a) = x a) -> x (set_if t f p).1 = x p.1.
Proof. intros H. unfold set_if. destruct (t p.1); [apply H|done]. Qed.

Lemma set_if_wf t f p : wf_anchor p.1 -> wf_anchor (f p.1) -> wf_anchor (set_if t f p).1.
Proof. intros H1 H2. unfold set_if. by destruct (t p.1). Qed.

Lemma set_if_same t f p : (set_if t f p).2 = false -> set_if t f p = p.
Proof. unfold set_if. by destruct (t p.1). Qed.

Lemma take_kind_val c now p : kind (take_kind c now p).1 = if bool_decide (kind p.1 = ESPOS_SK_TLS_ANCHOR_NONE) then cap_as c else kind p.1.
Proof. unfold take_kind, set_if. by destruct (bool_decide (kind p.1 = ESPOS_SK_TLS_ANCHOR_NONE)). Qed.

Lemma take_leaf_val c p : leaf_fp (take_leaf c p).1 = cap_leaf_fp c.
Proof. unfold take_leaf, set_if. by destruct (bool_decide_reflect (leaf_fp p.1 = cap_leaf_fp c)). Qed.

Lemma take_ca_val c p : ca_fp (take_ca c p).1 = if have_ca c then cap_ca_fp c else ca_fp p.1.
Proof. unfold take_ca, set_if. destruct (have_ca c); [|done]. by destruct (bool_decide_reflect (ca_fp p.1 = cap_ca_fp c)). Qed.

Lemma take_san_val c p : wf_cap c ->
  san (take_san c p).1 = if negb (bool_decide (cap_san c = [])) && negb (byte0 (cap_san c) =? SAN_TRUNC_MARK) then cap_san c else san p.1.
Proof.
  intros Hc. unfold take_san, set_if. destruct (negb (bool_decide (cap_san c = [])) && negb (byte0 (cap_san c) =? SAN_TRUNC_MARK)); [|done]. unfold streq.
  destruct (bool_decide_reflect (san p.1 = cap_san c)); [done|]. apply (tls_snprintf_fits ESPOS_SK_TLS_SAN_MAX), Hc.
Qed.

Lemma commit_wf c self now a : wf_anchor a -> wf_cap c -> wf_anchor (commit_anchor c self now a).1.
Proof.
  intros Ha [V1 V2 V3 V4]. unfold commit_anchor.
  assert (Hstep : forall t f p, wf_anchor p.1 -> (forall b, wf_anchor b -> wf_anchor (f b)) -> wf_anchor (set_if t f p).1) by (intros t f p H1 H2; apply set_if_wf; auto).
  assert (Hself : forall p, wf_anchor p.1 -> wf_anchor (take_self self p).1).
  { intros p Hp. destruct self as [v|]; [|done]. apply Hstep; [done|]. intros b []. split; try done. apply snprintf_len. unfold ESPOS_SK_SELF_MAX. lia. }
  apply Hself. repeat (apply Hstep; [|intros b []; split; cbn [kind leaf_fp ca_fp san cn server_self update]; rewrite ?tls_snprintf_fits by done; done]). done.
Qed.

Lemma commit_same c self now a : (commit_anchor c self now a).2 = false -> (commit_anchor c self now a).1 = a.
Proof.
  unfold commit_anchor. set (p := take_cn c _). assert (Hself : (take_self self p).2 = false -> take_self self p = p).
  { destruct self; [apply set_if_same|done]. }
  intros H. rewrite (Hself H) in H |- *. subst p. unfold take_cn, take_san, take_ca, take_leaf, take_kind in *.
  do 5 (rewrite (set_if_same _ _ _ H) in H |- *). done.
Qed.

Lemma commit_spec c self now a : wf_cap c -> committed c a (commit_anchor c self now a).1.
Proof.
  intros Hc. unfold commit_anchor.
  assert (Hself : forall p, kind (take_self self p).1 = kind p.1 /\ leaf_fp (take_self self p).1 = leaf_fp p.1 /\ ca_fp (take_self self p).1 = ca_fp p.1 /\ san (take_self self p).1 = san p.1).
  { intros p. destruct self; [|done]. split_and!; by apply set_if_keep. }
  set (p5 := take_cn c _). destruct (Hself p5) as (E1 & E2 & E3 & E4). split; [rewrite E1|rewrite E2|rewrite E3|rewrite E4]; subst p5.
  - unfold take_cn, take_san, take_ca, take_leaf. rewrite !set_if_keep by done. apply take_kind_val.
  - unfold take_cn, take_san, take_ca. rewrite !set_if_keep by done. apply take_leaf_val.
  - unfold take_cn, take_san. rewrite !set_if_keep by done. rewrite take_ca_val. unfold take_leaf, take_kind. by rewrite !set_if_keep.
  - unfold take_cn. rewrite set_if_keep by done. rewrite take_san_val by done. unfold take_ca, take_leaf, take_kind. by rewrite !set_if_keep.
Qed.

(** A sound capture does not move the pin. *)
Lemma commit_pin c a a' : committed c a a' -> sound_cap (pin_of a) c -> kind a <> ESPOS_SK_TLS_ANCHOR_NONE -> pin_of a' = pin_of a.
Proof.
  intros [K L C S] [Hf _] Hk. unfold pin_of in *. rewrite K, bool_decide_false by done. destruct (kind a); [done| |]; cbn in Hf.
  - destruct Hf as (Hh & Hca & [Hs1 Hs2] & Hs). rewrite C, Hh, Hca. f_equal. rewrite S, Hs. match goal with |- (if ?b then _ else _) = _ => destruct b; reflexivity end.
  - by rewrite L, Hf.
Qed.

(** ** The invariant *)

(** [j]: the pin that the last leaf was judged by. *)
Record inv (j : pin) (s : tls) : Prop := {
  inv_loaded : loaded s = true;
  inv_anchor : wf_anchor (anchor s);
  inv_capture : wf_cap (cap s);
  inv_sound : valid_ (cap s) = true -> sound_cap j (cap s);
  inv_stored : store_pending s = false -> kind (anchor s) <> ESPOS_SK_TLS_ANCHOR_NONE -> load_of (t_flash s) = anchor s }.

(** How a step may change what is pinned. *)
Definition pin_step (j : pin) (st : tls_step) (s s' : tls) : Prop :=
  pin_of (anchor s') = pin_of (anchor s) \/
  match st with
  | SReset => pin_of (anchor s') = PinNone
  | STrust _ (Some p) => exists c, espos_sk_tls_parse_ca crt_parse (snprintf_s CONFIG_ESPOS_SK_TLS_CA_MAX p) = (ESP_OK, c) /\ pin_of (anchor s') = PinCa (fingerprint c) []
  | SCommit _ => (pin_of (anchor s) = PinNone \/ pin_of (anchor s) <> j) /\ valid_ (cap s) = true /\ committed (cap s) (anchor s) (anchor s')
  | _ => False
  end.

Lemma tls_inv_quiet j s s' : inv j s -> quiet s s' -> inv j s'.
Proof. intros [H1 H2 H3 H4 H5] [Q1 Q2 Q3 Q4 Q5 Q6]. split; rewrite ?Q1, ?Q2, ?Q3, ?Q4, ?Q5; done. Qed.

Lemma pin_quiet j st s s' : quiet s s' -> pin_step j st s s'.
Proof. intros [Q1 _ _ _ _ _]. left. by rewrite Q1. Qed.

(** A capture that was dropped. *)
Lemma tls_inv_drop j s : inv j s -> inv j (s <| cap := capture_zero |>).
Proof. intros [H1 H2 H3 H4 H5]. split; [done|done|apply capture_zero_wf|done|done]. Qed.

Lemma wp_publish Q s : loaded (m_sm s) = true -> (forall sm' w' tr, quiet (m_sm s) sm' -> Q tt (Mach sm' w' tr)) -> wp (W := W) espos_sk_tls_publish Q s.
Proof.
  intros Hl HQ. unfold espos_sk_tls_publish, espos_sk_tls_json. apply wp_bind, wp_bind, wp_ensure_init; [done|]. intros sm' w' Hq.
  apply wp_bind, wp_query. intros ok w2. destruct ok; [apply wp_gets, wp_emit|apply wp_ret, wp_ret]; by apply HQ.
Qed.

(** The anchor is written out; it is pending unless all of it is in the flash. *)
Lemma wp_persist Q s : (forall f p w' tr, (p = false -> holds f (anchor_items (anchor (m_sm s)))) -> Q tt (Mach ((m_sm s) <| t_flash := f |> <| store_pending := p |>) w' tr)) ->
  wp (W := W) persist_anchor Q s.
Proof.
  intros HQ. unfold persist_anchor, run_on_internal_stack, store_anchor. apply wp_bind, wp_bind, wp_query. intros ran w1. destruct ran.
  - apply wp_bind, wp_bind, wp_gets, wp_bind, wp_anchor_store. cbn [m_sm]. intros e f w' tr He. apply wp_mods, wp_ret. cbn [negb m_sm m_world m_trace].
    apply wp_ret, HQ. intros Hp%negb_false_iff. apply He. by apply bool_decide_eq_true in Hp.
  - apply wp_ret. cbn [negb]. apply wp_mods. cbn [m_sm m_world m_trace].
    assert (E : m_sm s = (m_sm s) <| t_flash := t_flash (m_sm s) |>) by (by destruct s as [[] ? ?]). rewrite E. apply HQ. done.
Qed.

(** A new anchor that has been written out, with the capture gone. *)
Lemma inv_persisted j s a f p : inv j s -> wf_anchor a -> (p = false -> holds f (anchor_items a)) -> inv j (s <| cap := capture_zero |> <| anchor := a |> <| t_flash := f |> <| store_pending := p |>).
Proof.
  intros [H1 H2 H3 H4 H5] Ha Hp. split; [done|done|apply capture_zero_wf|done|]. cbn. intros Hf _. apply load_stored; [done|by apply Hp].
Qed.

Lemma step_commit j self s : inv j (m_sm s) -> wp (W := W) (espos_sk_tls_commit self) (fun _ s' => inv j (m_sm s') /\ pin_step j (SCommit self) (m_sm s) (m_sm s')) s.
Proof.
  intros Hi. unfold espos_sk_tls_commit. apply wp_bind, wp_ensure_init; [apply Hi|]. intros sm w Hq. apply wp_bind, wp_gets. cbn [m_sm].
  pose proof (tls_inv_quiet _ _ _ Hi Hq) as Hi'. destruct (valid_ (cap sm)) eqn:Ev; cbn [negb]; [|apply wp_ret; split; [done|by apply pin_quiet]].
  apply wp_bind, wp_gets, wp_bind. cbn [m_sm].
  assert (Hnow : forall Q : Z -> mach tls W tls_ev -> Prop, (forall z w', Q z (Mach sm w' (m_trace s))) ->
    wp (if bool_decide (kind (anchor sm) = ESPOS_SK_TLS_ANCHOR_NONE) then pinned_now_unix else mret 0) Q (Mach sm w (m_trace s))).
  { intros Q HQ. destruct (bool_decide _); [|apply wp_ret, HQ]. unfold pinned_now_unix. apply wp_bind, wp_query. intros ms w'. apply wp_ret, HQ. }
  apply Hnow. intros now w2. apply wp_bind, wp_gets. cbn [m_sm].
  pose proof (commit_spec (cap sm) self now (anchor sm) (inv_capture _ _ Hi')) as Hc. pose proof (commit_wf (cap sm) self now (anchor sm) (inv_anchor _ _ Hi') (inv_capture _ _ Hi')) as Hwf.
  pose proof (commit_same (cap sm) self now (anchor sm)) as Hsame. destruct (commit_anchor (cap sm) self now (anchor sm)) as [a ch]. cbn [fst snd] in *.
  assert (Hpin : pin_of a = pin_of (anchor (m_sm s)) \/ (pin_of (anchor (m_sm s)) = PinNone \/ pin_of (anchor (m_sm s)) <> j) /\ valid_ (cap (m_sm s)) = true /\ committed (cap (m_sm s)) (anchor (m_sm s)) a).
  { rewrite <- (q_cap _ _ Hq), <- (q_anchor _ _ Hq). destruct (decide (kind (anchor sm) = ESPOS_SK_TLS_ANCHOR_NONE)) as [E|E].
    - right. split; [left; unfold pin_of; by rewrite E|done].
    - destruct (decide (pin_of (anchor sm) = j)) as [Ej|Ej]; [|right; split; [by right|done]].
      left. apply (commit_pin (cap sm)); [done|rewrite Ej; by apply Hi'|done]. }
  apply wp_bind, wp_mods. cbn [m_sm m_world m_trace]. destruct ch; cbn [negb].
  - apply wp_bind, wp_mods, wp_bind, wp_persist. cbn [m_sm m_world m_trace]. intros f p w3 tr Hp. apply wp_publish; [apply Hi'|]. intros sm' w4 tr' Hq'.
    pose proof (inv_persisted j sm a f p Hi' Hwf Hp) as Hn. split; [by eapply tls_inv_quiet|]. unfold pin_step. cbn [m_sm]. rewrite (q_anchor _ _ Hq'). exact Hpin.
  - rewrite (Hsame eq_refl) in *. apply wp_bind, wp_gets. cbn [m_sm]. set (pend := store_pending _). destruct pend.
    + apply wp_persist. cbn [m_sm]. intros f p w3 tr Hp. cbn [m_sm]. split; [|exact Hpin].
      pose proof (inv_persisted j sm (anchor sm) f p Hi' Hwf Hp) as Hn. destruct sm. exact Hn.
    + apply wp_ret. cbn [m_sm]. split; [by apply tls_inv_drop|exact Hpin].
Qed.

Lemma step_verify j c depth fl s : inv j (m_sm s) ->
  wp (W := W) (verify_cb c depth fl) (fun _ s' => inv (match depth with O => pin_of (anchor (m_sm s)) | S _ => j end) (m_sm s') /\ anchor (m_sm s') = anchor (m_sm s)) s.
Proof.
  intros [H1 H2 H3 H4 H5]. destruct depth as [|d].
  - destruct (verify_leaf c fl s) as (sm' & E & [K1 K2 K3 K4 K5 K6] & Hlook & Hres). unfold wp. rewrite E. cbn [m_sm]. split; [|done].
    split; rewrite ?K1, ?K2, ?K3, ?K4; try done; [by eapply looked_wf|]. intros Hv. destruct Hres as [(_ & _ & _ & Hs)|(_ & _ & Hn)]; [done|congruence].
  - unfold wp. rewrite verify_upper. cbn [m_sm]. split; [|done]. assert (Hc : valid_ (note_ca c (cap (m_sm s))) = valid_ (cap (m_sm s))).
    { unfold note_ca. by destruct (_ && _). }
    split; [done|done| | |done]; cbn.
    + unfold note_ca. destruct (_ && _); [|done]. destruct H3. split; try done. apply fingerprint_ok.
    + rewrite Hc. intros Hv. specialize (H4 Hv). unfold note_ca. destruct (have_ca (cap (m_sm s))) eqn:Eh; [by rewrite andb_false_r|]. rewrite andb_true_r.
      destruct (ca_istrue c); [|done]. destruct H4 as [Hf Hk]. split.
      * unfold cap_fits in *. destruct j; [done|done|]. destruct Hf as (Hh & _). congruence.
      * intros Hnone. destruct (Hk Hnone) as [?|(_ & Hh & _)]; [by left|congruence].
Qed.

Lemma wp_erase_keys l Q s : (forall f w' tr, Q tt (Mach ((m_sm s) <| t_flash := f |>) w' tr)) -> wp (W := W) (erase_keys l) Q s.
Proof.
  revert s. induction l as [|k l IH]; intros s HQ; cbn [erase_keys].
  { apply wp_ret. assert (E : m_sm s = (m_sm s) <| t_flash := t_flash (m_sm s) |>) by (by destruct s as [[] ? ?]). destruct s as [sm w tr]. cbn [m_sm] in *. rewrite E. apply HQ. }
  apply wp_bind. unfold nvs_erase_key. apply wp_bind, wp_query. intros [ok dn] w'. apply wp_bind, wp_gets. cbn [m_sm].
  assert (Hstay : forall w' tr, wp (erase_keys l) Q (Mach (m_sm s) w' tr)) by (intros ? ?; apply IH; cbn [m_sm]; exact HQ).
  destruct (ok && _); [apply wp_ret, Hstay|]. apply wp_bind. destruct (ok || dn).
  - unfold nv_touch. apply wp_bind, wp_mods, wp_bind, wp_gets, wp_emit, wp_ret, IH. intros f w2 tr. apply HQ.
  - apply wp_ret, wp_ret, Hstay.
Qed.

Lemma wp_anchor_erase Q s : (forall f w' tr, Q tt (Mach ((m_sm s) <| t_flash := f |>) w' tr)) -> wp (W := W) anchor_erase Q s.
Proof.
  intros HQ. unfold anchor_erase, nvs_open, nvs_commit. apply wp_bind, wp_bind, wp_query. intros [ok dn] w'. apply wp_ret. destruct ok; cbn [negb].
  - apply wp_bind, wp_erase_keys. cbn [m_sm]. intros f w2 tr. apply wp_bind, wp_bind, wp_query. intros [ok' dn'] w3. apply wp_ret, wp_ret, HQ.
  - apply wp_ret. assert (E : m_sm s = (m_sm s) <| t_flash := t_flash (m_sm s) |>) by (by destruct s as [[] ? ?]). cbn [m_sm]. rewrite E. apply HQ.
Qed.

Lemma anchor_zero_wf : wf_anchor anchor_zero.
Proof. split; [apply fp_zero_ok|apply fp_zero_ok|cbn; unfold ESPOS_SK_TLS_SAN_MAX; lia|cbn; unfold ESPOS_SK_TLS_CN_MAX; lia|cbn; unfold ESPOS_SK_SELF_MAX; lia]. Qed.

Lemma step_reset j s : inv j (m_sm s) -> wp (W := W) espos_sk_tls_reset (fun _ s' => inv j (m_sm s') /\ pin_of (anchor (m_sm s')) = PinNone) s.
Proof.
  intros Hi. unfold espos_sk_tls_reset. apply wp_bind, wp_ensure_init; [apply Hi|]. intros sm w Hq. pose proof (tls_inv_quiet _ _ _ Hi Hq) as Hi'.
  apply wp_bind, wp_mods, wp_bind, wp_anchor_erase. cbn [m_sm m_world m_trace]. intros f w2 tr. apply wp_bind, wp_publish; [apply Hi'|]. intros sm' w3 tr' Hq'. apply wp_ret.
  cbn [m_sm] in *. split; [|by rewrite (q_anchor _ _ Hq')]. eapply tls_inv_quiet; [|exact Hq']. destruct Hi'. split; [done|apply anchor_zero_wf|apply capture_zero_wf|done|done].
Qed.

(** Adopting the operator's CA; a waiting capture stays. *)
Lemma step_adopt j s : inv j (m_sm s) ->
  wp (W := W) (adopt_ca md crt_parse) (fun _ s' => inv j (m_sm s') /\
    match espos_sk_tls_parse_ca crt_parse (ca_pem (m_sm s)) with
    | (ESP_OK, c) => pin_of (anchor (m_sm s')) = PinCa (fingerprint c) []
    | _ => anchor (m_sm s') = anchor (m_sm s)
    end) s.
Proof.
  intros [H1 H2 H3 H4 H5]. unfold adopt_ca. apply wp_bind, wp_mods. set (sm1 := if ca_crt_ready (m_sm s) then _ else _).
  assert (Hq : quiet (m_sm s) sm1) by (subst sm1; by destruct (ca_crt_ready (m_sm s))). apply wp_bind, wp_gets. cbn [m_sm]. rewrite (q_pem _ _ Hq).
  destruct (espos_sk_tls_parse_ca crt_parse (ca_pem (m_sm s))) as [e c] eqn:Ep.
  destruct (negb (bool_decide (ca_pem (m_sm s) = [])) && is_ok e) eqn:E.
  2:{ apply wp_ret. cbn [m_sm]. split; [by apply (tls_inv_quiet j (m_sm s)); [split|exact Hq]|]. destruct e; try apply Hq.
      unfold espos_sk_tls_parse_ca in Ep. by destruct (bool_decide (ca_pem (m_sm s) = [])). }
  apply andb_prop in E as [_ Ee%bool_decide_eq_true]. subst e.
  apply wp_bind, wp_mods, wp_bind. cbn [m_sm m_world m_trace]. unfold pinned_now_unix. apply wp_bind, wp_query. intros ms w'. apply wp_ret.
  set (a := Anchor _ _ _ _ _ _ _). apply wp_bind, wp_mods, wp_bind, wp_anchor_store. cbn [m_sm]. intros e f w2 tr He. apply wp_mods. cbn [m_sm].
  assert (Ha : wf_anchor a).
  { split; cbn; [apply fp_zero_ok|apply fingerprint_ok|unfold ESPOS_SK_TLS_SAN_MAX; lia|apply crt_cn_len|unfold ESPOS_SK_SELF_MAX; lia]. }
  split; [|done]. split; cbn.
  - by rewrite (q_loaded _ _ Hq).
  - done.
  - by rewrite (q_cap _ _ Hq).
  - by rewrite (q_cap _ _ Hq).
  - intros Hp _. apply load_stored; [done|]. apply He. apply negb_false_iff in Hp. by apply bool_decide_eq_true in Hp.
Qed.

Lemma step_trust j t pem s : inv j (m_sm s) ->
  wp (W := W) (espos_sk_tls_set_trust md crt_parse t pem) (fun _ s' => inv j (m_sm s') /\ pin_step j (STrust t pem) (m_sm s) (m_sm s')) s.
Proof.
  intros Hi. unfold espos_sk_tls_set_trust. apply wp_bind, wp_ensure_init; [apply Hi|]. intros sm w Hq. pose proof (tls_inv_quiet _ _ _ Hi Hq) as Hi'.
  apply wp_bind, wp_gets, wp_bind, wp_mods. cbn [m_sm m_world m_trace]. set (sm1 := sm <| trust := t |>).
  assert (Hq1 : quiet sm sm1) by done. pose proof (tls_inv_quiet _ _ _ Hi' Hq1) as Hi1. pose proof (tls_quiet_trans _ _ _ Hq Hq1) as Hq2.
  destruct pem as [p|]; [|apply wp_ret; split; [done|by apply pin_quiet]]. apply wp_bind, wp_mods. cbn [m_sm m_world m_trace].
  set (sm2 := sm1 <| ca_pem := _ |>). assert (Hi2 : inv j sm2) by (destruct Hi1; by split).
  destruct (strneq CONFIG_ESPOS_SK_TLS_CA_MAX (ca_pem sm) p) eqn:E; cbn [negb].
  - apply wp_ret. split; [done|]. left. cbn. by rewrite (q_anchor _ _ Hq).
  - eapply wp_mono; [by apply (step_adopt j (Mach sm2 w (m_trace s)))|]. intros [] s' [Hs' Hc]. split; [done|].
    change (ca_pem (m_sm _)) with (snprintf_s CONFIG_ESPOS_SK_TLS_CA_MAX p) in Hc.
    destruct (espos_sk_tls_parse_ca crt_parse (snprintf_s CONFIG_ESPOS_SK_TLS_CA_MAX p)) as [e c] eqn:Ep.
    destruct e; [right; by exists c|left; rewrite Hc; cbn; by rewrite (q_anchor _ _ Hq)..].
Qed.

Lemma wp_discard Q s : loaded (m_sm s) = true -> (forall sm' w', quiet (m_sm s) sm' -> Q tt (Mach (sm' <| cap := capture_zero |>) w' (m_trace s))) -> wp (W := W) espos_sk_tls_discard Q s.
Proof. intros Hl HQ. unfold espos_sk_tls_discard. apply wp_bind, wp_ensure_init; [done|]. intros sm' w' Hq. apply wp_mods. by apply HQ. Qed.

Lemma step_begin j s : inv j (m_sm s) -> wp (W := W) espos_sk_tls_handshake_begin (fun _ s' => inv j (m_sm s') /\ anchor (m_sm s') = anchor (m_sm s)) s.
Proof.
  intros Hi. unfold espos_sk_tls_handshake_begin. apply wp_bind, wp_ensure_init; [apply Hi|]. intros sm w Hq. pose proof (tls_inv_quiet _ _ _ Hi Hq) as Hi'.
  assert (Hstay : forall (x : esp_err_t) (w : W) (tr : list tls_ev), wp (mret x) (fun (_ : esp_err_t) s' => inv j (m_sm s') /\ anchor (m_sm s') = anchor (m_sm s)) (Mach sm w tr)).
  { intros x w' tr. apply wp_ret. split; [done|apply Hq]. }
  apply wp_bind, wp_gets. cbn [m_sm]. destruct (t_handshake sm) as [[]|]; [apply Hstay| |apply Hstay].
  apply wp_bind, wp_mods, wp_bind, wp_query. cbn [m_sm m_world m_trace]. intros largest w2. destruct (largest <? _).
  - apply wp_bind, wp_emit, wp_bind, wp_mods, wp_ret. cbn [m_sm]. split; [destruct Hi'; by split|apply Hq].
  - apply wp_bind, wp_emit, wp_bind, wp_mods, wp_bind, wp_discard; [apply Hi'|]. cbn [m_sm]. intros sm' w3 Hq'. apply wp_ret. cbn [m_sm]. split; [|cbn; rewrite (q_anchor _ _ Hq'); apply Hq].
    apply tls_inv_drop. eapply tls_inv_quiet; [|exact Hq']. destruct Hi'; by split.
Qed.

(** A handshake that may begin finds an empty slot. *)
Lemma begin_clears s : wp (W := W) espos_sk_tls_handshake_begin (fun e s' => e = ESP_OK -> cap (m_sm s') = capture_zero) s.
Proof.
  unfold espos_sk_tls_handshake_begin. apply wp_bind. unfold wp at 1. destruct (ensure_init s) as [[] s1]. cbn [fst snd]. apply wp_bind, wp_gets.
  destruct (t_handshake (m_sm s1)) as [[]|]; [by apply wp_ret| |by apply wp_ret]. apply wp_bind, wp_mods, wp_bind, wp_query. intros largest w. destruct (largest <? _).
  - by apply wp_bind, wp_emit, wp_bind, wp_mods, wp_ret.
  - apply wp_bind, wp_emit, wp_bind, wp_mods, wp_bind. unfold espos_sk_tls_discard. apply wp_bind. unfold wp at 1. destruct (ensure_init _) as [[] s2]. cbn [fst snd]. by apply wp_mods, wp_ret.
Qed.

(** * The properties *)

(** What the next commit was judged by, after a step. *)
Definition judged (st : tls_step) (s : tls) (j : pin) : pin := match st with SVerify _ O _ => pin_of (anchor s) | _ => j end.

(** The states of a device whose flash could be read at boot, under any calls from
    any tasks; [j] is the pin that the last leaf was judged by. *)
Inductive reach : pin -> mach tls W tls_ev -> Prop :=
  | ReachBoot s : cap (m_sm s) = capture_zero -> loaded (m_sm s) = true -> anchor (m_sm s) = load_of (t_flash (m_sm s)) -> wf_anchor (anchor (m_sm s)) -> reach (pin_of (anchor (m_sm s))) s
  | ReachStep j s st : reach j s -> reach (judged st (m_sm s) j) (exec (run_step st) s).

Lemma tls_step_inv j st (s : mach tls W tls_ev) : inv j (m_sm s) -> wp (run_step st) (fun _ s' => inv (judged st (m_sm s) j) (m_sm s') /\ pin_step j st (m_sm s) (m_sm s')) s.
Proof.
  intros Hi. assert (Hsame : forall (A : Type) (m : M A) j', wp m (fun _ s' => inv j' (m_sm s') /\ anchor (m_sm s') = anchor (m_sm s)) s ->
    wp (m;; mret tt) (fun _ s' => inv j' (m_sm s') /\ pin_step j st (m_sm s) (m_sm s')) s).
  { intros A m j' Hm. apply wp_bind. eapply wp_mono; [exact Hm|]. intros a s' [H1 H2]. apply wp_ret. split; [done|]. left. by rewrite H2. }
  destruct st as [c d f|self| | | | |t pem| |]; cbn [run_step].
  - apply Hsame. eapply wp_mono; [by apply (step_verify j)|]. by destruct d.
  - by apply step_commit.
  - apply wp_discard; [apply Hi|]. intros sm' w' Hq'. cbn [m_sm]. split; [by apply tls_inv_drop, (tls_inv_quiet j (m_sm s))|]. left. cbn. by rewrite (q_anchor _ _ Hq').
  - by apply Hsame, step_begin.
  - apply wp_mods. cbn [m_sm]. split; [destruct Hi; by split|by left].
  - apply wp_bind. eapply wp_mono; [by apply step_reset|]. intros e s' [H1 H2]. apply wp_ret. split; [done|by right].
  - by apply step_trust.
  - apply Hsame. unfold espos_sk_tls_attach. apply wp_bind, wp_ensure_init; [apply Hi|]. intros sm w Hq'. apply wp_bind, wp_gets. cbn [m_sm].
    case_bool_decide; [apply wp_ret|apply wp_gets]; (split; [by eapply tls_inv_quiet|apply Hq']).
  - apply wp_publish; [apply Hi|]. intros sm' w' tr Hq'. split; [by eapply tls_inv_quiet|by apply pin_quiet].
Qed.

Lemma tls_reach_inv j s : reach j s -> inv j (m_sm s).
Proof.
  induction 1 as [s Hc Hl Ha Hw|j s st Hs IH]; [|by apply (tls_step_inv j st)]. split; [done|done|rewrite Hc; apply capture_zero_wf|by rewrite Hc|done].
Qed.

(** C5. A chain that goes through the callback (it is installed in the modes ca and
    tofu) is accepted exactly if nothing is pinned; or the leaf is the pinned one; or
    the CA it is judged by is the pinned one and the leaf is for the pinned set of
    names, as far as it could be read whole. Otherwise the handshake fails. The flags
    mbedTLS found (an invalid signature among them) play no part. The CA is the one
    that the capture slot holds from an earlier handshake, if it holds one; after a
    [handshake_begin] that returned [ESP_OK] it is the topmost CA of the chain itself. *)
Theorem sk_tls_verify_exact l leaf fl (s : mach tls W tls_ev) : let r := (verify_chain l leaf fl s).1 in
  (r = (0, 0) <-> trusts (pin_of (anchor (m_sm s))) (judged_ca (cap (m_sm s)) (map fst l)) leaf) /\
  (r <> (0, 0) -> r.1 = MBEDTLS_ERR_X509_CERT_VERIFY_FAILED) /\
  (forall s0, espos_sk_tls_handshake_begin s0 = (ESP_OK, s) -> judged_ca (cap (m_sm s)) (map fst l) = option_map fingerprint (top_ca (map fst l))).
Proof.
  destruct (verify_exact l leaf fl s) as [H1 H2]. split; [exact H1|]. split; [exact H2|]. intros s0 E.
  pose proof (begin_clears s0) as H. unfold wp in H. rewrite E in H. specialize (H eq_refl). cbn [snd] in H. unfold judged_ca. by rewrite H.
Qed.

(** C6. What is pinned stays pinned: on a device that could read its flash at boot,
    whatever handshakes, commits, resets and settings of any tasks come between, a
    step changes the pin only if it is the operator's (a reset, which leaves nothing
    pinned, or a new CA, which is then pinned) or a commit. A commit pins what the
    capture holds (the kind decided for it, the leaf, the CA and the set of names it
    saw), and changes the pin only when nothing was pinned, or when the pin is not
    the one that the captured leaf was judged by: a CA the operator has set while the
    capture was waiting. *)
Theorem sk_tls_pin_stable j (s : mach tls W tls_ev) st : reach j s -> pin_step j st (m_sm s) (m_sm (exec (run_step st) s)).
Proof. intros Hs. by apply (tls_step_inv j st s (tls_reach_inv j s Hs)). Qed.

(** A pin survives a reboot: in every such state in which no write is pending
    and something is pinned, a boot that can read the flash finds exactly the
    anchor that is in memory. *)
Theorem sk_tls_pin_durable j (s : mach tls W tls_ev) : reach j s -> store_pending (m_sm s) = false -> pin_of (anchor (m_sm s)) <> PinNone ->
  reads -> forall w tr, anchor (m_sm (exec anchor_load (Mach (tls_boot (t_flash (m_sm s))) w tr))) = anchor (m_sm s).
Proof.
  intros Hs Hp Hn Hr w tr. destruct (tls_reach_inv j s Hs) as [_ _ _ _ H]. rewrite <- (H Hp) by (intros E; apply Hn; unfold pin_of; by rewrite E).
  apply (wp_anchor_load (fun _ s' => anchor (m_sm s') = load_of (t_flash (m_sm s)))); done.
Qed.

(** A CA that the operator supplies locks the server out: it is pinned with an
    empty set of names, which no certificate has, so after [set_trust] has adopted
    it every chain is refused, those of that CA included; the comment says that the
    first successful connection would fill the set in. *)
Theorem sk_tls_operator_ca_locked_out j (s : mach tls W tls_ev) t p c : reach j s ->
  strneq CONFIG_ESPOS_SK_TLS_CA_MAX (ca_pem (m_sm s)) p = false -> espos_sk_tls_parse_ca crt_parse (snprintf_s CONFIG_ESPOS_SK_TLS_CA_MAX p) = (ESP_OK, c) ->
  let s' := exec (espos_sk_tls_set_trust md crt_parse t (Some p);; espos_sk_tls_discard) s in
  pin_of (anchor (m_sm s')) = PinCa (fingerprint c) [] /\
  forall l leaf fl, (verify_chain l leaf fl s').1.1 = MBEDTLS_ERR_X509_CERT_VERIFY_FAILED.
Proof.
  intros Hs Hne Hp s'. pose proof (tls_reach_inv j s Hs) as Hi.
  assert (H : pin_of (anchor (m_sm s')) = PinCa (fingerprint c) [] /\ cap (m_sm s') = capture_zero).
  { refine (proj1 (wp_exec _ (fun s' => pin_of (anchor (m_sm s')) = PinCa (fingerprint c) [] /\ cap (m_sm s') = capture_zero) s) _).
    unfold espos_sk_tls_set_trust. apply wp_bind, wp_bind, wp_ensure_init; [apply Hi|]. intros sm w Hq. pose proof (tls_inv_quiet _ _ _ Hi Hq) as Hi'.
    apply wp_bind, wp_gets, wp_bind, wp_mods, wp_bind, wp_mods. cbn [m_sm m_world m_trace]. rewrite (q_pem _ _ Hq), Hne. cbn [negb].
    eapply wp_mono; [apply (step_adopt j); destruct Hi'; by split|]. intros [] s1 [Hs1 Hc].
    change (ca_pem (m_sm _)) with (snprintf_s CONFIG_ESPOS_SK_TLS_CA_MAX p) in Hc. rewrite Hp in Hc.
    apply wp_discard; [apply Hs1|]. intros sm' w' Hq'. split; [|done]. cbn. by rewrite (q_anchor _ _ Hq'). }
  destruct H as [Hpin Hcap]. split; [done|]. intros l leaf fl. 
  destruct (verify_exact l leaf fl s') as [Hiff Hrej]. rewrite Hpin in Hiff. apply Hrej. intros E%Hiff. destruct E as (_ & [Hw _] & E). by apply Hw.
Qed.
End Props.
