(* ===== verification/SkTlsRuns.v ===== *)
(** Runs of the trust store: a device and a boat's server to which the properties
    of [SkTlsProps] apply, and the runs in which the store does not keep what its
    documentation says. *)
From Stdlib Require Import ZArith Lia String.
From stdpp Require Import base list numbers gmap.
From S2P Require Import Prelude ConfigDesc SkNvs SkTlsPolicy SkTls SkTlsProps.
Open Scope Z_scope.

(** * The device *)

(** A digest of 32 bytes, and a parser that knows one PEM text. *)
Definition digest (d : list Z) : option (list Z) := Some (take 32 (map u8 d ++ replicate 32 0)).

Lemma digest_ok d h : digest d = Some h -> fp_ok h.
Proof.
  intros E. assert (h = take 32 (map u8 d ++ replicate 32 0)) as -> by (unfold digest in E; congruence). split.
  - rewrite length_take, length_app, length_replicate. unfold ESPOS_SK_TLS_FP_LEN. lia.
  - apply Forall_take, Forall_app. split; [|apply Forall_replicate; lia]. apply Forall_map, Forall_true. intros x. unfold u8. apply Z.mod_pos_bound. lia.
Qed.

Definition boat_ca : mbedtls_x509_crt := Crt (lit "boat CA") [(true, lit "Boat CA")] [] true.
Definition boat_leaf : mbedtls_x509_crt := Crt (lit "boat leaf") [(true, lit "boat")] [(MBEDTLS_X509_SAN_DNS_NAME, lit "boat.local")] false.
Definition other_ca : mbedtls_x509_crt := Crt (lit "other CA") [(true, lit "Other CA")] [] true.
(** A leaf that no CA signed, for the same name; and one without names. *)
Definition forged_leaf : mbedtls_x509_crt := Crt (lit "forged leaf") [(true, lit "boat")] [(MBEDTLS_X509_SAN_DNS_NAME, lit "boat.local")] false.
Definition bare_leaf : mbedtls_x509_crt := Crt (lit "bare leaf") [] [] false.
Definition parse_pem (t : cstr) : option mbedtls_x509_crt := if streq t (lit "PEM of boat CA") then Some boat_ca else None.

(** A flash and a port that work. *)
#[local] Instance good_nvs : HasNvs unit := fun _ w => ((true, true), w).
#[local] Instance good_port : TlsPort unit :=
  {| port_mutex w := (true, w); port_task w := (true, w); port_now_ms w := (0, w); port_largest_block w := (100000, w); port_malloc w := (true, w) |}.

(** The steps of a run one after the other. *)
Definition run_steps {W : Type} `{!HasNvs W} `{!TlsPort W} (l : list tls_step) (s : mach tls W tls_ev) : mach tls W tls_ev :=
  foldl (fun s st => exec (run_step digest parse_pem st) s) s l.

Definition boot_blank : mach tls unit tls_ev := exec ensure_init (Mach (tls_boot ∅) tt []).

(** A first connection to the boat's server. *)
Definition first_connection : list tls_step := [SBegin; SVerify boat_ca 1 0; SVerify boat_leaf 0 0; SCommit None; SEnd].

Lemma boot_reach : reach digest parse_pem PinNone boot_blank.
Proof.
  replace PinNone with (pin_of (anchor (m_sm boot_blank))) by (vm_compute; reflexivity). apply ReachBoot; [reflexivity|reflexivity|vm_compute; reflexivity|].
  replace (anchor (m_sm boot_blank)) with anchor_zero by (vm_compute; reflexivity). apply anchor_zero_wf.
Qed.

(** The pin that the last leaf of a run was judged by. *)
Definition run_judged (l : list tls_step) (s : mach tls unit tls_ev) (j : pin) : pin :=
  (foldl (fun '(s, j) st => (exec (run_step digest parse_pem st) s, judged st (m_sm s) j)) (s, j) l).2.

Lemma run_reach l s j : reach digest parse_pem j s -> reach digest parse_pem (run_judged l s j) (run_steps l s).
Proof.
  unfold run_judged, run_steps. revert s j. induction l as [|st l IH]; intros s j Hs; [done|]. cbn [foldl]. apply IH. by apply ReachStep.
Qed.

#[local] Abbreviation paired := (run_steps first_connection boot_blank).

Lemma paired_reach : reach digest parse_pem PinNone paired.
Proof. exact (run_reach first_connection boot_blank PinNone boot_reach). Qed.

Lemma sk_tls_pin_stable_witness :
  reach digest parse_pem PinNone paired /\
  pin_of (anchor (m_sm paired)) = PinCa (crt_fingerprint digest boat_ca) (lit "boat.local") /\
  pin_step digest parse_pem PinNone (SVerify forged_leaf 0 8) (m_sm paired) (m_sm (exec (run_step digest parse_pem (SVerify forged_leaf 0 8)) paired)).
Proof.
  split; [apply paired_reach|]. split; [vm_compute; reflexivity|].
  apply (sk_tls_pin_stable digest parse_pem digest_ok). apply paired_reach.
Defined.

Lemma good_reads : reads (W := unit).
Proof. intros op w _. reflexivity. Qed.

Lemma sk_tls_pin_durable_witness :
  reach digest parse_pem PinNone paired /\ store_pending (m_sm paired) = false /\ pin_of (anchor (m_sm paired)) <> PinNone /\ reads (W := unit) /\
  anchor (m_sm (exec anchor_load (Mach (tls_boot (t_flash (m_sm paired))) tt []))) = anchor (m_sm paired).
Proof.
  assert (Hp : store_pending (m_sm paired) = false) by (vm_compute; reflexivity).
  assert (Hn : pin_of (anchor (m_sm paired)) <> PinNone) by (vm_compute; discriminate).
  split; [apply paired_reach|]. split; [exact Hp|]. split; [exact Hn|]. split; [apply good_reads|].
  apply (sk_tls_pin_durable digest parse_pem digest_ok PinNone paired paired_reach Hp Hn good_reads).
Defined.

(** The chain of the boat's CA with a leaf it did not sign: mbedTLS reports that as
    flag 8 (not trusted). *)
Lemma sk_tls_verify_exact_witness :
  trusts digest (pin_of (anchor (m_sm paired))) (judged_ca digest (cap (m_sm paired)) (map fst [(boat_ca, 0)])) forged_leaf /\
  (verify_chain digest [(boat_ca, 0)] forged_leaf 8 paired).1 = (0, 0).
Proof.
  assert (Ht : trusts digest (pin_of (anchor (m_sm paired))) (judged_ca digest (cap (m_sm paired)) (map fst [(boat_ca, 0)])) forged_leaf).
  { vm_compute. repeat split; discriminate. }
  split; [exact Ht|]. destruct (sk_tls_verify_exact digest [(boat_ca, 0)] forged_leaf 8 paired) as [Hiff _]. apply Hiff. exact Ht.
Defined.

(** A handshake outside the slot: the CA that an accepted chain has left in it
    serves for a chain that has none. *)
Example stale_ca_accepts : (verify_chain digest [] forged_leaf 8 (run_steps [SBegin; SVerify boat_ca 1 0; SVerify boat_leaf 0 0] paired)).1 = (0, 0) /\
  (verify_chain digest [] forged_leaf 8 (run_steps [SBegin] paired)).1.1 = MBEDTLS_ERR_X509_CERT_VERIFY_FAILED.
Proof. split; vm_compute; reflexivity. Qed.

Lemma sk_tls_operator_ca_locked_out_witness :
  reach digest parse_pem PinNone boot_blank /\
  strneq CONFIG_ESPOS_SK_TLS_CA_MAX (ca_pem (m_sm boot_blank)) (lit "PEM of boat CA") = false /\
  espos_sk_tls_parse_ca parse_pem (snprintf_s CONFIG_ESPOS_SK_TLS_CA_MAX (lit "PEM of boat CA")) = (ESP_OK, boat_ca) /\
  (verify_chain digest [(boat_ca, 0)] boat_leaf 0
     (exec (espos_sk_tls_set_trust digest parse_pem ESPOS_SK_TLS_TRUST_CA (Some (lit "PEM of boat CA"));; espos_sk_tls_discard) boot_blank)).1.1 = MBEDTLS_ERR_X509_CERT_VERIFY_FAILED.
Proof.
  assert (H1 : strneq CONFIG_ESPOS_SK_TLS_CA_MAX (ca_pem (m_sm boot_blank)) (lit "PEM of boat CA") = false) by (vm_compute; reflexivity).
  assert (H2 : espos_sk_tls_parse_ca parse_pem (snprintf_s CONFIG_ESPOS_SK_TLS_CA_MAX (lit "PEM of boat CA")) = (ESP_OK, boat_ca)) by (vm_compute; reflexivity).
  split; [apply boot_reach|]. split; [exact H1|]. split; [exact H2|].
  apply (sk_tls_operator_ca_locked_out digest parse_pem digest_ok PinNone boot_blank ESPOS_SK_TLS_TRUST_CA (lit "PEM of boat CA") boat_ca boot_reach H1 H2).
Defined.

(** * Where the store does not keep what it says *)

(** Two sockets share one capture. The attach hook is also used by a component
    that does not take the handshake slot; when such a handshake comes between the
    verification and the commit of a first connection, its certificate is pinned,
    not that of the connection that proved itself. And a capture that is waiting when
    the operator supplies a CA replaces that CA at its commit. *)
Theorem sk_tls_shared_capture :
  pin_of (anchor (m_sm (run_steps [SBegin; SVerify bare_leaf 0 0; SCommit None; SEnd] boot_blank))) = PinLeaf (crt_fingerprint digest bare_leaf) /\
  pin_of (anchor (m_sm (run_steps [SBegin; SVerify bare_leaf 0 0; SVerify forged_leaf 0 8; SCommit None; SEnd] boot_blank))) = PinLeaf (crt_fingerprint digest forged_leaf) /\
  pin_of (anchor (m_sm (run_steps [SBegin; SVerify other_ca 1 0; SVerify forged_leaf 0 0; STrust ESPOS_SK_TLS_TRUST_CA (Some (lit "PEM of boat CA")); SCommit None; SEnd] boot_blank))) =
    PinCa (crt_fingerprint digest other_ca) (lit "boat.local").
Proof. split_and!; vm_compute; reflexivity. Qed.

(** The flash at the moment at which the first item of a commit has been written. *)
Definition flash_moments (tr : list tls_ev) : list flash := omap (fun e => match e with TFlash f => Some f | _ => None end) tr.
Definition torn_flash : flash := default ∅ (last (flash_moments (m_trace paired))).
(** A flash whose [n]-th read fails. *)
Definition fails_at (n : nat) : HasNvs nat := fun op w => match op with NvGet => ((negb (w =? n)%nat, false), S w) | _ => ((true, true), w) end.
Definition never_opens : HasNvs unit := fun op w => match op with NvOpen => ((false, false), w) | _ => ((true, true), w) end.
#[local] Instance count_port : TlsPort nat :=
  {| port_mutex w := (true, w); port_task w := (true, w); port_now_ms w := (0, w); port_largest_block w := (100000, w); port_malloc w := (true, w) |}.

(** Faults of the flash change what is trusted. A power cut after the first item
    of the first pin leaves the kind without its fingerprints, and after the boot the
    server that was just accepted is refused. A read of [tls_kind] that fails at the
    boot unpins: any certificate is accepted. And while the namespace cannot be
    opened, a CA of the operator is dropped by the next call: any certificate is
    accepted again. *)
Theorem sk_tls_storage_faults :
  (let s := exec ensure_init (Mach (tls_boot torn_flash) tt []) in
   pin_of (anchor (m_sm s)) = PinCa fp_zero [] /\ (verify_chain digest [(boat_ca, 0)] boat_leaf 0 s).1.1 = MBEDTLS_ERR_X509_CERT_VERIFY_FAILED) /\
  (let s := exec (@ensure_init nat (fails_at 0) _) (Mach (tls_boot (t_flash (m_sm paired))) 0%nat []) in
   loaded (m_sm s) = true /\ (verify_chain digest [] bare_leaf 8 s).1 = (0, 0)) /\
  (let s := exec (@espos_sk_tls_set_trust digest parse_pem unit never_opens _ ESPOS_SK_TLS_TRUST_CA (Some (lit "PEM of boat CA"))) (Mach (tls_boot ∅) tt []) in
   let s := exec (@espos_sk_tls_handshake_begin unit never_opens _) s in
   trust (m_sm s) = ESPOS_SK_TLS_TRUST_CA /\ (verify_chain digest [] bare_leaf 8 s).1 = (0, 0)).
Proof. cbv zeta. split_and!; vm_compute; reflexivity. Qed.

(** Sets of names that differ can read the same: a name is cut at its 63rd byte
    and at a NUL without the set being marked as cut, and a name with a comma reads
    as two. The header says that a partial set can never widen what is accepted. *)
Theorem sk_tls_names_collide :
  let leaf san := Crt [] [] (map (fun t => (MBEDTLS_X509_SAN_DNS_NAME, t)) san) false in
  let same a b := espos_sk_tls_san_equal (san_of (leaf a)) (san_of (leaf b)) in
  same [replicate 63 97 ++ lit ".boat.local"] [replicate 63 97 ++ lit ".example.com"] = true /\
  same [lit "boat.local"] [lit "boat.local" ++ [0] ++ lit ".example.com"] = true /\
  same [lit "a.local"; lit "b.local"] [lit "a.local,b.local"] = true.
Proof. split_and!; vm_compute; reflexivity. Qed.
