(* ===== verification/SkStore.v ===== *)
(** The device state of the SignalK client that outlives a reboot: [sk_store.c].

    The client id, the vessel's UUID, the access token with the address it was
    issued at, and a pending request, as items of the namespace of [SkNvs]; the
    store is the one the token machine ([TokenSm]) hands to its port. What is saved
    is loaded, a power cut never gives a token the address of another, and the
    vessel's UUID is never replaced; and where errors of the flash do harm. *)
From Stdlib Require Import ZArith Lia String.
From stdpp Require Import base list numbers gmap.
From S2P Require Import Prelude ConfigDesc TokenSm SkNvs.
Open Scope Z_scope.

#[export] Instance bare_flash : HasFlash flash flash := { fl := id; set_fl := id; fl_moment := id }.

(** The random numbers. *)
Class HasRandom (W : Type) := esp_random : W -> Z * W.

(** * Text *)

Definition hex2 (b : Z) : cstr :=
  let d n := nth (Z.to_nat n) (lit "0123456789abcdef") 0 in [d (Z.shiftr b 4); d (Z.land b 15)].

(** [snprintf] of the 16 bytes: groups of 4, 2, 2, 2 and 6. *)
Definition uuid_text (b : list Z) : cstr :=
  let g i n := take n (drop i b) ≫= hex2 in
  snprintf_s 40 (g 0%nat 4%nat ++ lit "-" ++ g 4%nat 2%nat ++ lit "-" ++ g 6%nat 2%nat ++ lit "-" ++ g 8%nat 2%nat ++ lit "-" ++ g 10%nat 6%nat).

Definition token_sum (tok : cstr) : Z := foldl (fun h c => u32 (Z.lxor h (u8 c) * 16777619)) 2166136261 tok.

Section Store.
Context {W : Type} `{!HasNvs W} `{!HasRandom W}.
#[local] Abbreviation M := (act flash W flash).

(** The version and variant bits of a random UUID. *)
Definition uuid_bits (b : list Z) : list Z :=
  let b := alter (fun x => Z.lor (Z.land x 0x0f) 0x40) 6%nat b in
  alter (fun x => Z.lor (Z.land x 0x3f) 0x80) 8%nat b.

Definition make_uuid : M cstr :=
  r0 ← query esp_random;
  r1 ← query esp_random;
  r2 ← query esp_random;
  r3 ← query esp_random;
  mret (uuid_text (uuid_bits (bytes32 r0 ++ bytes32 r1 ++ bytes32 r2 ++ bytes32 r3))).

(** The result, the store and the client id. *)
Definition espos_sk_store_load : M (esp_err_t * espos_sk_tok_store_t * cstr) :=
  ok ← nvs_open;
  if negb ok then
    id ← make_uuid;
    mret (ESP_FAIL, store_zero, id)
  else
    id ← get_str (lit "client_id") 40;
    id ← (if bool_decide (id = []) then
            id ← make_uuid;
            err ← nvs_set (lit "client_id") (IStr id);
            (if is_ok err then nvs_commit;; mret tt else mret tt);;
            mret id
          else mret id);
    v_token ← get_str (lit "token") 1024;
    v_token_self ← get_str (lit "tok_self") 128;
    v_token_host ← get_str (lit "tok_host") 64;
    v_pending_href ← get_str (lit "pend_href") 128;
    v_pending_host ← get_str (lit "pend_host") 64;
    v_pending_self ← get_str (lit "pend_self") 128;
    '(err, pp) ← nvs_get_num is_u16 (lit "pend_port");
    let v_pending_port := if is_ok err then pp else 0 in
    '(err, tp) ← nvs_get_num is_u16 (lit "tok_port");
    let v_token_port := if is_ok err then tp else 0 in
    bad ← (if bool_decide (v_token = []) then mret true else
           '(err, sum) ← nvs_get_num is_u32 (lit "tok_sum");
           mret (negb (is_ok err) || negb (sum =? token_sum v_token)));
    mret (ESP_OK, SkTokStore v_token v_token_self (if bad : bool then [] else v_token_host) (if bad then 0 else v_token_port)
            v_pending_href v_pending_host v_pending_port v_pending_self, id).

Definition espos_sk_store_vessel_uuid : M (esp_err_t * cstr) :=
  ok ← nvs_open;
  if negb ok then mret (ESP_FAIL, []) else
  '(err, uuid) ← nvs_get_str (lit "vessel_id") 40;
  if negb (is_ok err) && negb (bool_decide (err = ESP_ERR_NVS_NOT_FOUND)) then mret (err, []) else
  if bool_decide (err = ESP_ERR_NVS_NOT_FOUND) then
    uuid ← make_uuid;
    err ← nvs_set (lit "vessel_id") (IStr uuid);
    err ← (if is_ok err then nvs_commit else mret err);
    mret (err, if is_ok err then uuid else [])
  else mret (err, uuid).

Definition set_or_erase (key : cstr) (val : cstr) : M esp_err_t :=
  if negb (bool_decide (val = [])) then nvs_set key (IStr val) else
  err ← nvs_erase_key key;
  mret (if bool_decide (err = ESP_ERR_NVS_NOT_FOUND) then ESP_OK else err).

(** The writes of a save, in order. *)
Definition save_writes (st : espos_sk_tok_store_t) : list (M esp_err_t) :=
  [set_or_erase (lit "token") (token st);
   set_or_erase (lit "tok_self") (token_self st);
   set_or_erase (lit "tok_host") (token_host st);
   nvs_set (lit "tok_port") (IU16 (token_port st));
   nvs_set (lit "tok_sum") (IU32 (token_sum (token st)));
   set_or_erase (lit "pend_href") (pending_href st);
   set_or_erase (lit "pend_host") (pending_host st);
   set_or_erase (lit "pend_self") (pending_self st);
   nvs_set (lit "pend_port") (IU16 (pending_port st));
   nvs_commit].

(** All of them, whatever fails; the last error. *)
Fixpoint all_writes (l : list (M esp_err_t)) (err : esp_err_t) : M esp_err_t :=
  match l with
  | [] => mret err
  | m :: l' => e ← m; all_writes l' (if is_ok e then err else e)
  end.

Definition espos_sk_store_save (st : espos_sk_tok_store_t) : M esp_err_t :=
  ok ← nvs_open;
  if negb ok then mret ESP_FAIL else all_writes (save_writes st) ESP_OK.
End Store.

(** * Correctness *)

(** * What the items stand for *)

Definition load_store (f : flash) : espos_sk_tok_store_t :=
  let tok := str_in f (lit "token") 1024 in
  let bad := bool_decide (tok = []) || negb (bool_decide (f !! lit "tok_sum" ≫= is_u32 = Some (token_sum tok))) in
  SkTokStore tok (str_in f (lit "tok_self") 128) (if bad then [] else str_in f (lit "tok_host") 64) (if bad then 0 else num_in f is_u16 (lit "tok_port"))
    (str_in f (lit "pend_href") 128) (str_in f (lit "pend_host") 64) (num_in f is_u16 (lit "pend_port")) (str_in f (lit "pend_self") 128).

(** One write of a save on the items. *)
Definition put_str (key val : cstr) (f : flash) : flash := if bool_decide (val = []) then delete key f else <[key := IStr val]> f.
Definition put_num (key : cstr) (i : item) (f : flash) : flash := <[key := i]> f.
Definition puts (st : espos_sk_tok_store_t) : list (flash -> flash) :=
  [put_str (lit "token") (token st); put_str (lit "tok_self") (token_self st); put_str (lit "tok_host") (token_host st);
   put_num (lit "tok_port") (IU16 (token_port st)); put_num (lit "tok_sum") (IU32 (token_sum (token st)));
   put_str (lit "pend_href") (pending_href st); put_str (lit "pend_host") (pending_host st); put_str (lit "pend_self") (pending_self st);
   put_num (lit "pend_port") (IU16 (pending_port st))].
Definition saved (st : espos_sk_tok_store_t) (n : nat) (f : flash) : flash := foldl (fun f g => g f) f (take n (puts st)).

(** A store that fits the buffers it is loaded into. *)
Definition storable (st : espos_sk_tok_store_t) : Prop :=
  (length (token st) < 1024)%nat /\ (length (token_self st) < 128)%nat /\ (length (token_host st) < 64)%nat /\
  (length (pending_href st) < 128)%nat /\ (length (pending_host st) < 64)%nat /\ (length (pending_self st) < 128)%nat /\
  (token st = [] -> token_host st = [] /\ token_port st = 0).

Lemma lookup_put_str (k key val : cstr) (f : flash) : put_str key val f !! k = if bool_decide (k = key) then (if bool_decide (val = []) then None else Some (IStr val)) else f !! k.
Proof. unfold put_str. repeat case_bool_decide; subst; by rewrite ?lookup_delete_eq, ?lookup_insert_eq, ?lookup_delete_ne, ?lookup_insert_ne. Qed.

Lemma lookup_put_num (k key : cstr) (i : item) (f : flash) : put_num key i f !! k = if bool_decide (k = key) then Some i else f !! k.
Proof. unfold put_num. case_bool_decide; subst; by rewrite ?lookup_insert_eq, ?lookup_insert_ne. Qed.

(** Which items a prefix of the writes has written. *)
Ltac saved_lookup := unfold saved, puts; cbn [take foldl]; repeat (rewrite lookup_put_str || rewrite lookup_put_num);
  repeat match goal with |- context [bool_decide (lit ?a = lit ?b)] =>
    let v := eval vm_compute in (bool_decide (lit a = lit b)) in change (bool_decide (lit a = lit b)) with v end; cbv iota; try reflexivity.

Lemma str_in_some (val key : cstr) (size : nat) (f : flash) : f !! key = (if bool_decide (val = []) then None else Some (IStr val)) -> (length val < size)%nat -> str_in f key size = val.
Proof. unfold str_in. intros ->. case_bool_decide; [done|]. intros Hl. destruct (Nat.ltb_spec size (length val + 1)); [lia|done]. Qed.

Lemma load_saved (st : espos_sk_tok_store_t) (f : flash) : storable st -> load_store (saved st 9 f) = st.
Proof.
  intros (H1 & H2 & H3 & H4 & H5 & H6 & H7). destruct st as [t ts th tp ph phost pp ps]. cbn [token token_self token_host token_port pending_href pending_host pending_port pending_self] in *.
  unfold load_store. set (g := saved _ 9 f). assert (Et : str_in g (lit "token") 1024 = t) by (apply str_in_some; [subst g; saved_lookup|done]). rewrite Et. cbv zeta.
  rewrite (str_in_some ts), (str_in_some th), (str_in_some ph), (str_in_some phost), (str_in_some ps); try (subst g; saved_lookup; done); try done.
  unfold num_in. replace (g !! lit "tok_sum") with (Some (IU32 (token_sum t))) by (subst g; saved_lookup). replace (g !! lit "tok_port") with (Some (IU16 tp)) by (subst g; saved_lookup).
  replace (g !! lit "pend_port") with (Some (IU16 pp)) by (subst g; saved_lookup). cbn [mbind option_bind is_u16 is_u32 default from_option]. rewrite (bool_decide_true (Some _ = _)) by done.
  case_bool_decide as Hn; [destruct (H7 Hn) as [-> ->]; by rewrite Hn|done].
Qed.

Section Props.
Context {W : Type} `{!HasNvs W} `{!HasRandom W}.
#[local] Abbreviation M := (act flash W flash).

(** The flash works. *)
Definition works : Prop := forall op w, (nv_ask op w).1.1 = true.

Lemma works_reads : works -> reads (W := W).
Proof. intros H op w _. apply H. Qed.

(** A computation that goes through the flashes [P] and ends with [Q]. *)
Definition fwp {A : Type} (P : flash -> Prop) (m : M A) (Q : A -> flash -> Prop) (f : flash) : Prop :=
  forall w tr, exists new, m_trace (m (Mach f w tr)).2 = new ++ tr /\ Forall P new /\ Q (m (Mach f w tr)).1 (m_sm (m (Mach f w tr)).2).

Lemma fwp_ret {A : Type} (P : flash -> Prop) (a : A) (Q : A -> flash -> Prop) f : Q a f -> fwp P (mret a) Q f.
Proof. intros H w tr. by exists []. Qed.

Lemma fwp_bind {A B : Type} (P : flash -> Prop) (m : M A) (k : A -> M B) Q f : fwp P m (fun a => fwp P (k a) Q) f -> fwp P (m ≫= k) Q f.
Proof.
  intros Hm w tr. unfold mbind, act_bind. destruct (Hm w tr) as (n1 & H1 & F1 & H2). destruct (m (Mach f w tr)) as [a [f1 w1 tr1]]. cbn in *. subst tr1.
  destruct (H2 w1 (n1 ++ tr)) as (n2 & -> & F2 & H3). exists (n2 ++ n1). rewrite app_assoc. split_and!; [done|by apply Forall_app|done].
Qed.

Lemma fwp_mono {A : Type} (P : flash -> Prop) (m : M A) (Q Q' : A -> flash -> Prop) f : fwp P m Q f -> (forall a g, Q a g -> Q' a g) -> fwp P m Q' f.
Proof. intros Hm HQ w tr. destruct (Hm w tr) as (n & H1 & H2 & H3). exists n. auto. Qed.

Lemma fwp_query {A : Type} (P : flash -> Prop) (g : W -> A * W) Q f : (forall w, Q (g w).1 f) -> fwp P (query g) Q f.
Proof. intros HQ w tr. exists []. unfold query. cbn. specialize (HQ w). destruct (g w). by split_and!. Qed.

Lemma fwp_gets {A : Type} (P : flash -> Prop) (g : flash -> A) (Q : A -> flash -> Prop) f : Q (g f) f -> fwp P (gets g) Q f.
Proof. intros H w tr. by exists []. Qed.

Lemma fwp_touch (P : flash -> Prop) (g : flash -> flash) (Q : unit -> flash -> Prop) (f : flash) : P (g f) -> Q tt (g f) -> fwp P (nv_touch g) Q f.
Proof. intros HP HQ w tr. exists [g f]. by repeat constructor. Qed.

Lemma fwp_set (P : flash -> Prop) (key : cstr) (i : item) (Q : esp_err_t -> flash -> Prop) (f : flash) : works -> P (<[key := i]> f) -> Q ESP_OK (<[key := i]> f) -> fwp P (nvs_set key i) Q f.
Proof.
  intros Hw HP HQ. unfold nvs_set. apply fwp_bind, fwp_query. intros w. specialize (Hw NvSet w). destruct (nv_ask NvSet w) as [[ok dn] w']. cbn in *. subst ok.
  apply fwp_bind, fwp_touch; [done|]. by apply fwp_ret.
Qed.

Lemma fwp_set_or_erase (P : flash -> Prop) (key val : cstr) (Q : esp_err_t -> flash -> Prop) (f : flash) : works -> P (put_str key val f) -> Q ESP_OK (put_str key val f) -> fwp P (set_or_erase key val) Q f.
Proof.
  intros Hw. unfold set_or_erase, put_str. destruct (bool_decide (val = [])) eqn:E; cbn [negb]; [|intros; by apply fwp_set].
  intros HP HQ. unfold nvs_erase_key. apply fwp_bind, fwp_bind, fwp_query. intros w. specialize (Hw NvErase w). destruct (nv_ask NvErase w) as [[ok dn] w']. cbn in *. subst ok.
  apply fwp_bind, fwp_gets. cbn [fl bare_flash id andb]. destruct (bool_decide (f !! key = None)) eqn:Ek.
  - apply bool_decide_eq_true in Ek. apply fwp_ret, fwp_ret. rewrite bool_decide_true by done. by rewrite (delete_id f key Ek) in HQ.
  - apply fwp_bind, fwp_touch; [done|]. apply fwp_ret, fwp_ret. by rewrite bool_decide_false.
Qed.

(** A save goes through the prefixes of its writes and succeeds. *)
Lemma fwp_save (st : espos_sk_tok_store_t) (f : flash) : works -> fwp (fun g => exists n, g = saved st n f) (espos_sk_store_save st) (fun e g => e = ESP_OK /\ g = saved st 9 f) f.
Proof.
  intros Hw. unfold espos_sk_store_save, nvs_open. apply fwp_bind, fwp_bind, fwp_query. intros w. pose proof (Hw NvOpen w) as Ho. destruct (nv_ask NvOpen w) as [[ok dn] w'].
  cbn in Ho. subst ok. apply fwp_ret. cbn [negb save_writes all_writes].
  apply fwp_bind, fwp_set_or_erase; [done|by exists 1%nat|]. apply fwp_bind, fwp_set_or_erase; [done|by exists 2%nat|].
  apply fwp_bind, fwp_set_or_erase; [done|by exists 3%nat|]. apply fwp_bind, fwp_set; [done|by exists 4%nat|].
  apply fwp_bind, fwp_set; [done|by exists 5%nat|]. apply fwp_bind, fwp_set_or_erase; [done|by exists 6%nat|].
  apply fwp_bind, fwp_set_or_erase; [done|by exists 7%nat|]. apply fwp_bind, fwp_set_or_erase; [done|by exists 8%nat|].
  apply fwp_bind, fwp_set; [done|by exists 9%nat|]. unfold nvs_commit. apply fwp_bind, fwp_bind, fwp_query. intros w2. specialize (Hw NvCommit w2).
  destruct (nv_ask NvCommit w2) as [[ok dn'] w3]. cbn in Hw. subst ok. by apply fwp_ret, fwp_ret.
Qed.

(** A load finds what the items stand for. *)
Lemma wp_store_load (Q : esp_err_t * espos_sk_tok_store_t * cstr -> mach flash W flash -> Prop) (s : mach flash W flash) : reads (W := W) -> str_in (m_sm s) (lit "client_id") 40 <> [] ->
  (forall w', Q (ESP_OK, load_store (m_sm s), str_in (m_sm s) (lit "client_id") 40) (Mach (m_sm s) w' (m_trace s))) -> wp espos_sk_store_load Q s.
Proof.
  intros Hr Hid HQ. unfold espos_sk_store_load. apply wp_bind, wp_nv_open; [done|]. intros w0. cbn [negb m_sm m_trace].
  apply wp_bind, wp_nv_get_str; [done|]. cbn [m_sm m_trace fl bare_flash id]. intros w1. apply wp_bind. rewrite bool_decide_false by done. apply wp_ret.
  do 6 (apply wp_bind, wp_nv_get_str; [done|]; cbn [m_sm m_trace fl bare_flash id]; intros ?w).
  apply wp_bind, wp_nv_get_num; [done|]. cbn [m_sm m_trace fl bare_flash id]. intros w8 e1 v1 E1 _.
  apply wp_bind, wp_nv_get_num; [done|]. cbn [m_sm m_trace fl bare_flash id]. intros w9 e2 v2 E2 _. apply wp_bind. rewrite E1, E2. unfold load_store in HQ. cbv zeta in HQ.
  destruct (bool_decide (str_in (m_sm s) (lit "token") 1024 = [])); [apply wp_ret, wp_ret, HQ|]. cbn [orb] in HQ.
  apply wp_bind, wp_nv_get_num; [done|]. cbn [m_sm m_trace fl bare_flash id]. intros w10 e3 v3 E3 E4. apply wp_ret, wp_ret.
  replace (negb (is_ok e3) || negb (v3 =? token_sum (str_in (m_sm s) (lit "token") 1024)))
    with (negb (bool_decide (m_sm s !! lit "tok_sum" ≫= is_u32 = Some (token_sum (str_in (m_sm s) (lit "token") 1024))))); [apply HQ|].
  unfold num_in in E3. set (tok := str_in (m_sm s) (lit "token") 1024). clearbody tok. clear - E3 E4. destruct (m_sm s !! lit "tok_sum" ≫= is_u32) as [v|].
  - assert (is_ok e3 = true) as Hok by (apply E4; by eexists). rewrite Hok in *. cbn [negb orb default from_option] in *. subst v3. cbn [default from_option]. f_equal.
    change (id v) with v. destruct (Z.eqb_spec v (token_sum tok)) as [->|Hne]; [by apply bool_decide_true|apply bool_decide_false; congruence].
  - assert (is_ok e3 = false) as -> by (destruct (is_ok e3); [by destruct (proj1 E4 eq_refl)|done]). done.
Qed.

(** ** The round trip *)

(** On a flash that works, a saved store is the loaded one, byte for byte, with the client id it had. *)
Theorem sk_store_round_trip (st : espos_sk_tok_store_t) (f : flash) (w w' : W) (tr : list flash) : works -> storable st -> str_in f (lit "client_id") 40 <> [] ->
  let '(e, s) := espos_sk_store_save st (Mach f w tr) in
  e = ESP_OK /\ (espos_sk_store_load (Mach (m_sm s) w' [])).1 = (ESP_OK, st, str_in f (lit "client_id") 40).
Proof.
  intros Hw Hst Hid. destruct (fwp_save st f Hw w tr) as (new & _ & _ & He & Hf). destruct (espos_sk_store_save st (Mach f w tr)) as [e s]. cbn [fst snd] in *. split; [done|].
  assert (Ec : str_in (m_sm s) (lit "client_id") 40 = str_in f (lit "client_id") 40) by (rewrite Hf; unfold str_in; saved_lookup).
  apply (wp_store_load (fun r _ => r = (ESP_OK, st, str_in f (lit "client_id") 40)) (Mach (m_sm s) w' [])); cbn [m_sm m_trace]; [by apply works_reads|by rewrite Ec|].
  intros _. by rewrite Ec, Hf, load_saved.
Qed.

(** ** Power cuts *)

(** The token and the address it is believed to be from. *)
Definition bearer (st : espos_sk_tok_store_t) : cstr * cstr * Z := (token st, token_host st, token_port st).
Definition no_address (st : espos_sk_tok_store_t) : Prop := token_host st = [] /\ token_port st = 0.

Lemma load_unsummed (f : flash) : f !! lit "tok_sum" ≫= is_u32 <> Some (token_sum (str_in f (lit "token") 1024)) -> no_address (load_store f).
Proof. intros H. unfold load_store, no_address. cbv zeta. rewrite (bool_decide_false (_ = Some _)) by done. by rewrite orb_true_r. Qed.

(** The new token, with the host and the port each of the old record or of the new
    one: only when the sum on the flash is the new token's already. *)
Definition resaved (st : espos_sk_tok_store_t) (f g : flash) : Prop :=
  f !! lit "tok_sum" ≫= is_u32 = Some (token_sum (token st)) /\ token (load_store g) = token st /\
  (token_host (load_store g) = str_in f (lit "tok_host") 64 \/ token_host (load_store g) = token_host st) /\
  (token_port (load_store g) = num_in f is_u16 (lit "tok_port") \/ token_port (load_store g) = token_port st).

Lemma bearer_prefix (st : espos_sk_tok_store_t) (n : nat) (f : flash) : storable st ->
  no_address (load_store (saved st n f)) \/ bearer (load_store (saved st n f)) = bearer (load_store f) \/ bearer (load_store (saved st n f)) = bearer st \/
  resaved st f (saved st n f).
Proof.
  intros Hst. destruct n as [|n]; [right; left; reflexivity|]. destruct (decide (n < 4)%nat) as [Hn|Hn].
  - assert (Et : str_in (saved st (S n) f) (lit "token") 1024 = token st).
    { destruct Hst as (H1 & _). apply str_in_some; [do 4 (destruct n as [|n]; [saved_lookup|]); lia|done]. }
    assert (Es : saved st (S n) f !! lit "tok_sum" = f !! lit "tok_sum") by (do 4 (destruct n as [|n]; [saved_lookup|]); lia).
    destruct (decide (f !! lit "tok_sum" ≫= is_u32 = Some (token_sum (token st)))) as [Hsum|Hsum]; [|left; apply load_unsummed; by rewrite Et, Es].
    destruct (decide (token st = [])) as [E|E]; [left; unfold load_store, no_address; cbv zeta; by rewrite Et, bool_decide_true|].
    right; right; right. unfold resaved, load_store. cbv zeta. cbn [token token_host token_port]. rewrite Et, Es, bool_decide_false, bool_decide_true by done. cbn [orb negb].
    split; [done|]. split; [done|]. destruct Hst as (_ & _ & H3 & _). split.
    + destruct (decide (n < 2)%nat); [left; unfold str_in; do 2 (destruct n as [|n]; [saved_lookup|]); lia|]. right.
      apply str_in_some; [do 4 (destruct n as [|n]; [lia || saved_lookup|]); lia|done].
    + destruct (decide (n < 3)%nat); [left; unfold num_in; do 3 (destruct n as [|n]; [saved_lookup|]); lia|]. right.
      unfold num_in. do 4 (destruct n as [|n]; [lia || saved_lookup|]). lia.
  - right; right; left. transitivity (bearer (load_store (saved st 9 f))); [|by rewrite load_saved]. unfold bearer, load_store. cbn [token token_host token_port].
    assert (H : forall k, In k [lit "token"; lit "tok_host"; lit "tok_port"; lit "tok_sum"] -> saved st (S n) f !! k = saved st 9 f !! k).
    { intros k Hk. do 4 (destruct n as [|n]; [lia|]). cbn [In] in Hk. destruct_or! Hk; subst k; try done; do 5 (destruct n as [|n]; [saved_lookup|]); saved_lookup. }
    unfold str_in, num_in. rewrite !H by (cbn; tauto). done.
Qed.

(** C7. Power cut during a save on a flash that works: at every moment the load
    finds the old token with its address, the new one with its address, or a token
    without an address; or, only when the sum on the flash is that of the new token
    already (the same token saved with another address), the new token with a host
    and a port each of which is the old or the new one. *)
Theorem sk_store_torn (st : espos_sk_tok_store_t) (f : flash) (w : W) (tr : list flash) : works -> storable st ->
  exists new, m_trace (espos_sk_store_save st (Mach f w tr)).2 = new ++ tr /\
  Forall (fun g => no_address (load_store g) \/ bearer (load_store g) = bearer (load_store f) \/ bearer (load_store g) = bearer st \/ resaved st f g) new.
Proof.
  intros Hw Hst. destruct (fwp_save st f Hw w tr) as (new & Ht & Hn & _). exists new. split; [done|]. eapply Forall_impl; [exact Hn|]. intros g [n ->]. by apply bearer_prefix.
Qed.

(** ** The vessel *)

(** What a call may do: [f] before it, [g] after it. *)
Definition vessel_kept (f g : flash) (err : esp_err_t) (uuid : cstr) : Prop :=
  (f !! lit "vessel_id" <> None -> g = f) /\ (err = ESP_OK -> g !! lit "vessel_id" = Some (IStr uuid)) /\
  (err <> ESP_OK -> uuid = []) /\ (forall k, k <> lit "vessel_id" -> g !! k = f !! k).

Lemma vessel_error (f : flash) (err : esp_err_t) : err <> ESP_OK -> vessel_kept f f err [].
Proof. by intros H. Qed.

Lemma vessel_new (f : flash) (err : esp_err_t) (uuid : cstr) : f !! lit "vessel_id" = None ->
  vessel_kept f (<[lit "vessel_id" := IStr uuid]> f) err (if is_ok err then uuid else []).
Proof.
  intros E. unfold vessel_kept. repeat split; [by rewrite E|intros ->; apply lookup_insert_eq|by destruct err|intros k Hk; by rewrite lookup_insert_ne].
Qed.

(** Whatever fails, the vessel's UUID is never replaced: an item that is there stays, a result without an error is the item, and an error gives no UUID. *)
Theorem sk_vessel_uuid_stable (f : flash) (w : W) (tr : list flash) :
  let '((err, uuid), s) := espos_sk_store_vessel_uuid (Mach f w tr) in vessel_kept f (m_sm s) err uuid.
Proof.
  unfold espos_sk_store_vessel_uuid, nvs_open, nvs_get_str, make_uuid, nvs_set, nvs_commit, nv_touch, mbind, act_bind, query, gets, mods, emit, mret, act_ret. cbn [m_sm m_world m_trace].
  destruct (nv_ask NvOpen w) as [[[] d1] w1]; cbn [negb m_sm m_world m_trace]; [|by apply vessel_error].
  destruct (nv_ask NvGet w1) as [[[] d2] w2]; cbn [negb is_ok andb fl bare_flash id m_sm m_world m_trace]; [|rewrite !bool_decide_false by done; by apply vessel_error].
  destruct (f !! lit "vessel_id") as [[| | | |u]|] eqn:E; try (rewrite !bool_decide_false by done; by apply vessel_error).
  { destruct (40 <? _)%nat; cbn [is_ok negb andb]; rewrite !bool_decide_false by done; [by apply vessel_error|]. by repeat split. }
  rewrite !bool_decide_true by done. cbn [negb]. rewrite andb_false_r. cbn [m_sm m_world m_trace].
  destruct (esp_random w2) as [r0 w3]. cbn [m_sm m_world m_trace]. destruct (esp_random w3) as [r1 w4]. cbn [m_sm m_world m_trace].
  destruct (esp_random w4) as [r2 w5]. cbn [m_sm m_world m_trace]. destruct (esp_random w5) as [r3 w6]. cbn [m_sm m_world m_trace].
  destruct (nv_ask NvSet w6) as [[ok dn] w7]. destruct ok; cbn [orb m_sm m_world m_trace]; [change (is_ok ESP_OK) with true|change (is_ok ESP_FAIL) with false]; cbn [m_sm m_world m_trace].
  - destruct (nv_ask NvCommit w7) as [[ok d8] w8]. destruct ok; [apply (vessel_new f ESP_OK)|apply (vessel_new f ESP_FAIL)]; done.
  - destruct dn; cbn [m_sm]; [apply (vessel_new f ESP_FAIL); done|by apply vessel_error].
Qed.
End Props.

(** * Runs *)

(** A flash that fails as a list says, and works when the list is used up; random
    numbers that are all alike. *)
#[local] Instance fault_nvs : HasNvs (list (bool * bool)) := fun _ w => match w with [] => ((true, true), []) | a :: w' => (a, w') end.
#[local] Instance fault_random : HasRandom (list (bool * bool)) := fun w => (0x12345678, w).
#[local] Instance good_nvs : HasNvs unit := fun _ w => ((true, true), w).
#[local] Instance good_random : HasRandom unit := fun w => (0x12345678, w).

Definition boat_id : cstr := lit "6f9619ff-8b86-4011-b42d-00c04fc964ff".
Definition old_store : espos_sk_tok_store_t := SkTokStore (lit "old.token") (lit "urn:old") (lit "10.0.0.1") 3000 [] [] 0 [].
Definition new_store : espos_sk_tok_store_t := SkTokStore (lit "new.token") (lit "urn:new") (lit "10.0.0.2") 3001 (lit "/href") (lit "10.0.0.2") 3001 [].
Definition old_flash : flash := saved old_store 9 {[lit "client_id" := IStr boat_id]}.

Lemma good_works : works (W := unit).
Proof. by intros op w. Qed.

Lemma new_storable : storable new_store.
Proof. repeat split; try (vm_compute; lia); vm_compute; discriminate. Qed.

Lemma sk_store_round_trip_witness :
  let '(e, s) := espos_sk_store_save new_store (Mach old_flash tt []) in
  e = ESP_OK /\ (espos_sk_store_load (Mach (m_sm s) tt [])).1 = (ESP_OK, new_store, str_in old_flash (lit "client_id") 40).
Proof. apply (sk_store_round_trip new_store old_flash tt tt []); [apply good_works|apply new_storable|vm_compute; discriminate]. Defined.

Lemma sk_store_torn_witness : exists new, m_trace (espos_sk_store_save new_store (Mach old_flash tt [])).2 = new ++ [] /\
  Forall (fun g => no_address (load_store g) \/ bearer (load_store g) = bearer (load_store old_flash) \/ bearer (load_store g) = bearer new_store \/ resaved new_store old_flash g) new.
Proof. apply (sk_store_torn new_store old_flash tt []); [apply good_works|apply new_storable]. Defined.

(** The token of the old record entered again for another server: the cut after the
    host leaves it with the new host and the old port. *)
Example resaved_mixes : let st := SkTokStore (lit "old.token") (lit "urn:new") (lit "10.0.0.2") 3001 [] [] 0 [] in
  In (lit "old.token", lit "10.0.0.2", 3000) (map (fun g => bearer (load_store g)) (m_trace (espos_sk_store_save st (Mach old_flash tt [])).2)).
Proof. vm_compute. tauto. Qed.

(** Errors of the flash: one failed read of the client id makes the load overwrite it with a new one, for good; and a save of which only the write of the address fails leaves the new token with the old server's host, with the sum that says it is its own. *)
Theorem sk_store_faults :
  (let '((_, _, id), s) := espos_sk_store_load (Mach old_flash [(true, true); (false, false)] []) in
   id <> boat_id /\ str_in (m_sm s) (lit "client_id") 40 = id) /\
  (let '(e, s) := espos_sk_store_save new_store (Mach old_flash [(true, true); (true, true); (true, true); (false, false)] []) in
   e <> ESP_OK /\ bearer (load_store (m_sm s)) = (token new_store, token_host old_store, token_port new_store)).
Proof. split; vm_compute; split; try reflexivity; discriminate. Qed.
