(* ===== verification/Sched.v ===== *)
(** The timer wheel under the flow loop: [espos_sched.c] and its header.

    The caller reads the clock; the wheel says which timers are due, in which
    order they run, and how long the loop may sleep. Callbacks run in the middle
    of a sweep and may add and cancel timers: the sweep is written over a host, a
    state that has a wheel and runs callbacks, which may also never return. *)
From Stdlib Require Import ZArith Lia.
From stdpp Require Import base list numbers option.
From S2P Require Import Prelude ConfigDesc.
Open Scope Z_scope.

Definition ESPOS_SCHED_MAX_DELAY_MS : Z := 0x7FFFFFFF.
Definition ESPOS_SCHED_HANDLE_NONE : Z := 0.

(** A callback by its address: 0 is NULL. *)
Record espos_sched_timer_t := SchedTimer {
  t_cb : Z;
  t_arg : Z;
  due_ms : Z;
  period_ms : Z;
  gen : Z;
  used : bool;
  cancelled : bool;
  swept : bool;
  fresh : bool }.
#[export] Instance sched_timer_eta : Eta espos_sched_timer_t :=
  fun t => SchedTimer (t_cb t) (t_arg t) (due_ms t) (period_ms t) (gen t) (used t) (cancelled t) (swept t) (fresh t).

(** [bound]: the pointer to the slots is set; the capacity is their number. *)
Record espos_sched_t := SchedT {
  slots : list espos_sched_timer_t;
  bound : bool;
  seq : Z;
  firing : bool }.
#[export] Instance sched_eta : Eta espos_sched_t := fun s => SchedT (slots s) (bound s) (seq s) (firing s).

Definition timer_zero : espos_sched_timer_t := SchedTimer 0 0 0 0 0 false false false false.
Definition sched_zero : espos_sched_t := SchedT [] false 0 false.

(** * Handles *)

Definition H_MAKE (idx : nat) (g : Z) : Z := Z.lor (u32 (Z.shiftl g 16)) (Z.land (Z.of_nat idx) 0xFFFF).
Definition H_IDX (h : Z) : nat := Z.to_nat (Z.land h 0xFFFF).
Definition H_GEN (h : Z) : Z := u16 (Z.shiftr h 16).

(** * Time *)

(** [a] is at or after [b] on the wrapping clock. *)
Definition espos_sched_reached (a b : Z) : bool := 0 <=? i32 (u32 (a - b)).

(** * Operations *)

(** [tbl]: the caller's array, [None] for NULL. *)
Definition espos_sched_init (s : espos_sched_t) (tbl : option (list espos_sched_timer_t)) : esp_err_t * espos_sched_t :=
  match tbl with
  | None => (ESP_ERR_INVALID_ARG, s)
  | Some l =>
      if ((length l =? 0)%nat || (0xFFFF <? Z.of_nat (length l))) then (ESP_ERR_INVALID_ARG, s)
      else (ESP_OK, SchedT (replicate (length l) timer_zero) true 1 false)
  end.

(** The next generation, never 0, and the sequence number after it. *)
Definition next_gen (seq : Z) : Z * Z :=
  let g := u16 (Z.land seq 0xFFFF) in
  let seq := u32 (seq + 1) in
  if g =? 0 then (u16 (Z.land seq 0xFFFF), u32 (seq + 1)) else (g, seq).

Fixpoint first_free (l : list espos_sched_timer_t) (i : nat) : option nat :=
  match l with
  | [] => None
  | t :: l' => if used t then first_free l' (S i) else Some i
  end.

(** The result, the handle (of no meaning on an argument error) and the wheel. *)
Definition espos_sched_add (s : espos_sched_t) (now_ms delay_ms period : Z) (cb arg : Z) : esp_err_t * Z * espos_sched_t :=
  if negb (bound s) || (cb =? 0) then (ESP_ERR_INVALID_ARG, ESPOS_SCHED_HANDLE_NONE, s) else
  if (ESPOS_SCHED_MAX_DELAY_MS <? delay_ms) || (ESPOS_SCHED_MAX_DELAY_MS <? period) then (ESP_ERR_INVALID_ARG, ESPOS_SCHED_HANDLE_NONE, s) else
  match first_free (slots s) 0 with
  | None => (ESP_ERR_NO_MEM, ESPOS_SCHED_HANDLE_NONE, s)
  | Some i =>
      let '(g, seq') := next_gen (seq s) in
      let t := SchedTimer cb arg (u32 (now_ms + delay_ms)) period g true false false (firing s) in
      (ESP_OK, H_MAKE i g, s <| slots := <[i := t]> (slots s) |> <| seq := seq' |>)
  end.

Definition resolve (s : espos_sched_t) (h : Z) : option (nat * espos_sched_timer_t) :=
  if h =? ESPOS_SCHED_HANDLE_NONE then None else
  match slots s !! H_IDX h with
  | None => None
  | Some t => if negb (used t) || cancelled t || negb (gen t =? H_GEN h) then None else Some (H_IDX h, t)
  end.

Definition espos_sched_cancel (s : espos_sched_t) (h : Z) : esp_err_t * espos_sched_t :=
  if negb (bound s) then (ESP_ERR_INVALID_ARG, s) else
  match resolve s h with
  | None => (ESP_ERR_NOT_FOUND, s)
  | Some (i, t) => (ESP_OK, s <| slots := <[i := t <| cancelled := true |> <| used := firing s |>]> (slots s) |>)
  end.

Fixpoint next_due_scan (now_ms : Z) (l : list espos_sched_timer_t) (best : Z) : Z :=
  match l with
  | [] => best
  | t :: l' =>
      if negb (used t) || cancelled t then next_due_scan now_ms l' best else
      let in_ms := if espos_sched_reached now_ms (due_ms t) then 0 else u32 (due_ms t - now_ms) in
      let best := if in_ms <? best then in_ms else best in
      if best =? 0 then best else next_due_scan now_ms l' best
  end.

Definition espos_sched_next_due (s : espos_sched_t) (now_ms : Z) : Z :=
  if negb (bound s) then UINT32_MAX else next_due_scan now_ms (slots s) UINT32_MAX.

Definition espos_sched_count (s : espos_sched_t) : nat :=
  if negb (bound s) then 0%nat else length (filter (fun t => used t && negb (cancelled t)) (slots s)).

(** * The sweep *)

(** May the sweep still run this slot? *)
Definition eligible (t : espos_sched_timer_t) : bool := used t && negb (cancelled t) && negb (swept t) && negb (fresh t).
Definition ready (now_ms : Z) (t : espos_sched_timer_t) : bool := eligible t && espos_sched_reached now_ms (due_ms t).

(** The earliest of the ready timers, the first slot among equals. *)
Fixpoint pick_scan (now_ms : Z) (l : list espos_sched_timer_t) (i : nat) (pick : option (nat * espos_sched_timer_t)) : option (nat * espos_sched_timer_t) :=
  match l with
  | [] => pick
  | t :: l' =>
      let pick := if ready now_ms t then
                    match pick with
                    | None => Some (i, t)
                    | Some (_, p) => if i32 (u32 (due_ms t - due_ms p)) <? 0 then Some (i, t) else pick
                    end
                  else pick in
      pick_scan now_ms l' (S i) pick
  end.

(** The deadline after the one just met. *)
Definition next_deadline (now_ms due period : Z) : Z :=
  let next := u32 (due + period) in
  if espos_sched_reached now_ms next then
    let behind := u32 (now_ms - due) in
    let skip := u32 (behind - behind mod period + period) in
    u32 (due + skip)
  else next.

(** The picked timer when its callback starts. *)
Definition mark (now_ms : Z) (t : espos_sched_timer_t) : espos_sched_timer_t :=
  let t := t <| swept := true |> in
  if period_ms t =? 0 then t <| cancelled := true |> else t <| due_ms := next_deadline now_ms (due_ms t) (period_ms t) |>.

(** A slot when the sweep is over. *)
Definition reap (t : espos_sched_timer_t) : espos_sched_timer_t :=
  let t := t <| swept := false |> <| fresh := false |> in
  if used t && cancelled t then t <| used := false |> else t.

(** A state with a wheel; [run_cb] calls back, [None] if the call never returns. *)
Class SchedHost (H : Type) := {
  sched_of : H -> espos_sched_t;
  set_sched : espos_sched_t -> H -> H;
  run_cb : Z -> Z -> H -> option H }.

Section Fire.
Context {H : Type} `{!SchedHost H}.

(** The loop of a sweep, with what it ran: slot and timer. *)
Fixpoint sweep (fuel : nat) (now_ms : Z) (h : H) : option (list (nat * espos_sched_timer_t) * H) :=
  match fuel with
  | O => None
  | S k =>
      match pick_scan now_ms (slots (sched_of h)) 0 None with
      | None => Some ([], h)
      | Some (i, t) =>
          let h := set_sched ((sched_of h) <| slots ::= <[i := mark now_ms t]> |>) h in
          h ← run_cb (t_cb t) (t_arg t) h;
          '(log, h) ← sweep k now_ms h;
          Some ((i, t) :: log, h)
      end
  end.

(** One round per slot and the one that finds nothing. *)
Definition fire_log (now_ms : Z) (h : H) : option (list (nat * espos_sched_timer_t) * H) :=
  if negb (bound (sched_of h)) || firing (sched_of h) then Some ([], h) else
  let h := set_sched ((sched_of h) <| firing := true |>) h in
  '(log, h) ← sweep (S (length (slots (sched_of h)))) now_ms h;
  Some (log, set_sched ((sched_of h) <| firing := false |> <| slots ::= map reap |>) h).

(** How many fired. *)
Definition espos_sched_fire (now_ms : Z) (h : H) : option (nat * H) :=
  '(log, h) ← fire_log now_ms h; Some (length log, h).
End Fire.
