(* ===== verification/SchedProps.v ===== *)
(** Correctness of the timer wheel ([Sched]): every sweep ends, runs exactly the
    timers that were due, each once and in the order of their deadlines, whatever
    the callbacks do to the wheel; periods do not drift; handles; sleeping. *)
From Stdlib Require Import ZArith Lia Sorting.Sorted.
From stdpp Require Import base list numbers option.
From S2P Require Import Prelude ConfigDesc Sched.
Open Scope Z_scope.

(** * The wrapping clock *)

(** How long ago, on the clock, as an unsigned distance. *)
Definition lag (now_ms : Z) (t : espos_sched_timer_t) : Z := u32 (now_ms - due_ms t).

Lemma reached_lag now t : espos_sched_reached now (due_ms t) = (lag now t <? 2 ^ 31).
Proof. unfold espos_sched_reached, lag, i32, u32. destruct (Z.leb_spec 0 ((u32 (now - due_ms t) + 2 ^ 31) mod 2 ^ 32 - 2 ^ 31)), (Z.ltb_spec ((now - due_ms t) mod 2 ^ 32) (2 ^ 31)); try done; unfold u32 in *; div_lia. Qed.

(** Among overdue timers the signed difference orders by lag. *)
Lemma earlier_lag now t u : lag now t < 2 ^ 31 -> lag now u < 2 ^ 31 -> (i32 (u32 (due_ms t - due_ms u)) <? 0) = (lag now u <? lag now t).
Proof. unfold lag, i32, u32. intros. destruct (Z.ltb_spec ((((due_ms t - due_ms u) mod 2 ^ 32) + 2 ^ 31) mod 2 ^ 32 - 2 ^ 31) 0), (Z.ltb_spec ((now - due_ms u) mod 2 ^ 32) ((now - due_ms t) mod 2 ^ 32)); try done; div_lia. Qed.

(** The order in which a sweep runs timers. *)
Definition before (now_ms : Z) (a b : nat * espos_sched_timer_t) : Prop :=
  lag now_ms b.2 < lag now_ms a.2 \/ (lag now_ms a.2 = lag now_ms b.2 /\ (a.1 < b.1)%nat).

(** * Picking *)

Lemma ready_lag now t : ready now t = true -> eligible t = true /\ lag now t < 2 ^ 31.
Proof. unfold ready. rewrite andb_true_iff, reached_lag, Z.ltb_lt. done. Qed.

Lemma sched_before_trans now a b c : before now a b -> before now b c -> before now a c.
Proof. unfold before. lia. Qed.

(** The choice among the timers [l], whose slots start at [i], and one before them. *)
Definition chosen (now : Z) (l : list espos_sched_timer_t) (i : nat) (acc : option (nat * espos_sched_timer_t)) (j : nat) (p : espos_sched_timer_t) : Prop :=
  ready now p = true /\ (acc = Some (j, p) \/ ((i <= j)%nat /\ l !! (j - i)%nat = Some p)) /\
  (forall k t, l !! k = Some t -> ready now t = true -> (i + k)%nat <> j -> before now (j, p) ((i + k)%nat, t)) /\
  (forall k t, acc = Some (k, t) -> k <> j -> before now (j, p) (k, t)).

Lemma chosen_cons now t l i acc acc' j p :
  chosen now l (S i) acc' j p ->
  (forall k u, acc' = Some (k, u) -> (k < S i)%nat /\ (acc = Some (k, u) \/ (k = i /\ u = t))) ->
  (ready now t = true -> exists k u, acc' = Some (k, u) /\ (k = i \/ before now (k, u) (i, t))) ->
  (forall k u, acc = Some (k, u) -> exists k' u', acc' = Some (k', u') /\ (k' = k \/ before now (k', u') (k, u))) ->
  (forall u, acc <> Some (i, u)) -> chosen now (t :: l) i acc j p.
Proof.
  intros (Hr & Hin & Hl & Ha) H1 H2 H3 H4.
  assert (Hb : forall k u k' u', acc' = Some (k', u') -> k' = k /\ u' = u \/ before now (k', u') (k, u) -> k <> j -> before now (j, p) (k, u)).
  { intros k u k' u' E [[-> ->]|Hb] Hk; [by apply Ha|]. destruct (decide (k' = j)) as [->|Hne]; [|by eapply sched_before_trans; [apply Ha|]].
    destruct Hin as [E'|[Hj E']]; [congruence|]. destruct (H1 _ _ E); lia. }
  split_and!; [done| | |].
  - destruct Hin as [E|[Hj E]].
    + destruct (H1 _ _ E) as [_ [?|[-> ->]]]; [by left|right]. rewrite Nat.sub_diag. done.
    + right. split; [lia|]. replace (j - i)%nat with (S (j - S i)) by lia. done.
  - intros [|k] u Eu Ru Hk; cbn in Eu.
    + injection Eu as <-. rewrite Nat.add_0_r in *. destruct (H2 Ru) as (k & u & E & Hc). eapply Hb; [exact E| |done].
      destruct Hc as [->|?]; [|by right]. left. split; [done|]. destruct (H1 _ _ E) as [_ [?|[_ ?]]]; [exfalso; by eapply H4|done].
    + replace (i + S k)%nat with (S i + k)%nat in * by lia. by apply Hl.
  - intros k u E Hk. destruct (H3 _ _ E) as (k' & u' & E' & Hc). eapply Hb; [exact E'| |done]. destruct Hc as [->|?]; [|by right]. left. split; [done|].
    destruct (H1 _ _ E') as [_ [?|[-> _]]]; [congruence|]. exfalso. by eapply H4.
Qed.

Lemma pick_scan_spec now l i acc : (forall j p, acc = Some (j, p) -> (j < i)%nat /\ ready now p = true) ->
  match pick_scan now l i acc with
  | None => acc = None /\ forall k t, l !! k = Some t -> ready now t = false
  | Some (j, p) => chosen now l i acc j p
  end.
Proof.
  revert i acc. induction l as [|t l IH]; intros i acc Ha; cbn [pick_scan].
  { destruct acc as [[j p]|]; [|by split]. destruct (Ha j p eq_refl). split_and!; auto; [done|]. intros k u [= <- <-]. done. }
  set (acc' := if ready now t then _ else acc).
  assert (Ha' : forall j p, acc' = Some (j, p) -> (j < S i)%nat /\ ready now p = true).
  { intros j p. subst acc'. destruct (ready now t) eqn:Er; [destruct acc as [[k u]|]; [destruct (_ <? 0)|]|]; intros E; try (injection E as <- <-; split; [lia|done]);
      destruct (Ha _ _ E); split; lia || done. }
  specialize (IH (S i) acc' Ha'). destruct (pick_scan now l (S i) acc') as [[j p]|].
  - assert (Hno : forall u, acc <> Some (i, u)) by (intros u ->; destruct (Ha i u eq_refl); lia).
    apply (chosen_cons _ _ _ _ _ acc'); try done; subst acc'; destruct (ready now t) eqn:Er, acc as [[k0 u0]|];
      try (destruct (Ha k0 u0 eq_refl) as [? [_ ?]%ready_lag]; pose proof (ready_lag _ _ Er) as [_ ?]; rewrite (earlier_lag now) in * by done; destruct (Z.ltb_spec (lag now u0) (lag now t)));
      intros; simplify_eq; try (split; [lia|naive_solver]); try (do 2 eexists; split; [done|]; unfold before; cbn; lia); try naive_solver lia.
  - destruct IH as [E Hn]. subst acc'. destruct (ready now t) eqn:Er; [destruct acc as [[k u]|]; [destruct (_ <? 0)|]; done|]. split; [done|].
    intros [|k] u Eu; cbn in Eu; [congruence|eauto].
Qed.

(** * What callbacks may do *)

(** The calls a callback may make on the wheel of the sweep it runs in; a nested
    sweep is refused there. *)
Inductive api : espos_sched_t -> espos_sched_t -> Prop :=
  | ApiAdd s now delay period cb arg : 0 <= period -> api s (espos_sched_add s now delay period cb arg).2
  | ApiCancel s h : api s (espos_sched_cancel s h).2
  | ApiRefl s : api s s
  | ApiTrans s1 s2 s3 : api s1 s2 -> api s2 s3 -> api s1 s3.

(** What may become of a slot during a sweep: a timer that is there is at most
    cancelled; a timer that was not there is fresh. *)
Definition may (t t' : espos_sched_timer_t) : Prop :=
  if used t then t' = t \/ t' = t <| cancelled := true |> else used t' = true -> fresh t' = true.

(** The wheel during a sweep. *)
Definition during (s s' : espos_sched_t) : Prop :=
  firing s = true -> firing s' = true /\ bound s' = bound s /\ Forall2 may (slots s) (slots s').

Lemma may_refl t : may t t.
Proof. unfold may. destruct (used t) eqn:E; [by left|]. congruence. Qed.

Lemma may_trans t1 t2 t3 : may t1 t2 -> may t2 t3 -> may t1 t3.
Proof.
  unfold may. destruct (used t1) eqn:E1.
  - intros [->| ->]; cbn; rewrite ?E1; [done|]. intros [->| ->]; by right.
  - intros H2. destruct (used t2) eqn:E2; [|done]. intros [->| ->]; [by auto|]. intros _. by apply H2.
Qed.

Lemma may_at (l : list espos_sched_timer_t) i t t' : l !! i = Some t -> may t t' -> Forall2 may l (<[i := t']> l).
Proof.
  intros E Hm. rewrite <- (list_insert_id l i t E) at 1. apply Forall2_insert; [|done]. by apply Forall_Forall2_diag, Forall_true, may_refl.
Qed.

Lemma may_all l : Forall2 may l l.
Proof. apply Forall_Forall2_diag, Forall_true, may_refl. Qed.

Lemma first_free_spec l i j : first_free l i = Some j -> (i <= j)%nat /\ exists t, l !! (j - i)%nat = Some t /\ used t = false.
Proof.
  revert i. induction l as [|t l IH]; intros i E; [done|]. cbn in E. destruct (used t) eqn:Et.
  - apply IH in E as [Hj (u & Eu & Hu)]. split; [lia|]. exists u. replace (j - i)%nat with (S (j - S i)) by lia. done.
  - injection E as <-. rewrite Nat.sub_diag. split; [lia|]. by exists t.
Qed.

Lemma resolve_spec s h i t : resolve s h = Some (i, t) -> i = H_IDX h /\ slots s !! i = Some t /\ used t = true /\ cancelled t = false /\ gen t = H_GEN h.
Proof.
  unfold resolve. destruct (h =? _); [done|]. destruct (slots s !! H_IDX h) as [u|] eqn:E; [|done].
  destruct (used u) eqn:Eu, (cancelled u) eqn:Ec, (Z.eqb_spec (gen u) (H_GEN h)); cbn; intros [= <- <-]; done.
Qed.

Lemma api_during s s' : api s s' -> during s s'.
Proof.
  induction 1 as [s now delay period cb arg _|s h|s|s1 s2 s3 _ IH1 _ IH2]; intros Hf.
  - unfold espos_sched_add. destruct (negb (bound s) || (cb =? 0)); [by split_and!; try apply may_all|].
    destruct (_ || _); [by split_and!; try apply may_all|]. destruct (first_free (slots s) 0) as [i|] eqn:E; [|by split_and!; try apply may_all].
    destruct (next_gen (seq s)) as [g sq]. cbn. apply first_free_spec in E as [_ (t & Et & Ht)]. rewrite Nat.sub_0_r in Et.
    split_and!; [done..|]. eapply may_at; [done|]. unfold may. by rewrite Ht.
  - unfold espos_sched_cancel. destruct (negb (bound s)); [by split_and!; try apply may_all|]. destruct (resolve s h) as [[i t]|] eqn:E; [|by split_and!; try apply may_all].
    apply resolve_spec in E as (_ & Et & Hu & _). cbn. split_and!; [done..|]. eapply may_at; [done|]. unfold may. rewrite Hu. right. rewrite Hf. destruct t. cbn in *. by subst.
  - split_and!; try done. apply may_all.
  - destruct (IH1 Hf) as (H1 & H2 & H3), (IH2 H1) as (H4 & H5 & H6). split_and!; [done|congruence|]. eapply Forall2_trans; [|exact H3|exact H6]. apply may_trans.
Qed.

Lemma may_eligible t t' : may t t' -> eligible t' = true -> t' = t.
Proof.
  unfold may, eligible. destruct (used t) eqn:E.
  - intros [->| ->] Ht'; [done|]. cbn in Ht'. by rewrite andb_false_r in Ht'.
  - intros H Ht'. destruct (used t'), (cancelled t'), (swept t'), (fresh t'); try done. by specialize (H eq_refl).
Qed.

(** * The sweep *)

(** A host whose callbacks touch the wheel through its calls only. *)
Class SchedHostOk (H : Type) `{!SchedHost H} := {
  sched_set : forall s (h : H), sched_of (set_sched s h) = s;
  cb_api : forall cb arg (h h' : H), run_cb cb arg h = Some h' -> api (sched_of h) (sched_of h') }.

Section Sweep.
Context {H : Type} `{!SchedHost H} `{!SchedHostOk H}.

Lemma mark_not_eligible now t : eligible (mark now t) = false.
Proof. unfold mark. destruct t as [? ? ? p ? u c sw fr]; cbn. destruct (p =? 0); unfold eligible; cbn; by rewrite ?andb_false_r, ?andb_false_l. Qed.

(** What is left to run. *)
Definition left_over (l : list espos_sched_timer_t) : nat := length (filter (fun t => eligible t) l).

Lemma left_over_may l l' : Forall2 may l l' -> (left_over l' <= left_over l)%nat.
Proof.
  unfold left_over. induction 1 as [|t t' l l' Hm _ IH]; [done|]. rewrite !filter_cons.
  destruct (decide (eligible t')) as [E'|E'], (decide (eligible t)) as [E|E]; cbn; try lia.
  exfalso. apply E. apply Is_true_eq_left. apply Is_true_eq_true in E'. by rewrite <- (may_eligible t t').
Qed.

Lemma left_over_mark now l i t : l !! i = Some t -> eligible t = true -> (S (left_over (<[i := mark now t]> l)) = left_over l)%nat.
Proof.
  unfold left_over. revert i. induction l as [|u l IH]; intros [|i] E Et; cbn in E; try done.
  - injection E as <-. cbn [insert list_insert]. rewrite !filter_cons, mark_not_eligible, Et. cbn. done.
  - change (<[S i := mark now t]> (u :: l)) with (u :: <[i := mark now t]> l). rewrite !filter_cons. specialize (IH i E Et). destruct (decide (eligible u)); cbn; lia.
Qed.

(** The callback of the timer returns, wherever it is called. *)
Definition returns (t : espos_sched_timer_t) : Prop := forall h : H, run_cb (t_cb t) (t_arg t) h <> None.

(** Enough rounds: as many as there are timers left, and one. *)
Lemma sweep_total now fuel (h : H) : (forall i t, slots (sched_of h) !! i = Some t -> eligible t = true -> returns t) -> firing (sched_of h) = true ->
  (left_over (slots (sched_of h)) < fuel)%nat -> exists log h', sweep fuel now h = Some (log, h').
Proof.
  revert h. induction fuel as [|k IH]; intros h Ht Hf Hl; [lia|]. cbn [sweep].
  pose proof (pick_scan_spec now (slots (sched_of h)) 0 None ltac:(done)) as Hp. destruct (pick_scan now _ 0 None) as [[i t]|]; [|by eauto].
  destruct Hp as (Hr & [?|[_ Ei]] & _ & _); [done|]. rewrite Nat.sub_0_r in Ei. apply ready_lag in Hr as [He _].
  cbv zeta. destruct (run_cb _ _ _) as [h2|] eqn:Ec; [|by eapply Ht in Ec]. cbn [mbind option_bind].
  apply cb_api, api_during in Ec. rewrite sched_set in Ec. destruct (Ec Hf) as (Hf2 & _ & Hm). cbn in Hm.
  destruct (IH h2) as (log & h3 & E); [|done| |].
  - intros j u Eu Hu. destruct (Forall2_lookup_r _ _ _ _ _ Hm Eu) as (u1 & E1 & H1). apply may_eligible in H1; [|done]. subst u1.
    destruct (decide (j = i)) as [->|Hj]; [|rewrite list_lookup_insert_ne in E1 by done; by eapply Ht].
    rewrite list_lookup_insert_eq in E1 by (by eapply lookup_lt_Some). injection E1 as <-. by rewrite mark_not_eligible in Hu.
  - apply left_over_may in Hm. pose proof (left_over_mark now _ _ _ Ei He). lia.
  - rewrite E. cbn. eauto.
Qed.

(** From the wheel [s] a sweep at [now] ran [log] and left [s']. *)
Record swept_to (now : Z) (s : espos_sched_t) (log : list (nat * espos_sched_timer_t)) (s' : espos_sched_t) : Prop := {
  st_firing : firing s' = true;
  st_bound : bound s' = bound s;
  st_length : length (slots s') = length (slots s);
  st_sorted : StronglySorted (before now) log;
  st_fired : forall i t, (i, t) ∈ log -> slots s !! i = Some t /\ ready now t = true /\ exists t', slots s' !! i = Some t' /\ may (mark now t) t';
  st_rest : forall i t, slots s !! i = Some t -> (i, t) ∈ log \/ exists t', slots s' !! i = Some t' /\ may t t' /\ ready now t' = false }.

Lemma swept_none now s : firing s = true -> (forall k t, slots s !! k = Some t -> ready now t = false) -> swept_to now s [] s.
Proof.
  intros Hf Hn. split; try done; [constructor|by intros i t ?%elem_of_nil|]. intros i t E. right. exists t. split_and!; [done|apply may_refl|by eapply Hn].
Qed.

Lemma swept_cons now s i t s2 log s' : chosen now (slots s) 0 None i t ->
  during (s <| slots ::= <[i := mark now t]> |>) s2 -> firing s = true -> swept_to now s2 log s' -> swept_to now s ((i, t) :: log) s'.
Proof.
  intros (Hr & [?|[_ Ei]] & Hmin & _) Hd Hf [F1 F2 F3 F4 F5 F6]; [done|]. rewrite Nat.sub_0_r in Ei. destruct (Hd Hf) as (_ & Hb & Hm). cbn in Hb, Hm.
  assert (Hlt : (i < length (slots s))%nat) by (by eapply lookup_lt_Some).
  (* what is still eligible was there before *)
  assert (Hback : forall j u, slots s2 !! j = Some u -> eligible u = true -> j <> i /\ slots s !! j = Some u).
  { intros j u Eu He. destruct (Forall2_lookup_r _ _ _ _ _ Hm Eu) as (u1 & E1 & Hu). apply may_eligible in Hu; [|done]. subst u1.
    destruct (decide (j = i)) as [->|Hj]; [|by rewrite list_lookup_insert_ne in E1].
    rewrite list_lookup_insert_eq in E1 by done. injection E1 as <-. by rewrite mark_not_eligible in He. }
  split; [done|congruence|rewrite F3, <- (Forall2_length Hm); apply length_insert| | |].
  - constructor; [done|]. apply Forall_forall. intros [j u] Hin%list_elem_of_In. destruct (F5 _ _ Hin) as (Eu & Hu & _). pose proof (ready_lag _ _ Hu) as [He _].
    destruct (Hback _ _ Eu He) as [Hj E]. by apply (Hmin j u).
  - intros j u [[= -> ->]|Hin]%elem_of_cons.
    + split_and!; [done..|]. destruct (Forall2_lookup_l _ _ _ i (mark now t) Hm) as (t2 & E2 & Ht2); [by apply list_lookup_insert_eq|].
      destruct (F6 _ _ E2) as [Hin|(t' & E' & Ht' & _)]; [|exists t'; split; [done|by eapply may_trans]].
      destruct (F5 _ _ Hin) as (_ & [He _]%ready_lag & _). apply may_eligible in Ht2; [|done]. subst. by rewrite mark_not_eligible in He.
    + destruct (F5 _ _ Hin) as (Eu & Hu & Hx). pose proof (ready_lag _ _ Hu) as [He _]. destruct (Hback _ _ Eu He) as [_ E]. by split_and!.
  - intros j u Eu. destruct (decide (j = i)) as [->|Hj]; [left; rewrite Ei in Eu; injection Eu as ->; by left|].
    destruct (Forall2_lookup_l _ _ _ j u Hm) as (u2 & E2 & Hu2); [by rewrite list_lookup_insert_ne|].
    destruct (F6 _ _ E2) as [Hin|(t' & E' & Ht' & Hn)]; [left; right|right; exists t'; split_and!; [done|by eapply may_trans|done]].
    destruct (F5 _ _ Hin) as (_ & [He _]%ready_lag & _). apply may_eligible in Hu2; [|done]. by subst.
Qed.

Lemma sweep_spec now fuel (h h' : H) log : sweep fuel now h = Some (log, h') -> firing (sched_of h) = true -> swept_to now (sched_of h) log (sched_of h').
Proof.
  revert h log. induction fuel as [|k IH]; intros h log E Hf; [done|]. cbn [sweep] in E.
  pose proof (pick_scan_spec now (slots (sched_of h)) 0 None ltac:(done)) as Hp. destruct (pick_scan now _ 0 None) as [[i t]|].
  - cbv zeta in E. destruct (run_cb _ _ _) as [h2|] eqn:Ec; [|done]. cbn [mbind option_bind] in E.
    destruct (sweep k now h2) as [[log2 h3]|] eqn:E2; [|done]. cbn in E. injection E as <- <-.
    apply cb_api, api_during in Ec. rewrite sched_set in Ec. eapply swept_cons; [done|exact Ec|done|]. apply IH; [done|]. by destruct (Ec Hf).
  - destruct Hp as [_ Hn]. injection E as <- <-. by apply swept_none.
Qed.
End Sweep.

(** * Between sweeps *)

Definition timer_ok (t : espos_sched_timer_t) : Prop :=
  0 <= due_ms t < 2 ^ 32 /\ 0 <= period_ms t <= ESPOS_SCHED_MAX_DELAY_MS /\ (used t = true -> 0 < gen t < 2 ^ 16).
Definition rested (t : espos_sched_timer_t) : Prop := swept t = false /\ fresh t = false /\ (used t = true -> cancelled t = false).

Record sched_sound (s : espos_sched_t) : Prop := {
  ss_bound : bound s = true;
  ss_cap : 0 < Z.of_nat (length (slots s)) <= 0xFFFF;
  ss_seq : 0 <= seq s < 2 ^ 32;
  ss_timers : Forall timer_ok (slots s) }.

(** The wheel when no sweep is running. *)
Definition sched_inv (s : espos_sched_t) : Prop := sched_sound s /\ firing s = false /\ Forall rested (slots s).

Lemma next_gen_range sq : 0 <= sq < 2 ^ 32 -> 0 < (next_gen sq).1 < 2 ^ 16 /\ 0 <= (next_gen sq).2 < 2 ^ 32.
Proof.
  intros Hs. unfold next_gen, u16, u32. change 0xFFFF with (Z.ones 16). rewrite !Z.land_ones by lia.
  destruct (Z.eqb_spec ((sq mod 2 ^ 16) mod 2 ^ 16) 0); cbn [fst snd]; div_lia.
Qed.

(** The next deadline is the first of the timer's own that is still to come. *)
Lemma next_deadline_spec now due period : 0 <= due < 2 ^ 32 -> 0 < period <= ESPOS_SCHED_MAX_DELAY_MS -> u32 (now - due) < 2 ^ 31 ->
  0 < u32 (next_deadline now due period - now) <= period /\ exists k, 0 < k /\ next_deadline now due period = u32 (due + k * period).
Proof.
  unfold ESPOS_SCHED_MAX_DELAY_MS. intros Hd Hp Hl. unfold next_deadline. set (behind := u32 (now - due)) in *. assert (Hb : 0 <= behind < 2 ^ 31) by (subst behind; unfold u32 in *; div_lia).
  pose proof (Z.div_mod behind period ltac:(lia)) as Hdm. pose proof (Z.mod_pos_bound behind period ltac:(lia)) as Hm.
  assert (Hq : 0 <= behind / period) by (apply Z.div_pos; lia).
  destruct (espos_sched_reached now (u32 (due + period))) eqn:Er.
  - split.
    + replace (u32 (u32 (due + u32 (behind - behind mod period + period)) - now)) with (period - behind mod period); [lia|]. subst behind. unfold u32 in *. div_lia.
    + exists (behind / period + 1). split; [lia|]. replace ((behind / period + 1) * period) with (behind - behind mod period + period) by lia. unfold u32. div_lia.
  - split; [|exists 1; split; [lia|f_equal; lia]].
    assert (behind < period) as Hlt.
    { destruct (Z.ltb_spec behind period); [done|]. exfalso. unfold espos_sched_reached, i32 in Er. subst behind. unfold u32 in *. apply Z.leb_gt in Er. div_lia. }
    replace (u32 (u32 (due + period) - now)) with (period - behind); [lia|]. subst behind. unfold u32 in *. div_lia.
Qed.

Lemma reap_rested t : rested (reap t).
Proof. unfold rested, reap. destruct t as [? ? ? ? ? [] [] ? ?]; cbn; by split_and!. Qed.

Lemma reap_ok t : timer_ok t -> timer_ok (reap t).
Proof. unfold timer_ok, reap. destruct t as [? ? ? ? ? [] [] ? ?]; cbn; naive_solver. Qed.

Lemma mark_ok now t : timer_ok t -> timer_ok (mark now t).
Proof.
  unfold timer_ok, mark. destruct t as [? ? d p ? u c ? ?]; cbn. intros (Hd & Hp & Hg). destruct (p =? 0); cbn; [done|]. split_and!; try done; try lia.
  all: unfold next_deadline, u32; destruct (espos_sched_reached _ _); apply Z.mod_pos_bound; lia.
Qed.

Lemma sound_add s now delay period cb arg : sched_sound s -> 0 <= period -> sched_sound (espos_sched_add s now delay period cb arg).2.
Proof.
  intros Hi Hp. unfold espos_sched_add. destruct (_ || _); [done|]. destruct ((_ <? delay) || _) eqn:Ed; [done|]. destruct (first_free (slots s) 0) as [i|] eqn:E; [|done].
  pose proof (next_gen_range (seq s) (ss_seq _ Hi)) as Hg. destruct (next_gen (seq s)) as [g sq]. cbn [fst snd] in *. destruct Hi as [B C S T].
  apply orb_false_iff in Ed as [_ Ed%Z.ltb_ge]. split; cbn; try done; [by rewrite length_insert|lia|apply Forall_insert; [done|]].
  split_and!; cbn; try lia. all: unfold u32; apply Z.mod_pos_bound; lia.
Qed.

Lemma sound_cancel s h : sched_sound s -> sched_sound (espos_sched_cancel s h).2.
Proof.
  intros Hi. unfold espos_sched_cancel. destruct (negb _); [done|]. destruct (resolve s h) as [[i t]|] eqn:E; [|done]. apply resolve_spec in E as (_ & Et & Hu & _).
  destruct Hi as [B C S T]. pose proof (Forall_lookup_1 _ _ _ _ T Et) as (? & ? & ?).
  split; cbn; try done; [by rewrite length_insert|apply Forall_insert; [done|]]. split_and!; cbn; naive_solver.
Qed.

Lemma sound_api s s' : api s s' -> sched_sound s -> sched_sound s'.
Proof. induction 1; intros; auto using sound_add, sound_cancel. Qed.

Lemma inv_add s now delay period cb arg : sched_inv s -> 0 <= period -> sched_inv (espos_sched_add s now delay period cb arg).2.
Proof.
  intros (Hs & F & R) Hp. split; [by apply sound_add|]. unfold espos_sched_add. destruct (_ || _); [done|]. destruct (_ || _); [done|].
  destruct (first_free (slots s) 0) as [i|] eqn:E; [|done]. destruct (next_gen (seq s)) as [g sq]. cbn. split; [done|]. apply Forall_insert; [done|]. by split_and!.
Qed.

Lemma inv_cancel s h : sched_inv s -> sched_inv (espos_sched_cancel s h).2.
Proof.
  intros (Hs & F & R). split; [by apply sound_cancel|]. unfold espos_sched_cancel. destruct (negb _); [done|].
  destruct (resolve s h) as [[i t]|] eqn:E; [|done]. apply resolve_spec in E as (_ & Et & Hu & _). pose proof (Forall_lookup_1 _ _ _ _ R Et) as (? & ? & ?).
  cbn. split; [done|]. apply Forall_insert; [done|]. split_and!; cbn; try done. by rewrite F.
Qed.

Lemma inv_init s l : Z.of_nat (length l) <= 0xFFFF -> (0 < length l)%nat -> (espos_sched_init s (Some l)).1 = ESP_OK /\ sched_inv (espos_sched_init s (Some l)).2.
Proof.
  intros Hl H0. unfold espos_sched_init. destruct (Nat.eqb_spec (length l) 0); [lia|]. destruct (Z.ltb_spec 0xFFFF (Z.of_nat (length l))); [lia|]. cbn [orb fst snd].
  split; [done|]. split; [|split; [done|apply Forall_replicate; by split_and!]]. split; cbn [slots bound seq]; rewrite ?length_replicate; try lia; try done.
  apply Forall_replicate. unfold timer_ok, ESPOS_SCHED_MAX_DELAY_MS. cbn. split_and!; lia || done.
Qed.

(** * A sweep *)

Section FireProps.
Context {H : Type} `{!SchedHost H} `{!SchedHostOk H}.

Lemma sweep_sound now fuel (h h' : H) log : sweep fuel now h = Some (log, h') -> sched_sound (sched_of h) -> sched_sound (sched_of h').
Proof.
  revert h log. induction fuel as [|k IH]; intros h log E Hs; [done|]. cbn [sweep] in E.
  pose proof (pick_scan_spec now (slots (sched_of h)) 0 None ltac:(done)) as Hp. destruct (pick_scan now _ 0 None) as [[i t]|]; [|by injection E as <- <-].
  cbv zeta in E. destruct (run_cb _ _ _) as [h2|] eqn:Ec; [|done]. cbn [mbind option_bind] in E. destruct (sweep k now h2) as [[log2 h3]|] eqn:E2; [|done]. injection E as <- <-.
  eapply IH; [exact E2|]. eapply sound_api; [by eapply cb_api|]. rewrite sched_set. destruct Hp as (_ & [?|[_ Ei]] & _); [done|]. rewrite Nat.sub_0_r in Ei.
  destruct Hs as [B C S T]. split; cbn; try done; [by rewrite length_insert|]. apply Forall_insert; [done|]. apply mark_ok. by eapply Forall_lookup_1.
Qed.

(** What a sweep at [now] has done to the wheel [s]: it ran [log] and left [s']. *)
Record fired_exactly (now : Z) (s : espos_sched_t) (log : list (nat * espos_sched_timer_t)) (s' : espos_sched_t) : Prop := {
  (* in the order of the deadlines, slots in order among equals, none twice *)
  fe_sorted : StronglySorted (before now) log;
  (* only timers that were armed and due *)
  fe_due : forall i t, (i, t) ∈ log -> slots s !! i = Some t /\ used t = true /\ espos_sched_reached now (due_ms t) = true;
  (* all of them, but those that a callback cancelled first *)
  fe_all : forall i t, slots s !! i = Some t -> used t = true -> espos_sched_reached now (due_ms t) = true ->
    (i, t) ∈ log \/ exists t', slots s' !! i = Some t' /\ used t' = false;
  (* a one-shot is over, a periodic timer has its next deadline or was cancelled *)
  fe_after : forall i t, (i, t) ∈ log -> exists t', slots s' !! i = Some t' /\
    (used t' = false \/ (period_ms t <> 0 /\ t' = t <| due_ms := next_deadline now (due_ms t) (period_ms t) |>));
  (* a timer that is not due stays or is cancelled *)
  fe_kept : forall i t, slots s !! i = Some t -> used t = true -> espos_sched_reached now (due_ms t) = false ->
    exists t', slots s' !! i = Some t' /\ (t' = t \/ used t' = false) }.

Lemma rested_ready now t : rested t -> used t = true -> ready now t = espos_sched_reached now (due_ms t).
Proof. intros (Hs & Hf & Hc) Hu. unfold ready, eligible. rewrite Hu, Hs, Hf, (Hc Hu). done. Qed.

Lemma ready_used now t : ready now t = true -> used t = true /\ espos_sched_reached now (due_ms t) = true.
Proof. unfold ready, eligible. destruct (used t); cbn; [|done]. rewrite andb_true_iff. tauto. Qed.

Lemma reap_may t t' : rested t -> used t = true -> may t t' -> reap t' = t \/ used (reap t') = false.
Proof.
  unfold may, rested. intros (Hs & Hf & Hc) Hu. rewrite Hu. specialize (Hc Hu). destruct t as [? ? ? ? ? u c sw fr]. cbn in Hs, Hf, Hc, Hu. subst. intros [->| ->]; cbn; auto.
Qed.

Lemma reap_mark now t t' : rested t -> used t = true -> may (mark now t) t' ->
  used (reap t') = false \/ (period_ms t <> 0 /\ reap t' = t <| due_ms := next_deadline now (due_ms t) (period_ms t) |>).
Proof.
  unfold may, rested, mark. intros (Hs & Hf & Hc) Hu. specialize (Hc Hu). destruct t as [? ? ? p ? u c sw fr]. cbn in Hs, Hf, Hc, Hu. subst. cbn.
  destruct (Z.eqb_spec p 0); cbn; intros [->| ->]; cbn; auto.
Qed.

Lemma fired_reap now s log s2 s' : sched_inv s -> swept_to now (s <| firing := true |>) log s2 -> slots s' = map reap (slots s2) -> fired_exactly now s log s'.
Proof.
  intros (Hs & Hf & Hr) [F1 F2 F3 F4 F5 F6] E'. cbn in F5, F6.
  assert (Hl : forall i t, slots s2 !! i = Some t -> slots s' !! i = Some (reap t)) by (intros i t E; rewrite E'; change (map reap (slots s2)) with (reap <$> slots s2); by rewrite list_lookup_fmap, E).
  assert (Hrest : forall i t, slots s !! i = Some t -> rested t) by (intros i t E; by eapply Forall_lookup_1).
  split; [done| | | |].
  - intros i t Hin. destruct (F5 _ _ Hin) as (Et & Hrd & _). by destruct (ready_used _ _ Hrd).
  - intros i t Et Hu Hd. destruct (F6 _ _ Et) as [?|(t' & E2 & Hm & Hn)]; [by left|right]. exists (reap t'). split; [by apply Hl|].
    pose proof (rested_ready now t (Hrest _ _ Et) Hu) as Hrd. rewrite Hd in Hrd. unfold may in Hm. rewrite Hu in Hm. destruct Hm as [->| ->]; [congruence|].
    destruct t; cbn in *; by subst.
  - intros i t Hin. destruct (F5 _ _ Hin) as (Et & Hrd & t' & E2 & Hm). destruct (ready_used _ _ Hrd) as [Hu _]. exists (reap t'). split; [by apply Hl|].
    apply reap_mark; [by eapply Hrest|done|done].
  - intros i t Et Hu Hd. destruct (F6 _ _ Et) as [Hin|(t' & E2 & Hm & _)].
    + destruct (F5 _ _ Hin) as (_ & Hrd & _). rewrite (rested_ready now t (Hrest _ _ Et) Hu) in Hrd. congruence.
    + exists (reap t'). split; [by apply Hl|]. apply reap_may; [by eapply Hrest|done|done].
Qed.

Lemma fire_spec now (h : H) : sched_inv (sched_of h) -> (forall i t, slots (sched_of h) !! i = Some t -> used t = true -> returns (H := H) t) ->
  exists log h', fire_log now h = Some (log, h') /\ sched_inv (sched_of h') /\ fired_exactly now (sched_of h) log (sched_of h').
Proof.
  intros Hi Ht. pose proof Hi as (Hs & Hf & Hr). unfold fire_log. rewrite (ss_bound _ Hs), Hf. cbn [negb orb]. cbv zeta. rewrite sched_set.
  set (h1 := set_sched _ h). assert (E1 : sched_of h1 = (sched_of h) <| firing := true |>) by apply sched_set.
  destruct (sweep_total now (S (length (slots (sched_of h)))) h1) as (log & h2 & E);
    [rewrite E1; intros i t Et He; apply (Ht i t Et); unfold eligible in He; by destruct (used t)|by rewrite E1|rewrite E1; cbn; apply Nat.lt_succ_r, length_filter|].
  cbn [slots update]. rewrite E. cbn [mbind option_bind]. eexists _, _. split; [done|]. rewrite sched_set.
  assert (Hs2 : sched_sound (sched_of h2)) by (eapply sweep_sound; [exact E|]; rewrite E1; by destruct Hs).
  pose proof (sweep_spec _ _ _ _ _ E) as Hsp. rewrite E1 in Hsp. specialize (Hsp eq_refl). split.
  - destruct Hs2 as [B C S T]. split; [|split; [done|]]; cbn.
    + split; cbn; try done; [by rewrite length_map|]. apply Forall_map. eapply Forall_impl; [|exact T]. apply reap_ok.
    + apply Forall_map, Forall_true, reap_rested.
  - by eapply fired_reap.
Qed.
End FireProps.

(** * Callbacks as programs *)

(** A callback of the wheel alone: calls whose results it may use. *)
Inductive prog :=
  | PDone
  | PAdd (now delay : Z) (period : N) (cb arg : Z) (k : esp_err_t * Z -> prog)
  | PCancel (h : Z) (k : esp_err_t -> prog)
  | PNextDue (now : Z) (k : Z -> prog)
  | PFire (now : Z) (k : nat -> prog)
  | PCount (k : nat -> prog).

(** During a sweep: a nested sweep runs nothing. *)
Fixpoint run_prog (p : prog) (s : espos_sched_t) : espos_sched_t :=
  match p with
  | PDone => s
  | PAdd now delay period cb arg k => let '(e, h, s) := espos_sched_add s now delay (Z.of_N period) cb arg in run_prog (k (e, h)) s
  | PCancel h k => let '(e, s) := espos_sched_cancel s h in run_prog (k e) s
  | PNextDue now k => run_prog (k (espos_sched_next_due s now)) s
  | PFire now k => run_prog (k 0%nat) s
  | PCount k => run_prog (k (espos_sched_count s)) s
  end.

Record prog_host := ProgHost { ph_sched : espos_sched_t; ph_prog : Z -> Z -> prog }.
#[export] Instance prog_sched_host : SchedHost prog_host := {
  sched_of := ph_sched;
  set_sched s h := ProgHost s (ph_prog h);
  run_cb cb arg h := Some (ProgHost (run_prog (ph_prog h cb arg) (ph_sched h)) (ph_prog h)) }.

Lemma run_prog_api p s : api s (run_prog p s).
Proof.
  revert s. induction p as [|now delay period cb arg k IH|h k IH|now k IH|now k IH|k IH]; intros s; cbn [run_prog]; [constructor| | |apply IH..].
  - pose proof (ApiAdd s now delay (Z.of_N period) cb arg ltac:(lia)) as Ha. destruct (espos_sched_add _ _ _ _ _ _) as [[e h] s1]. eapply ApiTrans; [exact Ha|apply IH].
  - pose proof (ApiCancel s h) as Ha. destruct (espos_sched_cancel s h) as [e s1]. eapply ApiTrans; [exact Ha|apply IH].
Qed.

#[export] Instance prog_host_ok : SchedHostOk prog_host.
Proof. split; [done|]. intros cb arg h h' [= <-]. apply run_prog_api. Qed.

(** A nested sweep is refused, so [run_prog] may leave it out. *)
Lemma nested_refused {H : Type} `{!SchedHost H} now (h : H) : firing (sched_of h) = true -> espos_sched_fire now h = Some (0%nat, h).
Proof. intros Hf. unfold espos_sched_fire, fire_log. by rewrite Hf, orb_true_r. Qed.

(** * The properties *)

(** C8. A sweep ends and is exact, whatever the callbacks add and cancel: it runs the armed timers that are due, each once, the earliest deadline first, and no timer that a callback armed; the wheel keeps its invariant. *)
Theorem sched_fire_exact {H : Type} `{!SchedHost H} `{!SchedHostOk H} now (h : H) : sched_inv (sched_of h) -> (forall i t, slots (sched_of h) !! i = Some t -> used t = true -> returns (H := H) t) ->
  exists log h', fire_log now h = Some (log, h') /\ espos_sched_fire now h = Some (length log, h') /\ sched_inv (sched_of h') /\ fired_exactly now (sched_of h) log (sched_of h').
Proof.
  intros Hi Ht. destruct (fire_spec now h Hi Ht) as (log & h' & E & Hi' & Hx). exists log, h'. unfold espos_sched_fire. rewrite E. done.
Qed.

(** Periods do not drift and are not made up: after a sweep at [now] that ran a periodic timer, its deadline is one of its own, a whole number of periods on, at most one period ahead of [now] and not yet reached. *)
Theorem sched_no_drift {H : Type} `{!SchedHost H} `{!SchedHostOk H} now (h h' : H) log i t t' : sched_inv (sched_of h) -> (forall i t, slots (sched_of h) !! i = Some t -> used t = true -> returns (H := H) t) ->
  fire_log now h = Some (log, h') -> (i, t) ∈ log -> slots (sched_of h') !! i = Some t' -> used t' = true ->
  (exists k, 0 < k /\ due_ms t' = u32 (due_ms t + k * period_ms t)) /\ 0 < u32 (due_ms t' - now) <= period_ms t /\ espos_sched_reached now (due_ms t') = false /\
  t_cb t' = t_cb t /\ t_arg t' = t_arg t /\ gen t' = gen t.
Proof.
  intros Hi Ht E Hin Et' Hu. destruct (fire_spec now h Hi Ht) as (log2 & h2 & E2 & _ & Hx). rewrite E in E2. injection E2 as <- <-.
  destruct (fe_after _ _ _ _ Hx _ _ Hin) as (t2 & Et2 & H2). replace t2 with t' in H2 by congruence. destruct H2 as [?|[Hp ->]]; [congruence|].
  destruct (fe_due _ _ _ _ Hx _ _ Hin) as (Et & _ & Hd). destruct Hi as (Hs & _ & _). pose proof (Forall_lookup_1 _ _ _ _ (ss_timers _ Hs) Et) as (H1 & H3 & _).
  rewrite reached_lag in Hd. apply Z.ltb_lt in Hd. unfold lag in Hd. destruct (next_deadline_spec now (due_ms t) (period_ms t) H1 ltac:(lia) Hd) as [Hn Hk].
  cbn. split_and!; try done; try lia. unfold espos_sched_reached, i32. apply Z.leb_gt. unfold ESPOS_SCHED_MAX_DELAY_MS in H3. unfold u32 in *. div_lia.
Qed.
