(* ===== verification/SchedTime.v ===== *)
(** The timer wheel ([Sched]) and its clock: how long the loop may sleep, that the
    wrap of the clock is no special case, and how long a handle stays spent. *)
From Stdlib Require Import ZArith Lia Sorting.Sorted.
From stdpp Require Import base list numbers option.
From S2P Require Import Prelude ConfigDesc Sched SchedProps.
Open Scope Z_scope.

(** * Sleeping *)

Definition live (t : espos_sched_timer_t) : bool := used t && negb (cancelled t).
Definition wait_of (now_ms : Z) (t : espos_sched_timer_t) : Z := if espos_sched_reached now_ms (due_ms t) then 0 else u32 (due_ms t - now_ms).

Lemma wait_range now t : 0 <= wait_of now t <= 2 ^ 31.
Proof. unfold wait_of. rewrite reached_lag. unfold lag. destruct (Z.ltb_spec (u32 (now - due_ms t)) (2 ^ 31)); unfold u32 in *; div_lia. Qed.

(** A timer becomes due exactly after its wait. *)
Lemma wait_exact now t d : 0 <= d <= 2 ^ 31 -> d <= wait_of now t -> espos_sched_reached (u32 (now + d)) (due_ms t) = true <-> d = wait_of now t.
Proof.
  intros Hd. unfold wait_of. rewrite !reached_lag. unfold lag. destruct (Z.ltb_spec (u32 (now - due_ms t)) (2 ^ 31)); rewrite Z.ltb_lt; unfold u32 in *; intros; split; intros; div_lia.
Qed.

Lemma next_due_scan_spec now l best : 0 <= best ->
  let m := next_due_scan now l best in
  m <= best /\ 0 <= m /\ (forall t, t ∈ l -> live t = true -> m <= wait_of now t) /\ (m = best \/ exists t, t ∈ l /\ live t = true /\ m = wait_of now t).
Proof.
  revert best. induction l as [|t l IH]; intros best Hb; cbn [next_due_scan]; cbv zeta.
  { split_and!; [lia|lia|by intros t ?%elem_of_nil|by left]. }
  assert (El : negb (used t) || cancelled t = negb (live t)) by (unfold live; by destruct (used t), (cancelled t)). rewrite El. destruct (live t) eqn:Elv; cbn [negb].
  - fold (wait_of now t). pose proof (wait_range now t) as Hw. set (b := if wait_of now t <? best then wait_of now t else best).
    assert (Hbb : 0 <= b /\ b <= best /\ b <= wait_of now t /\ (b = best \/ b = wait_of now t)) by (subst b; destruct (Z.ltb_spec (wait_of now t) best); lia).
    destruct (Z.eqb_spec b 0) as [E0|E0].
    + split_and!; [lia|lia|intros u _ _; pose proof (wait_range now u); lia|]. destruct Hbb as (_ & _ & _ & [?|?]); [by left|right]. exists t. split_and!; [by left|done|done].
    + destruct (IH b ltac:(lia)) as (H1 & H2 & H3 & H4). split_and!; [lia|lia| |].
      * intros u [->|Hu]%elem_of_cons Hl; [lia|by apply H3].
      * destruct H4 as [E|(u & Hu & Hl & E)]; [|right; exists u; split_and!; [by right|done|done]].
        destruct Hbb as (_ & _ & _ & [?|?]); [left; congruence|right]. exists t. split_and!; [by left|done|congruence].
  - destruct (IH best Hb) as (H1 & H2 & H3 & H4). split_and!; [done|done| |].
    + intros u [->|Hu]%elem_of_cons Hl; [congruence|by apply H3].
    + destruct H4 as [?|(u & Hu & Hl & E)]; [by left|right]. exists u. split_and!; [by right|done|done].
Qed.

(** The sleep is exact: without an armed timer the loop may block; otherwise it may sleep at most 2^31 ms, after that sleep a timer is due, and at no earlier moment one is, across the wrap of the clock. *)
Theorem sched_sleep_exact s now : sched_inv s ->
  let m := espos_sched_next_due s now in
  ((forall t, t ∈ slots s -> live t = false) -> m = UINT32_MAX) /\
  ((exists t, t ∈ slots s /\ live t = true) -> 0 <= m <= 2 ^ 31 /\
     (exists t, t ∈ slots s /\ live t = true /\ espos_sched_reached (u32 (now + m)) (due_ms t) = true) /\
     (forall d t, 0 <= d < m -> t ∈ slots s -> live t = true -> espos_sched_reached (u32 (now + d)) (due_ms t) = false)).
Proof.
  intros (Hs & _ & _). unfold espos_sched_next_due. rewrite (ss_bound _ Hs). cbn [negb]. cbv zeta.
  destruct (next_due_scan_spec now (slots s) UINT32_MAX ltac:(done)) as (H1 & H2 & H3 & H4). set (m := next_due_scan _ _ _) in *. split.
  - intros Hn. destruct H4 as [?|(t & Ht & Hl & _)]; [done|]. by rewrite Hn in Hl.
  - intros (t & Ht & Hl). pose proof (H3 _ Ht Hl) as Hm. pose proof (wait_range now t) as Hw. assert (m <> UINT32_MAX) by (unfold UINT32_MAX; lia).
    destruct H4 as [?|(u & Hu & Hul & Eu)]; [done|]. split_and!; try lia.
    + exists u. split_and!; [done..|]. apply wait_exact; lia.
    + intros d v Hd Hv Hvl. specialize (H3 _ Hv Hvl). apply not_true_iff_false. rewrite wait_exact by lia. lia.
Qed.

(** * The wrap of the clock *)

Definition shift_timer (c : Z) (t : espos_sched_timer_t) : espos_sched_timer_t := t <| due_ms ::= fun d => u32 (d + c) |>.
Definition shift (c : Z) (s : espos_sched_t) : espos_sched_t := s <| slots ::= map (shift_timer c) |>.

Lemma lag_shift c now t : lag (u32 (now + c)) (shift_timer c t) = lag now t.
Proof. unfold lag, shift_timer, u32. destruct t; cbn. div_lia. Qed.

Lemma reached_shift c now t : espos_sched_reached (u32 (now + c)) (due_ms (shift_timer c t)) = espos_sched_reached now (due_ms t).
Proof. by rewrite !reached_lag, lag_shift. Qed.

Lemma ready_shift c now t : ready (u32 (now + c)) (shift_timer c t) = ready now t.
Proof. unfold ready. rewrite reached_shift. done. Qed.

Lemma u32_shift_sub c a b : u32 (u32 (a + c) - u32 (b + c)) = u32 (a - b).
Proof. unfold u32. div_lia. Qed.

Lemma next_deadline_shift c now due period : next_deadline (u32 (now + c)) (u32 (due + c)) period = u32 (next_deadline now due period + c).
Proof.
  unfold next_deadline, espos_sched_reached. rewrite !u32_shift_sub. replace (u32 (u32 (due + c) + period)) with (u32 (u32 (due + period) + c)) by (unfold u32; div_lia).
  rewrite u32_shift_sub. destruct (0 <=? _); [|done]. generalize (u32 (u32 (now - due) - u32 (now - due) mod period + period)). intros k. unfold u32. div_lia.
Qed.

Lemma mark_shift c now t : mark (u32 (now + c)) (shift_timer c t) = shift_timer c (mark now t).
Proof. unfold mark, shift_timer. destruct t; cbn. destruct (_ =? 0); cbn; [done|]. by rewrite next_deadline_shift. Qed.

Lemma pick_shift c now l i acc : pick_scan (u32 (now + c)) (map (shift_timer c) l) i (prod_map id (shift_timer c) <$> acc) = prod_map id (shift_timer c) <$> pick_scan now l i acc.
Proof.
  revert i acc. induction l as [|t l IH]; intros i acc; [done|]. cbn [pick_scan map]. rewrite ready_shift, <- IH. f_equal. destruct (ready now t); [|done].
  destruct acc as [[j p]|]; cbn; [|done]. rewrite u32_shift_sub. by destruct (_ <? 0).
Qed.

Lemma map_insert_at {A B} (f : A -> B) (l : list A) i x : map f (<[i := x]> l) = <[i := f x]> (map f l).
Proof. exact (list_fmap_insert f l i x). Qed.

Lemma next_due_shift c now s : espos_sched_next_due (shift c s) (u32 (now + c)) = espos_sched_next_due s now.
Proof.
  unfold espos_sched_next_due. cbn. destruct (negb (bound s)); [done|]. generalize UINT32_MAX. induction (slots s) as [|t l IH]; intros b; [done|]. cbn [map next_due_scan].
  rewrite reached_shift. cbn [shift_timer used cancelled due_ms update]. rewrite u32_shift_sub, !IH. done.
Qed.

Lemma add_shift c now s delay period cb arg :
  espos_sched_add (shift c s) (u32 (now + c)) delay period cb arg = let '(e, h, s') := espos_sched_add s now delay period cb arg in (e, h, shift c s').
Proof.
  unfold espos_sched_add. cbn [shift slots bound seq firing update]. destruct (_ || _); [done|]. destruct (_ || _); [done|].
  assert (E : forall l i, first_free (map (shift_timer c) l) i = first_free l i) by (induction l as [|t l IH]; intros i; cbn; [done|]; by rewrite IH). rewrite E.
  destruct (first_free (slots s) 0) as [i|]; [|done]. destruct (next_gen (seq s)) as [g sq]. unfold shift. cbn. rewrite map_insert_at. do 3 f_equal.
  unfold shift_timer. cbn. f_equal. unfold u32. div_lia.
Qed.

(** A host whose callbacks do not look at the clock: the host shifted behaves as the host. *)
Section Shifted.
Context {H : Type} `{!SchedHost H} `{!SchedHostOk H} (sh : H -> H) (c : Z).
Hypothesis sh_sched : forall h : H, sched_of (sh h) = shift c (sched_of h).
Hypothesis sh_set : forall s (h : H), set_sched (shift c s) (sh h) = sh (set_sched s h).
Hypothesis sh_cb : forall cb arg (h : H), run_cb cb arg (sh h) = sh <$> run_cb cb arg h.

Definition shift_log (l : list (nat * espos_sched_timer_t)) := map (prod_map id (shift_timer c)) l.

Lemma sweep_shift now fuel (h : H) : sweep fuel (u32 (now + c)) (sh h) = prod_map shift_log sh <$> sweep fuel now h.
Proof.
  revert h. induction fuel as [|k IH]; intros h; [done|]. cbn [sweep]. rewrite sh_sched. cbn [shift slots update].
  rewrite (pick_shift c now (slots (sched_of h)) 0 None). destruct (pick_scan now _ 0 None) as [[i t]|]; cbn [fmap option_fmap option_map prod_map fst snd id]; [|done].
  rewrite mark_shift, <- map_insert_at. change (t_cb (shift_timer c t)) with (t_cb t). change (t_arg (shift_timer c t)) with (t_arg t).
  pose proof (sh_set ((sched_of h) <| slots ::= <[i := mark now t]> |>) h) as Es. unfold shift in Es. cbn in Es. cbn. rewrite Es, sh_cb.
  destruct (run_cb _ _ _) as [h2|]; cbn; [|done]. rewrite IH. by destruct (sweep k now h2) as [[log h3]|].
Qed.

Lemma reap_shift t : reap (shift_timer c t) = shift_timer c (reap t).
Proof. unfold reap. destruct t as [? ? ? ? ? [] [] ? ?]; done. Qed.

(** The wrap of the clock is no special case: with all deadlines and the clock moved by any distance, a sweep runs the same timers in the same order, and the sleep is the same. *)
Theorem sched_wrap_free now (h : H) :
  fire_log (u32 (now + c)) (sh h) = prod_map shift_log sh <$> fire_log now h /\
  espos_sched_next_due (sched_of (sh h)) (u32 (now + c)) = espos_sched_next_due (sched_of h) now.
Proof.
  split; [|rewrite sh_sched; apply next_due_shift]. unfold fire_log. rewrite sh_sched.
  change (bound (shift c (sched_of h))) with (bound (sched_of h)). change (firing (shift c (sched_of h))) with (firing (sched_of h)). destruct (_ || _); [done|]. cbv zeta.
  pose proof (sh_set ((sched_of h) <| firing := true |>) h) as E1. change ((shift c (sched_of h)) <| firing := true |>) with (shift c ((sched_of h) <| firing := true |>)). rewrite E1, sh_sched, !sched_set. cbn [shift slots update]. rewrite length_map, sweep_shift.
  destruct (sweep _ now _) as [[log h2]|]; cbn; [|done]. do 2 f_equal. rewrite sh_sched.
  pose proof (sh_set ((sched_of h2) <| firing := false |> <| slots ::= map reap |>) h2) as E2. unfold shift in E2. cbn in E2. rewrite <- E2. cbn. do 2 f_equal.
  rewrite !map_map. apply map_ext. apply reap_shift.
Qed.
End Shifted.

(** * Handles *)

Lemma H_MAKE_sum i g : Z.of_nat i <= 0xFFFF -> 0 <= g < 2 ^ 16 -> H_MAKE i g = g * 2 ^ 16 + Z.of_nat i.
Proof.
  intros Hi Hg. unfold H_MAKE. change 0xFFFF with (Z.ones 16). rewrite Z.land_ones, Z.mod_small by lia. unfold u32. rewrite Z.mod_small; [apply lor_split; lia|].
  rewrite Z.shiftl_mul_pow2 by lia. lia.
Qed.

Lemma H_IDX_make i g : Z.of_nat i <= 0xFFFF -> 0 <= g < 2 ^ 16 -> H_IDX (H_MAKE i g) = i.
Proof. intros Hi Hg. unfold H_IDX. rewrite H_MAKE_sum by done. change 0xFFFF with (Z.ones 16). rewrite Z.land_ones by lia. apply Nat2Z.inj. rewrite Z2Nat.id; div_lia. Qed.

Lemma H_GEN_make i g : Z.of_nat i <= 0xFFFF -> 0 <= g < 2 ^ 16 -> H_GEN (H_MAKE i g) = g.
Proof. intros Hi Hg. unfold H_GEN, u16. rewrite H_MAKE_sum, Z.shiftr_div_pow2 by lia. div_lia. Qed.

(** No live timer answers to the handle. *)
Definition spent (h : Z) (s : espos_sched_t) : Prop := forall t, slots s !! H_IDX h = Some t -> live t = true -> gen t <> H_GEN h.

Lemma spent_cancel h s : bound s = true -> spent h s -> espos_sched_cancel s h = (ESP_ERR_NOT_FOUND, s).
Proof.
  intros Hb Hs. unfold espos_sched_cancel. rewrite Hb. cbn [negb]. destruct (resolve s h) as [[i t]|] eqn:E; [|done]. apply resolve_spec in E as (-> & E & Hu & Hc & Hg).
  exfalso. apply (Hs t); [done|unfold live; by rewrite Hu, Hc|done].
Qed.

(** A step that adds nothing: a cancel, a round of a sweep, the end of one. *)
Definition quiet (s s' : espos_sched_t) : Prop :=
  seq s' = seq s /\ Forall2 (fun t t' => gen t' = gen t /\ (live t' = true -> live t = true)) (slots s) (slots s').

(** The wheel after some steps, [n] adds among them. *)
Inductive later : nat -> espos_sched_t -> espos_sched_t -> Prop :=
  | LaterRefl s : later 0 s s
  | LaterQuiet n s s1 s2 : later n s s1 -> quiet s1 s2 -> later n s s2
  | LaterAdd n s s1 now delay period cb arg h s2 : later n s s1 -> espos_sched_add s1 now delay period cb arg = (ESP_OK, h, s2) -> later (S n) s s2.

Lemma quiet_at s i t t' : slots s !! i = Some t -> gen t' = gen t -> (live t' = true -> live t = true) -> quiet s (s <| slots := <[i := t']> (slots s) |>).
Proof.
  intros E Hg Hl. split; [done|]. cbn. rewrite <- (list_insert_id (slots s) i t E) at 1. apply Forall2_insert; [|done]. by apply Forall_Forall2_diag, Forall_true.
Qed.

Lemma quiet_cancel s h : quiet s (espos_sched_cancel s h).2.
Proof.
  assert (quiet s s) by (split; [done|]; by apply Forall_Forall2_diag, Forall_true).
  unfold espos_sched_cancel. destruct (negb _); [done|]. destruct (resolve s h) as [[i t]|] eqn:E; [|done]. apply resolve_spec in E as (_ & E & Hu & Hc & _).
  eapply quiet_at; [done|done|]. unfold live. by rewrite Hu, Hc.
Qed.

Lemma quiet_mark now s i t : slots s !! i = Some t -> quiet s (s <| slots ::= <[i := mark now t]> |>).
Proof.
  intros E. eapply (quiet_at s i t); [done|unfold mark; cbn; by destruct (_ =? 0)|]. unfold mark, live; cbn. destruct (period_ms t =? 0); cbn; [by rewrite andb_false_r|done].
Qed.

Lemma quiet_reap s b : quiet s (s <| firing := b |> <| slots ::= map reap |>).
Proof.
  split; [done|]. cbn. change (map reap (slots s)) with (reap <$> slots s). apply Forall2_fmap_r, Forall_Forall2_diag, Forall_true. intros t. unfold reap, live. destruct t as [? ? ? ? ? [] [] ? ?]; done.
Qed.

Lemma later_trans n m s1 s2 s3 : later n s1 s2 -> later m s2 s3 -> later (m + n) s1 s3.
Proof. intros H1 H2. induction H2; cbn; [done|by eapply LaterQuiet; [auto|]|by eapply LaterAdd; [auto|]]. Qed.

(** How far the sequence has gone since the generation [g], modulo 2^16. *)
Definition since (g : Z) (s : espos_sched_t) : Z := (seq s - g) mod 2 ^ 16.
Definition after_adds (g : Z) (n : nat) (s : espos_sched_t) : Prop :=
  (since g s = Z.of_nat n + 1 /\ since g s <= 2 ^ 16 - g) \/ (since g s = Z.of_nat n + 2 /\ since g s > 2 ^ 16 - g).

Lemma next_gen_mod sq : next_gen sq = if sq mod 2 ^ 16 =? 0 then (1, u32 (u32 (sq + 1) + 1)) else (sq mod 2 ^ 16, u32 (sq + 1)).
Proof.
  unfold next_gen, u16, u32. change 0xFFFF with (Z.ones 16). rewrite !Z.land_ones by lia. rewrite Z.mod_mod by lia. destruct (Z.eqb_spec (sq mod 2 ^ 16) 0) as [E|]; [|done]. f_equal. div_lia.
Qed.

Lemma add_inv s now delay period cb arg h s' : espos_sched_add s now delay period cb arg = (ESP_OK, h, s') ->
  exists i t, slots s !! i = Some t /\ used t = false /\ h = H_MAKE i (next_gen (seq s)).1 /\
    s' = s <| slots := <[i := SchedTimer cb arg (u32 (now + delay)) period (next_gen (seq s)).1 true false false (firing s)]> (slots s) |> <| seq := (next_gen (seq s)).2 |>.
Proof.
  unfold espos_sched_add. destruct (_ || _); [done|]. destruct (_ || _); [done|]. destruct (first_free (slots s) 0) as [i|] eqn:E; [|done].
  apply first_free_spec in E as [_ (t & E & Hu)]. rewrite Nat.sub_0_r in E. destruct (next_gen (seq s)) as [g sq]. cbn. intros [= <- <-]. exists i, t. done.
Qed.

Lemma after_first sq sq' g : 0 <= sq < 2 ^ 32 -> next_gen sq = (g, sq') -> (sq' - g) mod 2 ^ 16 = 1 /\ 0 < g < 2 ^ 16.
Proof. intros Hs. rewrite next_gen_mod. destruct (Z.eqb_spec (sq mod 2 ^ 16) 0); intros [= <- <-]; unfold u32; div_lia. Qed.

Lemma after_next g n sq g' sq' : 0 < g < 2 ^ 16 -> Z.of_nat n < 65533 -> next_gen sq = (g', sq') ->
  ((sq - g) mod 2 ^ 16 = Z.of_nat n + 1 /\ (sq - g) mod 2 ^ 16 <= 2 ^ 16 - g) \/ ((sq - g) mod 2 ^ 16 = Z.of_nat n + 2 /\ (sq - g) mod 2 ^ 16 > 2 ^ 16 - g) ->
  g' <> g /\ (((sq' - g) mod 2 ^ 16 = Z.of_nat n + 2 /\ (sq' - g) mod 2 ^ 16 <= 2 ^ 16 - g) \/ ((sq' - g) mod 2 ^ 16 = Z.of_nat n + 3 /\ (sq' - g) mod 2 ^ 16 > 2 ^ 16 - g)).
Proof. intros Hg Hn. rewrite next_gen_mod. destruct (Z.eqb_spec (sq mod 2 ^ 16) 0); intros [= <- <-]; unfold u32; intros [[? ?]|[? ?]]; div_lia. Qed.

Lemma spent_quiet h s s' : quiet s s' -> spent h s -> spent h s'.
Proof. intros [_ Hq] Hs t' E Hl. destruct (Forall2_lookup_r _ _ _ _ _ Hq E) as (t & Et & Hg & Ht). rewrite Hg. apply Hs; auto. Qed.

Lemma spent_add h s now delay period cb arg h' s' : espos_sched_add s now delay period cb arg = (ESP_OK, h', s') -> (next_gen (seq s)).1 <> H_GEN h -> spent h s -> spent h s'.
Proof.
  intros (i & t & E & Hu & -> & ->)%add_inv Hg Hs u Eu Hl. cbn in Eu. destruct (decide (H_IDX h = i)) as [Ei|Ei].
  - rewrite Ei, list_lookup_insert_eq in Eu by (by eapply lookup_lt_Some). by injection Eu as <-.
  - rewrite list_lookup_insert_ne in Eu by done. by apply (Hs u).
Qed.

Lemma later_after g n m s1 s2 : 0 < g < 2 ^ 16 -> later m s1 s2 -> after_adds g n s1 -> Z.of_nat (m + n) <= 65533 -> after_adds g (m + n) s2.
Proof.
  intros Hg Hl. induction Hl as [s|k s s1 s2 _ IH Hq|k s s1 now delay period cb arg h s2 _ IH Ha]; intros H0 Hn; [done| |].
  - destruct Hq as [E _]. specialize (IH H0 Hn). unfold after_adds, since in *. by rewrite E.
  - specialize (IH H0 ltac:(lia)). apply add_inv in Ha as (i & t & _ & _ & _ & ->). unfold after_adds, since in *. cbn [seq update].
    destruct (next_gen (seq s1)) as [g' sq'] eqn:E. destruct (after_next g (k + n) _ _ _ Hg ltac:(lia) E IH) as [_ H]. cbn [snd]. lia.
Qed.

Lemma later_spent h n m s1 s2 : 0 < H_GEN h < 2 ^ 16 -> later m s1 s2 -> after_adds (H_GEN h) n s1 -> spent h s1 -> Z.of_nat (m + n) <= 65533 -> spent h s2.
Proof.
  intros Hg Hl. induction Hl as [s|k s s1 s2 _ IH Hq|k s s1 now delay period cb arg h' s2 Hl IH Ha]; intros H0 Hsp Hn; [done|by eapply spent_quiet; eauto|].
  eapply spent_add; [exact Ha| |apply IH; [done|done|lia]]. pose proof (later_after _ _ _ _ _ Hg Hl H0 ltac:(lia)) as Hk. unfold after_adds, since in Hk.
  destruct (next_gen (seq s1)) as [g' sq'] eqn:E. destruct (after_next (H_GEN h) (k + n) _ _ _ Hg ltac:(lia) E Hk) as [H _]. done.
Qed.

Lemma add_resolves s now delay period cb arg h s' : sched_inv s -> espos_sched_add s now delay period cb arg = (ESP_OK, h, s') ->
  exists i, 0 < h < 2 ^ 32 /\ spent h s /\ after_adds (H_GEN h) 0 s' /\ 0 < H_GEN h < 2 ^ 16 /\ resolve s' h = Some (i, SchedTimer cb arg (u32 (now + delay)) period (H_GEN h) true false false (firing s)).
Proof.
  intros (Hs & _ & _) (i & t & E & Hu & -> & ->)%add_inv. pose proof (next_gen_range _ (ss_seq _ Hs)) as [Hg _]. pose proof (after_first (seq s) (next_gen (seq s)).2 (next_gen (seq s)).1 (ss_seq _ Hs) ltac:(by destruct (next_gen (seq s)))) as [H1 _].
  pose proof (lookup_lt_Some _ _ _ E) as Hlt. pose proof (ss_cap _ Hs) as Hc. exists i. rewrite !H_GEN_make by lia. split_and!; try lia.
  - rewrite H_MAKE_sum; lia.
  - rewrite H_MAKE_sum; lia.
  - intros u Eu Hl. rewrite H_IDX_make in Eu by lia. unfold live in Hl. by replace u with t in Hl by congruence; rewrite Hu in Hl.
  - left. unfold since. cbn. lia.
  - unfold resolve, ESPOS_SCHED_HANDLE_NONE. destruct (Z.eqb_spec (H_MAKE i (next_gen (seq s)).1) 0) as [E0|_]; [rewrite H_MAKE_sum in E0; lia|].
    rewrite H_IDX_make, H_GEN_make by lia. cbn. rewrite list_lookup_insert_eq by done. cbn. by rewrite Z.eqb_refl.
Qed.

(** Handles: the handle of a new timer is not 0, belonged to no live timer, and names the timer; once the timer is over, the handle cancels nothing, through any steps with up to 65533 further timers. *)
Theorem sched_handle_spent s now delay period cb arg h s1 n s2 m s3 : sched_inv s -> espos_sched_add s now delay period cb arg = (ESP_OK, h, s1) ->
  (0 < h < 2 ^ 32 /\ spent h s /\ exists i t, resolve s1 h = Some (i, t) /\ t_cb t = cb /\ t_arg t = arg /\ due_ms t = u32 (now + delay) /\ period_ms t = period) /\
  (later n s1 s2 -> spent h s2 -> later m s2 s3 -> Z.of_nat (m + n) <= 65533 -> bound s3 = true -> espos_sched_cancel s3 h = (ESP_ERR_NOT_FOUND, s3)).
Proof.
  intros Hi Ha. destruct (add_resolves _ _ _ _ _ _ _ _ Hi Ha) as (i & Hh & Hs & H0 & Hg & Hr). split.
  - split_and!; [lia|lia|done|]. exists i. eexists. split; [exact Hr|]. done.
  - intros Hl2 Hsp Hl3 Hn Hb. apply spent_cancel; [done|]. eapply (later_spent h n m s2 s3); try done.
    replace n with (n + 0)%nat by lia. eapply later_after; [done|exact Hl2|done|lia].
Qed.
