(* ===== verification/Flow.v ===== *)
(** The flow loop: [espos_flow.c], one task that fires timers and drains a mailbox.

    The mutex is the plain one of FreeRTOS: a take by the task that holds it waits
    for ever. A computation is therefore partial, and [None] is a call that never
    returns. Callbacks are programs over the calls of this file; while the loop is
    at its queue or sleeps, other tasks and interrupts may post. *)
From Stdlib Require Import ZArith Lia String.
From stdpp Require Import base list numbers option.
From S2P Require Import Prelude ConfigDesc Sched.
Open Scope Z_scope.

Definition ESP_ERR_TIMEOUT : esp_err_t := ESP_ERR_OTHER 0x107.

(** A posted call; callback 0 is NULL. *)
Record msg_t := Msg { m_cb : Z; m_arg : Z }.
#[export] Instance msg_eq_dec : EqDecision msg_t.
Proof. solve_decision. Defined.

(** Kconfig. *)
Class FlowConf := {
  MAX_TIMERS : nat;
  MAILBOX_DEPTH : nat;
  FLOW_REPORT_HEALTH : bool }.

(** [f_lock]: the mutex exists; [held]: it is taken. [mailbox]: [None] until the
    queue exists. A task by its handle, 0 is NULL. *)
Record flow := FlowT {
  f_sched : espos_sched_t;
  f_lock : bool;
  held : bool;
  mailbox : option (list msg_t);
  f_task : Z;
  owner : Z;
  running : bool;
  stopping : bool;
  epoch_us : Z;
  posts : Z;
  dropped : Z;
  timers_fired : Z;
  queue_peak : Z;
  edges_used : Z;
  mailbox_warned : bool }.
#[export] Instance flow_eta : Eta flow := fun f => FlowT (f_sched f) (f_lock f) (held f) (mailbox f) (f_task f) (owner f) (running f) (stopping f)
  (epoch_us f) (posts f) (dropped f) (timers_fired f) (queue_peak f) (edges_used f) (mailbox_warned f).
Definition flow_zero : flow := FlowT sched_zero false false None 0 0 false false 0 0 0 0 0 0 false.

Record espos_flow_stats_t := FlowStats { st_posts : Z; st_dropped : Z; st_timers_fired : Z; st_timers_live : Z; st_queue_peak : Z; st_edges_used : Z }.

(** What other tasks do meanwhile: a post, a post from an interrupt, the end of the loop task. *)
Inductive arrival := APost (m : msg_t) | APostIsr (m : msg_t) | AExit.

(** A callback: calls whose results it may use. *)
Inductive fprog :=
  | FDone
  | FEvery (period : N) (cb arg : Z) (k : esp_err_t * Z -> fprog)
  | FAfter (delay : N) (cb arg : Z) (k : esp_err_t * Z -> fprog)
  | FCancel (h : Z) (k : esp_err_t -> fprog)
  | FPost (cb arg : Z) (k : esp_err_t -> fprog)
  | FNow (k : Z -> fprog)
  | FStats (k : espos_flow_stats_t -> fprog)
  | FOnLoop (k : bool -> fprog)
  | FStop (k : esp_err_t -> fprog)
  | FIsRunning (k : bool -> fprog).

Class FlowPort (W : Type) := {
  port_now_us : W -> Z * W;
  port_mutex : W -> bool * W;
  port_queue : W -> bool * W;
  port_task : W -> option Z * W;   (* a new task, if it can be created *)
  port_current : W -> Z * W;       (* the task that calls *)
  port_others : W -> list arrival * W;
  callback : Z -> Z -> W -> fprog * W }.

(** What happened: posts accepted and refused, callbacks run from the mailbox,
    messages thrown away by a stop, health reports. *)
Inductive flow_ev := EvPosted (m : msg_t) | EvRefused (m : msg_t) | EvRan (m : msg_t) | EvThrown (m : msg_t) | EvHealth (id : cstr).

Section Flow.
Context `{!FlowConf} {W : Type} `{!FlowPort W}.

Abbreviation fstate := (mach flow W flow_ev).

(** A partial computation. *)
Definition fm (A : Type) : Type := fstate -> option (A * fstate).
#[export] Instance fm_ret : MRet fm := fun A a s => Some (a, s).
#[export] Instance fm_bind : MBind fm := fun A B k m s => match m s with None => None | Some (a, s') => k a s' end.
Definition total {A} (m : act flow W flow_ev A) : fm A := fun s => Some (m s).
Definition fget {A} (f : flow -> A) : fm A := total (gets f).
Definition fmod (f : flow -> flow) : fm unit := total (mods f).
Definition fask {A} (f : W -> A * W) : fm A := total (query f).
Definition fnote (e : flow_ev) : fm unit := total (emit e).

Definition flow_ctor : fm unit :=
  ok ← fask port_mutex;
  fmod (fun f => f <| f_lock := ok |>);;
  fmod (fun f => f <| f_sched := (espos_sched_init (f_sched f) (Some (replicate MAX_TIMERS timer_zero))).2 |>);;
  t ← fask port_now_us;
  fmod (fun f => f <| epoch_us := t |>).

(** Taken by the caller already: waits for ever. *)
Definition lock : fm bool := fun s =>
  if negb (f_lock (m_sm s)) then Some (false, s) else
  if held (m_sm s) then None else Some (true, Mach ((m_sm s) <| held := true |>) (m_world s) (m_trace s)).
Definition unlock : fm unit := fmod (fun f => f <| held := false |>).

Definition espos_flow_now_ms : fm Z :=
  t ← fask port_now_us; e ← fget epoch_us; mret (u32 (Z.quot (t - e) 1000)).

Definition espos_flow_on_loop_task : fm bool :=
  o ← fget owner; cur ← fask port_current; mret (negb (o =? 0) && (o =? cur)).

(** ** Timers: the result and the handle *)

Definition espos_flow_every (period cb arg : Z) : fm (esp_err_t * Z) :=
  if (cb =? 0) || (period =? 0) then mret (ESP_ERR_INVALID_ARG, ESPOS_SCHED_HANDLE_NONE) else
  ok ← lock;
  if negb ok then mret (ESP_ERR_INVALID_STATE, ESPOS_SCHED_HANDLE_NONE) else
  now ← espos_flow_now_ms;
  s ← fget f_sched;
  let '(err, h, s) := espos_sched_add s now period period cb arg in
  fmod (fun f => f <| f_sched := s |>);;
  unlock;;
  mret (err, h).

Definition espos_flow_after (delay cb arg : Z) : fm (esp_err_t * Z) :=
  if cb =? 0 then mret (ESP_ERR_INVALID_ARG, ESPOS_SCHED_HANDLE_NONE) else
  ok ← lock;
  if negb ok then mret (ESP_ERR_INVALID_STATE, ESPOS_SCHED_HANDLE_NONE) else
  now ← espos_flow_now_ms;
  s ← fget f_sched;
  let '(err, h, s) := espos_sched_add s now delay 0 cb arg in
  fmod (fun f => f <| f_sched := s |>);;
  unlock;;
  mret (err, h).

Definition espos_flow_cancel (h : Z) : fm esp_err_t :=
  ok ← lock;
  if negb ok then mret ESP_ERR_INVALID_STATE else
  s ← fget f_sched;
  let '(err, s) := espos_sched_cancel s h in
  fmod (fun f => f <| f_sched := s |>);;
  unlock;;
  mret err.

(** ** The mailbox *)

Definition mailbox_full : fm unit :=
  fmod (fun f => f <| dropped ::= fun d => u32 (d + 1) |>);;
  w ← fget mailbox_warned;
  if w : bool then mret tt else
  fmod (fun f => f <| mailbox_warned := true |>);;
  if FLOW_REPORT_HEALTH then fnote (EvHealth (lit "flowMailbox")) else mret tt.

(** [xQueueSend] without waiting. *)
Definition queue_send (m : msg_t) : fm bool :=
  q ← fget mailbox;
  match q with
  | Some q => if (length q <? MAILBOX_DEPTH)%nat then fmod (fun f => f <| mailbox := Some (q ++ [m]) |>);; mret true else mret false
  | None => mret false
  end.

(** [xQueueReceive]: the oldest message. *)
Definition queue_take : fm (option msg_t) :=
  q ← fget mailbox;
  match q with
  | Some (m :: q) => fmod (fun f => f <| mailbox := Some q |>);; mret (Some m)
  | _ => mret None
  end.

Definition espos_flow_post (cb arg : Z) : fm esp_err_t :=
  if cb =? 0 then mret ESP_ERR_INVALID_ARG else
  q ← fget mailbox;
  if bool_decide (q = None) then mret ESP_ERR_INVALID_STATE else
  ok ← queue_send (Msg cb arg);
  if negb ok then mailbox_full;; fnote (EvRefused (Msg cb arg));; mret ESP_ERR_NO_MEM else
  fmod (fun f => f <| posts ::= fun p => u32 (p + 1) |>);;
  fnote (EvPosted (Msg cb arg));;
  q ← fget mailbox;
  let waiting := Z.of_nat (length (default [] q)) in
  fmod (fun f => if queue_peak f <? waiting then f <| queue_peak := waiting |> else f);;
  mret ESP_OK.

(** Without the flag that a task was woken. *)
Definition espos_flow_post_from_isr (cb arg : Z) : fm esp_err_t :=
  if cb =? 0 then mret ESP_ERR_INVALID_ARG else
  q ← fget mailbox;
  if bool_decide (q = None) then mret ESP_ERR_INVALID_STATE else
  ok ← queue_send (Msg cb arg);
  if negb ok then fmod (fun f => f <| dropped ::= fun d => u32 (d + 1) |>);; fnote (EvRefused (Msg cb arg));; mret ESP_ERR_NO_MEM else
  fmod (fun f => f <| posts ::= fun p => u32 (p + 1) |>);;
  fnote (EvPosted (Msg cb arg));;
  mret ESP_OK.

(** ** What the others do meanwhile *)

Definition arrive (a : arrival) : fm unit :=
  match a with
  | APost m => espos_flow_post (m_cb m) (m_arg m);; mret tt
  | APostIsr m => espos_flow_post_from_isr (m_cb m) (m_arg m);; mret tt
  | AExit => fmod (fun f => if running f then f else f <| f_task := 0 |> <| stopping := false |>)
  end.
Fixpoint arrive_all (l : list arrival) : fm unit :=
  match l with [] => mret tt | a :: l' => arrive a;; arrive_all l' end.
Definition others : fm unit := l ← fask port_others; arrive_all l.

(** ** Stopping, and inspection *)

(** [for (i < n && s.task) vTaskDelay(..)] *)
Fixpoint await_exit (n : nat) : fm unit :=
  match n with
  | O => mret tt
  | S k => t ← fget f_task; if t =? 0 then mret tt else others;; await_exit k
  end.

Fixpoint throw_all (l : list msg_t) : fm unit :=
  match l with [] => mret tt | m :: l' => fnote (EvThrown m);; fmod (fun f => f <| dropped ::= fun d => u32 (d + 1) |>);; throw_all l' end.

(** [while (receive) s.dropped++] *)
Definition drop_mailbox : fm unit :=
  q ← fget mailbox;
  match q with
  | None => mret tt
  | Some l => fmod (fun f => f <| mailbox := Some [] |>);; throw_all l
  end.

Definition espos_flow_stop : fm esp_err_t :=
  r ← fget running;
  if negb r then mret ESP_OK else
  t ← fget f_task;
  cur ← fask port_current;
  if negb (t =? 0) && (t =? cur) then mret ESP_ERR_INVALID_STATE else
  fmod (fun f => f <| stopping := true |>);;
  fmod (fun f => f <| running := false |>);;
  queue_send (Msg 0 0);;
  await_exit 200;;
  fmod (fun f => f <| owner := 0 |>);;
  drop_mailbox;;
  t ← fget f_task;
  mret (if t =? 0 then ESP_OK else ESP_ERR_TIMEOUT).

Definition espos_flow_is_running : fm bool := fget running.

Definition espos_flow_adopt_loop : fm esp_err_t :=
  r ← fget running;
  if r : bool then mret ESP_ERR_INVALID_STATE else
  cur ← fask port_current;
  fmod (fun f => f <| owner := cur |>);;
  mret ESP_OK.

Definition espos_flow_release_loop : fm unit := fmod (fun f => if running f then f else f <| owner := 0 |>).

Definition espos_flow_stats : fm espos_flow_stats_t :=
  f ← fget id;
  ok ← lock;
  live ← (if ok : bool then n ← fget (fun f => espos_sched_count (f_sched f)); unlock;; mret (u32 (Z.of_nat n)) else mret 0);
  mret (FlowStats (posts f) (dropped f) (timers_fired f) live (queue_peak f) (edges_used f)).

Definition espos_flow_note_edges_used (n : Z) : fm unit := fmod (fun f => f <| edges_used := n |>).

(** ** Callbacks *)

Fixpoint run_fprog (p : fprog) : fm unit :=
  match p with
  | FDone => mret tt
  | FEvery period cb arg k => r ← espos_flow_every (Z.of_N period) cb arg; run_fprog (k r)
  | FAfter delay cb arg k => r ← espos_flow_after (Z.of_N delay) cb arg; run_fprog (k r)
  | FCancel h k => r ← espos_flow_cancel h; run_fprog (k r)
  | FPost cb arg k => r ← espos_flow_post cb arg; run_fprog (k r)
  | FNow k => r ← espos_flow_now_ms; run_fprog (k r)
  | FStats k => r ← espos_flow_stats; run_fprog (k r)
  | FOnLoop k => r ← espos_flow_on_loop_task; run_fprog (k r)
  | FStop k => r ← espos_flow_stop; run_fprog (k r)
  | FIsRunning k => r ← espos_flow_is_running; run_fprog (k r)
  end.

Definition call_back (cb arg : Z) : fm unit := p ← fask (callback cb arg); run_fprog p.

(** The wheel of the loop: its callbacks run with the mutex taken. *)
#[export] Instance flow_host : SchedHost fstate := {
  sched_of s := f_sched (m_sm s);
  set_sched c s := Mach ((m_sm s) <| f_sched := c |>) (m_world s) (m_trace s);
  run_cb cb arg s := snd <$> call_back cb arg s }.

(** ** The loop *)

(** [while (n < budget && receive)]: how many ran. *)
Fixpoint drain (budget : nat) : fm nat :=
  match budget with
  | O => mret 0%nat
  | S k =>
      others;;
      m ← queue_take;
      match m with
      | None => mret 0%nat
      | Some m =>
          (if m_cb m =? 0 then mret tt else fnote (EvRan m);; call_back (m_cb m) (m_arg m));;
          n ← drain k;
          mret (S n)
      end
  end.
Definition drain_mailbox : fm nat := drain MAILBOX_DEPTH.

Definition fire_due (now : Z) : fm nat := espos_sched_fire now.

Definition run_once : fm bool :=
  ok ← lock;
  if negb ok then mret false else
  now ← espos_flow_now_ms;
  fired ← fire_due now;
  unlock;;
  fmod (fun f => f <| timers_fired ::= fun n => u32 (n + u32 (Z.of_nat fired)) |>);;
  drained ← drain_mailbox;
  mret ((0 <? fired)%nat || (0 <? drained)%nat).

(** One pass of the task; does it go on? *)
Definition flow_pass : fm bool :=
  run_once;;
  ok ← lock;
  if negb ok then mret false else
  now ← espos_flow_now_ms;
  wait_ms ← fget (fun f => espos_sched_next_due (f_sched f) now);
  unlock;;
  let wait_ms := if 100 <? wait_ms then 100 else wait_ms in
  (if 0 <? wait_ms then
     others;;
     m ← queue_take;
     match m with
     | Some m => if m_cb m =? 0 then mret tt else fnote (EvRan m);; call_back (m_cb m) (m_arg m)
     | None => mret tt
     end
   else mret tt);;
  mret true.

(** At most [n] passes of the task. *)
Fixpoint flow_task (n : nat) : fm unit :=
  match n with
  | O => mret tt
  | S k =>
      r ← fget running;
      if negb r then fmod (fun f => f <| f_task := 0 |> <| stopping := false |>) else
      go ← flow_pass;
      if go : bool then flow_task k else fmod (fun f => f <| f_task := 0 |> <| stopping := false |>)
  end.

Definition make_mailbox : fm bool :=
  q ← fget mailbox;
  match q with
  | Some _ => mret true
  | None => ok ← fask port_queue; (if ok : bool then fmod (fun f => f <| mailbox := Some [] |>) else mret tt);; mret ok
  end.

Definition espos_flow_start : fm esp_err_t :=
  r ← fget running;
  if r : bool then mret ESP_OK else
  l ← fget f_lock;
  if negb l then mret ESP_ERR_INVALID_STATE else
  ok ← make_mailbox;
  if negb ok then mret ESP_ERR_NO_MEM else
  fmod (fun f => f <| running := true |>);;
  t ← fask port_task;
  match t with
  | None => fmod (fun f => f <| running := false |>);; mret ESP_ERR_NO_MEM
  | Some t => fmod (fun f => f <| f_task := t |>);; fmod (fun f => f <| owner := t |>);; mret ESP_OK
  end.

(** At most [n] passes, [None] beyond: as long as it takes on the device. *)
Fixpoint idle_loop (n : nat) (started timeout_ms : Z) : fm bool :=
  match n with
  | O => fun _ => None
  | S k =>
      let tail := now ← espos_flow_now_ms; if timeout_ms <=? u32 (now - started) then mret false else idle_loop k started timeout_ms in
      did ← run_once;
      if did : bool then tail else
      ok ← lock;
      if negb ok then mret false else
      now ← espos_flow_now_ms;
      next ← fget (fun f => espos_sched_next_due (f_sched f) now);
      unlock;;
      if negb (next =? 0) then mret true else tail
  end.

Definition espos_flow_run_until_idle (n : nat) (timeout_ms : Z) : fm bool :=
  r ← fget running;
  if r : bool then mret false else
  ok ← make_mailbox;
  if negb ok then mret false else
  prev ← fget owner;
  cur ← fask port_current;
  fmod (fun f => f <| owner := cur |>);;
  started ← espos_flow_now_ms;
  idle ← idle_loop n started timeout_ms;
  fmod (fun f => f <| owner := prev |>);;
  mret idle.
End Flow.
