(* ===== verification/FlowProps.v ===== *)
(** Correctness of the flow loop ([Flow]): the mailbox is a queue that loses nothing
    unaccounted, and the wheel is only touched through its calls; and what a timer
    callback must not do. *)
From Stdlib Require Import ZArith Lia String.
From stdpp Require Import base list numbers option.
From S2P Require Import Prelude ConfigDesc Sched SchedProps Flow.
Open Scope Z_scope.

Section Props.
Context `{FC : !FlowConf} {W : Type} `{!FlowPort W}.
#[local] Abbreviation fstate := (mach flow W flow_ev).
#[local] Abbreviation fm := (fm (W := W)).

(** * Partial correctness *)

(** If the call returns, [R] relates the states. *)
Definition rel {A} (R : fstate -> fstate -> Prop) (m : fm A) : Prop := forall s a s', m s = Some (a, s') -> R s s'.

Section Rel.
Context (R : fstate -> fstate -> Prop) `{!PreOrder R}.

Lemma rel_ret {A} (a : A) : rel R (mret a).
Proof. intros s b s' [= <- <-]. reflexivity. Qed.
Lemma rel_bind {A B} (m : fm A) (k : A -> fm B) : rel R m -> (forall a, rel R (k a)) -> rel R (m ≫= k).
Proof. intros Hm Hk s b s' E. unfold mbind, fm_bind in E. destruct (m s) as [[a s1]|] eqn:E1; [|done]. etransitivity; [by eapply Hm|by eapply Hk]. Qed.
Lemma rel_get {A} (g : flow -> A) : rel R (fget g).
Proof. intros s a s' [= <- <-]. reflexivity. Qed.
Lemma rel_mod (g : flow -> flow) : (forall s, R s (Mach (g (m_sm s)) (m_world s) (m_trace s))) -> rel R (fmod g).
Proof. intros Hg s a s' [= <- <-]. apply Hg. Qed.
Lemma rel_ask {A} (g : W -> A * W) : (forall s w, R s (Mach (m_sm s) w (m_trace s))) -> rel R (fask g).
Proof. intros Hg s a s' E. unfold fask, total, query in E. destruct (g (m_world s)). injection E as <- <-. apply Hg. Qed.
Lemma rel_note (e : flow_ev) : (forall s, R s (Mach (m_sm s) (m_world s) (e :: m_trace s))) -> rel R (fnote e).
Proof. intros He s a s' [= <- <-]. apply He. Qed.
End Rel.

(** By structure; what remains are assignments, questions and notes. *)
Ltac rel_step :=
  match goal with
  | |- rel _ (mbind _ _) => apply rel_bind; [apply _| |intros ?]
  | |- rel _ (mret _) => apply rel_ret; apply _
  | |- rel _ (fget _) => apply rel_get; apply _
  | |- rel _ (fmod _) => apply rel_mod; intros [? ? ?]
  | |- rel _ (fask _) => apply rel_ask; intros [? ? ?] ?
  | |- rel _ (fnote _) => apply rel_note; intros [? ? ?]
  | |- rel _ (if ?b then _ else _) => destruct b eqn:?
  | |- rel _ (match ?o with Some _ => _ | None => _ end) => destruct o
  end.
Ltac rel_go := repeat (rel_step; try done).

(** * The wheel *)

(** Between two states the wheel went through its calls; while the mutex is taken, through none. *)
Definition wheel (s s' : fstate) : Prop :=
  api (f_sched (m_sm s)) (f_sched (m_sm s')) /\ (held (m_sm s) = true -> held (m_sm s') = true /\ f_sched (m_sm s') = f_sched (m_sm s)) /\
  (held (m_sm s) = false -> held (m_sm s') = false) /\ f_lock (m_sm s') = f_lock (m_sm s).

#[local] Instance wheel_preorder : PreOrder wheel.
Proof.
  split.
  - intros s. split_and!; try done. apply ApiRefl.
  - intros s1 s2 s3 (A1 & B1 & C1 & D1) (A2 & B2 & C2 & D2). split_and!; [by eapply ApiTrans|..].
    + intros Hh. destruct (B1 Hh) as [Hh2 E1]. destruct (B2 Hh2) as [? E2]. split; [done|congruence].
    + auto.
    + congruence.
Qed.

Lemma wheel_frame (s : fstate) f w tr : f_sched f = f_sched (m_sm s) -> held f = held (m_sm s) -> f_lock f = f_lock (m_sm s) -> wheel s (Mach f w tr).
Proof. intros E1 E2 E3. unfold wheel. cbn. rewrite E1, E2, E3. split_and!; try done. apply ApiRefl. Qed.

Lemma wheel_queue_send m : rel wheel (queue_send m).
Proof. unfold queue_send. rel_go. all: by apply wheel_frame. Qed.
Lemma wheel_post cb arg : rel wheel (espos_flow_post cb arg).
Proof. unfold espos_flow_post, mailbox_full. rel_go; try apply wheel_queue_send; try (by apply wheel_frame); apply wheel_frame; cbn; by destruct (_ <? _). Qed.
Lemma wheel_isr cb arg : rel wheel (espos_flow_post_from_isr cb arg).
Proof. unfold espos_flow_post_from_isr. rel_go; try apply wheel_queue_send; by apply wheel_frame. Qed.
Lemma wheel_arrive l : rel wheel (arrive_all l).
Proof.
  induction l as [|a l IH]; cbn [arrive_all]; rel_go. destruct a; cbn [arrive]; rel_go; try apply wheel_post; try apply wheel_isr. apply wheel_frame; cbn; by destruct (running _).
Qed.
Lemma wheel_others : rel wheel others.
Proof. unfold others. rel_go; [by apply wheel_frame|apply wheel_arrive]. Qed.
Lemma wheel_await n : rel wheel (await_exit n).
Proof. induction n as [|n IH]; cbn [await_exit]; rel_go. apply wheel_others. Qed.
Lemma wheel_throw l : rel wheel (throw_all l).
Proof. induction l as [|m l IH]; cbn [throw_all]; rel_go; by apply wheel_frame. Qed.
Lemma wheel_drop : rel wheel drop_mailbox.
Proof. unfold drop_mailbox. rel_go; try apply wheel_throw; by apply wheel_frame. Qed.
Lemma wheel_stop : rel wheel espos_flow_stop.
Proof. unfold espos_flow_stop. rel_go; try apply wheel_queue_send; try apply wheel_await; try apply wheel_drop; by apply wheel_frame. Qed.
Lemma wheel_now : rel wheel espos_flow_now_ms.
Proof. unfold espos_flow_now_ms. rel_go. by apply wheel_frame. Qed.
Lemma wheel_on_loop : rel wheel espos_flow_on_loop_task.
Proof. unfold espos_flow_on_loop_task. rel_go. by apply wheel_frame. Qed.

(** A section under the mutex that goes through the calls of the wheel: it blocks if the mutex is taken. *)
Lemma wheel_section {A} (a : A) (body : fm A) :
  (forall s r s', body s = Some (r, s') -> held (m_sm s) = true -> api (f_sched (m_sm s)) (f_sched (m_sm s')) /\ held (m_sm s') = false /\ f_lock (m_sm s') = f_lock (m_sm s)) ->
  rel wheel (ok ← lock; if negb ok then mret a else body).
Proof.
  intros Hb s r s' E. unfold mbind, fm_bind, lock in E. destruct (f_lock (m_sm s)) eqn:El; cbn in E; [|injection E as <- <-; reflexivity].
  destruct (held (m_sm s)) eqn:Eh; [done|]. destruct (Hb _ _ _ E eq_refl) as (H1 & H2 & H3). cbn in H1, H3. unfold wheel. rewrite Eh. split_and!; done.
Qed.

Lemma wheel_every period cb arg : 0 <= period -> rel wheel (espos_flow_every period cb arg).
Proof.
  intros Hp. unfold espos_flow_every. rel_step; [rel_go|]. apply wheel_section. intros s r s' E Hh.
  unfold espos_flow_now_ms in E. unfold mbind, fm_bind, fask, fget, fmod, unlock, total, query, gets, mods, mret, fm_ret in E. destruct (port_now_us (m_world s)) as [t w]. cbn in E.
  pose proof (ApiAdd (f_sched (m_sm s)) (u32 ((t - epoch_us (m_sm s)) ÷ 1000)) period period cb arg Hp) as Ha.
  destruct (espos_sched_add _ _ _ _ _ _) as [[e h] c]. cbn in E. injection E as <- <-. cbn. done.
Qed.

Lemma wheel_after delay cb arg : rel wheel (espos_flow_after delay cb arg).
Proof.
  unfold espos_flow_after. rel_step; [rel_go|]. apply wheel_section. intros s r s' E Hh.
  unfold espos_flow_now_ms in E. unfold mbind, fm_bind, fask, fget, fmod, unlock, total, query, gets, mods, mret, fm_ret in E. destruct (port_now_us (m_world s)) as [t w]. cbn in E.
  pose proof (ApiAdd (f_sched (m_sm s)) (u32 ((t - epoch_us (m_sm s)) ÷ 1000)) delay 0 cb arg ltac:(lia)) as Ha.
  destruct (espos_sched_add _ _ _ _ _ _) as [[e h] c]. cbn in E. injection E as <- <-. cbn. done.
Qed.

Lemma wheel_cancel h : rel wheel (espos_flow_cancel h).
Proof.
  unfold espos_flow_cancel. apply wheel_section. intros s r s' E Hh. unfold mbind, fm_bind, fget, fmod, unlock, total, gets, mods, mret, fm_ret in E. cbn in E.
  pose proof (ApiCancel (f_sched (m_sm s)) h) as Ha. destruct (espos_sched_cancel _ _) as [e c]. cbn in E. injection E as <- <-. cbn. done.
Qed.

Lemma wheel_stats : rel wheel espos_flow_stats.
Proof.
  unfold espos_flow_stats. intros s r s' E. unfold mbind, fm_bind, fget, total, gets, lock in E. cbn in E. destruct (f_lock (m_sm s)) eqn:El; cbn in E; [|injection E as <- <-; reflexivity].
  destruct (held (m_sm s)) eqn:Eh; [done|]. injection E as <- <-. unfold wheel. cbn. rewrite Eh. split_and!; try done. apply ApiRefl.
Qed.

Lemma wheel_prog p : rel wheel (run_fprog p).
Proof.
  induction p; cbn [run_fprog]; rel_go; auto; first [apply wheel_every; lia|apply wheel_after|apply wheel_cancel|apply wheel_post|apply wheel_now|apply wheel_stats|apply wheel_on_loop|apply wheel_stop|idtac].
  unfold espos_flow_is_running. rel_go.
Qed.

Lemma wheel_callback cb arg : rel wheel (call_back cb arg).
Proof. unfold call_back. rel_go; [by apply wheel_frame|apply wheel_prog]. Qed.

Lemma wheel_run_cb cb arg (s s' : fstate) : run_cb cb arg s = Some s' -> wheel s s'.
Proof. cbn [run_cb flow_host]. intros E. destruct (call_back cb arg s) as [[u s1]|] eqn:E1; [|done]. injection E as <-. by eapply wheel_callback. Qed.

(** The loop is a host of the wheel. *)
#[export] Instance flow_host_ok : SchedHostOk fstate.
Proof.
  split; [done|]. intros cb arg s s' E. by destruct (wheel_run_cb _ _ _ _ E).
Qed.

(** * Callbacks that take the mutex *)

(** The program calls for the timers or the statistics, whatever its other calls answer. *)
Fixpoint locks (p : fprog) : Prop :=
  match p with
  | FDone => False
  | FEvery period cb _ k => if (cb =? 0) || (Z.of_N period =? 0) then locks (k (ESP_ERR_INVALID_ARG, ESPOS_SCHED_HANDLE_NONE)) else True
  | FAfter _ cb _ k => if cb =? 0 then locks (k (ESP_ERR_INVALID_ARG, ESPOS_SCHED_HANDLE_NONE)) else True
  | FCancel _ _ | FStats _ => True
  | FPost _ _ k => forall r, locks (k r)
  | FNow k => forall r, locks (k r)
  | FOnLoop k => forall r, locks (k r)
  | FStop k => forall r, locks (k r)
  | FIsRunning k => forall r, locks (k r)
  end.

(** The program never does. *)
Fixpoint lock_free (p : fprog) : Prop :=
  match p with
  | FDone => True
  | FEvery _ _ _ _ | FAfter _ _ _ _ | FCancel _ _ | FStats _ => False
  | FPost _ _ k => forall r, lock_free (k r)
  | FNow k => forall r, lock_free (k r)
  | FOnLoop k => forall r, lock_free (k r)
  | FStop k => forall r, lock_free (k r)
  | FIsRunning k => forall r, lock_free (k r)
  end.

Lemma lock_blocks {A} (k : bool -> fm A) s : f_lock (m_sm s) = true -> held (m_sm s) = true -> (lock ≫= k) s = None.
Proof. intros Hl Hh. unfold mbind, fm_bind, lock. by rewrite Hl, Hh. Qed.

(** A step before the call that blocks. *)
Lemma step_blocks {A} (m : fm A) (k : A -> fm unit) s : rel wheel m -> f_lock (m_sm s) = true -> held (m_sm s) = true ->
  (forall a s, f_lock (m_sm s) = true -> held (m_sm s) = true -> k a s = None) -> (m ≫= k) s = None.
Proof.
  intros Hm Hl Hh Hk. unfold mbind, fm_bind. destruct (m s) as [[a s1]|] eqn:E; [|done]. destruct (Hm _ _ _ E) as (_ & H1 & _ & H2). destruct (H1 Hh). apply Hk; [congruence|done].
Qed.

Lemma locks_block p s : locks p -> f_lock (m_sm s) = true -> held (m_sm s) = true -> run_fprog p s = None.
Proof.
  revert s. induction p as [|period cb arg k IH|delay cb arg k IH|h k IH|cb arg k IH|k IH|k IH|k IH|k IH|k IH]; intros s Hp Hl Hh; cbn [run_fprog locks] in *; [done|..].
  - unfold espos_flow_every. destruct (_ || _); [by apply IH|]. unfold mbind at 1, fm_bind at 1. by rewrite lock_blocks.
  - unfold espos_flow_after. destruct (cb =? 0); [by apply IH|]. unfold mbind at 1, fm_bind at 1. by rewrite lock_blocks.
  - unfold espos_flow_cancel. unfold mbind at 1, fm_bind at 1. by rewrite lock_blocks.
  - apply step_blocks; auto using wheel_post.
  - apply step_blocks; auto using wheel_now.
  - unfold espos_flow_stats. unfold mbind at 1, fm_bind at 1. unfold mbind at 1, fm_bind at 1. cbn. by rewrite lock_blocks.
  - apply step_blocks; auto using wheel_on_loop.
  - apply step_blocks; auto using wheel_stop.
  - apply step_blocks; auto. unfold espos_flow_is_running. rel_go.
Qed.

(** With the mutex taken, a sweep that meets such a callback does not return. *)
Lemma sweep_blocks now fuel (s : fstate) i t : f_lock (m_sm s) = true -> held (m_sm s) = true -> slots (f_sched (m_sm s)) !! i = Some t -> ready now t = true ->
  (forall w, locks (callback (t_cb t) (t_arg t) w).1) -> sweep fuel now s = None.
Proof.
  intros Hl Hh Ei Hr Hk. revert s Hl Hh Ei. induction fuel as [|n IH]; intros s Hl Hh Ei; [done|]. cbn [sweep]. cbn [sched_of flow_host].
  pose proof (pick_scan_spec now (slots (f_sched (m_sm s))) 0 None ltac:(done)) as Hp. destruct (pick_scan now _ 0 None) as [[j u]|]; [|destruct Hp as [_ Hp]; by rewrite (Hp _ _ Ei) in Hr].
  cbv zeta. set (s1 := set_sched _ s). assert (H1 : f_lock (m_sm s1) = true /\ held (m_sm s1) = true) by done. destruct (decide (j = i)) as [->|Hj].
  - destruct Hp as (_ & [?|[_ Eu]] & _); [done|]. rewrite Nat.sub_0_r in Eu. replace u with t by congruence.
    replace (run_cb (t_cb t) (t_arg t) s1) with (@None fstate); [done|]. cbn [run_cb flow_host]. unfold call_back. unfold mbind, fm_bind, fask, total, query.
    specialize (Hk (m_world s1)). destruct (callback (t_cb t) (t_arg t) (m_world s1)) as [p w]. by rewrite locks_block.
  - destruct (run_cb (t_cb u) (t_arg u) s1) as [s2|] eqn:E; [|done]. cbn [mbind option_bind].
    assert (Hw : wheel s1 s2) by (by eapply wheel_run_cb).
    destruct Hw as (_ & H2 & _ & H3), H1 as [Hl1 Hh1]. destruct (H2 Hh1) as [Hh2 E2]. rewrite IH; [done|congruence|done|]. rewrite E2. cbn. by rewrite list_lookup_insert_ne.
Qed.

Lemma fire_blocks now (s : fstate) i t : f_lock (m_sm s) = true -> held (m_sm s) = true -> sched_inv (f_sched (m_sm s)) -> slots (f_sched (m_sm s)) !! i = Some t ->
  used t = true -> espos_sched_reached now (due_ms t) = true -> (forall w, locks (callback (t_cb t) (t_arg t) w).1) -> fire_due now s = None.
Proof.
  intros Hl Hh (Hs & Hf & Hrs) Ei Hu Hd Hk. unfold fire_due, espos_sched_fire, fire_log. cbn [sched_of flow_host]. rewrite (ss_bound _ Hs), Hf. cbn [negb orb]. cbv zeta.
  rewrite (sweep_blocks _ _ _ i t); [done|done|done|exact Ei| |done]. rewrite rested_ready; [done|by eapply Forall_lookup_1|done].
Qed.

(** C9. A timer callback must not use timers: if an armed timer is due whose callback calls every, after, cancel or stats, the pass that fires it never returns, because callbacks run with the loop's mutex taken. *)
Theorem flow_timer_callback_blocks (s : fstate) i t : f_lock (m_sm s) = true -> held (m_sm s) = false -> sched_inv (f_sched (m_sm s)) ->
  slots (f_sched (m_sm s)) !! i = Some t -> used t = true -> espos_sched_reached (u32 (((port_now_us (m_world s)).1 - epoch_us (m_sm s)) ÷ 1000)) (due_ms t) = true ->
  (forall w, locks (callback (t_cb t) (t_arg t) w).1) -> run_once s = None.
Proof.
  intros Hl Hh Hi Ei Hu Hd Hk. unfold run_once, mbind at 1, fm_bind at 1, lock. rewrite Hl, Hh. cbn [negb]. unfold mbind at 1, fm_bind at 1.
  set (s1 := Mach _ _ _). destruct (espos_flow_now_ms s1) as [[now s2]|] eqn:E; [|done]. pose proof (wheel_now _ _ _ E) as (_ & H1 & _ & H2). destruct (H1 eq_refl) as [H3 H4].
  unfold mbind at 1, fm_bind at 1. erewrite (fire_blocks now s2 i t); [done|by rewrite H2|done|by rewrite H4|by rewrite H4|done| |done].
  unfold espos_flow_now_ms in E. unfold mbind, fm_bind, fask, fget, total, query, gets in E. subst s1. cbn [m_world m_sm] in E. destruct (port_now_us (m_world s)) as [tm w]. by injection E as <- <-.
Qed.

(** * Calls that return *)

(** The call returns from the states [P]. *)
Definition tot {A} (P : fstate -> Prop) (m : fm A) : Prop := forall s, P s -> exists a s', m s = Some (a, s').

Section Tot.
Context (P : fstate -> Prop) (P_wheel : forall s s', wheel s s' -> P s -> P s').

Lemma tot_bind {A B} (m : fm A) (k : A -> fm B) : tot P m -> rel wheel m -> (forall a, tot P (k a)) -> tot P (m ≫= k).
Proof. intros Hm Hw Hk s Hs. unfold mbind, fm_bind. destruct (Hm s Hs) as (a & s1 & E). rewrite E. apply Hk. eapply P_wheel; [by eapply Hw|done]. Qed.
Lemma tot_total {A} (m : act flow W flow_ev A) : tot P (total m).
Proof. intros s _. unfold total. destruct (m s) as [a s']. eauto. Qed.
Lemma tot_ret {A} (a : A) : tot P (mret a).
Proof. intros s _. by exists a, s. Qed.

Ltac tot_step :=
  match goal with
  | |- tot _ (mbind _ _) => apply tot_bind; [|rel_go; try (by apply wheel_frame)|intros ?]
  | |- tot _ (mret _) => apply tot_ret
  | |- tot _ (fget _) => apply tot_total
  | |- tot _ (fmod _) => apply tot_total
  | |- tot _ (fask _) => apply tot_total
  | |- tot _ (fnote _) => apply tot_total
  | |- tot _ (if ?b then _ else _) => destruct b
  | |- tot _ (match ?o with Some _ => _ | None => _ end) => destruct o
  end.

Lemma tot_queue_send m : tot P (queue_send m).
Proof. unfold queue_send. repeat tot_step. Qed.
Lemma tot_post cb arg : tot P (espos_flow_post cb arg).
Proof.
  unfold espos_flow_post, mailbox_full. repeat tot_step; try apply tot_queue_send; try apply wheel_queue_send; try (apply wheel_frame; cbn; by destruct (_ <? _)).
Qed.
Lemma tot_isr cb arg : tot P (espos_flow_post_from_isr cb arg).
Proof. unfold espos_flow_post_from_isr. repeat tot_step; try apply tot_queue_send; apply wheel_queue_send. Qed.
Lemma tot_arrive l : tot P (arrive_all l).
Proof.
  induction l as [|a l IH]; cbn [arrive_all]; [apply tot_ret|]. apply tot_bind; [| |done].
  - destruct a; cbn [arrive]; repeat tot_step; try apply tot_post; try apply tot_isr; try apply wheel_post; apply wheel_isr.
  - destruct a; cbn [arrive]; rel_go; try apply wheel_post; try apply wheel_isr. apply wheel_frame; cbn; by destruct (running _).
Qed.
Lemma tot_others : tot P others.
Proof. unfold others. repeat tot_step. apply tot_arrive. Qed.
Lemma tot_stop : tot P espos_flow_stop.
Proof.
  assert (Ha : forall n, tot P (await_exit n)) by (induction n as [|n IH]; cbn [await_exit]; repeat tot_step; try done; [apply tot_others|apply wheel_others]).
  assert (Ht : forall l, tot P (throw_all l)) by (induction l as [|m l IH]; cbn [throw_all]; repeat tot_step; done).
  assert (Hd : tot P drop_mailbox) by (unfold drop_mailbox; repeat tot_step; apply Ht).
  unfold espos_flow_stop. repeat tot_step; try apply tot_queue_send; try apply wheel_queue_send; try apply Ha; try apply wheel_await; try apply Hd; apply wheel_drop.
Qed.
Lemma tot_now : tot P espos_flow_now_ms.
Proof. unfold espos_flow_now_ms. repeat tot_step. Qed.
Lemma tot_on_loop : tot P espos_flow_on_loop_task.
Proof. unfold espos_flow_on_loop_task. repeat tot_step. Qed.
End Tot.

Definition anywhere (s : fstate) : Prop := True.
Definition unheld (s : fstate) : Prop := held (m_sm s) = false.

Lemma anywhere_wheel s s' : wheel s s' -> anywhere s -> anywhere s'.
Proof. done. Qed.
Lemma unheld_wheel s s' : wheel s s' -> unheld s -> unheld s'.
Proof. intros (_ & _ & Hu & _). exact Hu. Qed.

Lemma lock_free_returns p : lock_free p -> tot anywhere (run_fprog p).
Proof.
  pose proof anywhere_wheel as Hw. induction p as [|period cb arg k IH|delay cb arg k IH|h k IH|cb arg k IH|k IH|k IH|k IH|k IH|k IH]; intros Hp; cbn [run_fprog lock_free] in *; try done; [by apply tot_ret|..];
    apply tot_bind; auto using tot_post, tot_now, tot_on_loop, tot_stop, wheel_post, wheel_now, wheel_on_loop, wheel_stop; unfold espos_flow_is_running; [apply tot_total|apply rel_get, _].
Qed.

Lemma tot_section {A} (a : A) (body : fm A) : (forall s, exists r s', body s = Some (r, s')) -> tot unheld (ok ← lock; if negb ok then mret a else body).
Proof.
  intros Hb s Hs. unfold mbind, fm_bind, lock. destruct (f_lock (m_sm s)); cbn [negb]; [|by eexists _, _]. rewrite Hs. apply Hb.
Qed.

Lemma prog_returns p : tot unheld (run_fprog p).
Proof.
  pose proof unheld_wheel as Hw. induction p as [|period cb arg k IH|delay cb arg k IH|h k IH|cb arg k IH|k IH|k IH|k IH|k IH|k IH]; cbn [run_fprog]; [by apply tot_ret|..];
    apply tot_bind; auto using tot_post, tot_now, tot_on_loop, tot_stop, wheel_post, wheel_now, wheel_on_loop, wheel_stop, wheel_after, wheel_cancel, wheel_stats, wheel_every with lia.
  - unfold espos_flow_every. destruct (_ || _); [by apply tot_ret|]. apply tot_section. intros s. unfold espos_flow_now_ms. unfold mbind, fm_bind, fask, fget, fmod, unlock, total, query, gets, mods.
    destruct (port_now_us (m_world s)) as [t w]. cbn. destruct (espos_sched_add _ _ _ _ _ _) as [[e h] c]. cbn. by eexists _, _.
  - unfold espos_flow_after. destruct (_ =? 0); [by apply tot_ret|]. apply tot_section. intros s. unfold espos_flow_now_ms. unfold mbind, fm_bind, fask, fget, fmod, unlock, total, query, gets, mods.
    destruct (port_now_us (m_world s)) as [t w]. cbn. destruct (espos_sched_add _ _ _ _ _ _) as [[e h] c]. cbn. by eexists _, _.
  - unfold espos_flow_cancel. apply tot_section. intros s. unfold mbind, fm_bind, fget, fmod, unlock, total, gets, mods. cbn. destruct (espos_sched_cancel _ _) as [e c]. cbn. by eexists _, _.
  - unfold espos_flow_stats. intros s Hs. unfold mbind, fm_bind, fget, total, gets, lock. cbn. destruct (f_lock (m_sm s)); cbn; [rewrite Hs; cbn|]; by eexists _, _.
  - unfold espos_flow_is_running. apply tot_total.
  - unfold espos_flow_is_running. apply rel_get, _.
Qed.

Lemma wheel_take : rel wheel queue_take.
Proof. unfold queue_take. apply rel_bind; [apply _|apply rel_get, _|]. intros [[|m q]|]; rel_go. by apply wheel_frame. Qed.

Lemma wheel_drain n : rel wheel (drain n).
Proof.
  induction n as [|n IH]; cbn [drain]; rel_go; try apply wheel_others; try apply wheel_take; try apply wheel_callback; by apply wheel_frame.
Qed.

Lemma drain_returns n : tot unheld (drain n).
Proof.
  pose proof unheld_wheel as Hw. induction n as [|n IH]; cbn [drain]; [by apply tot_ret|]. apply tot_bind; [done|by apply tot_others|apply wheel_others|]. intros _.
  apply tot_bind; [done| |apply wheel_take|].
  { unfold queue_take. apply tot_bind; [done|apply tot_total|apply rel_get, _|]. intros [[|m q]|]; try by apply tot_ret. apply tot_bind; [done|apply tot_total|rel_go; by apply wheel_frame|]. intros _. by apply tot_ret. }
  intros [m|]; [|by apply tot_ret]. apply tot_bind; [done| | |intros _; apply tot_bind; [done|done|apply wheel_drain|intros; by apply tot_ret]].
  - destruct (m_cb m =? 0); [by apply tot_ret|]. apply tot_bind; [done|apply tot_total|rel_go; by apply wheel_frame|]. intros _. unfold call_back.
    apply tot_bind; [done|apply tot_total|rel_go; by apply wheel_frame|]. intros p. apply prog_returns.
  - destruct (m_cb m =? 0); rel_go; [by apply wheel_frame|apply wheel_callback].
Qed.

Lemma inv_api c c' : api c c' -> sched_inv c -> sched_inv c'.
Proof. induction 1; intros; auto using inv_add, inv_cancel. Qed.

(** The sweep under the mutex, with callbacks that leave the mutex alone. *)
Lemma fire_returns now (s : fstate) : sched_inv (f_sched (m_sm s)) -> (forall i t, slots (f_sched (m_sm s)) !! i = Some t -> used t = true -> forall w, lock_free (callback (t_cb t) (t_arg t) w).1) ->
  exists log s', fire_due now s = Some (length log, s') /\ sched_inv (f_sched (m_sm s')) /\ fired_exactly now (f_sched (m_sm s)) log (f_sched (m_sm s')).
Proof.
  intros Hi Hf. destruct (@fire_spec fstate flow_host flow_host_ok now s Hi) as (log & s' & E & Hi' & Hx).
  - intros i t Et Hu h. cbn [run_cb flow_host]. unfold call_back, mbind, fm_bind, fask, total, query. specialize (Hf i t Et Hu (m_world h)). destruct (callback _ _ (m_world h)) as [p w].
    destruct (lock_free_returns p Hf (Mach (m_sm h) w (m_trace h)) I) as (u & s1 & E). by rewrite E.
  - exists log, s'. split; [|done]. unfold fire_due, espos_sched_fire. by rewrite E.
Qed.

(** A pass returns when the timer callbacks leave the timers alone: it fires exactly the timers that are due, then serves the mailbox, whose callbacks may use timers; the mutex is free again and the wheel intact. *)
Theorem flow_pass_returns (s : fstate) : f_lock (m_sm s) = true -> held (m_sm s) = false -> sched_inv (f_sched (m_sm s)) ->
  (forall i t, slots (f_sched (m_sm s)) !! i = Some t -> used t = true -> forall w, lock_free (callback (t_cb t) (t_arg t) w).1) ->
  exists b s' log c, run_once s = Some (b, s') /\
    fired_exactly (u32 (((port_now_us (m_world s)).1 - epoch_us (m_sm s)) ÷ 1000)) (f_sched (m_sm s)) log c /\ api c (f_sched (m_sm s')) /\
    held (m_sm s') = false /\ sched_inv (f_sched (m_sm s')).
Proof.
  intros Hl Hh Hi Hf. unfold run_once, mbind at 1, fm_bind at 1, lock. rewrite Hl, Hh. cbn [negb]. unfold mbind at 1, fm_bind at 1.
  set (s1 := Mach _ _ _). assert (E1 : exists s2, espos_flow_now_ms s1 = Some (u32 (((port_now_us (m_world s)).1 - epoch_us (m_sm s)) ÷ 1000), s2) /\ f_sched (m_sm s2) = f_sched (m_sm s)).
  { unfold espos_flow_now_ms. unfold mbind, fm_bind, fask, fget, total, query, gets. subst s1. cbn [m_world m_sm]. destruct (port_now_us (m_world s)) as [t w]. by eexists _. }
  destruct E1 as (s2 & E1 & E2). rewrite E1. destruct (fire_returns (u32 (((port_now_us (m_world s)).1 - epoch_us (m_sm s)) ÷ 1000)) s2) as (log & s3 & E3 & Hi3 & Hx); [by rewrite E2|by rewrite E2|].
  rewrite E2 in Hx. unfold mbind at 1, fm_bind at 1. rewrite E3. unfold mbind at 1, fm_bind at 1, unlock, fmod at 1, total at 1, mods at 1. unfold mbind at 1, fm_bind at 1, fmod at 1, total at 1, mods at 1. cbn [m_sm m_world m_trace].
  set (s4 := Mach _ _ _). unfold mbind, fm_bind, drain_mailbox. destruct (drain_returns MAILBOX_DEPTH s4 eq_refl) as (n & s5 & E5). rewrite E5. pose proof (wheel_drain _ _ _ _ E5) as (Ha & _ & Hu & _).
  eexists _, s5, log, (f_sched (m_sm s3)). split_and!; [done|done|exact Ha|by apply Hu|]. eapply inv_api; [exact Ha|exact Hi3].
Qed.

(** * The mailbox *)

(** From a trace, newest first: the messages accepted, and those taken out again. *)
Definition posted (tr : list flow_ev) : list msg_t := rev (omap (fun e => match e with EvPosted m => Some m | _ => None end) tr).
Definition consumed (tr : list flow_ev) : list msg_t :=
  rev (omap (fun e => match e with EvRan m | EvThrown m => if m_cb m =? 0 then None else Some m | _ => None end) tr).
(** The posts lost: refused, or accepted and thrown away by a stop; and the wake-ups
    of a stop that it has thrown away itself. *)
Definition lost (tr : list flow_ev) : nat :=
  length (omap (fun e => match e with EvRefused m => Some m | EvThrown m => if m_cb m =? 0 then None else Some m | _ => None end) tr).
Definition woken (tr : list flow_ev) : nat := length (omap (fun e => match e with EvThrown m => if m_cb m =? 0 then Some m else None | _ => None end) tr).
(** The calls in the queue, without the wake-ups of a stop. *)
Definition calls (q : option (list msg_t)) : list msg_t := filter (fun m => m_cb m <> 0) (default [] q).

Record fifo (s : fstate) : Prop := {
  fifo_order : consumed (m_trace s) ++ calls (mailbox (m_sm s)) = posted (m_trace s);
  fifo_depth : (length (default [] (mailbox (m_sm s))) <= MAILBOX_DEPTH)%nat;
  fifo_posts : posts (m_sm s) = u32 (Z.of_nat (length (posted (m_trace s))));
  fifo_dropped : dropped (m_sm s) = u32 (Z.of_nat (lost (m_trace s) + woken (m_trace s))) }.
Definition keep (s s' : fstate) : Prop := fifo s -> fifo s'.
#[local] Instance keep_preorder : PreOrder keep.
Proof. split; [intros s Hs; exact Hs|]. intros s1 s2 s3 H1 H2 Hs. auto. Qed.

Lemma keep_frame (s : fstate) f w : mailbox f = mailbox (m_sm s) -> posts f = posts (m_sm s) -> dropped f = dropped (m_sm s) -> keep s (Mach f w (m_trace s)).
Proof. intros E1 E2 E3 [H1 H2 H3 H4]. split; cbn [m_sm m_trace]; by rewrite ?E1, ?E2, ?E3. Qed.

Lemma u32_succ n : u32 (u32 n + 1) = u32 (n + 1).
Proof. unfold u32. div_lia. Qed.

Lemma calls_snoc l m : calls (Some (l ++ [m])) = calls (Some l) ++ (if m_cb m =? 0 then [] else [m]).
Proof. unfold calls. cbn [default from_option id]. rewrite list.filter_app. f_equal. rewrite list.filter_cons, list.filter_nil. destruct (Z.eqb_spec (m_cb m) 0); by case_decide. Qed.

Lemma calls_cons l m : calls (Some (m :: l)) = (if m_cb m =? 0 then [] else [m]) ++ calls (Some l).
Proof. unfold calls. cbn [default from_option id]. rewrite list.filter_cons. destruct (Z.eqb_spec (m_cb m) 0); by case_decide. Qed.

(** An accepted post. *)
Lemma fifo_post (s : fstate) f w q m : fifo s -> mailbox (m_sm s) = Some q -> m_cb m <> 0 -> (length q < MAILBOX_DEPTH)%nat ->
  mailbox f = Some (q ++ [m]) -> posts f = u32 (posts (m_sm s) + 1) -> dropped f = dropped (m_sm s) -> fifo (Mach f w (EvPosted m :: m_trace s)).
Proof.
  intros [H1 H2 H3 H4] Eq Hm Hl E1 E2 E3. split; cbn [m_sm m_trace]; rewrite ?E1, ?E2, ?E3.
  - change (consumed (EvPosted m :: m_trace s)) with (consumed (m_trace s)). change (posted (EvPosted m :: m_trace s)) with (posted (m_trace s) ++ [m]).
    rewrite calls_snoc, <- H1, Eq, app_assoc. destruct (Z.eqb_spec (m_cb m) 0); done.
  - cbn. rewrite length_app. cbn. lia.
  - change (posted (EvPosted m :: m_trace s)) with (posted (m_trace s) ++ [m]). rewrite length_app, H3, u32_succ. f_equal. cbn. lia.
  - exact H4.
Qed.

(** A post refused. *)
Lemma fifo_refuse (s : fstate) f w m tr : fifo s -> mailbox f = mailbox (m_sm s) -> posts f = posts (m_sm s) -> dropped f = u32 (dropped (m_sm s) + 1) ->
  (tr = m_trace s \/ exists id, tr = EvHealth id :: m_trace s) -> fifo (Mach f w (EvRefused m :: tr)).
Proof.
  intros [H1 H2 H3 H4] E1 E2 E3 Htr. assert (Hx : consumed (EvRefused m :: tr) = consumed (m_trace s) /\ posted (EvRefused m :: tr) = posted (m_trace s) /\ lost (EvRefused m :: tr) = S (lost (m_trace s)) /\ woken (EvRefused m :: tr) = woken (m_trace s)).
  { destruct Htr as [->|[id ->]]; split_and!; reflexivity. }
  destruct Hx as (X1 & X2 & X3 & X4). split; cbn [m_sm m_trace]; rewrite ?E1, ?E2, ?E3, ?X1, ?X2, ?X3, ?X4; try done. rewrite H4, u32_succ. f_equal. lia.
Qed.

Lemma keep_post cb arg : rel keep (espos_flow_post cb arg).
Proof.
  unfold espos_flow_post. destruct (Z.eqb_spec cb 0) as [->|Hc]; [rel_go|]. intros s r s' E Hs. unfold queue_send, mailbox_full in E. unfold mbind, fm_bind, fget, fmod, fnote, total, gets, mods, emit, mret, fm_ret in E. cbn -[Nat.ltb lit] in E.
  destruct (mailbox (m_sm s)) as [q|] eqn:Eq; cbn -[Nat.ltb lit] in E; [|by injection E as <- <-]. rewrite ?Eq in E. cbn -[Nat.ltb lit] in E. destruct (Nat.ltb_spec (length q) MAILBOX_DEPTH) as [Hl|Hl]; cbn -[lit] in E.
  - injection E as <- <-. eapply (fifo_post s _ _ q (Msg cb arg)); try done; cbn; by destruct (_ <? _).
  - destruct (mailbox_warned (m_sm s)); cbn -[lit] in E; [|destruct FLOW_REPORT_HEALTH; cbn -[lit] in E]; injection E as <- <-; eapply (fifo_refuse s); eauto.
Qed.

Lemma keep_isr cb arg : rel keep (espos_flow_post_from_isr cb arg).
Proof.
  unfold espos_flow_post_from_isr. destruct (Z.eqb_spec cb 0) as [->|Hc]; [rel_go|]. intros s r s' E Hs. unfold queue_send in E. unfold mbind, fm_bind, fget, fmod, fnote, total, gets, mods, emit, mret, fm_ret in E. cbn -[Nat.ltb lit] in E.
  destruct (mailbox (m_sm s)) as [q|] eqn:Eq; cbn -[Nat.ltb lit] in E; [|by injection E as <- <-]. rewrite ?Eq in E. cbn -[Nat.ltb lit] in E. destruct (Nat.ltb_spec (length q) MAILBOX_DEPTH) as [Hl|Hl]; cbn -[lit] in E; injection E as <- <-.
  - by eapply (fifo_post s _ _ q (Msg cb arg)).
  - eapply (fifo_refuse s); eauto.
Qed.

Lemma keep_arrive l : rel keep (arrive_all l).
Proof.
  induction l as [|a l IH]; cbn [arrive_all]; rel_go. destruct a; cbn [arrive]; rel_go; try apply keep_post; try apply keep_isr. apply (keep_frame (Mach _ _ _)); cbn; by destruct (running _).
Qed.
Lemma keep_others : rel keep others.
Proof. unfold others. rel_go; [by apply (keep_frame (Mach _ _ _))|apply keep_arrive]. Qed.

Lemma keep_await n : rel keep (await_exit n).
Proof. induction n as [|n IH]; cbn [await_exit]; rel_go. apply keep_others. Qed.

(** What a stop throws away, in order. *)
Lemma throw_all_spec l (s : fstate) : exists f, throw_all l s = Some (tt, Mach f (m_world s) (rev (EvThrown <$> l) ++ m_trace s)) /\ mailbox f = mailbox (m_sm s) /\ posts f = posts (m_sm s) /\
  dropped f = (if l is [] then dropped (m_sm s) else u32 (dropped (m_sm s) + Z.of_nat (length l))).
Proof.
  revert s. induction l as [|m l IH]; intros s; cbn [throw_all]; [exists (m_sm s); by destruct s|]. unfold mbind, fm_bind, fnote, fmod, total, emit, mods. cbn [m_sm m_world m_trace].
  destruct (IH (Mach ((m_sm s) <| dropped ::= fun d => u32 (d + 1) |>) (m_world s) (EvThrown m :: m_trace s))) as (f & E & H1 & H2 & H3). rewrite E. exists f. cbn [m_sm m_trace m_world] in *. split_and!; [|done|done|].
  - cbn [fmap list_fmap rev]. by rewrite <- app_assoc.
  - rewrite H3. cbn. destruct l; cbn; [f_equal; lia|]. unfold u32. div_lia.
Qed.

Lemma thrown_trace l tr : consumed (rev (EvThrown <$> l) ++ tr) = consumed tr ++ calls (Some l) /\ posted (rev (EvThrown <$> l) ++ tr) = posted tr /\
  (lost (rev (EvThrown <$> l) ++ tr) + woken (rev (EvThrown <$> l) ++ tr))%nat = (length l + (lost tr + woken tr))%nat.
Proof.
  revert tr. induction l as [|m l IH]; intros tr; [cbn; by rewrite app_nil_r|]. cbn [fmap list_fmap rev]. rewrite <- app_assoc. destruct (IH ([EvThrown m] ++ tr)) as (H1 & H2 & H3). rewrite H1, H2, H3, calls_cons.
  split_and!; [|done|unfold lost, woken; cbn; destruct (m_cb m =? 0); cbn; lia]. rewrite app_assoc. f_equal. unfold consumed. cbn. by destruct (m_cb m =? 0); cbn; rewrite ?app_nil_r.
Qed.

Lemma keep_send_nop : rel keep (queue_send (Msg 0 0)).
Proof.
  intros s r s' E Hs. unfold queue_send in E. unfold mbind, fm_bind, fget, fmod, total, gets, mods, mret, fm_ret in E. cbn -[Nat.ltb] in E. destruct (mailbox (m_sm s)) as [q|] eqn:Eq; [|by injection E as <- <-].
  destruct (Nat.ltb_spec (length q) MAILBOX_DEPTH); injection E as <- <-; [|done]. destruct Hs as [H1 H2 H3 H4]. split; cbn [m_sm m_trace mailbox posts dropped update]; try done.
  - rewrite calls_snoc. cbn [m_cb]. by rewrite Z.eqb_refl, app_nil_r, <- Eq.
  - cbn [default from_option id]. rewrite length_app. cbn. lia.
Qed.

Lemma keep_drop : rel keep drop_mailbox.
Proof.
  intros s r s' E Hs. unfold drop_mailbox in E. unfold mbind at 1, fm_bind at 1 in E. unfold fget at 1, total at 1, gets at 1 in E. destruct (mailbox (m_sm s)) as [l|] eqn:Eq; [|by injection E as <- <-].
  unfold mbind, fm_bind, fmod, total, mods in E. destruct (throw_all_spec l (Mach ((m_sm s) <| mailbox := Some [] |>) (m_world s) (m_trace s))) as (f & Ef & H1 & H2 & H3).
  rewrite Ef in E. injection E as <- <-. destruct (thrown_trace l (m_trace s)) as (T1 & T2 & T3). destruct Hs as [F1 F2 F3 F4]. cbn [m_sm m_trace m_world mailbox posts dropped update] in *.
  split; cbn [m_sm m_trace]; rewrite ?H1, ?H2, ?H3, ?T1, ?T2, ?T3; try done.
  - change (calls (Some [])) with (@nil msg_t). by rewrite app_nil_r, <- F1, Eq.
  - cbn. lia.
  - destruct l as [|m l]; [done|]. rewrite F4. unfold u32. rewrite Nat2Z.inj_add. div_lia.
Qed.

Lemma keep_stop : rel keep espos_flow_stop.
Proof. unfold espos_flow_stop. rel_go; try (by apply (keep_frame (Mach _ _ _))); [apply keep_send_nop|apply keep_await|apply keep_drop]. Qed.

Lemma keep_lock : rel keep lock.
Proof. intros s r s' E Hs. unfold lock in E. destruct (f_lock _); cbn in E; [|by injection E as <- <-]. destruct (held _); [done|]. injection E as <- <-. by apply (keep_frame s). Qed.
Lemma keep_now : rel keep espos_flow_now_ms.
Proof. unfold espos_flow_now_ms. rel_go. by apply (keep_frame (Mach _ _ _)). Qed.
Lemma keep_every period cb arg : rel keep (espos_flow_every period cb arg).
Proof. unfold espos_flow_every, unlock. rel_go; [apply keep_lock|apply keep_now|]. destruct (espos_sched_add _ _ _ _ _ _) as [[e h] c]. rel_go; by apply (keep_frame (Mach _ _ _)). Qed.
Lemma keep_after delay cb arg : rel keep (espos_flow_after delay cb arg).
Proof. unfold espos_flow_after, unlock. rel_go; [apply keep_lock|apply keep_now|]. destruct (espos_sched_add _ _ _ _ _ _) as [[e h] c]. rel_go; by apply (keep_frame (Mach _ _ _)). Qed.
Lemma keep_cancel h : rel keep (espos_flow_cancel h).
Proof. unfold espos_flow_cancel, unlock. rel_go; [apply keep_lock|]. destruct (espos_sched_cancel _ _) as [e c]. rel_go; by apply (keep_frame (Mach _ _ _)). Qed.
Lemma keep_stats : rel keep espos_flow_stats.
Proof. unfold espos_flow_stats, unlock. rel_go; [apply keep_lock|by apply (keep_frame (Mach _ _ _))]. Qed.

Lemma keep_prog p : rel keep (run_fprog p).
Proof.
  induction p; cbn [run_fprog]; unfold espos_flow_on_loop_task, espos_flow_is_running; rel_go;
    first [apply keep_every|apply keep_after|apply keep_cancel|apply keep_post|apply keep_now|apply keep_stats|apply keep_stop|by apply (keep_frame (Mach _ _ _))].
Qed.
Lemma keep_callback cb arg : rel keep (call_back cb arg).
Proof. unfold call_back. rel_go; [by apply (keep_frame (Mach _ _ _))|apply keep_prog]. Qed.

(** A message is taken and its callback runs. *)
Lemma keep_serve {A} (k : option msg_t -> fm A) : (forall m, m_cb m = 0 -> rel keep (k (Some m))) ->
  (forall m, m_cb m <> 0 -> exists k', k (Some m) = (fnote (EvRan m);; k') /\ rel keep k') -> rel keep (k None) -> rel keep (queue_take ≫= k).
Proof.
  intros H0 H1 Hn s r s' E Hs. unfold mbind at 1, fm_bind at 1 in E. unfold queue_take, mbind, fm_bind, fget, fmod, total, gets, mods in E. cbn in E.
  destruct (mailbox (m_sm s)) as [[|m q]|] eqn:Eq; cbn in E; [by eapply Hn| |by eapply Hn]. destruct Hs as [F1 F2 F3 F4]. rewrite Eq, calls_cons in F1. rewrite Eq in F2. cbn in F2.
  destruct (Z.eqb_spec (m_cb m) 0) as [Em|Em].
  - eapply (H0 m Em); [exact E|]. split; cbn [m_sm m_trace mailbox posts dropped update]; try done. cbn. lia.
  - destruct (H1 m Em) as (k' & Ek & Hk). rewrite Ek in E. unfold mbind, fm_bind, fnote, total, emit in E. eapply Hk; [exact E|]. split; cbn [m_sm m_trace mailbox posts dropped update]; try done; [|cbn; lia].
    change (posted (EvRan m :: m_trace s)) with (posted (m_trace s)). rewrite <- F1. unfold consumed at 1. cbn. destruct (Z.eqb_spec (m_cb m) 0); [done|]. cbn. by rewrite <- app_assoc.
Qed.

Lemma keep_drain n : rel keep (drain n).
Proof.
  induction n as [|n IH]; cbn [drain]; [rel_go|]. rel_step; [apply keep_others|]. apply keep_serve.
  - intros m ->. cbn. rel_go.
  - intros m Hm. destruct (Z.eqb_spec (m_cb m) 0); [done|]. eexists (call_back (m_cb m) (m_arg m);; x ← drain n; mret (S x)). split; [|rel_go; apply keep_callback]. done.
  - rel_go.
Qed.

Lemma keep_set_sched c (s : fstate) : keep s (set_sched c s).
Proof. by apply (keep_frame s). Qed.

Lemma keep_sweep fuel now (s s' : fstate) log : sweep fuel now s = Some (log, s') -> keep s s'.
Proof.
  revert s log. induction fuel as [|n IH]; intros s log E; [done|]. cbn [sweep] in E. destruct (pick_scan _ _ _ _) as [[i t]|]; [|injection E as <- <-; reflexivity].
  cbv zeta in E. destruct (run_cb _ _ _) as [s2|] eqn:Ec; [|done]. cbn [mbind option_bind] in E. destruct (sweep n now s2) as [[l2 s3]|] eqn:E2; [|done]. injection E as <- <-.
  etransitivity; [apply keep_set_sched|]. etransitivity; [|by eapply IH]. unfold run_cb, flow_host in Ec. destruct (call_back _ _ _) as [[u s4]|] eqn:E4; [|done]. injection Ec as <-. by eapply keep_callback.
Qed.

Lemma keep_fire now : rel keep (fire_due now).
Proof.
  intros s n s' E. unfold fire_due, espos_sched_fire, fire_log in E. destruct (_ || _); [injection E as <- <-; reflexivity|]. cbv zeta in E. destruct (sweep _ _ _) as [[log s2]|] eqn:E2; [|done]. injection E as <- <-.
  etransitivity; [apply keep_set_sched|]. etransitivity; [by eapply keep_sweep|]. apply keep_set_sched.
Qed.

Lemma keep_run_once : rel keep run_once.
Proof. unfold run_once, unlock. rel_go; first [apply keep_lock|apply keep_now|apply keep_fire|apply keep_drain|by apply (keep_frame (Mach _ _ _))]. Qed.

Lemma keep_pass : rel keep flow_pass.
Proof.
  unfold flow_pass, unlock. rel_step; [apply keep_run_once|]. rel_step; [apply keep_lock|]. rel_step; [rel_go|]. rel_step; [apply keep_now|]. rel_step; [rel_go|]. rel_step; [rel_go; by apply (keep_frame (Mach _ _ _))|].
  cbv zeta. rel_step; [|rel_go]. destruct (0 <? _); [|rel_go]. rel_step; [apply keep_others|]. apply keep_serve; [intros m ->; cbn; rel_go| |rel_go].
  intros m Hm. destruct (Z.eqb_spec (m_cb m) 0); [done|]. exists (call_back (m_cb m) (m_arg m)). split; [done|apply keep_callback].
Qed.

Lemma keep_task n : rel keep (flow_task n).
Proof. induction n as [|n IH]; cbn [flow_task]; rel_go; first [apply keep_pass|by apply (keep_frame (Mach _ _ _))]. Qed.

Lemma keep_make : rel keep make_mailbox.
Proof.
  unfold make_mailbox. intros s r s' E. unfold mbind at 1, fm_bind at 1, fget, total at 1, gets in E. destruct (mailbox (m_sm s)) as [q|] eqn:Eq; [injection E as <- <-; reflexivity|].
  unfold mbind, fm_bind, fask, total, query in E. destruct (port_queue (m_world s)) as [[] w]; injection E as <- <-; [|by apply (keep_frame s)]. intros [H1 H2 H3 H4]. rewrite Eq in H1. split; cbn; try done. lia.
Qed.

Lemma keep_start : rel keep espos_flow_start.
Proof. unfold espos_flow_start. rel_go; first [apply keep_make|by apply (keep_frame (Mach _ _ _))]. Qed.

Lemma keep_idle_loop n started timeout : rel keep (idle_loop n started timeout).
Proof. induction n as [|n IH]; cbn [idle_loop]; [done|]. unfold unlock. cbv zeta. rel_go; first [apply keep_run_once|apply keep_lock|apply keep_now|by apply (keep_frame (Mach _ _ _))]. Qed.

Lemma keep_until_idle n timeout : rel keep (espos_flow_run_until_idle n timeout).
Proof. unfold espos_flow_run_until_idle. rel_go; first [apply keep_make|apply keep_now|apply keep_idle_loop|by apply (keep_frame (Mach _ _ _))]. Qed.

(** ** Any sequence of calls *)

Inductive flow_call :=
  | CStart | CStop | CTask (passes : nat) | CUntilIdle (n : nat) (timeout : Z) | CEvery (period cb arg : Z) | CAfter (delay cb arg : Z) | CCancel (h : Z)
  | CPost (cb arg : Z) | CIsr (cb arg : Z) | CStats | CAdopt | CRelease | CEdges (n : Z).

Definition run_call (c : flow_call) : fm unit :=
  match c with
  | CStart => espos_flow_start;; mret tt
  | CStop => espos_flow_stop;; mret tt
  | CTask n => flow_task n
  | CUntilIdle n t => espos_flow_run_until_idle n t;; mret tt
  | CEvery p cb arg => espos_flow_every p cb arg;; mret tt
  | CAfter d cb arg => espos_flow_after d cb arg;; mret tt
  | CCancel h => espos_flow_cancel h;; mret tt
  | CPost cb arg => espos_flow_post cb arg;; mret tt
  | CIsr cb arg => espos_flow_post_from_isr cb arg;; mret tt
  | CStats => espos_flow_stats;; mret tt
  | CAdopt => espos_flow_adopt_loop;; mret tt
  | CRelease => espos_flow_release_loop
  | CEdges n => espos_flow_note_edges_used n
  end.
Fixpoint run_calls (l : list flow_call) : fm unit := match l with [] => mret tt | c :: l' => run_call c;; run_calls l' end.

Lemma keep_call c : rel keep (run_call c).
Proof.
  destruct c; cbn [run_call]; unfold espos_flow_adopt_loop, espos_flow_release_loop, espos_flow_note_edges_used; rel_go;
    first [apply keep_start|apply keep_stop|apply keep_task|apply keep_until_idle|apply keep_every|apply keep_after|apply keep_cancel|apply keep_post|apply keep_isr|apply keep_stats
          |by apply (keep_frame (Mach _ _ _))|apply (keep_frame (Mach _ _ _)); cbn; by destruct (running _)].
Qed.

Lemma keep_calls l : rel keep (run_calls l).
Proof. induction l as [|c l IH]; cbn [run_calls]; rel_go. apply keep_call. Qed.

Lemma fifo_boot w : fifo (Mach flow_zero w []).
Proof. split; cbn; done || lia. Qed.

(** C10. The mailbox is a queue and nothing is lost unaccounted: after any calls from
    boot, with posts of other tasks and interrupts in between, the accepted posts are,
    in order, those whose callback ran or that a stop threw away, and then those that
    wait, at most the configured depth; [posts] counts the accepted posts, and
    [dropped] the refused posts, the accepted ones that a stop threw away, and the
    wake-up that a stop has sent itself when it throws that away too. *)
Theorem flow_mailbox_fifo (w : W) l s : (flow_ctor;; run_calls l) (Mach flow_zero w []) = Some (tt, s) -> fifo s.
Proof.
  intros E. assert (Hk : rel keep (flow_ctor;; run_calls l)); [|eapply Hk; [exact E|apply fifo_boot]].
  unfold flow_ctor. rel_go; try apply keep_calls; by apply (keep_frame (Mach _ _ _)).
Qed.
End Props.
