(* ===== verification/FlowRuns.v ===== *)
(** Runs of the timer wheel and the flow loop: wheels and loops to which the
    properties of [SchedProps], [SchedTime] and [FlowProps] apply, and the runs in
    which the code differs from its headers. *)
From Stdlib Require Import ZArith Lia String Sorting.Sorted.
From stdpp Require Import base list numbers option.
From S2P Require Import Prelude ConfigDesc Sched SchedProps SchedTime Flow FlowProps.
Open Scope Z_scope.

(** * Wheels *)

Definition wheel0 (n : nat) : espos_sched_t := (espos_sched_init sched_zero (Some (replicate n timer_zero))).2.
Definition add (now delay period cb : Z) (s : espos_sched_t) : espos_sched_t := (espos_sched_add s now delay period cb 0).2.
Definition handle (now delay period cb : Z) (s : espos_sched_t) : Z := (espos_sched_add s now delay period cb 0).1.2.

Lemma wheel0_inv n : (0 < n)%nat -> Z.of_nat n <= 0xFFFF -> sched_inv (wheel0 n).
Proof. intros. apply inv_init; rewrite length_replicate; lia. Qed.
Lemma add_keeps now delay period cb s : sched_inv s -> 0 <= period -> sched_inv (add now delay period cb s).
Proof. intros. by apply inv_add. Qed.

(** A second before the clock wraps: a one-shot due half a second after the wrap,
    and a periodic timer of 300 ms. *)
Definition T0 : Z := 2 ^ 32 - 1000.
Definition two_timers : espos_sched_t := add T0 300 300 2 (add T0 1500 0 1 (wheel0 4)).
Lemma two_timers_inv : sched_inv two_timers.
Proof. repeat apply add_keeps; try apply wheel0_inv; vm_compute; congruence || lia. Qed.

(** A host that runs programs; the periodic timer's callback cancels the one-shot. *)
Definition cancels : prog_host := ProgHost two_timers (fun cb _ => if cb =? 2 then PCancel (handle T0 1500 0 1 (wheel0 4)) (fun _ => PDone) else PDone).

Lemma prog_returns_all t : returns (H := prog_host) t.
Proof. intros h. done. Qed.

Lemma sched_fire_exact_witness : sched_inv (sched_of cancels) /\ (forall i t, slots (sched_of cancels) !! i = Some t -> used t = true -> returns (H := prog_host) t) /\
  exists log h', fire_log 600 cancels = Some (log, h') /\ espos_sched_fire 600 cancels = Some (length log, h') /\ sched_inv (sched_of h') /\ fired_exactly 600 (sched_of cancels) log (sched_of h').
Proof.
  assert (H1 : sched_inv (sched_of cancels)) by apply two_timers_inv.
  assert (H2 : forall i t, slots (sched_of cancels) !! i = Some t -> used t = true -> returns (H := prog_host) t) by (intros; apply prog_returns_all).
  split; [exact H1|]. split; [exact H2|]. exact (sched_fire_exact 600 cancels H1 H2).
Defined.

(** Both are due 1600 ms on; the earlier deadline, and with it the cancel, is first. *)
Example cancels_runs : option_map (fun p => map fst p.1) (fire_log 600 cancels) = Some [1%nat].
Proof. vm_compute. reflexivity. Qed.

Lemma sched_no_drift_witness : exists log h' t t', fire_log 600 cancels = Some (log, h') /\ (1%nat, t) ∈ log /\ slots (sched_of h') !! 1%nat = Some t' /\
  (exists k, 0 < k /\ due_ms t' = u32 (due_ms t + k * period_ms t)) /\ 0 < u32 (due_ms t' - 600) <= period_ms t /\ espos_sched_reached 600 (due_ms t') = false.
Proof.
  set (r := fire_log 600 cancels). vm_compute in r. destruct (slots (sched_of cancels) !! 1%nat) as [t|] eqn:Et; [|vm_compute in Et; discriminate].
  destruct r as [[log h']|] eqn:Er; [|discriminate]. exists log, h', t, (default timer_zero (slots (sched_of h') !! 1%nat)).
  assert (E : fire_log 600 cancels = Some (log, h')) by (rewrite <- Er; vm_compute; reflexivity). injection Er as <- <-. vm_compute in Et. injection Et as <-.
  assert (Hin : (1%nat, SchedTimer 2 0 4294966596 300 2 true false false false) ∈ [(1%nat, SchedTimer 2 0 4294966596 300 2 true false false false)]) by (apply elem_of_cons; left; reflexivity).
  assert (Hi : sched_inv (sched_of cancels)) by apply two_timers_inv.
  destruct (sched_no_drift 600 cancels _ _ _ _ (SchedTimer 2 0 800 300 2 true false false false) Hi (fun i t _ _ => prog_returns_all t) E Hin) as (H1 & H2 & H3 & _);
    [vm_compute; reflexivity|reflexivity|]. split; [exact E|]. split; [exact Hin|]. split; [vm_compute; reflexivity|]. split; [exact H1|]. split; [exact H2|exact H3].
Defined.

Lemma sched_sleep_exact_witness : sched_inv two_timers /\ espos_sched_next_due two_timers (T0 + 100) = 200 /\
  (exists t, t ∈ slots two_timers /\ live t = true /\ espos_sched_reached (u32 (T0 + 100 + espos_sched_next_due two_timers (T0 + 100))) (due_ms t) = true).
Proof.
  split; [apply two_timers_inv|]. split; [vm_compute; reflexivity|].
  destruct (sched_sleep_exact two_timers (T0 + 100) two_timers_inv) as [_ H]. destruct H as (_ & H & _); [|exact H].
  exists (SchedTimer 1 0 500 0 1 true false false false). split; [apply elem_of_cons; left; vm_compute; reflexivity|reflexivity].
Defined.

(** A host whose callbacks do not look at the wheel: it keeps a list of the calls. *)
#[local] Instance call_list : SchedHost (espos_sched_t * list (Z * Z)) := {
  sched_of h := h.1;
  set_sched s h := (s, h.2);
  run_cb cb arg h := Some (h.1, (cb, arg) :: h.2) }.
#[local] Instance call_list_ok : SchedHostOk (espos_sched_t * list (Z * Z)).
Proof. split; [done|]. intros cb arg h h' [= <-]. apply ApiRefl. Qed.

(** The sweep across the wrap is the sweep half a range away from it. *)
Lemma sched_wrap_free_witness :
  fire_log (u32 (600 + 2 ^ 31)) (shift (2 ^ 31) two_timers, []) = prod_map (shift_log (2 ^ 31)) (fun h => (shift (2 ^ 31) h.1, h.2)) <$> fire_log 600 (two_timers, []) /\
  espos_sched_next_due (shift (2 ^ 31) two_timers) (u32 (600 + 2 ^ 31)) = espos_sched_next_due two_timers 600.
Proof.
  apply (@sched_wrap_free _ call_list call_list_ok (fun h : espos_sched_t * list (Z * Z) => (shift (2 ^ 31) h.1, h.2)) (2 ^ 31) (fun h => eq_refl) (fun s h => eq_refl) (fun cb arg h => eq_refl) 600 (two_timers, [])).
Defined.

(** A timer added and cancelled; five more timers later its handle is still spent. *)
Lemma sched_handle_spent_witness : exists h s1, espos_sched_add (wheel0 4) 0 10 0 1 0 = (ESP_OK, h, s1) /\
  let s2 := (espos_sched_cancel s1 h).2 in let s3 := add 0 10 0 2 s2 in espos_sched_cancel s3 h = (ESP_ERR_NOT_FOUND, s3).
Proof.
  exists (handle 0 10 0 1 (wheel0 4)), (add 0 10 0 1 (wheel0 4)).
  assert (E : espos_sched_add (wheel0 4) 0 10 0 1 0 = (ESP_OK, handle 0 10 0 1 (wheel0 4), add 0 10 0 1 (wheel0 4))) by (vm_compute; reflexivity). split; [exact E|].
  cbv zeta. set (s2 := (espos_sched_cancel _ _).2). set (s3 := add 0 10 0 2 s2).
  destruct (sched_handle_spent (wheel0 4) 0 10 0 1 0 _ _ 0 s2 1 s3 (wheel0_inv 4 ltac:(lia) ltac:(lia)) E) as [_ H]. apply H.
  - eapply LaterQuiet; [apply LaterRefl|apply quiet_cancel].
  - intros t. vm_compute. intros [= <-]. discriminate.
  - eapply (LaterAdd 0 s2 s2 0 10 0 2 0 (handle 0 10 0 2 s2)); [apply LaterRefl|]. vm_compute. reflexivity.
  - lia.
  - vm_compute. reflexivity.
Defined.

(** [n] timers armed and cancelled at once. *)
Definition churn (n : N) (s : espos_sched_t) : espos_sched_t :=
  N.iter n (fun s => (espos_sched_cancel (add 0 10 0 3 s) (handle 0 10 0 3 s)).2) s.

(** A wheel of one free slot. *)
Definition one_free (q : Z) (s : espos_sched_t) : Prop := exists t, s = SchedT [t] true q false /\ used t = false.

Lemma one_free_add q cb delay s : one_free q s -> 0 < q <= 65535 -> cb <> 0 -> 0 <= delay <= 1000 ->
  espos_sched_add s 0 delay 0 cb 0 = (ESP_OK, H_MAKE 0 q, SchedT [SchedTimer cb 0 delay 0 q true false false false] true (q + 1) false).
Proof.
  intros (t & -> & Hu) Hq Hc Hd. unfold espos_sched_add. cbn [bound slots seq firing first_free update]. rewrite Hu, next_gen_mod. destruct (Z.eqb_spec cb 0); [done|]. cbn [negb orb].
  destruct (Z.ltb_spec ESPOS_SCHED_MAX_DELAY_MS delay); [unfold ESPOS_SCHED_MAX_DELAY_MS in *; lia|]. cbn [orb]. change (ESPOS_SCHED_MAX_DELAY_MS <? 0) with false. cbv iota.
  destruct (Z.eqb_spec (q mod 2 ^ 16) 0); [div_lia|]. cbn. unfold u32. rewrite !Z.mod_small by lia. done.
Qed.

Lemma churn_one n q s : one_free q s -> 0 < q -> q + Z.of_N n <= 65536 -> one_free (q + Z.of_N n) (churn n s).
Proof.
  intros Hs Hq. induction n as [|n IH] using N.peano_ind; intros Hn; [by rewrite Z.add_0_r|]. unfold churn in *. rewrite N.iter_succ. specialize (IH ltac:(lia)).
  set (s1 := N.iter n _ s) in *. unfold add, handle. rewrite (one_free_add (q + Z.of_N n) 3 10 s1 IH) by lia. cbn [fst snd]. unfold espos_sched_cancel, resolve. cbn [bound slots negb].
  unfold ESPOS_SCHED_HANDLE_NONE. destruct (Z.eqb_spec (H_MAKE 0 (q + Z.of_N n)) 0) as [E|_]; [rewrite H_MAKE_sum in E; lia|]. rewrite H_IDX_make, H_GEN_make by lia. cbn. rewrite Z.eqb_refl. cbn.
  eexists. split; [f_equal; lia|done].
Qed.

(** The generation after 65535 is 1 again. *)
Lemma handle_again s : one_free 65536 s -> let s' := add 0 500 0 9 s in
  (espos_sched_cancel s' (H_MAKE 0 1)).1 = ESP_OK /\ espos_sched_count (espos_sched_cancel s' (H_MAKE 0 1)).2 = 0%nat.
Proof. intros (t & -> & Hu). destruct t as [tc ta td tp tg tu tx ts tf]. cbn in Hu. subst tu. vm_compute. split; reflexivity. Qed.
#[local] Opaque churn.

(** A callback that arms a one-shot again, and keeps what it was told in the argument of a second timer. *)
Definition rearms : prog_host := ProgHost (add 0 10 0 1 (wheel0 1)) (fun _ _ => PAdd 10 10 0 1 0 (fun _ => PDone)).

(** Where the wheel differs from its header: a stale handle cancels an unrelated timer after 65535 more timers; equal deadlines run in the order of their slots, not of their insertion; and a one-shot that arms itself again in its callback finds its own slot still taken. *)
Theorem sched_docs_differ :
  (let h := handle 0 10 0 1 (wheel0 1) in
   let s := (espos_sched_cancel (add 0 10 0 1 (wheel0 1)) h).2 in
   let s' := add 0 500 0 9 (churn 65534 s) in
   (espos_sched_cancel s h).1 = ESP_ERR_NOT_FOUND /\ (espos_sched_cancel s' h).1 = ESP_OK /\ espos_sched_count (espos_sched_cancel s' h).2 = 0%nat) /\
  (let h := handle 0 10 0 1 (wheel0 2) in
   let s := add 0 10 0 3 (espos_sched_cancel (add 0 10 0 2 (add 0 10 0 1 (wheel0 2))) h).2 in
   option_map (fun p => rev p.2.2) (fire_log 10 (s, [])) = Some [(3, 0); (2, 0)]) /\
  option_map (fun p => espos_sched_count (ph_sched p.2)) (espos_sched_fire 10 rearms) = Some 0%nat.
Proof.
  split; [|split; vm_compute; reflexivity]. intros h s. assert (Hs : one_free 2 s) by (eexists; split; vm_compute; reflexivity).
  assert (Hc : (espos_sched_cancel s h).1 = ESP_ERR_NOT_FOUND) by (vm_compute; reflexivity). assert (Hh : h = H_MAKE 0 1) by (vm_compute; reflexivity). clearbody h s. intros s'. split; [exact Hc|].
  subst h. apply handle_again, (churn_one 65534 2 s Hs); done.
Qed.

(** * Loops *)

(** A device whose clock stands where the run puts it. Callback 1 does nothing, 2
    arms a timer, 3 cancels the handle in its argument. *)
#[local] Instance small_conf : FlowConf := {| MAX_TIMERS := 4; MAILBOX_DEPTH := 4; FLOW_REPORT_HEALTH := true |}.
#[local] Instance still_port : FlowPort Z := {|
  port_now_us w := (w, w);
  port_mutex w := (true, w);
  port_queue w := (true, w);
  port_task w := (Some 7, w);
  port_current w := (1, w);
  port_others w := ([AExit], w);
  callback cb arg w := ((if cb =? 2 then FAfter 10 1 0 (fun _ => FDone) else if cb =? 3 then FCancel arg (fun _ => FDone) else FDone), w) |}.

Definition at_us (t : Z) (s : mach flow Z flow_ev) : mach flow Z flow_ev := Mach (m_sm s) t (m_trace s).
Definition must {A} (m : fm (W := Z) A) (s : mach flow Z flow_ev) : mach flow Z flow_ev := match m s with Some (_, s') => s' | None => s end.
Definition booted : mach flow Z flow_ev := must flow_ctor (Mach flow_zero 0 []).

(** A timer of one second, and its callback. *)
Definition armed (cb : Z) : mach flow Z flow_ev := must (espos_flow_every 1000 cb 0) booted.

Lemma armed_inv cb : cb <> 0 -> sched_inv (f_sched (m_sm (armed cb))) /\ slots (f_sched (m_sm (armed cb))) !! 0%nat = Some (SchedTimer cb 0 1000 1000 1 true false false false).
Proof.
  intros Hc. assert (E : m_sm (armed cb) = (m_sm booted) <| f_sched := add 0 1000 1000 cb (wheel0 4) |>).
  { unfold armed, must, espos_flow_every. destruct (Z.eqb_spec cb 0); [done|]. cbn [orb]. vm_compute. destruct cb; done. }
  rewrite E. split; [apply add_keeps; [apply wheel0_inv; lia|lia]|]. cbn. unfold add, espos_sched_add. cbn [bound wheel0 espos_sched_init]. destruct (Z.eqb_spec cb 0); [done|]. reflexivity.
Qed.

Lemma flow_timer_callback_blocks_witness : run_once (at_us 2000000 (armed 2)) = None.
Proof.
  destruct (armed_inv 2 ltac:(lia)) as [H1 H2]. apply (flow_timer_callback_blocks (at_us 2000000 (armed 2)) 0 (SchedTimer 2 0 1000 1000 1 true false false false)).
  - vm_compute. reflexivity.
  - vm_compute. reflexivity.
  - exact H1.
  - exact H2.
  - reflexivity.
  - vm_compute. reflexivity.
  - intros w. exact I.
Defined.

Lemma flow_pass_returns_witness : let s := at_us 2000000 (armed 1) in exists b s' log c, run_once s = Some (b, s') /\
  fired_exactly (u32 (((port_now_us (m_world s)).1 - epoch_us (m_sm s)) ÷ 1000)) (f_sched (m_sm s)) log c /\ api c (f_sched (m_sm s')) /\
  held (m_sm s') = false /\ sched_inv (f_sched (m_sm s')).
Proof.
  destruct (armed_inv 1 ltac:(lia)) as [H1 H2]. apply (flow_pass_returns (at_us 2000000 (armed 1))).
  - vm_compute. reflexivity.
  - vm_compute. reflexivity.
  - exact H1.
  - intros i t Ei Hu w. assert (Ht : Forall (fun t => used t = true -> t_cb t = 1) (slots (f_sched (m_sm (armed 1))))) by (vm_compute; repeat constructor; discriminate || reflexivity).
    pose proof (Forall_lookup_1 _ _ _ _ Ht Ei Hu) as E. cbn [callback still_port fst]. rewrite E. exact I.
Defined.

Definition fill : list flow_call := [CStart; CPost 1 0; CIsr 1 1; CPost 1 2; CIsr 1 3; CIsr 1 4; CTask 1; CStop].

Lemma flow_mailbox_fifo_witness : exists s, (flow_ctor;; run_calls fill) (Mach flow_zero 0 []) = Some (tt, s) /\ fifo s /\ dropped (m_sm s) = 2 /\ lost (m_trace s) = 1%nat.
Proof.
  destruct ((flow_ctor;; run_calls fill) (Mach flow_zero 0 [])) as [[[] s]|] eqn:E; [|vm_compute in E; discriminate]. exists s. split; [reflexivity|]. split; [exact (flow_mailbox_fifo 0 fill s E)|].
  vm_compute in E. injection E as <-. split; reflexivity.
Defined.

(** Where the loop differs from its header: a timer armed before the start counts from when it was armed, not from the start; after a stop a post is still accepted; and a post that an interrupt loses is never reported as a condition. *)
Theorem flow_docs_differ :
  (let s := must (flow_task 1) (must espos_flow_start (at_us 5000000 (armed 1))) in timers_fired (m_sm s) = 1) /\
  (let s := must espos_flow_stop (must espos_flow_start booted) in running (m_sm s) = false /\ option_map fst (espos_flow_post 1 0 s) = Some ESP_OK) /\
  (let s := must (run_calls [CStart; CIsr 1 0; CIsr 1 1; CIsr 1 2; CIsr 1 3; CIsr 1 4; CTask 3]) booted in
   dropped (m_sm s) = 1 /\ forallb (fun e => match e with EvHealth _ => false | _ => true end) (m_trace s) = true).
Proof. vm_compute. repeat split; reflexivity. Qed.
