(* ===== verification/OtaManifest.v ===== *)
(** The version manifest of the updater: [manifest.c].

    cJSON is not part of the sources: it is a class of the accessors that the code
    calls on a parsed document. A number of a document is an IEEE 754 double. *)
From Stdlib Require Import ZArith Lia String.
From Stdlib Require Import Floats.SpecFloat.
From stdpp Require Import base list numbers option.
From S2P Require Import Prelude ConfigDesc.
Open Scope Z_scope.

Definition ESPOS_OTA_VERSION_MAX : nat := 32.
Definition ESPOS_OTA_URL_MAX : nat := 256.
Definition ESPOS_OTA_NOTES_MAX : nat := 128.
Definition ESPOS_OTA_SIZE_MAX : Z := 256 * 1024 * 1024.

Record espos_ota_build_t := OtaBuild {
  b_version : cstr;
  b_url : cstr;
  b_sha256 : cstr;
  b_notes : cstr;
  b_size : Z;
  b_newer : bool }.
Definition build_zero : espos_ota_build_t := OtaBuild [] [] [] [] 0 false.

(** * Versions *)

Definition isdigit (c : Z) : bool := (48 <=? c) && (c <=? 57).
Definition LONG_MAX : Z := 2 ^ 31 - 1.

(** [strtol] in base 10 of a text that starts with a digit: it saturates. *)
Fixpoint strtol10 (s : cstr) (acc : Z) : Z * cstr :=
  match s with
  | c :: s' => if isdigit c then strtol10 s' (Z.min LONG_MAX (acc * 10 + (c - 48))) else (acc, s)
  | [] => (acc, [])
  end.

(** Up to [k] numbers separated by dots, and the rest. *)
Fixpoint comps (k : nat) (s : cstr) : list Z * cstr :=
  match k with
  | O => ([], s)
  | S k =>
      if isdigit (byte0 s) then
        let '(v, s) := strtol10 s 0 in
        match s with
        | 46 :: s' => if isdigit (byte0 s') then let '(l, r) := comps k s' in (v :: l, r) else ([v], s)
        | _ => ([v], s)
        end
      else ([], s)
  end.

Definition parse_core (s : cstr) : list Z * cstr :=
  comps 4 (match s with c :: s' => if (c =? 118) || (c =? 86) then s' else s | [] => s end).

(** The sign of [strcmp]. *)
Fixpoint strcmp (a b : cstr) : Z :=
  match a, b with
  | [], [] => 0
  | [], _ :: _ => -1
  | _ :: _, [] => 1
  | x :: a', y :: b' => if x =? y then strcmp a' b' else if x <? y then -1 else 1
  end.

(** The first of the four numbers that differs. *)
Fixpoint core_cmp (n : nat) (a b : list Z) : Z :=
  match n with
  | O => 0
  | S n =>
      let x := nth 0 a 0 in let y := nth 0 b 0 in
      if negb (x =? y) then (if x <? y then -1 else 1) else core_cmp n (tail a) (tail b)
  end.

Definition espos_ota_version_cmp (a b : cstr) : Z :=
  let '(na, ra) := parse_core a in
  let '(nb, rb) := parse_core b in
  if (length na =? 0)%nat || (length nb =? 0)%nat then strcmp a b else
  let c := core_cmp 4 na nb in
  if negb (c =? 0) then c else
  let pa := byte0 ra =? 45 in
  let pb := byte0 rb =? 45 in
  if negb (Bool.eqb pa pb) then (if pa then -1 else 1) else
  if pa then strcmp ra rb else 0.

(** * Addresses *)

(** [strstr]: where it is found. *)
Fixpoint find_at (p s : cstr) : option nat :=
  if is_prefix p s then Some 0%nat else match s with [] => None | _ :: s' => S <$> find_at p s' end.
(** [strchr] and [strrchr] *)
Definition strchr_at (c : Z) (s : cstr) : option nat := find_at [c] s.
Fixpoint strrchr_at (c : Z) (s : cstr) : option nat :=
  match s with
  | [] => None
  | x :: s' => match strrchr_at c s' with Some i => Some (S i) | None => if x =? c then Some 0%nat else None end
  end.

(** [snprintf] into the buffer: did it fit, and what is there. *)
Definition print_into (size : nat) (s : cstr) : bool * cstr := ((length s <? size)%nat, snprintf_s size s).

(** [rel] may be NULL; [None] for NULL. [out] is what the buffer held before. *)
Definition espos_ota_resolve_url (base rel : option cstr) (out : cstr) (out_size : nat) : bool * cstr :=
  match rel with
  | None | Some [] => (false, out)
  | Some rel =>
      match find_at (lit "://") rel with
      | Some _ => print_into out_size rel
      | None =>
          match base with
          | None => (false, out)
          | Some base =>
              match find_at (lit "://") base with
              | None => (false, out)
              | Some i =>
                  let scheme_end := (i + 3)%nat in
                  let host_end := (fun k => scheme_end + k)%nat <$> strchr_at 47 (drop scheme_end base) in
                  if byte0 rel =? 47 then print_into out_size (take (default (length base) host_end) base ++ rel) else
                  match strrchr_at 47 base with
                  | Some last => if (last <? scheme_end)%nat then print_into out_size (base ++ lit "/" ++ rel) else print_into out_size (take last base ++ lit "/" ++ rel)
                  | None => print_into out_size (base ++ lit "/" ++ rel)
                  end
              end
          end
      end
  end.

(** * The document *)

(** cJSON: [J] is the type of its nodes, a NULL pointer is [None]. *)
Class CJson (J : Type) := {
  cJSON_ParseWithLength : cstr -> option J;
  cJSON_IsObject : J -> bool;
  cJSON_GetObjectItem : J -> cstr -> option J;
  json_number : J -> option spec_float;   (* IsNumber and valuedouble *)
  json_valueint : J -> Z;
  json_string : J -> option cstr;         (* IsString and valuestring *)
  json_array : J -> option (list J) }.    (* IsArray and the items *)

Section Pick.
Context {J : Type} `{!CJson J}.

Definition str_or (o : J) (k : cstr) (dflt : option cstr) : option cstr :=
  match cJSON_GetObjectItem o k ≫= json_string with Some v => Some v | None => dflt end.
Definition str_of (o : J) (k : cstr) : cstr := default [] (str_or o k (Some [])).

(** [a] and [b] are both there and differ. *)
Definition other (a b : option cstr) : bool := match a, b with Some a, Some b => negb (streq a b) | _, _ => false end.

(** Is the entry for this application, target and channel? *)
Definition suits (app : option cstr) (target channel : cstr) (b : J) : bool :=
  cJSON_IsObject b &&
  match str_or b (lit "target") None, str_or b (lit "version") None, str_or b (lit "url") None with
  | Some bt, Some _, Some _ => streq bt target && streq (default [] (str_or b (lit "channel") (Some (lit "stable")))) channel
  | _, _, _ => false
  end &&
  negb (other (str_or b (lit "app") None) app).

Definition better (app : option cstr) (target channel : cstr) (best : option J) (b : J) : option J :=
  if negb (suits app target channel b) then best else
  match best with
  | None => Some b
  | Some x => if espos_ota_version_cmp (str_of b (lit "version")) (str_of x (lit "version")) >? 0 then Some b else best
  end.

(** A double as a size: 0 unless it is in range. *)
Definition size_of (v : spec_float) : Z :=
  match v with
  | S754_finite false mant e =>
      let le := match SFcompare v (binary_normalize 53 1024 ESPOS_OTA_SIZE_MAX 0 false) with Some (Lt | Eq) => true | _ => false end in
      if le then (if 0 <=? e then Z.pos mant * 2 ^ e else Z.pos mant / 2 ^ (- e)) else 0
  | _ => 0
  end.

(** The result and [*out]. *)
Definition espos_ota_manifest_pick (json : cstr) (manifest_url app : option cstr) (target channel : cstr) (running_version : option cstr) : esp_err_t * espos_ota_build_t :=
  match cJSON_ParseWithLength json with
  | None => (ESP_ERR_INVALID_ARG, build_zero)
  | Some root =>
      if negb (cJSON_IsObject root) then (ESP_ERR_INVALID_ARG, build_zero) else
      let schema := cJSON_GetObjectItem root (lit "schema") in
      if match schema with Some n => match json_number n with Some _ => negb (json_valueint n =? 1) | None => false end | None => false end then (ESP_ERR_INVALID_ARG, build_zero) else
      if other (str_or root (lit "app") None) app then (ESP_ERR_NOT_FOUND, build_zero) else
      match cJSON_GetObjectItem root (lit "builds") ≫= json_array with
      | None => (ESP_ERR_INVALID_ARG, build_zero)
      | Some builds =>
          match foldl (better app target channel) None builds with
          | None => (ESP_ERR_NOT_FOUND, build_zero)
          | Some best =>
              let version := snprintf_s ESPOS_OTA_VERSION_MAX (str_of best (lit "version")) in
              let '(ok, url) := espos_ota_resolve_url manifest_url (Some (str_of best (lit "url"))) [] ESPOS_OTA_URL_MAX in
              if negb ok then (ESP_ERR_INVALID_ARG, OtaBuild version url [] [] 0 false) else
              let size := match cJSON_GetObjectItem best (lit "size") ≫= json_number with Some v => size_of v | None => 0 end in
              let newer := match running_version with Some (c :: r) => espos_ota_version_cmp version (c :: r) >? 0 | _ => true end in
              (ESP_OK, OtaBuild version url (snprintf_s 65 (str_of best (lit "sha256"))) (snprintf_s ESPOS_OTA_NOTES_MAX (str_of best (lit "notes"))) size newer)
          end
      end
  end.
End Pick.
