(* ===== verification/OtaPick.v ===== *)
(** Correctness of the manifest ([OtaManifest]): versions are ordered, the build
    that is picked is the newest that suits, and an address of the manifest cannot
    leave the manifest's own host unless it says so. *)
From Stdlib Require Import ZArith Lia String.
From Stdlib Require Import Floats.SpecFloat.
From stdpp Require Import base list numbers option.
From S2P Require Import Prelude ConfigDesc OtaManifest.
Open Scope Z_scope.

(** * Comparisons *)

(** A comparison by sign that is a total preorder. *)
Record weak_order {A : Type} (c : A -> A -> Z) : Prop := {
  wo_sym : forall a b, c b a = - c a b;
  wo_trans : forall a b d, c a b <= 0 -> c b d <= 0 -> c a d <= 0 }.

(** The second comparison decides when the first does not. *)
Definition lex {A : Type} (c1 c2 : A -> A -> Z) (a b : A) : Z := if negb (c1 a b =? 0) then c1 a b else c2 a b.

Lemma wo_eq {A} (c : A -> A -> Z) a b d : weak_order c -> c a b = 0 -> c b d = 0 -> c a d = 0.
Proof. intros [S T] E1 E2. pose proof (T a b d ltac:(lia) ltac:(lia)). pose proof (T d b a). rewrite (S b d), (S a b), (S a d) in *. lia. Qed.

Lemma wo_lt {A} (c : A -> A -> Z) a b d : weak_order c -> c a b <= 0 -> c b d <= 0 -> c a b < 0 \/ c b d < 0 -> c a d < 0.
Proof.
  intros [S T] H1 H2 H. pose proof (T a b d H1 H2). destruct (Z.eq_dec (c a d) 0) as [E|]; [|lia]. exfalso. assert (c d a <= 0) by (rewrite (S a d); lia).
  destruct H; [pose proof (T b d a H2 H3)|pose proof (T d a b H3 H1)]; rewrite ?(S a b), ?(S b d) in *; lia.
Qed.

Lemma lex_order {A} (c1 c2 : A -> A -> Z) : weak_order c1 -> weak_order c2 -> weak_order (lex c1 c2).
Proof.
  intros W1 W2. split; unfold lex.
  - intros a b. rewrite (wo_sym _ W1 a b). destruct (Z.eqb_spec (c1 a b) 0), (Z.eqb_spec (- c1 a b) 0); cbn; try lia. apply W2.
  - intros a b d. destruct (Z.eqb_spec (c1 a b) 0), (Z.eqb_spec (c1 b d) 0); cbn; intros H1 H2.
    + pose proof (wo_eq _ _ _ _ W1 e e0) as E. rewrite E. cbn. by eapply (wo_trans _ W2).
    + pose proof (wo_lt _ a b d W1 ltac:(lia) ltac:(lia) ltac:(lia)). destruct (Z.eqb_spec (c1 a d) 0); cbn; lia.
    + pose proof (wo_lt _ a b d W1 ltac:(lia) ltac:(lia) ltac:(lia)). destruct (Z.eqb_spec (c1 a d) 0); cbn; lia.
    + pose proof (wo_lt _ a b d W1 ltac:(lia) ltac:(lia) ltac:(lia)). destruct (Z.eqb_spec (c1 a d) 0); cbn; lia.
Qed.

Lemma pull_order {A B} (f : A -> B) (c : B -> B -> Z) : weak_order c -> weak_order (fun a b => c (f a) (f b)).
Proof. intros [S T]. split; intros; eauto. Qed.

Definition zcmp (x y : Z) : Z := if x =? y then 0 else if x <? y then -1 else 1.
Lemma zcmp_order : weak_order zcmp.
Proof.
  split; unfold zcmp; intros a b; [|intros d]; destruct (Z.eqb_spec a b), (Z.ltb_spec a b); rewrite ?(Z.eqb_sym b a); try (destruct (Z.eqb_spec a b), (Z.ltb_spec b a); lia);
    destruct (Z.eqb_spec b d), (Z.ltb_spec b d), (Z.eqb_spec a d), (Z.ltb_spec a d); lia.
Qed.

Lemma strcmp_order : weak_order strcmp.
Proof.
  split.
  - induction a as [|x a IH]; intros [|y b]; cbn; try done. rewrite (Z.eqb_sym y x). destruct (Z.eqb_spec x y); [apply IH|]. destruct (Z.ltb_spec x y), (Z.ltb_spec y x); lia.
  - induction a as [|x a IH]; intros [|y b] [|z d]; cbn; try lia. destruct (Z.eqb_spec x y), (Z.eqb_spec y z), (Z.eqb_spec x z); try lia; try (by apply IH);
      destruct (Z.ltb_spec x y), (Z.ltb_spec y z), (Z.ltb_spec x z); lia.
Qed.

Lemma core_order n : weak_order (core_cmp n).
Proof.
  induction n as [|n IH]; [split; cbn; lia|].
  assert (W : weak_order (lex (fun a b => zcmp (nth 0 a 0) (nth 0 b 0)) (fun a b => core_cmp n (tail a) (tail b)))) by (apply lex_order; [apply pull_order, zcmp_order|by apply pull_order]).
  destruct W as [S T]. assert (E : forall a b, core_cmp (Datatypes.S n) a b = lex (fun a b => zcmp (nth 0 a 0) (nth 0 b 0)) (fun a b => core_cmp n (tail a) (tail b)) a b).
  { intros a b. cbn [core_cmp]. unfold lex, zcmp. destruct (Z.eqb_spec (nth 0 a 0) (nth 0 b 0)); cbn; [done|]. by destruct (_ <? _). }
  split; intros *; rewrite !E; auto. apply T.
Qed.

(** A version that starts with a number. *)
Definition parsable (v : cstr) : Prop := (parse_core v).1 <> [].

(** Pre-releases: before the release, among themselves by text. *)
Definition pre_cmp (ra rb : cstr) : Z :=
  let pa := byte0 ra =? 45 in let pb := byte0 rb =? 45 in if negb (Bool.eqb pa pb) then (if pa then -1 else 1) else if pa then strcmp ra rb else 0.
Lemma pre_order : weak_order pre_cmp.
Proof.
  pose proof strcmp_order as [S T]. split; unfold pre_cmp.
  - intros a b. destruct (byte0 a =? 45), (byte0 b =? 45); cbn; auto.
  - intros a b d. destruct (byte0 a =? 45), (byte0 b =? 45), (byte0 d =? 45); cbn; try lia. apply T.
Qed.

Definition key_cmp (a b : list Z * cstr) : Z := lex (fun a b => core_cmp 4 a.1 b.1) (fun a b => pre_cmp a.2 b.2) a b.

Lemma version_cmp_key a b : parsable a -> parsable b -> espos_ota_version_cmp a b = key_cmp (parse_core a) (parse_core b).
Proof.
  unfold parsable, espos_ota_version_cmp, key_cmp, lex, pre_cmp. destruct (parse_core a) as [na ra], (parse_core b) as [nb rb]. cbn [fst snd]. intros Ha Hb.
  destruct na as [|? ?], nb as [|? ?]; try done.
Qed.

Lemma key_order : weak_order key_cmp.
Proof. apply lex_order; [apply (pull_order fst), core_order|apply (pull_order snd), pre_order]. Qed.

Lemma version_sym a b : espos_ota_version_cmp b a = - espos_ota_version_cmp a b.
Proof.
  unfold espos_ota_version_cmp. destruct (parse_core a) as [na ra] eqn:Ea, (parse_core b) as [nb rb] eqn:Eb. rewrite orb_comm. destruct (_ || _); [apply strcmp_order|].
  pose proof (wo_sym _ key_order (na, ra) (nb, rb)) as H. unfold key_cmp, lex, pre_cmp in H. cbn [fst snd] in H. exact H.
Qed.

Lemma version_trans a b d : parsable a -> parsable b -> parsable d -> espos_ota_version_cmp a b <= 0 -> espos_ota_version_cmp b d <= 0 -> espos_ota_version_cmp a d <= 0.
Proof. intros Ha Hb Hd. rewrite !version_cmp_key by done. apply key_order. Qed.

(** * Picking *)

Section Pick.
Context {J : Type} `{!CJson J}.
#[local] Abbreviation version_of b := (str_of b (lit "version")).

(** The best of the entries so far. *)
Definition newest (app : option cstr) (target channel : cstr) (l : list J) (best : option J) : Prop :=
  match best with
  | None => Forall (fun b => suits app target channel b = false) l
  | Some x => x ∈ l /\ suits app target channel x = true /\
      Forall (fun b => suits app target channel b = true -> espos_ota_version_cmp (version_of b) (version_of x) <= 0) l
  end.

Lemma newest_fold app target channel l : Forall (fun b => suits app target channel b = true -> parsable (version_of b)) l ->
  newest app target channel l (foldl (better app target channel) None l).
Proof.
  induction l as [|b l IH] using rev_ind; intros Hp; [constructor|]. apply Forall_app in Hp as [Hl Hb]. specialize (IH Hl). inversion Hb as [|? ? Hpb _]; subst. rewrite foldl_snoc.
  destruct (foldl (better app target channel) None l) as [x|]; unfold better, newest in *; destruct (suits app target channel b) eqn:Eb; cbn [negb].
  - destruct IH as (Hx & Hs & Hf). destruct (espos_ota_version_cmp (version_of b) (version_of x) >? 0) eqn:Ec; rewrite Z.gtb_ltb in Ec.
    + apply Z.ltb_lt in Ec. split_and!; [apply elem_of_app; right; by apply list_elem_of_singleton|done|]. apply Forall_app. split.
      * apply list.Forall_forall. intros y Hy Hsy. rewrite list.Forall_forall in Hl, Hf.
        eapply (version_trans (version_of y) (version_of x) (version_of b)); [by apply Hl|by apply Hl|by apply Hpb|by apply Hf|rewrite version_sym; lia].
      * repeat constructor. intros _. pose proof (version_sym (version_of b) (version_of b)). lia.
    + apply Z.ltb_ge in Ec. split_and!; [apply elem_of_app; by left|done|]. apply Forall_app. split; [done|]. repeat constructor. by intros _.
  - destruct IH as (Hx & Hs & Hf). split_and!; [apply elem_of_app; by left|done|]. apply Forall_app. split; [done|]. repeat constructor. congruence.
  - split_and!; [apply elem_of_app; right; by apply list_elem_of_singleton|done|]. apply Forall_app. split; [eapply Forall_impl; [|exact IH]; cbn; congruence|].
    repeat constructor. intros _. pose proof (version_sym (version_of b) (version_of b)). lia.
  - apply Forall_app. split; [done|]. by repeat constructor.
Qed.

(** Whatever the versions: the last entry that beat the best before it. *)
Lemma last_fold app target channel l x : foldl (better app target channel) None l = Some x ->
  exists l1 l2, l = l1 ++ x :: l2 /\ suits app target channel x = true /\ Forall (fun b => suits app target channel b = true -> espos_ota_version_cmp (version_of b) (version_of x) <= 0) l2.
Proof.
  revert x. induction l as [|b l IH] using rev_ind; intros x; [done|]. rewrite foldl_snoc. destruct (foldl (better app target channel) None l) as [y|]; unfold better; destruct (suits app target channel b) eqn:Eb; cbn [negb]; try done.
  - destruct (espos_ota_version_cmp (version_of b) (version_of y) >? 0) eqn:Ec; intros [= <-]; [by exists l, []|]. rewrite Z.gtb_ltb in Ec. apply Z.ltb_ge in Ec.
    destruct (IH y eq_refl) as (l1 & l2 & -> & Hs & Hf). exists l1, (l2 ++ [b]). split_and!; [by rewrite <- app_assoc|done|]. apply Forall_app. split; [done|]. by repeat constructor.
  - intros [= <-]. destruct (IH y eq_refl) as (l1 & l2 & -> & Hs & Hf). exists l1, (l2 ++ [b]). split_and!; [by rewrite <- app_assoc|done|]. apply Forall_app. split; [done|]. repeat constructor. congruence.
  - intros [= <-]. by exists l, [].
Qed.

Lemma none_fold app target channel l : foldl (better app target channel) None l = None <-> Forall (fun b => suits app target channel b = false) l.
Proof.
  induction l as [|b l IH] using rev_ind; [done|]. rewrite foldl_snoc, Forall_app, <- IH. destruct (foldl (better app target channel) None l) as [y|]; unfold better; destruct (suits app target channel b) eqn:Eb; cbn [negb].
  - destruct (_ >? 0); split; [done|by intros [? _]|done|by intros [? _]].
  - split; [done|by intros [? _]].
  - split; [done|]. intros [_ Hb]. inversion Hb. congruence.
  - split; [|done]. intros _. by repeat constructor.
Qed.

(** The numbers of a document are doubles. *)
Definition doubles : Prop := forall n v, json_number n = Some v -> valid_binary 53 1024 v = true.

Lemma mantissa_53 s m e : valid_binary 53 1024 (S754_finite s m e) = true -> Z.pos m < 2 ^ 53.
Proof.
  cbn. unfold bounded, canonical_mantissa. rewrite andb_true_iff. intros [H _]. apply Z.eqb_eq in H. unfold fexp, emin in H.
  assert (Hd : Z.pos m < 2 ^ Z.pos (digits2_pos m)).
  { clear H. revert m. fix IH 1. intros [m|m|]; cbn [digits2_pos]; rewrite ?Pos2Z.inj_succ, ?Z.pow_succ_r by lia; [specialize (IH m); lia|specialize (IH m); lia|done]. }
  eapply Z.lt_le_trans; [exact Hd|]. apply Z.pow_le_mono_r; lia.
Qed.

Lemma size_max_double : binary_normalize 53 1024 ESPOS_OTA_SIZE_MAX 0 false = S754_finite false 4503599627370496 (-24).
Proof. vm_compute. reflexivity. Qed.

Lemma compare_le m n : match Pos.compare_cont Eq m n with Gt => True | _ => Z.pos m <= Z.pos n end.
Proof. change (Pos.compare_cont Eq m n) with (m ?= n)%positive. destruct (Pos.compare_spec m n); lia. Qed.

Lemma shifted_size x k n : 0 <= k -> 0 <= x <= 2 ^ k * n -> 0 <= x / 2 ^ k <= n.
Proof. intros Hk Hx. pose proof (Z.pow_pos_nonneg 2 k ltac:(lia) Hk). split; [apply Z.div_pos; lia|]. apply Z.div_le_upper_bound; lia. Qed.

Lemma small_size m e n : Z.pos m < 2 ^ 53 -> e < -24 -> n = 2 ^ 28 -> 0 <= Z.pos m / 2 ^ (- e) <= n.
Proof.
  intros Hm He ->. apply shifted_size; [lia|]. split; [lia|]. rewrite <- Z.pow_add_r by lia. apply Z.lt_le_incl. eapply Z.lt_le_trans; [exact Hm|]. apply Z.pow_le_mono_r; lia.
Qed.

Lemma size_of_range v : valid_binary 53 1024 v = true -> 0 <= size_of v <= ESPOS_OTA_SIZE_MAX.
Proof.
  intros Hv. destruct v as [s|s| |[] m e]; try (cbn; unfold ESPOS_OTA_SIZE_MAX; lia). pose proof (mantissa_53 _ _ _ Hv) as Hm. clear Hv. unfold size_of. rewrite size_max_double. cbn [SFcompare].
  assert (Hz : 0 <= 0 <= ESPOS_OTA_SIZE_MAX) by (unfold ESPOS_OTA_SIZE_MAX; lia). destruct (Z.compare_spec e (-24)) as [->|He|He]; [| |exact Hz].
  - pose proof (compare_le m 4503599627370496) as Hc. destruct (Pos.compare_cont Eq m 4503599627370496); [| |exact Hz]; (apply (shifted_size (Z.pos m) 24); [lia|split; [lia|exact Hc]]).
  - destruct (Z.leb_spec 0 e); [lia|]. by apply small_size.
Qed.

(** C13. The picked build is an entry of the manifest for this application, target
    and channel that no suiting entry behind it beats; when the versions of the
    suiting entries start with numbers, no suiting entry at all has a higher version.
    The flag says whether it is newer than the running one, and the size is 0 or at
    most 256 MB. A well-formed manifest gives nothing exactly if it is for another
    application or no entry suits. *)
Theorem ota_pick_newest json root builds manifest_url app target channel running : doubles ->
  cJSON_ParseWithLength json = Some root -> cJSON_GetObjectItem root (lit "builds") ≫= json_array = Some builds ->
  let '(err, out) := espos_ota_manifest_pick json manifest_url app target channel running in
  (err = ESP_OK -> exists before best behind_, builds = before ++ best :: behind_ /\ suits app target channel best = true /\
     Forall (fun b => suits app target channel b = true -> espos_ota_version_cmp (version_of b) (version_of best) <= 0) behind_ /\
     (Forall (fun b => suits app target channel b = true -> parsable (version_of b)) builds ->
      Forall (fun b => suits app target channel b = true -> espos_ota_version_cmp (version_of b) (version_of best) <= 0) builds) /\
     b_version out = take 31 (version_of best) /\ 0 <= b_size out <= ESPOS_OTA_SIZE_MAX /\
     (b_newer out = true <-> (forall v, running = Some v -> v <> [] -> 0 < espos_ota_version_cmp (b_version out) v)) /\
     espos_ota_resolve_url manifest_url (Some (str_of best (lit "url"))) [] ESPOS_OTA_URL_MAX = (true, b_url out)) /\
  (err <> ESP_ERR_INVALID_ARG -> err = ESP_ERR_NOT_FOUND <-> other (str_or root (lit "app") None) app = true \/ Forall (fun b => suits app target channel b = false) builds).
Proof.
  intros Hd Ep Eb. pose proof (newest_fold app target channel builds) as Hn. unfold espos_ota_manifest_pick. rewrite Ep, Eb. destruct (negb (cJSON_IsObject root)); [done|].
  destruct (match cJSON_GetObjectItem root (lit "schema") with Some _ => _ | None => _ end); [done|]. destruct (other _ _) eqn:Eo; [split; [done|]; intros _; split; [by left|done]|].
  pose proof (none_fold app target channel builds) as Hz. pose proof (last_fold app target channel builds) as Hl. destruct (foldl _ None builds) as [best|] eqn:Ef; cbn [newest] in Hn; [|split; [done|]; intros _; split; [intros _; right; by apply Hz|done]].
  destruct (espos_ota_resolve_url _ _ _ _) as [ok url] eqn:Er. cbv zeta. destruct ok; cbn [negb]; [|done]. split; [|intros _; split; [done|intros [?|Hf]; [done|by apply Hz in Hf]]]. intros _. destruct (Hl best eq_refl) as (l1 & l2 & E1 & E2 & E3). exists l1, best, l2. cbn [b_version b_size b_newer b_url].
  assert (Hsize : 0 <= match cJSON_GetObjectItem best (lit "size") ≫= json_number with Some v => size_of v | None => 0 end <= ESPOS_OTA_SIZE_MAX).
  { destruct (cJSON_GetObjectItem best (lit "size") ≫= json_number) as [v|] eqn:Es; [|unfold ESPOS_OTA_SIZE_MAX; lia]. apply bind_Some in Es as (n & _ & En). by apply size_of_range, (Hd n). }
  split_and!; try done; try apply Hsize.
  - intros Hp. by destruct (Hn Hp) as (_ & _ & H3).
  - destruct running as [[|c r]|]; [by split; [intros _ v [= <-]|]| |by split]. rewrite Z.gtb_ltb, Z.ltb_lt. split; [by intros H v [= <-] _|]. intros H. by apply H.
Qed.
End Pick.

(** * Addresses *)

(** [a] starts with [b]. *)
Lemma is_prefix_app p s : is_prefix p (p ++ s) = true.
Proof. induction p as [|x p IH]; cbn; [by destruct s|]. by rewrite Z.eqb_refl. Qed.

(** The scheme and the host of an address. *)
Definition origin (url : cstr) : option cstr :=
  match find_at (lit "://") url with
  | None => None
  | Some i => Some (take (default (length url) ((fun k => i + 3 + k)%nat <$> strchr_at 47 (drop (i + 3) url))) url)
  end.

Lemma is_prefix_take p s : is_prefix p s = true <-> take (length p) s = p.
Proof.
  revert s. induction p as [|x p IH]; intros [|y s]; cbn; try done. rewrite andb_true_iff, IH, Z.eqb_eq. split; [intros [-> E]; by rewrite E|intros E; injection E as -> E; done].
Qed.

Lemma find_at_spec p s i : (0 < length p)%nat -> find_at p s = Some i <-> is_prefix p (drop i s) = true /\ forall j, (j < i)%nat -> is_prefix p (drop j s) = false.
Proof.
  intros Hp. revert i. induction s as [|x s IH]; intros i; cbn [find_at].
  - destruct (is_prefix p []) eqn:E; [destruct p; cbn in *; [lia|done]|]. split; [done|]. rewrite drop_nil. intros [? _]. congruence.
  - destruct (is_prefix p (x :: s)) eqn:E.
    + split; [intros [= <-]; split; [done|lia]|]. intros [_ Hj]. destruct i as [|i]; [done|]. specialize (Hj 0%nat ltac:(lia)). rewrite drop_0 in Hj. congruence.
    + destruct i as [|i]; [split; [by destruct (find_at p s)|rewrite drop_0; intros [? _]; congruence]|]. cbn [drop]. rewrite fmap_Some. split.
      * intros (k & Hk & [= <-]). apply IH in Hk as [H1 H2]. split; [done|]. intros [|j] Hj; [done|]. apply H2. lia.
      * intros [H1 H2]. exists i. split; [|done]. apply IH. split; [done|]. intros j Hj. apply (H2 (S j)). lia.
Qed.

(** A search only looks at what it finds. *)
Lemma find_at_take p s s' n i : (0 < length p)%nat -> take n s = take n s' -> (i + length p <= n)%nat -> find_at p s = Some i -> find_at p s' = Some i.
Proof.
  intros Hp Ht Hi. assert (Hx : forall j, (j <= i)%nat -> is_prefix p (drop j s) = is_prefix p (drop j s')).
  { intros j Hj. apply eq_iff_eq_true. rewrite !is_prefix_take. assert (E : take (length p) (drop j s) = take (length p) (drop j s')); [|by rewrite E].
    rewrite !take_drop_commute. f_equal. replace (j + length p)%nat with ((j + length p) `min` n)%nat by lia. by rewrite <- !take_take, Ht. }
  rewrite !find_at_spec by done. intros [H1 H2]. split; [by rewrite <- Hx|]. intros j Hj. rewrite <- Hx by lia. auto.
Qed.

Lemma strchr_spec c s k : strchr_at c s = Some k <-> s !! k = Some c /\ c ∉ take k s.
Proof.
  unfold strchr_at. rewrite find_at_spec by (cbn; lia).
  assert (Hx : forall j, is_prefix [c] (drop j s) = true <-> s !! j = Some c).
  { intros j. rewrite is_prefix_take. cbn [length]. rewrite <- (Nat.add_0_r j), <- lookup_drop, Nat.add_0_r. destruct (drop j s) as [|y l]; cbn; [done|]. rewrite take_0. split; congruence. }
  rewrite Hx. split; intros [H1 H2]; (split; [done|]).
  - intros (j & Hj)%list_elem_of_lookup. apply lookup_take_Some in Hj as [Hj Hlt]. specialize (H2 j Hlt). apply Hx in Hj. congruence.
  - intros j Hj. apply not_true_iff_false. rewrite Hx. intros E. apply H2, list_elem_of_lookup. exists j. by rewrite lookup_take_lt.
Qed.

Lemma strchr_none c s : strchr_at c s = None -> c ∉ s.
Proof.
  intros E (k & Hk)%list_elem_of_lookup. revert k Hk E. unfold strchr_at. induction s as [|x s IH]; intros [|k] Hk; cbn in *; try done.
  - injection Hk as ->. by rewrite Z.eqb_refl, orb_true_r || rewrite Z.eqb_refl.
  - destruct (_ && _); [done|]. destruct (find_at [c] s) eqn:E; [done|]. intros _. by eapply IH.
Qed.

Lemma strrchr_is c s l : strrchr_at c s = Some l -> s !! l = Some c.
Proof.
  revert l. induction s as [|y s IH]; intros l E; [done|]. cbn in E. destruct (strrchr_at c s) as [k|] eqn:Ek; [injection E as <-; by apply IH|]. destruct (Z.eqb_spec y c); [|done]. by injection E as <-; subst.
Qed.

Lemma strrchr_last c s j : s !! j = Some c -> exists last, strrchr_at c s = Some last /\ (j <= last)%nat /\ s !! last = Some c.
Proof.
  revert j. induction s as [|x s IH]; intros [|j] Hj; cbn in *; try done.
  - injection Hj as ->. destruct (strrchr_at c s) as [l|] eqn:E; [|rewrite Z.eqb_refl; eauto with lia]. exists (S l). split_and!; [done|lia|]. cbn.
    by apply strrchr_is.
  - destruct (IH j Hj) as (l & E & Hl & Hc). rewrite E. exists (S l). split_and!; [done|lia|done].
Qed.

(** Where the host of an address ends. *)
Definition host_end (i : nat) (url : cstr) : nat := default (length url) ((fun k => i + 3 + k)%nat <$> strchr_at 47 (drop (i + 3) url)).

Lemma host_end_slash i url : (i + 3 <= length url)%nat -> (i + 3 <= host_end i url <= length url)%nat /\ (url !! host_end i url = Some 47 \/ (host_end i url = length url /\ 47 ∉ drop (i + 3) url)).
Proof.
  intros Hl. unfold host_end. destruct (strchr_at 47 (drop (i + 3) url)) as [k|] eqn:E; cbn.
  - apply strchr_spec in E as [Hk _]. rewrite lookup_drop in Hk. pose proof (lookup_lt_Some _ _ _ Hk). split; [lia|by left].
  - split; [lia|right]. split; [done|]. by apply strchr_none.
Qed.

(** An address that keeps another's text up to its host and goes on with a slash has its origin. *)
Lemma origin_kept i url t : find_at (lit "://") url = Some i -> (i + 3 <= length url)%nat -> origin (take (host_end i url) url ++ 47 :: t) = Some (take (host_end i url) url).
Proof.
  intros Ei Hl. destruct (host_end_slash i url Hl) as [Hh Hs]. set (h := host_end i url) in *. set (u := take h url ++ 47 :: t).
  assert (Hlen : length (take h url) = h) by (rewrite length_take; lia).
  assert (Hu : take h u = take h url) by (subst u; rewrite take_app_le, take_take, Nat.min_id by lia; done).
  assert (Eu : find_at (lit "://") u = Some i) by (eapply (find_at_take _ url _ h); [cbn; lia|done|cbn; lia|done]).
  unfold origin. rewrite Eu. f_equal. assert (Ek : strchr_at 47 (drop (i + 3) u) = Some (h - (i + 3))%nat).
  { apply strchr_spec. split.
    - rewrite lookup_drop. replace (i + 3 + (h - (i + 3)))%nat with h by lia. subst u. rewrite lookup_app_r by lia. rewrite Hlen, Nat.sub_diag. done.
    - rewrite take_drop_commute. replace (i + 3 + (h - (i + 3)))%nat with h by lia. rewrite Hu. intros Hin. unfold h, host_end in *. destruct (strchr_at 47 (drop (i + 3) url)) as [k|] eqn:E; cbn in *.
      + apply strchr_spec in E as [_ Hn]. apply Hn. by rewrite take_drop_commute.
      + apply strchr_none in E. apply E. by rewrite firstn_all in Hin. }
  rewrite Ek. cbn. replace (i + 3 + (h - (i + 3)))%nat with h by lia. done.
Qed.

(** An address of the manifest stays on the manifest's own scheme and host, unless it names a scheme itself; it is never cut to fit. *)
Theorem ota_url_stays base rel out size u : espos_ota_resolve_url (Some base) (Some rel) out size = (true, u) ->
  (length u < size)%nat /\ ((find_at (lit "://") rel <> None /\ u = rel) \/ (find_at (lit "://") rel = None /\ origin base <> None /\ origin u = origin base)).
Proof.
  unfold espos_ota_resolve_url. destruct rel as [|r0 rel']; [done|]. set (rel := r0 :: rel') in *.
  assert (Hp : forall x, print_into size x = (true, u) -> (length u < size)%nat /\ u = x).
  { intros x [= Hl <-]. apply Nat.ltb_lt in Hl. unfold snprintf_s. rewrite take_ge by lia. done. }
  destruct (find_at (lit "://") rel) as [k|] eqn:Er; [intros [Hl ->]%Hp; split; [done|left; done]|]. destruct (find_at (lit "://") base) as [i|] eqn:Ei; [|done].
  assert (Hl3 : (i + 3 <= length base)%nat).
  { apply find_at_spec in Ei as [Ei _]; [|cbn; lia]. apply is_prefix_take in Ei. apply (f_equal length) in Ei. rewrite length_take, length_drop in Ei. change (length (lit "://")) with 3%nat in Ei. lia. }
  destruct (host_end_slash i base Hl3) as [Hh Hs]. cbv zeta. change (default (length base) _) with (host_end i base). set (h := host_end i base) in *.
  assert (Hfin : forall t, u = take h base ++ 47 :: t -> origin base <> None /\ origin u = origin base).
  { intros t ->. unfold h. rewrite origin_kept by done. unfold origin. rewrite Ei. split; done. }
  destruct (Z.eqb_spec (byte0 rel) 47) as [E0|E0]; [intros [Hl Hu]%Hp; split; [done|right; split; [done|]]; apply (Hfin rel'); rewrite Hu; unfold rel in *; cbn in E0; by subst r0|].
  destruct (strrchr_at 47 base) as [last|] eqn:Els; [destruct (Nat.ltb_spec last (i + 3)) as [Hlt|Hge]|].
  - destruct Hs as [Hs|[Hs _]]; [destruct (strrchr_last 47 base h Hs) as (l & El & ? & _); rewrite Els in El; injection El as <-; lia|].
    intros [Hl Hu]%Hp. split; [done|right; split; [done|]]. apply (Hfin rel). by rewrite Hu, Hs, firstn_all.
  - apply strrchr_is in Els as Hlast. pose proof (lookup_lt_Some _ _ _ Hlast) as Hll. destruct Hs as [Hs|[_ Hs]].
    + destruct (strrchr_last 47 base h Hs) as (l & El & Hhl & _). rewrite Els in El. injection El as <-. intros [Hl Hu]%Hp. split; [done|right; split; [done|]].
      destruct (decide (h = last)) as [->|Hne]; [by apply (Hfin rel)|]. apply (Hfin (take (last - S h) (drop (S h) base) ++ 47 :: rel)). rewrite Hu.
      replace (take last base) with (take h base ++ 47 :: take (last - S h) (drop (S h) base)); [by rewrite <- app_assoc|].
      replace last with (h + (last - h))%nat at 2 by lia. rewrite <- take_take_drop. f_equal.
      rewrite (drop_S base 47 h Hs). replace (last - h)%nat with (S (last - S h)) by lia. done.
    + exfalso. apply Hs, list_elem_of_lookup. exists (last - (i + 3))%nat. rewrite lookup_drop. by replace (i + 3 + (last - (i + 3)))%nat with last by lia.
  - destruct Hs as [Hs|[Hs _]]; [destruct (strrchr_last 47 base h Hs) as (l & El & _); congruence|].
    intros [Hl Hu]%Hp. split; [done|right; split; [done|]]. apply (Hfin rel). by rewrite Hu, Hs, firstn_all.
Qed.
