(* ===== verification/OtaEngine.v ===== *)
(** The update engine: [espos_ota.c].

    One task takes commands from a queue and ticks once a second; other tasks send
    commands, change the configuration and announce servers while it waits. The
    mutex guards single assignments and copies: every section under it is one step
    here. A caller may be preempted between two of these steps; it is then one of
    the callers under way, and goes on later. A reboot is an event after which the device runs no more; the code after
    it is what the simulator goes on with. *)
From Stdlib Require Import ZArith Lia String.
From stdpp Require Import base list numbers option.
From S2P Require Import Prelude ConfigDesc OtaManifest.
Open Scope Z_scope.

Definition ESP_ERR_NOT_FINISHED : esp_err_t := ESP_ERR_OTHER 0x10C.

Inductive espos_ota_state_t :=
  | ESPOS_OTA_IDLE | ESPOS_OTA_CHECKING | ESPOS_OTA_AVAILABLE | ESPOS_OTA_DOWNLOADING | ESPOS_OTA_VERIFYING | ESPOS_OTA_READY | ESPOS_OTA_FAILED.
#[export] Instance ota_state_eq_dec : EqDecision espos_ota_state_t.
Proof. solve_decision. Defined.

Definition espos_ota_state_name (st : espos_ota_state_t) : cstr :=
  match st with
  | ESPOS_OTA_IDLE => lit "idle"
  | ESPOS_OTA_CHECKING => lit "checking"
  | ESPOS_OTA_AVAILABLE => lit "available"
  | ESPOS_OTA_DOWNLOADING => lit "downloading"
  | ESPOS_OTA_VERIFYING => lit "verifying"
  | ESPOS_OTA_READY => lit "ready"
  | ESPOS_OTA_FAILED => lit "failed"
  end.

Inductive cmd := CMD_CHECK | CMD_INSTALL_URL | CMD_INSTALL_AVAIL | CMD_CONFIRM | CMD_ROLLBACK | CMD_STOP.
#[export] Instance cmd_eq_dec : EqDecision cmd.
Proof. solve_decision. Defined.
Record cmd_t := Cmd { c_cmd : cmd; c_url : cstr }.
#[export] Instance cmd_t_eq_dec : EqDecision cmd_t.
Proof. solve_decision. Defined.

(** A caller that was preempted: past the test for an available build, past the
    test of the state with its command, or about to send the stop. *)
Inductive caller := PastHave | PastCheck (c : cmd_t) | AtStop.

Record espos_ota_port_info_t := OtaInfo {
  i_version : cstr; i_project : cstr; i_idf : cstr; i_date : cstr; i_time : cstr; i_slot : cstr; i_other_slot : cstr; i_state : cstr;
  i_pending_verify : bool; i_rolled_back : bool; i_other_version : cstr }.

(** [o_lock]: the mutex exists; [queue]: [None] until it exists; [under_way]: the
    callers that were preempted, on their own stacks. *)
Record ota := Ota {
  o_lock : bool;
  queue : option (list cmd_t);
  task : bool;
  state : espos_ota_state_t;
  last_error : cstr;
  avail : espos_ota_build_t;
  have_avail : bool;
  received : Z;
  total_size : Z;
  last_check_at : Z;
  next_check_at : Z;
  confirmed_this_boot : bool;
  rolling_back : bool;
  key_fp : cstr;
  key_fp_done : bool;
  manifest_url : cstr;
  manifest_eff : cstr;
  manifest_src : cstr;
  manifest_path : cstr;
  channel : cstr;
  auto_check : bool;
  auto_install : bool;
  allow_insecure : bool;
  check_h : Z;
  confirm_tmo_s : Z;
  cfg_dirty : bool;
  server_selected : bool;
  checked_signalk : bool;
  checked_base : cstr;
  under_way : list caller }.
#[export] Instance ota_eta : Eta ota := fun s => Ota (o_lock s) (queue s) (task s) (state s) (last_error s) (avail s) (have_avail s) (received s) (total_size s) (last_check_at s) (next_check_at s)
  (confirmed_this_boot s) (rolling_back s) (key_fp s) (key_fp_done s) (manifest_url s) (manifest_eff s) (manifest_src s) (manifest_path s) (channel s) (auto_check s) (auto_install s)
  (allow_insecure s) (check_h s) (confirm_tmo_s s) (cfg_dirty s) (server_selected s) (checked_signalk s) (checked_base s) (under_way s).
Definition ota_zero : ota := Ota false None false ESPOS_OTA_IDLE [] build_zero false 0 0 0 0 false false [] false [] [] [] [] [] false false false 0 0 false false false [] [].

(** Build configuration. *)
Class OtaConf := {
  IDF_TARGET : cstr;
  MANIFEST_MAX : nat;
  BOOT_CHECK_DELAY_S : Z;
  NO_STA_GRACE_S : Z;
  HAVE_WIFI : bool }.

(** * The status document *)

Definition STATUS_JSON_MAX : nat := 2560.

Definition quoted (s : cstr) : cstr := [34] ++ s ++ [34].
Definition js_bool (b : bool) : cstr := if b then lit "true" else lit "false".

(** The loop of [json_str]: [o] bytes are written. *)
Fixpoint json_str_from (n : nat) (o : nat) (src : cstr) : cstr :=
  match src with
  | [] => []
  | c :: src' =>
      if negb (o + 2 <? n)%nat then [] else
      if (c =? 34) || (c =? 92) then (if (n <=? o + 3)%nat then [] else 92 :: c :: json_str_from n (o + 2) src')
      else (if c <? 32 then 32 else c) :: json_str_from n (o + 1) src'
  end.
Definition json_str (n : nat) (src : cstr) : cstr := json_str_from n 0 src.

Definition clamp_len (n : nat) : nat := if (STATUS_JSON_MAX <=? n)%nat then (STATUS_JSON_MAX - 1)%nat else n.

(** [snprintf(out + n, STATUS_JSON_MAX - n, ...)] *)
Definition append_at (out : cstr) (n : nat) (text : cstr) : cstr * nat := (take n out ++ snprintf_s (STATUS_JSON_MAX - n) text, clamp_len (n + length text)).

Definition manifest_text (s : ota) : cstr := json_str 340 (match manifest_eff s with [] => manifest_url s | e => e end).
Definition key_fp_text (s : ota) : cstr := match key_fp s with [] => lit "null" | k => snprintf_s 20 (quoted k) end.
Definition last_text (s : ota) (now : Z) : cstr := if last_check_at s =? 0 then lit "null" else snprintf_s 16 (fmt_d (u32 (now - last_check_at s))).
Definition next_text (s : ota) (now : Z) : cstr :=
  if negb (next_check_at s =? 0) && auto_check s then snprintf_s 16 (fmt_d (i32 (u32 (next_check_at s - now)))) else lit "null".

Definition status_text1 `{!OtaConf} (s : ota) (info : espos_ota_port_info_t) (now : Z) : cstr :=
  js "{'state':'" ++ espos_ota_state_name (state s) ++ js "','last_error':'" ++ json_str 200 (last_error s) ++ js "'," ++
  js "'running':{'version':'" ++ i_version info ++ js "','project':'" ++ i_project info ++ js "','target':'" ++ IDF_TARGET ++ js "','slot':'" ++ i_slot info ++
  js "','image_state':'" ++ i_state info ++ js "','pending_verify':" ++ js_bool (i_pending_verify info && negb (confirmed_this_boot s)) ++
  js ",'confirmed':" ++ js_bool (confirmed_this_boot s || negb (i_pending_verify info)) ++ js ",'other_slot':'" ++ i_other_slot info ++
  js "','other_version':'" ++ i_other_version info ++ js "','rolled_back':" ++ js_bool (i_rolled_back info) ++
  js ",'built':'" ++ i_date info ++ js " " ++ i_time info ++ js "','idf':'" ++ i_idf info ++ js "','key_fp':" ++ key_fp_text s ++ js "}," ++
  js "'manifest':{'url':'" ++ manifest_text s ++ js "','channel':'" ++ channel s ++ js "','auto_check':" ++ js_bool (auto_check s) ++ js ",'auto_install':" ++ js_bool (auto_install s) ++
  js ",'last_check_s':" ++ last_text s now ++ js ",'next_check_s':" ++ next_text s now ++ js "}," ++
  js "'progress':{'received':" ++ fmt_d (u32 (received s)) ++ js ",'total':" ++ fmt_d (u32 (total_size s)) ++ js "}".

Definition status_text2 (s : ota) : cstr :=
  if have_avail s then
    js ",'available':{'version':'" ++ b_version (avail s) ++ js "','url':'" ++ json_str 520 (b_url (avail s)) ++ js "','size':" ++ fmt_d (u32 (b_size (avail s))) ++
    js ",'sha256':'" ++ b_sha256 (avail s) ++ js "','notes':'" ++ json_str 280 (b_notes (avail s)) ++ js "','newer':" ++ js_bool (b_newer (avail s)) ++ js "}"
  else js ",'available':null".

(** [espos_ota_status_json], given the memory. *)
Definition status_json `{!OtaConf} (s : ota) (info : espos_ota_port_info_t) (now : Z) : cstr :=
  let t1 := status_text1 s info now in
  let '(out, n) := (snprintf_s STATUS_JSON_MAX t1, clamp_len (length t1)) in
  let '(out, n) := append_at out n (status_text2 s) in
  (append_at out n (js "}")).1.

(** * The port, and the other tasks *)

(** What other tasks do while this one waits. *)
(** Where a caller is preempted, if at all. *)
Inductive preempt := Runs | AfterHave | AfterCheck.
#[export] Instance preempt_eq_dec : EqDecision preempt.
Proof. solve_decision. Defined.

(** [AGoOn i]: the [i]th caller under way goes on. *)
Inductive arrival :=
  | ACheck (pre : preempt) | AInstallUrl (pre : preempt) (url : option cstr) | AInstallAvail (pre : preempt) | AConfirm (pre : preempt) | ARollback (pre : preempt)
  | AConfig (ns : cstr) | AServerSelected | AStop (pre : preempt) | AGoOn (pre : preempt) (i : nat).

(** The parts of the system around: network, WiFi (no station configured), radio
    co-processor, configuration, events, server address, and the platform. *)
Class OtaPort (W : Type) := {
  port_info : W -> espos_ota_port_info_t * W;
  port_uptime_s : W -> Z * W;
  port_key_fp : W -> (esp_err_t * cstr) * W;
  port_fetch : cstr -> bool -> W -> (esp_err_t * cstr * Z) * W;              (* result, body, HTTP status *)
  port_install : cstr -> bool -> cstr -> W -> (esp_err_t * cstr * list (Z * Z)) * W;  (* result, reason, progress *)
  port_mark_valid : W -> esp_err_t * W;
  port_net_up : W -> bool * W;
  port_no_station : W -> option bool * W;                                    (* [None]: no status *)
  port_coproc_busy : W -> bool * W;
  port_server_url : cstr -> W -> (esp_err_t * cstr) * W;
  port_cfg_str : cstr -> W -> option cstr * W;                               (* [None]: an error *)
  port_cfg_bool : cstr -> W -> option bool * W;
  port_cfg_i32 : cstr -> W -> option Z * W;
  port_event : W -> bool * W;                                                (* was the event taken? *)
  port_malloc : W -> bool * W;
  port_others : W -> list arrival * W;
  err_name : esp_err_t -> cstr }.

Inductive ota_event := OEvAvailable (version : cstr) | OEvStarted | OEvFinished.
Inductive ota_ev :=
  | EvState (st : espos_ota_state_t) | EvPublish (doc : cstr) | EvFetch (url : cstr) | EvQuiesce | EvResume | EvInstall (url : cstr) (insecure : bool) (ok : bool)
  | EvPost (e : ota_event) (ok : bool) | EvMarkValid (ok : bool) | EvRollback | EvReboot | EvCoproc (busy : bool)
  | EvAdmitted (c : cmd_t) | EvQueued (c : cmd_t) | EvNoRoom (c : cmd_t) | EvStopQueued | EvAutoQueued (c : cmd_t) | EvTaken (c : cmd_t).

Section Engine.
Context `{!OtaConf} {J : Type} `{!CJson J} {W : Type} `{!OtaPort W}.
#[local] Abbreviation M := (act ota W ota_ev).

(** * The interface: what other tasks call *)

Definition busy_state (st : espos_ota_state_t) : bool :=
  bool_decide (st = ESPOS_OTA_CHECKING) || bool_decide (st = ESPOS_OTA_DOWNLOADING) || bool_decide (st = ESPOS_OTA_VERIFYING) || bool_decide (st = ESPOS_OTA_READY).

(** [xQueueSend] without waiting, to a queue of four. *)
Definition queue_send (c : cmd_t) : M bool :=
  q ← gets queue;
  match q with
  | Some q => if (length q <? 4)%nat then mods (fun s => s <| queue := Some (q ++ [c]) |>);; mret true else mret false
  | None => mret false
  end.

(** The end of [send_cmd], with the command that passed the test. *)
Definition send_rest (c : cmd_t) : M esp_err_t :=
  ok ← queue_send c;
  if ok : bool then emit (EvQueued c);; mret ESP_OK else emit (EvNoRoom c);; mret ESP_ERR_INVALID_STATE.

Definition stay (w : caller) : M (option esp_err_t) := mods (fun s => s <| under_way := under_way s ++ [w] |>);; mret None.

(** The answer; [None] for a caller that was preempted. The lock is released
    between the test of the state and the send. *)
Definition send_cmd (pre : preempt) (c : cmd) (url : option cstr) : M (option esp_err_t) :=
  q ← gets queue;
  if bool_decide (q = None) then mret (Some ESP_ERR_INVALID_STATE) else
  cp ← (if bool_decide (c = CMD_INSTALL_URL) || bool_decide (c = CMD_INSTALL_AVAIL) || bool_decide (c = CMD_ROLLBACK) then query port_coproc_busy else mret false);
  if cp : bool then mret (Some ESP_ERR_NOT_FINISHED) else
  st ← gets state;
  if busy_state st && negb (bool_decide (c = CMD_CONFIRM)) then mret (Some ESP_ERR_INVALID_STATE) else
  let c := Cmd c (match url with Some u => snprintf_s ESPOS_OTA_URL_MAX u | None => [] end) in
  emit (EvAdmitted c);;
  if bool_decide (pre = AfterCheck) then stay (PastCheck c) else e ← send_rest c; mret (Some e).

Definition espos_ota_check_now (pre : preempt) : M (option esp_err_t) := send_cmd pre CMD_CHECK None.

Definition espos_ota_install_url (pre : preempt) (url : option cstr) : M (option esp_err_t) :=
  match url with
  | None => mret (Some ESP_ERR_INVALID_ARG)
  | Some u =>
      if (ESPOS_OTA_URL_MAX <=? length u)%nat || (negb (strneq 7 u (lit "http://")) && negb (strneq 8 u (lit "https://"))) then mret (Some ESP_ERR_INVALID_ARG)
      else send_cmd pre CMD_INSTALL_URL (Some u)
  end.

Definition espos_ota_install_available (pre : preempt) : M (option esp_err_t) :=
  have ← gets have_avail;
  if negb have then mret (Some ESP_ERR_NOT_FOUND) else
  if bool_decide (pre = AfterHave) then stay PastHave else send_cmd pre CMD_INSTALL_AVAIL None.

Definition espos_ota_confirm (pre : preempt) : M (option esp_err_t) := send_cmd pre CMD_CONFIRM None.
Definition espos_ota_rollback (pre : preempt) : M (option esp_err_t) := send_cmd pre CMD_ROLLBACK None.

(** The stop, by a caller that waits for room in the queue, and then for the task
    to be gone. *)
Definition send_stop : M unit :=
  ok ← queue_send (Cmd CMD_STOP []);
  if ok : bool then emit EvStopQueued else stay AtStop;; mret tt.

Definition espos_ota_stop (pre : preempt) : M unit :=
  t ← gets task;
  if t : bool then (if bool_decide (pre = Runs) then send_stop else stay AtStop;; mret tt) else mret tt.

(** A caller that was preempted goes on. *)
Definition go_on (pre : preempt) (i : nat) : M unit :=
  l ← gets under_way;
  match l !! i with
  | None => mret tt
  | Some w =>
      mods (fun s => s <| under_way := delete i l |>);;
      match w with
      | PastHave => send_cmd pre CMD_INSTALL_AVAIL None;; mret tt
      | PastCheck c => send_rest c;; mret tt
      | AtStop => send_stop
      end
  end.

Definition espos_ota_busy (s : ota) : bool :=
  if negb (o_lock s) then false else
  busy_state (state s) || rolling_back s || match queue s with Some q => (0 <? length q)%nat | None => false end.

Definition on_config (ns : cstr) : M unit :=
  if streq ns (lit "ota") then mods (fun s => s <| cfg_dirty := true |>) else mret tt.
Definition on_server_selected : M unit := mods (fun s => s <| server_selected := true |>).

Definition arrive (a : arrival) : M unit :=
  match a with
  | ACheck pre => espos_ota_check_now pre;; mret tt
  | AInstallUrl pre u => espos_ota_install_url pre u;; mret tt
  | AInstallAvail pre => espos_ota_install_available pre;; mret tt
  | AConfirm pre => espos_ota_confirm pre;; mret tt
  | ARollback pre => espos_ota_rollback pre;; mret tt
  | AConfig ns => on_config ns
  | AServerSelected => on_server_selected
  | AStop pre => espos_ota_stop pre
  | AGoOn pre i => go_on pre i
  end.
Fixpoint arrive_all (l : list arrival) : M unit := match l with [] => mret tt | a :: l' => arrive a;; arrive_all l' end.
Definition others : M unit := l ← query port_others; arrive_all l.

(** * The task *)

(** [espos_ota_status_json] into the event stream. *)
Definition publish : M unit :=
  info ← query port_info;
  ok ← query port_malloc;
  if negb ok then mret tt else
  now ← query port_uptime_s;
  s ← gets id;
  emit (EvPublish (status_json s info now)).

Definition set_state (st : espos_ota_state_t) (err : option cstr) : M unit :=
  mods (fun s => s <| state := st |>);;
  mods (fun s => match err with
                 | Some e => s <| last_error := snprintf_s 96 e |>
                 | None => if bool_decide (st = ESPOS_OTA_FAILED) then s else s <| last_error := [] |>
                 end);;
  emit (EvState st);;
  publish.

(** A string into a member of [size] bytes. *)
Definition cfg_str (key : cstr) (size : nat) (set : cstr -> ota -> ota) : M unit :=
  v ← query (port_cfg_str key); mods (fun s => match v with Some v => set (snprintf_s size v) s | None => s end).
Definition cfg_bool (key : cstr) (set : bool -> ota -> ota) : M unit :=
  v ← query (port_cfg_bool key); mods (fun s => match v with Some v => set v s | None => s end).
Definition cfg_i32 (key : cstr) (set : Z -> ota -> ota) : M unit :=
  v ← query (port_cfg_i32 key); mods (fun s => match v with Some v => set v s | None => s end).

Definition load_config : M unit :=
  cfg_str (lit "manifest_url") 168 (fun v s => s <| manifest_url := v |>);;
  cfg_str (lit "manifest_src") 12 (fun v s => s <| manifest_src := v |>);;
  cfg_str (lit "manifest_path") 128 (fun v s => s <| manifest_path := v |>);;
  cfg_str (lit "channel") 16 (fun v s => s <| channel := v |>);;
  cfg_bool (lit "auto_check") (fun v s => s <| auto_check := v |>);;
  cfg_bool (lit "auto_install") (fun v s => s <| auto_install := v |>);;
  cfg_bool (lit "allow_insecure") (fun v s => s <| allow_insecure := v |>);;
  cfg_i32 (lit "check_h") (fun v s => s <| check_h := v |>);;
  cfg_i32 (lit "confirm_tmo_s") (fun v s => s <| confirm_tmo_s := v |>);;
  mods (fun s => if bool_decide (channel s = []) then s <| channel := lit "stable" |> else s);;
  mods (fun s => s <| cfg_dirty := false |>).

Definition event_post (e : ota_event) : M bool := ok ← query port_event; emit (EvPost e ok);; mret ok.

(** Each progress report, with time for the others after it. *)
Definition progress_cb (r t : Z) : M unit :=
  s ← gets id;
  let notify := (r =? t) || negb (r / 32768 =? received s / 32768) in
  mods (fun s => s <| received := r |> <| total_size := t |>);;
  if notify then publish else mret tt.
Fixpoint progress_all (l : list (Z * Z)) : M unit := match l with [] => mret tt | (r, t) :: l' => progress_cb r t;; others;; progress_all l' end.

(** [coproc_busy] of this task. *)
Definition coproc_busy : M bool := b ← query port_coproc_busy; emit (EvCoproc b);; mret b.

Definition fail (e : cstr) : M unit := set_state ESPOS_OTA_FAILED (Some e).

(** The address to fetch from: [None] when the check has failed already. *)
Definition manifest_address : M (option cstr) :=
  s ← gets id;
  if negb (streq (manifest_src s) (lit "signalk")) then mret (Some (manifest_url s)) else
  '(uerr, url) ← query (port_server_url (manifest_path s));
  mods (fun s => s <| checked_signalk := true |>);;
  '(berr, base) ← query (port_server_url (lit "/"));
  mods (fun s => s <| checked_base := if is_ok berr then snprintf_s 168 base else [] |>);;
  match uerr with
  | ESP_ERR_NOT_SUPPORTED => fail (lit "manifest source is signalk, but this firmware has no SignalK client");; mret None
  | ESP_ERR_NOT_FOUND => fail (lit "no SignalK server selected yet");; mret None
  | ESP_OK => mret (Some (snprintf_s 168 url))
  | e => fail (snprintf_s 80 (lit "cannot build the manifest URL from the server address (" ++ err_name e ++ lit ")"));; mret None
  end.

Definition do_check : M unit :=
  now ← query port_uptime_s;
  mods (fun s => s <| last_check_at := now |> <| next_check_at := u32 (now + u32 (check_h s) * 3600) |>);;
  s ← gets id;
  let insecure := allow_insecure s in
  let chan := channel s in
  let auto := auto_install s in
  a ← manifest_address;
  match a with
  | None => mret tt
  | Some url =>
      if bool_decide (url = []) then fail (lit "no manifest URL configured") else
      mods (fun s => s <| manifest_eff := url |>);;
      set_state ESPOS_OTA_CHECKING None;;
      emit (EvFetch url);;
      '(err, body, status) ← query (port_fetch url insecure);
      others;;
      if negb (is_ok err) then
        fail (if negb (status =? 0) then lit "manifest: HTTP " ++ fmt_d status else lit "manifest: " ++ err_name err)
      else
      info ← query port_info;
      let '(err, b) := espos_ota_manifest_pick body (Some url) (Some (i_project info)) IDF_TARGET chan (Some (i_version info)) in
      if bool_decide (err = ESP_ERR_NOT_FOUND) then
        mods (fun s => s <| have_avail := false |>);;
        fail (lit "no build for " ++ IDF_TARGET ++ lit "/" ++ chan ++ lit " in the manifest")
      else if negb (is_ok err) then fail (lit "manifest: malformed")
      else
      mods (fun s => s <| avail := b |> <| have_avail := true |>);;
      if negb (b_newer b) then set_state ESPOS_OTA_IDLE None else
      set_state ESPOS_OTA_AVAILABLE None;;
      event_post (OEvAvailable (b_version b));;
      if auto then
        ok ← queue_send (Cmd CMD_INSTALL_AVAIL []);
        if ok : bool then emit (EvAutoQueued (Cmd CMD_INSTALL_AVAIL [])) else mret tt
      else mret tt
  end.

(** Up to [n] tries, the others run in between. *)
Fixpoint post_finished (n : nat) : M unit :=
  match n with
  | O => mret tt
  | S k => ok ← event_post OEvFinished; if ok : bool then mret tt else others;; post_finished k
  end.
Definition post_update_finished : M unit := post_finished 100.

Definition do_install (url : cstr) : M unit :=
  info ← query port_info;
  insecure ← gets allow_insecure;
  mods (fun s => s <| received := 0 |> <| total_size := 0 |>);;
  set_state ESPOS_OTA_DOWNLOADING None;;
  cp ← coproc_busy;
  if cp : bool then fail (lit "a radio co-processor update is running") else
  event_post OEvStarted;;
  emit EvQuiesce;;
  '(err, err_text, prog) ← query (port_install url insecure (i_project info));
  emit (EvInstall url insecure (is_ok err));;
  progress_all prog;;
  emit EvResume;;
  post_update_finished;;
  if negb (is_ok err) then fail err_text else
  set_state ESPOS_OTA_READY None;;
  others;;
  emit EvReboot;;
  set_state ESPOS_OTA_IDLE None.

Definition mark_valid : M bool := err ← query port_mark_valid; emit (EvMarkValid (is_ok err));; mret (is_ok err).

Definition tick_confirm : M unit :=
  info ← query port_info;
  conf ← gets confirmed_this_boot;
  if negb (i_pending_verify info) || conf then mret tt else
  up ← query port_uptime_s;
  connected ← query port_net_up;
  no_station ← (if HAVE_WIFI then w ← query port_no_station; mret (default false w) else mret false);
  if connected || (no_station && (NO_STA_GRACE_S <=? up)) then
    ok ← mark_valid;
    if ok : bool then mods (fun s => s <| confirmed_this_boot := true |>);; publish else mret tt
  else
  tmo ← gets confirm_tmo_s;
  if u32 tmo <=? up then
    fail (lit "rollback: network not reached in time");;
    emit EvRollback;;
    mods (fun s => s <| confirmed_this_boot := true |>)
  else mret tt.

Definition read_key_fp (announce : bool) : M unit :=
  '(err, fp) ← query port_key_fp;
  if negb (is_ok err) && negb (bool_decide (err = ESP_ERR_NOT_FOUND)) then mret tt else
  mods (fun s => s <| key_fp := snprintf_s 17 fp |>);;
  mods (fun s => s <| key_fp_done := true |>);;
  if announce then publish else mret tt.

(** A command; does the task go on? *)
Definition run_cmd (c : cmd_t) : M bool :=
  match c_cmd c with
  | CMD_CHECK => do_check;; mret true
  | CMD_INSTALL_URL => do_install (c_url c);; mret true
  | CMD_INSTALL_AVAIL =>
      s ← gets id;
      (if have_avail s then do_install (snprintf_s ESPOS_OTA_URL_MAX (b_url (avail s))) else fail (lit "nothing to install: check first"));;
      mret true
  | CMD_CONFIRM =>
      ok ← mark_valid;
      (if ok : bool then mods (fun s => s <| confirmed_this_boot := true |>) else mret tt);;
      publish;;
      mret true
  | CMD_ROLLBACK =>
      mods (fun s => s <| rolling_back := true |>);;
      cp ← coproc_busy;
      (if cp : bool then
         mods (fun s => s <| rolling_back := false |>);;
         fail (lit "a radio co-processor update is running")
       else
         fail (lit "rollback requested");;
         emit EvRollback;;
         mods (fun s => s <| rolling_back := false |>));;
      mret true
  | CMD_STOP => mods (fun s => s <| task := false |>);; mret false
  end.

(** A selection whose event was lost. *)
Definition probe_server : M unit :=
  s ← gets id;
  if negb (checked_signalk s) then mret tt else
  '(err, url) ← query (port_server_url (lit "/"));
  let probe := if is_ok err then snprintf_s 168 url else [] in
  if streq probe (checked_base s) then mret tt else
  mods (fun s => s <| checked_base := probe |>);;
  if bool_decide (probe = []) then mret tt else mods (fun s => s <| server_selected := true |>).

(** The periodic check: was it done? *)
Definition tick_check (boot_check_at : Z) (boot_check_done : bool) : M bool :=
  up ← query port_net_up;
  now ← query port_uptime_s;
  probe_server;;
  s ← gets id;
  let signalk_src := streq (manifest_src s) (lit "signalk") in
  mods (fun s => if server_selected s && signalk_src && negb (next_check_at s =? 0) then s <| next_check_at := now |> else s);;
  mods (fun s => s <| server_selected := false |>);;
  s ← gets id;
  let auto := auto_check s && (negb (bool_decide (manifest_url s = [])) || signalk_src) in
  let due := auto && up && ((negb boot_check_done && (boot_check_at <=? now)) || (boot_check_done && negb (next_check_at s =? 0) && (next_check_at s <=? now))) in
  let busy := bool_decide (state s = ESPOS_OTA_DOWNLOADING) || bool_decide (state s = ESPOS_OTA_VERIFYING) || bool_decide (state s = ESPOS_OTA_READY) in
  if due && negb busy then do_check;; mret true else mret boot_check_done.

(** One round of the task: goes on?, and has the check after boot been done? *)
Definition ota_round (boot_check_at : Z) (boot_check_done : bool) : M (bool * bool) :=
  others;;
  q ← gets queue;
  match q with
  | Some (c :: q) =>
      mods (fun s => s <| queue := Some q |>);;
      emit (EvTaken c);;
      s ← gets id;
      (if cfg_dirty s then load_config else mret tt);;
      go ← run_cmd c;
      mret (go, boot_check_done)
  | _ =>
      s ← gets id;
      (if cfg_dirty s then load_config else mret tt);;
      s ← gets id;
      (if negb (key_fp_done s) then read_key_fp true else mret tt);;
      tick_confirm;;
      d ← tick_check boot_check_at boot_check_done;
      mret (true, d)
  end.

Fixpoint ota_rounds (n : nat) (boot_check_at : Z) (boot_check_done : bool) : M unit :=
  match n with
  | O => mret tt
  | S k => '(go, d) ← ota_round boot_check_at boot_check_done; if go : bool then ota_rounds k boot_check_at d else mret tt
  end.

(** [n] rounds of the task at most. *)
Definition ota_task (n : nat) : M unit :=
  load_config;;
  read_key_fp false;;
  now ← query port_uptime_s;
  ota_rounds n (u32 (now + BOOT_CHECK_DELAY_S)) false.

(** Whether the HTTP server and the network run, and whether the mutex, the queue,
    the API and the task can be made. *)
Definition espos_ota_start (httpd net lock_made queue_made api task_made : bool) : M esp_err_t :=
  s ← gets id;
  if task s then mret ESP_OK else
  if negb httpd then mret ESP_ERR_INVALID_STATE else
  if negb net then mret ESP_ERR_INVALID_STATE else
  err ← (if negb (o_lock s) then
           mods (fun s => s <| o_lock := lock_made |> <| queue := if queue_made then Some [] else None |>);;
           mret (if negb lock_made || negb queue_made then ESP_ERR_NO_MEM else if negb api then ESP_FAIL else ESP_OK)
         else mret ESP_OK);
  if negb (is_ok err) then mret err else
  if negb task_made then mret ESP_ERR_NO_MEM else
  mods (fun s => s <| task := true |>);; mret ESP_OK.
End Engine.
