(* ===== verification/OtaProps.v ===== *)
(** Correctness of the update engine ([OtaEngine]): the protocol of an update over
    whole runs, the policy that confirms or rolls back a new image, and the bounds
    of the status document. *)
From Stdlib Require Import ZArith Lia String.
From stdpp Require Import base list numbers option.
From S2P Require Import Prelude ConfigDesc OtaManifest OtaEngine.
Open Scope Z_scope.

(** * The protocol of an update *)

(** Where an update is: nothing under way, cleared with the radio co-processor,
    others quiet, image written, others running again. *)
Inductive phase := Free | Cleared | Quiet | Written (ok : bool) | Resumed (ok : bool).
#[export] Instance phase_eq_dec : EqDecision phase.
Proof. solve_decision. Defined.

(** Where a run is: the phase, the state it reports, and the commands that passed
    the test of the state and are not yet in the queue. *)
Record point := Point { pt_phase : phase; pt_state : espos_ota_state_t; pt_admitted : list cmd_t }.

(** A list without one [c]; [None] when there is none. *)
Fixpoint take_out (c : cmd_t) (l : list cmd_t) : option (list cmd_t) :=
  match l with [] => None | x :: l' => if bool_decide (x = c) then Some l' else (x ::.) <$> take_out c l' end.

Lemma take_out_perm c l k : l ≡ₚ c :: k -> exists k', take_out c l = Some k' /\ k' ≡ₚ k.
Proof.
  assert (Hin : c ∈ l -> exists k', take_out c l = Some k' /\ l ≡ₚ c :: k').
  { induction l as [|x l IH]; intros Hc; [by apply elem_of_nil in Hc|]. cbn [take_out]. destruct (bool_decide_reflect (x = c)) as [->|E]; [by exists l|].
    apply elem_of_cons in Hc as [->|Hc]; [done|]. destruct (IH Hc) as (k' & -> & Hk). exists (x :: k'). split; [done|]. rewrite Hk. apply Permutation_swap. }
  intros Hp. destruct Hin as (k' & E & Hk); [rewrite Hp; left|]. exists k'. split; [done|]. apply (Permutation_cons_inv (a := c)). by rewrite <- Hk.
Qed.

(** The events that the protocol allows, and where they lead. *)
Definition allow (x : point) (e : ota_ev) : option point :=
  let '(Point p st adm) := x in
  match e with
  | EvState st' => Some (Point (match p with Resumed false => if bool_decide (st' = ESPOS_OTA_FAILED) then Free else p | _ => p end) st' adm)
  | EvPublish _ | EvPost _ _ | EvMarkValid _ | EvStopQueued => Some x
  | EvTaken _ => if bool_decide (p = Free) then Some x else None
  | EvFetch _ => if bool_decide (p = Free) && bool_decide (st = ESPOS_OTA_CHECKING) then Some x else None
  | EvCoproc busy => if bool_decide (p = Free) then Some (Point (if busy then Free else Cleared) st adm) else None
  | EvQuiesce => if bool_decide (p = Cleared) && bool_decide (st = ESPOS_OTA_DOWNLOADING) then Some (Point Quiet st adm) else None
  | EvInstall _ _ ok => if bool_decide (p = Quiet) && bool_decide (st = ESPOS_OTA_DOWNLOADING) then Some (Point (Written ok) st adm) else None
  | EvResume => match p with Written ok => Some (Point (Resumed ok) st adm) | _ => None end
  | EvReboot => if bool_decide (p = Resumed true) && bool_decide (st = ESPOS_OTA_READY) then Some (Point Free st adm) else None
  | EvRollback => if (bool_decide (p = Free) || bool_decide (p = Cleared)) && bool_decide (st = ESPOS_OTA_FAILED) then Some (Point Free st adm) else None
  | EvAdmitted c => if busy_state st && negb (bool_decide (c_cmd c = CMD_CONFIRM)) then None else Some (Point p st (c :: adm))
  | EvQueued c | EvNoRoom c => Point p st <$> take_out c adm
  | EvAutoQueued c => if bool_decide (c = Cmd CMD_INSTALL_AVAIL []) && bool_decide (p = Free) && bool_decide (st = ESPOS_OTA_AVAILABLE) then Some x else None
  end.

(** The protocol over a trace, newest event first. *)
Fixpoint follows (tr : list ota_ev) : option point :=
  match tr with
  | [] => Some (Point Free ESPOS_OTA_IDLE [])
  | e :: tr' => x ← follows tr'; allow x e
  end.

(** The commands of the callers under way. *)
Definition checked (w : caller) : option cmd_t := match w with PastCheck c => Some c | _ => None end.

Lemma checked_delete l i w : l !! i = Some w -> omap checked l ≡ₚ option_list (checked w) ++ omap checked (delete i l).
Proof.
  revert i. induction l as [|x l IH]; intros [|i] Hi; cbn in Hi; [done|done| |].
  - injection Hi as ->. cbn. by destruct (checked w).
  - specialize (IH i Hi). change (delete (S i) (x :: l)) with (x :: delete i l). cbn [omap list_omap]. destruct (checked x); [|exact IH]. change (list_omap _ _ checked) with (omap (M := list) checked). rewrite IH. by destruct (checked w); [apply Permutation_swap|].
Qed.

Section Props.
Context `{OC : !OtaConf} {J : Type} `{!CJson J} {W : Type} `{!OtaPort W}.
#[local] Abbreviation M := (act ota W ota_ev).
#[local] Abbreviation S_ := (mach ota W ota_ev).

(** The run is in phase [p], the state it reports is the engine's, and what passed
    the test is with the callers under way. *)
Definition at_ (p : phase) (st : espos_ota_state_t) (s : S_) : Prop :=
  state (m_sm s) = st /\ exists adm, follows (m_trace s) = Some (Point p st adm) /\ adm ≡ₚ omap checked (under_way (m_sm s)).

(** From one phase to another. *)
Definition leads {A} (p : phase) (st : espos_ota_state_t) (m : M A) (p' : phase) (st' : espos_ota_state_t) : Prop :=
  forall s, at_ p st s -> wp m (fun _ => at_ p' st') s.
(** To a phase, whatever the state. *)
Definition ends {A} (p : phase) (st : espos_ota_state_t) (m : M A) (p' : phase) : Prop :=
  forall s, at_ p st s -> wp m (fun _ s' => exists st', at_ p' st' s') s.

Lemma leads_ret {A} p st (a : A) : leads p st (mret a) p st.
Proof. by intros s Hs. Qed.
Lemma leads_bind {A B} p st p1 st1 p2 st2 (m : M A) (k : A -> M B) : leads p st m p1 st1 -> (forall a, leads p1 st1 (k a) p2 st2) -> leads p st (m ≫= k) p2 st2.
Proof. intros Hm Hk s Hs. apply wp_bind. eapply wp_mono; [by apply Hm|]. intros a s' Hs'. by apply Hk. Qed.
Lemma ends_bind {A B} p st p1 st1 p2 (m : M A) (k : A -> M B) : leads p st m p1 st1 -> (forall a, ends p1 st1 (k a) p2) -> ends p st (m ≫= k) p2.
Proof. intros Hm Hk s Hs. apply wp_bind. eapply wp_mono; [by apply Hm|]. intros a s' Hs'. by apply Hk. Qed.
Lemma ends_bind' {A B} p st p1 p2 (m : M A) (k : A -> M B) : ends p st m p1 -> (forall a st1, ends p1 st1 (k a) p2) -> ends p st (m ≫= k) p2.
Proof. intros Hm Hk s Hs. apply wp_bind. eapply wp_mono; [by apply Hm|]. intros a s' (st1 & Hs'). by apply (Hk a st1). Qed.
Lemma leads_ends {A} p st p' st' (m : M A) : leads p st m p' st' -> ends p st m p'.
Proof. intros Hm s Hs. eapply wp_mono; [by apply Hm|]. intros a s' Hs'. by exists st'. Qed.
Lemma ends_ret {A} p st (a : A) : ends p st (mret a) p.
Proof. intros s Hs. exists st. done. Qed.
Lemma leads_query {A} p st (f : W -> A * W) : leads p st (query f) p st.
Proof. intros s Hs. apply wp_query. done. Qed.
Lemma leads_gets {A} p st (f : ota -> A) : leads p st (gets f) p st.
Proof. intros s Hs. by apply wp_gets. Qed.
Definition aside (x : ota) : espos_ota_state_t * list caller := (state x, under_way x).
Lemma leads_mods p st (f : ota -> ota) : (forall x, aside (f x) = aside x) -> leads p st (mods f) p st.
Proof. intros Hf s [H1 H2]. apply wp_mods. specialize (Hf (m_sm s)). injection Hf as E1 E2. split; cbn; [by rewrite E1|by rewrite E2]. Qed.
Lemma leads_emit p st p' e : (forall adm, allow (Point p st adm) e = Some (Point p' st adm)) -> leads p st (emit e) p' st.
Proof. intros He s [H1 (adm & H2 & H3)]. apply wp_emit. split; [done|]. exists adm. split; [|done]. cbn [m_trace follows]. rewrite H2. apply He. Qed.

(** By structure, within one phase and state. *)
Ltac stay_step :=
  match goal with
  | |- leads _ _ (mbind _ _) _ _ => eapply leads_bind; [|intros ?]
  | |- leads _ _ (mret _) _ _ => apply leads_ret
  | |- leads _ _ (query _) _ _ => apply leads_query
  | |- leads _ _ (gets _) _ _ => apply leads_gets
  | |- leads _ _ (mods _) _ _ => apply leads_mods; let x := fresh "x" in intros x; try reflexivity
  | |- leads _ _ (if ?b then _ else _) _ _ => destruct b eqn:?
  | |- leads _ _ (let '(_, _) := ?x in _) _ _ => destruct x
  | |- leads _ _ (match ?o with Some _ => _ | None => _ end) _ _ => destruct o
  end.

Lemma publish_stays p st : leads p st publish p st.
Proof. unfold publish. repeat stay_step. by apply leads_emit. Qed.

Lemma queue_send_stays p st c : leads p st (queue_send c) p st.
Proof. unfold queue_send. repeat stay_step. Qed.

(** A command that passed the test goes to the queue, or finds no room. *)
Lemma send_rest_stays p st c s adm : state (m_sm s) = st -> follows (m_trace s) = Some (Point p st adm) -> adm ≡ₚ c :: omap checked (under_way (m_sm s)) -> wp (send_rest c) (fun _ => at_ p st) s.
Proof.
  intros H1 H2 H3. assert (Hrm : exists adm', take_out c adm = Some adm' /\ adm' ≡ₚ omap checked (under_way (m_sm s))).
  { by apply take_out_perm. }
  destruct Hrm as (adm' & Hr & Hp). unfold send_rest, queue_send. apply wp_bind, wp_bind, wp_gets. destruct (queue (m_sm s)) as [q|]; [destruct (length q <? 4)%nat; [apply wp_bind, wp_mods|]|]; apply wp_ret; apply wp_bind, wp_emit, wp_ret; (split; [done|]).
  - exists adm'. cbn. by rewrite H2; cbn; rewrite Hr.
  - exists adm'. cbn. by rewrite H2; cbn; rewrite Hr.
  - exists adm'. cbn. by rewrite H2; cbn; rewrite Hr.
Qed.

(** A caller is preempted. *)
Lemma stay_stays p st w s adm : state (m_sm s) = st -> follows (m_trace s) = Some (Point p st adm) -> adm ≡ₚ option_list (checked w) ++ omap checked (under_way (m_sm s)) -> wp (stay w) (fun _ => at_ p st) s.
Proof.
  intros H1 H2 H3. unfold stay. apply wp_bind, wp_mods, wp_ret. split; [done|]. exists adm. split; [done|]. cbn [m_sm]. rewrite H3. change (under_way (?x <| under_way := ?l |>)) with l.
  rewrite omap_app, Permutation_app_comm. f_equiv. by destruct w.
Qed.

Lemma send_cmd_stays p st pre c url : leads p st (send_cmd pre c url) p st.
Proof.
  unfold send_cmd. do 2 (stay_step; [stay_step|]). stay_step; [repeat stay_step|]. stay_step; [stay_step|]. intros s [H1 (adm & H2 & H3)]. apply wp_bind, wp_gets. rewrite H1.
  destruct (busy_state st && negb (bool_decide (c = CMD_CONFIRM))) eqn:Eb; [apply wp_ret; split; [done|by exists adm]|]. cbv zeta. set (k := Cmd c _). apply wp_bind, wp_emit.
  match goal with |- wp _ _ ?x => assert (E2 : follows (m_trace x) = Some (Point p st (k :: adm))) by (cbn; rewrite H2; cbn; by rewrite Eb); assert (E1 : state (m_sm x) = st) by done; assert (E3 : k :: adm ≡ₚ k :: omap checked (under_way (m_sm x))) by (by constructor); generalize dependent x end.
  intros x E2 E1 E3. destruct (bool_decide (pre = AfterCheck)); [by eapply stay_stays|]. apply wp_bind. eapply wp_mono; [by eapply send_rest_stays|]. intros e s' Hs. by apply wp_ret.
Qed.

Lemma stay_none p st w : checked w = None -> leads p st (stay w) p st.
Proof. intros Hw s [H1 (adm & H2 & H3)]. eapply stay_stays; [done|done|]. by rewrite Hw. Qed.

Lemma send_stop_stays p st : leads p st send_stop p st.
Proof. unfold send_stop. stay_step; [apply queue_send_stays|]. destruct a; [by apply leads_emit|]. stay_step; [by apply stay_none|stay_step]. Qed.

Lemma go_on_stays p st pre i : leads p st (go_on pre i) p st.
Proof.
  intros s Hs. unfold go_on. apply wp_bind, wp_gets. destruct (under_way (m_sm s) !! i) as [w|] eqn:Ei; [|by apply wp_ret]. apply wp_bind, wp_mods. destruct Hs as [H1 (adm & H2 & H3)].
  assert (Hd : adm ≡ₚ option_list (checked w) ++ omap checked (delete i (under_way (m_sm s)))).
  { rewrite H3. by apply checked_delete. }
  match goal with |- wp _ _ ?x => assert (E2 : follows (m_trace x) = Some (Point p st adm)) by done; assert (E1 : state (m_sm x) = st) by done; assert (E3 : adm ≡ₚ option_list (checked w) ++ omap checked (under_way (m_sm x))) by done; generalize dependent x end.
  intros x E2 E1 E3. assert (Hx : checked w = None -> at_ p st x) by (intros Hw; rewrite Hw in E3; split; [done|by exists adm]). destruct w as [|c|]; cbn [checked option_list app] in *.
  - apply wp_bind. eapply wp_mono; [by apply send_cmd_stays, Hx|]. intros. by apply wp_ret.
  - apply wp_bind. eapply wp_mono; [by eapply send_rest_stays|]. intros. by apply wp_ret.
  - by apply send_stop_stays, Hx.
Qed.

Lemma others_stay p st : leads p st others p st.
Proof.
  unfold others. stay_step; [stay_step|]. induction a as [|a l IH]; cbn [arrive_all]; [apply leads_ret|]. eapply leads_bind; [|intros _; exact IH].
  destruct a; cbn [arrive]; unfold espos_ota_check_now, espos_ota_install_url, espos_ota_install_available, espos_ota_confirm, espos_ota_rollback, espos_ota_stop, on_config, on_server_selected;
    repeat (stay_step || apply send_cmd_stays || apply send_stop_stays || apply go_on_stays || by apply stay_none).
Qed.

Lemma set_state_leads p st st' err : (forall ok, p <> Resumed ok) \/ (p = Resumed true) -> leads p st (set_state st' err) p st'.
Proof.
  intros Hp s [H1 (adm & H2 & H3)]. unfold set_state. apply wp_bind, wp_mods, wp_bind, wp_mods, wp_bind, wp_emit. apply publish_stays. split; cbn.
  - destruct err; [done|]. by destruct (bool_decide _).
  - exists adm. split; [|by destruct err; [|destruct (bool_decide _)]]. rewrite H2. cbn. destruct p as [| | | |[]]; try done. destruct Hp as [Hp|[= Hp]]. by specialize (Hp false).
Qed.

Lemma failed_leads st e : leads (Resumed false) st (fail e) Free ESPOS_OTA_FAILED.
Proof. intros s [H1 (adm & H2 & H3)]. unfold fail, set_state. apply wp_bind, wp_mods, wp_bind, wp_mods, wp_bind, wp_emit. apply publish_stays. split; cbn; [done|]. exists adm. by rewrite H2. Qed.

Lemma fail_leads p st e : (forall ok, p <> Resumed ok) -> leads p st (fail e) p ESPOS_OTA_FAILED.
Proof. intros Hp. apply set_state_leads. by left. Qed.

Lemma event_post_stays p st e : leads p st (event_post e) p st.
Proof. unfold event_post. repeat stay_step. by apply leads_emit. Qed.

(** The same for computations that end in some state. *)
Ltac ends_step :=
  match goal with
  | |- ends _ _ (mbind _ (query _)) _ => eapply ends_bind; [apply leads_query|intros ?]
  | |- ends _ _ (mbind _ (gets _)) _ => eapply ends_bind; [apply leads_gets|intros ?]
  | |- ends _ _ (mbind _ (mods _)) _ => eapply ends_bind; [apply leads_mods; let x := fresh "x" in intros x; try reflexivity|intros ?]
  | |- ends _ _ (mbind _ (event_post _)) _ => eapply ends_bind; [apply event_post_stays|intros ?]
  | |- ends _ _ (mbind _ others) _ => eapply ends_bind; [apply others_stay|intros ?]
  | |- ends _ _ (mret _) _ => apply ends_ret
  | |- ends _ _ (if ?b then _ else _) _ => destruct b eqn:?
  | |- ends _ _ (let '(_, _) := ?x in _) _ => destruct x
  | |- ends _ _ (match ?o with Some _ => _ | None => _ end) _ => destruct o
  end.

Lemma fail_ends st e : ends Free st (fail e) Free.
Proof. by eapply leads_ends, fail_leads. Qed.
Lemma state_ends st st' err : ends Free st (set_state st' err) Free.
Proof. eapply leads_ends, set_state_leads. by left. Qed.
Lemma mods_ends p st f : (forall x, aside (f x) = aside x) -> ends p st (mods f) p.
Proof. intros. by eapply leads_ends, leads_mods. Qed.

Lemma address_ends st : ends Free st manifest_address Free.
Proof.
  unfold manifest_address. repeat ends_step. match goal with |- ends _ _ (match ?e with _ => _ end) _ => destruct e end; try apply ends_ret; (eapply ends_bind'; [apply fail_ends|intros; apply ends_ret]).
Qed.

Lemma do_check_ends st : ends Free st do_check Free.
Proof.
  unfold do_check. do 3 ends_step. cbv zeta. eapply ends_bind'; [apply address_ends|]. clear st. intros [url|] st; [|apply ends_ret]. ends_step; [apply fail_ends|]. ends_step.
  eapply ends_bind; [apply set_state_leads; by left|]. intros _. eapply ends_bind; [by apply leads_emit|]. intros _. ends_step. match goal with |- ends _ _ (match ?x with _ => _ end) _ => destruct x as [[err body] status] end. ends_step.
  destruct (negb (is_ok err)); [apply fail_ends|]. ends_step. destruct (espos_ota_manifest_pick _ _ _ _ _ _) as [err' b]. ends_step; [ends_step; apply fail_ends|]. ends_step; [apply fail_ends|]. ends_step.
  ends_step; [apply state_ends|]. eapply ends_bind; [apply set_state_leads; by left|]. intros _. ends_step. ends_step; [|apply ends_ret].
  eapply ends_bind; [apply queue_send_stays|]. intros []; [|apply ends_ret]. by eapply leads_ends, leads_emit.
Qed.

Lemma progress_stays p st l : leads p st (progress_all l) p st.
Proof.
  induction l as [|[r t] l IH]; cbn [progress_all]; [apply leads_ret|]. eapply leads_bind; [|intros _; eapply leads_bind; [apply others_stay|intros _; exact IH]].
  unfold progress_cb. repeat (stay_step || apply publish_stays).
Qed.

Lemma finished_stays p st n : leads p st (post_finished n) p st.
Proof. induction n as [|n IH]; cbn [post_finished]; [apply leads_ret|]. eapply leads_bind; [apply event_post_stays|]. intros []; [apply leads_ret|]. eapply leads_bind; [apply others_stay|]. done. Qed.

Lemma coproc_leads {A} st (k : bool -> M A) q : ends Free st (k true) q -> ends Cleared st (k false) q -> ends Free st (coproc_busy ≫= k) q.
Proof.
  intros Ht Hf s [H1 (adm & H2 & H3)]. unfold coproc_busy. apply wp_bind, wp_bind. unfold wp, query. destruct (port_coproc_busy (m_world s)) as [[] w]; cbn [fst snd]; apply wp_bind, wp_emit, wp_ret; [apply Ht|apply Hf];
    (split; [done|]; exists adm; cbn; by rewrite H2).
Qed.

Lemma do_install_ends st url : ends Free st (do_install url) Free.
Proof.
  unfold do_install. do 3 ends_step. eapply ends_bind; [apply set_state_leads; by left|]. intros _. apply coproc_leads; [apply fail_ends|]. ends_step.
  eapply ends_bind; [by apply leads_emit|]. intros _. ends_step. match goal with |- ends _ _ (match ?x with _ => _ end) _ => destruct x as [[err err_text] prog] end. eapply ends_bind; [by apply leads_emit|]. intros _. eapply ends_bind; [apply progress_stays|]. intros _.
  eapply ends_bind; [by apply leads_emit|]. intros _. eapply ends_bind; [apply finished_stays|]. intros _. destruct (is_ok err); cbn [negb]; [|eapply leads_ends, failed_leads].
  eapply ends_bind; [apply set_state_leads; by right|]. intros _. ends_step. eapply ends_bind; [by apply leads_emit|]. intros _. apply state_ends.
Qed.

Lemma mark_valid_stays p st : leads p st mark_valid p st.
Proof. unfold mark_valid. repeat stay_step. by apply leads_emit. Qed.

Lemma tick_confirm_ends st : ends Free st tick_confirm Free.
Proof.
  unfold tick_confirm. do 2 ends_step. ends_step; [ends_step|]. do 2 ends_step. eapply ends_bind; [repeat stay_step|]. intros ns. ends_step.
  - eapply ends_bind; [apply mark_valid_stays|]. intros []; [|apply ends_ret]. ends_step. eapply leads_ends, publish_stays.
  - ends_step. ends_step; [|apply ends_ret]. eapply ends_bind; [by apply fail_leads|]. intros _. eapply ends_bind; [by apply leads_emit|]. intros _. by apply mods_ends.
Qed.

Lemma load_config_stays p st : leads p st load_config p st.
Proof.
  unfold load_config, cfg_str, cfg_bool, cfg_i32. repeat stay_step; try (by destruct a); try (by destruct a0); try (by destruct (bool_decide _)); match goal with |- aside (match ?o with _ => _ end) = _ => by destruct o end.
Qed.

Lemma read_key_stays p st b : leads p st (read_key_fp b) p st.
Proof. unfold read_key_fp. repeat (stay_step || apply publish_stays). Qed.

Lemma run_cmd_ends st c : ends Free st (run_cmd c) Free.
Proof.
  unfold run_cmd. destruct (c_cmd c).
  - eapply ends_bind'; [apply do_check_ends|]. intros. apply ends_ret.
  - eapply ends_bind'; [apply do_install_ends|]. intros. apply ends_ret.
  - ends_step. eapply ends_bind'; [destruct (have_avail a); [apply do_install_ends|apply fail_ends]|]. intros. apply ends_ret.
  - eapply ends_bind; [apply mark_valid_stays|]. intros ok. eapply ends_bind; [destruct ok; [by apply leads_mods|apply leads_ret]|]. intros _. eapply ends_bind; [apply publish_stays|]. intros. apply ends_ret.
  - ends_step. apply coproc_leads.
    + eapply ends_bind'; [ends_step; apply fail_ends|]. intros. apply ends_ret.
    + eapply ends_bind'; [|intros; apply ends_ret]. eapply ends_bind; [by apply fail_leads|]. intros _. eapply ends_bind; [by apply leads_emit|]. intros _. by apply mods_ends.
  - ends_step. apply ends_ret.
Qed.

Lemma probe_stays p st : leads p st probe_server p st.
Proof. unfold probe_server. repeat stay_step. Qed.

Lemma tick_check_ends st b d : ends Free st (tick_check b d) Free.
Proof.
  unfold tick_check. do 2 ends_step. eapply ends_bind; [apply probe_stays|]. intros _. ends_step. cbv zeta. eapply ends_bind; [apply leads_mods; intros x; by destruct (_ && _)|]. intros _. do 2 ends_step. ends_step; [|apply ends_ret].
  eapply ends_bind'; [apply do_check_ends|]. intros. apply ends_ret.
Qed.

Lemma round_ends st b d : ends Free st (ota_round b d) Free.
Proof.
  unfold ota_round. do 2 ends_step. set (tick := s ← gets id; _). assert (Ht : ends Free st tick Free).
  { subst tick. ends_step. eapply ends_bind; [destruct (cfg_dirty _); [apply load_config_stays|apply leads_ret]|]. intros _. ends_step. eapply ends_bind; [destruct (negb _); [apply read_key_stays|apply leads_ret]|]. intros _.
    eapply ends_bind'; [apply tick_confirm_ends|]. intros _ st1. eapply ends_bind'; [apply tick_check_ends|]. intros. apply ends_ret. }
  match goal with |- ends _ _ (match ?q with _ => _ end) _ => destruct q as [[|c q]|] end; [exact Ht| |exact Ht].
  ends_step. eapply ends_bind; [by apply leads_emit|]. intros _. ends_step. eapply ends_bind; [destruct (cfg_dirty _); [apply load_config_stays|apply leads_ret]|]. intros _.
  eapply ends_bind'; [apply run_cmd_ends|]. intros. apply ends_ret.
Qed.

Lemma rounds_end n st b d : ends Free st (ota_rounds n b d) Free.
Proof. revert st d. induction n as [|n IH]; intros st d; cbn [ota_rounds]; [apply ends_ret|]. eapply ends_bind'; [apply round_ends|]. intros [[] d'] st'; [apply IH|apply ends_ret]. Qed.

Lemma task_ends n st : ends Free st (ota_task n) Free.
Proof.
  unfold ota_task. eapply ends_bind; [apply load_config_stays|]. intros _. eapply ends_bind; [apply read_key_stays|]. intros _. ends_step. apply rounds_end.
Qed.

(** C11. The protocol of an update, over any number of rounds, whatever the world
    answers and whatever other tasks call, preempted between a test and what it is
    for or not: an image is written only after the radio co-processor was idle and
    the others were quieted, with DOWNLOADING reported; the others are always resumed;
    the device restarts only after an image was written without error, with READY
    reported. A caller's command enters the queue, whenever it does, only after it
    passed the test, once for each time it did, and it passed when the engine was not busy or the
    command is a confirmation; the engine itself queues only the install of a build it
    has just reported as available; a stop enters at any time. Every
    round ends with nothing under way, and what passed the test and was neither queued
    nor refused is with callers that were preempted. *)
Theorem ota_protocol n (q : list cmd_t) w : let s := exec (ota_task n) (Mach (ota_zero <| o_lock := true |> <| queue := Some q |> <| task := true |>) w []) in
  exists adm, follows (m_trace s) = Some (Point Free (state (m_sm s)) adm) /\ adm ≡ₚ omap checked (under_way (m_sm s)).
Proof.
  cbv zeta. set (s0 := Mach _ w []). assert (H0 : at_ Free ESPOS_OTA_IDLE s0) by (split; [done|by exists []]). destruct (task_ends n ESPOS_OTA_IDLE s0 H0) as (st & <- & adm & H1 & H2). by exists adm.
Qed.

(** * Confirm or roll back *)

Inductive verdict := Leave | Confirm | RollBack.

(** The policy for a new image: the network confirms it, or the grace period of a
    device that has no network configured; the timeout rolls it back. *)
Definition confirm_verdict (pending confirmed connected no_station : bool) (up tmo : Z) : verdict :=
  if negb pending || confirmed then Leave else
  if connected || (no_station && (NO_STA_GRACE_S <=? up)) then Confirm else
  if tmo <=? up then RollBack else Leave.

(** What the world answers a tick. *)
Definition tick_answers (w : W) : bool * Z * bool * bool :=
  let '(info, w) := port_info w in
  let '(up, w) := port_uptime_s w in
  let '(connected, w) := port_net_up w in
  let ns := if HAVE_WIFI then default false (port_no_station w).1 else false in
  (i_pending_verify info, up, connected, ns).

(** What a tick may have added to the trace. *)
Definition no_verdict (e : ota_ev) : Prop := match e with EvMarkValid _ | EvRollback => False | _ => True end.

Lemma publish_trace s : exists new, m_trace (exec publish s) = new ++ m_trace s /\ Forall no_verdict new /\ m_sm (exec publish s) = m_sm s.
Proof.
  unfold exec, publish, mbind, act_bind, query, gets, emit, mret, act_ret. destruct (port_info (m_world s)) as [i w1]. cbn [m_sm m_world m_trace]. destruct (port_malloc w1) as [[] w2]; cbn [negb m_sm m_world m_trace snd]; [|by exists []].
  destruct (port_uptime_s w2) as [u w3]. cbn [m_sm m_world m_trace snd id]. eexists [_]. split; [reflexivity|]. by repeat constructor.
Qed.

Lemma fail_trace e s : exists new, m_trace (exec (fail e) s) = new ++ m_trace s /\ Forall no_verdict new /\ m_sm (exec (fail e) s) = (m_sm s) <| state := ESPOS_OTA_FAILED |> <| last_error := snprintf_s 96 e |>.
Proof.
  set (s1 := Mach ((m_sm s) <| state := ESPOS_OTA_FAILED |> <| last_error := snprintf_s 96 e |>) (m_world s) (EvState ESPOS_OTA_FAILED :: m_trace s)).
  change (exec (fail e) s) with (exec publish s1). destruct (publish_trace s1) as (new & H1 & H2 & H3). exists (new ++ [EvState ESPOS_OTA_FAILED]).
  split; [rewrite <- app_assoc; exact H1|]. split; [apply Forall_app; split; [done|by apply Forall_singleton]|exact H3].
Qed.

(** C12. The fate of a new image is the policy: a tick marks it valid exactly when the verdict is to confirm, rolls back exactly when the network was not reached in time, and otherwise changes nothing. *)
Theorem ota_confirm_exact (s : S_) : let '(pending, up, connected, ns) := tick_answers (m_world s) in let s' := exec tick_confirm s in
  match confirm_verdict pending (confirmed_this_boot (m_sm s)) connected ns up (u32 (confirm_tmo_s (m_sm s))) with
  | Leave => m_sm s' = m_sm s /\ m_trace s' = m_trace s
  | Confirm => exists ok new, m_trace s' = new ++ EvMarkValid ok :: m_trace s /\ Forall no_verdict new /\ m_sm s' = (if ok : bool then (m_sm s) <| confirmed_this_boot := true |> else m_sm s)
  | RollBack => exists new, m_trace s' = EvRollback :: new ++ m_trace s /\ Forall no_verdict new /\ state (m_sm s') = ESPOS_OTA_FAILED /\ confirmed_this_boot (m_sm s') = true
  end.
Proof.
  unfold tick_answers, confirm_verdict. destruct (port_info (m_world s)) as [info w1] eqn:E1. destruct (port_uptime_s w1) as [up w2] eqn:E2. destruct (port_net_up w2) as [cn w3] eqn:E3.
  set (ns := if HAVE_WIFI then _ else false). cbv zeta. set (s' := exec tick_confirm s).
  assert (En : exists w4, (if HAVE_WIFI then w ← query port_no_station; mret (default false w) else mret false) (Mach (m_sm s) w3 (m_trace s)) = (ns, Mach (m_sm s) w4 (m_trace s))).
  { subst ns. destruct HAVE_WIFI; [|by eexists]. unfold mbind, act_bind, query, mret, act_ret. cbn. destruct (port_no_station w3) as [o w4]. by eexists. }
  destruct En as [w4 En]. destruct (negb (i_pending_verify info) || confirmed_this_boot (m_sm s)) eqn:Ep.
  { assert (Es : s' = Mach (m_sm s) w1 (m_trace s)); [|by rewrite Es]. subst s'. unfold exec, tick_confirm. unfold mbind at 1, act_bind at 1, query at 1. rewrite E1. unfold mbind at 1, act_bind at 1, gets at 1. cbn [m_sm]. by rewrite Ep. }
  assert (Es : s' = exec (if cn || (ns && (NO_STA_GRACE_S <=? up)) then ok ← mark_valid; if ok : bool then mods (fun s => s <| confirmed_this_boot := true |>);; publish else mret tt
      else tmo ← gets confirm_tmo_s; if u32 tmo <=? up then fail (lit "rollback: network not reached in time");; emit EvRollback;; mods (fun s => s <| confirmed_this_boot := true |>) else mret tt)
      (Mach (m_sm s) w4 (m_trace s))).
  { subst s'. unfold exec, tick_confirm. unfold mbind at 1, act_bind at 1, query at 1. rewrite E1. unfold mbind at 1, act_bind at 1, gets at 1. cbn [m_sm]. rewrite Ep.
    unfold mbind at 1, act_bind at 1, query at 1. cbn [m_sm m_world m_trace]. rewrite E2. unfold mbind at 1, act_bind at 1, query at 1. cbn [m_sm m_world m_trace]. rewrite E3. unfold mbind at 1, act_bind at 1. by rewrite En. }
  clearbody s'. destruct (cn || (ns && (NO_STA_GRACE_S <=? up))).
  - destruct (port_mark_valid w4) as [err w5] eqn:E5. exists (is_ok err).
    assert (Em : mark_valid (Mach (m_sm s) w4 (m_trace s)) = (is_ok err, Mach (m_sm s) w5 (EvMarkValid (is_ok err) :: m_trace s))) by (unfold mark_valid, mbind, act_bind, query, emit, mret, act_ret; cbn; by rewrite E5).
    unfold exec, mbind at 1, act_bind at 1 in Es. rewrite Em in Es. destruct (is_ok err).
    + destruct (publish_trace (Mach ((m_sm s) <| confirmed_this_boot := true |>) w5 (EvMarkValid true :: m_trace s))) as (new & H1 & H2 & H3). exists new. rewrite Es. done.
    + exists []. rewrite Es. done.
  - unfold exec, mbind at 1, act_bind at 1, gets in Es. cbn [m_sm] in Es. destruct (u32 (confirm_tmo_s (m_sm s)) <=? up); [|by rewrite Es].
    destruct (fail_trace (lit "rollback: network not reached in time") (Mach (m_sm s) w4 (m_trace s))) as (new & H1 & H2 & H3). exists new.
    assert (Ef : s' = Mach ((m_sm (exec (fail (lit "rollback: network not reached in time")) (Mach (m_sm s) w4 (m_trace s)))) <| confirmed_this_boot := true |>)
       (m_world (exec (fail (lit "rollback: network not reached in time")) (Mach (m_sm s) w4 (m_trace s)))) (EvRollback :: new ++ m_trace s)).
    { rewrite Es. unfold mbind, act_bind, emit, mods. unfold exec in *. destruct (fail _ _) as [u s1]. cbn [fst snd m_trace] in *. by rewrite H1. }
    rewrite Ef. cbn [m_trace m_sm]. rewrite H3. split; [done|]. split; [done|]. by split.
Qed.
End Props.

(** * The status document *)

(** The strings fit the members they are kept in. *)
Record sized (s : ota) : Prop := {
  sz_error : (length (last_error s) <= 95)%nat;
  sz_version : (length (b_version (avail s)) <= 31)%nat;
  sz_url : (length (b_url (avail s)) <= 255)%nat;
  sz_sha : (length (b_sha256 (avail s)) <= 64)%nat;
  sz_notes : (length (b_notes (avail s)) <= 127)%nat;
  sz_murl : (length (manifest_url s) <= 167)%nat;
  sz_meff : (length (manifest_eff s) <= 167)%nat;
  sz_channel : (length (channel s) <= 15)%nat;
  sz_fp : (length (key_fp s) <= 16)%nat }.
Record info_sized (i : espos_ota_port_info_t) : Prop := {
  is_version : (length (i_version i) <= 31)%nat; is_project : (length (i_project i) <= 31)%nat; is_idf : (length (i_idf i) <= 31)%nat; is_date : (length (i_date i) <= 15)%nat;
  is_time : (length (i_time i) <= 15)%nat; is_slot : (length (i_slot i) <= 16)%nat; is_other : (length (i_other_slot i) <= 16)%nat; is_state : (length (i_state i) <= 15)%nat;
  is_oversion : (length (i_other_version i) <= 31)%nat }.

Lemma fmt_u32_length n : (length (fmt_d (u32 n)) <= 10)%nat.
Proof. unfold fmt_d, u32. pose proof (Z.mod_pos_bound n (2 ^ 32) ltac:(lia)). destruct (Z.ltb_spec (n mod 2 ^ 32) 0); [lia|]. eapply Nat.le_trans; [apply (dec_digits_length 9); lia|cbn; lia]. Qed.

Lemma fmt_i32_length n : (length (fmt_d (i32 n)) <= 11)%nat.
Proof.
  unfold fmt_d, i32. pose proof (Z.mod_pos_bound (n + 2 ^ 31) (2 ^ 32) ltac:(lia)). destruct (Z.ltb_spec ((n + 2 ^ 31) mod 2 ^ 32 - 2 ^ 31) 0).
  - cbn [length]. apply le_n_S. eapply Nat.le_trans; [apply (dec_digits_length 9); lia|cbn; lia].
  - eapply Nat.le_trans; [apply (dec_digits_length 9); lia|cbn; lia].
Qed.

Lemma json_str_length n src : (length (json_str n src) <= 2 * length src)%nat.
Proof.
  assert (Ho : forall o, (length (json_str_from n o src) <= 2 * length src)%nat); [|apply Ho]. induction src as [|c src IH]; intros o; cbn [json_str_from]; [cbn; lia|]. destruct (negb _); [cbn; lia|]. destruct (_ || _); [destruct (_ <=? _)%nat; [cbn; lia|]|]; cbn [length].
  - specialize (IH (o + 2)%nat). lia.
  - specialize (IH (o + 1)%nat). lia.
Qed.

Lemma snprintf_length n s : (length (snprintf_s n s) <= pred n)%nat.
Proof. unfold snprintf_s. rewrite length_take. lia. Qed.

(** The lengths of the fixed texts. *)
Ltac js_lengths := repeat rewrite length_app; repeat match goal with |- context [length (js ?x)] => let n := eval vm_compute in (length (js x)) in change (length (js x)) with n end.

Lemma js_bool_length b : (length (js_bool b) <= 5)%nat.
Proof. destruct b; cbn; lia. Qed.
Lemma state_name_length st : (length (espos_ota_state_name st) <= 11)%nat.
Proof. destruct st; vm_compute; lia. Qed.

(** A text appended where there is room. *)
Lemma append_fits out n text : length out = n -> (n + length text < STATUS_JSON_MAX)%nat -> append_at out n text = (out ++ text, (n + length text)%nat).
Proof.
  intros Hl Hn. unfold append_at, clamp_len, snprintf_s. rewrite <- Hl in *. rewrite firstn_all, (take_ge text) by lia. destruct (Nat.leb_spec STATUS_JSON_MAX (length out + length text)); [lia|done].
Qed.

(** Each part of the document within its buffer. *)
Lemma manifest_text_length s : sized s -> (length (manifest_text s) <= 334)%nat.
Proof. intros []. unfold manifest_text. eapply Nat.le_trans; [apply json_str_length|]. destruct (manifest_eff s); cbn [length] in *; lia. Qed.
Lemma key_fp_text_length s : (length (key_fp_text s) <= 19)%nat.
Proof. unfold key_fp_text. destruct (key_fp s); [vm_compute; lia|apply snprintf_length]. Qed.
Lemma last_text_length s now : (length (last_text s now) <= 15)%nat.
Proof. unfold last_text. destruct (_ =? 0); [vm_compute; lia|apply snprintf_length]. Qed.
Lemma next_text_length s now : (length (next_text s now) <= 15)%nat.
Proof. unfold next_text. destruct (_ && _); [apply snprintf_length|vm_compute; lia]. Qed.

Ltac bool_lengths := repeat match goal with |- context [length (js_bool ?b)] => let n := fresh "n" in let H := fresh "H" in pose proof (js_bool_length b) as H; set (n := length (js_bool b)) in * end.

Section Status.
Context `{OC : !OtaConf}.
Hypothesis target_short : (length IDF_TARGET <= 16)%nat.

Lemma text1_length s info now : sized s -> info_sized info -> (length (status_text1 s info now) <= 1400)%nat.
Proof.
  intros Hs []. pose proof (manifest_text_length s Hs). destruct Hs. unfold status_text1. js_lengths.
  pose proof (state_name_length (state s)). pose proof (json_str_length 200 (last_error s)). pose proof (key_fp_text_length s). pose proof (last_text_length s now). pose proof (next_text_length s now).
  pose proof (fmt_u32_length (received s)). pose proof (fmt_u32_length (total_size s)). bool_lengths. lia.
Qed.

Lemma text2_length s : sized s -> (length (status_text2 s) <= 1000)%nat.
Proof.
  intros []. unfold status_text2. destruct (have_avail s); [|vm_compute; lia]. js_lengths.
  pose proof (json_str_length 520 (b_url (avail s))). pose proof (json_str_length 280 (b_notes (avail s))). pose proof (fmt_u32_length (b_size (avail s))). bool_lengths. lia.
Qed.

Lemma status_complete s info now : sized s -> info_sized info ->
  status_json s info now = status_text1 s info now ++ status_text2 s ++ js "}" /\ (length (status_json s info now) < STATUS_JSON_MAX)%nat.
Proof.
  intros Hs Hi. pose proof (text1_length s info now Hs Hi) as H1. pose proof (text2_length s Hs) as H2. unfold status_json.
  assert (E1 : snprintf_s STATUS_JSON_MAX (status_text1 s info now) = status_text1 s info now) by (unfold snprintf_s; apply take_ge; unfold STATUS_JSON_MAX; lia).
  assert (E2 : clamp_len (length (status_text1 s info now)) = length (status_text1 s info now)) by (unfold clamp_len; destruct (Nat.leb_spec STATUS_JSON_MAX (length (status_text1 s info now))); [unfold STATUS_JSON_MAX in *; lia|done]).
  rewrite E1, E2, append_fits by (done || unfold STATUS_JSON_MAX; lia). rewrite append_fits; [|by rewrite length_app|change (length (js "}")) with 1%nat; unfold STATUS_JSON_MAX; lia].
  cbn [fst]. rewrite <- app_assoc. split; [done|]. rewrite !length_app. change (length (js "}")) with 1%nat. unfold STATUS_JSON_MAX. lia.
Qed.
End Status.

(** ** Over whole runs *)

Section Documents.
Context `{OC : !OtaConf} {J : Type} `{!CJson J} {W : Type} `{!OtaPort W}.
Hypothesis target_short : (length IDF_TARGET <= 16)%nat.
Hypothesis info_ok : forall w, info_sized (port_info w).1.
#[local] Abbreviation M := (act ota W ota_ev).

(** A published document that is whole. *)
Definition whole (e : ota_ev) : Prop :=
  match e with EvPublish d => (length d < STATUS_JSON_MAX)%nat /\ exists s info now, d = status_text1 s info now ++ status_text2 s ++ js "}" | _ => True end.
Definition docs (s : mach ota W ota_ev) : Prop := sized (m_sm s) /\ Forall whole (m_trace s).
Definition pres {A} (m : M A) : Prop := forall s, docs s -> wp m (fun _ => docs) s.

Lemma pres_ret {A} (a : A) : pres (mret a).
Proof. by intros s Hs. Qed.
Lemma pres_bind {A B} (m : M A) (k : A -> M B) : pres m -> (forall a, pres (k a)) -> pres (m ≫= k).
Proof. intros Hm Hk s Hs. apply wp_bind. eapply wp_mono; [by apply Hm|]. intros a s' Hs'. by apply Hk. Qed.
Lemma pres_query {A} (f : W -> A * W) : pres (query f).
Proof. intros s Hs. apply wp_query. done. Qed.
Lemma pres_gets {A} (f : ota -> A) : pres (gets f).
Proof. intros s Hs. by apply wp_gets. Qed.
Lemma pres_mods (f : ota -> ota) : (forall x, sized x -> sized (f x)) -> pres (mods f).
Proof. intros Hf s [H1 H2]. apply wp_mods. split; cbn; auto. Qed.
Lemma pres_emit e : whole e -> pres (emit e).
Proof. intros He s [H1 H2]. apply wp_emit. split; [done|]. by constructor. Qed.

(** An assignment that touches no text, or one text within its member. *)
Ltac size := intros []; split; cbn; try done; try (apply snprintf_length); try (cbn; lia).
Ltac pres_step :=
  match goal with
  | |- pres (mbind _ _) => apply pres_bind; [|intros ?]
  | |- pres (mret _) => apply pres_ret
  | |- pres (query _) => apply pres_query
  | |- pres (gets _) => apply pres_gets
  | |- pres (mods _) => apply pres_mods; let x := fresh "x" in intros x; try solve [size]
  | |- pres (emit _) => apply pres_emit; try exact I
  | |- pres (if ?b then _ else _) => destruct b eqn:?
  | |- pres (let '(_, _) := ?x in _) => destruct x
  | |- pres (match ?o with Some _ => _ | None => _ end) => destruct o
  end.

Lemma publish_pres : pres publish.
Proof.
  intros s [H1 H2]. unfold publish, wp, mbind, act_bind, query, gets, emit, mret, act_ret. pose proof (info_ok (m_world s)) as Hi. destruct (port_info (m_world s)) as [info w]. cbn [fst m_sm m_world m_trace] in *.
  destruct (port_malloc w) as [[] w2]; cbn [negb m_sm m_world m_trace snd]; [|by split]. destruct (port_uptime_s w2) as [now w3]. cbn [m_sm m_world m_trace snd id]. split; [done|]. constructor; [|done].
  destruct (status_complete target_short (m_sm s) info now H1 Hi) as [E Hl]. split; [exact Hl|]. by exists (m_sm s), info, now.
Qed.

Lemma set_state_pres st err : pres (set_state st err).
Proof.
  unfold set_state. repeat pres_step; try apply publish_pres. intros []. destruct err as [e|]; [|destruct (bool_decide _)]; split; cbn; try done; try lia. pose proof (snprintf_length 96 e). cbn in *. lia.
Qed.
Lemma fail_pres e : pres (fail e).
Proof. apply set_state_pres. Qed.
Lemma queue_send_pres c : pres (queue_send c).
Proof. unfold queue_send. repeat pres_step. Qed.
Lemma send_cmd_pres pre c u : pres (send_cmd pre c u).
Proof. unfold send_cmd, send_rest, stay. repeat (pres_step || apply queue_send_pres). Qed.
Lemma send_stop_pres : pres send_stop.
Proof. unfold send_stop, stay. repeat (pres_step || apply queue_send_pres). Qed.
Lemma go_on_pres pre i : pres (go_on pre i).
Proof.
  unfold go_on. pres_step; [pres_step|]. pres_step; [|pres_step]. pres_step; [pres_step|]. destruct c; unfold send_rest; repeat (pres_step || apply send_cmd_pres || apply send_stop_pres || apply queue_send_pres).
Qed.
Lemma others_pres : pres others.
Proof.
  unfold others. pres_step; [pres_step|]. induction a as [|a l IH]; cbn [arrive_all]; [apply pres_ret|]. pres_step; [|exact IH].
  destruct a; cbn [arrive]; unfold espos_ota_check_now, espos_ota_install_url, espos_ota_install_available, espos_ota_confirm, espos_ota_rollback, espos_ota_stop, on_config, on_server_selected;
    unfold stay; repeat (pres_step || apply send_cmd_pres || apply send_stop_pres || apply go_on_pres).
Qed.
Lemma event_post_pres e : pres (event_post e).
Proof. unfold event_post. repeat pres_step. Qed.
Lemma address_pres : pres manifest_address.
Proof. unfold manifest_address. repeat pres_step; match goal with |- pres (match ?e with _ => _ end) => destruct e end; repeat (pres_step || apply fail_pres). Qed.

Lemma fail_none (e : cstr) (Q : option cstr -> mach ota W ota_ev -> Prop) s : docs s -> (forall s', docs s' -> Q None s') -> wp (fail e;; mret None) Q s.
Proof. intros Hs HQ. apply wp_bind. eapply wp_mono; [by apply fail_pres|]. intros u s' Hs'. apply wp_ret. by apply HQ. Qed.

Lemma address_short (s : mach ota W ota_ev) : docs s -> wp manifest_address (fun a s' => docs s' /\ match a with Some u => (length u <= 167)%nat | None => True end) s.
Proof.
  intros Hs. unfold manifest_address. apply wp_bind, wp_gets. unfold id. destruct (negb _); [apply wp_ret; split; [done|apply Hs]|]. apply wp_bind, wp_query. intros [uerr url] w. apply wp_bind, wp_mods, wp_bind, wp_query. intros [berr base] w2.
  apply wp_bind, wp_mods. match goal with |- wp _ _ ?x => assert (Hd : docs x) by (destruct Hs as [[] H2]; split; [split|]; done); generalize dependent x end. intros x Hd.
  destruct uerr; try (apply fail_none; [done|]; intros s' Hs'; by split). apply wp_ret. split; [done|]. apply (snprintf_length 168).
Qed.

Lemma pick_sized json url app target chan run err b : espos_ota_manifest_pick json url app target chan run = (err, b) ->
  (length (b_version b) <= 31)%nat /\ (length (b_url b) <= 255)%nat /\ (length (b_sha256 b) <= 64)%nat /\ (length (b_notes b) <= 127)%nat.
Proof.
  assert (Hz : forall e, (e, build_zero) = (err, b) -> (length (b_version b) <= 31)%nat /\ (length (b_url b) <= 255)%nat /\ (length (b_sha256 b) <= 64)%nat /\ (length (b_notes b) <= 127)%nat) by (intros e [= <- <-]; cbn; lia).
  unfold espos_ota_manifest_pick. destruct (cJSON_ParseWithLength json); [|apply Hz]. destruct (negb _); [apply Hz|]. destruct (match cJSON_GetObjectItem _ _ with Some _ => _ | None => _ end); [apply Hz|].
  destruct (other _ _); [apply Hz|]. destruct (_ ≫= json_array); [|apply Hz]. destruct (foldl _ _ _) as [best|]; [|apply Hz].
  assert (Hu : (length (espos_ota_resolve_url url (Some (str_of best (lit "url"))) [] ESPOS_OTA_URL_MAX).2 <= 255)%nat).
  { unfold espos_ota_resolve_url. destruct (str_of best (lit "url")); [cbn; lia|]. repeat (match goal with |- context [match ?x with _ => _ end] => destruct x end; try (cbn; lia); try (apply (snprintf_length ESPOS_OTA_URL_MAX))). }
  destruct (espos_ota_resolve_url _ _ _ _) as [ok u]. cbn [snd] in Hu. cbv zeta. destruct (negb ok); intros [= <- <-]; cbn [b_version b_url b_sha256 b_notes length];
    pose proof (snprintf_length 32 (str_of best (lit "version"))); pose proof (snprintf_length 65 (str_of best (lit "sha256"))); pose proof (snprintf_length 128 (str_of best (lit "notes"))); cbn [pred] in *; unfold ESPOS_OTA_VERSION_MAX, ESPOS_OTA_NOTES_MAX; lia.
Qed.

Lemma pres_if {A} (b : bool) (m1 m2 : M A) : pres m1 -> pres m2 -> pres (if b then m1 else m2).
Proof. by destruct b. Qed.
Ltac pres_all := repeat (pres_step || apply publish_pres || apply set_state_pres || apply fail_pres || apply queue_send_pres || apply others_pres || apply event_post_pres).

(** A check past its address. *)
Lemma do_check_pres : pres do_check.
Proof.
  unfold do_check. do 3 (pres_step; [pres_step|]). cbv zeta. intros s Hs. apply wp_bind. eapply wp_mono; [by apply address_short|]. intros [url|] s' [Hs' Hu]; [|by apply wp_ret].
  match goal with |- wp ?m _ _ => cut (pres m); [intros H; by apply H|] end. clear s s' Hs Hs'. pres_step; [apply fail_pres|]. pres_step; [pres_step; intros []; split; cbn; done|].
  pres_step; [apply set_state_pres|]. pres_step; [pres_step|]. pres_step; [pres_step|]. match goal with |- pres (match ?x with _ => _ end) => destruct x as [[err body] status] end.
  pres_step; [apply others_pres|]. pres_step; [apply fail_pres|]. pres_step; [pres_step|]. destruct (espos_ota_manifest_pick _ _ _ _ _ _) as [e b] eqn:E. apply pick_sized in E as (E1 & E2 & E3 & E4).
  apply pres_if; [pres_all|]. apply pres_if; [pres_all|]. pres_step; [pres_step; intros []; split; cbn; done|]. pres_all.
Qed.

Lemma progress_pres l : pres (progress_all l).
Proof. induction l as [|[r t] l IH]; cbn [progress_all]; [apply pres_ret|]. unfold progress_cb. pres_all. exact IH. Qed.
Lemma post_finished_pres n : pres (post_finished n).
Proof. induction n as [|n IH]; cbn [post_finished]; [apply pres_ret|]. pres_all. exact IH. Qed.
Lemma coproc_pres : pres coproc_busy.
Proof. unfold coproc_busy. pres_all. Qed.
Lemma mark_valid_pres : pres mark_valid.
Proof. unfold mark_valid. pres_all. Qed.
Lemma do_install_pres url : pres (do_install url).
Proof. unfold do_install, post_update_finished. repeat (pres_step || apply progress_pres || apply post_finished_pres || apply coproc_pres || apply set_state_pres || apply fail_pres || apply others_pres || apply event_post_pres). Qed.
Lemma tick_confirm_pres : pres tick_confirm.
Proof. unfold tick_confirm. repeat (pres_all || apply mark_valid_pres). Qed.

(** A configured text into its member. *)
Lemma cfg_str_pres key n f : (forall v x, (length v <= pred n)%nat -> sized x -> sized (f v x)) -> pres (cfg_str key n f).
Proof. intros Hf. unfold cfg_str. pres_step; [pres_step|]. pres_step. intros Hx. destruct a; [|done]. apply Hf; [apply snprintf_length|done]. Qed.
Lemma cfg_bool_pres key f : (forall v x, sized x -> sized (f v x)) -> pres (cfg_bool key f).
Proof. intros Hf. unfold cfg_bool. pres_step; [pres_step|]. pres_step. intros Hx. destruct a; auto. Qed.
Lemma cfg_i32_pres key f : (forall v x, sized x -> sized (f v x)) -> pres (cfg_i32 key f).
Proof. intros Hf. unfold cfg_i32. pres_step; [pres_step|]. pres_step. intros Hx. destruct a; auto. Qed.
Lemma load_config_pres : pres load_config.
Proof.
  unfold load_config. repeat match goal with
    | |- pres (cfg_str _ _ _) => apply cfg_str_pres; cbn [pred]; intros v x Hv []; split; cbn; done
    | |- pres (cfg_bool _ _) => apply cfg_bool_pres; intros v x []; split; cbn; done
    | |- pres (cfg_i32 _ _) => apply cfg_i32_pres; intros v x []; split; cbn; done
    | _ => pres_step end.
  intros []. destruct (bool_decide _); split; cbn; try done. lia.
Qed.
Lemma read_key_pres b : pres (read_key_fp b).
Proof. unfold read_key_fp. pres_all. intros []; split; cbn; try done. apply (snprintf_length 17). Qed.

Ltac pres_more := repeat (pres_all || apply do_check_pres || apply do_install_pres || apply coproc_pres || apply mark_valid_pres || apply load_config_pres || apply read_key_pres || apply tick_confirm_pres).
Lemma run_cmd_pres c : pres (run_cmd c).
Proof. unfold run_cmd. destruct (c_cmd c); pres_more. Qed.
Lemma probe_pres : pres probe_server.
Proof. unfold probe_server. pres_all. Qed.
Lemma tick_check_pres at_ dn : pres (tick_check at_ dn).
Proof. unfold tick_check. repeat (pres_more || apply probe_pres). destruct (_ && _); [|done]. intros []; split; done. Qed.
Lemma round_pres at_ dn : pres (ota_round at_ dn).
Proof. unfold ota_round. pres_step; [apply others_pres|]. pres_step; [pres_step|]. destruct a0 as [[|c q]|]; repeat (pres_more || apply run_cmd_pres || apply tick_check_pres). Qed.
Lemma rounds_pres n at_ dn : pres (ota_rounds n at_ dn).
Proof. revert dn. induction n as [|n IH]; intros dn; cbn [ota_rounds]; [apply pres_ret|]. pres_step; [apply round_pres|]. destruct a as [go d]. destruct go; [apply IH|apply pres_ret]. Qed.

(** Every status document the update task publishes, in any run of any length
    from the start of the service and whatever the server, the configuration, the other
    tasks and the platform do, is the complete text, closed by its brace and shorter
    than its buffer: the clamps never cut one. *)
Theorem ota_status_whole (n : nat) (w : W) : Forall whole (m_trace (exec (espos_ota_start true true true true true true;; ota_task n) (Mach ota_zero w []))).
Proof.
  assert (Hp : pres (espos_ota_start true true true true true true;; ota_task n)). { pres_step; [unfold espos_ota_start; pres_all|]. unfold ota_task. pres_step; [apply load_config_pres|]. pres_step; [apply read_key_pres|]. pres_step; [pres_step|]. apply rounds_pres. }
  apply wp_exec. eapply wp_mono; [apply Hp; split; [split; cbn; lia|constructor]|]. intros a s' Hs. apply Hs.
Qed.
End Documents.
