(* ===== verification/OtaRuns.v ===== *)
(** Runs of the updater: the theorems of the manifest and of the status document at
    concrete inputs, and what three of its behaviours come to. *)
From Stdlib Require Import ZArith Lia String.
From Stdlib Require Import Floats.SpecFloat.
From stdpp Require Import base list numbers option.
From S2P Require Import Prelude ConfigDesc OtaManifest OtaPick OtaEngine OtaProps.
Open Scope Z_scope.

(** * A concrete reader of documents *)

Inductive jtree := JNum (v : spec_float) | JStr (s : cstr) | JArr (l : list jtree) | JObj (l : list (cstr * jtree)).
Fixpoint assoc (k : cstr) (l : list (cstr * jtree)) : option jtree :=
  match l with [] => None | (k', v) :: l' => if streq k k' then Some v else assoc k l' end.
Definition jstr (k v : string) : cstr * jtree := (lit k, JStr (lit v)).

Definition build_entry (target version url : string) : jtree := JObj [jstr "target" target; jstr "version" version; jstr "url" url; jstr "channel" "stable"; (lit "size", JNum (binary_normalize 53 1024 1048576 0 false))].
Definition sample_builds : list jtree :=
  [build_entry "esp32s3" "1.4.0" "old.bin"; build_entry "esp32c3" "9.0.0" "c3.bin"; build_entry "esp32s3" "1.10.0" "new.bin"; build_entry "esp32s3" "1.10.0-rc2" "rc.bin"].
Definition sample_root : jtree := JObj [jstr "app" "anchor"; (lit "builds", JArr sample_builds)].
(** A manifest whose version holds a quotation mark. *)
Definition quote_root : jtree := JObj [(lit "builds", JArr [JObj [jstr "target" "esp32s3"; (lit "version", JStr (js "2.0'")); jstr "url" "q.bin"]])].

(** A version without a number between two that have one. *)
Definition word_builds : list jtree := [build_entry "esp32s3" "10.0" "ten.bin"; build_entry "esp32s3" "beta" "beta.bin"; build_entry "esp32s3" "v2.0" "two.bin"].
Definition word_root : jtree := JObj [jstr "app" "anchor"; (lit "builds", JArr word_builds)].

#[export] Instance tree_json : CJson jtree := {|
  cJSON_ParseWithLength t := if streq t (lit "sample") then Some sample_root else if streq t (lit "quote") then Some quote_root else if streq t (lit "word") then Some word_root else None;
  cJSON_IsObject n := match n with JObj _ => true | _ => false end;
  cJSON_GetObjectItem n k := match n with JObj l => assoc k l | _ => None end;
  json_number n := match n with JNum m => if valid_binary 53 1024 m then Some m else None | _ => None end;
  json_valueint n := match n with JNum m => size_of m | _ => 0 end;
  json_string n := match n with JStr s => Some s | _ => None end;
  json_array n := match n with JArr l => Some l | _ => None end |}.

(** * The manifest *)

Lemma tree_doubles : doubles.
Proof. intros [v| | |] w; try done. cbn [json_number tree_json]. destruct (valid_binary 53 1024 v) eqn:E; [|done]. by intros [= <-]. Qed.

Definition s3 : cstr := lit "esp32s3".

Lemma ota_url_stays_witness : espos_ota_resolve_url (Some (lit "https://h/fw/m.json")) (Some (lit "new.bin")) [] ESPOS_OTA_URL_MAX = (true, lit "https://h/fw/new.bin") /\ origin (lit "https://h/fw/new.bin") = origin (lit "https://h/fw/m.json").
Proof.
  split; [reflexivity|]. destruct (ota_url_stays (lit "https://h/fw/m.json") (lit "new.bin") [] ESPOS_OTA_URL_MAX (lit "https://h/fw/new.bin")) as [_ [[H _]|(_ & _ & H)]]; [reflexivity| |exact H]. exfalso. by apply H.
Defined.

Example sample_picks_110 : espos_ota_manifest_pick (lit "sample") (Some (lit "https://h/fw/m.json")) (Some (lit "anchor")) s3 (lit "stable") (Some (lit "1.9.3")) =
  (ESP_OK, OtaBuild (lit "1.10.0") (lit "https://h/fw/new.bin") [] [] 1048576 true).
Proof. vm_compute. reflexivity. Qed.

Lemma ota_pick_newest_witness : exists best, best ∈ sample_builds /\ str_of best (lit "version") = lit "1.10.0" /\
  Forall (fun b => suits (Some (lit "anchor")) s3 (lit "stable") b = true -> espos_ota_version_cmp (str_of b (lit "version")) (str_of best (lit "version")) <= 0) sample_builds.
Proof.
  pose proof (ota_pick_newest (lit "sample") sample_root sample_builds (Some (lit "https://h/fw/m.json")) (Some (lit "anchor")) s3 (lit "stable") (Some (lit "1.9.3")) tree_doubles eq_refl eq_refl) as H.
  rewrite sample_picks_110 in H. destruct H as [H _]. destruct H as (l1 & best & l2 & H1 & H2 & _ & H3 & H4 & _); [done|]. exists best. assert (Hin : best ∈ sample_builds) by (rewrite H1; apply elem_of_app; right; left). split; [done|].
  split; [|apply H3; repeat constructor; vm_compute; done]. cbn [b_version] in H4. clear H1 H3. unfold sample_builds in Hin. rewrite !elem_of_cons in Hin. destruct Hin as [->|[->|[->|[->|Hin%not_elem_of_nil]]]]; vm_compute in H4 |- *; try discriminate; try reflexivity. contradiction.
Defined.

(** With a version that has no number the comparison is not transitive: 10.0 gives
    way to beta, and beta to v2.0, which is the one that is picked. *)
Example word_picks_2 : b_version (espos_ota_manifest_pick (lit "word") (Some (lit "https://h/fw/m.json")) (Some (lit "anchor")) s3 (lit "stable") (Some (lit "1.9.3"))).2 = lit "v2.0" /\
  espos_ota_version_cmp (lit "10.0") (lit "v2.0") > 0.
Proof. vm_compute. split; reflexivity. Qed.

(** * A device on the bench *)

(** A second passes for every look at the others; [b_sched] is what they do. *)
Record bench := Bench { b_clock : Z; b_body : cstr; b_coproc : bool; b_net : bool; b_pending : bool; b_sched : list (list arrival) }.
#[export] Instance bench_conf : OtaConf := {| IDF_TARGET := s3; MANIFEST_MAX := 16384; BOOT_CHECK_DELAY_S := 20; NO_STA_GRACE_S := 60; HAVE_WIFI := true |}.
Definition bench_info (w : bench) : espos_ota_port_info_t :=
  OtaInfo (lit "1.9.3") (lit "anchor") (lit "v5.5") (lit "Jan  1 2026") (lit "12:00:00") (lit "ota_0") (lit "ota_1") (lit "new") (b_pending w) false (lit "1.9.2").
#[export] Instance bench_port : OtaPort bench := {|
  port_info w := (bench_info w, w);
  port_uptime_s w := (b_clock w, w);
  port_key_fp w := ((ESP_OK, lit "0123456789abcdef"), w);
  port_fetch url insecure w := ((ESP_OK, b_body w, 200), w);
  port_install url insecure app w := ((ESP_OK, [], [(0, 1048576); (65536, 1048576); (1048576, 1048576)]), w);
  port_mark_valid w := (ESP_OK, w);
  port_net_up w := (b_net w, w);
  port_no_station w := (Some false, w);
  port_coproc_busy w := (b_coproc w, w);
  port_server_url path w := ((ESP_ERR_NOT_FOUND, []), w);
  port_cfg_str key w := (if streq key (lit "manifest_url") then Some (lit "https://h/fw/m.json") else None, w);
  port_cfg_bool key w := (Some (negb (streq key (lit "allow_insecure"))), w);
  port_cfg_i32 key w := (Some (if streq key (lit "check_h") then 24 else 300), w);
  port_event w := (true, w);
  port_malloc w := (true, w);
  port_others w := (match b_sched w with l :: _ => l | [] => [] end, Bench (b_clock w + 1) (b_body w) (b_coproc w) (b_net w) (b_pending w) (tail (b_sched w)));
  err_name e := lit "ESP_FAIL" |}.

Definition bench_start (body : cstr) (coproc net pending : bool) (t : Z) : mach ota bench ota_ev := Mach ota_zero (Bench t body coproc net pending []) [].
Definition bench_run (n : nat) (s : mach ota bench ota_ev) : mach ota bench ota_ev := exec (espos_ota_start true true true true true true;; ota_task n) s.
Definition documents (l : list ota_ev) : nat := length (filter (fun e => match e with EvPublish _ => true | _ => false end = true) l).

(** The check after boot finds 1.10.0 and installs it. *)
Definition sample_run : mach ota bench ota_ev := bench_run 24 (bench_start (lit "sample") false true false 0).
Example sample_installs : existsb (fun e => match e with EvInstall u false true => streq u (lit "https://h/fw/new.bin") | _ => false end) (m_trace sample_run) = true /\
  existsb (fun e => match e with EvReboot => true | _ => false end) (m_trace sample_run) = true /\ documents (m_trace sample_run) = 7%nat.
Proof. vm_compute. repeat split. Qed.

Lemma bench_info_sized (w : bench) : info_sized (port_info w).1.
Proof. split; vm_compute; repeat constructor. Qed.

Lemma ota_status_whole_witness : documents (m_trace sample_run) = 7%nat /\ Forall whole (m_trace sample_run).
Proof. split; [apply sample_installs|]. unfold sample_run, bench_run, bench_start. apply ota_status_whole; [vm_compute; lia|exact bench_info_sized]. Defined.

(** * What three behaviours come to *)

(** A new image that does not reach the network is rolled back while the radio
    co-processor is being updated: no one looks at the co-processor. *)
Example timeout_rolls_back_during_coproc_update : let s := bench_run 3 (bench_start (lit "sample") true false true 298) in
  existsb (fun e => match e with EvRollback => true | _ => false end) (m_trace s) = true /\ existsb (fun e => match e with EvCoproc _ => true | _ => false end) (m_trace s) = false.
Proof. vm_compute. split; reflexivity. Qed.

(** A start that got its mutex and no queue fails; the next one says it worked, and
    the service has no queue: it refuses every command for good. *)
Definition half_start (api : bool) (queue_made : bool) : (esp_err_t * (esp_err_t * esp_err_t)) * mach ota bench ota_ev :=
  (e1 ← espos_ota_start true true true queue_made api true; e2 ← espos_ota_start true true true true true true; e3 ← espos_ota_check_now Runs; mret (e1, (e2, default ESP_OK e3))) (bench_start [] false true false 0).
Example second_start_without_queue : (half_start true false).1 = (ESP_ERR_NO_MEM, (ESP_OK, ESP_ERR_INVALID_STATE)) /\ queue (m_sm (half_start true false).2) = None.
Proof. vm_compute. split; reflexivity. Qed.
(** Likewise a start whose API was not registered: the next one does not register it. *)
Example second_start_without_api : (half_start false true).1 = (ESP_FAIL, (ESP_OK, ESP_OK)).
Proof. vm_compute. reflexivity. Qed.

(** A caller of an install is preempted behind the test and goes on while the
    download runs: its command is queued with DOWNLOADING reported. *)
Definition late_run : mach ota bench ota_ev :=
  bench_run 24 (Mach ota_zero (Bench 0 (lit "sample") false true false ([AInstallUrl AfterCheck (Some (lit "http://h/x.bin"))] :: replicate 21 [] ++ [[AGoOn Runs 0]])) []).
Fixpoint queued_at (l : list ota_ev) (st : espos_ota_state_t) : list espos_ota_state_t :=
  match l with [] => [] | EvState st' :: l' => queued_at l' st' | EvQueued _ :: l' => st :: queued_at l' st | _ :: l' => queued_at l' st end.
Example late_command_queued : queued_at (rev (m_trace late_run)) ESPOS_OTA_IDLE = [ESPOS_OTA_DOWNLOADING].
Proof. vm_compute. reflexivity. Qed.

(** The version of a manifest goes into the status document as it is. *)
Example version_quote_in_status : existsb (fun e => match e with EvPublish d => match find_at (js "'version':'2.0'','url'") d with Some _ => true | None => false end | _ => false end)
  (m_trace (bench_run 22 (bench_start (lit "quote") false true false 0))) = true.
Proof. vm_compute. reflexivity. Qed.
