(* ===== verification/Nmea.v ===== *)
(** NMEA 0183 sentences: framing, checksum, fields and the integer readings of
    [nmea0183_parse.c].

    A line is a C string: what is behind a NUL is not read. [espos_nmea0183_parse] cuts its argument
    up in place; the fields of the result are the texts its pointers then read. *)
From Stdlib Require Import ZArith Lia String.
From stdpp Require Import base list numbers option.
From S2P Require Import Prelude.
Open Scope Z_scope.

Definition ESPOS_NMEA0183_LINE_MAX : nat := 160.
Definition ESPOS_NMEA0183_MAX_FIELDS : nat := 40.

Inductive espos_nmea0183_err_t :=
  | ESPOS_NMEA0183_OK | ESPOS_NMEA0183_ERR_EMPTY | ESPOS_NMEA0183_ERR_NO_START | ESPOS_NMEA0183_ERR_TOO_LONG | ESPOS_NMEA0183_ERR_BAD_CHAR
  | ESPOS_NMEA0183_ERR_NO_CHECKSUM | ESPOS_NMEA0183_ERR_BAD_CHECKSUM | ESPOS_NMEA0183_ERR_BAD_ADDRESS | ESPOS_NMEA0183_ERR_TOO_MANY_FIELDS | ESPOS_NMEA0183_ERR_MAX.
#[export] Instance nmea_err_eq_dec : EqDecision espos_nmea0183_err_t.
Proof. solve_decision. Defined.

Definition espos_nmea0183_err_str (err : espos_nmea0183_err_t) : cstr :=
  match err with
  | ESPOS_NMEA0183_OK => lit "ok"
  | ESPOS_NMEA0183_ERR_EMPTY => lit "empty"
  | ESPOS_NMEA0183_ERR_NO_START => lit "no start character"
  | ESPOS_NMEA0183_ERR_TOO_LONG => lit "too long"
  | ESPOS_NMEA0183_ERR_BAD_CHAR => lit "bad character"
  | ESPOS_NMEA0183_ERR_NO_CHECKSUM => lit "no checksum"
  | ESPOS_NMEA0183_ERR_BAD_CHECKSUM => lit "bad checksum"
  | ESPOS_NMEA0183_ERR_BAD_ADDRESS => lit "bad address"
  | ESPOS_NMEA0183_ERR_TOO_MANY_FIELDS => lit "too many fields"
  | ESPOS_NMEA0183_ERR_MAX => lit "unknown"
  end.

(** [n_fields] is the length of [field]. *)
Record espos_nmea0183_sentence_t := Sentence {
  talker : cstr;
  type : cstr;
  proprietary : bool;
  encapsulated : bool;
  has_checksum : bool;
  field : list cstr }.
#[export] Instance sentence_eta : Eta espos_nmea0183_sentence_t := fun s => Sentence (talker s) (type s) (proprietary s) (encapsulated s) (has_checksum s) (field s).
Definition sentence_zero : espos_nmea0183_sentence_t := Sentence [] [] false false false [].

(** Characters: dollar 36, exclamation mark 33, star 42, comma 44. *)
Definition is_start (c : Z) : bool := (c =? 36) || (c =? 33).
Definition is_eol (c : Z) : bool := (c =? 13) || (c =? 10).
Definition is_blank (c : Z) : bool := (c =? 32) || (c =? 9).
Definition printable (c : Z) : bool := negb (c <? 0x20) && negb (0x7e <? c).
Definition isupper (c : Z) : bool := (65 <=? c) && (c <=? 90).
Definition isdigit (c : Z) : bool := (48 <=? c) && (c <=? 57).

(** * Checksum *)

Definition espos_nmea0183_checksum (body : cstr) : Z := foldl (fun sum c => u8 (Z.lxor sum (u8 c))) 0 body.

Definition hex_upper (n : Z) : Z := if n <? 10 then 48 + n else 55 + n.
(** [%02X] of a byte. *)
Definition fmt_02X (b : Z) : cstr := [hex_upper (Z.shiftr b 4); hex_upper (Z.land b 15)].

(** The text before the first character that [stop] holds of: [strcspn], [strchr]. *)
Fixpoint until (stop : Z -> bool) (s : cstr) : cstr :=
  match s with [] => [] | c :: s' => if stop c then [] else c :: until stop s' end.

(** A C string ends at its first NUL. *)
Definition is_nul (c : Z) : bool := c =? 0.
Definition c_line (s : cstr) : cstr := until is_nul s.

(** The length, and what is in [out] ([None]: nothing was written). *)
Definition espos_nmea0183_finish (line : cstr) (n : nat) : nat * option cstr :=
  let line := c_line line in
  if negb (is_start (byte0 line)) then (0%nat, None) else
  let b := until (fun c => (c =? 42) || is_eol c) line in
  let len := length b in
  if (len <? 2)%nat || (ESPOS_NMEA0183_LINE_MAX <? len + 3)%nat || (n <? len + 6)%nat then (0%nat, None) else
  ((len + 5)%nat, Some (b ++ [42] ++ fmt_02X (espos_nmea0183_checksum (drop 1 b)) ++ [13; 10])).

Definition hex_val (c : Z) : Z :=
  if (48 <=? c) && (c <=? 57) then c - 48 else
  if (65 <=? c) && (c <=? 70) then c - 65 + 10 else
  if (97 <=? c) && (c <=? 102) then c - 97 + 10 else -1.

(** * Splitting a sentence *)

Fixpoint skip_blanks (s : cstr) : cstr := match s with c :: s' => if is_blank c then skip_blanks s' else s | [] => [] end.
Fixpoint trim_end (s : cstr) : cstr :=
  match s with
  | [] => []
  | c :: s' => match trim_end s' with [] => if is_eol c || is_blank c then [] else [c] | t => c :: t end
  end.

(** The rest after the first comma, if there is one. *)
Fixpoint after_comma (s : cstr) : option cstr :=
  match s with [] => None | c :: s' => if c =? 44 then Some s' else after_comma s' end.
Definition is_comma (c : Z) : bool := c =? 44.

(** The loop over the fields: [k] more fit. The text gets shorter with every comma. *)
Fixpoint split_fields (k : nat) (p : option cstr) (acc : list cstr) : bool * list cstr :=
  match p with
  | None => (true, acc)
  | Some p => match k with O => (false, acc) | S k => split_fields k (after_comma p) (acc ++ [until is_comma p]) end
  end.

(** From the body (start character, address, fields) on. *)
Definition parse_body (body : cstr) (out : espos_nmea0183_sentence_t) : espos_nmea0183_err_t * espos_nmea0183_sentence_t :=
  let out := out <| encapsulated := byte0 body =? 33 |> in
  let addr := until is_comma (drop 1 body) in
  let p := after_comma (drop 1 body) in
  let alen := length addr in
  if negb (forallb (fun c => isupper c || isdigit c) addr) then (ESPOS_NMEA0183_ERR_BAD_ADDRESS, out) else
  let fields out :=
    let '(ok, l) := split_fields ESPOS_NMEA0183_MAX_FIELDS p [] in
    (if ok : bool then ESPOS_NMEA0183_OK else ESPOS_NMEA0183_ERR_TOO_MANY_FIELDS, out <| field := l |>) in
  if (2 <=? alen)%nat && (byte0 addr =? 80) then
    if (8 <=? alen - 1)%nat then (ESPOS_NMEA0183_ERR_BAD_ADDRESS, out)
    else fields (out <| proprietary := true |> <| type := drop 1 addr |>)
  else if (alen =? 5)%nat then fields (out <| talker := take 2 addr |> <| type := drop 2 addr |>)
  else (ESPOS_NMEA0183_ERR_BAD_ADDRESS, out).

(** [line] is not NULL. *)
Definition espos_nmea0183_parse (line : cstr) (require_checksum : bool) : espos_nmea0183_err_t * espos_nmea0183_sentence_t :=
  let out := sentence_zero in
  let line := trim_end (skip_blanks (c_line line)) in
  let len := length line in
  if (len =? 0)%nat then (ESPOS_NMEA0183_ERR_EMPTY, out) else
  if negb (is_start (byte0 line)) then (ESPOS_NMEA0183_ERR_NO_START, out) else
  if (ESPOS_NMEA0183_LINE_MAX <? len)%nat then (ESPOS_NMEA0183_ERR_TOO_LONG, out) else
  if negb (forallb printable line) then (ESPOS_NMEA0183_ERR_BAD_CHAR, out) else
  let body := until (fun c => c =? 42) line in
  let star := length body in
  if (star <? len)%nat then
    if negb (star + 3 =? len)%nat then (ESPOS_NMEA0183_ERR_BAD_CHECKSUM, out) else
    let hi := hex_val (nth (star + 1) line 0) in
    let lo := hex_val (nth (star + 2) line 0) in
    if (hi <? 0) || (lo <? 0) then (ESPOS_NMEA0183_ERR_BAD_CHECKSUM, out) else
    if negb (espos_nmea0183_checksum (drop 1 body) =? u8 (Z.lor (Z.shiftl hi 4) lo)) then (ESPOS_NMEA0183_ERR_BAD_CHECKSUM, out) else
    parse_body body (out <| has_checksum := true |>)
  else if require_checksum then (ESPOS_NMEA0183_ERR_NO_CHECKSUM, out)
  else parse_body body out.

Definition espos_nmea0183_is (s : espos_nmea0183_sentence_t) (t : cstr) : bool := negb (proprietary s) && streq (type s) t.

(** * Lines from a byte stream *)

(** [buf] is the [len] bytes that are there. *)
Record espos_nmea0183_reader_t := Reader {
  buf : cstr;
  discarding : bool;
  lines : Z;
  overflows : Z;
  resyncs : Z;
  garbled : Z }.
#[export] Instance reader_eta : Eta espos_nmea0183_reader_t := fun r => Reader (buf r) (discarding r) (lines r) (overflows r) (resyncs r) (garbled r).
Definition espos_nmea0183_reader_init : espos_nmea0183_reader_t := Reader [] false 0 0 0 0.

(** One byte: the reader after it, and the line the callback gets. *)
Definition feed_byte (r : espos_nmea0183_reader_t) (c : Z) : espos_nmea0183_reader_t * list cstr :=
  if is_eol c then
    if discarding r then (r <| discarding := false |> <| buf := [] |>, [])
    else if (0 <? length (buf r))%nat then (r <| lines := u32 (lines r + 1) |> <| buf := [] |>, [buf r])
    else (r <| buf := [] |>, [])
  else
  let r := if is_start c then
             let r := if (0 <? length (buf r))%nat && negb (discarding r) then r <| resyncs := u32 (resyncs r + 1) |> else r in
             r <| discarding := false |> <| buf := [] |>
           else r in
  if discarding r then (r, []) else
  if (c <? 0x20) || (0x7e <? c) then
    (if (0 <? length (buf r))%nat then r <| garbled := u32 (garbled r + 1) |> <| discarding := true |> <| buf := [] |> else r, [])
  else if (ESPOS_NMEA0183_LINE_MAX <=? length (buf r))%nat then (r <| overflows := u32 (overflows r + 1) |> <| discarding := true |> <| buf := [] |>, [])
  else (r <| buf := buf r ++ [c] |>, []).

Fixpoint espos_nmea0183_reader_feed (r : espos_nmea0183_reader_t) (data : list Z) : espos_nmea0183_reader_t * list cstr :=
  match data with
  | [] => (r, [])
  | c :: data => let '(r, l) := feed_byte r c in let '(r, l') := espos_nmea0183_reader_feed r data in (r, l ++ l')
  end.

(** * Fields *)

(** [field]: there and not empty. *)
Definition get_field (s : espos_nmea0183_sentence_t) (i : Z) : option cstr :=
  if (i <? 0) || (Z.of_nat (length (field s)) <=? i) then None else
  match nth (Z.to_nat i) (field s) [] with [] => None | f => Some f end.

Definition espos_nmea0183_field_char (s : espos_nmea0183_sentence_t) (i : Z) : Z := match get_field s i with Some f => byte0 f | None => 0 end.

Definition LONG_MAX : Z := 2 ^ 31 - 1.
Definition LONG_MIN : Z := - 2 ^ 31.
Definition isspace (c : Z) : bool := (c =? 32) || ((9 <=? c) && (c <=? 13)).
Fixpoint skip_space (s : cstr) : cstr := match s with c :: s' => if isspace c then skip_space s' else s | [] => [] end.
Fixpoint dec_run (s : cstr) (acc : Z) : Z * cstr := match s with c :: s' => if isdigit c then dec_run s' (acc * 10 + (c - 48)) else (acc, s) | [] => (acc, []) end.
(** [strtol] in base 10: the value, and the rest ([None]: no digits). *)
Definition strtol10 (s : cstr) : Z * option cstr :=
  let s := skip_space s in
  let '(neg, s) := match s with c :: s' => if c =? 45 then (true, s') else if c =? 43 then (false, s') else (false, s) | [] => (false, []) end in
  if isdigit (byte0 s) then
    let '(v, r) := dec_run s 0 in (if neg : bool then Z.max LONG_MIN (- v) else Z.min LONG_MAX v, Some r)
  else (0, None).

Definition field_int (s : espos_nmea0183_sentence_t) (i : Z) : option Z :=
  f ← get_field s i;
  match strtol10 f with
  | (v, Some []) => if (v <? - 2 ^ 31) || (2 ^ 31 - 1 <? v) then None else Some v
  | _ => None
  end.

(** [n] digits, -1 where one is missing. *)
Fixpoint digits_from (p : cstr) (n : nat) (v : Z) : Z :=
  match n with
  | O => v
  | S n => if isdigit (byte0 p) then digits_from (drop 1 p) n (v * 10 + (byte0 p - 48)) else -1
  end.
Definition digits (p : cstr) (n : nat) : Z := digits_from p n 0.

(** The sum fits 64 bits for every year below 292 million; the decoders pass years
    of four digits. *)
Definition mdays : list Z := [31; 28; 31; 30; 31; 30; 31; 31; 30; 31; 30; 31].
Definition espos_nmea0183_unix_ms (year month day ms_of_day : Z) : Z :=
  if (year <? 1970) || (month <? 1) || (12 <? month) || (day <? 1) || (ms_of_day <? 0) || (86401000 <=? ms_of_day) then -1 else
  let leap := ((year mod 4 =? 0) && negb (year mod 100 =? 0)) || (year mod 400 =? 0) in
  if nth (Z.to_nat (month - 1)) mdays 0 + (if (month =? 2) && leap then 1 else 0) <? day then -1 else
  let y := year - (if month <=? 2 then 1 else 0) in
  let era := y / 400 in
  let yoe := y - era * 400 in
  let doy := (153 * (month + (if 2 <? month then -3 else 9)) + 2) / 5 + day - 1 in
  let doe := yoe * 365 + yoe / 4 - yoe / 100 + doy in
  let days := era * 146097 + doe - 719468 in
  days * 86400000 + ms_of_day.

(** ddmmyy: year, month, day. *)
Definition date_ddmmyy (s : espos_nmea0183_sentence_t) (i : Z) : option (Z * Z * Z) :=
  f ← get_field s i;
  if negb (length f =? 6)%nat then None else
  let d := digits f 2 in
  let m := digits (drop 2 f) 2 in
  let yy := digits (drop 4 f) 2 in
  if (d <? 0) || (m <? 0) || (yy <? 0) then None else
  Some (if 80 <=? yy then 1900 + yy else 2000 + yy, m, d).
