(* ===== verification/NmeaProps.v ===== *)
(** Sentences: what the parser accepts is a grammar, a corrupted sentence is refused,
    and what one device sends another reads back. *)
From Stdlib Require Import ZArith Lia String.
From stdpp Require Import base list numbers option.
From S2P Require Import Prelude Nmea.
Open Scope Z_scope.

(** * Text *)

Definition none_of (p : Z -> bool) (s : cstr) : Prop := Forall (fun c => p c = false) s.

Lemma until_all p s : none_of p s -> until p s = s.
Proof. induction 1 as [|c s Hc Hs IH]; cbn; [done|]. by rewrite Hc, IH. Qed.
Lemma until_stop p s c r : none_of p s -> p c = true -> until p (s ++ c :: r) = s.
Proof. intros Hs Hc. induction Hs as [|x s Hx Hs IH]; cbn; [by rewrite Hc|]. by rewrite Hx, IH. Qed.
Lemma until_split p s : none_of p (until p s) /\ (s = until p s \/ exists c r, p c = true /\ s = until p s ++ c :: r).
Proof.
  induction s as [|x s [IH1 IH2]]; cbn; [split; [constructor|by left]|]. destruct (p x) eqn:E; [split; [constructor|right; by exists x, s]|].
  split; [by constructor|]. destruct IH2 as [IH2|(c & r & Hc & IH2)]; [left; by f_equal|right]. exists c, r. split; [done|]. cbn. by f_equal.
Qed.

Lemma none_of_app p a b : none_of p (a ++ b) <-> none_of p a /\ none_of p b.
Proof. apply list.Forall_app. Qed.
Lemma none_of_cons p c b : none_of p (c :: b) <-> p c = false /\ none_of p b.
Proof. apply (list.Forall_cons (fun c => p c = false)). Qed.

(** ** Fields *)

Definition joined (l : list cstr) : cstr := l ≫= fun f => 44 :: f.

Lemma joined_cons f l : joined (f :: l) = 44 :: f ++ joined l.
Proof. done. Qed.

Lemma fields_of s : exists f l, s = f ++ joined l /\ none_of is_comma f /\ Forall (none_of is_comma) l.
Proof.
  induction s as [|c s (f & l & -> & Hf & Hl)]; [exists [], []; repeat constructor|]. destruct (is_comma c) eqn:E.
  - apply Z.eqb_eq in E as ->. exists [], (f :: l). rewrite joined_cons. repeat split; by try constructor.
  - exists (c :: f), l. repeat split; [|done]. by constructor.
Qed.

Lemma until_joined f l : none_of is_comma f -> until is_comma (f ++ joined l) = f.
Proof. intros Hf. destruct l as [|g l]; [by rewrite app_nil_r, until_all|]. by apply until_stop. Qed.
Lemma after_comma_none f : none_of is_comma f -> after_comma f = None.
Proof. induction 1 as [|c f Hc Hf IH]; [done|]. cbn. unfold is_comma in Hc. by rewrite Hc. Qed.
Lemma after_joined f l : none_of is_comma f -> after_comma (f ++ joined l) = match l with [] => None | g :: l => Some (g ++ joined l) end.
Proof.
  intros Hf. destruct l as [|g l]; [rewrite app_nil_r; by apply after_comma_none|]. induction Hf as [|c f Hc Hf IH]; [done|]. cbn [app after_comma]. unfold is_comma in Hc. by rewrite Hc.
Qed.

Lemma split_joined k f l acc : none_of is_comma f -> Forall (none_of is_comma) l ->
  split_fields k (Some (f ++ joined l)) acc = ((length (f :: l) <=? k)%nat, acc ++ take k (f :: l)).
Proof.
  revert f l acc. induction k as [|k IH]; intros f l acc Hf Hl; cbn [split_fields]; [cbn; by rewrite app_nil_r|]. rewrite until_joined, after_joined by done.
  destruct Hl as [|g l Hg Hl]; [destruct k; by cbn|]. rewrite IH by done. cbn [length take]. f_equal. by rewrite <- app_assoc.
Qed.

Lemma split_all p l : match l with [] => p = None | g :: l => p = Some (g ++ joined l) /\ none_of is_comma g /\ Forall (none_of is_comma) l end ->
  split_fields ESPOS_NMEA0183_MAX_FIELDS p [] = ((length l <=? ESPOS_NMEA0183_MAX_FIELDS)%nat, take ESPOS_NMEA0183_MAX_FIELDS l).
Proof. destruct l as [|g l]; [by intros ->|]. intros (-> & Hg & Hl). by rewrite split_joined. Qed.

(** * The grammar *)

Definition address (s : espos_nmea0183_sentence_t) : cstr := if proprietary s then 80 :: type s else talker s ++ type s.
Definition print_sentence (s : espos_nmea0183_sentence_t) : cstr := (if encapsulated s then 33 else 36) :: address s ++ joined (field s).

Definition upper_digit (c : Z) : bool := isupper c || isdigit c.
Definition address_ok (s : espos_nmea0183_sentence_t) : Prop :=
  forallb upper_digit (address s) = true /\
  if proprietary s then talker s = [] /\ (1 <= length (type s) <= 7)%nat
  else length (talker s) = 2%nat /\ length (type s) = 3%nat /\ byte0 (talker s) <> 80.
Definition sentence_ok (s : espos_nmea0183_sentence_t) : Prop :=
  address_ok s /\ (length (field s) <= ESPOS_NMEA0183_MAX_FIELDS)%nat /\ Forall (none_of is_comma) (field s).

Lemma upper_no_comma l : forallb upper_digit l = true -> none_of is_comma l.
Proof.
  intros H. apply list.Forall_forall. intros c Hc. rewrite forallb_forall in H. specialize (H c (proj1 (list_elem_of_In _ _) Hc)). unfold upper_digit, isupper, isdigit, is_comma in *. lia.
Qed.

(** The parser from the body on, on the parts of a body. *)
Lemma parse_body_parts c0 addr l out : none_of is_comma addr -> Forall (none_of is_comma) l ->
  parse_body (c0 :: addr ++ joined l) out =
    let out := out <| encapsulated := c0 =? 33 |> in
    let fields out := (if (length l <=? ESPOS_NMEA0183_MAX_FIELDS)%nat then ESPOS_NMEA0183_OK else ESPOS_NMEA0183_ERR_TOO_MANY_FIELDS, out <| field := take ESPOS_NMEA0183_MAX_FIELDS l |>) in
    if negb (forallb upper_digit addr) then (ESPOS_NMEA0183_ERR_BAD_ADDRESS, out) else
    if (2 <=? length addr)%nat && (byte0 addr =? 80) then
      if (8 <=? length addr - 1)%nat then (ESPOS_NMEA0183_ERR_BAD_ADDRESS, out) else fields (out <| proprietary := true |> <| type := drop 1 addr |>)
    else if (length addr =? 5)%nat then fields (out <| talker := take 2 addr |> <| type := drop 2 addr |>)
    else (ESPOS_NMEA0183_ERR_BAD_ADDRESS, out).
Proof.
  intros Ha Hl. unfold parse_body. change (drop 1 (c0 :: addr ++ joined l)) with (addr ++ joined l). cbn [byte0]. rewrite until_joined, after_joined by done. erewrite (split_all _ l); [done|]. destruct Hl; done.
Qed.

Lemma parse_body_ok c0 addr l chk s : is_start c0 = true -> none_of is_comma addr -> Forall (none_of is_comma) l ->
  parse_body (c0 :: addr ++ joined l) (sentence_zero <| has_checksum := chk |>) = (ESPOS_NMEA0183_OK, s) <->
  sentence_ok s /\ has_checksum s = chk /\ print_sentence s = c0 :: addr ++ joined l.
Proof.
  intros Hc Ha Hl. rewrite parse_body_parts by done. cbv zeta. split.
  - destruct (forallb upper_digit addr) eqn:Eu; [|done]. cbn [negb]. destruct ((2 <=? length addr)%nat && (byte0 addr =? 80)) eqn:Ep.
    + destruct (8 <=? length addr - 1)%nat eqn:E8; [done|]. destruct (length l <=? ESPOS_NMEA0183_MAX_FIELDS)%nat eqn:E; [|done]. intros [= <-].
      destruct addr as [|a addr]; [done|]. apply andb_true_iff in Ep as [E2 Ea]. cbn [byte0] in Ea. apply Z.eqb_eq in Ea as ->. apply Nat.leb_le in E. apply Nat.leb_gt in E8. apply Nat.leb_le in E2. cbn [length] in *.
      rewrite (take_ge _ ESPOS_NMEA0183_MAX_FIELDS) by done. change (drop 1 (80 :: addr)) with addr. repeat split; try done; cbn [field proprietary type has_checksum update]; try lia. unfold print_sentence, address. cbn. f_equal. unfold is_start in Hc. destruct (Z.eqb_spec c0 33); lia.
    + destruct (length addr =? 5)%nat eqn:E5; [|done]. destruct (length l <=? ESPOS_NMEA0183_MAX_FIELDS)%nat eqn:E; [|done]. intros [= <-]. apply Nat.eqb_eq in E5. apply Nat.leb_le in E. rewrite E5 in Ep. cbn [andb Nat.leb] in Ep. apply Z.eqb_neq in Ep.
      rewrite (take_ge _ ESPOS_NMEA0183_MAX_FIELDS) by done. destruct addr as [|a1 [|a2 [|a3 [|a4 [|a5 [|]]]]]]; try done. repeat split; try done. unfold print_sentence, address. cbn. f_equal. unfold is_start in Hc. destruct (Z.eqb_spec c0 33); lia.
  - intros ([[Hu Hp] [Hn Hf]] & Hk & E). unfold print_sentence in E. injection E as E0 E.
    assert (Eaddr : address s = addr /\ field s = l).
    { assert (E1 : until is_comma (address s ++ joined (field s)) = until is_comma (addr ++ joined l)) by by rewrite E. rewrite !until_joined in E1 by (done || by apply upper_no_comma). split; [done|]. rewrite E1 in E. apply app_inv_head in E.
      clear -E Hf Hl. revert l Hl E. induction Hf as [|f fs Hf Hfs IH]; intros [|g gs] Hl E; try done. rewrite !joined_cons in E. injection E as E. inversion_clear Hl as [|? ? Hg Hgs].
      assert (Ef : f = g) by (pose proof (until_joined f fs Hf) as A; rewrite E, until_joined in A by done; done). subst. f_equal. apply IH; [done|]. by apply app_inv_head in E. }
    destruct Eaddr as [<- <-]. rewrite Hu. cbn [negb]. destruct (Nat.leb_spec (length (field s)) ESPOS_NMEA0183_MAX_FIELDS); [|lia]. rewrite (take_ge _ ESPOS_NMEA0183_MAX_FIELDS) by done. unfold address in *.
    destruct s as [tk ty pr en ck fl]. cbn [talker type proprietary encapsulated has_checksum field] in *. subst ck c0. destruct pr.
    + destruct Hp as [-> Hlen]. change (length (80 :: ty)) with (S (length ty)). destruct (Nat.leb_spec 2 (S (length ty))); [|lia]. cbn [byte0 andb Z.eqb Pos.eqb]. destruct (Nat.leb_spec 8 (S (length ty) - 1)); [lia|]. destruct en; reflexivity.
    + destruct Hp as (H2 & H3 & H0). destruct tk as [|t1 [|t2 [|]]]; try done. cbn [byte0 app] in *. destruct (Z.eqb_spec t1 80); [done|]. rewrite andb_false_r. cbn [length]. rewrite H3. destruct en; reflexivity.
Qed.

Lemma hex_val_range c : -1 <= hex_val c < 16.
Proof. unfold hex_val. repeat case_match; lia. Qed.

Lemma hex_byte_value h l : 0 <= hex_val h -> 0 <= hex_val l -> u8 (Z.lor (Z.shiftl (hex_val h) 4) (hex_val l)) = hex_val h * 16 + hex_val l.
Proof. intros Hh Hl. pose proof (hex_val_range h). pose proof (hex_val_range l). rewrite lor_split by lia. unfold u8. rewrite Z.mod_small; lia. Qed.

Definition is_star (c : Z) : bool := c =? 42.
Lemma until_star t : exists body, until (fun c => c =? 42) t = body /\ none_of is_star body /\ (t = body \/ exists r, t = body ++ 42 :: r).
Proof.
  destruct (until_split is_star t) as [H1 H2]. exists (until (fun c => c =? 42) t). split; [done|]. split; [done|]. destruct H2 as [H2|(c & r & Hc & H2)]; [by left|right]. exists r. apply Z.eqb_eq in Hc as ->. exact H2.
Qed.

(** The text of a checksum. *)
Definition checksum_is (h l : Z) (s : espos_nmea0183_sentence_t) : Prop :=
  0 <= hex_val h /\ 0 <= hex_val l /\ espos_nmea0183_checksum (drop 1 (print_sentence s)) = hex_val h * 16 + hex_val l.

(** What the parser accepts of a line without its blanks. *)
Definition accepts (t : cstr) (req : bool) (s : espos_nmea0183_sentence_t) : Prop :=
  sentence_ok s /\ none_of is_star (print_sentence s) /\ (length t <= ESPOS_NMEA0183_LINE_MAX)%nat /\ forallb printable t = true /\
  ((has_checksum s = false /\ req = false /\ t = print_sentence s) \/
   (has_checksum s = true /\ exists h l, t = print_sentence s ++ [42; h; l] /\ checksum_is h l s)).

(** A body is a start character, an address and fields. *)
Lemma body_parts (body : cstr) : is_start (byte0 body) = true -> exists c0 addr l, body = c0 :: addr ++ joined l /\ is_start c0 = true /\ none_of is_comma addr /\ Forall (none_of is_comma) l.
Proof. destruct body as [|c0 b]; [done|]. intros H. destruct (fields_of b) as (addr & l & -> & Ha & Hl). by exists c0, addr, l. Qed.

Lemma start_not_star body r t : t = body \/ t = body ++ 42 :: r -> is_start (byte0 t) = true -> is_start (byte0 body) = true.
Proof. intros [->| ->] H; [done|]. by destruct body. Qed.

Lemma nth_tail3 (b : cstr) x h l k : nth (length b + k) (b ++ [x; h; l]) 0 = nth k [x; h; l] 0.
Proof. rewrite app_nth2 by lia. f_equal. lia. Qed.

Lemma print_start s : is_start (byte0 (print_sentence s)) = true.
Proof. unfold print_sentence. by destruct (encapsulated s). Qed.

(** The parser is its grammar: a line is accepted, with exactly this sentence, iff
    without its blanks it is printable, at most 160 long and the printed sentence (a
    well-formed address, at most 40 fields without commas), alone where no checksum
    is required or followed by a star and the two hex digits of its checksum. *)
Lemma parse_accepts line req s : espos_nmea0183_parse line req = (ESPOS_NMEA0183_OK, s) <-> accepts (trim_end (skip_blanks (c_line line))) req s.
Proof.
  unfold espos_nmea0183_parse. generalize (trim_end (skip_blanks (c_line line))). intros t. split.
  - destruct (Nat.eqb_spec (length t) 0); [done|]. destruct (is_start (byte0 t)) eqn:Es; [|done]. destruct (Nat.ltb_spec ESPOS_NMEA0183_LINE_MAX (length t)) as [|Hlen]; [done|]. destruct (forallb printable t) eqn:Epr; [|done]. cbn [negb].
    destruct (until_star t) as (body & -> & Hst & Ht). assert (Hb : is_start (byte0 body) = true). { destruct Ht as [Ht|[r Ht]]; [apply (start_not_star body [] t); [by left|done]|apply (start_not_star body r t); [by right|done]]. }
    destruct (body_parts body Hb) as (c0 & addr & l & Eb & H0 & Ha & Hl). destruct (Nat.ltb_spec (length body) (length t)) as [Hlt|Hge].
    + destruct Ht as [->|[r Ht]]; [lia|]. destruct (Nat.eqb_spec (length body + 3) (length t)) as [E3|]; [|done]. subst t. rewrite length_app in E3. destruct r as [|h [|lo [|]]]; cbn in E3; try lia. cbn [negb]. rewrite !nth_tail3. cbn [nth].
      destruct (Z.ltb_spec (hex_val h) 0); [done|]. destruct (Z.ltb_spec (hex_val lo) 0); [done|]. cbn [orb]. rewrite hex_byte_value by done. destruct (Z.eqb_spec (espos_nmea0183_checksum (drop 1 body)) (hex_val h * 16 + hex_val lo)) as [Ec|]; [|done]. cbn [negb].
      rewrite Eb at 1. intros (Hs & Hk & Ep)%parse_body_ok; [|done..]. rewrite <- Eb in Ep. split; [done|]. rewrite Ep. repeat (split; [done|]). right. split; [done|]. exists h, lo. split; [done|]. split; [done|]. split; [done|]. by rewrite Ep.
    + destruct Ht as [->|[r ->]]; [|rewrite length_app in Hge; cbn in Hge; lia]. destruct req; [done|]. rewrite Eb at 1. change sentence_zero with (sentence_zero <| has_checksum := false |>). intros (Hs & Hk & Ep)%parse_body_ok; [|done..].
      rewrite <- Eb in Ep. split; [done|]. rewrite Ep. repeat (split; [done|]). by left.
  - intros (Hs & Hst & Hlen & Hpr & Ht). pose proof (print_start s) as Hp. set (b := print_sentence s) in *. assert (Hb : b <> []) by (by destruct b).
    destruct (body_parts b Hp) as (c0 & addr & l & Eb & H0 & Ha & Hl). assert (Hne : (length b <> 0)%nat) by (by destruct b).
    assert (Hbody : forall chk, has_checksum s = chk -> parse_body b (sentence_zero <| has_checksum := chk |>) = (ESPOS_NMEA0183_OK, s)). { intros chk Hk. rewrite Eb. apply parse_body_ok; [done..|]. split; [done|]. split; [done|]. fold b. exact Eb. }
    destruct Ht as [(Hk & -> & ->)|(Hk & h & lo & -> & Hh & Hlo & Hc)].
    + destruct (Nat.eqb_spec (length b) 0); [done|]. rewrite Hp. cbn [negb]. destruct (Nat.ltb_spec ESPOS_NMEA0183_LINE_MAX (length b)); [lia|]. rewrite Hpr. cbn [negb]. rewrite (until_all (fun c => c =? 42)) by done. rewrite Nat.ltb_irrefl. by apply Hbody.
    + destruct (Nat.eqb_spec (length (b ++ [42; h; lo])) 0) as [E|_]; [rewrite length_app in E; cbn in E; lia|]. assert (Es : is_start (byte0 (b ++ [42; h; lo])) = true) by (by destruct b). rewrite Es. cbn [negb]. destruct (Nat.ltb_spec ESPOS_NMEA0183_LINE_MAX (length (b ++ [42; h; lo]))); [lia|]. rewrite Hpr. cbn [negb].
      rewrite (until_stop (fun c => c =? 42) b 42 [h; lo]) by done. rewrite length_app. cbn [length]. destruct (Nat.ltb_spec (length b) (length b + 3)); [|lia]. rewrite Nat.eqb_refl. cbn [negb]. rewrite !nth_tail3. cbn [nth].
      destruct (Z.ltb_spec (hex_val h) 0); [lia|]. destruct (Z.ltb_spec (hex_val lo) 0); [lia|]. cbn [orb]. rewrite hex_byte_value by done. fold b in Hc. rewrite Hc, Z.eqb_refl. cbn [negb]. by apply Hbody.
Qed.

(** * A corrupted sentence *)

Lemma checksum_app a b : Forall (fun c => 0 <= c < 256) (a ++ b) -> espos_nmea0183_checksum (a ++ b) = Z.lxor (espos_nmea0183_checksum a) (espos_nmea0183_checksum b) /\ 0 <= espos_nmea0183_checksum (a ++ b) < 256.
Proof.
  assert (Hx : forall x y, 0 <= x < 256 -> 0 <= y < 256 -> 0 <= Z.lxor x y < 256).
  { intros x y Hx Hy. split; [apply Z.lxor_nonneg; lia|]. destruct (Z.eq_dec (Z.lxor x y) 0) as [->|]; [lia|]. change 256 with (2 ^ 8). apply Z.log2_lt_pow2; [assert (0 <= Z.lxor x y) by (apply Z.lxor_nonneg; lia); lia|].
    eapply Z.le_lt_trans; [apply Z.log2_lxor; lia|]. apply Z.max_lub_lt; (destruct (Z.le_gt_cases x 0); destruct (Z.le_gt_cases y 0); try (rewrite Z.log2_nonpos by lia; lia); apply Z.log2_lt_pow2; lia). }
  assert (Hf : forall l s, 0 <= s < 256 -> Forall (fun c => 0 <= c < 256) l -> foldl (fun sum c => u8 (Z.lxor sum (u8 c))) s l = Z.lxor s (espos_nmea0183_checksum l) /\ 0 <= espos_nmea0183_checksum l < 256).
  { unfold espos_nmea0183_checksum. induction l as [|c l IH]; intros s Hs Hl; cbn [foldl]; [rewrite Z.lxor_0_r; lia|]. inversion_clear Hl as [|? ? Hc Hl']. assert (Eu : forall z, 0 <= z < 256 -> u8 z = z) by (intros; unfold u8; rewrite Z.mod_small; lia).
    rewrite !(Eu c), Z.lxor_0_l, !Eu by auto. destruct (IH (Z.lxor s c)) as [-> Hr]; auto. destruct (IH c) as [-> _]; auto. split; [by rewrite Z.lxor_assoc|auto]. }
  intros H. apply list.Forall_app in H as [Ha Hb]. destruct (Hf a 0) as [_ Ra]; [lia|done|]. destruct (Hf b (espos_nmea0183_checksum a)) as [Eb Rb]; [done..|]. assert (E : espos_nmea0183_checksum (a ++ b) = Z.lxor (espos_nmea0183_checksum a) (espos_nmea0183_checksum b)) by (unfold espos_nmea0183_checksum at 1; rewrite foldl_app; exact Eb).
  split; [done|]. rewrite E. by apply Hx.
Qed.

Lemma checksum_one a c b : Forall (fun c => 0 <= c < 256) (a ++ c :: b) -> espos_nmea0183_checksum (a ++ c :: b) = Z.lxor c (Z.lxor (espos_nmea0183_checksum a) (espos_nmea0183_checksum b)).
Proof.
  intros H. destruct (checksum_app a (c :: b) H) as [-> _]. apply list.Forall_app in H as [Ha Hcb]. destruct (checksum_app [c] b Hcb) as [E _]. cbn [app] in E. rewrite E. inversion_clear Hcb as [|? ? Hc Hb].
  assert (Ec : espos_nmea0183_checksum [c] = c) by (unfold espos_nmea0183_checksum; cbn [foldl]; rewrite Z.lxor_0_l; unfold u8; rewrite !Z.mod_small by (try rewrite Z.mod_small; lia); done).
  rewrite Ec. rewrite <- !Z.lxor_assoc. f_equal. apply Z.lxor_comm.
Qed.

Lemma trim_end_app a b : trim_end b <> [] -> trim_end (a ++ b) = a ++ trim_end b.
Proof. intros H. induction a as [|c a IH]; [done|]. cbn [app trim_end]. rewrite IH. destruct (a ++ trim_end b) eqn:E; [|done]. apply app_eq_nil in E as [_ E]. done. Qed.
Lemma trim_end_keeps c s : is_eol c || is_blank c = false -> c ∈ s -> c ∈ trim_end s.
Proof.
  intros Hc. induction s as [|x s IH]; [by intros ?%not_elem_of_nil|]. rewrite elem_of_cons. intros [<-|Hin]; cbn [trim_end].
  - rewrite Hc. destruct (trim_end s); left.
  - specialize (IH Hin). destruct (trim_end s); [by apply not_elem_of_nil in IH|by right].
Qed.

(** Where the star of a trimmed line is. *)
Lemma star_place (B : cstr) h l t i : none_of is_star B -> 0 <= hex_val h -> 0 <= hex_val l -> t = B ++ [42; h; l] -> t !! i = Some 42 -> i = length B.
Proof.
  intros HB Hh Hl -> Hi. destruct (Nat.lt_trichotomy i (length B)) as [Hlt|[->|Hgt]]; [|done|].
  - rewrite lookup_app_l in Hi by done. unfold none_of in HB. rewrite list.Forall_lookup in HB. by specialize (HB i 42 Hi).
  - rewrite lookup_app_r in Hi by lia. destruct (i - length B)%nat as [|[|[|]]] eqn:E; try lia; cbn in Hi; simplify_eq; by vm_compute in Hh || by vm_compute in Hl.
Qed.

Lemma accepted_body pre c y z req s : accepts (pre ++ c :: y ++ 42 :: z) req s -> exists h l, z = [h; l] /\ print_sentence s = pre ++ c :: y /\ checksum_is h l s.
Proof.
  intros (_ & Hst & _ & _ & [(_ & _ & E)|(_ & h & l & E & Hh & Hl & Hc)]).
  - exfalso. rewrite <- E in Hst. unfold none_of in Hst. rewrite list.Forall_forall in Hst. assert (Hin : 42 ∈ pre ++ c :: y ++ 42 :: z) by (rewrite elem_of_app, elem_of_cons, elem_of_app, elem_of_cons; tauto). by specialize (Hst 42 Hin).
  - assert (Ei : (length pre + 1 + length y)%nat = length (print_sentence s)).
    { eapply star_place; [exact Hst|exact Hh|exact Hl|exact E|]. rewrite lookup_app_r by lia. replace (length pre + 1 + length y - length pre)%nat with (S (length y)) by lia. cbn. by apply list_lookup_middle. }
    change (pre ++ c :: y ++ 42 :: z) with (pre ++ (c :: y) ++ 42 :: z) in E. rewrite app_assoc in E. apply app_inj_1 in E as [E1 E2]; [|rewrite length_app; cbn [length]; lia]. injection E2 as E2. exists h, l. done.
Qed.

Lemma accepted_bytes t req s : accepts t req s -> Forall (fun c => 0 <= c < 256) t.
Proof. intros (_ & _ & _ & Hp & _). apply list.Forall_forall. intros c Hc. rewrite forallb_forall in Hp. specialize (Hp c (proj1 (list_elem_of_In _ _) Hc)). unfold printable in Hp. lia. Qed.

Lemma one_byte_changes pre c c' y z req req' s s' : pre <> [] -> c <> c' -> accepts (pre ++ c :: y ++ 42 :: z) req s -> accepts (pre ++ c' :: y ++ 42 :: z) req' s' -> False.
Proof.
  intros Hpre Hne H H'. pose proof (accepted_bytes _ _ _ H) as Hb. pose proof (accepted_bytes _ _ _ H') as Hb'. apply accepted_body in H as (h & l & -> & Ep & _ & _ & Hc). apply accepted_body in H' as (h' & l' & [= <- <-] & Ep' & _ & _ & Hc').
  rewrite Ep in Hc. rewrite Ep' in Hc'. rewrite <- Hc in Hc'. destruct pre as [|c0 pre]; [done|]. cbn [app] in *. change (drop 1 (c0 :: ?x)) with x in Hc'. inversion_clear Hb as [|? ? _ Hb1]. inversion_clear Hb' as [|? ? _ Hb1'].
  rewrite app_comm_cons, app_assoc in Hb1, Hb1'. apply list.Forall_app in Hb1 as [Hb1 _]. apply list.Forall_app in Hb1' as [Hb1' _]. rewrite !checksum_one in Hc' by done. apply Hne.
  rewrite <- (Z.lxor_0_r c), <- (Z.lxor_nilpotent (Z.lxor (espos_nmea0183_checksum pre) (espos_nmea0183_checksum y))), <- Z.lxor_assoc, <- Hc', Z.lxor_assoc, Z.lxor_nilpotent. apply Z.lxor_0_r.
Qed.

(** C21. The parser is its grammar: a line (up to a NUL, where it ends) is accepted, with exactly this sentence, iff
    without its blanks it is printable, at most 160 long, and the printed sentence (a
    well-formed address and at most 40 fields without commas): alone where no checksum
    is required, or followed by a star and the two hex digits of its checksum. *)
Theorem nmea_parse_exact line req s : espos_nmea0183_parse line req = (ESPOS_NMEA0183_OK, s) <-> accepts (trim_end (skip_blanks (c_line line))) req s.
Proof. apply parse_accepts. Qed.

Lemma started_line pre c post : is_start (byte0 pre) = true -> 42 ∈ post -> trim_end (skip_blanks (pre ++ c :: post)) = pre ++ c :: trim_end post.
Proof.
  intros Hs Hin. destruct pre as [|p pre]; [done|]. cbn [byte0] in Hs. cbn [app skip_blanks]. assert (Hb : is_blank p = false) by (unfold is_start, is_blank in *; lia). rewrite Hb.
  change (p :: pre ++ c :: post) with ((p :: pre) ++ [c] ++ post). rewrite !trim_end_app; try done.
  - intros E. pose proof (trim_end_keeps 42 post eq_refl Hin) as H. rewrite E in H. by apply not_elem_of_nil in H.
  - rewrite trim_end_app; [done|]. intros E. pose proof (trim_end_keeps 42 post eq_refl Hin) as H. rewrite E in H. by apply not_elem_of_nil in H.
Qed.

Lemma no_nul_line s : 0 ∉ s -> c_line s = s.
Proof. intros Hs. apply until_all. apply list.Forall_forall. intros c Hc. unfold is_nul. destruct (Z.eqb_spec c 0); [|done]. by subst. Qed.

Lemma printable_no_nul s : forallb printable s = true -> 0 ∉ s.
Proof. intros Hp Hin. rewrite forallb_forall in Hp. apply list_elem_of_In in Hin. by specialize (Hp 0 Hin). Qed.

Lemma nul_cuts pre post : 0 ∉ pre -> c_line (pre ++ 0 :: post) = pre.
Proof. intros Hs. apply until_stop; [|done]. apply list.Forall_forall. intros c Hc. unfold is_nul. destruct (Z.eqb_spec c 0); [|done]. by subst. Qed.

Lemma trim_end_in c s : c ∈ trim_end s -> c ∈ s.
Proof.
  induction s as [|x s IH]; [done|]. cbn [trim_end]. rewrite elem_of_cons. destruct (trim_end s) as [|y t]; [destruct (_ || _); [by intros ?%elem_of_nil|]; intros ->%list_elem_of_singleton; by left|].
  intros [->|Hin]%elem_of_cons; [by left|right; by apply IH].
Qed.
Lemma skip_blanks_in c s : c ∈ skip_blanks s -> c ∈ s.
Proof. induction s as [|x s IH]; [done|]. cbn [skip_blanks]. destruct (is_blank x); [|done]. intros H. right. by apply IH. Qed.

(** C24. A sentence in which one byte between its start and its star was changed is
    refused, whatever the byte became (a comma, a star, a start character, a control
    character); only a NUL, which ends the line, can leave a shorter line that is
    accepted, and only where no checksum is required. *)
Theorem nmea_corruption_refused pre c c' post req req' s : espos_nmea0183_parse (pre ++ c :: post) req = (ESPOS_NMEA0183_OK, s) ->
  is_start (byte0 pre) = true -> 42 ∈ post -> 0 ∉ pre ++ c :: post -> c' <> c ->
  (c' <> 0 \/ req' = true -> (espos_nmea0183_parse (pre ++ c' :: post) req').1 <> ESPOS_NMEA0183_OK) /\
  (c' = 0 -> espos_nmea0183_parse (pre ++ c' :: post) req' = espos_nmea0183_parse pre req').
Proof.
  intros H Hs Hin Hnul Hne. apply parse_accepts in H. rewrite no_nul_line, started_line in H by done. rewrite elem_of_app, elem_of_cons in Hnul.
  pose proof (trim_end_keeps 42 post eq_refl Hin) as Hin2. apply list_elem_of_split in Hin2 as (y & z & Ey). rewrite Ey in H. destruct (Z.eq_dec c' 0) as [->|Hz].
  - assert (Ecut : c_line (pre ++ 0 :: post) = pre) by (apply nul_cuts; tauto). assert (Eq : espos_nmea0183_parse (pre ++ 0 :: post) req' = espos_nmea0183_parse pre req').
    { unfold espos_nmea0183_parse. rewrite Ecut, (no_nul_line pre) by tauto. done. }
    split; [|done]. intros [Hc0| ->]; [done|]. intros E. destruct (espos_nmea0183_parse (pre ++ 0 :: post) true) as [err s'] eqn:Ep. cbn in E. subst err. apply parse_accepts in Ep. rewrite Ecut in Ep.
    destruct Ep as (_ & _ & _ & _ & [(_ & ? & _)|(_ & h & l & Et & _)]); [done|]. pose proof H as (_ & Hst & _). apply accepted_body in H as (h' & l' & _ & Eb & _). rewrite Eb in Hst.
    assert (H42 : 42 ∈ pre) by (apply skip_blanks_in, trim_end_in; rewrite Et; apply elem_of_app; right; left). apply list.Forall_app in Hst as [Hst _]. rewrite list.Forall_forall in Hst. by specialize (Hst 42 H42).
  - split; [|done]. intros _ H'. destruct (espos_nmea0183_parse (pre ++ c' :: post) req') as [err s'] eqn:E. cbn in H'. subst err. apply parse_accepts in E. rewrite no_nul_line, started_line in E; [|done|done|rewrite elem_of_app, elem_of_cons; intuition congruence].
    rewrite Ey in E. eapply one_byte_changes; [|exact (not_eq_sym Hne)|exact H|exact E]. by destruct pre.
Qed.

(** * The stream *)

Lemma feed_app r a b : espos_nmea0183_reader_feed r (a ++ b) =
  let '(r1, l1) := espos_nmea0183_reader_feed r a in let '(r2, l2) := espos_nmea0183_reader_feed r1 b in (r2, l1 ++ l2).
Proof.
  revert r. induction a as [|c a IH]; intros r; cbn [app espos_nmea0183_reader_feed]; [by destruct (espos_nmea0183_reader_feed r b)|]. destruct (feed_byte r c) as [r1 l1]. rewrite IH. destruct (espos_nmea0183_reader_feed r1 a) as [r2 l2].
  destruct (espos_nmea0183_reader_feed r2 b) as [r3 l3]. by rewrite app_assoc.
Qed.

(** A character of the middle of a line. *)
Definition plain (c : Z) : bool := printable c && negb (is_start c).

Lemma plain_not_eol c : printable c = true -> is_eol c = false.
Proof. unfold printable, is_eol. lia. Qed.

Lemma feed_plain r s : discarding r = false -> forallb plain s = true -> (length (buf r) + length s <= ESPOS_NMEA0183_LINE_MAX)%nat -> espos_nmea0183_reader_feed r s = (r <| buf := buf r ++ s |>, []).
Proof.
  revert r. induction s as [|c s IH]; intros r Hd Hp Hl; cbn [espos_nmea0183_reader_feed]; [by destruct r; cbn; rewrite app_nil_r|]. cbn [forallb length] in *. apply andb_true_iff in Hp as [Hc Hp]. unfold plain in Hc. apply andb_true_iff in Hc as [Hc Hs]. apply negb_true_iff in Hs.
  unfold feed_byte. rewrite plain_not_eol, Hs, Hd by done. assert (E : (c <? 0x20) || (0x7e <? c) = false) by (unfold printable in Hc; lia). rewrite E. destruct (Nat.leb_spec ESPOS_NMEA0183_LINE_MAX (length (buf r))); [lia|].
  rewrite IH; cbn [buf discarding update]; [|done|done|cbn; rewrite length_app; cbn; lia]. cbn. by rewrite <- app_assoc.
Qed.

(** A line from its start character on, whatever came before it. *)
Lemma feed_line r c0 s : is_start c0 = true -> forallb plain s = true -> (length s < ESPOS_NMEA0183_LINE_MAX)%nat -> (espos_nmea0183_reader_feed r (c0 :: s ++ [13; 10])).2 = [c0 :: s].
Proof.
  intros H0 Hs Hl. cbn [espos_nmea0183_reader_feed]. unfold feed_byte at 1. assert (He : is_eol c0 = false) by (unfold is_start, is_eol in *; lia). rewrite He, H0.
  set (r1 := (if _ : bool then _ else r) <| discarding := false |> <| buf := [] |>). assert (E1 : discarding r1 = false /\ buf r1 = []) by (unfold r1; split; reflexivity). destruct E1 as [E1 E2]. clearbody r1. rewrite E1, E2. assert (E : (c0 <? 0x20) || (0x7e <? c0) = false) by (unfold is_start in H0; lia). rewrite E. cbn [length Nat.leb ESPOS_NMEA0183_LINE_MAX].
  rewrite feed_app, feed_plain by (first [done|cbn; lia]). cbn [espos_nmea0183_reader_feed]. unfold feed_byte. cbn. rewrite E1. cbn. done.
Qed.

(** ** From one device to another *)

Lemma hex_upper_val n : 0 <= n < 16 -> hex_val (hex_upper n) = n /\ plain (hex_upper n) = true /\ is_eol (hex_upper n) || is_blank (hex_upper n) = false.
Proof.
  intros Hn. assert (H : (48 <= hex_upper n <= 57 /\ hex_upper n = 48 + n) \/ (65 <= hex_upper n <= 70 /\ hex_upper n = 55 + n)) by (unfold hex_upper; destruct (Z.ltb_spec n 10); lia).
  unfold hex_val, plain, printable, is_start, is_eol, is_blank. repeat split; repeat case_match; lia.
Qed.

Lemma fmt_hex b : 0 <= b < 256 -> exists h l, fmt_02X b = [h; l] /\ hex_val h * 16 + hex_val l = b /\ 0 <= hex_val h /\ 0 <= hex_val l /\ plain h = true /\ plain l = true /\ is_eol l || is_blank l = false.
Proof.
  intros Hb. assert (Es : Z.shiftr b 4 = b / 16) by (by rewrite Z.shiftr_div_pow2). assert (El : Z.land b 15 = b mod 16) by (change 15 with (Z.ones 4); by rewrite Z.land_ones). unfold fmt_02X. rewrite Es, El.
  assert (H1 : 0 <= b / 16 < 16) by div_lia. assert (H2 : 0 <= b mod 16 < 16) by div_lia. destruct (hex_upper_val _ H1) as (E1 & P1 & _), (hex_upper_val _ H2) as (E2 & P2 & Q2).
  exists (hex_upper (b / 16)), (hex_upper (b mod 16)). rewrite E1, E2. repeat split; try done; try lia. pose proof (Z.div_mod b 16). lia.
Qed.

(** What may be sent: a well-formed sentence of printable text, without stars, and
    with no start character inside. *)
Definition sendable (s : espos_nmea0183_sentence_t) : Prop :=
  sentence_ok s /\ none_of is_star (print_sentence s) /\ forallb plain (drop 1 (print_sentence s)) = true /\ (length (print_sentence s) + 3 <= ESPOS_NMEA0183_LINE_MAX)%nat.

Lemma print_long s : sentence_ok s -> (2 <= length (print_sentence s))%nat.
Proof. intros [[_ Ha] _]. unfold print_sentence, address. cbn [length]. rewrite length_app. destruct (proprietary s); [cbn; lia|]. rewrite length_app. lia. Qed.

Lemma plain_printable l : forallb plain l = true -> forallb printable l = true.
Proof. intros H. apply forallb_forall. intros c Hc. rewrite forallb_forall in H. specialize (H c Hc). unfold plain in H. by apply andb_true_iff in H as [H _]. Qed.

Lemma printable_bytes l : forallb printable l = true -> Forall (fun c => 0 <= c < 256) l.
Proof. intros Hp. apply list.Forall_forall. intros c Hc. rewrite forallb_forall in Hp. specialize (Hp c (proj1 (list_elem_of_In _ _) Hc)). unfold printable in Hp. lia. Qed.

Lemma print_marked s b : print_sentence (s <| has_checksum := b |>) = print_sentence s.
Proof. done. Qed.

(** C22. What one device sends another reads back: a sentence printed and finished with its
    checksum, fed to a reader in any state (in the middle of a line, of noise, of a
    line being dropped), comes out as one line, and the parser, requiring the
    checksum, gives back the sentence. *)
Theorem nmea_round_trip s n (r : espos_nmea0183_reader_t) : sendable s -> (length (print_sentence s) + 6 <= n)%nat ->
  exists text line, espos_nmea0183_finish (print_sentence s) n = (length text, Some text) /\ (espos_nmea0183_reader_feed r text).2 = [line] /\
    espos_nmea0183_parse line true = (ESPOS_NMEA0183_OK, s <| has_checksum := true |>).
Proof.
  intros (Hok & Hst & Hpl & Hlen) Hn. pose proof (print_start s) as Hs. pose proof (print_long s Hok) as H2. pose proof (print_marked s true) as Em. set (p := print_sentence s) in *. destruct p as [|c0 b] eqn:Ep; [done|]. cbn [byte0] in Hs. change (drop 1 (c0 :: b)) with b in Hpl.
  pose proof (plain_printable _ Hpl) as Hpr. assert (Hb : Forall (fun c => 0 <= c < 256) b) by by apply printable_bytes. assert (Hc : 0 <= espos_nmea0183_checksum b < 256) by (destruct (checksum_app b [] ltac:(by rewrite app_nil_r)) as [_ H]; by rewrite app_nil_r in H).
  destruct (fmt_hex _ Hc) as (h & l & Eh & Ev & Hh & Hl & Ph & Pl & Ql). assert (H0 : printable c0 = true) by (unfold is_start, printable in *; lia).
  exists ((c0 :: b) ++ [42] ++ [h; l] ++ [13; 10]), ((c0 :: b) ++ [42; h; l]). split; [|split].
  - unfold espos_nmea0183_finish. rewrite (no_nul_line (c0 :: b)) by (apply printable_no_nul; cbn [forallb]; by rewrite H0, Hpr). cbn [byte0]. rewrite Hs. cbn [negb]. rewrite (until_all (fun c => (c =? 42) || is_eol c)).
    2:{ apply none_of_cons in Hst as [Hst0 Hst]. constructor; [unfold is_start, is_eol, is_star in *; lia|]. clear -Hst Hpr. induction Hst as [|c b Hc Hb IH]; [constructor|]. cbn [forallb] in Hpr. apply andb_true_iff in Hpr as [H1 H3]. constructor; [rewrite plain_not_eol by done; unfold is_star in Hc; by rewrite Hc|auto]. }
    destruct (Nat.ltb_spec (length (c0 :: b)) 2); [lia|]. destruct (Nat.ltb_spec ESPOS_NMEA0183_LINE_MAX (length (c0 :: b) + 3)); [lia|]. destruct (Nat.ltb_spec n (length (c0 :: b) + 6)); [lia|]. change (drop 1 (c0 :: b)) with b. rewrite Eh. f_equal. rewrite !length_app. cbn [length]. lia.
  - replace ((c0 :: b) ++ [42] ++ [h; l] ++ [13; 10]) with (c0 :: (b ++ [42; h; l]) ++ [13; 10]) by (by rewrite <- app_assoc). apply feed_line; [done|rewrite forallb_app, Hpl; cbn; by rewrite Ph, Pl|rewrite length_app; cbn [length] in *; lia].
  - apply parse_accepts. assert (Et : trim_end (skip_blanks ((c0 :: b) ++ [42; h; l])) = (c0 :: b) ++ [42; h; l]).
    { cbn [app skip_blanks]. assert (Hbl : is_blank c0 = false) by (unfold is_start, is_blank in *; lia). rewrite Hbl. change (c0 :: b ++ [42; h; l]) with ((c0 :: b) ++ [42; h; l]). assert (Tl : trim_end [42; h; l] = [42; h; l]) by (cbn; by rewrite Ql). rewrite trim_end_app; by rewrite Tl. }
    assert (Hall : forallb printable ((c0 :: b) ++ [42; h; l]) = true).
    { rewrite forallb_app. cbn [forallb]. rewrite H0, Hpr. unfold plain in Ph, Pl. apply andb_true_iff in Ph as [-> _], Pl as [-> _]. done. }
    rewrite no_nul_line, Et by (by apply printable_no_nul). split; [exact Hok|]. rewrite Em. split; [done|]. split; [rewrite length_app; cbn [length] in *; lia|]. split.
    + exact Hall.
    + right. split; [done|]. exists h, l. split; [done|]. split; [done|]. split; [done|]. rewrite Em. change (drop 1 (c0 :: b)) with b. lia.
Qed.
