(* ===== verification/NmeaReader.v ===== *)
(** The byte stream: every segment of it has one fate, and the reader gives each its
    own, however the bytes arrive. *)
From Stdlib Require Import ZArith Lia String.
From stdpp Require Import base list numbers option.
From S2P Require Import Prelude Nmea NmeaProps TimePolicy TimeProps.
Open Scope Z_scope.

(** * The reference *)

(** How a segment ends: at a line end, at the start character of the next, or not yet. *)
Inductive ending := AtEol | AtStart | Open.
(** The stream cut at line ends and before start characters; [seg] is the first
    segment so far. *)
Fixpoint segments (seg : cstr) (stream : list Z) : list (cstr * ending) :=
  match stream with
  | [] => [(seg, Open)]
  | c :: stream => if is_eol c then (seg, AtEol) :: segments [] stream else if is_start c then (seg, AtStart) :: segments [c] stream else segments (seg ++ [c]) stream
  end.

Inductive fate := Noise | Clean | Garbled | TooLong.
#[export] Instance fate_eq_dec : EqDecision fate.
Proof. solve_decision. Defined.

(** A segment without the noise before it; its fate. *)
Fixpoint skip_noise (s : cstr) : cstr := match s with c :: s' => if printable c then s else skip_noise s' | [] => [] end.
Definition fate_of (seg : cstr) : fate :=
  let s := skip_noise seg in
  let p := until (fun c => negb (printable c)) s in
  match s with
  | [] => Noise
  | _ => if (ESPOS_NMEA0183_LINE_MAX <? length p)%nat then TooLong else if (length p <? length s)%nat then Garbled else Clean
  end.
Definition has_fate (f : fate) (seg : cstr) : bool := bool_decide (fate_of seg = f).
Definition ends (e : ending) (x : cstr * ending) : bool := match e, x.2 with AtEol, AtEol | AtStart, AtStart => true | _, _ => false end.

(** The lines: clean segments that end at a line end. *)
Definition lines_of (l : list (cstr * ending)) : list cstr := l ≫= fun x => if ends AtEol x && has_fate Clean x.1 then [skip_noise x.1] else [].
Definition count (p : cstr * ending -> bool) (l : list (cstr * ending)) : Z := foldr (fun x n => (if p x then 1 else 0) + n) 0 l.

(** * The reader inside a segment *)

Definition within (r : espos_nmea0183_reader_t) (seg : cstr) : Prop :=
  match fate_of seg with
  | Noise => buf r = [] /\ discarding r = false
  | Clean => buf r = skip_noise seg /\ discarding r = false
  | Garbled | TooLong => buf r = [] /\ discarding r = true
  end.

Lemma skip_noise_nil s c : skip_noise s = [] -> skip_noise (s ++ [c]) = if printable c then [c] else [].
Proof. induction s as [|x s IH]; cbn; [by destruct (printable c)|]. by destruct (printable x). Qed.
Lemma skip_noise_cons s c : skip_noise s <> [] -> skip_noise (s ++ [c]) = skip_noise s ++ [c].
Proof. induction s as [|x s IH]; cbn; [done|]. by destruct (printable x). Qed.

Lemma until_snoc p s c : until p (s ++ [c]) = if (length (until p s) <? length s)%nat then until p s else if p c then s else s ++ [c].
Proof.
  induction s as [|x s IH]; cbn [app until]; [cbn; by destruct (p c)|]. destruct (p x); cbn [length]; [done|]. rewrite IH. change (S (length (until p s)) <? S (length s))%nat with (length (until p s) <? length s)%nat. destruct (_ <? _)%nat; [done|by destruct (p c)].
Qed.
Lemma until_full p s : (length (until p s) <? length s)%nat = false -> until p s = s.
Proof. induction s as [|x s IH]; cbn; [done|]. destruct (p x); cbn; [done|]. intros H. f_equal. by apply IH. Qed.
Lemma until_short p s : (length (until p s) <= length s)%nat.
Proof. induction s as [|x s IH]; cbn; [lia|]. destruct (p x); cbn; lia. Qed.

(** One more character of a segment. *)
Lemma fate_snoc seg c : fate_of (seg ++ [c]) =
  match fate_of seg with
  | Noise => if printable c then Clean else Noise
  | Clean => if negb (printable c) then Garbled else if (ESPOS_NMEA0183_LINE_MAX <=? length (skip_noise seg))%nat then TooLong else Clean
  | f => f
  end.
Proof.
  unfold fate_of. destruct (skip_noise seg) as [|x s] eqn:E; [rewrite skip_noise_nil by done; destruct (printable c) eqn:Ec; [cbn; by rewrite Ec|done]|].
  rewrite skip_noise_cons by (by rewrite E). rewrite E. set (w := x :: s). change (match w ++ [c] with [] => Noise | _ :: _ => ?a end) with a. rewrite until_snoc. pose proof (until_short (fun c => negb (printable c)) w) as Hs. destruct (length (until _ w) <? length w)%nat eqn:El.
  - rewrite length_app. cbn [length]. destruct (Nat.ltb_spec ESPOS_NMEA0183_LINE_MAX (length (until (fun c => negb (printable c)) w))); [done|]. destruct (Nat.ltb_spec (length (until (fun c => negb (printable c)) w)) (length w + 1)); [done|lia].
  - rewrite (until_full _ _ El). destruct (printable c) eqn:Ec; cbn [negb]; rewrite !length_app; cbn [length].
    + destruct (Nat.ltb_spec ESPOS_NMEA0183_LINE_MAX (length w)); [destruct (Nat.ltb_spec ESPOS_NMEA0183_LINE_MAX (length w + 1)); [done|lia]|]. rewrite Nat.ltb_irrefl. destruct (Nat.ltb_spec ESPOS_NMEA0183_LINE_MAX (length w + 1)); destruct (Nat.leb_spec ESPOS_NMEA0183_LINE_MAX (length w)); (done || lia).
    + destruct (Nat.ltb_spec ESPOS_NMEA0183_LINE_MAX (length w)); [done|]. destruct (Nat.ltb_spec (length w) (length w + 1)); [done|lia].
Qed.

(** What the counters stand at, and what the rest of the stream adds to them. *)
Definition counts (r : espos_nmea0183_reader_t) (a b c d : Z) : Prop := lines r = u32 a /\ resyncs r = u32 b /\ garbled r = u32 c /\ overflows r = u32 d.
Definition one (b : bool) : Z := if b then 1 else 0.

Lemma u32_step x y : u32 (u32 x + y) = u32 (x + y).
Proof. unfold u32. by rewrite Zplus_mod_idemp_l. Qed.

Lemma fate_noise seg : fate_of seg = Noise -> skip_noise seg = [].
Proof. unfold fate_of. destruct (skip_noise seg); [done|]. destruct (_ <? _)%nat; [done|]. by destruct (_ <? _)%nat. Qed.
Lemma fate_clean seg : fate_of seg = Clean -> exists x s, skip_noise seg = x :: s.
Proof. unfold fate_of. destruct (skip_noise seg) as [|x s]; [done|]. intros _. by exists x, s. Qed.

Lemma counts_same r a b c d a' b' c' d' : counts r a b c d -> a = a' -> b = b' -> c = c' -> d = d' -> counts r a' b' c' d'.
Proof. by intros ? -> -> -> ->. Qed.

Lemma byte_eol r seg c a b g o : within r seg -> counts r a b g o -> is_eol c = true ->
  let '(r', l) := feed_byte r c in within r' [] /\ counts r' (a + one (has_fate Clean seg)) b g o /\ l = if has_fate Clean seg then [skip_noise seg] else [].
Proof.
  intros Hw (H1 & H2 & H3 & H4) He. unfold feed_byte. rewrite He. unfold within, has_fate, counts in *. destruct (fate_of seg) eqn:Ef; destruct Hw as [Hb Hd]; rewrite Hd; rewrite ?Hb; cbn; rewrite ?H1, ?u32_step, ?Z.add_0_r; try by repeat split.
  destruct (fate_clean _ Ef) as (x & s & E). rewrite E. cbn. by repeat split.
Qed.

Lemma fate_start c : is_start c = true -> fate_of [c] = Clean /\ skip_noise [c] = [c] /\ printable c = true /\ is_eol c = false.
Proof. intros H. assert (Hp : printable c = true) by (unfold is_start, printable in *; lia). assert (He : is_eol c = false) by by apply plain_not_eol. unfold fate_of. cbn [skip_noise]. rewrite Hp. cbn [until]. rewrite Hp. by repeat split. Qed.

Lemma not_printable c : printable c = negb ((c <? 0x20) || (0x7e <? c)).
Proof. unfold printable. by rewrite negb_orb. Qed.

Lemma byte_start r seg c a b g o : within r seg -> counts r a b g o -> is_start c = true ->
  let '(r', l) := feed_byte r c in within r' [c] /\ counts r' a (b + one (has_fate Clean seg)) g o /\ l = [].
Proof.
  intros Hw (H1 & H2 & H3 & H4) Hs. destruct (fate_start c Hs) as (Ec & Ek & Hp & He). unfold feed_byte. rewrite He, Hs. unfold within, has_fate, counts in *. rewrite Ec, Ek. rewrite not_printable in Hp. apply negb_true_iff in Hp. cbn [discarding update]. destruct (fate_of seg) eqn:Ef; destruct Hw as [Hb Hd]; rewrite Hd, ?Hb; cbn; rewrite Hp; cbn; rewrite ?H2, ?u32_step, ?Z.add_0_r; try by repeat split.
  destruct (fate_clean _ Ef) as (x & s & E). rewrite E. cbn. rewrite ?Hp, ?H2, ?u32_step. cbn. by repeat split.
Qed.

Lemma byte_plain r seg c a b g o : within r seg -> counts r a b g o -> is_eol c = false -> is_start c = false ->
  let '(r', l) := feed_byte r c in within r' (seg ++ [c]) /\ counts r' a b (g + one (has_fate Garbled (seg ++ [c])) - one (has_fate Garbled seg)) (o + one (has_fate TooLong (seg ++ [c])) - one (has_fate TooLong seg)) /\ l = [].
Proof.
  intros Hw (H1 & H2 & H3 & H4) He Hs. unfold feed_byte. rewrite He, Hs. unfold within, has_fate, counts in *. rewrite fate_snoc. pose proof (not_printable c) as Hp. destruct (fate_of seg) eqn:Ef; destruct Hw as [Hb Hd]; rewrite Hd, ?Hb.
  - destruct (_ || _); cbn [negb] in Hp; rewrite Hp; cbn; rewrite ?Hb; repeat split; rewrite ?Hd, ?Z.add_0_r, ?Z.sub_0_r; try done. rewrite skip_noise_nil by by apply fate_noise. by rewrite Hp.
  - destruct (fate_clean _ Ef) as (x & s & E). rewrite E in *. destruct (_ || _); cbn [negb] in Hp; rewrite Hp; cbn [negb].
    + cbn. rewrite H3, u32_step, Z.add_0_r, !Z.sub_0_r. by repeat split.
    + destruct (ESPOS_NMEA0183_LINE_MAX <=? length (x :: s))%nat eqn:El; cbn [fst snd buf discarding lines resyncs garbled overflows update]; repeat split; cbn; rewrite ?H3, ?H4, ?u32_step, ?Z.add_0_r, ?Z.sub_0_r; try done. rewrite skip_noise_cons; by rewrite E.
  - cbn. repeat split; rewrite ?H3, ?H4; try done; f_equal; lia.
  - cbn. repeat split; rewrite ?H3, ?H4; try done; f_equal; lia.
Qed.

Lemma count_cons p x l : count p (x :: l) = one (p x) + count p l.
Proof. done. Qed.

Lemma reader_segments stream : forall r seg a b g o, within r seg -> counts r a b g o ->
  let '(r', out) := espos_nmea0183_reader_feed r stream in let l := segments seg stream in
  out = lines_of l /\ (exists seg', within r' seg') /\
  counts r' (a + count (fun x => ends AtEol x && has_fate Clean x.1) l) (b + count (fun x => ends AtStart x && has_fate Clean x.1) l)
    (g + count (fun x => has_fate Garbled x.1) l - one (has_fate Garbled seg)) (o + count (fun x => has_fate TooLong x.1) l - one (has_fate TooLong seg)).
Proof.
  induction stream as [|c stream IH]; intros r seg a b g o Hw Hc; cbn [espos_nmea0183_reader_feed segments].
  - split; [done|]. split; [by exists seg|]. eapply counts_same; [exact Hc|rewrite count_cons; cbn [ends snd fst andb one]; change (count _ []) with 0; lia..].
  - destruct (is_eol c) eqn:He; [|destruct (is_start c) eqn:Hs].
    + pose proof (byte_eol r seg c a b g o Hw Hc He) as H. destruct (feed_byte r c) as [r1 l1]. destruct H as (Hw1 & Hc1 & ->). specialize (IH r1 [] _ _ _ _ Hw1 Hc1). destruct (espos_nmea0183_reader_feed r1 stream) as [r2 l2]. destruct IH as (-> & Hx & IH). split; [done|]. split; [done|]. eapply counts_same; [exact IH|rewrite !count_cons; cbn [ends snd fst andb]; change (one (has_fate Garbled [])) with 0; change (one (has_fate TooLong [])) with 0; change (one false) with 0; lia..].
    + pose proof (byte_start r seg c a b g o Hw Hc Hs) as H. destruct (feed_byte r c) as [r1 l1]. destruct H as (Hw1 & Hc1 & ->). specialize (IH r1 [c] _ _ _ _ Hw1 Hc1). destruct (espos_nmea0183_reader_feed r1 stream) as [r2 l2]. destruct IH as (-> & Hx & IH). split; [done|]. split; [done|]. destruct (fate_start c Hs) as (Ef & _). assert (Eg : has_fate Garbled [c] = false /\ has_fate TooLong [c] = false) by (unfold has_fate; rewrite Ef; done). destruct Eg as [Eg Eo].
      eapply counts_same; [exact IH|rewrite !count_cons, ?Eg, ?Eo; cbn [ends snd fst andb]; change (one false) with 0; lia..].
    + pose proof (byte_plain r seg c a b g o Hw Hc He Hs) as H. destruct (feed_byte r c) as [r1 l1]. destruct H as (Hw1 & Hc1 & ->). specialize (IH r1 (seg ++ [c]) _ _ _ _ Hw1 Hc1). destruct (espos_nmea0183_reader_feed r1 stream) as [r2 l2]. destruct IH as (-> & Hx & IH). split; [done|]. split; [done|]. eapply counts_same; [exact IH|lia..].
Qed.

(** Feeding pieces one after the other. *)
Fixpoint feed_all (r : espos_nmea0183_reader_t) (pieces : list (list Z)) : espos_nmea0183_reader_t * list cstr :=
  match pieces with
  | [] => (r, [])
  | p :: ps => let '(r1, l1) := espos_nmea0183_reader_feed r p in let '(r2, l2) := feed_all r1 ps in (r2, l1 ++ l2)
  end.

Lemma feed_all_concat r ps : feed_all r ps = espos_nmea0183_reader_feed r (concat ps).
Proof. revert r. induction ps as [|p ps IH]; intros r; cbn [feed_all concat]; [done|]. rewrite feed_app. destruct (espos_nmea0183_reader_feed r p) as [r1 l1]. by rewrite IH. Qed.

(** C23. The reader is the reference, however the bytes are cut into reads: the lines it
    delivers are the segments of the stream (cut at line ends and before start
    characters) that are printable, at most 160 long and end at a line end, and
    every other segment is counted once: cut off by the next start, garbled, or
    too long. *)
Theorem nmea_reader_exact pieces : let '(r, out) := feed_all espos_nmea0183_reader_init pieces in let l := segments [] (concat pieces) in
  out = lines_of l /\
  lines r = u32 (count (fun x => ends AtEol x && has_fate Clean x.1) l) /\ resyncs r = u32 (count (fun x => ends AtStart x && has_fate Clean x.1) l) /\
  garbled r = u32 (count (fun x => has_fate Garbled x.1) l) /\ overflows r = u32 (count (fun x => has_fate TooLong x.1) l) /\ (length (buf r) <= ESPOS_NMEA0183_LINE_MAX)%nat.
Proof.
  rewrite feed_all_concat. pose proof (reader_segments (concat pieces) espos_nmea0183_reader_init [] 0 0 0 0) as H. destruct (espos_nmea0183_reader_feed _ _) as [r out]. destruct H as (-> & [seg' Hw] & H1 & H2 & H3 & H4); [done|done|].
  rewrite H1, H2, H3, H4. repeat split; try (f_equal; change (one (has_fate Garbled [])) with 0; change (one (has_fate TooLong [])) with 0; lia).
  unfold within in Hw. destruct (fate_of seg') eqn:Ef; destruct Hw as [-> _]; try (cbn [length]; lia). unfold fate_of in Ef. destruct (skip_noise seg') as [|x s] eqn:E; [done|]. rewrite <- E in *.
  destruct (Nat.ltb_spec ESPOS_NMEA0183_LINE_MAX (length (until (fun c => negb (printable c)) (skip_noise seg')))) as [|Hl]; [done|]. destruct (_ <? length (skip_noise seg'))%nat eqn:El; [done|]. by rewrite (until_full _ _ El) in Hl.
Qed.

(** * Dates *)

(** The month table with its leap day is the Gregorian month. *)
Lemma mdays_month y m : 1 <= m <= 12 -> nth (Z.to_nat (m - 1)) mdays 0 + (if (m =? 2) && (((y mod 4 =? 0) && negb (y mod 100 =? 0)) || (y mod 400 =? 0)) then 1 else 0) = month_days y m.
Proof.
  intros Hm. assert (El : ((y mod 4 =? 0) && negb (y mod 100 =? 0)) || (y mod 400 =? 0) = leap y).
  { unfold leap. destruct (Z.eqb_spec (y mod 400) 0) as [E|]; [|by rewrite orb_false_r, orb_false_r]. rewrite !orb_true_r, andb_true_r. symmetry. apply Z.eqb_eq. div_lia. }
  rewrite El. unfold month_days. assert (Hc : m = 1 \/ m = 2 \/ m = 3 \/ m = 4 \/ m = 5 \/ m = 6 \/ m = 7 \/ m = 8 \/ m = 9 \/ m = 10 \/ m = 11 \/ m = 12) by lia. destruct_or! Hc; subst m; cbn; try done. by destruct (leap y).
Qed.

Definition date_ok (y m d ms : Z) : bool := (1970 <=? y) && (1 <=? m) && (m <=? 12) && (1 <=? d) && (d <=? month_days y m) && (0 <=? ms) && (ms <? 86401000).

(** The Unix time of a date and a time of day: the day number of the clock policy's
    calendar for every date of the Gregorian calendar from 1970 on (and a time up to
    a leap second), and -1 for every other. *)
Theorem nmea_unix_exact y m d ms : espos_nmea0183_unix_ms y m d ms = if date_ok y m d ms then days_from_civil y m d * 86400000 + ms else -1.
Proof.
  unfold espos_nmea0183_unix_ms, date_ok. destruct ((y <? 1970) || (m <? 1) || (12 <? m) || (d <? 1) || (ms <? 0) || (86401000 <=? ms)) eqn:E; [destruct (_ && _) eqn:E2; [lia|done]|]. rewrite mdays_month by lia.
  destruct (Z.ltb_spec (month_days y m) d); [destruct (_ && _) eqn:E2; [lia|done]|]. replace ((1970 <=? y) && (1 <=? m) && (m <=? 12) && (1 <=? d) && (d <=? month_days y m) && (0 <=? ms) && (ms <? 86401000)) with true by lia.
  assert (Hd : 1 <= d <= 31) by (destruct (month_days_gap y m d) as [Hd _]; lia). rewrite days_closed by lia. cbv zeta. unfold year_start. f_equal. f_equal. replace (2 <? m) with (m >? 2) by lia.
  replace (y - (if m <=? 2 then 1 else 0)) with (if m <=? 2 then y - 1 else y) by (destruct (m <=? 2); lia). replace (m + (if m >? 2 then -3 else 9)) with (if m >? 2 then m - 3 else m + 9) by (destruct (m >? 2); lia).
  set (y' := if m <=? 2 then y - 1 else y). replace (y' - y' / 400 * 400) with (y' mod 400) by div_lia. lia.
Qed.
