(* ===== verification/Double.v ===== *)
(** IEEE 754 doubles: the operations of the sources over the standard library's
    specification of floating point, reading and printing of decimals, and bounds on
    rounded results. *)
From Stdlib Require Import ZArith Lia String.
From Stdlib Require Import Floats.SpecFloat.
From stdpp Require Import base list numbers option.
From S2P Require Import Prelude.
Open Scope Z_scope.

Abbreviation double := spec_float.

Definition dadd (a b : double) : double := SFadd 53 1024 a b.
Definition dsub (a b : double) : double := SFsub 53 1024 a b.
Definition dmul (a b : double) : double := SFmul 53 1024 a b.
Definition ddiv (a b : double) : double := SFdiv 53 1024 a b.
Definition dopp (a : double) : double := SFopp a.
Definition dlt (a b : double) : bool := SFltb a b.
Definition dle (a b : double) : bool := SFleb a b.
Definition deq (a b : double) : bool := SFeqb a b.
Definition dfinite (a : double) : bool := match a with S754_zero _ | S754_finite _ _ _ => true | _ => false end.
Definition dzero : double := S754_zero false.

(** An integer; the decimal [n] / 10^[k], rounded once. *)
Definition dint (z : Z) : double := binary_normalize 53 1024 z 0 false.
Definition ddec (neg : bool) (n : Z) (k : nat) : double :=
  match n with
  | Zpos _ => let '(q, e, l) := SFdiv_core_binary 53 1024 n 0 (10 ^ Z.of_nat k) 0 in binary_round_aux 53 1024 neg q e l
  | _ => S754_zero neg
  end.

(** The conversion to an integer of a finite double: it truncates. *)
Definition dtrunc (a : double) : Z :=
  match a with
  | S754_finite s m e => let v := if 0 <=? e then Z.pos m * 2 ^ e else Z.pos m / 2 ^ (- e) in if s then - v else v
  | _ => 0
  end.

(** * Decimals *)

Definition isdigit (c : Z) : bool := (48 <=? c) && (c <=? 57).

(** A run of digits after [acc], how many they are, and the rest. *)
Fixpoint digit_run (s : cstr) (acc : Z) (k : nat) : Z * nat * cstr :=
  match s with c :: s' => if isdigit c then digit_run s' (acc * 10 + (c - 48)) (S k) else (acc, k, s) | [] => (acc, k, []) end.

(** [strtod] of text without blanks, letters and exponents: the value and the rest, or
    [None] where there is no number. *)
Definition strtod (s : cstr) : option (double * cstr) :=
  let '(neg, s) := match s with c :: s' => if c =? 45 then (true, s') else if c =? 43 then (false, s') else (false, s) | [] => (false, []) end in
  let '(n, k, s) := digit_run s 0 0 in
  let '(n, f, s) := match s with c :: s' => if c =? 46 then (let '(n', f, r) := digit_run s' n 0 in if (k + f =? 0)%nat then (n, 0%nat, s) else (n', f, r)) else (n, 0%nat, s) | [] => (n, 0%nat, []) end in
  if (k + f =? 0)%nat then None else Some (ddec neg n f, s).

(** [%.7f] of a finite double, to the nearest decimal and to the even one on a tie. *)
Definition scaled7 (m e : Z) : Z :=
  if 0 <=? e then m * 2 ^ e * 10 ^ 7 else
  let q := m * 10 ^ 7 / 2 ^ (- e) in
  let r := m * 10 ^ 7 mod 2 ^ (- e) in
  match Z.compare (2 * r) (2 ^ (- e)) with Lt => q | Gt => q + 1 | Eq => if Z.even q then q else q + 1 end.
Definition fmt_7f (a : double) : cstr :=
  let text s n := (if s : bool then [45] else []) ++ fmt_d (n / 10 ^ 7) ++ [46] ++ dec_fixed 7 (n mod 10 ^ 7) in
  match a with
  | S754_finite s m e => text s (scaled7 (Z.pos m) e)
  | S754_zero s => text s 0
  | S754_infinity s => (if s then [45] else []) ++ lit "inf"
  | S754_nan => lit "nan"
  end.

Example tenth : strtod (lit "0.1") = Some (S754_finite false 7205759403792794 (-56), []).
Proof. vm_compute. reflexivity. Qed.
Example pi_print : option_map (fun x => fmt_7f (dopp x.1)) (strtod (lit "3.14159265358979323846")) = Some (lit "-3.1415927").
Proof. vm_compute. reflexivity. Qed.
