(* ===== verification/DoubleProps.v ===== *)
(** Rounded results: an operation whose exact result lies between two integers has a
    finite, canonical result between them, and comparisons of such results are
    comparisons of their values. *)
From Stdlib Require Import ZArith Lia.
From Stdlib Require Import Floats.SpecFloat.
From stdpp Require Import base list numbers option.
From S2P Require Import Prelude Double.
Open Scope Z_scope.

(** Values as integers, in units small enough for every exact result. *)
Definition K : Z := 3000.
Definition scale : Z := 2 ^ K.
Definition dval (x : double) : Z := match x with S754_finite s m e => cond_Zopp s (Z.pos m * 2 ^ (e + K)) | _ => 0 end.
Definition canon (m : positive) (e : Z) : Prop := -1074 <= e /\ Z.pos m < 2 ^ 53 /\ (e = -1074 \/ 2 ^ 52 <= Z.pos m).
Definition good (x : double) : Prop := match x with S754_zero _ => True | S754_finite _ m e => canon m e | _ => False end.
(** Finite, canonical, and between two integers. *)
Definition within (a b : Z) (x : double) : Prop := good x /\ a * scale <= dval x <= b * scale.

(** * Digits *)

Lemma digits_pos p : 2 ^ (Z.pos (digits2_pos p) - 1) <= Z.pos p < 2 ^ Z.pos (digits2_pos p).
Proof.
  induction p as [p IH|p IH|]; cbn [digits2_pos]; [| |cbn; lia]; rewrite Pos2Z.inj_succ; replace (Z.succ (Z.pos (digits2_pos p)) - 1) with (Z.succ (Z.pos (digits2_pos p) - 1)) by lia; rewrite !Z.pow_succ_r by lia; lia.
Qed.
Lemma digits_bounds m : 0 < m -> 2 ^ (Zdigits2 m - 1) <= m < 2 ^ Zdigits2 m /\ 1 <= Zdigits2 m.
Proof. destruct m as [|p|p]; try lia. intros _. cbn [Zdigits2]. split; [apply digits_pos|lia]. Qed.
Lemma digits_nonneg m : 0 <= m -> 0 <= Zdigits2 m /\ m < 2 ^ Zdigits2 m.
Proof. intros Hm. destruct (Z.eq_dec m 0) as [->|]; [cbn; lia|]. destruct (digits_bounds m ltac:(lia)). lia. Qed.

Lemma fexp_is e : fexp 53 1024 e = Z.max (e - 53) (-1074).
Proof. done. Qed.

Lemma pow_le_inv a b : 0 <= a -> 2 ^ a < 2 ^ b -> a < b.
Proof. intros Ha H. apply (Z.pow_lt_mono_r_iff 2); [lia| |done]. destruct (Z.le_gt_cases 0 b); [done|]. rewrite (Z.pow_neg_r 2 b) in H by lia. pose proof (Z.pow_pos_nonneg 2 a). lia. Qed.

(** * Shifts *)

Definition inexact (r : shr_record) : bool := shr_r r || shr_s r.
Definition loc_inexact (l : location) : bool := match l with loc_Exact => false | _ => true end.

Lemma iter_pos_inv {A} (P : Z -> A -> Prop) (f : A -> A) : (forall k x, 0 <= k -> P k x -> P (k + 1) (f x)) -> forall p k x, 0 <= k -> P k x -> P (k + Z.pos p) (SpecFloat.iter_pos f p x).
Proof.
  intros Hf p. induction p as [p IH|p IH|]; intros k x Hk Hx; cbn [SpecFloat.iter_pos]; [| |by apply Hf].
  - replace (k + Z.pos p~1) with (k + 1 + Z.pos p + Z.pos p) by lia. apply IH; [lia|]. apply IH; [lia|]. by apply Hf.
  - replace (k + Z.pos p~0) with (k + Z.pos p + Z.pos p) by lia. apply IH; [lia|]. by apply IH.
Qed.

Lemma shr_1_spec x : 0 <= shr_m x -> shr_m (shr_1 x) = shr_m x / 2 /\ inexact (shr_1 x) = inexact x || Z.odd (shr_m x).
Proof.
  destruct x as [m r s]. unfold inexact. cbn [shr_m shr_r shr_s]. intros Hm. destruct m as [|[p|p|]|p]; cbn [shr_1 shr_m shr_r shr_s Z.odd]; try lia.
  - by destruct r, s.
  - split; [rewrite Pos2Z.inj_xI; div_lia|by destruct r, s].
  - split; [rewrite Pos2Z.inj_xO; div_lia|by destruct r, s].
  - by destruct r, s.
Qed.

Lemma shr_iter m b x p : 0 <= m -> shr_m x = m -> inexact x = b -> shr_m (SpecFloat.iter_pos shr_1 p x) = m / 2 ^ Z.pos p /\ inexact (SpecFloat.iter_pos shr_1 p x) = b || negb (m mod 2 ^ Z.pos p =? 0).
Proof.
  intros Hm Ex Eb. apply (iter_pos_inv (fun k y => shr_m y = m / 2 ^ k /\ inexact y = b || negb (m mod 2 ^ k =? 0)) shr_1) with (k := 0); [|lia|rewrite Ex, Eb; change (2 ^ 0) with 1; rewrite Z.div_1_r, Z.mod_1_r; cbn; by rewrite orb_false_r].
  intros k y Hk [Ey Ei]. pose proof (Z.pow_pos_nonneg 2 k ltac:(lia) Hk) as Hp. assert (Hy : 0 <= shr_m y) by (rewrite Ey; apply Z.div_pos; lia). destruct (shr_1_spec y Hy) as [-> ->]. rewrite Ei, Ey, Z.add_1_r, Z.pow_succ_r, (Z.mul_comm 2), Z.div_div by lia. split; [done|].
  rewrite Z.rem_mul_r by lia. pose proof (Z.mod_pos_bound m (2 ^ k) Hp). rewrite Zmod_odd. destruct (Z.odd (m / 2 ^ k)); destruct (Z.eqb_spec (m mod 2 ^ k) 0) as [E|E]; rewrite ?E; destruct b; cbn [negb orb]; try done; rewrite ?Z.mul_1_r, ?Z.mul_0_r, ?Z.add_0_r, ?Z.add_0_l; try (rewrite (proj2 (Z.eqb_neq _ _)) by lia; done); by rewrite Z.eqb_refl.
Qed.

Lemma record_of_loc m l : shr_m (shr_record_of_loc m l) = m /\ inexact (shr_record_of_loc m l) = loc_inexact l.
Proof. by destruct l as [|[]]. Qed.

Lemma shr_fexp_spec m e l : 0 <= m -> let e1 := fexp 53 1024 (Zdigits2 m + e) in e <= e1 ->
  exists r, shr_fexp 53 1024 m e l = (r, e1) /\ shr_m r = m / 2 ^ (e1 - e) /\ inexact r = loc_inexact l || negb (m mod 2 ^ (e1 - e) =? 0).
Proof.
  intros Hm e1 He. unfold shr_fexp, shr. fold e1. destruct (record_of_loc m l) as [R1 R2]. destruct (e1 - e) as [|p|p] eqn:En; [| |lia].
  - exists (shr_record_of_loc m l). replace e1 with e by lia. split; [done|]. rewrite R1, R2. change (2 ^ 0) with 1. rewrite Z.div_1_r, Z.mod_1_r. cbn. by rewrite orb_false_r.
  - exists (SpecFloat.iter_pos shr_1 p (shr_record_of_loc m l)). split; [f_equal; lia|]. by apply shr_iter.
Qed.

(** * Rounding *)

Lemma ceil_bound m i c n : 0 <= n -> 0 <= m -> m + Z.b2z i <= c * 2 ^ n -> m / 2 ^ n + Z.b2z (i || negb (m mod 2 ^ n =? 0)) <= c.
Proof.
  intros Hn Hm H. pose proof (Z.pow_pos_nonneg 2 n ltac:(lia) Hn) as Hp. pose proof (Z.div_mod m (2 ^ n) ltac:(lia)) as Hd. pose proof (Z.mod_pos_bound m (2 ^ n) Hp) as Hr. destruct (Z.eqb_spec (m mod 2 ^ n) 0) as [E|E]; rewrite ?orb_false_r, ?orb_true_r.
  - rewrite E in Hd. destruct i; cbn [Z.b2z] in *; nia.
  - cbn [Z.b2z]. destruct i; cbn [Z.b2z] in *; nia.
Qed.

Lemma scaled_bound m e B : -K <= e <= 0 -> 0 <= B -> m * 2 ^ (e + K) <= B * scale <-> m <= B * 2 ^ (- e).
Proof.
  intros He HB. assert (E : B * scale = B * 2 ^ (- e) * 2 ^ (e + K)) by (unfold scale; rewrite <- Z.mul_assoc, <- Z.pow_add_r by lia; do 2 f_equal; lia). rewrite E. pose proof (Z.pow_pos_nonneg 2 (e + K) ltac:(lia) ltac:(lia)). split; intros; nia.
Qed.

Lemma rne_between r : 0 <= shr_m r -> shr_m r <= round_nearest_even (shr_m r) (loc_of_shr_record r) <= shr_m r + Z.b2z (inexact r).
Proof. destruct r as [m [] []]; unfold inexact; cbn; try lia. destruct (Z.even m); lia. Qed.

(** The first shift: below 2^53, with 53 digits unless it is subnormal. *)
Lemma first_shift m e : 0 <= m -> e <= fexp 53 1024 (Zdigits2 m + e) -> let e1 := fexp 53 1024 (Zdigits2 m + e) in
  -1074 <= e1 /\ 0 <= m / 2 ^ (e1 - e) < 2 ^ 53 /\ (e1 = -1074 \/ 2 ^ 52 <= m / 2 ^ (e1 - e)).
Proof.
  intros Hm He e1. destruct (digits_nonneg m Hm) as [Hd Hlt]. assert (E1 : e1 = Z.max (Zdigits2 m + e - 53) (-1074)) by apply fexp_is. fold e1 in He. set (d := Zdigits2 m) in *. split; [lia|]. pose proof (Z.pow_pos_nonneg 2 (e1 - e) ltac:(lia) ltac:(lia)) as Hp. split.
  - split; [apply Z.div_pos; lia|]. apply Z.div_lt_upper_bound; [lia|]. rewrite <- Z.pow_add_r by lia. eapply Z.lt_le_trans; [exact Hlt|]. apply Z.pow_le_mono_r; lia.
  - destruct (Z.eq_dec e1 (-1074)); [by left|right]. assert (H0 : 0 < m). { destruct (Z.eq_dec m 0) as [->|]; [|lia]. change d with 0 in E1. lia. }
    destruct (digits_bounds m H0) as [[Hge _] _]. fold d in Hge. apply Z.div_le_lower_bound; [lia|]. rewrite <- Z.pow_add_r by lia. replace (e1 - e + 52) with (d - 1) by lia. done.
Qed.

(** Where the exponent ends up. *)
Lemma exponent_nonpos m e B : 0 <= m -> -K <= e -> B < 2 ^ 52 -> m * 2 ^ (e + K) <= B * scale -> e <= fexp 53 1024 (Zdigits2 m + e) -> fexp 53 1024 (Zdigits2 m + e) <= 0.
Proof.
  intros Hm He HB H He1. rewrite fexp_is in *. destruct (Z.eq_dec m 0) as [->|]; [cbn in *; lia|]. destruct (digits_bounds m ltac:(lia)) as [[Hge _] Hd]. set (d := Zdigits2 m) in *.
  assert (Hlt : 2 ^ (d - 1 + (e + K)) < 2 ^ (52 + K)). { rewrite (Z.pow_add_r 2 (d - 1)), (Z.pow_add_r 2 52) by (unfold K in *; lia). fold scale. assert (Hs : 0 < scale) by (apply Z.pow_pos_nonneg; unfold K; lia). apply Z.le_lt_trans with (m * 2 ^ (e + K)); [apply Z.mul_le_mono_nonneg_r; [apply Z.pow_nonneg; lia|lia]|]. eapply Z.le_lt_trans; [exact H|]. apply Z.mul_lt_mono_pos_r; lia. }
  apply pow_le_inv in Hlt; unfold K in *; lia.
Qed.

Lemma digits_of_range m k : 0 <= k -> 2 ^ k <= m < 2 ^ (k + 1) -> Zdigits2 m = k + 1.
Proof.
  intros Hk H. pose proof (Z.pow_pos_nonneg 2 k ltac:(lia) Hk). destruct (digits_bounds m ltac:(lia)) as [[H1 H2] H3]. set (d := Zdigits2 m) in *.
  assert (k < d) by (apply pow_le_inv; lia). assert (d - 1 < k + 1) by (apply pow_le_inv; lia). lia.
Qed.

(** What rounding comes to: the rounded integer [R], in canonical form. *)
Lemma round_form s m e l : 0 <= m -> e <= fexp 53 1024 (Zdigits2 m + e) -> let e1 := fexp 53 1024 (Zdigits2 m + e) in let x := binary_round_aux 53 1024 s m e l in
  exists R, 0 <= R <= m / 2 ^ (e1 - e) + Z.b2z (loc_inexact l || negb (m mod 2 ^ (e1 - e) =? 0)) /\
    (x = S754_zero s \/ exists m' e', x = (if e' <=? 971 then S754_finite s m' e' else S754_infinity s) /\ canon m' e' /\ Z.pos m' * 2 ^ (e' + K) = R * 2 ^ (e1 + K)).
Proof.
  intros Hm He e1 x. destruct (first_shift m e Hm He) as (He1 & H53 & H52). fold e1 in He, He1, H53, H52. unfold x, binary_round_aux. destruct (shr_fexp_spec m e l Hm He) as (r & -> & Er & Ei). fold e1 in Er, Ei |- *. rewrite <- Er, <- Ei in *.
  pose proof (rne_between r ltac:(lia)) as HR. set (R := round_nearest_even (shr_m r) (loc_of_shr_record r)) in *. assert (HR53 : R <= 2 ^ 53) by (destruct (inexact r); cbn [Z.b2z] in HR; lia). exists R. split; [lia|].
  destruct (Z.eq_dec R (2 ^ 53)) as [E|Hne].
  - assert (Ed : Zdigits2 R = 54) by (rewrite E; reflexivity). assert (Ef : fexp 53 1024 (Zdigits2 R + e1) = e1 + 1) by (rewrite Ed, fexp_is; lia). destruct (shr_fexp_spec R e1 loc_Exact ltac:(lia) ltac:(lia)) as (r2 & -> & Er2 & _). rewrite Ef in *. replace (e1 + 1 - e1) with 1 in Er2 by lia. rewrite E in Er2. change (2 ^ 53 / 2 ^ 1) with 4503599627370496 in Er2. rewrite Er2.
    right. exists 4503599627370496%positive, (e1 + 1). split; [done|]. split; [split; [lia|split; [reflexivity|by right]]|]. rewrite E. replace (e1 + 1 + K) with (1 + (e1 + K)) by lia. rewrite Z.pow_add_r, Z.mul_assoc by (unfold K; lia). done.
  - assert (Ef : fexp 53 1024 (Zdigits2 R + e1) = e1).
    { rewrite fexp_is. destruct H52 as [->|H52]; [|rewrite (digits_of_range R 52) by lia; lia]. destruct (Z.eq_dec R 0) as [->|]; [cbn; lia|]. destruct (digits_bounds R ltac:(lia)) as [[Hlo _] _]. assert (Zdigits2 R - 1 < 53); [|lia]. destruct (Z.le_gt_cases 0 (Zdigits2 R - 1)); [|lia]. apply pow_le_inv; lia. }
    destruct (shr_fexp_spec R e1 loc_Exact ltac:(lia) ltac:(lia)) as (r2 & -> & Er2 & _). rewrite Ef in *. rewrite Z.sub_diag in Er2. change (2 ^ 0) with 1 in Er2. rewrite Z.div_1_r in Er2. rewrite Er2. destruct R as [|p|p] eqn:EP; [by left| |lia]. right. exists p, e1. split; [done|]. split; [split; [lia|split; [lia|]]|done]. destruct H52; [by left|right]. lia.
Qed.

Lemma round_good s m e l : 0 <= m -> e <= fexp 53 1024 (Zdigits2 m + e) -> dfinite (binary_round_aux 53 1024 s m e l) = true -> good (binary_round_aux 53 1024 s m e l).
Proof. intros Hm He. destruct (round_form s m e l Hm He) as (R & _ & [->|(m' & e' & -> & Hc & _)]); [done|]. by destruct (e' <=? 971). Qed.

Lemma round_bound s m e l B : 0 <= m -> -K <= e -> e <= fexp 53 1024 (Zdigits2 m + e) -> 0 <= B < 2 ^ 52 -> (m + Z.b2z (loc_inexact l)) * 2 ^ (e + K) <= B * scale ->
  let x := binary_round_aux 53 1024 s m e l in
  x = S754_zero s \/ exists m' e', x = S754_finite s m' e' /\ canon m' e' /\ Z.pos m' * 2 ^ (e' + K) <= B * scale.
Proof.
  intros Hm HK He HB Hb. destruct (first_shift m e Hm He) as (He1 & _). assert (Hnp : fexp 53 1024 (Zdigits2 m + e) <= 0).
  { apply (exponent_nonpos m e B); try done; [lia|]. pose proof (Z.pow_pos_nonneg 2 (e + K) ltac:(lia) ltac:(lia)). destruct (loc_inexact l); cbn [Z.b2z] in Hb; nia. }
  destruct (round_form s m e l Hm He) as (R & HR & [->|(m' & e' & -> & Hc & Ev)]); [by left|right]. set (e1 := fexp 53 1024 (Zdigits2 m + e)) in *.
  assert (HRb : R <= B * 2 ^ (- e1)). { etrans; [apply HR|]. apply ceil_bound; [lia|done|]. apply scaled_bound in Hb; [|lia|lia]. rewrite <- Z.mul_assoc, <- Z.pow_add_r by lia. replace (- e1 + (e1 - e)) with (- e) by lia. done. }
  assert (Hv : Z.pos m' * 2 ^ (e' + K) <= B * scale) by (rewrite Ev; apply scaled_bound; [unfold K; lia|lia|done]). exists m', e'. split; [|by split]. destruct (Z.leb_spec e' 971); [done|]. exfalso. pose proof Hc as (_ & _ & _).
  assert (2 ^ (52 + K) <= 2 ^ (e' + K)) by (apply Z.pow_le_mono_r; lia). assert (E52 : 2 ^ (52 + K) = 2 ^ 52 * scale) by (unfold scale; rewrite Z.pow_add_r by (unfold K; lia); done). assert (0 < scale) by (apply Z.pow_pos_nonneg; unfold K; lia). nia.
Qed.

(** * Operations *)

Lemma scale_is : scale = 2 ^ K.
Proof. exact eq_refl. Qed.
Lemma scale_pos : 0 < scale.
Proof. apply Z.pow_pos_nonneg; unfold K; lia. Qed.

Lemma xO_iter m d : Z.pos (Pos.iter xO m d) = Z.pos m * 2 ^ Z.pos d.
Proof.
  revert m. induction d as [|d IH] using Pos.peano_ind; intros m; [cbn [Pos.iter]; rewrite Pos2Z.inj_xO; lia|]. rewrite Pos.iter_succ, Pos2Z.inj_xO, IH, Pos2Z.inj_succ, Z.pow_succ_r; lia.
Qed.
Lemma shl_align_value m e e' : e' <= e -> Z.pos (shl_align m e e').1 = Z.pos m * 2 ^ (e - e') /\ (shl_align m e e').2 = e'.
Proof.
  intros He. unfold shl_align. destruct (e' - e) as [|p|p] eqn:E; cbn [fst snd]; [replace (e - e') with 0 by lia; split; lia|lia|]. rewrite xO_iter. split; [do 2 f_equal; lia|done].
Qed.
Lemma shl_align_none m e e' : e <= e' -> shl_align m e e' = (m, e).
Proof. intros He. unfold shl_align. destruct (e' - e) eqn:E; [done|done|lia]. Qed.

Lemma digits_shift m k : 0 < m -> 0 <= k -> Zdigits2 (m * 2 ^ k) = Zdigits2 m + k.
Proof.
  intros Hm Hk. destruct (digits_bounds m Hm) as [[H1 H2] Hd]. pose proof (Z.pow_pos_nonneg 2 k ltac:(lia) Hk). replace (Zdigits2 m + k) with (Zdigits2 m - 1 + k + 1) by lia. apply digits_of_range; [lia|]. replace (Zdigits2 m - 1 + k + 1) with (Zdigits2 m + k) by lia. rewrite !Z.pow_add_r by lia. split; [apply Z.mul_le_mono_nonneg_r; lia|apply Z.mul_lt_mono_pos_r; lia].
Qed.

(** What rounding a positive magnitude comes to, with its sign. *)
Lemma signed_within s B x : 0 <= B -> (x = S754_zero s \/ exists m e, x = S754_finite s m e /\ canon m e /\ Z.pos m * 2 ^ (e + K) <= B * scale) -> within (if s then - B else 0) (if s then 0 else B) x.
Proof.
  intros HB. pose proof scale_pos. intros [->|(m & e & -> & Hc & Hb)]; unfold within; cbn [good dval]; [split; [done|]; destruct s; nia|]. split; [done|]. assert (0 <= Z.pos m * 2 ^ (e + K)) by (apply Z.mul_nonneg_nonneg; [lia|apply Z.pow_nonneg; lia]). destruct s; cbn [cond_Zopp]; lia.
Qed.

Lemma round_within (s : bool) m e B : -1074 <= e -> 0 <= B < 2 ^ 52 -> Z.pos m * 2 ^ (e + K) <= B * scale -> within (if s then - B else 0) (if s then 0 else B) (binary_round 53 1024 s m e).
Proof.
  intros He HB Hb. apply signed_within; [lia|]. unfold binary_round. set (f := fexp 53 1024 (Z.pos (digits2_pos m) + e)). destruct (Z.le_gt_cases e f) as [Hle|Hgt].
  - rewrite shl_align_none by done. apply round_bound; [lia|unfold K; lia|done|done|]. cbn [loc_inexact Z.b2z]. by rewrite Z.add_0_r.
  - destruct (shl_align_value m e f ltac:(lia)) as [E1 E2]. destruct (shl_align m e f) as [mz ez]. cbn [fst snd] in *. subst ez. assert (Ed : Zdigits2 (Z.pos mz) = Z.pos (digits2_pos m) + (e - f)) by (rewrite E1; apply digits_shift; lia).
    assert (Hf : -1074 <= f) by (unfold f; rewrite fexp_is; lia). apply round_bound; [lia|unfold K; lia| |done|].
    + rewrite Ed. replace (Z.pos (digits2_pos m) + (e - f) + f) with (Z.pos (digits2_pos m) + e) by lia. unfold f. lia.
    + cbn [loc_inexact Z.b2z]. rewrite Z.add_0_r, E1, <- Z.mul_assoc, <- Z.pow_add_r by (unfold K; lia). replace (e - f + (f + K)) with (e + K) by lia. done.
Qed.

Lemma within_mono a b a' b' x : a' <= a -> b <= b' -> within a b x -> within a' b' x.
Proof. pose proof scale_pos. intros Ha Hb [Hg Hv]. split; [done|]. nia. Qed.

Lemma normalize_within z e sz A B : -1074 <= e -> - 2 ^ 52 < A <= 0 -> 0 <= B < 2 ^ 52 -> A * scale <= z * 2 ^ (e + K) <= B * scale -> within A B (binary_normalize 53 1024 z e sz).
Proof.
  intros He HA HB Hz. pose proof scale_pos. destruct z as [|m|m]; cbn [binary_normalize].
  - split; [done|]. cbn [dval]. nia.
  - eapply within_mono; [| |apply (round_within false m e B)]; lia.
  - eapply within_mono; [| |apply (round_within true m e (- A))]; lia.
Qed.

(** Sums, with the value of the exact sum. *)
Lemma aligned_value s m e ez : -1074 <= ez -> ez <= e -> cond_Zopp s (Z.pos (shl_align m e ez).1) * 2 ^ (ez + K) = cond_Zopp s (Z.pos m * 2 ^ (e + K)).
Proof.
  intros H1 H2. destruct (shl_align_value m e ez H2) as [-> _]. assert (E : Z.pos m * 2 ^ (e - ez) * 2 ^ (ez + K) = Z.pos m * 2 ^ (e + K)) by (rewrite <- Z.mul_assoc, <- Z.pow_add_r by (unfold K; lia); do 2 f_equal; lia). destruct s; cbn [cond_Zopp]; lia.
Qed.

Lemma dadd_within x y A B : good x -> good y -> - 2 ^ 52 < A <= 0 -> 0 <= B < 2 ^ 52 -> A * scale <= dval x + dval y <= B * scale -> within A B (dadd x y).
Proof.
  intros Hx Hy HA HB Hv. unfold dadd. destruct x as [sx|sx| |sx mx ex]; try contradiction; destruct y as [sy|sy| |sy my ey]; try contradiction; cbn [SFadd].
  - split; [by destruct sx, sy|]. cbn [dval] in Hv. destruct sx, sy; cbn [dval]; lia.
  - split; [done|]. cbn [dval] in Hv |- *. lia.
  - split; [done|]. cbn [dval] in Hv |- *. lia.
  - cbn [good dval] in *. destruct Hx as [Hx _], Hy as [Hy _]. apply normalize_within; [lia|done|done|]. rewrite Z.mul_add_distr_r, !aligned_value by lia. done.
Qed.
Lemma good_opp x : good x -> good (dopp x) /\ dval (dopp x) = - dval x.
Proof. destruct x as [[]|[]| |[] m e]; cbn; intros H; try done; split; try done; lia. Qed.
Lemma dsub_within x y A B : good x -> good y -> - 2 ^ 52 < A <= 0 -> 0 <= B < 2 ^ 52 -> A * scale <= dval x - dval y <= B * scale -> within A B (dsub x y).
Proof.
  intros Hx Hy HA HB Hv. destruct (good_opp y Hy) as [Gy Ey]. assert (E : within A B (dadd x (dopp y))) by (apply dadd_within; try done; rewrite Ey; lia). revert E. unfold dadd, dsub, dopp. destruct x as [sx|sx| |sx mx ex]; try contradiction; destruct y as [sy|sy| |sy my ey]; try contradiction; cbn [SFadd SFsub SFopp].
  - by destruct sx, sy.
  - done.
  - done.
  - replace (cond_Zopp sx (Z.pos (shl_align mx ex (ex `min` ey)).1) - cond_Zopp sy (Z.pos (shl_align my ey (ex `min` ey)).1)) with (cond_Zopp sx (Z.pos (shl_align mx ex (ex `min` ey)).1) + cond_Zopp (negb sy) (Z.pos (shl_align my ey (ex `min` ey)).1)) by (destruct sy; cbn [negb cond_Zopp]; lia). done.
Qed.

(** A product and a quotient by a constant [S754_finite sy my ey] of exponent at most 0. *)
Lemma product_bound mx ex my ey A B : -1074 <= ex -> -1074 <= ey <= 0 -> Z.pos mx * 2 ^ (ex + K) <= A * scale -> A * Z.pos my <= B * 2 ^ (- ey) -> Z.pos (mx * my) * 2 ^ (ex + ey + K) <= B * scale.
Proof.
  intros Hx Hy Hb HAB. pose proof scale_pos. pose proof (Z.pow_pos_nonneg 2 (- ey) ltac:(lia) ltac:(lia)) as Hp. apply (Z.mul_le_mono_pos_r _ _ (2 ^ (- ey))); [done|].
  assert (E : Z.pos (mx * my) * 2 ^ (ex + ey + K) * 2 ^ (- ey) = Z.pos mx * 2 ^ (ex + K) * Z.pos my). { rewrite <- Z.mul_assoc, <- Z.pow_add_r by (unfold K; lia). replace (ex + ey + K + - ey) with (ex + K) by lia. rewrite Pos2Z.inj_mul. ring. }
  rewrite E. apply Z.le_trans with (A * scale * Z.pos my); [apply Z.mul_le_mono_nonneg_r; lia|]. replace (A * scale * Z.pos my) with (A * Z.pos my * scale) by ring. replace (B * scale * 2 ^ (- ey)) with (B * 2 ^ (- ey) * scale) by ring. apply Z.mul_le_mono_nonneg_r; lia.
Qed.

(** Products of canonical numbers have digits enough to round. *)
Lemma product_digits mx ex my ey : canon mx ex -> canon my ey -> ey <= 0 -> ex + ey <= fexp 53 1024 (Zdigits2 (Z.pos (mx * my)) + (ex + ey)).
Proof.
  intros (Hx & _ & Cx) (Hy & _ & Cy) Hle. rewrite fexp_is. destruct Cx as [->|Cx]; [lia|]. destruct (digits_bounds (Z.pos (mx * my)) ltac:(lia)) as [[_ Hlt] _]. rewrite Pos2Z.inj_mul in *. set (d := Zdigits2 (Z.pos mx * Z.pos my)) in *.
  assert (52 < d); [|lia]. apply pow_le_inv; [lia|]. eapply Z.le_lt_trans; [|exact Hlt]. nia.
Qed.

Lemma dmul_within x sy my ey A B : good x -> canon my ey -> ey <= 0 -> 0 <= A -> 0 <= B < 2 ^ 52 -> - A * scale <= dval x <= A * scale -> A * Z.pos my <= B * 2 ^ (- ey) ->
  within (- B) B (dmul x (S754_finite sy my ey)) /\ (0 <= dval x -> sy = false -> 0 <= dval (dmul x (S754_finite sy my ey))).
Proof.
  intros Hx Hc Hey HA HB Hv HAB. pose proof scale_pos. unfold dmul. destruct x as [sx|sx| |sx mx ex]; try contradiction; cbn [SFmul]; [split; [split; [done|cbn [dval]; lia]|done]|]. cbn [good dval] in Hx, Hv. pose proof Hx as (Hx1 & _). pose proof Hc as (Hc1 & _).
  assert (Hb : Z.pos mx * 2 ^ (ex + K) <= A * scale) by (destruct sx; cbn [cond_Zopp] in Hv; lia).
  assert (HR : within (if xorb sx sy then - B else 0) (if xorb sx sy then 0 else B) (binary_round_aux 53 1024 (xorb sx sy) (Z.pos (mx * my)) (ex + ey) loc_Exact)).
  { apply signed_within; [lia|]. apply round_bound; [lia|unfold K; lia|by apply product_digits|done|]. cbn [loc_inexact Z.b2z]. rewrite Z.add_0_r. eapply product_bound; try done; lia. }
  split; [eapply within_mono; [| |exact HR]; destruct (xorb sx sy); lia|]. intros Hs ->. destruct HR as [_ HR]. cbn [dval] in Hs. assert (0 < Z.pos mx * 2 ^ (ex + K)) by (apply Z.mul_pos_pos; [lia|apply Z.pow_pos_nonneg; unfold K; lia]). destruct sx; cbn [cond_Zopp xorb] in *; lia.
Qed.

Lemma div_core m1 e1 m2 e2 : 0 < m1 -> 0 < m2 -> let d := Zdigits2 m1 + e1 - (Zdigits2 m2 + e2) in let e' := Z.min (fexp 53 1024 d) (e1 - e2) in
  exists q l, SFdiv_core_binary 53 1024 m1 e1 m2 e2 = (q, e', l) /\ 0 <= q /\ e' <= fexp 53 1024 (Zdigits2 q + e') /\ (forall c, m1 * 2 ^ (e1 - e2 - e') <= c * m2 -> q + Z.b2z (loc_inexact l) <= c).
Proof.
  intros H1 H2 d e'. unfold SFdiv_core_binary. fold d. fold e'. set (m' := match e1 - e2 - e' with Z0 => m1 | _ => _ end).
  assert (Em : m' = m1 * 2 ^ (e1 - e2 - e')) by (unfold m'; destruct (e1 - e2 - e') eqn:E; [lia|by rewrite Z.shiftl_mul_pow2 by lia|lia]). clearbody m'. pose proof (Z_div_mod m' m2 ltac:(lia)) as Hdm. destruct (Z.div_eucl m' m2) as [q r]. destruct Hdm as [Hq Hr].
  assert (Hm' : 0 < m') by (rewrite Em; apply Z.mul_pos_pos; [done|apply Z.pow_pos_nonneg; lia]). assert (Hq0 : 0 <= q) by nia. exists q, (new_location m2 r). split; [done|]. split; [done|]. split.
  - rewrite fexp_is. assert (He' : e' <= Z.max (d - 53) (-1074)) by (unfold e'; rewrite fexp_is; lia). destruct (Z.le_gt_cases e' (-1074)); [lia|]. assert (Hd : e' <= d - 53) by lia.
    assert (Hdq : d - e' <= Zdigits2 q); [|lia]. destruct (digits_nonneg q Hq0) as [Hz Hlt]. assert (d - e' - 1 < Zdigits2 q); [|lia]. apply pow_le_inv; [lia|]. eapply Z.le_lt_trans; [|exact Hlt].
    destruct (digits_bounds m1 H1) as [[L1 _] D1]. destruct (digits_bounds m2 H2) as [[_ U2] D2]. assert (Hlow : 2 ^ (Zdigits2 m1 - 1 + (e1 - e2 - e')) <= m') by (rewrite Em, Z.pow_add_r by lia; apply Z.mul_le_mono_nonneg_r; [apply Z.pow_nonneg; lia|done]).
    assert (2 ^ (d - e' - 1) * 2 ^ Zdigits2 m2 <= m') by (rewrite <- Z.pow_add_r by lia; replace (d - e' - 1 + Zdigits2 m2) with (Zdigits2 m1 - 1 + (e1 - e2 - e')) by (unfold d; lia); done).
    pose proof (Z.pow_pos_nonneg 2 (d - e' - 1) ltac:(lia) ltac:(lia)). set (P := 2 ^ (d - e' - 1)) in *. destruct (Z.le_gt_cases P q) as [|Hlt2]; [done|]. exfalso. assert (m' < P * m2) by nia. nia.
  - intros c Hc. rewrite <- Em in Hc. assert (El : Z.b2z (loc_inexact (new_location m2 r)) = if r =? 0 then 0 else 1) by (unfold new_location, new_location_even, new_location_odd; destruct (Z.even m2), (r =? 0); done). rewrite El. destruct (Z.eqb_spec r 0); nia.
Qed.

Lemma ddiv_within x my ey A B : good x -> canon my ey -> ey <= 0 -> -12 <= Z.pos (digits2_pos my) + ey -> 0 <= A < 2 ^ 40 -> 0 <= B < 2 ^ 52 -> - A * scale <= dval x <= A * scale -> A * 2 ^ (- ey) <= Z.pos my * B ->
  within (- B) B (ddiv x (S754_finite false my ey)) /\ (0 <= dval x -> 0 <= dval (ddiv x (S754_finite false my ey))).
Proof.
  intros Hx Hc Hey Hd HA HB Hv HAB. pose proof scale_pos. unfold ddiv. destruct x as [sx|sx| |sx mx ex]; try contradiction; cbn [SFdiv]; [split; [split; [done|cbn [dval]; lia]|done]|]. cbn [good dval] in Hx, Hv. pose proof Hx as (Hx1 & _). pose proof Hc as (Hc1 & _).
  assert (Hb : Z.pos mx * 2 ^ (ex + K) <= A * scale) by (destruct sx; cbn [cond_Zopp] in Hv; lia).
  assert (Hdx : Zdigits2 (Z.pos mx) + ex <= 40). { destruct (digits_bounds (Z.pos mx) ltac:(lia)) as [[L _] D]. set (d := Zdigits2 (Z.pos mx)) in *. assert (d - 1 + (ex + K) < 40 + K); [|lia]. apply pow_le_inv; [unfold K; lia|]. rewrite (Z.pow_add_r 2 (d - 1)), (Z.pow_add_r 2 40) by (unfold K; lia). fold scale.
    apply Z.le_lt_trans with (Z.pos mx * 2 ^ (ex + K)); [apply Z.mul_le_mono_nonneg_r; [apply Z.pow_nonneg; lia|done]|]. eapply Z.le_lt_trans; [exact Hb|]. apply Z.mul_lt_mono_pos_r; lia. }
  destruct (div_core (Z.pos mx) ex (Z.pos my) ey ltac:(lia) ltac:(lia)) as (q & l & -> & Hq & He & Hcl). set (e' := Z.min _ _) in *. assert (He' : -K <= e' <= 0) by (unfold e'; rewrite fexp_is; cbn [Zdigits2] in *; unfold K; lia).
  assert (Hs : 0 <= ex - ey - e') by (unfold e'; lia). rewrite xorb_false_r.
  assert (HR : within (if sx then - B else 0) (if sx then 0 else B) (binary_round_aux 53 1024 sx q e' l)).
  { apply signed_within; [lia|]. apply round_bound; [done|lia|done|done|]. apply scaled_bound; [done|lia|]. apply Hcl. assert (Hp : 0 < 2 ^ (K + e')) by (apply Z.pow_pos_nonneg; lia). apply (Z.mul_le_mono_pos_r _ _ (2 ^ (K + e'))); [done|].
    replace (Z.pos mx * 2 ^ (ex - ey - e') * 2 ^ (K + e')) with (Z.pos mx * 2 ^ (ex + K) * 2 ^ (- ey)) by (rewrite <- !Z.mul_assoc, <- !Z.pow_add_r by (unfold K in *; lia); do 2 f_equal; lia).
    replace (B * 2 ^ (- e') * Z.pos my * 2 ^ (K + e')) with (Z.pos my * B * scale). 2:{ unfold scale. replace (2 ^ K) with (2 ^ (- e') * 2 ^ (K + e')) by (rewrite <- Z.pow_add_r by lia; f_equal; lia). ring. }
    apply Z.le_trans with (A * scale * 2 ^ (- ey)); [apply Z.mul_le_mono_nonneg_r; [apply Z.pow_nonneg; lia|done]|]. replace (A * scale * 2 ^ (- ey)) with (A * 2 ^ (- ey) * scale) by ring. apply Z.mul_le_mono_nonneg_r; lia. }
  split; [eapply within_mono; [| |exact HR]; destruct sx; lia|]. intros Hs0. destruct HR as [_ HR]. cbn [dval] in Hs0. assert (0 < Z.pos mx * 2 ^ (ex + K)) by (apply Z.mul_pos_pos; [lia|apply Z.pow_pos_nonneg; unfold K; lia]). destruct sx; cbn [cond_Zopp] in *; lia.
Qed.

(** * Comparison *)

Lemma pos_lt m1 e1 m2 e2 : canon m1 e1 -> canon m2 e2 -> e1 < e2 -> Z.pos m1 * 2 ^ (e1 + K) < Z.pos m2 * 2 ^ (e2 + K).
Proof.
  intros (H1 & L1 & _) (H2 & _ & C2) He. destruct C2 as [->|C2]; [lia|]. apply Z.lt_le_trans with (2 ^ 53 * 2 ^ (e1 + K)); [apply Z.mul_lt_mono_pos_r; [apply Z.pow_pos_nonneg; unfold K; lia|done]|].
  apply Z.le_trans with (2 ^ 52 * 2 ^ (e2 + K)); [rewrite <- !Z.pow_add_r by (unfold K; lia); apply Z.pow_le_mono_r; lia|]. apply Z.mul_le_mono_nonneg_r; [apply Z.pow_nonneg; lia|done].
Qed.

Lemma pos_compare m1 e1 m2 e2 : canon m1 e1 -> canon m2 e2 ->
  match Z.compare e1 e2 with Lt => Lt | Gt => Gt | Eq => Pos.compare_cont Eq m1 m2 end = Z.compare (Z.pos m1 * 2 ^ (e1 + K)) (Z.pos m2 * 2 ^ (e2 + K)).
Proof.
  intros C1 C2. destruct (Z.compare_spec e1 e2) as [->|H|H]; symmetry.
  - change (Pos.compare_cont Eq m1 m2) with (Z.pos m1 ?= Z.pos m2). symmetry. apply Zmult_compare_compat_r. pose proof C2 as [? _]. apply Z.lt_gt. apply Z.pow_pos_nonneg; unfold K; lia.
  - apply Z.compare_lt_iff. by apply pos_lt.
  - apply Z.compare_gt_iff. by apply pos_lt.
Qed.

Lemma compare_val x y : good x -> good y -> SFcompare x y = Some (Z.compare (dval x) (dval y)).
Proof.
  intros Hx Hy. destruct x as [sx|sx| |sx mx ex]; try contradiction; destruct y as [sy|sy| |sy my ey]; try contradiction; cbn [SFcompare dval]; [done|..]; f_equal.
  - cbn [good] in Hy. destruct Hy as [Hy _]. assert (0 < Z.pos my * 2 ^ (ey + K)) by (apply Z.mul_pos_pos; [lia|apply Z.pow_pos_nonneg; unfold K; lia]). destruct sy; cbn [cond_Zopp]; symmetry; [apply Z.compare_gt_iff|apply Z.compare_lt_iff]; lia.
  - cbn [good] in Hx. destruct Hx as [Hx _]. assert (0 < Z.pos mx * 2 ^ (ex + K)) by (apply Z.mul_pos_pos; [lia|apply Z.pow_pos_nonneg; unfold K; lia]). destruct sx; cbn [cond_Zopp]; symmetry; [apply Z.compare_lt_iff|apply Z.compare_gt_iff]; lia.
  - cbn [good] in Hx, Hy. pose proof (pos_compare mx ex my ey Hx Hy) as E. pose proof Hx as [Hx1 _]. pose proof Hy as [Hy1 _]. assert (0 < Z.pos mx * 2 ^ (ex + K)) by (apply Z.mul_pos_pos; [lia|apply Z.pow_pos_nonneg; unfold K; lia]). assert (0 < Z.pos my * 2 ^ (ey + K)) by (apply Z.mul_pos_pos; [lia|apply Z.pow_pos_nonneg; unfold K; lia]).
    destruct sx, sy; cbn [cond_Zopp]; [|symmetry; apply Z.compare_lt_iff; lia|symmetry; apply Z.compare_gt_iff; lia|exact E]. rewrite Z.compare_opp, (Z.compare_antisym (Z.pos mx * 2 ^ (ex + K)) (Z.pos my * 2 ^ (ey + K))), <- E. by destruct (ex ?= ey).
Qed.

Lemma dlt_val x y : good x -> good y -> dlt x y = (dval x <? dval y).
Proof. intros Hx Hy. unfold dlt, SFltb. rewrite compare_val by done. unfold Z.ltb. by destruct (dval x ?= dval y). Qed.
Lemma dle_val x y : good x -> good y -> dle x y = (dval x <=? dval y).
Proof. intros Hx Hy. unfold dle, SFleb. rewrite compare_val by done. unfold Z.leb. by destruct (dval x ?= dval y). Qed.
