(* ===== verification/NmeaDecode.v ===== *)
(** The decoders of [nmea0183_parse.c] and the mapping to Signal K of
    [nmea0183_sk_map.c] and [nmea0183_sk_publish.c].

    A function with an output argument returns an option; a decoder returns its result
    and what it left in the output. [char] 0 is the missing character. *)
From Stdlib Require Import ZArith Lia String.
From Stdlib Require Import Floats.SpecFloat.
From stdpp Require Import base list numbers option.
From S2P Require Import Prelude ConfigDesc TimePolicy Double Nmea.
Open Scope Z_scope.

(** Decimal constants, and the ones the compiler divides out. *)
Definition KNOT_MS : double := Eval vm_compute in ddiv (dint 1852) (dint 3600).
Definition KMH_MS : double := Eval vm_compute in ddiv (dint 1000) (dint 3600).
Definition FOOT_M : double := Eval vm_compute in ddec false 3048 4.
Definition FATHOM_M : double := Eval vm_compute in ddec false 18288 4.
Definition CELSIUS_K : double := Eval vm_compute in ddec false 27315 2.
Definition DEG_RAD : double := Eval vm_compute in ddiv (ddec false 314159265358979323846 20) (dint 180).
Definition d60 : double := Eval vm_compute in dint 60.
Definition d100 : double := Eval vm_compute in dint 100.
Definition d360 : double := Eval vm_compute in dint 360.

(** * Fields *)

Definition espos_nmea0183_field_double (s : espos_nmea0183_sentence_t) (i : Z) : option double :=
  f ← get_field s i;
  if negb (forallb (fun c => isdigit c || (c =? 46) || (c =? 45) || (c =? 43)) f) then None else
  match strtod f with
  | Some (v, []) => if dfinite v then Some v else None
  | _ => None
  end.

Definition espos_nmea0183_field_latlon (s : espos_nmea0183_sentence_t) (i : Z) : option double :=
  let hemi := espos_nmea0183_field_char s (i + 1) in
  v ← espos_nmea0183_field_double s i;
  if dlt v dzero || dle (dint 18100) v then None else
  let deg := dint (dtrunc (ddiv v d100)) in
  let min := dsub v (dmul deg d100) in
  if dle d60 min then None else
  let deg := dadd deg (ddiv min d60) in
  if (hemi =? 78) || (hemi =? 83) then
    (if dlt (dint 90) deg then None else Some (if hemi =? 83 then dopp deg else deg))
  else if (hemi =? 69) || (hemi =? 87) then
    (if dlt (dint 180) deg then None else Some (if hemi =? 87 then dopp deg else deg))
  else None.

Definition espos_nmea0183_field_time (s : espos_nmea0183_sentence_t) (i : Z) : option Z :=
  f ← get_field s i;
  if (length f <? 6)%nat then None else
  let hh := digits f 2 in
  let mm := digits (drop 2 f) 2 in
  let ss := digits (drop 4 f) 2 in
  if (hh <? 0) || (mm <? 0) || (ss <? 0) || (23 <? hh) || (59 <? mm) || (60 <? ss) then None else
  frac ← match drop 6 f with
         | [] => Some dzero
         | c :: r => if negb (c =? 46) || bool_decide (r = []) || negb (forallb isdigit r) then None
                     else match strtod (c :: r) with Some (v, []) => Some v | _ => None end
         end;
  Some ((hh * 3600 + mm * 60 + ss) * 1000 + dtrunc (dadd (dmul frac (dint 1000)) (ddec false 5 1))).

(** The two loops of [rad_of], by the number of their rounds. *)
Fixpoint turn_up (n : nat) (deg : double) : double := match n with O => deg | S n => if dlt deg dzero then turn_up n (dadd deg d360) else deg end.
Fixpoint turn_down (n : nat) (deg : double) : double := match n with O => deg | S n => if dle d360 deg then turn_down n (dsub deg d360) else deg end.
Definition rad_of (deg : double) : double := dmul (turn_down 4 (turn_up 4 deg)) DEG_RAD.

Definition signed_angle (s : espos_nmea0183_sentence_t) (i : Z) : option double :=
  let ew := espos_nmea0183_field_char s (i + 1) in
  v ← espos_nmea0183_field_double s i;
  if dlt v dzero || dlt (dint 180) v || (negb (ew =? 69) && negb (ew =? 87)) then None
  else Some (dmul (if ew =? 87 then dopp v else v) DEG_RAD).

Definition angle (s : espos_nmea0183_sentence_t) (i : Z) : option double :=
  v ← espos_nmea0183_field_double s i;
  if dlt v dzero || dlt d360 v then None else Some (rad_of v).

(** [lat] stays set where the longitude is missing. *)
Definition position (s : espos_nmea0183_sentence_t) (i : Z) : bool * double * double :=
  match espos_nmea0183_field_latlon s i with
  | None => (false, dzero, dzero)
  | Some lat => match espos_nmea0183_field_latlon s (i + 2) with None => (false, lat, dzero) | Some lon => (true, lat, lon) end
  end.

Definition is_some {A} (o : option A) : bool := match o with Some _ => true | None => false end.
(** A flag and a value: the value is stored even where the test fails. *)
Definition ge0 (o : option double) : bool := match o with Some v => dle dzero v | None => false end.

(** * The sentences *)

Record espos_nmea0183_gga_t := Gga {
  gga_has_time : bool; gga_has_position : bool; gga_has_satellites : bool; gga_has_hdop : bool; gga_has_altitude : bool; gga_has_geoid : bool;
  gga_time_ms : Z; gga_lat : double; gga_lon : double; gga_quality : Z; gga_satellites : Z; gga_hdop : double; gga_altitude : double; gga_geoid_separation : double }.
Definition gga_zero : espos_nmea0183_gga_t := Gga false false false false false false 0 dzero dzero 0 0 dzero dzero dzero.

Definition espos_nmea0183_decode_gga (s : espos_nmea0183_sentence_t) : bool * espos_nmea0183_gga_t :=
  if negb (espos_nmea0183_is s (lit "GGA")) then (false, gga_zero) else
  let time := espos_nmea0183_field_time s 0 in
  let quality := match field_int s 5 with Some q => if q <? 0 then 0 else q | None => 0 end in
  let fix_ := (1 <=? quality) && (quality <=? 5) in
  let '(has_pos, lat, lon) := if fix_ then position s 1 else (false, dzero, dzero) in
  let sats := field_int s 6 in
  let has_sats := match sats with Some n => 0 <=? n | None => false end in
  let hdop := espos_nmea0183_field_double s 7 in
  let alt := if fix_ then espos_nmea0183_field_double s 8 else None in
  let geoid := if fix_ then espos_nmea0183_field_double s 10 else None in
  (is_some time || has_pos || has_sats,
   Gga (is_some time) has_pos has_sats (ge0 hdop) (is_some alt) (is_some geoid)
     (default 0 time) lat lon quality (default 0 sats) (default dzero hdop) (default dzero alt) (default dzero geoid)).

(** 'A', 'D', 'F', 'R', 'P', or none. *)
Definition mode_is_fix (mode : Z) : bool := (mode =? 0) || existsb (Z.eqb mode) (lit "ADFRP").

Record espos_nmea0183_rmc_t := Rmc {
  rmc_valid : bool; rmc_has_time : bool; rmc_has_datetime : bool; rmc_has_position : bool; rmc_has_sog : bool; rmc_has_cog : bool; rmc_has_variation : bool;
  rmc_time_ms : Z; rmc_unix_ms : Z; rmc_lat : double; rmc_lon : double; rmc_sog : double; rmc_cog_true : double; rmc_variation : double; rmc_mode : Z }.
Definition rmc_zero : espos_nmea0183_rmc_t := Rmc false false false false false false false 0 0 dzero dzero dzero dzero dzero 0.

Definition espos_nmea0183_decode_rmc (s : espos_nmea0183_sentence_t) : bool * espos_nmea0183_rmc_t :=
  if negb (espos_nmea0183_is s (lit "RMC")) then (false, rmc_zero) else
  let mode := espos_nmea0183_field_char s 11 in
  let valid := (espos_nmea0183_field_char s 1 =? 65) && mode_is_fix mode in
  let time := espos_nmea0183_field_time s 0 in
  let unix := match time with Some t => match date_ddmmyy s 8 with Some (y, m, d) => espos_nmea0183_unix_ms y m d t | None => 0 end | None => 0 end in
  let has_datetime := match time with Some _ => is_some (date_ddmmyy s 8) && (0 <=? unix) | None => false end in
  let '(has_pos, lat, lon) := if valid then position s 2 else (false, dzero, dzero) in
  let kn := if valid then espos_nmea0183_field_double s 6 else None in
  let cog := if valid then angle s 7 else None in
  let var := signed_angle s 9 in
  (is_some time || valid || is_some var,
   Rmc valid (is_some time) has_datetime has_pos (ge0 kn) (is_some cog) (is_some var)
     (default 0 time) unix lat lon (if ge0 kn then dmul (default dzero kn) KNOT_MS else dzero) (default dzero cog) (default dzero var) mode).

(** A speed in knots, or else in kilometres per hour. *)
Definition speed (s : espos_nmea0183_sentence_t) (i_kn i_kmh : Z) : option double :=
  let kn := espos_nmea0183_field_double s i_kn in
  if ge0 kn then Some (dmul (default dzero kn) KNOT_MS) else
  let kmh := espos_nmea0183_field_double s i_kmh in
  if ge0 kmh then Some (dmul (default dzero kmh) KMH_MS) else None.

Record espos_nmea0183_vtg_t := Vtg {
  vtg_valid : bool; vtg_has_cog_true : bool; vtg_has_cog_magnetic : bool; vtg_has_sog : bool; vtg_cog_true : double; vtg_cog_magnetic : double; vtg_sog : double; vtg_mode : Z }.
Definition vtg_zero : espos_nmea0183_vtg_t := Vtg false false false false dzero dzero dzero 0.

Definition espos_nmea0183_decode_vtg (s : espos_nmea0183_sentence_t) : bool * espos_nmea0183_vtg_t :=
  if negb (espos_nmea0183_is s (lit "VTG")) then (false, vtg_zero) else
  let lettered := (espos_nmea0183_field_char s 1 =? 84) || (espos_nmea0183_field_char s 3 =? 77) || (espos_nmea0183_field_char s 5 =? 78) in
  let i_mag := if lettered then 2 else 1 in
  let i_kn := if lettered then 4 else 2 in
  let i_kmh := if lettered then 6 else 3 in
  let mode := if lettered then espos_nmea0183_field_char s 8 else 0 in
  if negb (mode_is_fix mode) then (false, Vtg false false false false dzero dzero dzero mode) else
  let ct := angle s 0 in
  let cm := angle s i_mag in
  let sog := speed s i_kn i_kmh in
  (is_some ct || is_some cm || is_some sog, Vtg true (is_some ct) (is_some cm) (is_some sog) (default dzero ct) (default dzero cm) (default dzero sog) mode).

Record espos_nmea0183_heading_t := Heading { hd_has_true : bool; hd_has_magnetic : bool; hd_has_variation : bool; hd_heading_true : double; hd_heading_magnetic : double; hd_variation : double }.
Definition heading_zero : espos_nmea0183_heading_t := Heading false false false dzero dzero dzero.

Definition espos_nmea0183_decode_heading (s : espos_nmea0183_sentence_t) : bool * espos_nmea0183_heading_t :=
  let done_ out := (hd_has_true out || hd_has_magnetic out || hd_has_variation out, out) in
  if espos_nmea0183_is s (lit "HDT") then
    let t := angle s 0 in done_ (Heading (is_some t) false false (default dzero t) dzero dzero)
  else if espos_nmea0183_is s (lit "HDM") then
    let m := angle s 0 in done_ (Heading false (is_some m) false dzero (default dzero m) dzero)
  else if espos_nmea0183_is s (lit "HDG") then
    let mag := (fun sensor => let dev := default dzero (signed_angle s 1) in rad_of (ddiv (dadd sensor dev) DEG_RAD)) <$> angle s 0 in
    let var := signed_angle s 3 in
    done_ (Heading false (is_some mag) (is_some var) dzero (default dzero mag) (default dzero var))
  else (false, heading_zero).

Inductive espos_nmea0183_depth_ref_t := ESPOS_NMEA0183_DEPTH_TRANSDUCER | ESPOS_NMEA0183_DEPTH_SURFACE | ESPOS_NMEA0183_DEPTH_KEEL | ESPOS_NMEA0183_DEPTH_REF_MAX.
#[export] Instance depth_ref_eq_dec : EqDecision espos_nmea0183_depth_ref_t.
Proof. solve_decision. Defined.
Record espos_nmea0183_depth_t := Depth { dp_has_depth : bool; dp_has_offset : bool; dp_has_range : bool; dp_below : espos_nmea0183_depth_ref_t; dp_depth : double; dp_offset : double; dp_range : double }.
Definition depth_zero : espos_nmea0183_depth_t := Depth false false false ESPOS_NMEA0183_DEPTH_TRANSDUCER dzero dzero dzero.

(** Metres, or else feet, or else fathoms. *)
Definition depth_of (s : espos_nmea0183_sentence_t) : option double :=
  match espos_nmea0183_field_double s 2 with
  | Some v => Some v
  | None =>
      match espos_nmea0183_field_double s 0 with
      | Some v => Some (dmul v FOOT_M)
      | None => match espos_nmea0183_field_double s 4 with Some v => Some (dmul v FATHOM_M) | None => None end
      end
  end.

Definition espos_nmea0183_decode_depth (s : espos_nmea0183_sentence_t) : bool * espos_nmea0183_depth_t :=
  if espos_nmea0183_is s (lit "DPT") then
    let d := espos_nmea0183_field_double s 0 in
    let o := espos_nmea0183_field_double s 1 in
    let r := espos_nmea0183_field_double s 2 in
    (ge0 d, Depth (ge0 d) (is_some o) (match r with Some v => dlt dzero v | None => false end) ESPOS_NMEA0183_DEPTH_TRANSDUCER (default dzero d) (default dzero o) (default dzero r))
  else
  let below := if espos_nmea0183_is s (lit "DBT") then Some ESPOS_NMEA0183_DEPTH_TRANSDUCER
               else if espos_nmea0183_is s (lit "DBS") then Some ESPOS_NMEA0183_DEPTH_SURFACE
               else if espos_nmea0183_is s (lit "DBK") then Some ESPOS_NMEA0183_DEPTH_KEEL else None in
  match below with
  | None => (false, depth_zero)
  | Some b =>
      match depth_of s with
      | None => (false, Depth false false false b dzero dzero dzero)
      | Some v => let has := bool_decide (b = ESPOS_NMEA0183_DEPTH_KEEL) || dle dzero v in (has, Depth has false false b v dzero dzero)
      end
  end.

Record espos_nmea0183_mtw_t := Mtw { mtw_has_temperature : bool; mtw_temperature : double }.
Definition espos_nmea0183_decode_mtw (s : espos_nmea0183_sentence_t) : bool * espos_nmea0183_mtw_t :=
  if negb (espos_nmea0183_is s (lit "MTW")) then (false, Mtw false dzero) else
  let unit := espos_nmea0183_field_char s 1 in
  match espos_nmea0183_field_double s 0 with
  | Some c => if (unit =? 67) || (unit =? 0) then (true, Mtw true (dadd c CELSIUS_K)) else (false, Mtw false dzero)
  | None => (false, Mtw false dzero)
  end.

Record espos_nmea0183_vhw_t := Vhw { vhw_has_stw : bool; vhw_has_true : bool; vhw_has_magnetic : bool; vhw_stw : double; vhw_heading_true : double; vhw_heading_magnetic : double }.
Definition espos_nmea0183_decode_vhw (s : espos_nmea0183_sentence_t) : bool * espos_nmea0183_vhw_t :=
  if negb (espos_nmea0183_is s (lit "VHW")) then (false, Vhw false false false dzero dzero dzero) else
  let t := angle s 0 in
  let m := angle s 2 in
  let stw := speed s 4 6 in
  (is_some t || is_some m || is_some stw, Vhw (is_some stw) (is_some t) (is_some m) (default dzero stw) (default dzero t) (default dzero m)).

Record espos_nmea0183_zda_t := Zda { zda_has_datetime : bool; zda_unix_ms : Z }.
Definition espos_nmea0183_decode_zda (s : espos_nmea0183_sentence_t) : bool * espos_nmea0183_zda_t :=
  if negb (espos_nmea0183_is s (lit "ZDA")) then (false, Zda false 0) else
  match espos_nmea0183_field_time s 0, field_int s 1, field_int s 2, get_field s 3, field_int s 3 with
  | Some ms, Some d, Some m, Some fy, Some y =>
      if (length fy =? 4)%nat then let t := espos_nmea0183_unix_ms y m d ms in (0 <=? t, Zda (0 <=? t) t) else (false, Zda false 0)
  | _, _, _, _, _ => (false, Zda false 0)
  end.

(** Newton's square root, at most 60 rounds. *)
Fixpoint newton (n : nat) (x r : double) : double :=
  match n with
  | O => r
  | S n => let next := ddiv (dadd r (ddiv x r)) (dint 2) in if deq next r then r else newton n x next
  end.
Definition root (x : double) : double := if dle x dzero then dzero else newton 60 x (if dlt (dint 1) x then ddiv x (dint 2) else dint 1).

Definition deviation (s : espos_nmea0183_sentence_t) (i : Z) : bool * double :=
  match espos_nmea0183_field_double s i with Some v => (dle dzero v && dlt v (dint 1000000), v) | None => (false, dzero) end.

Record espos_nmea0183_gst_t := Gst { gst_has_time : bool; gst_has_rms : bool; gst_has_lat_lon : bool; gst_has_altitude : bool; gst_time_ms : Z; gst_rms : double; gst_lat_sd : double; gst_lon_sd : double; gst_h_accuracy : double; gst_altitude_sd : double }.
Definition gst_zero : espos_nmea0183_gst_t := Gst false false false false 0 dzero dzero dzero dzero dzero.
Definition espos_nmea0183_decode_gst (s : espos_nmea0183_sentence_t) : bool * espos_nmea0183_gst_t :=
  if negb (espos_nmea0183_is s (lit "GST")) then (false, gst_zero) else
  let time := espos_nmea0183_field_time s 0 in
  let '(has_rms, rms) := deviation s 1 in
  let '(has_lat, lat) := deviation s 5 in
  let '(has_lon, lon) := if has_lat then deviation s 6 else (false, dzero) in
  let both := has_lat && has_lon in
  let '(has_alt, alt) := deviation s 7 in
  (has_rms || both || has_alt,
   Gst (is_some time) has_rms both has_alt (default 0 time) rms (if both then lat else dzero) (if both then lon else dzero) (if both then root (dadd (dmul lat lat) (dmul lon lon)) else dzero) alt).

(** * Signal K *)

Definition ESPOS_NMEA0183_SK_MAX_UPDATES : nat := 8.
Definition ESPOS_NMEA0183_SK_JSON_MAX : nat := 64.
Definition CLOCK_FLOOR_MS : Z := 1577836800000.
Definition ESPOS_NMEA0183_SK_CLOCK_SLACK_MS : Z := 2000.

(** The kind says which value is meant. *)
Inductive espos_nmea0183_sk_kind_t := ESPOS_NMEA0183_SK_NUMBER | ESPOS_NMEA0183_SK_JSON | ESPOS_NMEA0183_SK_STRING.
Record espos_nmea0183_sk_update_t := Update { u_path : cstr; u_kind : espos_nmea0183_sk_kind_t; u_number : double; u_text : cstr }.

(** [out] so far. *)
Definition next (max : nat) (u : espos_nmea0183_sk_update_t) (k : list espos_nmea0183_sk_update_t) : list espos_nmea0183_sk_update_t := if (max <=? length k)%nat then k else k ++ [u].
Definition number (path : string) (v : double) : espos_nmea0183_sk_update_t := Update (lit path) ESPOS_NMEA0183_SK_NUMBER v [].
Definition string_ (path : string) (v : cstr) : espos_nmea0183_sk_update_t := Update (lit path) ESPOS_NMEA0183_SK_STRING dzero (snprintf_s ESPOS_NMEA0183_SK_JSON_MAX v).
Definition position_text (lat lon : double) : cstr := [123; 34] ++ lit "longitude" ++ [34; 58] ++ fmt_7f lon ++ [44; 34] ++ lit "latitude" ++ [34; 58] ++ fmt_7f lat ++ [125].
Definition sk_position (lat lon : double) : espos_nmea0183_sk_update_t := Update (lit "navigation.position") ESPOS_NMEA0183_SK_JSON dzero (snprintf_s ESPOS_NMEA0183_SK_JSON_MAX (position_text lat lon)).

(** [gmtime_r] and [strftime] of a time after 1970. *)
Definition iso_text (unix_ms : Z) : cstr :=
  let secs := unix_ms / 1000 in
  let '(y, m, d) := civil_from_days (secs / 86400) in
  let t := secs mod 86400 in
  snprintf_s 48 (fmt_d y ++ lit "-" ++ dec_fixed 2 m ++ lit "-" ++ dec_fixed 2 d ++ lit "T" ++ dec_fixed 2 (t / 3600) ++ lit ":" ++ dec_fixed 2 (t / 60 mod 60) ++ lit ":" ++ dec_fixed 2 (t mod 60) ++ lit "." ++ dec_fixed 3 (unix_ms mod 1000) ++ lit "Z").
Definition datetime (unix_ms : Z) : espos_nmea0183_sk_update_t := string_ "navigation.datetime" (iso_text unix_ms).

Definition method_quality (q : Z) : cstr :=
  let names := [lit "no GPS"; lit "GNSS Fix"; lit "DGNSS fix"; lit "Precise GNSS"; lit "RTK fixed integer"; lit "RTK float"; lit "Estimated (DR) mode"; lit "Manual input"; lit "Simulator mode"] in
  if (0 <=? q) && (q <? 9) then nth (Z.to_nat q) names [] else lit "Error".

Definition opt (b : bool) (u : espos_nmea0183_sk_update_t) : list espos_nmea0183_sk_update_t := if b then [u] else [].

(** What the mapping hands to [next], in order. *)
Definition sk_values (s : espos_nmea0183_sentence_t) : list espos_nmea0183_sk_update_t :=
  let '(ok, gga) := espos_nmea0183_decode_gga s in
  if ok then
    opt (gga_has_position gga) (sk_position (gga_lat gga) (gga_lon gga)) ++ [string_ "navigation.gnss.methodQuality" (method_quality (gga_quality gga))] ++
    opt (gga_has_satellites gga) (number "navigation.gnss.satellites" (dint (gga_satellites gga))) ++ opt (gga_has_hdop gga) (number "navigation.gnss.horizontalDilution" (gga_hdop gga)) ++
    opt (gga_has_altitude gga) (number "navigation.gnss.antennaAltitude" (gga_altitude gga)) ++ opt (gga_has_geoid gga) (number "navigation.gnss.geoidalSeparation" (gga_geoid_separation gga))
  else
  let '(ok, rmc) := espos_nmea0183_decode_rmc s in
  if ok then
    (if rmc_valid rmc then
       opt (rmc_has_position rmc) (sk_position (rmc_lat rmc) (rmc_lon rmc)) ++ opt (rmc_has_cog rmc) (number "navigation.courseOverGroundTrue" (rmc_cog_true rmc)) ++
       opt (rmc_has_sog rmc) (number "navigation.speedOverGround" (rmc_sog rmc)) ++ opt (rmc_has_datetime rmc && (CLOCK_FLOOR_MS <=? rmc_unix_ms rmc)) (datetime (rmc_unix_ms rmc))
     else []) ++
    opt (rmc_has_variation rmc) (number "navigation.magneticVariation" (rmc_variation rmc))
  else
  let '(ok, vtg) := espos_nmea0183_decode_vtg s in
  if ok then
    opt (vtg_has_cog_true vtg) (number "navigation.courseOverGroundTrue" (vtg_cog_true vtg)) ++ opt (vtg_has_cog_magnetic vtg) (number "navigation.courseOverGroundMagnetic" (vtg_cog_magnetic vtg)) ++
    opt (vtg_has_sog vtg) (number "navigation.speedOverGround" (vtg_sog vtg))
  else
  let '(ok, hdg) := espos_nmea0183_decode_heading s in
  if ok then
    opt (hd_has_true hdg) (number "navigation.headingTrue" (hd_heading_true hdg)) ++ opt (hd_has_magnetic hdg) (number "navigation.headingMagnetic" (hd_heading_magnetic hdg)) ++
    opt (hd_has_variation hdg) (number "navigation.magneticVariation" (hd_variation hdg))
  else
  let '(ok, dpt) := espos_nmea0183_decode_depth s in
  if ok then
    match dp_below dpt with
    | ESPOS_NMEA0183_DEPTH_TRANSDUCER =>
        [number "environment.depth.belowTransducer" (dp_depth dpt)] ++
        (if dp_has_offset dpt && dlt dzero (dp_offset dpt) then
           [number "environment.depth.surfaceToTransducer" (dp_offset dpt); number "environment.depth.belowSurface" (dadd (dp_depth dpt) (dp_offset dpt))]
         else if dp_has_offset dpt && dlt (dp_offset dpt) dzero then
           [number "environment.depth.transducerToKeel" (dopp (dp_offset dpt)); number "environment.depth.belowKeel" (dadd (dp_depth dpt) (dp_offset dpt))]
         else [])
    | ESPOS_NMEA0183_DEPTH_SURFACE => [number "environment.depth.belowSurface" (dp_depth dpt)]
    | ESPOS_NMEA0183_DEPTH_KEEL => [number "environment.depth.belowKeel" (dp_depth dpt)]
    | ESPOS_NMEA0183_DEPTH_REF_MAX => []
    end
  else
  let '(ok, mtw) := espos_nmea0183_decode_mtw s in
  if ok then [number "environment.water.temperature" (mtw_temperature mtw)] else
  let '(ok, vhw) := espos_nmea0183_decode_vhw s in
  if ok then
    opt (vhw_has_stw vhw) (number "navigation.speedThroughWater" (vhw_stw vhw)) ++ opt (vhw_has_true vhw) (number "navigation.headingTrue" (vhw_heading_true vhw)) ++
    opt (vhw_has_magnetic vhw) (number "navigation.headingMagnetic" (vhw_heading_magnetic vhw))
  else
  let '(ok, zda) := espos_nmea0183_decode_zda s in
  if ok then opt (CLOCK_FLOOR_MS <=? zda_unix_ms zda) (datetime (zda_unix_ms zda)) else [].

(** [s] and [out] are there. *)
Definition espos_nmea0183_sk_map (s : espos_nmea0183_sentence_t) (max : nat) : list espos_nmea0183_sk_update_t :=
  if (max =? 0)%nat then [] else foldl (fun k u => next max u k) [] (sk_values s).

Definition espos_nmea0183_sk_clock_ms (s : espos_nmea0183_sentence_t) : Z :=
  let '(ok, rmc) := espos_nmea0183_decode_rmc s in
  if negb ok || negb (rmc_valid rmc) || negb (rmc_has_datetime rmc) || (rmc_unix_ms rmc <? CLOCK_FLOOR_MS) then 0 else rmc_unix_ms rmc.

Definition espos_nmea0183_sk_clock_due (gps_ms now_ms : Z) (synced : bool) : bool :=
  if gps_ms <=? 0 then false else
  if negb synced || (now_ms <=? 0) then true else
  let drift := gps_ms - now_ms in
  (ESPOS_NMEA0183_SK_CLOCK_SLACK_MS <? drift) || (drift <? - ESPOS_NMEA0183_SK_CLOCK_SLACK_MS).

(** [espos_nmea0183_sk_publish] in a build with the clock and the client: the time it
    sets, what it publishes, and the first error of [put], the client's answers. *)
Definition clock_set (p : espos_time_policy_t) (mono : Z) (s : espos_nmea0183_sentence_t) (set_clock : bool) : option Z :=
  if negb set_clock then None else
  let ms := espos_nmea0183_sk_clock_ms s in
  if (0 <? ms) && (src_val (src p) <=? src_val ESPOS_TIME_SRC_MANUAL) && espos_nmea0183_sk_clock_due ms (espos_time_policy_now_ms p mono) (espos_time_policy_is_synced p mono)
  then Some ms else None.
Definition espos_nmea0183_sk_publish (put : espos_nmea0183_sk_update_t -> esp_err_t) (p : espos_time_policy_t) (mono : Z) (s : espos_nmea0183_sentence_t) (set_clock : bool) :
    esp_err_t * espos_time_policy_t * list espos_nmea0183_sk_update_t :=
  let p := match clock_set p mono s set_clock with Some ms => (espos_time_policy_set p mono ms ESPOS_TIME_SRC_MANUAL).2 | None => p end in
  let up := espos_nmea0183_sk_map s ESPOS_NMEA0183_SK_MAX_UPDATES in
  (foldl (fun first u => if is_ok first then put u else first) ESP_OK up, p, up).
