(* ===== verification/NmeaAngle.v ===== *)
(** The numbers the decoders make: loops over angles end, angles and places are in
    range, and what is published of them is whole. *)
From Stdlib Require Import ZArith Lia String.
From Stdlib Require Import Floats.SpecFloat.
From stdpp Require Import base list numbers option.
From S2P Require Import Prelude ConfigDesc TimePolicy Double DoubleProps Nmea NmeaDecode.
Open Scope Z_scope.

(** * Numbers of a sentence *)

Lemma ddec_good neg n k : dfinite (ddec neg n k) = true -> good (ddec neg n k).
Proof.
  unfold ddec. destruct n as [|p|p]; try done. assert (Hk : 0 < 10 ^ Z.of_nat k) by (apply Z.pow_pos_nonneg; lia). destruct (div_core (Z.pos p) 0 (10 ^ Z.of_nat k) 0 ltac:(lia) Hk) as (q & l & -> & Hq & He & _). by apply round_good.
Qed.
Lemma strtod_good s v r : strtod s = Some (v, r) -> dfinite v = true -> good v.
Proof.
  unfold strtod. destruct (match s with [] => _ | _ => _ end) as [neg s1]. destruct (digit_run s1 0 0) as [[n k] s2]. destruct (match s2 with [] => _ | _ => _ end) as [[n' f] s3]. destruct (k + f =? 0)%nat; [done|]. intros [= <- <-]. apply ddec_good.
Qed.
Lemma field_double_good s i v : espos_nmea0183_field_double s i = Some v -> good v.
Proof.
  unfold espos_nmea0183_field_double. destruct (get_field s i) as [f|]; [|done]. cbn. destruct (negb _); [done|]. destruct (strtod f) as [[w [|]]|] eqn:E; try done. destruct (dfinite w) eqn:Ef; [|done]. intros [= <-]. by eapply strtod_good.
Qed.

(** Integers as doubles, and the constants. *)
Lemma dint_within z : - 2 ^ 52 < z < 2 ^ 52 -> within (Z.min z 0) (Z.max z 0) (dint z).
Proof. intros Hz. pose proof scale_pos. apply normalize_within; [lia|lia|lia|]. change (2 ^ (0 + K)) with scale. nia. Qed.
Lemma dzero_good : good dzero /\ dval dzero = 0.
Proof. done. Qed.

Ltac constant := split; [repeat split; try lia; vm_compute; intuition discriminate|vm_compute; reflexivity].
Lemma d360_val : good d360 /\ dval d360 = 360 * scale.
Proof. constant. Qed.
Lemma d60_val : good d60 /\ dval d60 = 60 * scale.
Proof. constant. Qed.
Lemma d90_val : good (dint 90) /\ dval (dint 90) = 90 * scale.
Proof. constant. Qed.
Lemma d180_val : good (dint 180) /\ dval (dint 180) = 180 * scale.
Proof. constant. Qed.
Lemma d18100_val : good (dint 18100) /\ dval (dint 18100) = 18100 * scale.
Proof. constant. Qed.

(** * Turns *)

#[local] Opaque scale.

(** Both loops have come to their end: neither condition holds any more. *)
Definition settled (deg : double) : Prop := dlt (turn_up 4 deg) dzero = false /\ dle d360 (turn_down 4 (turn_up 4 deg)) = false.

Lemma turn_up_step n x a b : within a b x -> -1024 <= a <= 0 -> 360 <= b <= 1024 -> (exists y, turn_up (S n) x = y /\ within 0 b y /\ dlt y dzero = false) \/ (exists y, turn_up (S n) x = turn_up n y /\ within (Z.min 0 (a + 360)) b y).
Proof.
  intros [Hg Hv] Ha Hb. cbn [turn_up]. pose proof scale_pos. destruct (dlt x dzero) eqn:E; rewrite dlt_val in E by done; cbn [dval dzero] in E.
  - right. exists (dadd x d360). split; [done|]. destruct d360_val as [G3 V3]. apply dadd_within; [exact Hg|exact G3|lia|lia|rewrite V3; nia].
  - left. exists x. split; [done|]. split; [split; [done|]; lia|]. by rewrite dlt_val.
Qed.
Lemma turn_up_ends x b : within (-1024) b x -> 360 <= b <= 1024 -> within 0 b (turn_up 4 x) /\ dlt (turn_up 4 x) dzero = false.
Proof.
  intros H Hb. destruct (turn_up_step 3 x _ _ H) as [(y & -> & ?)|(y & -> & H1)]; [lia|lia|done|]. destruct (turn_up_step 2 y _ _ H1) as [(z & -> & ?)|(z & -> & H2)]; [lia|lia|done|].
  destruct (turn_up_step 1 z _ _ H2) as [(t & -> & ?)|(t & -> & H3)]; [lia|lia|done|]. cbn [turn_up]. destruct H3 as [G3 V3]. replace (Z.min 0 (Z.min 0 (Z.min 0 (-1024 + 360) + 360) + 360)) with 0 in V3 by lia. rewrite dlt_val by done. cbn [dval dzero]. destruct (Z.ltb_spec (dval t) 0); [lia|]. split; [by split|]. rewrite dlt_val by done. cbn [dval dzero]. lia.
Qed.

Lemma turn_down_step n x b : within 0 b x -> 360 <= b <= 1024 -> (exists y, turn_down (S n) x = y /\ within 0 360 y /\ dle d360 y = false) \/ (exists y, turn_down (S n) x = turn_down n y /\ within 0 (b - 360) y).
Proof.
  intros [Hg Hv] Hb. cbn [turn_down]. pose proof scale_pos. destruct d360_val as [G3 V3]. destruct (dle d360 x) eqn:E; rewrite dle_val, V3 in E by done.
  - right. exists (dsub x d360). split; [done|]. apply dsub_within; [exact Hg|exact G3|lia|lia|rewrite V3; nia].
  - left. exists x. split; [done|]. split; [split; [done|]; lia|]. by rewrite dle_val, V3.
Qed.
Lemma below_done x b : within 0 b x -> b < 360 -> within 0 360 x /\ dle d360 x = false.
Proof. intros [Hg Hv] Hb. pose proof scale_pos. destruct d360_val as [G3 V3]. split; [split; [done|]; nia|]. rewrite dle_val, V3 by done. nia. Qed.
Lemma turn_down_ends x b : within 0 b x -> 360 <= b <= 1024 -> within 0 360 (turn_down 4 x) /\ dle d360 (turn_down 4 x) = false.
Proof.
  assert (Hs : forall n y c, within 0 c y -> c < 360 -> within 0 360 (turn_down n y) /\ dle d360 (turn_down n y) = false).
  { intros n y c Hy Hc. destruct (below_done y c Hy Hc) as [H1 H2]. destruct n; cbn [turn_down]; [done|]. by rewrite H2. }
  intros H Hb. destruct (turn_down_step 3 x b H Hb) as [(y & -> & ?)|(y & -> & H1)]; [done|]. destruct (Z.lt_ge_cases (b - 360) 360); [by eapply Hs|].
  destruct (turn_down_step 2 y _ H1) as [(z & -> & ?)|(z & -> & H2)]; [lia|done|]. by eapply (Hs 2%nat); [exact H2|lia].
Qed.

Lemma deg_rad_canon : exists m e, DEG_RAD = S754_finite false m e /\ canon m e /\ e <= 0 /\ -12 <= Z.pos (digits2_pos m) + e /\ 360 * Z.pos m <= 7 * 2 ^ (- e) /\ 180 * Z.pos m <= 4 * 2 ^ (- e) /\ 11 * 2 ^ (- e) <= Z.pos m * 640.
Proof. eexists _, _. split; [reflexivity|]. repeat split; try lia; vm_compute; intuition discriminate. Qed.

(** [rad_of] within a few turns. *)
Lemma rad_of_range x : within (-1024) 1024 x -> settled x /\ within 0 7 (rad_of x).
Proof.
  intros H. destruct (turn_up_ends x 1024 H ltac:(lia)) as [H1 H2]. destruct (turn_down_ends _ _ H1 ltac:(lia)) as [H3 H4]. split; [by split|]. unfold rad_of. destruct H3 as [G V]. destruct deg_rad_canon as (m & e & -> & Hc & He & _ & H360 & _). pose proof scale_pos.
  destruct (dmul_within _ false m e 360 7 G Hc He ltac:(lia) ltac:(lia) ltac:(lia) H360) as [[Gr Vr] Hn]. split; [done|]. specialize (Hn ltac:(lia) eq_refl). lia.
Qed.

Lemma angle_settled s i r : angle s i = Some r -> exists v, espos_nmea0183_field_double s i = Some v /\ settled v /\ r = rad_of v /\ within 0 7 r.
Proof.
  unfold angle. destruct (espos_nmea0183_field_double s i) as [v|] eqn:Ev; [|done]. cbn. pose proof (field_double_good _ _ _ Ev) as G. destruct d360_val as [G3 V3]. destruct (dlt v dzero) eqn:E1; [done|]. destruct (dlt d360 v) eqn:E2; [done|]. intros [= <-]. rewrite dlt_val in E1, E2 by done. rewrite V3 in E2. cbn [dval dzero] in E1. pose proof scale_pos.
  exists v. split; [done|]. destruct (rad_of_range v) as [H1 H2]; [split; [exact G|]; lia|]. split; [exact H1|]. split; [reflexivity|exact H2].
Qed.

Lemma signed_angle_range s i r : signed_angle s i = Some r -> within (-4) 4 r.
Proof.
  unfold signed_angle. destruct (espos_nmea0183_field_double s i) as [v|] eqn:Ev; [|done]. cbn [mbind option_bind]. pose proof (field_double_good _ _ _ Ev) as G. destruct d180_val as [G8 V8]. destruct (dlt v dzero) eqn:E1; [done|]. destruct (dlt (dint 180) v) eqn:E2; [done|]. cbn [orb]. destruct (_ && _); [done|]. intros [= <-]. rewrite dlt_val in E1, E2 by done. rewrite V8 in E2. cbn [dval dzero] in E1. pose proof scale_pos.
  destruct deg_rad_canon as (m & e & -> & Hc & He & _ & _ & H180 & _). destruct (good_opp v G) as [Go Vo].
  apply (dmul_within (if espos_nmea0183_field_char s (i + 1) =? 87 then dopp v else v) false m e 180 4); [destruct (_ =? 87); assumption|exact Hc|exact He|lia|lia|destruct (_ =? 87); lia|exact H180].
Qed.

(** C25. The two loops that bring an angle into a turn come to their end, for every angle
    a decoder gives them (a field of a sentence, or a heading corrected by its
    deviation): four rounds each are enough, whatever the text of the fields. The
    result is between 0 and 7 radians. *)
Theorem nmea_angles_settle s i r d : angle s i = Some r -> d = dzero \/ (exists j, signed_angle s j = Some d) ->
  (exists v, espos_nmea0183_field_double s i = Some v /\ settled v /\ r = rad_of v) /\ within 0 7 r /\
  settled (ddiv (dadd r d) DEG_RAD) /\ within 0 7 (rad_of (ddiv (dadd r d) DEG_RAD)).
Proof.
  intros Hr Hd. destruct (angle_settled s i r Hr) as (v & Ev & Hs & -> & Hw). split; [by exists v|]. split; [done|]. apply rad_of_range. assert (Hdw : within (-4) 4 d). { destruct Hd as [->|[j Hj]]; [split; [done|]; pose proof scale_pos; cbn [dval dzero]; lia|by eapply signed_angle_range]. }
  pose proof scale_pos. destruct Hw as [G V], Hdw as [Gd Vd]. assert (Hsum : within (-4) 11 (dadd (rad_of v) d)) by (apply dadd_within; [exact G|exact Gd|lia..]). destruct Hsum as [Gs Vs]. destruct deg_rad_canon as (m & e & -> & Hc & He & Hdg & _ & _ & H11).
  destruct (ddiv_within _ m e 11 640 Gs Hc He Hdg ltac:(lia) ltac:(lia) ltac:(lia) H11) as [Hq _]. eapply within_mono; [| |exact Hq]; lia.
Qed.

(** * Places *)

Lemma d100_canon : exists m e, d100 = S754_finite false m e /\ canon m e /\ e <= 0 /\ -12 <= Z.pos (digits2_pos m) + e /\ Z.pos m = 100 * 2 ^ (- e).
Proof. eexists _, _. split; [reflexivity|]. repeat split; try lia; vm_compute; intuition discriminate. Qed.
Lemma d60_canon : exists m e, d60 = S754_finite false m e /\ canon m e /\ e <= 0 /\ -12 <= Z.pos (digits2_pos m) + e /\ 100 * 2 ^ (- e) <= Z.pos m * 2.
Proof. eexists _, _. split; [reflexivity|]. repeat split; try lia; vm_compute; intuition discriminate. Qed.

(** Truncation is below the value. *)
Lemma dtrunc_below x b : good x -> 0 <= dval x <= b * scale -> 0 <= dtrunc x <= b.
Proof.
  intros Hg Hv. pose proof scale_pos. destruct x as [|?| |s m e]; try contradiction; [cbn [dtrunc]; nia|]. cbn [good] in Hg. destruct Hg as [He _]. cbn [dval] in Hv. cbn [dtrunc]. assert (Hp : 0 < Z.pos m * 2 ^ (e + K)) by (apply Z.mul_pos_pos; [lia|apply Z.pow_pos_nonneg; unfold K; lia]). destruct s; cbn [cond_Zopp] in Hv; [lia|].
  destruct (Z.leb_spec 0 e).
  - assert (E : Z.pos m * 2 ^ (e + K) = Z.pos m * 2 ^ e * scale) by (rewrite scale_is; rewrite Z.pow_add_r by (unfold K; lia); ring). rewrite E in Hv. pose proof (Z.pow_pos_nonneg 2 e ltac:(lia) ltac:(lia)). split; nia.
  - assert (E : b * scale = b * 2 ^ (- e) * 2 ^ (e + K)) by (rewrite scale_is; rewrite <- Z.mul_assoc, <- Z.pow_add_r by (unfold K in *; lia); do 2 f_equal; lia). rewrite E in Hv. pose proof (Z.pow_pos_nonneg 2 (e + K) ltac:(lia) ltac:(unfold K in *; lia)). pose proof (Z.pow_pos_nonneg 2 (- e) ltac:(lia) ltac:(lia)).
    split; [apply Z.div_pos; lia|]. apply Z.div_le_upper_bound; nia.
Qed.

(** Hundreds of a number: their quotient, its integer, and how much of it they can miss. *)
Lemma hundreds v : good v -> 0 <= dval v < 18100 * scale -> let t := dtrunc (ddiv v d100) in 0 <= t <= 181 /\ 100 * (t - 1) * scale < dval v.
Proof.
  intros Hg Hv t. pose proof scale_pos. destruct d100_canon as (m & e & E & Hc & He & Hd & Em). unfold t. rewrite E.
  assert (Hb : forall c, 0 <= c <= 181 -> dval v <= 100 * c * scale -> 0 <= dtrunc (ddiv v (S754_finite false m e)) <= c).
  { intros c Hc1 Hc2. destruct (ddiv_within v m e (100 * c) c Hg Hc He Hd ltac:(lia) ltac:(lia) ltac:(lia) ltac:(nia)) as [[Gq Vq] Hn]. apply dtrunc_below; [exact Gq|]. split; [apply Hn; lia|lia]. }
  pose proof (Hb 181 ltac:(lia) ltac:(lia)) as H181. split; [exact H181|]. destruct (Z.lt_ge_cases (100 * (dtrunc (ddiv v (S754_finite false m e)) - 1) * scale) (dval v)) as [|Hge]; [done|]. exfalso. set (k := dtrunc (ddiv v (S754_finite false m e))) in *.
  destruct (Z.eq_dec k 0) as [E0|]; [rewrite E0 in Hge; nia|]. pose proof (Hb (k - 1) ltac:(lia) ltac:(lia)). lia.
Qed.

(** The degrees before the sign, before their own bound. *)
Lemma degrees_range v : good v -> 0 <= dval v < 18100 * scale -> let deg := dint (dtrunc (ddiv v d100)) in let min := dsub v (dmul deg d100) in
  dle d60 min = false -> within (-2) 183 (dadd deg (ddiv min d60)).
Proof.
  intros Hg Hv deg min Hm. pose proof scale_pos. destruct (hundreds v Hg Hv) as [Ht Hlow]. set (t := dtrunc (ddiv v d100)) in *. assert (Hdeg : within 0 t deg) by (eapply within_mono; [| |apply dint_within]; lia). destruct Hdeg as [Gd Vd].
  destruct d100_canon as (m & e & E & Hc & He & Hd & Em). destruct (dmul_within deg false m e t (100 * t) Gd Hc He ltac:(lia) ltac:(lia) ltac:(lia) ltac:(nia)) as [[Gp Vp] Hp]. specialize (Hp ltac:(lia) eq_refl). rewrite <- E in Gp, Vp, Hp.
  assert (Hmin : within (-100) 18100 min) by (apply dsub_within; [exact Hg|exact Gp|lia|lia|nia]). destruct Hmin as [Gm Vm]. destruct d60_val as [G6 V6]. rewrite dle_val, V6 in Hm by assumption.
  destruct d60_canon as (m6 & e6 & E6 & Hc6 & He6 & Hd6 & Hb6). destruct (ddiv_within min m6 e6 100 2 Gm Hc6 He6 Hd6 ltac:(lia) ltac:(lia) ltac:(lia) Hb6) as [[Gq Vq] _]. rewrite <- E6 in Gq, Vq. apply dadd_within; [exact Gd|exact Gq|lia|lia|nia].
Qed.

Lemma latlon_range s i d : espos_nmea0183_field_latlon s i = Some d ->
  let h := espos_nmea0183_field_char s (i + 1) in within (-180) 180 d /\ (h = 78 \/ h = 83 -> within (-90) 90 d) /\ (h = 78 \/ h = 83 \/ h = 69 \/ h = 87).
Proof.
  intros H h. unfold espos_nmea0183_field_latlon in H. fold h in H. destruct (espos_nmea0183_field_double s i) as [v|] eqn:Ev; [|done]. cbn [mbind option_bind] in H. pose proof (field_double_good _ _ _ Ev) as G. destruct d18100_val as [G1 V1]. pose proof scale_pos.
  destruct (dlt v dzero) eqn:E1; [discriminate H|]. destruct (dle (dint 18100) v) eqn:E2; [discriminate H|]. cbn [orb] in H. rewrite dlt_val in E1 by (assumption || exact I). rewrite dle_val, V1 in E2 by assumption. cbn [dval dzero] in E1. destruct (dle d60 _) eqn:E3; [discriminate H|].
  pose proof (degrees_range v G ltac:(lia) E3) as [Gd Vd]. set (deg := dadd _ _) in *. clearbody deg. destruct (good_opp deg Gd) as [Go Vo]. destruct d90_val as [G9 V9], d180_val as [G8 V8]. destruct ((h =? 78) || (h =? 83)) eqn:Eh; [|destruct ((h =? 69) || (h =? 87)) eqn:Eh2; [|discriminate H]].
  - destruct (dlt (dint 90) deg) eqn:E4; [discriminate H|]. rewrite dlt_val, V9 in E4 by assumption. injection H as <-. assert (Hw : within (-90) 90 (if h =? 83 then dopp deg else deg)) by (destruct (h =? 83); (split; [assumption|lia])). split; [eapply within_mono; [| |exact Hw]; lia|]. split; [intros _; exact Hw|]. lia.
  - destruct (dlt (dint 180) deg) eqn:E4; [discriminate H|]. rewrite dlt_val, V8 in E4 by assumption. injection H as <-. split; [destruct (h =? 87); (split; [assumption|lia])|]. split; lia.
Qed.

(** ** The text of a place *)

Lemma scaled7_bound m e b : -1074 <= e -> 0 <= b -> Z.pos m * 2 ^ (e + K) <= b * scale -> 0 <= scaled7 (Z.pos m) e <= b * 10 ^ 7.
Proof.
  intros He Hb Hv. pose proof scale_pos. unfold scaled7. destruct (Z.leb_spec 0 e) as [H0|H0].
  - assert (E : Z.pos m * 2 ^ (e + K) = Z.pos m * 2 ^ e * scale) by (rewrite scale_is; rewrite Z.pow_add_r by (unfold K; lia); ring). rewrite E in Hv. pose proof (Z.pow_pos_nonneg 2 e ltac:(lia) ltac:(lia)). split; nia.
  - apply scaled_bound in Hv; [|unfold K; lia|lia]. pose proof (Z.pow_pos_nonneg 2 (- e) ltac:(lia) ltac:(lia)) as Hp. set (P := 2 ^ (- e)) in *. pose proof (Z.div_mod (Z.pos m * 10 ^ 7) P ltac:(lia)) as Hd. pose proof (Z.mod_pos_bound (Z.pos m * 10 ^ 7) P Hp) as Hr. assert (Hq : 0 <= Z.pos m * 10 ^ 7 / P) by (apply Z.div_pos; lia).
    set (q := Z.pos m * 10 ^ 7 / P) in *. set (r := (Z.pos m * 10 ^ 7) mod P) in *. assert (Hqb : q <= b * 10 ^ 7) by nia. destruct (Z.compare_spec (2 * r) P) as [Ec|Ec|Ec]; [destruct (Z.even q)|..]; try lia; (split; [lia|]); nia.
Qed.

Lemma fmt_7f_length x : within (-180) 180 x -> (length (fmt_7f x) <= 12)%nat.
Proof.
  intros [Hg Hv]. assert (Ht : forall (s : bool) n, 0 <= n <= 180 * 10 ^ 7 -> (length (((if s then [45] else []) ++ fmt_d (n / 10 ^ 7) ++ [46] ++ dec_fixed 7 (n mod 10 ^ 7))%Z) <= 12)%nat).
  { intros s n Hn. rewrite !length_app, length_dec_fixed. cbn [length]. assert (length (fmt_d (n / 10 ^ 7)) <= 3)%nat by (apply (fmt_d_length 2); change (10 ^ Z.of_nat 3) with 1000; split; [apply Z.div_pos; lia|apply Z.div_lt_upper_bound; lia]). destruct s; cbn [length]; lia. }
  destruct x as [s|s| |s m e]; try contradiction; cbn [fmt_7f]; apply Ht; [lia|]. cbn [good] in Hg. destruct Hg as [He _]. apply scaled7_bound; [exact He|lia|]. cbn [dval] in Hv. destruct s; cbn [cond_Zopp] in Hv; lia.
Qed.

(** Places are in range: both numbers of a position are between -180 and 180
    degrees, and the first between -90 and 90 when its letter is N or S, whatever
    the text of the fields; and the position that is published of them is the
    complete JSON text, never cut by its buffer. *)
Theorem nmea_places_bounded s i lat lon : position s i = (true, lat, lon) ->
  within (-180) 180 lat /\ within (-180) 180 lon /\
  (espos_nmea0183_field_char s (i + 1) = 78 \/ espos_nmea0183_field_char s (i + 1) = 83 -> within (-90) 90 lat) /\
  u_text (sk_position lat lon) = position_text lat lon /\ (length (position_text lat lon) < ESPOS_NMEA0183_SK_JSON_MAX)%nat.
Proof.
  unfold position. destruct (espos_nmea0183_field_latlon s i) as [la|] eqn:E1; [|discriminate]. destruct (espos_nmea0183_field_latlon s (i + 2)) as [lo|] eqn:E2; [|discriminate]. intros [= -> ->]. destruct (latlon_range _ _ _ E1) as (H1 & H2 & _). destruct (latlon_range _ _ _ E2) as (H3 & _ & _).
  assert (Hl : (length (position_text lat lon) < ESPOS_NMEA0183_SK_JSON_MAX)%nat). { pose proof (fmt_7f_length lat H1). pose proof (fmt_7f_length lon H3). unfold position_text. rewrite !length_app. cbn [length lit]. change (length (lit "longitude")) with 9%nat. change (length (lit "latitude")) with 8%nat. unfold ESPOS_NMEA0183_SK_JSON_MAX. lia. }
  split; [exact H1|]. split; [exact H3|]. split; [exact H2|]. split; [|exact Hl]. cbn [u_text sk_position]. unfold snprintf_s. apply take_ge. lia.
Qed.
