(* ===== verification/NmeaSk.v ===== *)
(** What a sentence becomes in Signal K and what it does to the clock; the theorems
    on sentences at one of a receiver, and a latitude that is none. *)
From Stdlib Require Import ZArith Lia String Floats.SpecFloat.
From stdpp Require Import base list numbers option.
From S2P Require Import Prelude ConfigDesc TimePolicy Double Nmea NmeaDecode DoubleProps NmeaProps NmeaAngle.
Open Scope Z_scope.

(** * Updates *)

Lemma next_fold max l k : (length k <= max)%nat -> foldl (fun k u => next max u k) k l = k ++ take (max - length k) l.
Proof.
  revert k. induction l as [|u l IH]; intros k Hk; cbn [foldl]; [by rewrite take_nil, app_nil_r|]. unfold next at 2. destruct (Nat.leb_spec max (length k)).
  - rewrite IH by done. replace (max - length k)%nat with 0%nat by lia. done.
  - rewrite IH by (rewrite length_app; cbn; lia). rewrite length_app. cbn [length]. rewrite <- app_assoc. replace (max - length k)%nat with (S (max - (length k + 1))) by lia. done.
Qed.
Lemma sk_map_take s max : espos_nmea0183_sk_map s max = take max (sk_values s).
Proof. unfold espos_nmea0183_sk_map. destruct (Nat.eqb_spec max 0) as [->|]; [done|]. rewrite next_fold by (cbn; lia). cbn. by rewrite Nat.sub_0_r. Qed.

Lemma opt_length b u : (length (opt b u) <= 1)%nat.
Proof. destruct b; cbn; lia. Qed.

(** The branches of the mapping, one per sentence. *)
Ltac branches := unfold sk_values; destruct (espos_nmea0183_decode_gga _) as [[] gga] eqn:Egga; [|destruct (espos_nmea0183_decode_rmc _) as [[] rmc] eqn:Ermc; [|destruct (espos_nmea0183_decode_vtg _) as [[] vtg] eqn:Evtg; [|destruct (espos_nmea0183_decode_heading _) as [[] hdg];
  [|destruct (espos_nmea0183_decode_depth _) as [[] dpt]; [|destruct (espos_nmea0183_decode_mtw _) as [[] mtw]; [|destruct (espos_nmea0183_decode_vhw _) as [[] vhw]; [|destruct (espos_nmea0183_decode_zda _) as [[] zda] eqn:Ezda]]]]]]].

Ltac few := repeat rewrite length_app; repeat match goal with |- context [length (opt ?b ?u)] => let H := fresh in pose proof (opt_length b u) as H; generalize dependent (length (opt b u)); intros end; cbn [length]; lia.

Lemma sk_values_few s : (length (sk_values s) <= 6)%nat.
Proof.
  branches; try few; try (cbn; lia).
  - destruct (rmc_valid rmc); [few|]. cbn [app]. few.
  - destruct (dp_below dpt); cbn [length]; try lia. destruct (_ && _); [cbn; lia|]. destruct (_ && _); cbn; lia.
Qed.

(** * What a sentence may say *)

Definition gga_fix (s : espos_nmea0183_sentence_t) : Prop := espos_nmea0183_is s (lit "GGA") = true /\ exists q, field_int s 5 = Some q /\ 1 <= q <= 5.
Definition rmc_fix (s : espos_nmea0183_sentence_t) : Prop := espos_nmea0183_is s (lit "RMC") = true /\ espos_nmea0183_field_char s 1 = 65 /\ mode_is_fix (espos_nmea0183_field_char s 11) = true.
Definition vtg_fix (s : espos_nmea0183_sentence_t) : Prop := espos_nmea0183_is s (lit "VTG") = true /\
  ((espos_nmea0183_field_char s 1 = 84 \/ espos_nmea0183_field_char s 3 = 77 \/ espos_nmea0183_field_char s 5 = 78) -> mode_is_fix (espos_nmea0183_field_char s 8) = true).
(** The paths that need a fix, and whose. *)
Definition needs (s : espos_nmea0183_sentence_t) (path : cstr) : Prop :=
  (path = lit "navigation.position" -> gga_fix s \/ rmc_fix s) /\
  (path = lit "navigation.gnss.antennaAltitude" \/ path = lit "navigation.gnss.geoidalSeparation" -> gga_fix s) /\
  (path = lit "navigation.speedOverGround" \/ path = lit "navigation.courseOverGroundTrue" -> rmc_fix s \/ vtg_fix s) /\
  (path = lit "navigation.datetime" -> rmc_fix s \/ espos_nmea0183_is s (lit "ZDA") = true).

Lemma gga_fixed s gga : espos_nmea0183_decode_gga s = (true, gga) -> gga_has_position gga = true \/ gga_has_altitude gga = true \/ gga_has_geoid gga = true -> gga_fix s.
Proof.
  unfold espos_nmea0183_decode_gga. destruct (espos_nmea0183_is s (lit "GGA")) eqn:Ei; [|done]. cbn [negb]. cbv zeta. set (q := match field_int s 5 with Some _ => _ | None => 0 end). destruct ((1 <=? q) && (q <=? 5)) eqn:Eq.
  - intros _ _. split; [done|]. unfold q in Eq. destruct (field_int s 5) as [z|]; [|done]. exists z. split; [done|]. destruct (Z.ltb_spec z 0); lia.
  - intros [= _ <-]. cbn. intuition discriminate.
Qed.
Lemma rmc_fixed s rmc ok : espos_nmea0183_decode_rmc s = (ok, rmc) -> rmc_valid rmc = true -> rmc_fix s.
Proof.
  unfold espos_nmea0183_decode_rmc. destruct (espos_nmea0183_is s (lit "RMC")) eqn:Ei; [|by intros [= _ <-]]. cbn [negb]. cbv zeta. destruct ((espos_nmea0183_field_char s 1 =? 65) && mode_is_fix (espos_nmea0183_field_char s 11)) eqn:Ev.
  - intros _ _. split; [done|]. apply andb_true_iff in Ev as [H1 H2]. split; [lia|done].
  - intros [= _ <-]. done.
Qed.
Lemma vtg_fixed s vtg : espos_nmea0183_decode_vtg s = (true, vtg) -> vtg_fix s.
Proof.
  unfold espos_nmea0183_decode_vtg. destruct (espos_nmea0183_is s (lit "VTG")) eqn:Ei; [|done]. cbn [negb]. cbv zeta. intros H. split; [done|]. intros Hl. replace ((espos_nmea0183_field_char s 1 =? 84) || (espos_nmea0183_field_char s 3 =? 77) || (espos_nmea0183_field_char s 5 =? 78)) with true in H by lia.
  destruct (mode_is_fix (espos_nmea0183_field_char s 8)); [done|discriminate H].
Qed.
Lemma zda_is s zda : espos_nmea0183_decode_zda s = (true, zda) -> espos_nmea0183_is s (lit "ZDA") = true.
Proof. unfold espos_nmea0183_decode_zda. by destruct (espos_nmea0183_is s (lit "ZDA")). Qed.

Lemma opt_all (P : espos_nmea0183_sk_update_t -> Prop) b u : (b = true -> P u) -> Forall P (opt b u).
Proof. destruct b; cbn; auto. Qed.
(** The cases a path is not are gone by computation. *)
Ltac other_path := let H := fresh in intros H; exfalso; repeat destruct H as [H|H]; vm_compute in H; discriminate H.
Ltac license t := split; [try other_path; intros _; t|split; [try other_path; intros _; t|split; [try other_path; intros _; t|try other_path; intros _; t]]].
Ltac updates := repeat match goal with
  | |- Forall _ (_ ++ _) => apply list.Forall_app; split
  | |- Forall _ (_ :: _) => constructor
  | |- Forall _ [] => constructor
  | |- Forall _ (opt _ _) => apply opt_all; intros ?
  end.

Lemma values_licensed s : Forall (fun u => needs s (u_path u)) (sk_values s).
Proof.
  branches.
  - updates; cbn [u_path sk_position number string_]; license ltac:(first [left; eapply gga_fixed; [eassumption|tauto]|eapply gga_fixed; [eassumption|tauto]]).
  - destruct (rmc_valid rmc) eqn:Ev; [pose proof (rmc_fixed _ _ _ Ermc Ev) as Hf|]; updates; cbn [u_path sk_position number string_ datetime]; license ltac:(first [by left|by right]).
  - pose proof (vtg_fixed _ _ Evtg) as Hf. updates; cbn [u_path number]; license ltac:(by right).
  - updates; cbn [u_path number]; license idtac.
  - destruct (dp_below dpt); try (destruct (_ && _); [|destruct (_ && _)]); updates; cbn [u_path number]; license idtac.
  - updates; cbn [u_path number]; license idtac.
  - updates; cbn [u_path number]; license idtac.
  - pose proof (zda_is _ _ Ezda) as Hf. updates; cbn [u_path datetime string_]; license ltac:(by right).
  - constructor.
Qed.

(** ** What the fields of a sentence say

    For every sentence the values its fields give, with their paths and units:
    positions in degrees, angles in radians, speeds in metres per second, lengths in
    metres, temperatures in kelvin. *)
Section Says.
Variable s : espos_nmea0183_sentence_t.
Variable u : espos_nmea0183_sk_update_t.
#[local] Abbreviation kind t := (espos_nmea0183_is s (lit t) = true).
#[local] Abbreviation num i := (espos_nmea0183_field_double s i).

Definition gives (o : option double) (path : string) : Prop := exists v, o = Some v /\ u = number path v.
(** A number that is not negative, in a unit. *)
Definition gives_pos (o : option double) (f : double -> double) (path : string) : Prop := exists v, o = Some v /\ dle dzero v = true /\ u = number path (f v).
Definition place (i : Z) : Prop := exists lat lon, espos_nmea0183_field_latlon s i = Some lat /\ espos_nmea0183_field_latlon s (i + 2) = Some lon /\ u = sk_position lat lon.
Definition dated (date : option (Z * Z * Z)) : Prop :=
  exists t y m d, espos_nmea0183_field_time s 0 = Some t /\ date = Some (y, m, d) /\ CLOCK_FLOOR_MS <= espos_nmea0183_unix_ms y m d t /\ u = datetime (espos_nmea0183_unix_ms y m d t).

(** Knots, or kilometres per hour where there are no knots. *)
Definition speed_is (kn kmh : Z) (path : string) : Prop :=
  gives_pos (num kn) (fun v => dmul v KNOT_MS) path \/ (ge0 (num kn) = false /\ gives_pos (num kmh) (fun v => dmul v KMH_MS) path).

(** A GGA says something when it has a time, a number of satellites, or a place with a fix. *)
Definition gga_quality_of : Z := match field_int s 5 with Some q => Z.max 0 q | None => 0 end.
Definition gga_any : Prop :=
  is_Some (espos_nmea0183_field_time s 0) \/ (exists n, field_int s 6 = Some n /\ 0 <= n) \/
  (gga_fix s /\ is_Some (espos_nmea0183_field_latlon s 1) /\ is_Some (espos_nmea0183_field_latlon s 3)).
Definition gga_says : Prop :=
  gga_any /\ ((gga_fix s /\ place 1) \/ u = string_ "navigation.gnss.methodQuality" (method_quality gga_quality_of) \/
    (exists n, field_int s 6 = Some n /\ 0 <= n /\ u = number "navigation.gnss.satellites" (dint n)) \/ gives_pos (num 7) id "navigation.gnss.horizontalDilution" \/
    (gga_fix s /\ gives (num 8) "navigation.gnss.antennaAltitude") \/ (gga_fix s /\ gives (num 10) "navigation.gnss.geoidalSeparation")).

Definition rmc_says : Prop :=
  (rmc_fix s /\ (place 2 \/ gives (angle s 7) "navigation.courseOverGroundTrue" \/ gives_pos (num 6) (fun v => dmul v KNOT_MS) "navigation.speedOverGround" \/ dated (date_ddmmyy s 8))) \/
  gives (signed_angle s 9) "navigation.magneticVariation".

(** With the letters of the newer form the fields are every second one. *)
Definition lettered : bool := (espos_nmea0183_field_char s 1 =? 84) || (espos_nmea0183_field_char s 3 =? 77) || (espos_nmea0183_field_char s 5 =? 78).
Definition vtg_says : Prop :=
  vtg_fix s /\ (gives (angle s 0) "navigation.courseOverGroundTrue" \/ gives (angle s (if lettered then 2 else 1)) "navigation.courseOverGroundMagnetic" \/
    speed_is (if lettered then 4 else 2) (if lettered then 6 else 3) "navigation.speedOverGround").

Definition hdg_says : Prop :=
  (exists a, angle s 0 = Some a /\ u = number "navigation.headingMagnetic" (rad_of (ddiv (dadd a (default dzero (signed_angle s 1))) DEG_RAD))) \/ gives (signed_angle s 3) "navigation.magneticVariation".

(** The offset of a DPT is the depth of the transducer, or less the draught below it. *)
Definition dpt_says : Prop :=
  exists d, num 0 = Some d /\ dle dzero d = true /\ (u = number "environment.depth.belowTransducer" d \/
    exists o, num 1 = Some o /\
      ((dlt dzero o = true /\ (u = number "environment.depth.surfaceToTransducer" o \/ u = number "environment.depth.belowSurface" (dadd d o))) \/
       (dlt dzero o = false /\ dlt o dzero = true /\ (u = number "environment.depth.transducerToKeel" (dopp o) \/ u = number "environment.depth.belowKeel" (dadd d o))))).

Definition zda_date : option (Z * Z * Z) :=
  f ← get_field s 3; if (length f =? 4)%nat then d ← field_int s 1; m ← field_int s 2; y ← field_int s 3; Some (y, m, d) else None.

Definition says : Prop :=
  (kind "GGA" /\ gga_says) \/ (kind "RMC" /\ rmc_says) \/ (kind "VTG" /\ vtg_says) \/
  (kind "HDT" /\ gives (angle s 0) "navigation.headingTrue") \/ (kind "HDM" /\ gives (angle s 0) "navigation.headingMagnetic") \/ (kind "HDG" /\ hdg_says) \/
  (kind "DPT" /\ dpt_says) \/ (kind "DBT" /\ gives_pos (depth_of s) id "environment.depth.belowTransducer") \/ (kind "DBS" /\ gives_pos (depth_of s) id "environment.depth.belowSurface") \/
  (kind "DBK" /\ gives (depth_of s) "environment.depth.belowKeel") \/
  (kind "MTW" /\ (espos_nmea0183_field_char s 1 = 67 \/ espos_nmea0183_field_char s 1 = 0) /\ exists c, num 0 = Some c /\ u = number "environment.water.temperature" (dadd c CELSIUS_K)) \/
  (kind "VHW" /\ (speed_is 4 6 "navigation.speedThroughWater" \/ gives (angle s 0) "navigation.headingTrue" \/ gives (angle s 2) "navigation.headingMagnetic")) \/
  (kind "ZDA" /\ dated zda_date).

(** *** Membership *)

Lemma in_opt b v : u ∈ opt b v <-> b = true /\ u = v.
Proof. destruct b; cbn; [rewrite list_elem_of_singleton; tauto|rewrite elem_of_nil; intuition discriminate]. Qed.
Lemma in_some o path : u ∈ opt (is_some o) (number path (default dzero o)) <-> gives o path.
Proof. rewrite in_opt. unfold gives. destruct o as [v|]; cbn; [split; [intros [_ ->]; by exists v|intros (w & [= <-] & ->); done]|split; [by intros []|by intros (w & ? & _)]]. Qed.
Lemma in_ge0 o path : u ∈ opt (ge0 o) (number path (default dzero o)) <-> gives_pos o id path.
Proof.
  rewrite in_opt. unfold gives_pos, ge0. destruct o as [v|]; [|split; [by intros []|by intros (w & ? & _)]]. cbn [default id]. split; [intros [H ->]; by exists v|]. intros (w & [= <-] & H & ->). done.
Qed.
Lemma in_scaled o f path : u ∈ opt (ge0 o) (number path (if ge0 o then f (default dzero o) else dzero)) <-> gives_pos o f path.
Proof.
  rewrite in_opt. unfold gives_pos. destruct o as [v|]; [|split; [by intros []|by intros (w & ? & _)]]. cbn [ge0 default id]. split; [intros [H ->]; exists v; by rewrite H|]. intros (w & [= <-] & H & ->). by rewrite H.
Qed.
Lemma in_speed kn kmh path : u ∈ opt (is_some (speed s kn kmh)) (number path (default dzero (speed s kn kmh))) <-> speed_is kn kmh path.
Proof.
  rewrite in_some. unfold speed, speed_is, gives, gives_pos. destruct (num kn) as [v|]; cbn [ge0 default id]; [destruct (dle dzero v) eqn:E|].
  - split; [intros (w & [= <-] & ->); left; by exists v|]. intros [(w & [= <-] & _ & ->)|[? _]]; [by eexists|done].
  - destruct (num kmh) as [w|]; cbn [ge0 default id]; [destruct (dle dzero w) eqn:E2|]; split; try (by intros (? & ? & _)).
    + intros (x & [= <-] & ->). right. split; [done|]. by exists w.
    + intros [(x & [= <-] & Hx & _)|[_ (x & [= <-] & _ & ->)]]; [congruence|by eexists].
    + intros [(x & [= <-] & Hx & _)|[_ (x & [= <-] & Hx & _)]]; congruence.
    + intros [(x & [= <-] & Hx & _)|[_ (x & ? & _)]]; [congruence|done].
  - destruct (num kmh) as [w|]; cbn [ge0 default id]; [destruct (dle dzero w) eqn:E2|]; split; try (by intros (? & ? & _)).
    + intros (x & [= <-] & ->). right. split; [done|]. by exists w.
    + intros [(x & ? & _)|[_ (x & [= <-] & _ & ->)]]; [done|by eexists].
    + intros [(x & ? & _)|[_ (x & [= <-] & Hx & _)]]; [done|congruence].
    + intros [(x & ? & _)|[_ (x & ? & _)]]; done.
Qed.
Lemma in_place i : let '(has, lat, lon) := position s i in u ∈ opt has (sk_position lat lon) <-> place i.
Proof.
  unfold position, place. destruct (espos_nmea0183_field_latlon s i) as [lat|]; [destruct (espos_nmea0183_field_latlon s (i + 2)) as [lon|]|]; rewrite in_opt.
  - split; [intros [_ ->]; by exists lat, lon|intros (a & b & [= <-] & [= <-] & ->); done].
  - split; [by intros []|by intros (a & b & _ & ? & _)].
  - split; [by intros []|by intros (a & b & ? & _)].
Qed.
End Says.

(** A sentence is of one kind. *)
Lemma other_kind s a b : espos_nmea0183_is s a = true -> streq a b = false -> espos_nmea0183_is s b = false.
Proof. unfold espos_nmea0183_is. intros [H1 H2]%andb_true_iff Hab. rewrite H1. apply streq_true in H2. by rewrite H2. Qed.
Ltac kinds H := repeat match goal with |- context [espos_nmea0183_is ?s (lit ?t)] => first [rewrite H | rewrite (other_kind s _ (lit t) H eq_refl)] end.
(** Of its kind, both sides come down to one line of the table. *)
Ltac one_kind H := unfold sk_values, says, espos_nmea0183_decode_gga, espos_nmea0183_decode_rmc, espos_nmea0183_decode_vtg, espos_nmea0183_decode_heading, espos_nmea0183_decode_depth, espos_nmea0183_decode_mtw, espos_nmea0183_decode_vhw, espos_nmea0183_decode_zda;
  kinds H; cbn [negb]; cbv zeta.
Section Said.
Variable s : espos_nmea0183_sentence_t.
Variable u : espos_nmea0183_sk_update_t.
#[local] Abbreviation kind t := (espos_nmea0183_is s (lit t) = true).

Lemma gga_said : kind "GGA" -> u ∈ sk_values s <-> gga_says s u.
Proof.
  intros H. one_kind H. set (q := match field_int s 5 with Some q => _ | None => 0 end). assert (Eq : q = gga_quality_of s) by (unfold q, gga_quality_of; destruct (field_int s 5) as [z|]; [destruct (Z.ltb_spec z 0); lia|done]).
  assert (Hfix : (1 <=? q) && (q <=? 5) = true <-> gga_fix s).
  { rewrite Eq. unfold gga_fix, gga_quality_of. rewrite H. destruct (field_int s 5) as [z|]; [|split; [done|by intros (_ & z & ? & _)]]. rewrite andb_true_iff, !Z.leb_le. split; [intros ?; split; [done|]; exists z; split; [done|lia]|intros (_ & z' & [= <-] & ?); lia]. }
  unfold gga_says, gga_any. rewrite <- Hfix, <- Eq. clear Eq. set (fx := (1 <=? q) && (q <=? 5)) in *. clearbody fx q. clear Hfix. pose proof (in_place s u 1) as Hp. destruct (position s 1) as [[has lat] lon] eqn:Epos. change (1 + 2) with 3 in *.
  assert (Hhas : has = true <-> is_Some (espos_nmea0183_field_latlon s 1) /\ is_Some (espos_nmea0183_field_latlon s 3)).
  { unfold position in Epos. change (1 + 2) with 3 in Epos. destruct (espos_nmea0183_field_latlon s 1) as [x|]; [destruct (espos_nmea0183_field_latlon s 3) as [y|]|]; injection Epos as <- <- <-; split; try done; try (by eauto); intros [[? ?] [? ?]]; done. }
  clear Epos. set (sats := match field_int s 6 with Some n => 0 <=? n | None => false end). assert (Hsats : sats = true <-> exists n, field_int s 6 = Some n /\ 0 <= n).
  { unfold sats. destruct (field_int s 6) as [n|]; [rewrite Z.leb_le; split; [by exists n|by intros (? & [= <-] & ?)]|split; [done|by intros (? & ? & _)]]. }
  assert (Hnum : u ∈ opt sats (number "navigation.gnss.satellites" (dint (default 0 (field_int s 6)))) <-> exists n, field_int s 6 = Some n /\ 0 <= n /\ u = number "navigation.gnss.satellites" (dint n)).
  { rewrite in_opt, Hsats. split; [intros [(n & -> & ?) ->]; by exists n|]. intros (n & -> & ? & ->). split; [by exists n|done]. }
  assert (Htime : is_some (espos_nmea0183_field_time s 0) = true <-> is_Some (espos_nmea0183_field_time s 0)) by (destruct (espos_nmea0183_field_time s 0); [by split|split; [done|by intros [? ?]]]).
  rewrite <- Hsats, <- Htime. clear Hsats Htime. set (tm := is_some (espos_nmea0183_field_time s 0)) in *. clearbody tm sats.
  assert (Hall : (tm = true \/ sats = true \/ fx = true /\ is_Some (espos_nmea0183_field_latlon s 1) /\ is_Some (espos_nmea0183_field_latlon s 3)) <-> tm || (fx && has) || sats = true) by (rewrite <- Hhas; destruct tm, sats, fx, has; cbn; intuition discriminate).
  rewrite Hall. clear Hall Hhas. destruct fx.
  - cbn [andb]. destruct (tm || has || sats); cbn [gga_has_position gga_lat gga_lon gga_quality gga_has_satellites gga_satellites gga_has_hdop gga_hdop gga_has_altitude gga_altitude gga_has_geoid gga_geoid_separation]; [|rewrite elem_of_nil; intuition discriminate].
    rewrite !elem_of_app, list_elem_of_singleton, Hp, Hnum, in_ge0, !in_some. tauto.
  - cbn [andb]. destruct (tm || false || sats); cbn [gga_has_position gga_lat gga_lon gga_quality gga_has_satellites gga_satellites gga_has_hdop gga_hdop gga_has_altitude gga_altitude gga_has_geoid gga_geoid_separation is_some opt app]; [|rewrite elem_of_nil; intuition discriminate].
    rewrite elem_of_cons, !elem_of_app, elem_of_nil, Hnum, in_ge0. intuition discriminate.
Qed.

Lemma in_dated date : u ∈ opt (match espos_nmea0183_field_time s 0 with Some _ => is_some date && (0 <=? match date with Some (y, m, d) => espos_nmea0183_unix_ms y m d (default 0 (espos_nmea0183_field_time s 0)) | None => 0 end) | None => false end
    && (CLOCK_FLOOR_MS <=? match date with Some (y, m, d) => espos_nmea0183_unix_ms y m d (default 0 (espos_nmea0183_field_time s 0)) | None => 0 end))
    (datetime match date with Some (y, m, d) => espos_nmea0183_unix_ms y m d (default 0 (espos_nmea0183_field_time s 0)) | None => 0 end) <-> dated s u date.
Proof.
  rewrite in_opt. unfold dated. destruct (espos_nmea0183_field_time s 0) as [t|]; cbn [default id]; [|split; [by intros []|by intros (? & ? & ? & ? & ? & _)]].
  destruct date as [[[y m] d]|]; cbn [is_some andb]; [|split; [by intros []|by intros (? & ? & ? & ? & _ & ? & _)]]. set (x := espos_nmea0183_unix_ms y m d t). unfold CLOCK_FLOOR_MS. rewrite andb_true_iff, !Z.leb_le. split.
  - intros [[_ Hx] ->]. by exists t, y, m, d.
  - intros (t' & y' & m' & d' & [= <-] & [= <- <- <-] & Hx & ->). fold x in Hx |- *. split; [lia|done].
Qed.

Lemma rmc_said : kind "RMC" -> u ∈ sk_values s <-> rmc_says s u.
Proof.
  intros H. one_kind H. assert (Hfix : (espos_nmea0183_field_char s 1 =? 65) && mode_is_fix (espos_nmea0183_field_char s 11) = true <-> rmc_fix s) by (unfold rmc_fix; rewrite H, andb_true_iff, Z.eqb_eq; tauto).
  unfold rmc_says. rewrite <- Hfix. clear Hfix. set (v := (espos_nmea0183_field_char s 1 =? 65) && mode_is_fix (espos_nmea0183_field_char s 11)). clearbody v. rewrite <- !in_some. set (var := signed_angle s 9). clearbody var. pose proof (in_place s u 2) as Hp.
  assert (Hu : match espos_nmea0183_field_time s 0 with Some t => match date_ddmmyy s 8 with Some (y, m, d) => espos_nmea0183_unix_ms y m d t | None => 0 end | None => 0 end =
               match espos_nmea0183_field_time s 0 with Some _ => match date_ddmmyy s 8 with Some (y, m, d) => espos_nmea0183_unix_ms y m d (default 0 (espos_nmea0183_field_time s 0)) | None => 0 end | None => 0 end) by (by destruct (espos_nmea0183_field_time s 0)).
  assert (Hd : u ∈ opt (match espos_nmea0183_field_time s 0 with Some _ => is_some (date_ddmmyy s 8) && (0 <=? match espos_nmea0183_field_time s 0 with Some t => match date_ddmmyy s 8 with Some (y, m, d) => espos_nmea0183_unix_ms y m d t | None => 0 end | None => 0 end) | None => false end
      && (CLOCK_FLOOR_MS <=? match espos_nmea0183_field_time s 0 with Some t => match date_ddmmyy s 8 with Some (y, m, d) => espos_nmea0183_unix_ms y m d t | None => 0 end | None => 0 end))
      (datetime match espos_nmea0183_field_time s 0 with Some t => match date_ddmmyy s 8 with Some (y, m, d) => espos_nmea0183_unix_ms y m d t | None => 0 end | None => 0 end) <-> dated s u (date_ddmmyy s 8)).
  { rewrite <- in_dated, Hu. clear Hu. by destruct (espos_nmea0183_field_time s 0). }
  clear Hu. destruct (position s 2) as [[has lat] lon]. destruct v.
  - rewrite orb_true_r. cbn [orb rmc_valid rmc_has_position rmc_lat rmc_lon rmc_has_cog rmc_cog_true rmc_has_sog rmc_sog rmc_has_datetime rmc_unix_ms rmc_has_variation rmc_variation]. rewrite !elem_of_app, Hp, Hd, !in_some, (in_scaled u _ (fun v => dmul v KNOT_MS)). tauto.
  - rewrite orb_false_r. destruct (is_some (espos_nmea0183_field_time s 0) || is_some var) eqn:E; cbn [rmc_valid rmc_has_variation rmc_variation app].
    + split; [by right|]. intros [[? _]|?]; [discriminate|done].
    + apply orb_false_iff in E as [_ ->]. cbn [opt]. split; [by right|]. intros [[? _]|?]; [discriminate|done].
Qed.

(** Values of a decoder that says whether there are any. *)
Lemma in_any (b : bool) (l : list espos_nmea0183_sk_update_t) : (b = false -> l = []) -> (u ∈ if b then l else []) <-> u ∈ l.
Proof. intros Hb. destruct b; [done|]. by rewrite Hb. Qed.

Lemma vtg_said : kind "VTG" -> u ∈ sk_values s <-> vtg_says s u.
Proof.
  intros H. one_kind H. fold (lettered s). assert (Hfix : mode_is_fix (if lettered s then espos_nmea0183_field_char s 8 else 0) = true <-> vtg_fix s).
  { unfold vtg_fix. rewrite H. unfold lettered. destruct (Z.eqb_spec (espos_nmea0183_field_char s 1) 84), (Z.eqb_spec (espos_nmea0183_field_char s 3) 77), (Z.eqb_spec (espos_nmea0183_field_char s 5) 78); cbn [orb]; tauto. }
  unfold vtg_says. rewrite <- Hfix. clear Hfix. destruct (mode_is_fix _); cbn [negb]; [|rewrite elem_of_nil; intuition discriminate]. set (l2 := if lettered s then 2 else 1). set (l4 := if lettered s then 4 else 2). set (l6 := if lettered s then 6 else 3).
  rewrite <- in_speed, <- !in_some. cbn [vtg_has_cog_true vtg_cog_true vtg_has_cog_magnetic vtg_cog_magnetic vtg_has_sog vtg_sog]. rewrite in_any.
  - rewrite !elem_of_app. tauto.
  - intros [[-> ->]%orb_false_iff ->]%orb_false_iff. done.
Qed.

Lemma heading_said : (kind "HDT" -> u ∈ sk_values s <-> gives u (angle s 0) "navigation.headingTrue") /\ (kind "HDM" -> u ∈ sk_values s <-> gives u (angle s 0) "navigation.headingMagnetic") /\
  (kind "HDG" -> u ∈ sk_values s <-> hdg_says s u).
Proof.
  split_and!; intros H; one_kind H; unfold hdg_says; rewrite <- ?in_some; cbn [hd_has_true hd_has_magnetic hd_has_variation hd_heading_true hd_heading_magnetic hd_variation].
  - rewrite in_any; [rewrite !elem_of_app; cbn [opt]; rewrite elem_of_nil; tauto|]. rewrite !orb_false_r. by intros ->.
  - rewrite in_any; [rewrite !elem_of_app; cbn [opt]; rewrite elem_of_nil; tauto|]. rewrite orb_false_r. cbn [orb]. by intros ->.
  - rewrite in_any; [|cbn [orb]; intros [-> ->]%orb_false_iff; done]. cbn [opt app]. rewrite elem_of_app, in_some. unfold gives at 1. destruct (angle s 0) as [a|]; cbn; split; intros [Hx|Hx]; try (by right); try (destruct Hx as (x & [= <-] & ->); left; by eexists); by destruct Hx as (x & ? & _).
Qed.

Lemma depth_said : (kind "DPT" -> u ∈ sk_values s <-> dpt_says s u) /\ (kind "DBT" -> u ∈ sk_values s <-> gives_pos u (depth_of s) id "environment.depth.belowTransducer") /\
  (kind "DBS" -> u ∈ sk_values s <-> gives_pos u (depth_of s) id "environment.depth.belowSurface") /\ (kind "DBK" -> u ∈ sk_values s <-> gives u (depth_of s) "environment.depth.belowKeel").
Proof.
  split_and!; intros H; one_kind H; unfold gives, gives_pos, dpt_says.
  - destruct (espos_nmea0183_field_double s 0) as [d|]; cbn [ge0]; [|rewrite elem_of_nil; split; [done|by intros (? & ? & _)]]. destruct (dle dzero d) eqn:Ed; [|rewrite elem_of_nil; split; [done|intros (? & [= <-] & ? & _); congruence]].
    cbn [dp_below dp_depth dp_has_offset dp_offset default id app]. rewrite elem_of_cons. transitivity (u = number "environment.depth.belowTransducer" d \/ exists o, espos_nmea0183_field_double s 1 = Some o /\
      ((dlt dzero o = true /\ (u = number "environment.depth.surfaceToTransducer" o \/ u = number "environment.depth.belowSurface" (dadd d o))) \/
       (dlt dzero o = false /\ dlt o dzero = true /\ (u = number "environment.depth.transducerToKeel" (dopp o) \/ u = number "environment.depth.belowKeel" (dadd d o))))).
    2:{ split; [intros Hx; by exists d|]. by intros (d' & [= <-] & _ & Hx). }
    f_equiv. destruct (espos_nmea0183_field_double s 1) as [o|]; cbn [is_some default id andb]; [|rewrite elem_of_nil; split; [done|by intros (? & ? & _)]].
    destruct (dlt dzero o) eqn:E1; [|destruct (dlt o dzero) eqn:E2]; rewrite ?elem_of_cons, elem_of_nil.
    + split; [intros Hx; exists o; tauto|]. intros (? & [= <-] & Hx). rewrite E1 in Hx. intuition discriminate.
    + split; [intros Hx; exists o; tauto|]. intros (? & [= <-] & Hx). rewrite E1, E2 in Hx. intuition discriminate.
    + split; [done|]. intros (? & [= <-] & Hx). rewrite E1, E2 in Hx. intuition discriminate.
  - destruct (depth_of s) as [v|]; [|rewrite elem_of_nil; split; [done|by intros (? & ? & _)]]. rewrite bool_decide_eq_false_2 by done. cbn [orb]. destruct (dle dzero v) eqn:Ed; cbn [dp_below dp_depth dp_has_offset andb app]; [|rewrite elem_of_nil; split; [done|intros (? & [= <-] & ? & _); congruence]].
    rewrite list_elem_of_singleton. split; [intros ->; by exists v|by intros (? & [= <-] & _ & ->)].
  - destruct (depth_of s) as [v|]; [|rewrite elem_of_nil; split; [done|by intros (? & ? & _)]]. rewrite bool_decide_eq_false_2 by done. cbn [orb]. destruct (dle dzero v) eqn:Ed; cbn [dp_below dp_depth]; [|rewrite elem_of_nil; split; [done|intros (? & [= <-] & ? & _); congruence]].
    rewrite list_elem_of_singleton. split; [intros ->; by exists v|by intros (? & [= <-] & _ & ->)].
  - destruct (depth_of s) as [v|]; [|rewrite elem_of_nil; split; [done|by intros (? & ? & _)]]. rewrite bool_decide_eq_true_2 by done. cbn [orb dp_below dp_depth]. rewrite list_elem_of_singleton. split; [intros ->; by exists v|by intros (? & [= <-] & ->)].
Qed.

Lemma water_said : (kind "MTW" -> u ∈ sk_values s <-> (espos_nmea0183_field_char s 1 = 67 \/ espos_nmea0183_field_char s 1 = 0) /\ exists c, espos_nmea0183_field_double s 0 = Some c /\ u = number "environment.water.temperature" (dadd c CELSIUS_K)) /\
  (kind "VHW" -> u ∈ sk_values s <-> speed_is s u 4 6 "navigation.speedThroughWater" \/ gives u (angle s 0) "navigation.headingTrue" \/ gives u (angle s 2) "navigation.headingMagnetic").
Proof.
  split; intros H; one_kind H.
  - destruct (espos_nmea0183_field_double s 0) as [c|]; [|rewrite elem_of_nil; split; [done|by intros (_ & ? & ? & _)]]. destruct (Z.eqb_spec (espos_nmea0183_field_char s 1) 67), (Z.eqb_spec (espos_nmea0183_field_char s 1) 0); cbn [orb mtw_temperature];
      rewrite ?list_elem_of_singleton, ?elem_of_nil; try (split; [intros ->; split; [tauto|by exists c]|by intros (_ & ? & [= <-] & ->)]). tauto.
  - rewrite <- in_speed, <- !in_some. cbn [vhw_has_stw vhw_stw vhw_has_true vhw_heading_true vhw_has_magnetic vhw_heading_magnetic]. rewrite in_any.
    + rewrite !elem_of_app. tauto.
    + intros [[-> ->]%orb_false_iff ->]%orb_false_iff. done.
Qed.

Lemma zda_said : kind "ZDA" -> u ∈ sk_values s <-> dated s u (zda_date s).
Proof.
  intros H. one_kind H. unfold dated, zda_date. destruct (espos_nmea0183_field_time s 0) as [t|]; [|rewrite elem_of_nil; split; [done|by intros (? & ? & ? & ? & ? & _)]].
  assert (Hno : u ∈ [] <-> exists t' y m d, Some t = Some t' /\ (None : option (Z * Z * Z)) = Some (y, m, d) /\ CLOCK_FLOOR_MS <= espos_nmea0183_unix_ms y m d t' /\ u = datetime (espos_nmea0183_unix_ms y m d t')) by (rewrite elem_of_nil; split; [done|by intros (? & ? & ? & ? & _ & ? & _)]).
  destruct (get_field s 3) as [f|] eqn:Ef; [|destruct (field_int s 1); [destruct (field_int s 2)|]; exact Hno]. cbn [mbind option_bind].
  destruct (field_int s 1) as [d|]; [|by destruct (length f =? 4)%nat]. destruct (field_int s 2) as [m|]; [|by destruct (length f =? 4)%nat]. destruct (field_int s 3) as [y|]; [|by destruct (length f =? 4)%nat]. destruct (length f =? 4)%nat; [|exact Hno]. cbn [mbind option_bind zda_unix_ms].
  set (x := espos_nmea0183_unix_ms y m d t). unfold CLOCK_FLOOR_MS. rewrite in_any; [|destruct (Z.leb_spec 0 x); [done|]; intros _; destruct (Z.leb_spec 1577836800000 x); [lia|done]]. rewrite in_opt, Z.leb_le. split.
  - intros [Hx ->]. by exists t, y, m, d.
  - intros (t' & y' & m' & d' & [= <-] & [= <- <- <-] & Hx & ->). done.
Qed.

Lemma values_said : u ∈ sk_values s <-> says s u.
Proof.
  unfold says. destruct heading_said as (H4 & H5 & H6), depth_said as (H7 & H8 & H9 & H10), water_said as (H11 & H12).
  assert (Hk : forall t (P : Prop), (kind t -> u ∈ sk_values s <-> P) -> kind t /\ P -> u ∈ sk_values s) by (intros t P HP [Hk HP']; by apply HP).
  split.
  - intros Hu. destruct (espos_nmea0183_is s (lit "GGA")) eqn:E1; [left; split; [done|by apply gga_said]|right].
    destruct (espos_nmea0183_is s (lit "RMC")) eqn:E2; [left; split; [done|by apply rmc_said]|right]. destruct (espos_nmea0183_is s (lit "VTG")) eqn:E3; [left; split; [done|by apply vtg_said]|right].
    destruct (espos_nmea0183_is s (lit "HDT")) eqn:E4; [left; split; [done|by apply H4]|right]. destruct (espos_nmea0183_is s (lit "HDM")) eqn:E5; [left; split; [done|by apply H5]|right]. destruct (espos_nmea0183_is s (lit "HDG")) eqn:E6; [left; split; [done|by apply H6]|right].
    destruct (espos_nmea0183_is s (lit "DPT")) eqn:E7; [left; split; [done|by apply H7]|right]. destruct (espos_nmea0183_is s (lit "DBT")) eqn:E8; [left; split; [done|by apply H8]|right]. destruct (espos_nmea0183_is s (lit "DBS")) eqn:E9; [left; split; [done|by apply H9]|right].
    destruct (espos_nmea0183_is s (lit "DBK")) eqn:E10; [left; split; [done|by apply H10]|right]. destruct (espos_nmea0183_is s (lit "MTW")) eqn:E11; [left; split; [done|by apply H11]|right]. destruct (espos_nmea0183_is s (lit "VHW")) eqn:E12; [left; split; [done|by apply H12]|right].
    destruct (espos_nmea0183_is s (lit "ZDA")) eqn:E13; [split; [done|by apply zda_said]|]. exfalso. revert Hu. unfold sk_values, espos_nmea0183_decode_gga, espos_nmea0183_decode_rmc, espos_nmea0183_decode_vtg, espos_nmea0183_decode_heading, espos_nmea0183_decode_depth, espos_nmea0183_decode_mtw, espos_nmea0183_decode_vhw, espos_nmea0183_decode_zda.
    rewrite E1, E2, E3, E4, E5, E6, E7, E8, E9, E10, E11, E12, E13. by intros ?%elem_of_nil.
  - intros Hs. repeat destruct Hs as [Hs|Hs]; revert Hs; apply Hk; auto using gga_said, rmc_said, vtg_said, zda_said.
Qed.
End Said.

(** C26. The values published of a sentence are exactly those its fields say,
    sentence by sentence, in their units, when eight fit, and a prefix of them when
    fewer do. A position, an altitude and a speed or course over ground are only
    published where the sentence says that the receiver has a fix (the quality of a GGA, the
    status and mode of an RMC, the mode of a VTG in the form that has one); a date only
    from an RMC with a fix or from a ZDA, which says nothing about one. *)
Theorem nmea_nothing_without_fix s max : (forall u, u ∈ espos_nmea0183_sk_map s ESPOS_NMEA0183_SK_MAX_UPDATES <-> says s u) /\
  espos_nmea0183_sk_map s max = take max (sk_values s) /\ espos_nmea0183_sk_map s ESPOS_NMEA0183_SK_MAX_UPDATES = sk_values s /\
  Forall (fun u => needs s (u_path u)) (espos_nmea0183_sk_map s max).
Proof.
  rewrite !sk_map_take. pose proof (sk_values_few s) as Hf. assert (E : take ESPOS_NMEA0183_SK_MAX_UPDATES (sk_values s) = sk_values s) by (apply take_ge; unfold ESPOS_NMEA0183_SK_MAX_UPDATES; lia).
  rewrite E. split; [intros u; apply values_said|]. split; [done|]. split; [done|]. apply Forall_take, values_licensed.
Qed.

(** * The clock *)

Lemma clock_ms_floor s : espos_nmea0183_sk_clock_ms s = 0 \/ (CLOCK_FLOOR_MS <= espos_nmea0183_sk_clock_ms s /\ rmc_fix s).
Proof.
  unfold espos_nmea0183_sk_clock_ms. destruct (espos_nmea0183_decode_rmc s) as [ok rmc] eqn:E. destruct ok; [|by left]. destruct (rmc_valid rmc) eqn:Ev; [|by left]. destruct (rmc_has_datetime rmc); [|by left]. cbn [negb orb]. destruct (Z.ltb_spec (rmc_unix_ms rmc) CLOCK_FLOOR_MS); [by left|right]. split; [done|]. by eapply rmc_fixed.
Qed.

(** The clock after a sentence. *)
Definition clock_after (put : espos_nmea0183_sk_update_t -> esp_err_t) (p : espos_time_policy_t) (mono : Z) (s : espos_nmea0183_sentence_t) : espos_time_policy_t := (espos_nmea0183_sk_publish put p mono s true).1.2.

(** The clock follows the receiver: a clock set over the network is never touched, nor
    is any by a sentence that does not tell the time of a fix from 2020 on; after one
    that does, the clock is within two seconds of the receiver, and where it was
    stepped it is exact. *)
Theorem nmea_clock_follows put p mono s : let t := espos_nmea0183_sk_clock_ms s in let p' := clock_after put p mono s in
  (src p = ESPOS_TIME_SRC_SNTP -> p' = p) /\ (t = 0 -> p' = p) /\ (t = 0 \/ (CLOCK_FLOOR_MS <= t /\ rmc_fix s)) /\
  (0 < t -> src_val (src p) <= src_val ESPOS_TIME_SRC_MANUAL -> src p' <> ESPOS_TIME_SRC_NONE /\ - 2000 <= espos_time_policy_now_ms p' mono - t <= 2000 /\
     (p' <> p -> espos_time_policy_now_ms p' mono = t /\ src p' = ESPOS_TIME_SRC_MANUAL)).
Proof.
  intros t p'. pose proof (clock_ms_floor s) as Hf. fold t in Hf. assert (Ep : p' = match clock_set p mono s true with Some ms => (espos_time_policy_set p mono ms ESPOS_TIME_SRC_MANUAL).2 | None => p end) by done. unfold clock_set in Ep. cbn [negb] in Ep. fold t in Ep.
  split; [|split; [|split; [done|]]].
  - intros Es. rewrite Ep, Es. cbn [src_val]. by rewrite andb_false_r.
  - intros Et. rewrite Ep, Et. done.
  - intros Ht Hs. rewrite (proj2 (Z.ltb_lt 0 t) Ht), (proj2 (Z.leb_le _ _) Hs) in Ep. cbn [andb] in Ep. destruct (espos_nmea0183_sk_clock_due t _ _) eqn:Ed.
    + assert (Eset : (espos_time_policy_set p mono t ESPOS_TIME_SRC_MANUAL).2 = p <| epoch_at_zero_ms := t - mono |> <| set_at_mono_ms := mono |> <| prior_age_ms := 0 |> <| src := ESPOS_TIME_SRC_MANUAL |> <| sets := u32 (sets p + 1) |>).
      { unfold espos_time_policy_set, espos_time_policy_set_aged. destruct (Z.leb_spec t 0); [lia|]. cbn [src_val] in *. cbn [orb Z.leb Z.geb]. destruct (Z.ltb_spec 3 (src_val (src p))); [lia|]. by rewrite andb_false_r. }
      rewrite Ep, Eset. assert (En : espos_time_policy_now_ms (p <| epoch_at_zero_ms := t - mono |> <| set_at_mono_ms := mono |> <| prior_age_ms := 0 |> <| src := ESPOS_TIME_SRC_MANUAL |> <| sets := u32 (sets p + 1) |>) mono = t) by (change (t - mono + mono = t); lia). rewrite En. split; [done|]. split; [lia|]. intros _. split; [lia|done].
    + rewrite Ep. unfold espos_nmea0183_sk_clock_due in Ed. destruct (Z.leb_spec t 0); [lia|]. destruct (espos_time_policy_is_synced p mono) eqn:Esy; [|done]. cbn [negb orb] in Ed. destruct (Z.leb_spec (espos_time_policy_now_ms p mono) 0); [done|]. unfold ESPOS_NMEA0183_SK_CLOCK_SLACK_MS in Ed. split; [|split; [lia|done]].
      intros En. unfold espos_time_policy_is_synced in Esy. by rewrite En in Esy.
Qed.

(** * Sentences end to end *)

Definition rmc_fields : list cstr :=
  [lit "123519"; lit "A"; lit "4807.038"; lit "N"; lit "01131.000"; lit "W"; lit "022.4"; lit "084.4"; lit "230326"; lit "003.1"; lit "W"; lit "A"].
Definition sample_rmc : espos_nmea0183_sentence_t := Sentence (lit "GP") (lit "RMC") false false true rmc_fields.
Definition sample_hdg : espos_nmea0183_sentence_t := Sentence (lit "HC") (lit "HDG") false false true [lit "359.9"; lit "1.5"; lit "E"; lit "3.1"; lit "W"].
Definition sample_line : cstr := print_sentence sample_rmc ++ lit "*1C".

Example sample_parses : espos_nmea0183_parse sample_line true = (ESPOS_NMEA0183_OK, sample_rmc).
Proof. vm_compute. reflexivity. Qed.

Lemma sample_sendable : sendable sample_rmc.
Proof. split; [split; [split; [reflexivity|repeat split; vm_compute; lia]|split; [vm_compute; lia|repeat constructor]]|]. split; [repeat constructor|]. split; [reflexivity|vm_compute; lia]. Qed.

Lemma nmea_round_trip_witness : exists text line, espos_nmea0183_finish (print_sentence sample_rmc) 128 = (length text, Some text) /\
  (espos_nmea0183_reader_feed (Reader (lit "noise") true 0 0 0 0) text).2 = [line] /\ espos_nmea0183_parse line true = (ESPOS_NMEA0183_OK, sample_rmc).
Proof. apply (nmea_round_trip sample_rmc 128 (Reader (lit "noise") true 0 0 0 0) sample_sendable). vm_compute. lia. Defined.

(** The position with one digit changed. *)
Lemma nmea_corruption_refused_witness : (espos_nmea0183_parse (lit "$GPRMC,123519,A,4" ++ 57 :: lit "07.038,N,01131.000,W,022.4,084.4,230326,003.1,W,A*1C") true).1 <> ESPOS_NMEA0183_OK.
Proof.
  apply (nmea_corruption_refused (lit "$GPRMC,123519,A,4") 56 57 (lit "07.038,N,01131.000,W,022.4,084.4,230326,003.1,W,A*1C") true true sample_rmc); [vm_compute; reflexivity|reflexivity| | |lia|by left].
  - apply list_elem_of_In. vm_compute. intuition.
  - apply (bool_decide_eq_true_1 (0 ∉ lit "$GPRMC,123519,A,4" ++ 56 :: lit "07.038,N,01131.000,W,022.4,084.4,230326,003.1,W,A*1C")). vm_compute. reflexivity.
Defined.

Lemma nmea_angles_settle_witness : exists r d, angle sample_hdg 0 = Some r /\ signed_angle sample_hdg 1 = Some d /\ settled (ddiv (dadd r d) DEG_RAD).
Proof.
  eexists _, _. split; [vm_compute; reflexivity|]. split; [vm_compute; reflexivity|]. eapply (nmea_angles_settle sample_hdg 0); [vm_compute; reflexivity|right; exists 1; vm_compute; reflexivity].
Defined.

Lemma nmea_places_bounded_witness : exists lat lon, position sample_rmc 2 = (true, lat, lon) /\ within (-180) 180 lat /\ (length (position_text lat lon) < ESPOS_NMEA0183_SK_JSON_MAX)%nat.
Proof.
  eexists _, _. split; [vm_compute; reflexivity|]. destruct (nmea_places_bounded sample_rmc 2 _ _ ltac:(vm_compute; reflexivity)) as (H1 & _ & _ & _ & H2). split; [exact H1|exact H2].
Defined.

(** What is published of it. *)
Example sample_published : map (fun u => (u_path u, u_text u)) (espos_nmea0183_sk_map sample_rmc 8) =
  [(lit "navigation.position", [123; 34] ++ lit "longitude" ++ [34; 58] ++ lit "-11.5166667" ++ [44; 34] ++ lit "latitude" ++ [34; 58] ++ lit "48.1173000" ++ [125]);
   (lit "navigation.courseOverGroundTrue", []); (lit "navigation.speedOverGround", []); (lit "navigation.datetime", lit "2026-03-23T12:35:19.000Z"); (lit "navigation.magneticVariation", [])].
Proof. vm_compute. reflexivity. Qed.

(** The letters of the hemispheres are not checked against their place: a latitude of
    120 degrees east is a position. *)
Definition east_rmc : espos_nmea0183_sentence_t := Sentence (lit "GP") (lit "RMC") false false true [lit "123519"; lit "A"; lit "12000.000"; lit "E"; lit "04807.038"; lit "N"].
Example latitude_east : u_text <$> head (espos_nmea0183_sk_map east_rmc 8) = Some ([123; 34] ++ lit "longitude" ++ [34; 58] ++ lit "48.1173000" ++ [44; 34] ++ lit "latitude" ++ [34; 58] ++ lit "120.0000000" ++ [125]).
Proof. vm_compute. reflexivity. Qed.
