(* ===== verification/SkDelta.v ===== *)
(** The delta batcher and its offline ring: [sk_delta.c].

    Values published within a window become one message per context, with an
    update per timestamp; messages wait in a ring bounded by count and bytes until
    the sender takes them, are dated when they are taken, and can be put back.
    Sizes of buffers that are alive at the same time do not wrap and are exact
    numbers here; counters and clocks keep their width. A message is its buffer's
    address and the string in it; the allocator and the wall clock are the port.
    Calls with a null handle (they do nothing) and the formatting of numbers with
    [%g] are left out. *)
From Stdlib Require Import ZArith Lia String.
From stdpp Require Import base list numbers option.
From S2P Require Import Prelude ConfigDesc.
Open Scope Z_scope.

Definition ESPOS_SK_PATH_MAX : nat := 96.
Definition ESPOS_SK_VALUE_MAX : nat := 256.
Definition ESPOS_SK_CONTEXT_MAX : nat := 80.
Definition ESPOS_SK_CONTEXTS_MAX : nat := 4.
Definition LABEL_SIZE : nat := 40.
Definition SELF_CONTEXT : cstr := lit "vessels.self".
Definition AT_MS_MIN : Z := 946684800000.
Definition AT_MS_MAX : Z := 253402300799999.

(** The size of the table of pending values, with the range of its option. *)
Class DeltaConf := { PENDING_CAP : nat; PENDING_CAP_range : (4 <= PENDING_CAP <= 32)%nat }.

Record espos_sk_delta_cfg_t := DeltaCfg {
  cfg_label : option cstr; batch_ms : Z; max_msgs : nat; max_bytes : Z; drain_per_s : Z; no_drop : bool }.
#[export] Instance delta_cfg_eta : Eta espos_sk_delta_cfg_t := fun c => DeltaCfg (cfg_label c) (batch_ms c) (max_msgs c) (max_bytes c) (drain_per_s c) (no_drop c).

Record espos_sk_delta_stats_t := DeltaStats {
  st_pending : nat; st_buffered : nat; st_buffered_bytes : Z; st_dropped : Z; st_built : Z; st_taken : Z }.
#[export] Instance delta_stats_eta : Eta espos_sk_delta_stats_t := fun s => DeltaStats (st_pending s) (st_buffered s) (st_buffered_bytes s) (st_dropped s) (st_built s) (st_taken s).

Record pending_t := Pending { p_path : cstr; p_value : cstr; p_at_ms : Z; p_ctx : nat; p_upd : nat }.

(** A buffer of the heap and the string in it. *)
Record msg_t := Msg { ptr : Z; text : cstr }.
Record queued_t := Queued { q_msg : option msg_t; q_batch_ms : Z; q_stamp_at : nat }.
Definition queued_zero : queued_t := Queued None 0 0.

(** [wall_ms]: which clock is set; [unstamped]: an address, [None] for NULL. *)
Record espos_sk_delta := Delta {
  cfg : espos_sk_delta_cfg_t;
  label : cstr;
  pending : list pending_t;
  ctxs : list cstr;
  upd_n : nat;
  pending_since_ms : Z;
  ring : list queued_t;
  head : nat;
  count : nat;
  bytes : Z;
  last_take_ms : Z;
  draining : bool;
  wall_ms : option Z;
  unstamped : option Z;
  unstamped_at : nat;
  unstamped_batch_ms : Z;
  st : espos_sk_delta_stats_t }.
#[export] Instance delta_eta : Eta espos_sk_delta := fun d => Delta (cfg d) (label d) (pending d) (ctxs d) (upd_n d) (pending_since_ms d) (ring d) (head d) (count d) (bytes d)
  (last_take_ms d) (draining d) (wall_ms d) (unstamped d) (unstamped_at d) (unstamped_batch_ms d) (st d).

(** What crosses the interface: allocations (with their result), buffers
    released, handed to the caller and given back by it. *)
Inductive obs := OAlloc (p : option Z) | OFree (p : Z) | OHand (p : Z) | OGiven (p : Z).

Class DeltaPort (W : Type) := {
  p_calloc : W -> bool * W;
  p_malloc : nat -> W -> option Z * W;
  p_free : Z -> W -> W;
  p_wall_ms : Z -> W -> Z * W }.

(** ** Text *)

(** [snprintf(m + n, need - n, ...)] of a buffer of [need] bytes: what is
    written, [n], and whether every call so far started inside the buffer. *)
Record outbuf := Out { o_text : cstr; o_n : nat; o_in : bool }.
Definition put (need : nat) (s : cstr) (b : outbuf) : outbuf :=
  Out (o_text b ++ take (need - o_n b - 1) s) (o_n b + length s) (o_in b && (o_n b <? need)%nat).

(** The text of [buf], empty when the result is 0. *)
Definition iso8601 (unix_ms : Z) (size : Z) : cstr :=
  if (unix_ms <=? 0) || (size <? 25) then []
  else
    let secs := Z.quot unix_ms 1000 in
    let ms := Z.rem unix_ms 1000 in
    let days := Z.quot secs 86400 in
    let sod := Z.rem secs 86400 in
    let z := days + 719468 in
    let era := Z.quot (if z >=? 0 then z else z - 146096) 146097 in
    let doe := u32 (z - era * 146097) in
    let yoe := u32 (doe - doe / 1460 + doe / 36524 - doe / 146096) / 365 in
    let y := yoe + era * 400 in
    let doy := u32 (doe - u32 (365 * yoe + yoe / 4 - yoe / 100)) in
    let mp := u32 (5 * doy + 2) / 153 in
    let day := u32 (doy - u32 (153 * mp + 2) / 5 + 1) in
    let mon := u32 (mp + (if mp <? 10 then 3 else -9)) in
    let y := y + (if mon <=? 2 then 1 else 0) in
    let out := fmt_0d 4 y ++ lit "-" ++ fmt_0d 2 mon ++ lit "-" ++ fmt_0d 2 day ++ lit "T" ++ fmt_0d 2 (Z.quot sod 3600) ++ lit ":"
               ++ fmt_0d 2 (Z.rem (Z.quot sod 60) 60) ++ lit ":" ++ fmt_0d 2 (Z.rem sod 60) ++ lit "." ++ fmt_0d 3 ms ++ lit "Z" in
    if Z.of_nat (length out) <? size then out else [].

(** [%04x] of a byte below 0x20 *)
Definition fmt_04x (c : Z) : cstr := let hex v := if v <? 10 then 48 + v else 87 + v in [48; 48; hex (c / 16); hex (c mod 16)].

(** The loop of [espos_sk_json_string] when [o] bytes are written. *)
Fixpoint json_string_from (size o : nat) (s : cstr) : cstr :=
  match s with
  | [] => []
  | c :: s' =>
      if negb (o + 7 <? size)%nat then [] else
      if (c =? 34) || (c =? 92) then [92; c] ++ json_string_from size (o + 2) s'
      else if c <? 32 then
        let u := lit "\u" ++ fmt_04x c in take (size - o - 1) u ++ json_string_from size (o + length u) s'
      else c :: json_string_from size (o + 1) s'
  end.

(** [None]: nothing is written and the result is 0; the result is the length
    of the text otherwise. *)
Definition espos_sk_json_string (size : nat) (s : cstr) : option cstr :=
  if (size <? 3)%nat then None else Some ([34] ++ json_string_from size 1 s ++ [34]).

(** ** The open window *)

Definition context_check (c : cstr) : esp_err_t :=
  if byte0 c =? 0 then ESP_ERR_INVALID_ARG
  else if (ESPOS_SK_CONTEXT_MAX <=? length c)%nat then ESP_ERR_INVALID_SIZE
  else if existsb (fun b => (b <? 32) || (b =? 34) || (b =? 92)) c then ESP_ERR_INVALID_ARG
  else ESP_OK.

Fixpoint ctx_index (l : list cstr) (context : cstr) : option nat :=
  match l with [] => None | c :: l' => if streq c context then Some 0%nat else S <$> ctx_index l' context end.

(** [(uint8_t)n] *)
Definition as_u8 (n : nat) : nat := (n mod 256)%nat.

Definition update_of (d : espos_sk_delta) (c : nat) (at_ms : Z) : option nat :=
  p_upd <$> List.find (fun e => Nat.eqb (p_ctx e) c && (p_at_ms e =? at_ms)) (pending d).

Definition overtakes (d : espos_sk_delta) (c : nat) (upd : option nat) (path : cstr) : bool :=
  match upd with
  | None => false
  | Some u => existsb (fun e => Nat.eqb (p_ctx e) c && (u <? p_upd e)%nat && streq (p_path e) path) (pending d)
  end.

(** The loop that replaces the value of an entry; [None] when there is none. *)
Fixpoint set_value (l : list pending_t) (c : nat) (at_ms : Z) (path value : cstr) : option (list pending_t) :=
  match l with
  | [] => None
  | e :: l' =>
      if Nat.eqb (p_ctx e) c && (p_at_ms e =? at_ms) && streq (p_path e) path
      then Some (Pending (p_path e) value (p_at_ms e) (p_ctx e) (p_upd e) :: l')
      else (e ::.) <$> set_value l' c at_ms path value
  end.

(** The first entry of an update and those behind it. *)
Fixpoint update_first (l : list pending_t) (c u : nat) : option (pending_t * list pending_t) :=
  match l with
  | [] => None
  | e :: l' => if Nat.eqb (p_ctx e) c && Nat.eqb (p_upd e) u then Some (e, l) else update_first l' c u
  end.

(** ** Building a message *)

Definition ctx_text (d : espos_sk_delta) (c : nat) : cstr := nth c (ctxs d) [].

Definition need_of (d : espos_sk_delta) (c : nat) : nat :=
  32 + length (ctx_text d c)
  + sum_list_with (fun e => if Nat.eqb (p_ctx e) c then 24 + length (p_path e) + length (p_value e) else 0)%nat (pending d)
  + sum_list_with (fun u => if update_first (pending d) c u is Some _ then 128 + length (label d) else 0)%nat (seq 0 (upd_n d)).

Fixpoint put_values (need c u : nat) (l : list pending_t) (first : bool) (b : outbuf) : outbuf :=
  match l with
  | [] => b
  | e :: l' =>
      if negb (Nat.eqb (p_ctx e) c) || negb (Nat.eqb (p_upd e) u) then put_values need c u l' first b
      else put_values need c u l' false
             (put need ((if first then [] else lit ",") ++ js "{'path':'" ++ p_path e ++ js "','value':" ++ p_value e ++ lit "}") b)
  end.

Definition timestamp_text (iso : cstr) : cstr := js "'timestamp':'" ++ iso ++ js "',".

(** The loop over the updates [us]; [stamp_at] is the offset found so far. *)
Fixpoint put_updates (d : espos_sk_delta) (need c : nat) (us : list nat) (first_update : bool) (stamp_at : nat) (b : outbuf) : outbuf * nat :=
  match us with
  | [] => (b, stamp_at)
  | u :: us' =>
      match update_first (pending d) c u with
      | None => put_updates d need c us' first_update stamp_at b
      | Some (f, l) =>
          let b := put need ((if first_update then [] else lit ",") ++ lit "{") b in
          let iso := if p_at_ms f =? 0 then [] else iso8601 (p_at_ms f) 25 in
          let '(b, stamp_at) := match iso with
                                | [] => (b, o_n b)
                                | _ => (put need (timestamp_text iso) b, stamp_at)
                                end in
          let b := put need (js "'source':{'label':'" ++ label d ++ js "'},'values':[") b in
          let b := put_values need c u l true b in
          put_updates d need c us' false stamp_at (put need (lit "]}") b)
      end
  end.

Definition build_text (d : espos_sk_delta) (need c : nat) : outbuf * nat :=
  let b := put need (js "{'context':'" ++ ctx_text d c ++ js "','updates':[") (Out [] 0 true) in
  let '(b, stamp_at) := put_updates d need c (seq 0 (upd_n d)) true 0 b in
  (put need (lit "]}") b, stamp_at).

(** ** The ring *)

Definition slot (d : espos_sk_delta) (i : nat) : queued_t := nth i (ring d) queued_zero.
Definition q_text (q : queued_t) : cstr := match q_msg q with Some m => text m | None => [] end.
Definition strlen (s : cstr) : Z := Z.of_nat (length s).

(** Over either limit with another [len] bytes. *)
Definition no_room (d : espos_sk_delta) (len : Z) : bool :=
  (max_msgs (cfg d) <=? count d)%nat || (negb (max_bytes (cfg d) =? 0) && (max_bytes (cfg d) <? bytes d + len)).

Definition batch_due (d : espos_sk_delta) (now_ms : Z) : bool :=
  negb (Nat.eqb (length (pending d)) 0) && (0 <=? i32 (u32 (now_ms - u32 (pending_since_ms d + batch_ms (cfg d))))).

(** What the engine does when the caller sees to it: the clock and the settings. *)
Definition espos_sk_delta_set_clock (clock : option Z) (d : espos_sk_delta) : espos_sk_delta := d <| wall_ms := clock |>.
Definition espos_sk_delta_set_label (l : option cstr) (d : espos_sk_delta) : espos_sk_delta :=
  d <| label := snprintf_s LABEL_SIZE (default (lit "espos") l) |>.
Definition espos_sk_delta_set_timing (batch drain : Z) (d : espos_sk_delta) : espos_sk_delta :=
  let d := if batch =? 0 then d else d <| cfg; batch_ms := batch |> in
  if drain =? 0 then d else d <| cfg; drain_per_s := drain |>.
Definition espos_sk_delta_set_no_drop (b : bool) (d : espos_sk_delta) : espos_sk_delta := d <| cfg; no_drop := b |>.

Definition espos_sk_delta_next_due_ms (d : espos_sk_delta) (now_ms : Z) (connected : bool) : Z :=
  let due :=
    if Nat.eqb (length (pending d)) 0 then UINT32_MAX
    else
      let left := i32 (u32 (u32 (pending_since_ms d + batch_ms (cfg d)) - now_ms)) in
      let due := if 0 <? left then left else 0 in
      if (due =? 0) && no_drop (cfg d) &&
         ((max_msgs (cfg d) <=? count d)%nat || (negb (max_bytes (cfg d) =? 0) && (max_bytes (cfg d) <=? bytes d)))
      then if batch_ms (cfg d) =? 0 then 100 else batch_ms (cfg d)
      else due in
  if connected && (0 <? count d)%nat then
    let gap := 1000 / drain_per_s (cfg d) in
    let left := i32 (u32 (u32 (last_take_ms d + gap) - now_ms)) in
    let w := if ((1 <? count d)%nat || draining d) && negb (st_taken (st d) =? 0) && (0 <? left) then left else 0 in
    if w <? due then w else due
  else due.

Definition espos_sk_delta_stats (d : espos_sk_delta) : espos_sk_delta_stats_t :=
  (st d) <| st_pending := length (pending d) |> <| st_buffered := count d |> <| st_buffered_bytes := bytes d |>.

Section Engine.
Context {W : Type} {P : DeltaPort W} {C : DeltaConf}.

Abbreviation M := (act espos_sk_delta W obs).

Definition malloc (n : nat) : M (option Z) := call (p_malloc n) OAlloc.
Definition free (m : option msg_t) : M unit := match m with Some m => call (fun w => (tt, p_free (ptr m) w)) (fun _ => OFree (ptr m)) | None => mret tt end.

(** The two allocations of [create]: the engine and its ring. *)
Definition espos_sk_delta_create (c : espos_sk_delta_cfg_t) (w : W) : option espos_sk_delta * W :=
  let '(ok, w) := p_calloc w in
  if negb ok then (None, w)
  else
      let c' := if batch_ms c =? 0 then c <| batch_ms := 100 |> else c in
      let c' := if Nat.eqb (max_msgs c') 0 then c' <| max_msgs := 1%nat |> else c' in
      let c' := if drain_per_s c' =? 0 then c' <| drain_per_s := 20 |> else c' in
      let '(ok, w) := p_calloc w in
      if negb ok then (None, w)
      else
          (Some (Delta c' (snprintf_s LABEL_SIZE (default (lit "espos") (cfg_label c))) [] [] 0 0 (replicate (max_msgs c') queued_zero) 0 0 0 0
                       false None None 0 0 (DeltaStats 0 0 0 0 0 0)), w).

(** The messages are released; the ring and the engine are gone with the state. *)
Fixpoint free_slots (idx : list nat) : M unit :=
  match idx with
  | [] => mret tt
  | i :: idx' => d ← gets id; free (q_msg (slot d ((head d + i) mod max_msgs (cfg d))%nat));; free_slots idx'
  end.
Definition espos_sk_delta_destroy : M unit := d ← gets id; free_slots (seq 0 (count d)).

Definition evict_oldest : M unit :=
  d ← gets id;
  let old := slot d (head d) in
  mods (fun d => d <| bytes := bytes d - strlen (q_text old) |>);;
  free (q_msg old);;
  mods (fun d => d <| head := ((head d + 1) mod max_msgs (cfg d))%nat |> <| count := (count d - 1)%nat |> <| st; st_dropped ::= fun n => u32 (n + 1) |>).

(** The loop that makes room; it runs at most [count] times. *)
Fixpoint make_room (fuel : nat) (len : Z) : M unit :=
  match fuel with
  | O => mret tt
  | S fuel' => d ← gets id; if (0 <? count d)%nat && no_room d len then evict_oldest;; make_room fuel' len else mret tt
  end.

Definition ring_push (m : msg_t) (batch : Z) (stamp_at : nat) (nodrop : bool) : M bool :=
  let len := strlen (text m) in
  d ← gets id;
  if nodrop && no_room d len then free (Some m);; mret false
  else
    make_room (count d) len;;
    if negb (max_bytes (cfg d) =? 0) && (max_bytes (cfg d) <? len) then
      free (Some m);; mods (fun d => d <| st; st_dropped ::= fun n => u32 (n + 1) |>);; mret false
    else
      mods (fun d => d <| ring := <[((head d + count d) mod max_msgs (cfg d))%nat := Queued (Some m) batch stamp_at]> (ring d) |>
                       <| count := S (count d) |> <| bytes := bytes d + len |>);;
      mret true.

Definition ring_pop : M (option (msg_t * Z * nat)) :=
  d ← gets id;
  if Nat.eqb (count d) 0 then mret None
  else
    let q := slot d (head d) in
    mods (fun d => d <| ring := <[head d := Queued None (q_batch_ms q) (q_stamp_at q)]> (ring d) |>
                     <| head := ((head d + 1) mod max_msgs (cfg d))%nat |> <| count := (count d - 1)%nat |>
                     <| bytes := bytes d - strlen (q_text q) |>);;
    mret (match q_msg q with Some m => Some (m, q_batch_ms q, q_stamp_at q) | None => None end).

Definition espos_sk_delta_requeue (msg : option msg_t) : M unit :=
  match msg with
  | None => mret tt
  | Some m =>
      emit (OGiven (ptr m));;
      d ← gets id;
      if (max_msgs (cfg d) <=? count d)%nat then
        free (Some m);; mods (fun d => d <| st; st_dropped ::= fun n => u32 (n + 1) |>)
      else
        mods (fun d => d <| head := ((head d + max_msgs (cfg d) - 1) mod max_msgs (cfg d))%nat |>);;
        let undated := bool_decide (Some (ptr m) = unstamped d) in
        mods (fun d => d <| ring := <[head d := Queued (Some m) (if undated then unstamped_batch_ms d else 0) (if undated then unstamped_at d else 0%nat)]> (ring d) |>
                         <| unstamped := None |> <| count := S (count d) |> <| bytes := bytes d + strlen (text m) |>
                         <| st; st_taken ::= fun n => u32 (n - 1) |>)
  end.

(** [None]: the table is full. *)
Definition context_slot (context : cstr) : M (option nat) :=
  d ← gets id;
  match ctx_index (ctxs d) context with
  | Some i => mret (Some i)
  | None =>
      if Nat.eqb (length (ctxs d)) ESPOS_SK_CONTEXTS_MAX then mret None
      else mods (fun d => d <| ctxs := ctxs d ++ [context] |>);; mret (Some (length (ctxs d)))
  end.

Definition build_message (c : nat) : M (option (msg_t * nat)) :=
  d ← gets id;
  let need := need_of d c in
  p ← malloc need;
  match p with
  | None => mret None
  | Some p => let '(b, stamp_at) := build_text d need c in mret (Some (Msg p (o_text b), stamp_at))
  end.

(** The messages of the contexts [cs] that have values. *)
Fixpoint build_window (cs : list nat) : M (list (msg_t * nat)) :=
  match cs with
  | [] => mret []
  | c :: cs' =>
      d ← gets id;
      if existsb (fun e => Nat.eqb (p_ctx e) c) (pending d) then
        m ← build_message (as_u8 c);
        rest ← build_window cs';
        mret (match m with Some m => m :: rest | None => rest end)
      else build_window cs'
  end.

Fixpoint free_all (l : list (msg_t * nat)) : M unit :=
  match l with [] => mret tt | (m, _) :: l' => free (Some m);; free_all l' end.

Fixpoint push_all (l : list (msg_t * nat)) (batch : Z) (nodrop : bool) : M unit :=
  match l with
  | [] => mret tt
  | (m, at_) :: l' =>
      mods (fun d => d <| st; st_built ::= fun n => u32 (n + 1) |>);;
      ring_push m batch at_ nodrop;;
      push_all l' batch nodrop
  end.

Definition msgs_total (l : list (msg_t * nat)) : Z := foldr (fun m n => strlen (text m.1) + n) 0 l.

Definition flush_window (now_ms : Z) : M bool :=
  d ← gets id;
  if Nat.eqb (length (pending d)) 0 then mret true
  else
    let batch := pending_since_ms d in
    msgs ← build_window (seq 0 (length (ctxs d)));
    let nm := length msgs in
    let total := msgs_total msgs in
    let fits_empty := (nm <=? max_msgs (cfg d))%nat && ((max_bytes (cfg d) =? 0) || (total <=? max_bytes (cfg d))) in
    let nodrop := no_drop (cfg d) && fits_empty in
    if nodrop && ((max_msgs (cfg d) <? count d + nm)%nat || (negb (max_bytes (cfg d) =? 0) && (max_bytes (cfg d) <? bytes d + total)))
    then free_all msgs;; mret false
    else
      push_all msgs batch nodrop;;
      mods (fun d => d <| pending := [] |> <| ctxs := [] |> <| upd_n := 0%nat |> <| st; st_pending := 0%nat |>);;
      mret true.

Definition espos_sk_delta_flush (now_ms : Z) : M esp_err_t :=
  ok ← flush_window now_ms; mret (if ok : bool then ESP_OK else ESP_ERR_NO_MEM).

(** A value becomes an entry of the window. *)
Definition append_pending (ctx : option nat) (path value : cstr) (at_ms now_ms : Z) : M esp_err_t :=
  mods (fun d => if Nat.eqb (length (pending d)) 0 then d <| pending_since_ms := now_ms |> else d);;
  d ← gets id;
  let c := default 0%nat ctx in
  let '(upd, n) := match update_of d c at_ms with Some u => (u, upd_n d) | None => (upd_n d, S (upd_n d)) end in
  mods (fun d => d <| pending := pending d ++ [Pending path value at_ms (as_u8 c) (as_u8 upd)] |> <| upd_n := n |>);;
  mods (fun d => d <| st; st_pending := length (pending d) |>);;
  mret ESP_OK.

Definition espos_sk_delta_publish_at (context path value_json : option cstr) (at_ms now_ms : Z) : M esp_err_t :=
  match path, value_json with
  | Some path, Some value =>
      if (byte0 path =? 0) || (byte0 value =? 0) || (negb (at_ms =? 0) && ((at_ms <? AT_MS_MIN) || (AT_MS_MAX <? at_ms))) then mret ESP_ERR_INVALID_ARG
      else
        let context := default SELF_CONTEXT context in
        match context_check context with
        | ESP_OK =>
            if (ESPOS_SK_PATH_MAX <=? length path)%nat || (ESPOS_SK_VALUE_MAX <=? length value)%nat then mret ESP_ERR_INVALID_SIZE
            else
              ctx ← context_slot context;
              d ← gets id;
              let reorder := match ctx with Some c => overtakes d c (update_of d c at_ms) path | None => false end in
              match (match ctx with Some c => if reorder then None else set_value (pending d) c at_ms path value | None => None end) with
              | Some l => mods (fun d => d <| pending := l |>);; mret ESP_OK
              | None =>
                  if negb (bool_decide (is_Some ctx)) || reorder || Nat.eqb (length (pending d)) PENDING_CAP then
                    ok ← flush_window now_ms;
                    if ok : bool then ctx ← context_slot context; append_pending ctx path value at_ms now_ms
                    else mret ESP_ERR_NO_MEM
                  else append_pending ctx path value at_ms now_ms
              end
        | err => mret err
        end
  | _, _ => mret ESP_ERR_INVALID_ARG
  end.

Definition espos_sk_delta_publish_ctx (context path value_json : option cstr) (now_ms : Z) : M esp_err_t :=
  espos_sk_delta_publish_at context path value_json 0 now_ms.
Definition espos_sk_delta_publish (path value_json : option cstr) (now_ms : Z) : M esp_err_t :=
  espos_sk_delta_publish_ctx None path value_json now_ms.

(** The message to send: [msg], or a new buffer. *)
Definition stamp (msg : msg_t) (now_ms batch : Z) (at_ : nat) : M msg_t :=
  d ← gets id;
  match wall_ms d with
  | None => mret msg
  | Some clock =>
      wall_now ← query (p_wall_ms clock);
      if wall_now <=? 0 then mret msg
      else
        let age_ms := u32 (now_ms - batch) in
        let iso := iso8601 (wall_now - age_ms) 25 in
        if Nat.eqb (length iso) 0 then mret msg
        else
          let len := length (text msg) in
          if Nat.eqb at_ 0 || (len <=? at_)%nat || negb (nth (at_ - 1) (text msg) 0 =? 123) then mret msg
          else
            let add := (length (js "'timestamp':'") + length iso + length (js "',"))%nat in
            out ← malloc (at_ + add + (len - at_) + 1);
            match out with
            | None => mret msg
            | Some p =>
                let written := timestamp_text iso in
                if negb (Nat.eqb (length written) add) then free (Some (Msg p []));; mret msg
                else free (Some msg);; mret (Msg p (take at_ (text msg) ++ written ++ drop at_ (text msg)))
            end
  end.

Definition espos_sk_delta_take (now_ms : Z) (connected : bool) : M (option msg_t) :=
  d ← gets id;
  (if batch_due d now_ms then espos_sk_delta_flush now_ms;; mret tt else mret tt);;
  d ← gets id;
  if negb connected || Nat.eqb (count d) 0 then mods (fun d => d <| draining := false |>);; mret None
  else
    let gap := 1000 / drain_per_s (cfg d) in
    let backlog := (1 <? count d)%nat || draining d in
    if backlog && negb (st_taken (st d) =? 0) && (i32 (u32 (now_ms - u32 (last_take_ms d + gap))) <? 0) then mret None
    else
      (if backlog then mods (fun d => d <| draining := (1 <? count d)%nat |>) else mret tt);;
      popped ← ring_pop;
      mods (fun d => d <| last_take_ms := now_ms |> <| st; st_taken ::= fun n => u32 (n + 1) |>
                       <| st; st_buffered := count d |> <| st; st_buffered_bytes := bytes d |> <| unstamped := None |>);;
      match popped with
      | None => mret None
      | Some (m, batch, at_) =>
          out ← (if Nat.eqb at_ 0 then mret m
                 else
                   out ← stamp m now_ms batch at_;
                   (if ptr out =? ptr m then
                      mods (fun d => d <| unstamped := Some (ptr m) |> <| unstamped_at := at_ |> <| unstamped_batch_ms := batch |>)
                    else mret tt);;
                   mret out);
          emit (OHand (ptr out));;
          mret (Some out)
      end.

End Engine.
