(* ===== verification/SkDeltaText.v ===== *)
(** The text of a delta: what [build_message] writes is the printed message of the
    window, its buffer is always large enough, and the timestamp written in later
    gives the printed message with that update dated. *)
From Stdlib Require Import ZArith Lia String.
From stdpp Require Import base list numbers option.
From S2P Require Import Prelude ConfigDesc TimePolicy TimeProps SkDelta.
Open Scope Z_scope.

(** ** Messages as data, and how they print *)

(** [u_iso] is the timestamp, empty for an undated update. *)
Record sk_update := SkUpdate { u_iso : cstr; u_values : list (cstr * cstr) }.
Record sk_message := SkMessage { k_context : cstr; k_label : cstr; k_updates : list sk_update }.

Definition sep (first : bool) : cstr := if first then [] else lit ",".
Definition value_text (v : cstr * cstr) : cstr := js "{'path':'" ++ v.1 ++ js "','value':" ++ v.2 ++ lit "}".
Fixpoint listed {A} (show : A -> cstr) (first : bool) (l : list A) : cstr :=
  match l with [] => [] | x :: l' => sep first ++ show x ++ listed show false l' end.
Definition time_text (iso : cstr) : cstr := match iso with [] => [] | _ => timestamp_text iso end.
Definition update_body (lbl : cstr) (vs : list (cstr * cstr)) : cstr :=
  js "'source':{'label':'" ++ lbl ++ js "'},'values':[" ++ listed value_text true vs ++ lit "]}".
Definition update_text (lbl : cstr) (u : sk_update) : cstr := lit "{" ++ time_text (u_iso u) ++ update_body lbl (u_values u).
Definition message_head (context : cstr) : cstr := js "{'context':'" ++ context ++ js "','updates':[".
Definition message_text (k : sk_message) : cstr :=
  message_head (k_context k) ++ listed (update_text (k_label k)) true (k_updates k) ++ lit "]}".

(** The message of context [c] of a window: an update per number in use, with its
    entries in the order of the table. *)
Definition entry_value (e : pending_t) : cstr * cstr := (p_path e, p_value e).
Definition in_update (c u : nat) (e : pending_t) : bool := Nat.eqb (p_ctx e) c && Nat.eqb (p_upd e) u.
Definition entries_of (l : list pending_t) (c u : nat) : list pending_t := List.filter (in_update c u) l.
Definition at_iso (at_ms : Z) : cstr := if at_ms =? 0 then [] else iso8601 at_ms 25.
Definition window_update (l : list pending_t) (c u : nat) : option sk_update :=
  match entries_of l c u with [] => None | (f :: _) as es => Some (SkUpdate (at_iso (p_at_ms f)) (entry_value <$> es)) end.
Definition window_message (d : espos_sk_delta) (c : nat) : sk_message :=
  SkMessage (ctx_text d c) (label d) (omap (window_update (pending d) c) (seq 0 (upd_n d))).

(** The offset of the last undated update when [n] bytes are in front. *)
Fixpoint stamp_offset (lbl : cstr) (n : nat) (first : bool) (us : list sk_update) (acc : nat) : nat :=
  match us with
  | [] => acc
  | u :: us' => stamp_offset lbl (n + length (sep first ++ update_text lbl u)) false us' (match u_iso u with [] => (n + length (sep first) + 1)%nat | _ => acc end)
  end.
Definition message_stamp_at (k : sk_message) : nat := stamp_offset (k_label k) (length (message_head (k_context k))) true (k_updates k) 0.

(** The message with its undated updates dated. *)
Definition dated (iso : cstr) (k : sk_message) : sk_message :=
  SkMessage (k_context k) (k_label k) ((fun u => SkUpdate (match u_iso u with [] => iso | _ => u_iso u end) (u_values u)) <$> k_updates k).

(** ** The buffer *)

Definition outof (t : cstr) : outbuf := Out t (length t) true.

Lemma put_outof need s t : (length t + length s < need)%nat -> put need s (outof t) = outof (t ++ s).
Proof.
  intros Hn. unfold put, outof. cbn [o_text o_n o_in]. rewrite take_ge by lia. destruct (Nat.ltb_spec (length t) need); [|lia].
  by rewrite length_app.
Qed.

Lemma listed_cons {A} (show : A -> cstr) first x l : listed show first (x :: l) = sep first ++ show x ++ listed show false l.
Proof. done. Qed.

Lemma entries_cons e l c u : entries_of (e :: l) c u = if in_update c u e then e :: entries_of l c u else entries_of l c u.
Proof. done. Qed.

Lemma put_values_outof need c u l first t :
  (length t + length (listed value_text first (entry_value <$> entries_of l c u)) < need)%nat ->
  put_values need c u l first (outof t) = outof (t ++ listed value_text first (entry_value <$> entries_of l c u)).
Proof.
  revert first t. induction l as [|e l IH]; intros first t Hn; cbn [put_values].
  { cbn. by rewrite app_nil_r. }
  rewrite entries_cons in *. unfold in_update in *. destruct (Nat.eqb (p_ctx e) c), (Nat.eqb (p_upd e) u); cbn [negb orb andb] in *; try by apply IH.
  cbn [fmap list_fmap] in *. rewrite listed_cons in *.
  assert (Hv : value_text (entry_value e) = js "{'path':'" ++ p_path e ++ js "','value':" ++ p_value e ++ lit "}") by done.
  rewrite <- Hv. fold (sep first). rewrite !length_app in Hn. rewrite put_outof by (rewrite length_app; lia).
  rewrite IH by (rewrite !length_app; lia). by rewrite <- !app_assoc.
Qed.

Lemma update_first_entries l c u :
  match update_first l c u with
  | None => entries_of l c u = []
  | Some (f, l') => exists r, entries_of l c u = f :: r /\ entries_of l' c u = entries_of l c u
  end.
Proof.
  induction l as [|e l IH]; [done|]. cbn [update_first]. rewrite !entries_cons. change (Nat.eqb (p_ctx e) c && Nat.eqb (p_upd e) u) with (in_update c u e).
  destruct (in_update c u e) eqn:E.
  - exists (entries_of l c u). split; [done|]. by rewrite entries_cons, E.
  - destruct (update_first l c u) as [[f l']|]; done.
Qed.

Lemma put_updates_outof d need c us first sa t :
  (length t + length (listed (update_text (label d)) first (omap (window_update (pending d) c) us)) < need)%nat ->
  put_updates d need c us first sa (outof t) =
    (outof (t ++ listed (update_text (label d)) first (omap (window_update (pending d) c) us)),
     stamp_offset (label d) (length t) first (omap (window_update (pending d) c) us) sa).
Proof.
  revert first sa t. induction us as [|u us IH]; intros first sa t Hn; cbn [put_updates].
  { cbn. by rewrite app_nil_r. }
  pose proof (update_first_entries (pending d) c u) as Hu. cbn [omap list_omap] in *.
  destruct (update_first (pending d) c u) as [[f l]|].
  2:{ assert (window_update (pending d) c u = None) as Hw by (unfold window_update; by rewrite Hu). rewrite Hw in *. by apply IH. }
  destruct Hu as (r & Hr & Hl). assert (window_update (pending d) c u = Some (SkUpdate (at_iso (p_at_ms f)) (entry_value <$> f :: r))) as Hw by (unfold window_update; rewrite Hr; reflexivity).
  rewrite Hw in *. clear Hw. rewrite listed_cons in *. cbn [stamp_offset u_iso].
  change (if p_at_ms f =? 0 then [] else iso8601 (p_at_ms f) 25) with (at_iso (p_at_ms f)). set (iso := at_iso (p_at_ms f)) in *. clearbody iso.
  unfold update_text at 1 in Hn. unfold update_text at 1 3. cbn [u_iso u_values] in *. unfold update_body in *.
  rewrite !length_app in Hn. change (length (lit "{")) with 1%nat in Hn.
  fold (sep first). rewrite put_outof by (rewrite length_app; change (length (lit "{")) with 1%nat; lia).
  set (t1 := t ++ sep first ++ lit "{").
  assert (Ht1 : length t1 = (length t + length (sep first) + 1)%nat) by (subst t1; rewrite !length_app; change (length (lit "{")) with 1%nat; lia).
  assert (exists t2 sa', (match iso with [] => (outof t1, o_n (outof t1)) | _ => (put need (timestamp_text iso) (outof t1), sa) end) = (outof t2, sa') /\
            t2 = t1 ++ time_text iso /\ sa' = match iso with [] => (length t + length (sep first) + 1)%nat | _ => sa end) as (t2 & sa' & -> & Et2 & ->).
  { destruct iso as [|i iso]; [exists t1, (length t1); cbn [time_text]; rewrite app_nil_r; split_and!; done|].
    exists (t1 ++ timestamp_text (i :: iso)), sa. rewrite put_outof; [done|]. cbn [time_text] in Hn. lia. }
  assert (Ht2 : length t2 = (length t1 + length (time_text iso))%nat) by (subst t2; by rewrite length_app).
  rewrite put_outof by (rewrite !length_app; lia). rewrite put_values_outof by (rewrite Hl, Hr, !length_app; lia). rewrite Hl, Hr.
  rewrite put_outof by (rewrite !length_app; lia). rewrite IH.
  2:{ rewrite !length_app. lia. }
  subst t2 t1. rewrite <- !app_assoc. f_equal. f_equal. rewrite !length_app. lia.
Qed.

(** ** The buffer is large enough *)

Lemma iso8601_length t : (length (iso8601 t 25) <= 24)%nat.
Proof.
  unfold iso8601. destruct (_ || _); [cbn; lia|]. cbv zeta. match goal with |- context [if ?b then ?x else _] => destruct b eqn:E end; [|cbn; lia].
  apply Z.ltb_lt in E. lia.
Qed.

Lemma time_text_length t : (length (time_text (at_iso t)) <= 39)%nat.
Proof.
  unfold at_iso. destruct (t =? 0); [cbn; lia|]. pose proof (iso8601_length t) as Hi. unfold time_text, timestamp_text. destruct (iso8601 t 25); [cbn; lia|].
  rewrite !length_app. change (length (js "'timestamp':'")) with 13%nat. change (length (js "',")) with 2%nat. lia.
Qed.

Definition value_room (e : pending_t) : nat := 24 + length (p_path e) + length (p_value e).

Lemma values_text_length first l : (length (listed value_text first (entry_value <$> l)) <= sum_list_with value_room l)%nat.
Proof.
  revert first. induction l as [|e l IH]; intros first; [done|]. cbn [fmap list_fmap listed sum_list_with]. rewrite !length_app. specialize (IH false).
  assert (length (value_text (entry_value e)) = 20 + length (p_path e) + length (p_value e))%nat.
  { unfold value_text. cbn [entry_value fst snd]. rewrite !length_app. change (length (js "{'path':'")) with 9%nat. change (length (js "','value':")) with 10%nat.
    change (length (lit "}")) with 1%nat. lia. }
  unfold value_room at 1. unfold sep. destruct first; [cbn [length]|change (length (lit ",")) with 1%nat]; lia.
Qed.

Definition update_room (d : espos_sk_delta) (c u : nat) : nat :=
  match entries_of (pending d) c u with [] => 0 | es => 128 + length (label d) + sum_list_with value_room es end%nat.

Lemma updates_text_length d c us first :
  (length (listed (update_text (label d)) first (omap (window_update (pending d) c) us)) <= sum_list_with (update_room d c) us)%nat.
Proof.
  revert first. induction us as [|u us IH]; intros first; [done|]. cbn [omap list_omap sum_list_with]. unfold window_update at 1, update_room at 1.
  destruct (entries_of (pending d) c u) as [|f r]; [apply IH|]. rewrite listed_cons, !length_app. specialize (IH false).
  unfold update_text at 1. cbn [u_iso u_values]. unfold update_body. rewrite !length_app.
  pose proof (time_text_length (p_at_ms f)). pose proof (values_text_length true (f :: r)).
  change (length (lit "{")) with 1%nat. change (length (js "'source':{'label':'")) with 19%nat. change (length (js "'},'values':[")) with 13%nat. change (length (lit "]}")) with 2%nat.
  unfold sep at 1. destruct first; [cbn [length]|change (length (lit ",")) with 1%nat]; lia.
Qed.

(** Entries counted once: each is in one update at most. *)
Lemma sum_entry_once (e : pending_t) (c n k : nat) (g : nat) :
  (sum_list_with (fun u => if in_update c u e then g else 0) (seq k n) <= if Nat.eqb (p_ctx e) c then g else 0)%nat.
Proof.
  assert (H : (sum_list_with (fun u => if in_update c u e then g else 0) (seq k n) <= if Nat.eqb (p_ctx e) c && (k <=? p_upd e)%nat then g else 0)%nat).
  { revert k. induction n as [|n IH]; intros k; cbn [seq sum_list_with]; [lia|]. specialize (IH (S k)). unfold in_update at 1.
    destruct (Nat.eqb (p_ctx e) c); cbn [andb] in *; [|lia]. destruct (Nat.eqb_spec (p_upd e) k), (Nat.leb_spec k (p_upd e)), (Nat.leb_spec (S k) (p_upd e)); lia. }
  destruct (Nat.eqb (p_ctx e) c); cbn [andb] in *; [|done]. destruct (k <=? p_upd e)%nat; lia.
Qed.

Lemma sum_list_with_add {A} (f g : A -> nat) l : sum_list_with (fun x => f x + g x)%nat l = (sum_list_with f l + sum_list_with g l)%nat.
Proof. induction l as [|x l IH]; cbn; lia. Qed.

Lemma sum_list_with_ext {A} (f g : A -> nat) l : (forall x, f x = g x) -> sum_list_with f l = sum_list_with g l.
Proof. intros H. induction l as [|x l IH]; cbn; by rewrite ?H, ?IH. Qed.

Lemma sum_entries l c n :
  (sum_list_with (fun u => sum_list_with value_room (entries_of l c u)) (seq 0 n)
   <= sum_list_with (fun e => if Nat.eqb (p_ctx e) c then value_room e else 0) l)%nat.
Proof.
  induction l as [|e l IH]; cbn [sum_list_with].
  { clear. induction (seq 0 n) as [|k s IH]; cbn in *; lia. }
  pose proof (sum_entry_once e c n 0 (value_room e)). rewrite (sum_list_with_ext _ (fun u => (if in_update c u e then value_room e else 0) + sum_list_with value_room (entries_of l c u))%nat).
  - rewrite sum_list_with_add. lia.
  - intros u. rewrite entries_cons. destruct (in_update c u e); done.
Qed.

Lemma message_fits d c : (length (message_text (window_message d c)) < need_of d c)%nat.
Proof.
  unfold message_text, window_message, message_head, need_of. cbn [k_context k_label k_updates]. rewrite !length_app.
  change (length (js "{'context':'")) with 12%nat. change (length (js "','updates':[")) with 13%nat. change (length (lit "]}")) with 2%nat.
  pose proof (updates_text_length d c (seq 0 (upd_n d)) true) as H1. pose proof (sum_entries (pending d) c (upd_n d)) as H2.
  rewrite (sum_list_with_ext (update_room d c) (fun u => (if update_first (pending d) c u is Some _ then 128 + length (label d) else 0) + sum_list_with value_room (entries_of (pending d) c u))%nat) in H1.
  - rewrite sum_list_with_add in H1. unfold value_room in H2 at 2. lia.
  - intros u. unfold update_room. pose proof (update_first_entries (pending d) c u) as Hu. destruct (update_first (pending d) c u) as [[f l]|].
    + destruct Hu as (r & -> & _). lia.
    + by rewrite Hu.
Qed.

Lemma build_text_exact d c :
  build_text d (need_of d c) c = (outof (message_text (window_message d c)), message_stamp_at (window_message d c)).
Proof.
  pose proof (message_fits d c) as Hf. unfold build_text. change (Out [] 0 true) with (outof []).
  unfold message_text, message_stamp_at, window_message in *. cbn [k_context k_label k_updates] in *. unfold message_head in *. rewrite !length_app in Hf.
  rewrite put_outof by (rewrite !length_app; cbn [length]; lia). cbn [app]. rewrite put_updates_outof by (rewrite !length_app; lia).
  rewrite put_outof by (rewrite !length_app; lia). by rewrite <- !app_assoc.
Qed.

(** ** Dating a message *)

Lemma listed_app {A} (show : A -> cstr) first l1 x l2 :
  listed show first (l1 ++ x :: l2) = listed show first l1 ++ sep (match l1 with [] => first | _ => false end) ++ show x ++ listed show false l2.
Proof.
  revert first. induction l1 as [|y l1 IH]; intros first; [done|]. cbn [app listed]. rewrite IH, <- !app_assoc. by destruct l1.
Qed.

Definition is_dated (u : sk_update) : Prop := u_iso u <> [].

Lemma stamp_offset_none lbl n first us acc : Forall is_dated us -> stamp_offset lbl n first us acc = acc.
Proof.
  intros H. revert n first acc. induction H as [|u us Hu _ IH]; intros n first acc; [done|]. cbn [stamp_offset]. rewrite IH. unfold is_dated in Hu. by destruct (u_iso u).
Qed.

Lemma stamp_offset_one lbl n first us1 u us2 acc :
  u_iso u = [] -> Forall is_dated us2 ->
  stamp_offset lbl n first (us1 ++ u :: us2) acc =
    (n + length (listed (update_text lbl) first us1) + length (sep (match us1 with [] => first | _ => false end)) + 1)%nat.
Proof.
  intros Hu H2. revert n first acc. induction us1 as [|v us1 IH]; intros n first acc; cbn [app stamp_offset listed].
  - rewrite Hu, stamp_offset_none by done. cbn [length]. lia.
  - rewrite IH, !length_app. destruct us1; lia.
Qed.

Lemma dated_others iso us : Forall is_dated us -> (fun u => SkUpdate (match u_iso u with [] => iso | _ => u_iso u end) (u_values u)) <$> us = us.
Proof.
  induction 1 as [|[i v] us Hu _ IH]; [done|]. rewrite fmap_cons, IH. f_equal. unfold is_dated in Hu. cbn in *. by destruct i.
Qed.

(** One undated update: the offset is behind its opening brace, and a timestamp
    written there gives the printed message with that update dated. *)
Lemma stamp_dates k us1 u us2 iso :
  k_updates k = us1 ++ u :: us2 -> u_iso u = [] -> Forall is_dated us1 -> Forall is_dated us2 -> iso <> [] ->
  let n := message_stamp_at k in
  let t := message_text k in
  (0 < n < length t)%nat /\ nth (n - 1) t 0 = 123 /\ take n t ++ timestamp_text iso ++ drop n t = message_text (dated iso k).
Proof.
  intros Hk Hu H1 H2 Hi n t. set (X := message_head (k_context k) ++ listed (update_text (k_label k)) true us1 ++ sep (match us1 with [] => true | _ => false end)).
  set (Y := update_body (k_label k) (u_values u) ++ listed (update_text (k_label k)) false us2 ++ lit "]}").
  assert (Ht : t = (X ++ lit "{") ++ Y).
  { subst t X Y. unfold message_text. rewrite Hk, listed_app. unfold update_text at 2. rewrite Hu. cbn [time_text]. by rewrite <- !app_assoc. }
  assert (Hn : n = length (X ++ lit "{")).
  { subst n X. unfold message_stamp_at. rewrite Hk, stamp_offset_one by done. rewrite !length_app. change (length (lit "{")) with 1%nat. lia. }
  assert (HY : (0 < length Y)%nat) by (subst Y; rewrite !length_app; change (length (lit "]}")) with 2%nat; lia).
  rewrite Ht, Hn. split_and!.
  - rewrite length_app. change (length (lit "{")) with 1%nat. lia.
  - rewrite !length_app. lia.
  - rewrite length_app. change (length (lit "{")) with 1%nat. replace (length X + 1 - 1)%nat with (length X) by lia.
    rewrite <- app_assoc, app_nth2, Nat.sub_diag by lia. done.
  - rewrite take_app_length, drop_app_length. unfold message_text, dated. cbn [k_context k_label k_updates]. rewrite Hk, fmap_app, fmap_cons, !dated_others by done.
    rewrite listed_app. cbn [u_iso u_values]. rewrite Hu. unfold update_text at 2. cbn [u_iso u_values]. subst X Y.
    replace (time_text iso) with (timestamp_text iso) by (by destruct iso). by rewrite <- !app_assoc.
Qed.

(** ** The writer of timestamps *)

(** The engine's own writer and the one of the clock component write the same
    text. *)
Lemma iso8601_same t : iso8601 t 25 = espos_time_iso8601_format t 25.
Proof.
  unfold iso8601, espos_time_iso8601_format, ESPOS_TIME_ISO_MAX. change (25 <? 25) with false. rewrite orb_false_r. destruct (Z.leb_spec t 0); [done|].
  rewrite (Z.quot_div_nonneg t 1000), (Z.rem_mod_nonneg t 1000) by lia. destruct (Z.ltb_spec (t mod 1000) 0); [div_lia|].
  set (secs := t / 1000). assert (Hs : 0 <= secs) by (subst secs; div_lia).
  rewrite (Z.quot_div_nonneg secs 86400), (Z.rem_mod_nonneg secs 86400) by lia. destruct (Z.ltb_spec (secs mod 86400) 0); [div_lia|].
  unfold civil_from_days. cbv zeta. match goal with |- (if ?a <? 25 then _ else _) = (if 25 <=? ?b then _ else _) => change b with a; destruct (Z.ltb_spec a 25), (Z.leb_spec 25 a); try lia; done end.
Qed.

Lemma iso8601_dated t : 0 < t <= AT_MS_MAX -> length (iso8601 t 25) = 24%nat.
Proof.
  intros Ht. rewrite iso8601_same. destruct (format_fields t 25) as (y & m & d & _ & _ & _ & ->); [unfold AT_MS_MAX in *; lia|done|].
  by rewrite !length_app, !length_dec_fixed.
Qed.

Lemma at_iso_dated t : t <> 0 -> AT_MS_MIN <= t <= AT_MS_MAX -> at_iso t <> [].
Proof.
  unfold at_iso, AT_MS_MIN. intros H0 Ht. destruct (Z.eqb_spec t 0); [done|]. intros E. pose proof (iso8601_dated t ltac:(lia)) as Hl. by rewrite E in Hl.
Qed.

(** ** Strings *)

(** A byte inside a JSON string, and the string read back. *)
Definition escaped (c : Z) : cstr := if (c =? 34) || (c =? 92) then [92; c] else if c <? 32 then lit "\u" ++ fmt_04x c else [c].
Definition unhex (v : Z) : Z := if v <? 58 then v - 48 else v - 87.
Fixpoint unescape (fuel : nat) (s : cstr) : cstr :=
  match fuel, s with
  | S f, 92 :: 117 :: _ :: _ :: a :: b :: s' => 16 * unhex a + unhex b :: unescape f s'
  | S f, 92 :: c :: s' => c :: unescape f s'
  | S f, c :: s' => c :: unescape f s'
  | _, _ => []
  end.

Lemma escaped_length c : (1 <= length (escaped c) <= 6)%nat.
Proof. unfold escaped. destruct (_ || _); [cbn; lia|]. destruct (c <? 32); cbn; lia. Qed.

Lemma json_string_from_prefix size o s : (o + 1 < size)%nat ->
  exists n, json_string_from size o s = concat (escaped <$> take n s) /\ (o + length (concat (escaped <$> take n s)) + 1 < size)%nat /\
            (n = length s \/ size <= o + length (concat (escaped <$> take n s)) + 7)%nat.
Proof.
  revert o. induction s as [|c s IH]; intros o Ho; [exists 0%nat; split_and!; [done|cbn; lia|by left]|]. cbn [json_string_from]. destruct (Nat.ltb_spec (o + 7) size) as [Hr|Hr]; cbn [negb].
  2:{ exists 0%nat. split_and!; [done|cbn; lia|right; cbn; lia]. }
  assert (Hs : exists n, escaped c ++ json_string_from size (o + length (escaped c)) s = concat (escaped <$> take n (c :: s)) /\
    (o + length (concat (escaped <$> take n (c :: s))) + 1 < size)%nat /\ (n = length (c :: s) \/ size <= o + length (concat (escaped <$> take n (c :: s))) + 7)%nat).
  { pose proof (escaped_length c). destruct (IH (o + length (escaped c))%nat) as (n & H1 & H2 & H3); [lia|]. exists (S n). cbn [take]. rewrite fmap_cons. cbn [concat]. rewrite length_app, H1. cbn [length].
    split_and!; [done|lia|lia]. }
  destruct Hs as (n & Hs & Hn). exists n. split; [|exact Hn]. rewrite <- Hs. unfold escaped. destruct ((c =? 34) || (c =? 92)); [done|]. destruct (c <? 32); [|done].
  rewrite take_ge by (cbn; lia). done.
Qed.

Lemma unescape_escaped c t f : 0 < c < 256 -> unescape (S f) (escaped c ++ t) = c :: unescape f t.
Proof.
  intros Hc. unfold escaped. destruct (Z.eqb_spec c 34) as [->|]; [done|]. destruct (Z.eqb_spec c 92) as [->|]; [done|]. cbn [orb]. destruct (Z.ltb_spec c 32) as [Hl|Hl].
  - change (lit "\u" ++ fmt_04x c) with (92 :: 117 :: 48 :: 48 :: (if c / 16 <? 10 then 48 + c / 16 else 87 + c / 16) :: (if c mod 16 <? 10 then 48 + c mod 16 else 87 + c mod 16) :: []).
    cbn [app unescape]. f_equal. unfold unhex. destruct (Z.ltb_spec (c / 16) 10), (Z.ltb_spec (c mod 16) 10); repeat case_match; rewrite ?Z.ltb_lt, ?Z.ltb_ge in *; div_lia.
  - cbn [app]. assert (Hne : c <> 92) by done. destruct c as [|p|p]; [lia| |lia]. cbn [unescape].
    repeat match goal with |- context [match ?q with xI _ => _ | xO _ => _ | xH => _ end] => destruct q; try reflexivity end; done.
Qed.

(** A string in JSON: what is written is a quoted prefix of it, all of it when the
    buffer is large enough, terminator included, and reads back as that prefix. *)
Lemma sk_json_string_exact size s : (3 <= size)%nat -> Forall (fun c => 0 < c < 256) s ->
  exists n t, espos_sk_json_string size s = Some ([34] ++ t ++ [34]) /\ (length (34%Z :: t ++ [34%Z]) < size)%nat /\
    unescape (length s) t = take n s /\ (n = length s \/ size <= length t + 8)%nat.
Proof.
  intros Hsz Hs. destruct (json_string_from_prefix size 1 s) as (n & H1 & H2 & H3); [lia|]. exists n. eexists. unfold espos_sk_json_string. destruct (Nat.ltb_spec size 3); [lia|].
  rewrite H1. split_and!; [done|cbn [length]; rewrite length_app; cbn [length]; lia| |lia]. clear -Hs. revert n. induction Hs as [|c s Hc _ IH]; intros [|n]; [done|done|done|].
  cbn [take length]. rewrite fmap_cons. cbn [concat]. by rewrite unescape_escaped, IH.
Qed.

(** ** Reading a message

    A reader of the messages on the wire: it looks only at the text. Strings end at
    a quotation mark, values where their brackets and strings are closed. *)

(** The text behind [p]. *)
Definition behind (p s : cstr) : option cstr := if is_prefix p s then Some (drop (length p) s) else None.

(** Up to the next quotation mark, and from there on. *)
Fixpoint take_text (s : cstr) : cstr * cstr :=
  match s with [] => ([], []) | c :: s' => if c =? 34 then ([], s) else let '(t, r) := take_text s' in (c :: t, r) end.

(** Up to the comma or the bracket that ends a value, [depth] brackets deep and
    inside a string or not. *)
Fixpoint take_value (depth : nat) (str : bool) (s : cstr) : cstr * cstr :=
  match s with
  | [] => ([], [])
  | c :: s' =>
      let go d b := let '(v, r) := take_value d b s' in (c :: v, r) in
      if str then
        if c =? 92 then match s' with x :: s'' => let '(v, r) := take_value depth true s'' in (c :: x :: v, r) | [] => ([c], []) end
        else go depth (negb (c =? 34))
      else if c =? 34 then go depth true
      else if (c =? 123) || (c =? 91) then go (S depth) false
      else if (c =? 125) || (c =? 93) then match depth with O => ([], s) | S n => go n false end
      else if (c =? 44) && Nat.eqb depth 0 then ([], s)
      else go depth false
  end.

Fixpoint read_values (fuel : nat) (first : bool) (s : cstr) : option (list (cstr * cstr) * cstr) :=
  match fuel with
  | O => None
  | S n =>
      match behind (lit "]}") s with
      | Some r => Some ([], r)
      | None =>
          s ← behind (sep first) s;
          s ← behind (js "{'path':'") s;
          let '(p, s) := take_text s in
          s ← behind (js "','value':") s;
          let '(v, s) := take_value 0 false s in
          s ← behind (lit "}") s;
          '(vs, r) ← read_values n false s;
          Some ((p, v) :: vs, r)
      end
  end.

Fixpoint read_updates (fuel : nat) (first : bool) (s : cstr) : option (list (cstr * cstr)) :=
  match fuel with
  | O => None
  | S n =>
      match behind (lit "]}") s with
      | Some r => if bool_decide (r = []) then Some [] else None
      | None =>
          s ← behind (sep first) s;
          s ← behind (lit "{") s;
          s ← (match behind (js "'timestamp':'") s with Some s => behind (js "',") (take_text s).2 | None => Some s end);
          s ← behind (js "'source':{'label':'") s;
          s ← behind (js "'},'values':[") (take_text s).2;
          '(vs, s) ← read_values (length s) true s;
          us ← read_updates n false s;
          Some (vs ++ us)
      end
  end.

(** The context, and the paths with their values in the order of the text. *)
Definition read_message (s : cstr) : option (cstr * list (cstr * cstr)) :=
  s ← behind (js "{'context':'") s;
  let '(context, s) := take_text s in
  s ← behind (js "','updates':[") s;
  vs ← read_updates (length s) true s;
  Some (context, vs).

(** What reads back: strings without quotation marks and backslashes, and values
    whose brackets and strings are closed. *)
Definition plain (s : cstr) : Prop := Forall (fun c => c <> 34 /\ c <> 92) s.
Definition closed_value (v : cstr) : Prop := take_value 0 false (v ++ [125]) = (v, [125]).
Record readable (k : sk_message) : Prop := {
  rd_context : plain (k_context k);
  rd_label : plain (k_label k);
  rd_iso : Forall (fun u => plain (u_iso u)) (k_updates k);
  rd_values : Forall (fun u => Forall (fun v => plain v.1 /\ closed_value v.2) (u_values u)) (k_updates k) }.

Lemma behind_app p s : behind p (p ++ s) = Some s.
Proof.
  unfold behind. assert (E : is_prefix p (p ++ s) = true) by (induction p as [|x p IH]; [done|]; cbn; by rewrite Z.eqb_refl). by rewrite E, drop_app_length.
Qed.

Lemma take_text_app t s : plain t -> take_text (t ++ 34 :: s) = (t, 34 :: s).
Proof. induction 1 as [|c t [Hc _] _ IH]; [done|]. cbn [app take_text]. rewrite IH. by destruct (Z.eqb_spec c 34). Qed.

Lemma take_value_app v : forall d b r, take_value d b (v ++ [125]) = (v, [125]) -> take_value d b (v ++ 125 :: r) = (v, 125 :: r).
Proof.
  assert (Hlen : forall n v, (length v <= n)%nat -> forall d b r, take_value d b (v ++ [125]) = (v, [125]) -> take_value d b (v ++ 125 :: r) = (v, 125 :: r)); [|intros; by apply (Hlen (length v))].
  induction n as [|n IH]; intros [|c l] Hl d b r; cbn [app length] in *; try lia; try (cbn; destruct b; [by destruct d|by destruct d]).
  assert (Hgo : forall d' b', (let '(v, r0) := take_value d' b' (l ++ [125]) in (c :: v, r0)) = (c :: l, [125]) -> (let '(v, r0) := take_value d' b' (l ++ 125 :: r) in (c :: v, r0)) = (c :: l, 125 :: r)).
  { intros d' b'. specialize (IH l ltac:(lia) d' b' r). destruct (take_value d' b' (l ++ [125])) as [v0 r0]. intros [= -> ->]. by rewrite IH. }
  cbn [take_value]. destruct b.
  - destruct (c =? 92); [|apply Hgo]. destruct l as [|x l]; cbn [app].
    + by intros [=].
    + specialize (IH l ltac:(cbn in Hl; lia) d true r). destruct (take_value d true (l ++ [125])) as [v0 r0]. intros [= -> ->]. by rewrite IH.
  - destruct (c =? 34); [apply Hgo|]. destruct (_ || _); [apply Hgo|]. destruct (_ || _); [destruct d; [done|apply Hgo]|]. destruct (_ && _); [done|apply Hgo].
Qed.

Lemma read_values_app vs : Forall (fun v => plain v.1 /\ closed_value v.2) vs -> forall n first r, (length vs < n)%nat ->
  read_values n first (listed value_text first vs ++ lit "]}" ++ r) = Some (vs, r).
Proof.
  induction 1 as [|[p v] vs [Hp Hv] _ IH]; intros n first r Hn; destruct n as [|n]; cbn [length] in Hn; try lia; cbn [read_values].
  { cbn [listed app]. by rewrite behind_app. }
  rewrite listed_cons, <- !app_assoc. assert (E : behind (lit "]}") (sep first ++ value_text (p, v) ++ listed value_text false vs ++ lit "]}" ++ r) = None) by (by destruct first).
  rewrite E, behind_app. cbn [mbind option_bind]. unfold value_text at 1. cbn [fst snd]. rewrite <- !app_assoc, behind_app. cbn [mbind option_bind].
  change (js "','value':") with (34 :: (lit "," ++ js "'value':")). cbn [app]. rewrite take_text_app by done.
  match goal with |- context [behind _ (34 :: ?t)] => change (34 :: t) with (js "','value':" ++ (v ++ 125 :: listed value_text false vs ++ lit "]}" ++ r)) end.
  change (34 :: lit "," ++ js "'value':") with (js "','value':"). rewrite behind_app. cbn [mbind option_bind]. rewrite (take_value_app v 0 false _ Hv).
  change (125 :: listed value_text false vs ++ lit "]}" ++ r) with (lit "}" ++ (listed value_text false vs ++ lit "]}" ++ r)). rewrite behind_app. cbn [mbind option_bind]. rewrite IH by lia. done.
Qed.

Lemma values_fuel vs first : (length vs <= length (listed value_text first vs))%nat.
Proof.
  revert first. induction vs as [|[p v] vs IH]; intros first; [done|]. rewrite listed_cons, !length_app. specialize (IH false).
  assert (1 <= length (value_text (p, v)))%nat by (unfold value_text; rewrite !length_app; change (length (lit "}")) with 1%nat; lia). cbn [length]. lia.
Qed.

(** A string, its closing mark and the rest. *)
Lemma take_text_mark t x s : plain t -> take_text (t ++ (34 :: x) ++ s) = (t, (34 :: x) ++ s).
Proof. apply take_text_app. Qed.

Lemma read_update_app lbl u first r : plain lbl -> plain (u_iso u) -> Forall (fun v => plain v.1 /\ closed_value v.2) (u_values u) ->
  forall n, read_updates (S n) first (sep first ++ update_text lbl u ++ r) = us ← read_updates n false r; Some (u_values u ++ us).
Proof.
  intros Hl Hi Hv n. cbn [read_updates].
  assert (E : behind (lit "]}") (sep first ++ update_text lbl u ++ r) = None) by (by destruct first).
  rewrite E, behind_app. cbn [mbind option_bind]. unfold update_text. rewrite <- !app_assoc, behind_app. cbn [mbind option_bind].
  assert (Et : match behind (js "'timestamp':'") (time_text (u_iso u) ++ update_body lbl (u_values u) ++ r) with Some s => behind (js "',") (take_text s).2 | None => Some (time_text (u_iso u) ++ update_body lbl (u_values u) ++ r) end = Some (update_body lbl (u_values u) ++ r)).
  { destruct (u_iso u) as [|i iso] eqn:Ei; [done|]. cbn [time_text]. unfold timestamp_text. rewrite <- !app_assoc, behind_app.
    change (js "',") with (34 :: lit ","). rewrite take_text_mark by done. cbn [snd]. by rewrite behind_app. }
  rewrite Et. cbn [mbind option_bind]. unfold update_body. rewrite <- !app_assoc, behind_app. cbn [mbind option_bind].
  change (js "'},'values':[") with (34 :: (lit "}," ++ js "'values':[")). rewrite take_text_mark by done. cbn [snd]. rewrite behind_app. cbn [mbind option_bind].
  rewrite read_values_app by (try done; rewrite !length_app; change (length (lit "]}")) with 2%nat; pose proof (values_fuel (u_values u) true); lia). done.
Qed.

Lemma read_updates_app lbl us : plain lbl -> Forall (fun u => plain (u_iso u)) us -> Forall (fun u => Forall (fun v => plain v.1 /\ closed_value v.2) (u_values u)) us ->
  forall n first, (length us < n)%nat -> read_updates n first (listed (update_text lbl) first us ++ lit "]}") = Some (us ≫= u_values).
Proof.
  intros Hl. induction us as [|u us IH]; intros Hi Hv n first Hn; destruct n as [|n]; cbn [length] in Hn; try lia.
  { done. }
  apply list.Forall_cons in Hi as [Hi1 Hi2], Hv as [Hv1 Hv2]. rewrite listed_cons, <- !app_assoc, read_update_app by done. rewrite IH by (done || lia). done.
Qed.

Lemma updates_fuel lbl us first : (length us <= length (listed (update_text lbl) first us))%nat.
Proof.
  revert first. induction us as [|u us IH]; intros first; [done|]. rewrite listed_cons, !length_app. specialize (IH false).
  assert (1 <= length (update_text lbl u))%nat by (unfold update_text; rewrite length_app; change (length (lit "{")) with 1%nat; lia). cbn [length]. lia.
Qed.

(** A printed message reads back as its context and its values in their order. *)
Lemma read_message_text k : readable k -> read_message (message_text k) = Some (k_context k, k_updates k ≫= u_values).
Proof.
  intros [Hc Hl Hi Hv]. unfold read_message, message_text, message_head. rewrite <- !app_assoc, behind_app. cbn [mbind option_bind].
  change (js "','updates':[") with (34 :: (lit "," ++ js "'updates':[")). rewrite take_text_mark by done. cbn [snd]. rewrite behind_app. cbn [mbind option_bind].
  rewrite read_updates_app by (try done; rewrite length_app; change (length (lit "]}")) with 2%nat; pose proof (updates_fuel (k_label k) (k_updates k) true); lia). done.
Qed.

(** The values of a path among what was read. *)
Definition wire_vals (context path : cstr) (ms : list (cstr * list (cstr * cstr))) : list cstr :=
  ms ≫= fun m => if streq m.1 context then snd <$> List.filter (fun v => streq v.1 path) m.2 else [].

(** A timestamp holds no mark. *)
Lemma plain_app s t : plain (s ++ t) <-> plain s /\ plain t.
Proof. apply list.Forall_app. Qed.

Lemma dec_digits_plain fuel : forall n acc, 0 <= n -> plain acc -> plain (dec_digits fuel n acc).
Proof.
  induction fuel as [|fuel IH]; intros n acc Hn Ha; cbn [dec_digits]; [done|]. destruct (Z.ltb_spec n 10); [constructor; [lia|done]|].
  apply IH; [div_lia|]. constructor; [div_lia|done].
Qed.

Lemma fmt_0d_plain w n : plain (fmt_0d w n).
Proof.
  unfold fmt_0d. apply plain_app. split.
  - induction (w - length (fmt_d n))%nat as [|k IH]; [constructor|]. cbn. constructor; [done|exact IH].
  - unfold fmt_d. destruct (Z.ltb_spec n 0); [constructor; [done|]|]; (apply dec_digits_plain; [lia|constructor]).
Qed.

Lemma iso8601_plain t size : plain (iso8601 t size).
Proof.
  unfold iso8601. destruct (_ || _); [constructor|]. cbv zeta. destruct (_ <? size); [|constructor]. repeat match goal with |- context [fmt_0d ?w ?n] => pose proof (fmt_0d_plain w n); generalize dependent (fmt_0d w n); intros end.
  rewrite !plain_app. split_and!; try done; by repeat constructor.
Qed.

Lemma at_iso_plain t : plain (at_iso t).
Proof. unfold at_iso. destruct (t =? 0); [constructor|apply iso8601_plain]. Qed.
