(* ===== verification/SkDeltaRing.v ===== *)
(** The ring of [sk_delta.c] is a bounded queue: its slots, head and count refine a
    list of messages, oldest first, and its bytes are their sum. *)
From Stdlib Require Import ZArith Lia String.
From stdpp Require Import base list numbers option.
From S2P Require Import Prelude ConfigDesc SkDelta.
Open Scope Z_scope.

(** ** The queue a ring stands for *)

Definition abs_ring (d : espos_sk_delta) : list queued_t := (fun i => slot d ((head d + i) mod max_msgs (cfg d))%nat) <$> seq 0 (count d).
Definition q_bytes (q : list queued_t) : Z := foldr (fun x n => strlen (q_text x) + n) 0 q.

Record ring_ok (d : espos_sk_delta) : Prop := RingOk {
  ro_len : length (ring d) = max_msgs (cfg d);
  ro_head : (head d < max_msgs (cfg d))%nat;
  ro_count : (count d <= max_msgs (cfg d))%nat;
  ro_msgs : Forall (fun q => is_Some (q_msg q)) (abs_ring d);
  ro_bytes : bytes d = q_bytes (abs_ring d);
  ro_max : 0 <= max_bytes (cfg d) }.

(** Everything of the engine that is not the ring or the count of losses. *)
Definition rest (d : espos_sk_delta) : espos_sk_delta :=
  d <| ring := [] |> <| head := 0%nat |> <| count := 0%nat |> <| bytes := 0 |> <| st; st_dropped := 0 |>.

(** The bounded queue: what is over a limit, and the oldest dropped until the new
    message fits or nothing is left. *)
Definition over (c : espos_sk_delta_cfg_t) (len : Z) (q : list queued_t) : bool :=
  (max_msgs c <=? length q)%nat || (negb (max_bytes c =? 0) && (max_bytes c <? q_bytes q + len)).
Fixpoint kept (c : espos_sk_delta_cfg_t) (len : Z) (q : list queued_t) : list queued_t :=
  match q with [] => [] | x :: q' => if over c len q then kept c len q' else q end.
Definition too_large (c : espos_sk_delta_cfg_t) (len : Z) : bool := negb (max_bytes c =? 0) && (max_bytes c <? len).
Definition pushed (c : espos_sk_delta_cfg_t) (nodrop : bool) (x : queued_t) (q : list queued_t) : list queued_t * bool :=
  let len := strlen (q_text x) in
  if nodrop && over c len q then (q, false)
  else if too_large c len then (kept c len q, false) else (kept c len q ++ [x], true).
(** The counter of losses after [n] more. *)
Definition lose (n : nat) (x : Z) : Z := Nat.iter n (fun x => u32 (x + 1)) x.
Definition q_ptrs (q : list queued_t) : list Z := omap (fun x => ptr <$> q_msg x) q.

(** ** Indices *)

Lemma wrap_mod x m : (x < 2 * m)%nat -> (x mod m)%nat = if (x <? m)%nat then x else (x - m)%nat.
Proof.
  intros H. destruct (Nat.ltb_spec x m); [by apply Nat.mod_small|].
  replace x with ((x - m) + 1 * m)%nat at 1 by lia. rewrite Nat.Div0.mod_add. apply Nat.mod_small. lia.
Qed.

Lemma abs_ring_length d : length (abs_ring d) = count d.
Proof. unfold abs_ring. by rewrite length_fmap, length_seq. Qed.

Lemma abs_ring_pop d : (0 < count d)%nat -> (head d < max_msgs (cfg d))%nat ->
  abs_ring d = slot d (head d) :: ((fun i => slot d ((((head d + 1) mod max_msgs (cfg d)) + i) mod max_msgs (cfg d))%nat) <$> seq 0 (count d - 1)).
Proof.
  intros Hc Hh. unfold abs_ring. destruct (count d) as [|n] eqn:E; [lia|]. cbn [seq]. rewrite fmap_cons, Nat.add_0_r, Nat.mod_small by done. f_equal.
  replace (S n - 1)%nat with n by lia. rewrite <- fmap_S_seq, <- list_fmap_compose. apply list_fmap_ext. intros i x _. cbn.
  by rewrite Nat.Div0.add_mod_idemp_l, <- Nat.add_assoc.
Qed.

Lemma slot_insert_same d i q : (i < length (ring d))%nat -> nth i (<[i := q]> (ring d)) queued_zero = q.
Proof. intros H. apply nth_lookup_Some, list_lookup_insert_eq. done. Qed.

Lemma slot_insert_other d i j q : i <> j -> nth j (<[i := q]> (ring d)) queued_zero = slot d j.
Proof. intros H. unfold slot. rewrite !nth_lookup. by rewrite list_lookup_insert_ne. Qed.

Lemma abs_ring_push d q r h n :
  r = <[((head d + count d) mod max_msgs (cfg d))%nat := q]> (ring d) -> h = head d -> n = S (count d) ->
  length (ring d) = max_msgs (cfg d) -> (head d < max_msgs (cfg d))%nat -> (count d < max_msgs (cfg d))%nat ->
  (fun i => nth ((h + i) mod max_msgs (cfg d))%nat r queued_zero) <$> seq 0 n = abs_ring d ++ [q].
Proof.
  intros -> -> -> Hl Hh Hc. rewrite seq_S, fmap_app. cbn [fmap list_fmap]. rewrite slot_insert_same by (rewrite Hl; apply Nat.mod_upper_bound; lia).
  f_equal. apply list_fmap_ext. intros i x Hx. apply lookup_seq in Hx as [-> Hi]. cbn [Nat.add]. apply slot_insert_other.
  rewrite !wrap_mod by lia. destruct (Nat.ltb_spec (head d + count d) (max_msgs (cfg d))), (Nat.ltb_spec (head d + i) (max_msgs (cfg d))); lia.
Qed.

Lemma abs_ring_front d q r h n :
  h = ((head d + max_msgs (cfg d) - 1) mod max_msgs (cfg d))%nat -> r = <[h := q]> (ring d) -> n = S (count d) ->
  length (ring d) = max_msgs (cfg d) -> (head d < max_msgs (cfg d))%nat -> (count d < max_msgs (cfg d))%nat ->
  (h < max_msgs (cfg d))%nat /\ (fun i => nth ((h + i) mod max_msgs (cfg d))%nat r queued_zero) <$> seq 0 n = q :: abs_ring d.
Proof.
  intros Eh -> -> Hl Hh Hc. assert (Hb : (h < max_msgs (cfg d))%nat) by (rewrite Eh; apply Nat.mod_upper_bound; lia). split; [done|].
  cbn [seq]. rewrite fmap_cons, Nat.add_0_r, (Nat.mod_small h) by done. rewrite slot_insert_same by lia. f_equal.
  unfold abs_ring. rewrite <- fmap_S_seq, <- list_fmap_compose. apply list_fmap_ext. intros i x Hx. apply lookup_seq in Hx as [-> Hi]. cbn [Nat.add compose].
  rewrite wrap_mod in Eh by lia. rewrite !wrap_mod by lia.
  destruct (Nat.ltb_spec (head d + max_msgs (cfg d) - 1) (max_msgs (cfg d))), (Nat.ltb_spec (h + S i) (max_msgs (cfg d))), (Nat.ltb_spec (head d + i) (max_msgs (cfg d)));
    rewrite ?slot_insert_other by lia; f_equal; lia.
Qed.

Lemma q_bytes_app q1 q2 : q_bytes (q1 ++ q2) = q_bytes q1 + q_bytes q2.
Proof. induction q1 as [|x q1 IH]; [done|]. cbn [app q_bytes foldr]. fold (q_bytes (q1 ++ q2)) (q_bytes q1). lia. Qed.

Lemma q_bytes_nonneg q : 0 <= q_bytes q.
Proof. induction q as [|x q IH]; [done|]. cbn [q_bytes foldr]. fold (q_bytes q). unfold strlen. lia. Qed.

Lemma q_ptrs_app q1 q2 : q_ptrs (q1 ++ q2) = q_ptrs q1 ++ q_ptrs q2.
Proof. apply omap_app. Qed.

Lemma kept_suffix c len q : exists dropped, q = dropped ++ kept c len q.
Proof.
  induction q as [|x q [dr IH]]; [by exists []|]. cbn [kept]. destruct (over c len (x :: q)); [|by exists []]. exists (x :: dr). cbn. by rewrite <- IH.
Qed.

(** After the oldest are dropped the message fits, unless it is too large by
    itself. *)
Lemma kept_fits c len q : (0 < max_msgs c)%nat -> too_large c len = false -> over c len (kept c len q) = false.
Proof.
  intros Hm Ht. induction q as [|x q IH]; cbn [kept].
  - unfold over. cbn [length q_bytes foldr]. unfold too_large in Ht. rewrite Z.add_0_l, Ht. destruct (Nat.leb_spec (max_msgs c) 0); [lia|done].
  - destruct (over c len (x :: q)) eqn:E; done.
Qed.

Lemma no_room_over d len : ring_ok d -> no_room d len = over (cfg d) len (abs_ring d).
Proof. intros H. unfold no_room, over. by rewrite abs_ring_length, (ro_bytes _ H). Qed.

(** ** The operations refine those of the queue *)

Section Ring.
Context {W : Type} {P : DeltaPort W} {C : DeltaConf}.
Abbreviation St := (mach espos_sk_delta W obs).

(** Buffers that came to the engine, and those that left it. *)
Definition came (o : obs) : option Z := match o with OAlloc p => p | OGiven p => Some p | _ => None end.
Definition gone (o : obs) : option Z := match o with OFree p => Some p | OHand p => Some p | _ => None end.

(** What a computation of the ring may change: the queue becomes [q], the buffers
    [freed] are released, and nothing else moves but the count of losses. *)
Definition ring_to (s : St) (q : list queued_t) (freed : list Z) (s' : St) : Prop :=
  rest (m_sm s') = rest (m_sm s) /\ ring_ok (m_sm s') /\ abs_ring (m_sm s') = q /\ m_world s' = foldr p_free (m_world s) freed /\
  m_trace s' = (OFree <$> freed) ++ m_trace s.

Lemma rest_cfg d d' : rest d = rest d' -> cfg d = cfg d'.
Proof. intros H. by apply (f_equal cfg) in H. Qed.

Lemma ring_to_stay s q : ring_ok (m_sm s) -> abs_ring (m_sm s) = q -> ring_to s q [] s.
Proof. intros H Hq. by split_and!. Qed.

Lemma ring_to_trans s q1 f1 s1 q2 f2 s2 : ring_to s q1 f1 s1 -> ring_to s1 q2 f2 s2 -> ring_to s q2 (f2 ++ f1) s2.
Proof.
  intros (H1 & H2 & H3 & H4 & H5) (G1 & G2 & G3 & G4 & G5). split_and!; try congruence; try done; [by rewrite G4, H4, foldr_app|by rewrite G5, H5, fmap_app, app_assoc].
Qed.

Lemma wp_free m (Q : unit -> St -> Prop) (s : St) :
  Q tt (Mach (m_sm s) (p_free (ptr m) (m_world s)) (OFree (ptr m) :: m_trace s)) -> wp (free (Some m)) Q s.
Proof. exact id. Qed.

Lemma evict_oldest_to x q (s : St) : ring_ok (m_sm s) -> abs_ring (m_sm s) = x :: q ->
  wp evict_oldest (fun _ s' => ring_to s q (q_ptrs [x]) s' /\ st_dropped (st (m_sm s')) = u32 (st_dropped (st (m_sm s)) + 1)) s.
Proof.
  intros [Hl Hh Hc Hm Hb Hx] Ha. assert (H0 : (0 < count (m_sm s))%nat) by (rewrite <- abs_ring_length, Ha; cbn; lia).
  pose proof Ha as Hp. rewrite abs_ring_pop in Hp by done.
  destruct s as [d w tr]. cbn [m_sm m_world m_trace] in *. injection Hp as Hxs Hq.
  unfold evict_oldest. repeat wp_step. unfold id. cbn [m_sm]. rewrite Hxs.
  rewrite Ha in Hm, Hb. apply list.Forall_cons in Hm as [[m Hm1] Hm2].
  rewrite Hm1. apply wp_free. repeat wp_step. unfold q_text in *. rewrite Hm1. cbn [m_sm m_world m_trace].
  unfold ring_to. cbn [m_sm m_world m_trace]. split_and!; [reflexivity| |exact Hq|by cbn; rewrite Hm1|by cbn; rewrite Hm1|reflexivity].
  split; cbn; try done.
  - apply Nat.mod_upper_bound. lia.
  - lia.
  - unfold abs_ring. cbn. unfold slot in *. cbn. by rewrite Hq.
  - unfold abs_ring. cbn. unfold slot in *. cbn. rewrite Hq, Hb. cbn [q_bytes foldr]. unfold q_text at 1. rewrite Hm1. fold (q_bytes q). lia.
Qed.

Lemma make_room_to fuel len (s : St) : ring_ok (m_sm s) -> (count (m_sm s) <= fuel)%nat ->
  wp (make_room fuel len) (fun _ s' => exists dropped, abs_ring (m_sm s) = dropped ++ kept (cfg (m_sm s)) len (abs_ring (m_sm s)) /\
    ring_to s (kept (cfg (m_sm s)) len (abs_ring (m_sm s))) (reverse (q_ptrs dropped)) s' /\
    st_dropped (st (m_sm s')) = lose (length dropped) (st_dropped (st (m_sm s)))) s.
Proof.
  revert s. induction fuel as [|fuel IH]; intros s Hok Hf; cbn [make_room].
  { wp_step. exists []. rewrite <- abs_ring_length in Hf. destruct (abs_ring (m_sm s)) eqn:E; cbn in Hf; [|lia]. split_and!; [done| |done]. by apply ring_to_stay. }
  wp_step. wp_step. unfold id. rewrite no_room_over by done. rewrite <- abs_ring_length. destruct (abs_ring (m_sm s)) as [|x q] eqn:Ea.
  { cbn [length Nat.ltb Nat.leb andb]. wp_step. exists []. split_and!; [done| |done]. by apply ring_to_stay. }
  cbn [kept]. change (0 <? length (x :: q))%nat with true. cbn [andb]. destruct (over (cfg (m_sm s)) len (x :: q)) eqn:Eo.
  2:{ wp_step. exists []. split_and!; [done| |done]. by apply ring_to_stay. }
  wp_step. eapply wp_mono; [by apply evict_oldest_to|]. intros [] s1 [Ht Hd]. cbn beta. pose proof Ht as (H1 & H2 & H3 & _).
  eapply wp_mono; [apply IH; [done|]|].
  { rewrite <- abs_ring_length, H3. rewrite <- abs_ring_length, Ea in Hf. cbn in Hf. lia. }
  intros [] s2 (dr & Hdr & Ht2 & Hd2). rewrite (rest_cfg _ _ H1), H3 in *. exists (x :: dr). split_and!.
  - cbn. by rewrite <- Hdr.
  - change (x :: dr) with ([x] ++ dr). rewrite q_ptrs_app, reverse_app. replace (reverse (q_ptrs [x])) with (q_ptrs [x]) by (cbn; by destruct (ptr <$> q_msg x)).
    by eapply ring_to_trans.
  - rewrite Hd2, Hd. unfold lose. cbn [length]. by rewrite Nat.iter_succ_r.
Qed.

Lemma ring_push_to m batch at_ nodrop (s : St) : ring_ok (m_sm s) ->
  let x := Queued (Some m) batch at_ in
  let '(q', ok) := pushed (cfg (m_sm s)) nodrop x (abs_ring (m_sm s)) in
  wp (ring_push m batch at_ nodrop) (fun r s' => r = ok /\ exists freed, ring_to s q' freed s' /\
    freed ++ q_ptrs q' ≡ₚ ptr m :: q_ptrs (abs_ring (m_sm s)) /\
    st_dropped (st (m_sm s')) = lose (if nodrop && over (cfg (m_sm s)) (strlen (text m)) (abs_ring (m_sm s)) then 0 else S (count (m_sm s)) - length q') (st_dropped (st (m_sm s)))) s.
Proof.
  intros Hok x. unfold pushed. change (q_text x) with (text m). set (len := strlen (text m)). unfold ring_push. fold len.
  destruct (nodrop && over (cfg (m_sm s)) len (abs_ring (m_sm s))) eqn:En.
  { do 2 wp_step. unfold id. rewrite no_room_over, En by done. wp_step. apply wp_free. wp_step. split; [done|]. exists [ptr m].
    split_and!; [|done|done]. destruct Hok. by split_and!. }
  assert (Hr : (if too_large (cfg (m_sm s)) len then (kept (cfg (m_sm s)) len (abs_ring (m_sm s)), false) else (kept (cfg (m_sm s)) len (abs_ring (m_sm s)) ++ [x], true)) =
    (if too_large (cfg (m_sm s)) len then kept (cfg (m_sm s)) len (abs_ring (m_sm s)) else kept (cfg (m_sm s)) len (abs_ring (m_sm s)) ++ [x], negb (too_large (cfg (m_sm s)) len)))
    by (by destruct (too_large _ _)). rewrite Hr. clear Hr.
  do 2 wp_step. unfold id. rewrite no_room_over, En by done. wp_step. eapply wp_mono; [by apply make_room_to|].
  intros [] s1 (dr & Hdr & Ht & Hd). cbn beta. fold (too_large (cfg (m_sm s)) len). set (kq := kept (cfg (m_sm s)) len (abs_ring (m_sm s))) in *.
  pose proof (kept_fits (cfg (m_sm s)) len (abs_ring (m_sm s))) as Hfit. fold kq in Hfit. rewrite <- abs_ring_length.
  assert (Hptrs : q_ptrs (abs_ring (m_sm s)) = q_ptrs dr ++ q_ptrs kq) by (by rewrite Hdr at 1; rewrite q_ptrs_app).
  assert (Hlen : length (abs_ring (m_sm s)) = (length dr + length kq)%nat) by (by rewrite Hdr at 1; rewrite length_app).
  destruct (too_large (cfg (m_sm s)) len) eqn:El.
  - wp_step. apply wp_free. do 3 wp_step. split; [done|]. exists (ptr m :: reverse (q_ptrs dr)). destruct Ht as (H1 & H2 & H3 & H4 & H5). split_and!.
    + split_and!; cbn; try done. { destruct H2. by split. } { by rewrite H4. } by rewrite H5.
    + cbn. rewrite Hptrs. rewrite reverse_Permutation. done.
    + cbn. rewrite Hd. replace (S (length (abs_ring (m_sm s))) - length kq)%nat with (S (length dr)) by lia. done.
  - do 3 wp_step. split; [done|]. destruct Ht as (H1 & H2 & H3 & H4 & H5). exists (reverse (q_ptrs dr)). pose proof (rest_cfg _ _ H1) as Hc. pose proof H2 as [Hl Hh Hn Hm Hb Hx].
    assert (Hlt : (count (m_sm s1) < max_msgs (cfg (m_sm s1)))%nat).
    { rewrite <- abs_ring_length, H3, Hc. specialize (Hfit ltac:(destruct Hok; lia) eq_refl). unfold over in Hfit.
      apply orb_false_iff in Hfit as [Hfit _]. apply Nat.leb_gt in Hfit. done. }
    set (d' := (m_sm s1) <| ring := <[((head (m_sm s1) + count (m_sm s1)) mod max_msgs (cfg (m_sm s1)))%nat := x]> (ring (m_sm s1)) |> <| count := S (count (m_sm s1)) |> <| bytes := bytes (m_sm s1) + len |>).
    assert (Ha : abs_ring d' = kq ++ [x]).
    { rewrite <- H3. exact (abs_ring_push (m_sm s1) x _ _ _ eq_refl eq_refl eq_refl Hl Hh Hlt). }
    split_and!.
    + split_and!; try done. apply (RingOk d'); [exact (eq_trans (length_insert _ _ _) Hl)|exact Hh|exact Hlt| | |exact Hx].
      * rewrite Ha. rewrite H3 in Hm. apply list.Forall_app. split; [done|]. constructor; [by eexists|constructor].
      * rewrite Ha, q_bytes_app. change (bytes d') with (bytes (m_sm s1) + len). rewrite Hb, H3. cbn. lia.
    + rewrite Hptrs, q_ptrs_app, reverse_Permutation. cbn. by rewrite <- Permutation_cons_append, Permutation_middle.
    + cbn. rewrite Hd, length_app. cbn. f_equal. lia.
Qed.

Lemma ring_pop_to (s : St) : ring_ok (m_sm s) ->
  match abs_ring (m_sm s) with
  | [] => ring_pop s = (None, s)
  | x :: q => wp ring_pop (fun r s' => (exists m, q_msg x = Some m /\ r = Some (m, q_batch_ms x, q_stamp_at x)) /\
                             ring_to s q [] s' /\ m_trace s' = m_trace s /\ st_dropped (st (m_sm s')) = st_dropped (st (m_sm s))) s
  end.
Proof.
  intros [Hl Hh Hc Hm Hb Hx]. destruct (abs_ring (m_sm s)) as [|x q] eqn:Ea.
  { pose proof (abs_ring_length (m_sm s)) as H. rewrite Ea in H. unfold ring_pop, mbind, act_bind, gets, id. by rewrite <- H. }
  assert (H0 : (0 < count (m_sm s))%nat) by (rewrite <- abs_ring_length, Ea; cbn; lia). pose proof Ea as Hp. rewrite abs_ring_pop in Hp by done. injection Hp as Hs Hq.
  unfold ring_pop. do 2 wp_step. unfold id. destruct (Nat.eqb_spec (count (m_sm s)) 0); [lia|]. rewrite Hs. do 3 wp_step.
  apply list.Forall_cons in Hm as [[m Hm1] Hm2]. rewrite Hm1. split; [by exists m|].
  set (d' := (m_sm s) <| ring := _ |> <| head := _ |> <| count := _ |> <| bytes := _ |>).
  assert (Ha : abs_ring d' = q).
  { rewrite <- Hq. unfold abs_ring. change (count d') with (count (m_sm s) - 1)%nat. apply list_fmap_ext. intros i y Hy. apply lookup_seq in Hy as [-> Hi].
    change (slot d' ((head d' + (0 + i)) mod max_msgs (cfg d'))%nat) with (nth (((head (m_sm s) + 1) mod max_msgs (cfg (m_sm s)) + i) mod max_msgs (cfg (m_sm s)))%nat (<[head (m_sm s) := Queued None (q_batch_ms x) (q_stamp_at x)]> (ring (m_sm s))) queued_zero).
    apply slot_insert_other. rewrite Nat.Div0.add_mod_idemp_l, wrap_mod by lia. cbn [Nat.add]. destruct (Nat.ltb_spec (head (m_sm s) + 1 + i) (max_msgs (cfg (m_sm s)))); lia. }
  split_and!; try done. split_and!; try done. apply (RingOk d'); [exact (eq_trans (length_insert _ _ _) Hl)| | | | |exact Hx].
  - change (head d') with ((head (m_sm s) + 1) mod max_msgs (cfg (m_sm s)))%nat. apply Nat.mod_upper_bound. change (max_msgs (cfg (m_sm s)) <> 0%nat). lia.
  - change (count d') with (count (m_sm s) - 1)%nat. change (cfg d') with (cfg (m_sm s)). lia.
  - by rewrite Ha.
  - rewrite Ha. change (bytes d') with (bytes (m_sm s) - strlen (q_text x)). rewrite Hb. cbn [q_bytes foldr]. fold (q_bytes q). lia.
Qed.

(** A message given back goes in front, undated if it is the one that was handed
    out undated; when the ring is full it is lost. *)
Lemma requeue_to m (s : St) : ring_ok (m_sm s) ->
  let d := m_sm s in
  let undated := bool_decide (Some (ptr m) = unstamped d) in
  let x := Queued (Some m) (if undated then unstamped_batch_ms d else 0) (if undated then unstamped_at d else 0%nat) in
  wp (espos_sk_delta_requeue (Some m)) (fun _ s' =>
    ring_ok (m_sm s') /\
    if (max_msgs (cfg d) <=? count d)%nat then
      abs_ring (m_sm s') = abs_ring d /\ rest (m_sm s') = rest d /\ m_trace s' = OFree (ptr m) :: OGiven (ptr m) :: m_trace s /\ m_world s' = p_free (ptr m) (m_world s) /\ st_dropped (st (m_sm s')) = u32 (st_dropped (st d) + 1)
    else
      abs_ring (m_sm s') = x :: abs_ring d /\ rest (m_sm s') = rest d <| unstamped := None |> <| st; st_taken := u32 (st_taken (st d) - 1) |> /\
      m_trace s' = OGiven (ptr m) :: m_trace s /\ m_world s' = m_world s /\ st_dropped (st (m_sm s')) = st_dropped (st d)) s.
Proof.
  intros Hok d undated x. pose proof Hok as [Hl Hh Hc Hm Hb Hx]. unfold espos_sk_delta_requeue. do 4 wp_step. unfold id. cbn [m_sm]. fold d.
  destruct (Nat.leb_spec (max_msgs (cfg d)) (count d)).
  - wp_step. apply wp_free. wp_step. split_and!; done.
  - do 3 wp_step. cbn [m_sm m_world m_trace]. fold d.
    match goal with |- context [d <| head := ?h |>] => set (hd := h) end. 
    destruct (abs_ring_front d x (<[hd := x]> (ring d)) hd (S (count d)) eq_refl eq_refl eq_refl Hl Hh ltac:(done)) as [Hhd Ha].
    set (d' := _ <| ring := _ |> <| unstamped := _ |> <| count := _ |> <| bytes := _ |> <| st; st_taken ::= _ |>).
    assert (Ha' : abs_ring d' = x :: abs_ring d) by exact Ha. split_and!; try done.
    apply (RingOk d'); [exact (eq_trans (length_insert _ _ _) Hl)|exact Hhd|change (S (count d) <= max_msgs (cfg d))%nat; lia| | |exact Hx].
    + rewrite Ha'. constructor; [by eexists|done].
    + rewrite Ha'. change (bytes d') with (bytes d + strlen (text m)). fold d in Hb. rewrite Hb. cbn [q_bytes foldr]. fold (q_bytes (abs_ring d)). change (q_text x) with (text m). lia.
Qed.

End Ring.
