(* ===== verification/SkDeltaWindow.v ===== *)
(** The open window of [sk_delta.c]: its invariant, the values it holds for a path
    in the order its messages carry them, and what one more value does to them. *)
From Stdlib Require Import ZArith Lia String Sorted.
From stdpp Require Import base list numbers option sorting.
From S2P Require Import Prelude ConfigDesc SkDelta SkDeltaText.
Open Scope Z_scope.

Definition at_ok (t : Z) : Prop := t = 0 \/ AT_MS_MIN <= t <= AT_MS_MAX.
Definition on_path (c : nat) (path : cstr) (e : pending_t) : bool := Nat.eqb (p_ctx e) c && streq (p_path e) path.
Definition path_entries (l : list pending_t) (c : nat) (path : cstr) : list pending_t := List.filter (on_path c path) l.

(** Values of one context and path go out in the order of their updates, and the
    table of contexts and the numbers of the updates are those in use. *)
Record window_ok `{DeltaConf} (d : espos_sk_delta) : Prop := WindowOk {
  wo_nodup : NoDup (ctxs d);
  wo_ctxs : (length (ctxs d) <= ESPOS_SK_CONTEXTS_MAX)%nat;
  wo_cap : (length (pending d) <= PENDING_CAP)%nat;
  wo_upd_n : (upd_n d <= length (pending d))%nat;
  wo_range : Forall (fun e => (p_ctx e < length (ctxs d))%nat /\ (p_upd e < upd_n d)%nat /\ at_ok (p_at_ms e)) (pending d);
  wo_upd : forall e e', e ∈ pending d -> e' ∈ pending d -> p_upd e = p_upd e' <-> p_ctx e = p_ctx e' /\ p_at_ms e = p_at_ms e';
  wo_order : forall c path, StronglySorted lt (p_upd <$> path_entries (pending d) c path) }.

(** ** Values by context and path *)

Definition of_context (d : espos_sk_delta) (context path : cstr) (e : pending_t) : bool := streq (ctx_text d (p_ctx e)) context && streq (p_path e) path.
Definition pending_vals (d : espos_sk_delta) (context path : cstr) : list cstr := p_value <$> List.filter (of_context d context path) (pending d).
Definition update_vals (path : cstr) (u : sk_update) : list cstr := snd <$> List.filter (fun v => streq v.1 path) (u_values u).
Definition message_vals (context path : cstr) (k : sk_message) : list cstr :=
  if streq (k_context k) context then k_updates k ≫= update_vals path else [].
Definition messages_vals (context path : cstr) (ks : list sk_message) : list cstr := ks ≫= message_vals context path.

Lemma filter_filter {A} (f g : A -> bool) l : List.filter f (List.filter g l) = List.filter (fun x => f x && g x) l.
Proof.
  induction l as [|x l IH]; [done|]. cbn [List.filter]. destruct (g x); cbn [List.filter]; destruct (f x); cbn; by rewrite ?IH.
Qed.

Lemma filter_ext' {A} (f g : A -> bool) l : (forall x, x ∈ l -> f x = g x) -> List.filter f l = List.filter g l.
Proof. intros H. apply filter_ext_in. intros x Hx. apply H. by apply list_elem_of_In. Qed.

Lemma filter_none {A} (f : A -> bool) l : (forall x, x ∈ l -> f x = false) -> List.filter f l = [].
Proof.
  intros H. induction l as [|x l IH]; [done|]. cbn. rewrite H by left. apply IH. intros y Hy. apply H. by right.
Qed.

(** Groups of a list sorted by their key, put together again. *)
Lemma groups_sorted {A} (f : A -> nat) n : forall k (l : list A), StronglySorted lt (f <$> l) -> Forall (fun x => k <= f x < k + n)%nat l ->
  seq k n ≫= (fun u => List.filter (fun x => Nat.eqb (f x) u) l) = l.
Proof.
  induction n as [|n IH]; intros k l Hs Hr; cbn [seq].
  { destruct Hr as [|x l Hx]; [done|lia]. }
  rewrite bind_cons. destruct l as [|x l]; [cbn; by apply (IH (S k) [])|].
  rewrite fmap_cons in Hs. apply StronglySorted_inv in Hs as [Hs Hx]. apply list.Forall_cons in Hr as [Hrx Hr]. rewrite list.Forall_fmap in Hx.
  destruct (Nat.eq_dec (f x) k) as [E|E].
  - assert (H1 : List.filter (fun x => Nat.eqb (f x) k) (x :: l) = [x]).
    { cbn. rewrite E, Nat.eqb_refl. f_equal. apply filter_none. intros y Hy. rewrite list.Forall_forall in Hx. specialize (Hx y Hy). cbn in Hx. apply Nat.eqb_neq. lia. }
    rewrite H1. cbn [app]. f_equal. etrans; [|apply (IH (S k) l); [done|]].
    + apply Forall_bind_ext, list.Forall_forall. intros u Hu. apply elem_of_seq in Hu. cbn. by destruct (Nat.eqb_spec (f x) u); [lia|].
    + rewrite list.Forall_forall in Hx, Hr |- *. intros y Hy. specialize (Hx y Hy). specialize (Hr y Hy). cbn in Hx. lia.
  - rewrite filter_none.
    + cbn [app]. apply IH; [rewrite fmap_cons; constructor; [done|by rewrite list.Forall_fmap]|]. constructor; [lia|].
      rewrite list.Forall_forall in Hx, Hr |- *. intros y Hy. specialize (Hx y Hy). specialize (Hr y Hy). cbn in Hx. lia.
    + intros y [->|Hy]%elem_of_cons; apply Nat.eqb_neq; [done|]. rewrite list.Forall_forall in Hx. specialize (Hx y Hy). cbn in Hx. lia.
Qed.

Lemma fmap_filter_pair path (l : list pending_t) :
  snd <$> List.filter (fun v => streq v.1 path) (entry_value <$> l) = p_value <$> List.filter (fun e => streq (p_path e) path) l.
Proof. induction l as [|e l IH]; [done|]. cbn. destruct (streq (p_path e) path); cbn; by rewrite IH. Qed.

Lemma window_update_vals l c u path :
  from_option (update_vals path) [] (window_update l c u) = p_value <$> List.filter (fun e => Nat.eqb (p_upd e) u) (path_entries l c path).
Proof.
  unfold window_update, path_entries. rewrite filter_filter.
  transitivity (p_value <$> List.filter (fun e => streq (p_path e) path) (entries_of l c u)).
  - destruct (entries_of l c u) as [|f r] eqn:E; [done|]. cbn [from_option update_vals u_values]. unfold update_vals. cbn [u_values]. by rewrite fmap_filter_pair.
  - f_equal. unfold entries_of. rewrite filter_filter. apply filter_ext'. intros e _. unfold in_update, on_path.
    by destruct (streq _ _), (Nat.eqb (p_ctx e) c), (Nat.eqb (p_upd e) u).
Qed.

Lemma window_message_vals `{DeltaConf} d c path : window_ok d ->
  k_updates (window_message d c) ≫= update_vals path = p_value <$> path_entries (pending d) c path.
Proof.
  intros [_ _ _ _ Hr _ Ho]. unfold window_message. cbn [k_updates].
  transitivity (seq 0 (upd_n d) ≫= (fun u => from_option (update_vals path) [] (window_update (pending d) c u))).
  { induction (seq 0 (upd_n d)) as [|u us IH]; [done|]. cbn [omap list_omap]. rewrite bind_cons, <- IH. by destruct (window_update (pending d) c u). }
  transitivity (p_value <$> (seq 0 (upd_n d) ≫= (fun u => List.filter (fun e => Nat.eqb (p_upd e) u) (path_entries (pending d) c path)))).
  { induction (seq 0 (upd_n d)) as [|u us IH]; [done|]. by rewrite !bind_cons, fmap_app, IH, window_update_vals. }
  f_equal. apply groups_sorted; [apply Ho|]. apply list.Forall_forall. intros e He. unfold path_entries in He. apply list_elem_of_In, filter_In in He as [He _].
  rewrite list.Forall_forall in Hr. apply list_elem_of_In in He. specialize (Hr e He). lia.
Qed.

Section Window.
Context `{DeltaConf}.

Lemma ctx_text_lookup d c : (c < length (ctxs d))%nat -> ctxs d !! c = Some (ctx_text d c).
Proof. intros Hc. unfold ctx_text. rewrite nth_lookup. by destruct (lookup_lt_is_Some_2 (ctxs d) c Hc) as [x ->]. Qed.

Lemma ctx_text_inj d c c' : window_ok d -> (c < length (ctxs d))%nat -> (c' < length (ctxs d))%nat -> ctx_text d c = ctx_text d c' -> c = c'.
Proof. intros Hw Hc Hc' E. apply (NoDup_lookup (ctxs d) c c' (ctx_text d c)); [apply Hw|by apply ctx_text_lookup|rewrite E; by apply ctx_text_lookup]. Qed.

Lemma window_ctx d e : window_ok d -> e ∈ pending d -> (p_ctx e < length (ctxs d))%nat.
Proof. intros Hw He. pose proof (wo_range d Hw) as Hr. rewrite list.Forall_forall in Hr. by apply Hr. Qed.

Lemma pending_vals_entries d c path : window_ok d -> (c < length (ctxs d))%nat -> pending_vals d (ctx_text d c) path = p_value <$> path_entries (pending d) c path.
Proof.
  intros Hw Hc. unfold pending_vals, path_entries. f_equal. apply filter_ext'. intros e He. unfold of_context, on_path. f_equal.
  destruct (Nat.eqb_spec (p_ctx e) c) as [->|Hne]; [apply streq_refl|]. apply streq_false. intros E. apply Hne. apply (ctx_text_inj d); eauto using window_ctx.
Qed.

Lemma message_vals_window d c context path : window_ok d -> (c < length (ctxs d))%nat ->
  message_vals context path (window_message d c) = if streq (ctx_text d c) context then pending_vals d context path else [].
Proof.
  intros Hw Hc. unfold message_vals. change (k_context (window_message d c)) with (ctx_text d c). destruct (streq (ctx_text d c) context) eqn:E; [|done].
  apply streq_true in E as <-. by rewrite window_message_vals, pending_vals_entries.
Qed.

(** The messages of distinct contexts of a window carry for a path what the window
    holds for it, or nothing when its context is not among them. *)
Lemma messages_vals_window d cs context path : window_ok d -> NoDup cs -> Forall (fun c => (c < length (ctxs d))%nat) cs ->
  messages_vals context path (window_message d <$> cs) = if existsb (fun c => streq (ctx_text d c) context) cs then pending_vals d context path else [].
Proof.
  intros Hw Hn Hc. induction Hn as [|c cs Hc0 _ IH]; [done|]. apply list.Forall_cons in Hc as [Hc1 Hc2]. specialize (IH Hc2).
  unfold messages_vals in *. rewrite fmap_cons, bind_cons, IH, message_vals_window by done. cbn [existsb]. destruct (streq (ctx_text d c) context) eqn:E; [|done]. cbn [orb].
  destruct (existsb (fun c => streq (ctx_text d c) context) cs) eqn:Ex; [|by rewrite app_nil_r]. exfalso.
  apply existsb_exists in Ex as (c' & Hin & E'). apply streq_true in E, E'. apply Hc0. apply list_elem_of_In in Hin. rewrite list.Forall_forall in Hc2.
  rewrite (ctx_text_inj d c c' Hw Hc1 (Hc2 _ Hin)); [done|by rewrite E, E'].
Qed.

Lemma pending_vals_unused d context path : existsb (fun e => streq (ctx_text d (p_ctx e)) context) (pending d) = false -> pending_vals d context path = [].
Proof.
  intros Hx. unfold pending_vals. rewrite filter_none; [done|]. intros e He. unfold of_context. apply andb_false_iff. left.
  destruct (streq (ctx_text d (p_ctx e)) context) eqn:E; [|done]. rewrite <- Hx. symmetry. apply existsb_exists. exists e. by rewrite <- list_elem_of_In.
Qed.

(** At most one update of a message is undated. *)
Definition one_undated (k : sk_message) : Prop :=
  exists us1 u us2, k_updates k = us1 ++ u :: us2 /\ u_iso u = [] /\ Forall is_dated us1 /\ Forall is_dated us2.

Lemma window_update_iso d c u U : window_ok d -> window_update (pending d) c u = Some U ->
  (u_iso U = [] -> exists e, e ∈ pending d /\ p_ctx e = c /\ p_upd e = u /\ p_at_ms e = 0).
Proof.
  intros Hw Hu Hi. unfold window_update in Hu. destruct (entries_of (pending d) c u) as [|f r] eqn:E; [done|]. injection Hu as <-. cbn [u_iso] in Hi.
  assert (Hf : f ∈ entries_of (pending d) c u) by (rewrite E; left). unfold entries_of in Hf. apply list_elem_of_In, filter_In in Hf as [Hf1 Hf2]. apply list_elem_of_In in Hf1.
  unfold in_update in Hf2. apply andb_true_iff in Hf2 as [H1 H2]. apply Nat.eqb_eq in H1, H2. exists f. split_and!; try done.
  destruct (Z.eq_dec (p_at_ms f) 0) as [|Hne]; [done|]. exfalso. pose proof (wo_range d Hw) as Hr. rewrite list.Forall_forall in Hr. destruct (Hr f Hf1) as (_ & _ & [?|Hat]); [done|].
  by apply (at_iso_dated (p_at_ms f)).
Qed.

Lemma window_undated d c : window_ok d -> Forall is_dated (k_updates (window_message d c)) \/ one_undated (window_message d c).
Proof.
  intros Hw. unfold one_undated, window_message. cbn [k_updates].
  assert (Hn : NoDup (seq 0 (upd_n d))) by apply NoDup_seq. revert Hn. induction (seq 0 (upd_n d)) as [|u us IH]; intros Hn; [by left|].
  apply list.NoDup_cons in Hn as [Hu Hn]. specialize (IH Hn). cbn [omap list_omap]. destruct (window_update (pending d) c u) as [U|] eqn:EU; [|done].
  destruct (decide (u_iso U = [])) as [Ei|Ei].
  - right. exists [], U. eexists. split_and!; [done|done|constructor|]. apply list.Forall_forall. intros V HV Hi. apply list_elem_of_omap in HV as (v & Hv & EV).
    destruct (window_update_iso d c u U Hw EU Ei) as (e & He & H1 & H2 & H3). destruct (window_update_iso d c v V Hw EV Hi) as (e' & He' & G1 & G2 & G3).
    apply Hu. assert (p_upd e = p_upd e') as Hee by (apply (wo_upd d Hw e e'); [done|done|split; congruence]). congruence.
  - destruct IH as [IH|(us1 & V & us2 & E & H1 & H2 & H3)]; [left; by constructor|]. right. exists (U :: us1), V, us2. split_and!; [by rewrite E|done|by constructor|done].
Qed.

(** ** What happens to the window *)

Lemma window_ok_same d d' : window_ok d -> pending d' = pending d -> ctxs d' = ctxs d -> upd_n d' = upd_n d -> window_ok d'.
Proof. intros [] E1 E2 E3. split; rewrite ?E1, ?E2, ?E3; try done. Qed.

Lemma pending_vals_same d d' context path : pending d' = pending d -> ctxs d' = ctxs d -> pending_vals d' context path = pending_vals d context path.
Proof. intros E1 E2. unfold pending_vals, of_context, ctx_text. by rewrite E1, E2. Qed.

(** A new context in the table. *)
Lemma window_context d d' context : window_ok d -> context ∉ ctxs d -> (length (ctxs d) < ESPOS_SK_CONTEXTS_MAX)%nat ->
  pending d' = pending d -> ctxs d' = ctxs d ++ [context] -> upd_n d' = upd_n d ->
  window_ok d' /\ forall C p, pending_vals d' C p = pending_vals d C p.
Proof.
  intros Hw Hc Hl E1 E2 E3. pose proof Hw as [Hn Hk Hcap Hu Hr Hup Ho]. split.
  - split; rewrite ?E1, ?E2, ?E3, ?length_app; cbn [length]; try done; try lia.
    + apply NoDup_app. split_and!; [done| |apply NoDup_singleton]. intros x Hx Hx'. apply list_elem_of_singleton in Hx' as ->. done.
    + eapply Forall_impl; [exact Hr|]. cbn. intros e (? & ? & ?). split_and!; try done; lia.
  - intros C p. unfold pending_vals. rewrite E1. f_equal. apply filter_ext'. intros e He. unfold of_context. f_equal. f_equal.
    unfold ctx_text. rewrite E2. apply app_nth1. by apply window_ctx.
Qed.

Lemma update_of_spec d c at_ :
  match update_of d c at_ with
  | Some u => exists e, e ∈ pending d /\ p_ctx e = c /\ p_at_ms e = at_ /\ p_upd e = u
  | None => forall e, e ∈ pending d -> ~ (p_ctx e = c /\ p_at_ms e = at_)
  end.
Proof.
  unfold update_of. destruct (List.find _ (pending d)) as [e|] eqn:E; cbn [fmap option_fmap option_map].
  - apply find_some in E as [He E]. apply andb_true_iff in E as [E1 E2]. apply Nat.eqb_eq in E1. apply Z.eqb_eq in E2. exists e. by rewrite list_elem_of_In.
  - intros e He [E1 E2]. apply list_elem_of_In in He. apply (find_none _ _ E) in He. by rewrite E1, E2, Nat.eqb_refl, Z.eqb_refl in He.
Qed.

Lemma overtakes_spec d c u path : overtakes d c (Some u) path = false -> forall e, e ∈ path_entries (pending d) c path -> (p_upd e <= u)%nat.
Proof.
  intros Ho e He. unfold path_entries in He. apply list_elem_of_In, filter_In in He as [He Hp]. unfold on_path in Hp. apply andb_true_iff in Hp as [H1 H2].
  destruct (Nat.le_gt_cases (p_upd e) u) as [|Hlt]; [done|]. exfalso. cbn [overtakes] in Ho. apply Bool.not_true_iff_false in Ho. apply Ho. apply existsb_exists. exists e.
  split; [done|]. rewrite H1, H2. by destruct (Nat.ltb_spec u (p_upd e)); [|lia].
Qed.

Lemma set_value_spec l c at_ path v :
  match set_value l c at_ path v with
  | None => forall e, e ∈ l -> ~ (p_ctx e = c /\ p_at_ms e = at_ /\ p_path e = path)
  | Some l' => exists l1 e l2, l = l1 ++ e :: l2 /\ l' = l1 ++ Pending path v at_ c (p_upd e) :: l2 /\ p_ctx e = c /\ p_at_ms e = at_ /\ p_path e = path
  end.
Proof.
  induction l as [|e l IH]; cbn [set_value]; [by intros e ?%elem_of_nil|].
  destruct (Nat.eqb (p_ctx e) c && (p_at_ms e =? at_) && streq (p_path e) path) eqn:E.
  - apply andb_true_iff in E as [[E1 E2]%andb_true_iff E3]. apply Nat.eqb_eq in E1. apply Z.eqb_eq in E2. apply streq_true in E3. exists [], e, l. subst. done.
  - destruct (set_value l c at_ path v) as [l'|]; cbn [fmap option_fmap option_map].
    + destruct IH as (l1 & x & l2 & -> & -> & Hx). by exists (e :: l1), x, l2.
    + intros x [->|Hx]%elem_of_cons; [|by apply IH]. intros (<- & <- & <-). by rewrite Nat.eqb_refl, Z.eqb_refl, streq_refl in E.
Qed.

Lemma path_entries_app l1 l2 c path : path_entries (l1 ++ l2) c path = path_entries l1 c path ++ path_entries l2 c path.
Proof. apply List.filter_app. Qed.

Lemma path_entries_cons e l c path : path_entries (e :: l) c path = if on_path c path e then e :: path_entries l c path else path_entries l c path.
Proof. done. Qed.

Lemma elem_path_entries l c path e : e ∈ path_entries l c path <-> e ∈ l /\ p_ctx e = c /\ p_path e = path.
Proof.
  unfold path_entries. rewrite !list_elem_of_In, filter_In. unfold on_path. rewrite andb_true_iff, Nat.eqb_eq, streq_true. done.
Qed.

Lemma upds_snoc l x : StronglySorted lt l -> Forall (fun y => y < x)%nat l -> StronglySorted lt (l ++ [x]).
Proof.
  induction l as [|y l IH]; intros Hs Hx; [repeat constructor|]. apply StronglySorted_inv in Hs as [Hs Hy]. apply list.Forall_cons in Hx as [Hyx Hx].
  cbn. constructor; [by apply IH|]. apply list.Forall_app. split; [done|]. by constructor.
Qed.

(** A value that becomes an entry of the window is the last of its path. *)
Lemma window_append d d' context c path v at_ :
  let u := match update_of d c at_ with Some u => u | None => upd_n d end in
  let n := match update_of d c at_ with Some _ => upd_n d | None => S (upd_n d) end in
  window_ok d -> ctxs d !! c = Some context -> (length (pending d) < PENDING_CAP)%nat -> at_ok at_ ->
  overtakes d c (update_of d c at_) path = false -> set_value (pending d) c at_ path v = None ->
  pending d' = pending d ++ [Pending path v at_ c u] -> ctxs d' = ctxs d -> upd_n d' = n ->
  window_ok d' /\ pending_vals d' context path = pending_vals d context path ++ [v] /\
  (forall C p, (C, p) <> (context, path) -> pending_vals d' C p = pending_vals d C p).
Proof.
  intros u n Hw Hc Hcap Hat Ho Hs E1 E2 E3. pose proof (set_value_spec (pending d) c at_ path v) as Hv. rewrite Hs in Hv.
  pose proof (update_of_spec d c at_) as Hu. pose proof Hw as [Hnd Hk _ Hun Hr Hup Hso].
  assert (Hcl : (c < length (ctxs d))%nat) by (by eapply lookup_lt_Some).
  assert (Hct : ctx_text d c = context) by (rewrite (ctx_text_lookup d c Hcl) in Hc; congruence).
  assert (Hun' : (u < n <= S (upd_n d))%nat /\ (upd_n d <= n)%nat).
  { subst u n. destruct (update_of d c at_) as [u|]; [|lia]. destruct Hu as (e & He & _ & _ & <-). rewrite list.Forall_forall in Hr. destruct (Hr e He) as (_ & ? & _). lia. }
  assert (Hnew : forall e, e ∈ pending d -> p_upd e = u <-> p_ctx e = c /\ p_at_ms e = at_).
  { intros e He. subst u. destruct (update_of d c at_) as [u|].
    - destruct Hu as (e0 & He0 & <- & <- & <-). by apply Hup.
    - rewrite list.Forall_forall in Hr. destruct (Hr e He) as (_ & ? & _). split; [lia|]. intros Hcon. by destruct (Hu e He). }
  split_and!.
  - split; rewrite ?E1, ?E2, ?E3, ?length_app; cbn [length]; try done; try lia.
    + apply list.Forall_app. split; [|constructor; [cbn; split_and!; [done|lia|done]|constructor]]. eapply Forall_impl; [exact Hr|]. cbn. intros e (? & ? & ?). split_and!; try done; lia.
    + intros e e' He He'. rewrite elem_of_app, list_elem_of_singleton in He, He'. destruct He as [He|He], He' as [He'|He']; subst; cbn [p_upd p_ctx p_at_ms]; [by apply Hup|by apply Hnew| |done].
      destruct (Hnew e' He') as [N1 N2]. split; [intros E; by destruct (N1 (eq_sym E))|intros [? ?]; symmetry; by apply N2].
    + intros c' p'. rewrite path_entries_app, fmap_app. unfold path_entries at 2. cbn [List.filter]. unfold on_path. cbn [p_ctx p_path].
      destruct (Nat.eqb_spec c c') as [<-|]; cbn [andb]; [|by rewrite app_nil_r]. destruct (streq path p') eqn:Ep; [|by rewrite app_nil_r]. apply streq_true in Ep as <-.
      cbn. apply upds_snoc; [apply Hso|]. apply list.Forall_fmap, list.Forall_forall. intros e He. cbn. pose proof He as (He1 & He2 & He3)%elem_path_entries.
      assert (Hne : p_upd e <> u). { intros Eu. apply (Hnew e He1) in Eu as [_ Ea]. by apply (Hv e He1). }
      subst u. destruct (update_of d c at_) as [u|].
      * pose proof (overtakes_spec d c u path Ho e He). lia.
      * rewrite list.Forall_forall in Hr. destruct (Hr e He1) as (_ & ? & _). lia.
  - unfold pending_vals. rewrite E1, List.filter_app, fmap_app. f_equal.
    + f_equal. apply filter_ext'. intros e He. unfold of_context, ctx_text. by rewrite E2.
    + cbn [List.filter]. unfold of_context. cbn [p_ctx p_path]. unfold ctx_text in *. rewrite E2, Hct, !streq_refl. done.
  - intros C p Hne. unfold pending_vals. rewrite E1, List.filter_app, fmap_app. cbn [List.filter].
    assert (of_context d' C p (Pending path v at_ c u) = false) as ->.
    { unfold of_context. cbn [p_ctx p_path]. unfold ctx_text in *. rewrite E2, Hct. apply andb_false_iff. destruct (decide (context = C)) as [->|]; [right|left]; apply streq_false; congruence. }
    cbn. rewrite app_nil_r. f_equal. apply filter_ext'. intros e He. unfold of_context, ctx_text. by rewrite E2.
Qed.

(** A value that replaces one of the window replaces the last of its path. *)
Lemma window_replace d d' context c path v at_ l :
  window_ok d -> ctxs d !! c = Some context -> overtakes d c (update_of d c at_) path = false ->
  set_value (pending d) c at_ path v = Some l -> pending d' = l -> ctxs d' = ctxs d -> upd_n d' = upd_n d ->
  window_ok d' /\ (exists init old, pending_vals d context path = init ++ [old] /\ pending_vals d' context path = init ++ [v]) /\
  (forall C p, (C, p) <> (context, path) -> pending_vals d' C p = pending_vals d C p).
Proof.
  intros Hw Hc Ho Hs E1 E2 E3. pose proof (set_value_spec (pending d) c at_ path v) as Hv. rewrite Hs in Hv. destruct Hv as (l1 & e & l2 & Hl & Hl' & H1 & H2 & H3).
  pose proof (update_of_spec d c at_) as Hu. pose proof Hw as [Hnd Hk Hcap Hun Hr Hup Hso].
  assert (He : e ∈ pending d) by (rewrite Hl; apply elem_of_app; right; left).
  assert (Hcl : (c < length (ctxs d))%nat) by (by eapply lookup_lt_Some).
  assert (Hct : ctx_text d c = context) by (rewrite (ctx_text_lookup d c Hcl) in Hc; congruence).
  set (e' := Pending path v at_ c (p_upd e)) in *. rewrite Hl' in E1.
  assert (Hon : on_path c path e = true /\ on_path c path e' = true) by (unfold on_path; cbn [e' p_ctx p_path]; by rewrite H1, H3, Nat.eqb_refl, streq_refl).
  assert (Hkey : forall x, x ∈ pending d' -> exists y, y ∈ pending d /\ p_path x = p_path y /\ p_ctx x = p_ctx y /\ p_at_ms x = p_at_ms y /\ p_upd x = p_upd y).
  { intros x Hx. rewrite E1 in Hx. apply elem_of_app in Hx as [Hx|[->|Hx]%elem_of_cons]; [exists x|exists e|exists x]; rewrite Hl, elem_of_app, elem_of_cons; subst; eauto 10. }
  assert (Hpe : forall c' p', p_upd <$> path_entries (pending d') c' p' = p_upd <$> path_entries (pending d) c' p').
  { intros c' p'. rewrite E1, Hl, !path_entries_app, !fmap_app. f_equal. unfold path_entries. cbn [List.filter]. unfold on_path. rewrite H1, H3. cbn [e' p_ctx p_path]. by destruct (_ && _). }
  assert (Hlast : path_entries l2 c path = []).
  { apply filter_none. intros x Hx. apply Bool.not_true_iff_false. intros Hx'. assert (Hxp : x ∈ path_entries l2 c path) by (unfold path_entries; apply list_elem_of_In, filter_In; by rewrite <- list_elem_of_In).
    assert (Hle : (p_upd x <= p_upd e)%nat).
    { destruct (update_of d c at_) as [u|]; [|by destruct (Hu e He)]. destruct Hu as (e0 & He0 & Hu1 & Hu2 & Hu3).
      assert (p_upd e = u) as -> by (rewrite <- Hu3; apply Hup; [done|done|split; congruence]). apply (overtakes_spec d c u path Ho). rewrite Hl, path_entries_app. apply elem_of_app. right.
      rewrite path_entries_cons, (proj1 Hon). by right. }
    specialize (Hso c path). rewrite Hl, path_entries_app, fmap_app, path_entries_cons, (proj1 Hon), fmap_cons in Hso. apply StronglySorted_app_1_r in Hso. apply StronglySorted_inv in Hso as [_ Hf].
    rewrite list.Forall_fmap, list.Forall_forall in Hf. specialize (Hf x Hxp). cbn in Hf. lia. }
  assert (Hw' : window_ok d').
  { split; rewrite ?E2, ?E3; try done.
    - rewrite E1, length_app. rewrite Hl, length_app in Hcap. cbn in *. lia.
    - rewrite E1, length_app. rewrite Hl, length_app in Hun. cbn in *. lia.
    - apply list.Forall_forall. intros x (y & Hy & Ey1 & Ey2 & Ey3 & Ey4)%Hkey. rewrite Ey2, Ey3, Ey4. rewrite list.Forall_forall in Hr. by apply Hr.
    - intros x x' (y & Hy & _ & -> & -> & ->)%Hkey (y' & Hy' & _ & -> & -> & ->)%Hkey. by apply Hup.
    - intros c' p'. by rewrite Hpe. }
  split_and!; [done| |].
  - exists (p_value <$> path_entries l1 c path), (p_value e).
    assert (ctx_text d' c = context) as Hct' by (unfold ctx_text in *; by rewrite E2).
    rewrite <- Hct at 1. rewrite <- Hct'. rewrite !pending_vals_entries by (rewrite ?E2; done). rewrite E1, Hl, !path_entries_app, !fmap_app, !path_entries_cons.
    by rewrite (proj1 Hon), (proj2 Hon), Hlast.
  - intros C p Hne. unfold pending_vals. rewrite E1, Hl, !List.filter_app, !fmap_app. cbn [List.filter].
    assert (Hex : forall x, of_context d' C p x = of_context d C p x) by (intros x; unfold of_context, ctx_text; by rewrite E2).
    rewrite !(filter_ext _ _ Hex). assert (Hoe : of_context d C p e = false /\ of_context d C p e' = false).
    { unfold of_context. cbn [e' p_ctx p_path]. rewrite H1, H3, Hct. split; apply andb_false_iff; (destruct (decide (context = C)) as [->|]; [right|left]; apply streq_false; congruence). }
    rewrite Hex. by rewrite (proj1 Hoe), (proj2 Hoe).
Qed.

End Window.
