(* ===== verification/SkDeltaEngine.v ===== *)
(** The invariant of the delta engine and what every operation does to it: the
    ring, the window, the buffers of the heap, and the values of every path in the
    order they will be sent. *)
From Stdlib Require Import ZArith Lia String.
From stdpp Require Import base list numbers option.
From S2P Require Import Prelude ConfigDesc SkDelta SkDeltaText SkDeltaRing SkDeltaWindow.
Open Scope Z_scope.

(** What the allocator promises: a new buffer is none of those in use, and a
    buffer is in use until it is released. *)
Class DeltaHeap (W : Type) `{DeltaPort W} := {
  live : W -> Z -> Prop;
  malloc_live : forall n w,
    match (p_malloc n w).1 with
    | Some p => ~ live w p /\ forall q, live (p_malloc n w).2 q <-> q = p \/ live w q
    | None => forall q, live (p_malloc n w).2 q <-> live w q
    end;
  free_live : forall p w q, live (p_free p w) q <-> live w q /\ q <> p;
  wall_live : forall c w q, live (p_wall_ms c w).2 q <-> live w q }.

(** The message a slot carries; its offset is 0 or that of its undated update. *)
Definition carries (x : queued_t) (k : sk_message) : Prop :=
  q_text x = message_text k /\ (q_stamp_at x = 0%nat \/ q_stamp_at x = message_stamp_at k /\ one_undated k).

(** The values of a path in the order they will be sent. *)
Definition coming (d : espos_sk_delta) (ks : list sk_message) (context path : cstr) : list cstr :=
  messages_vals context path ks ++ pending_vals d context path.

Definition idle_ok (d : espos_sk_delta) : Prop := pending d = [] -> ctxs d = [].

(** The labels in use satisfy [label_ok]; what this is, a client says. *)
Class Labels := label_ok : cstr -> Prop.

(** A message that a window made: its label is one of them, its timestamps are
    written by the clock, and it carries something. *)
Record made `{Labels} (k : sk_message) : Prop := Made {
  mk_label : label_ok (k_label k);
  mk_iso : Forall (fun u => plain (u_iso u)) (k_updates k);
  mk_some : exists u v, u ∈ k_updates k /\ v ∈ u_values u }.

(** What a message waiting to be put back depends on. *)
Definition keep (d : espos_sk_delta) : option Z * nat * Z := (unstamped d, unstamped_at d, unstamped_batch_ms d).

Lemma messages_vals_app context path ks1 ks2 : messages_vals context path (ks1 ++ ks2) = messages_vals context path ks1 ++ messages_vals context path ks2.
Proof. apply bind_app. Qed.

Lemma messages_vals_sublist context path ks1 ks2 : ks1 `sublist_of` ks2 -> messages_vals context path ks1 `sublist_of` messages_vals context path ks2.
Proof.
  unfold messages_vals. induction 1 as [|k l1 l2 _ IH|k l1 l2 _ IH]; rewrite ?bind_cons; [done|by apply sublist_app|by apply sublist_inserts_l].
Qed.

Lemma ring_ok_same d d' : ring_ok d -> ring d' = ring d -> head d' = head d -> count d' = count d -> bytes d' = bytes d -> cfg d' = cfg d -> ring_ok d'.
Proof.
  intros [] E1 E2 E3 E4 E5. assert (Ea : abs_ring d' = abs_ring d) by (unfold abs_ring, slot; by rewrite E1, E2, E3, E5). split; rewrite ?Ea, ?E1, ?E2, ?E3, ?E4, ?E5; done.
Qed.

Lemma msgs_total_nonneg l : 0 <= msgs_total l.
Proof. induction l as [|x l IH]; [done|]. change (msgs_total (x :: l)) with (strlen (text x.1) + msgs_total l). unfold strlen. lia. Qed.

Lemma sublist_whole {A} (l1 l2 : list A) : l1 `sublist_of` l2 -> (length l2 <= length l1)%nat -> l1 = l2.
Proof.
  induction 1 as [|x l1 l2 _ IH|x l1 l2 Hs IH]; cbn; intros Hl; [done|by rewrite IH by lia|]. apply sublist_length in Hs. lia.
Qed.

Lemma dated_vals context path iso k : message_vals context path (dated iso k) = message_vals context path k.
Proof.
  unfold message_vals, dated. cbn [k_context k_updates]. destruct (streq (k_context k) context); [|done]. induction (k_updates k) as [|u us IH]; [done|].
  rewrite fmap_cons, !bind_cons, IH. done.
Qed.

Lemma dated_made `{Labels} iso k : plain iso -> made k -> made (dated iso k).
Proof.
  intros Hp [Hl Hi (u & v & Hu & Hv)]. split; cbn [dated k_label k_updates]; [done| |].
  - rewrite list.Forall_fmap. eapply list.Forall_impl; [exact Hi|]. intros x. cbn. by destruct (u_iso x).
  - eexists _, v. split; [apply list_elem_of_fmap; by exists u|done].
Qed.

Section Engine.
Context {W : Type} {P : DeltaPort W} {C : DeltaConf} {H : DeltaHeap W} {L : Labels}.
Abbreviation St := (mach espos_sk_delta W obs).

(** The buffers [held] are the caller's and [owned] the engine's: all in use, no
    two the same, and no other that came has not gone. *)
Record heap_ok (held owned : list Z) (s : St) : Prop := HeapOk {
  ho_nodup : NoDup (held ++ owned);
  ho_live : Forall (live (m_world s)) (held ++ owned);
  ho_account : omap came (m_trace s) ≡ₚ omap gone (m_trace s) ++ owned }.

Record engine_ok (held : list Z) (ks : list sk_message) (s : St) : Prop := EngineOk {
  eo_ring : ring_ok (m_sm s);
  eo_window : window_ok (m_sm s);
  eo_idle : idle_ok (m_sm s);
  eo_heap : heap_ok held (q_ptrs (abs_ring (m_sm s))) s;
  eo_carries : Forall2 carries (abs_ring (m_sm s)) ks;
  eo_label : label_ok (label (m_sm s));
  eo_made : Forall made ks }.

Lemma wp_p_malloc n (Q : option Z -> St -> Prop) (s : St) :
  Q (p_malloc n (m_world s)).1 (Mach (m_sm s) (p_malloc n (m_world s)).2 (OAlloc (p_malloc n (m_world s)).1 :: m_trace s)) -> wp (malloc n) Q s.
Proof. unfold wp, malloc, call. by destruct (p_malloc n (m_world s)). Qed.

(** Buffers released: what stays is still in use. *)
Lemma live_foldr freed w q : live (foldr p_free w freed) q <-> live w q /\ q ∉ freed.
Proof.
  induction freed as [|p freed IH]; cbn [foldr]; [rewrite elem_of_nil; tauto|]. rewrite free_live, IH, elem_of_cons. tauto.
Qed.

Lemma heap_release held owned owned' freed (s s' : St) : heap_ok held owned s -> freed ++ owned' ≡ₚ owned -> m_world s' = foldr p_free (m_world s) freed ->
  m_trace s' = (OFree <$> freed) ++ m_trace s -> heap_ok held owned' s'.
Proof.
  intros [Hn Hl Ha] Hp Ew Et. assert (Ec : omap came (m_trace s') = omap came (m_trace s)) by (rewrite Et, omap_app; clear; induction freed; cbn; done).
  assert (Eg : omap gone (m_trace s') = freed ++ omap gone (m_trace s)) by (rewrite Et, omap_app; f_equal; clear; induction freed; cbn; by f_equal). assert (Hn' : NoDup (freed ++ held ++ owned')) by (rewrite (Permutation_app_swap_app freed held owned'), Hp; done).
  apply list.NoDup_app in Hn' as (Hf & Hd & Hn'). split; [done| |].
  - rewrite Ew. rewrite <- Hp in Hl. rewrite list.Forall_forall in Hl |- *. intros q Hq. apply live_foldr. split; [|intros Hc; by apply (Hd q Hc)].
    apply Hl. rewrite !elem_of_app in *. tauto.
  - rewrite Ec, Eg, Ha, <- Hp. by rewrite <- !app_assoc, Permutation_app_swap_app.
Qed.

Lemma heap_owned held owned owned' s : owned ≡ₚ owned' -> heap_ok held owned s -> heap_ok held owned' s.
Proof. intros E [Hn Hl Ha]. split; [by rewrite <- E|by rewrite <- E|by rewrite <- E]. Qed.

Lemma heap_sm held owned d w t d' : heap_ok held owned (Mach d w t) -> heap_ok held owned (Mach d' w t).
Proof. intros []. by split. Qed.

Lemma heap_alloc held owned n (s : St) : heap_ok held owned s ->
  heap_ok held (match (p_malloc n (m_world s)).1 with Some p => p :: owned | None => owned end)
    (Mach (m_sm s) (p_malloc n (m_world s)).2 (OAlloc (p_malloc n (m_world s)).1 :: m_trace s)).
Proof.
  intros [Hn Hl Ha]. pose proof (malloc_live n (m_world s)) as Hm. destruct (p_malloc n (m_world s)) as [[p|] w']; cbn [fst snd] in *.
  - destruct Hm as [Hf Hm]. rewrite list.Forall_forall in Hl. split; cbn [m_world m_trace].
    + rewrite <- Permutation_middle. constructor; [|done]. intros Hp. by apply Hf, Hl.
    + apply list.Forall_forall. intros q Hq. apply Hm. rewrite <- Permutation_middle in Hq. apply elem_of_cons in Hq as [->|Hq]; [by left|right; by apply Hl].
    + cbn. by rewrite Ha, Permutation_middle.
  - split; cbn [m_world m_trace]; [done| |done]. eapply list.Forall_impl; [exact Hl|]. intros q. by apply Hm.
Qed.

(** ** Building the messages of a window *)

Lemma build_message_spec c held owned (s : St) : heap_ok held owned s ->
  wp (build_message c) (fun r s' => m_sm s' = m_sm s /\ (exists o, m_trace s' = OAlloc o :: m_trace s) /\
    match r with
    | Some (m, at_) => text m = message_text (window_message (m_sm s) c) /\ at_ = message_stamp_at (window_message (m_sm s) c) /\ heap_ok held (ptr m :: owned) s'
    | None => heap_ok held owned s' /\ OAlloc None ∈ m_trace s'
    end) s.
Proof.
  intros Hh. unfold build_message. do 2 wp_step. unfold id. wp_step. apply wp_p_malloc. pose proof (heap_alloc held owned (need_of (m_sm s) c) s Hh) as Ha.
  destruct (p_malloc (need_of (m_sm s) c) (m_world s)) as [[p|] w']; cbn [fst snd] in *.
  - rewrite build_text_exact. wp_step. split_and!; [done|by eexists|done|done|done].
  - wp_step. split_and!; [done|by eexists|done|left].
Qed.

Definition used_in (d : espos_sk_delta) (c : nat) : bool := existsb (fun e => Nat.eqb (p_ctx e) c) (pending d).
Definition built (d : espos_sk_delta) (m : msg_t * nat) (c : nat) : Prop :=
  text m.1 = message_text (window_message d c) /\ m.2 = message_stamp_at (window_message d c).

Lemma build_window_spec cs held owned (s : St) : heap_ok held owned s -> Forall (fun c => (c < 256)%nat) cs ->
  wp (build_window cs) (fun msgs s' => m_sm s' = m_sm s /\ heap_ok held ((ptr ∘ fst <$> msgs) ++ owned) s' /\
    (exists t, m_trace s' = t ++ m_trace s) /\
    exists cs', cs' `sublist_of` List.filter (used_in (m_sm s)) cs /\ Forall2 (built (m_sm s)) msgs cs' /\
      (OAlloc None ∉ m_trace s' -> cs' = List.filter (used_in (m_sm s)) cs)) s.
Proof.
  revert owned s. induction cs as [|c cs IH]; intros owned s Hh Hc; cbn [build_window].
  { wp_step. split_and!; [done|done|by exists []|]. exists []. split_and!; [done|constructor|done]. }
  apply list.Forall_cons in Hc as [Hc1 Hc2]. do 2 wp_step. unfold id. fold (used_in (m_sm s) c). cbn [List.filter]. destruct (used_in (m_sm s) c); [|by apply IH].
  assert (as_u8 c = c) as -> by (unfold as_u8; by apply Nat.mod_small). wp_step. eapply wp_mono; [by apply (build_message_spec c held owned)|].
  intros r s1 (Es & [o Eo] & Hr). cbn beta. wp_step. destruct r as [[m at_]|].
  - destruct Hr as (Ht & Hat & Hh1). eapply wp_mono; [by apply (IH (ptr m :: owned))|]. intros msgs s2 (Es2 & Hh2 & [t Et] & cs' & H1 & H2 & H3). wp_step. rewrite Es in *.
    split_and!; [done| | |].
    + eapply heap_owned; [|exact Hh2]. cbn. by rewrite Permutation_middle.
    + exists (t ++ [OAlloc o]). by rewrite Et, Eo, <- app_assoc.
    + exists (c :: cs'). split_and!; [by constructor|by constructor|]. intros Hx. by rewrite (H3 Hx).
  - destruct Hr as [Hh1 Hn]. eapply wp_mono; [by apply (IH owned)|]. intros msgs s2 (Es2 & Hh2 & [t Et] & cs' & H1 & H2 & H3). wp_step. rewrite Es in *.
    split_and!; [done|done| |].
    + exists (t ++ [OAlloc o]). by rewrite Et, Eo, <- app_assoc.
    + exists cs'. split_and!; [by constructor|done|]. intros Hx. exfalso. apply Hx. rewrite Et. apply elem_of_app. by right.
Qed.

(** ** Queuing them *)

Lemma pushed_carries c nodrop x k q ks : Forall2 carries q ks -> carries x k ->
  exists ks', Forall2 carries (pushed c nodrop x q).1 ks' /\ ks' `sublist_of` ks ++ [k].
Proof.
  intros Hq Hx. unfold pushed. destruct (nodrop && _); [exists ks; split; [done|by apply sublist_inserts_r]|].
  destruct (kept_suffix c (strlen (q_text x)) q) as [dr E]. rewrite E in Hq. apply Forall2_app_inv_l in Hq as (k1 & k2 & _ & H2 & ->).
  destruct (too_large c (strlen (q_text x))); cbn [fst].
  - exists k2. split; [done|]. rewrite <- app_assoc. apply sublist_inserts_l. by apply sublist_inserts_r.
  - exists (k2 ++ [k]). split; [apply Forall2_app; [done|by constructor]|]. rewrite <- app_assoc. by apply sublist_inserts_l.
Qed.

(** A queue that can take the messages takes them all. *)
Lemma pushed_fits c nodrop x q : (length q < max_msgs c)%nat -> (max_bytes c = 0 \/ q_bytes q + strlen (q_text x) <= max_bytes c) -> pushed c nodrop x q = (q ++ [x], true).
Proof.
  intros Hl Hb. assert (Ho : over c (strlen (q_text x)) q = false).
  { unfold over. destruct (Nat.leb_spec (max_msgs c) (length q)); [lia|]. cbn. destruct (Z.eqb_spec (max_bytes c) 0); [done|]. cbn. apply Z.ltb_ge. destruct Hb; [done|lia]. }
  unfold pushed. rewrite Ho, andb_false_r.
  assert (too_large c (strlen (q_text x)) = false) as ->.
  { unfold too_large. destruct (Z.eqb_spec (max_bytes c) 0); [done|]. cbn. apply Z.ltb_ge. pose proof (q_bytes_nonneg q). destruct Hb; [done|lia]. }
  destruct q as [|y q]; [done|]. cbn [kept]. by rewrite Ho.
Qed.

(** Everything of the engine that is neither the ring nor the statistics. *)
Definition aside (d : espos_sk_delta) : espos_sk_delta := (rest d) <| st := DeltaStats 0 0 0 0 0 0 |>.

Lemma rest_aside d d' : rest d = rest d' -> aside d = aside d'.
Proof. unfold aside. by intros ->. Qed.

Definition as_queued (batch : Z) (m : msg_t * nat) : queued_t := Queued (Some m.1) batch m.2.
Definition room_for (d : espos_sk_delta) (msgs : list (msg_t * nat)) : Prop :=
  (count d + length msgs <= max_msgs (cfg d))%nat /\ (max_bytes (cfg d) = 0 \/ bytes d + msgs_total msgs <= max_bytes (cfg d)).

Lemma push_all_spec held batch nodrop msgs : forall ks kms (s : St),
  ring_ok (m_sm s) -> heap_ok held ((ptr ∘ fst <$> msgs) ++ q_ptrs (abs_ring (m_sm s))) s -> Forall2 carries (abs_ring (m_sm s)) ks -> Forall2 carries (as_queued batch <$> msgs) kms ->
  wp (push_all msgs batch nodrop) (fun _ s' => ring_ok (m_sm s') /\ heap_ok held (q_ptrs (abs_ring (m_sm s'))) s' /\ aside (m_sm s') = aside (m_sm s) /\ (exists t, m_trace s' = t ++ m_trace s) /\
    (exists ks', Forall2 carries (abs_ring (m_sm s')) ks' /\ ks' `sublist_of` ks ++ kms) /\
    (room_for (m_sm s) msgs -> abs_ring (m_sm s') = abs_ring (m_sm s) ++ (as_queued batch <$> msgs) /\ st_dropped (st (m_sm s')) = st_dropped (st (m_sm s)))) s.
Proof.
  induction msgs as [|[m at_] msgs IH]; intros ks kms s Hok Hh Hc Hm; cbn [push_all].
  { wp_step. apply Forall2_nil_inv_l in Hm as ->. split_and!; try done; [by exists []|exists ks; by rewrite app_nil_r|]. intros _. by rewrite app_nil_r. }
  rewrite fmap_cons in Hm. apply Forall2_cons_inv_l in Hm as (k & kms' & Hk & Hm & ->). do 2 wp_step.
  set (s0 := Mach _ (m_world s) (m_trace s)). assert (Hok0 : ring_ok (m_sm s0)) by (by apply (ring_ok_same (m_sm s))).
  assert (E0 : abs_ring (m_sm s0) = abs_ring (m_sm s)) by done. assert (Ec0 : cfg (m_sm s0) = cfg (m_sm s)) by done.
  pose proof (ring_push_to m batch at_ nodrop s0 Hok0) as Hp. cbn zeta in Hp. rewrite E0, Ec0 in Hp. change (Queued (Some m) batch at_) with (as_queued batch (m, at_)) in Hp.
  destruct (pushed_carries (cfg (m_sm s)) nodrop (as_queued batch (m, at_)) k _ ks Hc Hk) as (ks1 & Hc1 & Hs1).
  pose proof (pushed_fits (cfg (m_sm s)) nodrop (as_queued batch (m, at_)) (abs_ring (m_sm s))) as Hfit.
  destruct (pushed (cfg (m_sm s)) nodrop (as_queued batch (m, at_)) (abs_ring (m_sm s))) as [q' ok]. cbn [fst] in Hc1.
  wp_step. eapply wp_mono; [exact Hp|]. intros r s1 (_ & freed & Ht & Hf & Hd). cbn beta. pose proof Ht as (H1 & H2 & H3 & H4 & H5).
  eapply wp_mono; [apply (IH ks1 kms' s1); [done| |by rewrite H3|done]|].
  { eapply (heap_release held _ _ freed s s1 Hh); [|done|done]. rewrite H3. rewrite fmap_cons. cbn [app compose fst]. rewrite Permutation_app_swap_app, Hf. by rewrite <- Permutation_middle. }
  intros _ s2 (G1 & G2 & G3 & [t Gt] & (ks' & G4 & G5) & G6). split_and!; try done.
  - rewrite G3. rewrite (rest_aside _ _ H1). done.
  - exists (t ++ (OFree <$> freed)). rewrite Gt, H5. by rewrite <- app_assoc.
  - exists ks'. split; [done|]. etrans; [exact G5|]. replace (ks ++ k :: kms') with ((ks ++ [k]) ++ kms') by (by rewrite <- app_assoc). by apply sublist_app.
  - intros [Hr1 Hr2]. pose proof (rest_cfg _ _ H1) as Hcfg. rewrite Ec0 in Hcfg. destruct Hok as [_ _ _ _ Hb _]. cbn [length] in Hr1. change (msgs_total ((m, at_) :: msgs)) with (strlen (text m) + msgs_total msgs) in Hr2.
    pose proof (msgs_total_nonneg msgs) as Htot.
    assert (Hfit' : (q', ok) = (abs_ring (m_sm s) ++ [as_queued batch (m, at_)], true)); [apply Hfit; [rewrite abs_ring_length; lia|]|injection Hfit' as -> ->].
    { change (q_text (as_queued batch (m, at_))) with (text m). rewrite <- Hb. destruct Hr2; [by left|right; lia]. }
    destruct G6 as [G6 G7].
    { destruct H2 as [_ _ _ _ Hb1 _]. split; rewrite Hcfg; [rewrite <- abs_ring_length, H3, length_app, abs_ring_length; cbn; lia|]. rewrite Hb1, H3, q_bytes_app, <- Hb. change (q_bytes [as_queued batch (m, at_)]) with (strlen (text m) + 0). destruct Hr2; [by left|right; lia]. }
    rewrite G6, H3, fmap_cons, <- app_assoc. split; [done|]. rewrite G7, Hd, length_app, abs_ring_length. change (count (m_sm s0)) with (count (m_sm s)). cbn [length].
    replace (S (count (m_sm s)) - (count (m_sm s) + 1))%nat with 0%nat by lia. by destruct (_ && _).
Qed.

(** ** Closing the window *)

(** The contexts of the window that have values, and the size of their messages. *)
Definition used_ctxs (d : espos_sk_delta) : list nat := List.filter (used_in d) (seq 0 (length (ctxs d))).
Definition window_total (d : espos_sk_delta) (cs : list nat) : Z := foldr (fun c n => strlen (message_text (window_message d c)) + n) 0 cs.
Definition window_fits (d : espos_sk_delta) : Prop :=
  (length (used_ctxs d) <= max_msgs (cfg d))%nat /\ (max_bytes (cfg d) = 0 \/ window_total d (used_ctxs d) <= max_bytes (cfg d)).
#[export] Instance window_fits_dec d : Decision (window_fits d).
Proof. unfold window_fits. apply _. Defined.

Lemma built_total d msgs cs : Forall2 (built d) msgs cs -> msgs_total msgs = window_total d cs.
Proof.
  induction 1 as [|m c msgs cs [Ht _] _ IH]; [done|]. change (msgs_total (m :: msgs)) with (strlen (text m.1) + msgs_total msgs).
  change (window_total d (c :: cs)) with (strlen (message_text (window_message d c)) + window_total d cs). by rewrite IH, Ht.
Qed.

Lemma built_carries d batch msgs cs : window_ok d -> Forall2 (built d) msgs cs -> Forall2 carries (as_queued batch <$> msgs) (window_message d <$> cs).
Proof.
  intros Hw. induction 1 as [|[m at_] c msgs cs [Ht Hat] _ IH]; [constructor|]. rewrite !fmap_cons. constructor; [|done]. split; [exact Ht|].
  cbn [as_queued q_stamp_at snd fst] in *. subst at_. destruct (window_undated d c Hw) as [Hd|Hu]; [left; by apply stamp_offset_none|by right].
Qed.

Lemma used_ctxs_range d : Forall (fun c => (c < length (ctxs d))%nat) (used_ctxs d) /\ NoDup (used_ctxs d).
Proof.
  unfold used_ctxs. split.
  - apply list.Forall_forall. intros c Hc. apply list_elem_of_In, filter_In in Hc as [Hc _]. apply list_elem_of_In, elem_of_seq in Hc. lia.
  - apply NoDup_ListNoDup, List.NoDup_filter, NoDup_ListNoDup, NoDup_seq.
Qed.

(** What the messages of the window carry of a path, given their contexts. *)
Lemma window_coming d cs context path : window_ok d -> cs `sublist_of` used_ctxs d ->
  messages_vals context path (window_message d <$> cs) `sublist_of` pending_vals d context path /\
  (cs = used_ctxs d -> messages_vals context path (window_message d <$> cs) = pending_vals d context path).
Proof.
  intros Hw Hs. destruct (used_ctxs_range d) as [Hr Hn]. rewrite messages_vals_window; [|done|by eapply sublist_NoDup|].
  2:{ rewrite list.Forall_forall in Hr |- *. intros c Hc. apply Hr. by eapply elem_of_sublist. }
  destruct (existsb (fun c => streq (ctx_text d c) context) cs) eqn:E; [done|]. split; [apply sublist_nil_l|]. intros ->. symmetry. apply pending_vals_unused.
  apply Bool.not_true_iff_false. intros Hx. apply existsb_exists in Hx as (e & He & Ee). apply list_elem_of_In in He. apply Bool.not_true_iff_false in E. apply E.
  apply existsb_exists. exists (p_ctx e). split; [|done]. unfold used_ctxs. apply filter_In. split; [apply in_seq; pose proof (window_ctx d e Hw He); lia|].
  unfold used_in. apply existsb_exists. exists e. split; [by apply list_elem_of_In|apply Nat.eqb_refl].
Qed.

Lemma aside_cfg d d' : aside d = aside d' -> cfg d = cfg d' /\ keep d = keep d' /\ pending_since_ms d = pending_since_ms d' /\ wall_ms d = wall_ms d' /\ label d = label d'.
Proof.
  intros E. split_and!; [by apply (f_equal cfg) in E|by apply (f_equal keep) in E|by apply (f_equal pending_since_ms) in E|by apply (f_equal wall_ms) in E|by apply (f_equal label) in E].
Qed.

(** The ring has room for the whole window. *)
Definition window_room (d : espos_sk_delta) : Prop :=
  (count d + length (used_ctxs d) <= max_msgs (cfg d))%nat /\ (max_bytes (cfg d) = 0 \/ bytes d + window_total d (used_ctxs d) <= max_bytes (cfg d)).
#[export] Instance window_room_dec d : Decision (window_room d).
Proof. unfold window_room. apply _. Defined.

Lemma window_made d c : window_ok d -> label_ok (label d) -> c ∈ used_ctxs d -> made (window_message d c).
Proof.
  intros Hw Hl Hc. unfold used_ctxs in Hc. apply list_elem_of_In, filter_In in Hc as [_ Hc]. unfold used_in in Hc. apply existsb_exists in Hc as (e & He & Ec). apply Nat.eqb_eq in Ec. apply list_elem_of_In in He.
  split; cbn [window_message k_label k_updates]; [done| |].
  - apply list.Forall_forall. intros u Hu. apply list_elem_of_omap in Hu as (i & _ & Hu). unfold window_update in Hu. destruct (entries_of _ _ _); [done|]. injection Hu as <-. apply at_iso_plain.
  - pose proof (wo_range d Hw) as Hr. rewrite list.Forall_forall in Hr. destruct (Hr e He) as (_ & Hn & _).
    assert (Hin : e ∈ entries_of (pending d) c (p_upd e)) by (unfold entries_of; apply list_elem_of_In, filter_In; split; [by apply list_elem_of_In|]; unfold in_update; by rewrite Ec, !Nat.eqb_refl).
    destruct (entries_of (pending d) c (p_upd e)) as [|f es] eqn:Ee; [by apply elem_of_nil in Hin|]. exists (SkUpdate (at_iso (p_at_ms f)) (entry_value <$> f :: es)), (entry_value e). split.
    + apply list_elem_of_omap. exists (p_upd e). split; [apply elem_of_seq; lia|]. unfold window_update. by rewrite Ee.
    + cbn [u_values]. apply list_elem_of_fmap. by exists e.
Qed.

(** The answer of the two tests, for a window all of whose messages are built. *)
Lemma flush_tests d msgs : Forall2 (built d) msgs (used_ctxs d) ->
  ((length msgs <=? max_msgs (cfg d))%nat && ((max_bytes (cfg d) =? 0) || (msgs_total msgs <=? max_bytes (cfg d))) = true <-> window_fits d) /\
  ((max_msgs (cfg d) <? count d + length msgs)%nat || (negb (max_bytes (cfg d) =? 0) && (max_bytes (cfg d) <? bytes d + msgs_total msgs)) = true <-> ~ window_room d) /\
  (room_for d msgs <-> window_room d).
Proof.
  intros Hb. unfold window_fits, window_room, room_for. rewrite (built_total d msgs _ Hb), (list.Forall2_length _ _ _ Hb).
  destruct (Nat.leb_spec (length (used_ctxs d)) (max_msgs (cfg d))), (Nat.ltb_spec (max_msgs (cfg d)) (count d + length (used_ctxs d))), (Z.eqb_spec (max_bytes (cfg d)) 0),
    (Z.leb_spec (window_total d (used_ctxs d)) (max_bytes (cfg d))), (Z.ltb_spec (max_bytes (cfg d)) (bytes d + window_total d (used_ctxs d))); cbn [andb orb negb]; split_and!; split; try done; intros; lia.
Qed.

Lemma flush_window_spec now held ks (s : St) : engine_ok held ks s ->
  wp (flush_window now) (fun r s' =>
    if r : bool then
      exists ks' cs', engine_ok held ks' s' /\ keep (m_sm s') = keep (m_sm s) /\ cfg (m_sm s') = cfg (m_sm s) /\ wall_ms (m_sm s') = wall_ms (m_sm s) /\
        pending (m_sm s') = [] /\ ctxs (m_sm s') = [] /\
        ks' `sublist_of` ks ++ (window_message (m_sm s) <$> cs') /\ cs' `sublist_of` used_ctxs (m_sm s) /\
        (no_drop (cfg (m_sm s)) = true -> window_fits (m_sm s) -> OAlloc None ∉ m_trace s' -> pending (m_sm s) = [] \/ window_room (m_sm s)) /\
        (pending (m_sm s) = [] \/ window_room (m_sm s) -> OAlloc None ∉ m_trace s' ->
         ks' = ks ++ (window_message (m_sm s) <$> used_ctxs (m_sm s)) /\ st_dropped (st (m_sm s')) = st_dropped (st (m_sm s)) /\
         exists new, abs_ring (m_sm s') = abs_ring (m_sm s) ++ new /\ Forall (fun x => q_batch_ms x = pending_since_ms (m_sm s)) new)
    else m_sm s' = m_sm s /\ engine_ok held ks s' /\ no_drop (cfg (m_sm s)) = true /\ pending (m_sm s) <> [] /\
         (OAlloc None ∉ m_trace s' -> window_fits (m_sm s) /\ ~ window_room (m_sm s))) s.
Proof.
  intros [Hok Hw Hi Hh Hc Hl Hm]. unfold flush_window. do 2 wp_step. unfold id. destruct (Nat.eqb_spec (length (pending (m_sm s))) 0) as [E|E].
  { apply length_zero_iff_nil in E. wp_step. exists ks, []. assert (Hu : used_ctxs (m_sm s) = []) by (unfold used_ctxs; by rewrite (Hi E)).
    split_and!; try done; [by apply Hi|by rewrite app_nil_r|apply sublist_nil_l|by left|]. intros _ _. rewrite Hu, app_nil_r. split_and!; try done. exists []. by rewrite app_nil_r. }
  wp_step. eapply wp_mono; [apply (build_window_spec _ held _ s Hh)|].
  { apply list.Forall_forall. intros c Hc'. apply elem_of_seq in Hc'. pose proof (wo_ctxs _ Hw). unfold ESPOS_SK_CONTEXTS_MAX in *. lia. }
  intros msgs s1 (Es & Hh1 & [t Et] & cs' & H1 & H2 & H3). cbn beta. fold (used_ctxs (m_sm s)) in *. rewrite <- Es in Hok, Hw, Hi, Hc, Hh1, E, H1, H2, H3, Hl |- *. set (d := m_sm s1) in *.
  assert (Htests : OAlloc None ∉ m_trace s1 -> Forall2 (built d) msgs (used_ctxs d)) by (intros Hx; by rewrite <- (H3 Hx)).
  assert (Hmade : Forall made (window_message d <$> cs')).
  { rewrite list.Forall_fmap. apply list.Forall_forall. intros c Hc'. apply window_made; [done|done|]. by eapply elem_of_sublist. }
  match goal with |- wp (if no_drop _ && ?fits && ?full then _ else _) _ _ => destruct (no_drop (cfg d) && fits && full) eqn:Er end.
  - apply andb_true_iff in Er as [Er Efull]. apply andb_true_iff in Er as [Er Efits]. wp_step.
    assert (Hfree : forall l owned (s0 : St), m_sm s0 = d -> heap_ok held ((ptr ∘ fst <$> l) ++ owned) s0 -> wp (free_all l) (fun _ s' => m_sm s' = d /\ heap_ok held owned s' /\ exists t, m_trace s' = t ++ m_trace s0) s0).
    { clear. induction l as [|[m a] l IH]; intros owned s0 E0 Hh0; cbn [free_all]; [wp_step; split_and!; try done; by exists []|]. wp_step. apply wp_free. eapply wp_mono; [apply (IH owned); [done|]|].
      - eapply (heap_release held _ _ [ptr m] s0); [exact Hh0|done|done|done].
      - intros _ s' (H1 & H2 & t & Ht). split_and!; try done. exists (t ++ [OFree (ptr m)]). by rewrite <- app_assoc. }
    eapply wp_mono; [apply Hfree; [done|exact Hh1]|]. intros [] s2 (Es2 & Hh2 & t2 & Et2). wp_step. rewrite Es2. split_and!; [done| |done|intros E'; apply E; by rewrite E'|].
    + split; rewrite ?Es2; done.
    + intros Hx. destruct (flush_tests d msgs) as (T1 & T2 & _); [apply Htests; intros Hin; apply Hx; rewrite Et2; apply elem_of_app; by right|]. split; [by apply T1|by apply T2].
  - wp_step. eapply wp_mono; [apply (push_all_spec held (pending_since_ms d) _ msgs ks (window_message d <$> cs') s1); [done|done|done|by apply built_carries]|].
    intros [] s2 (G1 & G2 & G3 & [t' Gt] & (ks' & G4 & G5) & G6). do 3 wp_step. destruct (aside_cfg _ _ G3) as (Gc & Gk & _ & Gw & Gl).
    exists ks', cs'. cbn [m_sm m_trace]. split_and!; try done.
    + split; cbn [m_sm]; try done.
      * by apply (ring_ok_same (m_sm s2)).
      * split; cbn; try done; try lia; [apply NoDup_nil_2|by intros e e' ?%elem_of_nil|constructor].
      * destruct G2. by split.
      * cbn. by rewrite Gl.
      * apply list.Forall_forall. intros k Hk. eapply elem_of_sublist in Hk; [|exact G5]. revert k Hk. apply list.Forall_forall, list.Forall_app. done.
    + intros Hnd Hfit Hx. assert (cs' = used_ctxs d) as Ecs by (apply H3; intros Hin; apply Hx; rewrite Gt; apply elem_of_app; by right). subst cs'.
      destruct (flush_tests d msgs H2) as (T1 & T2 & _). apply T1 in Hfit. rewrite Hnd, Hfit in Er. cbn [andb] in Er. right. apply dec_stable. by rewrite <- T2, Er.
    + intros [E'|Hroom] Hx; [by rewrite E' in E|]. assert (cs' = used_ctxs d) as Ecs by (apply H3; intros Hin; apply Hx; rewrite Gt; apply elem_of_app; by right). subst cs'.
      destruct (flush_tests d msgs H2) as (_ & _ & T3). destruct (G6 (proj2 T3 Hroom)) as [G7 G8]. split_and!; [|done|].
      * apply sublist_whole; [exact G5|]. rewrite <- (list.Forall2_length _ _ _ G4), G7, !length_app, !length_fmap. fold d. rewrite (list.Forall2_length _ _ _ Hc), (list.Forall2_length _ _ _ H2). lia.
      * eexists. split; [exact G7|]. rewrite list.Forall_fmap. by apply list.Forall_true.
Qed.
End Engine.

(** * The operations *)

#[export] Instance at_ok_dec t : Decision (at_ok t).
Proof. unfold at_ok. apply _. Defined.

Section Ops.
Context {W : Type} {P : DeltaPort W} {C : DeltaConf} {H : DeltaHeap W} {L : Labels}.
Abbreviation St := (mach espos_sk_delta W obs).

(** What publishing leaves alone. *)
Definition settings (d : espos_sk_delta) : (option Z * nat * Z) * espos_sk_delta_cfg_t * option Z := (keep d, cfg d, wall_ms d).

Lemma flush_coming d d' ks ks' cs' context path : window_ok d -> pending d' = [] -> ks' `sublist_of` ks ++ (window_message d <$> cs') -> cs' `sublist_of` used_ctxs d ->
  coming d' ks' context path `sublist_of` coming d ks context path.
Proof.
  intros Hw Hp Hk Hc. unfold coming. unfold pending_vals at 1. rewrite Hp. cbn [List.filter fmap list_fmap]. rewrite app_nil_r.
  etrans; [by apply messages_vals_sublist|]. rewrite messages_vals_app. apply sublist_app; [done|]. by apply window_coming.
Qed.

(** The invariant but for the table of contexts of an empty window. *)
Record core_ok (held : list Z) (ks : list sk_message) (s : St) : Prop := CoreOk {
  co_ring : ring_ok (m_sm s);
  co_window : window_ok (m_sm s);
  co_heap : heap_ok held (q_ptrs (abs_ring (m_sm s))) s;
  co_carries : Forall2 carries (abs_ring (m_sm s)) ks;
  co_label : label_ok (label (m_sm s));
  co_made : Forall made ks }.

Lemma engine_core held ks s : engine_ok held ks s -> core_ok held ks s.
Proof. intros []. by split. Qed.

(** Changing what is neither ring nor window. *)
Lemma engine_same held ks (s : St) d' : engine_ok held ks s -> ring d' = ring (m_sm s) -> head d' = head (m_sm s) -> count d' = count (m_sm s) -> bytes d' = bytes (m_sm s) -> cfg d' = cfg (m_sm s) ->
  pending d' = pending (m_sm s) -> ctxs d' = ctxs (m_sm s) -> upd_n d' = upd_n (m_sm s) -> label d' = label (m_sm s) -> engine_ok held ks (Mach d' (m_world s) (m_trace s)).
Proof.
  intros [Hr Hw Hi Hh Hc Hl Hm] E1 E2 E3 E4 E5 E6 E7 E8 E9. assert (Ea : abs_ring d' = abs_ring (m_sm s)) by (unfold abs_ring, slot; by rewrite E1, E2, E3, E5).
  split; cbn [m_sm]; rewrite ?Ea; try done; [by apply (ring_ok_same (m_sm s))|by apply (window_ok_same (m_sm s))|unfold idle_ok in *; by rewrite E6, E7| |by rewrite E9]. destruct Hh. by split.
Qed.

Lemma ctx_index_spec l context : match ctx_index l context with Some i => l !! i = Some context | None => context ∉ l end.
Proof.
  induction l as [|c l IH]; cbn [ctx_index]; [by intros ?%elem_of_nil|]. destruct (streq c context) eqn:E.
  - apply streq_true in E as ->. done.
  - apply streq_false in E. destruct (ctx_index l context); [done|]. cbn. intros [->|Hc]%elem_of_cons; done.
Qed.

Lemma context_slot_spec context held ks (s : St) : core_ok held ks s ->
  wp (context_slot context) (fun r s' => m_world s' = m_world s /\ m_trace s' = m_trace s /\
    match r with
    | Some c => ctxs (m_sm s') !! c = Some context /\ core_ok held ks s' /\ m_sm s' = (m_sm s) <| ctxs := ctxs (m_sm s') |> /\
                forall c' p', pending_vals (m_sm s') c' p' = pending_vals (m_sm s) c' p'
    | None => s' = s /\ length (ctxs (m_sm s)) = ESPOS_SK_CONTEXTS_MAX
    end) s.
Proof.
  intros Hk. pose proof Hk as [Hr Hw Hh Hc]. unfold context_slot. do 2 wp_step. unfold id. pose proof (ctx_index_spec (ctxs (m_sm s)) context) as Hi.
  destruct (ctx_index (ctxs (m_sm s)) context) as [i|]; [wp_step; split_and!; try done; by destruct (m_sm s)|].
  destruct (Nat.eqb_spec (length (ctxs (m_sm s))) ESPOS_SK_CONTEXTS_MAX) as [E|E]; [by wp_step|]. do 3 wp_step. cbn [m_sm m_world m_trace].
  set (d' := (m_sm s) <| ctxs := _ |>). destruct (window_context (m_sm s) d' context Hw Hi) as [Hw' Hv]; [pose proof (wo_ctxs _ Hw); lia|done|done|done|].
  split_and!; try done.
  - change (ctxs d') with (ctxs (m_sm s) ++ [context]). rewrite lookup_app_r, Nat.sub_diag by lia. done.
  - split; cbn [m_sm]; try done; [by apply (ring_ok_same (m_sm s))|]. destruct Hh. by split.
Qed.

Lemma as_u8_small n : (n < 256)%nat -> as_u8 n = n.
Proof. apply Nat.mod_small. Qed.

Lemma append_pending_spec c context path v at_ now held ks (s : St) : core_ok held ks s -> ctxs (m_sm s) !! c = Some context -> (length (pending (m_sm s)) < PENDING_CAP)%nat -> at_ok at_ ->
  overtakes (m_sm s) c (update_of (m_sm s) c at_) path = false -> set_value (pending (m_sm s)) c at_ path v = None ->
  wp (append_pending (Some c) path v at_ now) (fun r s' => r = ESP_OK /\ engine_ok held ks s' /\ settings (m_sm s') = settings (m_sm s) /\
    pending_vals (m_sm s') context path = pending_vals (m_sm s) context path ++ [v] /\
    (forall c' p', (c', p') <> (context, path) -> pending_vals (m_sm s') c' p' = pending_vals (m_sm s) c' p')) s.
Proof.
  intros [Hr Hw Hh Hc Hl Hm] Hx Hcap Hat Ho Hs. unfold append_pending. wp_step. wp_step. wp_step. wp_step. unfold id. cbn [m_sm default].
  set (d0 := if Nat.eqb (length (pending (m_sm s))) 0 then _ else m_sm s).
  assert (E0 : pending d0 = pending (m_sm s) /\ ctxs d0 = ctxs (m_sm s) /\ upd_n d0 = upd_n (m_sm s) /\ settings d0 = settings (m_sm s) /\ ring d0 = ring (m_sm s) /\ head d0 = head (m_sm s) /\ count d0 = count (m_sm s) /\ bytes d0 = bytes (m_sm s) /\ cfg d0 = cfg (m_sm s) /\ label d0 = label (m_sm s))
    by (subst d0; by destruct (Nat.eqb _ _)).
  clearbody d0. destruct E0 as (E1 & E2 & E3 & E4 & E5 & E6 & E7 & E8 & E9 & E10).
  assert (Hu0 : update_of d0 c at_ = update_of (m_sm s) c at_) by (unfold update_of; by rewrite E1).
  set (u := match update_of (m_sm s) c at_ with Some u => u | None => upd_n (m_sm s) end). set (n := match update_of (m_sm s) c at_ with Some _ => upd_n (m_sm s) | None => S (upd_n (m_sm s)) end).
  assert ((match update_of d0 c at_ with Some u => (u, upd_n d0) | None => (upd_n d0, S (upd_n d0)) end) = (u, n)) as -> by (rewrite Hu0, E3; subst u n; by destruct (update_of _ _ _)).
  assert (Hlim : (c < 256)%nat /\ (u < 256)%nat).
  { pose proof (wo_ctxs _ Hw) as H1. apply lookup_lt_Some in Hx. unfold ESPOS_SK_CONTEXTS_MAX in H1. split; [lia|]. pose proof (wo_upd_n _ Hw). pose proof PENDING_CAP_range.
    subst u. pose proof (update_of_spec (m_sm s) c at_) as Hu. destruct (update_of (m_sm s) c at_); [|lia]. destruct Hu as (e & He & _ & _ & <-).
    pose proof (wo_range _ Hw) as Hg. rewrite list.Forall_forall in Hg. destruct (Hg e He) as (_ & ? & _). lia. }
  rewrite !as_u8_small by tauto. do 5 wp_step. cbn [m_sm m_world m_trace].
  set (d' := _ <| st; st_pending := _ |>). assert (F1 : pending d' = pending (m_sm s) ++ [Pending path v at_ c u]) by (rewrite <- E1; done).
  assert (F2 : ctxs d' = ctxs (m_sm s)) by (rewrite <- E2; done). assert (F3 : upd_n d' = n) by done.
  destruct (window_append (m_sm s) d' context c path v at_ Hw Hx Hcap Hat Ho Hs F1 F2 F3) as (Hw' & Hv & Hvs).
  assert (Ea : abs_ring d' = abs_ring (m_sm s)) by (unfold abs_ring, slot; cbn; by rewrite E5, E6, E7, E9).
  split_and!; try done.
  split; cbn [m_sm]; rewrite ?Ea; try done; [by apply (ring_ok_same (m_sm s))| |destruct Hh; by split|cbn; by rewrite E10].
  intros Hp. rewrite F1 in Hp. by apply app_eq_nil in Hp as [_ Hp].
Qed.

(** ** Publishing *)

(** The value is taken: it is the last of its path, and of every path what was
    coming is still coming in its order, less what the ring had to drop. *)
Definition publish_done (context path v : cstr) (held : list Z) (ks : list sk_message) (s s' : St) : Prop :=
  exists ks', engine_ok held ks' s' /\ settings (m_sm s') = settings (m_sm s) /\
    (forall c p, coming (m_sm s') ks' c p `sublist_of` coming (m_sm s) ks c p ++ (if decide ((c, p) = (context, path)) then [v] else [])) /\
    exists init, pending_vals (m_sm s') context path = init ++ [v].

(** The value is refused: nothing moves, but that its context may have a place in
    the table. *)
Definition publish_kept (held : list Z) (ks : list sk_message) (s s' : St) : Prop :=
  engine_ok held ks s' /\ no_drop (cfg (m_sm s)) = true /\ m_sm s' = (m_sm s) <| ctxs := ctxs (m_sm s') |> /\
  forall c p, pending_vals (m_sm s') c p = pending_vals (m_sm s) c p.

Lemma engine_of_core held ks s : core_ok held ks s -> pending (m_sm s) <> [] -> engine_ok held ks s.
Proof. intros [] Hp. split; try done. by intros ?. Qed.

Lemma append_done c context path v at_ now held ks ks1 (s s1 : St) : core_ok held ks1 s1 -> settings (m_sm s1) = settings (m_sm s) ->
  (forall c' p', coming (m_sm s1) ks1 c' p' `sublist_of` coming (m_sm s) ks c' p') ->
  ctxs (m_sm s1) !! c = Some context -> (length (pending (m_sm s1)) < PENDING_CAP)%nat -> at_ok at_ ->
  overtakes (m_sm s1) c (update_of (m_sm s1) c at_) path = false -> set_value (pending (m_sm s1)) c at_ path v = None ->
  wp (append_pending (Some c) path v at_ now) (fun r s' => r = ESP_OK /\ publish_done context path v held ks s s') s1.
Proof.
  intros Hk Es Hc Hx Hcap Hat Ho Hs. eapply wp_mono; [by apply (append_pending_spec c context path v at_ now held ks1 s1)|].
  intros r s' (-> & He & Est & Hv & Hvs). split; [done|]. exists ks1. split_and!; [done|by rewrite Est| |by eexists]. intros c' p'. specialize (Hc c' p'). unfold coming in *.
  destruct (decide ((c', p') = (context, path))) as [[= -> ->]|Hne]; [|by rewrite app_nil_r, Hvs]. rewrite Hv, app_assoc. by apply sublist_app.
Qed.

(** The window is closed first; then the value opens the next. *)
Lemma flush_then_append context path v at_ now held ks (s s1 : St) : engine_ok held ks s1 -> m_sm s1 = (m_sm s) <| ctxs := ctxs (m_sm s1) |> -> at_ok at_ ->
  (forall c p, pending_vals (m_sm s1) c p = pending_vals (m_sm s) c p) ->
  wp (ok ← flush_window now; if ok : bool then ctx ← context_slot context; append_pending ctx path v at_ now else mret ESP_ERR_NO_MEM)
     (fun r s' => (r = ESP_OK /\ publish_done context path v held ks s s') \/ (r = ESP_ERR_NO_MEM /\ publish_kept held ks s s')) s1.
Proof.
  intros He Es Hat Hv. pose proof He as [_ Hw _ _ _]. wp_step. eapply wp_mono; [by apply flush_window_spec|]. intros [|] s2 Hf; cbn beta iota.
  2:{ destruct Hf as (Es2 & He2 & Hnd & Hne). wp_step. right. split; [done|]. split_and!; [done|by rewrite Es in Hnd|by rewrite Es2|]. intros c p. by rewrite Es2. }
  destruct Hf as (ks2 & cs' & He2 & Hk2 & Hc2 & Hwall & Hp2 & Hx2 & Hs2 & Hcs & _). wp_step. eapply wp_mono; [by apply (context_slot_spec context held ks2), engine_core|].
  intros [c|] s3 (_ & _ & Hr); cbn beta iota.
  2:{ destruct Hr as [-> Hl]. rewrite Hx2 in Hl. done. }
  destruct Hr as (Hx & Hcore & Es3 & Hv3). assert (Hp3 : pending (m_sm s3) = []) by (by rewrite Es3).
  eapply wp_mono; [eapply (append_done c context path v at_ now held ks ks2 s s3); try done|].
  - rewrite Es3. unfold settings. transitivity (keep (m_sm s2), cfg (m_sm s2), wall_ms (m_sm s2)); [done|]. rewrite Hk2, Hc2, Hwall, Es. done.
  - intros c' p'. pose proof (flush_coming (m_sm s1) (m_sm s2) ks ks2 cs' c' p' Hw Hp2 Hs2 Hcs) as Hco. unfold coming in *. by rewrite Hv3, <- Hv.
  - rewrite Hp3. pose proof PENDING_CAP_range. cbn. lia.
  - unfold update_of. by rewrite Hp3.
  - by rewrite Hp3.
  - intros r s' Hr. by left.
Qed.

(** The arguments [publish_at] accepts, and its answer to the others. *)
Definition publish_check (context path value : option cstr) (at_ms : Z) : option esp_err_t :=
  match path, value with
  | Some p, Some v =>
      if (byte0 p =? 0) || (byte0 v =? 0) || negb (bool_decide (at_ok at_ms)) then Some ESP_ERR_INVALID_ARG
      else match context_check (default SELF_CONTEXT context) with
           | ESP_OK => if (ESPOS_SK_PATH_MAX <=? length p)%nat || (ESPOS_SK_VALUE_MAX <=? length v)%nat then Some ESP_ERR_INVALID_SIZE else None
           | err => Some err
           end
  | _, _ => Some ESP_ERR_INVALID_ARG
  end.

Lemma at_check at_ : negb (at_ =? 0) && ((at_ <? AT_MS_MIN) || (AT_MS_MAX <? at_)) = negb (bool_decide (at_ok at_)).
Proof.
  destruct (bool_decide_reflect (at_ok at_)) as [Hok|Hno]; unfold at_ok in *; destruct (Z.eqb_spec at_ 0), (Z.ltb_spec at_ AT_MS_MIN), (Z.ltb_spec AT_MS_MAX at_); cbn; try done; tauto || lia.
Qed.

Lemma set_value_pending l c at_ path v : set_value l c at_ path v <> None -> l <> [].
Proof. by intros Hs ->. Qed.

(** Once the arguments are accepted and the context is known. *)
Lemma publish_slot_spec c context path v at_ now held ks (s s1 : St) : engine_ok held ks s -> core_ok held ks s1 -> ctxs (m_sm s1) !! c = Some context ->
  m_sm s1 = (m_sm s) <| ctxs := ctxs (m_sm s1) |> -> (forall c' p', pending_vals (m_sm s1) c' p' = pending_vals (m_sm s) c' p') -> at_ok at_ ->
  let reorder := overtakes (m_sm s1) c (update_of (m_sm s1) c at_) path in
  wp (match (if reorder then None else set_value (pending (m_sm s1)) c at_ path v) with
      | Some l => mods (fun d => d <| pending := l |>);; mret ESP_OK
      | None =>
          if negb (bool_decide (is_Some (Some c))) || reorder || Nat.eqb (length (pending (m_sm s1))) PENDING_CAP then
            ok ← flush_window now; if ok : bool then ctx ← context_slot context; append_pending ctx path v at_ now else mret ESP_ERR_NO_MEM
          else append_pending (Some c) path v at_ now
      end) (fun r s' => (r = ESP_OK /\ publish_done context path v held ks s s') \/ (r = ESP_ERR_NO_MEM /\ publish_kept held ks s s')) s1.
Proof.
  intros He Hk Hx Es Hv Hat reorder. pose proof Hk as [Hr Hw Hh Hc]. pose proof PENDING_CAP_range as Hcap.
  assert (Hset : settings (m_sm s1) = settings (m_sm s)) by (by rewrite Es).
  assert (Hco : forall c' p', coming (m_sm s1) ks c' p' = coming (m_sm s) ks c' p') by (intros; unfold coming; by rewrite Hv).
  destruct reorder eqn:Er; cbn [negb orb]; [|destruct (set_value (pending (m_sm s1)) c at_ path v) as [l|] eqn:Es1].
  - rewrite orb_true_r. cbn [orb]. apply (flush_then_append context path v at_ now held ks s s1); try done. apply engine_of_core; [done|]. intros Hp. subst reorder. unfold update_of in Er. by rewrite Hp in Er.
  - do 3 wp_step. left. split; [done|]. set (d' := (m_sm s1) <| pending := l |>).
    destruct (window_replace (m_sm s1) d' context c path v at_ l Hw Hx Er Es1 eq_refl eq_refl eq_refl) as (Hw' & (init & old & Ho & Hn) & Hvs).
    exists ks. cbn [m_sm]. fold d'. split_and!; [|by rewrite <- Hset| |by exists init].
    + split; cbn [m_sm]; try done; [by apply (ring_ok_same (m_sm s1))| |destruct Hh; by split].
      intros Hp. change (pending d') with l in Hp. exfalso. pose proof (set_value_spec (pending (m_sm s1)) c at_ path v) as Hsp. rewrite Es1 in Hsp. destruct Hsp as (l1 & e & l2 & _ & -> & _). by apply app_eq_nil in Hp as [_ Hp].
    + intros c' p'. rewrite <- Hco. unfold coming. destruct (decide ((c', p') = (context, path))) as [[= -> ->]|Hne]; [|rewrite app_nil_r; change (pending_vals d' c' p') with (pending_vals ((m_sm s1) <| pending := l |>) c' p'); by rewrite <- Hvs].
      rewrite Ho, Hn, <- !app_assoc. apply sublist_app; [done|]. apply sublist_app; [done|]. by apply sublist_cons.
  - rewrite bool_decide_eq_true_2 by done. cbn [negb orb]. destruct (Nat.eqb_spec (length (pending (m_sm s1))) PENDING_CAP) as [El|El].
    + apply (flush_then_append context path v at_ now held ks s s1); try done. apply engine_of_core; [done|]. intros Hp. rewrite Hp in El. cbn in El. lia.
    + eapply wp_mono; [eapply (append_done c context path v at_ now held ks ks s s1); try done|].
      * intros c' p'. by rewrite Hco.
      * pose proof (wo_cap _ Hw). lia.
      * intros r s' Hr'. by left.
Qed.

Lemma publish_at_spec context path value at_ now held ks (s : St) : engine_ok held ks s ->
  wp (espos_sk_delta_publish_at context path value at_ now) (fun r s' =>
    match publish_check context path value at_ with
    | Some err => r = err /\ r <> ESP_OK /\ s' = s
    | None => (r = ESP_OK /\ publish_done (default SELF_CONTEXT context) (default [] path) (default [] value) held ks s s') \/ (r = ESP_ERR_NO_MEM /\ publish_kept held ks s s')
    end) s.
Proof.
  intros He. unfold espos_sk_delta_publish_at, publish_check. destruct path as [path|], value as [v|]; cbn [default]; try by wp_step.
  rewrite at_check. destruct ((byte0 path =? 0) || (byte0 v =? 0) || negb (bool_decide (at_ok at_))) eqn:E1; [by wp_step|].
  apply orb_false_iff in E1 as [_ E1]. apply negb_false_iff, bool_decide_eq_true in E1. set (cx := default SELF_CONTEXT context).
  destruct (context_check cx); try by wp_step. destruct (_ || _); [by wp_step|].
  wp_step. eapply wp_mono; [by apply (context_slot_spec cx held ks), engine_core|]. intros [c|] s1 (_ & _ & Hr); cbn beta iota; do 2 wp_step; unfold id.
  - destruct Hr as (Hx & Hk & Es & Hv). by apply publish_slot_spec.
  - destruct Hr as [-> Hl]. rewrite bool_decide_eq_false_2 by apply is_Some_None. cbn [negb orb]. apply flush_then_append; try done. by destruct (m_sm s).
Qed.

(** ** Taking and putting back *)

Lemma heap_hand p held owned d w t : heap_ok held (p :: owned) (Mach d w t : St) -> heap_ok (p :: held) owned (Mach d w (OHand p :: t) : St).
Proof.
  intros [Hn Hl Ha]. cbn [m_world m_trace] in *. split; cbn [m_world m_trace].
  - cbn. by rewrite Permutation_middle.
  - cbn [app]. by rewrite Permutation_middle.
  - cbn. rewrite Ha. by rewrite <- Permutation_middle.
Qed.

Lemma heap_given p held owned d w t : heap_ok (p :: held) owned (Mach d w t : St) -> heap_ok held (p :: owned) (Mach d w (OGiven p :: t) : St).
Proof.
  intros [Hn Hl Ha]. cbn [m_world m_trace] in *. split; cbn [m_world m_trace].
  - by rewrite <- Permutation_middle.
  - by rewrite <- Permutation_middle.
  - cbn. rewrite Ha. by rewrite <- Permutation_middle.
Qed.

(** The caller releases what it holds. *)
Lemma heap_sent p held owned d w t : heap_ok (p :: held) owned (Mach d w t : St) -> heap_ok held owned (Mach d (p_free p w) t : St).
Proof.
  intros [Hn Hl Ha]. cbn [app m_world m_trace] in *. apply list.NoDup_cons in Hn as [Hp Hn]. apply list.Forall_cons in Hl as [_ Hl]. split; cbn [m_world m_trace]; try done.
  rewrite list.Forall_forall in Hl |- *. intros q Hq. apply free_live. split; [by apply Hl|]. by intros ->.
Qed.

(** The timestamp a message gets when it is taken, empty when there is none. *)
Definition stamp_iso (d : espos_sk_delta) (w : W) (now batch : Z) : cstr :=
  match wall_ms d with
  | None => []
  | Some c => if (p_wall_ms c w).1 <=? 0 then [] else iso8601 ((p_wall_ms c w).1 - u32 (now - batch)) 25
  end.

Lemma wp_wall c (Q : Z -> St -> Prop) (s : St) : Q (p_wall_ms c (m_world s)).1 (Mach (m_sm s) (p_wall_ms c (m_world s)).2 (m_trace s)) -> wp (query (p_wall_ms c)) Q s.
Proof. unfold wp, query. by destruct (p_wall_ms c (m_world s)). Qed.

Lemma heap_wall held owned c (s : St) : heap_ok held owned s -> heap_ok held owned (Mach (m_sm s) (p_wall_ms c (m_world s)).2 (m_trace s)).
Proof. intros [Hn Hl Ha]. split; cbn [m_world m_trace]; try done. eapply list.Forall_impl; [exact Hl|]. intros q. apply wall_live. Qed.

Lemma stamp_spec m k now batch at_ held owned (s : St) : heap_ok held (ptr m :: owned) s -> text m = message_text k -> at_ = message_stamp_at k -> one_undated k ->
  wp (stamp m now batch at_) (fun out s' => m_sm s' = m_sm s /\ heap_ok held (ptr out :: owned) s' /\
    (out = m /\ (stamp_iso (m_sm s) (m_world s) now batch = [] \/ OAlloc None ∈ m_trace s') \/
     ptr out <> ptr m /\ stamp_iso (m_sm s) (m_world s) now batch <> [] /\ text out = message_text (dated (stamp_iso (m_sm s) (m_world s) now batch) k))) s.
Proof.
  intros Hh Ht -> (us1 & u & us2 & Hk & Hu & H1 & H2). unfold stamp, stamp_iso. do 2 wp_step. unfold id. destruct (wall_ms (m_sm s)) as [c|]; [|wp_step; split_and!; try done; left; split; [done|by left]].
  wp_step. apply wp_wall. pose proof (heap_wall held _ c s Hh) as Hh1. set (wn := (p_wall_ms c (m_world s)).1) in *. set (w1 := (p_wall_ms c (m_world s)).2) in *. clearbody wn w1.
  destruct (wn <=? 0); [wp_step; split_and!; try done; left; split; [done|by left]|]. set (iso := iso8601 (wn - u32 (now - batch)) 25). clearbody iso.
  destruct (Nat.eqb_spec (length iso) 0) as [Ei|Ei]; [apply length_zero_iff_nil in Ei as ->; wp_step; split_and!; try done; left; split; [done|by left]|].
  assert (Hi : iso <> []) by (by intros ->). destruct (stamp_dates k us1 u us2 iso Hk Hu H1 H2 Hi) as ([Hp0 Hpl] & Hb & Hd). rewrite Ht.
  destruct (Nat.eqb_spec (message_stamp_at k) 0); [lia|]. destruct (Nat.leb_spec (length (message_text k)) (message_stamp_at k)); [lia|]. rewrite Hb. change (123 =? 123) with true. cbn [negb orb].
  wp_step. apply wp_p_malloc. cbn [m_sm m_world m_trace]. match goal with |- context [p_malloc ?n w1] => pose proof (heap_alloc held _ n _ Hh1) as Hh2; pose proof (malloc_live n w1) as Hm; cbn [m_sm m_world m_trace] in Hh2; destruct (p_malloc n w1) as [[p|] w2]; cbn [fst snd] in * end.
  - assert (length (timestamp_text iso) = length (js "'timestamp':'") + length iso + length (js "',"))%nat as Hlen by (unfold timestamp_text; rewrite !length_app; lia).
    rewrite Hlen, Nat.eqb_refl. cbn [negb]. wp_step. apply wp_free. wp_step. cbn [m_sm m_world m_trace]. split_and!; [done| |].
    + eapply (heap_release held _ _ [ptr m] _ _ Hh2); [apply Permutation_swap|done|done].
    + right. split_and!; [|done|exact Hd]. cbn [ptr]. intros ->. destruct Hh1 as [_ Hl _]. rewrite list.Forall_forall in Hl. apply (proj1 Hm). apply Hl. apply elem_of_app. right. left.
  - wp_step. split_and!; try done. left. split; [done|]. right. left.
Qed.

Definition held_ok (d : espos_sk_delta) (m : msg_t) (k : sk_message) : Prop :=
  text m = message_text k /\ (unstamped d = Some (ptr m) -> unstamped_at d = message_stamp_at k /\ one_undated k) /\ made k.

Lemma stamp_iso_plain d w now batch : plain (stamp_iso d w now batch).
Proof. unfold stamp_iso. destruct (wall_ms d); [|constructor]. destruct (_ <=? 0); [constructor|apply iso8601_plain]. Qed.

Lemma take_flush_spec now held ks (s : St) : engine_ok held ks s ->
  wp (if batch_due (m_sm s) now then espos_sk_delta_flush now;; mret tt else mret tt)
     (fun _ s' => exists ks', engine_ok held ks' s' /\ (forall c p, coming (m_sm s') ks' c p `sublist_of` coming (m_sm s) ks c p) /\ (batch_due (m_sm s) now = false -> s' = s /\ ks' = ks)) s.
Proof.
  intros He. destruct (batch_due (m_sm s) now); [|wp_step; by exists ks]. unfold espos_sk_delta_flush. do 2 wp_step. eapply wp_mono; [by apply flush_window_spec|].
  intros [|] s1 Hf; do 2 wp_step.
  - destruct Hf as (ks' & cs' & He' & _ & _ & _ & Hp & _ & Hs & Hc & _). exists ks'. split_and!; [done| |done]. intros c p. eapply flush_coming; try done. apply He.
  - destruct Hf as (Es & He' & _). exists ks. split_and!; [done|by rewrite Es|done].
Qed.

(** The message is handed out; what is neither ring nor window may have changed. *)
Lemma hand_out d d' p held ks w t : ring_ok d -> window_ok d -> idle_ok d -> Forall2 carries (abs_ring d) ks -> heap_ok held (p :: q_ptrs (abs_ring d)) (Mach d w t) ->
  ring d' = ring d -> head d' = head d -> count d' = count d -> bytes d' = bytes d -> cfg d' = cfg d -> pending d' = pending d -> ctxs d' = ctxs d -> upd_n d' = upd_n d -> label d' = label d -> label_ok (label d) -> Forall made ks ->
  engine_ok (p :: held) ks (Mach d' w (OHand p :: t)).
Proof.
  intros Hr Hw Hi Hc Hh E1 E2 E3 E4 E5 E6 E7 E8 E9 Hl Hm. assert (Ea : abs_ring d' = abs_ring d) by (unfold abs_ring, slot; by rewrite E1, E2, E3, E5).
  split; cbn [m_sm]; rewrite ?Ea; try done; [by apply (ring_ok_same d)|by apply (window_ok_same d)|unfold idle_ok in *; by rewrite E6, E7| |by rewrite E9]. apply heap_hand. eapply heap_sm. exact Hh.
Qed.

(** A message with an undated update and a timestamp for it. *)
Definition stamped (at_ : nat) (iso : cstr) (k : sk_message) : sk_message :=
  match at_, iso with O, _ => k | _, [] => k | _, _ => dated iso k end.

(** The oldest message, off the ring and dated if it can be. *)
Lemma take_head_spec m k now batch at_ held ks (s : St) : ring_ok (m_sm s) -> window_ok (m_sm s) -> idle_ok (m_sm s) -> Forall2 carries (abs_ring (m_sm s)) ks ->
  heap_ok held (ptr m :: q_ptrs (abs_ring (m_sm s))) s -> carries (Queued (Some m) batch at_) k -> unstamped (m_sm s) = None -> label_ok (label (m_sm s)) -> Forall made (k :: ks) ->
  wp (out ← (if Nat.eqb at_ 0 then mret m
             else
               out ← stamp m now batch at_;
               (if ptr out =? ptr m then
                  mods (fun d => d <| unstamped := Some (ptr m) |> <| unstamped_at := at_ |> <| unstamped_batch_ms := batch |>)
                else mret tt);;
               mret out);
      emit (OHand (ptr out));; mret (Some out))
     (fun r s' => exists out k', r = Some out /\ engine_ok (ptr out :: held) ks s' /\ held_ok (m_sm s') out k' /\
        (k' = k \/ exists iso, k' = dated iso k) /\ (forall c p, pending_vals (m_sm s') c p = pending_vals (m_sm s) c p) /\
        (OAlloc None ∉ m_trace s' -> k' = stamped at_ (stamp_iso (m_sm s) (m_world s) now batch) k)) s.
Proof.
  intros Hr Hw Hi Hc Hh [Ht Hat] Hun Hl Hmd. apply list.Forall_cons in Hmd as [Hm Hms]. cbn [q_text q_msg q_stamp_at] in Ht, Hat. wp_step. destruct (Nat.eqb_spec at_ 0) as [E|E].
  { wp_step. wp_step. wp_step. wp_step. exists m, k. split_and!; try done; [| |by left|by rewrite E].
    - eapply hand_out; try done. by destruct s.
    - split_and!; [done| |done]. cbn [m_sm]. by rewrite Hun. }
  destruct Hat as [?|[Hat Hone]]; [done|]. wp_step. eapply wp_mono; [by apply (stamp_spec m k now batch at_ held (q_ptrs (abs_ring (m_sm s))) s)|].
  intros out s1 (Es & Hh1 & Hout). cbn beta. pose proof (stamp_iso_plain (m_sm s) (m_world s) now batch) as Hip. set (iso := stamp_iso (m_sm s) (m_world s) now batch) in *. clearbody iso. rewrite <- Es in *. destruct s1 as [d w t]. cbn [m_sm m_world m_trace] in *. destruct Hout as [[-> Hwhy]|(Hp & Hiso & Htx)].
  - rewrite Z.eqb_refl. do 6 wp_step. exists m, k. cbn [m_sm]. split_and!; [done| | |by left|done|].
    + by eapply hand_out.
    + split_and!; [done|by intros _|done].
    + intros Hx. destruct Hwhy as [->|Hwhy]; [by destruct at_|]. exfalso. apply Hx. cbn [m_trace]. by right.
  - destruct (Z.eqb_spec (ptr out) (ptr m)); [done|]. do 6 wp_step. exists out, (dated iso k). cbn [m_sm]. split_and!; [done| | |right; by eexists|done|by destruct at_, iso].
    + by eapply hand_out.
    + split_and!; [done|intros Hx; cbn [m_sm] in Hx; congruence|by apply dated_made].
Qed.

Lemma take_spec now connected ks (s : St) : engine_ok [] ks s ->
  wp (espos_sk_delta_take now connected) (fun r s' =>
    match r with
    | None => exists ks', engine_ok [] ks' s' /\ forall c p, coming (m_sm s') ks' c p `sublist_of` coming (m_sm s) ks c p
    | Some m => exists k ks', engine_ok [ptr m] ks' s' /\ held_ok (m_sm s') m k /\
                  (forall c p, message_vals c p k ++ coming (m_sm s') ks' c p `sublist_of` coming (m_sm s) ks c p) /\
                  (batch_due (m_sm s) now = false -> OAlloc None ∉ m_trace s' ->
                   exists x q k0, abs_ring (m_sm s) = x :: q /\ carries x k0 /\ k = stamped (q_stamp_at x) (stamp_iso (m_sm s) (m_world s) now (q_batch_ms x)) k0)
    end) s.
Proof.
  intros He. unfold espos_sk_delta_take. do 2 wp_step. unfold id. wp_step. eapply wp_mono; [by apply (take_flush_spec now [] ks s)|].
  intros _ s1 (ks1 & He1 & Hc1 & Hnf). cbn beta. do 2 wp_step. unfold id. destruct (negb connected || Nat.eqb (count (m_sm s1)) 0) eqn:E0.
  { do 3 wp_step. exists ks1. split; [by apply (engine_same [] ks1 s1)|]. exact Hc1. }
  apply orb_false_iff in E0 as [_ E0]. apply Nat.eqb_neq in E0. destruct (_ && (_ <? 0)); [wp_step; by exists ks1|].
  wp_step. apply (wp_mono _ (fun _ s2 => engine_ok [] ks1 s2 /\ (forall c p, pending_vals (m_sm s2) c p = pending_vals (m_sm s1) c p) /\ count (m_sm s2) = count (m_sm s1) /\ abs_ring (m_sm s2) = abs_ring (m_sm s1) /\ m_world s2 = m_world s1 /\ wall_ms (m_sm s2) = wall_ms (m_sm s1))).
  { destruct (_ || _); wp_step; [split_and!; [by apply (engine_same [] ks1 s1)|done..]|done]. }
  intros _ s2 (He2 & Hv2 & Hn2 & Ha2 & Hw2 & Hwall). cbn beta. pose proof He2 as [Hr Hw Hi Hh Hc Hlb Hmd]. wp_step. pose proof (ring_pop_to s2 Hr) as Hpop.
  destruct (abs_ring (m_sm s2)) as [|x q] eqn:Ea; [pose proof (abs_ring_length (m_sm s2)) as Hl; rewrite Ea in Hl; cbn in Hl; congruence|].
  eapply wp_mono; [exact Hpop|]. intros r s3 ((m & Hm & ->) & (G1 & G2 & G3 & G4 & _) & Gt & _). cbn beta iota. apply Forall2_cons_inv_l in Hc as (k & ks3 & Hk & Hc & ->).
  do 2 wp_step. set (s4 := Mach _ (m_world s3) (m_trace s3)).
  assert (Hw3 : window_ok (m_sm s3)) by (apply (window_ok_same (m_sm s2)); [done|by apply (f_equal pending) in G1|by apply (f_equal ctxs) in G1|by apply (f_equal upd_n) in G1]).
  assert (Hv3 : forall c p, pending_vals (m_sm s3) c p = pending_vals (m_sm s2) c p) by (intros; apply pending_vals_same; [by apply (f_equal pending) in G1|by apply (f_equal ctxs) in G1]).
  assert (Hi3 : idle_ok (m_sm s3)).
  { pose proof (f_equal pending G1) as Ep. pose proof (f_equal ctxs G1) as Ex. cbn in Ep, Ex. unfold idle_ok in *. by rewrite Ep, Ex. }
  eapply wp_mono; [apply (take_head_spec m k now (q_batch_ms x) (q_stamp_at x) [] ks3 s4)|]; [by apply (ring_ok_same (m_sm s3))|by apply (window_ok_same (m_sm s3))|exact Hi3| | | |done| |done|].
  - change (Forall2 carries (abs_ring (m_sm s3)) ks3). by rewrite G3.
  - change (heap_ok [] (ptr m :: q_ptrs (abs_ring (m_sm s3))) s4). rewrite G3. apply (heap_sm [] _ (m_sm s2)). rewrite G4, Gt. cbn [foldr]. destruct s2. cbn in *. rewrite Hm in Hh. exact Hh.
  - destruct Hk as [Hk1 Hk2]. split; [|done]. unfold q_text in *. by rewrite Hm in Hk1.
  - change (label_ok (label (m_sm s3))). pose proof (f_equal label G1) as El. cbn in El. by rewrite El.
  - intros r s' (out & k' & -> & He' & Hh' & Hkk & Hv' & Hst). exists k', ks3. split_and!; [done|done| |].
    2:{ intros Hnd Hx. destruct (Hnf Hnd) as [-> _]. exists x, q, k. rewrite <- Ha2. split_and!; [done|done|]. rewrite (Hst Hx). f_equal. unfold stamp_iso. change (wall_ms (m_sm s4)) with (wall_ms (m_sm s3)). change (m_world s4) with (m_world s3).
      rewrite G4, Hw2, <- Hwall. cbn [foldr]. pose proof (f_equal wall_ms G1) as Ew. cbn in Ew. by rewrite Ew. }
    intros c p. etrans; [|apply Hc1]. unfold coming.
    rewrite Hv'. change (pending_vals (m_sm s4) c p) with (pending_vals (m_sm s3) c p). rewrite Hv3, Hv2. unfold messages_vals. rewrite bind_cons, <- app_assoc.
    assert (message_vals c p k' = message_vals c p k) as -> by (destruct Hkk as [->|[iso ->]]; [done|by apply dated_vals]). done.
Qed.

Lemma requeue_spec m k ks (s : St) : engine_ok [ptr m] ks s -> held_ok (m_sm s) m k ->
  wp (espos_sk_delta_requeue (Some m)) (fun _ s' => exists ks', engine_ok [] ks' s' /\ forall c p, coming (m_sm s') ks' c p `sublist_of` message_vals c p k ++ coming (m_sm s) ks c p) s.
Proof.
  intros [Hr Hw Hi Hh Hc Hl Hm] (Ht & Hu & Hk). eapply wp_mono; [by apply requeue_to|]. intros _ s' [Hr' Hs']. destruct s as [d w t], s' as [d' w' t']. cbn [m_sm m_world m_trace] in *.
  destruct (max_msgs (cfg d) <=? count d)%nat.
  - destruct Hs' as (Ea & Er & -> & -> & _). exists ks. pose proof (f_equal pending Er) as Ep. pose proof (f_equal ctxs Er) as Ex. pose proof (f_equal upd_n Er) as En. pose proof (f_equal label Er) as El. cbn in Ep, Ex, En, El.
    assert (Hv : forall c p, pending_vals d' c p = pending_vals d c p) by (intros; by apply pending_vals_same). split.
    + split; cbn [m_sm]; rewrite ?Ea; try done; [by apply (window_ok_same d)|unfold idle_ok in *; by rewrite Ep, Ex| |by rewrite El].
      apply (heap_release [] (ptr m :: q_ptrs (abs_ring d)) _ [ptr m] (Mach d' w (OGiven (ptr m) :: t))); [|done|done|done]. apply heap_given. eapply heap_sm. exact Hh.
    + intros c p. unfold coming. rewrite Hv. by apply sublist_inserts_l.
  - destruct Hs' as (Ea & Er & -> & -> & _). exists (k :: ks). pose proof (f_equal pending Er) as Ep. pose proof (f_equal ctxs Er) as Ex. pose proof (f_equal upd_n Er) as En. pose proof (f_equal label Er) as El. cbn in Ep, Ex, En, El.
    assert (Hv : forall c p, pending_vals d' c p = pending_vals d c p) by (intros; by apply pending_vals_same). split.
    + split; cbn [m_sm]; rewrite ?Ea; try done; [by apply (window_ok_same d)|unfold idle_ok in *; by rewrite Ep, Ex| | |by rewrite El|by constructor].
      * cbn. apply heap_given. eapply heap_sm. exact Hh.
      * constructor; [|done]. split; [done|]. cbn [q_stamp_at]. case_bool_decide as Eu; [right; by apply Hu|by left].
    + intros c p. unfold coming. rewrite Hv. unfold messages_vals. by rewrite bind_cons, <- app_assoc.
Qed.
End Ops.
