(* ===== verification/SkDeltaProps.v ===== *)
(** The delta engine with its sender: the order in which values reach the server,
    the buffers, the timestamps, and what [no_drop] promises, over all sequences of
    calls; then runs on a concrete host, and those in which the engine does not do
    what its documentation says. *)
From Stdlib Require Import ZArith Lia String.
From stdpp Require Import base list numbers option.
From S2P Require Import Prelude ConfigDesc TimePolicy TimeProps SkDelta SkDeltaText SkDeltaRing SkDeltaWindow SkDeltaEngine.
Open Scope Z_scope.

(** ** The sender

    The task that sends takes a message, sends it and releases it, or puts it back
    when the send fails; it takes the next one after that. Other tasks publish,
    flush and change the settings. *)
Inductive event :=
  | EPublish (context path value : option cstr) (at_ms now_ms : Z)
  | EFlush (now_ms : Z)
  | ETake (now_ms : Z) (connected : bool)
  | EFail
  | EClock (clock : option Z)
  | ELabel (label : option cstr)
  | ETiming (batch drain : Z)
  | ENoDrop (b : bool).

(** [held]: taken and not yet sent; [sent]: the texts on the wire, in their order;
    [accepted]: context, path and value of every publish that succeeded. *)
Record sender (W : Type) := Sender { eng : mach espos_sk_delta W obs; held : option msg_t; sent : list cstr; accepted : list (cstr * cstr * cstr) }.
Arguments Sender {W} _ _ _ _.
Arguments eng {W} _.
Arguments held {W} _.
Arguments sent {W} _.
Arguments accepted {W} _.

Definition accepted_vals (context path : cstr) (l : list (cstr * cstr * cstr)) : list cstr :=
  snd <$> List.filter (fun v => bool_decide (v.1 = (context, path))) l.

Section Sender.
Context {W : Type} {P : DeltaPort W} {C : DeltaConf}.
Abbreviation St := (mach espos_sk_delta W obs).

(** The message in hand went out and its buffer is released. *)
Definition send_held (c : sender W) : sender W :=
  match held c with
  | None => c
  | Some m => Sender (Mach (m_sm (eng c)) (p_free (ptr m) (m_world (eng c))) (m_trace (eng c))) None (sent c ++ [text m]) (accepted c)
  end.

Definition step (c : sender W) (e : event) : sender W :=
  match e with
  | EPublish context path value at_ms now_ms =>
      let '(r, s) := espos_sk_delta_publish_at context path value at_ms now_ms (eng c) in
      Sender s (held c) (sent c) (if is_ok r then accepted c ++ [(default SELF_CONTEXT context, default [] path, default [] value)] else accepted c)
  | EFlush now_ms => Sender (exec (espos_sk_delta_flush now_ms) (eng c)) (held c) (sent c) (accepted c)
  | ETake now_ms connected =>
      let c := send_held c in
      let '(m, s) := espos_sk_delta_take now_ms connected (eng c) in Sender s m (sent c) (accepted c)
  | EFail => Sender (exec (espos_sk_delta_requeue (held c)) (eng c)) None (sent c) (accepted c)
  | EClock k => Sender (exec (mods (espos_sk_delta_set_clock k)) (eng c)) (held c) (sent c) (accepted c)
  | ELabel l => Sender (exec (mods (espos_sk_delta_set_label l)) (eng c)) (held c) (sent c) (accepted c)
  | ETiming b d => Sender (exec (mods (espos_sk_delta_set_timing b d)) (eng c)) (held c) (sent c) (accepted c)
  | ENoDrop b => Sender (exec (mods (espos_sk_delta_set_no_drop b)) (eng c)) (held c) (sent c) (accepted c)
  end.

Definition run (c : sender W) (es : list event) : sender W := fold_left step es c.
Definition start (d : espos_sk_delta) (w : W) : sender W := Sender (Mach d w []) None [] [].

Context {H : DeltaHeap W}.

Section Invariant.
Context {L : Labels}.

(** The labels that are set are among the labels in use. *)
Definition cut_label (l : option cstr) : cstr := snprintf_s LABEL_SIZE (default (lit "espos") l).
Definition event_ok (e : event) : Prop := match e with ELabel l => label_ok (cut_label l) | _ => True end.

(** [ks]: what the ring carries; [kh]: the message in hand; [kd]: what was sent. *)
Definition sender_ok (c : sender W) : Prop :=
  exists ks kh kd, sent c = message_text <$> kd /\ engine_ok (option_list (ptr <$> held c)) ks (eng c) /\
    match held c, kh with Some m, Some k => held_ok (m_sm (eng c)) m k | None, None => True | _, _ => False end /\ Forall made kd /\
    forall x p, messages_vals x p kd ++ messages_vals x p (option_list kh) ++ coming (m_sm (eng c)) ks x p `sublist_of` accepted_vals x p (accepted c).

Lemma accepted_vals_app x p l v : accepted_vals x p (l ++ [v]) = accepted_vals x p l ++ (if decide ((x, p) = v.1) then [v.2] else []).
Proof.
  unfold accepted_vals. rewrite List.filter_app, fmap_app. f_equal. cbn [List.filter]. destruct (decide ((x, p) = v.1)) as [E|E].
  - rewrite bool_decide_eq_true_2 by done. done.
  - rewrite bool_decide_eq_false_2 by (by intros ?; apply E). done.
Qed.

Lemma messages_vals_one x p k : messages_vals x p [k] = message_vals x p k.
Proof. apply app_nil_r. Qed.

Lemma exec_wp {A} (m : act espos_sk_delta W obs A) (Q : A -> St -> Prop) s : wp m Q s -> Q (m s).1 (m s).2.
Proof. exact id. Qed.

Lemma held_ok_keep d d' m k : keep d' = keep d -> held_ok d m k -> held_ok d' m k.
Proof. intros [= E1 E2 E3] (Ht & Hu & Hm). split_and!; [done| |done]. by rewrite E1, E2. Qed.

Lemma sublist_frame {A} (a b x y : list A) : x `sublist_of` y -> a ++ b ++ x `sublist_of` a ++ b ++ y.
Proof. intros Hs. by apply sublist_app, sublist_app. Qed.

(** A step that changes neither ring nor window. *)
Lemma settings_ok c f : sender_ok c -> (forall d, ring (f d) = ring d /\ head (f d) = head d /\ count (f d) = count d /\ bytes (f d) = bytes d /\ max_msgs (cfg (f d)) = max_msgs (cfg d) /\
    max_bytes (cfg (f d)) = max_bytes (cfg d) /\ pending (f d) = pending d /\ ctxs (f d) = ctxs d /\ upd_n (f d) = upd_n d /\ keep (f d) = keep d) -> (forall d, label_ok (label d) -> label_ok (label (f d))) ->
  sender_ok (Sender (exec (mods f) (eng c)) (held c) (sent c) (accepted c)).
Proof.
  intros (ks & kh & kd & H1 & [Hr Hw Hi Hh Hc Hl Hm] & H3 & H3' & H4) Hf Hlf. unfold exec, mods. cbn [snd]. set (d := m_sm (eng c)) in *. destruct (Hf d) as (E1 & E2 & E3 & E4 & E5 & E5' & E6 & E7 & E8 & E9).
  assert (Ea : abs_ring (f d) = abs_ring d) by (unfold abs_ring, slot; by rewrite E1, E2, E3, E5).
  exists ks, kh, kd. cbn [eng held sent accepted m_sm]. split_and!; [done| | |done|].
  - split; cbn [m_sm]; rewrite ?Ea; try done; [|by apply (window_ok_same d)|unfold idle_ok in *; by rewrite E6, E7| |by apply Hlf].
    + destruct Hr. split; rewrite ?Ea, ?E1, ?E2, ?E3, ?E4, ?E5, ?E5'; done.
    + destruct Hh. by split.
  - destruct (held c), kh; try done. by apply (held_ok_keep d).
  - intros x p. unfold coming. rewrite (pending_vals_same d (f d)) by done. apply H4.
Qed.

Lemma step_ok c e : event_ok e -> sender_ok c -> sender_ok (step c e).
Proof.
  intros Hev Hc. destruct e as [context path value at_ now|now|now conn| |k|l|b dr|b].
  - pose proof Hc as (ks & kh & kd & H1 & He & H3 & H3' & H4). cbn [step]. pose proof (exec_wp _ _ _ (publish_at_spec context path value at_ now _ ks (eng c) He)) as Hp.
    destruct (espos_sk_delta_publish_at context path value at_ now (eng c)) as [r s]. cbn [fst snd] in Hp. destruct (publish_check context path value at_) as [err|].
    { destruct Hp as (-> & Hne & ->). unfold is_ok. rewrite bool_decide_eq_false_2 by done. exact Hc. }
    destruct Hp as [[-> (ks' & He' & Hs & Hcom & _)]|[-> (He' & _ & Es & Hv)]].
    + exists ks', kh, kd. cbn [eng held sent accepted]. injection Hs as Hs1 Hs2 Hs3 _ _. split_and!; [done|done| |done|].
      * destruct (held c), kh; try done. apply (held_ok_keep (m_sm (eng c))); [unfold keep; by rewrite Hs1, Hs2, Hs3|done].
      * intros x p. change (is_ok ESP_OK) with true. cbn iota. rewrite accepted_vals_app. cbn [fst snd]. etrans; [apply sublist_frame, Hcom|]. rewrite !app_assoc. apply sublist_app; [|done]. rewrite <- !app_assoc. apply H4.
    + change (is_ok ESP_ERR_NO_MEM) with false. cbn iota. exists ks, kh, kd. cbn [eng held sent accepted]. split_and!; [done|done| |done|].
      * destruct (held c), kh; try done. apply (held_ok_keep (m_sm (eng c))); [by rewrite Es|done].
      * intros x p. unfold coming. rewrite Hv. apply H4.
  - destruct Hc as (ks & kh & kd & H1 & He & H3 & H3' & H4). cbn [step]. unfold exec, espos_sk_delta_flush, mbind, act_bind. pose proof (exec_wp _ _ _ (flush_window_spec now _ ks (eng c) He)) as Hf.
    destruct (flush_window now (eng c)) as [ok s]. cbn [fst snd] in Hf. unfold mret, act_ret. cbn [snd]. destruct ok.
    + destruct Hf as (ks' & cs' & He' & Hk & _ & _ & Hp & _ & Hs & Hcs & _). exists ks', kh, kd. cbn [eng held sent accepted]. split_and!; [done|done| |done|].
      * destruct (held c), kh; try done. by apply (held_ok_keep (m_sm (eng c))).
      * intros x p. etrans; [|apply H4]. apply sublist_frame. eapply flush_coming; try done. apply He.
    + destruct Hf as (Es & He' & _). exists ks, kh, kd. cbn [eng held sent accepted]. by rewrite Es.
  - assert (Hc' : sender_ok (send_held c) /\ held (send_held c) = None).
    { destruct Hc as (ks & kh & kd & H1 & He & H3 & H3' & H4). unfold send_held. destruct (held c) as [m|] eqn:Eh; [|split; [|done]; exists ks, kh, kd; by rewrite Eh].
      split; [|done]. destruct kh as [k|]; [|done]. exists ks, None, (kd ++ [k]). cbn [eng held sent accepted option_list fmap option_fmap option_map m_sm]. split_and!; [| |done| |].
      - rewrite fmap_app, H1. by rewrite (proj1 H3).
      - destruct He as [? ? ? Hh ? ? ?]. split; cbn [m_sm]; try done. destruct (eng c). by apply heap_sent.
      - apply list.Forall_app. split; [done|]. constructor; [apply H3|constructor].
      - intros x p. rewrite messages_vals_app, <- app_assoc. apply H4. }
    destruct Hc' as [(ks & kh & kd & H1 & He & H3 & H3' & H4) Hn]. cbn [step]. rewrite Hn in He, H3. destruct kh; [done|]. pose proof (exec_wp _ _ _ (take_spec now conn ks (eng (send_held c)) He)) as Ht.
    destruct (espos_sk_delta_take now conn (eng (send_held c))) as [[m|] s]; cbn [fst snd] in Ht.
    + destruct Ht as (k & ks' & He' & Hh & Hs & _). exists ks', (Some k), kd. cbn [eng held sent accepted]. split_and!; [done|done|done|done|]. intros x p. etrans; [|apply H4]. apply sublist_app; [done|].
      change (option_list (Some k)) with [k]. rewrite messages_vals_one. apply Hs.
    + destruct Ht as (ks' & He' & Hs). exists ks', None, kd. cbn [eng held sent accepted]. split_and!; [done|done|done|done|]. intros x p. etrans; [|apply H4]. by apply sublist_frame.
  - destruct Hc as (ks & kh & kd & H1 & He & H3 & H3' & H4). cbn [step]. unfold exec. destruct (held c) as [m|] eqn:Eh.
    + destruct kh as [k|]; [|done]. pose proof (exec_wp _ _ _ (requeue_spec m k ks (eng c) He H3)) as Hq. destruct (espos_sk_delta_requeue (Some m) (eng c)) as [r s]. cbn [fst snd] in Hq.
      destruct Hq as (ks' & He' & Hs). exists ks', None, kd. cbn [eng held sent accepted snd]. split_and!; [done|done|done|done|]. intros x p. etrans; [|apply H4]. apply sublist_app; [done|].
      change (option_list (Some k)) with [k]. rewrite messages_vals_one. apply Hs.
    + destruct kh; [done|]. exists ks, None, kd. cbn [eng held sent accepted]. done.
  - by apply settings_ok.
  - by apply settings_ok.
  - apply settings_ok; [done|..]; intros d; unfold espos_sk_delta_set_timing; by destruct (b =? 0), (dr =? 0).
  - by apply settings_ok.
Qed.

Lemma start_ok c w d w' : 0 <= max_bytes c -> label_ok (cut_label (cfg_label c)) -> espos_sk_delta_create c w = (Some d, w') -> sender_ok (start d w').
Proof.
  intros Hb Hl. unfold espos_sk_delta_create. destruct (p_calloc w) as [[|] w1]; cbn [negb]; [|done]. set (c1 := if batch_ms c =? 0 then _ else c). set (c2 := if Nat.eqb (max_msgs c1) 0 then _ else c1).
  set (c3 := if drain_per_s c2 =? 0 then _ else c2). destruct (p_calloc w1) as [[|] w2]; cbn [negb]; [|done]. intros [= <- <-].
  assert (H1 : max_bytes c3 = max_bytes c) by (subst c3 c2 c1; repeat case_match; done).
  assert (H2 : max_msgs c3 <> 0%nat) by (subst c3 c2; destruct (Nat.eqb_spec (max_msgs c1) 0); repeat case_match; done). clearbody c3.
  exists [], None, []. unfold start. cbn [eng held sent accepted]. split_and!; [done| |done|constructor|done]. split; cbn [m_sm].
  - split; cbn; try done; [apply length_replicate|lia|lia|lia].
  - split; cbn; try done; [apply NoDup_nil_2|unfold ESPOS_SK_CONTEXTS_MAX; lia|lia|by intros e e' ?%elem_of_nil|constructor].
  - done.
  - split; cbn; try done. apply NoDup_nil_2.
  - constructor.
  - exact Hl.
  - constructor.
Qed.

Lemma run_ok c w d w' es : 0 <= max_bytes c -> label_ok (cut_label (cfg_label c)) -> Forall event_ok es -> espos_sk_delta_create c w = (Some d, w') -> sender_ok (run (start d w') es).
Proof.
  intros Hb Hl He Hc. apply start_ok in Hc; [|done|done]. revert Hc. generalize (start d w'). unfold run. induction He as [|e es He _ IH]; intros c0 Hc; [done|]. cbn [fold_left]. by apply IH, step_ok.
Qed.
End Invariant.

(** Nothing asked of the labels. *)
Definition any_label : Labels := fun _ => True.

Lemma run_any c w d w' es : 0 <= max_bytes c -> espos_sk_delta_create c w = (Some d, w') -> @sender_ok any_label (run (start d w') es).
Proof. intros Hb Hc. eapply run_ok; [exact Hb|exact I| |exact Hc]. apply list.Forall_true. by intros []. Qed.

(** ** What a reader of the wire sees *)

(** The caller's part: paths and labels without quotation marks and backslashes,
    and values that are whole JSON fragments. *)
Definition clean_label (l : option cstr) : Prop := plain (default [] l).
Definition clean_event (e : event) : Prop :=
  match e with EPublish _ path value _ _ => plain (default [] path) /\ closed_value (default [] value) | ELabel l => clean_label l | _ => True end.

#[export] Instance clean_event_dec e : Decision (clean_event e).
Proof. destruct e; cbn; unfold clean_label, plain, closed_value; apply _. Defined.

Lemma cut_label_plain l : clean_label l -> plain (cut_label l).
Proof. intros Hl. unfold cut_label, snprintf_s, plain. apply Forall_take. destruct l; [exact Hl|]. by repeat constructor. Qed.

Lemma context_check_plain c : context_check c = ESP_OK -> plain c.
Proof.
  unfold context_check. destruct (byte0 c =? 0); [done|]. destruct (_ <=? _)%nat; [done|]. destruct (existsb _ c) eqn:E; [done|]. intros _. apply list.Forall_forall. intros x Hx.
  apply Bool.not_true_iff_false in E. split; intros ->; apply E, existsb_exists; (eexists; split; [by apply list_elem_of_In|done]).
Qed.

(** What was accepted is clean. *)
Definition clean_item (v : cstr * cstr * cstr) : Prop := plain v.1.1 /\ plain v.1.2 /\ closed_value v.2.

Lemma step_accepted c e : @sender_ok any_label c -> clean_event e -> Forall clean_item (accepted c) -> Forall clean_item (accepted (step c e)).
Proof.
  intros (ks & kh & kd & _ & He & _) Hc Ha. destruct e as [context path value at_ now|now|now conn| |k|l|b dr|b]; cbn [step]; try done.
  - pose proof (exec_wp _ _ _ (publish_at_spec context path value at_ now _ ks (eng c) He)) as Hp. destruct (espos_sk_delta_publish_at context path value at_ now (eng c)) as [r s]. cbn [fst snd] in Hp. cbn [accepted].
    destruct (publish_check context path value at_) as [err|] eqn:Ek; [destruct Hp as (-> & Hne & _); unfold is_ok; by rewrite bool_decide_eq_false_2|]. destruct (is_ok r); [|done].
    apply list.Forall_app. split; [done|]. constructor; [|constructor]. destruct Hc as [Hc1 Hc2]. split_and!; [|done|done]. cbn [fst]. unfold publish_check in Ek. destruct path as [p|], value as [v|]; try done.
    destruct (_ || _); [done|]. destruct (context_check (default SELF_CONTEXT context)) eqn:Ec; try done. by apply context_check_plain.
  - destruct (espos_sk_delta_take now conn (eng (send_held c))). cbn [accepted]. unfold send_held. by destruct (held c).
Qed.

Lemma run_accepted es : forall c : sender W, @sender_ok any_label c -> Forall clean_event es -> Forall clean_item (accepted c) -> Forall clean_item (accepted (run c es)).
Proof.
  unfold run. induction es as [|e es IH]; intros c Hc Hes Ha; [done|]. apply list.Forall_cons in Hes as [He Hes]. cbn [fold_left]. apply IH; [|done|by apply step_accepted].
  apply (@step_ok any_label); [by destruct e|done].
Qed.

Lemma accepted_vals_in x p v l : v ∈ accepted_vals x p l -> (x, p, v) ∈ l.
Proof.
  unfold accepted_vals. intros Hv. apply list_elem_of_fmap in Hv as ([[x' p'] v'] & -> & Hv). apply list_elem_of_In, filter_In in Hv as [Hv E]. apply bool_decide_eq_true in E. cbn in E. injection E as -> ->. by apply list_elem_of_In.
Qed.

(** A value of a message is one of its values for its path. *)
Lemma message_vals_in k u v : u ∈ k_updates k -> v ∈ u_values u -> v.2 ∈ message_vals (k_context k) v.1 k.
Proof.
  intros Hu Hv. unfold message_vals. rewrite streq_refl. apply list_elem_of_bind. exists u. split; [|done]. unfold update_vals. apply list_elem_of_fmap. exists v. split; [done|].
  apply list_elem_of_In, filter_In. split; [by apply list_elem_of_In|apply streq_refl].
Qed.

(** Messages whose values were accepted clean can be read. *)
Lemma made_readable (l : list (cstr * cstr * cstr)) ks : Forall clean_item l -> Forall (@made plain) ks ->
  (forall x p, messages_vals x p ks `sublist_of` accepted_vals x p l) -> Forall readable ks.
Proof.
  intros Hl Hm Hs. rewrite list.Forall_forall in Hl. apply list.Forall_forall. intros k Hk. rewrite list.Forall_forall in Hm. destruct (Hm k Hk) as [H1 H2 (u & v & Hu & Hv)].
  assert (Hin : forall u v, u ∈ k_updates k -> v ∈ u_values u -> clean_item (k_context k, v.1, v.2)).
  { intros u0 v0 Hu0 Hv0. apply Hl, accepted_vals_in. eapply elem_of_sublist; [|apply Hs]. unfold messages_vals. apply list_elem_of_bind. exists k. split; [by apply (message_vals_in k u0)|done]. }
  split; [by apply (Hin u v)|done|done|]. apply list.Forall_forall. intros u0 Hu0. apply list.Forall_forall. intros v0 Hv0. apply (Hin u0 v0 Hu0 Hv0).
Qed.

Lemma bind_values path us : snd <$> List.filter (fun v => streq v.1 path) (us ≫= u_values) = us ≫= update_vals path.
Proof. induction us as [|u us IH]; [done|]. by rewrite !bind_cons, List.filter_app, fmap_app, IH. Qed.

Lemma wire_vals_messages x p ks : wire_vals x p ((fun k => (k_context k, k_updates k ≫= u_values)) <$> ks) = messages_vals x p ks.
Proof.
  unfold wire_vals, messages_vals. induction ks as [|k ks IH]; [done|]. rewrite fmap_cons, !bind_cons, IH. unfold message_vals. cbn [fst snd]. by rewrite bind_values.
Qed.

Lemma read_messages ks : Forall readable ks -> mapM read_message (message_text <$> ks) = Some ((fun k => (k_context k, k_updates k ≫= u_values)) <$> ks).
Proof. intros Hr. induction Hr as [|k ks Hk _ IH]; [done|]. cbn [fmap list_fmap mapM]. by rewrite (read_message_text k Hk), IH. Qed.

(** C14. Whatever is published, flushed, taken, lost to a full ring, put back
    after a failed send or dated late: every text on the wire can be read, by a
    reader that sees nothing but the text, and the values read for a context and
    path, in the order of the texts, are accepted values of that path in the order
    they were published: none twice, none overtaken. Paths and labels hold no
    quotation marks or backslashes and values are whole JSON fragments, which the
    caller sees to; contexts are checked by the code. *)
Theorem sk_delta_order c w d w' es :
  0 <= max_bytes c -> espos_sk_delta_create c w = (Some d, w') -> clean_label (cfg_label c) -> Forall clean_event es ->
  exists ms, mapM read_message (sent (run (start d w') es)) = Some ms /\
    forall context path, wire_vals context path ms `sublist_of` accepted_vals context path (accepted (run (start d w') es)).
Proof.
  intros Hb Hc Hl Hes. assert (Hok : @sender_ok plain (run (start d w') es)).
  { eapply (@run_ok plain); [exact Hb|by apply cut_label_plain| |exact Hc]. eapply list.Forall_impl; [exact Hes|]. intros [] He; try done. by apply cut_label_plain. }
  assert (Hacc : Forall clean_item (accepted (run (start d w') es))) by (apply run_accepted; [by apply (run_any c w d w' [])|done|constructor]).
  destruct Hok as (ks & kh & kd & H1 & _ & _ & Hm & H4). assert (Hs : forall x p, messages_vals x p kd `sublist_of` accepted_vals x p (accepted (run (start d w') es))) by (intros x p; etrans; [|apply H4]; by apply sublist_inserts_r).
  eexists. rewrite H1, read_messages by (by eapply made_readable). split; [done|]. intros x p. rewrite wire_vals_messages. apply Hs.
Qed.

(** C15. At any time every buffer the engine got from the allocator or back from
    the sender has been released, is in the sender's hands, or is one message of the
    ring: the counts of the ring and its bytes are those of these messages, no two
    share a buffer and all of them are in use. *)
Theorem sk_delta_memory c w d w' es :
  0 <= max_bytes c -> espos_sk_delta_create c w = (Some d, w') ->
  let r := run (start d w') es in
  let s := eng r in
  let mine := q_ptrs (abs_ring (m_sm s)) in
  omap came (m_trace s) ≡ₚ omap gone (m_trace s) ++ mine /\
  NoDup (option_list (ptr <$> held r) ++ mine) /\ Forall (live (m_world s)) (option_list (ptr <$> held r) ++ mine) /\
  length mine = count (m_sm s) /\ (count (m_sm s) <= max_msgs (cfg (m_sm s)))%nat /\ bytes (m_sm s) = q_bytes (abs_ring (m_sm s)).
Proof.
  intros Hb Hc r s mine. destruct (run_any c w d w' es Hb Hc) as (ks & kh & kd & _ & [[] _ _ [] _ _ _] & _). split_and!; try done.
  rewrite <- abs_ring_length. unfold mine, q_ptrs. fold r s in ro_msgs. induction ro_msgs as [|x q [m Hm] _ IH]; [done|]. cbn. rewrite Hm. cbn. by rewrite IH.
Qed.

(** C18. With [no_drop] and an allocator that does not fail, a flush answers
    [ESP_ERR_NO_MEM] exactly when there is something to queue that an empty ring
    would take and the ring as it is has no room for, by its count of messages or by
    its bytes; the engine is then as it was. Otherwise it answers [ESP_OK] and the
    window is empty; if an empty ring would take the window, all of it is queued
    behind what was queued, so that every path's values are still the ones coming,
    and no loss is counted. *)
Theorem sk_delta_no_drop c w d w' es now :
  0 <= max_bytes c -> espos_sk_delta_create c w = (Some d, w') ->
  let s := eng (run (start d w') es) in
  no_drop (cfg (m_sm s)) = true ->
  let '(r, s') := espos_sk_delta_flush now s in
  (r = ESP_ERR_NO_MEM /\ m_sm s' = m_sm s \/ r = ESP_OK /\ pending (m_sm s') = []) /\
  (OAlloc None ∉ m_trace s' ->
   (r = ESP_ERR_NO_MEM <-> pending (m_sm s) <> [] /\ window_fits (m_sm s) /\ ~ window_room (m_sm s)) /\
   (r = ESP_OK -> window_fits (m_sm s) ->
    exists ks ks', Forall2 carries (abs_ring (m_sm s)) ks /\ Forall2 carries (abs_ring (m_sm s')) ks' /\
      (forall context path, messages_vals context path ks' = messages_vals context path ks ++ pending_vals (m_sm s) context path) /\
      st_dropped (st (m_sm s')) = st_dropped (st (m_sm s)))).
Proof.
  intros Hb Hc s Hnd. destruct (run_any c w d w' es Hb Hc) as (ks & kh & kd & _ & He & _). fold s in He. unfold espos_sk_delta_flush, mbind, act_bind.
  pose proof (exec_wp _ _ _ (flush_window_spec now _ ks s He)) as Hf. destruct (flush_window now s) as [ok s']. cbn [fst snd] in Hf. unfold mret, act_ret. destruct ok.
  - destruct Hf as (ks' & cs' & He' & _ & _ & _ & Hp & _ & _ & _ & Hroom & Hall). split; [by right|]. intros Hx. specialize (Hroom Hnd). split.
    + split; [done|]. intros (H1 & H2 & H3). by destruct (Hroom H2 Hx).
    + intros _ Hfit. destruct (Hall (Hroom Hfit Hx) Hx) as (-> & Hd & _). exists ks. eexists. split_and!; [apply He|apply He'| |done]. intros context path. rewrite messages_vals_app. f_equal. by apply window_coming; [apply He|..].
  - destruct Hf as (Es & _ & _ & Hne & Hroom). split; [by left|]. intros Hx. split; [|done]. split; [|done]. intros _. split; [done|by apply Hroom].
Qed.

(** C16. A message taken while no window is due is the oldest of the ring. If
    an update of it waited for a time and the clock knows it, that update and no
    other carries the instant its batch began: the clock's reading less the age of
    the batch on the monotonic clock, across its wrap. The timestamp reads back as
    that instant to the millisecond. Without a clock the message goes out as it is. *)
Theorem sk_delta_timestamp c w d w' es now m s' :
  0 <= max_bytes c -> espos_sk_delta_create c w = (Some d, w') ->
  let r := run (start d w') es in
  let s := eng r in
  held r = None -> batch_due (m_sm s) now = false -> espos_sk_delta_take now true s = (Some m, s') -> OAlloc None ∉ m_trace s' ->
  exists x q k, abs_ring (m_sm s) = x :: q /\ carries x k /\
    let iso := stamp_iso (m_sm s) (m_world s) now (q_batch_ms x) in
    text m = message_text (stamped (q_stamp_at x) iso k) /\
    (wall_ms (m_sm s) = None -> text m = q_text x) /\
    forall clock, wall_ms (m_sm s) = Some clock ->
      let t := (p_wall_ms clock (m_world s)).1 - u32 (now - q_batch_ms x) in
      0 < t <= AT_MS_MAX -> espos_time_iso8601_parse (Some iso) = t.
Proof.
  intros Hb Hc r s Hheld Hnd Ht Hx. destruct (run_any c w d w' es Hb Hc) as (ks & kh & kd & _ & He & _). fold r s in He. rewrite Hheld in He.
  pose proof (exec_wp _ _ _ (take_spec now true ks s He)) as Hs. rewrite Ht in Hs. cbn [fst snd] in Hs. destruct Hs as (k & ks' & _ & Hh & _ & Hst).
  destruct (Hst Hnd Hx) as (x & q & k0 & Ha & Hk & ->). exists x, q, k0. cbv zeta. split_and!; [done|done|apply Hh| |].
  - intros Hw. rewrite (proj1 Hh), (proj1 Hk). unfold stamp_iso. rewrite Hw. by destruct (q_stamp_at x).
  - intros clock Hw Hr. unfold stamp_iso. rewrite Hw. pose proof (Z.mod_pos_bound (now - q_batch_ms x) (2 ^ 32)) as Hu. unfold u32 in *.
    destruct (Z.leb_spec (p_wall_ms clock (m_world s)).1 0); [lia|]. rewrite iso8601_same. apply iso8601_round_trip; [unfold AT_MS_MAX in Hr; lia|done].
Qed.

(** ** Against the documentation *)










End Sender.

(** C17. What [build_message] writes is the printed message of the window and
    context: an update per timestamp with the values of the table in order, every
    byte inside the buffer whose size was computed beforehand, nothing cut off, and
    the offset for a later timestamp behind the brace of the undated update. *)
Theorem sk_delta_message_exact d c :
  let t := message_text (window_message d c) in
  build_text d (need_of d c) c = (Out t (length t) true, message_stamp_at (window_message d c)) /\ (length t < need_of d c)%nat /\
  forall us1 u us2 iso, k_updates (window_message d c) = us1 ++ u :: us2 -> u_iso u = [] -> Forall is_dated us1 -> Forall is_dated us2 -> iso <> [] ->
    let n := message_stamp_at (window_message d c) in
    take n t ++ timestamp_text iso ++ drop n t = message_text (dated iso (window_message d c)).
Proof.
  split_and!; [apply build_text_exact|apply message_fits|]. intros us1 u us2 iso H1 H2 H3 H4 H5. by destruct (stamp_dates _ us1 u us2 iso H1 H2 H3 H4 H5) as (_ & _ & Hd).
Qed.

(** * Runs *)

(** A heap that gives the address after the largest in use, or nothing when
    [h_mem] is off, and a clock. *)
Record host := Host { h_live : list Z; h_wall : Z; h_mem : bool }.
Definition h_next (w : host) : Z := 1 + foldr Z.max 0 (h_live w).

#[export] Instance host_port : DeltaPort host := {|
  p_calloc w := (true, w);
  p_malloc _ w := if h_mem w then (Some (h_next w), Host (h_next w :: h_live w) (h_wall w) (h_mem w)) else (None, w);
  p_free p w := Host (List.filter (fun q => negb (q =? p)) (h_live w)) (h_wall w) (h_mem w);
  p_wall_ms _ w := (h_wall w, w) |}.

#[export] Instance host_conf : DeltaConf := {| PENDING_CAP := 32; PENDING_CAP_range := ltac:(lia) |}.

Lemma h_next_fresh w : h_next w ∉ h_live w.
Proof.
  unfold h_next. intros Hin. assert (Hle : forall l x, x ∈ l -> x <= foldr Z.max 0 l).
  { induction l as [|y l IH]; intros x Hx; [by apply elem_of_nil in Hx|]. cbn. apply elem_of_cons in Hx as [->|Hx]; [lia|]. specialize (IH x Hx). lia. }
  apply Hle in Hin. lia.
Qed.

#[export] Instance host_heap : DeltaHeap host.
Proof.
  refine {| live w p := p ∈ h_live w |}.
  - intros n w. cbn. destruct (h_mem w); cbn; [|done]. split; [apply h_next_fresh|]. intros q. by rewrite elem_of_cons.
  - intros p w q. cbn. rewrite !list_elem_of_In, filter_In. destruct (Z.eqb_spec q p); cbn; intuition congruence.
  - done.
Defined.

Definition delta_cfg (msgs : nat) (bytes : Z) (nodrop : bool) : espos_sk_delta_cfg_t := DeltaCfg None 100 msgs bytes 20 nodrop.
Definition host0 : host := Host [] 0 true.
Definition engine0 (c : espos_sk_delta_cfg_t) : espos_sk_delta := default (Delta c [] [] [] 0 0 [] 0 0 0 0 false None None 0 0 (DeltaStats 0 0 0 0 0 0)) (espos_sk_delta_create c host0).1.
Definition pub (path value : string) (at_ms now : Z) : event := EPublish None (Some (lit path)) (Some (lit value)) at_ms now.

(** Values with and without a time of their own, a failed send, a clock set late. *)
Definition sample_events : list event :=
  [pub "a.b" "1" 0 1000; pub "a.c" "2" 1788775933456 1010; pub "a.b" "3" 1788775933456 1020; pub "a.b" "4" 0 1030; ETake 1100 true; EFail; EClock (Some 0); ETake 1200 true; ETake 1300 true; EFlush 1400].

Lemma sk_delta_order_witness :
  exists ms, mapM read_message (sent (run (start (engine0 (delta_cfg 8 0 false)) host0) sample_events)) = Some ms /\
    forall context path, wire_vals context path ms `sublist_of` accepted_vals context path (accepted (run (start (engine0 (delta_cfg 8 0 false)) host0) sample_events)).
Proof.
  exact (sk_delta_order (delta_cfg 8 0 false) host0 _ host0 sample_events ltac:(vm_compute; discriminate) eq_refl (list.Forall_nil_2 _) ltac:(apply (bool_decide_eq_true_1 (Forall clean_event sample_events)); vm_compute; reflexivity)).
Defined.

(** What the wire carries when the ring is sent to its end. *)
Example sample_read :
  mapM read_message (sent (run (start (engine0 (delta_cfg 8 0 false)) host0) (sample_events ++ [ETake 1500 true; ETake 1600 true; ETake 1700 true]))) =
  Some [(SELF_CONTEXT, [(lit "a.b", lit "1"); (lit "a.c", lit "2"); (lit "a.b", lit "3")]); (SELF_CONTEXT, [(lit "a.b", lit "4")])].
Proof. vm_compute. reflexivity. Qed.

(** The two messages of the sample are on their way: one is sent, one in hand. *)
Example sample_sends :
  let r := run (start (engine0 (delta_cfg 8 0 false)) host0) sample_events in
  length (sent r) = 1%nat /\ is_Some (held r) /\ accepted_vals SELF_CONTEXT (lit "a.b") (accepted r) = [lit "1"; lit "3"; lit "4"].
Proof. vm_compute. split_and!; [reflexivity|by eexists|reflexivity]. Qed.

Lemma sk_delta_memory_witness :
  let s := eng (run (start (engine0 (delta_cfg 8 0 false)) host0) sample_events) in
  omap came (m_trace s) ≡ₚ omap gone (m_trace s) ++ q_ptrs (abs_ring (m_sm s)).
Proof. exact (proj1 (sk_delta_memory (delta_cfg 8 0 false) host0 _ host0 sample_events ltac:(vm_compute; discriminate) eq_refl)). Defined.

Lemma sk_delta_no_drop_witness :
  let s := eng (run (start (engine0 (delta_cfg 8 150 true)) host0) [pub "a.b" "1" 0 1000; EFlush 1000; pub "a.b" "2" 0 1000]) in
  let '(r, s') := espos_sk_delta_flush 1000 s in
  (r = ESP_ERR_NO_MEM /\ m_sm s' = m_sm s \/ r = ESP_OK /\ pending (m_sm s') = []) /\
  (OAlloc None ∉ m_trace s' ->
   (r = ESP_ERR_NO_MEM <-> pending (m_sm s) <> [] /\ window_fits (m_sm s) /\ ~ window_room (m_sm s)) /\
   (r = ESP_OK -> window_fits (m_sm s) ->
    exists ks ks', Forall2 carries (abs_ring (m_sm s)) ks /\ Forall2 carries (abs_ring (m_sm s')) ks' /\
      (forall context path, messages_vals context path ks' = messages_vals context path ks ++ pending_vals (m_sm s) context path) /\
      st_dropped (st (m_sm s')) = st_dropped (st (m_sm s)))).
Proof. exact (sk_delta_no_drop (delta_cfg 8 150 true) host0 _ host0 [pub "a.b" "1" 0 1000; EFlush 1000; pub "a.b" "2" 0 1000] 1000 ltac:(vm_compute; discriminate) eq_refl ltac:(vm_compute; reflexivity)). Defined.

(** The refusal and, with room, the whole window. *)
Example no_drop_answers :
  (espos_sk_delta_flush 1000 (eng (run (start (engine0 (delta_cfg 8 150 true)) host0) [pub "a.b" "1" 0 1000; EFlush 1000; pub "a.b" "2" 0 1000]))).1 = ESP_ERR_NO_MEM /\
  (espos_sk_delta_flush 1000 (eng (run (start (engine0 (delta_cfg 8 250 true)) host0) [pub "a.b" "1" 0 1000; EFlush 1000; pub "a.b" "2" 0 1000]))).1 = ESP_OK.
Proof. vm_compute. split; reflexivity. Qed.

(** A clock that knows the time: a message of the ring is dated when it is taken. *)
Definition host_clock : host := Host [] 1788775933556 true.
Definition dated_events : list event := [EClock (Some 0); pub "a.b" "1" 0 4294967196; EFlush 0].
Definition dated_state : mach espos_sk_delta host obs := eng (run (start (engine0 (delta_cfg 8 0 false)) host_clock) dated_events).
Definition dated_taken : option msg_t * mach espos_sk_delta host obs := espos_sk_delta_take 0 true dated_state.

Lemma sk_delta_timestamp_witness :
  exists x q k, abs_ring (m_sm dated_state) = x :: q /\ carries x k /\
    let iso := stamp_iso (m_sm dated_state) (m_world dated_state) 0 (q_batch_ms x) in
    text (default (Msg 0 []) dated_taken.1) = message_text (stamped (q_stamp_at x) iso k) /\
    (wall_ms (m_sm dated_state) = None -> text (default (Msg 0 []) dated_taken.1) = q_text x) /\
    forall clock, wall_ms (m_sm dated_state) = Some clock ->
      let t := (p_wall_ms clock (m_world dated_state)).1 - u32 (0 - q_batch_ms x) in
      0 < t <= AT_MS_MAX -> espos_time_iso8601_parse (Some iso) = t.
Proof.
  apply (sk_delta_timestamp (delta_cfg 8 0 false) host_clock _ host_clock dated_events 0 (default (Msg 0 []) dated_taken.1) dated_taken.2).
  - vm_compute. discriminate.
  - reflexivity.
  - vm_compute. reflexivity.
  - vm_compute. reflexivity.
  - vm_compute. reflexivity.
  - rewrite list_elem_of_In. vm_compute. intros Hin. repeat destruct Hin as [Hin|Hin]; discriminate Hin || exact Hin.
Defined.

(** Printed text with its quotation marks as apostrophes. *)
Example dated_text :
  text (default (Msg 0 []) dated_taken.1) =
  js "{'context':'vessels.self','updates':[{'timestamp':'2026-09-07T10:12:13.456Z','source':{'label':'espos'},'values':[{'path':'a.b','value':1}]}]}".
Proof. vm_compute. reflexivity. Qed.



(** The four ways in which the engine differs from its documentation, on a run
    each. *)
Example docs_runs :
  (let r n := run (start (engine0 (delta_cfg 8 150 true)) host0) ([pub "a.b" "1" 0 1000; EFlush 1000; pub "a.b" "2" 0 1000] ++ replicate n (ETake 5000 false)) in
   Forall (fun n => let d := m_sm (eng (r n)) in
             espos_sk_delta_next_due_ms d 5000 false = 0 /\ length (pending d) = 1%nat /\ count d = 1%nat /\ bytes d < max_bytes (cfg d)) (seq 0 10)) /\
  (let s := eng (run (start (engine0 (delta_cfg 8 0 true)) (Host [] 0 false)) [pub "a.b" "1" 0 1000]) in
   let '(r, s') := espos_sk_delta_flush 1100 s in
   length (pending (m_sm s)) = 1%nat /\ r = ESP_OK /\ pending (m_sm s') = [] /\ count (m_sm s') = 0%nat /\ st_dropped (espos_sk_delta_stats (m_sm s')) = 0) /\
  (let d := m_sm (eng (run (start (engine0 (delta_cfg 8 150 false)) host0) [pub "a.b" "1" 0 1000; ETake 1100 true; pub "a.b" "2" 0 1200; EFlush 1300; EFail])) in
   max_bytes (cfg d) < bytes d) /\
  (let d := m_sm (eng (run (start (engine0 (delta_cfg 8 0 false)) host0) [pub "a.b" "1" 0 1000; pub "a.c" "2" 0 1090; ETake 1100 false])) in
   q_batch_ms <$> abs_ring d = [1000]).
Proof.
  split_and!; [cbv zeta; cbn [seq]; repeat (constructor; [split_and!; vm_compute; reflexivity|]); constructor|vm_compute; split_and!; reflexivity|vm_compute; reflexivity|vm_compute; reflexivity].
Qed.

(** A window with one undated and one dated update. *)
Definition sample_window : espos_sk_delta := m_sm (eng (run (start (engine0 (delta_cfg 8 0 false)) host0) [pub "a.b" "1" 0 1000; pub "a.c" "2" 1788775933456 1010])).

Lemma sk_delta_message_exact_witness :
  let n := message_stamp_at (window_message sample_window 0) in
  let t := message_text (window_message sample_window 0) in
  take n t ++ timestamp_text (lit "now") ++ drop n t = message_text (dated (lit "now") (window_message sample_window 0)).
Proof.
  refine (proj2 (proj2 (sk_delta_message_exact sample_window 0)) [] _ _ (lit "now") _ _ _ _ _).
  - vm_compute. reflexivity.
  - reflexivity.
  - constructor.
  - repeat constructor. vm_compute. discriminate.
  - discriminate.
Defined.
