(* ===== verification/Log.v ===== *)
(** The ring of recent log lines: [espos_log.c].

    A byte ring of records, each a 16-bit length and its text, filled by a hook that
    sees every piece of formatted output; readers page through it by sequence
    number. The mutex, the timer, the allocator, the wall clock's hook and the
    console are the port; a section under the mutex is one step. *)
From Stdlib Require Import ZArith Lia String.
From stdpp Require Import base list numbers option.
From S2P Require Import Prelude ConfigDesc.
Open Scope Z_scope.

(** The options of the build, with their ranges. *)
Class LogConf := {
  RING_SIZE : nat;
  LOG_LINE_MAX : nat;
  WALLCLOCK : bool;
  RING_SIZE_range : 2048 <= Z.of_nat RING_SIZE <= 262144;
  LOG_LINE_MAX_range : 64 <= Z.of_nat LOG_LINE_MAX <= 1024 }.

(** [l_buf]: [None] for NULL; [l_partial] has [partial_len] bytes; [l_prev] and
    [l_notify] are identities of functions (and argument). *)
Record log := Log {
  l_lock : bool;
  l_buf : option (list Z);
  l_head : nat;
  l_tail : nat;
  l_used : nat;
  l_first : Z;
  l_next : Z;
  l_dropped : Z;
  l_dirty : bool;
  l_partial : cstr;
  l_prev : option Z;
  l_timer : bool;
  l_notify : option Z }.
#[export] Instance log_eta : Eta log := fun s => Log (l_lock s) (l_buf s) (l_head s) (l_tail s) (l_used s) (l_first s) (l_next s) (l_dropped s) (l_dirty s) (l_partial s) (l_prev s) (l_timer s) (l_notify s).
Definition log_zero : log := Log false None 0 0 0 0 0 0 false [] None false None.

Record espos_log_stats_t := LogStats { ls_first : Z; ls_next : Z; ls_used : nat; ls_size : nat; ls_dropped : Z }.

Class LogPort (W : Type) := {
  p_mutex : W -> bool * W;
  p_ring : W -> option (list Z) * W;
  p_timer : W -> bool * W;
  p_timer_start : W -> bool * W;
  p_set_vprintf : option Z -> W -> option Z * W;
  p_try_lock : Z -> W -> bool * W;
  p_wallclock : nat -> W -> cstr * W }.

(** What leaves the component: a call to the previous [vprintf] with the formatted
    text, a notification, a change of the hook, a log level set. *)
Inductive log_obs := OForward (prev : Z) (text : cstr) | ONotified (cb : Z) (next : Z) | OHook (h : option Z) | OLevel (tag : cstr) (level : Z) | OFreeRing.

(** This component's own hook. *)
Definition HOOK : Z := 1.

(** ** Bytes *)

Section Bytes.
Context {C : LogConf}.

(** [memcpy(buf + off, p, n)] *)
Definition mem_put (off : nat) (p : list Z) (b : list Z) : list Z := take off b ++ p ++ drop (off + length p) b.

Definition ring_write (off : nat) (p : list Z) (b : list Z) : list Z :=
  let first := (RING_SIZE - off)%nat in
  if (length p <=? first)%nat then mem_put off p b else mem_put 0 (drop first p) (mem_put off (take first p) b).

Definition ring_read (off n : nat) (b : list Z) : list Z :=
  let first := (RING_SIZE - off)%nat in
  if (n <=? first)%nat then take n (drop off b) else take first (drop off b) ++ take (n - first) b.

(** The bytes of a [uint16_t], least significant first. *)
Definition u16_bytes (v : Z) : list Z := [u8 v; u8 (v / 256)].
Definition u16_of (b : list Z) : Z := match b with [x; y] => x + 256 * y | _ => 0 end.

Definition rec_len_at (off : nat) (b : list Z) : nat := Z.to_nat (u16_of (ring_read off 2 b)).

(** ** Lines *)

(** The index behind the digits from [i] on. *)
Fixpoint digits_end (line : cstr) (i : nat) : nat :=
  match line with c :: line' => if (48 <=? c) && (c <=? 57) then digits_end line' (S i) else i | [] => i end.

(** [None]: the line does not have the prefix; otherwise where the parenthesis
    closes. *)
Definition prefix_close (line : cstr) : option nat :=
  if (length line <? 5)%nat || negb (nth 1 line 0 =? 32) || negb (nth 2 line 0 =? 40) then None
  else
    let close := digits_end (drop 3 line) 3 in
    if Nat.eqb close 3 || (length line <=? close)%nat || negb (nth close line 0 =? 41) then None else Some close.

Definition add_wallclock_text (line iso : cstr) (cap close : nat) : cstr :=
  if Nat.eqb (length iso) 0 || (cap <? length line + 1 + length iso)%nat then line
  else take close line ++ lit "|" ++ iso ++ drop close line.

Definition is_letter (c : Z) : bool := ((65 <=? c) && (c <=? 90)) || ((97 <=? c) && (c <=? 122)).

(** [skip]: inside a sequence, behind its bracket. *)
Fixpoint strip_from (src : cstr) (skip : bool) : cstr :=
  match src with
  | [] => []
  | c :: src' =>
      if skip then strip_from src' (negb (is_letter c))
      else if (c =? 27) && (byte0 src' =? 91) then match src' with _ :: src'' => strip_from src'' true | [] => [] end
      else c :: strip_from src' false
  end.
Definition strip_ansi (src : cstr) : cstr := strip_from src false.

(** The line without its trailing carriage returns. *)
Fixpoint drop_cr (rline : cstr) : cstr := match rline with 13 :: l => drop_cr l | _ => rline end.
Definition trim_cr (line : cstr) : cstr := reverse (drop_cr (reverse line)).
End Bytes.

Definition LEVELS : list (cstr * Z) := [(lit "none", 0); (lit "error", 1); (lit "warn", 2); (lit "info", 3); (lit "debug", 4); (lit "verbose", 5)].
Definition espos_log_level_name (level : Z) : cstr := default (lit "unknown") (fst <$> List.find (fun l => l.2 =? level) LEVELS).
Definition to_lower (c : Z) : Z := if (65 <=? c) && (c <=? 90) then c + 32 else c.
(** [strcasecmp(a, b) == 0] *)
Definition strcaseeq (a b : cstr) : bool := streq (to_lower <$> a) (to_lower <$> b).

Section LogRing.
Context {W : Type} {P : LogPort W} {C : LogConf}.
Abbreviation M := (act log W log_obs).

Definition buf_of (s : log) : list Z := default [] (l_buf s).

Definition pop_oldest : M unit :=
  mods (fun s =>
    let len := rec_len_at (l_head s) (buf_of s) in
    s <| l_head := ((l_head s + 2 + len) mod RING_SIZE)%nat |> <| l_used := (l_used s - (2 + len))%nat |>
      <| l_first := u32 (l_first s + 1) |> <| l_dropped := u32 (l_dropped s + 1) |>).

(** The loop that makes room; a record takes two bytes at least. *)
Fixpoint make_room (fuel : nat) (need : nat) : M unit :=
  match fuel with
  | O => mret tt
  | S fuel' => s ← gets id; if (RING_SIZE - l_used s <? need)%nat then pop_oldest;; make_room fuel' need else mret tt
  end.

Definition add_wallclock (line : cstr) (cap : nat) : M cstr :=
  match prefix_close line with
  | None => mret line
  | Some close => iso ← query (p_wallclock 32); mret (add_wallclock_text line iso cap close)
  end.

Definition push (line : cstr) : M unit :=
  line ← (if WALLCLOCK && (length line <? LOG_LINE_MAX)%nat then add_wallclock line (LOG_LINE_MAX + 32) else mret line);
  let line := take LOG_LINE_MAX line in
  let need := (2 + length line)%nat in
  s ← gets id;
  make_room (S (l_used s)) need;;
  mods (fun s =>
    let b := ring_write (l_tail s) (u16_bytes (u16 (Z.of_nat (length line)))) (buf_of s) in
    let b := ring_write ((l_tail s + 2) mod RING_SIZE)%nat line b in
    s <| l_buf := Some b |> <| l_tail := ((l_tail s + need) mod RING_SIZE)%nat |> <| l_used := (l_used s + need)%nat |>
      <| l_next := u32 (l_next s + 1) |> <| l_dirty := true |>).

(** The loop of the hook over the bytes of a call. *)
Fixpoint gather (bytes : cstr) : M unit :=
  match bytes with
  | [] => mret tt
  | c :: bytes' =>
      (if c =? 10 then
         s ← gets id;
         let line := trim_cr (l_partial s) in
         (if (0 <? length line)%nat then push line else mret tt);;
         mods (fun s => s <| l_partial := [] |>)
       else mods (fun s => if (length (l_partial s) <? LOG_LINE_MAX)%nat then s <| l_partial := l_partial s ++ [c] |> else s));;
      gather bytes'
  end.

(** [text]: what the format and its arguments print; [raw] holds what fits. *)
Definition hook (text : cstr) : M unit :=
  s ← gets id;
  (if (0 <? length text)%nat && bool_decide (is_Some (l_buf s)) then
     let raw := take LOG_LINE_MAX text in
     let truncated := (LOG_LINE_MAX + 1 <=? length text)%nat in
     let clean := strip_ansi raw in
     ok ← query (p_try_lock 20);
     if ok : bool then gather (clean ++ (if truncated then [10] else [])) else mret tt
   else mret tt);;
  s ← gets id;
  match l_prev s with Some p => emit (OForward p text) | None => mret tt end.

Definition timer_cb : M unit :=
  ok ← query (p_try_lock 50);
  if negb ok then mret tt
  else
    s ← gets id;
    if l_dirty s then
      mods (fun s => s <| l_dirty := false |>);;
      match l_notify s with Some cb => emit (ONotified cb (l_next s)) | None => mret tt end
    else mret tt.

Definition espos_log_init : M esp_err_t :=
  s ← gets id;
  match l_buf s with
  | Some _ => mret ESP_OK
  | None =>
      lock ← query p_mutex;
      buf ← query p_ring;
      mods (fun s => s <| l_lock := lock |> <| l_buf := buf |>);;
      if negb lock || negb (bool_decide (is_Some buf)) then
        (match buf with Some _ => emit OFreeRing | None => mret tt end);;
        mods (fun s => s <| l_buf := None |>);; mret ESP_ERR_NO_MEM
      else
        mods (fun s => s <| l_head := 0%nat |> <| l_tail := 0%nat |> <| l_used := 0%nat |> <| l_first := 1 |> <| l_next := 1 |> <| l_dropped := 0 |>);;
        timer ← query p_timer;
        mods (fun s => s <| l_timer := timer |>);;
        started ← (if timer : bool then query p_timer_start else mret false);
        if negb started then emit OFreeRing;; mods (fun s => s <| l_buf := None |>);; mret ESP_ERR_NO_MEM
        else
          prev ← call (p_set_vprintf (Some HOOK)) (fun _ => OHook (Some HOOK));
          mods (fun s => s <| l_prev := prev |>);;
          mret ESP_OK
  end.

(** [None] as the hook to set is the C library's [vprintf]; the timer is stopped and
    deleted with the ring. *)
Definition espos_log_deinit : M unit :=
  s ← gets id;
  match l_buf s with
  | None => mret tt
  | Some _ =>
      call (p_set_vprintf (l_prev s)) (fun _ => OHook (l_prev s));;
      mods (fun s => s <| l_buf := None |>);;
      emit OFreeRing
  end.

Definition espos_log_stats (s : log) : espos_log_stats_t :=
  match l_buf s with
  | None => LogStats 0 0 0 RING_SIZE 0
  | Some _ => LogStats (l_first s) (l_next s) (l_used s) RING_SIZE (l_dropped s)
  end.

(** The loop over the records from [seq] at [off]; it runs [fuel] times at most.
    [cb] is the caller's function on a state of its own. *)
Fixpoint read_from {A} (cb : A -> Z -> cstr -> bool * A) (b : list Z) (next after : Z) (limit : nat) (fuel : nat) (seq : Z) (off visited : nat) (a : A) : nat * A :=
  match fuel with
  | O => (visited, a)
  | S fuel' =>
      if negb (seq <? next) then (visited, a)
      else
        let len := rec_len_at off b in
        let text := ((off + 2) mod RING_SIZE)%nat in
        let off' := ((text + len) mod RING_SIZE)%nat in
        if 0 <? i32 (u32 (seq - after)) then
          let '(go, a) := cb a seq (ring_read text len b) in
          let visited := S visited in
          if negb go || (negb (Nat.eqb limit 0) && (limit <=? visited)%nat) then (visited, a)
          else read_from cb b next after limit fuel' (u32 (seq + 1)) off' visited a
        else read_from cb b next after limit fuel' (u32 (seq + 1)) off' visited a
  end.

Definition espos_log_read {A} (after : Z) (limit : nat) (cb : A -> Z -> cstr -> bool * A) (s : log) (a : A) : nat * A :=
  match l_buf s with
  | None => (0%nat, a)
  | Some b => read_from cb b (l_next s) after limit (Z.to_nat (l_next s - l_first s)) (l_first s) (l_head s) 0 a
  end.

Definition espos_log_set_notify (cb : option Z) (s : log) : log := if l_lock s then s <| l_notify := cb |> else s.

Definition espos_log_set_level (tag level : option cstr) : M esp_err_t :=
  match tag, level with
  | Some tag, Some level =>
      if byte0 tag =? 0 then mret ESP_ERR_INVALID_ARG
      else match List.find (fun l => strcaseeq l.1 level) LEVELS with
           | Some l => emit (OLevel tag l.2);; mret ESP_OK
           | None => mret ESP_ERR_INVALID_ARG
           end
  | _, _ => mret ESP_ERR_INVALID_ARG
  end.
End LogRing.
