(* ===== verification/LogProps.v ===== *)
(** Correctness of the log ring ([Log]): the bytes of the ring are the records of a
    bounded queue of lines with consecutive numbers, reads give exactly the lines
    asked for, and the hook stores the lines of the output however it is cut into
    calls. *)
From Stdlib Require Import ZArith Lia String.
From stdpp Require Import base list numbers option.
From S2P Require Import Prelude ConfigDesc Log.
Open Scope Z_scope.

Section Circle.
Context {C : LogConf}.

Lemma ring_size_pos : (0 < RING_SIZE)%nat.
Proof. pose proof RING_SIZE_range. lia. Qed.

(** ** Bytes around the ring *)

(** [n] bytes from [off] on, around the end. *)
Definition circ (b : list Z) (off n : nat) : list Z := (fun i => nth ((off + i) mod RING_SIZE)%nat b 0) <$> seq 0 n.

Lemma circ_length b off n : length (circ b off n) = n.
Proof. unfold circ. by rewrite length_fmap, length_seq. Qed.

Lemma circ_mod b off n : circ b (off mod RING_SIZE) n = circ b off n.
Proof. unfold circ. apply list_fmap_ext. intros i x _. by rewrite Nat.Div0.add_mod_idemp_l. Qed.

Lemma circ_app b off n m : circ b off (n + m) = circ b off n ++ circ b (off + n) m.
Proof.
  unfold circ. rewrite seq_app, fmap_app. f_equal. replace (seq (0 + n) m) with (Nat.add n <$> seq 0 m) by (rewrite fmap_add_seq; f_equal; lia). rewrite <- list_fmap_compose. apply list_fmap_ext. intros i x _. cbn. do 2 f_equal. lia.
Qed.

Lemma circ_linear b off n : length b = RING_SIZE -> (off + n <= RING_SIZE)%nat -> circ b off n = take n (drop off b).
Proof.
  intros Hb. revert off. induction n as [|n IH]; intros off Hn; [done|]. change (S n) with (1 + n)%nat. rewrite circ_app, IH by lia.
  destruct (lookup_lt_is_Some_2 b off ltac:(lia)) as [x Hx]. rewrite (drop_S b x off Hx). cbn [take Nat.add]. unfold circ. cbn. rewrite Nat.add_0_r, Nat.mod_small by lia.
  rewrite nth_lookup, Hx. cbn. by rewrite Nat.add_1_r.
Qed.

Lemma ring_read_circ b off n : length b = RING_SIZE -> (off < RING_SIZE)%nat -> (n <= RING_SIZE)%nat -> ring_read off n b = circ b off n.
Proof.
  intros Hb Ho Hn. unfold ring_read. destruct (Nat.leb_spec n (RING_SIZE - off)); [by rewrite circ_linear by lia|].
  replace n with ((RING_SIZE - off) + (n - (RING_SIZE - off)))%nat at 2 by lia. rewrite circ_app. f_equal; [by rewrite circ_linear by lia|].
  rewrite <- circ_mod. replace (off + (RING_SIZE - off))%nat with RING_SIZE by lia. rewrite Nat.Div0.mod_same, circ_linear by lia. by rewrite drop_0.
Qed.

Lemma mem_put_length off p b : (off + length p <= length b)%nat -> length (mem_put off p b) = length b.
Proof. intros Hl. unfold mem_put. rewrite !length_app, length_take, length_drop. lia. Qed.

(** Writing: the circle from [off] on is what is written and then the old bytes. *)
Lemma ring_write_circ b off p : length b = RING_SIZE -> (off < RING_SIZE)%nat -> (length p <= RING_SIZE)%nat ->
  length (ring_write off p b) = RING_SIZE /\ circ (ring_write off p b) off RING_SIZE = p ++ circ b (off + length p) (RING_SIZE - length p).
Proof.
  intros Hb Ho Hp. assert (Hrot : forall b', length b' = RING_SIZE -> circ b' off RING_SIZE = drop off b' ++ take off b').
  { intros b' Hb'. replace RING_SIZE with ((RING_SIZE - off) + off)%nat at 1 by lia. rewrite circ_app, (circ_linear b' off) by lia. rewrite (take_ge (drop off b')) by (rewrite length_drop; lia). f_equal.
    rewrite <- circ_mod. replace (off + (RING_SIZE - off))%nat with RING_SIZE by lia. by rewrite Nat.Div0.mod_same, circ_linear, drop_0 by lia. }
  unfold ring_write. destruct (Nat.leb_spec (length p) (RING_SIZE - off)) as [Hf|Hf].
  - assert (Hl : length (mem_put off p b) = RING_SIZE) by (rewrite mem_put_length; lia). split; [done|]. rewrite Hrot by done. unfold mem_put.
    rewrite drop_app_length', take_app_length' by (rewrite length_take; lia). rewrite <- app_assoc. f_equal.
    replace (RING_SIZE - length p)%nat with ((RING_SIZE - (off + length p)) + off)%nat by lia. rewrite circ_app, (circ_linear b (off + length p)) by lia. rewrite (take_ge (drop (off + length p) b)) by (rewrite length_drop; lia). f_equal.
    rewrite <- circ_mod. replace (off + length p + (RING_SIZE - (off + length p)))%nat with RING_SIZE by lia. by rewrite Nat.Div0.mod_same, circ_linear, drop_0 by lia.
  - remember (RING_SIZE - off)%nat as f eqn:Ef. assert (H1 : mem_put off (take f p) b = take off b ++ take f p).
    { unfold mem_put. rewrite (drop_ge b) by (rewrite length_take; lia). by rewrite app_nil_r. }
    assert (Hl : length (mem_put 0 (drop f p) (mem_put off (take f p) b)) = RING_SIZE).
    { rewrite mem_put_length; rewrite H1, length_app, !length_take; [lia|]. rewrite length_drop. lia. }
    split; [done|]. rewrite Hrot by done. rewrite H1. unfold mem_put. rewrite take_0. cbn [Nat.add app]. rewrite length_drop. rewrite (drop_app_le (take off b)); [|rewrite length_take; lia].
    set (mid := drop (length p - f) (take off b)). assert (Hm : length (drop f p ++ mid) = off) by (subst mid; rewrite length_app, !length_drop, length_take; lia).
    rewrite app_assoc, drop_app_length', take_app_length' by (symmetry; exact Hm). rewrite app_assoc, take_drop. f_equal. subst mid.
    rewrite <- circ_mod. replace (off + length p)%nat with ((length p - f) + 1 * RING_SIZE)%nat by lia. rewrite Nat.Div0.mod_add, Nat.mod_small, circ_linear by lia.
    rewrite take_drop_commute. f_equal. f_equal. lia.
Qed.

(** Bytes elsewhere stay. *)
Lemma ring_write_other b off p k n : length b = RING_SIZE -> (off < RING_SIZE)%nat -> (length p <= k)%nat -> (k + n <= RING_SIZE)%nat ->
  circ (ring_write off p b) (off + k) n = circ b (off + k) n.
Proof.
  intros Hb Ho Hk Hn. destruct (ring_write_circ b off p Hb Ho ltac:(lia)) as [Hl Hw]. replace RING_SIZE with (length p + ((k - length p) + (n + (RING_SIZE - k - n))))%nat in Hw at 1 by lia.
  replace (RING_SIZE - length p)%nat with ((k - length p) + (n + (RING_SIZE - k - n)))%nat in Hw by lia. rewrite !circ_app in Hw.
  apply app_inj_1 in Hw as [_ Hw]; [|by rewrite circ_length]. apply app_inj_1 in Hw as [_ Hw]; [|by rewrite !circ_length]. apply app_inj_1 in Hw as [Hw _]; [|by rewrite !circ_length].
  by replace (off + length p + (k - length p))%nat with (off + k)%nat in Hw by lia.
Qed.

Lemma ring_write_same b off p : length b = RING_SIZE -> (off < RING_SIZE)%nat -> (length p <= RING_SIZE)%nat -> circ (ring_write off p b) off (length p) = p.
Proof.
  intros Hb Ho Hp. destruct (ring_write_circ b off p Hb Ho Hp) as [_ Hw]. replace RING_SIZE with (length p + (RING_SIZE - length p))%nat in Hw at 1 by lia. rewrite circ_app in Hw.
  apply app_inj_1 in Hw as [Hw _]; [done|by rewrite circ_length].
Qed.

Lemma circ_congr b x y n : (x mod RING_SIZE = y mod RING_SIZE)%nat -> circ b x n = circ b y n.
Proof. intros E. by rewrite <- (circ_mod b x), E, circ_mod. Qed.

(** A record written behind [used] bytes from [head] on: they stay, and it follows. *)
Lemma write_record b h u t line : length b = RING_SIZE -> (h < RING_SIZE)%nat -> (u + 2 + length line <= RING_SIZE)%nat -> t = ((h + u) mod RING_SIZE)%nat ->
  forall lb, length lb = 2%nat ->
  let b2 := ring_write ((t + 2) mod RING_SIZE)%nat line (ring_write t lb b) in
  length b2 = RING_SIZE /\ circ b2 h (u + (2 + length line)) = circ b h u ++ lb ++ line.
Proof.
  intros Hb Hh Hfit -> lb Hlb. pose proof ring_size_pos as HR. set (t := ((h + u) mod RING_SIZE)%nat). assert (Ht : (t < RING_SIZE)%nat) by (apply Nat.mod_upper_bound; lia).
  set (o := ((t + 2) mod RING_SIZE)%nat). assert (Ho : (o < RING_SIZE)%nat) by (apply Nat.mod_upper_bound; lia). set (b1 := ring_write t lb b). cbv zeta.
  destruct (ring_write_circ b t lb Hb Ht ltac:(lia)) as [H1 _]. fold b1 in H1. destruct (ring_write_circ b1 o line H1 Ho ltac:(lia)) as [H2 _]. split; [done|].
  assert (Eo : forall k, ((o + k) mod RING_SIZE = (h + u + 2 + k) mod RING_SIZE)%nat).
  { intros k. subst o t. rewrite Nat.Div0.add_mod_idemp_l, <- Nat.add_assoc, Nat.Div0.add_mod_idemp_l. f_equal. lia. }
  assert (Et : forall k, ((t + k) mod RING_SIZE = (h + u + k) mod RING_SIZE)%nat) by (intros k; subst t; by rewrite Nat.Div0.add_mod_idemp_l).
  assert (Ew : forall x, ((x + RING_SIZE) mod RING_SIZE = x mod RING_SIZE)%nat) by (intros x; rewrite <- (Nat.mul_1_l RING_SIZE) at 1; apply Nat.Div0.mod_add).
  rewrite circ_app, circ_app. f_equal; [|f_equal].
  - rewrite (circ_congr _ h (o + (RING_SIZE - 2 - u))), ring_write_other; [|done|done|lia|lia|].
    2:{ rewrite Eo, <- (Ew h). f_equal. lia. }
    rewrite (circ_congr _ _ (t + (RING_SIZE - u))). { unfold b1. rewrite ring_write_other; [|done|done|lia|lia]. apply circ_congr. rewrite Et, <- (Ew h). f_equal. lia. }
    rewrite Eo, Et. f_equal. lia.
  - rewrite (circ_congr _ (h + u) (o + (RING_SIZE - 2))), ring_write_other; [|done|done|lia|lia|].
    2:{ rewrite Eo, <- (Ew (h + u)%nat). f_equal. lia. }
    rewrite (circ_congr _ _ t). { unfold b1. rewrite <- Hlb. apply ring_write_same; [done|done|lia]. }
    rewrite Eo. replace (h + u + 2 + (RING_SIZE - 2))%nat with (h + u + RING_SIZE)%nat by lia. rewrite Ew. subst t. by rewrite Nat.Div0.mod_mod.
  - rewrite (circ_congr _ (h + u + 2) o). { apply ring_write_same; [done|done|lia]. } rewrite <- (Nat.add_0_r o), Eo. f_equal. lia.
Qed.

(** ** Records *)

Definition rec_bytes (r : cstr) : list Z := u16_bytes (u16 (Z.of_nat (length r))) ++ r.
Definition content (recs : list cstr) : list Z := recs ≫= rec_bytes.

Lemma rec_bytes_length r : length (rec_bytes r) = (2 + length r)%nat.
Proof. unfold rec_bytes. by rewrite length_app. Qed.

Lemma u16_bytes_of n : (n <= LOG_LINE_MAX)%nat -> Z.to_nat (u16_of (u16_bytes (u16 (Z.of_nat n)))) = n.
Proof. intros Hn. pose proof LOG_LINE_MAX_range. unfold u16_of, u16_bytes, u16, u8. rewrite (Z.mod_small (Z.of_nat n)) by lia. div_lia. Qed.

(** The ring holds the records [recs], oldest first. *)
Record ring_rep (s : log) (recs : list cstr) : Prop := RingRep {
  rr_buf : is_Some (l_buf s);
  rr_len : length (buf_of s) = RING_SIZE;
  rr_head : (l_head s < RING_SIZE)%nat;
  rr_used : l_used s = length (content recs);
  rr_fit : (l_used s <= RING_SIZE)%nat;
  rr_tail : l_tail s = ((l_head s + l_used s) mod RING_SIZE)%nat;
  rr_circ : circ (buf_of s) (l_head s) (l_used s) = content recs;
  rr_lines : Forall (fun r => (length r <= LOG_LINE_MAX)%nat) recs }.

Lemma content_cons r recs : content (r :: recs) = rec_bytes r ++ content recs.
Proof. apply bind_cons. Qed.
Lemma content_app r1 r2 : content (r1 ++ r2) = content r1 ++ content r2.
Proof. apply bind_app. Qed.

Lemma circ_parts b off n A B : circ b off n = A ++ B -> circ b off (length A) = A /\ circ b (off + length A) (length B) = B.
Proof.
  intros E. assert (n = length A + length B)%nat as -> by (rewrite <- length_app, <- E; by rewrite circ_length). rewrite circ_app in E. apply app_inj_1 in E; [done|by rewrite circ_length].
Qed.

(** A record where a reader finds it: its length, its text, and the next. *)
Lemma record_at b off r R : length b = RING_SIZE -> (off < RING_SIZE)%nat -> (length r <= LOG_LINE_MAX)%nat -> (length (rec_bytes r ++ R) <= RING_SIZE)%nat ->
  circ b off (length (rec_bytes r ++ R)) = rec_bytes r ++ R ->
  rec_len_at off b = length r /\ ring_read ((off + 2) mod RING_SIZE)%nat (length r) b = r /\ circ b (off + 2 + length r) (length R) = R.
Proof.
  intros Hb Ho Hr Hfit E. pose proof ring_size_pos. apply circ_parts in E as [E1 E2]. rewrite rec_bytes_length in E2. rewrite length_app, rec_bytes_length in Hfit.
  unfold rec_bytes in E1. apply circ_parts in E1 as [E1 E3]. change (length (u16_bytes (u16 (Z.of_nat (length r))))) with 2%nat in *. split_and!.
  - unfold rec_len_at. rewrite ring_read_circ by lia. rewrite E1. by apply u16_bytes_of.
  - rewrite ring_read_circ, circ_mod; [done|done|by apply Nat.mod_upper_bound; lia|lia].
  - by rewrite Nat.add_assoc in E2.
Qed.

(** ** The operations on the records *)

Definition evict (need : nat) : list cstr -> list cstr :=
  fix go recs := match recs with [] => [] | r :: rs => if (RING_SIZE - length (content recs) <? need)%nat then go rs else recs end.
Definition store (recs : list cstr) (line : cstr) : list cstr := evict (2 + length line) recs ++ [line].

(** Numbers: the first of the ring, the next, and the count of the lost. *)
Definition numbers (s : log) (lost : nat) (recs : list cstr) : Prop :=
  l_first s = u32 (1 + Z.of_nat lost) /\ l_next s = u32 (1 + Z.of_nat (lost + length recs)) /\ l_dropped s = u32 (Z.of_nat lost).

Lemma evict_suffix need recs : exists dropped, recs = dropped ++ evict need recs.
Proof.
  induction recs as [|r recs [dr IH]]; [by exists []|]. cbn [evict]. destruct (_ <? need)%nat; [|by exists []]. exists (r :: dr). cbn. by rewrite <- IH.
Qed.

Lemma seq_succ x : u32 (u32 x + 1) = u32 (x + 1).
Proof. unfold u32. by rewrite Z.add_mod_idemp_l by done. Qed.
End Circle.

Section Ops.
Context {W : Type} {P : LogPort W} {C : LogConf}.
Abbreviation St := (mach log W log_obs).

(** What the ring's own operations leave alone. *)
Definition others (s : log) : cstr * option Z * option Z * bool := (l_partial s, l_prev s, l_notify s, l_lock s).

Lemma pop_oldest_rep r recs lost (s : St) : ring_rep (m_sm s) (r :: recs) -> numbers (m_sm s) lost (r :: recs) ->
  wp pop_oldest (fun _ s' => ring_rep (m_sm s') recs /\ numbers (m_sm s') (S lost) recs /\ others (m_sm s') = others (m_sm s) /\ m_world s' = m_world s /\ m_trace s' = m_trace s) s.
Proof.
  intros [Hb Hl Hh Hu Hf Ht Hc Hr] (N1 & N2 & N3). apply list.Forall_cons in Hr as [Hr1 Hr2]. pose proof ring_size_pos. rewrite content_cons in Hc, Hu. pose proof Hc as Hc0. rewrite Hu in Hc0.
  destruct (record_at (buf_of (m_sm s)) (l_head (m_sm s)) r (content recs) Hl Hh Hr1 ltac:(lia) Hc0) as (E1 & _ & E3). rewrite length_app, rec_bytes_length in Hu.
  unfold pop_oldest. wp_step. rewrite E1. set (s' := (m_sm s) <| l_head := _ |> <| l_used := _ |> <| l_first := _ |> <| l_dropped := _ |>).
  assert (Hn : numbers s' (S lost) recs).
  { split_and!.
    - transitivity (u32 (l_first (m_sm s) + 1)); [done|]. rewrite N1, seq_succ. f_equal. lia.
    - transitivity (l_next (m_sm s)); [done|]. rewrite N2. f_equal. cbn [length]. lia.
    - transitivity (u32 (l_dropped (m_sm s) + 1)); [done|]. rewrite N3, seq_succ. f_equal. lia. }
  split; [|split; [exact Hn|done]]. assert (Eu : l_used s' = length (content recs)) by (transitivity (l_used (m_sm s) - (2 + length r))%nat; [done|lia]).
  assert (Eh : l_head s' = ((l_head (m_sm s) + 2 + length r) mod RING_SIZE)%nat) by done.
  apply (RingRep s'); [exact Hb|exact Hl|rewrite Eh; apply Nat.mod_upper_bound; lia|exact Eu|lia| | |exact Hr2].
  - rewrite Eu, Eh, Nat.Div0.add_mod_idemp_l. transitivity (l_tail (m_sm s)); [done|]. rewrite Ht, Hu. f_equal. lia.
  - rewrite Eu, Eh, circ_mod. exact E3.
Qed.

Lemma make_room_rep fuel need recs lost (s : St) : (need <= RING_SIZE)%nat -> ring_rep (m_sm s) recs -> numbers (m_sm s) lost recs -> (length recs < fuel)%nat ->
  wp (make_room fuel need) (fun _ s' => ring_rep (m_sm s') (evict need recs) /\ numbers (m_sm s') (lost + (length recs - length (evict need recs))) (evict need recs) /\ others (m_sm s') = others (m_sm s) /\
    m_world s' = m_world s /\ m_trace s' = m_trace s /\ (l_used (m_sm s') + need <= RING_SIZE)%nat) s.
Proof.
  intros Hn. revert recs lost s. induction fuel as [|fuel IH]; intros recs lost s Hr Hnum Hf; [lia|]. cbn [make_room]. do 2 wp_step. unfold id. rewrite (rr_used _ _ Hr).
  destruct recs as [|r recs]; cbn [evict].
  - change (content []) with (@nil Z). cbn [length]. destruct (Nat.ltb_spec (RING_SIZE - 0) need); [lia|]. wp_step. rewrite Nat.add_0_r. split; [done|]. split; [done|]. split_and!; try done. rewrite (rr_used _ _ Hr). cbn. lia.
  - destruct (Nat.ltb_spec (RING_SIZE - length (content (r :: recs))) need) as [E|E].
    + wp_step. eapply wp_mono; [by apply (pop_oldest_rep r recs lost)|]. intros _ s1 (H1 & H2 & H3 & H4 & H5). cbn beta. eapply wp_mono; [apply (IH recs (S lost) s1 H1 H2); cbn in Hf; lia|].
      intros _ s2 (G1 & G2 & G3 & G4 & G5 & G6). fold (evict need) in *. split; [done|]. split; [|split_and!; congruence || done].
      destruct (evict_suffix need recs) as [dr Edr]. assert (length (evict need recs) <= length recs)%nat by (rewrite Edr at 2; rewrite length_app; lia). cbn [length].
      replace (lost + (S (length recs) - length (evict need recs)))%nat with (S lost + (length recs - length (evict need recs)))%nat by lia. apply G2.
    + wp_step. rewrite Nat.sub_diag, Nat.add_0_r. split; [done|]. split; [done|]. split_and!; try done. pose proof (rr_used _ _ Hr). pose proof (rr_fit _ _ Hr). lia.
Qed.

(** The line as it is stored: stamped if it has the prefix and there is a time for
    it, and cut. *)
Definition stamped_line (line iso : cstr) : cstr :=
  if WALLCLOCK && (length line <? LOG_LINE_MAX)%nat then
    match prefix_close line with Some close => add_wallclock_text line iso (LOG_LINE_MAX + 32) close | None => line end
  else line.
(** ... with an answer of the clock. *)
Definition stores (line line' : cstr) : Prop := exists w, line' = take LOG_LINE_MAX (stamped_line line (p_wallclock 32 w).1).

Lemma push_rep line recs lost (s : St) : ring_rep (m_sm s) recs -> numbers (m_sm s) lost recs ->
  wp (push line) (fun _ s' => exists line', stores line line' /\ ring_rep (m_sm s') (store recs line') /\
    numbers (m_sm s') (lost + (length recs + 1 - length (store recs line'))) (store recs line') /\ others (m_sm s') = others (m_sm s) /\ m_trace s' = m_trace s /\ l_dirty (m_sm s') = true) s.
Proof.
  intros Hr Hn. unfold push. wp_step.
  apply (wp_mono _ (fun l s1 => exists w, l = stamped_line line (p_wallclock 32 w).1 /\ m_sm s1 = m_sm s /\ m_trace s1 = m_trace s)).
  { unfold stamped_line. destruct (WALLCLOCK && (length line <? LOG_LINE_MAX)%nat); [|wp_step; by exists (m_world s)]. unfold add_wallclock. destruct (prefix_close line); [|wp_step; by exists (m_world s)].
    wp_step. unfold wp, query. exists (m_world s). by destruct (p_wallclock 32 (m_world s)). }
  intros l s1 (w & -> & Es & Et). cbn beta. do 2 wp_step. unfold id. rewrite Es. set (ln := take LOG_LINE_MAX (stamped_line line (p_wallclock 32 w).1)).
  assert (Hln : (length ln <= LOG_LINE_MAX)%nat) by (subst ln; rewrite length_take; lia). pose proof LOG_LINE_MAX_range. pose proof RING_SIZE_range.
  assert (Hcnt : (length recs <= l_used (m_sm s))%nat).
  { rewrite (rr_used _ _ Hr). clear. induction recs as [|r recs IH]; [done|]. rewrite content_cons, length_app, rec_bytes_length. cbn [length]. lia. }
  wp_step. eapply wp_mono; [apply (make_room_rep _ (2 + length ln) recs lost s1); [lia|by rewrite Es|by rewrite Es|lia]|].
  intros _ s2 ([Hb Hl Hh Hu Hf Ht Hc Hrl] & Hn2 & Ho2 & _ & Ht2 & Hroom). cbn beta. wp_step. exists ln. set (kq := evict (2 + length ln) recs) in *.
  set (lb := u16_bytes (u16 (Z.of_nat (length ln)))).
  destruct (write_record (buf_of (m_sm s2)) (l_head (m_sm s2)) (l_used (m_sm s2)) (l_tail (m_sm s2)) ln Hl Hh ltac:(lia) Ht lb eq_refl) as [Hw1 Hw2].
  set (s' := (m_sm s2) <| l_buf := _ |> <| l_tail := _ |> <| l_used := _ |> <| l_next := _ |> <| l_dirty := _ |>).
  assert (Econt : content (store recs ln) = content kq ++ lb ++ ln) by (unfold store; fold kq; rewrite content_app; by rewrite content_cons, app_nil_r).
  assert (Eu : l_used s' = (l_used (m_sm s2) + (2 + length ln))%nat) by done. destruct (evict_suffix (2 + length ln) recs) as [dr Edr]. fold kq in Edr.
  assert (Hlen : length recs = (length dr + length kq)%nat) by (rewrite Edr at 1; by rewrite length_app).
  assert (Hst : length (store recs ln) = (length kq + 1)%nat) by (unfold store; fold kq; by rewrite length_app).
  split; [by exists w|]. split; [|split; [|split_and!; [by rewrite <- Es, <- Ho2|by rewrite <- Et, <- Ht2|done]]].
  - apply (RingRep s'); [by eexists|exact Hw1|exact Hh| | | | |].
    + rewrite Eu, Econt, length_app, Hu. done.
    + rewrite Eu. lia.
    + transitivity ((l_tail (m_sm s2) + (2 + length ln)) mod RING_SIZE)%nat; [done|]. rewrite Eu, Ht, Nat.Div0.add_mod_idemp_l. transitivity ((l_head (m_sm s2) + (l_used (m_sm s2) + (2 + length ln))) mod RING_SIZE)%nat; [f_equal; lia|done].
    + rewrite Eu, Econt, <- Hc. exact Hw2.
    + unfold store. fold kq. apply list.Forall_app. split; [done|]. by constructor.
  - destruct Hn2 as (N1 & N2 & N3). rewrite Hst, Hlen. split_and!.
    + transitivity (l_first (m_sm s2)); [done|]. rewrite N1. f_equal. lia.
    + transitivity (u32 (l_next (m_sm s2) + 1)); [done|]. rewrite N2, seq_succ. f_equal. rewrite Hst. lia.
    + transitivity (l_dropped (m_sm s2)); [done|]. rewrite N3. f_equal. lia.
Qed.

(** ** Lines of a stream *)

(** The segments of [bytes] that a newline ends, [cur] in front of the first, and
    what follows the last newline. *)
Fixpoint cut_lines (cur bytes : cstr) : list cstr * cstr :=
  match bytes with
  | [] => ([], cur)
  | c :: bytes' => if c =? 10 then let '(ls, r) := cut_lines [] bytes' in (cur :: ls, r) else cut_lines (cur ++ [c]) bytes'
  end.
(** The line of a segment, and the lines that are stored. *)
Definition line_of (seg : cstr) : cstr := trim_cr (take LOG_LINE_MAX seg).
Definition some_lines (segs : list cstr) : list cstr := List.filter (fun l => (0 <? length l)%nat) (line_of <$> segs).

Lemma cut_lines_app cur a b :
  cut_lines cur (a ++ b) = (((cut_lines cur a).1 ++ (cut_lines (cut_lines cur a).2 b).1), (cut_lines (cut_lines cur a).2 b).2).
Proof.
  revert cur. induction a as [|c a IH]; intros cur; cbn [app cut_lines]; [cbn [fst snd app]; by destruct (cut_lines cur b)|]. destruct (c =? 10); [|apply IH]. rewrite IH. by destruct (cut_lines [] a).
Qed.

(** What [bytes] do to a ring of [recs] with [lost] gone, given what they store. *)
Definition gathered (lost : nat) (recs stored : list cstr) (partial : cstr) (s : log) : Prop :=
  ring_rep s (foldl store recs stored) /\ l_partial s = partial /\
  exists lost', numbers s lost' (foldl store recs stored) /\ (lost' + length (foldl store recs stored) = lost + length recs + length stored)%nat.

Definition wiring (s : log) : option Z * option Z * bool := (l_prev s, l_notify s, l_lock s).

Lemma store_length recs line : (length (store recs line) <= length recs + 1)%nat.
Proof. unfold store. destruct (evict_suffix (2 + length line) recs) as [dr E]. rewrite length_app. cbn [length]. rewrite E at 2. rewrite length_app. lia. Qed.

Lemma rep_same s s' recs : ring_rep s recs -> l_buf s' = l_buf s -> l_head s' = l_head s -> l_tail s' = l_tail s -> l_used s' = l_used s -> ring_rep s' recs.
Proof. intros [] E1 E2 E3 E4. assert (Eb : buf_of s' = buf_of s) by (unfold buf_of; by rewrite E1). split; rewrite ?Eb, ?E1, ?E2, ?E3, ?E4; done. Qed.

Lemma numbers_same s s' lost recs : numbers s lost recs -> l_first s' = l_first s -> l_next s' = l_next s -> l_dropped s' = l_dropped s -> numbers s' lost recs.
Proof. intros (N1 & N2 & N3) E1 E2 E3. split_and!; congruence. Qed.

Lemma gather_rep bytes : forall cur recs lost (s : St), ring_rep (m_sm s) recs -> numbers (m_sm s) lost recs -> l_partial (m_sm s) = take LOG_LINE_MAX cur ->
  wp (gather bytes) (fun _ s' => exists stored, Forall2 stores (some_lines (cut_lines cur bytes).1) stored /\
    gathered lost recs stored (take LOG_LINE_MAX (cut_lines cur bytes).2) (m_sm s') /\ wiring (m_sm s') = wiring (m_sm s) /\ m_trace s' = m_trace s) s.
Proof.
  induction bytes as [|c bytes IH]; intros cur recs lost s Hr Hn Hp; cbn [gather cut_lines].
  { wp_step. exists []. split; [constructor|]. split; [|done]. split; [done|]. split; [done|]. exists lost. split; [done|cbn; lia]. }
  wp_step. destruct (c =? 10).
  - do 2 wp_step. unfold id. wp_step. rewrite Hp. fold (line_of cur).
    apply (wp_mono _ (fun _ s1 => exists st1, Forall2 stores (some_lines [cur]) st1 /\ ring_rep (m_sm s1) (foldl store recs st1) /\
             (exists lost1, numbers (m_sm s1) lost1 (foldl store recs st1) /\ (lost1 + length (foldl store recs st1) = lost + length recs + length st1)%nat) /\ wiring (m_sm s1) = wiring (m_sm s) /\ m_trace s1 = m_trace s)).
    { unfold some_lines. cbn [fmap list_fmap List.filter]. destruct (0 <? length (line_of cur))%nat.
      - eapply wp_mono; [by apply push_rep|]. intros _ s1 (l' & Hst & Hr1 & Hn1 & Ho & Ht & _). exists [l']. split_and!; [by constructor|done| |by injection Ho as _ E1 E2 E3; unfold wiring; rewrite E1, E2, E3|done].
        eexists. split; [exact Hn1|]. cbn [foldl length]. pose proof (store_length recs l'). lia.
      - wp_step. exists []. split; [constructor|]. split; [done|]. split; [|done]. exists lost. split; [done|]. cbn. lia. }
    intros _ s1 (st1 & Hs1 & Hr1 & (lost1 & Hn1 & Hc1) & Hw1 & Ht1). cbn beta. wp_step.
    set (s1' := Mach _ (m_world s1) (m_trace s1)). eapply wp_mono; [apply (IH [] (foldl store recs st1) lost1 s1'); [by apply (rep_same (m_sm s1))|by apply (numbers_same (m_sm s1))|symmetry; apply take_nil]|].
    intros _ s2 (st2 & Hs2 & (Hr2 & Hp2 & lost2 & Hn2 & Hc2) & Hw2 & Ht2). destruct (cut_lines [] bytes) as [ls r]. cbn [fst snd] in *. exists (st1 ++ st2).
    split; [|split; [|split; [by rewrite Hw2|by rewrite Ht2]]].
    + change (cur :: ls) with ([cur] ++ ls). unfold some_lines. rewrite fmap_app, List.filter_app. by apply Forall2_app.
    + unfold gathered. rewrite foldl_app. split; [done|]. split; [done|]. exists lost2. split; [done|]. rewrite length_app. lia.
  - wp_step. set (s1 := Mach _ (m_world s) (m_trace s)). assert (Hs1 : ring_rep (m_sm s1) recs /\ numbers (m_sm s1) lost recs /\ wiring (m_sm s1) = wiring (m_sm s) /\ l_partial (m_sm s1) = take LOG_LINE_MAX (cur ++ [c])).
    { subst s1. cbn [m_sm]. assert (El : length (l_partial (m_sm s)) = (LOG_LINE_MAX `min` length cur)%nat) by (by rewrite Hp, length_take). rewrite El. destruct (Nat.ltb_spec (LOG_LINE_MAX `min` length cur) LOG_LINE_MAX) as [Hl|Hl].
      - split; [by apply (rep_same (m_sm s))|]. split; [by apply (numbers_same (m_sm s))|]. split; [done|].
        transitivity (l_partial (m_sm s) ++ [c]); [done|]. rewrite Hp, (take_ge (cur ++ [c])) by (rewrite length_app; cbn; lia). by rewrite take_ge by lia.
      - split; [done|]. split; [done|]. split; [done|]. rewrite Hp. by rewrite take_app_le by lia. }
    destruct Hs1 as (H1 & H2 & H3 & H4). eapply wp_mono; [by apply (IH (cur ++ [c]) recs lost s1)|]. intros _ s2 (st2 & G1 & G2 & G3 & G4). exists st2. split; [done|]. split; [done|]. split; [by rewrite G3|done].
Qed.

(** ** Calls of the hook *)

(** The bytes a call brings to the lines: without escapes, and ended when cut. *)
Definition call_bytes (text : cstr) : cstr := strip_ansi (take LOG_LINE_MAX text) ++ (if (LOG_LINE_MAX + 1 <=? length text)%nat then [10] else []).
Definition forwarded (prev : option Z) (text : cstr) : list log_obs := match prev with Some p => [OForward p text] | None => [] end.

Lemma hook_rep text cur recs lost (s : St) : ring_rep (m_sm s) recs -> numbers (m_sm s) lost recs -> l_partial (m_sm s) = take LOG_LINE_MAX cur ->
  wp (hook text) (fun _ s' => exists stored, let bytes := if (p_try_lock 20 (m_world s)).1 then call_bytes text else [] in
    Forall2 stores (some_lines (cut_lines cur bytes).1) stored /\ gathered lost recs stored (take LOG_LINE_MAX (cut_lines cur bytes).2) (m_sm s') /\
    wiring (m_sm s') = wiring (m_sm s) /\ m_trace s' = forwarded (l_prev (m_sm s)) text ++ m_trace s) s.
Proof.
  intros Hr Hn Hp. unfold hook. do 2 wp_step. unfold id. wp_step.
  apply (wp_mono _ (fun _ s1 => exists stored, let bytes := if (p_try_lock 20 (m_world s)).1 then call_bytes text else [] in
    Forall2 stores (some_lines (cut_lines cur bytes).1) stored /\ gathered lost recs stored (take LOG_LINE_MAX (cut_lines cur bytes).2) (m_sm s1) /\
    wiring (m_sm s1) = wiring (m_sm s) /\ m_trace s1 = m_trace s)).
  - assert (Hnone : exists stored, Forall2 stores (some_lines (cut_lines cur []).1) stored /\ gathered lost recs stored (take LOG_LINE_MAX (cut_lines cur []).2) (m_sm s)).
    { exists []. split; [constructor|]. split; [done|]. split; [done|]. exists lost. split; [done|cbn; lia]. }
    destruct (0 <? length text)%nat eqn:El; cbn [andb].
    + rewrite bool_decide_eq_true_2 by apply Hr. wp_step. unfold wp at 1, query. destruct (p_try_lock 20 (m_world s)) as [[] w]; cbn [fst snd].
      * set (s1 := Mach (m_sm s) w (m_trace s)). eapply wp_mono; [by apply (gather_rep _ cur recs lost s1)|]. intros _ s2 (st & G1 & G2 & G3 & G4). by exists st.
      * wp_step. destruct Hnone as (st & G1 & G2). by exists st.
    + apply Nat.ltb_ge in El. destruct text; [|cbn in El; lia]. wp_step. destruct Hnone as (st & G1 & G2). exists st.
      replace (if (p_try_lock 20 (m_world s)).1 then call_bytes [] else []) with (@nil Z); [done|].
      unfold call_bytes. rewrite take_nil. pose proof LOG_LINE_MAX_range. destruct (Nat.leb_spec (LOG_LINE_MAX + 1) (length (@nil Z))); [cbn in *; lia|]. by destruct (p_try_lock 20 (m_world s)).1.
  - intros _ s1 (st & G1 & G2 & G3 & G4). cbn beta. do 2 wp_step. unfold id. assert (Ep : l_prev (m_sm s1) = l_prev (m_sm s)) by (by injection G3). rewrite Ep.
    destruct (l_prev (m_sm s)); wp_step; exists st; cbn [m_sm m_trace forwarded app]; (split; [done|]); (split; [done|]); (split; [done|]); [by rewrite G4|done].
Qed.

Fixpoint hooks (texts : list cstr) : act log W log_obs unit :=
  match texts with [] => mret tt | t :: ts => hook t;; hooks ts end.

(** Which calls got the lock: the answers of the port as the run goes. *)
Fixpoint locked (texts : list cstr) (s : St) : list bool :=
  match texts with [] => [] | t :: ts => (p_try_lock 20 (m_world s)).1 :: locked ts (exec (hook t) s) end.

(** The bytes of the calls whose lock was had. *)
Definition heard (oks : list bool) (texts : list cstr) : cstr := concat (zip_with (fun (ok : bool) t => if ok then call_bytes t else []) oks texts).

Lemma hooks_rep texts : forall cur recs lost (s : St), ring_rep (m_sm s) recs -> numbers (m_sm s) lost recs -> l_partial (m_sm s) = take LOG_LINE_MAX cur ->
  wp (hooks texts) (fun _ s' => exists stored, Forall2 stores (some_lines (cut_lines cur (heard (locked texts s) texts)).1) stored /\
    gathered lost recs stored (take LOG_LINE_MAX (cut_lines cur (heard (locked texts s) texts)).2) (m_sm s') /\
    wiring (m_sm s') = wiring (m_sm s) /\ m_trace s' = reverse (texts ≫= forwarded (l_prev (m_sm s))) ++ m_trace s) s.
Proof.
  induction texts as [|t ts IH]; intros cur recs lost s Hr Hn Hp; cbn [hooks].
  { wp_step. exists []. split; [constructor|]. split; [|done]. split; [done|]. split; [done|]. exists lost. split; [done|cbn; lia]. }
  wp_step. pose proof (hook_rep t cur recs lost s Hr Hn Hp) as Hh. unfold wp at 1 in Hh. unfold wp at 1. cbn [locked]. change (exec (hook t) s) with (hook t s).2. destruct (hook t s) as [u s1]. cbn [fst snd] in *. destruct Hh as (st1 & G1 & (Gr & Gp & lost1 & Gn & Gc) & G3 & G4).
  set (ok := (p_try_lock 20 (m_world s)).1) in *. set (bytes := if ok then call_bytes t else []) in *.
  eapply wp_mono; [apply (IH (cut_lines cur bytes).2 (foldl store recs st1) lost1 s1); done|].
  intros _ s2 (st2 & K1 & (Kr & Kp & lost2 & Kn & Kc) & K3 & K4). exists (st1 ++ st2). set (oks := locked ts s1) in *.
  assert (Eh : heard (ok :: oks) (t :: ts) = bytes ++ heard oks ts) by done. rewrite Eh, cut_lines_app. cbn [fst snd]. split; [|split; [|split]].
  - unfold some_lines in *. rewrite fmap_app, List.filter_app. by apply Forall2_app.
  - unfold gathered. rewrite foldl_app. split; [done|]. split; [done|]. exists lost2. split; [done|]. rewrite length_app. lia.
  - by rewrite K3.
  - rewrite K4, G4. assert (Ep : l_prev (m_sm s1) = l_prev (m_sm s)) by (by injection G3). rewrite Ep, bind_cons, reverse_app, <- app_assoc. f_equal. by destruct (l_prev (m_sm s)).
Qed.

(** A ring as [espos_log_init] leaves it. *)
Definition fresh_log (s : log) : Prop := ring_rep s [] /\ numbers s 0 [] /\ l_partial s = [].

(** C19. However the output is cut into calls, the lines of the ring are those of
    the stream of exactly the calls to which the port gave the lock, without escape
    sequences: every line that a newline (or a cut call) ended, cut to the longest
    length, without its carriage returns, empty ones left out, stamped with an answer
    of the clock if it has the prefix and room for it. The bytes of the
    ring are exactly their records, the oldest gone where room was needed and no
    others, numbered without gaps from the first; and every call reaches the
    console whatever the lock did. *)
Theorem log_lines_exact texts (s : St) : fresh_log (m_sm s) ->
  let s' := exec (hooks texts) s in
  let lines := cut_lines [] (heard (locked texts s) texts) in
  exists stored, let recs := foldl store [] stored in
    Forall2 stores (some_lines lines.1) stored /\ ring_rep (m_sm s') recs /\ numbers (m_sm s') (length stored - length recs) recs /\
    l_partial (m_sm s') = take LOG_LINE_MAX lines.2 /\ m_trace s' = reverse (texts ≫= forwarded (l_prev (m_sm s))) ++ m_trace s.
Proof.
  intros (Hr & Hn & Hp) s' lines. assert (Hp' : l_partial (m_sm s) = take LOG_LINE_MAX []) by (by rewrite Hp, take_nil). pose proof (hooks_rep texts [] [] 0 s Hr Hn Hp') as Hw. unfold wp in Hw. fold (exec (hooks texts) s) in Hw. fold s' in Hw.
  destruct Hw as (st & H1 & (Gr & Gp & lost & Gn & Gc) & _ & H4). exists st. cbv zeta. split; [done|]. split; [done|].
  replace (length st - length (foldl store [] st))%nat with lost by (cbn in Gc; lia). done.
Qed.
End Ops.

(** ** Reading *)

Section Reading.
Context {C : LogConf}.

(** Lines with their numbers. *)
Fixpoint numbered (seq : Z) (recs : list cstr) : list (Z * cstr) :=
  match recs with [] => [] | r :: rs => (seq, r) :: numbered (seq + 1) rs end.
Definition newer (after : Z) (l : Z * cstr) : bool := 0 <? i32 (u32 (l.1 - after)).

(** The caller's function on a list of lines, until it or the limit says stop. *)
Fixpoint visit {A} (cb : A -> Z -> cstr -> bool * A) (limit n : nat) (ls : list (Z * cstr)) (a : A) : nat * A :=
  match ls with
  | [] => (n, a)
  | (q, t) :: ls' =>
      let '(go, a) := cb a q t in
      if negb go || (negb (Nat.eqb limit 0) && (limit <=? S n)%nat) then (S n, a) else visit cb limit (S n) ls' a
  end.

Lemma read_from_visit {A} (cb : A -> Z -> cstr -> bool * A) b after limit recs : forall seq off n a,
  length b = RING_SIZE -> (off < RING_SIZE)%nat -> (length (content recs) <= RING_SIZE)%nat -> Forall (fun r => (length r <= LOG_LINE_MAX)%nat) recs ->
  circ b off (length (content recs)) = content recs -> 0 <= seq -> seq + Z.of_nat (length recs) < 2 ^ 32 ->
  read_from cb b (seq + Z.of_nat (length recs)) after limit (length recs) seq off n a = visit cb limit n (List.filter (newer after) (numbered seq recs)) a.
Proof.
  pose proof ring_size_pos as HR. induction recs as [|r recs IH]; intros seq off n a Hb Ho Hf Hl Hc Hs Hw; [done|]. apply list.Forall_cons in Hl as [Hl1 Hl2]. rewrite content_cons in Hc, Hf.
  destruct (record_at b off r (content recs) Hb Ho Hl1 Hf Hc) as (E1 & E2 & E3). rewrite length_app, rec_bytes_length in Hf. cbn [length read_from numbered List.filter]. rewrite E1, E2.
  destruct (Z.ltb_spec seq (seq + Z.of_nat (S (length recs)))); [|lia]. cbn [negb]. change (newer after (seq, r)) with (0 <? i32 (u32 (seq - after))).
  assert (Enx : seq + Z.of_nat (S (length recs)) = (seq + 1) + Z.of_nat (length recs)) by lia. assert (Esq : u32 (seq + 1) = seq + 1) by (unfold u32; apply Z.mod_small; cbn [length] in Hw; lia).
  set (off' := (((off + 2) mod RING_SIZE + length r) mod RING_SIZE)%nat). assert (Eo : off' = ((off + 2 + length r) mod RING_SIZE)%nat) by (subst off'; by rewrite Nat.Div0.add_mod_idemp_l).
  assert (Hrec : forall n a, read_from cb b (seq + Z.of_nat (S (length recs))) after limit (length recs) (u32 (seq + 1)) off' n a = visit cb limit n (List.filter (newer after) (numbered (seq + 1) recs)) a).
  { intros n' a'. rewrite Enx, Esq. apply IH; try done; [rewrite Eo; apply Nat.mod_upper_bound; lia|lia|by rewrite Eo, circ_mod|lia|cbn [length] in Hw; lia]. }
  destruct (0 <? i32 (u32 (seq - after))); [|apply Hrec]. cbn [visit]. destruct (cb a seq r) as [go a']. destruct (negb go || _); [done|apply Hrec].
Qed.

(** C20. A read visits exactly the lines of the ring whose number is after the
    one given, oldest first, each with its number and its whole text, until the
    caller or the limit stops it; the result is how many. Below half the range of
    the numbers, after means greater. *)
Theorem log_read_exact {A} (cb : A -> Z -> cstr -> bool * A) s recs lost after limit a :
  ring_rep s recs -> numbers s lost recs -> Z.of_nat (lost + length recs) + 1 < 2 ^ 32 ->
  espos_log_read after limit cb s a = visit cb limit 0 (List.filter (newer after) (numbered (1 + Z.of_nat lost) recs)) a /\
  (0 <= after < 2 ^ 31 -> Z.of_nat (lost + length recs) + 1 < 2 ^ 31 -> forall l, l ∈ numbered (1 + Z.of_nat lost) recs -> newer after l = (after <? l.1)).
Proof.
  intros [[b Hb] Hl Hh Hu Hf Ht Hc Hr] (N1 & N2 & _) Hw. split.
  - unfold espos_log_read. rewrite Hb. unfold buf_of in *. rewrite Hb in *. cbn [default] in *. unfold u32 in N1, N2. rewrite Z.mod_small in N1, N2 by lia. rewrite N1, N2.
    replace (1 + Z.of_nat (lost + length recs)) with (1 + Z.of_nat lost + Z.of_nat (length recs)) by lia. replace (Z.to_nat (1 + Z.of_nat lost + Z.of_nat (length recs) - (1 + Z.of_nat lost))) with (length recs) by lia.
    apply read_from_visit; try done; [by rewrite <- Hu|by rewrite <- Hu|lia|lia].
  - intros Ha Hs l Hin. assert (Hlo : 0 < l.1 < 2 ^ 31).
    { assert (Hgen : forall seq rs, 0 < seq -> seq + Z.of_nat (length rs) < 2 ^ 31 -> forall l, l ∈ numbered seq rs -> 0 < l.1 < 2 ^ 31).
      { intros seq rs. revert seq. induction rs as [|r rs IH]; intros seq H0 H1 l0; cbn [numbered]; [by intros ?%elem_of_nil|]. intros [->|Hx]%elem_of_cons; [cbn [length] in H1; cbn; lia|]. apply (IH (seq + 1)); [lia| |done]. cbn [length] in H1. lia. }
      apply (Hgen (1 + Z.of_nat lost) recs); [lia|lia|done]. }
    unfold newer, i32, u32. destruct (Z.ltb_spec after l.1); [apply Z.ltb_lt|apply Z.ltb_ge]; div_lia.
Qed.
End Reading.

(** ** Starting *)

Section Init.
Context {W : Type} {P : LogPort W} {C : LogConf}.
Abbreviation St := (mach log W log_obs).

(** A start that succeeds leaves a fresh ring behind the hook; one that fails
    leaves no ring, so that the next call tries again. *)
Lemma log_init_fresh (s : St) : (forall w b, (p_ring w).1 = Some b -> length b = RING_SIZE) -> l_buf (m_sm s) = None -> l_partial (m_sm s) = [] ->
  let '(r, s') := espos_log_init s in
  (r = ESP_OK /\ fresh_log (m_sm s') /\ OHook (Some HOOK) ∈ m_trace s') \/ (r = ESP_ERR_NO_MEM /\ l_buf (m_sm s') = None).
Proof.
  intros Hlaw Hb Hp. unfold espos_log_init, mbind, act_bind, gets, id. rewrite Hb. unfold query. destruct (p_mutex (m_world s)) as [lock w1]. cbn [m_sm m_world m_trace].
  pose proof (Hlaw w1) as Hl. destruct (p_ring w1) as [buf w2]. cbn [fst] in Hl. unfold mods, mret, act_ret, emit. cbn [m_sm m_world m_trace].
  destruct lock, buf as [b|]; cbn [negb orb]; rewrite ?bool_decide_eq_true_2, ?bool_decide_eq_false_2 by (by eauto || (by intros [? [=]])); cbn [negb]; try (right; done).
  cbn [m_sm m_world m_trace]. destruct (p_timer w2) as [[|] w3]; cbn [m_sm m_world m_trace]; [|right; done]. destruct (p_timer_start w3) as [[|] w4]; cbn [negb m_sm m_world m_trace]; [|right; done].
  unfold call. cbn [m_sm m_world m_trace]. destruct (p_set_vprintf (Some HOOK) w4) as [prev w5]. left. split; [done|]. pose proof ring_size_pos as HR. split; [|cbn; left].
  split; [|split; [done|exact Hp]]. split; [by eexists|by apply Hl|exact HR|done|apply Nat.le_0_l|symmetry; apply (Nat.Div0.mod_0_l RING_SIZE)|done|constructor].
Qed.
End Init.

(** ** Runs *)

#[export] Instance small_log : LogConf := {| RING_SIZE := 2048; LOG_LINE_MAX := 64; WALLCLOCK := true; RING_SIZE_range := ltac:(lia); LOG_LINE_MAX_range := ltac:(lia) |}.

(** A host whose clock prints the time it is given. *)
#[export] Instance clock_port : LogPort cstr := {|
  p_mutex w := (true, w); p_ring w := (Some (replicate 2048 0), w); p_timer w := (true, w); p_timer_start w := (true, w); p_set_vprintf _ w := (None, w);
  p_try_lock _ w := (true, w); p_wallclock _ w := (w, w) |}.

Definition log_started (now : string) : mach log cstr log_obs := exec espos_log_init (Mach log_zero (lit now) []).
(** The lines a reader collects. *)
Definition collect (a : list (Z * cstr)) (q : Z) (t : cstr) : bool * list (Z * cstr) := (true, a ++ [(q, t)]).
Definition lines_of (s : mach log cstr log_obs) (after : Z) (limit : nat) : list (Z * cstr) := (espos_log_read after limit collect (m_sm s) []).2.
Definition nl : cstr := [10].

Lemma log_started_fresh now : fresh_log (m_sm (log_started now)).
Proof.
  pose proof (log_init_fresh (Mach log_zero (lit now) [])) as Hi. unfold log_started, exec. destruct (espos_log_init (Mach log_zero (lit now) [])) as [r s'] eqn:E. cbn [snd].
  destruct Hi as [(_ & Hf & _)|[_ Hb]]; [intros w b E0; cbn [p_ring clock_port fst] in E0; apply (inj Some) in E0; rewrite <- E0; apply length_replicate|done|done|done|]. exfalso. apply (f_equal (fun x => bool_decide (is_Some (l_buf (m_sm x.2))))) in E. cbn [snd] in E. rewrite Hb in E. vm_compute in E. discriminate E.
Qed.

Lemma log_lines_exact_witness :
  let texts := [lit "I (12) tag: he"; lit "llo" ++ nl] in
  let s' := exec (hooks texts) (log_started "T") in
  let lines := cut_lines [] (heard (locked texts (log_started "T")) texts) in
  exists stored, let recs := foldl store [] stored in
    Forall2 stores (some_lines lines.1) stored /\ ring_rep (m_sm s') recs /\ numbers (m_sm s') (length stored - length recs) recs /\
    l_partial (m_sm s') = take LOG_LINE_MAX lines.2 /\ m_trace s' = reverse (texts ≫= forwarded (l_prev (m_sm (log_started "T")))) ++ m_trace (log_started "T").
Proof. exact (log_lines_exact [lit "I (12) tag: he"; lit "llo" ++ nl] (log_started "T") (log_started_fresh "T")). Defined.

Example log_sample :
  lines_of (exec (hooks [lit "I (12) tag: he"; lit "llo" ++ nl; nl; lit "plain" ++ [13] ++ nl; lit "W (13) x" ++ nl]) (log_started "T")) 1 0 =
  [(2, lit "plain"); (3, lit "W (13|T) x")].
Proof. vm_compute. reflexivity. Qed.

Definition sample_log : log := m_sm (exec (hooks [lit "one" ++ nl; lit "two" ++ nl]) (log_started "T")).

Lemma sample_log_rep : ring_rep sample_log [lit "one"; lit "two"] /\ numbers sample_log 0 [lit "one"; lit "two"].
Proof.
  split; [split|split_and!; vm_compute; reflexivity].
  - apply (bool_decide_eq_true_1 (is_Some (l_buf sample_log))). vm_compute. reflexivity.
  - vm_compute. reflexivity.
  - apply Nat.ltb_lt. vm_compute. reflexivity.
  - vm_compute. reflexivity.
  - apply Nat.leb_le. vm_compute. reflexivity.
  - vm_compute. reflexivity.
  - vm_compute. reflexivity.
  - repeat constructor; apply Nat.leb_le; vm_compute; reflexivity.
Qed.

Lemma log_read_exact_witness :
  espos_log_read 1 5 collect sample_log [] = visit collect 5 0 (List.filter (newer 1) (numbered (1 + Z.of_nat 0) [lit "one"; lit "two"])) [] /\
  (0 <= 1 < 2 ^ 31 -> Z.of_nat (0 + length [lit "one"; lit "two"]) + 1 < 2 ^ 31 -> forall l, l ∈ numbered (1 + Z.of_nat 0) [lit "one"; lit "two"] -> newer 1 l = (1 <? l.1)).
Proof. exact (log_read_exact collect sample_log _ 0 1 5 [] (proj1 sample_log_rep) (proj2 sample_log_rep) ltac:(vm_compute; reflexivity)). Defined.




(** A line of 63 bytes is stamped, one of 64 is not. *)
Example long_line_unstamped :
  lines_of (exec (hooks [lit "I (12) tag: " ++ replicate 51 120 ++ nl; lit "I (13) tag: " ++ replicate 90 120 ++ nl]) (log_started "T")) 0 0 =
    [(1, lit "I (12|T) tag: " ++ replicate 50 120); (2, lit "I (13) tag: " ++ replicate 52 120)].
Proof. vm_compute. reflexivity. Qed.
